(* ===== verification/_CoqProject ===== *)
-Q . S2P
Prelude.v
RustStd.v
BTreeMap.v
Geometry.v
Names.v
Ir.v
Connectivity.v
Flatten.v
FlattenSpec.v
FlattenProps.v
Aie.v
AieProps.v
AiePl.v
Shm.v
ShmConc.v
Dpi.v
Paths.v
F64.v
Device.v
Cut.v
FloorGraph.v
FloorGraphSpec.v
FloorGraphProps.v
F64Spec.v
Lp.v
Partition.v
PartitionSearch.v
PartitionProps.v
PlacementProgram.v
PlacementExact.v
RouteIlp.v
Pipeline.v
PipelineProps.v
Plan.v
PlanProps.v
Dse.v
Xdc.v
XdcProps.v
F64Text.v
Clock.v
LpText.v
Protocol.v
Ini.v
Rtl.v
Control.v
VerilogSem.v
ControlProps.v
Topology.v
AsyncMmap.v
Mmap.v
MmapProps.v
MAxi.v
Fifos.v
AxiPipeline.v
DistributedControl.v
DistributedControlProps.v
Children.v
Passes.v
PassesProps.v
CosimSpec.v
Frt.v
Vbin.v
VrtCtrl.v
VrtSim.v
VrtDevice.v
VrtRuns.v
CosimContext.v
Cosim.v
CosimProps.v
Ffi.v
FfiProps.v
Cbc.v
CbcProps.v
Timing.v
Host.v
VitisLink.v
Implement.v
FloorplanStep.v
Package.v
Xrt.v
