(* ===== verification/Prelude.v ===== *)
(** * TAPA: verification of the compiler core and of the host runtime

    TAPA compiles task-parallel C++ programs to FPGA designs.  Its own logic is
    in two Rust workspaces: [src/tapa-core], the compiler driver, and
    [src/fpga-runtime], the host and co-simulation runtime.  This development
    models the parts of both that decide whether a design, or a run of one, is
    correct, and proves what they promise each other.

    ** How the parts interact

    The front end hands over a task graph ([tapa-ir/src/graph.rs]).  It is
    validated at the boundary, then flattened ([transforms.rs]): a hierarchy of
    upper tasks becomes one top task of leaf instances, with a record of where
    each instance came from.  The floorplanner ([tapa-floorplan]) builds a
    placement graph from the flat graph, validates the device it is given,
    partitions the graph over the slots of the device along straight cuts, and
    routes nets along enumerated slot paths; regions, slots and resources are
    shared vocabulary ([tapa-ir/src/floorplan.rs]), and so are the names of the
    RTL instances ([port.rs]).  Code generation ([tapa-codegen], over the module
    builder of [tapa-rtl] and the names of [tapa-protocol]) turns each upper task
    into a Verilog module: it instantiates the children, their FIFOs and the
    crossbars of shared memories, and writes the FSM that starts the children and
    reports the task done; a placed design gets the pipelines of the floorplan
    and distributed controllers instead of that FSM.  The floorplan step of the
    driver ([tapa-cli/src/steps/floorplan]) plans a design against the memory
    connectivity it is given, publishes the plan, or implements several plans
    with the vendor tools ([tapa-xilinx]) and publishes the fastest.

    At run time a host program holds an instance of the design through a C
    interface ([frt/src/ffi.rs]) over one of several devices: a board behind XRT
    ([frt/src/xrt]), a board or a simulated board behind VRT ([frt/src/vrt]), or a
    co-simulation ([frt/src/cosim]).  A co-simulated design exchanges tokens with the host
    through shared-memory queues ([frt-shm/src/queue.rs]), created by the context
    of [frt-cosim] and reached by the simulator through DPI entry points
    ([frt-dpi]).

    ** The files

    - [Prelude]: the result monad [res] with [Ok], [Err] (a Rust [Err]) and
      [Panic] (a Rust panic, or the end of the fuel of a recursion); early-exit
      loops; machine integers; the [no panic] predicate [yields]; lemmas and
      tactics shared by all files.
    - [RustStd]: the parts of the standard library of Rust the sources use:
      string splitting, trimming, number parsing and printing.
    - [BTreeMap]: [BTreeMap] as a sorted association list; the class [OrdKey]
      is the key ordering the maps are written against, and its instances are
      the orders of the key types ([Ord] in Rust).
    - [Geometry]: [tapa-ir/src/floorplan.rs]: areas, regions, slot tags.
    - [Names]: identifier sanitizing and generated instance names ([port.rs],
      [floorplan.rs]).
    - [Ir]: the task graph and its boundary validation ([graph.rs], [task.rs],
      [instance.rs], [interconnect.rs], [memory.rs], [bindings.rs], [port.rs]).
    - [Connectivity]: memory banks and binding lists ([connectivity.rs]).
    - [Flatten]: [transforms.rs]; [FlattenSpec] has the invariants of the
      traversal and its termination, [FlattenProps] the theorems.
    - [Aie]: the AI Engine half of a task graph and the projection to its PL
      half ([tapa-ir/src/aie.rs]); [AieProps] has the theorems about the
      partition, [AiePl] those about the projection.
    - [Shm]: the shared-memory queue, bytes and all ([queue.rs]); [ShmConc]:
      the same operations cut into atomic steps of a producer, a consumer and an
      observer that interleave freely.
    - [Dpi]: the DPI streams, the AXI buffers and the context ([frt-dpi/src]).
    - [Paths]: route enumeration ([route/paths.rs]).
    - [Device]: the device grid and its validation ([device/model.rs]).
    - [Cut]: the cuts of the partitioner ([partition/cut.rs]).
    - [FloorGraph]: the placement graph ([graph/]); [FloorGraphSpec] has the
      invariant of the builder, [FloorGraphProps] the theorems.
    - [F64]: [f64] as the binary64 floats of the Standard Library's
      specification; [F64Spec] has the exact value of each operation (a float is
      an integer number of units of 2^-1074), from which the theorems about
      limits follow.
    - [F64Text]: words and trimming; the decimal text of [f64].
      [Clock]: clock periods ([clock.rs]).
    - [Lp]: the solver interface ([solver/]): programs, incumbent validation,
      one-of-k choices, lexicographic refinement.  [LpText]: the text a program
      is written to ([lp_writer.rs]).  [Cbc]: the backend that runs the solver
      and reads its solution file ([cbc.rs]), with its theorems in [CbcProps].
    - [Partition]: the placement program ([partition/ilp.rs], with the rows of
      [solver/sparse.rs]): the schedule, the utilization ladder and its search,
      candidate regions, the variables and rows, the readback.
      [PartitionSearch] has the theorems about the ladder, [PartitionProps]
      those about candidates and accepted placements; the bookkeeping of slot
      usage is in [Geometry].  [PlacementProgram] says what each group of rows
      means; [PlacementExact] relates the solutions of the whole program to the
      legal placements.
    - [RouteIlp]: the routing program ([route/ilp.rs]); [Pipeline]: routes to
      pipeline registers and realized usage ([pipeline/plan.rs]), with its
      theorems in [PipelineProps].
    - [Plan]: the planner over all of these, with device selection, options and
      the work state it reads ([plan/], [device/select.rs], [work_state.rs]);
      [PlanProps] says what a returned plan guarantees.  [Dse]: the exploration
      of utilization caps around the planner ([dse.rs]).
    - [Xdc]: the Tcl constraints of a result ([xdc.rs]), line by line; [XdcProps]
      has the theorems about patterns, diagnostics and emission.
    - [Ini]: the connectivity configurations of the vendor flows
      ([tapa-xilinx/src/connectivity.rs]).
    - [Protocol]: handshake, stream and AXI names and widths ([tapa-protocol]).
      [Rtl]: RTL modules, their builder and their text ([tapa-rtl]).
    - [Control]: the FSM of a task and those of its children
      ([instance_signals.rs], [children/fsm.rs], [program.rs]).  [VerilogSem]: a
      cycle semantics of the Verilog that is generated; [ControlProps]: the FSM
      module under it.
    - [Topology]: the state of code generation ([state/]).  [Mmap]: memory
      connections over the hierarchy and the catalog of direct interfaces
      ([state/mmap/]), with theorems in [MmapProps].  [AsyncMmap], [MAxi],
      [Fifos], [AxiPipeline] and [DistributedControl]
      ([DistributedControlProps]): the passes of those names ([passes/]).
      [Children]: the instances of the children ([passes/children/]) and the FSM
      they build.  [Passes]: the inputs of a task, the eight passes in order,
      shells of ignored tasks ([template.rs]), and the driver [generate_rtl];
      [PassesProps]: code generation end to end.
    - [Timing]: the timing report of a link and the frequency a period asks for;
      [Host]: paths, invocations, and the interface to the file system and the
      tools; [VitisLink]: hardware links ([tapa-xilinx]).  [Implement]: the
      implementation of candidates, and [FloorplanStep]: the step around it
      ([steps/floorplan]).
    - [CosimSpec]: kernel specifications, scalar bindings and the configuration
      of the simulator ([frt-cosim/src/metadata], [frt-shm/src/config.rs]).
    - [Frt]: errors, buffers, and the environment of the runtime as a history of
      events it answers from.  [Vbin]: archives for VRT.  [VrtCtrl]: the
      [ap_ctrl] handshake over any backend; [VrtSim] and [VrtDevice] are the two
      backends, and [VrtRuns] drives both through concrete runs.
    - [CosimContext]: the shared memory of a co-simulation; [Cosim]: the device,
      whose simulator is a process that may die, hang or refuse; [CosimProps]
      follows it through any sequence of calls.  [Ffi]: the C interface over any
      device; [FfiProps]: closing a handle.  [Package]: what [tapa pack] and the
      runtime make of an archive, and the metadata of a Vitis kernel.  [Xrt]: what is read of an xclbin, the
      programs that control an AI Engine graph, and the device over XRT.

    Where two parts meet at an interface the development has a class for it,
    with its laws in a second class where theorems need them: [OrdKey] (key
    orders), [ControlChannel] and [ControlChannelSpec] (a VRT backend), [Device]
    and [DeviceSpec] (what the C interface holds), [Host] and [HostSpec] (file
    system and tools), [ImplementationFlow] (RTL, packages and JSON for the
    implementation of candidates), [ThreadPool] and [ThreadPoolSpec] (the order
    in which workers finish), [FloorplanStore] and [PlannerTexts] (what the
    floorplan step loads and prints), [XrtLibraries] (XML, JSON and the
    library of XRT), [RtlLibraries] and [UnicodeTables] (code
    generation).

    A Rust method [T::m] is the definition [m], in a Module [T] where names
    would clash; a loop body that is long has a definition of its own, named
    after what one iteration does; mutated state is passed and returned.

    ** What the theorems show

    - Queue: the byte-level operations refine a bounded FIFO on every branch;
      creating and opening agree; opening validates hostile headers; and for any
      interleaving of atomic steps tokens arrive complete, in order, and never
      more than [depth] are in flight.  The DPI handshakes refine the same FIFO.
      AXI accesses stay in their buffer.
    - Flattening: it terminates on acyclic hierarchies; its occurrences are
      exactly the invocations reached; every FIFO is kept once; endpoints are
      resolved soundly and completely; array elements compose through scopes;
      the result is a two-level graph.
    - AI Engine: deriving the partition ends without panic; its kernels are the
      leaves on the AI Engine, on distinct tiles, each port bound to the stream or
      the scalar that its name stands for in the hierarchy; the PLIOs are the FIFOs
      with one end on the AI Engine; a kernel is
      ordered exactly when a stream cycle runs through it; the PL projection has
      no end on the AI Engine left.
    - Floorplan: region tags round-trip; neighbours are adjacent cells; grid
      validation accepts exactly the complete grids; island areas are sums over
      slots; cuts are clean bipartitions whose capacity is that of the wires
      they cross; route enumeration finds exactly the simple paths within the
      budget, in order.
    - Placement: the integral solutions of the placement program are exactly
      the legal placements; the utilization ladder ends, rises strictly and stops at its
      ceiling; galloping and bisecting it finds what a linear walk would, when no
      attempt fails; the
      candidates of a vertex are exactly its legal regions, and raising the
      limit only adds to them; whatever the solver answers, an accepted
      placement respects tags, derated capacities and the grid, and its usage is
      exact.
    - Routing and pipelining: whatever the solver answers, planned routes are
      simple paths of the device, one per channel that crosses slots, within the
      wires of every border; each scheme places exactly its registers; realized
      usage is the placed usage plus what the plan generates, within the derated
      capacity; one-of-k choices are read back exactly.
    - Planner: a returned plan is legal as a whole, whatever the solvers answer;
      the caps of an exploration are an exact grid; the sweep over them ends,
      is the one run of its rules, descends, and returns distinct legal plans.
    - Constraints: what passes validation is rendered, each pblock once with
      exactly its cells; cell patterns match only their own instance; escaped
      diagnostics are inert Tcl text.
    - Code generation: in the modules the driver returns, the FSM module of an
      upper task answers a start once its children have answered theirs, and
      cycle by cycle it refines a system of phases; memory connections are
      exactly the bindings of the children; the IDs and ranges of a crossbar tell
      its slaves and channels apart, and each slave is wired to the child it was
      counted for, when no child takes a memory through two ports; pipelines and controllers follow the floorplan exactly, and a
      launch bundle delivers each value it is packed with.
    - Placement graph: building it never panics; widths and areas account for
      each net and FIFO once; names are unambiguous; co-located instances follow
      their hosts.
    - Task graph: boundary validation accepts exactly the well-bound graphs;
      names are legal identifiers; memory geometry and bank bindings are sound.
    - Text and solver: a clock period of up to [2^50] picoseconds survives
      its decimal text; a connectivity
      configuration binds exactly what its sections declare; an incumbent read
      from a solution file has been checked against every row and domain, within
      the tolerance.
    - Links and candidates: a requested frequency is the floor of what the period
      allows; what a successful link reports was made by the tools it started;
      the fastest candidate that met its timing is the one published, once; the
      constraints file is present only beside a plan published in full, and the
      memory inputs of a plan are its direct ports with the banks they bind.
    - VRT: over any backend a start writes the arguments before the start bit, and
      waiting ends; simulated buffers are aligned and disjoint; each native
      buffer is closed once, and not while the device knows that a kernel runs; an archive is
      extracted below its destination.
    - Packages: the two ends of an archive agree on the arguments of the kernel;
      grouping the declarations of a kernel does not change how it is read.
    - XRT: each handle XRT hands out is given back exactly once, children before
      parents, also when opening fails; the program that starts an AI Engine graph
      decodes to exactly the intended register writes.
    - Co-simulation: whatever the simulator does, the device knows each one alive,
      host memory is written only when none is, finishing and closing end the
      simulation, as long as no second [exec] starts another over it (without a
      timeout, finishing lasts as long as the simulator does); the check of a resumed run accepts exactly the complete maps.

    ** Fuel, bounds, and what is abstracted

    Recursions without a structural argument take fuel: flattening has one
    unit per definition plus one, enough for an acyclic hierarchy
    ([FlattenSpec]); on a cyclic one the source overflows its stack, and the
    model is [Panic].  Route enumeration has the hop budget plus two
    ([Paths.visit_spec]), deriving an AI Engine partition one more than the tasks
    and, for cycles, than the edges ([AieProps.aie_derive_total]).  Aggregating memory
    connections has one more than the tasks
    ([MmapProps.cached_aggregation_is_plain]).  The sweep of an exploration has as many units as the
    maximum holds steps, plus three ([Dse.sweep_exact]).  Waiting polls a clock: the loops of [VrtCtrl] have one unit
    per interval left ([VrtCtrl.finish_ends]), and the grace period of a
    terminated simulator at most 102 polls ([CosimProps.finish_ends_simulation]).  Opening an XRT device
    tries 64 boards ([Xrt.load_device_spec]).
    Splitting a text has its length.  Machine integers are [Z] at their width: unchecked
    additions wrap, as in the release profile the project builds with;
    [checked_add] is [checked_add32] or [checked_add64].  Vertex indices
    ([usize]) are [nat].  Strings are byte strings (Rust strings are UTF-8; the
    theorems about identifiers say where that matters).
    The MILP solver is an external process: a function argument of which
    nothing is assumed, as the code validates what it returns; in [Cbc] the file
    it writes is the argument.  The same holds for the tools of a link and the
    candidates a pool implements: they may answer and write anything.
    The operating system, XRT, libvrtd, a simulator and host memory are one
    environment, a function from the events so far to the next answer; theorems
    hold for every environment, and termination asks that the clock advance by
    what is slept.  The iteration order of a Rust [HashMap] is an argument
    ([HashOrder]).
    The Verilog parser, the split of the original text and the regular
    expressions of code generation are the operations of a class
    ([RtlLibraries]) of which nothing is assumed, and so are the tables of
    Unicode letters ([UnicodeTables]), apart from what they say of ASCII.  The
    cycle semantics is two-state, one clock, with wires at their settled values.
    That a scalar argument is as wide as the port it feeds is a hypothesis where
    it matters: the front end guarantees it.
    Memory mapping, files and segments opened by path are arguments of the
    definitions, with the documented behaviour as a hypothesis.  Atomics are
    sequentially consistent in [ShmConc]; the sources use acquire and release
    on one producer and one consumer.

    ** Not modelled

    JSON encoding and hashes of it, logging; the MILP solver itself; the Verilog
    parser; XML and archive readers: libraries, whose results are arguments.
    Parsing the embedded device tables is an argument of the planner.
    Of the runtime: loading libraries and the environment variables of an
    emulation; the runners of the simulators with their test benches, and the C shims
    of the simulators, which are text templates and [extern] entry points.
    Of the driver: argument parsing, the front end, and the steps around HLS,
    packaging, the AI Engine compiler and SLASH, which assemble scripts and
    archives for programs outside the repository. *)

From Stdlib Require Export ZArith Lia Bool String Ascii.
From stdpp Require Export base tactics list gmap strings sorting.

#[global] Set Default Proof Using "Type".
#[global] Open Scope string_scope.
#[global] Open Scope list_scope.
#[global] Open Scope Z_scope.
#[global] Arguments String.append !_ _ : simpl nomatch.

(** ** Outcomes of fallible Rust code

    [Ok] and [Err] are the two arms of Rust's [Result]; [Panic] is an
    unwinding panic ([expect], [unwrap], an out-of-range index). *)
Inductive res (E A : Type) : Type :=
| Ok (a : A)
| Err (e : E)
| Panic.
Arguments Ok {E A} a.
Arguments Err {E A} e.
Arguments Panic {E A}.

Definition rbind {E A B} (m : res E A) (k : A -> res E B) : res E B :=
  match m with
  | Ok a => k a
  | Err e => Err e
  | Panic => Panic
  end.

(** [Option::ok_or_else], the [?] on an option inside a fallible function. *)
Definition ok_or {E A} (o : option A) (e : E) : res E A :=
  match o with Some a => Ok a | None => Err e end.

(** [Option::expect] / [Option::unwrap]. *)
Definition expect {E A} (o : option A) : res E A :=
  match o with Some a => Ok a | None => Panic end.

Definition map_err {E F A} (f : E -> F) (m : res E A) : res F A :=
  match m with Ok a => Ok a | Err e => Err (f e) | Panic => Panic end.

Declare Scope rust_scope.
Delimit Scope rust_scope with rust.
Notation "'let!' x ':=' m 'in' k" := (rbind m (fun x => k))
  (at level 10, x pattern, m at level 200, k at level 200) : rust_scope.
Notation "'let?' x ':=' o 'in' k" := (match o with Some x => k | None => None end)
  (at level 10, x pattern, o at level 200, k at level 200) : rust_scope.
#[global] Open Scope rust_scope.

(** A fallible loop body run over a list, threading an accumulator: a Rust
    [for] whose body uses [?]. *)
Fixpoint try_fold {E A B} (f : A -> B -> res E A) (acc : A) (l : list B) : res E A :=
  match l with
  | [] => Ok acc
  | x :: l' => let! acc' := f acc x in try_fold f acc' l'
  end.

(** A fallible loop with no accumulator. *)
Fixpoint try_each {E B} (f : B -> res E unit) (l : list B) : res E unit :=
  match l with
  | [] => Ok tt
  | x :: l' => let! _ := f x in try_each f l'
  end.

(** A fallible map: [collect] into a [Result]. *)
Fixpoint try_map {E A B} (f : A -> res E B) (l : list A) : res E (list B) :=
  match l with
  | [] => Ok []
  | x :: l' => let! y := f x in let! ys := try_map f l' in Ok (y :: ys)
  end.

Definition is_ok {E A} (m : res E A) : bool := match m with Ok _ => true | _ => false end.

Lemma rbind_ok {E A B} (m : res E A) (k : A -> res E B) b :
  rbind m k = Ok b <-> exists a, m = Ok a /\ k a = Ok b.
Proof. destruct m; simpl; split; [eauto| | | | |]; try done; intros (? & [= ->] & ?); done. Qed.

Lemma ok_or_ok {E A} (o : option A) (e : E) a : ok_or o e = Ok a <-> o = Some a.
Proof. destruct o; simpl; naive_solver. Qed.

Lemma expect_ok {E A} (o : option A) a : @expect E A o = Ok a <-> o = Some a.
Proof. destruct o; simpl; naive_solver. Qed.

Lemma try_fold_app {E A B} (f : A -> B -> res E A) l1 l2 acc :
  try_fold f acc (l1 ++ l2) = rbind (try_fold f acc l1) (fun a => try_fold f a l2).
Proof. revert acc; induction l1 as [|x l1 IH]; intros acc; simpl; [done|]. destruct (f acc x); simpl; auto. Qed.

Lemma NoDup_flat_map {A B} (f : A -> list B) l :
  NoDup l -> (forall x, x ∈ l -> NoDup (f x)) ->
  (forall x y z, x ∈ l -> y ∈ l -> z ∈ f x -> z ∈ f y -> x = y) -> NoDup (flat_map f l).
Proof.
  induction 1 as [|x l Hx Hl IH]; intros Hf Hd; simpl; [constructor|]. apply NoDup_app. split; [apply Hf; by left|]. split.
  - intros z Hz (y & Hy & Hzy)%list_elem_of_In%in_flat_map. apply list_elem_of_In in Hy, Hzy.
    assert (x = y) as -> by (eapply Hd; [by left|by right|done|done]). done.
  - apply IH; [intros; apply Hf; by right|]. intros a b z Ha Hb. apply Hd; by right.
Qed.

(** An invariant of every iteration is an invariant of the loop. *)
Lemma try_fold_inv {E A B} (P : A -> Prop) (f : A -> B -> res E A) l acc acc' :
  (forall a x a', x ∈ l -> P a -> f a x = Ok a' -> P a') ->
  P acc -> try_fold f acc l = Ok acc' -> P acc'.
Proof.
  revert acc; induction l as [|x l IH]; simpl; intros acc Hstep Hacc Heq.
  - naive_solver.
  - apply rbind_ok in Heq as (a & Hf & Heq).
    eapply (IH a); eauto.
    + intros; eapply Hstep; eauto. by right.
    + eapply Hstep; eauto. by left.
Qed.

(** Induction over the iterations of a loop that ended normally, with the
    elements already processed at hand. *)
Lemma try_fold_ind {E A B} (P : list B -> A -> Prop) (f : A -> B -> res E A) l acc acc' :
  P [] acc ->
  (forall l1 x l2 a a', l = l1 ++ x :: l2 -> P l1 a -> f a x = Ok a' -> P (l1 ++ [x]) a') ->
  try_fold f acc l = Ok acc' -> P l acc'.
Proof.
  intros H0 Hstep Hf.
  cut (forall l1 l2 a, l = l1 ++ l2 -> P l1 a -> try_fold f a l2 = Ok acc' -> P l acc').
  { intros Hc. by apply (Hc [] l acc). }
  clear H0 Hf. intros l1 l2; revert l1; induction l2 as [|x l2 IH]; intros l1 a -> Ha Hf; simpl in *.
  - rewrite app_nil_r. by injection Hf as <-.
  - apply rbind_ok in Hf as (a' & Hx & Hf). eapply (IH (l1 ++ [x]) a'); [by rewrite <- app_assoc| |done].
    by eapply Hstep.
Qed.

(** A reflexive-transitive relation of every iteration is one of the loop. *)
Lemma try_fold_rel {E A B} (R : A -> A -> Prop) `{!PreOrder R} (f : A -> B -> res E A) l acc acc' :
  (forall a x a', x ∈ l -> f a x = Ok a' -> R a a') ->
  try_fold f acc l = Ok acc' -> R acc acc'.
Proof.
  intros Hstep Heq.
  apply (try_fold_inv (R acc) f l acc acc'); [|reflexivity|done].
  intros a x a' Hx Ha Hf. etransitivity; eauto.
Qed.

Lemma try_each_ok {E B} (f : B -> res E unit) l :
  try_each f l = Ok tt <-> Forall (fun x => f x = Ok tt) l.
Proof.
  induction l as [|x l IH]; simpl.
  - split; constructor.
  - rewrite Forall_cons, rbind_ok. split.
    + intros ([] & ? & ?). split; [done|]. by apply IH.
    + intros [? ?]. exists tt. split; [done|]. by apply IH.
Qed.

(** A loop ends normally or the way one of its iterations ends. *)
Lemma try_each_cases {E B} (P : res E unit -> Prop) (f : B -> res E unit) l :
  P (Ok tt) -> (forall x, x ∈ l -> P (f x)) -> P (try_each f l).
Proof.
  intros HOk. induction l as [|x l IH]; simpl; intros Hf; [done|].
  pose proof (Hf x ltac:(by left)) as Hx. destruct (f x) as [[]|e|]; simpl; [|done..].
  apply IH. intros y Hy. apply Hf. by right.
Qed.

Lemma try_map_Forall2 {E A B} (f : A -> res E B) l l' :
  try_map f l = Ok l' <-> Forall2 (fun a b => f a = Ok b) l l'.
Proof.
  split.
  - revert l'; induction l as [|x l IH]; intros l' H; simpl in H; [injection H as <-; constructor|].
    apply rbind_ok in H as (y & Hy & (ys & Hys & [= <-])%rbind_ok). constructor; auto.
  - induction 1 as [|x y l l' Hx _ IH]; simpl; [done|]. by rewrite Hx, IH.
Qed.

(** The first failing element decides the error of a loop. *)
Lemma try_each_err {E B} (f : B -> res E unit) l e :
  try_each f l = Err e <->
  exists l1 x l2, l = l1 ++ x :: l2 /\ Forall (fun y => f y = Ok tt) l1 /\ f x = Err e.
Proof.
  induction l as [|x l IH]; simpl.
  - split; [done|]. intros (l1 & x & l2 & H & _). by destruct l1.
  - destruct (f x) as [[]|e'|] eqn:Hx; simpl.
    + rewrite IH. split.
      * intros (l1 & y & l2 & -> & H1 & H2). exists (x :: l1), y, l2. auto.
      * intros (l1 & y & l2 & H & H1 & H2). destruct l1 as [|z l1]; simplify_eq/=; try congruence.
        apply Forall_cons in H1 as [_ H1]. by exists l1, y, l2.
    + split.
      * intros [= ->]. exists [], x, l. auto.
      * intros (l1 & y & l2 & H & H1 & H2). destruct l1 as [|z l1]; simplify_eq/=; try congruence.
        apply Forall_cons in H1 as [H1 _]. congruence.
    + split; [done|].
      intros (l1 & y & l2 & H & H1 & H2). destruct l1 as [|z l1]; simplify_eq/=; try congruence.
      apply Forall_cons in H1 as [H1 _]. congruence.
Qed.

(** Two loops in step: what one does, the other does. *)
Lemma try_fold_sim {E A A' B} (R : A -> A' -> Prop) (f : A -> B -> res E A) (f' : A' -> B -> res E A') l acc acc' r :
  (forall a a' x b, x ∈ l -> R a a' -> f a x = Ok b -> exists b', f' a' x = Ok b' /\ R b b') ->
  R acc acc' -> try_fold f acc l = Ok r -> exists r', try_fold f' acc' l = Ok r' /\ R r r'.
Proof.
  revert acc acc'; induction l as [|x l IH]; intros acc acc' Hstep HR H; simpl in *.
  - injection H as <-. by exists acc'.
  - apply rbind_ok in H as (b & Hb & H). destruct (Hstep acc acc' x b ltac:(by left) HR Hb) as (b' & -> & HR').
    apply (IH b b'); [|done|done]. intros. eapply Hstep; [by right|done|done].
Qed.

(** [yields Q m]: [m] does not panic, and a value it returns satisfies [Q]. *)
Definition yields {E A} (Q : A -> Prop) (m : res E A) : Prop :=
  match m with Ok a => Q a | Err _ => True | Panic => False end.

Lemma yields_bind {E A B} (Q : B -> Prop) (m : res E A) (k : A -> res E B) :
  yields (fun a => yields Q (k a)) m -> yields Q (rbind m k).
Proof. by destruct m. Qed.

(** Programs that do not panic, whatever they return. *)
Lemma rbind_fine {E A B} (m : res E A) (k : A -> res E B) : m <> Panic -> (forall a, m = Ok a -> k a <> Panic) -> rbind m k <> Panic.
Proof. intros Hm Hk. destruct m as [a|e|]; [by apply Hk|done|done]. Qed.

Lemma ok_or_fine {E A} (o : option A) (e : E) : ok_or o e <> Panic.
Proof. by destruct o. Qed.

Lemma map_err_fine {E F A} (f : E -> F) (m : res E A) : m <> Panic -> map_err f m <> Panic.
Proof. by destruct m. Qed.

Lemma try_map_fine {E A B} (f : A -> res E B) l : (forall a, f a <> Panic) -> try_map f l <> Panic.
Proof. intros Hf. induction l as [|a l IH]; [done|]. cbn [try_map]. apply rbind_fine; [apply Hf|]. intros b _. by apply rbind_fine. Qed.

Lemma try_fold_fine {E A B} (f : A -> B -> res E A) l a : (forall a b, f a b <> Panic) -> try_fold f a l <> Panic.
Proof. intros Hf. revert a. induction l as [|b l IH]; intros a; [done|]. cbn [try_fold]. specialize (Hf a b). destruct (f a b); [apply IH|done|done]. Qed.

Lemma yields_mono {E A} (P Q : A -> Prop) (m : res E A) :
  (forall a, P a -> Q a) -> yields P m -> yields Q m.
Proof. destruct m; simpl; auto. Qed.

Lemma yields_ok_or {E A} (Q : A -> Prop) (o : option A) (e : E) :
  (forall a, o = Some a -> Q a) -> yields Q (ok_or o e).
Proof. destruct o; simpl; auto. Qed.

(** Loops that do not panic; [P] follows the elements still to process. *)
Lemma yields_try_fold {E A B} (P : list B -> A -> Prop) (f : A -> B -> res E A) l acc :
  P l acc ->
  (forall l1 x l2 a, l = l1 ++ x :: l2 -> P (x :: l2) a -> yields (P l2) (f a x)) ->
  yields (P []) (try_fold f acc l).
Proof.
  revert acc; induction l as [|x l IH]; intros acc Hacc Hstep; simpl; [done|].
  apply yields_bind. eapply yields_mono; [|by apply (Hstep [] x l)].
  intros a Ha. apply IH; [done|]. intros l1 y l2 b ->. apply (Hstep (x :: l1)). done.
Qed.

Lemma try_fold_ext {E A B} (f g : A -> B -> res E A) l acc :
  (forall a x, x ∈ l -> f a x = g a x) -> try_fold f acc l = try_fold g acc l.
Proof.
  revert acc; induction l as [|x l IH]; intros acc Hext; simpl; [done|].
  rewrite Hext by (by left). destruct (g acc x); simpl; [|done..].
  apply IH. intros a' y Hy. apply Hext. by right.
Qed.

(** ** Machine integers

    A [w]-bit unsigned value is a [Z]; the operations below are Rust's, at
    their width.  Unchecked [+] wraps (release profile, which is what the
    build rules produce); [checked_*] return [None]. *)
Definition U32_MAX : Z := 4294967295.
Definition U64_MAX : Z := 18446744073709551615.
Definition ISIZE_MAX : Z := 9223372036854775807.

Definition in_u32 (z : Z) : Prop := 0 <= z <= U32_MAX.
Definition in_u64 (z : Z) : Prop := 0 <= z <= U64_MAX.

Definition wrap32 (z : Z) : Z := z mod 4294967296.
Definition wrap64 (z : Z) : Z := z mod 18446744073709551616.

Definition fits (max z : Z) : option Z := if (0 <=? z) && (z <=? max) then Some z else None.

Definition checked_add32 (a b : Z) : option Z := fits U32_MAX (a + b).
Definition checked_sub32 (a b : Z) : option Z := fits U32_MAX (a - b).
Definition checked_mul32 (a b : Z) : option Z := fits U32_MAX (a * b).
Definition checked_add64 (a b : Z) : option Z := fits U64_MAX (a + b).
Definition checked_sub64 (a b : Z) : option Z := fits U64_MAX (a - b).
Definition checked_mul64 (a b : Z) : option Z := fits U64_MAX (a * b).
Definition saturating_sub (a b : Z) : Z := Z.max 0 (a - b).

(** [u32::try_from(index).expect(..)] on a [usize] index. *)
Definition u32_of_usize {E} (n : nat) : res E Z :=
  if Z.of_nat n <=? U32_MAX then Ok (Z.of_nat n) else Panic.

Lemma fits_Some max z z' : fits max z = Some z' <-> z' = z /\ 0 <= z <= max.
Proof.
  unfold fits. destruct ((0 <=? z) && (z <=? max)) eqn:H; split.
  - intros [= <-]. lia.
  - by intros [-> _].
  - done.
  - intros [_ ?]. lia.
Qed.

Lemma fits_None max z : fits max z = None <-> ~ (0 <= z <= max).
Proof. unfold fits. destruct ((0 <=? z) && (z <=? max)) eqn:H; split; intros; first [done | lia]. Qed.

Lemma wrap32_id z : in_u32 z -> wrap32 z = z.
Proof. unfold in_u32, U32_MAX, wrap32. intros. apply Z.mod_small. lia. Qed.

Lemma wrap64_id z : in_u64 z -> wrap64 z = z.
Proof. unfold in_u64, U64_MAX, wrap64. intros. apply Z.mod_small. lia. Qed.

Lemma wrap32_range z : in_u32 (wrap32 z).
Proof. unfold in_u32, wrap32, U32_MAX. pose proof (Z.mod_pos_bound z 4294967296). lia. Qed.

(** Case analysis on the options and results a chain of [?] leaves behind. *)
Ltac res_step :=
  match goal with
  | H : rbind _ _ = Ok _ |- _ => apply rbind_ok in H as (? & ? & ?)
  | H : ok_or _ _ = Ok _ |- _ => apply ok_or_ok in H
  | H : expect _ = Ok _ |- _ => apply expect_ok in H
  | H : fits _ _ = Some _ |- _ => apply fits_Some in H as [? ?]
  | H : fits _ _ = None |- _ => apply fits_None in H
  | H : Ok _ = Ok _ |- _ => injection H as H
  | H : Err _ = Ok _ |- _ => discriminate H
  | H : Panic = Ok _ |- _ => discriminate H
  | H : Ok _ = Err _ |- _ => discriminate H
  end.
Ltac res_inv := repeat (res_step; simplify_eq/=).

(** Splits a boolean condition in the context into its propositional parts. *)
Ltac bool_hyps :=
  repeat match goal with
  | H : _ && _ = true |- _ => apply andb_true_iff in H as [? ?]
  | H : _ || _ = false |- _ => apply orb_false_iff in H as [? ?]
  | H : negb _ = true |- _ => apply negb_true_iff in H
  | H : negb _ = false |- _ => apply negb_false_iff in H
  | H : (_ <=? _) = true |- _ => apply Z.leb_le in H
  | H : (_ <=? _) = false |- _ => apply Z.leb_gt in H
  | H : (_ <? _) = true |- _ => apply Z.ltb_lt in H
  | H : (_ <? _) = false |- _ => apply Z.ltb_ge in H
  | H : (_ =? _) = true |- _ => apply Z.eqb_eq in H
  | H : (_ =? _) = false |- _ => apply Z.eqb_neq in H
  | H : bool_decide _ = true |- _ => apply bool_decide_eq_true_1 in H
  | H : bool_decide _ = false |- _ => apply bool_decide_eq_false_1 in H
  end.

(** ** Generic list facts *)

(** Rust's [iter().enumerate()]. *)
Definition enumerate {A} (l : list A) : list (nat * A) := zip (seq 0 (length l)) l.

Lemma enumerate_snoc {A} (l : list A) x : enumerate (l ++ [x]) = enumerate l ++ [(length l, x)].
Proof.
  unfold enumerate. rewrite length_app, seq_app. simpl. by rewrite zip_with_app by (by rewrite length_seq).
Qed.

Lemma length_enumerate {A} (l : list A) : length (enumerate l) = length l.
Proof. unfold enumerate. rewrite length_zip, length_seq. apply Nat.min_id. Qed.

Lemma lookup_enumerate {A} (l : list A) i x : enumerate l !! i = Some x <-> x.1 = i /\ l !! i = Some x.2.
Proof.
  unfold enumerate. destruct x as [j a]. rewrite lookup_zip_Some, lookup_seq. simpl. split; [intros [[-> _] H]|intros [-> H]]; [done|].
  split; [|done]. split; [done|]. by apply lookup_lt_Some in H.
Qed.

Lemma try_map_total {E A B} (f : A -> res E B) (g : A -> B) l : Forall (fun x => f x = Ok (g x)) l -> try_map f l = Ok (map g l).
Proof. induction 1 as [|x l Hx _ IH]; [done|]. cbn [try_map map]. by rewrite Hx, IH. Qed.

Lemma map_err_ok {E F A} (f : E -> F) (m : res E A) a : map_err f m = Ok a <-> m = Ok a.
Proof. destruct m; simpl; split; intros; by simplify_eq. Qed.

(** [lo..hi] on unsigned integers. *)
Definition zrange (lo hi : Z) : list Z := map (fun i => lo + Z.of_nat i) (seq 0 (Z.to_nat (hi - lo))).

Lemma elem_of_zrange lo hi z : z ∈ zrange lo hi <-> lo <= z < hi.
Proof.
  unfold zrange. rewrite list_elem_of_In, in_map_iff. split.
  - intros (i & <- & Hi%in_seq). lia.
  - intros H. exists (Z.to_nat (z - lo)). rewrite in_seq. lia.
Qed.

Lemma NoDup_zrange lo hi : NoDup (zrange lo hi).
Proof.
  unfold zrange. apply NoDup_ListNoDup, Finite.Injective_map_NoDup, NoDup_ListNoDup, NoDup_seq.
  intros i j. lia.
Qed.

Lemma length_zrange lo hi : length (zrange lo hi) = Z.to_nat (hi - lo).
Proof. unfold zrange. by rewrite length_map, length_seq. Qed.

Lemma zrange_snoc lo hi : lo <= hi -> zrange lo (hi + 1) = zrange lo hi ++ [hi].
Proof.
  intros. unfold zrange. replace (Z.to_nat (hi + 1 - lo)) with (S (Z.to_nat (hi - lo))) by lia.
  rewrite seq_S, map_app. simpl. do 2 f_equal. lia.
Qed.

Lemma zrange_cons lo hi : lo < hi -> zrange lo hi = lo :: zrange (lo + 1) hi.
Proof.
  intros. unfold zrange. replace (Z.to_nat (hi - lo)) with (S (Z.to_nat (hi - (lo + 1)))) by lia.
  simpl. f_equal; [lia|]. rewrite <- seq_shift, map_map. apply map_ext. lia.
Qed.

Lemma zrange_nil lo hi : hi <= lo -> zrange lo hi = [].
Proof. intros. unfold zrange. by replace (Z.to_nat (hi - lo)) with 0%nat by lia. Qed.

Lemma map_zrange_ext {A} (f g : Z -> A) lo hi : (forall k, lo <= k < hi -> f k = g k) -> map f (zrange lo hi) = map g (zrange lo hi).
Proof. intros H. apply map_ext_in. intros k Hk%list_elem_of_In%elem_of_zrange. auto. Qed.

(** The sum of [f] over a list. *)
Definition zsum {A} (f : A -> Z) (l : list A) : Z := fold_right (fun x a => f x + a) 0 l.

Lemma zsum_app {A} (f : A -> Z) l1 l2 : zsum f (l1 ++ l2) = zsum f l1 + zsum f l2.
Proof. induction l1 as [|x l1 IH]; simpl; [done|]. lia. Qed.

Lemma zsum_ext {A} (f g : A -> Z) l : (forall x, f x = g x) -> zsum f l = zsum g l.
Proof. intros H. unfold zsum. induction l as [|x l IH]; simpl; [done|]. by rewrite H, IH. Qed.

(** [Iterator::find]. *)
Fixpoint find_first {A} (p : A -> bool) (l : list A) : option A :=
  match l with
  | [] => None
  | x :: l' => if p x then Some x else find_first p l'
  end.

Lemma find_first_Some {A} (p : A -> bool) l x :
  find_first p l = Some x -> x ∈ l /\ p x = true.
Proof.
  induction l as [|y l IH]; simpl; [done|].
  destruct (p y) eqn:Hy; intros; simplify_eq; [split; [left|]; done|].
  destruct IH; auto. split; [right|]; done.
Qed.

Lemma find_first_None {A} (p : A -> bool) l :
  find_first p l = None <-> Forall (fun x => p x = false) l.
Proof.
  induction l as [|y l IH]; simpl; [split; auto|].
  rewrite Forall_cons. destruct (p y) eqn:Hy; naive_solver.
Qed.

Lemma find_first_split {A} (p : A -> bool) l x :
  find_first p l = Some x ->
  exists l1 l2, l = l1 ++ x :: l2 /\ Forall (fun y => p y = false) l1 /\ p x = true.
Proof.
  induction l as [|y l IH]; simpl; [done|].
  destruct (p y) eqn:Hy; intros; simplify_eq.
  - exists [], l. auto.
  - destruct IH as (l1 & l2 & -> & H1 & H2); auto. exists (y :: l1), l2. auto.
Qed.

Create HintDb tapa.
#[export] Hint Resolve wrap32_range NoDup_zrange : tapa.
