(* ===== verification/RustStd.v ===== *)
(** * The parts of Rust's standard library the compiler core uses

    Byte strings ([str] and [String] as their UTF-8 bytes), decimal printing
    and parsing of unsigned integers.  Nothing here models repository code; the
    components build on it. *)

From S2P Require Import Prelude.

(** ** Characters and strings *)
Module Str.

Definition code (c : ascii) : Z := Z.of_N (N_of_ascii c).

(** [char::is_ascii_digit], [is_ascii_alphabetic], [is_ascii_alphanumeric]. *)
Definition is_digit (c : ascii) : bool := (48 <=? code c) && (code c <=? 57).
Definition is_upper (c : ascii) : bool := (65 <=? code c) && (code c <=? 90).
Definition is_lower (c : ascii) : bool := (97 <=? code c) && (code c <=? 122).
Definition is_alpha (c : ascii) : bool := is_upper c || is_lower c.
Definition is_alnum (c : ascii) : bool := is_alpha c || is_digit c.

Definition digit_val (c : ascii) : Z := code c - 48.
Definition digit_char (d : Z) : ascii := ascii_of_N (Z.to_N (d + 48)).

(** All bytes of a string satisfy [p]. *)
Fixpoint all (p : ascii -> bool) (s : string) : bool :=
  match s with
  | EmptyString => true
  | String c s' => p c && all p s'
  end.

Fixpoint existsb (p : ascii -> bool) (s : string) : bool :=
  match s with
  | EmptyString => false
  | String c s' => p c || existsb p s'
  end.

Definition is_empty (s : string) : bool := match s with EmptyString => true | _ => false end.

(** [str::split_once] on an ASCII character. *)
Fixpoint split_once (c : ascii) (s : string) : option (string * string) :=
  match s with
  | EmptyString => None
  | String d s' =>
      if Ascii.eqb c d then Some ("", s')
      else let? (l, r) := split_once c s' in Some (String d l, r)
  end.

(** [str::strip_prefix]. *)
Fixpoint strip_prefix (p s : string) : option string :=
  match p, s with
  | EmptyString, _ => Some s
  | String c p', String d s' => if Ascii.eqb c d then strip_prefix p' s' else None
  | String _ _, EmptyString => None
  end.

Definition starts_with (p s : string) : bool :=
  match strip_prefix p s with Some _ => true | None => false end.

(** [str::strip_suffix] on one character. *)
Fixpoint strip_suffix (c : ascii) (s : string) : option string :=
  match s with
  | EmptyString => None
  | String d EmptyString => if Ascii.eqb c d then Some "" else None
  | String d s' => let? r := strip_suffix c s' in Some (String d r)
  end.

(** [str::strip_suffix] of a string. *)
Fixpoint strip_suffix_str (p s : string) : option string :=
  if String.eqb s p then Some "" else
  match s with
  | EmptyString => None
  | String c s' => match strip_suffix_str p s' with Some r => Some (String c r) | None => None end
  end.

(** [str::split] on an ASCII character: one piece more than separators. *)
Fixpoint split (c : ascii) (s : string) : list string :=
  match s with
  | EmptyString => [""]
  | String d s' =>
      if Ascii.eqb c d then "" :: split c s'
      else match split c s' with [] => [String d ""] | w :: ws => String d w :: ws end
  end.

Definition to_lower (c : ascii) : ascii := if is_upper c then ascii_of_N (Z.to_N (code c + 32)) else c.

Fixpoint map_chars (f : ascii -> ascii) (s : string) : string :=
  match s with EmptyString => EmptyString | String c s' => String (f c) (map_chars f s') end.

Definition to_ascii_lowercase (s : string) : string := map_chars to_lower s.
Definition to_upper (c : ascii) : ascii := if is_lower c then ascii_of_N (Z.to_N (code c - 32)) else c.
Definition to_ascii_uppercase (s : string) : string := map_chars to_upper s.

(** [Path::file_name] of a Unix path: its last component, trailing separators
    and [.] components aside, unless that is [..]. *)
Definition file_name (path : string) : option string :=
  match List.rev (List.filter (fun c => negb (String.eqb c "" || String.eqb c ".")) (split "/" path)) with
  | [] => None
  | c :: _ => if String.eqb c ".." then None else Some c
  end.

(** [str::split_once] on a string pattern. *)
Fixpoint split_once_str (p s : string) : option (string * string) :=
  match strip_prefix p s with
  | Some r => Some ("", r)
  | None =>
      match s with
      | EmptyString => None
      | String d s' => let? (l, r) := split_once_str p s' in Some (String d l, r)
      end
  end.

(** [str::contains] on a string pattern. *)
Definition contains (p s : string) : bool :=
  match split_once_str p s with Some _ => true | None => false end.

(** The UTF-8 encodings of the Unicode [White_Space] characters. *)
Definition utf8 (l : list Z) : string := fold_right (fun b s => String (ascii_of_N (Z.to_N b)) s) "" l.

Definition whitespace : list string :=
  map (fun b => utf8 [b]) [9; 10; 11; 12; 13; 32]
  ++ [utf8 [194; 133]; utf8 [194; 160]; utf8 [225; 154; 128]]
  ++ map (fun b => utf8 [226; 128; b]) [128; 129; 130; 131; 132; 133; 134; 135; 136; 137; 138]
  ++ [utf8 [226; 128; 168]; utf8 [226; 128; 169]; utf8 [226; 128; 175]; utf8 [226; 129; 159];
      utf8 [227; 128; 128]].

Fixpoint rev_append (s acc : string) : string :=
  match s with EmptyString => acc | String c s' => rev_append s' (String c acc) end.
Definition rev (s : string) : string := rev_append s "".

Fixpoint strip_any (ps : list string) (s : string) : option string :=
  match ps with
  | [] => None
  | p :: ps' => match strip_prefix p s with Some r => Some r | None => strip_any ps' s end
  end.

(** Repeatedly strip one of [ps]; every strip removes a byte, so the length of
    the string is enough fuel. *)
Fixpoint trim_with (fuel : nat) (ps : list string) (s : string) : string :=
  match fuel with
  | O => s
  | S n => match strip_any ps s with Some r => trim_with n ps r | None => s end
  end.

(** [str::trim]. *)
Definition trim (s : string) : string :=
  let front := trim_with (String.length s) whitespace s in
  rev (trim_with (String.length front) (map rev whitespace) (rev front)).

(** Some character satisfies [char::is_control]: the ASCII controls, and
    U+0080 to U+009F, which UTF-8 encodes as a byte 194 and the code point. *)
Fixpoint has_control (s : string) : bool :=
  match s with
  | EmptyString => false
  | String c s' =>
      (code c <? 32) || (code c =? 127) ||
      match s' with
      | String d _ => (code c =? 194) && (128 <=? code d) && (code d <=? 159)
      | EmptyString => false
      end || has_control s'
  end.

Definition ends_with (c : ascii) (s : string) : bool :=
  match strip_suffix c s with Some _ => true | None => false end.

(** [char::is_ascii_whitespace]. *)
Definition is_ascii_ws (c : ascii) : bool :=
  (code c =? 32) || (code c =? 9) || (code c =? 10) || (code c =? 12) || (code c =? 13).

(** [str::split_ascii_whitespace]; [cur] is the item being read. *)
Fixpoint split_ws_from (cur : string) (s : string) : list string :=
  match s with
  | EmptyString => if is_empty cur then [] else [cur]
  | String c s' =>
      if is_ascii_ws c then (if is_empty cur then [] else [cur]) ++ split_ws_from "" s'
      else split_ws_from (cur +:+ String c "") s'
  end.
Definition split_ascii_whitespace (s : string) : list string := split_ws_from "" s.

(** [str::lines]: a carriage return before the newline belongs to the end of the
    line. *)
Definition strip_cr (line : string) : string := match strip_suffix "013" line with Some l => l | None => line end.

Fixpoint lines_from (cur s : string) : list string :=
  match s with
  | EmptyString => if is_empty cur then [] else [cur]
  | String c s' => if Ascii.eqb c "010" then strip_cr cur :: lines_from "" s' else lines_from (cur +:+ String c "") s'
  end.
Definition lines (s : string) : list string := lines_from "" s.

(** [str::split_whitespace]; [cur] is the item being read. *)
Fixpoint split_space_from (fuel : nat) (cur s : string) : list string :=
  match fuel with
  | O => []
  | S n =>
      match strip_any whitespace s, s with
      | Some rest, _ => (if is_empty cur then [] else [cur]) ++ split_space_from n "" rest
      | None, EmptyString => if is_empty cur then [] else [cur]
      | None, String c s' => split_space_from n (cur +:+ String c "") s'
      end
  end.
Definition split_whitespace (s : string) : list string := split_space_from (S (String.length s)) "" s.

(** *** Decimal numbers *)

Fixpoint show_aux (fuel : nat) (n : Z) (acc : string) : string :=
  match fuel with
  | O => acc
  | S f =>
      let acc' := String (digit_char (n mod 10)) acc in
      if n / 10 =? 0 then acc' else show_aux f (n / 10) acc'
  end.

(** [format!("{n}")] of an unsigned integer: a non-negative number has at most
    [log2 n + 1] decimal digits. *)
Definition show (n : Z) : string := show_aux (S (Z.to_nat (Z.log2 n))) n "".

Fixpoint parse_digits (acc : Z) (s : string) : option Z :=
  match s with
  | EmptyString => Some acc
  | String c s' => if is_digit c then parse_digits (acc * 10 + digit_val c) s' else None
  end.

(** [str::parse::<uN>()]: an optional leading [+], at least one digit, and a
    value that does not exceed the type. *)
Definition parse_uint (max : Z) (s : string) : option Z :=
  let digits := match s with
                | String c s' => if Ascii.eqb c "+" then s' else s
                | EmptyString => s
                end in
  if is_empty digits then None
  else let? v := parse_digits 0 digits in fits max v.

Definition parse_u32 : string -> option Z := parse_uint U32_MAX.
Definition parse_u64 : string -> option Z := parse_uint U64_MAX.

(** *** Facts *)

Lemma app_nil_r s : s +:+ "" = s.
Proof. induction s as [|c s IH]; simpl; [done|]. by rewrite IH. Qed.

Lemma app_assoc a b c : (a +:+ b) +:+ c = a +:+ (b +:+ c).
Proof. induction a as [|x a IH]; simpl; [done|]. by rewrite IH. Qed.

Lemma app_inj_l a b c : a +:+ b = a +:+ c -> b = c.
Proof. induction a; simpl; intros; simplify_eq; auto. Qed.

Lemma length_app s t : String.length (s +:+ t) = (String.length s + String.length t)%nat.
Proof. induction s; simpl; congruence. Qed.

Lemma app_inj_len a b c d :
  String.length a = String.length b -> a +:+ c = b +:+ d -> a = b /\ c = d.
Proof.
  revert b; induction a as [|x a IH]; intros [|y b] Hl H; simplify_eq/=; auto.
  destruct (IH b); subst; auto.
Qed.

Lemma app_inj_r a b c : a +:+ c = b +:+ c -> a = b.
Proof.
  intros H. refine (proj1 (app_inj_len a b c c _ H)).
  apply (f_equal String.length) in H. rewrite !length_app in H. lia.
Qed.

Lemma all_app p s t : all p (s +:+ t) = all p s && all p t.
Proof. induction s as [|c s IH]; simpl; [done|]. by rewrite IH, andb_assoc. Qed.

Lemma strip_prefix_Some p s r : strip_prefix p s = Some r <-> s = p +:+ r.
Proof.
  revert s; induction p as [|c p IH]; intros s; simpl; [naive_solver|].
  destruct s as [|d s]; [done|].
  destruct (Ascii.eqb_spec c d) as [->|Hne]; [rewrite IH; naive_solver|naive_solver].
Qed.

Lemma split_once_Some c s l r :
  split_once c s = Some (l, r) <->
  s = l +:+ String c r /\ all (fun d => negb (Ascii.eqb c d)) l = true.
Proof.
  revert l; induction s as [|d s IH]; intros l; simpl.
  - split; [done|]. intros [H _]. by destruct l.
  - destruct (Ascii.eqb_spec c d) as [->|Hne].
    + split.
      * intros [= <- <-]. done.
      * intros [H Ha]. destruct l as [|e l]; simplify_eq/=; [done|].
        by rewrite Ascii.eqb_refl in Ha.
    + split.
      * destruct (split_once c s) as [[l' r']|] eqn:E; [|done]. intros [= <- <-].
        destruct (proj1 (IH l') eq_refl) as [-> Ha]. simpl. rewrite Ha.
        by destruct (Ascii.eqb_spec c d).
      * intros [H Ha]. destruct l as [|e l]; simplify_eq/=.
        apply andb_true_iff in Ha as [_ Ha].
        by rewrite (proj2 (IH l) (conj eq_refl Ha)).
Qed.

Lemma split_once_None c s :
  split_once c s = None <-> all (fun d => negb (Ascii.eqb c d)) s = true.
Proof.
  induction s as [|d s IH]; simpl; [done|].
  destruct (Ascii.eqb_spec c d) as [->|Hne]; simpl; [done|].
  destruct (split_once c s) as [[??]|]; naive_solver.
Qed.

Lemma strip_suffix_Some c s r : strip_suffix c s = Some r <-> s = r +:+ String c "".
Proof.
  revert r; induction s as [|d s IH]; intros r.
  - simpl. split; [done|]. by destruct r.
  - destruct s as [|e s].
    + simpl. destruct (Ascii.eqb_spec c d) as [->|Hne].
      * split; [by intros [= <-]|]. intros H. destruct r as [|x r]; simplify_eq/=; [done|].
        by destruct r.
      * split; [done|]. intros H. destruct r as [|x r]; simplify_eq/=. by destruct r.
    + change (strip_suffix c (String d (String e s)))
        with (let? r := strip_suffix c (String e s) in Some (String d r)).
      destruct (strip_suffix c (String e s)) as [r'|] eqn:E.
      * split.
        -- intros [= <-]. simpl. f_equal. by apply IH.
        -- intros H. destruct r as [|x r]; [discriminate H|].
           injection H as -> H. apply IH in H. congruence.
      * split; [done|]. intros H. destruct r as [|x r]; [discriminate H|].
        injection H as -> H. apply IH in H. done.
Qed.

(** Bytes that cannot start the pattern are skipped by the search. *)
Lemma strip_suffix_app s p : p <> "" -> strip_suffix_str p (s +:+ p) = Some s.
Proof.
  intros Hp. induction s as [|c s IH].
  - change ("" +:+ p) with p. destruct p as [|x p]; [done|]. cbn [strip_suffix_str]. by rewrite String.eqb_refl.
  - change (String c s +:+ p) with (String c (s +:+ p)). cbn [strip_suffix_str]. rewrite IH.
    destruct (String.eqb_spec (String c (s +:+ p)) p) as [E|]; [|done]. apply (f_equal String.length) in E. simpl in E. rewrite length_app in E. lia.
Qed.

Lemma split_once_str_skip c p l r :
  all (fun d => negb (Ascii.eqb c d)) l = true ->
  split_once_str (String c p) (l +:+ r) =
  (let? (a, b) := split_once_str (String c p) r in Some (l +:+ a, b)).
Proof.
  induction l as [|d l IH]; simpl; intros Hl.
  - by destruct (split_once_str _ r) as [[??]|].
  - apply andb_true_iff in Hl as [Hd Hl]. apply negb_true_iff in Hd. rewrite Hd, IH by done.
    by destruct (split_once_str _ r) as [[??]|].
Qed.

Lemma split_once_str_here c p r : split_once_str (String c p) (String c p +:+ r) = Some ("", r).
Proof.
  change (String c p +:+ r) with (String c (p +:+ r)). simpl.
  by rewrite Ascii.eqb_refl, (proj2 (strip_prefix_Some p (p +:+ r) r)).
Qed.

Lemma digit_char_range d : 0 <= d <= 9 -> code (digit_char d) = d + 48.
Proof.
  intros H. unfold code, digit_char. rewrite N_ascii_embedding by lia. lia.
Qed.

Lemma digit_char_digit d : 0 <= d <= 9 -> is_digit (digit_char d) = true.
Proof. intros H. unfold is_digit. rewrite digit_char_range by done. lia. Qed.

Lemma digit_char_val d : 0 <= d <= 9 -> digit_val (digit_char d) = d.
Proof. intros H. unfold digit_val. rewrite digit_char_range by done. lia. Qed.

(** What [show_aux] puts in front of its accumulator: a non-empty run of
    digits that reads back as the number printed. *)
Lemma show_aux_spec fuel n acc :
  0 <= n < 2 ^ Z.of_nat fuel -> (0 < fuel)%nat ->
  exists ds, show_aux fuel n acc = ds +:+ acc /\ ds <> "" /\ all is_digit ds = true /\
    forall k s, parse_digits k (ds +:+ s) = parse_digits (k * 10 ^ Z.of_nat (String.length ds) + n) s.
Proof.
  revert n acc; induction fuel as [|fuel IH]; intros n acc Hn Hf; [lia|]. cbn [show_aux].
  assert (Hm : 0 <= n mod 10 <= 9) by (pose proof (Z.mod_pos_bound n 10); lia).
  pose proof (Z.div_mod n 10 ltac:(lia)) as Hdm.
  destruct (Z.eqb_spec (n / 10) 0) as [Hz|Hnz].
  - exists (String (digit_char (n mod 10)) ""). repeat split; [done| |].
    + simpl. by rewrite digit_char_digit.
    + intros k s. simpl. rewrite digit_char_digit, digit_char_val by done.
      f_equal. lia.
  - assert (0 <= n / 10) by (apply Z.div_pos; lia).
    assert (Hlt : n / 10 < 2 ^ Z.of_nat fuel).
    { apply Z.div_lt_upper_bound; [lia|]. rewrite Nat2Z.inj_succ, Z.pow_succ_r in Hn by lia. lia. }
    destruct fuel as [|fuel]; [simpl in Hlt; lia|].
    destruct (IH (n / 10) (String (digit_char (n mod 10)) acc)) as (ds & Heq & Hne & Hd & Hp); [lia|lia|].
    exists (ds +:+ String (digit_char (n mod 10)) ""). rewrite Heq, !app_assoc. repeat split.
    + by destruct ds.
    + rewrite all_app, Hd. simpl. by rewrite digit_char_digit.
    + intros k s. rewrite app_assoc, Hp. simpl. rewrite digit_char_digit, digit_char_val by done.
      f_equal. rewrite length_app, Nat2Z.inj_add, Z.pow_add_r by lia. simpl. lia.
Qed.

Lemma show_spec n :
  0 <= n ->
  show n <> "" /\ all is_digit (show n) = true /\
  forall k s, parse_digits k (show n +:+ s) = parse_digits (k * 10 ^ Z.of_nat (String.length (show n)) + n) s.
Proof.
  intros Hn.
  assert (Hb : 0 <= n < 2 ^ Z.of_nat (S (Z.to_nat (Z.log2 n)))).
  { rewrite Nat2Z.inj_succ, Z2Nat.id by apply Z.log2_nonneg.
    destruct (Z.eq_dec n 0) as [->|]; [simpl; lia|].
    pose proof (Z.log2_spec n ltac:(lia)). lia. }
  destruct (show_aux_spec _ n "" Hb ltac:(lia)) as (ds & Heq & Hne & Hd & Hp).
  unfold show. rewrite Heq, app_nil_r. auto.
Qed.

(** Printing an unsigned integer and parsing it back gives it again. *)
Lemma parse_show max n : 0 <= n <= max -> parse_uint max (show n) = Some n.
Proof.
  intros Hn. destruct (show_spec n) as (Hne & Hd & Hp); [lia|].
  specialize (Hp 0 ""). rewrite app_nil_r in Hp. simpl in Hp.
  unfold parse_uint. destruct (show n) as [|c s] eqn:E; [done|].
  simpl in Hd. apply andb_true_iff in Hd as [Hc _].
  destruct (Ascii.eqb_spec c "+") as [->|_]; [done|].
  cbn [is_empty]. rewrite Hp. apply fits_Some. lia.
Qed.

Lemma show_inj m n : 0 <= m -> 0 <= n -> show m = show n -> m = n.
Proof.
  intros Hm Hn H.
  pose proof (parse_show (Z.max m n) m ltac:(lia)) as H1.
  pose proof (parse_show (Z.max m n) n ltac:(lia)) as H2. congruence.
Qed.

Lemma show_digits n : 0 <= n -> all is_digit (show n) = true.
Proof. intros. by apply show_spec. Qed.

Lemma show_nonempty n : 0 <= n -> show n <> "".
Proof. intros. by apply show_spec. Qed.

Lemma parse_uint_range max s v : parse_uint max s = Some v -> 0 <= v <= max.
Proof.
  unfold parse_uint. destruct (is_empty _); [done|].
  destruct (parse_digits _ _); [|done]. intros ?. res_inv. lia.
Qed.

(** A string of bytes that all satisfy [p] contains no byte that does not. *)
Lemma all_impl (p q : ascii -> bool) s :
  (forall c, p c = true -> q c = true) -> all p s = true -> all q s = true.
Proof.
  intros Hpq. induction s as [|c s IH]; simpl; [done|].
  rewrite !andb_true_iff. naive_solver.
Qed.

Lemma digits_not_char c s :
  is_digit c = false -> all is_digit s = true -> all (fun d => negb (Ascii.eqb c d)) s = true.
Proof.
  intros Hc. apply all_impl. intros d Hd. apply negb_true_iff.
  destruct (Ascii.eqb_spec c d) as [->|]; congruence.
Qed.

(** *** Numbers in any radix up to 16 *)

(** [core::num::IntErrorKind], with its [Display]. *)
Inductive IntError := Empty | InvalidDigit | PosOverflow.
Definition int_error (e : IntError) : string :=
  match e with
  | Empty => "cannot parse integer from empty string"
  | InvalidDigit => "invalid digit found in string"
  | PosOverflow => "number too large to fit in target type"
  end.

(** [char::to_digit]. *)
Definition to_digit (radix : Z) (c : ascii) : option Z :=
  let? d := if is_digit c then Some (digit_val c)
            else if is_lower c then Some (code c - 87)
            else if is_upper c then Some (code c - 55) else None in
  if d <? radix then Some d else None.

(** The digits are read from the left, and the first one that is no digit or
    overflows the type is reported. *)
Fixpoint parse_radix (radix max acc : Z) (s : string) : res IntError Z :=
  match s with
  | EmptyString => Ok acc
  | String c s' =>
      let! x := ok_or (to_digit radix c) InvalidDigit in
      let! mul := ok_or (fits max (acc * radix)) PosOverflow in
      let! next := ok_or (fits max (mul + x)) PosOverflow in
      parse_radix radix max next s'
  end.

(** [uN::from_str_radix], and [str::parse::<uN>] with its error for radix 10. *)
Definition from_str_radix (radix max : Z) (s : string) : res IntError Z :=
  match s with
  | EmptyString => Err Empty
  | String c s' =>
      if Ascii.eqb c "+" then (if is_empty s' then Err InvalidDigit else parse_radix radix max 0 s')
      else parse_radix radix max 0 s
  end.

Definition hex_char (d : Z) : ascii := ascii_of_N (Z.to_N (if d <? 10 then d + 48 else d + 87)).

Fixpoint show_hex_aux (fuel : nat) (n : Z) (acc : string) : string :=
  match fuel with
  | O => acc
  | S f =>
      let acc' := String (hex_char (n mod 16)) acc in
      if n / 16 =? 0 then acc' else show_hex_aux f (n / 16) acc'
  end.

(** [format!("{n:#x}")]. *)
Definition show_hex (n : Z) : string := "0x" +:+ show_hex_aux (S (Z.to_nat (Z.log2 n))) n "".

Lemma parse_radix_range radix max acc s v : 0 <= acc <= max -> parse_radix radix max acc s = Ok v -> 0 <= v <= max.
Proof.
  revert acc. induction s as [|c s IH]; intros acc Ha H; cbn [parse_radix] in H; [by simplify_eq|].
  apply rbind_ok in H as (x & _ & H). apply rbind_ok in H as (m & _ & H). apply rbind_ok in H as (n & Hn%ok_or_ok & H).
  apply fits_Some in Hn as [-> Hn]. by apply (IH _ Hn).
Qed.

Lemma from_str_radix_range radix max s v : 0 <= max -> from_str_radix radix max s = Ok v -> 0 <= v <= max.
Proof.
  intros Hm. unfold from_str_radix. destruct s as [|c s]; [done|]. intros H.
  assert (exists s', parse_radix radix max 0 s' = Ok v) as [s' Hs] by (destruct (Ascii.eqb c "+"); [destruct (is_empty s); [done|]|]; by eexists).
  eapply parse_radix_range; [|exact Hs]. lia.
Qed.

End Str.

Abbreviation show := Str.show.
