(* ===== verification/BTreeMap.v ===== *)
(** * [BTreeMap]: entries in strictly increasing key order

    The compiler iterates over ordered maps everywhere (flattening order,
    endpoint search, name collisions), so a map is modelled by the list of its
    entries in iteration order.  [OrdKey] is Rust's [Ord] on the key type, with
    the laws the standard library requires of it. *)

From S2P Require Import Prelude RustStd.

Class OrdKey (K : Type) := {
  kcmp : K -> K -> comparison;
  kcmp_eq : forall a b, kcmp a b = Eq <-> a = b;
  kcmp_antisym : forall a b, kcmp b a = CompOpp (kcmp a b);
  kcmp_trans : forall a b c, kcmp a b = Lt -> kcmp b c = Lt -> kcmp a c = Lt;
}.

#[global] Arguments kcmp : simpl never.

Definition klt {K} `{OrdKey K} (a b : K) : Prop := kcmp a b = Lt.

#[export] Instance klt_trans {K} `{OrdKey K} : Transitive klt.
Proof. intros a b c. apply kcmp_trans. Qed.

Lemma klt_irrefl {K} `{OrdKey K} (a : K) : ~ klt a a.
Proof. unfold klt. by rewrite (proj2 (kcmp_eq a a) eq_refl). Qed.

Lemma kcmp_refl {K} `{OrdKey K} (a : K) : kcmp a a = Eq.
Proof. by apply kcmp_eq. Qed.

#[export] Instance ordkey_eq_dec {K} `{OrdKey K} : EqDecision K.
Proof. intros a b. destruct (kcmp a b) eqn:E; [left; by apply kcmp_eq|..]; right; intros ->; by rewrite kcmp_refl in E. Defined.

(** ** Instances *)

#[export] Program Instance ordkey_Z : OrdKey Z := {| kcmp := Z.compare |}.
Next Obligation. intros; apply Z.compare_eq_iff. Qed.
Next Obligation. intros; apply Z.compare_antisym. Qed.
Next Obligation. intros a b c. rewrite !Z.compare_lt_iff. lia. Qed.

#[export] Program Instance ordkey_nat : OrdKey nat := {| kcmp := Nat.compare |}.
Next Obligation. intros; apply Nat.compare_eq_iff. Qed.
Next Obligation. intros; apply Nat.compare_antisym. Qed.
Next Obligation. intros a b c. rewrite !Nat.compare_lt_iff. lia. Qed.

Lemma ascii_compare_lt (a b : ascii) : Ascii.compare a b = Lt <-> (N_of_ascii a < N_of_ascii b)%N.
Proof. unfold Ascii.compare. apply N.compare_lt_iff. Qed.

Lemma string_compare_refl s : String.compare s s = Eq.
Proof.
  induction s as [|c s IH]; simpl; [done|].
  assert (Ascii.compare c c = Eq) as -> by apply N.compare_refl. done.
Qed.

Lemma string_compare_trans a b c :
  String.compare a b = Lt -> String.compare b c = Lt -> String.compare a c = Lt.
Proof.
  revert b c; induction a as [|x a IH]; intros [|y b] [|z c]; simpl; try done.
  destruct (Ascii.compare x y) eqn:E1, (Ascii.compare y z) eqn:E2; try done; intros H1 H2.
  - apply Ascii.compare_eq_iff in E1, E2. subst.
    assert (Ascii.compare z z = Eq) as -> by apply N.compare_refl. eauto.
  - apply Ascii.compare_eq_iff in E1. subst. by rewrite E2.
  - apply Ascii.compare_eq_iff in E2. subst. by rewrite E1.
  - apply ascii_compare_lt in E1, E2.
    assert (Ascii.compare x z = Lt) as -> by (apply ascii_compare_lt; by eapply N.lt_trans). done.
Qed.

#[export] Program Instance ordkey_string : OrdKey string := {| kcmp := String.compare |}.
Next Obligation. split; [apply String.compare_eq_iff|intros ->; apply string_compare_refl]. Qed.
Next Obligation. intros; apply String.compare_antisym. Qed.
Next Obligation. apply string_compare_trans. Qed.

(** Tuples compare lexicographically, as derived [Ord] does for structs. *)
Definition lex_cmp {A B} `{OrdKey A, OrdKey B} (p q : A * B) : comparison :=
  match kcmp p.1 q.1 with Eq => kcmp p.2 q.2 | c => c end.

#[export] Program Instance ordkey_prod {A B} `{OrdKey A, OrdKey B} : OrdKey (A * B) :=
  {| kcmp := lex_cmp |}.
Next Obligation.
  intros A B HA HB [a b] [c d]; unfold lex_cmp; simpl. split.
  - destruct (kcmp a c) eqn:E; [|done..]. apply kcmp_eq in E. intros Hb%kcmp_eq. congruence.
  - intros [= -> ->]. by rewrite !kcmp_refl.
Qed.
Next Obligation.
  intros A B HA HB [a b] [c d]; unfold lex_cmp; simpl. rewrite (kcmp_antisym a c).
  destruct (kcmp a c); simpl; [apply kcmp_antisym|done..].
Qed.
Next Obligation.
  intros A B HA HB [a b] [c d] [e f]; unfold lex_cmp; simpl.
  destruct (kcmp a c) eqn:E1, (kcmp c e) eqn:E2; try done; intros H1 H2.
  - apply kcmp_eq in E1, E2. subst. rewrite kcmp_refl. by eapply kcmp_trans.
  - apply kcmp_eq in E1. subst. by rewrite E2.
  - apply kcmp_eq in E2. subst. by rewrite E1.
  - by rewrite (kcmp_trans _ _ _ E1 E2).
Qed.

(** A key type that embeds into an ordered one by a projection. *)
Program Definition ordkey_proj {A B} `{OrdKey B} (f : A -> B) (Hinj : forall x y, f x = f y -> x = y) :
  OrdKey A := {| kcmp := fun x y => kcmp (f x) (f y) |}.
Next Obligation. intros. simpl. rewrite kcmp_eq. split; [auto|by intros ->]. Qed.
Next Obligation. intros. apply kcmp_antisym. Qed.
Next Obligation. intros A B HB f Hinj a b c. apply kcmp_trans. Qed.

(** ** Maps *)
Notation bmap K V := (list (K * V)).

Module BMap.
Section ops.
Context {K V : Type} `{OrdKey K}.

Definition empty : bmap K V := [].

Fixpoint get (k : K) (m : bmap K V) : option V :=
  match m with
  | [] => None
  | (k', v) :: m' => if kcmp k k' is Eq then Some v else get k m'
  end.

Definition contains_key (k : K) (m : bmap K V) : bool :=
  match get k m with Some _ => true | None => false end.

Fixpoint insert (k : K) (v : V) (m : bmap K V) : bmap K V :=
  match m with
  | [] => [(k, v)]
  | (k', v') :: m' =>
      match kcmp k k' with
      | Lt => (k, v) :: (k', v') :: m'
      | Eq => (k, v) :: m'
      | Gt => (k', v') :: insert k v m'
      end
  end.

Definition keys (m : bmap K V) : list K := map fst m.
Definition values (m : bmap K V) : list V := map snd m.

(** The representation invariant: strictly increasing keys. *)
Definition wf (m : bmap K V) : Prop := StronglySorted klt (keys m).

(** [FromIterator]: later entries replace earlier ones. *)
Definition from_list (l : list (K * V)) : bmap K V :=
  fold_left (fun m e => insert e.1 e.2 m) l empty.

(** [BTreeMap::retain]. *)
Definition retain (p : K -> V -> bool) (m : bmap K V) : bmap K V :=
  List.filter (fun e => p e.1 e.2) m.
End ops.

Section facts.
Context {K V : Type} `{OrdKey K}.
Implicit Types m : bmap K V.

Lemma get_insert k k' v m :
  get k (insert k' v m) = if decide (k = k') then Some v else get k m.
Proof.
  induction m as [|[j w] m IH]; simpl.
  - destruct (decide (k = k')) as [->|Hne]; [by rewrite kcmp_refl|].
    destruct (kcmp k k') eqn:E; [|done..]. by apply kcmp_eq in E.
  - destruct (kcmp k' j) eqn:E; simpl.
    + apply kcmp_eq in E. subst j. destruct (decide (k = k')) as [->|Hne]; [by rewrite kcmp_refl|].
      destruct (kcmp k k') eqn:E'; [|done..]. by apply kcmp_eq in E'.
    + destruct (decide (k = k')) as [->|Hne]; [by rewrite kcmp_refl|].
      destruct (kcmp k k') eqn:E'; [|done..]. by apply kcmp_eq in E'.
    + rewrite IH. destruct (decide (k = k')) as [->|Hne]; [by rewrite E|done].
Qed.

Lemma get_insert_eq k v m : get k (insert k v m) = Some v.
Proof. rewrite get_insert. by destruct (decide _). Qed.

Lemma get_insert_ne k k' v m : k <> k' -> get k (insert k' v m) = get k m.
Proof. intros. rewrite get_insert. by destruct (decide _). Qed.

Lemma get_In k v m : get k m = Some v -> In (k, v) m.
Proof.
  induction m as [|[j w] m IH]; simpl; [done|].
  destruct (kcmp k j) eqn:E; intros Hk; [|auto..].
  apply kcmp_eq in E. left. congruence.
Qed.

Lemma get_None k m : get k m = None <-> ~ In k (keys m).
Proof.
  induction m as [|[j w] m IH]; simpl; [tauto|].
  destruct (kcmp k j) eqn:E.
  - apply kcmp_eq in E. subst. split; [done|]. intros Hn. exfalso. auto.
  - rewrite IH. split; [|tauto]. intros Hn [Hjk|?]; [|tauto]. subst j. by rewrite kcmp_refl in E.
  - rewrite IH. split; [|tauto]. intros Hn [Hjk|?]; [|tauto]. subst j. by rewrite kcmp_refl in E.
Qed.

Lemma get_Some_key k v m : get k m = Some v -> In k (keys m).
Proof. intros Hg%get_In. by apply (in_map fst) in Hg. Qed.

Lemma wf_nil : wf (@nil (K * V)).
Proof. constructor. Qed.

Lemma wf_cons k v m : wf ((k, v) :: m) <-> wf m /\ Forall (klt k) (keys m).
Proof. unfold wf. simpl. split; [by inversion 1|]. intros [??]. by constructor. Qed.

Lemma In_get k v m : wf m -> In (k, v) m -> get k m = Some v.
Proof.
  induction m as [|[j w] m IH]; simpl; [done|]. intros [Hwf Hall]%wf_cons [Heq|Hin].
  - simplify_eq. by rewrite kcmp_refl.
  - rewrite IH by done. destruct (kcmp k j) eqn:E; [|done..].
    apply kcmp_eq in E. subst j. rewrite List.Forall_forall in Hall.
    exfalso. apply (klt_irrefl k), Hall. by apply (in_map fst) in Hin.
Qed.

Lemma In_keys_insert k k' v m : In k (keys (insert k' v m)) <-> k = k' \/ In k (keys m).
Proof.
  induction m as [|[j w] m IH]; simpl; [naive_solver|].
  destruct (kcmp k' j) eqn:E; simpl.
  - apply kcmp_eq in E. subst. naive_solver.
  - naive_solver.
  - rewrite IH. naive_solver.
Qed.

Lemma wf_insert k v m : wf m -> wf (insert k v m).
Proof.
  induction m as [|[j w] m IH]; intros Hwf; simpl.
  - apply wf_cons. split; constructor.
  - apply wf_cons in Hwf as [Hwf Hall]. destruct (kcmp k j) eqn:E.
    + apply kcmp_eq in E. subst. by apply wf_cons.
    + apply wf_cons. split; [by apply wf_cons|]. simpl. constructor; [done|].
      eapply Forall_impl; [done|]. intros x Hx. by transitivity j.
    + apply wf_cons. split; [auto|]. rewrite List.Forall_forall in Hall |- *.
      intros x [->|Hx]%In_keys_insert; [|auto]. unfold klt. by rewrite kcmp_antisym, E.
Qed.

Lemma wf_NoDup m : wf m -> NoDup (keys m).
Proof.
  unfold wf. induction 1 as [|k ks Hs IH Hall]; constructor; [|done].
  rewrite list_elem_of_In. intros Hin. rewrite List.Forall_forall in Hall.
  by apply (klt_irrefl k), Hall.
Qed.

Lemma wf_from_list (l : list (K * V)) : wf (from_list l).
Proof.
  unfold from_list. assert (Hwf : wf (@empty K V)) by apply wf_nil. revert Hwf.
  generalize (@empty K V). induction l as [|[k v] l IH]; simpl; intros m Hwf; [done|].
  apply IH, wf_insert, Hwf.
Qed.

Lemma In_insert k v k' v' m : In (k, v) (insert k' v' m) -> (k = k' /\ v = v') \/ In (k, v) m.
Proof.
  induction m as [|[j w] m IH]; simpl.
  - intros [[= -> ->]|[]]. by left.
  - destruct (kcmp k' j); simpl.
    + intros [[= -> ->]|?]; auto.
    + intros [[= -> ->]|[?|?]]; auto.
    + intros [?|[?|?]%IH]; auto.
Qed.

Lemma In_from_list k v (l : list (K * V)) : In (k, v) (from_list l) -> In (k, v) l.
Proof.
  unfold from_list. cut (forall m : bmap K V,
    In (k, v) (fold_left (fun m e => insert e.1 e.2 m) l m) -> In (k, v) m \/ In (k, v) l).
  { intros Hc Hin. apply Hc in Hin as [[]|?]. done. }
  induction l as [|[k' v'] l IH]; simpl; intros m Hin; [by left|].
  apply IH in Hin as [[[-> ->]|?]%In_insert|?]; auto.
Qed.

Lemma keys_from_list k (l : list (K * V)) : In k (map fst l) -> In k (keys (from_list l)).
Proof.
  unfold from_list. cut (forall m : bmap K V,
    In k (keys m) \/ In k (map fst l) -> In k (keys (fold_left (fun m e => insert e.1 e.2 m) l m))).
  { intros Hc Hin. apply Hc. by right. }
  induction l as [|[k' v'] l IH]; simpl; intros m; [tauto|].
  intros [Hk|[->|Hk]]; apply IH; rewrite In_keys_insert; auto.
Qed.

(** Entries with keys of their own are all found. *)
Lemma get_from_list k v (l : list (K * V)) : NoDup (map fst l) -> In (k, v) l -> get k (from_list l) = Some v.
Proof.
  intros Hnd Hin. destruct (get k (from_list l)) as [w|] eqn:E.
  - f_equal. apply get_In, In_from_list in E. apply list_elem_of_In, list_elem_of_lookup in E as [i Hi], Hin as [j Hj].
    assert (i = j) as -> by (apply (NoDup_lookup _ i j k Hnd); rewrite list_lookup_fmap; [by rewrite Hi|by rewrite Hj]). congruence.
  - exfalso. apply get_None in E. apply E, keys_from_list, in_map_iff. by exists (k, v).
Qed.

Lemma wf_retain p m : wf m -> wf (retain p m).
Proof.
  induction m as [|[k v] m IH]; simpl; [done|]. intros [Hwf Hall]%wf_cons.
  destruct (p k v); [|auto]. apply wf_cons. split; [auto|].
  rewrite List.Forall_forall in Hall |- *. intros x Hx. apply Hall.
  unfold keys, retain in Hx |- *. rewrite in_map_iff in Hx |- *.
  destruct Hx as (e & <- & He). exists e. split; [done|]. exact (proj1 (proj1 (List.filter_In _ _ _) He)).
Qed.

Lemma get_retain p k m : wf m ->
  get k (retain p m) = match get k m with Some v => if p k v then Some v else None | None => None end.
Proof.
  intros Hwf. destruct (get k m) as [v|] eqn:E.
  - apply get_In in E. destruct (p k v) eqn:Hp.
    + apply In_get; [by apply wf_retain|]. by apply List.filter_In.
    + destruct (get k (retain p m)) as [w|] eqn:E'; [|done].
      apply get_In, List.filter_In in E' as [Hin Hp'].
      apply (In_get _ _ _ Hwf) in Hin, E. simpl in Hp'. congruence.
  - destruct (get k (retain p m)) as [w|] eqn:E'; [|done].
    apply get_In, List.filter_In in E' as [Hin _]. apply (In_get _ _ _ Hwf) in Hin. congruence.
Qed.

(** Two well-formed maps with the same entries are the same list. *)
Lemma wf_ext m1 m2 : wf m1 -> wf m2 -> (forall k, get k m1 = get k m2) -> m1 = m2.
Proof.
  revert m2; induction m1 as [|[k v] m1 IH]; intros [|[j w] m2] H1 H2 Hext.
  - done.
  - specialize (Hext j). simpl in Hext. by rewrite kcmp_refl in Hext.
  - specialize (Hext k). simpl in Hext. by rewrite kcmp_refl in Hext.
  - apply wf_cons in H1 as [H1 A1], H2 as [H2 A2]. rewrite List.Forall_forall in A1, A2.
    assert (kcmp k j = Eq) as E.
    { destruct (kcmp k j) eqn:E; [done|..].
      - specialize (Hext k). simpl in Hext. rewrite kcmp_refl, E in Hext.
        apply eq_sym, get_Some_key, A2 in Hext. exfalso. apply (klt_irrefl k). by transitivity j.
      - specialize (Hext j). simpl in Hext.
        rewrite kcmp_refl, kcmp_antisym, E in Hext. simpl in Hext.
        apply get_Some_key, A1 in Hext.
        exfalso. apply (klt_irrefl j). transitivity k; [|done]. unfold klt. by rewrite kcmp_antisym, E. }
    apply kcmp_eq in E. subst j.
    assert (v = w) as ->. { specialize (Hext k). simpl in Hext. rewrite kcmp_refl in Hext. congruence. }
    f_equal. apply IH; [done..|]. intros x. specialize (Hext x). simpl in Hext.
    destruct (kcmp x k) eqn:E; [|done..]. apply kcmp_eq in E. subst x.
    transitivity (@None V); [|symmetry]; apply get_None; intros Hin; [apply A1 in Hin|apply A2 in Hin];
      by apply klt_irrefl in Hin.
Qed.
End facts.
(** The representation invariant, decided. *)
Fixpoint wfb {K V} `{OrdKey K} (m : bmap K V) : bool :=
  match m with
  | (k, _) :: (((k', _) :: _) as m') => match kcmp k k' with Lt => wfb m' | _ => false end
  | _ => true
  end.

Lemma wfb_wf {K V} `{OrdKey K} (m : bmap K V) : wfb m = true -> wf m.
Proof.
  induction m as [|[k v] [|[k' v'] m] IH]; intros Hb.
  - apply wf_nil.
  - apply wf_cons. split; [apply wf_nil|constructor].
  - cbn [wfb] in Hb. destruct (kcmp k k') eqn:E; [done| |done]. apply wf_cons. split; [auto|].
    specialize (IH Hb) as [_ Hall]%wf_cons. constructor; [done|].
    eapply List.Forall_impl; [|exact Hall]. intros j Hj. by etransitivity; [exact E|].
Qed.

End BMap.

#[export] Hint Resolve BMap.wf_nil BMap.wf_insert BMap.wf_from_list BMap.wf_retain : tapa.
