(* ===== verification/Geometry.v ===== *)
(** * Resource vectors and grid regions

    The floorplan contract's plain data ([tapa-ir/src/floorplan.rs]): the
    resource counts of an [Area], the resource classes, the inclusive grid
    rectangle [Coor] and the region tags through which the planner and codegen
    exchange it. *)

From S2P Require Import Prelude RustStd BTreeMap.

(** ** Resource counts *)

Record Area := mkArea { lut : Z; ff : Z; bram_18k : Z; dsp : Z; uram : Z }.

Definition area_default : Area := mkArea 0 0 0 0 0.

#[export] Instance area_eq_dec : EqDecision Area.
Proof. solve_decision. Defined.

Inductive Resource := Ff | Lut | Bram18k | Dsp | Uram.

#[export] Instance resource_eq_dec : EqDecision Resource.
Proof. solve_decision. Defined.

(** [Resource::ALL], the solver iteration order. *)
Definition resource_all : list Resource := [Ff; Lut; Bram18k; Dsp; Uram].

Definition amount (r : Resource) (a : Area) : Z :=
  match r with
  | Ff => ff a | Lut => lut a | Bram18k => bram_18k a | Dsp => dsp a | Uram => uram a
  end.

Definition resource_name (r : Resource) : string :=
  match r with
  | Ff => "FF" | Lut => "LUT" | Bram18k => "BRAM_18K" | Dsp => "DSP" | Uram => "URAM"
  end.

Definition is_logic (r : Resource) : bool := match r with Ff | Lut => true | _ => false end.

Module Area.

Definition from_amounts (f : Resource -> Z) : Area :=
  mkArea (f Lut) (f Ff) (f Bram18k) (f Dsp) (f Uram).

Definition checked_sub (a b : Area) : option Area :=
  let? l := checked_sub64 (lut a) (lut b) in
  let? f := checked_sub64 (ff a) (ff b) in
  let? r := checked_sub64 (bram_18k a) (bram_18k b) in
  let? d := checked_sub64 (dsp a) (dsp b) in
  let? u := checked_sub64 (uram a) (uram b) in
  Some (mkArea l f r d u).

Definition checked_add_scaled (a b : Area) (count : Z) : option Area :=
  let add x y := let? p := checked_mul64 y count in checked_add64 x p in
  let? l := add (lut a) (lut b) in
  let? f := add (ff a) (ff b) in
  let? r := add (bram_18k a) (bram_18k b) in
  let? d := add (dsp a) (dsp b) in
  let? u := add (uram a) (uram b) in
  Some (mkArea l f r d u).

Definition checked_add (a b : Area) : option Area := checked_add_scaled a b 1.

(** Every count is a [u64]. *)
Definition wf (a : Area) : Prop := forall r, in_u64 (amount r a).

Lemma wf_default : wf area_default.
Proof. intros []; unfold in_u64, U64_MAX; simpl; lia. Qed.

Lemma amount_from_amounts f r : amount r (from_amounts f) = f r.
Proof. by destruct r. Qed.

Lemma ext a b : (forall r, amount r a = amount r b) -> a = b.
Proof.
  intros H. pose proof (H Ff); pose proof (H Lut); pose proof (H Bram18k);
    pose proof (H Dsp); pose proof (H Uram).
  destruct a, b; simpl in *; congruence.
Qed.

Lemma checked_add_scaled_Some a b n c :
  wf a -> wf b -> 0 <= n ->
  checked_add_scaled a b n = Some c <->
  forall r, amount r c = amount r a + amount r b * n /\ amount r a + amount r b * n <= U64_MAX.
Proof.
  intros Ha Hb Hn.
  assert (Hr : forall r, 0 <= amount r a /\ 0 <= amount r b * n).
  { intros r. pose proof (Ha r) as [? _]; pose proof (Hb r) as [? _]. nia. }
  pose proof (Hr Ff); pose proof (Hr Lut); pose proof (Hr Bram18k); pose proof (Hr Dsp);
    pose proof (Hr Uram); clear Hr. simpl in *.
  unfold checked_add_scaled, checked_mul64, checked_add64. split.
  - intros Heq r.
    repeat match type of Heq with
    | context [fits ?m ?z] => destruct (fits m z) eqn:?; [|discriminate Heq]; cbn beta iota in Heq
    end.
    res_inv. destruct r; simpl; lia.
  - intros Hc.
    pose proof (Hc Ff); pose proof (Hc Lut); pose proof (Hc Bram18k); pose proof (Hc Dsp);
      pose proof (Hc Uram); clear Hc. simpl in *.
    repeat match goal with
    | |- context [fits U64_MAX ?z] =>
        rewrite (proj2 (fits_Some U64_MAX z z)) by (split; [done|nia])
    end.
    f_equal. destruct c; simpl in *. f_equal; lia.
Qed.

Lemma checked_add_Some a b c :
  wf a -> wf b ->
  checked_add a b = Some c <->
  forall r, amount r c = amount r a + amount r b /\ amount r a + amount r b <= U64_MAX.
Proof.
  intros Ha Hb. unfold checked_add. rewrite checked_add_scaled_Some by (done || lia).
  split; intros H r; specialize (H r); lia.
Qed.

Lemma checked_add_wf a b c : wf a -> wf b -> checked_add a b = Some c -> wf c.
Proof.
  intros Ha Hb Hc r. rewrite checked_add_Some in Hc by done.
  destruct (Hc r) as [-> ?]. pose proof (Ha r) as [? _]; pose proof (Hb r) as [? _]. split; lia.
Qed.

Lemma checked_add_overflow a b :
  wf a -> wf b -> checked_add a b = None -> exists r, U64_MAX < amount r a + amount r b.
Proof.
  intros Ha Hb Hnone. destruct (decide (Forall (fun r => amount r a + amount r b <= U64_MAX) resource_all)) as [Hall|Hn].
  - assert (Hs : checked_add a b = Some (from_amounts (fun r => amount r a + amount r b))); [|congruence].
    apply checked_add_Some; [done..|]. intros r. rewrite amount_from_amounts. split; [done|].
    rewrite Forall_forall in Hall. apply Hall. by destruct r; unfold resource_all; rewrite !elem_of_cons; auto 6.
  - apply not_Forall_Exists in Hn; [|intros r; apply _]. apply Exists_exists in Hn as (r & _ & Hr). exists r. apply Z.nle_gt. exact Hr.
Qed.

Lemma checked_sub_Some a b c :
  wf a -> wf b ->
  checked_sub a b = Some c <->
  forall r, amount r c = amount r a - amount r b /\ amount r b <= amount r a.
Proof.
  intros Ha Hb.
  assert (Hr : forall r, 0 <= amount r a <= U64_MAX /\ 0 <= amount r b) by
    (intros r; pose proof (Ha r); pose proof (Hb r) as [? _]; done).
  pose proof (Hr Ff); pose proof (Hr Lut); pose proof (Hr Bram18k); pose proof (Hr Dsp);
    pose proof (Hr Uram); clear Hr. simpl in *.
  unfold checked_sub, checked_sub64. split.
  - intros Heq r.
    repeat match type of Heq with
    | context [fits ?m ?z] => destruct (fits m z) eqn:?; [|discriminate Heq]; cbn beta iota in Heq
    end.
    res_inv. destruct r; simpl; lia.
  - intros Hc.
    pose proof (Hc Ff); pose proof (Hc Lut); pose proof (Hc Bram18k); pose proof (Hc Dsp);
      pose proof (Hc Uram); clear Hc. simpl in *.
    repeat match goal with
    | |- context [fits U64_MAX ?z] =>
        rewrite (proj2 (fits_Some U64_MAX z z)) by (split; [done|lia])
    end.
    f_equal. destruct c; simpl in *. f_equal; lia.
Qed.

Lemma checked_sub_wf a b c : wf a -> wf b -> checked_sub a b = Some c -> wf c.
Proof.
  intros Ha Hb Hc r. rewrite checked_sub_Some in Hc by done.
  destruct (Hc r) as [-> ?]. pose proof (Ha r) as [? ?]; pose proof (Hb r) as [? _]. split; lia.
Qed.

(** What was subtracted can be added back. *)
Lemma sub_add a b c : wf a -> wf b -> checked_sub a b = Some c -> checked_add c b = Some a.
Proof.
  intros Ha Hb Hc. pose proof (checked_sub_wf _ _ _ Ha Hb Hc) as Hwc.
  rewrite checked_sub_Some in Hc by done. apply checked_add_Some; [done..|].
  intros r. destruct (Hc r) as [-> ?]. pose proof (Ha r) as [? ?]. lia.
Qed.
End Area.

#[export] Hint Resolve Area.wf_default Area.checked_add_wf Area.checked_sub_wf : tapa.

(** [floorplanned_fifo_storage_depth]. *)
Definition floorplanned_fifo_storage_depth (logical_depth : Z) : Z :=
  if logical_depth <=? 64 then logical_depth + 5 else logical_depth.

(** ** Grid regions *)

(** A grid coordinate [(x, y)]. *)
Notation Cell := (Z * Z)%type.

Record Coor := mkCoor { dl_x : Z; dl_y : Z; ur_x : Z; ur_y : Z }.

#[export] Instance coor_eq_dec : EqDecision Coor.
Proof. solve_decision. Defined.

Module Coor.

Definition slot (x y : Z) : Coor := mkCoor x y x y.
Definition span (dlx dly urx ury : Z) : Coor := mkCoor dlx dly urx ury.

Definition width (c : Coor) : Z := wrap32 (saturating_sub (ur_x c) (dl_x c) + 1).
Definition height (c : Coor) : Z := wrap32 (saturating_sub (ur_y c) (dl_y c) + 1).

Definition is_south_neighbor_of (a b : Coor) : bool :=
  (wrap32 (ur_y a + 1) =? dl_y b) && (Z.max (dl_x a) (dl_x b) <=? Z.min (ur_x a) (ur_x b)).
Definition is_north_neighbor_of (a b : Coor) : bool :=
  (dl_y a =? wrap32 (ur_y b + 1)) && (Z.max (dl_x a) (dl_x b) <=? Z.min (ur_x a) (ur_x b)).
Definition is_east_neighbor_of (a b : Coor) : bool :=
  (dl_x a =? wrap32 (ur_x b + 1)) && (Z.max (dl_y a) (dl_y b) <=? Z.min (ur_y a) (ur_y b)).
Definition is_west_neighbor_of (a b : Coor) : bool :=
  (wrap32 (ur_x a + 1) =? dl_x b) && (Z.max (dl_y a) (dl_y b) <=? Z.min (ur_y a) (ur_y b)).

Definition is_neighbor (a b : Coor) : bool :=
  is_north_neighbor_of a b || is_south_neighbor_of a b
  || is_east_neighbor_of a b || is_west_neighbor_of a b.

Definition is_inside (a b : Coor) : bool :=
  (dl_x b <=? dl_x a) && (dl_y b <=? dl_y a) && (ur_x a <=? ur_x b) && (ur_y a <=? ur_y b).

(** Every cell the region covers, row-major. *)
Definition all_slot_coors (c : Coor) : list Cell :=
  flat_map (fun y => map (fun x => (x, y)) (zrange (dl_x c) (ur_x c + 1)))
           (zrange (dl_y c) (ur_y c + 1)).

Definition region_name (c : Coor) : string :=
  "SLOT_X" +:+ show (dl_x c) +:+ "Y" +:+ show (dl_y c)
  +:+ "_TO_SLOT_X" +:+ show (ur_x c) +:+ "Y" +:+ show (ur_y c).

Definition parse_slot_tag (tag : string) : option (Z * Z) :=
  let? rest := Str.strip_prefix "SLOT_X" tag in
  let? (x, y) := Str.split_once "Y" rest in
  let? x' := Str.parse_u32 x in
  let? y' := Str.parse_u32 y in
  Some (x', y').

Definition from_region_name (name : string) : option Coor :=
  let? (lhs, rhs) := Str.split_once_str "_TO_" name in
  let? (dlx, dly) := parse_slot_tag lhs in
  let? (urx, ury) := parse_slot_tag rhs in
  if (urx <? dlx) || (ury <? dly) then None else Some (span dlx dly urx ury).

Definition from_slot_name (name : string) : option Coor :=
  let? (x, y) := parse_slot_tag name in Some (slot x y).

Definition from_region_or_slot_name (name : string) : option Coor :=
  match from_region_name name with
  | Some coor => Some coor
  | None => from_slot_name name
  end.

Definition from_atomic_region_name (name : string) : option Coor :=
  let? coor := from_region_or_slot_name name in
  if (dl_x coor =? ur_x coor) && (dl_y coor =? ur_y coor) then Some coor else None.

(** The tag of one slot, as routes spell it ([route::ilp::slot_tag]). *)
Definition slot_tag (c : Cell) : string := "SLOT_X" +:+ show c.1 +:+ "Y" +:+ show c.2.

(** *** The type invariant: [u32] corners in order *)
Record wf (c : Coor) : Prop := {
  wf_x : 0 <= dl_x c <= ur_x c;
  wf_y : 0 <= dl_y c <= ur_y c;
  wf_ux : ur_x c <= U32_MAX;
  wf_uy : ur_y c <= U32_MAX;
}.

(** The grid cells a region denotes. *)
Definition covers (c : Coor) (p : Cell) : Prop :=
  dl_x c <= p.1 <= ur_x c /\ dl_y c <= p.2 <= ur_y c.

Lemma elem_of_all_slot_coors c p : p ∈ all_slot_coors c <-> covers c p.
Proof.
  unfold all_slot_coors, covers. rewrite list_elem_of_In, in_flat_map. destruct p as [x y]; simpl.
  split.
  - intros (y' & Hy & (x' & [= -> ->] & Hx)%in_map_iff).
    apply list_elem_of_In, elem_of_zrange in Hx, Hy. lia.
  - intros [Hx Hy]. exists y. split; [apply list_elem_of_In, elem_of_zrange; lia|].
    apply in_map_iff. exists x. split; [done|]. apply list_elem_of_In, elem_of_zrange; lia.
Qed.

Lemma NoDup_all_slot_coors c : NoDup (all_slot_coors c).
Proof.
  unfold all_slot_coors. generalize (NoDup_zrange (dl_y c) (ur_y c + 1)).
  generalize (zrange (dl_y c) (ur_y c + 1)). intros ys. induction 1 as [|y ys Hy Hys IH]; simpl; [constructor|].
  apply NoDup_app. split; [|split; [|done]].
  - apply NoDup_ListNoDup, Finite.Injective_map_NoDup, NoDup_ListNoDup, NoDup_zrange. by intros ?? [=].
  - intros [x y'] Hin Hin'. apply list_elem_of_In, in_map_iff in Hin as (? & [= -> ->] & _).
    apply list_elem_of_In, in_flat_map in Hin' as (y'' & Hy'' & Hx).
    apply in_map_iff in Hx as (? & [= _ ->] & _). by apply Hy, list_elem_of_In.
Qed.

Lemma length_all_slot_coors c :
  wf c -> Z.of_nat (length (all_slot_coors c)) = (ur_x c - dl_x c + 1) * (ur_y c - dl_y c + 1).
Proof.
  intros [Hx Hy _ _]. unfold all_slot_coors. generalize (length_zrange (dl_y c) (ur_y c + 1)).
  generalize (zrange (dl_y c) (ur_y c + 1)). intros ys Hl.
  replace (ur_y c - dl_y c + 1) with (Z.of_nat (length ys)) by lia. clear Hl Hy.
  induction ys as [|y ys IH]; simpl; [lia|].
  rewrite length_app, length_map, length_zrange, Nat2Z.inj_add, IH. lia.
Qed.

Lemma slot_wf x y : in_u32 x -> in_u32 y -> wf (slot x y).
Proof. intros [] []. split; simpl; lia. Qed.

(** *** Printing and parsing tags *)

Lemma no_underscore_digits s : Str.all Str.is_digit s = true ->
  Str.all (fun d => negb (Ascii.eqb "_" d)) s = true.
Proof. by apply Str.digits_not_char. Qed.

Lemma parse_slot_tag_app x y :
  in_u32 x -> in_u32 y -> parse_slot_tag ("SLOT_X" +:+ show x +:+ "Y" +:+ show y) = Some (x, y).
Proof.
  intros Hx Hy. unfold parse_slot_tag.
  rewrite (proj2 (Str.strip_prefix_Some "SLOT_X" _ _) eq_refl). cbn beta iota.
  rewrite (proj2 (Str.split_once_Some "Y" (show x +:+ "Y" +:+ show y) (show x) (show y))).
  - unfold Str.parse_u32. by rewrite !Str.parse_show.
  - split; [done|]. apply Str.digits_not_char; [done|]. apply Str.show_digits, Hx.
Qed.

Lemma parse_slot_tag_range tag x y : parse_slot_tag tag = Some (x, y) -> in_u32 x /\ in_u32 y.
Proof.
  unfold parse_slot_tag. destruct (Str.strip_prefix _ _); [|done].
  destruct (Str.split_once _ _) as [[a b]|]; [|done].
  destruct (Str.parse_u32 a) eqn:Ha; [|done]. destruct (Str.parse_u32 b) eqn:Hb; [|done].
  intros [= -> ->]. split; by eapply Str.parse_uint_range.
Qed.

Lemma split_underscore_X s :
  Str.split_once_str "_TO_" (String "_" (String "X" s)) =
  (let? (a, b) := Str.split_once_str "_TO_" s in Some (String "_" (String "X" a), b)).
Proof. simpl. by destruct (Str.split_once_str "_TO_" s) as [[??]|]. Qed.

Lemma split_region_name c :
  wf c -> Str.split_once_str "_TO_" (region_name c) =
  Some ("SLOT_X" +:+ show (dl_x c) +:+ "Y" +:+ show (dl_y c),
        "SLOT_X" +:+ show (ur_x c) +:+ "Y" +:+ show (ur_y c)).
Proof.
  intros [Hx Hy _ _]. unfold region_name.
  set (tail := "SLOT_X" +:+ show (ur_x c) +:+ "Y" +:+ show (ur_y c)).
  change ("SLOT_X" +:+ show (dl_x c) +:+ "Y" +:+ show (dl_y c) +:+ "_TO_SLOT_X" +:+ show (ur_x c) +:+ "Y" +:+ show (ur_y c))
    with ("SLOT" +:+ (String "_" (String "X" (show (dl_x c) +:+ "Y" +:+ show (dl_y c) +:+ "_TO_" +:+ tail)))).
  rewrite Str.split_once_str_skip by done.
  assert (Hdig : forall n s, 0 <= n ->
    Str.split_once_str "_TO_" (show n +:+ s) =
    (let? (a, b) := Str.split_once_str "_TO_" s in Some (show n +:+ a, b))).
  { intros n s Hn. apply Str.split_once_str_skip, no_underscore_digits, Str.show_digits, Hn. }
  rewrite split_underscore_X, Hdig by lia. rewrite Str.split_once_str_skip by done.
  rewrite Hdig by lia. by rewrite Str.split_once_str_here, Str.app_nil_r.
Qed.

Lemma from_region_name_wf name c : from_region_name name = Some c -> wf c.
Proof.
  unfold from_region_name. destruct (Str.split_once_str _ _) as [[l r]|]; [|done].
  destruct (parse_slot_tag l) as [[a b]|] eqn:Hl; [|done].
  destruct (parse_slot_tag r) as [[d e]|] eqn:Hr; [|done].
  apply parse_slot_tag_range in Hl as [[] []], Hr as [[] []].
  destruct ((d <? a) || (e <? b)) eqn:Ho; [done|]. bool_hyps.
  intros [= <-]. split; simpl; lia.
Qed.

Lemma from_region_name_region_name c : wf c -> from_region_name (region_name c) = Some c.
Proof.
  intros Hwf. unfold from_region_name. rewrite split_region_name by done.
  destruct Hwf as [Hx Hy Hux Huy].
  rewrite !parse_slot_tag_app by (split; lia).
  replace ((ur_x c <? dl_x c) || (ur_y c <? dl_y c)) with false by lia.
  by destruct c.
Qed.

Lemma from_slot_name_not_region x y :
  in_u32 x -> in_u32 y -> from_region_name (slot_tag (x, y)) = None.
Proof.
  intros [Hx _] [Hy _]. unfold from_region_name.
  assert (Str.split_once_str "_TO_" (slot_tag (x, y)) = None) as ->; [|done].
  unfold slot_tag; simpl fst; simpl snd.
  change ("SLOT_X" +:+ show x +:+ "Y" +:+ show y)
    with ("SLOT" +:+ String "_" (String "X" (show x +:+ "Y" +:+ show y))).
  rewrite Str.split_once_str_skip by done.
  rewrite split_underscore_X.
  rewrite Str.split_once_str_skip by by apply no_underscore_digits, Str.show_digits.
  rewrite Str.split_once_str_skip by done.
  rewrite <- (Str.app_nil_r (show y)).
  by rewrite Str.split_once_str_skip by by apply no_underscore_digits, Str.show_digits.
Qed.

(** *** Adjacency *)

(** Two cells that share an edge. *)
Definition adjacent (p q : Cell) : Prop := Z.abs (p.1 - q.1) + Z.abs (p.2 - q.2) = 1.

Definition disjoint (a b : Coor) : Prop := forall p, covers a p -> covers b p -> False.

Lemma disjoint_apart a b :
  wf a -> wf b -> disjoint a b ->
  ur_x a < dl_x b \/ ur_x b < dl_x a \/ ur_y a < dl_y b \/ ur_y b < dl_y a.
Proof.
  intros [] [] Hd.
  destruct (Z.lt_ge_cases (Z.min (ur_x a) (ur_x b)) (Z.max (dl_x a) (dl_x b))); [lia|].
  destruct (Z.lt_ge_cases (Z.min (ur_y a) (ur_y b)) (Z.max (dl_y a) (dl_y b))); [lia|].
  exfalso. apply (Hd (Z.max (dl_x a) (dl_x b), Z.max (dl_y a) (dl_y b))); split; simpl; lia.
Qed.

Lemma is_neighbor_true a b :
  wf a -> wf b -> ur_x a < U32_MAX -> ur_y a < U32_MAX -> ur_x b < U32_MAX -> ur_y b < U32_MAX ->
  is_neighbor a b = true <->
  (dl_y a = ur_y b + 1 \/ ur_y a + 1 = dl_y b) /\ Z.max (dl_x a) (dl_x b) <= Z.min (ur_x a) (ur_x b)
  \/ (dl_x a = ur_x b + 1 \/ ur_x a + 1 = dl_x b) /\ Z.max (dl_y a) (dl_y b) <= Z.min (ur_y a) (ur_y b).
Proof.
  intros [] [] ????. unfold is_neighbor, is_north_neighbor_of, is_south_neighbor_of,
    is_east_neighbor_of, is_west_neighbor_of.
  rewrite !wrap32_id by (split; lia).
  rewrite !orb_true_iff, !andb_true_iff, !Z.eqb_eq, !Z.leb_le. tauto.
Qed.

Lemma is_neighbor_sym a b : is_neighbor a b = is_neighbor b a.
Proof.
  unfold is_neighbor, is_north_neighbor_of, is_south_neighbor_of,
    is_east_neighbor_of, is_west_neighbor_of.
  rewrite (Z.max_comm (dl_x a)), (Z.min_comm (ur_x a)), (Z.max_comm (dl_y a)), (Z.min_comm (ur_y a)).
  rewrite (Z.eqb_sym (dl_y a)), (Z.eqb_sym (dl_y b)), (Z.eqb_sym (dl_x a)), (Z.eqb_sym (dl_x b)).
  repeat match goal with |- context [?x =? ?y] => destruct (x =? y) end;
  repeat match goal with |- context [?x <=? ?y] => destruct (x <=? y) end; reflexivity.
Qed.

(** Disjoint regions are neighbours exactly when two of their cells are. *)
Lemma is_neighbor_adjacent a b :
  wf a -> wf b -> ur_x a < U32_MAX -> ur_y a < U32_MAX -> ur_x b < U32_MAX -> ur_y b < U32_MAX ->
  disjoint a b ->
  is_neighbor a b = true <-> exists p q, covers a p /\ covers b q /\ adjacent p q.
Proof.
  intros Ha Hb ???? Hd. rewrite is_neighbor_true by done.
  pose proof (disjoint_apart a b Ha Hb Hd) as Hap. destruct Ha, Hb. split.
  - intros [[[He|He] Ho]|[[He|He] Ho]].
    + exists (Z.max (dl_x a) (dl_x b), dl_y a), (Z.max (dl_x a) (dl_x b), ur_y b).
      unfold covers, adjacent; simpl. lia.
    + exists (Z.max (dl_x a) (dl_x b), ur_y a), (Z.max (dl_x a) (dl_x b), dl_y b).
      unfold covers, adjacent; simpl. lia.
    + exists (dl_x a, Z.max (dl_y a) (dl_y b)), (ur_x b, Z.max (dl_y a) (dl_y b)).
      unfold covers, adjacent; simpl. lia.
    + exists (ur_x a, Z.max (dl_y a) (dl_y b)), (dl_x b, Z.max (dl_y a) (dl_y b)).
      unfold covers, adjacent; simpl. lia.
  - intros ([px py] & [qx qy] & Hp & Hq & Hadj). unfold covers, adjacent in *; simpl in *. lia.
Qed.

Lemma width_eq c : wf c -> ur_x c < U32_MAX -> width c = ur_x c - dl_x c + 1.
Proof. intros [] ?. unfold width, saturating_sub. rewrite wrap32_id; [lia|split; lia]. Qed.

Lemma height_eq c : wf c -> ur_y c < U32_MAX -> height c = ur_y c - dl_y c + 1.
Proof. intros [] ?. unfold height, saturating_sub. rewrite wrap32_id; [lia|split; lia]. Qed.

End Coor.

#[export] Hint Resolve Coor.slot_wf Coor.from_region_name_wf : tapa.

(** ** Properties *)

(** A region tag is a faithful wire format: printing any well-formed
    region and parsing the tag gives the region back, so distinct regions have
    distinct tags; and whatever tag the parser accepts denotes a well-formed
    region (corners in order, within [u32]). *)
Theorem region_tag_roundtrip :
  (forall c, Coor.wf c -> Coor.from_region_name (Coor.region_name c) = Some c) /\
  (forall c d, Coor.wf c -> Coor.wf d -> Coor.region_name c = Coor.region_name d -> c = d) /\
  (forall name c, Coor.from_region_name name = Some c -> Coor.wf c).
Proof.
  split; [exact Coor.from_region_name_region_name|]. split; [|exact Coor.from_region_name_wf].
  intros c d Hc Hd He. apply Coor.from_region_name_region_name in Hc, Hd. congruence.
Qed.

(** The atomic-slot parser accepts the bare slot tag and the one-slot
    region tag of a cell, reads both as that cell, and never returns a region
    of more than one slot. *)
Theorem atomic_region_tag :
  (forall x y, in_u32 x -> in_u32 y ->
     Coor.from_atomic_region_name (Coor.slot_tag (x, y)) = Some (Coor.slot x y) /\
     Coor.from_atomic_region_name (Coor.region_name (Coor.slot x y)) = Some (Coor.slot x y)) /\
  (forall name c, Coor.from_atomic_region_name name = Some c ->
     exists x y, c = Coor.slot x y /\ Coor.all_slot_coors c = [(x, y)]).
Proof.
  split.
  - intros x y Hx Hy. unfold Coor.from_atomic_region_name, Coor.from_region_or_slot_name. split.
    + rewrite Coor.from_slot_name_not_region by done. unfold Coor.from_slot_name, Coor.slot_tag.
      simpl fst; simpl snd. rewrite Coor.parse_slot_tag_app by done. simpl. by rewrite !Z.eqb_refl.
    + rewrite Coor.from_region_name_region_name by auto with tapa. simpl. by rewrite !Z.eqb_refl.
  - intros name c. unfold Coor.from_atomic_region_name.
    destruct (Coor.from_region_or_slot_name name) as [[a b d e]|]; [|done]. simpl.
    destruct ((a =? d) && (b =? e)) eqn:He; [|done]. bool_hyps. intros [= <-]. subst.
    exists d, e. split; [done|]. unfold Coor.all_slot_coors, zrange; simpl.
    replace (Z.to_nat (e + 1 - e)) with 1%nat by lia.
    replace (Z.to_nat (d + 1 - d)) with 1%nat by lia. simpl. by rewrite !Z.add_0_r.
Qed.

(** [all_slot_coors] lists exactly the cells of the rectangle, each once,
    and their number is width times height. *)
Theorem all_slot_coors_exact (c : Coor) (Hwf : Coor.wf c)
    (Hx : ur_x c < U32_MAX) (Hy : ur_y c < U32_MAX) :
  (forall p, p ∈ Coor.all_slot_coors c <-> Coor.covers c p) /\
  NoDup (Coor.all_slot_coors c) /\
  Z.of_nat (length (Coor.all_slot_coors c)) = Coor.width c * Coor.height c.
Proof.
  split; [apply Coor.elem_of_all_slot_coors|]. split; [apply Coor.NoDup_all_slot_coors|].
  by rewrite Coor.length_all_slot_coors, Coor.width_eq, Coor.height_eq by done.
Qed.

Lemma all_slot_coors_exact_witness :
  Coor.wf (mkCoor 1 2 3 3) /\
  Z.of_nat (length (Coor.all_slot_coors (mkCoor 1 2 3 3))) = Coor.width (mkCoor 1 2 3 3) * Coor.height (mkCoor 1 2 3 3).
Proof.
  assert (Coor.wf (mkCoor 1 2 3 3)) as Hwf by (split; unfold U32_MAX; simpl; lia).
  split; [exact Hwf|].
  exact (proj2 (proj2 (all_slot_coors_exact _ Hwf eq_refl eq_refl))).
Defined.

(** The neighbour test used by the cuts is adjacency: two disjoint regions
    are neighbours exactly when some cell of one shares an edge with some cell
    of the other, and the test is symmetric. *)
Theorem neighbor_iff_adjacent_cells (a b : Coor) (Ha : Coor.wf a) (Hb : Coor.wf b)
    (Hin : ur_x a < U32_MAX /\ ur_y a < U32_MAX /\ ur_x b < U32_MAX /\ ur_y b < U32_MAX)
    (Hd : Coor.disjoint a b) :
  (Coor.is_neighbor a b = true <->
   exists p q, Coor.covers a p /\ Coor.covers b q /\ Coor.adjacent p q) /\
  Coor.is_neighbor a b = Coor.is_neighbor b a.
Proof.
  destruct Hin as (?&?&?&?). split; [by apply Coor.is_neighbor_adjacent|apply Coor.is_neighbor_sym].
Qed.

Lemma neighbor_iff_adjacent_cells_witness :
  exists p q, Coor.covers (Coor.slot 0 0) p /\ Coor.covers (Coor.slot 0 1) q /\ Coor.adjacent p q.
Proof.
  refine (proj1 (proj1 (neighbor_iff_adjacent_cells (Coor.slot 0 0) (Coor.slot 0 1) _ _ _ _)) eq_refl).
  - split; unfold U32_MAX; simpl; lia.
  - split; unfold U32_MAX; simpl; lia.
  - unfold U32_MAX; simpl; lia.
  - intros [x y] [??] [??]; simpl in *; lia.
Defined.

(** * Resource usage per slot

    The maps from slots to resources that placement and pipelining account in:
    what they hold of a resource in a slot, and how an update changes it. *)

Definition used (usage : bmap Cell Area) (c : Cell) (r : Resource) : Z := amount r (default area_default (BMap.get c usage)).

(** A map of [u64] amounts. *)
Definition usage_wf (usage : bmap Cell Area) : Prop :=
  BMap.wf usage /\ forall c a, BMap.get c usage = Some a -> Area.wf a.

(** [z] at cell [at_], nothing elsewhere. *)
Definition at_cell (at_ c : Cell) (z : Z) : Z := if bool_decide (at_ = c) then z else 0.

(** [usage'] is [usage] with [delta] more in each slot. *)
Definition grows_by (usage usage' : bmap Cell Area) (delta : Cell -> Resource -> Z) : Prop :=
  usage_wf usage' /\ forall c r, used usage' c r = used usage c r + delta c r.

Lemma used_wf usage c : usage_wf usage -> Area.wf (default area_default (BMap.get c usage)).
Proof. intros [_ H]. destruct (BMap.get c usage) eqn:E; simpl; [by eapply H|apply Area.wf_default]. Qed.

Lemma insert_grows usage c a b (f : Resource -> Z) :
  usage_wf usage -> Area.wf b -> default area_default (BMap.get c usage) = a -> (forall r, amount r b = amount r a + f r) ->
  grows_by usage (BMap.insert c b usage) (fun c' r => at_cell c c' (f r)).
Proof.
  intros [Hm Hu] Hb Ha Hf. split; [split; [by apply BMap.wf_insert|]|].
  - intros c' x. rewrite BMap.get_insert. destruct (decide _); [by intros [= <-]|apply Hu].
  - intros c' r. unfold used, at_cell. rewrite BMap.get_insert. destruct (decide _) as [->|Hne].
    + rewrite bool_decide_eq_true_2 by done. simpl. by rewrite Hf, Ha.
    + rewrite bool_decide_eq_false_2 by congruence. lia.
Qed.

Lemma grows_by_trans u1 u2 u3 d1 d2 :
  grows_by u1 u2 d1 -> grows_by u2 u3 d2 -> grows_by u1 u3 (fun c r => d1 c r + d2 c r).
Proof. intros [_ H1] [Hw H2]. split; [done|]. intros c r. rewrite H2, H1. lia. Qed.

Lemma grows_by_ext u1 u2 d1 d2 : (forall c r, d1 c r = d2 c r) -> grows_by u1 u2 d1 -> grows_by u1 u2 d2.
Proof. intros He [Hw H]. split; [done|]. intros c r. by rewrite H, He. Qed.
