(* ===== verification/Names.v ===== *)
(** * RTL names

    The projections of frontend names to Verilog identifiers
    ([tapa-ir/src/port.rs]) and the generated instance names built on them
    ([tapa-ir/src/floorplan.rs]). *)

From S2P Require Import Prelude RustStd BTreeMap.

(** ** Identifier characters *)

(** The word and identifier-start classes of the array-name pattern (ASCII, as the
    regular-expression engine of this crate defines them). *)
Definition is_word (c : ascii) : bool := Str.is_alnum c || Ascii.eqb c "_".
Definition is_ident_start (c : ascii) : bool := Str.is_alpha c || Ascii.eqb c "_".

(** A letter or underscore followed by word characters. *)
Definition is_ident (s : string) : bool :=
  match s with
  | EmptyString => false
  | String c s' => is_ident_start c && Str.all is_word s'
  end.

(** The array-name pattern, anchored at both ends: an identifier, a bracketed
    run of decimal digits, an optional identifier.  No captured group can
    contain a bracket, so the first brackets delimit the only possible match. *)
Definition array_name_captures (name : string) : option (string * string * string) :=
  let? (base, rest) := Str.split_once "[" name in
  let? (idx, suffix) := Str.split_once "]" rest in
  if is_ident base && negb (Str.is_empty idx) && Str.all Str.is_digit idx
     && (Str.is_empty suffix || is_ident suffix)
  then Some (base, idx, suffix) else None.

Definition sanitize_array_name (name : string) : string :=
  match array_name_captures name with
  | None => name
  | Some (base, idx, suffix) => base +:+ "_" +:+ idx +:+ suffix
  end.

(** A character that may stand in a plain Verilog identifier. *)
Definition is_rtl_char (c : ascii) : bool :=
  Str.is_alnum c || (Ascii.eqb c "_" || Ascii.eqb c "$").

(** A UTF-8 continuation byte, which belongs to the character before it. *)
Definition is_continuation (c : ascii) : bool := (128 <=? Str.code c) && (Str.code c <=? 191).

(** The [for] loop over [name.chars()]: one output character per input
    character, so the continuation bytes of a character produce nothing. *)
Fixpoint sanitize_chars (s : string) : string :=
  match s with
  | EmptyString => ""
  | String c s' =>
      if is_continuation c then sanitize_chars s'
      else String (if is_rtl_char c then c else "_"%char) (sanitize_chars s')
  end.

Definition sanitize_identifier_name (name : string) : string :=
  let name := sanitize_array_name name in
  match name with
  | EmptyString => ""
  | String c _ => if Str.is_digit c then String "_" (sanitize_chars name) else sanitize_chars name
  end.

(** ** Generated instance names *)

Inductive AxiChannel := ReadAddress | ReadData | WriteAddress | WriteData | WriteResponse.
Inductive ControlChannel := Launch | Reset | Completion.

#[export] Instance axi_channel_eq_dec : EqDecision AxiChannel.
Proof. solve_decision. Defined.
#[export] Instance control_channel_eq_dec : EqDecision ControlChannel.
Proof. solve_decision. Defined.

Definition axi_rtl_name (c : AxiChannel) : string :=
  match c with
  | ReadAddress => "ar" | ReadData => "r" | WriteAddress => "aw" | WriteData => "w" | WriteResponse => "b"
  end.

Definition control_rtl_name (c : ControlChannel) : string :=
  match c with Launch => "launch" | Reset => "reset" | Completion => "completion" end.

Record AxiEndpoint := mkAxiEndpoint { ep_instance : string; ep_port : string; ep_top_port : string }.

#[export] Instance axi_endpoint_eq_dec : EqDecision AxiEndpoint.
Proof. solve_decision. Defined.

(** Derived [Ord]: the fields in declaration order. *)
#[export] Instance ordkey_axi_endpoint : OrdKey AxiEndpoint.
Proof.
  refine (ordkey_proj (fun e => (ep_instance e, (ep_port e, ep_top_port e))) _).
  abstract (intros [] []; simpl; congruence).
Defined.

Definition axi_pipeline_instance_name (e : AxiEndpoint) (c : AxiChannel) : string :=
  "__tapa_axi_" +:+ sanitize_identifier_name (ep_top_port e) +:+ "_" +:+ axi_rtl_name c.
Definition async_mmap_bridge_instance_name (top_port : string) : string :=
  sanitize_identifier_name top_port +:+ "__m_axi".
Definition global_controller_instance_name : string := "__tapa_global_controller".
Definition scope_controller_instance_name (scope : string) : string :=
  "__tapa_control_scope_" +:+ sanitize_identifier_name scope.
Definition local_controller_instance_name (instance : string) : string :=
  "__tapa_local_controller_" +:+ sanitize_identifier_name instance.
Definition control_pipeline_instance_name (instance : string) (c : ControlChannel) : string :=
  "__tapa_control_" +:+ sanitize_identifier_name instance +:+ "_" +:+ control_rtl_name c.

(** Debug spelling of the channel names ([{channel:?}]). *)
Definition axi_debug (c : AxiChannel) : string :=
  match c with
  | ReadAddress => "ReadAddress" | ReadData => "ReadData" | WriteAddress => "WriteAddress"
  | WriteData => "WriteData" | WriteResponse => "WriteResponse"
  end.
Definition control_debug (c : ControlChannel) : string :=
  match c with Launch => "Launch" | Reset => "Reset" | Completion => "Completion" end.

(** ** Facts *)

(** A legal plain Verilog identifier (or the empty name). *)
Definition rtl_legal (s : string) : bool :=
  Str.all is_rtl_char s && match s with EmptyString => true | String c _ => negb (Str.is_digit c) end.

Lemma is_rtl_char_not_continuation c : is_rtl_char c = true -> is_continuation c = false.
Proof.
  unfold is_rtl_char, is_continuation, Str.is_alnum, Str.is_alpha, Str.is_upper, Str.is_lower, Str.is_digit.
  destruct (Ascii.eqb_spec c "_") as [->|]; [done|]. destruct (Ascii.eqb_spec c "$") as [->|]; [done|].
  simpl. intros H. lia.
Qed.

Lemma is_word_rtl_char c : is_word c = true -> is_rtl_char c = true.
Proof. unfold is_word, is_rtl_char. destruct (Str.is_alnum c); simpl; [done|]. by intros ->. Qed.

Lemma is_digit_rtl_char c : Str.is_digit c = true -> is_rtl_char c = true.
Proof. unfold is_rtl_char, Str.is_alnum. intros ->. by rewrite orb_true_r. Qed.

Lemma sanitize_chars_legal s : Str.all is_rtl_char (sanitize_chars s) = true.
Proof.
  induction s as [|c s IH]; simpl; [done|]. destruct (is_continuation c); [done|].
  simpl. rewrite IH. destruct (is_rtl_char c) eqn:Hc; [by rewrite Hc|done].
Qed.

Lemma sanitize_chars_id s : Str.all is_rtl_char s = true -> sanitize_chars s = s.
Proof.
  induction s as [|c s IH]; simpl; [done|]. intros [Hc Hs]%andb_true_iff.
  rewrite is_rtl_char_not_continuation, Hc, IH by done. done.
Qed.

(** Legal names carry no brackets, so the array-name pattern leaves them. *)
Lemma sanitize_array_name_legal s : Str.all is_rtl_char s = true -> sanitize_array_name s = s.
Proof.
  intros Hs. unfold sanitize_array_name, array_name_captures.
  rewrite (proj2 (Str.split_once_None "[" s)); [done|].
  eapply Str.all_impl; [|exact Hs]. intros c Hc. apply negb_true_iff.
  destruct (Ascii.eqb_spec "[" c) as [<-|]; done.
Qed.

Lemma is_ident_start_not_digit c : is_ident_start c = true -> Str.is_digit c = false.
Proof.
  unfold is_ident_start, Str.is_alpha, Str.is_upper, Str.is_lower, Str.is_digit.
  destruct (Ascii.eqb_spec c "_") as [->|]; [done|]. intros. lia.
Qed.

Lemma sanitize_chars_head c s :
  is_continuation c = false ->
  exists d t, sanitize_chars (String c s) = String d t /\ (d = c \/ d = "_"%char).
Proof. intros Hc. simpl. rewrite Hc. destruct (is_rtl_char c); eauto 6. Qed.

Lemma digit_not_continuation c : Str.is_digit c = true -> is_continuation c = false.
Proof. intros. by apply is_rtl_char_not_continuation, is_digit_rtl_char. Qed.

(** The first byte of a UTF-8 string is never a continuation byte. *)
Definition utf8_start (s : string) : bool :=
  match s with EmptyString => true | String c _ => negb (is_continuation c) end.

Lemma sanitize_array_name_start s : utf8_start s = true -> utf8_start (sanitize_array_name s) = true.
Proof.
  intros Hs. unfold sanitize_array_name. destruct (array_name_captures s) as [[[b i] x]|] eqn:E; [|done].
  unfold array_name_captures in E.
  destruct (Str.split_once "[" s) as [[b' r]|]; [|done].
  destruct (Str.split_once "]" r) as [[i' x']|]; [|done].
  destruct (is_ident b' && _ && _ && _) eqn:Hc; [|done]. simplify_eq. bool_hyps.
  destruct b as [|c b]; [done|]. simpl in *. bool_hyps.
  unfold is_ident_start in *. apply negb_true_iff, is_rtl_char_not_continuation.
  unfold is_rtl_char, Str.is_alnum. destruct (Str.is_alpha c); [done|]. simpl in *.
  by destruct (Ascii.eqb c "_"); rewrite ?orb_true_r.
Qed.

Lemma sanitize_identifier_legal s : utf8_start s = true -> rtl_legal (sanitize_identifier_name s) = true.
Proof.
  intros Hs. apply sanitize_array_name_start in Hs. unfold sanitize_identifier_name.
  destruct (sanitize_array_name s) as [|c t] eqn:E; [done|]. simpl in Hs. apply negb_true_iff in Hs.
  unfold rtl_legal. destruct (Str.is_digit c) eqn:Hd.
  - simpl. rewrite digit_not_continuation, is_digit_rtl_char by done. simpl.
    rewrite is_digit_rtl_char by done. simpl. by rewrite sanitize_chars_legal.
  - rewrite sanitize_chars_legal.
    destruct (sanitize_chars_head c t Hs) as (d & u & -> & [->| ->]); [by rewrite Hd|done].
Qed.

Lemma sanitize_identifier_id s : rtl_legal s = true -> sanitize_identifier_name s = s.
Proof.
  unfold rtl_legal. intros [Ha Hd]%andb_true_iff. unfold sanitize_identifier_name.
  rewrite sanitize_array_name_legal by done. destruct s as [|c s]; [done|].
  apply negb_true_iff in Hd. by rewrite Hd, sanitize_chars_id.
Qed.

(** ** Properties *)

(** Sanitizing any frontend name gives a legal plain Verilog identifier
    (only [[A-Za-z0-9_$]], no leading digit), names that already are legal are
    unchanged, so sanitizing is idempotent; and an array channel [base[i]]
    becomes [base_i]. *)
Theorem sanitize_identifier_name_correct :
  (forall s, utf8_start s = true -> rtl_legal (sanitize_identifier_name s) = true) /\
  (forall s, rtl_legal s = true -> sanitize_identifier_name s = s) /\
  (forall s, utf8_start s = true ->
     sanitize_identifier_name (sanitize_identifier_name s) = sanitize_identifier_name s) /\
  (forall base i, is_ident base = true -> 0 <= i ->
     sanitize_identifier_name (base +:+ "[" +:+ show i +:+ "]") = base +:+ "_" +:+ show i).
Proof.
  split; [exact sanitize_identifier_legal|]. split; [exact sanitize_identifier_id|]. split.
  - intros s Hs. by apply sanitize_identifier_id, sanitize_identifier_legal.
  - intros base i Hb Hi.
    assert (Hrtl : Str.all is_rtl_char base = true).
    { destruct base as [|c b]; [done|]. simpl in *. bool_hyps. apply andb_true_iff. split.
      - apply is_word_rtl_char. unfold is_word, is_ident_start, Str.is_alnum in *.
        destruct (Str.is_alpha c); [done|]. simpl in *.
        destruct (Ascii.eqb c "_"); [by rewrite orb_true_r|done].
      - eapply Str.all_impl; [exact is_word_rtl_char|done]. }
    assert (Hnb : Str.all (fun d => negb (Ascii.eqb "[" d)) base = true).
    { eapply Str.all_impl; [|exact Hrtl]. intros c Hc. apply negb_true_iff.
      destruct (Ascii.eqb_spec "[" c) as [<-|]; done. }
    assert (Hsan : sanitize_array_name (base +:+ "[" +:+ show i +:+ "]") = base +:+ "_" +:+ show i).
    { unfold sanitize_array_name, array_name_captures.
      change ("[" +:+ show i +:+ "]") with (String "[" (show i +:+ "]")).
      rewrite (proj2 (Str.split_once_Some "[" _ base (show i +:+ "]")) (conj eq_refl Hnb)).
      rewrite (proj2 (Str.split_once_Some "]" (show i +:+ "]") (show i) "")).
      - rewrite Hb, Str.show_digits by done. destruct (show i) eqn:E; [by apply Str.show_nonempty in E|].
        simpl. by rewrite Str.app_nil_r.
      - split; [done|]. by apply Str.digits_not_char, Str.show_digits. }
    unfold sanitize_identifier_name. rewrite Hsan.
    assert (Hall : Str.all is_rtl_char (base +:+ "_" +:+ show i) = true).
    { rewrite !Str.all_app, Hrtl. simpl. eapply Str.all_impl; [exact is_digit_rtl_char|by apply Str.show_digits]. }
    destruct base as [|c b]; [done|]. simpl in Hb. bool_hyps.
    change (String c b +:+ "_" +:+ show i) with (String c (b +:+ "_" +:+ show i)) in *.
    cbv beta zeta iota. rewrite is_ident_start_not_digit by done.
    by apply sanitize_chars_id.
Qed.
