(* ===== verification/Ir.v ===== *)
(** * The task graph

    The unified task-graph schema of [tapa-ir]: port categories and ports
    ([port.rs]), invocation arguments and instances ([instance.rs]), FIFO
    definitions ([interconnect.rs]), tasks ([task.rs]), the graph root and its
    boundary validation ([graph.rs]), the borrowed bindings ([bindings.rs]) and
    the merged memory geometry ([memory.rs]). *)

From S2P Require Import Prelude RustStd BTreeMap Geometry Names.

(** ** Ports ([port.rs]) *)

Inductive ArgCategory :=
| Istream | Ostream | Istreams | Ostreams | Scalar | Mmap | Immap | Ommap | AsyncMmap.

#[export] Instance arg_category_eq_dec : EqDecision ArgCategory.
Proof. solve_decision. Defined.

(** [as_str]: the snake_case wire string of a category. *)
Definition category_str (c : ArgCategory) : string :=
  match c with
  | Istream => "istream" | Ostream => "ostream" | Istreams => "istreams" | Ostreams => "ostreams"
  | Scalar => "scalar" | Mmap => "mmap" | Immap => "immap" | Ommap => "ommap" | AsyncMmap => "async_mmap"
  end.

Definition category_all : list ArgCategory :=
  [Istream; Ostream; Istreams; Ostreams; Scalar; Mmap; Immap; Ommap; AsyncMmap].

(** The derived [FromStr] / the [Deserialize] implementation. *)
Definition category_from_str (s : string) : option ArgCategory :=
  find_first (fun c => bool_decide (category_str c = s)) category_all.

Definition is_input_stream (c : ArgCategory) : bool := match c with Istream | Istreams => true | _ => false end.
Definition is_output_stream (c : ArgCategory) : bool := match c with Ostream | Ostreams => true | _ => false end.
Definition is_stream (c : ArgCategory) : bool := is_input_stream c || is_output_stream c.
Definition is_scalar (c : ArgCategory) : bool := match c with Scalar => true | _ => false end.
Definition is_direct_mmap (c : ArgCategory) : bool := match c with Mmap | AsyncMmap => true | _ => false end.
Definition is_mmap_like (c : ArgCategory) : bool :=
  match c with Mmap | Immap | Ommap | AsyncMmap => true | _ => false end.

(** The compilation flow target ([target.rs]). *)
Inductive Target := XilinxVitis | XilinxSlash | XilinxHls.

Definition target_str (t : Target) : string :=
  match t with XilinxVitis => "xilinx-vitis" | XilinxSlash => "xilinx-slash" | XilinxHls => "xilinx-hls" end.

Record Port := mkPort {
  port_cat : ArgCategory;
  port_name : string;
  port_ctype : string;
  port_width : Z;
  port_chan_count : option Z;
  port_chan_size : option Z;
  port_aie_frame : option Z;
  port_aie_plio : option Z;
  port_stream_depth : option Z;
  port_mmap_addr_width : option Z;
}.

(** A port with only the mandatory fields, as JSON defaults fill in the rest. *)
Definition plain_port (cat : ArgCategory) (name ctype : string) (width : Z) : Port :=
  mkPort cat name ctype width None None None None None None.

(** The channel expansion of [kernel_arg_names]; [inl] is its early return. *)
Definition kernel_arg_channels (target : Target) (p : Port) : list string + option Z :=
  let base := sanitize_array_name (port_name p) in
  match target, port_cat p with
  | XilinxHls, Scalar => inr None
  | XilinxHls, (Istream | Ostream) => inl [base +:+ "_s"]
  | XilinxHls, (Istreams | Ostreams) => inr (Some (default 1 (port_chan_count p)))
  | XilinxHls, (Mmap | AsyncMmap | Immap | Ommap) => inr (port_chan_count p)
  | (XilinxVitis | XilinxSlash), _ =>
      inr (match port_chan_count p with Some n => if 0 <? n then Some n else None | None => None end)
  end.

Definition kernel_arg_names (p : Port) (target : Target) : list string :=
  let base := sanitize_array_name (port_name p) in
  match kernel_arg_channels target p with
  | inl names => names
  | inr (Some count) => map (fun i => base +:+ "_" +:+ show i) (zrange 0 count)
  | inr None => [base]
  end.

(** ** Instances ([instance.rs]) *)

Record WireValue := mkWire { wire_width : Z; wire_value : Z }.

Definition wire_is_valid (v : WireValue) : bool :=
  (1 <=? wire_width v) && (wire_width v <=? 64)
  && ((wire_width v =? 64) || (wire_value v <? Z.shiftl 1 (wire_width v))).

(** [Display]: a sized Verilog decimal literal. *)
Definition wire_display (v : WireValue) : string := show (wire_width v) +:+ "'d" +:+ show (wire_value v).

Inductive ArgSource := AName (name : string) | ALiteral (value : WireValue).

#[export] Instance wire_eq_dec : EqDecision WireValue.
Proof. solve_decision. Defined.
#[export] Instance arg_source_eq_dec : EqDecision ArgSource.
Proof. solve_decision. Defined.

Definition source_name (s : ArgSource) : option string :=
  match s with AName n => Some n | ALiteral _ => None end.

Record Arg := mkArg { arg : ArgSource; cat : ArgCategory }.

Definition arg_named (name : string) (c : ArgCategory) : Arg := mkArg (AName name) c.
Definition arg_name (a : Arg) : option string := source_name (arg a).

#[export] Instance arg_eq_dec : EqDecision Arg.
Proof. solve_decision. Defined.

Record TaskInstance := mkInstance {
  inst_name : option string;
  inst_args : bmap string Arg;
  inst_step : Z;
}.

Definition canonical_name (i : TaskInstance) (definition_name : string) (index : nat) : string :=
  match inst_name i with
  | Some n => n
  | None => definition_name +:+ "_" +:+ show (Z.of_nat index)
  end.

(** ** FIFOs ([interconnect.rs]) *)

Record EndpointRef := mkEndpoint { ep_task : string; ep_index : Z }.

#[export] Instance endpoint_eq_dec : EqDecision EndpointRef.
Proof. solve_decision. Defined.

Record InterconnectDefinition := mkFifo {
  fifo_depth : option Z;
  consumed_by : option EndpointRef;
  produced_by : option EndpointRef;
}.

(** ** Tasks and the graph ([task.rs], [graph.rs]) *)

Inductive TaskLevel := Lower | Upper.
Inductive SynthTarget := SynthHls | SynthIgnore | SynthAie.

#[export] Instance task_level_eq_dec : EqDecision TaskLevel.
Proof. solve_decision. Defined.

Record AieLocation := mkAieLocation { aie_col : Z; aie_row : Z; aie_instance : option Z }.

Record Task := mkTask {
  level : TaskLevel;
  srcs : list string;
  include_dirs : list string;
  defines : list string;
  readable_name : string;
  synth : SynthTarget;
  aie_location : list AieLocation;
  aie_stack_bytes : option Z;
  ports : list Port;
  tasks : bmap string (list TaskInstance);
  fifos : bmap string InterconnectDefinition;
  clock_period : option Z;
  self_area : option Area;
  total_area : option Area;
}.

(** A task with only its structural fields. *)
Definition simple_task (l : TaskLevel) (ps : list Port) (ts : bmap string (list TaskInstance))
    (fs : bmap string InterconnectDefinition) : Task :=
  mkTask l [] [] [] "" SynthHls [] None ps ts fs None None None.

Record TaskGraph := mkGraph {
  schema_version : Z;
  top : string;
  target : Target;
  cflags : list string;
  graph_tasks : bmap string Task;
}.

Definition find_port (name : string) (ps : list Port) : option Port :=
  find_first (fun p => bool_decide (port_name p = name)) ps.

(** [Task::port]: exact channel declarations take precedence over the base
    declaration of an array interface. *)
Definition task_port (t : Task) (name : string) : option Port :=
  match find_port name (ports t) with
  | Some p => Some p
  | None =>
      let? (base, _) := Str.split_once "[" name in
      find_first (fun p => negb (Str.is_empty base) && bool_decide (port_name p = base)) (ports t)
  end.

(** [deserialize_zero_area_as_none]: the area a document's field becomes. *)
Definition zero_area_as_none (a : option Area) : option Area :=
  match a with
  | Some a => if decide (a = area_default) then None else Some a
  | None => None
  end.

(** Every child instance, in definition, then invocation order, with its
    index: the iteration [graph::child_instances] and the passes over
    [task.tasks] share. *)
Definition task_instances (t : Task) : list (string * nat * TaskInstance) :=
  flat_map (fun e => map (fun p => (e.1, p.1, p.2)) (enumerate e.2)) (tasks t).

(** *** Boundary validation *)

Inductive ParseError :=
| Schema (path message : string)
| UnsupportedSchemaVersion (found supported : Z)
| OutdatedSchemaVersion (found supported : Z).

Definition SCHEMA_VERSION : Z := 3.

Definition schema {A} (path message : string) : res ParseError A := Err (Schema path message).

(** The check of one invoke-site argument inside [validate_literals]. *)
Definition validate_arg (g : TaskGraph) (task_name child_name port_name' : string) (a : Arg) :
    res ParseError unit :=
  match arg a with
  | AName _ => Ok tt
  | ALiteral value =>
      let path := "tasks." +:+ task_name +:+ ".tasks." +:+ child_name +:+ ".args." +:+ port_name' in
      if negb (wire_is_valid value) then
        schema path ("invalid constant " +:+ wire_display value
                     +:+ ": the value must fit a width of 1..=64 bits")
      else if negb (bool_decide (cat a = Scalar)) then
        schema path ("constant " +:+ wire_display value +:+ " bound to a `" +:+ category_str (cat a)
                     +:+ "` port; only scalar ports take constants")
      else
        let declared :=
          let? child := BMap.get child_name (graph_tasks g) in
          let? p := task_port child port_name' in
          if bool_decide (port_name p = port_name') then Some p else None in
        let! p := ok_or declared
          (Schema path ("constant " +:+ wire_display value +:+ " has no declared child port `"
                        +:+ child_name +:+ "." +:+ port_name' +:+ "`")) in
        if negb (is_scalar (port_cat p)) then
          schema path ("constant " +:+ wire_display value +:+ " bound to a declared `"
                       +:+ category_str (port_cat p) +:+ "` port; only scalar ports take constants")
        else Ok tt
  end.

Definition validate_literals (g : TaskGraph) : res ParseError unit :=
  try_each (fun '(task_name, task) =>
    try_each (fun '(child_name, instances) =>
      try_each (fun inst =>
        try_each (fun '(port_name', a) => validate_arg g task_name child_name port_name' a)
                 (inst_args inst))
               instances)
             (tasks task))
           (graph_tasks g).

Definition validate (g : TaskGraph) : res ParseError unit :=
  if SCHEMA_VERSION <? schema_version g then
    Err (UnsupportedSchemaVersion (schema_version g) SCHEMA_VERSION)
  else if schema_version g <? SCHEMA_VERSION then
    Err (OutdatedSchemaVersion (schema_version g) SCHEMA_VERSION)
  else validate_literals g.

(** The validation half of [WorkState::from_json]: paths gain a [graph.] prefix. *)
Definition validate_state (g : TaskGraph) : res ParseError unit :=
  map_err (fun e => match e with Schema path m => Schema ("graph." +:+ path) m | e => e end) (validate g).

(** ** Bindings ([bindings.rs]) *)

Record PortBinding := mkBinding { bound_port_name : string; argument : Arg; bound_port : option Port }.
Record FifoEndpoint := mkFifoEndpoint {
  fe_reference : EndpointRef; fe_task : option Task; fe_binding : option PortBinding }.

Definition instance_bindings (definition : option Task) (i : TaskInstance) : list PortBinding :=
  map (fun '(n, a) => mkBinding n a (let? t := definition in task_port t n)) (inst_args i).

Definition bindings (g : TaskGraph) (parent : Task) : list PortBinding :=
  flat_map (fun '(name, instances) =>
    let definition := BMap.get name (graph_tasks g) in
    flat_map (instance_bindings definition) instances) (tasks parent).

Definition fifo_endpoint (g : TaskGraph) (parent : Task) (fifo_name : string)
    (reference : option EndpointRef) : option FifoEndpoint :=
  let? reference := reference in
  let task := BMap.get (ep_task reference) (graph_tasks g) in
  let binding :=
    let? instances := BMap.get (ep_task reference) (tasks parent) in
    let? i := instances !! Z.to_nat (ep_index reference) in
    find_first (fun b => bool_decide (arg_name (argument b) = Some fifo_name)) (instance_bindings task i) in
  Some (mkFifoEndpoint reference task binding).

(** ** Memory geometry ([memory.rs]) *)

Record MemoryGeometry := mkGeometry { geo_data_width : Z; geo_channels : option (Z * Z) }.

Inductive MemoryGeometryError :=
| ChannelCountZero | PartialChannels | BadDataWidth (w : Z) | ChannelSizeZero
| NotPowerOfTwo (size data_width bytes : Z).

Definition is_power_of_two (z : Z) : bool := (0 <? z) && (Z.land z (z - 1) =? 0).

(** [u64::from(size) * u64::from(data_width / 8)]: the product of two [u32]
    values, which a [u64] holds. *)
Definition channel_bytes (size data_width : Z) : Z := wrap64 (size * (data_width / 8)).

Definition geometry_new (data_width : Z) (chan_count chan_size : option Z) :
    res MemoryGeometryError MemoryGeometry :=
  let! channels :=
    match chan_count, chan_size with
    | Some 0, _ => Err ChannelCountZero
    | None, None => Ok None
    | Some count, Some size => Ok (Some (count, size))
    | _, _ => Err PartialChannels
    end in
  if (data_width =? 0) || negb (data_width mod 8 =? 0) then Err (BadDataWidth data_width)
  else
    match channels with
    | Some (_, size) =>
        let bytes := channel_bytes size data_width in
        if bytes =? 0 then Err ChannelSizeZero
        else if negb (is_power_of_two bytes) then Err (NotPowerOfTwo size data_width bytes)
        else Ok (mkGeometry data_width channels)
    | None => Ok (mkGeometry data_width channels)
    end.

Definition channel_count (g : MemoryGeometry) : Z :=
  match geo_channels g with Some (count, _) => count | None => 1 end.

Definition channel_addr_width (g : MemoryGeometry) : option Z :=
  match geo_channels g with
  | Some (_, size) => Some (Z.log2 (channel_bytes size (geo_data_width g)))
  | None => None
  end.

(** ** Facts *)

Lemma elem_of_enumerate {A} (l : list A) i x : (i, x) ∈ enumerate l <-> l !! i = Some x.
Proof.
  unfold enumerate. rewrite list_elem_of_lookup. split.
  - intros (j & Hj). apply lookup_zip_Some in Hj as [Hi Hx].
    apply lookup_seq in Hi as [-> _]. done.
  - intros Hx. exists i. apply lookup_zip_Some. split; [|done].
    apply lookup_seq. split; [done|]. by apply lookup_lt_Some in Hx.
Qed.

Lemma elem_of_task_instances t d i inst :
  (d, i, inst) ∈ task_instances t <-> exists insts, In (d, insts) (tasks t) /\ insts !! i = Some inst.
Proof.
  unfold task_instances. rewrite list_elem_of_In, in_flat_map. split.
  - intros ([d' insts] & Hin & ([i' inst'] & [= -> -> ->] & He)%in_map_iff).
    exists insts. split; [done|]. by apply elem_of_enumerate, list_elem_of_In.
  - intros (insts & Hin & Hl). exists (d, insts). split; [done|]. apply in_map_iff.
    exists (i, inst). split; [done|]. by apply list_elem_of_In, elem_of_enumerate.
Qed.

Lemma find_port_name name ps p : find_port name ps = Some p -> p ∈ ps /\ port_name p = name.
Proof. intros [Hin Hp]%find_first_Some. split; [done|]. by bool_hyps. Qed.

(** An exact declaration always wins. *)
Lemma task_port_exact t name p : find_port name (ports t) = Some p -> task_port t name = Some p.
Proof. unfold task_port. by intros ->. Qed.

Lemma task_port_declared t name p : task_port t name = Some p -> p ∈ ports t.
Proof.
  unfold task_port. destruct (find_port name (ports t)) as [q|] eqn:E.
  - intros [= <-]. by apply find_port_name in E as [? _].
  - destruct (Str.split_once "[" name) as [[base ?]|]; [|done]. by intros [? _]%find_first_Some.
Qed.

Lemma wire_is_valid_spec v :
  wire_is_valid v = true <->
  1 <= wire_width v <= 64 /\ (wire_width v = 64 \/ wire_value v < 2 ^ wire_width v).
Proof.
  unfold wire_is_valid. rewrite !andb_true_iff, orb_true_iff, Z.eqb_eq, !Z.leb_le, Z.ltb_lt.
  split; intros [? ?].
  - rewrite Z.shiftl_1_l in *. lia.
  - rewrite Z.shiftl_1_l. lia.
Qed.

(** What a constant argument must satisfy. *)
Definition literal_ok (g : TaskGraph) (child_name pname : string) (a : Arg) : Prop :=
  forall v, arg a = ALiteral v ->
    (1 <= wire_width v <= 64 /\ (wire_width v = 64 \/ wire_value v < 2 ^ wire_width v)) /\
    cat a = Scalar /\
    exists child p, BMap.get child_name (graph_tasks g) = Some child /\
      task_port child pname = Some p /\ port_name p = pname /\ port_cat p = Scalar.

Lemma validate_arg_ok g tn cn pn a : validate_arg g tn cn pn a = Ok tt <-> literal_ok g cn pn a.
Proof.
  unfold validate_arg, literal_ok. destruct (arg a) as [n|v]; [split; [done|by intros]|].
  destruct (wire_is_valid v) eqn:Hv; simpl.
  2:{ split; [done|]. intros H. destruct (H v eq_refl) as [Hw _].
      apply wire_is_valid_spec in Hw. congruence. }
  apply wire_is_valid_spec in Hv.
  destruct (bool_decide_reflect (cat a = Scalar)) as [Hc|Hc]; simpl.
  2:{ split; [done|]. intros H. by destruct (H v eq_refl) as (_ & ? & _). }
  destruct (BMap.get cn (graph_tasks g)) as [child|] eqn:Hg; simpl.
  2:{ split; [done|]. intros H. by destruct (H v eq_refl) as (_ & _ & ? & ? & ? & _). }
  destruct (task_port child pn) as [p|] eqn:Hp; simpl.
  2:{ split; [done|]. intros H. destruct (H v eq_refl) as (_ & _ & ? & ? & [= <-] & ? & _). congruence. }
  destruct (bool_decide_reflect (port_name p = pn)) as [Hn|Hn]; simpl.
  2:{ split; [done|]. intros H. destruct (H v eq_refl) as (_ & _ & ? & ? & [= <-] & ? & ? & _). congruence. }
  split.
  - intros Hs v' [= <-]. destruct (port_cat p) eqn:?; try discriminate Hs. eauto 10.
  - intros H. destruct (H v eq_refl) as (_ & _ & ? & ? & [= <-] & H1 & _ & H2).
    rewrite Hp in H1. simplify_eq. by rewrite H2.
Qed.

(** Every invoke-site argument of the graph satisfies [P]. *)
Definition all_args (g : TaskGraph) (P : string -> string -> Arg -> Prop) : Prop :=
  forall tn t cn insts i pn a,
    In (tn, t) (graph_tasks g) -> In (cn, insts) (tasks t) -> In i insts -> In (pn, a) (inst_args i) ->
    P cn pn a.

Lemma validate_literals_ok g : validate_literals g = Ok tt <-> all_args g (literal_ok g).
Proof.
  unfold validate_literals, all_args. rewrite try_each_ok, List.Forall_forall. split.
  - intros H tn t cn insts i pn a H1 H2 H3 H4.
    apply H in H1. simpl in H1. rewrite try_each_ok, List.Forall_forall in H1.
    apply H1 in H2. simpl in H2. rewrite try_each_ok, List.Forall_forall in H2.
    apply H2 in H3. rewrite try_each_ok, List.Forall_forall in H3.
    apply H3 in H4. simpl in H4. by eapply validate_arg_ok.
  - intros H [tn t] H1. rewrite try_each_ok, List.Forall_forall. intros [cn insts] H2.
    rewrite try_each_ok, List.Forall_forall. intros i H3.
    rewrite try_each_ok, List.Forall_forall. intros [pn a] H4. apply validate_arg_ok. eauto.
Qed.

(** Outcomes a literal check can have. *)
Definition ok_or_schema (r : res ParseError unit) : Prop :=
  match r with Ok _ | Err (Schema _ _) => True | _ => False end.

Lemma validate_literals_schema g : ok_or_schema (validate_literals g).
Proof.
  unfold validate_literals.
  apply (try_each_cases ok_or_schema); [done|]. intros [tn t] _.
  apply (try_each_cases ok_or_schema); [done|]. intros [cn insts] _.
  apply (try_each_cases ok_or_schema); [done|]. intros i _.
  apply (try_each_cases ok_or_schema); [done|]. intros [pn a] _.
  unfold validate_arg, schema, rbind, ok_or. by repeat case_match; simplify_eq.
Qed.

Lemma channel_bytes_exact size w :
  in_u32 size -> in_u32 w -> channel_bytes size w = size * (w / 8).
Proof.
  intros Hs Hw. unfold in_u32, U32_MAX in *. apply wrap64_id. unfold in_u64, U64_MAX.
  assert (0 <= w / 8 <= 536870912).
  { split; [apply Z.div_pos; lia|]. apply Z.div_le_upper_bound; lia. }
  nia.
Qed.

Lemma is_power_of_two_spec z : is_power_of_two z = true -> 0 < z /\ z = 2 ^ Z.log2 z.
Proof.
  unfold is_power_of_two. intros [Hz Hl]%andb_true_iff. bool_hyps. split; [done|].
  pose proof (Z.log2_spec z Hz) as [Hlo Hhi]. pose proof (Z.log2_nonneg z) as Hnn.
  destruct (Z.eq_dec z (2 ^ Z.log2 z)) as [|Hne]; [done|exfalso].
  assert (Z.log2 (z - 1) = Z.log2 z).
  { apply Z.log2_unique; [done|]. split; lia. }
  assert (Hb : Z.testbit (Z.land z (z - 1)) (Z.log2 z) = true).
  { rewrite Z.land_spec, Z.bit_log2 by lia. rewrite <- H at 1. rewrite Z.bit_log2; [done|].
    assert (0 < 2 ^ Z.log2 z) by (apply Z.pow_pos_nonneg; lia). lia. }
  by rewrite Hl, Z.bits_0 in Hb.
Qed.

(** ** Properties *)

(** C40: boundary validation accepts a task graph exactly when its schema
    version is the supported one and every invoke-site constant fits a width
    of 1 to 64 bits, is bound as a scalar, and names a scalar port its child
    task declares under exactly that name. *)
Theorem validate_iff (g : TaskGraph) :
  validate g = Ok tt <-> schema_version g = SCHEMA_VERSION /\ all_args g (literal_ok g).
Proof.
  unfold validate. destruct (Z.ltb_spec SCHEMA_VERSION (schema_version g)).
  - split; [done|]. intros [? _]. lia.
  - destruct (Z.ltb_spec (schema_version g) SCHEMA_VERSION).
    + split; [done|]. intros [? _]. lia.
    + rewrite validate_literals_ok. split; [|tauto]. intros. split; [lia|done].
Qed.

(** Validation never panics, and every rejection names either a version
    mismatch in the right direction or the path of an offending constant; the
    archived-state boundary accepts exactly the same graphs. *)
Theorem validate_errors (g : TaskGraph) :
  match validate g with
  | Ok _ => validate_state g = Ok tt
  | Err (UnsupportedSchemaVersion f s) => f = schema_version g /\ s = SCHEMA_VERSION /\ s < f
  | Err (OutdatedSchemaVersion f s) => f = schema_version g /\ s = SCHEMA_VERSION /\ f < s
  | Err (Schema path m) =>
      schema_version g = SCHEMA_VERSION /\ ~ all_args g (literal_ok g) /\
      validate_state g = Err (Schema ("graph." +:+ path) m)
  | Panic => False
  end.
Proof.
  unfold validate_state, validate.
  destruct (Z.ltb_spec SCHEMA_VERSION (schema_version g)); [done|].
  destruct (Z.ltb_spec (schema_version g) SCHEMA_VERSION); [done|].
  pose proof (validate_literals_schema g) as Hs.
  destruct (validate_literals g) as [[]|[path m|f s|f s]|] eqn:Hv; simpl; try done.
  split; [lia|]. split; [|done]. intros Hall%validate_literals_ok. congruence.
Qed.

(** The merged memory geometry: accepted metadata is either a plain mmap
    or an hmap with at least one channel whose byte size is exactly
    [2 ^ channel_addr_width], on a data bus of whole bytes; nothing else is
    accepted. *)
Theorem memory_geometry_sound (w : Z) (count size : option Z) (g : MemoryGeometry)
    (Hw : in_u32 w) (Hsz : forall s, size = Some s -> in_u32 s)
    (Hnew : geometry_new w count size = Ok g) :
  geo_data_width g = w /\ w <> 0 /\ w mod 8 = 0 /\
  match geo_channels g with
  | None => count = None /\ size = None /\ channel_count g = 1 /\ channel_addr_width g = None
  | Some (n, s) =>
      count = Some n /\ size = Some s /\ n <> 0 /\ channel_count g = n /\
      exists aw, channel_addr_width g = Some aw /\ 0 <= aw /\ s * (w / 8) = 2 ^ aw
  end.
Proof.
  unfold geometry_new in Hnew. apply rbind_ok in Hnew as (chans & Hc & Hnew).
  destruct ((w =? 0) || negb (w mod 8 =? 0)) eqn:Hd; [done|]. bool_hyps.
  destruct chans as [[n s]|].
  - assert (count = Some n /\ size = Some s /\ n <> 0) as (-> & -> & Hn).
    { destruct count as [[|q|q]|], size as [?|]; simplify_eq/=; done. }
    destruct (channel_bytes s w =? 0) eqn:Hz; [done|].
    destruct (is_power_of_two (channel_bytes s w)) eqn:Hp; simplify_eq/=.
    apply is_power_of_two_spec in Hp as [_ Hp].
    rewrite channel_bytes_exact in Hp by auto.
    repeat split; try done.
    exists (Z.log2 (channel_bytes s w)). split; [done|]. split; [apply Z.log2_nonneg|].
    by rewrite channel_bytes_exact by auto.
  - assert (count = None /\ size = None) as [-> ->].
    { destruct count as [[|q|q]|], size as [?|]; simplify_eq/=; done. }
    simplify_eq/=. done.
Qed.

Lemma memory_geometry_sound_witness :
  exists aw, channel_addr_width (mkGeometry 512 (Some (4, 1024))) = Some aw /\ 0 <= aw /\ 1024 * (512 / 8) = 2 ^ aw.
Proof.
  assert (forall s, Some 1024 = Some s -> in_u32 s) as Hs by (intros s [= <-]; split; vm_compute; congruence).
  assert (in_u32 512) as Hw by (split; vm_compute; congruence).
  exact (proj2 (proj2 (proj2 (proj2 (proj2 (proj2 (proj2
    (memory_geometry_sound 512 (Some 4) (Some 1024) _ Hw Hs eq_refl)))))))).
Defined.

Lemma kernel_arg_names_expand p tgt n :
  kernel_arg_channels tgt p = inr (Some n) ->
  kernel_arg_names p tgt = map (fun i => sanitize_array_name (port_name p) +:+ "_" +:+ show i) (zrange 0 n).
Proof. unfold kernel_arg_names. by intros ->. Qed.

(** The kernel arguments of a port are pairwise distinct names, and an
    expanded port has exactly one argument per channel, in channel order. *)
Theorem kernel_arg_names_distinct (p : Port) (tgt : Target) :
  NoDup (kernel_arg_names p tgt) /\
  (forall n, kernel_arg_channels tgt p = inr (Some n) ->
     length (kernel_arg_names p tgt) = Z.to_nat n /\
     forall i, 0 <= i < n ->
       kernel_arg_names p tgt !! Z.to_nat i =
       Some (sanitize_array_name (port_name p) +:+ "_" +:+ show i)).
Proof.
  split.
  - unfold kernel_arg_names. destruct (kernel_arg_channels tgt p) as [names|[n|]] eqn:E.
    + unfold kernel_arg_channels in E. destruct tgt, (port_cat p); simplify_eq; apply NoDup_singleton.
    + generalize (NoDup_zrange 0 n) (elem_of_zrange 0 n). generalize (zrange 0 n). intros l Hnd Hl.
      assert (Hpos : Forall (fun i => 0 <= i) l).
      { apply Forall_forall. intros i Hi. apply Hl in Hi. lia. } clear Hl.
      induction Hnd as [|i l Hi Hnd IH]; simpl; constructor; apply Forall_cons in Hpos as [Hi0 Hpos]; [|auto].
      rewrite list_elem_of_In, in_map_iff. intros (j & Hj & Hin). apply Hi.
      apply Str.app_inj_l in Hj. simplify_eq/=.
      apply Str.show_inj in Hj; [|rewrite Forall_forall in Hpos; by apply Hpos, list_elem_of_In|done].
      subst. by apply list_elem_of_In.
    + apply NoDup_singleton.
  - intros n Hn. rewrite (kernel_arg_names_expand _ _ _ Hn). split.
    + rewrite length_map, length_zrange. lia.
    + intros i Hi. unfold zrange. rewrite map_map.
      change (map ?f ?l) with (f <$> l). rewrite list_lookup_fmap.
      rewrite (proj2 (lookup_seq 0 (Z.to_nat (n - 0)) (Z.to_nat i) (Z.to_nat i))) by lia.
      simpl. by rewrite Z2Nat.id by lia.
Qed.
