(* ===== verification/Connectivity.v ===== *)
(** * External memory connectivity

    Memory banks, their tags, and the unique endpoint-to-bank assignments of
    [tapa-ir/src/connectivity.rs]. *)

From S2P Require Import Prelude RustStd BTreeMap.

Record MemoryEndpoint := mkMemEndpoint { me_kernel : string; me_port : string }.
Inductive MemoryKind := Hbm | Ddr.
Record MemoryBank := mkBank { bank_kind : MemoryKind; bank_index : Z }.

#[export] Instance memory_kind_eq_dec : EqDecision MemoryKind.
Proof. solve_decision. Defined.
#[export] Instance memory_bank_eq_dec : EqDecision MemoryBank.
Proof. solve_decision. Defined.

(** Derived [Ord] of the three types. *)
Definition kind_ord (k : MemoryKind) : Z := match k with Hbm => 0 | Ddr => 1 end.

#[export] Instance ordkey_memory_bank : OrdKey MemoryBank.
Proof.
  refine (ordkey_proj (fun b => (kind_ord (bank_kind b), bank_index b)) _).
  abstract (intros [[] ?] [[] ?]; simpl; congruence).
Defined.
#[export] Instance ordkey_memory_endpoint : OrdKey MemoryEndpoint.
Proof.
  refine (ordkey_proj (fun e => (me_kernel e, me_port e)) _).
  abstract (intros [] []; simpl; congruence).
Defined.

Definition endpoint_display (e : MemoryEndpoint) : string := me_kernel e +:+ "." +:+ me_port e.

Definition bank_display (b : MemoryBank) : string :=
  (match bank_kind b with Hbm => "HBM" | Ddr => "DDR" end) +:+ "[" +:+ show (bank_index b) +:+ "]".

(** The index half of [MemoryBank::from_str]: the text after the opening
    bracket. *)
Definition bank_index_from_str (tag rest : string) : res string Z :=
  let! digits :=
    ok_or (let? r := Str.strip_suffix "]" rest in
           let digits := Str.trim r in
           if negb (Str.is_empty digits) && Str.all Str.is_digit digits then Some digits else None) tag in
  ok_or (Str.parse_u32 digits) tag.

(** [MemoryBank::from_str]; the error carries the rejected tag. *)
Definition bank_from_str (tag : string) : res string MemoryBank :=
  let! (kind, rest) :=
    ok_or (match Str.strip_prefix "HBM[" tag with
           | Some rest => Some (Hbm, rest)
           | None => match Str.strip_prefix "DDR[" tag with
                     | Some rest => Some (Ddr, rest)
                     | None => None
                     end
           end) tag in
  let! index := bank_index_from_str tag rest in
  Ok (mkBank kind index).

Record MemoryBinding := mkMemBinding { mb_endpoint : MemoryEndpoint; mb_bank : MemoryBank }.

Record DuplicateMemoryEndpoint := mkDuplicate {
  dup_endpoint : MemoryEndpoint; previous_bank : MemoryBank; new_bank : MemoryBank }.

Definition duplicate_detail (previous new : MemoryBank) : string :=
  if decide (previous = new) then "is repeated"
  else "maps to both " +:+ bank_display previous +:+ " and " +:+ bank_display new.

(** The private field of [MemoryBindings]. *)
Record MemoryBindings := mkBindings { bindings_list : list MemoryBinding }.

(** The loop of [try_from_bindings] over the endpoints seen so far. *)
Fixpoint check_unique (seen : bmap MemoryEndpoint MemoryBank) (l : list MemoryBinding) :
    res DuplicateMemoryEndpoint unit :=
  match l with
  | [] => Ok tt
  | b :: l' =>
      match BMap.get (mb_endpoint b) seen with
      | Some prev => Err (mkDuplicate (mb_endpoint b) prev (mb_bank b))
      | None => check_unique (BMap.insert (mb_endpoint b) (mb_bank b) seen) l'
      end
  end.

Definition try_from_bindings (l : list MemoryBinding) : res DuplicateMemoryEndpoint MemoryBindings :=
  let! _ := check_unique BMap.empty l in Ok (mkBindings l).

Definition bindings_get (m : MemoryBindings) (kernel port : string) : option MemoryBank :=
  let? b := find_first (fun b => bool_decide (me_kernel (mb_endpoint b) = kernel)
                                 && bool_decide (me_port (mb_endpoint b) = port)) (bindings_list m) in
  Some (mb_bank b).

(** ** Facts *)

Lemma check_unique_ok seen l :
  check_unique seen l = Ok tt <->
  NoDup (map mb_endpoint l) /\ (forall b, b ∈ l -> BMap.get (mb_endpoint b) seen = None).
Proof.
  revert seen; induction l as [|b l IH]; intros seen; simpl.
  - split; [|done]. intros _. split; [constructor|]. intros ? H. by apply not_elem_of_nil in H.
  - destruct (BMap.get (mb_endpoint b) seen) as [p|] eqn:Hg.
    + split; [done|]. intros [_ H]. rewrite H in Hg by by left. done.
    + rewrite IH, NoDup_cons. split.
      * intros [Hnd Hs]. split; [split; [|done]|].
        -- rewrite list_elem_of_In, in_map_iff. intros (b' & He & Hin).
           apply list_elem_of_In, Hs in Hin. by rewrite He, BMap.get_insert_eq in Hin.
        -- intros b' [->|Hb']%elem_of_cons; [done|]. specialize (Hs _ Hb').
           rewrite BMap.get_insert in Hs. by destruct (decide _).
      * intros [[Hni Hnd] Hs]. split; [done|]. intros b' Hb'.
        rewrite BMap.get_insert_ne; [apply Hs; by right|].
        intros He. apply Hni. rewrite <- He, list_elem_of_In. by apply in_map, list_elem_of_In.
Qed.

Lemma check_unique_err seen l e :
  check_unique seen l = Err e ->
  exists b, b ∈ l /\ dup_endpoint e = mb_endpoint b /\ new_bank e = mb_bank b /\
    (BMap.get (mb_endpoint b) seen = Some (previous_bank e) \/
     exists b', b' ∈ l /\ mb_endpoint b' = mb_endpoint b /\ mb_bank b' = previous_bank e).
Proof.
  revert seen; induction l as [|b l IH]; intros seen; simpl; [done|].
  destruct (BMap.get (mb_endpoint b) seen) as [p|] eqn:Hg.
  - intros [= <-]. exists b. simpl. split; [by left|]. eauto.
  - intros (c & Hc & H1 & H2 & H3)%IH. exists c. split; [by right|]. split; [done|]. split; [done|].
    destruct H3 as [H3|(b' & ? & ? & ?)]; [|right; exists b'; split; [by right|done]].
    rewrite BMap.get_insert in H3. destruct (decide _) as [He|]; [|by left].
    simplify_eq. right. exists b. split; [by left|done].
Qed.

(** The trimming loops stop at a byte no pattern starts with. *)
Lemma strip_any_none ws c s :
  Forall (fun w => exists d r, w = String d r /\ d <> c) ws -> Str.strip_any ws (String c s) = None.
Proof.
  induction 1 as [|w ws (d & r & -> & Hd) _ IH]; [done|]. cbn [Str.strip_any Str.strip_prefix].
  by destruct (Ascii.eqb_spec d c).
Qed.

Lemma strip_any_digit ws c s :
  Str.is_digit c = true ->
  forallb (fun w => match w with String d _ => negb (Str.is_digit d) | _ => false end) ws = true ->
  Str.strip_any ws (String c s) = None.
Proof.
  intros Hc Hws. apply strip_any_none, List.Forall_forall. intros w Hw.
  rewrite forallb_forall in Hws. specialize (Hws w Hw). destruct w as [|d r]; [done|].
  exists d, r. split; [done|]. intros ->. by rewrite Hc in Hws.
Qed.

Lemma trim_with_digits fuel ws s :
  Str.all Str.is_digit s = true ->
  forallb (fun w => match w with String d _ => negb (Str.is_digit d) | _ => false end) ws = true ->
  Str.trim_with fuel ws s = s.
Proof.
  intros Hs Hws. destruct fuel as [|n]; [done|]. cbn [Str.trim_with].
  destruct s as [|c s].
  - replace (Str.strip_any ws "") with (@None string); [done|]. clear Hs.
    induction ws as [|[|d w] ws IH]; simpl in *; [done|done|]. apply IH. by bool_hyps.
  - simpl in Hs. bool_hyps. by rewrite strip_any_digit.
Qed.

Lemma rev_append_app s acc : Str.rev_append s acc = Str.rev s +:+ acc.
Proof.
  unfold Str.rev. revert acc; induction s as [|c s IH]; intros acc; simpl; [done|].
  rewrite IH, (IH (String c "")), Str.app_assoc. done.
Qed.

Lemma rev_cons c s : Str.rev (String c s) = Str.rev s +:+ String c "".
Proof. unfold Str.rev at 1. simpl. apply rev_append_app. Qed.

Lemma rev_app s t : Str.rev (s +:+ t) = Str.rev t +:+ Str.rev s.
Proof.
  induction s as [|c s IH]; simpl; [by rewrite Str.app_nil_r|].
  by rewrite !rev_cons, IH, Str.app_assoc.
Qed.

Lemma rev_rev s : Str.rev (Str.rev s) = s.
Proof. induction s as [|c s IH]; [done|]. by rewrite rev_cons, rev_app, IH. Qed.

Lemma all_rev p s : Str.all p (Str.rev s) = Str.all p s.
Proof.
  induction s as [|c s IH]; [done|]. rewrite rev_cons, Str.all_app, IH. simpl.
  by rewrite andb_true_r, andb_comm.
Qed.

Lemma trim_digits s : Str.all Str.is_digit s = true -> Str.trim s = s.
Proof.
  intros Hs. unfold Str.trim.
  assert (Hr : Str.all Str.is_digit (Str.rev s) = true) by by rewrite all_rev.
  rewrite (trim_with_digits _ Str.whitespace s Hs) by (vm_compute; reflexivity).
  rewrite (trim_with_digits _ (map Str.rev Str.whitespace) _ Hr) by (vm_compute; reflexivity).
  apply rev_rev.
Qed.

Lemma bank_index_from_str_show tag i : in_u32 i -> bank_index_from_str tag (show i +:+ "]") = Ok i.
Proof.
  intros Hi. pose proof Hi as [Hi0 _]. unfold bank_index_from_str.
  rewrite (proj2 (Str.strip_suffix_Some "]" _ (show i)) eq_refl). cbv zeta.
  pose proof (Str.show_digits i Hi0) as Hd. pose proof (Str.show_nonempty i Hi0) as Hne.
  rewrite trim_digits, Hd by done.
  replace (Str.is_empty (show i)) with false by (destruct (show i); done).
  simpl. unfold Str.parse_u32. by rewrite Str.parse_show.
Qed.

Lemma bank_from_str_display b : in_u32 (bank_index b) -> bank_from_str (bank_display b) = Ok b.
Proof.
  intros Hi. unfold bank_from_str, bank_display. destruct b as [[] i]; cbn [bank_kind bank_index] in *.
  - change ("HBM" +:+ "[" +:+ show i +:+ "]") with ("HBM[" +:+ (show i +:+ "]")).
    rewrite (proj2 (Str.strip_prefix_Some "HBM[" _ (show i +:+ "]")) eq_refl). simpl.
    by rewrite bank_index_from_str_show.
  - change ("DDR" +:+ "[" +:+ show i +:+ "]") with ("DDR[" +:+ (show i +:+ "]")).
    rewrite (proj2 (Str.strip_prefix_Some "DDR[" _ (show i +:+ "]")) eq_refl). simpl.
    by rewrite bank_index_from_str_show.
Qed.

Lemma bank_from_str_sound tag b :
  bank_from_str tag = Ok b ->
  in_u32 (bank_index b) /\
  exists pad digits, tag = (match bank_kind b with Hbm => "HBM[" | Ddr => "DDR[" end) +:+ pad +:+ "]" /\
    Str.trim pad = digits /\ digits <> "" /\ Str.all Str.is_digit digits = true /\
    Str.parse_u32 digits = Some (bank_index b).
Proof.
  unfold bank_from_str. intros ([k rest] & Hk & (i & Hi & [= <-])%rbind_ok)%rbind_ok.
  unfold bank_index_from_str in Hi. apply rbind_ok in Hi as (ds & Hds & Hp).
  apply ok_or_ok in Hk, Hds, Hp. cbn [bank_kind bank_index].
  destruct (Str.strip_suffix "]" rest) as [pad|] eqn:Hs; [|done]. cbv zeta in Hds.
  destruct (negb (Str.is_empty (Str.trim pad)) && Str.all Str.is_digit (Str.trim pad)) eqn:Hd; [|done].
  injection Hds as <-. apply Str.strip_suffix_Some in Hs as ->. bool_hyps.
  split; [by eapply Str.parse_uint_range|]. exists pad, (Str.trim pad).
  assert (tag = (match k with Hbm => "HBM[" | Ddr => "DDR[" end) +:+ pad +:+ "]") as Htag.
  { destruct (Str.strip_prefix "HBM[" tag) as [r|] eqn:E.
    - apply Str.strip_prefix_Some in E. by simplify_eq.
    - destruct (Str.strip_prefix "DDR[" tag) as [r|] eqn:E'; [|done].
      apply Str.strip_prefix_Some in E'. by simplify_eq. }
  split; [done|]. split; [done|]. split; [|done]. intros E. by rewrite E in *.
Qed.

(** ** Properties *)

(** Bank tags round-trip: the tag printed for a bank parses back to that
    bank, so equal tags mean equal banks; and whatever tag parses is [HBM[..]]
    or [DDR[..]] around a decimal [u32] index, blanks aside. *)
Theorem bank_tag_roundtrip :
  (forall b, in_u32 (bank_index b) -> bank_from_str (bank_display b) = Ok b) /\
  (forall tag b, bank_from_str tag = Ok b ->
    in_u32 (bank_index b) /\
    exists pad digits, tag = (match bank_kind b with Hbm => "HBM[" | Ddr => "DDR[" end) +:+ pad +:+ "]" /\
      Str.trim pad = digits /\ digits <> "" /\ Str.all Str.is_digit digits = true /\
      Str.parse_u32 digits = Some (bank_index b)).
Proof. split; [exact bank_from_str_display|exact bank_from_str_sound]. Qed.

(** [MemoryBindings] keeps its uniqueness invariant: a list of bindings
    is accepted exactly when no endpoint repeats, it is kept unchanged, and then
    looking an endpoint up finds precisely the bank bound to it. *)
Theorem memory_bindings_unique (l : list MemoryBinding) :
  (is_ok (try_from_bindings l) = true <-> NoDup (map mb_endpoint l)) /\
  (forall m, try_from_bindings l = Ok m ->
     bindings_list m = l /\
     forall k p bank, bindings_get m k p = Some bank <-> mkMemBinding (mkMemEndpoint k p) bank ∈ l).
Proof.
  assert (Hok : check_unique BMap.empty l = Ok tt <-> NoDup (map mb_endpoint l)).
  { rewrite check_unique_ok. split; [tauto|]. done. }
  unfold try_from_bindings. split.
  - rewrite <- Hok. destruct (check_unique BMap.empty l) as [[]| |]; done.
  - intros m Hm. apply rbind_ok in Hm as ([] & Hc & [= <-]). split; [done|]. apply Hok in Hc.
    intros k p bank. unfold bindings_get; simpl.
    split.
    + destruct (find_first _ l) as [b|] eqn:E; [|done]. intros [= <-].
      apply find_first_Some in E as [Hin Hp]. bool_hyps.
      destruct b as [[k' p'] bank']; simpl in *; subst. done.
    + intros Hin. destruct (find_first _ l) as [b|] eqn:E.
      * apply find_first_Some in E as [Hin' Hp]. bool_hyps. f_equal.
        destruct b as [[k' p'] bank']; simpl in *; subst.
        apply list_elem_of_lookup in Hin as [i Hi], Hin' as [j Hj].
        assert (i = j) as <-.
        { eapply (NoDup_lookup _ i j _ Hc); change (map mb_endpoint l) with (mb_endpoint <$> l);
            rewrite list_lookup_fmap; [rewrite Hi|rewrite Hj]; done. }
        congruence.
      * apply find_first_None in E. rewrite Forall_forall in E. apply E in Hin. simpl in Hin.
        by rewrite !bool_decide_true in Hin.
Qed.

(** A rejected binding list names a real conflict: the endpoint occurs
    in the list with the reported new bank, and also with the reported
    previous one. *)
Theorem memory_bindings_conflict (l : list MemoryBinding) (e : DuplicateMemoryEndpoint)
    (He : try_from_bindings l = Err e) :
  mkMemBinding (dup_endpoint e) (new_bank e) ∈ l /\
  mkMemBinding (dup_endpoint e) (previous_bank e) ∈ l.
Proof.
  unfold try_from_bindings in He. destruct (check_unique BMap.empty l) as [[]|e'|] eqn:Hc; simplify_eq/=.
  apply check_unique_err in Hc as ([[k p] nb] & Hin & H1 & H2 & [H3|([[k' p'] pb] & Hin' & H4 & H5)]); [done|].
  simpl in *. by subst; rewrite H1, H2 || rewrite H1; simplify_eq.
Qed.

Lemma memory_bindings_conflict_witness :
  mkMemBinding (mkMemEndpoint "k" "p") (mkBank Hbm 0)
  ∈ [mkMemBinding (mkMemEndpoint "k" "p") (mkBank Hbm 0); mkMemBinding (mkMemEndpoint "k" "p") (mkBank Ddr 1)].
Proof.
  exact (proj2 (memory_bindings_conflict
    [mkMemBinding (mkMemEndpoint "k" "p") (mkBank Hbm 0); mkMemBinding (mkMemEndpoint "k" "p") (mkBank Ddr 1)]
    (mkDuplicate (mkMemEndpoint "k" "p") (mkBank Hbm 0) (mkBank Ddr 1)) eq_refl)).
Defined.
