(* ===== verification/Flatten.v ===== *)
(** * Hierarchy flattening

    [tapa-ir/src/transforms.rs]: every leaf instance of the hierarchy is lifted
    under the top task, FIFOs get global names, and the occurrences of the
    original hierarchy are recorded in preorder with references to the original
    invocations.

    The recursion follows the task hierarchy.  Rust recurses on the call stack
    and overflows it on a cyclic hierarchy; the model takes fuel, and running
    out of it is [Panic].  [flatten_with_origins] supplies one more than the
    number of tasks, which an acyclic hierarchy cannot exhaust
    ([collect_no_panic] below). *)

From S2P Require Import Prelude RustStd BTreeMap Geometry Names Ir.

Record TaskOccurrence := mkOcc {
  occ_parent : option nat;
  occ_source : option EndpointRef;
  global_name : string;
  flat_endpoint : option EndpointRef;
}.

Record FlatProjection := mkFlat { flat : TaskGraph; occurrences : list TaskOccurrence }.

(** [FlatProjection::source_task]. *)
Definition source_task (p : FlatProjection) (g : TaskGraph) (k : nat) : option Task :=
  let? occ := occurrences p !! k in
  let name := match occ_source occ with Some s => ep_task s | None => top g end in
  BMap.get name (graph_tasks g).

(** [FlatProjection::source_invocation]. *)
Definition source_invocation (p : FlatProjection) (g : TaskGraph) (k : nat) : option TaskInstance :=
  let? occ := occurrences p !! k in
  let? source := occ_source occ in
  let? parent := occ_parent occ in
  let? ptask := source_task p g parent in
  let? insts := BMap.get (ep_task source) (tasks ptask) in
  insts !! Z.to_nat (ep_index source).

Record FlatInstances := mkCollected {
  c_leaves : bmap string (list TaskInstance);
  c_fifos : bmap string InterconnectDefinition;
  c_occs : list TaskOccurrence;
}.

Inductive TransformError :=
| MissingTop (name : string)
| TopIsLeaf (name : string)
| FifoNameCollision (name : string).

(** [FlatInstances::push_leaf]. *)
Definition push_leaf (owner : nat) (source : EndpointRef) (i : TaskInstance) (c : FlatInstances) :
    res TransformError FlatInstances :=
  let leaves := default [] (BMap.get (ep_task source) (c_leaves c)) in
  let name := canonical_name i (ep_task source) (length leaves) in
  let! idx := u32_of_usize (length leaves) in
  Ok (mkCollected
        (BMap.insert (ep_task source) (leaves ++ [i]) (c_leaves c))
        (c_fifos c)
        (c_occs c ++ [mkOcc (Some owner) (Some source) name (Some (mkEndpoint (ep_task source) idx))])).

(** *** Array-indexed names *)

(** [split_array_index]: [find('[')] then [find(']')] after it. *)
Definition split_array_index (name : string) : option (string * Z * string) :=
  let? (base, rest) := Str.split_once "[" name in
  let? (digits, suffix) := Str.split_once "]" rest in
  let? idx := Str.parse_u32 digits in
  Some (base, idx, suffix).

Definition offset_array_binding (bound : string) (offset : Z) : string :=
  match split_array_index bound with
  | Some (base, base_idx, suffix) => base +:+ "[" +:+ show (wrap32 (base_idx + offset)) +:+ "]" +:+ suffix
  | None => bound +:+ "[" +:+ show offset +:+ "]"
  end.

Definition resolve_scoped_arg (local_name : string) (fifo_global_map : bmap string string)
    (arg_bindings : bmap string ArgSource) : ArgSource :=
  match BMap.get local_name fifo_global_map with
  | Some global => AName global
  | None =>
      match BMap.get local_name arg_bindings with
      | Some bound => bound
      | None =>
          let fallback := AName local_name in
          match split_array_index local_name with
          | Some (base, idx, suffix) =>
              if Str.is_empty suffix then
                match BMap.get base arg_bindings with
                | Some (AName bound) => AName (offset_array_binding bound idx)
                | _ =>
                    match BMap.get base fifo_global_map with
                    | Some bound => AName (offset_array_binding bound idx)
                    | None => fallback
                    end
                end
              else fallback
          | None => fallback
          end
      end
  end.

Definition should_materialize_fifo (f : InterconnectDefinition) (is_top_scope : bool) : bool :=
  is_top_scope || match fifo_depth f with Some _ => true | None => false end.

(** The global names of the FIFOs a scope materializes. *)
Definition fifo_global_map (def : Task) (is_top_scope : bool) (scope_path : string) : bmap string string :=
  BMap.from_list
    (flat_map (fun '(name, f) =>
       if should_materialize_fifo f is_top_scope then
         [(name, match fifo_depth f with None => name | Some _ => name +:+ "_" +:+ scope_path end)]
       else []) (fifos def)).

Definition resolve_arg (fmap : bmap string string) (bound : bmap string ArgSource) (a : Arg) : Arg :=
  mkArg (match arg a with
         | ALiteral v => ALiteral v
         | AName n => resolve_scoped_arg n fmap bound
         end) (cat a).

Definition resolve_args (fmap : bmap string string) (bound : bmap string ArgSource) (args : bmap string Arg) :
    bmap string Arg :=
  BMap.from_list (map (fun e => (e.1, resolve_arg fmap bound e.2)) args).

(** *** The recursive collection *)

(** One iteration of the loop over a scope's invocations; [rec] is the
    recursive call. *)
Definition collect_instance
    (rec : string -> string -> bmap string ArgSource -> nat -> FlatInstances -> res TransformError FlatInstances)
    (g : TaskGraph) (is_top_scope : bool) (scope_path : string)
    (fmap : bmap string string) (bound : bmap string ArgSource) (owner : nat)
    (c : FlatInstances) (e : string * nat * TaskInstance) : res TransformError FlatInstances :=
  let '(child_def_name, idx, inst) := e in
  let resolved_args := resolve_args fmap bound (inst_args inst) in
  let! child_def := ok_or (BMap.get child_def_name (graph_tasks g)) (MissingTop child_def_name) in
  let! idx32 := u32_of_usize idx in
  let source := mkEndpoint child_def_name idx32 in
  match level child_def with
  | Lower =>
      let i := mkInstance
        (match inst_name inst with
         | Some n => Some (if is_top_scope then n else n +:+ "_" +:+ scope_path)
         | None => None
         end) resolved_args (inst_step inst) in
      push_leaf owner source i c
  | Upper =>
      let child_scope := canonical_name inst child_def_name idx +:+ "_" +:+ scope_path in
      let child_occurrence := length (c_occs c) in
      let c := mkCollected (c_leaves c) (c_fifos c)
                 (c_occs c ++ [mkOcc (Some owner) (Some source) child_scope None]) in
      let child_bindings := BMap.from_list (map (fun e => (e.1, arg e.2)) resolved_args) in
      rec child_def_name child_scope child_bindings child_occurrence c
  end.

(** One iteration of the loop that registers a scope's FIFOs. *)
Definition register_fifo (def : Task) (c : FlatInstances) (e : string * string) :
    res TransformError FlatInstances :=
  let '(local_name, global_name) := e in
  let! fifo_def := expect (BMap.get local_name (fifos def)) in
  if BMap.contains_key global_name (c_fifos c) then Err (FifoNameCollision global_name)
  else Ok (mkCollected (c_leaves c)
             (BMap.insert global_name
                (mkFifo (fifo_depth fifo_def) (consumed_by fifo_def) (produced_by fifo_def)) (c_fifos c))
             (c_occs c)).

Fixpoint collect_leaves_recursive (fuel : nat) (g : TaskGraph) (task_name scope_path : string)
    (arg_bindings : bmap string ArgSource) (owner : nat) (collected : FlatInstances) :
    res TransformError FlatInstances :=
  match fuel with
  | O => Panic
  | S fuel' =>
      let! def := ok_or (BMap.get task_name (graph_tasks g)) (MissingTop task_name) in
      let is_top_scope := bool_decide (task_name = top g) && bool_decide (scope_path = top g) in
      let fmap := fifo_global_map def is_top_scope scope_path in
      let! collected :=
        try_fold (collect_instance (collect_leaves_recursive fuel' g) g is_top_scope scope_path fmap
                    arg_bindings owner)
                 collected (task_instances def) in
      try_fold (register_fifo def) collected fmap
  end.

(** *** Endpoints *)

Inductive EndpointRole := Consumer | Producer.

Definition role_matches (r : EndpointRole) (c : ArgCategory) : bool :=
  match r with Consumer => is_input_stream c | Producer => is_output_stream c end.

Definition binds_fifo (role : EndpointRole) (fifo_global : string) (i : TaskInstance) : bool :=
  existsb (fun e => bool_decide (arg_name e.2 = Some fifo_global) && role_matches role (cat e.2)) (inst_args i).

(** The flat endpoints in search order: definition, then index. *)
Definition leaf_instances (leaves : bmap string (list TaskInstance)) : list (string * nat * TaskInstance) :=
  flat_map (fun e => map (fun p => (e.1, p.1, p.2)) (enumerate e.2)) leaves.

Definition find_endpoint (leaves : bmap string (list TaskInstance)) (fifo_global : string) (role : EndpointRole) :
    res TransformError (option EndpointRef) :=
  match find_first (fun e => binds_fifo role fifo_global e.2) (leaf_instances leaves) with
  | None => Ok None
  | Some (task_name, idx, _) => let! i := u32_of_usize idx in Ok (Some (mkEndpoint task_name i))
  end.

(** The endpoint pass over one FIFO. *)
Definition fill_endpoints (leaves : bmap string (list TaskInstance)) (e : string * InterconnectDefinition) :
    res TransformError (string * InterconnectDefinition) :=
  let '(name, f) := e in
  let! c := match consumed_by f with Some _ => find_endpoint leaves name Consumer | None => Ok None end in
  let! p := match produced_by f with Some _ => find_endpoint leaves name Producer | None => Ok None end in
  Ok (name, mkFifo (fifo_depth f) c p).

Definition set_children (t : Task) (ts : bmap string (list TaskInstance))
    (fs : bmap string InterconnectDefinition) : Task :=
  mkTask (level t) (srcs t) (include_dirs t) (defines t) (readable_name t) (synth t) (aie_location t)
    (aie_stack_bytes t) (ports t) ts fs (clock_period t) (self_area t) (total_area t).

(** The leaf definitions the flat graph keeps. *)
Definition leaf_definitions (g : TaskGraph) (leaves : bmap string (list TaskInstance)) : bmap string Task :=
  BMap.from_list
    (flat_map (fun e => match BMap.get e.1 (graph_tasks g) with Some d => [(e.1, d)] | None => [] end) leaves).

Definition initial_collected (g : TaskGraph) : FlatInstances :=
  mkCollected BMap.empty BMap.empty [mkOcc None None (top g) None].

Definition flatten_with_fuel (fuel : nat) (g : TaskGraph) : res TransformError FlatProjection :=
  let! top_def := ok_or (BMap.get (top g) (graph_tasks g)) (MissingTop (top g)) in
  if bool_decide (level top_def = Lower) then Err (TopIsLeaf (top g)) else
  let! collected := collect_leaves_recursive fuel g (top g) (top g) BMap.empty 0 (initial_collected g) in
  let! fs := try_map (fill_endpoints (c_leaves collected)) (c_fifos collected) in
  let new_tasks := leaf_definitions g (c_leaves collected) in
  let new_top_def := set_children top_def (c_leaves collected) fs in
  Ok (mkFlat (mkGraph (schema_version g) (top g) (target g) (cflags g)
                (BMap.insert (top g) new_top_def new_tasks))
             (c_occs collected)).

Definition flatten_with_origins (g : TaskGraph) : res TransformError FlatProjection :=
  flatten_with_fuel (S (length (graph_tasks g))) g.

Definition flatten (g : TaskGraph) : res TransformError TaskGraph :=
  let! p := flatten_with_origins g in Ok (flat p).

(** A two-level example: the top instantiates an upper task twice, each of
    which owns a FIFO between two leaves. *)
Module Example.
Definition q_port c n := plain_port c n "float" 32.
Definition producer := simple_task Lower [q_port Ostream "out"; q_port Scalar "n"] [] [].
Definition consumer := simple_task Lower [q_port Istream "in"] [] [].
Definition stage :=
  simple_task Upper [q_port Scalar "n"]
    [("Consumer", [mkInstance None [("in", arg_named "q" Istream)] 0]);
     ("Producer", [mkInstance (Some "src") [("n", arg_named "n" Scalar); ("out", arg_named "q" Ostream)] 0])]
    [("q", mkFifo (Some 2) (Some (mkEndpoint "Consumer" 0)) (Some (mkEndpoint "Producer" 0)))].
Definition top_task :=
  simple_task Upper [q_port Scalar "n"]
    [("Stage", [mkInstance None [("n", mkArg (ALiteral (mkWire 32 7)) Scalar)] 0;
                mkInstance (Some "second") [("n", arg_named "n" Scalar)] (-1)])] [].
Definition graph : TaskGraph :=
  mkGraph 3 "Top" XilinxHls []
    [("Consumer", consumer); ("Producer", producer); ("Stage", stage); ("Top", top_task)].
Definition projection : FlatProjection :=
  match flatten_with_origins graph with Ok p => p | _ => mkFlat graph [] end.
End Example.
