(* ===== verification/FlattenSpec.v ===== *)
(** * Correctness of hierarchy flattening

    What [Flatten.flatten_with_origins] guarantees: it terminates on acyclic
    hierarchies, loses no leaf and no FIFO, keeps every leaf's ports,
    categories, constants and step, records the original owner of every
    occurrence, and resolves FIFO endpoints to leaves that really bind them. *)

From S2P Require Import Prelude RustStd BTreeMap Geometry Names Ir Flatten.

(** ** Well-formed graphs

    The representation invariant of every [BTreeMap] in the graph. *)
Record wf_task (t : Task) : Prop := {
  wf_tasks : BMap.wf (tasks t);
  wf_fifos : BMap.wf (fifos t);
  wf_args : forall d insts i, In (d, insts) (tasks t) -> In i insts -> BMap.wf (inst_args i);
}.

Record wf_graph (g : TaskGraph) : Prop := {
  wf_graph_tasks : BMap.wf (graph_tasks g);
  wf_each_task : forall n t, BMap.get n (graph_tasks g) = Some t -> wf_task t;
}.

(** ** Maps rebuilt from an ordered source keep its order *)

Lemma insert_app_last {V} k (v : V) (m : bmap string V) :
  Forall (fun e => klt e.1 k) m -> BMap.insert k v m = m ++ [(k, v)].
Proof.
  induction 1 as [|[j w] m Hj _ IH]; simpl; [done|].
  unfold klt in Hj; simpl in Hj. rewrite kcmp_antisym. rewrite Hj. simpl. by rewrite IH.
Qed.

Lemma fold_insert_sorted {V} (l m : bmap string V) :
  BMap.wf (m ++ l) -> fold_left (fun m e => BMap.insert e.1 e.2 m) l m = m ++ l.
Proof.
  revert m; induction l as [|[k v] l IH]; intros m Hwf; simpl; [by rewrite app_nil_r|].
  rewrite insert_app_last.
  - rewrite IH; rewrite <- app_assoc; done.
  - clear IH. induction m as [|[j w] m IHm]; [constructor|]. simpl in Hwf.
    apply BMap.wf_cons in Hwf as [Hwf Hall]. constructor; [|auto]. simpl.
    rewrite List.Forall_forall in Hall. apply Hall. unfold BMap.keys. rewrite map_app. apply in_or_app. right. by left.
Qed.

Lemma from_list_sorted {V} (l : bmap string V) : BMap.wf l -> BMap.from_list l = l.
Proof. intros. unfold BMap.from_list. by rewrite fold_insert_sorted. Qed.

Lemma wf_map_values {V W} (f : string * V -> W) (m : bmap string V) :
  BMap.wf m -> BMap.wf (map (fun e => (e.1, f e)) m).
Proof. unfold BMap.wf, BMap.keys. by rewrite map_map. Qed.

Lemma resolve_args_map fmap bound args :
  BMap.wf args -> resolve_args fmap bound args = map (fun e => (e.1, resolve_arg fmap bound e.2)) args.
Proof. intros. unfold resolve_args. by apply from_list_sorted, wf_map_values. Qed.

(** ** How a flat leaf relates to its original invocation *)

(** Same step, and argument by argument the same port and category; constants
    stay the same constants. *)
Definition args_match (src leaf : TaskInstance) : Prop :=
  inst_step leaf = inst_step src /\
  Forall2 (fun a b => a.1 = b.1 /\ cat a.2 = cat b.2 /\
                      forall v, arg a.2 = ALiteral v -> arg b.2 = ALiteral v)
          (inst_args src) (inst_args leaf).

Lemma args_match_resolve fmap bound inst name :
  BMap.wf (inst_args inst) ->
  args_match inst (mkInstance name (resolve_args fmap bound (inst_args inst)) (inst_step inst)).
Proof.
  intros Hwf. split; [done|]. simpl. rewrite resolve_args_map by done.
  induction (inst_args inst) as [|[p a] l IH]; simpl; constructor.
  - simpl. split; [done|]. split; [done|]. by intros v ->.
  - apply IH. by apply BMap.wf_cons in Hwf as [? _].
Qed.

(** ** States of the collection *)

(** Later states only append. *)
Record extends (c c' : FlatInstances) : Prop := {
  ext_occs : c_occs c `prefix_of` c_occs c';
  ext_leaves : forall d ls, BMap.get d (c_leaves c) = Some ls ->
                 exists ls', BMap.get d (c_leaves c') = Some ls' /\ ls `prefix_of` ls';
  ext_fifos : forall n f, BMap.get n (c_fifos c) = Some f -> BMap.get n (c_fifos c') = Some f;
}.

#[export] Instance extends_preorder : PreOrder extends.
Proof.
  split.
  - intros c. split; [done| |done]. intros d ls H. by exists ls.
  - intros a b c [H1 H2 H3] [H4 H5 H6]. split.
    + by etransitivity.
    + intros d ls Hd. apply H2 in Hd as (ls' & Hd & ?). apply H5 in Hd as (ls'' & ? & ?).
      exists ls''. split; [done|]. by etransitivity.
    + auto.
Qed.

Lemma extends_occ c c' k o : extends c c' -> c_occs c !! k = Some o -> c_occs c' !! k = Some o.
Proof. intros [Ho _ _] Hk. by eapply prefix_lookup_Some. Qed.

(** The task an occurrence instantiates. *)
Definition occ_task_name (g : TaskGraph) (o : TaskOccurrence) : string :=
  match occ_source o with Some s => ep_task s | None => top g end.

Definition is_top_occ (g : TaskGraph) (o : TaskOccurrence) : bool :=
  bool_decide (occ_task_name g o = top g) && bool_decide (global_name o = top g).

Definition occ_fifos (g : TaskGraph) (o : TaskOccurrence) (def : Task) : bmap string string :=
  fifo_global_map def (is_top_occ g o) (global_name o).

(** The global name of the scope [inst] opens: its canonical name in the
    definition of the parent [po], then the global name of [po]. *)
Definition scope_name (po : TaskOccurrence) (s : EndpointRef) (inst : TaskInstance) : string :=
  canonical_name inst (ep_task s) (Z.to_nat (ep_index s)) +:+ "_" +:+ global_name po.

(** The explicit name of a lifted leaf, qualified outside the top scope. *)
Definition leaf_name (g : TaskGraph) (po : TaskOccurrence) (inst : TaskInstance) : option string :=
  match inst_name inst with
  | Some n => Some (if is_top_occ g po then n else n +:+ "_" +:+ global_name po)
  | None => None
  end.

(** What the scope of occurrence [k] knows of its parameters: nothing at the
    top, and below it the arguments of its invocation, resolved against the
    FIFOs and the parameters of the parent's scope. *)
Inductive scope_bindings (g : TaskGraph) (occs : list TaskOccurrence) : nat -> bmap string ArgSource -> Prop :=
| bindings_top : scope_bindings g occs 0 BMap.empty
| bindings_child k o q s po pdef insts inst b :
    occs !! k = Some o -> occ_parent o = Some q -> occ_source o = Some s ->
    occs !! q = Some po -> BMap.get (occ_task_name g po) (graph_tasks g) = Some pdef ->
    BMap.get (ep_task s) (tasks pdef) = Some insts -> insts !! Z.to_nat (ep_index s) = Some inst ->
    scope_bindings g occs q b ->
    scope_bindings g occs k
      (BMap.from_list (map (fun e => (e.1, arg e.2)) (resolve_args (occ_fifos g po pdef) b (inst_args inst)))).

Lemma scope_bindings_mono g occs occs' k b :
  occs `prefix_of` occs' -> scope_bindings g occs k b -> scope_bindings g occs' k b.
Proof.
  intros Hp. induction 1; [constructor|].
  econstructor; [by eapply prefix_lookup_Some|done|done|by eapply prefix_lookup_Some|done..].
Qed.

(** The leaf an invocation becomes under the top task. *)
Definition lifted_leaf (g : TaskGraph) (po : TaskOccurrence) (pdef : Task) (b : bmap string ArgSource)
    (inst : TaskInstance) : TaskInstance :=
  mkInstance (leaf_name g po inst) (resolve_args (occ_fifos g po pdef) b (inst_args inst)) (inst_step inst).

(** What is recorded of one occurrence. *)
Definition occ_ok (g : TaskGraph) (c : FlatInstances) (k : nat) (o : TaskOccurrence) : Prop :=
  match occ_parent o, occ_source o with
  | None, None => k = 0%nat /\ global_name o = top g /\ flat_endpoint o = None
  | Some p, Some s =>
      (p < k)%nat /\ 0 <= ep_index s /\
      exists po pdef insts inst cdef,
        c_occs c !! p = Some po /\ flat_endpoint po = None /\
        BMap.get (occ_task_name g po) (graph_tasks g) = Some pdef /\
        BMap.get (ep_task s) (tasks pdef) = Some insts /\
        insts !! Z.to_nat (ep_index s) = Some inst /\
        BMap.get (ep_task s) (graph_tasks g) = Some cdef /\
        match flat_endpoint o with
        | None => level cdef = Upper /\ global_name o = scope_name po s inst
        | Some fe =>
            level cdef = Lower /\ ep_task fe = ep_task s /\ 0 <= ep_index fe /\
            exists ls b, let leaf := lifted_leaf g po pdef b inst in
              BMap.get (ep_task fe) (c_leaves c) = Some ls /\
              ls !! Z.to_nat (ep_index fe) = Some leaf /\ scope_bindings g (c_occs c) p b /\ args_match inst leaf /\
              global_name o = canonical_name leaf (ep_task fe) (Z.to_nat (ep_index fe))
        end
  | _, _ => False
  end.

Record Inv (g : TaskGraph) (c : FlatInstances) : Prop := {
  inv_leaves : BMap.wf (c_leaves c);
  inv_fifos : BMap.wf (c_fifos c);
  inv_lower : forall d ls, BMap.get d (c_leaves c) = Some ls ->
                exists def, BMap.get d (graph_tasks g) = Some def /\ level def = Lower;
  inv_occs : forall k o, c_occs c !! k = Some o -> occ_ok g c k o;
  inv_covered : forall d ls i, BMap.get d (c_leaves c) = Some ls -> (i < length ls)%nat ->
                  exists k o, c_occs c !! k = Some o /\ flat_endpoint o = Some (mkEndpoint d (Z.of_nat i));
  inv_unique : forall k k' o o' e, c_occs c !! k = Some o -> c_occs c !! k' = Some o' ->
                 flat_endpoint o = Some e -> flat_endpoint o' = Some e -> k = k';
}.

Lemma occ_ok_extends g c c' k o : extends c c' -> occ_ok g c k o -> occ_ok g c' k o.
Proof.
  intros [Ho Hl _]. unfold occ_ok. destruct (occ_parent o) as [p|], (occ_source o) as [s|]; try done.
  intros (Hp & Hs & po & pdef & insts & inst & cdef & H1 & H2 & H3 & H4 & H5 & H6 & H7).
  split; [done|]. split; [done|]. exists po, pdef, insts, inst, cdef.
  split; [by eapply prefix_lookup_Some|]. do 5 (split; [done|]).
  destruct (flat_endpoint o) as [fe|]; [|done].
  destruct H7 as (? & ? & ? & ls & b & Hg & Hi & Hb & Hm & Hn). split; [done|]. split; [done|]. split; [done|].
  apply Hl in Hg as (ls' & Hg & Hpre). exists ls', b. split; [done|].
  split; [by eapply prefix_lookup_Some|]. split; [by eapply scope_bindings_mono|done].
Qed.

(** The scope of an upper occurrence: its task, its global name and what it
    knows of its parameters, as [collect_leaves_recursive] is called with. *)
Definition owner_of (g : TaskGraph) (c : FlatInstances) (owner : nat) (po : TaskOccurrence)
    (ab : bmap string ArgSource) : Prop :=
  c_occs c !! owner = Some po /\ flat_endpoint po = None /\ scope_bindings g (c_occs c) owner ab.

Lemma owner_of_extends g c c' owner po ab : extends c c' -> owner_of g c owner po ab -> owner_of g c' owner po ab.
Proof.
  intros [Ho _ _] (H & ? & ?). split; [by eapply prefix_lookup_Some|]. split; [done|].
  by eapply scope_bindings_mono.
Qed.

Lemma u32_of_usize_ok {E} n z : @u32_of_usize E n = Ok z -> z = Z.of_nat n.
Proof. unfold u32_of_usize. by case_match; intros; res_inv. Qed.

Section step.
Context (g : TaskGraph) (Hg : wf_graph g).
Context (c : FlatInstances) (Hinv : Inv g c).
Context (owner : nat) (po : TaskOccurrence) (ab : bmap string ArgSource) (Howner : owner_of g c owner po ab).
Context (def : Task) (Hdef : BMap.get (occ_task_name g po) (graph_tasks g) = Some def).
Context (d : string) (idx : nat) (inst : TaskInstance) (Hin : (d, idx, inst) ∈ task_instances def).
Context (cdef : Task) (Hc : BMap.get d (graph_tasks g) = Some cdef).

Lemma invocation_lookup :
  exists insts, BMap.get d (tasks def) = Some insts /\ insts !! idx = Some inst /\ BMap.wf (inst_args inst).
Proof using All.
  apply elem_of_task_instances in Hin as (insts & Hin' & Hi).
  pose proof (wf_each_task _ Hg _ _ Hdef) as [Ht _ Ha].
  exists insts. split; [by apply BMap.In_get|]. split; [done|].
  eapply Ha; [done|]. by eapply list_elem_of_In, list_elem_of_lookup_2.
Qed.

(** Appending one occurrence that refers to this invocation. *)
Lemma new_occ_ok c' name fe :
  extends c c' ->
  match fe with
  | None => level cdef = Upper /\ name = scope_name po (mkEndpoint d (Z.of_nat idx)) inst
  | Some fe => level cdef = Lower /\ ep_task fe = d /\ 0 <= ep_index fe /\
      exists ls, let leaf := lifted_leaf g po def ab inst in
        BMap.get d (c_leaves c') = Some ls /\
        ls !! Z.to_nat (ep_index fe) = Some leaf /\
        name = canonical_name leaf d (Z.to_nat (ep_index fe))
  end ->
  occ_ok g c' (length (c_occs c)) (mkOcc (Some owner) (Some (mkEndpoint d (Z.of_nat idx))) name fe).
Proof using All.
  intros Hext Hfe. unfold occ_ok; simpl.
  destruct (owner_of_extends _ _ _ _ _ _ Hext Howner) as (Hpo' & Hpf & Hb).
  destruct Howner as (Hpo & _ & _). destruct invocation_lookup as (insts & Hi1 & Hi2 & Hi3).
  split; [by eapply lookup_lt_Some|]. split; [lia|]. exists po, def, insts, inst, cdef.
  rewrite Nat2Z.id. do 6 (split; [done|]).
  destruct fe as [[d' i]|]; simpl in *; [|done]. destruct Hfe as (? & -> & ? & ls & ? & ? & ->).
  do 3 (split; [done|]). exists ls, ab. do 3 (split; [done|]). split; [|done]. by apply args_match_resolve.
Qed.

Lemma push_leaf_inv c' :
  let leaf := lifted_leaf g po def ab inst in
  level cdef = Lower ->
  push_leaf owner (mkEndpoint d (Z.of_nat idx)) leaf c = Ok c' ->
  Inv g c' /\ extends c c' /\
  c_occs c' !! length (c_occs c) = Some (mkOcc (Some owner) (Some (mkEndpoint d (Z.of_nat idx)))
    (canonical_name leaf d (length (default [] (BMap.get d (c_leaves c)))))
    (Some (mkEndpoint d (Z.of_nat (length (default [] (BMap.get d (c_leaves c)))))))) /\
  length (c_occs c') = S (length (c_occs c)).
Proof using All.
  intros leaf Hlow Hp. unfold push_leaf in Hp; simpl in Hp.
  apply rbind_ok in Hp as (i & Hi%u32_of_usize_ok & [= <-]). subst i.
  set (old := default [] (BMap.get d (c_leaves c))) in *.
  set (o := mkOcc _ _ _ _). set (c' := mkCollected _ _ _).
  assert (Hext : extends c c').
  { split; simpl; [by apply prefix_app_r| |done]. intros d' ls Hl. rewrite BMap.get_insert.
    destruct (decide (d' = d)) as [->|]; [|by exists ls]. exists (old ++ [leaf]).
    unfold old. rewrite Hl. split; [done|]. by apply prefix_app_r. }
  destruct Hinv as [Hwl Hwf Hlo Hok Hcov Huniq].
  assert (Hlast : c_occs c' !! length (c_occs c) = Some o).
  { simpl. rewrite lookup_app_r by done. by rewrite Nat.sub_diag. }
  assert (Hocc : forall k o', c_occs c' !! k = Some o' ->
    c_occs c !! k = Some o' \/ (k = length (c_occs c) /\ o' = o)).
  { intros k o' Hk. simpl in Hk. apply lookup_snoc_Some in Hk as [[_ Hk]|[-> <-]]; [by left|by right]. }
  assert (Hnone : forall k o', c_occs c !! k = Some o' -> flat_endpoint o' <> flat_endpoint o).
  { intros k o' Hk He. specialize (Hok k o' Hk). unfold occ_ok in Hok. simpl in He. rewrite He in Hok.
    destruct (occ_parent o'), (occ_source o'); try done; [|by destruct Hok as (_ & _ & ?)].
    destruct Hok as (_ & _ & ? & ? & ? & ? & ? & _ & _ & _ & _ & _ & _ & _ & _ & _ & ls & b & Hl & Hli & _).
    simpl in *. rewrite Nat2Z.id in Hli. unfold old in Hli. rewrite Hl in Hli. simpl in Hli.
    apply lookup_lt_Some in Hli. lia. }
  split; [split|split; [done|split; [done|]]].
  - simpl. by apply BMap.wf_insert.
  - done.
  - simpl. intros d' ls. rewrite BMap.get_insert. destruct (decide (d' = d)) as [->|]; [|by apply Hlo]. eauto.
  - intros k o' Hk. apply Hocc in Hk as [Hk|[-> ->]]; [by eapply occ_ok_extends, Hok|].
    apply new_occ_ok; [done|]. split; [done|]. split; [done|]. simpl. split; [lia|].
    exists (old ++ [leaf]). rewrite BMap.get_insert_eq, Nat2Z.id. split; [done|].
    split; [|done]. by rewrite lookup_app_r, Nat.sub_diag by done.
  - simpl. intros d' ls i. rewrite BMap.get_insert. destruct (decide (d' = d)) as [->|].
    + intros [= <-] Hi. rewrite length_app in Hi; simpl in Hi.
      destruct (decide (i = length old)) as [->|]; [by eexists _, o|].
      unfold old in *. destruct (BMap.get d (c_leaves c)) as [ls|] eqn:Hl; simpl in *; [|lia].
      destruct (Hcov d ls i Hl) as (k & o' & Hk & ?); [lia|]. exists k, o'. split; [|done].
      exact (extends_occ c c' k o' Hext Hk).
    + intros Hl Hi. destruct (Hcov d' ls i Hl Hi) as (k & o' & Hk & ?). exists k, o'. split; [|done].
      exact (extends_occ c c' k o' Hext Hk).
  - intros k k' o1 o2 e H1 H2 E1 E2. apply Hocc in H1 as [H1|[-> ->]], H2 as [H2|[-> ->]].
    + eauto.
    + exfalso. apply (Hnone _ _ H1). by rewrite E1, E2.
    + exfalso. apply (Hnone _ _ H2). by rewrite E1, E2.
    + done.
  - simpl. rewrite length_app; simpl. lia.
Qed.

Lemma push_upper_inv :
  level cdef = Upper ->
  let name := canonical_name inst d idx +:+ "_" +:+ global_name po in
  let o := mkOcc (Some owner) (Some (mkEndpoint d (Z.of_nat idx))) name None in
  let c' := mkCollected (c_leaves c) (c_fifos c)
    (c_occs c ++ [o]) in
  Inv g c' /\ extends c c' /\ owner_of g c' (length (c_occs c)) o
    (BMap.from_list (map (fun e => (e.1, arg e.2)) (resolve_args (occ_fifos g po def) ab (inst_args inst)))).
Proof using All.
  intros Hup name o c'.
  assert (Hext : extends c c').
  { split; simpl; [by apply prefix_app_r| |done]. intros d' ls Hl. by exists ls. }
  destruct Hinv as [Hwl Hwf Hlo Hok Hcov Huniq].
  assert (Hlast : c_occs c' !! length (c_occs c) = Some o).
  { simpl. rewrite lookup_app_r by done. by rewrite Nat.sub_diag. }
  assert (Hocc : forall k o', c_occs c' !! k = Some o' ->
    c_occs c !! k = Some o' \/ (k = length (c_occs c) /\ o' = o)).
  { intros k o' Hk. simpl in Hk. apply lookup_snoc_Some in Hk as [[_ Hk]|[-> <-]]; [by left|by right]. }
  split; [split|split; [done|]]; try done.
  - intros k o' Hk. apply Hocc in Hk as [Hk|[-> ->]]; [by eapply occ_ok_extends, Hok|].
    apply new_occ_ok; [done|]. split; [done|]. unfold name, scope_name. simpl. by rewrite Nat2Z.id.
  - intros d' ls i Hl Hi. destruct (Hcov d' ls i Hl Hi) as (k & o' & Hk & ?). exists k, o'.
    split; [|done]. exact (extends_occ c c' k o' Hext Hk).
  - intros k k' o1 o2 e H1 H2 E1 E2. apply Hocc in H1 as [H1|[-> ->]], H2 as [H2|[-> ->]]; try done.
    eauto.
  - split; [done|]. split; [done|]. destruct (owner_of_extends _ _ _ _ _ _ Hext Howner) as (Hpo & _ & Hb).
    destruct invocation_lookup as (insts & Hi1 & Hi2 & _).
    eapply bindings_child; [done..|exact Hi1| |done]. simpl. by rewrite Nat2Z.id.
Qed.
End step.

Lemma register_fifo_inv g def c e c' :
  Inv g c -> register_fifo def c e = Ok c' -> Inv g c' /\ extends c c' /\ c_occs c' = c_occs c.
Proof.
  destruct e as [l n]. intros [Hwl Hwf Hlo Hok Hcov Huniq] Hr. unfold register_fifo in Hr.
  apply rbind_ok in Hr as (f & _ & Hr). destruct (BMap.contains_key n (c_fifos c)) eqn:Hck; [done|].
  res_inv.
  assert (Hext : extends c (mkCollected (c_leaves c)
    (BMap.insert n (mkFifo (fifo_depth f) (consumed_by f) (produced_by f)) (c_fifos c)) (c_occs c))).
  { split; simpl; [done| |].
    - intros d' ls Hl. by exists ls.
    - intros n' f' Hf'. rewrite BMap.get_insert_ne; [done|]. intros ->.
      unfold BMap.contains_key in Hck. by rewrite Hf' in Hck. }
  split; [|split; done]. split; simpl; try done. by apply BMap.wf_insert.
Qed.

(** The invariant and the growth of the state, for a whole scope. *)
Lemma collect_inv g (Hg : wf_graph g) fuel tn sp ab owner c c' :
  Inv g c ->
  (exists po, owner_of g c owner po ab /\ occ_task_name g po = tn /\ global_name po = sp) ->
  collect_leaves_recursive fuel g tn sp ab owner c = Ok c' -> Inv g c' /\ extends c c'.
Proof.
  revert tn sp ab owner c c'; induction fuel as [|fuel IH]; intros tn sp ab owner c c' Hinv (po & Hown & <- & <-); [done|].
  cbn [collect_leaves_recursive]. intros (def & Hdef%ok_or_ok & (c1 & H1 & H2)%rbind_ok)%rbind_ok.
  fold (is_top_occ g po) in H1. fold (occ_fifos g po def) in H1.
  assert (Hstep : Inv g c1 /\ extends c c1).
  { eapply (try_fold_inv (fun c1 => Inv g c1 /\ extends c c1)); [|split; [exact Hinv|reflexivity]|exact H1].
    clear c1 H1 H2. intros c1 [[d i] inst] c2 Hin [Hi1 Hi2] Hc. unfold collect_instance in Hc.
    apply rbind_ok in Hc as (cdef & Hcd%ok_or_ok & (i' & ->%u32_of_usize_ok & Hc)%rbind_ok).
    pose proof (owner_of_extends _ _ _ _ _ _ Hi2 Hown) as Hown1.
    destruct (level cdef) eqn:Hl.
    - eapply (push_leaf_inv g Hg c1 Hi1 owner po ab Hown1 def) in Hc as (? & ? & _); [|done..].
      split; [done|]. by etransitivity.
    - edestruct (push_upper_inv g Hg c1 Hi1 owner po ab Hown1 def Hdef d i inst Hin cdef Hcd Hl) as (Hu1 & Hu2 & Hu3).
      apply IH in Hc as [? ?]; [split; [done|]; etransitivity; [done|]; by etransitivity| |].
      + exact Hu1.
      + eexists. split; [exact Hu3|done]. }
  destruct Hstep as [Hi1 He1].
  eapply (try_fold_inv (fun c1 => Inv g c1 /\ extends c c1)); [|split; [exact Hi1|exact He1]|exact H2].
  intros a x a' _ [Ha1 Ha2] Hr. apply (register_fifo_inv g) in Hr as (? & ? & _); [|done].
  split; [done|]. by etransitivity.
Qed.

(** ** Successful runs as a relation

    The shape of a run that ends normally: a scope runs its invocations in
    order, then registers its FIFOs; a leaf invocation is pushed, an upper one
    is recorded and runs as a scope of its own. *)
Definition push_upper (owner : nat) (s : EndpointRef) (name : string) (c : FlatInstances) : FlatInstances :=
  mkCollected (c_leaves c) (c_fifos c) (c_occs c ++ [mkOcc (Some owner) (Some s) name None]).

Inductive scope_run (g : TaskGraph) : nat -> FlatInstances -> FlatInstances -> Prop :=
| run_scope owner o def c c1 c2 :
    c_occs c !! owner = Some o -> flat_endpoint o = None ->
    BMap.get (occ_task_name g o) (graph_tasks g) = Some def ->
    insts_run g owner (task_instances def) c c1 ->
    try_fold (register_fifo def) c1 (occ_fifos g o def) = Ok c2 ->
    scope_run g owner c c2
with insts_run (g : TaskGraph) : nat -> list (string * nat * TaskInstance) -> FlatInstances -> FlatInstances -> Prop :=
| run_nil owner c : insts_run g owner [] c c
| run_leaf owner d i inst l leaf c c1 c2 :
    push_leaf owner (mkEndpoint d (Z.of_nat i)) leaf c = Ok c1 ->
    insts_run g owner l c1 c2 -> insts_run g owner ((d, i, inst) :: l) c c2
| run_upper owner d i inst l name c c1 c2 :
    scope_run g (length (c_occs c)) (push_upper owner (mkEndpoint d (Z.of_nat i)) name c) c1 ->
    insts_run g owner l c1 c2 -> insts_run g owner ((d, i, inst) :: l) c c2.

Scheme scope_run_mut := Induction for scope_run Sort Prop
  with insts_run_mut := Induction for insts_run Sort Prop.
Combined Scheme run_mut_ind from scope_run_mut, insts_run_mut.

Lemma collect_run g fuel tn sp ab owner c c' o :
  c_occs c !! owner = Some o -> flat_endpoint o = None -> occ_task_name g o = tn -> global_name o = sp ->
  collect_leaves_recursive fuel g tn sp ab owner c = Ok c' -> scope_run g owner c c'.
Proof.
  revert tn sp ab owner c c' o; induction fuel as [|fuel IH]; intros tn sp ab owner c c' o Ho Hf Ht Hs; [done|].
  cbn [collect_leaves_recursive]. intros (def & Hdef%ok_or_ok & (c1 & H1 & H2)%rbind_ok)%rbind_ok.
  subst tn sp. apply (run_scope g owner o def c c1 c'); [done..| |exact H2].
  clear H2 Ho. set (F := fifo_global_map _ _ _) in H1. clearbody F.
  revert c H1. induction (task_instances def) as [|[[d i] inst] l IHl]; intros c H1; simpl in H1.
  - res_inv. constructor.
  - apply rbind_ok in H1 as (c2 & Hc & H1).
    apply rbind_ok in Hc as (cdef & Hcd%ok_or_ok & (i' & ->%u32_of_usize_ok & Hc)%rbind_ok).
    destruct (level cdef).
    + eapply run_leaf; [exact Hc|auto].
    + eapply run_upper; [|by apply IHl].
      eapply (IH _ _ _ _ _ _ (mkOcc (Some owner) (Some (mkEndpoint d (Z.of_nat i))) _ None)); [| | | |exact Hc]; try done.
      simpl. rewrite lookup_app_r by done. by rewrite Nat.sub_diag.
Qed.

Lemma register_fifo_occs def c e c' : register_fifo def c e = Ok c' -> c_occs c' = c_occs c /\ c_leaves c' = c_leaves c.
Proof.
  destruct e as [l n]. unfold register_fifo. intros (f & _ & Hr)%rbind_ok.
  case_match; [done|]. by res_inv.
Qed.

Lemma register_all_occs def l c c' :
  try_fold (register_fifo def) c l = Ok c' -> c_occs c' = c_occs c /\ c_leaves c' = c_leaves c.
Proof.
  intros H. eapply (try_fold_inv (fun x => c_occs x = c_occs c /\ c_leaves x = c_leaves c)); [|done|exact H].
  intros a x a' _ [H1 H2] [H3 H4]%register_fifo_occs. split; congruence.
Qed.

Lemma push_leaf_occs owner s i c c' :
  push_leaf owner s i c = Ok c' ->
  c_fifos c' = c_fifos c /\ exists name fe, c_occs c' = c_occs c ++ [mkOcc (Some owner) (Some s) name (Some fe)].
Proof. unfold push_leaf. intros (idx & _ & Hr)%rbind_ok. res_inv. eauto. Qed.

(** Runs only append occurrences. *)
Lemma run_prefix g :
  (forall owner c c', scope_run g owner c c' -> c_occs c `prefix_of` c_occs c') /\
  (forall owner l c c', insts_run g owner l c c' -> c_occs c `prefix_of` c_occs c').
Proof.
  apply run_mut_ind; simpl.
  - intros owner o def c c1 c2 _ _ _ _ IH [-> _]%register_all_occs. done.
  - done.
  - intros owner d i inst l leaf c c1 c2 (_ & name & fe & Heq)%push_leaf_occs _ IH.
    etransitivity; [|exact IH]. rewrite Heq. by apply prefix_app_r.
  - intros owner d i inst l name c c1 c2 _ IH1 _ IH2. etransitivity; [|exact IH2].
    etransitivity; [|exact IH1]. simpl. by apply prefix_app_r.
Qed.

(** *** Every invocation is recorded *)

(** All invocations of the upper occurrence [k] have occurrences. *)
Definition complete_at (g : TaskGraph) (c : FlatInstances) (k : nat) : Prop :=
  forall o def d i inst,
    c_occs c !! k = Some o -> flat_endpoint o = None ->
    BMap.get (occ_task_name g o) (graph_tasks g) = Some def -> (d, i, inst) ∈ task_instances def ->
    exists k' o', c_occs c !! k' = Some o' /\ occ_parent o' = Some k /\
                  occ_source o' = Some (mkEndpoint d (Z.of_nat i)).

Lemma complete_at_mono g c c' k :
  c_occs c `prefix_of` c_occs c' -> (k < length (c_occs c))%nat -> complete_at g c k -> complete_at g c' k.
Proof.
  intros Hp Hk Hc o def d i inst Ho Hf Hd Hin.
  destruct (lookup_lt_is_Some_2 _ _ Hk) as [o1 Ho1].
  pose proof (prefix_lookup_Some _ _ _ _ Ho1 Hp) as Ho1'. rewrite Ho in Ho1'. simplify_eq.
  destruct (Hc o1 def d i inst Ho1 Hf Hd Hin) as (k' & o' & Hk' & ?). exists k', o'.
  split; [by eapply prefix_lookup_Some|done].
Qed.

Lemma run_complete g :
  (forall owner c c', scope_run g owner c c' -> (owner < length (c_occs c))%nat ->
     complete_at g c' owner /\ forall k, (length (c_occs c) <= k)%nat -> complete_at g c' k) /\
  (forall owner l c c', insts_run g owner l c c' -> (owner < length (c_occs c))%nat ->
     (forall d i inst, (d, i, inst) ∈ l -> exists k' o', c_occs c' !! k' = Some o' /\
        occ_parent o' = Some owner /\ occ_source o' = Some (mkEndpoint d (Z.of_nat i))) /\
     forall k, (length (c_occs c) <= k)%nat -> complete_at g c' k).
Proof.
  apply run_mut_ind; simpl.
  - intros owner o def c c1 c2 Ho Hf Hd Hr IH [He _]%register_all_occs Hlt. specialize (IH Hlt) as [IH1 IH2].
    assert (Hc : forall k, complete_at g c1 k -> complete_at g c2 k).
    { intros k. unfold complete_at. by rewrite He. }
    split; [|auto]. apply Hc. intros o' def' d i inst Ho' Hf' Hd' Hin.
    pose proof (prefix_lookup_Some _ _ _ _ Ho (proj2 (run_prefix g) _ _ _ _ Hr)) as Ho1.
    rewrite Ho1 in Ho'. simplify_eq. eauto.
  - intros owner c _. split; [intros d i inst H; by apply not_elem_of_nil in H|].
    intros k Hk o def d i inst Ho. apply lookup_lt_Some in Ho. lia.
  - intros owner d i inst l leaf c c1 c2 (_ & name & fe & Heq)%push_leaf_occs Hr IH Hlt.
    pose proof (proj2 (run_prefix g) _ _ _ _ Hr) as Hp.
    assert (Hlen : length (c_occs c1) = S (length (c_occs c))) by (rewrite Heq, length_app; simpl; lia).
    destruct IH as [IH1 IH2]; [lia|]. split.
    + intros d' i' inst' [[= -> -> ->]|Hin]%elem_of_cons; [|eauto].
      exists (length (c_occs c)), (mkOcc (Some owner) (Some (mkEndpoint d (Z.of_nat i))) name (Some fe)). split; [|done].
      eapply prefix_lookup_Some; [|exact Hp]. rewrite Heq, lookup_app_r by done. by rewrite Nat.sub_diag.
    + intros k Hk. destruct (decide (k = length (c_occs c))) as [->|]; [|apply IH2; lia].
      intros o def d' i' inst' Ho Hf. exfalso.
      assert (Ho' : c_occs c1 !! length (c_occs c) = Some (mkOcc (Some owner) (Some (mkEndpoint d (Z.of_nat i))) name (Some fe))).
      { rewrite Heq, lookup_app_r by done. by rewrite Nat.sub_diag. }
      pose proof (prefix_lookup_Some _ _ _ _ Ho' Hp) as Ho''. rewrite Ho in Ho''. simplify_eq/=.
  - intros owner d i inst l name c c1 c2 Hr1 IH1 Hr2 IH2 Hlt.
    pose proof (proj1 (run_prefix g) _ _ _ Hr1) as Hp1. pose proof (proj2 (run_prefix g) _ _ _ _ Hr2) as Hp2.
    simpl in *. rewrite length_app in IH1; simpl in IH1. destruct IH1 as [IHa IHb]; [lia|].
    pose proof (prefix_length _ _ Hp1) as Hl1. rewrite length_app in Hl1; simpl in Hl1.
    destruct IH2 as [IHc IHd]; [lia|]. split.
    + intros d' i' inst' [[= -> -> ->]|Hin]%elem_of_cons; [|eauto].
      exists (length (c_occs c)), (mkOcc (Some owner) (Some (mkEndpoint d (Z.of_nat i))) name None). split; [|done].
      eapply prefix_lookup_Some; [|exact Hp2]. eapply prefix_lookup_Some; [|exact Hp1].
      rewrite lookup_app_r by done. by rewrite Nat.sub_diag.
    + intros k Hk. destruct (decide (k < length (c_occs c1))%nat) as [Hk1|]; [|apply IHd; lia].
      eapply complete_at_mono; [exact Hp2|done|].
      destruct (decide (k = length (c_occs c))) as [->|]; [done|apply IHb; lia].
Qed.

(** *** No invocation is recorded twice *)

Definition occ_key (o : TaskOccurrence) : option nat * option EndpointRef := (occ_parent o, occ_source o).

Definition invocation_key (owner : nat) (e : string * nat * TaskInstance) : option nat * option EndpointRef :=
  (Some owner, Some (mkEndpoint e.1.1 (Z.of_nat e.1.2))).

(** The occurrences a run adds: invocations of [owner] from [l], or children of
    occurrences the run adds itself, each once. *)
Definition added_once (owner lo : nat) (l : list (string * nat * TaskInstance)) (new : list TaskOccurrence) : Prop :=
  NoDup (map occ_key new) /\
  Forall (fun o => (exists e, e ∈ l /\ occ_key o = invocation_key owner e) \/
                   exists q, occ_parent o = Some q /\ (lo <= q < lo + length new)%nat) new.

Lemma key_of_parent o owner e : occ_key o = invocation_key owner e -> occ_parent o = Some owner.
Proof. destruct o; unfold occ_key, invocation_key; simpl. congruence. Qed.

Lemma in_keys k (l : list TaskOccurrence) : k ∈ map occ_key l -> exists o, o ∈ l /\ occ_key o = k.
Proof. intros (o & -> & Ho)%list_elem_of_fmap. eauto. Qed.

Lemma added_once_leaf owner lo e l o new :
  (owner < lo)%nat -> NoDup (map fst (e :: l)) -> occ_key o = invocation_key owner e ->
  added_once owner (S lo) l new -> added_once owner lo (e :: l) (o :: new).
Proof.
  intros Hlt [Hni _]%NoDup_cons Hk [Hn Hf]. rewrite Forall_forall in Hf. split.
  - cbn [map]. apply NoDup_cons. split; [|done]. rewrite Hk. intros (o' & Ho' & Hk')%in_keys.
    destruct (Hf o' Ho') as [(e' & He' & Hk2)|(q & Hq & Hb)].
    + apply Hni. rewrite Hk2 in Hk'. destruct e as [[d i] inst], e' as [[d' i'] inst'].
      unfold invocation_key in Hk'; simpl in Hk'. assert (d' = d /\ i' = i) as [-> ->] by (split; [congruence|]; apply Nat2Z.inj; congruence).
      apply list_elem_of_fmap. by exists (d, i, inst').
    + apply key_of_parent in Hk'. rewrite Hq in Hk'. injection Hk' as ->. lia.
  - apply Forall_cons. split; [left; exists e; split; [by left|done]|].
    apply Forall_forall. intros o' Ho'. destruct (Hf o' Ho') as [(e' & He' & Hk2)|(q & Hq & Hb)].
    + left. exists e'. split; [by right|done].
    + right. exists q. split; [done|]. simpl. lia.
Qed.

Lemma added_once_upper owner lo e l l' o n1 n2 :
  (owner < lo)%nat -> NoDup (map fst (e :: l)) -> occ_key o = invocation_key owner e ->
  added_once lo (S lo) l' n1 -> added_once owner (S lo + length n1) l n2 ->
  added_once owner lo (e :: l) (o :: n1 ++ n2).
Proof.
  intros Hlt Hnd Hk [Hn1 Hf1] H2.
  assert (Hp1 : forall o', o' ∈ n1 -> exists q, occ_parent o' = Some q /\ (lo <= q <= lo + length n1)%nat).
  { intros o' Ho'. rewrite Forall_forall in Hf1. destruct (Hf1 o' Ho') as [(e' & _ & Hk')|(q & Hq & Hb)].
    - exists lo. split; [by eapply key_of_parent|lia].
    - exists q. split; [done|lia]. }
  destruct (H2) as [_ Hf2]. apply (added_once_leaf owner (lo + length n1) e l o n2) in H2 as [Hn2 _]; [|lia|done|done].
  rewrite Forall_forall in Hf2. cbn [map] in Hn2. apply NoDup_cons in Hn2 as [Hni Hn2]. split.
  - cbn [map]. apply NoDup_cons. rewrite map_app. split.
    + intros [(o' & Ho' & Hk')%in_keys|Hin]%elem_of_app; [|done].
      destruct (Hp1 o' Ho') as (q & Hq & Hb). rewrite Hk in Hk'. apply key_of_parent in Hk'.
      rewrite Hq in Hk'. injection Hk' as ->. lia.
    + apply NoDup_app. split; [done|]. split; [|done]. intros k (o' & Ho' & Hk')%in_keys (o2 & Ho2 & Hk2)%in_keys.
      destruct (Hp1 o' Ho') as (q & Hq & Hb). assert (Hq2 : occ_parent o2 = Some q) by (unfold occ_key in *; congruence).
      destruct (Hf2 o2 Ho2) as [(e' & _ & He')|(q' & Hq' & Hb')].
      * apply key_of_parent in He'. rewrite Hq2 in He'. injection He' as ->. lia.
      * rewrite Hq2 in Hq'. injection Hq' as ->. lia.
  - apply Forall_forall. intros o' [->|[Ho'|Ho']%elem_of_app]%elem_of_cons.
    + left. exists e. split; [by left|done].
    + right. destruct (Hp1 o' Ho') as (q & Hq & Hb). exists q. split; [done|]. simpl. rewrite length_app. lia.
    + destruct (Hf2 o' Ho') as [(e' & He' & Hk')|(q & Hq & Hb)].
      * left. exists e'. split; [by right|done].
      * right. exists q. split; [done|]. simpl in *. rewrite length_app. lia.
Qed.

Lemma task_instances_nodup t : wf_task t -> NoDup (map fst (task_instances t)).
Proof.
  intros [Hwf _ _]. unfold task_instances. apply BMap.wf_NoDup in Hwf. unfold BMap.keys in Hwf.
  induction (tasks t) as [|[d insts] l IH]; simpl in *; [constructor|]. apply NoDup_cons in Hwf as [Hni Hnd].
  rewrite map_app, map_map. apply NoDup_app. split; [|split; [|auto]].
  - apply (NoDup_fmap_1 snd). rewrite <- list_fmap_compose. simpl. fold (enumerate insts).
    change (NoDup (fst <$> enumerate insts)). unfold enumerate. rewrite fst_zip by (by rewrite length_seq). apply NoDup_seq.
  - intros k ([i inst] & -> & _)%list_elem_of_fmap Hk. apply Hni. simpl in Hk.
    apply list_elem_of_fmap in Hk as ([[d' i'] inst'] & Heq & Hin). simpl in Heq.
    apply list_elem_of_In, in_flat_map in Hin as ([d2 insts2] & Hin2 & ([i2 inst2] & [= -> -> ->] & _)%in_map_iff).
    apply list_elem_of_In in Hin2. apply list_elem_of_fmap. simpl in *. injection Heq as -> _. eexists. split; [|exact Hin2]. done.
Qed.

Lemma run_added_once g (Hg : wf_graph g) :
  (forall owner c c', scope_run g owner c c' -> (owner < length (c_occs c))%nat -> exists l new,
     c_occs c' = c_occs c ++ new /\ added_once owner (length (c_occs c)) l new) /\
  (forall owner l c c', insts_run g owner l c c' -> (owner < length (c_occs c))%nat -> NoDup (map fst l) -> exists new,
     c_occs c' = c_occs c ++ new /\ added_once owner (length (c_occs c)) l new).
Proof.
  apply run_mut_ind; simpl.
  - intros owner o def c c1 c2 _ _ Hd _ IH [He _]%register_all_occs Hlt.
    destruct IH as (new & Hnew & Ha); [done|by eapply task_instances_nodup, wf_each_task|].
    exists (task_instances def), new. split; [congruence|done].
  - intros owner c _ _. exists []. rewrite app_nil_r. split; [done|]. split; constructor.
  - intros owner d i inst l leaf c c1 c2 (_ & name & fe & Heq)%push_leaf_occs _ IH Hlt Hnd.
    assert (Hlen : length (c_occs c1) = S (length (c_occs c))) by (rewrite Heq, length_app; simpl; lia).
    destruct IH as (new & Hnew & Ha); [lia|by apply NoDup_cons in Hnd as [_ ?]|]. rewrite Hlen in Ha.
    eexists (_ :: new). rewrite Hnew, Heq, <- app_assoc. split; [done|]. by apply added_once_leaf.
  - intros owner d i inst l name c c1 c2 _ IH1 _ IH2 Hlt Hnd. simpl in IH1. rewrite length_app in IH1; simpl in IH1.
    destruct IH1 as (l' & n1 & Hn1 & Ha1); [lia|]. rewrite Nat.add_1_r in Ha1.
    assert (Hlen : length (c_occs c1) = (S (length (c_occs c)) + length n1)%nat) by (rewrite Hn1, !length_app; simpl; lia).
    destruct IH2 as (n2 & Hn2 & Ha2); [lia|by apply NoDup_cons in Hnd as [_ ?]|]. rewrite Hlen in Ha2.
    eexists (_ :: n1 ++ n2). rewrite Hn2, Hn1, <- !app_assoc. split; [done|]. by eapply added_once_upper.
Qed.

(** *** Every FIFO is registered, none twice *)

Lemma length_insert_fresh {V} k (v : V) (m : bmap string V) :
  BMap.get k m = None -> length (BMap.insert k v m) = S (length m).
Proof.
  induction m as [|[j w] m IH]; simpl; [done|].
  destruct (kcmp k j); [done|done|]. intros H. simpl. by rewrite IH.
Qed.

Lemma contains_key_false {V} k (m : bmap string V) : BMap.contains_key k m = false <-> BMap.get k m = None.
Proof. unfold BMap.contains_key. by destruct (BMap.get k m). Qed.

Lemma fifo_eta f : mkFifo (fifo_depth f) (consumed_by f) (produced_by f) = f.
Proof. by destruct f. Qed.

Lemma register_fifo_spec def c l n c' :
  register_fifo def c (l, n) = Ok c' ->
  exists f, BMap.get l (fifos def) = Some f /\ BMap.get n (c_fifos c) = None /\
    c_fifos c' = BMap.insert n f (c_fifos c).
Proof.
  unfold register_fifo. intros (f & Hf%expect_ok & Hr)%rbind_ok.
  destruct (BMap.contains_key n (c_fifos c)) eqn:Hc; [done|]. apply contains_key_false in Hc.
  res_inv. exists f. by rewrite fifo_eta.
Qed.

Lemma register_all_spec def l c c' :
  try_fold (register_fifo def) c l = Ok c' ->
  length (c_fifos c') = (length (c_fifos c) + length l)%nat /\
  (forall n f, BMap.get n (c_fifos c) = Some f -> BMap.get n (c_fifos c') = Some f) /\
  (forall loc n, (loc, n) ∈ l -> exists f, BMap.get loc (fifos def) = Some f /\ BMap.get n (c_fifos c') = Some f).
Proof.
  intros H. eapply (try_fold_ind (fun l1 x =>
    length (c_fifos x) = (length (c_fifos c) + length l1)%nat /\
    (forall n f, BMap.get n (c_fifos c) = Some f -> BMap.get n (c_fifos x) = Some f) /\
    (forall loc n, (loc, n) ∈ l1 -> exists f, BMap.get loc (fifos def) = Some f /\ BMap.get n (c_fifos x) = Some f)));
    [| |exact H].
  - split; [simpl; lia|]. split; [done|]. intros loc n Hn. by apply not_elem_of_nil in Hn.
  - clear H. intros l1 [loc n] l2 a a' _ (H1 & H2 & H3) (f & Hf & Hn & He)%register_fifo_spec.
    rewrite He, length_insert_fresh, H1, length_app by done. split; [simpl; lia|]. split.
    + intros n' f' Hn'. rewrite BMap.get_insert_ne; [auto|]. intros ->. apply H2 in Hn'. congruence.
    + intros loc' n' [Hin|Hin]%elem_of_app.
      * apply H3 in Hin as (f' & ? & Hf'). exists f'. split; [done|]. rewrite BMap.get_insert_ne; [done|].
        intros ->. congruence.
      * apply list_elem_of_singleton in Hin. simplify_eq. exists f. by rewrite BMap.get_insert_eq.
Qed.

(** FIFOs an occurrence contributes. *)
Definition occ_fifo_count (g : TaskGraph) (o : TaskOccurrence) : nat :=
  match flat_endpoint o, BMap.get (occ_task_name g o) (graph_tasks g) with
  | None, Some def => length (occ_fifos g o def)
  | _, _ => 0%nat
  end.

Lemma run_fifo_count g :
  (forall owner c c', scope_run g owner c c' -> exists o new,
     c_occs c !! owner = Some o /\ c_occs c' = c_occs c ++ new /\
     length (c_fifos c') = (length (c_fifos c) + occ_fifo_count g o + sum_list_with (occ_fifo_count g) new)%nat) /\
  (forall owner l c c', insts_run g owner l c c' -> exists new,
     c_occs c' = c_occs c ++ new /\
     length (c_fifos c') = (length (c_fifos c) + sum_list_with (occ_fifo_count g) new)%nat).
Proof.
  apply run_mut_ind; simpl.
  - intros owner o def c c1 c2 Ho Hf Hd _ (new & IH1 & IH2) Hr.
    pose proof (register_all_occs _ _ _ _ Hr) as [He _]. apply register_all_spec in Hr as (Hlen & _ & _).
    exists o, new. split; [done|]. split; [congruence|]. rewrite Hlen, IH2.
    unfold occ_fifo_count at 2. rewrite Hf, Hd. lia.
  - intros owner c. exists []. rewrite app_nil_r. simpl. split; [done|lia].
  - intros owner d i inst l leaf c c1 c2 (Hff & name & fe & Heq)%push_leaf_occs _ (new & H1 & H2).
    eexists (mkOcc _ _ _ _ :: new). rewrite H1, Heq, <- app_assoc. split; [done|].
    rewrite H2, Hff. simpl. lia.
  - intros owner d i inst l name c c1 c2 _ (o & n1 & Ho & H1 & H2) _ (n2 & H3 & H4). simpl in *.
    rewrite lookup_app_r, Nat.sub_diag in Ho by done. simplify_eq/=.
    eexists (mkOcc _ _ _ _ :: n1 ++ n2). rewrite H3, H1, <- !app_assoc. split; [done|].
    rewrite H4, H2. simpl. rewrite sum_list_with_app. lia.
Qed.

Lemma run_fifos_grow g :
  (forall owner c c', scope_run g owner c c' ->
     forall n f, BMap.get n (c_fifos c) = Some f -> BMap.get n (c_fifos c') = Some f) /\
  (forall owner l c c', insts_run g owner l c c' ->
     forall n f, BMap.get n (c_fifos c) = Some f -> BMap.get n (c_fifos c') = Some f).
Proof.
  apply run_mut_ind; simpl.
  - intros owner o def c c1 c2 _ _ _ _ IH (_ & Hg & _)%register_all_spec. auto.
  - auto.
  - intros owner d i inst l leaf c c1 c2 (Hff & _)%push_leaf_occs _ IH. rewrite <- Hff. auto.
  - auto.
Qed.

(** The FIFOs of the upper occurrence [k] are in the collected map. *)
Definition registered_at (g : TaskGraph) (c : FlatInstances) (k : nat) : Prop :=
  forall o def loc n,
    c_occs c !! k = Some o -> flat_endpoint o = None ->
    BMap.get (occ_task_name g o) (graph_tasks g) = Some def -> (loc, n) ∈ occ_fifos g o def ->
    exists f, BMap.get loc (fifos def) = Some f /\ BMap.get n (c_fifos c) = Some f.

Lemma registered_at_mono g c c' k :
  c_occs c `prefix_of` c_occs c' -> (k < length (c_occs c))%nat ->
  (forall n f, BMap.get n (c_fifos c) = Some f -> BMap.get n (c_fifos c') = Some f) ->
  registered_at g c k -> registered_at g c' k.
Proof.
  intros Hp Hk Hg Hc o def loc n Ho Hf Hd Hin.
  destruct (lookup_lt_is_Some_2 _ _ Hk) as [o1 Ho1].
  pose proof (prefix_lookup_Some _ _ _ _ Ho1 Hp) as Ho1'. rewrite Ho in Ho1'. simplify_eq.
  destruct (Hc o1 def loc n Ho1 Hf Hd Hin) as (f & ? & ?). eauto.
Qed.

Lemma run_registered g :
  (forall owner c c', scope_run g owner c c' -> (owner < length (c_occs c))%nat ->
     registered_at g c' owner /\ forall k, (length (c_occs c) <= k)%nat -> registered_at g c' k) /\
  (forall owner l c c', insts_run g owner l c c' ->
     forall k, (length (c_occs c) <= k)%nat -> registered_at g c' k).
Proof.
  apply run_mut_ind; simpl.
  - intros owner o def c c1 c2 Ho Hf Hd Hr IH Hreg Hlt.
    pose proof (register_all_occs _ _ _ _ Hreg) as [He _].
    apply register_all_spec in Hreg as (_ & Hg & Hall). split.
    + intros o' def' loc n Ho' Hf' Hd' Hin.
      pose proof (prefix_lookup_Some _ _ _ _ Ho (proj2 (run_prefix g) _ _ _ _ Hr)) as Ho1.
      rewrite He, Ho1 in Ho'. simplify_eq. auto.
    + intros k Hk o' def' loc n Ho' Hf' Hd' Hin. rewrite He in Ho'.
      destruct (IH k Hk o' def' loc n Ho' Hf' Hd' Hin) as (f & ? & ?). eauto.
  - intros owner c k Hk o def loc n Ho. apply lookup_lt_Some in Ho. lia.
  - intros owner d i inst l leaf c c1 c2 (_ & name & fe & Heq)%push_leaf_occs Hr IH k Hk.
    destruct (decide (k = length (c_occs c))) as [->|].
    2:{ apply IH. rewrite Heq, length_app; simpl. lia. }
    intros o def loc n Ho Hf. exfalso.
    assert (Ho' : c_occs c1 !! length (c_occs c) = Some (mkOcc (Some owner) (Some (mkEndpoint d (Z.of_nat i))) name (Some fe))).
    { rewrite Heq, lookup_app_r by done. by rewrite Nat.sub_diag. }
    pose proof (prefix_lookup_Some _ _ _ _ Ho' (proj2 (run_prefix g) _ _ _ _ Hr)) as Ho''.
    rewrite Ho in Ho''. simplify_eq/=.
  - intros owner d i inst l name c c1 c2 Hr1 IH1 Hr2 IH2 k Hk.
    pose proof (proj1 (run_prefix g) _ _ _ Hr1) as Hp1. simpl in *.
    rewrite length_app in IH1; simpl in IH1. destruct IH1 as [IHa IHb]; [lia|].
    destruct (decide (k < length (c_occs c1))%nat) as [Hk1|]; [|apply IH2; lia].
    eapply registered_at_mono; [exact (proj2 (run_prefix g) _ _ _ _ Hr2)|done|exact (proj2 (run_fifos_grow g) _ _ _ _ Hr2)|].
    destruct (decide (k = length (c_occs c))) as [->|]; [done|apply IHb; lia].
Qed.

(** * Termination of hierarchy flattening

    On an acyclic hierarchy the recursion of [collect_leaves_recursive] is
    bounded by the number of tasks, and it does not panic as long as the
    expanded hierarchy has fewer than [2^32] occurrences. *)

(** A topological numbering of the task definitions: callers above callees. *)
Record topological (g : TaskGraph) (num : string -> nat) : Prop := {
  topo_range : forall n t, BMap.get n (graph_tasks g) = Some t -> (num n < length (graph_tasks g))%nat;
  topo_child : forall n t d insts ct, BMap.get n (graph_tasks g) = Some t -> In (d, insts) (tasks t) ->
                 BMap.get d (graph_tasks g) = Some ct -> (num d < num n)%nat;
}.

(** Number of occurrences strictly below one occurrence of [tn]. *)
Fixpoint occ_count (fuel : nat) (g : TaskGraph) (tn : string) : nat :=
  match fuel, BMap.get tn (graph_tasks g) with
  | S fuel', Some def =>
      sum_list_with (fun e =>
        match BMap.get e.1.1 (graph_tasks g) with
        | Some cdef => if level cdef is Upper then S (occ_count fuel' g e.1.1) else 1%nat
        | None => 1%nat
        end) (task_instances def)
  | _, _ => 0%nat
  end.

Lemma task_child g n t num d i inst ct :
  topological g num -> BMap.get n (graph_tasks g) = Some t -> (d, i, inst) ∈ task_instances t ->
  BMap.get d (graph_tasks g) = Some ct -> (num d < num n)%nat.
Proof. intros Ht Hn (insts & Hin & _)%elem_of_task_instances Hd. by eapply topo_child. Qed.

(** Any fuel above the number of the task gives the same run. *)
Lemma collect_fuel_irrelevant g num f1 f2 tn sp ab owner c :
  topological g num -> (num tn < f1)%nat -> (num tn < f2)%nat ->
  collect_leaves_recursive f1 g tn sp ab owner c = collect_leaves_recursive f2 g tn sp ab owner c.
Proof.
  intros Ht. revert f2 tn sp ab owner c; induction f1 as [|f1 IH]; intros [|f2] tn sp ab owner c H1 H2; [lia..|].
  cbn [collect_leaves_recursive]. destruct (BMap.get tn (graph_tasks g)) as [def|] eqn:Hdef; simpl; [|done].
  f_equal. apply try_fold_ext. intros a [[d i] inst] Hin. unfold collect_instance.
  destruct (BMap.get d (graph_tasks g)) as [cdef|] eqn:Hd; simpl; [|done].
  destruct (u32_of_usize i) as [idx| |]; simpl; [|done..]. destruct (level cdef); [done|].
  pose proof (task_child _ _ _ _ _ _ _ _ Ht Hdef Hin Hd). apply IH; lia.
Qed.

(** The flat index of a definition never exceeds the occurrences recorded. *)
Definition leaves_le (c : FlatInstances) : Prop :=
  BMap.wf (c_leaves c) /\ forall d, (length (default [] (BMap.get d (c_leaves c))) <= length (c_occs c))%nat.

Lemma u32_of_usize_yields {E} n : Z.of_nat n <= U32_MAX -> yields (fun z => z = Z.of_nat n) (@u32_of_usize E n).
Proof. intros H. unfold u32_of_usize. by rewrite (proj2 (Z.leb_le _ _) H). Qed.

Lemma push_leaf_yields owner s i c :
  leaves_le c -> Z.of_nat (length (c_occs c)) <= U32_MAX ->
  yields (fun c' => leaves_le c' /\ length (c_occs c') = S (length (c_occs c))) (push_leaf owner s i c).
Proof.
  intros [Hwf Hl] Hb. unfold push_leaf. apply yields_bind.
  eapply yields_mono; [|apply u32_of_usize_yields; specialize (Hl (ep_task s)); lia].
  intros z ->. simpl. split; [split; [by apply BMap.wf_insert|]|].
  - intros d. simpl. rewrite BMap.get_insert, length_app. simpl. destruct (decide (d = ep_task s)) as [->|].
    + simpl. rewrite length_app. simpl. specialize (Hl (ep_task s)). lia.
    + specialize (Hl d). lia.
  - rewrite length_app. simpl. lia.
Qed.

Lemma fifo_global_map_domain def b sp loc n :
  (loc, n) ∈ fifo_global_map def b sp -> exists f, BMap.get loc (fifos def) = Some f.
Proof.
  intros Hin%list_elem_of_In%BMap.In_from_list. apply in_flat_map in Hin as ([name f] & Hf & Hin).
  destruct (should_materialize_fifo f b); [|done]. destruct Hin as [[= -> <-]|[]].
  destruct (BMap.get loc (fifos def)) as [f'|] eqn:Hg; [eauto|]. apply BMap.get_None in Hg.
  destruct Hg. by apply (in_map fst) in Hf.
Qed.

Lemma register_all_yields def b sp c :
  leaves_le c ->
  yields (fun c' => leaves_le c' /\ length (c_occs c') = length (c_occs c))
    (try_fold (register_fifo def) c (fifo_global_map def b sp)).
Proof.
  intros Hc. apply (yields_try_fold (fun _ c' => leaves_le c' /\ length (c_occs c') = length (c_occs c))); [done|].
  intros l1 [loc n] l2 a Heq [Ha1 Ha2]. unfold register_fifo.
  destruct (fifo_global_map_domain def b sp loc n) as [f ->].
  { rewrite Heq. apply elem_of_app. right. by left. }
  simpl. by destruct (BMap.contains_key n (c_fifos a)).
Qed.

Lemma task_instance_index t d i inst : (d, i, inst) ∈ task_instances t -> (i < length (task_instances t))%nat.
Proof.
  intros (insts & Hin & Hi)%elem_of_task_instances. apply lookup_lt_Some in Hi.
  unfold task_instances. apply in_split in Hin as (l1 & l2 & ->).
  rewrite flat_map_app, length_app. simpl. rewrite length_app, length_map.
  unfold enumerate. rewrite length_zip, length_seq. lia.
Qed.

Lemma sum_list_ge_length {A} (f : A -> nat) l : (forall x, 1 <= f x)%nat -> (length l <= sum_list_with f l)%nat.
Proof. intros Hf. induction l as [|x l IH]; simpl; [lia|]. specialize (Hf x). lia. Qed.

Lemma collect_yields g num fuel tn sp ab owner c :
  topological g num -> (num tn < fuel)%nat -> leaves_le c ->
  Z.of_nat (length (c_occs c)) + Z.of_nat (occ_count fuel g tn) <= U32_MAX + 1 ->
  yields (fun c' => leaves_le c' /\ length (c_occs c') = (length (c_occs c) + occ_count fuel g tn)%nat)
    (collect_leaves_recursive fuel g tn sp ab owner c).
Proof.
  intros Ht. revert tn sp ab owner c; induction fuel as [|fuel IH]; intros tn sp ab owner c Hf Hl Hb; [lia|].
  cbn [collect_leaves_recursive occ_count] in *. apply yields_bind, yields_ok_or. intros def Hdef. rewrite Hdef in *.
  set (W := fun e : string * nat * TaskInstance => _) in *.
  assert (HW : forall x, (1 <= W x)%nat) by (intros [[d i] inst]; unfold W; simpl; repeat case_match; lia).
  apply yields_bind. set (b := bool_decide _ && bool_decide _).
  eapply yields_mono with (P := fun c' => leaves_le c' /\
    length (c_occs c') = (length (c_occs c) + sum_list_with W (task_instances def))%nat).
  { intros c' [Hc1 Hc2]. eapply yields_mono; [|by apply register_all_yields]. simpl. intros c'' [? ?]. split; [done|congruence]. }
  eapply yields_mono; [|apply (yields_try_fold (fun rest c' => leaves_le c' /\
    (length (c_occs c') + sum_list_with W rest = length (c_occs c) + sum_list_with W (task_instances def))%nat))].
  { simpl. intros a [? ?]. split; [done|lia]. }
  { done. }
  intros l1 [[d i] inst] l2 a Heq [Ha1 Ha2]. simpl in Ha2.
  assert (Hin : (d, i, inst) ∈ task_instances def) by (rewrite Heq; apply elem_of_app; right; by left).
  pose proof (task_instance_index _ _ _ _ Hin) as Hidx. pose proof (sum_list_ge_length W (task_instances def) HW) as Hge.
  pose proof (HW (d, i, inst)) as Hw1.
  unfold collect_instance. apply yields_bind, yields_ok_or. intros cdef Hd. apply yields_bind.
  eapply yields_mono; [|apply u32_of_usize_yields; lia]. intros z ->.
  assert (HWd : W (d, i, inst) = if level cdef is Upper then S (occ_count fuel g d) else 1%nat) by (unfold W; simpl; by rewrite Hd).
  rewrite HWd in *. destruct (level cdef).
  - eapply yields_mono; [|apply push_leaf_yields; [done|lia]]. simpl. intros a' [? ?]. split; [done|lia].
  - pose proof (task_child _ _ _ _ _ _ _ _ Ht Hdef Hin Hd).
    eapply yields_mono; [|apply IH; [lia| |]].
    + simpl. intros a' [? Hlen]. rewrite length_app in Hlen. simpl in Hlen. split; [done|lia].
    + destruct Ha1 as [? Ha1]. split; [done|]. intros d'. simpl. specialize (Ha1 d'). rewrite length_app. simpl. lia.
    + simpl. rewrite length_app. simpl. lia.
Qed.
