(* ===== verification/FlattenProps.v ===== *)
(** * What flattening guarantees

    The properties of [flatten_with_origins] for its clients (code generation
    and floorplanning): provenance, completeness, FIFO registration, endpoint
    resolution, termination and the shape of the result. *)

From S2P Require Import Prelude RustStd BTreeMap Geometry Names Ir Flatten FlattenSpec.

(** ** The stages of a successful run *)

Definition flat_graph (g : TaskGraph) (top_def : Task) (c : FlatInstances)
    (fs : bmap string InterconnectDefinition) : TaskGraph :=
  mkGraph (schema_version g) (top g) (target g) (cflags g)
    (BMap.insert (top g) (set_children top_def (c_leaves c) fs) (leaf_definitions g (c_leaves c))).

Record flat_run (g : TaskGraph) (p : FlatProjection) (top_def : Task) (c : FlatInstances)
    (fs : bmap string InterconnectDefinition) : Prop := {
  fr_top : BMap.get (top g) (graph_tasks g) = Some top_def;
  fr_upper : level top_def = Upper;
  fr_inv : wf_graph g -> Inv g c;
  fr_run : scope_run g 0 (initial_collected g) c;
  fr_fifos : try_map (fill_endpoints (c_leaves c)) (c_fifos c) = Ok fs;
  fr_result : p = mkFlat (flat_graph g top_def c fs) (c_occs c);
}.

Lemma initial_inv g : Inv g (initial_collected g).
Proof.
  split; simpl; try done; try apply BMap.wf_nil.
  - intros [|k] o; simpl; [|done]. intros [= <-]. done.
  - intros [|k] [|k'] o o' e; simpl; try done.
Qed.

Lemma flatten_stages g p : flatten_with_origins g = Ok p -> exists td c fs, flat_run g p td c fs.
Proof.
  unfold flatten_with_origins, flatten_with_fuel. intros (td & Htd%ok_or_ok & H)%rbind_ok.
  destruct (bool_decide (level td = Lower)) eqn:Hl; [done|]. bool_hyps.
  apply rbind_ok in H as (c & Hc & (fs & Hfs & [= <-])%rbind_ok). exists td, c, fs. split; try done.
  - by destruct (level td).
  - intros Hg. eapply collect_inv in Hc as [? _]; [done|done|apply initial_inv|].
    eexists. split; [split; [done|split; [done|apply bindings_top]]|done].
  - by eapply collect_run in Hc.
Qed.

Lemma flat_top g p td c fs :
  flat_run g p td c fs -> BMap.get (top g) (graph_tasks (flat p)) = Some (set_children td (c_leaves c) fs).
Proof. intros [_ _ _ _ _ ->]. simpl. by rewrite BMap.get_insert_eq. Qed.

Ltac flat_stages H :=
  let td := fresh "td" in let c := fresh "c" in let fs := fresh "fs" in let Hrun := fresh "Hrun" in
  apply flatten_stages in H as (td & c & fs & Hrun).

(** ** Provenance *)

(** The instance a flat endpoint refers to. *)
Definition flat_leaf (p : FlatProjection) (e : EndpointRef) : option TaskInstance :=
  let? td := BMap.get (top (flat p)) (graph_tasks (flat p)) in
  let? insts := BMap.get (ep_task e) (tasks td) in
  insts !! Z.to_nat (ep_index e).

Lemma flat_leaf_run g p td c fs e ls leaf :
  flat_run g p td c fs -> BMap.get (ep_task e) (c_leaves c) = Some ls -> ls !! Z.to_nat (ep_index e) = Some leaf ->
  flat_leaf p e = Some leaf.
Proof.
  intros Hr Hl Hi. pose proof (flat_top _ _ _ _ _ Hr) as Ht. destruct Hr as [_ _ _ _ _ ->].
  unfold flat_leaf. simpl in *. rewrite Ht. simpl. by rewrite Hl.
Qed.

(** C4: the origins [flatten_with_origins] records are right. Occurrence 0 is
    the top task, under its own name; every later occurrence names an earlier,
    upper occurrence as its parent and resolves, through [source_invocation], to
    an invocation in the definition of that parent. An occurrence of an upper
    task has no flat endpoint, and its global name is the invocation's canonical
    name in the parent's definition followed by the parent's global name. An
    occurrence of a leaf has one, and the flat instance there is the invocation
    itself, lifted: its explicit name (none when it had none) is kept in the top
    scope and qualified with the parent's global name below it, its step, ports,
    categories and constants are the invocation's, its named arguments are the
    invocation's resolved against the parent's FIFOs and parameters, and the
    recorded global name is the flat instance's canonical name. *)
Theorem flatten_origins_sound g p k o :
  wf_graph g -> flatten_with_origins g = Ok p -> occurrences p !! k = Some o ->
  (k = 0%nat /\ occ_parent o = None /\ occ_source o = None /\ global_name o = top g /\ flat_endpoint o = None) \/
  exists parent s po pdef inst def,
    occ_parent o = Some parent /\ occ_source o = Some s /\ (parent < k)%nat /\
    occurrences p !! parent = Some po /\ flat_endpoint po = None /\ source_task p g parent = Some pdef /\
    source_invocation p g k = Some inst /\ source_task p g k = Some def /\
    match flat_endpoint o with
    | None => level def = Upper /\
        global_name o = canonical_name inst (ep_task s) (Z.to_nat (ep_index s)) +:+ "_" +:+ global_name po
    | Some fe => level def = Lower /\ ep_task fe = ep_task s /\ exists leaf b,
        flat_leaf p fe = Some leaf /\
        inst_name leaf = leaf_name g po inst /\
        inst_args leaf = resolve_args (occ_fifos g po pdef) b (inst_args inst) /\
        scope_bindings g (occurrences p) parent b /\
        args_match inst leaf /\
        global_name o = canonical_name leaf (ep_task fe) (Z.to_nat (ep_index fe))
    end.
Proof.
  intros Hg H Hk. flat_stages H. pose proof (inv_occs _ _ (fr_inv _ _ _ _ _ Hrun Hg)) as Hok.
  assert (Hocc : occurrences p = c_occs c) by (by destruct Hrun as [_ _ _ _ _ ->]).
  unfold source_invocation, source_task. rewrite !Hocc in *. specialize (Hok k o Hk). rewrite Hk.
  unfold occ_ok in Hok. destruct (occ_parent o) as [q|], (occ_source o) as [s|] eqn:Hs; try done; [|left; tauto].
  right. destruct Hok as (Hq & _ & po & pdef & insts & inst & cdef & H1 & H2 & H3 & H4 & H5 & H6 & H7).
  exists q, s, po, pdef, inst, cdef. do 5 (split; [done|]). rewrite H1. unfold occ_task_name in H3. rewrite H3, H4.
  do 3 (split; [done|]). destruct (flat_endpoint o) as [fe|]; [|done].
  destruct H7 as (? & ? & _ & ls & b & Hl & Hi & ? & ? & ?). do 2 (split; [done|]). exists (lifted_leaf g po pdef b inst), b.
  split; [|done]. by eapply flat_leaf_run.
Qed.

(** ** Completeness *)

Lemma occ_keys_nodup g p td c fs : wf_graph g -> flat_run g p td c fs -> NoDup (map occ_key (c_occs c)).
Proof.
  intros Hg Hr. destruct (proj1 (run_added_once g Hg) _ _ _ (fr_run _ _ _ _ _ Hr)) as (l & new & -> & Hn & Hf); [simpl; lia|].
  cbn [map app c_occs initial_collected]. apply NoDup_cons. split; [|done]. intros (o & Ho & Hk)%in_keys.
  rewrite Forall_forall in Hf. assert (Hp : occ_parent o = None) by (unfold occ_key in Hk; simpl in Hk; congruence).
  destruct (Hf o Ho) as [(e & _ & He%key_of_parent)|(q & Hq & _)]; congruence.
Qed.

(** C5: no leaf and no scope is lost, invented or recorded twice. Every
    invocation in the definition of an upper occurrence has exactly one
    occurrence (one exists, and two occurrences with the same parent and the
    same source are the same), only the top task has no parent, and the leaf
    occurrences and the instances of the flat top task are in bijection: each
    flat instance is the endpoint of exactly one occurrence. *)
Theorem flatten_complete g p :
  wf_graph g -> flatten_with_origins g = Ok p ->
  (forall k o def d i inst,
     occurrences p !! k = Some o -> flat_endpoint o = None -> source_task p g k = Some def ->
     (d, i, inst) ∈ task_instances def ->
     exists k' o', occurrences p !! k' = Some o' /\ occ_parent o' = Some k /\
                   occ_source o' = Some (mkEndpoint d (Z.of_nat i))) /\
  (forall k k' o o', occurrences p !! k = Some o -> occurrences p !! k' = Some o' ->
     occ_parent o = occ_parent o' -> occ_source o = occ_source o' -> k = k') /\
  (forall d i leaf, flat_leaf p (mkEndpoint d (Z.of_nat i)) = Some leaf ->
     exists k o, occurrences p !! k = Some o /\ flat_endpoint o = Some (mkEndpoint d (Z.of_nat i))) /\
  (forall k k' o o' e, occurrences p !! k = Some o -> occurrences p !! k' = Some o' ->
     flat_endpoint o = Some e -> flat_endpoint o' = Some e -> k = k').
Proof.
  intros Hg H. flat_stages H. pose proof (fr_inv _ _ _ _ _ Hrun Hg) as Hinv.
  assert (Hocc : occurrences p = c_occs c) by (by destruct Hrun as [_ _ _ _ _ ->]).
  rewrite Hocc. split; [|split; [|split]].
  - intros k o def d i inst Hk Hf Hd Hin.
    unfold source_task in Hd. rewrite Hocc, Hk in Hd. fold (occ_task_name g o) in Hd.
    destruct (proj1 (run_complete g) _ _ _ (fr_run _ _ _ _ _ Hrun)) as [H0 Hall]; [simpl; lia|].
    destruct k as [|k]; [by eapply H0|]. eapply (Hall (S k)); [simpl; lia|done..].
  - intros k k' o o' Hk Hk' Hp Hs. apply (NoDup_lookup (map occ_key (c_occs c)) k k' (occ_key o)).
    + by eapply occ_keys_nodup.
    + by rewrite list_lookup_fmap, Hk.
    + rewrite list_lookup_fmap, Hk'. simpl. unfold occ_key. congruence.
  - intros d i leaf Hl. unfold flat_leaf in Hl. pose proof (flat_top _ _ _ _ _ Hrun) as Ht.
    destruct Hrun as [_ _ _ _ _ ->]. simpl in *. rewrite Ht in Hl. simpl in Hl. rewrite Nat2Z.id in Hl.
    destruct (BMap.get d (c_leaves c)) as [ls|] eqn:Hd; [|done]. apply lookup_lt_Some in Hl.
    by eapply inv_covered.
  - apply inv_unique with (1 := Hinv).
Qed.

(** ** FIFOs *)

(** What the endpoint pass makes of one collected FIFO. *)
Lemma fill_endpoints_ok leaves n f e :
  fill_endpoints leaves (n, f) = Ok e ->
  exists f', e = (n, f') /\ fifo_depth f' = fifo_depth f /\
    match consumed_by f with Some _ => find_endpoint leaves n Consumer | None => Ok None end = Ok (consumed_by f') /\
    match produced_by f with Some _ => find_endpoint leaves n Producer | None => Ok None end = Ok (produced_by f').
Proof.
  unfold fill_endpoints. intros (a & Ha & (b & Hb & [= <-])%rbind_ok)%rbind_ok.
  eexists. split; [done|]. by simpl.
Qed.

Lemma filled_fifos leaves fs fs' :
  try_map (fill_endpoints leaves) fs = Ok fs' ->
  BMap.keys fs' = BMap.keys fs /\
  (forall n f, BMap.get n fs = Some f -> exists f', BMap.get n fs' = Some f' /\ fill_endpoints leaves (n, f) = Ok (n, f')) /\
  (forall n f', BMap.get n fs' = Some f' -> exists f, BMap.get n fs = Some f /\ fill_endpoints leaves (n, f) = Ok (n, f')).
Proof.
  intros H%try_map_Forall2. induction H as [|[n f] e fs fs' He _ IH]; [done|].
  pose proof (fill_endpoints_ok _ _ _ _ He) as (f' & -> & _). destruct IH as (IH1 & IH2 & IH3).
  split; [simpl; by f_equal|]. split; intros m h; cbn [BMap.get]; (destruct (kcmp m n) eqn:E; [|auto..]);
    intros Hm; injection Hm as <-; apply kcmp_eq in E as ->; eauto.
Qed.

(** Every FIFO of the hierarchy is kept, once. Each FIFO an upper
    occurrence owns (all of them in the top scope, the ones with a depth
    elsewhere) is in the flat top task under the global name its scope gives
    it, with its depth, and the flat top task has no other FIFO: their number
    is the sum over the occurrences. *)
Theorem flatten_fifos_complete g p :
  flatten_with_origins g = Ok p ->
  exists td, BMap.get (top g) (graph_tasks (flat p)) = Some td /\
  (forall k o def loc n,
     occurrences p !! k = Some o -> flat_endpoint o = None -> source_task p g k = Some def ->
     (loc, n) ∈ occ_fifos g o def ->
     exists f f', BMap.get loc (fifos def) = Some f /\ BMap.get n (fifos td) = Some f' /\
                  fifo_depth f' = fifo_depth f) /\
  length (fifos td) = sum_list_with (occ_fifo_count g) (occurrences p).
Proof.
  intros H. flat_stages H. exists (set_children td (c_leaves c) fs). split; [by eapply flat_top|].
  assert (Hocc : occurrences p = c_occs c) by (by destruct Hrun as [_ _ _ _ _ ->]).
  destruct (filled_fifos _ _ _ (fr_fifos _ _ _ _ _ Hrun)) as (Hk & Hfwd & _). rewrite Hocc. split.
  - intros k o def loc n Ho Hf Hd Hin. unfold source_task in Hd. rewrite Hocc, Ho in Hd. fold (occ_task_name g o) in Hd.
    destruct (proj1 (run_registered g) _ _ _ (fr_run _ _ _ _ _ Hrun)) as [H0 Hall]; [simpl; lia|].
    assert (Hreg : registered_at g c k) by (destruct k as [|k]; [done|apply Hall; simpl; lia]).
    destruct (Hreg o def loc n Ho Hf Hd Hin) as (f & Hf1 & Hf2).
    destruct (Hfwd n f Hf2) as (f' & Hf' & He). exists f, f'. split; [done|]. split; [done|].
    apply fill_endpoints_ok in He as (f'' & [= <-] & ? & _). done.
  - destruct (proj1 (run_fifo_count g) _ _ _ (fr_run _ _ _ _ _ Hrun)) as (o & new & Ho & Hnew & Hlen).
    simpl in *. injection Ho as <-. rewrite Hnew. simpl. apply (f_equal length) in Hk.
    unfold BMap.keys in Hk. rewrite !length_map in Hk. congruence.
Qed.

(** *** Endpoints *)

Lemma elem_of_leaf_instances leaves d i inst :
  BMap.wf leaves ->
  (d, i, inst) ∈ leaf_instances leaves <-> exists ls, BMap.get d leaves = Some ls /\ ls !! i = Some inst.
Proof.
  intros Hwf. unfold leaf_instances. rewrite list_elem_of_In, in_flat_map. split.
  - intros ([d' ls] & Hin & ([i' inst'] & [= -> -> ->] & He)%in_map_iff). exists ls.
    split; [by apply BMap.In_get|]. by apply elem_of_enumerate, list_elem_of_In.
  - intros (ls & Hin & Hl). exists (d, ls). split; [by apply BMap.get_In|]. apply in_map_iff.
    exists (i, inst). split; [done|]. by apply list_elem_of_In, elem_of_enumerate.
Qed.

(** A leaf instance binds the FIFO on the side the role asks for. *)
Definition binds (role : EndpointRole) (n : string) (i : TaskInstance) : Prop :=
  exists port a, In (port, a) (inst_args i) /\ arg_name a = Some n /\ role_matches role (cat a) = true.

Lemma binds_fifo_iff role n i : binds_fifo role n i = true <-> binds role n i.
Proof.
  unfold binds_fifo, binds. rewrite existsb_exists. split.
  - intros ([port a] & Hin & Hb). bool_hyps. simpl in *. eauto.
  - intros (port & a & Hin & Hn & Hr). exists (port, a). split; [done|]. simpl. rewrite Hr, andb_true_r.
    by apply bool_decide_eq_true_2.
Qed.

Lemma find_endpoint_spec leaves n role e :
  BMap.wf leaves -> find_endpoint leaves n role = Ok e ->
  match e with
  | Some e => exists ls i, BMap.get (ep_task e) leaves = Some ls /\ ls !! Z.to_nat (ep_index e) = Some i /\ binds role n i
  | None => forall d ls i, BMap.get d leaves = Some ls -> i ∈ ls -> ~ binds role n i
  end.
Proof.
  intros Hwf. unfold find_endpoint. destruct (find_first _ _) as [[[d i] inst]|] eqn:Hf.
  - intros (z & ->%u32_of_usize_ok & [= <-])%rbind_ok. apply find_first_Some in Hf as [Hin Hb].
    apply elem_of_leaf_instances in Hin as (ls & Hd & Hi); [|done]. exists ls, inst. simpl.
    rewrite Nat2Z.id. split; [done|]. split; [done|]. by apply binds_fifo_iff.
  - intros [= <-] d ls i Hd Hi Hb%binds_fifo_iff. apply find_first_None in Hf. rewrite Forall_forall in Hf.
    apply list_elem_of_lookup in Hi as [k Hk]. specialize (Hf (d, k, i)). simpl in Hf.
    rewrite Hf in Hb; [done|]. apply elem_of_leaf_instances; eauto.
Qed.

(** Endpoint resolution is sound and complete. An endpoint recorded on a
    FIFO of the flat top task refers to an existing flat instance that binds
    that FIFO on the matching side (input stream for the consumer, output
    stream for the producer); an endpoint the original definition had is
    absent only when no flat instance binds the FIFO on that side. *)
Theorem flatten_endpoints_resolved g p n f' td :
  wf_graph g -> flatten_with_origins g = Ok p ->
  BMap.get (top g) (graph_tasks (flat p)) = Some td -> BMap.get n (fifos td) = Some f' ->
  exists f, fifo_depth f' = fifo_depth f /\
  forall role, let side := match role with Consumer => consumed_by | Producer => produced_by end in
    match side f' with
    | Some e => side f <> None /\ exists i, flat_leaf p e = Some i /\ binds role n i
    | None => side f = None \/
        forall d ls i, BMap.get d (tasks td) = Some ls -> i ∈ ls -> ~ binds role n i
    end.
Proof.
  intros Hg H Htd Hn. flat_stages H. rewrite (flat_top _ _ _ _ _ Hrun) in Htd. simplify_eq/=.
  pose proof (inv_leaves _ _ (fr_inv _ _ _ _ _ Hrun Hg)) as Hwf.
  destruct (filled_fifos _ _ _ (fr_fifos _ _ _ _ _ Hrun)) as (_ & _ & Hbwd).
  destruct (Hbwd n f' Hn) as (f & _ & (f'' & [= <-] & Hd & Hc & Hp)%fill_endpoints_ok). exists f. split; [done|].
  assert (Hone : forall role (orig new : option EndpointRef),
    match orig with Some _ => find_endpoint (c_leaves c) n role | None => Ok None end = Ok new ->
    match new with
    | Some e => orig <> None /\ exists i, flat_leaf p e = Some i /\ binds role n i
    | None => orig = None \/ forall d ls i, BMap.get d (c_leaves c) = Some ls -> i ∈ ls -> ~ binds role n i
    end).
  { intros role [o|] new Hnew; [|injection Hnew as <-; by left].
    apply find_endpoint_spec in Hnew; [|done]. destruct new as [e|]; [|by right].
    destruct Hnew as (ls & i & Hls & Hi & Hb). split; [done|]. exists i. split; [|done]. by eapply flat_leaf_run. }
  intros [|]; [exact (Hone Consumer _ _ Hc)|exact (Hone Producer _ _ Hp)].
Qed.

(** ** Termination *)

Lemma find_endpoint_yields c n role :
  leaves_le c -> Z.of_nat (length (c_occs c)) <= U32_MAX + 1 ->
  yields (fun _ => True) (find_endpoint (c_leaves c) n role).
Proof.
  intros [Hwf Hl] Hb. unfold find_endpoint. destruct (find_first _ _) as [[[d i] inst]|] eqn:Hf; [|done].
  apply yields_bind. eapply yields_mono with (P := fun z => z = Z.of_nat i); [done|]. apply u32_of_usize_yields.
  apply find_first_Some in Hf as [Hin _]. apply elem_of_leaf_instances in Hin as (ls & Hd & Hi); [|done].
  apply lookup_lt_Some in Hi. specialize (Hl d). rewrite Hd in Hl. simpl in Hl. lia.
Qed.

Lemma fill_all_yields c fs :
  leaves_le c -> Z.of_nat (length (c_occs c)) <= U32_MAX + 1 ->
  yields (fun _ => True) (try_map (fill_endpoints (c_leaves c)) fs).
Proof.
  intros Hl Hb. induction fs as [|[n f] fs IH]; cbn [try_map]; [done|]. apply yields_bind.
  eapply yields_mono with (P := fun _ => True).
  { intros e _. apply yields_bind. by eapply yields_mono; [|exact IH]. }
  unfold fill_endpoints. apply yields_bind.
  apply (yields_mono (fun _ => True)); [|destruct (consumed_by f); [by apply find_endpoint_yields|done]].
  intros ? _. apply yields_bind.
  apply (yields_mono (fun _ => True)); [done|destruct (produced_by f); [by apply find_endpoint_yields|done]].
Qed.

Lemma flatten_yields g num :
  topological g num -> Z.of_nat (occ_count (S (length (graph_tasks g))) g (top g)) <= U32_MAX ->
  yields (fun p => length (occurrences p) = S (occ_count (S (length (graph_tasks g))) g (top g)))
    (flatten_with_origins g).
Proof.
  intros Ht Hb. unfold flatten_with_origins, flatten_with_fuel. apply yields_bind, yields_ok_or. intros td Htd.
  destruct (bool_decide (level td = Lower)); [done|]. apply yields_bind.
  pose proof (topo_range _ _ Ht _ _ Htd). eapply yields_mono; [|apply (collect_yields g num); [done|lia| |]].
  - intros c [Hl Hlen]. apply yields_bind. eapply yields_mono; [|apply fill_all_yields; [done|]].
    + intros fs _. exact Hlen.
    + rewrite Hlen. change (length (c_occs (initial_collected g))) with 1%nat. lia.
  - split; [apply BMap.wf_nil|]. intros d. simpl. lia.
  - change (length (c_occs (initial_collected g))) with 1%nat. lia.
Qed.

(** Flattening an acyclic hierarchy terminates. If the definitions can
    be numbered topologically and the expanded hierarchy has fewer than 2^32
    occurrences, [flatten_with_origins] returns a value (no panic, the
    recursion budget is never exhausted); a larger budget gives the same
    answer; and a projection it returns has exactly one occurrence per
    instantiation in the expanded hierarchy. *)
Theorem flatten_terminates g num :
  topological g num -> Z.of_nat (occ_count (S (length (graph_tasks g))) g (top g)) <= U32_MAX ->
  flatten_with_origins g <> Panic /\
  (forall fuel, (length (graph_tasks g) <= fuel)%nat -> flatten_with_fuel fuel g = flatten_with_origins g) /\
  (forall p, flatten_with_origins g = Ok p ->
     length (occurrences p) = S (occ_count (S (length (graph_tasks g))) g (top g))).
Proof.
  intros Ht Hb. pose proof (flatten_yields g num Ht Hb) as Hy. split; [|split].
  - intros Hp. by rewrite Hp in Hy.
  - intros fuel Hf. unfold flatten_with_origins, flatten_with_fuel.
    destruct (BMap.get (top g) (graph_tasks g)) as [td|] eqn:Htd; simpl; [|done].
    pose proof (topo_range _ _ Ht _ _ Htd).
    by rewrite (collect_fuel_irrelevant g num fuel (S (length (graph_tasks g)))) by (done || lia).
  - intros p Hp. by rewrite Hp in Hy.
Qed.

(** ** Shape of the flat graph *)

(** The flat graph is a two-level graph that can be compiled in place of
    the original. Its header is the original's; its top task keeps everything
    of the original top task except the children and FIFOs; every other
    definition is an original leaf definition, unchanged; and every child of
    the top task has a definition, a leaf one. *)
Theorem flatten_shape g p :
  wf_graph g -> flatten g = Ok p ->
  schema_version p = schema_version g /\ top p = top g /\ target p = target g /\ cflags p = cflags g /\
  exists td td', BMap.get (top g) (graph_tasks g) = Some td /\ level td = Upper /\
    BMap.get (top g) (graph_tasks p) = Some td' /\ td' = set_children td (tasks td') (fifos td') /\
    (forall d t, d <> top g -> BMap.get d (graph_tasks p) = Some t ->
       BMap.get d (graph_tasks g) = Some t /\ level t = Lower) /\
    (forall d insts, BMap.get d (tasks td') = Some insts ->
       exists t, BMap.get d (graph_tasks p) = Some t /\ level t = Lower).
Proof.
  intros Hg (q & H & [= <-])%rbind_ok. flat_stages H. pose proof (flat_top _ _ _ _ _ Hrun) as Htop.
  pose proof (fr_inv _ _ _ _ _ Hrun Hg) as Hinv. destruct Hrun as [Htd Hup _ _ _ ->]. simpl in *.
  do 4 (split; [done|]). exists td, (set_children td (c_leaves c) fs). do 4 (split; [done|]).
  assert (Hleaf : forall d t, BMap.get d (leaf_definitions g (c_leaves c)) = Some t ->
    BMap.get d (graph_tasks g) = Some t /\ level t = Lower).
  { intros d t Hd. apply BMap.get_In, BMap.In_from_list, in_flat_map in Hd as ([d' ls] & Hin & Hd).
    simpl in Hd. destruct (BMap.get d' (graph_tasks g)) as [t'|] eqn:Hd'; [|done].
    destruct Hd as [[= -> ->]|[]]. split; [done|].
    apply BMap.In_get in Hin; [|apply Hinv]. destruct (inv_lower _ _ Hinv _ _ Hin) as (def & ? & ?). congruence. }
  split.
  - intros d t Hne. rewrite BMap.get_insert_ne by done. apply Hleaf.
  - intros d insts Hd. destruct (inv_lower _ _ Hinv _ _ Hd) as (def & Hdef & Hlow).
    assert (d <> top g) by (intros ->; congruence). rewrite BMap.get_insert_ne by done.
    destruct (BMap.get d (leaf_definitions g (c_leaves c))) as [t|] eqn:Ht.
    { exists t. split; [done|]. by apply (Hleaf d). }
    apply BMap.get_None in Ht. destruct Ht. apply BMap.keys_from_list, (in_map fst _ (d, def)), in_flat_map.
    exists (d, insts). split; [by apply BMap.get_In|]. simpl. rewrite Hdef. by left.
Qed.

(** ** Array-indexed bindings *)

(** The name of one element of a channel array. *)
Definition element (base : string) (i : Z) : string := base +:+ "[" +:+ show i +:+ "]".

Definition no_bracket (s : string) : bool := Str.all (fun d => negb (Ascii.eqb "[" d)) s.

Lemma split_element base i :
  no_bracket base = true -> in_u32 i -> split_array_index (element base i) = Some (base, i, "").
Proof.
  intros Hb Hi. unfold split_array_index, element.
  rewrite (proj2 (Str.split_once_Some "[" _ base (show i +:+ "]"))) by (split; [done|exact Hb]).
  rewrite (proj2 (Str.split_once_Some "]" _ (show i) "")).
  2:{ split; [done|]. apply Str.digits_not_char; [done|]. apply Str.show_digits. unfold in_u32 in Hi. lia. }
  unfold Str.parse_u32. rewrite Str.parse_show by done. done.
Qed.

Lemma split_plain base : no_bracket base = true -> split_array_index base = None.
Proof. intros Hb. unfold split_array_index. by rewrite (proj2 (Str.split_once_None "[" base)). Qed.

Lemma offset_plain base i : no_bracket base = true -> offset_array_binding base i = element base i.
Proof. intros Hb. unfold offset_array_binding. by rewrite split_plain. Qed.

Lemma offset_element base k i :
  no_bracket base = true -> in_u32 k -> in_u32 (k + i) ->
  offset_array_binding (element base k) i = element base (k + i).
Proof. intros Hb Hk Hs. unfold offset_array_binding. rewrite split_element by done. by rewrite wrap32_id. Qed.

(** Array parameters compose through scopes. Inside a task whose array
    parameter [p] is bound to the channel array [b], or to [b] from element
    [k] on, the element [p[i]] resolves to [b[i]], respectively to [b[k+i]],
    unless the scope binds the name [p[i]] itself or owns a FIFO of that name;
    offsets through nested scopes add up. *)
Theorem array_elements_resolve p b i k fmap bindings :
  no_bracket p = true -> no_bracket b = true -> in_u32 i -> in_u32 k -> in_u32 (k + i) ->
  BMap.get (element p i) fmap = None -> BMap.get (element p i) bindings = None ->
  (BMap.get p bindings = Some (AName b) -> resolve_scoped_arg (element p i) fmap bindings = AName (element b i)) /\
  (BMap.get p bindings = Some (AName (element b k)) ->
     resolve_scoped_arg (element p i) fmap bindings = AName (element b (k + i))) /\
  offset_array_binding (offset_array_binding b k) i = offset_array_binding b (k + i).
Proof.
  intros Hp Hb Hi Hk Hki Hf Hg. unfold resolve_scoped_arg. rewrite Hf, Hg, (split_element p i) by done.
  split; [|split].
  - intros ->. simpl. by rewrite offset_plain.
  - intros ->. simpl. by rewrite offset_element.
  - rewrite (offset_plain b k), (offset_plain b (k + i)) by done. by rewrite offset_element.
Qed.

Lemma array_elements_resolve_witness :
  resolve_scoped_arg "p[2]" [] [("p", AName "chan[4]")] = AName "chan[6]".
Proof.
  refine (proj1 (proj2 (array_elements_resolve "p" "chan" 2 4 [] [("p", AName "chan[4]")] _ _ _ _ _ _ _)) _);
    try reflexivity; unfold in_u32, U32_MAX; lia.
Defined.

(** ** Witnesses on the two-stage example *)

Lemma wfb_graph g :
  BMap.wfb (graph_tasks g) &&
  forallb (fun e => BMap.wfb (tasks e.2) && BMap.wfb (fifos e.2) &&
    forallb (fun t => forallb (fun i => BMap.wfb (inst_args i)) t.2) (tasks e.2)) (graph_tasks g) = true ->
  wf_graph g.
Proof.
  intros [H1 H2]%andb_true_iff. split; [by apply BMap.wfb_wf|].
  intros n t Ht%BMap.get_In. rewrite forallb_forall in H2. specialize (H2 _ Ht). bool_hyps. simpl in *.
  split; [by apply BMap.wfb_wf..|]. intros d insts i Hd Hi.
  rewrite forallb_forall in H0. specialize (H0 _ Hd). simpl in H0. rewrite forallb_forall in H0.
  by apply BMap.wfb_wf, H0.
Qed.

Lemma example_wf : wf_graph Example.graph.
Proof. apply wfb_graph. reflexivity. Qed.

Lemma example_run : flatten_with_origins Example.graph = Ok Example.projection.
Proof. vm_compute. reflexivity. Qed.

Definition example_top : Task := default Example.top_task (BMap.get "Top" (graph_tasks (flat Example.projection))).

Definition example_num (n : string) : nat :=
  if bool_decide (n = "Top") then 3%nat else if bool_decide (n = "Stage") then 2%nat else 0%nat.

Lemma example_topological : topological Example.graph example_num.
Proof.
  split.
  - intros n t _. unfold example_num. simpl. repeat case_bool_decide; lia.
  - intros n t d insts ct Hn%BMap.get_In Hd _.
    repeat (destruct Hn as [Hn|Hn]; [injection Hn as <- <-; simpl in Hd;
      repeat (destruct Hd as [Hd|Hd]; [injection Hd as <- <-; vm_compute; lia|]); destruct Hd|]). destruct Hn.
Qed.

Lemma flatten_origins_sound_witness :
  exists o, occurrences Example.projection !! 3%nat = Some o /\ global_name o = "src_Stage_0_Top" /\
  exists parent, occ_parent o = Some parent /\ (parent < 3)%nat.
Proof.
  assert (H : exists o, occurrences Example.projection !! 3%nat = Some o /\ global_name o = "src_Stage_0_Top")
    by (eexists; vm_compute; split; reflexivity).
  destruct H as (o & Ho & Hn). exists o. split; [exact Ho|]. split; [exact Hn|].
  destruct (flatten_origins_sound _ _ _ _ example_wf example_run Ho)
    as [(Hk & _)|(parent & _ & _ & _ & _ & _ & Hp & _ & Hlt & _)]; [discriminate Hk|]. exact (ex_intro _ parent (conj Hp Hlt)).
Defined.

Lemma flatten_complete_witness :
  exists k o, occurrences Example.projection !! k = Some o /\ flat_endpoint o = Some (mkEndpoint "Producer" (Z.of_nat 1)).
Proof.
  assert (H : exists i, flat_leaf Example.projection (mkEndpoint "Producer" (Z.of_nat 1)) = Some i)
    by (eexists; vm_compute; reflexivity).
  destruct H as (i & Hi). exact (proj1 (proj2 (proj2 (flatten_complete _ _ example_wf example_run))) _ _ _ Hi).
Defined.

Lemma flatten_fifos_complete_witness :
  exists td, BMap.get "Top" (graph_tasks (flat Example.projection)) = Some td /\
    length (fifos td) = sum_list_with (occ_fifo_count Example.graph) (occurrences Example.projection).
Proof.
  destruct (flatten_fifos_complete _ _ example_run) as (td & Htd & _ & Hlen).
  exists td. split; [exact Htd|exact Hlen].
Defined.

Lemma flatten_endpoints_resolved_witness :
  exists f, fifo_depth f = Some 2 /\ consumed_by f <> None.
Proof.
  assert (H2 : BMap.get (top Example.graph) (graph_tasks (flat Example.projection)) = Some example_top) by (vm_compute; reflexivity).
  assert (H3 : BMap.get "q_Stage_0_Top" (fifos example_top) =
    Some (mkFifo (Some 2) (Some (mkEndpoint "Consumer" 0)) (Some (mkEndpoint "Producer" 0)))) by (vm_compute; reflexivity).
  destruct (flatten_endpoints_resolved _ _ _ _ _ example_wf example_run H2 H3) as (f & Hf & Hr).
  exists f. split; [exact (eq_sym Hf)|]. exact (proj1 (Hr Consumer)).
Defined.

Lemma flatten_terminates_witness :
  length (occurrences Example.projection) = S (occ_count 5 Example.graph "Top").
Proof.
  assert (Hb : Z.of_nat (occ_count 5 Example.graph "Top") <= U32_MAX) by (vm_compute; discriminate).
  exact (proj2 (proj2 (flatten_terminates Example.graph example_num example_topological Hb)) _ example_run).
Defined.

Lemma flatten_shape_witness : top (flat Example.projection) = "Top".
Proof.
  assert (H : flatten Example.graph = Ok (flat Example.projection)) by (vm_compute; reflexivity).
  exact (proj1 (proj2 (flatten_shape _ _ example_wf H))).
Defined.
