(* ===== verification/Aie.v ===== *)
(** * The AI Engine partition

    [tapa-ir/src/aie.rs]: the kernels and streams of the tasks on the AI
    Engine, the kernels a stream cycle runs through, and the projection of the
    task graph to its PL half.

    Rust recurses over the hierarchy on its call stack; [visit] takes fuel, and
    running out of it is [Panic].  [derive] supplies one unit more than the
    number of tasks, which an acyclic hierarchy cannot exhaust ([AieProps]). *)

From S2P Require Import Prelude RustStd BTreeMap Geometry Names Ir Flatten.

(** An [AieError] is its message. *)
Definition AieError : Type := string.

Inductive ScalarBinding := Runtime (name : string) | Constant (value : WireValue).

Inductive AiePortKind :=
| Streams (input plural : bool) (streams : list nat) (words : Z) (frame : option Z)
| ScalarPort (ctype : string) (width : Z) (value : ScalarBinding).

Record AieKernelPort := mkKernelPort { kp_name : string; kp_kind : AiePortKind }.

Record AieKernel := mkKernel {
  k_name : string;
  k_task : string;
  k_call : string;
  k_ports : list AieKernelPort;
  k_location : option (Z * Z);
  k_stack_bytes : option Z;
  k_ordered : bool;
}.

Inductive AieStreamKind := Plio (input : bool) (width : Z) | Net (depth_words : Z).

Record AieStream := mkStream {
  s_name : string;
  s_fifo : string;
  s_words : Z;
  s_frame : option Z;
  s_kind : AieStreamKind;
}.

Record AiePartition := mkPartition {
  kernels : list AieKernel;
  streams : list AieStream;
  run_forever : bool;
}.

Definition MAX_PLIO_BITS : Z := 128.

(** ** Lookups *)

Definition synth_is_aie (t : Task) : bool := match synth t with SynthAie => true | _ => false end.

Definition find_task (g : TaskGraph) (name : string) : res AieError Task :=
  ok_or (BMap.get name (graph_tasks g)) ("the task graph has no task `" +:+ name +:+ "`").

(** Result: the new [run_forever]. *)
Definition check_invoke_step (child : string) (step : Z) (forever : bool) : res AieError bool :=
  if 0 <? step
  then Err ("the AI Engine task `" +:+ child +:+ "` is invoked sequentially (step " +:+ Str.show step
            +:+ "); AI Engine kernels run concurrently, so invoke it joined or detached")
  else Ok (forever || (step <? 0)).

Definition endpoint_is_aie (g : TaskGraph) (endpoint : option EndpointRef) : bool :=
  match endpoint with
  | Some e => match BMap.get (ep_task e) (graph_tasks g) with Some t => synth_is_aie t | None => false end
  | None => false
  end.

Definition child_port_for (parent : Task) (child : string) (index : Z) (fifo : string) : option string :=
  let? instances := BMap.get child (tasks parent) in
  let? i := instances !! Z.to_nat index in
  let? (port, _) := find_first (fun e => bool_decide (arg_name e.2 = Some fifo)) (inst_args i) in
  Some port.

(** [u32::div_ceil(32)]. *)
Definition words_of (width : Z) : Z := (width + 31) / 32.

Definition stream_words (g : TaskGraph) (task_name port : string) : res AieError Z :=
  let! def := find_task g task_name in
  let! p := ok_or (task_port def port) ("the task `" +:+ task_name +:+ "` has no port `" +:+ port +:+ "`") in
  Ok (words_of (port_width p)).

Definition plio_width (bits : Z) : Z := if bits <=? 32 then 32 else if bits <=? 64 then 64 else 128.

(** ** Building the partition *)

Inductive Binding := BStream (stream : nat) | BScalar (value : ScalarBinding).

Record Builder := mkBuilder { partition : AiePartition; top_streams : bmap string nat }.

Definition push_stream (p : AiePartition) (name fifo : string) (words : Z) (frame : option Z) (kind : AieStreamKind) :
    AiePartition * nat :=
  (mkPartition (kernels p) (streams p ++ [mkStream name fifo words frame kind]) (run_forever p), length (streams p)).

Definition push_kernel (p : AiePartition) (k : AieKernel) : AiePartition :=
  mkPartition (kernels p ++ [k]) (streams p) (run_forever p).

Definition set_forever (p : AiePartition) (forever : bool) : AiePartition :=
  mkPartition (kernels p) (streams p) forever.

(** The kind of a stream of the top task. *)
Definition top_stream_kind (g : TaskGraph) (child name : string) (fifo : InterconnectDefinition) (words : Z)
    (aie_port : option Port) : res AieError AieStreamKind :=
  let producer_aie := endpoint_is_aie g (produced_by fifo) in
  let consumer_aie := endpoint_is_aie g (consumed_by fifo) in
  let bits := wrap32 (words * 32) in
  if producer_aie && consumer_aie then Ok (Net (wrap32 (default 0 (fifo_depth fifo) * words))) else
  let width := default bits (let? p := aie_port in port_aie_plio p) in
  if MAX_PLIO_BITS <? bits
  then Err ("stream `" +:+ name +:+ "` between the PL and the AI Engine task `" +:+ child +:+ "` carries " +:+ Str.show bits
            +:+ "-bit elements; a PL" +:+ Str.utf8 [226; 134; 148] +:+ "AI Engine stream carries at most " +:+ Str.show MAX_PLIO_BITS
            +:+ " bits per element, so split it into tapa::vec_t<T, 4> elements of 32-bit T")
  else Ok (Plio (negb producer_aie) (plio_width width)).

Definition top_binding (g : TaskGraph) (b : Builder) (child port : string) (a : Arg) : res AieError (Builder * Binding) :=
  let! top := find_task g (top g) in
  match arg a with
  | ALiteral value => Ok (b, BScalar (Constant value))
  | AName name =>
      if is_scalar (cat a) then Ok (b, BScalar (Runtime name)) else
      if is_stream (cat a) then
        match BMap.get name (top_streams b) with
        | Some index => Ok (b, BStream index)
        | None =>
            let! fifo := ok_or (let? f := BMap.get name (fifos top) in
                                match fifo_depth f with Some _ => Some f | None => None end)
              ("port `" +:+ port +:+ "` of the AI Engine task `" +:+ child +:+ "` is bound to the top task's port `" +:+ name
               +:+ "`; connect an AI Engine task to the PL through a stream the top declares") in
            let! words := stream_words g child port in
            let! def := find_task g child in
            let aie_port := task_port def port in
            let frame := let? p := aie_port in port_aie_frame p in
            let! kind := top_stream_kind g child name fifo words aie_port in
            let '(p, index) := push_stream (partition b) (sanitize_identifier_name name) name words frame kind in
            Ok (mkBuilder p (BMap.insert name index (top_streams b)), BStream index)
        end
      else Err ("port `" +:+ port +:+ "` of the AI Engine task `" +:+ child +:+ "` is bound to the memory `" +:+ name
                +:+ "`; AI Engine tasks have no memory path")
  end.

(** *** Kernels *)

Definition is_plural (c : ArgCategory) : bool := match c with Istreams | Ostreams => true | _ => false end.

Definition port_channels (port : Port) : list string :=
  if is_plural (port_cat port)
  then map (fun i => port_name port +:+ "[" +:+ Str.show i +:+ "]") (zrange 0 (default 0 (port_chan_count port)))
  else [port_name port].

Definition bind_channel (task_name : string) (scope : bmap string Binding) (bound : list nat) (channel : string) :
    res AieError (list nat) :=
  match BMap.get channel scope with
  | Some (BStream stream) => Ok (bound ++ [stream])
  | _ => Err ("stream port `" +:+ channel +:+ "` of the AI Engine task `" +:+ task_name +:+ "` is not bound to a stream")
  end.

Definition kernel_port (task_name : string) (scope : bmap string Binding) (port : Port) : res AieError AieKernelPort :=
  let! kind :=
    if is_stream (port_cat port) then
      let! streams := try_fold (bind_channel task_name scope) [] (port_channels port) in
      Ok (Streams (is_input_stream (port_cat port)) (is_plural (port_cat port)) streams (words_of (port_width port)) (port_aie_frame port))
    else if is_scalar (port_cat port) then
      match BMap.get (port_name port) scope with
      | Some (BScalar value) => Ok (ScalarPort (port_ctype port) (port_width port) value)
      | _ => Err ("scalar port `" +:+ port_name port +:+ "` of the AI Engine task `" +:+ task_name
                  +:+ "` is not bound to a top-task scalar or a constant")
      end
    else Err ("the AI Engine task `" +:+ task_name +:+ "` takes the memory port `" +:+ port_name port
              +:+ "`; AI Engine tasks have no memory path") in
  Ok (mkKernelPort (port_name port) kind).

(** The pin that applies to the instance [index]. *)
Definition location_of (pins : list AieLocation) (index : nat) : option (Z * Z) :=
  let? pin := find_first (fun pin => match aie_instance pin with Some i => bool_decide (Z.to_nat i = index) | None => true end) pins in
  Some (aie_col pin, aie_row pin).

Definition kernel (task_name : string) (index : nat) (path : string) (def : Task) (scope : bmap string Binding) :
    res AieError AieKernel :=
  let! ports := try_fold (fun ports port => let! p := kernel_port task_name scope port in Ok (ports ++ [p])) [] (ports def) in
  Ok (mkKernel path task_name (readable_name def) ports (location_of (aie_location def) index) (aie_stack_bytes def) false).

(** *** The hierarchy *)

(** The net of one FIFO of an AI Engine upper task. *)
Definition add_net (g : TaskGraph) (path : string) (def : Task) (s : AiePartition * bmap string Binding)
    (e : string * InterconnectDefinition) : res AieError (AiePartition * bmap string Binding) :=
  let '(p, inner) := s in
  let '(fifo_name, fifo) := e in
  match (match produced_by fifo with Some e => Some e | None => consumed_by fifo end) with
  | None => Ok (p, inner)
  | Some endpoint =>
      let port := default "" (child_port_for def (ep_task endpoint) (ep_index endpoint) fifo_name) in
      let! words := stream_words g (ep_task endpoint) port in
      let! end_task := find_task g (ep_task endpoint) in
      let frame := let? p := task_port end_task port in port_aie_frame p in
      let '(p, stream) := push_stream p (sanitize_identifier_name (path +:+ "__" +:+ fifo_name)) fifo_name words frame
                            (Net (wrap32 (default 0 (fifo_depth fifo) * words))) in
      Ok (p, BMap.insert fifo_name (BStream stream) inner)
  end.

(** The binding of one argument of a child of an AI Engine upper task. *)
Definition child_binding (task_name child : string) (inner scope : bmap string Binding) (child_scope : bmap string Binding)
    (e : string * Arg) : res AieError (bmap string Binding) :=
  let '(port, a) := e in
  let! binding :=
    match arg a with
    | ALiteral value => Ok (BScalar (Constant value))
    | AName name =>
        ok_or (match BMap.get name inner with Some b => Some b | None => BMap.get name scope end)
          ("`" +:+ name +:+ "` bound to `" +:+ child +:+ "." +:+ port +:+ "` in the AI Engine task `" +:+ task_name
           +:+ "` is neither a stream it declares nor one of its ports")
    end in
  Ok (BMap.insert port binding child_scope).

Fixpoint visit (fuel : nat) (g : TaskGraph) (p : AiePartition) (task_name : string) (index : nat) (path : string)
    (scope : bmap string Binding) : res AieError AiePartition :=
  match fuel with
  | O => Panic
  | S fuel' =>
      let! def := find_task g task_name in
      if bool_decide (level def = Lower) then
        let! k := kernel task_name index path def scope in
        Ok (push_kernel p k)
      else
        let! (p, inner) := try_fold (add_net g path def) (p, []) (fifos def) in
        try_fold (fun p '(child, child_index, i) =>
          let! forever := check_invoke_step child (inst_step i) (run_forever p) in
          let! child_scope := try_fold (child_binding task_name child inner scope) [] (inst_args i) in
          let child_path := sanitize_identifier_name (path +:+ "__" +:+ canonical_name i child child_index) in
          visit fuel' g (set_forever p forever) child child_index child_path child_scope) p (task_instances def)
  end.

(** ** Tile pins *)

Definition instances_of (p : AiePartition) (name : string) : nat :=
  length (filter (fun k => k_task k = name) (kernels p)).

Definition check_pin (name : string) (instances : nat) (pin : AieLocation) : res AieError unit :=
  let at_ := Str.show (aie_col pin) +:+ ", " +:+ Str.show (aie_row pin) in
  match aie_instance pin with
  | None =>
      if Nat.ltb 1 instances
      then Err ("[[tapa::aie_location(" +:+ at_ +:+ ")]] on `" +:+ name +:+ "` names no instance, but the task has "
                +:+ Str.show (Z.of_nat instances) +:+ "; add the instance index as a third argument")
      else Ok tt
  | Some i =>
      if Nat.leb instances (Z.to_nat i)
      then Err ("[[tapa::aie_location(" +:+ at_ +:+ ", " +:+ Str.show i +:+ ")]] on `" +:+ name +:+ "` names instance "
                +:+ Str.show i +:+ ", but the task has " +:+ Str.show (Z.of_nat instances))
      else Ok tt
  end.

Definition take_tile (tiles : bmap (Z * Z) string) (k : AieKernel) : res AieError (bmap (Z * Z) string) :=
  match k_location k with
  | None => Ok tiles
  | Some tile =>
      match BMap.get tile tiles with
      | Some other => Err ("the AI Engine kernels `" +:+ other +:+ "` and `" +:+ k_name k +:+ "` are both pinned to tile ("
                           +:+ Str.show tile.1 +:+ ", " +:+ Str.show tile.2 +:+ ")")
      | None => Ok (BMap.insert tile (k_name k) tiles)
      end
  end.

Definition check_locations (g : TaskGraph) (p : AiePartition) : res AieError unit :=
  let! _ := try_each (fun '(name, def) => try_each (check_pin name (instances_of p name)) (aie_location def)) (graph_tasks g) in
  let! _ := try_fold take_tile [] (kernels p) in
  Ok tt.

(** ** Stream cycles *)

(** A node of the stream graph. *)
Inductive Node := Kernel (index : nat) | Pl (task : string) (index : Z).

Definition node_key (n : Node) : nat * (nat * (string * Z)) :=
  match n with Kernel i => (0%nat, (i, ("", 0))) | Pl t i => (1%nat, (0%nat, (t, i))) end.

#[export] Instance node_key_inj : Inj (=) (=) node_key.
Proof. intros [i|t i] [j|u j]; simpl; congruence. Qed.

(** The derived order of the enum: kernels first. *)
#[export] Program Instance ordkey_node : OrdKey Node := {| kcmp a b := kcmp (node_key a) (node_key b) |}.
Next Obligation. intros a b. rewrite kcmp_eq. split; [apply (inj node_key)|by intros ->]. Qed.
Next Obligation. intros. apply kcmp_antisym. Qed.
Next Obligation. intros a b c. apply kcmp_trans. Qed.

Definition edge_set : Type := bmap Node (bmap Node unit).

Definition successors (edges : edge_set) (n : Node) : list Node := BMap.keys (default [] (BMap.get n edges)).

Definition add_edge (from to : Node) (edges : edge_set) : edge_set :=
  BMap.insert from (BMap.insert to tt (default [] (BMap.get from edges))) edges.

(** The search; the head of [stack] is the end of the [Vec]. *)
Fixpoint search (fuel : nat) (edges : edge_set) (start : Node) (seen : list Node) (stack : list Node) : option bool :=
  match fuel with
  | O => None
  | S fuel' =>
      match stack with
      | [] => Some false
      | node :: stack =>
          if bool_decide (node = start) then Some true else
          if bool_decide (node ∈ seen) then search fuel' edges start seen stack
          else search fuel' edges start (node :: seen) (rev (successors edges node) ++ stack)
      end
  end.

Definition count_edges (edges : edge_set) : nat := sum_list (map (fun e : Node * bmap Node unit => length e.2) edges).

Definition reaches_itself (edges : edge_set) (start : Node) : res AieError bool :=
  expect (search (S (count_edges edges)) edges start [] (rev (successors edges start))).

Definition pl_node (g : TaskGraph) (endpoint : option EndpointRef) : option Node :=
  let? e := endpoint in
  let? t := BMap.get (ep_task e) (graph_tasks g) in
  if synth_is_aie t then None else Some (Pl (ep_task e) (ep_index e)).

(** The kernel ends of the streams, in the order they are found: kernel,
    direction, stream. *)
Definition kernel_ends (ks : list AieKernel) : list (nat * bool * nat) :=
  flat_map (fun e => flat_map (fun port =>
    match kp_kind port with
    | Streams input _ ss _ _ => map (fun s => (e.1, input, s)) ss
    | ScalarPort _ _ _ => []
    end) (k_ports e.2)) (enumerate ks).

Definition set_end (ends : list (option Node * option Node)) (e : nat * bool * nat) :
    res AieError (list (option Node * option Node)) :=
  let '(index, input, stream) := e in
  let! (producer, consumer) := expect (ends !! stream) in
  Ok (<[stream := if input then (producer, Some (Kernel index)) else (Some (Kernel index), consumer)]> ends).

Definition or_else {A} (a b : option A) : option A := match a with Some x => Some x | None => b end.

Definition stream_edge (g : TaskGraph) (top_def : Task) (s : AieStream) (ends : option Node * option Node) : option (Node * Node) :=
  let fifo := BMap.get (s_fifo s) (fifos top_def) in
  let? from := or_else ends.1 (pl_node g (let? f := fifo in produced_by f)) in
  let? to := or_else ends.2 (pl_node g (let? f := fifo in consumed_by f)) in
  Some (from, to).

Definition fifo_edge (g : TaskGraph) (fifo : InterconnectDefinition) : option (Node * Node) :=
  let? from := pl_node g (produced_by fifo) in
  let? to := pl_node g (consumed_by fifo) in
  Some (from, to).

Definition add_edges (l : list (Node * Node)) (edges : edge_set) : edge_set :=
  fold_left (fun edges e => add_edge e.1 e.2 edges) l edges.

Definition set_ordered (k : AieKernel) (o : bool) : AieKernel :=
  mkKernel (k_name k) (k_task k) (k_call k) (k_ports k) (k_location k) (k_stack_bytes k) o.

Definition mark_cycles (g : TaskGraph) (top_def : Task) (p : AiePartition) : res AieError AiePartition :=
  let! ends := try_fold set_end (replicate (length (streams p)) (None, None)) (kernel_ends (kernels p)) in
  let edges := add_edges (omap (fun e => stream_edge g top_def e.1 e.2) (zip (streams p) ends)) [] in
  let edges := add_edges (omap (fifo_edge g) (BMap.values (fifos top_def))) edges in
  let! ks := try_fold (fun ks '(index, k) =>
    let! ordered := reaches_itself edges (Kernel index) in Ok (ks ++ [set_ordered k ordered])) [] (enumerate (kernels p)) in
  Ok (mkPartition ks (streams p) (run_forever p)).

(** ** The whole derivation *)

(** An AI Engine task that a PL task other than the top invokes. *)
Definition aie_child (g : TaskGraph) (upper : Task) : option string :=
  find_first (fun child => match BMap.get child (graph_tasks g) with Some t => synth_is_aie t | None => false end) (BMap.keys (tasks upper)).

Definition check_upper (g : TaskGraph) (e : string * Task) : res AieError unit :=
  if bool_decide (e.1 = top g) || synth_is_aie e.2 then Ok tt else
  match aie_child g e.2 with
  | Some child => Err ("the PL task `" +:+ e.1 +:+ "` invokes the AI Engine task `" +:+ child
                       +:+ "`; AI Engine tasks must be invoked by the top task `" +:+ top g +:+ "`")
  | None => Ok tt
  end.

(** One instance the top invokes. *)
Definition derive_instance (fuel : nat) (g : TaskGraph) (child : string) (b : Builder) (e : nat * TaskInstance) : res AieError Builder :=
  let '(index, i) := e in
  let! forever := check_invoke_step child (inst_step i) (run_forever (partition b)) in
  let b := mkBuilder (set_forever (partition b) forever) (top_streams b) in
  let! (b, scope) := try_fold (fun s e =>
    let '(b, scope) := (s : Builder * bmap string Binding) in
    let '(port, a) := (e : string * Arg) in
    let! (b, binding) := top_binding g b child port a in
    Ok (b, BMap.insert port binding scope)) (b, []) (inst_args i) in
  let! p := visit fuel g (partition b) child index (sanitize_identifier_name (canonical_name i child index)) scope in
  Ok (mkBuilder p (top_streams b)).

Definition derive_child (fuel : nat) (g : TaskGraph) (b : Builder) (e : string * list TaskInstance) : res AieError Builder :=
  let! def := find_task g e.1 in
  if negb (synth_is_aie def) then Ok b else try_fold (derive_instance fuel g e.1) b (enumerate e.2).

Definition derive (g : TaskGraph) : res AieError (option AiePartition) :=
  if negb (existsb synth_is_aie (BMap.values (graph_tasks g))) then Ok None else
  let! top_def := find_task g (top g) in
  let! _ := try_each (check_upper g) (graph_tasks g) in
  let! b := try_fold (derive_child (S (length (graph_tasks g))) g) (mkBuilder (mkPartition [] [] false) []) (tasks top_def) in
  let! _ := check_locations g (partition b) in
  let! p := mark_cycles g top_def (partition b) in
  Ok (Some p).

(** ** The PL projection *)

Definition set_fifos (t : Task) (fs : bmap string InterconnectDefinition) : Task := set_children t (tasks t) fs.

Definition push_port (t : Task) (p : Port) : Task :=
  mkTask (level t) (srcs t) (include_dirs t) (defines t) (readable_name t) (synth t) (aie_location t)
    (aie_stack_bytes t) (ports t ++ [p]) (tasks t) (fifos t) (clock_period t) (self_area t) (total_area t).

(** One stream of the partition; [original] is the top task of the graph, the
    accumulator the projected one. *)
Definition project_stream (g : TaskGraph) (original : Task) (t : Task) (s : AieStream) : res AieError Task :=
  match s_kind s with
  | Net _ =>
      match BMap.get (s_fifo s) (fifos t) with
      | Some fifo =>
          if endpoint_is_aie g (produced_by fifo) && endpoint_is_aie g (consumed_by fifo)
          then Ok (set_fifos t (BMap.retain (fun k _ => negb (bool_decide (k = s_fifo s))) (fifos t)))
          else Ok t
      | None => Ok t
      end
  | Plio input width =>
      match BMap.get (s_fifo s) (fifos t) with
      | None => Ok t
      | Some fifo =>
          let cut := if input then mkFifo None None (produced_by fifo) else mkFifo None (consumed_by fifo) None in
          let t := set_fifos t (BMap.insert (s_fifo s) cut (fifos t)) in
          let! endpoint := ok_or (if input then produced_by fifo else consumed_by fifo)
            ("the PL side of stream `" +:+ s_fifo s +:+ "` is not connected") in
          let port_name := default "" (child_port_for original (ep_task endpoint) (ep_index endpoint) (s_fifo s)) in
          let! def := find_task g (ep_task endpoint) in
          let! pl_port := ok_or (task_port def port_name)
            ("the task `" +:+ ep_task endpoint +:+ "` has no port `" +:+ port_name +:+ "`") in
          Ok (push_port t (mkPort (if input then Ostream else Istream) (s_fifo s) (port_ctype pl_port) (port_width pl_port)
                             None None None (Some width) None None))
      end
  end.

Definition has_control (t : Task) : bool := existsb (fun p => is_scalar (port_cat p) || is_mmap_like (port_cat p)) (ports t).

Definition pl_projection (p : AiePartition) (g : TaskGraph) : res AieError TaskGraph :=
  let pl_tasks := BMap.retain (fun _ t => negb (synth_is_aie t)) (graph_tasks g) in
  let! original := find_task g (top g) in
  let! t := ok_or (BMap.get (top g) pl_tasks) ("the task graph has no task `" +:+ top g +:+ "`") in
  let t := set_children t (BMap.retain (fun child _ => BMap.contains_key child pl_tasks) (tasks t)) (fifos t) in
  let! t := try_fold (project_stream g original) t (streams p) in
  if negb (has_control t)
  then Err ("the top task `" +:+ top g +:+ "` keeps only stream ports beside the AI Engine graph; a hybrid top needs at least one "
            +:+ "scalar or memory-mapped argument so Vitis emits `ap_ctrl_hs` and XRT can start and wait on the PL kernel, not the "
            +:+ "`ap_ctrl_none` of a free-running one")
  else Ok (mkGraph (schema_version g) (top g) (target g) (cflags g) (BMap.insert (top g) t pl_tasks)).
