(* ===== verification/AieProps.v ===== *)
(** * Properties of the AI Engine partition *)

From S2P Require Import Prelude RustStd BTreeMap Geometry Names Ir Flatten FlattenSpec Aie.

(** ** The search for a cycle *)

Section cycle.
Context (edges : edge_set) (start : Node).

Definition succ (a b : Node) : Prop := b ∈ successors edges a.

(** The edges out of the nodes that satisfy [p]. *)
Definition weight (p : Node -> bool) (l : edge_set) : nat :=
  sum_list (map (fun e : Node * bmap Node unit => if p e.1 then length e.2 else 0%nat) l).

Lemma weight_drop (p q : Node -> bool) n l : (forall m, q m = true -> p m = true) -> p n = true -> q n = false ->
  (length (default [] (BMap.get n l)) + weight q l <= weight p l)%nat.
Proof.
  intros Hqp Hp Hq. assert (Hle : forall l, (weight q l <= weight p l)%nat).
  { induction l0 as [|e l0 IH]; [done|]. unfold weight in *. simpl. specialize (Hqp e.1). destruct (q e.1), (p e.1); naive_solver lia. }
  induction l as [|[k v] l IH]; [unfold weight; simpl; lia|]. change (weight p ((k, v) :: l)) with ((if p k then length v else 0) + weight p l)%nat.
  change (weight q ((k, v) :: l)) with ((if q k then length v else 0) + weight q l)%nat. cbn [BMap.get].
  destruct (kcmp n k) eqn:E.
  - apply kcmp_eq in E as <-. cbn [default]. rewrite Hp, Hq. unfold id. specialize (Hle l). lia.
  - specialize (Hqp k). destruct (q k), (p k); naive_solver lia.
  - specialize (Hqp k). destruct (q k), (p k); naive_solver lia.
Qed.

Lemma elem_of_rev {A} (x : A) l : x ∈ l -> x ∈ rev l.
Proof. by rewrite !list_elem_of_In, <- in_rev. Qed.

Definition open_nodes (seen : list Node) (n : Node) : bool := negb (bool_decide (n = start)) && negb (bool_decide (n ∈ seen)).

Lemma search_ends fuel : forall seen stack, (length stack + weight (open_nodes seen) edges < fuel)%nat ->
  exists b, search fuel edges start seen stack = Some b.
Proof.
  induction fuel as [|fuel IH]; intros seen stack Hf; [lia|]. simpl. destruct stack as [|n stack]; [by exists false|].
  case_bool_decide as Hs; [by exists true|]. case_bool_decide as Hn; [apply IH; simpl in Hf; lia|].
  apply IH. rewrite length_app, length_rev. unfold successors, BMap.keys. rewrite length_map.
  pose proof (weight_drop (open_nodes seen) (open_nodes (n :: seen)) n edges) as Hw. simpl in Hf.
  enough (length (default [] (BMap.get n edges)) + weight (open_nodes (n :: seen)) edges <= weight (open_nodes seen) edges)%nat by lia.
  apply Hw; unfold open_nodes.
  - intros m. rewrite !andb_true_iff, !negb_true_iff, !bool_decide_eq_false, elem_of_cons. naive_solver.
  - by rewrite !bool_decide_false.
  - rewrite andb_false_iff, !negb_false_iff, !bool_decide_eq_true, elem_of_cons. by right; left.
Qed.

Lemma search_true fuel : forall seen stack, Forall (tc succ start) stack ->
  search fuel edges start seen stack = Some true -> tc succ start start.
Proof.
  induction fuel as [|fuel IH]; intros seen stack Hs H; [done|]. simpl in H. destruct stack as [|n stack]; [done|].
  apply Forall_cons in Hs as [Hn Hs]. case_bool_decide; [by subst|]. case_bool_decide; [by apply IH in H|].
  apply IH in H; [done|]. apply Forall_app. split; [|done]. apply Forall_rev, Forall_forall. intros m Hm. by eapply tc_r.
Qed.

Lemma search_false fuel : forall seen stack, start ∉ seen -> (forall n m, n ∈ seen -> succ n m -> m ∈ seen \/ m ∈ stack) ->
  search fuel edges start seen stack = Some false ->
  exists closed, seen ⊆ closed /\ stack ⊆ closed /\ start ∉ closed /\ forall n m, n ∈ closed -> succ n m -> m ∈ closed.
Proof.
  induction fuel as [|fuel IH]; intros seen stack Hs Hc H; [done|]. simpl in H. destruct stack as [|n stack].
  - exists seen. split_and!; [done| |done|].
    + intros x Hx. by apply not_elem_of_nil in Hx.
    + intros n m Hn Hm. destruct (Hc n m Hn Hm) as [?|Hx]; [done|]. by apply not_elem_of_nil in Hx.
  - case_bool_decide as Hne; [done|]. case_bool_decide as Hn.
    + apply IH in H as (cl & H1 & H2 & H3 & H4); [|done|].
      * exists cl. split_and!; [done| |done|done]. intros x [->|Hx]%elem_of_cons; [by apply H1|by apply H2].
      * intros a b Ha Hb. destruct (Hc a b Ha Hb) as [?|[->|?]%elem_of_cons]; [by left|by left|by right].
    + apply IH in H as (cl & H1 & H2 & H3 & H4).
      * exists cl. split_and!; [|intros x [->|Hx]%elem_of_cons| |done]; [intros x Hx; apply H1; by right|apply H1; by left|apply H2, elem_of_app; by right|done].
      * intros [->|?]%elem_of_cons; done.
      * intros a b [->|Ha]%elem_of_cons Hb; [right; apply elem_of_app; left; by apply elem_of_rev|].
        destruct (Hc a b Ha Hb) as [?|[->|?]%elem_of_cons]; [left; by right|left; by left|right; apply elem_of_app; by right].
Qed.
End cycle.

Lemma reaches_itself_spec edges start : exists b, reaches_itself edges start = Ok b /\ (b = true <-> tc (succ edges) start start).
Proof.
  destruct (search_ends edges start (S (count_edges edges)) [] (rev (successors edges start))) as [b Hb].
  { rewrite length_rev. unfold successors, BMap.keys. rewrite length_map. apply le_n_S.
    transitivity (length (default [] (BMap.get start edges)) + weight (open_nodes start []) edges)%nat; [done|].
    transitivity (weight (fun _ => true) edges); [|done]. apply weight_drop; [done|done|]. unfold open_nodes. by rewrite bool_decide_true. }
  exists b. unfold reaches_itself. rewrite Hb. split; [done|]. split.
  - intros ->. eapply search_true; [|exact Hb]. apply Forall_rev, Forall_forall. intros m Hm. by apply tc_once.
  - intros Ht. destruct b; [done|]. apply search_false in Hb as (cl & _ & H2 & H3 & H4); [|apply not_elem_of_nil|].
    + exfalso. apply H3. assert (Hin : forall a, tc (succ edges) start a -> a ∈ cl).
      { apply tc_ind_r; [|by intros y z _ Hyz Hy; apply (H4 y)]. intros z Hz. by apply H2, elem_of_rev. }
      by apply Hin.
    + intros n m Hn. by apply not_elem_of_nil in Hn.
Qed.

Lemma elem_of_successors_add from to edges n m :
  m ∈ successors (add_edge from to edges) n <-> (n = from /\ m = to) \/ m ∈ successors edges n.
Proof.
  unfold successors, add_edge. rewrite BMap.get_insert. destruct (decide (n = from)) as [->|Hne]; simpl; [|naive_solver].
  rewrite !list_elem_of_In, BMap.In_keys_insert. naive_solver.
Qed.

Lemma elem_of_successors l edges n m : m ∈ successors (add_edges l edges) n <-> (n, m) ∈ l \/ m ∈ successors edges n.
Proof.
  revert edges. induction l as [|[a b] l IH]; intros edges; [simpl; split; [by right|]; intros [H|]; [by apply not_elem_of_nil in H|done]|].
  simpl. rewrite IH, elem_of_successors_add, elem_of_cons. naive_solver.
Qed.

(** ** The stream graph *)

(** The kernel at one end of a stream: the last one found. *)
Definition claim (input : bool) (j : nat) (e : nat * bool * nat) : option nat :=
  if bool_decide (e.1.2 = input /\ e.2 = j) then Some e.1.1 else None.

Definition kernel_end (l : list (nat * bool * nat)) (input : bool) (j : nat) : option Node := option_map Kernel (last (omap (claim input j) l)).

Lemma kernel_end_snoc l i input' j' input j :
  kernel_end (l ++ [(i, input', j')]) input j = if bool_decide (input' = input /\ j' = j) then Some (Kernel i) else kernel_end l input j.
Proof.
  unfold kernel_end. rewrite omap_app. simpl. unfold claim at 2. simpl. case_bool_decide; [by rewrite last_snoc|by rewrite app_nil_r].
Qed.

Lemma set_ends_ok l n ends : try_fold set_end (replicate n (None, None)) l = Ok ends ->
  length ends = n /\ forall j, (j < n)%nat -> ends !! j = Some (kernel_end l false j, kernel_end l true j).
Proof.
  intros H. refine (try_fold_ind (fun done acc => length acc = n /\ forall j, (j < n)%nat -> acc !! j = Some (kernel_end done false j, kernel_end done true j)) _ _ _ _ _ _ H).
  - split; [by rewrite length_replicate|]. intros j Hj. by apply lookup_replicate.
  - clear H. intros l1 [[i input] j'] l2 a a' -> [Hl Ha] Hs. unfold set_end in Hs. apply rbind_ok in Hs as ([pr co] & Hj'%expect_ok & [= <-]).
    split; [by rewrite length_insert|]. intros j Hj. rewrite !kernel_end_snoc. assert (Hj'n : (j' < n)%nat) by (rewrite <- Hl; by eapply lookup_lt_Some).
    pose proof (Ha j' Hj'n) as E. rewrite Hj' in E. injection E as -> ->. destruct (decide (j = j')) as [->|Hne].
    + rewrite list_lookup_insert_eq by (by rewrite Hl). destruct input; by repeat case_bool_decide; naive_solver.
    + rewrite list_lookup_insert_ne by done. rewrite Ha by done. by repeat case_bool_decide; naive_solver.
Qed.

Lemma set_ends_total l n : Forall (fun e => (e.2 < n)%nat) l -> exists ends, try_fold set_end (replicate n (None, None)) l = Ok ends.
Proof.
  intros Hl. enough (forall acc, length acc = n -> exists ends, try_fold set_end acc l = Ok ends) as H by (apply H, length_replicate).
  induction Hl as [|[[i input] j] l Hj _ IH]; intros acc Ha; [by exists acc|]. simpl in *.
  destruct (lookup_lt_is_Some_2 acc j) as [[pr co] E]; [by rewrite Ha|]. rewrite E. simpl. apply IH. by rewrite length_insert.
Qed.

(** What flows where: the two ends of a stream of the partition, or of a FIFO
    between PL instances of the top task.  A stream without a kernel at one end
    has the PL instance there that the FIFO of its name in the top task has. *)
Inductive flows (g : TaskGraph) (top_def : Task) (p : AiePartition) : Node -> Node -> Prop :=
| flow_stream j s from to : streams p !! j = Some s ->
    or_else (kernel_end (kernel_ends (kernels p)) false j) (pl_node g (let? f := BMap.get (s_fifo s) (fifos top_def) in produced_by f)) = Some from ->
    or_else (kernel_end (kernel_ends (kernels p)) true j) (pl_node g (let? f := BMap.get (s_fifo s) (fifos top_def) in consumed_by f)) = Some to ->
    flows g top_def p from to
| flow_fifo name f from to : In (name, f) (fifos top_def) ->
    pl_node g (produced_by f) = Some from -> pl_node g (consumed_by f) = Some to -> flows g top_def p from to.

Lemma fifo_edges g top_def p n m : (n, m) ∈ omap (fifo_edge g) (BMap.values (fifos top_def)) -> flows g top_def p n m.
Proof.
  intros H. apply list_elem_of_omap in H as (f & Hf & E). unfold BMap.values in Hf. rewrite list_elem_of_In in Hf.
  apply in_map_iff in Hf as ([name f'] & <- & Hin). unfold fifo_edge in E. destruct (pl_node g (produced_by _)) eqn:E1; [|done].
  destruct (pl_node g (consumed_by _)) eqn:E2; [|done]. injection E as -> ->. by eapply flow_fifo.
Qed.

Lemma flows_edges g top_def p ends n m :
  (forall j, (j < length (streams p))%nat -> ends !! j = Some (kernel_end (kernel_ends (kernels p)) false j, kernel_end (kernel_ends (kernels p)) true j)) ->
  flows g top_def p n m <->
  (n, m) ∈ omap (fun e => stream_edge g top_def e.1 e.2) (zip (streams p) ends) \/ (n, m) ∈ omap (fifo_edge g) (BMap.values (fifos top_def)).
Proof.
  intros He. split.
  - intros [j s from to Hj Hf Ht|name f from to Hin Hf Ht].
    + left. apply list_elem_of_omap. exists (s, (kernel_end (kernel_ends (kernels p)) false j, kernel_end (kernel_ends (kernels p)) true j)). split.
      * apply list_elem_of_lookup. exists j. apply lookup_zip_Some. split; [done|]. apply He. by eapply lookup_lt_Some.
      * unfold stream_edge. simpl in Hf, Ht |- *. by rewrite Hf, Ht.
    + right. apply list_elem_of_omap. exists f. split; [|unfold fifo_edge; by rewrite Hf, Ht].
      unfold BMap.values. apply list_elem_of_In, in_map_iff. by exists (name, f).
  - intros [H|H]; [|by apply fifo_edges]. apply list_elem_of_omap in H as ([s [pr co]] & Hin & E).
    apply list_elem_of_lookup in Hin as [j Hj]. apply lookup_zip_Some in Hj as [Hs Hj]. rewrite He in Hj by (by eapply lookup_lt_Some).
    injection Hj as <- <-. unfold stream_edge in E. cbn [fst snd] in E.
    do 2 (match type of E with match ?x with _ => _ end = _ => destruct x eqn:? end; [|done]). injection E as <- <-. by apply (flow_stream g top_def p j s).
Qed.

Lemma try_fold_map {E A B} (f : A -> res E B) l out acc :
  try_fold (fun acc x => let! y := f x in Ok (acc ++ [y])) acc l = Ok out <-> exists ys, out = acc ++ ys /\ Forall2 (fun x y => f x = Ok y) l ys.
Proof.
  revert acc. induction l as [|x l IH]; intros acc; simpl.
  - split; [intros [= <-]; exists []; by rewrite app_nil_r|]. intros (ys & -> & H). inversion H; subst. by rewrite app_nil_r.
  - rewrite rbind_ok. setoid_rewrite rbind_ok. split.
    + intros (a & (y & Hy & [= <-]) & Hr). apply IH in Hr as (ys & -> & HF). exists (y :: ys). rewrite <- app_assoc. split; [done|]. by constructor.
    + intros (ys & -> & H). inversion H as [|? y ? ys' Hy Hys]; subst. exists (acc ++ [y]). split; [by exists y|]. apply IH. exists ys'. by rewrite <- app_assoc.
Qed.

(** The result of [mark_cycles]: the partition, with a flag for each kernel. *)
Record marked (g : TaskGraph) (top_def : Task) (p q : AiePartition) : Prop := {
  mk_streams : streams q = streams p;
  mk_forever : run_forever q = run_forever p;
  mk_kernels : Forall2 (fun k k' => exists o, k' = set_ordered k o) (kernels p) (kernels q);
  mk_ordered : forall i k, kernels q !! i = Some k -> k_ordered k = true <-> tc (flows g top_def q) (Kernel i) (Kernel i);
}.

Lemma kernel_ends_ordered ks ks' : Forall2 (fun k k' => exists o, k' = set_ordered k o) ks ks' -> kernel_ends ks' = kernel_ends ks.
Proof.
  intros H. unfold kernel_ends, enumerate. rewrite (Forall2_length _ _ _ H). generalize (seq 0 (length ks')). induction H as [|k k' ks ks' [o ->] _ IH]; intros l; [by destruct l|].
  destruct l as [|i l]; [done|]. simpl. by rewrite IH.
Qed.

Lemma flows_ordered g top_def p q n m : streams q = streams p -> kernel_ends (kernels q) = kernel_ends (kernels p) ->
  flows g top_def q n m <-> flows g top_def p n m.
Proof.
  intros Hs Hk. split; intros [j s from to Hj Hf Ht|name f from to Hin Hf Ht]; try (by eapply flow_fifo).
  - rewrite Hs, ?Hk in *. by eapply flow_stream.
  - rewrite <- Hs, <- ?Hk in *. by eapply flow_stream.
Qed.

Lemma mark_kernels_ok edges ks ks' :
  try_fold (fun ks '(index, k) => let! ordered := reaches_itself edges (Kernel index) in Ok (ks ++ [set_ordered k ordered])) [] (enumerate ks) = Ok ks' ->
  Forall2 (fun k k' => exists o, k' = set_ordered k o) ks ks' /\
  forall i k', ks' !! i = Some k' -> reaches_itself edges (Kernel i) = Ok (k_ordered k').
Proof.
  intros H. assert (HF : Forall2 (fun e k' => reaches_itself edges (Kernel e.1) = Ok (k_ordered k') /\ k' = set_ordered e.2 (k_ordered k')) (enumerate ks) ks').
  { refine (try_fold_ind (fun done acc => Forall2 (fun (e : nat * AieKernel) k' => reaches_itself edges (Kernel e.1) = Ok (k_ordered k') /\ k' = set_ordered e.2 (k_ordered k')) done acc) _ _ _ _ _ _ H).
    - constructor.
    - intros l1 [i k] l2 a a' _ Ha Hs. apply rbind_ok in Hs as (o & Ho & [= <-]). apply Forall2_app; [done|]. by repeat constructor. }
  assert (Hl : length ks' = length ks) by (rewrite <- (Forall2_length _ _ _ HF); apply length_enumerate).
  split.
  - apply Forall2_same_length_lookup_2; [done|]. intros i k k' Hk Hk'. destruct (Forall2_lookup_r _ _ _ _ _ HF Hk') as ([j k0] & E & _ & ->).
    apply lookup_enumerate in E as [_ E]. simpl in E. rewrite Hk in E. injection E as <-. by eexists.
  - intros i k' Hk'. destruct (Forall2_lookup_r _ _ _ _ _ HF Hk') as ([j k0] & E & Ho & _). apply lookup_enumerate in E as [<- _]. exact Ho.
Qed.

Lemma mark_cycles_ok g top_def p q : mark_cycles g top_def p = Ok q -> marked g top_def p q.
Proof.
  intros H. unfold mark_cycles in H. apply rbind_ok in H as (ends & He & H). cbv zeta in H. apply rbind_ok in H as (ks & Hk & [= <-]).
  apply set_ends_ok in He as [_ He]. apply mark_kernels_ok in Hk as [Hk Ho]. split; [done|done|exact Hk|]. intros i k Hi. simpl in Hi.
  apply Ho in Hi. match type of Hi with reaches_itself ?e _ = _ => destruct (reaches_itself_spec e (Kernel i)) as (b & Hb & Hspec); set (edges := e) in * end.
  rewrite Hi in Hb. injection Hb as <-. rewrite Hspec.
  assert (Hiff : forall n m, flows g top_def (mkPartition ks (streams p) (run_forever p)) n m <-> succ edges n m).
  { intros n m. rewrite (flows_ordered g top_def p); [|done|by apply kernel_ends_ordered]. rewrite (flows_edges _ _ _ _ _ _ He). unfold succ, edges.
    rewrite !elem_of_successors. unfold successors. simpl. rewrite elem_of_nil. naive_solver. }
  split; apply tc_congruence with (f := fun x => x); intros n m; apply Hiff.
Qed.

Lemma mark_cycles_total g top_def p : Forall (fun e => (e.2 < length (streams p))%nat) (kernel_ends (kernels p)) -> mark_cycles g top_def p <> Panic.
Proof.
  intros H. unfold mark_cycles. destruct (set_ends_total _ _ H) as [ends ->]. cbn [rbind]. cbv zeta.
  match goal with |- context [reaches_itself ?e _] => set (edges := e) in * end.
  enough (forall l acc, exists ks, try_fold (fun ks '(index, k) => let! ordered := reaches_itself edges (Kernel index) in Ok (ks ++ [set_ordered k ordered])) acc l = Ok ks) as Hl.
  { destruct (Hl (enumerate (kernels p)) []) as [ks ->]. done. }
  induction l as [|[i k] l IH]; intros acc; simpl; [by exists acc|]. destruct (reaches_itself_spec edges (Kernel i)) as (b & -> & _). simpl. apply IH.
Qed.

(** ** What a run of [visit] adds *)

(** A port of a kernel, for a port of its task; [n] streams are known. *)
Definition port_at (n : nat) (port : Port) (kp : AieKernelPort) : Prop :=
  kp_name kp = port_name port /\
  match kp_kind kp with
  | Streams input plural ss words frame =>
      is_stream (port_cat port) = true /\ input = is_input_stream (port_cat port) /\ plural = is_plural (port_cat port) /\
      length ss = length (port_channels port) /\ Forall (fun s => (s < n)%nat) ss /\ words = words_of (port_width port) /\ frame = port_aie_frame port
  | ScalarPort ctype width _ => is_scalar (port_cat port) = true /\ ctype = port_ctype port /\ width = port_width port
  end.

(** The kernel of a leaf: its path, task, and index. *)
Definition kernel_at (g : TaskGraph) (n : nat) (leaf : string * string * nat) (k : AieKernel) : Prop :=
  let '(path, task_name, index) := leaf in
  exists def, BMap.get task_name (graph_tasks g) = Some def /\ level def = Lower /\
    k_name k = path /\ k_task k = task_name /\ k_call k = readable_name def /\ k_stack_bytes k = aie_stack_bytes def /\
    k_location k = location_of (aie_location def) index /\ Forall2 (port_at n) (ports def) (k_ports k).

(** The leaves under an instance, in the order of the invocations. *)
Fixpoint leaves (fuel : nat) (g : TaskGraph) (task_name : string) (index : nat) (path : string) : list (string * string * nat) :=
  match fuel, BMap.get task_name (graph_tasks g) with
  | S fuel', Some def =>
      if bool_decide (level def = Lower) then [(path, task_name, index)]
      else flat_map (fun e => leaves fuel' g e.1.1 e.1.2 (sanitize_identifier_name (path +:+ "__" +:+ canonical_name e.2 e.1.1 e.1.2)))
             (task_instances def)
  | _, _ => []
  end.

(** The invoke steps under an instance. *)
Fixpoint steps (fuel : nat) (g : TaskGraph) (task_name : string) : list Z :=
  match fuel, BMap.get task_name (graph_tasks g) with
  | S fuel', Some def =>
      if bool_decide (level def = Lower) then [] else flat_map (fun e => inst_step e.2 :: steps fuel' g e.1.1) (task_instances def)
  | _, _ => []
  end.

Definition is_net (s : AieStream) : Prop := match s_kind s with Net _ => True | Plio _ _ => False end.

Definition detached (step : Z) : bool := step <? 0.

Record visited (g : TaskGraph) (p p' : AiePartition) (ls : list (string * string * nat)) (ss : list Z) : Prop := {
  v_streams : exists nets, streams p' = streams p ++ nets /\ Forall is_net nets;
  v_kernels : exists ks, kernels p' = kernels p ++ ks /\ Forall2 (kernel_at g (length (streams p'))) ls ks;
  v_forever : run_forever p' = run_forever p || existsb detached ss;
  v_steps : Forall (fun s => s <= 0) ss;
}.

Definition scope_ok (n : nat) (scope : bmap string Binding) : Prop :=
  forall name i, BMap.get name scope = Some (BStream i) -> (i < n)%nat.

Lemma port_at_mono n m port kp : (n <= m)%nat -> port_at n port kp -> port_at m port kp.
Proof.
  intros Hle [H1 H2]. split; [done|]. destruct (kp_kind kp); [|done]. destruct H2 as (? & ? & ? & ? & HF & ?). split_and!; try tauto.
  eapply Forall_impl; [exact HF|]. simpl. lia.
Qed.

Lemma kernel_at_mono g n m leaf k : (n <= m)%nat -> kernel_at g n leaf k -> kernel_at g m leaf k.
Proof.
  destruct leaf as [[path t] i]. intros Hle (def & ? & ? & ? & ? & ? & ? & ? & HF). exists def. split_and!; [done..|].
  eapply Forall2_impl; [exact HF|]. intros a b. by apply port_at_mono.
Qed.

Lemma visited_nil g p : visited g p p [] [].
Proof. split; [exists []; by rewrite app_nil_r|exists []; rewrite app_nil_r; by split|by rewrite orb_false_r|constructor]. Qed.

Lemma visited_grows g p p' ls ss : visited g p p' ls ss -> (length (streams p) <= length (streams p'))%nat.
Proof. intros [(nets & -> & _) _ _ _]. rewrite length_app. lia. Qed.

Lemma visited_trans g p q r l1 l2 s1 s2 : visited g p q l1 s1 -> visited g q r l2 s2 -> visited g p r (l1 ++ l2) (s1 ++ s2).
Proof.
  intros H1 H2. pose proof (visited_grows _ _ _ _ _ H2) as Hle. destruct H1 as [(n1 & E1 & F1) (k1 & K1 & G1) R1 S1]. destruct H2 as [(n2 & E2 & F2) (k2 & K2 & G2) R2 S2]. split.
  - exists (n1 ++ n2). split; [by rewrite E2, E1, app_assoc|by apply Forall_app].
  - exists (k1 ++ k2). split; [by rewrite K2, K1, app_assoc|]. apply Forall2_app; [|done]. eapply Forall2_impl; [exact G1|]. intros a b. by apply kernel_at_mono.
  - by rewrite R2, R1, existsb_app, orb_assoc.
  - by apply Forall_app.
Qed.

Lemma scope_ok_mono n m scope : (n <= m)%nat -> scope_ok n scope -> scope_ok m scope.
Proof. intros Hle H name i Hi. specialize (H name i Hi). lia. Qed.

Lemma scope_ok_insert n name b scope : scope_ok n scope -> (forall i, b = BStream i -> (i < n)%nat) -> scope_ok n (BMap.insert name b scope).
Proof. intros H Hb m i. rewrite BMap.get_insert. destruct (decide (m = name)); [|by apply H]. intros [= ->]. by apply Hb. Qed.

Lemma find_task_ok g name def : find_task g name = Ok def <-> BMap.get name (graph_tasks g) = Some def.
Proof. apply ok_or_ok. Qed.

Lemma kernel_port_ok task_name scope n port kp : scope_ok n scope -> kernel_port task_name scope port = Ok kp -> port_at n port kp.
Proof.
  intros Hs H. unfold kernel_port in H. apply rbind_ok in H as (kind & Hk & [= <-]). split; [done|]. simpl. destruct (is_stream (port_cat port)) eqn:Est.
  - apply rbind_ok in Hk as (ss & Hss & [= <-]). split_and!; [done..| | |done|done].
    + refine (try_fold_ind (fun done acc => length acc = length done) _ _ _ _ _ _ Hss); [done|]. intros l1 c l2 a a' _ Ha Hb. unfold bind_channel in Hb.
      destruct (BMap.get c scope) as [[s|]|]; [|done..]. injection Hb as <-. rewrite !length_app. simpl. lia.
    + refine (try_fold_inv (Forall (fun s => (s < n)%nat)) _ _ _ _ _ _ Hss); [|constructor]. intros a c a' _ Ha Hb. unfold bind_channel in Hb.
      destruct (BMap.get c scope) as [[s|]|] eqn:E; [|done..]. injection Hb as <-. apply Forall_app. split; [done|]. apply Forall_singleton. by eapply Hs.
  - destruct (is_scalar (port_cat port)) eqn:Esc; [|done]. destruct (BMap.get _ scope) as [[|v]|]; [done| |done]. by injection Hk as <-.
Qed.

Lemma kernel_ok g task_name index path def scope n k : BMap.get task_name (graph_tasks g) = Some def -> level def = Lower -> scope_ok n scope ->
  kernel task_name index path def scope = Ok k -> kernel_at g n (path, task_name, index) k.
Proof.
  intros Hg Hl Hs H. unfold kernel in H. apply rbind_ok in H as (ps & Hps & [= <-]). apply try_fold_map in Hps as (ys & -> & HF). exists def.
  split_and!; [done..|]. simpl. eapply Forall2_impl; [exact HF|]. intros a b. by apply kernel_port_ok.
Qed.

Lemma inner_net_ok g path def p inner e p' inner' : scope_ok (length (streams p)) inner -> add_net g path def (p, inner) e = Ok (p', inner') ->
  visited g p p' [] [] /\ scope_ok (length (streams p')) inner'.
Proof.
  intros Hs H. unfold add_net in H. destruct e as [name fifo]. destruct (match produced_by fifo with Some e => Some e | None => consumed_by fifo end) as [en|].
  - cbv zeta in H. apply rbind_ok in H as (words & _ & H). apply rbind_ok in H as (t & _ & H). unfold push_stream in H. injection H as <- <-. simpl. split.
    + split; simpl; [eexists; split; [done|by repeat constructor]|exists []; rewrite app_nil_r; by split|by rewrite orb_false_r|constructor].
    + rewrite length_app. simpl. apply scope_ok_insert; [eapply scope_ok_mono; [|exact Hs]; lia|]. intros i [= <-]. lia.
  - injection H as <- <-. split; [apply visited_nil|done].
Qed.

Lemma add_nets_ok g path def l p inner p' inner' : scope_ok (length (streams p)) inner -> try_fold (add_net g path def) (p, inner) l = Ok (p', inner') ->
  visited g p p' [] [] /\ scope_ok (length (streams p')) inner'.
Proof.
  intros Hs H. refine (try_fold_inv (fun s : AiePartition * bmap string Binding => visited g p s.1 [] [] /\ scope_ok (length (streams s.1)) s.2) _ _ _ _ _ _ H).
  - intros [p1 i1] e [p2 i2] _ [Hv Hi] He. apply inner_net_ok in He as [Hv' Hi']; [|done]. split; [|done]. by apply (visited_trans g p p1 p2 [] [] [] []).
  - split; [apply visited_nil|done].
Qed.

Lemma child_scope_ok n task_name child inner scope args out : scope_ok n inner -> scope_ok n scope ->
  try_fold (child_binding task_name child inner scope) [] args = Ok out -> scope_ok n out.
Proof.
  intros Hi Hs H. refine (try_fold_inv (scope_ok n) _ _ _ _ _ _ H); [|done]. intros a [port x] a' _ Ha Hb. unfold child_binding in Hb.
  apply rbind_ok in Hb as (b & Hb & [= <-]). apply scope_ok_insert; [done|]. intros i ->. destruct (arg x) as [name|v]; [|done].
  apply ok_or_ok in Hb. destruct (BMap.get name inner) as [b|] eqn:E; [injection Hb as ->; by eapply Hi|by eapply Hs].
Qed.

Lemma set_forever_ok g p child step forever : check_invoke_step child step (run_forever p) = Ok forever -> visited g p (set_forever p forever) [] [step].
Proof.
  unfold check_invoke_step. destruct (Z.ltb_spec 0 step); [done|]. intros [= <-]. split; simpl.
  - exists []. by rewrite app_nil_r.
  - exists []. rewrite app_nil_r. by split.
  - unfold detached. by rewrite orb_false_r.
  - by repeat constructor.
Qed.

Lemma visited_bind g p q r l s1 s2 s : visited g p q [] s1 -> visited g q r l s2 -> s = s1 ++ s2 -> visited g p r l s.
Proof. intros H1 H2 ->. by apply (visited_trans g p q r [] l). Qed.

Lemma visit_ok fuel g : forall p task_name index path scope p', scope_ok (length (streams p)) scope ->
  visit fuel g p task_name index path scope = Ok p' -> visited g p p' (leaves fuel g task_name index path) (steps fuel g task_name).
Proof.
  induction fuel as [|fuel IH]; intros p tn idx path scope p' Hs H; [done|]. cbn [visit] in H.
  apply rbind_ok in H as (def & Hdef%find_task_ok & H). cbn [leaves steps]. rewrite Hdef. case_bool_decide as Hl.
  - apply rbind_ok in H as (k & Hk & [= <-]). split; simpl.
    + exists []. by rewrite app_nil_r.
    + exists [k]. split; [done|]. repeat constructor. by eapply kernel_ok.
    + by rewrite orb_false_r.
    + constructor.
  - apply rbind_ok in H as ([p1 inner] & Hn & H). apply add_nets_ok in Hn as [Hv Hi]; [|by intros n i].
    assert (Hs1 : scope_ok (length (streams p1)) scope) by (eapply scope_ok_mono; [by eapply visited_grows|done]).
    eapply visited_bind; [exact Hv| |done].
    refine (try_fold_ind (fun done q => visited g p1 q
      (flat_map (fun e => leaves fuel g e.1.1 e.1.2 (sanitize_identifier_name (path +:+ "__" +:+ canonical_name e.2 e.1.1 e.1.2))) done)
      (flat_map (fun e => inst_step e.2 :: steps fuel g e.1.1) done)) _ _ _ _ _ _ H); [apply visited_nil|].
    intros l1 [[child ci] i] l2 a a' _ Ha Hb. apply rbind_ok in Hb as (fo & Hfo%(set_forever_ok g) & Hb). apply rbind_ok in Hb as (cs & Hcs & Hb).
    pose proof (visited_grows _ _ _ _ _ Ha) as Hle.
    apply (child_scope_ok (length (streams a))) in Hcs; [|eapply scope_ok_mono; done..]. apply IH in Hb; [|exact Hcs].
    rewrite !flat_map_app. apply (visited_trans g p1 a a'); [exact Ha|]. simpl. rewrite !app_nil_r.
    by eapply visited_bind.
Qed.

(** ** The instances the top invokes *)

(** A stream of the top task; [f] is its FIFO. *)
Definition top_stream_ok (g : TaskGraph) (top_def : Task) (s : AieStream) : Prop :=
  exists f, BMap.get (s_fifo s) (fifos top_def) = Some f /\ is_Some (fifo_depth f) /\
    match s_kind s with
    | Net depth => endpoint_is_aie g (produced_by f) = true /\ endpoint_is_aie g (consumed_by f) = true /\
        depth = wrap32 (default 0 (fifo_depth f) * s_words s)
    | Plio input width =>
        input = negb (endpoint_is_aie g (produced_by f)) /\ endpoint_is_aie g (produced_by f) && endpoint_is_aie g (consumed_by f) = false /\
        In width [32; 64; 128] /\ wrap32 (s_words s * 32) <= 128
    end.

(** Every stream of an instance of the top is known. *)
Definition known_args (streams : bmap string nat) (i : TaskInstance) : Prop :=
  forall port a name, In (port, a) (inst_args i) -> arg a = AName name -> is_stream (cat a) = true -> is_Some (BMap.get name streams).

Record built (g : TaskGraph) (top_def : Task) (b : Builder) (ls : list (string * string * nat)) (ss : list Z) (insts : list TaskInstance) : Prop := {
  bt_kernels : Forall2 (kernel_at g (length (streams (partition b)))) ls (kernels (partition b));
  bt_forever : run_forever (partition b) = existsb detached ss;
  bt_steps : Forall (fun s => s <= 0) ss;
  bt_top : forall name i, BMap.get name (top_streams b) = Some i -> exists s, streams (partition b) !! i = Some s /\ s_fifo s = name /\ top_stream_ok g top_def s;
  bt_streams : forall i s, streams (partition b) !! i = Some s -> is_net s \/ BMap.get (s_fifo s) (top_streams b) = Some i;
  bt_args : Forall (known_args (top_streams b)) insts;
}.

Lemma plio_width_ok bits : In (plio_width bits) [32; 64; 128].
Proof. unfold plio_width. repeat destruct (_ <=? _); simpl; tauto. Qed.

Lemma top_stream_kind_ok g top_def child name f words aie_port kind frame : BMap.get name (fifos top_def) = Some f -> is_Some (fifo_depth f) ->
  top_stream_kind g child name f words aie_port = Ok kind -> top_stream_ok g top_def (mkStream (sanitize_identifier_name name) name words frame kind).
Proof.
  intros Hf Hd H. unfold top_stream_kind in H. exists f. simpl. split; [done|]. split; [done|].
  destruct (endpoint_is_aie g (produced_by f) && endpoint_is_aie g (consumed_by f)) eqn:E.
  - injection H as <-. apply andb_true_iff in E as [E1 E2]. by split.
  - destruct (Z.ltb_spec MAX_PLIO_BITS (wrap32 (words * 32))) as [|Hb]; [done|]. injection H as <-. split_and!; [done|done|apply plio_width_ok|exact Hb].
Qed.

(** One argument: the streams known only grow, and the binding is in range. *)
Lemma top_binding_ok g top_def b child port a b' binding ls ss insts : BMap.get (top g) (graph_tasks g) = Some top_def ->
  built g top_def b ls ss insts -> top_binding g b child port a = Ok (b', binding) ->
  built g top_def b' ls ss insts /\ (length (streams (partition b)) <= length (streams (partition b')))%nat /\
  (forall name, is_Some (BMap.get name (top_streams b)) -> is_Some (BMap.get name (top_streams b'))) /\
  (forall i, binding = BStream i -> (i < length (streams (partition b')))%nat) /\
  (forall name, arg a = AName name -> is_stream (cat a) = true -> is_Some (BMap.get name (top_streams b'))).
Proof.
  intros Ht Hb H. unfold top_binding in H. apply rbind_ok in H as (t & Ht'%find_task_ok & H). rewrite Ht in Ht'. injection Ht' as <-.
  destruct (arg a) as [name|v]; [|by injection H as <- <-].
  destruct (is_scalar (cat a)) eqn:Esc.
  { injection H as <- <-. split_and!; [done..|]. intros n _ Hst. by destruct (cat a). }
  destruct (is_stream (cat a)) eqn:Est; [|done]. destruct (BMap.get name (top_streams b)) as [i|] eqn:Ei.
  - injection H as <- <-. split_and!; [done..| |].
    + intros j [= <-]. destruct (bt_top _ _ _ _ _ _ Hb name i Ei) as (s & Hs & _). by eapply lookup_lt_Some.
    + intros n [= <-] _. by rewrite Ei.
  - apply rbind_ok in H as (f & Hf%ok_or_ok & H). destruct (BMap.get name (fifos top_def)) as [f'|] eqn:Ef; [|done].
    destruct (fifo_depth f') eqn:Ed; [|done]. injection Hf as ->. apply rbind_ok in H as (words & _ & H). apply rbind_ok in H as (def & _ & H). cbv zeta in H.
    apply rbind_ok in H as (kind & Hk & H). unfold push_stream in H. injection H as <- <-. simpl. destruct Hb as [Bk Bf Bs Bt Bst Ba].
    apply (top_stream_kind_ok g top_def _ _ _ _ _ _ (let? p := task_port def port in port_aie_frame p)) in Hk; [|done|by rewrite Ed].
    split_and!.
    + split; simpl; [|done|done| | |].
      * eapply Forall2_impl; [exact Bk|]. intros x y. apply kernel_at_mono. rewrite length_app. simpl. lia.
      * intros n i. rewrite BMap.get_insert. destruct (decide (n = name)) as [->|].
        -- intros [= <-]. eexists. split; [by apply list_lookup_middle|]. by split.
        -- intros Hn. destruct (Bt n i Hn) as (s & Hs & Hfs). exists s. split; [|done]. by apply lookup_app_l_Some.
      * intros i s [Hs|[Hi Hs]]%lookup_app_Some.
        -- destruct (Bst i s Hs) as [?|Hg]; [by left|]. right. rewrite BMap.get_insert_ne; [done|]. intros E. rewrite E in Hg. congruence.
        -- right. apply list_lookup_singleton_Some in Hs as [Hi0 <-]. simpl. rewrite BMap.get_insert_eq. f_equal. lia.
      * eapply Forall_impl; [exact Ba|]. intros x Hx port' a' n Hin Harg Hcat. rewrite BMap.get_insert. destruct (decide _); [done|by eapply Hx].
    + rewrite length_app. simpl. lia.
    + intros n Hn. rewrite BMap.get_insert. by destruct (decide _).
    + intros i [= <-]. rewrite length_app. simpl. lia.
    + intros n [= <-] _. by rewrite BMap.get_insert_eq.
Qed.

Lemma built_forever g top_def b ls ss insts child step forever : built g top_def b ls ss insts ->
  check_invoke_step child step (run_forever (partition b)) = Ok forever ->
  built g top_def (mkBuilder (set_forever (partition b) forever) (top_streams b)) ls (ss ++ [step]) insts.
Proof.
  intros [Bk Bf Bs Bt Bst Ba] H. unfold check_invoke_step in H. destruct (Z.ltb_spec 0 step); [done|]. injection H as <-. split; simpl; [done| | |done..].
  - rewrite existsb_app, Bf. simpl. unfold detached at 3. by rewrite orb_false_r.
  - apply Forall_app. split; [done|]. by repeat constructor.
Qed.

(** The arguments of one instance. *)
Lemma args_ok g top_def b child ls ss insts l b' scope : BMap.get (top g) (graph_tasks g) = Some top_def -> built g top_def b ls ss insts ->
  try_fold (fun s e =>
    let '(b, scope) := (s : Builder * bmap string Binding) in
    let '(port, a) := (e : string * Arg) in
    let! (b, binding) := top_binding g b child port a in
    Ok (b, BMap.insert port binding scope)) (b, []) l = Ok (b', scope) ->
  built g top_def b' ls ss insts /\ scope_ok (length (streams (partition b'))) scope /\
  forall port a name, In (port, a) l -> arg a = AName name -> is_stream (cat a) = true -> is_Some (BMap.get name (top_streams b')).
Proof.
  intros Ht Hb H. refine (try_fold_ind (fun done (s : Builder * bmap string Binding) => built g top_def s.1 ls ss insts /\ scope_ok (length (streams (partition s.1))) s.2 /\
    forall port a name, In (port, a) done -> arg a = AName name -> is_stream (cat a) = true -> is_Some (BMap.get name (top_streams s.1))) _ _ _ _ _ _ H).
  - split_and!; [done|by intros n i|by intros port a name []].
  - clear H Hb b b' scope. intros l1 [port a] l2 [b sc] [b' sc'] _ (Hb & Hs & Ha) H. simpl in Hb, Hs, Ha. apply rbind_ok in H as ([b1 bd] & H & [= <- <-]). simpl.
    apply (top_binding_ok g top_def b child port a b1 bd ls ss insts Ht Hb) in H as (H1 & H2 & H3 & H4 & H5). split_and!; [done| |].
    + apply scope_ok_insert; [by eapply scope_ok_mono|done].
    + intros port' a' n [Hin|[Hin|[]]]%in_app_or Harg Hcat; [apply H3; by eapply Ha|]. injection Hin as <- <-. by apply H5.
Qed.

Lemma derive_instance_ok fuel g top_def child b ls ss insts index i b' : BMap.get (top g) (graph_tasks g) = Some top_def -> built g top_def b ls ss insts ->
  derive_instance fuel g child b (index, i) = Ok b' ->
  built g top_def b' (ls ++ leaves fuel g child index (sanitize_identifier_name (canonical_name i child index))) (ss ++ inst_step i :: steps fuel g child) (insts ++ [i]).
Proof.
  intros Ht Hb H. unfold derive_instance in H. apply rbind_ok in H as (fo & Hfo & H). apply (built_forever g top_def b ls ss insts) in Hfo; [|done].
  apply rbind_ok in H as ([b1 sc] & Ha & H). apply (args_ok g top_def _ _ _ _ _ _ _ _ Ht Hfo) in Ha as (Hb1 & Hsc & Hargs).
  apply rbind_ok in H as (p & Hp%visit_ok & [= <-]); [|exact Hsc]. destruct Hp as [(nets & En & Fn) (ks & Ek & Fk) Hf Hst]. destruct Hb1 as [Bk Bf Bs Bt Bst Ba].
  split; simpl.
  - rewrite Ek. apply Forall2_app; [|done]. eapply Forall2_impl; [exact Bk|]. intros x y. apply kernel_at_mono. rewrite En, length_app. lia.
  - rewrite Hf, Bf. change (inst_step i :: steps fuel g child) with ([inst_step i] ++ steps fuel g child). by rewrite app_assoc, (existsb_app _ (_ ++ _)).
  - change (inst_step i :: steps fuel g child) with ([inst_step i] ++ steps fuel g child). rewrite app_assoc. by apply Forall_app.
  - intros n j Hj. destruct (Bt n j Hj) as (s & Hs & H1). exists s. split; [|done]. rewrite En. by apply lookup_app_l_Some.
  - intros j s Hj. rewrite En in Hj. apply lookup_app_Some in Hj as [Hj|[_ Hj]]; [by apply Bst|]. left. rewrite Forall_lookup in Fn. by eapply Fn.
  - apply Forall_app. split; [done|]. repeat constructor. exact Hargs.
Qed.

(** The instances on the AI Engine that the top invokes. *)
Definition is_aie_task (g : TaskGraph) (name : string) : bool :=
  match BMap.get name (graph_tasks g) with Some t => synth_is_aie t | None => false end.

Definition aie_instances (g : TaskGraph) (top_def : Task) : list (string * nat * TaskInstance) :=
  List.filter (fun e => is_aie_task g e.1.1) (task_instances top_def).

Definition top_leaves (fuel : nat) (g : TaskGraph) (l : list (string * nat * TaskInstance)) : list (string * string * nat) :=
  flat_map (fun e => leaves fuel g e.1.1 e.1.2 (sanitize_identifier_name (canonical_name e.2 e.1.1 e.1.2))) l.

Definition top_steps (fuel : nat) (g : TaskGraph) (l : list (string * nat * TaskInstance)) : list Z :=
  flat_map (fun e => inst_step e.2 :: steps fuel g e.1.1) l.

Definition of_child (e : string * list TaskInstance) : list (string * nat * TaskInstance) := map (fun p => (e.1, p.1, p.2)) (enumerate e.2).

Lemma of_child_filter g (e : string * list TaskInstance) def : BMap.get e.1 (graph_tasks g) = Some def ->
  List.filter (fun e => is_aie_task g e.1.1) (of_child e) = if synth_is_aie def then of_child e else [].
Proof.
  intros Hd. unfold of_child, is_aie_task. generalize (enumerate e.2). induction l as [|x l IH]; simpl; [by destruct (synth_is_aie def)|].
  rewrite Hd, IH. by destruct (synth_is_aie def).
Qed.

Lemma derive_child_ok fuel g top_def b e l b' : BMap.get (top g) (graph_tasks g) = Some top_def ->
  built g top_def b (top_leaves fuel g l) (top_steps fuel g l) (map snd l) -> derive_child fuel g b e = Ok b' ->
  let l' := l ++ List.filter (fun e => is_aie_task g e.1.1) (of_child e) in
  built g top_def b' (top_leaves fuel g l') (top_steps fuel g l') (map snd l').
Proof.
  intros Ht Hb H l'. subst l'. unfold derive_child in H. apply rbind_ok in H as (def & Hd%find_task_ok & H).
  rewrite (of_child_filter g e def Hd). destruct (synth_is_aie def); simpl in H; [|injection H as <-; by rewrite app_nil_r].
  refine (try_fold_ind (fun done b => built g top_def b (top_leaves fuel g (l ++ map (fun p => (e.1, p.1, p.2)) done))
    (top_steps fuel g (l ++ map (fun p => (e.1, p.1, p.2)) done)) (map snd (l ++ map (fun p => (e.1, p.1, p.2)) done))) _ _ _ _ _ _ H).
  - simpl. by rewrite app_nil_r.
  - clear H Hb. intros l1 [index i] l2 a a' _ Ha Hs. apply (derive_instance_ok fuel g top_def _ _ _ _ _ _ _ _ Ht Ha) in Hs.
    rewrite map_app, app_assoc. unfold top_leaves, top_steps in *. rewrite !flat_map_app, !map_app in *. simpl. rewrite !app_nil_r. exact Hs.
Qed.

Definition derive_fuel (g : TaskGraph) : nat := S (length (graph_tasks g)).

Lemma derive_built g top_def b : BMap.get (top g) (graph_tasks g) = Some top_def ->
  try_fold (derive_child (derive_fuel g) g) (mkBuilder (mkPartition [] [] false) []) (tasks top_def) = Ok b ->
  built g top_def b (top_leaves (derive_fuel g) g (aie_instances g top_def)) (top_steps (derive_fuel g) g (aie_instances g top_def)) (map snd (aie_instances g top_def)).
Proof.
  intros Ht Hb. refine (try_fold_ind (fun done b => let l := List.filter (fun e => is_aie_task g e.1.1) (flat_map of_child done) in
    built g top_def b (top_leaves (derive_fuel g) g l) (top_steps (derive_fuel g) g l) (map snd l)) _ _ _ _ _ _ Hb).
  - split; simpl; try done; constructor.
  - clear Hb. intros l1 e l2 a a' _ Ha Hs. simpl. rewrite flat_map_app. simpl. rewrite app_nil_r, List.filter_app. by eapply derive_child_ok.
Qed.

(** Everything [derive] establishes. *)
Record derived (g : TaskGraph) (top_def : Task) (b : Builder) (q : AiePartition) : Prop := {
  dv_top : BMap.get (top g) (graph_tasks g) = Some top_def;
  dv_upper : try_each (check_upper g) (graph_tasks g) = Ok tt;
  dv_built : built g top_def b (top_leaves (derive_fuel g) g (aie_instances g top_def)) (top_steps (derive_fuel g) g (aie_instances g top_def)) (map snd (aie_instances g top_def));
  dv_tiles : check_locations g (partition b) = Ok tt;
  dv_marked : marked g top_def (partition b) q;
}.

Lemma derive_ok g q : derive g = Ok (Some q) -> exists top_def b, derived g top_def b q.
Proof.
  intros H. unfold derive in H. destruct (negb _); [done|]. apply rbind_ok in H as (top_def & Ht%find_task_ok & H). apply rbind_ok in H as ([] & Hu & H).
  apply rbind_ok in H as (b & Hb & H). apply rbind_ok in H as ([] & Hl & H). apply rbind_ok in H as (p & Hp%mark_cycles_ok & [= <-]).
  exists top_def, b. split; [done|done| |done|done]. by apply derive_built.
Qed.

(** ** Termination *)

Definition fueled (g : TaskGraph) (num : string -> nat) (fuel : nat) (name : string) : Prop :=
  (0 < fuel)%nat /\ forall t, BMap.get name (graph_tasks g) = Some t -> (S (num name) < fuel)%nat.

Lemma yields_loop {E A B} (f : A -> B -> res E A) l acc : (forall a x, x ∈ l -> yields (fun _ => True) (f a x)) -> yields (fun _ => True) (try_fold f acc l).
Proof.
  intros H. apply (yields_try_fold (fun _ _ => True) f l acc I). intros l1 x l2 a -> _. apply H. apply elem_of_app. right. by left.
Qed.

Lemma no_panic_err {E A} (m : res E A) : m <> Panic <-> yields (fun _ => True) m.
Proof. destruct m; simpl; naive_solver. Qed.

Lemma kernel_yields task_name index path def scope : yields (fun _ => True) (kernel task_name index path def scope).
Proof.
  unfold kernel. apply yields_bind. eapply yields_mono; [|apply yields_loop]; [done|]. intros a x _. apply yields_bind. unfold kernel_port. apply yields_bind.
  destruct (is_stream (port_cat x)).
  - apply yields_bind. eapply yields_mono; [|apply yields_loop]; [done|]. intros b c _. unfold bind_channel. by destruct (BMap.get c scope) as [[]|].
  - destruct (is_scalar (port_cat x)); [|done]. by destruct (BMap.get _ scope) as [[]|].
Qed.

Lemma find_task_yields g name : yields (fun t => BMap.get name (graph_tasks g) = Some t) (find_task g name).
Proof. by apply yields_ok_or. Qed.

Lemma stream_words_yields g t port : yields (fun _ => True) (stream_words g t port).
Proof. unfold stream_words. apply yields_bind. eapply yields_mono; [|apply find_task_yields]. intros def _. apply yields_bind. by apply yields_ok_or. Qed.

Lemma visit_yields g num : topological g num -> forall fuel p task_name index path scope, fueled g num fuel task_name ->
  yields (fun _ => True) (visit fuel g p task_name index path scope).
Proof.
  intros Ht. induction fuel as [|fuel IH]; intros p tn idx path scope [Hf Hn]; [lia|]. cbn [visit]. apply yields_bind.
  eapply yields_mono; [|apply find_task_yields]. intros def Hdef. specialize (Hn def Hdef). case_bool_decide.
  - apply yields_bind. eapply yields_mono; [|apply kernel_yields]. done.
  - apply yields_bind. eapply yields_mono; [|apply yields_loop].
    + intros [p1 inner] _. apply yields_loop. intros a [[c ci] i] Hin. apply yields_bind. unfold check_invoke_step. destruct (0 <? inst_step i); [done|]. simpl.
      apply yields_bind. eapply yields_mono; [|apply yields_loop].
      * intros cs _. apply IH. split; [lia|]. intros t Hc. pose proof (task_child _ _ _ _ _ _ _ _ Ht Hdef Hin Hc). lia.
      * intros b [port x] _. simpl. apply yields_bind. destruct (arg x); [|done]. by apply yields_ok_or.
    + intros [q inner] [name fifo] _. unfold add_net. destruct (match produced_by fifo with Some e => Some e | None => consumed_by fifo end); [|done]. cbv zeta.
      apply yields_bind. eapply yields_mono; [|apply stream_words_yields]. intros w _. apply yields_bind. eapply yields_mono; [|apply find_task_yields]. done.
Qed.

Lemma top_binding_yields g b child port a : yields (fun _ => True) (top_binding g b child port a).
Proof.
  unfold top_binding. apply yields_bind. eapply yields_mono; [|apply find_task_yields]. intros t _. destruct (arg a); [|done].
  destruct (is_scalar _); [done|]. destruct (is_stream _); [|done]. destruct (BMap.get _ (top_streams b)); [done|]. apply yields_bind. apply yields_ok_or. intros f _.
  apply yields_bind. eapply yields_mono; [|apply stream_words_yields]. intros w _. apply yields_bind. eapply yields_mono; [|apply find_task_yields]. intros def _. cbv zeta.
  apply yields_bind. unfold top_stream_kind. destruct (_ && _); [done|]. by destruct (_ <? _).
Qed.

Lemma derive_instances_yields g num top_def b : topological g num -> yields (fun _ => True) (try_fold (derive_child (derive_fuel g) g) b (tasks top_def)).
Proof.
  intros Ht. apply yields_loop. intros b1 e _. unfold derive_child. apply yields_bind. eapply yields_mono; [|apply find_task_yields]. intros def _.
  destruct (negb _); [done|]. apply yields_loop. intros b2 [index i] _. unfold derive_instance. apply yields_bind. unfold check_invoke_step.
  destruct (0 <? inst_step i); [done|]. cbn [rbind]. apply yields_bind. eapply yields_mono; [|apply yields_loop].
  - intros [b3 sc] _. apply yields_bind. eapply yields_mono; [|apply (visit_yields g num Ht)]; [done|]. unfold derive_fuel. split; [lia|].
    intros t Hg. pose proof (topo_range _ _ Ht _ _ Hg). lia.
  - intros [b4 sc] [port a] _. apply yields_bind. eapply yields_mono; [|apply top_binding_yields]. by intros [b5 bd] _.
Qed.

Lemma kernel_ends_bound g n ls ks : Forall2 (kernel_at g n) ls ks -> Forall (fun e => (e.2 < n)%nat) (kernel_ends ks).
Proof.
  intros H. unfold kernel_ends. apply Forall_forall. intros [[i input] s] Hin. apply list_elem_of_In, in_flat_map in Hin as ([j k] & Hk & Hin). simpl in Hin.
  apply in_flat_map in Hin as (kp & Hkp & Hin). apply list_elem_of_In, elem_of_enumerate in Hk. destruct (Forall2_lookup_r _ _ _ _ _ H Hk) as ([[path t] idx] & _ & def & _ & _ & _ & _ & _ & _ & _ & HF).
  apply list_elem_of_In, list_elem_of_lookup in Hkp as [m Hm]. destruct (Forall2_lookup_r _ _ _ _ _ HF Hm) as (port & _ & _ & Hp).
  destruct (kp_kind kp) as [inp pl ss w fr|]; [|done]. destruct Hp as (_ & _ & _ & _ & HFs & _). apply in_map_iff in Hin as (s' & E & Hs'). injection E as _ _ <-.
  rewrite Forall_forall in HFs. apply HFs. by apply list_elem_of_In.
Qed.

Lemma yields_each {E B} (f : B -> res E unit) l : (forall x, x ∈ l -> yields (fun _ => True) (f x)) -> yields (fun _ => True) (try_each f l).
Proof. intros H. by apply try_each_cases. Qed.

Lemma check_upper_yields g : yields (fun _ => True) (try_each (check_upper g) (graph_tasks g)).
Proof. apply yields_each. intros [name t] _. unfold check_upper. destruct (_ || _); [done|]. by destruct (aie_child _ _). Qed.

Lemma check_locations_yields g p : yields (fun _ => True) (check_locations g p).
Proof.
  unfold check_locations. apply yields_bind. eapply yields_mono; [|apply yields_each].
  - intros _ _. apply yields_bind. eapply yields_mono; [|apply yields_loop]; [done|]. intros tiles k _. unfold take_tile.
    destruct (k_location k) as [t|]; [|done]. by destruct (BMap.get t tiles).
  - intros [name def] _. apply yields_each. intros pin _. unfold check_pin. cbv zeta. destruct (aie_instance pin); by destruct (Nat.leb _ _) || destruct (Nat.ltb _ _).
Qed.

(** Deriving the partition of an acyclic hierarchy ends, with a partition
    or an error of its own: the recursion over the hierarchy, the search for
    cycles and the indices into the streams never fail. *)
Theorem aie_derive_total g num : topological g num -> derive g <> Panic.
Proof.
  intros Ht. unfold derive. destruct (negb _); [done|]. apply no_panic_err. apply yields_bind. eapply yields_mono; [|apply find_task_yields]. intros top_def Htop.
  apply yields_bind. eapply yields_mono; [|apply check_upper_yields]. intros _ _. change (S (length (graph_tasks g))) with (derive_fuel g).
  apply yields_bind. pose proof (derive_instances_yields g num top_def (mkBuilder (mkPartition [] [] false) []) Ht) as Hd.
  destruct (try_fold (derive_child _ _) _ _) as [b|e|] eqn:Hb; [|done|done]. cbn [yields]. apply yields_bind. eapply yields_mono; [|apply check_locations_yields]. intros _ _.
  apply yields_bind. apply derive_built in Hb; [|done]. pose proof (mark_cycles_total g top_def (partition b)) as Hm.
  destruct (mark_cycles _ _ _); [done|done|]. apply Hm; [|done]. eapply kernel_ends_bound. exact (bt_kernels _ _ _ _ _ _ Hb).
Qed.

(** ** The partition *)

Lemma tiles_ok ks tiles : try_fold take_tile [] ks = Ok tiles -> NoDup (omap k_location ks).
Proof.
  intros H. refine (proj1 (try_fold_ind (fun done (tiles : bmap (Z * Z) string) => NoDup (omap k_location done) /\ forall t, t ∈ omap k_location done -> is_Some (BMap.get t tiles)) _ _ _ _ _ _ H)).
  - split; [constructor|]. intros t Ht. by apply not_elem_of_nil in Ht.
  - clear H tiles. intros l1 k l2 a a' _ [Hn Ha] Hs. unfold take_tile in Hs. rewrite !omap_app. simpl. destruct (k_location k) as [t|]; simpl.
    + destruct (BMap.get t a) eqn:E; [done|]. injection Hs as <-. split.
      * apply NoDup_app. split; [done|]. split; [|apply NoDup_singleton]. intros x Hx ->%list_elem_of_singleton. apply Ha in Hx. rewrite E in Hx. by destruct Hx.
      * intros x [Hx| ->%list_elem_of_singleton]%elem_of_app; [|by rewrite BMap.get_insert_eq]. rewrite BMap.get_insert. destruct (decide _); [done|by apply Ha].
    + injection Hs as <-. rewrite app_nil_r. by split.
Qed.

Lemma pins_ok g p name def pin : check_locations g p = Ok tt -> In (name, def) (graph_tasks g) -> pin ∈ aie_location def ->
  match aie_instance pin with Some i => (Z.to_nat i < instances_of p name)%nat | None => (instances_of p name <= 1)%nat end.
Proof.
  intros H Hin Hp. unfold check_locations in H. apply rbind_ok in H as ([] & H & _). apply try_each_ok in H. rewrite Forall_forall in H.
  apply list_elem_of_In in Hin. specialize (H _ Hin). simpl in H. apply try_each_ok in H. rewrite Forall_forall in H. specialize (H _ Hp). unfold check_pin in H. cbv zeta in H.
  destruct (aie_instance pin) as [i|].
  - destruct (Nat.leb_spec (instances_of p name) (Z.to_nat i)); [done|lia].
  - destruct (Nat.ltb_spec 1 (instances_of p name)); [done|lia].
Qed.

(** A partition of the hierarchy: [top_def] is the top task. *)
Record partition_ok (g : TaskGraph) (top_def : Task) (p : AiePartition) : Prop := {
  po_kernels : Forall2 (kernel_at g (length (streams p))) (top_leaves (derive_fuel g) g (aie_instances g top_def)) (kernels p);
  po_tiles : NoDup (omap k_location (kernels p));
  po_pins : forall name def pin, In (name, def) (graph_tasks g) -> pin ∈ aie_location def ->
    match aie_instance pin with Some i => (Z.to_nat i < instances_of p name)%nat | None => (instances_of p name <= 1)%nat end;
  po_steps : Forall (fun s => s <= 0) (top_steps (derive_fuel g) g (aie_instances g top_def));
  po_forever : run_forever p = existsb detached (top_steps (derive_fuel g) g (aie_instances g top_def));
  po_plio : forall i s, streams p !! i = Some s -> ~ is_net s -> top_stream_ok g top_def s /\
    forall j s', streams p !! j = Some s' -> ~ is_net s' -> s_fifo s' = s_fifo s -> j = i;
}.

Lemma ordered_same ks ks' : Forall2 (fun k k' => exists o, k' = set_ordered k o) ks ks' ->
  omap k_location ks' = omap k_location ks /\ forall name, length (filter (fun k => k_task k = name) ks') = length (filter (fun k => k_task k = name) ks).
Proof.
  induction 1 as [|k k' ks ks' [o ->] _ [IH1 IH2]]; [done|]. split.
  - simpl. destruct (k_location k); [f_equal|]; exact IH1.
  - intros name. rewrite !filter_cons. simpl. specialize (IH2 name). destruct (decide (k_task k = name)); simpl; lia.
Qed.

Lemma built_plio g top_def b ls ss insts i s : built g top_def b ls ss insts -> streams (partition b) !! i = Some s -> ~ is_net s ->
  BMap.get (s_fifo s) (top_streams b) = Some i /\ top_stream_ok g top_def s.
Proof.
  intros Hb Hs Hn. destruct (bt_streams _ _ _ _ _ _ Hb i s Hs) as [?|Hg]; [done|]. split; [done|].
  destruct (bt_top _ _ _ _ _ _ Hb _ _ Hg) as (s' & Hs' & _ & Hok). rewrite Hs in Hs'. by injection Hs' as <-.
Qed.

Lemma aie_partition_of g p top_def : derive g = Ok (Some p) -> BMap.get (top g) (graph_tasks g) = Some top_def -> partition_ok g top_def p.
Proof.
  intros H Htop. apply derive_ok in H as (t & b & [Ht Hu Hb Hl Hm]). rewrite Htop in Ht. injection Ht as <-. destruct Hm as [Ms Mf Mk _].
  destruct (ordered_same _ _ Mk) as [Hloc Hcount]. split.
  - rewrite Ms. clear - Hb Mk. destruct Hb as [Bk _ _ _ _ _]. revert Mk. generalize (kernels p). induction Bk as [|[[path t] i] k ls ks Hk _ IH]; intros qs Mk; inversion Mk as [|? ? ? ? [o ->]]; subst; constructor; [exact Hk|by apply IH].
  - rewrite Hloc. unfold check_locations in Hl. apply rbind_ok in Hl as ([] & _ & Hl). apply rbind_ok in Hl as (tiles & Hl & _). by eapply tiles_ok.
  - intros name def pin Hin Hp. unfold instances_of. rewrite Hcount. by eapply pins_ok.
  - exact (bt_steps _ _ _ _ _ _ Hb).
  - rewrite Mf. exact (bt_forever _ _ _ _ _ _ Hb).
  - rewrite Ms. intros i s Hs Hn. destruct (built_plio _ _ _ _ _ _ _ _ Hb Hs Hn) as [Hi Hok]. split; [done|]. intros j s' Hs' Hn' E.
    destruct (built_plio _ _ _ _ _ _ _ _ Hb Hs' Hn') as [Hj _]. rewrite E in Hj. congruence.
Qed.

(** ** The wiring

    What a name means in a task on the AI Engine, told without the streams of
    the partition: the FIFO it stands for, by the task instance that declares it,
    or the value of a scalar. *)

(** The invocations from the top down to an instance. *)
Notation place := (list (string * nat)) (only parsing).

Inductive Wire := WFifo (at_ : place) (fifo : string) | WValue (v : ScalarBinding).

Definition env : Type := bmap string Wire.

(** The FIFOs of a task on the AI Engine that have an end. *)
Definition connected (f : InterconnectDefinition) : bool :=
  match produced_by f, consumed_by f with None, None => false | _, _ => true end.

Definition own_fifos (def : Task) : list string := map fst (List.filter (fun e => connected e.2) (fifos def)).

(** What the top binds to a port of an instance on the AI Engine. *)
Definition top_wire (a : Arg) : option Wire :=
  match arg a with
  | ALiteral v => Some (WValue (Constant v))
  | AName n => if is_scalar (cat a) then Some (WValue (Runtime n)) else if is_stream (cat a) then Some (WFifo [] n) else None
  end.

(** What an instance at [at_] binds to a port of a child: a FIFO of its own, or
    what its own port is bound to. *)
Definition inner_wire (def : Task) (at_ : place) (outer : env) (a : Arg) : option Wire :=
  match arg a with
  | ALiteral v => Some (WValue (Constant v))
  | AName n => if bool_decide (n ∈ own_fifos def) then Some (WFifo at_ n) else BMap.get n outer
  end.

Definition wires (w : Arg -> option Wire) (args : bmap string Arg) : env :=
  BMap.from_list (omap (fun e => option_map (pair e.1) (w e.2)) args).

(** The names of each leaf under an instance, in the order of [leaves]. *)
Fixpoint leaf_envs (fuel : nat) (g : TaskGraph) (task_name : string) (at_ : place) (names : env) : list env :=
  match fuel, BMap.get task_name (graph_tasks g) with
  | S fuel', Some def =>
      if bool_decide (level def = Lower) then [names]
      else flat_map (fun e => leaf_envs fuel' g e.1.1 (at_ ++ [e.1]) (wires (inner_wire def at_ names) (inst_args e.2))) (task_instances def)
  | _, _ => []
  end.

(** The FIFOs declared under an instance. *)
Fixpoint inner_fifos (fuel : nat) (g : TaskGraph) (task_name : string) (at_ : place) : list (place * string) :=
  match fuel, BMap.get task_name (graph_tasks g) with
  | S fuel', Some def =>
      if bool_decide (level def = Lower) then []
      else map (pair at_) (own_fifos def) ++ flat_map (fun e => inner_fifos fuel' g e.1.1 (at_ ++ [e.1])) (task_instances def)
  | _, _ => []
  end.

Definition top_envs (fuel : nat) (g : TaskGraph) (l : list (string * nat * TaskInstance)) : list env :=
  flat_map (fun e => leaf_envs fuel g e.1.1 [e.1] (wires top_wire (inst_args e.2))) l.

Definition top_inner (fuel : nat) (g : TaskGraph) (l : list (string * nat * TaskInstance)) : list (place * string) :=
  flat_map (fun e => inner_fifos fuel g e.1.1 [e.1]) l.

(** The stream of a FIFO: of the top, or of a task instance below. *)
Definition stream_of (g : TaskGraph) (top_def : Task) (h : place * string) (s : AieStream) : Prop :=
  s_fifo s = h.2 /\
  match last h.1 with
  | None => top_stream_ok g top_def s
  | Some e => exists def f, BMap.get e.1 (graph_tasks g) = Some def /\ BMap.get h.2 (fifos def) = Some f /\
      s_kind s = Net (wrap32 (default 0 (fifo_depth f) * s_words s))
  end.

(** A port of a kernel is bound as its name says; [home] has the FIFO of each stream. *)
Definition port_wired (home : list (place * string)) (names : env) (port : Port) (kp : AieKernelPort) : Prop :=
  match kp_kind kp with
  | Streams _ _ ss _ _ => Forall2 (fun channel s => exists h, home !! s = Some h /\ BMap.get channel names = Some (WFifo h.1 h.2)) (port_channels port) ss
  | ScalarPort _ _ value => BMap.get (port_name port) names = Some (WValue value)
  end.

Definition kernel_wired (g : TaskGraph) (home : list (place * string)) (names : env) (k : AieKernel) : Prop :=
  exists def, BMap.get (k_task k) (graph_tasks g) = Some def /\ Forall2 (port_wired home names) (ports def) (k_ports k).

(** What a binding stands for. *)
Definition wire_at (home : list (place * string)) (b : Binding) : option Wire :=
  match b with BStream i => option_map (fun h : place * string => WFifo h.1 h.2) (home !! i) | BScalar v => Some (WValue v) end.

Definition scope_env (home : list (place * string)) (scope : bmap string Binding) (names : env) : Prop :=
  forall name, match BMap.get name scope with
               | Some b => exists w, wire_at home b = Some w /\ BMap.get name names = Some w
               | None => BMap.get name names = None
               end.

Record wired (g : TaskGraph) (top_def : Task) (home : list (place * string)) (p p' : AiePartition) (new : list (place * string)) (envs : list env) : Prop := {
  w_streams : exists ss, streams p' = streams p ++ ss /\ Forall2 (stream_of g top_def) new ss;
  w_kernels : exists ks, kernels p' = kernels p ++ ks /\ Forall2 (kernel_wired g (home ++ new)) envs ks;
}.

Lemma port_wired_app home new names port kp : port_wired home names port kp -> port_wired (home ++ new) names port kp.
Proof.
  unfold port_wired. destruct (kp_kind kp); [|done]. intros H. eapply Forall2_impl; [exact H|]. intros c s (h & Hh & Hc). exists h. split; [|done].
  by apply lookup_app_l_Some.
Qed.

Lemma kernel_wired_app g home new names k : kernel_wired g home names k -> kernel_wired g (home ++ new) names k.
Proof. intros (def & Hd & H). exists def. split; [done|]. eapply Forall2_impl; [exact H|]. intros. by apply port_wired_app. Qed.

Lemma scope_env_app home new scope names : scope_env home scope names -> scope_env (home ++ new) scope names.
Proof.
  intros H name. specialize (H name). destruct (BMap.get name scope) as [b|]; [|done]. destruct H as (w & Hw & Hn). exists w. split; [|done].
  destruct b as [i|v]; [|done]. simpl in *. destruct (home !! i) as [h|] eqn:E; [|done]. by rewrite (lookup_app_l_Some _ _ _ _ E).
Qed.

Lemma wired_nil g top_def home p : wired g top_def home p p [] [].
Proof. split; exists []; rewrite app_nil_r; by split. Qed.

Lemma wired_trans g top_def home p q r n1 n2 e1 e2 : wired g top_def home p q n1 e1 -> wired g top_def (home ++ n1) q r n2 e2 ->
  wired g top_def home p r (n1 ++ n2) (e1 ++ e2).
Proof.
  intros [(s1 & E1 & F1) (k1 & K1 & G1)] [(s2 & E2 & F2) (k2 & K2 & G2)]. split.
  - exists (s1 ++ s2). split; [by rewrite E2, E1, app_assoc|by apply Forall2_app].
  - exists (k1 ++ k2). split; [by rewrite K2, K1, app_assoc|]. rewrite app_assoc. apply Forall2_app; [|done].
    eapply Forall2_impl; [exact G1|]. intros. by apply kernel_wired_app.
Qed.

Lemma wired_length g top_def home p p' new envs : wired g top_def home p p' new envs -> length home = length (streams p) -> length (home ++ new) = length (streams p').
Proof. intros [(ss & -> & HF) _] H. by rewrite !length_app, H, (Forall2_length _ _ _ HF). Qed.

Lemma from_list_snoc {V} (l : list (string * V)) k v : BMap.from_list (l ++ [(k, v)]) = BMap.insert k v (BMap.from_list l).
Proof. unfold BMap.from_list. by rewrite fold_left_app. Qed.

Lemma scope_env_insert home scope names name b w : scope_env home scope names -> wire_at home b = Some w ->
  scope_env home (BMap.insert name b scope) (BMap.insert name w names).
Proof. intros H Hw n. rewrite !BMap.get_insert. destruct (decide (n = name)); [by exists w|apply H]. Qed.

Lemma kernel_port_wired home task_name scope names port kp : scope_env home scope names -> kernel_port task_name scope port = Ok kp -> port_wired home names port kp.
Proof.
  intros Hs H. unfold kernel_port in H. apply rbind_ok in H as (kind & Hk & [= <-]). unfold port_wired. cbn [kp_kind]. destruct (is_stream (port_cat port)).
  - apply rbind_ok in Hk as (ss & Hss & [= <-]).
    refine (try_fold_ind (fun done acc => Forall2 (fun channel s => exists h, home !! s = Some h /\ BMap.get channel names = Some (WFifo h.1 h.2)) done acc) _ _ _ _ _ _ Hss); [constructor|].
    intros l1 c l2 a a' _ Ha Hb. unfold bind_channel in Hb. specialize (Hs c). destruct (BMap.get c scope) as [[s|]|]; [|done..]. injection Hb as <-.
    apply Forall2_app; [done|]. constructor; [|constructor]. destruct Hs as (w & Hw & Hn). simpl in Hw. destruct (home !! s) as [h|]; [|done].
    exists h. split; [done|]. rewrite Hn. by injection Hw as <-.
  - destruct (is_scalar (port_cat port)); [|done]. specialize (Hs (port_name port)). destruct (BMap.get (port_name port) scope) as [[|v]|]; [done| |done].
    injection Hk as <-. destruct Hs as (w & Hw & Hn). rewrite Hn. by injection Hw as <-.
Qed.

Lemma kernel_is_wired g home task_name index path def scope names k : BMap.get task_name (graph_tasks g) = Some def -> scope_env home scope names ->
  kernel task_name index path def scope = Ok k -> kernel_wired g home names k.
Proof.
  intros Hd Hs H. unfold kernel in H. apply rbind_ok in H as (ps & Hps & [= <-]). apply try_fold_map in Hps as (ys & -> & HF).
  exists def. split; [done|]. simpl. eapply Forall2_impl; [exact HF|]. intros a b. by apply kernel_port_wired.
Qed.

(** The scope of the nets declared so far. *)
Definition inner_ok (home : list (place * string)) (at_ : place) (names : list string) (inner : bmap string Binding) : Prop :=
  forall n, match BMap.get n inner with Some b => wire_at home b = Some (WFifo at_ n) /\ n ∈ names | None => n ∉ names end.

Definition own_of (l : list (string * InterconnectDefinition)) : list string := map fst (List.filter (fun e => connected e.2) l).

Lemma own_of_snoc l e : own_of (l ++ [e]) = own_of l ++ (if connected e.2 then [e.1] else []).
Proof. unfold own_of. rewrite List.filter_app, map_app. simpl. by destruct (connected e.2). Qed.

Lemma net_wired g top_def home path child def at_ l p inner e p' inner' : wf_task def -> BMap.get child (graph_tasks g) = Some def ->
  (exists idx, last at_ = Some (child, idx)) -> e ∈ fifos def -> length home = length (streams p) -> inner_ok home at_ (own_of l) inner ->
  add_net g path def (p, inner) e = Ok (p', inner') ->
  exists new, wired g top_def home p p' new [] /\ new = map (pair at_) (if connected e.2 then [e.1] else []) /\
    inner_ok (home ++ new) at_ (own_of (l ++ [e])) inner'.
Proof.
  intros [_ Wf _] Hd (idx & Hlast) Hin Hlen Hi H. rewrite own_of_snoc. exists (map (pair at_) (if connected e.2 then [e.1] else [])).
  assert (Hmono : forall new, inner_ok (home ++ new) at_ (own_of l) inner).
  { intros new n. specialize (Hi n). destruct (BMap.get n inner) as [b|]; [|done]. destruct Hi as [Hw Hn]. split; [|done]. destruct b as [i|v]; [|done].
    simpl in *. destruct (home !! i) as [h|] eqn:E; [|done]. by rewrite (lookup_app_l_Some _ _ _ _ E). }
  unfold add_net in H. destruct e as [name fifo]. cbn [fst snd] in *.
  assert (Hc : connected fifo = match (match produced_by fifo with Some e => Some e | None => consumed_by fifo end) with Some _ => true | None => false end).
  { unfold connected. destruct (produced_by fifo), (consumed_by fifo); done. }
  rewrite Hc. destruct (match produced_by fifo with Some e => Some e | None => consumed_by fifo end) as [en|].
  - cbv zeta in H. apply rbind_ok in H as (words & _ & H). apply rbind_ok in H as (t & _ & H). unfold push_stream in H. injection H as <- <-. split_and!; [|done|].
    + split; simpl; [|exists []; rewrite app_nil_r; by split]. eexists. split; [done|]. constructor; [|constructor]. split; [done|]. cbn [fst snd]. rewrite Hlast.
      exists def, fifo. split_and!; [done| |done]. apply BMap.In_get; [done|by apply list_elem_of_In].
    + intros n. rewrite BMap.get_insert. destruct (decide (n = name)) as [->|Hne].
      * split; [|apply elem_of_app; right; by left]. simpl. rewrite <- Hlen, list_lookup_middle by done. done.
      * specialize (Hmono (map (pair at_) [name]) n). destruct (BMap.get n inner) as [b|]; [destruct Hmono; split; [done|apply elem_of_app; by left]|].
        rewrite elem_of_app, list_elem_of_singleton. tauto.
  - injection H as <- <-. simpl. split_and!; [apply wired_nil|done|]. rewrite !app_nil_r. exact Hi.
Qed.

Lemma nets_wired g top_def home path child def at_ p p' inner : wf_task def -> BMap.get child (graph_tasks g) = Some def ->
  (exists idx, last at_ = Some (child, idx)) -> length home = length (streams p) -> try_fold (add_net g path def) (p, []) (fifos def) = Ok (p', inner) ->
  let new := map (pair at_) (own_fifos def) in wired g top_def home p p' new [] /\ inner_ok (home ++ new) at_ (own_fifos def) inner.
Proof.
  intros Hw Hd Hlast Hlen H new. subst new.
  refine (try_fold_ind (fun done (s : AiePartition * bmap string Binding) => wired g top_def home p s.1 (map (pair at_) (own_of done)) [] /\
    inner_ok (home ++ map (pair at_) (own_of done)) at_ (own_of done) s.2) _ _ _ _ _ _ H).
  - simpl. split; [apply wired_nil|]. intros n. simpl. apply not_elem_of_nil.
  - intros l1 e l2 [p1 i1] [p2 i2] E [Hv Hi] He. cbn [fst snd] in *.
    eapply (net_wired g top_def _ path child def at_ l1) in He as (new & Hv' & -> & Hi'); [|done..|rewrite E; apply elem_of_app; right; by left|by eapply wired_length|exact Hi].
    rewrite own_of_snoc in *. rewrite map_app, app_assoc. split; [|exact Hi']. by apply (wired_trans g top_def home p p1 p2 _ _ [] []).
Qed.

Lemma child_scope_env home def at_ task_name child inner scope names args out : inner_ok home at_ (own_fifos def) inner -> scope_env home scope names ->
  try_fold (child_binding task_name child inner scope) [] args = Ok out -> scope_env home out (wires (inner_wire def at_ names) args).
Proof.
  intros Hi Hs H. refine (try_fold_ind (fun done out => scope_env home out (wires (inner_wire def at_ names) done)) _ _ _ _ _ _ H); [by intros n|].
  intros l1 [port a] l2 s s' _ Ha Hb. unfold child_binding in Hb. apply rbind_ok in Hb as (b & Hb & [= <-]). unfold wires in *. rewrite omap_app. cbn [omap list_omap fst snd].
  assert (exists w, wire_at home b = Some w /\ inner_wire def at_ names a = Some w) as (w & Hw & Ew).
  { unfold inner_wire. destruct (arg a) as [n|v]; [|injection Hb as <-; by eexists]. apply ok_or_ok in Hb. specialize (Hi n). specialize (Hs n).
    destruct (BMap.get n inner) as [b'|].
    - injection Hb as ->. destruct Hi as [Hw Hn]. rewrite bool_decide_true by done. by eexists.
    - rewrite bool_decide_false by done. rewrite Hb in Hs. exact Hs. }
  rewrite Ew. cbn [option_map]. rewrite from_list_snoc. by apply scope_env_insert.
Qed.

Lemma last_snoc_at (at_ : place) e : last (at_ ++ [e]) = Some e.
Proof. apply last_snoc. Qed.

Lemma visit_wired fuel g top_def : wf_graph g -> forall home p task_name index path scope names at_ p', length home = length (streams p) ->
  scope_env home scope names -> last at_ = Some (task_name, index) -> visit fuel g p task_name index path scope = Ok p' ->
  wired g top_def home p p' (inner_fifos fuel g task_name at_) (leaf_envs fuel g task_name at_ names).
Proof.
  intros Hwf. induction fuel as [|fuel IH]; intros home p tn idx path scope names at_ p' Hlen Hs Hlast H; [done|]. cbn [visit] in H.
  apply rbind_ok in H as (def & Hdef%find_task_ok & H). cbn [inner_fifos leaf_envs]. rewrite Hdef. case_bool_decide as Hl.
  - apply rbind_ok in H as (k & Hk & [= <-]). split; [exists []; rewrite app_nil_r; by split|]. exists [k]. split; [done|]. rewrite app_nil_r.
    constructor; [|constructor]. by eapply kernel_is_wired.
  - apply rbind_ok in H as ([p1 inner] & Hn & H). eapply (nets_wired g top_def home) in Hn as [Hv Hi]; [|by eapply wf_each_task|done|by exists idx|done].
    assert (forall h1, length h1 = length (streams p1) -> scope_env h1 scope names -> inner_ok h1 at_ (own_fifos def) inner ->
      wired g top_def h1 p1 p' (flat_map (fun e => inner_fifos fuel g e.1.1 (at_ ++ [e.1])) (task_instances def))
        (flat_map (fun e => leaf_envs fuel g e.1.1 (at_ ++ [e.1]) (wires (inner_wire def at_ names) (inst_args e.2))) (task_instances def))) as Hrest.
    2: { refine (wired_trans _ _ _ _ _ _ _ _ _ _ Hv (Hrest _ _ _ Hi)); [by eapply wired_length|by apply scope_env_app]. }
    clear home Hlen Hs Hv Hi. intros h1 Hlen1 Hs Hi.
    refine (try_fold_ind (fun done q => wired g top_def h1 p1 q (flat_map (fun e => inner_fifos fuel g e.1.1 (at_ ++ [e.1])) done)
      (flat_map (fun e => leaf_envs fuel g e.1.1 (at_ ++ [e.1]) (wires (inner_wire def at_ names) (inst_args e.2))) done)) _ _ _ _ _ _ H); [apply wired_nil|].
    intros l1 [[child ci] i] l2 a a' _ Ha Hb. apply rbind_ok in Hb as (fo & _ & Hb). apply rbind_ok in Hb as (cs & Hcs & Hb).
    rewrite !flat_map_app. apply (wired_trans g top_def h1 p1 a a'); [exact Ha|]. cbn [flat_map fst snd]. rewrite !app_nil_r.
    pose proof (wired_length _ _ _ _ _ _ _ Ha Hlen1) as Hlen2. set (new := flat_map _ l1) in *. clearbody new.
    assert (Hi' : inner_ok (h1 ++ new) at_ (own_fifos def) inner).
    { intros n. specialize (Hi n). destruct (BMap.get n inner) as [b|]; [|done]. destruct Hi as [Hw Hn]. split; [|done]. destruct b as [j|v]; [|done].
      simpl in *. destruct (h1 !! j) as [h|] eqn:E; [|done]. by rewrite (lookup_app_l_Some _ _ _ _ E). }
    eapply child_scope_env in Hcs; [|exact Hi'|by apply scope_env_app].
    eapply (IH _ (set_forever a fo)) in Hb; [|exact Hlen2|exact Hcs|apply last_snoc]. destruct Hb as [Hb1 Hb2]. by split.
Qed.

(** *** The instances the top invokes *)

Definition is_inner (h : place * string) : bool := match h.1 with [] => false | _ => true end.

(** The argument names the FIFO [name]. *)
Definition names_fifo (name : string) (a : Arg) : Prop := arg a = AName name /\ is_stream (cat a) = true.

(** The state between two instances, or two arguments of one; [l] are the
    instances done, and [args] the arguments bound. *)
Record homed (g : TaskGraph) (top_def : Task) (fuel : nat) (b : Builder) (home : list (place * string))
    (l : list (string * nat * TaskInstance)) (args : list Arg) : Prop := {
  hm_streams : Forall2 (stream_of g top_def) home (streams (partition b));
  hm_top : forall name i, BMap.get name (top_streams b) = Some i <-> home !! i = Some ([], name);
  hm_inner : List.filter is_inner home = top_inner fuel g l;
  hm_bound : forall name, ([], name) ∈ home <-> exists a, a ∈ args /\ names_fifo name a;
  hm_kernels : Forall2 (kernel_wired g home) (top_envs fuel g l) (kernels (partition b));
}.

Lemma homed_same g top_def fuel b home l args a : homed g top_def fuel b home l args ->
  (forall name, names_fifo name a -> ([], name) ∈ home) -> homed g top_def fuel b home l (args ++ [a]).
Proof.
  intros [H1 H2 H3 H4 H5] Ha. split; [done..| |done]. intros name. rewrite H4. split.
  - intros (x & Hx & Hn). exists x. split; [apply elem_of_app; by left|done].
  - intros (x & [Hx| ->%list_elem_of_singleton]%elem_of_app & Hn); [by exists x|]. by apply H4, Ha.
Qed.

Lemma top_binding_homed g top_def fuel b child port a b' binding home l args : BMap.get (top g) (graph_tasks g) = Some top_def ->
  homed g top_def fuel b home l args -> top_binding g b child port a = Ok (b', binding) ->
  exists new w, homed g top_def fuel b' (home ++ new) l (args ++ [a]) /\ wire_at (home ++ new) binding = Some w /\ top_wire a = Some w.
Proof.
  intros Ht Hb H. unfold top_binding in H. apply rbind_ok in H as (t & Ht'%find_task_ok & H). rewrite Ht in Ht'. injection Ht' as <-.
  unfold top_wire. destruct (arg a) as [name|v] eqn:Ea.
  2: { injection H as <- <-. exists [], (WValue (Constant v)). rewrite ?app_nil_r. split; [|done]. apply homed_same; [done|]. intros n [Hn _]. congruence. }
  destruct (is_scalar (cat a)) eqn:Esc.
  { injection H as <- <-. exists [], (WValue (Runtime name)). rewrite ?app_nil_r. split; [|done]. apply homed_same; [done|]. intros n [_ Hn]. by destruct (cat a). }
  destruct (is_stream (cat a)) eqn:Est; [|done]. destruct (BMap.get name (top_streams b)) as [i|] eqn:Ei.
  - injection H as <- <-. apply (hm_top _ _ _ _ _ _ _ Hb) in Ei. exists [], (WFifo [] name). rewrite ?app_nil_r. split_and!; [|simpl; by rewrite Ei|done].
    apply homed_same; [done|]. intros n [Hn _]. rewrite Ea in Hn. injection Hn as <-. by eapply list_elem_of_lookup_2.
  - apply rbind_ok in H as (f & Hf%ok_or_ok & H). destruct (BMap.get name (fifos top_def)) as [f'|] eqn:Ef; [|done].
    destruct (fifo_depth f') eqn:Ed; [|done]. injection Hf as ->. apply rbind_ok in H as (words & _ & H). apply rbind_ok in H as (def & _ & H). cbv zeta in H.
    apply rbind_ok in H as (kind & Hk & H). unfold push_stream in H. injection H as <- <-. destruct Hb as [B1 B2 B3 B4 B5].
    apply (top_stream_kind_ok g top_def _ _ _ _ _ _ (let? p := task_port def port in port_aie_frame p)) in Hk; [|done|by rewrite Ed].
    pose proof (Forall2_length _ _ _ B1) as Hlen. exists [([], name)], (WFifo [] name). split_and!.
    + split; simpl.
      * apply Forall2_app; [done|]. constructor; [|constructor]. by split.
      * intros n i. rewrite BMap.get_insert. destruct (decide (n = name)) as [->|Hne].
        -- split; [intros [= <-]; rewrite <- Hlen; by apply list_lookup_middle|]. intros [Hi|[Hi Hx]]%lookup_app_Some.
           ++ apply B2 in Hi. congruence.
           ++ apply list_lookup_singleton_Some in Hx as [Hx _]. f_equal. lia.
        -- rewrite B2. split; [apply lookup_app_l_Some|]. intros [Hi|[Hi Hx]]%lookup_app_Some; [done|].
           apply list_lookup_singleton_Some in Hx as [_ [= <-]]. done.
      * rewrite List.filter_app. simpl. by rewrite app_nil_r.
      * intros n. rewrite elem_of_app, B4, list_elem_of_singleton. split.
        -- intros [(x & Hx & Hn)|[= ->]]; [exists x|exists a]; (split; [apply elem_of_app|]).
           ++ by left.
           ++ done.
           ++ right. by left.
           ++ by split.
        -- intros (x & [Hx| ->%list_elem_of_singleton]%elem_of_app & Hn); [left; by exists x|]. right. destruct Hn as [Hn _]. rewrite Ea in Hn. by injection Hn as ->.
      * eapply Forall2_impl; [exact B5|]. intros. by apply kernel_wired_app.
    + simpl. by rewrite <- Hlen, list_lookup_middle.
    + done.
Qed.

Lemma args_homed g top_def fuel b child home l done_ args b' scope : BMap.get (top g) (graph_tasks g) = Some top_def -> homed g top_def fuel b home l done_ ->
  try_fold (fun s e =>
    let '(b, scope) := (s : Builder * bmap string Binding) in
    let '(port, a) := (e : string * Arg) in
    let! (b, binding) := top_binding g b child port a in
    Ok (b, BMap.insert port binding scope)) (b, []) args = Ok (b', scope) ->
  exists new, homed g top_def fuel b' (home ++ new) l (done_ ++ map snd args) /\ scope_env (home ++ new) scope (wires top_wire args).
Proof.
  intros Ht Hb H. refine (try_fold_ind (fun (args1 : list (string * Arg)) (s : Builder * bmap string Binding) =>
    exists new, homed g top_def fuel s.1 (home ++ new) l (done_ ++ map snd args1) /\ scope_env (home ++ new) s.2 (wires top_wire args1)) _ _ _ _ _ _ H).
  - exists []. simpl. rewrite !app_nil_r. split; [done|]. by intros n.
  - clear H Hb b b' scope. intros l1 [port a] l2 [b sc] [b' sc'] _ (new & Hb & Hs) H. cbn [fst snd] in *. apply rbind_ok in H as ([b1 bd] & H & [= <- <-]).
    eapply top_binding_homed in H as (new' & w & Hb' & Hw & Ew); [|done|exact Hb]. exists (new ++ new'). rewrite map_app, !app_assoc. split; [exact Hb'|].
    unfold wires. rewrite omap_app. cbn [omap list_omap fst snd]. rewrite Ew. cbn [option_map]. rewrite from_list_snoc. apply scope_env_insert; [|done].
    by apply scope_env_app.
Qed.

Lemma inner_fifos_under fuel g : forall task_name at_ h, h ∈ inner_fifos fuel g task_name at_ -> at_ `prefix_of` h.1.
Proof.
  induction fuel as [|fuel IH]; intros tn at_ h Hh; cbn [inner_fifos] in Hh; [by apply not_elem_of_nil in Hh|].
  destruct (BMap.get tn (graph_tasks g)) as [def|]; [|by apply not_elem_of_nil in Hh]. case_bool_decide; [by apply not_elem_of_nil in Hh|].
  apply elem_of_app in Hh as [Hh|Hh].
  - apply list_elem_of_In, in_map_iff in Hh as (n & <- & _). done.
  - apply list_elem_of_In, in_flat_map in Hh as (e & _ & Hh). apply list_elem_of_In, IH in Hh. etransitivity; [|exact Hh]. by apply prefix_app_r.
Qed.

Lemma inner_fifos_inner fuel g task_name e h : h ∈ inner_fifos fuel g task_name [e] -> is_inner h = true.
Proof. intros [k Hk]%inner_fifos_under. unfold is_inner. by rewrite Hk. Qed.

Lemma filter_all {A} (f : A -> bool) l : (forall x, x ∈ l -> f x = true) -> List.filter f l = l.
Proof. induction l as [|x l IH]; intros H; [done|]. simpl. rewrite H by by left. f_equal. apply IH. intros y Hy. apply H. by right. Qed.

Lemma derive_instance_homed fuel g top_def child b home l args index i b' : wf_graph g -> BMap.get (top g) (graph_tasks g) = Some top_def ->
  homed g top_def fuel b home l args -> derive_instance fuel g child b (index, i) = Ok b' ->
  exists new, homed g top_def fuel b' (home ++ new) (l ++ [(child, index, i)]) (args ++ map snd (inst_args i)).
Proof.
  intros Hwf Ht Hb H. unfold derive_instance in H. apply rbind_ok in H as (fo & _ & H). apply rbind_ok in H as ([b1 sc] & Ha & H).
  assert (Hb0 : homed g top_def fuel (mkBuilder (set_forever (partition b) fo) (top_streams b)) home l args) by (destruct Hb; by split).
  apply (args_homed g top_def fuel _ _ home l args) in Ha as (new & Hb1 & Hs); [|done..]. apply rbind_ok in H as (p & Hp & [= <-]).
  destruct Hb1 as [B1 B2 B3 B4 B5]. eapply (visit_wired fuel g top_def Hwf (home ++ new) _ _ _ _ _ _ [(child, index)]) in Hp; [|by eapply Forall2_length|exact Hs|done].
  set (more := inner_fifos fuel g child [(child, index)]) in *. assert (Hmore : forall h, h ∈ more -> is_inner h = true) by (intros h; apply inner_fifos_inner).
  destruct Hp as [(ss & E1 & F1) (ks & E2 & F2)]. exists (new ++ more). rewrite app_assoc. split; simpl.
  - rewrite E1. by apply Forall2_app.
  - intros n j. rewrite B2. split; [apply lookup_app_l_Some|]. intros [Hj|[_ Hj]]%lookup_app_Some; [done|]. by apply list_elem_of_lookup_2, Hmore in Hj.
  - rewrite List.filter_app, B3, (filter_all _ more) by done. unfold top_inner. rewrite flat_map_app. simpl. by rewrite app_nil_r.
  - intros n. rewrite <- B4, (elem_of_app _ more). split; [intros [?|Hn]; [done|by apply Hmore in Hn]|by left].
  - rewrite E2. unfold top_envs. rewrite flat_map_app. simpl. rewrite app_nil_r. apply Forall2_app; [|exact F2].
    eapply Forall2_impl; [exact B5|]. intros. by apply kernel_wired_app.
Qed.

Definition bound_args (l : list (string * nat * TaskInstance)) : list Arg := flat_map (fun e => map snd (inst_args e.2)) l.

Lemma derive_child_homed fuel g top_def b e l home b' : wf_graph g -> BMap.get (top g) (graph_tasks g) = Some top_def ->
  homed g top_def fuel b home l (bound_args l) -> derive_child fuel g b e = Ok b' ->
  let l' := l ++ List.filter (fun e => is_aie_task g e.1.1) (of_child e) in exists home', homed g top_def fuel b' home' l' (bound_args l').
Proof.
  intros Hwf Ht Hb H l'. subst l'. unfold derive_child in H. apply rbind_ok in H as (def & Hd%find_task_ok & H). rewrite (of_child_filter g e def Hd).
  destruct (synth_is_aie def); simpl in H; [|injection H as <-; rewrite app_nil_r; by exists home].
  refine (try_fold_ind (fun done b => exists home', let l' := l ++ map (fun p => (e.1, p.1, p.2)) done in homed g top_def fuel b home' l' (bound_args l')) _ _ _ _ _ _ H).
  - simpl. rewrite app_nil_r. by exists home.
  - clear H Hb. intros l1 [index i] l2 a a' _ (h & Ha) Hs. eapply derive_instance_homed in Hs as (new & Hs); [|done..|exact Ha]. exists (h ++ new).
    cbv zeta in *. rewrite map_app, app_assoc. unfold bound_args in *. rewrite flat_map_app. simpl. rewrite app_nil_r. exact Hs.
Qed.

Lemma derive_homed g top_def b : wf_graph g -> BMap.get (top g) (graph_tasks g) = Some top_def ->
  try_fold (derive_child (derive_fuel g) g) (mkBuilder (mkPartition [] [] false) []) (tasks top_def) = Ok b ->
  exists home, homed g top_def (derive_fuel g) b home (aie_instances g top_def) (bound_args (aie_instances g top_def)).
Proof.
  intros Hwf Ht H. refine (try_fold_ind (fun done b => exists home, let l := List.filter (fun e => is_aie_task g e.1.1) (flat_map of_child done) in
    homed g top_def (derive_fuel g) b home l (bound_args l)) _ _ _ _ _ _ H).
  - exists []. split; simpl; [constructor|done|done| |constructor].
    intros n. split; [intros Hn; by apply not_elem_of_nil in Hn|]. intros (a & Ha & _). by apply not_elem_of_nil in Ha.
  - clear H. intros l1 e l2 a a' _ (h & Ha) Hs. cbv zeta in *. rewrite flat_map_app. simpl. rewrite app_nil_r, List.filter_app. by eapply derive_child_homed.
Qed.

(** *** One stream for a FIFO *)

Lemma NoDup_by_part {A} (f : A -> bool) l : NoDup (List.filter f l) ->
  (forall i j x, l !! i = Some x -> l !! j = Some x -> f x = false -> i = j) -> NoDup l.
Proof.
  induction l as [|x l IH]; intros Hn Hp; [constructor|]. constructor.
  - intros Hx. destruct (f x) eqn:E; simpl in Hn; rewrite E in Hn.
    + apply NoDup_cons in Hn as [Hn _]. apply Hn, list_elem_of_In, filter_In. split; [by apply list_elem_of_In|done].
    + apply list_elem_of_lookup in Hx as [j Hj]. by specialize (Hp O (S j) x eq_refl Hj E).
  - apply IH; [simpl in Hn; destruct (f x); [by apply NoDup_cons in Hn as [_ Hn]|done]|]. intros i j y Hi Hj Hy. specialize (Hp (S i) (S j) y Hi Hj Hy). lia.
Qed.

Lemma NoDup_keyed {A K} (l : list (K * A)) x y : NoDup (map fst l) -> x ∈ l -> y ∈ l -> x.1 = y.1 -> x = y.
Proof.
  intros Hn [i Hi]%list_elem_of_lookup [j Hj]%list_elem_of_lookup E. assert (i = j) as ->; [|congruence].
  eapply (NoDup_lookup (map fst l)); [done|by eapply (list_lookup_fmap_Some_2 fst)|]. rewrite E. by eapply (list_lookup_fmap_Some_2 fst).
Qed.

Lemma prefix_next (at_ : place) a b p : (at_ ++ [a]) `prefix_of` p -> (at_ ++ [b]) `prefix_of` p -> a = b.
Proof. intros [k ->] [k' E]. rewrite <- !app_assoc in E. by apply app_inv_head in E as [= ->]. Qed.

Lemma inner_fifos_nodup fuel g : wf_graph g -> forall task_name at_, NoDup (inner_fifos fuel g task_name at_).
Proof.
  intros Hwf. induction fuel as [|fuel IH]; intros tn at_; cbn [inner_fifos]; [constructor|]. destruct (BMap.get tn (graph_tasks g)) as [def|] eqn:Ed; [|constructor].
  case_bool_decide; [constructor|]. pose proof (wf_each_task _ Hwf _ _ Ed) as Hw. apply NoDup_app. split_and!.
  - apply NoDup_fmap_2; [intros a b; congruence|]. unfold own_fifos. pose proof (BMap.wf_NoDup _ (wf_fifos _ Hw)) as Hn. unfold BMap.keys in Hn.
    induction (fifos def) as [|e l IHl]; [constructor|]. simpl in *. apply NoDup_cons in Hn as [Hn1 Hn2]. destruct (connected e.2); [|by apply IHl].
    simpl. constructor; [|by apply IHl]. intros (x & E & Hx)%list_elem_of_fmap. apply Hn1. rewrite E. apply list_elem_of_fmap. exists x. split; [done|].
    apply list_elem_of_In in Hx. apply filter_In in Hx as [Hx _]. by apply list_elem_of_In.
  - intros h (n & -> & _)%list_elem_of_fmap (e & _ & Hh)%list_elem_of_In%in_flat_map. apply list_elem_of_In, inner_fifos_under in Hh as [k Hk]. simpl in Hk.
    apply (f_equal length) in Hk. rewrite !length_app in Hk. simpl in Hk. lia.
  - pose proof (task_instances_nodup _ Hw) as Hn. apply NoDup_flat_map; [by eapply NoDup_fmap_1|done|]. intros x y z Hx Hy Hzx%inner_fifos_under Hzy%inner_fifos_under.
    eapply NoDup_keyed; [exact Hn|done|done|]. by eapply prefix_next.
Qed.

Lemma top_inner_nodup fuel g top_def : wf_graph g -> BMap.get (top g) (graph_tasks g) = Some top_def -> NoDup (top_inner fuel g (aie_instances g top_def)).
Proof.
  intros Hwf Ht. pose proof (task_instances_nodup _ (wf_each_task _ Hwf _ _ Ht)) as Hn. unfold aie_instances. apply NoDup_flat_map.
  - apply NoDup_ListNoDup, List.NoDup_filter, NoDup_ListNoDup. by eapply NoDup_fmap_1.
  - intros x _. by apply inner_fifos_nodup.
  - intros x y z Hx Hy Hzx%inner_fifos_under Hzy%inner_fifos_under. apply list_elem_of_In in Hx, Hy. apply filter_In in Hx as [Hx%list_elem_of_In _], Hy as [Hy%list_elem_of_In _].
    eapply NoDup_keyed; [exact Hn|done|done|]. by eapply (prefix_next []).
Qed.

(** An instance on the AI Engine that the top invokes binds a port to [name]. *)
Definition aie_binds (g : TaskGraph) (top_def : Task) (name : string) : Prop :=
  exists child k i port a, (child, k, i) ∈ task_instances top_def /\ is_aie_task g child = true /\ (port, a) ∈ inst_args i /\ names_fifo name a.

(** How the partition is wired. *)
Record wiring_ok (g : TaskGraph) (top_def : Task) (p : AiePartition) (home : list (place * string)) : Prop := {
  wo_streams : Forall2 (stream_of g top_def) home (streams p);
  wo_once : NoDup home;
  wo_inner : List.filter is_inner home = top_inner (derive_fuel g) g (aie_instances g top_def);
  wo_top : forall name, ([], name) ∈ home <-> aie_binds g top_def name;
  wo_kernels : Forall2 (kernel_wired g home) (top_envs (derive_fuel g) g (aie_instances g top_def)) (kernels p);
}.

Lemma bound_args_spec g top_def name : (exists a, a ∈ bound_args (aie_instances g top_def) /\ names_fifo name a) <-> aie_binds g top_def name.
Proof.
  split.
  - intros (a & ([[child k] i] & Hi & Ha)%list_elem_of_In%in_flat_map & Hn). apply filter_In in Hi as [Hi Hs]. apply in_map_iff in Ha as ([port a'] & <- & Ha).
    exists child, k, i, port, a'. split_and!; [by apply list_elem_of_In|done|by apply list_elem_of_In|done].
  - intros (child & k & i & port & a & Hi & Hs & Ha & Hn). exists a. split; [|done]. apply list_elem_of_In, in_flat_map. exists (child, k, i). split.
    + apply filter_In. split; [by apply list_elem_of_In|done].
    + apply in_map_iff. exists (port, a). split; [done|by apply list_elem_of_In].
Qed.

Lemma derive_wired g p top_def : wf_graph g -> derive g = Ok (Some p) -> BMap.get (top g) (graph_tasks g) = Some top_def -> exists home, wiring_ok g top_def p home.
Proof.
  intros Hwf H Ht. unfold derive in H. destruct (negb _); [done|]. apply rbind_ok in H as (t & Ht'%find_task_ok & H). rewrite Ht in Ht'. injection Ht' as <-.
  apply rbind_ok in H as ([] & _ & H). apply rbind_ok in H as (b & Hb & H). apply rbind_ok in H as ([] & _ & H). apply rbind_ok in H as (q & Hq%mark_cycles_ok & [= <-]).
  apply derive_homed in Hb as (home & [B1 B2 B3 B4 B5]); [|done..]. destruct Hq as [Ms _ Mk _]. exists home. split; [by rewrite Ms| |done| |].
  - apply (NoDup_by_part is_inner); [rewrite B3; by apply top_inner_nodup|]. intros i j [pl n] Hi Hj Hx. destruct pl; [|done]. apply B2 in Hi, Hj. congruence.
  - intros name. by rewrite B4, bound_args_spec.
  - clear -B5 Mk. revert B5. generalize (top_envs (derive_fuel g) g (aie_instances g top_def)). induction Mk as [|k k' ks ks' [o ->] _ IH]; intros es H; inversion H; subst; constructor; [done|by apply IH].
Qed.

(** The graph records the ends of the FIFOs of the top as they are bound: a FIFO
    has an end on the AI Engine when an instance there binds it, and only then. *)
Definition recorded_ends (g : TaskGraph) (top_def : Task) : Prop :=
  forall name f, BMap.get name (fifos top_def) = Some f ->
  endpoint_is_aie g (produced_by f) || endpoint_is_aie g (consumed_by f) = true <-> aie_binds g top_def name.

(** A FIFO of the top with one end on the AI Engine and the other off it. *)
Definition boundary (g : TaskGraph) (top_def : Task) (name : string) : Prop :=
  exists f, BMap.get name (fifos top_def) = Some f /\ xorb (endpoint_is_aie g (produced_by f)) (endpoint_is_aie g (consumed_by f)) = true.

Lemma plio_boundary g top_def p home name : wiring_ok g top_def p home -> recorded_ends g top_def ->
  (exists i s, streams p !! i = Some s /\ ~ is_net s /\ s_fifo s = name) <-> boundary g top_def name.
Proof.
  intros [W1 _ _ W4 _] Hr. split.
  - intros (i & s & Hs & Hn & <-). destruct (Forall2_lookup_r _ _ _ _ _ W1 Hs) as ([at_ n] & Hh & Hf & Ho). simpl in Hf, Ho. destruct (last at_) as [e|] eqn:El.
    + destruct Ho as (def & f & _ & _ & Hk). destruct Hn. unfold is_net. by rewrite Hk.
    + apply last_None in El as ->. destruct Ho as (f & Hg & _ & Hk). exists f. split; [done|]. unfold is_net in Hn.
      destruct (s_kind s) as [input width|]; [|by destruct Hn]. destruct Hk as (_ & Hk & _).
      assert (Ha : aie_binds g top_def (s_fifo s)) by (apply W4; rewrite Hf; by eapply list_elem_of_lookup_2). apply (Hr _ _ Hg) in Ha.
      by destruct (endpoint_is_aie g (produced_by f)), (endpoint_is_aie g (consumed_by f)).
  - intros (f & Hg & Hx). assert (Ha : aie_binds g top_def name).
    { apply (Hr _ _ Hg). by destruct (endpoint_is_aie g (produced_by f)), (endpoint_is_aie g (consumed_by f)). }
    apply W4, list_elem_of_lookup in Ha as [i Hi]. destruct (Forall2_lookup_l _ _ _ _ _ W1 Hi) as (s & Hs & Hf & f' & Hg' & _ & Hk). simpl in Hf. exists i, s.
    split_and!; [done| |done]. rewrite Hf, Hg in Hg'. injection Hg' as <-. unfold is_net. destruct (s_kind s); [tauto|]. destruct Hk as (H1 & H2 & _). by rewrite H1, H2 in Hx.
Qed.

(** C36: the AI Engine partition is exactly the AI Engine half of the design.
    Its kernels are the leaves under the AI Engine instances of the top, in the
    order of the invocations.  Every FIFO an instance on the AI Engine binds at the
    top, and every connected FIFO of the task instances below, has one stream, and
    there are no others; the stream ports of a kernel are bound, channel by channel,
    to the streams of the FIFOs that their names stand for in the kernel's instance,
    and a scalar port carries the constant or the argument of the top that its name
    stands for.  Every pin names an instance there is and no two kernels share a
    tile; no invocation is sequential, and the graph runs forever when one is
    detached.  A PLIO is a FIFO the top declares, no wider than a PLIO carries, not
    with both ends on the AI Engine; and when the graph records the ends of the FIFOs
    of the top as they are bound, the PLIOs are exactly the FIFOs with one end on the
    AI Engine and the other off it. *)
Theorem aie_partition_sound g p : wf_graph g -> derive g = Ok (Some p) ->
  exists top_def home, BMap.get (top g) (graph_tasks g) = Some top_def /\ partition_ok g top_def p /\ wiring_ok g top_def p home /\
    (recorded_ends g top_def -> forall name, (exists i s, streams p !! i = Some s /\ ~ is_net s /\ s_fifo s = name) <-> boundary g top_def name).
Proof.
  intros Hwf H. pose proof H as (top_def & b & Hd)%derive_ok. pose proof (dv_top _ _ _ _ Hd) as Ht. destruct (derive_wired g p top_def Hwf H Ht) as [home Hw].
  exists top_def, home. split_and!; [done|by apply aie_partition_of|done|]. intros Hr name. by eapply plio_boundary.
Qed.

(** C37: the kernels that must keep program order are exactly those a cycle of
    streams runs through, by way of other kernels or of PL instances of the
    top. *)
Theorem ordered_iff_cycle g p top_def i k : derive g = Ok (Some p) -> BMap.get (top g) (graph_tasks g) = Some top_def -> kernels p !! i = Some k ->
  k_ordered k = true <-> tc (flows g top_def p) (Kernel i) (Kernel i).
Proof.
  intros H Ht Hk. apply derive_ok in H as (t & b & [Ht' _ _ _ Hm]). rewrite Ht in Ht'. injection Ht' as <-. exact (mk_ordered _ _ _ _ Hm i k Hk).
Qed.
