(* ===== verification/AiePl.v ===== *)
(** * The PL projection of a graph with an AI Engine half

    What [AiePartition::pl_projection] keeps of the task graph, for the
    partition [derive] returns. *)

From S2P Require Import Prelude RustStd BTreeMap Geometry Names Ir Flatten FlattenSpec FlattenProps Aie AieProps.

(** The FIFO of a PLIO, cut at its AI Engine side. *)
Definition cut_fifo (g : TaskGraph) (f : InterconnectDefinition) : InterconnectDefinition :=
  if endpoint_is_aie g (produced_by f) then mkFifo None (consumed_by f) None else mkFifo None None (produced_by f).

Definition aie_net (g : TaskGraph) (f : InterconnectDefinition) : bool := endpoint_is_aie g (produced_by f) && endpoint_is_aie g (consumed_by f).

Definition is_plio (s : AieStream) : bool := match s_kind s with Plio _ _ => true | Net _ => false end.

(** What the streams seen leave of the FIFO [name]. *)
Definition left_of (g : TaskGraph) (seen : list AieStream) (name : string) (f : InterconnectDefinition) : option InterconnectDefinition :=
  if existsb (fun s => is_plio s && bool_decide (s_fifo s = name)) seen then Some (cut_fifo g f)
  else if aie_net g f && existsb (fun s => bool_decide (s_fifo s = name)) seen then None else Some f.

(** The port a PLIO becomes. *)
Definition plio_port (s : AieStream) (p : Port) : Prop :=
  port_name p = s_fifo s /\ match s_kind s with
  | Plio input width => port_cat p = (if input then Ostream else Istream) /\ port_aie_plio p = Some width
  | Net _ => False end.

Record projected (g : TaskGraph) (original t0 : Task) (seen : list AieStream) (t : Task) : Prop := {
  pj_wf : BMap.wf (fifos t);
  pj_tasks : tasks t = tasks t0;
  pj_fifos : forall name, BMap.get name (fifos t) = (let? f := BMap.get name (fifos original) in left_of g seen name f);
  pj_ports : exists new, ports t = ports t0 ++ new /\ Forall2 plio_port (List.filter is_plio seen) new;
}.

Section projection.
Context (g : TaskGraph) (top_def : Task) (p : AiePartition).
Context (Hok : partition_ok g top_def p).

Lemma plio_once l1 s l2 : streams p = l1 ++ s :: l2 -> is_plio s = true ->
  existsb (fun s' => is_plio s' && bool_decide (s_fifo s' = s_fifo s)) l1 = false.
Proof using All.
  intros E Hs. apply not_true_iff_false. intros H. apply existsb_exists in H as (s' & Hin & H). apply andb_true_iff in H as [Hp Hf]. apply bool_decide_eq_true in Hf.
  apply list_elem_of_In, list_elem_of_lookup in Hin as [j Hj]. assert (Hj' : streams p !! j = Some s') by (rewrite E; by apply lookup_app_l_Some).
  assert (Hi : streams p !! length l1 = Some s) by (rewrite E; by rewrite list_lookup_middle).
  assert (Hn : forall x, is_plio x = true -> ~ is_net x) by (unfold is_plio, is_net; intros x; destruct (s_kind x); naive_solver).
  destruct (po_plio _ _ _ Hok _ _ Hi (Hn s Hs)) as [_ Hu]. specialize (Hu j s' Hj' (Hn s' Hp) Hf). apply lookup_lt_Some in Hj. lia.
Qed.

Lemma project_stream_ok t0 l1 s l2 t t' : streams p = l1 ++ s :: l2 -> projected g top_def t0 l1 t -> project_stream g top_def t s = Ok t' ->
  projected g top_def t0 (l1 ++ [s]) t'.
Proof using All.
  intros E [Hw Ht Hf (new & Hp & Hn)] H. unfold project_stream in H. destruct (s_kind s) as [input width|d] eqn:Ek.
  - assert (Hpl : is_plio s = true) by (unfold is_plio; by rewrite Ek).
    assert (Hi : streams p !! length l1 = Some s) by (rewrite E; by rewrite list_lookup_middle).
    destruct (po_plio _ _ _ Hok _ _ Hi) as [(f & Hf0 & _ & Hk) _]; [unfold is_net; rewrite Ek; by intros []|]. rewrite Ek in Hk. destruct Hk as (Hin & Hnet & _).
    assert (Hcur : BMap.get (s_fifo s) (fifos t) = Some f).
    { rewrite Hf, Hf0. unfold left_of. rewrite (plio_once l1 s l2 E Hpl). unfold aie_net. by rewrite Hnet. }
    rewrite Hcur in H. apply rbind_ok in H as (en & _ & H). apply rbind_ok in H as (def & _ & H). apply rbind_ok in H as (pp & _ & [= <-]). simpl. split; simpl.
    + by apply BMap.wf_insert.
    + done.
    + intros name. rewrite BMap.get_insert. unfold left_of. rewrite !existsb_app. simpl. rewrite Hpl, !orb_false_r. destruct (decide (name = s_fifo s)) as [->|Hne].
      * rewrite Hf0, bool_decide_true, orb_true_r by done. unfold cut_fifo. rewrite Hin. by destruct (endpoint_is_aie g (produced_by f)).
      * rewrite Hf. rewrite bool_decide_false, !orb_false_r by done. done.
    + eexists. split; [by rewrite Hp, <- app_assoc|]. rewrite List.filter_app. simpl. rewrite Hpl. apply Forall2_app; [done|]. repeat constructor. simpl. by rewrite Ek.
  - assert (Hpl : is_plio s = false) by (unfold is_plio; by rewrite Ek).
    assert (Hports : exists new0, ports t = ports t0 ++ new0 /\ Forall2 plio_port (List.filter is_plio (l1 ++ [s])) new0).
    { exists new. split; [done|]. rewrite List.filter_app. simpl. rewrite Hpl. by rewrite app_nil_r. }
    assert (Hsame : forall name f, name <> s_fifo s -> left_of g (l1 ++ [s]) name f = left_of g l1 name f).
    { intros name f Hne. unfold left_of. rewrite !existsb_app. simpl. rewrite Hpl, bool_decide_false, !orb_false_r by done. done. }
    assert (Hdrop : forall f, left_of g (l1 ++ [s]) (s_fifo s) f =
      if existsb (fun s' => is_plio s' && bool_decide (s_fifo s' = s_fifo s)) l1 then Some (cut_fifo g f) else if aie_net g f then None else Some f).
    { intros f. unfold left_of. rewrite !existsb_app. simpl. rewrite Hpl, bool_decide_true, !orb_false_r, orb_true_r, andb_true_r by done. done. }
    assert (Hcut : forall f, aie_net g (cut_fifo g f) = false).
    { intros f. unfold aie_net, cut_fifo. destruct (endpoint_is_aie g (produced_by f)) eqn:Ep; simpl; [done|]. by rewrite Ep. }
    destruct (BMap.get (s_fifo s) (fifos t)) as [f|] eqn:Ef.
    + fold (aie_net g f) in H. pose proof Ef as Ef'. rewrite Hf in Ef'. destruct (BMap.get (s_fifo s) (fifos top_def)) as [f0|] eqn:Ef0; [|done].
      destruct (aie_net g f) eqn:En; injection H as <-.
      * split; simpl; [by apply BMap.wf_retain|done| |done]. intros name. rewrite BMap.get_retain by done. rewrite Hf. destruct (decide (name = s_fifo s)) as [->|Hne].
        -- rewrite Ef0, Ef', bool_decide_true, Hdrop by done. simpl. unfold left_of in Ef'. destruct (existsb _ l1) eqn:Ex.
           ++ injection Ef' as <-. by rewrite Hcut in En.
           ++ destruct (aie_net g f0 && _) eqn:Ea; [done|]. injection Ef' as <-. by rewrite En.
        -- destruct (BMap.get name (fifos top_def)) as [h|]; [|done]. rewrite Hsame by done. destruct (left_of g l1 name h); [|done]. by rewrite bool_decide_false.
      * split; [done|done| |done]. intros name. rewrite Hf. destruct (BMap.get name (fifos top_def)) as [h|] eqn:Eh; [|done]. destruct (decide (name = s_fifo s)) as [->|Hne]; [|by rewrite Hsame].
        rewrite Ef0 in Eh. injection Eh as <-. rewrite Hdrop. unfold left_of in Ef' |- *. destruct (existsb (fun s' => is_plio s' && _) l1); [done|]. destruct (aie_net g f0) eqn:Ea; simpl in *; [|done].
        destruct (existsb _ l1); [done|]. injection Ef' as <-. by rewrite Ea in En.
    + injection H as <-. split; [done|done| |done]. intros name. rewrite Hf. destruct (BMap.get name (fifos top_def)) as [h|] eqn:Eh; [|done]. destruct (decide (name = s_fifo s)) as [->|Hne]; [|by rewrite Hsame].
      rewrite Hf, Eh in Ef. rewrite Hdrop. unfold left_of in Ef |- *. destruct (existsb (fun s' => is_plio s' && _) l1); [done|]. by destruct (aie_net g h).
Qed.

Lemma project_streams_ok t0 t : BMap.wf (fifos t0) -> (forall name, BMap.get name (fifos t0) = BMap.get name (fifos top_def)) ->
  try_fold (project_stream g top_def) t0 (streams p) = Ok t -> projected g top_def t0 (streams p) t.
Proof using All.
  intros Hw Hf H. refine (try_fold_ind (fun done t => projected g top_def t0 done t) _ _ _ _ _ _ H).
  - split; [done|done| |by exists []; rewrite app_nil_r]. intros name. rewrite Hf. destruct (BMap.get name (fifos top_def)); [|done]. unfold left_of. simpl. by rewrite andb_false_r.
  - intros l1 s l2 a a' E Ha Hs. by eapply project_stream_ok.
Qed.
End projection.

(** The record of a FIFO end on the AI Engine is right: the instance it names
    has an argument bound to the FIFO. *)
Definition consistent_ends (g : TaskGraph) (top_def : Task) : Prop :=
  forall name f e, BMap.get name (fifos top_def) = Some f -> produced_by f = Some e \/ consumed_by f = Some e -> is_aie_task g (ep_task e) = true ->
  exists k i port a, (ep_task e, k, i) ∈ task_instances top_def /\ In (port, a) (inst_args i) /\ arg a = AName name /\ is_stream (cat a) = true.

Lemma known_fifo g top_def b q name f e : derived g top_def b q -> consistent_ends g top_def ->
  BMap.get name (fifos top_def) = Some f -> produced_by f = Some e \/ consumed_by f = Some e -> is_aie_task g (ep_task e) = true ->
  exists i s, streams q !! i = Some s /\ s_fifo s = name /\ top_stream_ok g top_def s.
Proof.
  intros Hd Hc Hf He Ha. destruct (Hc name f e Hf He Ha) as (k & i & port & a & Hi & Hin & Harg & Hcat).
  assert (Hi' : i ∈ map snd (aie_instances g top_def)).
  { apply list_elem_of_In, in_map_iff. exists (ep_task e, k, i). split; [done|]. apply filter_In. split; [by apply list_elem_of_In|done]. }
  pose proof (bt_args _ _ _ _ _ _ (dv_built _ _ _ _ Hd)) as Hargs. rewrite Forall_forall in Hargs. destruct (Hargs i Hi' port a name Hin Harg Hcat) as [j Hj].
  destruct (bt_top _ _ _ _ _ _ (dv_built _ _ _ _ Hd) name j Hj) as (s & Hs & Hfs & Hok). exists j, s. by rewrite (mk_streams _ _ _ _ (dv_marked _ _ _ _ Hd)).
Qed.

Lemma endpoint_task g o : endpoint_is_aie g o = true -> exists e, o = Some e /\ is_aie_task g (ep_task e) = true.
Proof. destruct o as [e|]; [|done]. intros H. exists e. split; [done|exact H]. Qed.

(** The ends a FIFO keeps are on the PL. *)
Lemma left_on_pl g top_def b q name f f' : derived g top_def b q -> consistent_ends g top_def -> BMap.get name (fifos top_def) = Some f ->
  left_of g (streams q) name f = Some f' -> endpoint_is_aie g (produced_by f') = false /\ endpoint_is_aie g (consumed_by f') = false.
Proof.
  intros Hd Hc Hf H. unfold left_of in H. destruct (existsb (fun s => is_plio s && _) (streams q)) eqn:Ep.
  - injection H as <-. apply existsb_exists in Ep as (s & Hin & Hs). apply andb_true_iff in Hs as [Hs Hn]. apply bool_decide_eq_true in Hn.
    apply list_elem_of_In, list_elem_of_lookup in Hin as [i Hi]. rewrite (mk_streams _ _ _ _ (dv_marked _ _ _ _ Hd)) in Hi.
    destruct (built_plio _ _ _ _ _ _ _ _ (dv_built _ _ _ _ Hd) Hi) as [_ (f0 & Hf0 & _ & Hk)]; [unfold is_net; unfold is_plio in Hs; destruct (s_kind s); naive_solver|].
    rewrite Hn, Hf in Hf0. injection Hf0 as <-. unfold is_plio in Hs. destruct (s_kind s); [|done]. destruct Hk as (_ & Hk & _). unfold cut_fifo.
    destruct (endpoint_is_aie g (produced_by f)) eqn:E; simpl in *; by split.
  - apply not_true_iff_false in Ep. assert (Hno : forall e, produced_by f = Some e \/ consumed_by f = Some e -> is_aie_task g (ep_task e) = true ->
      aie_net g f = true /\ existsb (fun s => bool_decide (s_fifo s = name)) (streams q) = true).
    { intros e He Ha. destruct (known_fifo g top_def b q name f e Hd Hc Hf He Ha) as (i & s & Hs & Hn & f0 & Hf0 & _ & Hk). rewrite Hn, Hf in Hf0. injection Hf0 as <-.
      assert (Hin : In s (streams q)) by (apply list_elem_of_In; by eapply list_elem_of_lookup_2). destruct (s_kind s) eqn:Ek.
      - exfalso. apply Ep, existsb_exists. exists s. split; [done|]. unfold is_plio. by rewrite Ek, bool_decide_true.
      - destruct Hk as (? & ? & _). split; [by apply andb_true_iff|]. apply existsb_exists. exists s. by rewrite bool_decide_true. }
    assert (Hf' : (aie_net g f && existsb (fun s => bool_decide (s_fifo s = name)) (streams q)) = false /\ f' = f) by (destruct (_ && _); by simplify_eq).
    destruct Hf' as [Hf' ->]. split; apply not_true_iff_false; intros (e & He & Ha)%endpoint_task.
    + destruct (Hno e (or_introl He) Ha) as [H1 H2]. by rewrite H1, H2 in Hf'.
    + destruct (Hno e (or_intror He) Ha) as [H1 H2]. by rewrite H1, H2 in Hf'.
Qed.

(** The PL projection is a design of its own. It has exactly the PL tasks
    of the graph, unchanged but for the top; the top keeps its PL children and
    every FIFO except the nets inside the AI Engine, and no FIFO has an end on
    the AI Engine any more; every PLIO is a new stream port of the top, with
    the width and the direction of the stream and the name of its FIFO; and
    the top has a scalar or memory argument to be started with. *)
Theorem pl_projection_closed g p pl top_def : wf_graph g -> derive g = Ok (Some p) -> BMap.get (top g) (graph_tasks g) = Some top_def ->
  consistent_ends g top_def -> pl_projection p g = Ok pl ->
  (forall name, name <> top g -> BMap.get name (graph_tasks pl) = (let? t := BMap.get name (graph_tasks g) in if synth_is_aie t then None else Some t)) /\
  exists t, BMap.get (top pl) (graph_tasks pl) = Some t /\ synth_is_aie top_def = false /\
    (forall child, BMap.get child (tasks t) = (let? l := BMap.get child (tasks top_def) in let? c := BMap.get child (graph_tasks g) in if synth_is_aie c then None else Some l)) /\
    (forall name f, BMap.get name (fifos t) = Some f -> endpoint_is_aie g (produced_by f) = false /\ endpoint_is_aie g (consumed_by f) = false) /\
    (forall name f, BMap.get name (fifos top_def) = Some f -> aie_net g f = false -> is_Some (BMap.get name (fifos t))) /\
    (exists new, ports t = ports top_def ++ new /\ Forall2 plio_port (List.filter is_plio (streams p)) new) /\ has_control t = true.
Proof.
  intros [Wt We] Hder Ht Hc H. pose proof (aie_partition_of g p top_def Hder Ht) as Hpart. apply derive_ok in Hder as (t' & b & Hd).
  pose proof (dv_top _ _ _ _ Hd) as Ht'. rewrite Ht in Ht'. injection Ht' as <-. destruct (We _ _ Ht) as [Wc Wf _].
  unfold pl_projection in H. cbv zeta in H. apply rbind_ok in H as (o & Ho%find_task_ok & H). rewrite Ht in Ho. injection Ho as <-.
  apply rbind_ok in H as (t0 & Ht0%ok_or_ok & H). rewrite BMap.get_retain, Ht in Ht0 by done. destruct (synth_is_aie top_def) eqn:Es; [done|]. injection Ht0 as <-.
  apply rbind_ok in H as (t & Hp & H). apply (project_streams_ok g top_def p Hpart) in Hp; [|done|done]. destruct Hp as [Pw Pt Pf Pp]. simpl in Pt, Pp.
  destruct (negb (has_control t)) eqn:Ectl; [done|]. injection H as <-. simpl. split.
  - intros name Hne. rewrite BMap.get_insert_ne, BMap.get_retain by done. destruct (BMap.get name (graph_tasks g)) as [x|]; [|done]. by destruct (synth_is_aie x).
  - exists t. split; [by rewrite BMap.get_insert_eq|]. split; [done|]. split; [|split; [|split; [|split]]].
    + intros child. rewrite Pt, BMap.get_retain by done. destruct (BMap.get child (tasks top_def)) as [l|]; [|done]. unfold BMap.contains_key. rewrite BMap.get_retain by done.
      destruct (BMap.get child (graph_tasks g)) as [x|]; [|done]. by destruct (synth_is_aie x).
    + intros name f Hf. rewrite Pf in Hf. destruct (BMap.get name (fifos top_def)) as [f0|] eqn:Ef; [|done]. by eapply left_on_pl.
    + intros name f Hf Hn. rewrite Pf, Hf. unfold left_of. rewrite Hn. by destruct (existsb _ _).
    + exact Pp.
    + by apply negb_false_iff in Ectl.
Qed.

(** ** An example

    A PL loader and a PL writer around an AI Engine task with a feedback loop
    of two kernels, and a third kernel after it. *)

Module AieExample.
Definition stream_port c n := plain_port c n "float" 32.
Definition aie (l : TaskLevel) (pins : list AieLocation) (ps : list Port) (ts : bmap string (list TaskInstance)) (fs : bmap string InterconnectDefinition) : Task :=
  mkTask l [] [] [] "" SynthAie pins None ps ts fs None None None.
Definition inst args : TaskInstance := mkInstance None args 0.
Definition fifo depth from to : InterconnectDefinition := mkFifo (Some depth) (Some (mkEndpoint to 0)) (Some (mkEndpoint from 0)).
Definition add := aie Lower [mkAieLocation 3 1 None] [stream_port Istream "a"; stream_port Istream "fb"; stream_port Ostream "o"] [] [].
Definition fork := aie Lower [] [stream_port Istream "i"; stream_port Ostream "b"; stream_port Ostream "o"] [] [].
Definition scale := aie Lower [] [stream_port Istream "i"; plain_port Scalar "k" "int" 32; stream_port Ostream "o"] [] [].
Definition loop := aie Upper [] [stream_port Istream "in"; stream_port Ostream "out"]
  [("Add", [inst [("a", arg_named "in" Istream); ("fb", arg_named "back" Istream); ("o", arg_named "mid" Ostream)]]);
   ("Fork", [inst [("b", arg_named "back" Ostream); ("i", arg_named "mid" Istream); ("o", arg_named "out" Ostream)]])]
  [("back", fifo 4 "Fork" "Add"); ("mid", fifo 2 "Add" "Fork")].
Definition load := simple_task Lower [plain_port Mmap "m" "float" 32; stream_port Ostream "o"] [] [].
Definition store := simple_task Lower [stream_port Istream "i"] [] [].
Definition top_task := simple_task Upper [plain_port Mmap "mem" "float" 32; plain_port Scalar "n" "int" 32]
  [("Load", [inst [("m", arg_named "mem" Mmap); ("o", arg_named "s0" Ostream)]]);
   ("Loop", [inst [("in", arg_named "s0" Istream); ("out", arg_named "s1" Ostream)]]);
   ("Scale", [mkInstance None [("i", arg_named "s1" Istream); ("k", arg_named "n" Scalar); ("o", arg_named "s2" Ostream)] (-1)]);
   ("Store", [inst [("i", arg_named "s2" Istream)]])]
  [("s0", fifo 8 "Load" "Loop"); ("s1", fifo 2 "Loop" "Scale"); ("s2", fifo 2 "Scale" "Store")].
Definition graph : TaskGraph := mkGraph 3 "Top" XilinxVitis []
  [("Add", add); ("Fork", fork); ("Load", load); ("Loop", loop); ("Scale", scale); ("Store", store); ("Top", top_task)].
Definition partition : AiePartition := match derive graph with Ok (Some p) => p | _ => mkPartition [] [] false end.
Definition pl : TaskGraph := match pl_projection partition graph with Ok pl => pl | _ => graph end.
Definition num (n : string) : nat := if bool_decide (n = "Top") then 2%nat else if bool_decide (n = "Loop") then 1%nat else 0%nat.
End AieExample.

Lemma aie_example_derived : derive AieExample.graph = Ok (Some AieExample.partition).
Proof. vm_compute. reflexivity. Qed.

Example aie_example_kernels : map (fun k => (k_name k, k_location k, k_ordered k)) (kernels AieExample.partition) =
  [("Loop_0__Add_0", Some (3, 1), true); ("Loop_0__Fork_0", None, true); ("Scale_0", None, false)].
Proof. vm_compute. reflexivity. Qed.

Example aie_example_streams : map (fun s => (s_name s, s_kind s)) (streams AieExample.partition) =
  [("s0", Plio true 32); ("s1", Net 2); ("Loop_0__back", Net 4); ("Loop_0__mid", Net 2); ("s2", Plio false 32)].
Proof. vm_compute. reflexivity. Qed.

Lemma aie_example_topological : topological AieExample.graph AieExample.num.
Proof.
  split.
  - intros n t _. unfold AieExample.num. simpl. repeat case_bool_decide; lia.
  - intros n t d insts ct Hn%BMap.get_In Hd Hc.
    repeat (destruct Hn as [Hn|Hn]; [injection Hn as <- <-; simpl in Hd;
      repeat (destruct Hd as [Hd|Hd]; [injection Hd as <- <-; vm_compute; lia|]); destruct Hd|]). destruct Hn.
Qed.

Lemma aie_derive_total_witness : derive AieExample.graph <> Panic.
Proof. exact (aie_derive_total AieExample.graph AieExample.num aie_example_topological). Defined.

Lemma aie_example_recorded : recorded_ends AieExample.graph AieExample.top_task.
Proof.
  intros name f Hf%BMap.get_In. split; intros _.
  - simpl in Hf. repeat (destruct Hf as [Hf|Hf]; [injection Hf as <- <-|]); [..|destruct Hf].
    1: eexists "Loop", O, _, "in", (mkArg (AName "s0") _).
    2: eexists "Scale", O, _, "i", (mkArg (AName "s1") _).
    3: eexists "Scale", O, _, "o", (mkArg (AName "s2") _).
    all: split; [apply list_elem_of_In; vm_compute; tauto|split; [|split; [apply list_elem_of_In; vm_compute; tauto|by split]]]; reflexivity.
  - simpl in Hf. repeat (destruct Hf as [Hf|Hf]; [injection Hf as <- <-; reflexivity|]). destruct Hf.
Qed.

Lemma aie_partition_sound_witness : NoDup (omap k_location (kernels AieExample.partition)) /\ run_forever AieExample.partition = true /\
  (exists i s, streams AieExample.partition !! i = Some s /\ ~ is_net s /\ s_fifo s = "s0") /\
  exists home, Forall2 (kernel_wired AieExample.graph home) (top_envs 8 AieExample.graph (aie_instances AieExample.graph AieExample.top_task)) (kernels AieExample.partition).
Proof.
  assert (Hw : wf_graph AieExample.graph) by (by apply wfb_graph).
  destruct (aie_partition_sound _ _ Hw aie_example_derived) as (t & home & Ht & H & W & Hb). injection Ht as <-. split_and!.
  - apply (po_tiles _ _ _ H).
  - rewrite (po_forever _ _ _ H). vm_compute. reflexivity.
  - apply (Hb aie_example_recorded). eexists. split; reflexivity.
  - exists home. exact (wo_kernels _ _ _ _ W).
Defined.

Lemma ordered_iff_cycle_witness : tc (flows AieExample.graph AieExample.top_task AieExample.partition) (Kernel 0) (Kernel 0) /\
  ~ tc (flows AieExample.graph AieExample.top_task AieExample.partition) (Kernel 2) (Kernel 2).
Proof.
  split.
  - apply (ordered_iff_cycle _ _ _ 0%nat (default (mkKernel "" "" "" [] None None false) (kernels AieExample.partition !! 0%nat)) aie_example_derived eq_refl); vm_compute; reflexivity.
  - intros H. apply (ordered_iff_cycle _ _ _ 2%nat (default (mkKernel "" "" "" [] None None false) (kernels AieExample.partition !! 2%nat)) aie_example_derived eq_refl) in H; [|vm_compute; reflexivity].
    vm_compute in H. discriminate H.
Defined.

Lemma aie_example_consistent : consistent_ends AieExample.graph AieExample.top_task.
Proof.
  intros name f e Hf%BMap.get_In He Ha. simpl in Hf.
  repeat (destruct Hf as [Hf|Hf]; [injection Hf as <- <-; simpl in He; destruct He as [[= <-]|[= <-]]; try discriminate Ha|]); [..|destruct Hf].
  all: match goal with |- exists _ _ _ a, _ /\ _ /\ arg a = AName ?n /\ _ => eexists _, _, _, (mkArg (AName n) _) end.
  all: split; [apply list_elem_of_In; vm_compute; tauto|split; [vm_compute; tauto|by split]].
Qed.

Lemma pl_projection_closed_witness : BMap.get "Loop" (graph_tasks AieExample.pl) = None /\ BMap.get "Load" (graph_tasks AieExample.pl) = Some AieExample.load.
Proof.
  assert (Hw : wf_graph AieExample.graph) by (by apply wfb_graph).
  assert (Hp : pl_projection AieExample.partition AieExample.graph = Ok AieExample.pl) by (vm_compute; reflexivity).
  destruct (pl_projection_closed _ _ _ AieExample.top_task Hw aie_example_derived eq_refl aie_example_consistent Hp) as [H _].
  rewrite !H by done. split; reflexivity.
Defined.

(** The name of a kernel need not be unique in the partition: an instance of
    the top may be named like the path of a nested one, and nothing checks. *)
Module Collision.
Definition top_task := set_children AieExample.top_task
  (BMap.insert "Scale" [mkInstance (Some "Loop_0__Add_0") [("i", arg_named "s1" Istream); ("k", arg_named "n" Scalar); ("o", arg_named "s2" Ostream)] 0]
     (tasks AieExample.top_task)) (fifos AieExample.top_task).
Definition graph : TaskGraph := mkGraph 3 "Top" XilinxVitis [] (BMap.insert "Top" top_task (graph_tasks AieExample.graph)).
End Collision.

Example kernel_names_collide : validate Collision.graph = Ok tt /\ exists p, derive Collision.graph = Ok (Some p) /\
  map k_name (kernels p) = ["Loop_0__Add_0"; "Loop_0__Fork_0"; "Loop_0__Add_0"].
Proof. split; [vm_compute; reflexivity|]. eexists. split; vm_compute; reflexivity. Qed.
