(* ===== verification/Shm.v ===== *)
(** * The shared-memory queue

    [frt-shm/src/queue.rs]: the bounded FIFO that the host process and the
    simulator share through a memory-mapped file.  The segment is modelled byte
    by byte; the header is the [repr(C)] struct at its start, little-endian,
    with the two counters the processes exchange.  [represents] relates a
    segment to the abstract FIFO it implements. *)

From S2P Require Import Prelude.

(** ** Bytes *)

Fixpoint le_bytes (n : nat) (v : Z) : list Z :=
  match n with O => [] | S n' => v mod 256 :: le_bytes n' (v / 256) end.

Fixpoint le_value (bs : list Z) : Z :=
  match bs with [] => 0 | b :: bs' => b + 256 * le_value bs' end.

Definition slice (m : list Z) (off n : nat) : list Z := take n (drop off m).
Definition splice (m : list Z) (off : nat) (bs : list Z) : list Z :=
  take off m ++ bs ++ drop (off + length bs) m.

Lemma length_le_bytes n v : length (le_bytes n v) = n.
Proof. revert v; induction n as [|n IH]; intros v; simpl; [done|]. by rewrite IH. Qed.

Lemma le_value_bytes n v : le_value (le_bytes n v) = v mod 256 ^ Z.of_nat n.
Proof.
  revert v; induction n as [|n IH]; intros v.
  - simpl. by rewrite Z.mod_1_r.
  - cbn [le_bytes le_value]. rewrite IH, Nat2Z.inj_succ, Z.pow_succ_r by lia.
    rewrite Z.rem_mul_r by lia. done.
Qed.

Lemma length_slice m off n : (off + n <= length m)%nat -> length (slice m off n) = n.
Proof. intros. unfold slice. rewrite length_take, length_drop. lia. Qed.

Lemma length_splice m off bs : (off + length bs <= length m)%nat -> length (splice m off bs) = length m.
Proof. intros. unfold splice. rewrite !length_app, length_take, length_drop. lia. Qed.

Lemma lookup_splice m off bs i :
  (off + length bs <= length m)%nat ->
  splice m off bs !! i =
    if decide (off <= i < off + length bs)%nat then bs !! (i - off)%nat else m !! i.
Proof.
  intros Hlen. unfold splice. destruct (decide _) as [Hi|Hi].
  - rewrite lookup_app_r by (rewrite length_take; lia). rewrite length_take.
    rewrite lookup_app_l by lia. f_equal. lia.
  - destruct (decide (i < off)%nat).
    + rewrite lookup_app_l by (rewrite length_take; lia). by rewrite lookup_take_lt.
    + rewrite lookup_app_r by (rewrite length_take; lia). rewrite length_take.
      rewrite lookup_app_r by lia. rewrite lookup_drop. f_equal. lia.
Qed.

Lemma lookup_slice m off n i : slice m off n !! i = if decide (i < n)%nat then m !! (off + i)%nat else None.
Proof.
  unfold slice. destruct (decide _).
  - by rewrite lookup_take_lt, lookup_drop.
  - by rewrite lookup_take_ge by lia.
Qed.

Lemma slice_splice_eq m off bs : (off + length bs <= length m)%nat -> slice (splice m off bs) off (length bs) = bs.
Proof.
  intros Hlen. apply list_eq. intros i. rewrite lookup_slice. destruct (decide _).
  - rewrite lookup_splice by done. rewrite decide_True by lia. f_equal. lia.
  - by rewrite lookup_ge_None_2 by lia.
Qed.

Lemma slice_splice_ne m off bs off' n :
  (off + length bs <= length m)%nat -> (off' + n <= off \/ off + length bs <= off')%nat ->
  slice (splice m off bs) off' n = slice m off' n.
Proof.
  intros Hlen Hd. apply list_eq. intros i. rewrite !lookup_slice. destruct (decide _); [|done].
  rewrite lookup_splice by done. by rewrite decide_False by lia.
Qed.

(** ** Layout *)

Definition HEADER_SIZE : Z := 32.

Record QueueLayout := mkLayout { l_depth : Z; l_width : Z; byte_len : Z }.

(** The errors of the module; [io_kind] gives the [std::io::ErrorKind]. *)
Inductive QueueError :=
| ZeroShape (depth width : Z)
| ShapeTooLarge (depth width : Z)
| FileTooSmall (len : Z)
| BadMagic (magic : list Z)
| BadVersion (version : Z)
| BadHeaderShape (e : QueueError)
| PayloadTooSmall (len need : Z)
| MapFailed.

Inductive IoKind := InvalidInput | InvalidData | OsError.

Definition io_kind (e : QueueError) : IoKind :=
  match e with
  | ZeroShape _ _ | ShapeTooLarge _ _ => InvalidInput
  | MapFailed => OsError
  | _ => InvalidData
  end.

(** [QueueLayout::new]; [usize] is 64 bits wide. *)
Definition layout_new (depth width : Z) : res QueueError QueueLayout :=
  if (depth =? 0) || (width =? 0) then Err (ZeroShape depth width) else
  let len := let? p := checked_mul64 depth width in let? l := checked_add64 p HEADER_SIZE in
             if l <=? ISIZE_MAX then Some l else None in
  let! byte_len := ok_or len (ShapeTooLarge depth width) in
  Ok (mkLayout depth width byte_len).

(** [QueueLayout::slot]: the start of the range, whose length is the width. *)
Definition slot (l : QueueLayout) (index : Z) : Z :=
  wrap64 (HEADER_SIZE + wrap64 (index mod l_depth l * l_width l)).

(** ** The queue *)

Record Queue := mkQueue { seg : list Z; layout : QueueLayout }.

Definition read_le (m : list Z) (off n : nat) : Z := le_value (slice m off n).
Definition i32_of (z : Z) : Z := if 2147483648 <=? z then z - 4294967296 else z.

Definition hdr_magic (m : list Z) : list Z := slice m 0 4.
Definition hdr_version (m : list Z) : Z := i32_of (read_le m 4 4).
Definition hdr_depth (m : list Z) : Z := read_le m 8 4.
Definition hdr_width (m : list Z) : Z := read_le m 12 4.
Definition load_tail (m : list Z) : Z := read_le m 16 8.
Definition load_head (m : list Z) : Z := read_le m 24 8.
Definition store_tail (v : Z) (m : list Z) : list Z := splice m 16 (le_bytes 8 v).
Definition store_head (v : Z) (m : list Z) : list Z := splice m 24 (le_bytes 8 v).

(** [*b"tapa"]. *)
Definition MAGIC : list Z := [116; 97; 112; 97].

(** [SharedMemoryQueue::create]; [map_segment] is the mapping
    [MmapSegment::create(name, _)] returns, as a function of the size. *)
Definition create (map_segment : Z -> res QueueError (list Z)) (depth width : Z) : res QueueError Queue :=
  let! layout := layout_new depth width in
  let! m := map_segment (byte_len layout) in
  let m := splice m 0 MAGIC in
  let m := splice m 4 (le_bytes 4 1) in
  let m := splice m 8 (le_bytes 4 depth) in
  let m := splice m 12 (le_bytes 4 width) in
  let m := store_tail 0 m in
  let m := store_head 0 m in
  Ok (mkQueue m layout).

Definition validate_header (bytes : list Z) : res QueueError QueueLayout :=
  if Z.of_nat (length bytes) <? HEADER_SIZE then Err (FileTooSmall (Z.of_nat (length bytes))) else
  if negb (bool_decide (hdr_magic bytes = MAGIC)) then Err (BadMagic (hdr_magic bytes)) else
  if negb (hdr_version bytes =? 1) then Err (BadVersion (hdr_version bytes)) else
  let! layout := map_err BadHeaderShape (layout_new (hdr_depth bytes) (hdr_width bytes)) in
  if Z.of_nat (length bytes) <? byte_len layout
  then Err (PayloadTooSmall (Z.of_nat (length bytes)) (byte_len layout)) else
  Ok layout.

(** [SharedMemoryQueue::open]; [mapped] is what [MmapSegment::open(path)] returns. *)
Definition open (mapped : res QueueError (list Z)) : res QueueError Queue :=
  let! m := mapped in
  let! layout := validate_header m in
  Ok (mkQueue m layout).

Definition depth (q : Queue) : Z := l_depth (layout q).
Definition width (q : Queue) : Z := l_width (layout q).
Definition head_tail (q : Queue) : Z * Z := (load_head (seg q), load_tail (seg q)).
Definition is_empty (q : Queue) : bool := load_tail (seg q) =? load_head (seg q).
Definition is_full (q : Queue) : bool :=
  let '(head, tail) := head_tail q in l_depth (layout q) <=? wrap64 (tail - head).

Inductive PushError := QueueFull | WrongSize.

(** Slice indexing by a range panics when the range leaves the slice. *)
Definition in_range (m : list Z) (start len : Z) : bool := start + len <=? Z.of_nat (length m).

(** [try_push_check_full]; the second component is the queue afterwards. *)
Definition try_push_check_full (q : Queue) (data : list Z) : res PushError (bool * Queue) :=
  let tail := load_tail (seg q) in
  let head := load_head (seg q) in
  if l_depth (layout q) <=? wrap64 (tail - head) then Err QueueFull else
  if negb (Z.of_nat (length data) =? l_width (layout q)) then Err WrongSize else
  let start := slot (layout q) tail in
  if negb (in_range (seg q) start (l_width (layout q))) then Panic else
  let m := splice (seg q) (Z.to_nat start) data in
  let new_tail := wrap64 (tail + 1) in
  Ok (l_depth (layout q) <=? wrap64 (new_tail - head), mkQueue (store_tail new_tail m) (layout q)).

Definition try_push (q : Queue) (data : list Z) : res PushError Queue :=
  let! (_, q') := try_push_check_full q data in Ok q'.

(** [read_front]: the head counter and the buffer after the copy. *)
Definition read_front (q : Queue) (buf : list Z) : res unit (option (Z * list Z)) :=
  let head := load_head (seg q) in
  if load_tail (seg q) =? head then Ok None else
  if Z.of_nat (length buf) <? l_width (layout q) then Ok None else
  let start := slot (layout q) head in
  if negb (in_range (seg q) start (l_width (layout q))) then Panic else
  Ok (Some (head, splice buf 0 (slice (seg q) (Z.to_nat start) (Z.to_nat (l_width (layout q)))))).

(** [pop_into]: success flag, queue afterwards, buffer afterwards. *)
Definition pop_into (q : Queue) (buf : list Z) : res unit (bool * Queue * list Z) :=
  let! r := read_front q buf in
  match r with
  | None => Ok (false, q, buf)
  | Some (head, buf') => Ok (true, mkQueue (store_head (wrap64 (head + 1)) (seg q)) (layout q), buf')
  end.

Definition peek_into (q : Queue) (buf : list Z) : res unit (bool * list Z) :=
  let! r := read_front q buf in
  match r with None => Ok (false, buf) | Some (_, buf') => Ok (true, buf') end.

(** ** The abstraction: a segment implements a bounded FIFO of tokens *)

Record layout_ok (l : QueueLayout) : Prop := {
  lo_depth : 1 <= l_depth l <= U32_MAX;
  lo_width : 1 <= l_width l <= U32_MAX;
  lo_len : byte_len l = HEADER_SIZE + l_depth l * l_width l;
  lo_max : byte_len l <= ISIZE_MAX;
}.

(** The token with index [k] (counted from the creation of the queue). *)
Definition token (l : QueueLayout) (m : list Z) (k : Z) : list Z :=
  slice m (Z.to_nat (slot l k)) (Z.to_nat (l_width l)).

Record represents (q : Queue) (items : list (list Z)) : Prop := {
  rep_layout : layout_ok (layout q);
  rep_len : byte_len (layout q) <= Z.of_nat (length (seg q));
  rep_order : 0 <= load_head (seg q) <= load_tail (seg q) /\ load_tail (seg q) <= U64_MAX;
  rep_bound : load_tail (seg q) - load_head (seg q) <= l_depth (layout q);
  rep_items : items = map (token (layout q) (seg q)) (zrange (load_head (seg q)) (load_tail (seg q)));
}.

Lemma layout_new_ok d w l :
  in_u32 d -> in_u32 w -> layout_new d w = Ok l -> layout_ok l /\ l_depth l = d /\ l_width l = w.
Proof.
  unfold in_u32, layout_new, checked_mul64, checked_add64. intros Hd Hw.
  destruct ((d =? 0) || (w =? 0)) eqn:E; [done|]. bool_hyps. intros (len & Hlen%ok_or_ok & [= <-])%rbind_ok.
  destruct (fits U64_MAX (d * w)) as [p|] eqn:Hp; [|done]. simpl in Hlen.
  destruct (fits U64_MAX (p + HEADER_SIZE)) as [s|] eqn:Hs; [|done].
  destruct (s <=? ISIZE_MAX) eqn:Hi; [|done]. bool_hyps. injection Hlen as <-. res_inv.
  split; [|done]. split; simpl; lia.
Qed.

Section layout.
Context (l : QueueLayout) (Hl : layout_ok l).

Lemma slot_eq k : 0 <= k -> slot l k = HEADER_SIZE + k mod l_depth l * l_width l.
Proof using Hl.
  intros Hk. destruct Hl as [Hd Hw Hb Hm]. unfold slot.
  pose proof (Z.mod_pos_bound k (l_depth l) ltac:(lia)).
  assert (0 <= k mod l_depth l * l_width l) by nia.
  assert (k mod l_depth l * l_width l <= l_depth l * l_width l) by nia.
  unfold HEADER_SIZE, U32_MAX, ISIZE_MAX in *.
  rewrite (wrap64_id (k mod _ * _)) by (unfold in_u64, U64_MAX; lia).
  rewrite wrap64_id by (unfold in_u64, U64_MAX; lia). done.
Qed.

(** Every slot lies between the header and the end of the layout. *)
Lemma slot_bounds k : 0 <= k -> HEADER_SIZE <= slot l k /\ slot l k + l_width l <= byte_len l.
Proof using Hl.
  intros Hk. rewrite slot_eq by done. destruct Hl as [Hd Hw Hb Hm].
  pose proof (Z.mod_pos_bound k (l_depth l) ltac:(lia)).
  assert (0 <= k mod l_depth l * l_width l) by nia.
  assert ((k mod l_depth l + 1) * l_width l <= l_depth l * l_width l) by nia. lia.
Qed.

(** Slots of tokens that are in the queue together do not overlap. *)
Lemma slot_disjoint j k :
  0 <= j < k -> k - j < l_depth l -> slot l j + l_width l <= slot l k \/ slot l k + l_width l <= slot l j.
Proof using Hl.
  intros Hj Hk. rewrite !slot_eq by lia. destruct Hl as [Hd Hw Hb Hm]. set (d := l_depth l) in *.
  assert (Hne : j mod d <> k mod d).
  { intros He. pose proof (Z.div_mod j d ltac:(lia)). pose proof (Z.div_mod k d ltac:(lia)).
    assert (k - j = d * (k / d - j / d)) by lia.
    assert (0 < k / d - j / d) by nia. nia. }
  destruct (Z.lt_total (j mod d) (k mod d)) as [?|[?|?]]; [left|done|right]; nia.
Qed.
End layout.

(** *** Header fields and slots are independent *)

Lemma read_splice_ne m off bs off' n :
  (off + length bs <= length m)%nat -> (off' + n <= off \/ off + length bs <= off')%nat ->
  read_le (splice m off bs) off' n = read_le m off' n.
Proof. intros. unfold read_le. by rewrite slice_splice_ne. Qed.

Lemma read_splice_eq m off n v :
  (off + n <= length m)%nat -> read_le (splice m off (le_bytes n v)) off n = v mod 256 ^ Z.of_nat n.
Proof.
  intros. unfold read_le. rewrite <- (length_le_bytes n v) at 2. rewrite slice_splice_eq.
  - by rewrite le_value_bytes.
  - by rewrite length_le_bytes.
Qed.

Section header.
Context (m : list Z) (Hm : (32 <= length m)%nat).

Lemma load_store_tail v : load_tail (store_tail v m) = wrap64 v.
Proof using Hm. unfold load_tail, store_tail. rewrite read_splice_eq by lia. done. Qed.
Lemma load_store_head v : load_head (store_head v m) = wrap64 v.
Proof using Hm. unfold load_head, store_head. rewrite read_splice_eq by lia. done. Qed.
Lemma load_head_store_tail v : load_head (store_tail v m) = load_head m.
Proof using Hm. apply read_splice_ne; rewrite length_le_bytes; lia. Qed.
Lemma load_tail_store_head v : load_tail (store_head v m) = load_tail m.
Proof using Hm. apply read_splice_ne; rewrite length_le_bytes; lia. Qed.
Lemma length_store_tail v : length (store_tail v m) = length m.
Proof using Hm. apply length_splice. rewrite length_le_bytes. lia. Qed.
Lemma length_store_head v : length (store_head v m) = length m.
Proof using Hm. apply length_splice. rewrite length_le_bytes. lia. Qed.

Lemma token_store l k v off :
  layout_ok l -> 0 <= k -> (off = 16 \/ off = 24)%nat -> token l (splice m off (le_bytes 8 v)) k = token l m k.
Proof using Hm.
  intros Hl Hk Hoff. pose proof (slot_bounds l Hl k Hk). unfold token, HEADER_SIZE in *.
  apply slice_splice_ne; rewrite length_le_bytes; lia.
Qed.
End header.

#[export] Hint Rewrite load_store_tail load_store_head load_head_store_tail load_tail_store_head
  length_store_tail length_store_head using (rewrite ?length_splice; lia) : shm.

Section write_slot.
Context (l : QueueLayout) (Hl : layout_ok l) (m : list Z) (Hm : byte_len l <= Z.of_nat (length m)).
Context (k : Z) (Hk : 0 <= k) (data : list Z) (Hdata : Z.of_nat (length data) = l_width l).

Lemma write_fits : (Z.to_nat (slot l k) + length data <= length m)%nat /\ (32 <= Z.to_nat (slot l k))%nat.
Proof using All. pose proof (slot_bounds l Hl k Hk). unfold HEADER_SIZE in *. lia. Qed.

Lemma write_slot_header off n :
  (off + n <= 32)%nat -> read_le (splice m (Z.to_nat (slot l k)) data) off n = read_le m off n.
Proof using All. intros. destruct write_fits. apply read_splice_ne; lia. Qed.

Lemma write_slot_same : token l (splice m (Z.to_nat (slot l k)) data) k = data.
Proof using All.
  destruct write_fits. unfold token. rewrite <- Hdata, Nat2Z.id. by apply slice_splice_eq.
Qed.

Lemma write_slot_other j :
  0 <= j < k -> k - j < l_depth l -> token l (splice m (Z.to_nat (slot l k)) data) j = token l m j.
Proof using All.
  intros Hj Hd. destruct write_fits. pose proof (slot_bounds l Hl j ltac:(lia)).
  pose proof (slot_disjoint l Hl j k Hj Hd). unfold HEADER_SIZE in *. apply slice_splice_ne; lia.
Qed.
End write_slot.

(** ** Correctness *)

Section represented.
Context (q : Queue) (items : list (list Z)) (Hrep : represents q items).

Lemma rep_length : Z.of_nat (length items) = load_tail (seg q) - load_head (seg q).
Proof using Hrep. destruct Hrep as [_ _ Ho _ ->]. rewrite length_map, length_zrange. lia. Qed.

Lemma rep_wrap : wrap64 (load_tail (seg q) - load_head (seg q)) = Z.of_nat (length items).
Proof using Hrep. rewrite rep_length. destruct Hrep. apply wrap64_id. unfold in_u64. lia. Qed.

Lemma rep_header : (32 <= length (seg q))%nat.
Proof using Hrep.
  destruct Hrep as [[Hd Hw Hb Hm] Hlen _ _ _]. unfold HEADER_SIZE in *. assert (0 <= l_depth (layout q) * l_width (layout q)) by nia. lia.
Qed.

Lemma rep_in_range k : 0 <= k -> in_range (seg q) (slot (layout q) k) (l_width (layout q)) = true.
Proof using Hrep.
  intros Hk. destruct Hrep. pose proof (slot_bounds _ rep_layout0 k Hk). unfold in_range. apply Z.leb_le. lia.
Qed.

(** Writing the next slot and publishing the new tail appends the token. *)
Lemma rep_push data :
  Z.of_nat (length items) < l_depth (layout q) -> Z.of_nat (length data) = l_width (layout q) ->
  load_tail (seg q) < U64_MAX ->
  represents (mkQueue (store_tail (load_tail (seg q) + 1)
                (splice (seg q) (Z.to_nat (slot (layout q) (load_tail (seg q)))) data)) (layout q)) (items ++ [data]).
Proof using Hrep.
  intros Hfull Hdata Hmax. pose proof rep_length as Hlen. pose proof rep_header as H32.
  destruct Hrep as [Hl Hsz Ho Hb Hi]. set (t := load_tail (seg q)) in *. set (h := load_head (seg q)) in *.
  set (m' := splice _ _ _).
  destruct (write_fits _ Hl _ Hsz t ltac:(lia) data Hdata).
  assert (Hm' : length m' = length (seg q)) by (apply length_splice; lia).
  assert (Ht : load_tail (store_tail (t + 1) m') = t + 1).
  { rewrite load_store_tail by lia. apply wrap64_id. unfold in_u64. lia. }
  assert (Hh : load_head (store_tail (t + 1) m') = h).
  { rewrite load_head_store_tail by lia. apply write_slot_header; auto; lia. }
  split; simpl; rewrite ?Ht, ?Hh, ?length_store_tail by lia; try lia; [done|].
  rewrite Hi, zrange_snoc, map_app by lia. simpl. f_equal.
  - apply map_zrange_ext. intros k Hk. unfold store_tail. rewrite token_store by (auto; lia).
    symmetry. apply write_slot_other; auto; lia.
  - unfold store_tail. rewrite token_store by (auto; lia). f_equal. symmetry. apply write_slot_same; auto; lia.
Qed.

(** Publishing the next head drops the first token. *)
Lemma rep_pop x rest :
  items = x :: rest ->
  token (layout q) (seg q) (load_head (seg q)) = x /\
  represents (mkQueue (store_head (load_head (seg q) + 1) (seg q)) (layout q)) rest.
Proof using Hrep.
  intros Heq. pose proof rep_length as Hlen. rewrite Heq in Hlen. simpl in Hlen. pose proof rep_header as H32.
  destruct Hrep as [Hl Hsz Ho Hb Hi]. rewrite Heq, zrange_cons in Hi by lia. simpl in Hi. injection Hi as Hx Hr.
  split; [done|]. set (h := load_head (seg q)) in *.
  assert (Hh : load_head (store_head (h + 1) (seg q)) = h + 1).
  { rewrite load_store_head by lia. apply wrap64_id. unfold in_u64. lia. }
  split; simpl; rewrite ?Hh, ?load_tail_store_head, ?length_store_head by lia; try lia; [done|].
  rewrite Hr. apply map_zrange_ext. intros k Hk. symmetry. unfold store_head. apply token_store; auto; lia.
Qed.
End represented.

(** What the operations do on a represented queue, case by case: the
    interface the clients of the queue are proved against. *)
Section interface.
Context (q : Queue) (items : list (list Z)) (Hrep : represents q items).

Lemma push_full data :
  depth q <= Z.of_nat (length items) -> try_push_check_full q data = Err QueueFull.
Proof using Hrep.
  intros Hfull. unfold try_push_check_full. rewrite (rep_wrap _ _ Hrep). by rewrite (proj2 (Z.leb_le _ _)).
Qed.

Lemma push_wrong_size data :
  Z.of_nat (length items) < depth q -> Z.of_nat (length data) <> width q -> try_push_check_full q data = Err WrongSize.
Proof using Hrep.
  intros Hfull Hsz. unfold try_push_check_full. rewrite (rep_wrap _ _ Hrep), (proj2 (Z.leb_gt _ _)) by done.
  by rewrite (proj2 (Z.eqb_neq _ _)).
Qed.

Lemma push_appends data :
  load_tail (seg q) < U64_MAX -> Z.of_nat (length items) < depth q -> Z.of_nat (length data) = width q ->
  exists q', try_push_check_full q data = Ok (depth q <=? Z.of_nat (length items) + 1, q') /\
    represents q' (items ++ [data]) /\ layout q' = layout q /\ load_tail (seg q') = load_tail (seg q) + 1.
Proof using Hrep.
  intros Hmax Hfull Hsz. pose proof (rep_length _ _ Hrep) as Hlen. pose proof (rep_order _ _ Hrep) as Ho.
  pose proof (rep_bound _ _ Hrep) as Hb. pose proof (rep_push q items Hrep data Hfull Hsz Hmax) as Hpush.
  unfold try_push_check_full, depth, width in *.
  rewrite (rep_wrap _ _ Hrep), (proj2 (Z.leb_gt _ _)), (proj2 (Z.eqb_eq _ _)) by done.
  rewrite (rep_in_range q items Hrep) by lia. cbn [negb].
  assert (Hw : wrap64 (load_tail (seg q) + 1) = load_tail (seg q) + 1) by (apply wrap64_id; unfold in_u64; lia).
  rewrite Hw. rewrite wrap64_id by (unfold in_u64; lia). eexists. split; [do 2 f_equal; f_equal; lia|].
  split; [done|]. split; [done|]. pose proof (rep_length _ _ Hpush) as Hl'. rewrite length_app in Hl'. cbn [seg length] in *.
  rewrite load_store_tail; [by rewrite Hw|]. pose proof (rep_header _ _ Hrep).
  destruct (write_fits _ (rep_layout _ _ Hrep) _ (rep_len _ _ Hrep) (load_tail (seg q)) ltac:(lia) data Hsz).
  rewrite length_splice by lia. done.
Qed.

Lemma read_front_none buf :
  items = [] \/ Z.of_nat (length buf) < width q -> read_front q buf = Ok None.
Proof using Hrep.
  pose proof (rep_length _ _ Hrep) as Hlen. unfold read_front, width. intros [->|Hbuf].
  - by rewrite (proj2 (Z.eqb_eq _ _)) by (simpl in Hlen; lia).
  - rewrite (proj2 (Z.ltb_lt _ _) Hbuf). by destruct (_ =? _).
Qed.

Lemma read_front_some x rest buf :
  items = x :: rest -> width q <= Z.of_nat (length buf) ->
  read_front q buf = Ok (Some (load_head (seg q), x ++ drop (length x) buf)) /\ Z.of_nat (length x) = width q /\
  represents (mkQueue (store_head (wrap64 (load_head (seg q) + 1)) (seg q)) (layout q)) rest.
Proof using Hrep.
  intros -> Hbuf. pose proof (rep_length _ _ Hrep) as Hlen. pose proof (rep_order _ _ Hrep) as Ho. simpl in Hlen.
  unfold read_front, width in *. rewrite (proj2 (Z.eqb_neq _ _)), (proj2 (Z.ltb_ge _ _)) by lia.
  rewrite (rep_in_range _ _ Hrep) by lia. cbn [negb]. destruct (rep_pop _ _ Hrep x rest eq_refl) as [Hx Hr].
  fold (token (layout q) (seg q) (load_head (seg q))). rewrite Hx. unfold splice. rewrite take_0, Nat.add_0_l.
  split; [done|]. rewrite wrap64_id by (unfold in_u64; lia). split; [|done].
  rewrite <- Hx. unfold token. pose proof (rep_len _ _ Hrep).
  pose proof (slot_bounds _ (rep_layout _ _ Hrep) (load_head (seg q)) ltac:(lia)).
  pose proof (lo_width _ (rep_layout _ _ Hrep)). unfold HEADER_SIZE in *. rewrite length_slice by lia. lia.
Qed.

Lemma is_full_spec : is_full q = (depth q <=? Z.of_nat (length items)).
Proof using Hrep. unfold is_full, head_tail, depth. by rewrite (rep_wrap _ _ Hrep). Qed.

Lemma is_empty_spec : is_empty q = bool_decide (items = []).
Proof using Hrep.
  pose proof (rep_length _ _ Hrep) as Hlen. unfold is_empty. destruct items; simpl in Hlen.
  - rewrite bool_decide_eq_true_2 by done. apply Z.eqb_eq. lia.
  - rewrite bool_decide_eq_false_2 by done. apply Z.eqb_neq. lia.
Qed.
End interface.

(** C25: [try_push_check_full] implements the push of a bounded FIFO. On a
    queue holding [items] it fails with "full" exactly when there are [depth]
    tokens, fails on a token of the wrong size, and otherwise appends the token
    and reports whether the queue has become full; it never panics and a
    failing push leaves the queue alone (it returns no new queue). [is_full]
    and [is_empty] tell the state truthfully. The counters are 64 bits wide and
    must not have been exhausted. *)
Theorem push_refines_fifo q items data :
  represents q items -> load_tail (seg q) < U64_MAX ->
  (is_full q = true <-> Z.of_nat (length items) = depth q) /\ (is_empty q = true <-> items = []) /\
  match try_push_check_full q data with
  | Err QueueFull => Z.of_nat (length items) = depth q
  | Err WrongSize => Z.of_nat (length items) < depth q /\ Z.of_nat (length data) <> width q
  | Ok (full_after, q') =>
      Z.of_nat (length items) < depth q /\ Z.of_nat (length data) = width q /\
      represents q' (items ++ [data]) /\ layout q' = layout q /\
      (full_after = true <-> Z.of_nat (length items) + 1 = depth q)
  | Panic => False
  end.
Proof.
  intros Hrep Hmax. pose proof (rep_length _ _ Hrep) as Hlen. pose proof (rep_bound _ _ Hrep) as Hb. fold (depth q) in Hb.
  rewrite (is_full_spec _ _ Hrep), (is_empty_spec _ _ Hrep), bool_decide_eq_true, Z.leb_le.
  split; [lia|]. split; [done|].
  destruct (decide (depth q <= Z.of_nat (length items))) as [Hf|Hf]; [rewrite (push_full _ _ Hrep) by done; lia|].
  destruct (decide (Z.of_nat (length data) = width q)) as [Hs|Hs]; [|rewrite (push_wrong_size _ _ Hrep) by (done || lia); lia].
  destruct (push_appends _ _ Hrep data Hmax ltac:(lia) Hs) as (q' & -> & Hr & Hlay & _).
  split; [lia|]. split; [done|]. split; [done|]. split; [done|]. rewrite Z.leb_le. lia.
Qed.

(** [pop_into] and [peek_into] implement the pop and the peek of the
    FIFO. They report [false], changing nothing, exactly when the queue is
    empty or the buffer is shorter than a token; otherwise the front token is
    copied into the first [width] bytes of the buffer, the rest of which is
    untouched, and only [pop_into] removes it. Neither ever panics. *)
Theorem pop_refines_fifo q items buf :
  represents q items ->
  match items with
  | [] => pop_into q buf = Ok (false, q, buf) /\ peek_into q buf = Ok (false, buf)
  | x :: rest =>
      if Z.of_nat (length buf) <? width q
      then pop_into q buf = Ok (false, q, buf) /\ peek_into q buf = Ok (false, buf)
      else exists q', pop_into q buf = Ok (true, q', x ++ drop (length x) buf) /\
                      peek_into q buf = Ok (true, x ++ drop (length x) buf) /\
                      Z.of_nat (length x) = width q /\ represents q' rest /\ layout q' = layout q
  end.
Proof.
  intros Hrep. unfold pop_into, peek_into. destruct items as [|x rest].
  - by rewrite (read_front_none _ _ Hrep) by (by left).
  - destruct (Z.of_nat (length buf) <? width q) eqn:Hbuf; bool_hyps.
    + by rewrite (read_front_none _ _ Hrep) by (by right).
    + destruct (read_front_some _ _ Hrep x rest buf eq_refl Hbuf) as (-> & Hx & Hr).
      eexists. do 3 (split; [done|]). by split.
Qed.

(** *** Creating and opening *)

(** [MmapSegment::create] truncates the file to zero bytes and extends it to
    the size asked for, so a mapping it returns has that size and reads as
    zeros. *)
Definition fresh_mapping (map_segment : Z -> res QueueError (list Z)) : Prop :=
  forall n m, map_segment n = Ok m -> m = replicate (Z.to_nat n) 0.

Definition store_header (d w : Z) (m : list Z) : list Z :=
  store_head 0 (store_tail 0 (splice (splice (splice (splice m 0 MAGIC) 4 (le_bytes 4 1)) 8 (le_bytes 4 d)) 12 (le_bytes 4 w))).

Lemma length_splice_le m off n v : (off + n <= length m)%nat -> length (splice m off (le_bytes n v)) = length m.
Proof. intros. apply length_splice. by rewrite length_le_bytes. Qed.

Lemma store_header_spec d w m :
  (32 <= length m)%nat -> in_u32 d -> in_u32 w ->
  let m' := store_header d w m in
  length m' = length m /\ hdr_magic m' = MAGIC /\ hdr_version m' = 1 /\ hdr_depth m' = d /\ hdr_width m' = w /\
  load_tail m' = 0 /\ load_head m' = 0.
Proof.
  unfold in_u32, U32_MAX. intros Hm Hd Hw. unfold store_header, store_head, store_tail.
  set (m0 := splice m 0 MAGIC). assert (L0 : length m0 = length m) by (apply length_splice; simpl; lia).
  set (m1 := splice m0 4 _). assert (L1 : length m1 = length m) by (unfold m1; rewrite length_splice_le; lia).
  set (m2 := splice m1 8 _). assert (L2 : length m2 = length m) by (unfold m2; rewrite length_splice_le; lia).
  set (m3 := splice m2 12 _). assert (L3 : length m3 = length m) by (unfold m3; rewrite length_splice_le; lia).
  set (m4 := splice m3 16 _). assert (L4 : length m4 = length m) by (unfold m4; rewrite length_splice_le; lia).
  cbv zeta. split; [by rewrite length_splice_le by lia|].
  assert (Hkeep : forall off n, (off + n <= 16)%nat -> read_le (splice m4 24 (le_bytes 8 0)) off n = read_le m3 off n).
  { intros. rewrite read_splice_ne by (rewrite length_le_bytes; lia). unfold m4.
    by rewrite read_splice_ne by (rewrite length_le_bytes; lia). }
  split.
  { unfold hdr_magic. rewrite slice_splice_ne by (rewrite length_le_bytes; lia).
    unfold m4. rewrite slice_splice_ne by (rewrite length_le_bytes; lia).
    unfold m3. rewrite slice_splice_ne by (rewrite length_le_bytes; lia).
    unfold m2. rewrite slice_splice_ne by (rewrite length_le_bytes; lia).
    unfold m1. rewrite slice_splice_ne by (rewrite length_le_bytes; lia).
    unfold m0. apply (slice_splice_eq m 0 MAGIC). simpl. lia. }
  unfold hdr_version, hdr_depth, hdr_width, load_tail, load_head. rewrite !Hkeep by lia. split.
  { unfold m3. rewrite read_splice_ne by (rewrite length_le_bytes; lia).
    unfold m2. rewrite read_splice_ne by (rewrite length_le_bytes; lia). unfold m1. by rewrite read_splice_eq by lia. }
  split.
  { unfold m3. rewrite read_splice_ne by (rewrite length_le_bytes; lia). unfold m2. rewrite read_splice_eq by lia.
    apply Z.mod_small. simpl. lia. }
  split; [unfold m3; rewrite read_splice_eq by lia; apply Z.mod_small; simpl; lia|].
  split; [|by rewrite read_splice_eq by lia].
  rewrite read_splice_ne by (rewrite length_le_bytes; lia). unfold m4. by rewrite read_splice_eq by lia.
Qed.

(** A queue one process creates is the queue the other process opens:
    [create] yields an empty FIFO of the requested shape, and [open] on its
    bytes recovers the same layout. [create] fails only on a zero dimension, on
    a shape whose size exceeds [isize::MAX], or when the mapping itself fails. *)
Theorem create_open_roundtrip map_segment d w :
  fresh_mapping map_segment -> in_u32 d -> in_u32 w ->
  match create map_segment d w with
  | Ok q => represents q [] /\ depth q = d /\ width q = w /\ open (Ok (seg q)) = Ok q
  | Err e => d = 0 \/ w = 0 \/ ISIZE_MAX < HEADER_SIZE + d * w \/
             exists n, map_segment n = Err e
  | Panic => exists n, map_segment n = Panic
  end.
Proof.
  intros Hmap Hd Hw. unfold create. destruct (layout_new d w) as [l|e|] eqn:Hl; cbn [rbind].
  - destruct (layout_new_ok _ _ _ Hd Hw Hl) as (Hok & Hld & Hlw).
    destruct (map_segment (byte_len l)) as [m|e|] eqn:Hm; cbn [rbind]; [|by do 3 right; eauto|by eauto].
    apply Hmap in Hm. cbv zeta. fold (store_header d w m). destruct Hok as [H1 H2 H3 H4] eqn:Eok; clear Eok.
    assert (Hlen : Z.of_nat (length m) = byte_len l).
    { rewrite Hm, length_replicate. unfold HEADER_SIZE in *. nia. }
    assert (H32 : (32 <= length m)%nat). { unfold HEADER_SIZE in *. nia. }
    pose proof (store_header_spec d w m H32 Hd Hw) as (S1 & S2 & S3 & S4 & S5 & S6 & S7).
    set (m' := store_header d w m) in *. clearbody m'.
    split; [split; cbn [seg layout]; rewrite ?S6, ?S7, ?S1; [done|lia|unfold U64_MAX; lia|lia|by rewrite zrange_nil]|].
    split; [done|]. split; [done|]. unfold open, validate_header. cbn [rbind seg layout].
    rewrite S1, S2, S3, S4, S5, Hl, Hlen, bool_decide_eq_true_2 by done.
    rewrite (proj2 (Z.ltb_ge _ _)) by (unfold HEADER_SIZE in *; lia). simpl. by rewrite Z.ltb_irrefl.
  - unfold layout_new, checked_mul64, checked_add64, in_u32, U32_MAX in *.
    destruct ((d =? 0) || (w =? 0)) eqn:E; [lia|]. right; right; left.
    destruct (fits U64_MAX (d * w)) as [p|] eqn:Hp; simpl in Hl.
    2:{ res_inv. unfold U64_MAX, ISIZE_MAX, HEADER_SIZE in *. nia. }
    destruct (fits U64_MAX (p + HEADER_SIZE)) as [s|] eqn:Hs; simpl in Hl.
    2:{ res_inv. unfold U64_MAX, ISIZE_MAX, HEADER_SIZE in *. nia. }
    destruct (s <=? ISIZE_MAX) eqn:Hi; [done|]. bool_hyps. res_inv. lia.
  - unfold layout_new in Hl. destruct (_ || _); [done|]. by destruct (match _ with Some _ => _ | None => _ end).
Qed.

Lemma le_value_range bs : Forall (fun b => 0 <= b < 256) bs -> 0 <= le_value bs < 256 ^ Z.of_nat (length bs).
Proof.
  induction 1 as [|b bs Hb _ IH]; [simpl; lia|]. cbn [le_value length]. rewrite Nat2Z.inj_succ, Z.pow_succ_r by lia. lia.
Qed.

Lemma hdr_u32 m off : Forall (fun b => 0 <= b < 256) m -> (off + 4 <= length m)%nat -> in_u32 (read_le m off 4).
Proof.
  intros Hb Hoff. pose proof (le_value_range (slice m off 4)) as Hr.
  rewrite length_slice in Hr by done. unfold in_u32, U32_MAX, read_le. change (256 ^ Z.of_nat 4) with 4294967296 in Hr.
  assert (Forall (fun b => 0 <= b < 256) (slice m off 4)) by (unfold slice; by apply Forall_take, Forall_drop).
  specialize (Hr H). lia.
Qed.

(** [open] accepts only segments every slot of which is mapped. Whatever
    bytes the file holds, an accepted queue has a well-formed layout that fits
    in the mapping, so no push, pop or peek on it can index out of range; each
    rejection names a defect the bytes really have. *)
Theorem open_validates bytes :
  Forall (fun b => 0 <= b < 256) bytes ->
  match open (Ok bytes) with
  | Ok q => seg q = bytes /\ layout_ok (layout q) /\ byte_len (layout q) <= Z.of_nat (length bytes) /\
      (forall data, try_push_check_full q data <> Panic) /\
      (forall buf, pop_into q buf <> Panic /\ peek_into q buf <> Panic)
  | Err (FileTooSmall n) => n = Z.of_nat (length bytes) /\ n < HEADER_SIZE
  | Err (BadMagic b) => b = hdr_magic bytes /\ b <> MAGIC
  | Err (BadVersion v) => v = hdr_version bytes /\ v <> 1
  | Err (BadHeaderShape e) => layout_new (hdr_depth bytes) (hdr_width bytes) = Err e
  | Err (PayloadTooSmall n need) => n = Z.of_nat (length bytes) /\ n < need
  | _ => False
  end.
Proof.
  intros Hb. unfold open, validate_header. cbn [rbind].
  destruct (Z.of_nat (length bytes) <? HEADER_SIZE) eqn:H1; simpl; bool_hyps; [done|].
  destruct (bool_decide (hdr_magic bytes = MAGIC)) eqn:H2; simpl; bool_hyps; [|done].
  destruct (hdr_version bytes =? 1) eqn:H3; simpl; bool_hyps; [|done]. unfold HEADER_SIZE in H1.
  destruct (layout_new (hdr_depth bytes) (hdr_width bytes)) as [l|e|] eqn:Hl; simpl; [|done|].
  2:{ unfold layout_new in Hl. destruct (_ || _); [done|]. by destruct (match _ with Some _ => _ | None => _ end). }
  destruct (Z.of_nat (length bytes) <? byte_len l) eqn:H4; simpl; bool_hyps; [done|].
  destruct (layout_new_ok (hdr_depth bytes) (hdr_width bytes) l) as (Hok & _ & _); [apply hdr_u32; [done|lia]..|done|].
  assert (Hin : forall off, (off + 8 <= length bytes)%nat -> in_range bytes (slot l (read_le bytes off 8)) (l_width l) = true).
  { intros off Hoff. apply Z.leb_le. pose proof (le_value_range (slice bytes off 8)) as Hr.
    assert (Forall (fun b => 0 <= b < 256) (slice bytes off 8)) by (unfold slice; by apply Forall_take, Forall_drop).
    pose proof (slot_bounds l Hok (read_le bytes off 8) ltac:(unfold read_le; by apply Hr)). lia. }
  split; [done|]. split; [done|]. split; [done|]. split.
  - intros data. unfold try_push_check_full, load_tail. simpl. rewrite Hin by lia. repeat case_match; done.
  - intros buf. unfold pop_into, peek_into, read_front, load_head. simpl. rewrite Hin by lia. repeat case_match; done.
Qed.

(** *** Witnesses: a two-token queue of three-byte tokens *)

Module Example.
Definition zeroed (n : Z) : res QueueError (list Z) := Ok (replicate (Z.to_nat n) 0).
Definition queue : Queue :=
  match create zeroed 2 3 with Ok q => q | _ => mkQueue [] (mkLayout 0 0 0) end.
End Example.

Lemma example_layout : layout_ok (layout Example.queue).
Proof. split; vm_compute; intuition discriminate. Qed.

Lemma example_represents : represents Example.queue [].
Proof. split; [apply example_layout|..]; vm_compute; intuition discriminate. Qed.

Lemma push_refines_fifo_witness :
  exists q', try_push_check_full Example.queue [1; 2; 3] = Ok (false, q') /\ represents q' [[1; 2; 3]].
Proof.
  assert (Hmax : load_tail (seg Example.queue) < U64_MAX) by (vm_compute; reflexivity).
  pose proof (push_refines_fifo Example.queue [] [1; 2; 3] example_represents Hmax) as H.
  assert (Hp : exists q', try_push_check_full Example.queue [1; 2; 3] = Ok (false, q')) by (eexists; vm_compute; reflexivity).
  destruct Hp as (q' & Hp). exists q'. split; [exact Hp|]. rewrite Hp in H. exact (proj1 (proj2 (proj2 (proj2 (proj2 H))))).
Defined.

Lemma pop_refines_fifo_witness : pop_into Example.queue [9; 9; 9] = Ok (false, Example.queue, [9; 9; 9]).
Proof. exact (proj1 (pop_refines_fifo Example.queue [] [9; 9; 9] example_represents)). Defined.

Lemma create_open_roundtrip_witness : open (Ok (seg Example.queue)) = Ok Example.queue.
Proof.
  assert (Hf : fresh_mapping Example.zeroed) by (intros n m [= <-]; reflexivity).
  assert (Hd : in_u32 2) by (unfold in_u32, U32_MAX; lia). assert (Hw : in_u32 3) by (unfold in_u32, U32_MAX; lia).
  pose proof (create_open_roundtrip Example.zeroed 2 3 Hf Hd Hw) as H.
  assert (Hc : create Example.zeroed 2 3 = Ok Example.queue) by (vm_compute; reflexivity).
  rewrite Hc in H. exact (proj2 (proj2 (proj2 H))).
Defined.

Lemma open_validates_witness : layout_ok (layout Example.queue).
Proof.
  assert (Hb : Forall (fun b => 0 <= b < 256) (seg Example.queue)) by (vm_compute; repeat constructor; discriminate).
  pose proof (open_validates (seg Example.queue) Hb) as H.
  assert (Ho : open (Ok (seg Example.queue)) = Ok Example.queue) by (vm_compute; reflexivity).
  rewrite Ho in H. exact (proj1 (proj2 H)).
Defined.
