(* ===== verification/ShmConc.v ===== *)
(** * The shared-memory queue under concurrency

    One process pushes ([try_push_check_full]), another pops or peeks
    ([pop_into], [peek_into]), and anyone may take a [head_tail] snapshot.  The
    operations of [Shm] are split at their accesses to the shared segment: each
    atomic load or store, and each single byte of the two payload copies, is a
    step, and the steps of the processes interleave freely.  The [Acquire] /
    [Release] pairs of the code order the payload copies with the counter
    accesses, which is what the order of the steps within each process is. *)

From S2P Require Import Prelude Shm.

Inductive ProducerPc :=
| PIdle
| PLoadedTail (data : list Z) (tail : Z)
| PCopy (data : list Z) (tail head : Z) (copied : nat).

Inductive ConsumerPc :=
| CIdle
| CLoadedHead (head : Z)
| CCopy (head : Z) (got : list Z).

Inductive ObserverPc :=
| OIdle
| OLoadedHead (head : Z)
| OSnapshot (head tail : Z).

(** [pushed] and [popped] record the tokens published and consumed so far;
    they are not part of the segment. *)
Record World := mkWorld {
  mem : list Z;
  producer : ProducerPc;
  consumer : ConsumerPc;
  observer : ObserverPc;
  pushed : list (list Z);
  popped : list (list Z);
}.

Section processes.
Context (l : QueueLayout).

Inductive step : World -> World -> Prop :=
(** The producer: load tail, load head and check, copy byte by byte, publish. *)
| step_load_tail data m c o ps qs :
    step (mkWorld m PIdle c o ps qs) (mkWorld m (PLoadedTail data (load_tail m)) c o ps qs)
| step_reject data t m c o ps qs :
    (l_depth l <=? wrap64 (t - load_head m)) || negb (Z.of_nat (length data) =? l_width l) = true ->
    step (mkWorld m (PLoadedTail data t) c o ps qs) (mkWorld m PIdle c o ps qs)
| step_accept data t m c o ps qs :
    (l_depth l <=? wrap64 (t - load_head m)) = false -> (Z.of_nat (length data) =? l_width l) = true ->
    step (mkWorld m (PLoadedTail data t) c o ps qs) (mkWorld m (PCopy data t (load_head m) 0) c o ps qs)
| step_write data t h i b m c o ps qs :
    data !! i = Some b ->
    step (mkWorld m (PCopy data t h i) c o ps qs)
         (mkWorld (splice m (Z.to_nat (slot l t) + i) [b]) (PCopy data t h (S i)) c o ps qs)
| step_publish data t h m c o ps qs :
    step (mkWorld m (PCopy data t h (length data)) c o ps qs)
         (mkWorld (store_tail (wrap64 (t + 1)) m) PIdle c o (ps ++ [data]) qs)
(** The consumer: load head, load tail and check, copy byte by byte, then
    publish the new head ([pop_into]) or not ([peek_into]). *)
| step_load_head p m o ps qs :
    step (mkWorld m p CIdle o ps qs) (mkWorld m p (CLoadedHead (load_head m)) o ps qs)
| step_empty h p m o ps qs :
    (load_tail m =? h) = true ->
    step (mkWorld m p (CLoadedHead h) o ps qs) (mkWorld m p CIdle o ps qs)
| step_nonempty h p m o ps qs :
    (load_tail m =? h) = false ->
    step (mkWorld m p (CLoadedHead h) o ps qs) (mkWorld m p (CCopy h []) o ps qs)
| step_read h got b p m o ps qs :
    (length got < Z.to_nat (l_width l))%nat -> m !! (Z.to_nat (slot l h) + length got)%nat = Some b ->
    step (mkWorld m p (CCopy h got) o ps qs) (mkWorld m p (CCopy h (got ++ [b])) o ps qs)
| step_pop h got p m o ps qs :
    Z.of_nat (length got) = l_width l ->
    step (mkWorld m p (CCopy h got) o ps qs)
         (mkWorld (store_head (wrap64 (h + 1)) m) p CIdle o ps (qs ++ [got]))
| step_peek h got p m o ps qs :
    Z.of_nat (length got) = l_width l ->
    step (mkWorld m p (CCopy h got) o ps qs) (mkWorld m p CIdle o ps qs)
(** An observer: [head_tail] loads head, then tail. *)
| step_observe_head p c m ps qs :
    step (mkWorld m p c OIdle ps qs) (mkWorld m p c (OLoadedHead (load_head m)) ps qs)
| step_observe_tail h p c m ps qs :
    step (mkWorld m p c (OLoadedHead h) ps qs) (mkWorld m p c (OSnapshot h (load_tail m)) ps qs)
| step_observe_done h t p c m ps qs :
    step (mkWorld m p c (OSnapshot h t) ps qs) (mkWorld m p c OIdle ps qs).

Definition initial (m : list Z) : World := mkWorld m PIdle CIdle OIdle [] [].

(** ** The invariant *)

Definition producer_ok (w : World) : Prop :=
  match producer w with
  | PIdle => True
  | PLoadedTail _ t => t = load_tail (mem w)
  | PCopy data t h i =>
      t = load_tail (mem w) /\ Z.of_nat (length data) = l_width l /\ (i <= length data)%nat /\
      load_tail (mem w) - load_head (mem w) < l_depth l /\ take i (token l (mem w) t) = take i data
  end.

Definition consumer_ok (w : World) : Prop :=
  match consumer w with
  | CIdle => True
  | CLoadedHead h => h = load_head (mem w)
  | CCopy h got =>
      h = load_head (mem w) /\ load_head (mem w) < load_tail (mem w) /\
      got = take (length got) (token l (mem w) h)
  end.

Definition observer_ok (w : World) : Prop :=
  match observer w with
  | OIdle => True
  | OLoadedHead h => h <= load_head (mem w)
  | OSnapshot h t => h <= t <= load_tail (mem w)
  end.

Record inv (w : World) : Prop := {
  inv_len : byte_len l <= Z.of_nat (length (mem w));
  inv_order : 0 <= load_head (mem w) <= load_tail (mem w);
  inv_bound : load_tail (mem w) - load_head (mem w) <= l_depth l;
  inv_tail : load_tail (mem w) = Z.of_nat (length (pushed w));
  inv_head : load_head (mem w) = Z.of_nat (length (popped w));
  inv_tokens : pushed w = popped w ++ map (token l (mem w)) (zrange (load_head (mem w)) (load_tail (mem w)));
  inv_producer : producer_ok w;
  inv_consumer : consumer_ok w;
  inv_observer : observer_ok w;
}.

Context (Hl : layout_ok l).

Lemma mem_header (m : list Z) : byte_len l <= Z.of_nat (length m) -> (32 <= length m)%nat.
Proof using Hl. destruct Hl as [??? _]. unfold HEADER_SIZE in *. nia. Qed.

(** One byte of the producer's copy. *)
Section write_byte.
Context (m : list Z) (Hm : byte_len l <= Z.of_nat (length m)).
Context (t : Z) (Ht : 0 <= t) (i : nat) (Hi : (i < Z.to_nat (l_width l))%nat) (b : Z).
Local Notation m' := (splice m (Z.to_nat (slot l t) + i) [b]).

Lemma write_byte_fits :
  (32 <= Z.to_nat (slot l t))%nat /\ (Z.to_nat (slot l t) + Z.to_nat (l_width l) <= length m)%nat.
Proof using Hl Hm Ht. clear Hi. pose proof (slot_bounds l Hl t Ht). destruct Hl. unfold HEADER_SIZE in *. lia. Qed.

Lemma write_byte_length : length m' = length m.
Proof using All. destruct write_byte_fits. apply length_splice. simpl. lia. Qed.

Lemma write_byte_tail : load_tail m' = load_tail m.
Proof using All. destruct write_byte_fits. apply read_splice_ne; simpl; lia. Qed.

Lemma write_byte_head : load_head m' = load_head m.
Proof using All. destruct write_byte_fits. apply read_splice_ne; simpl; lia. Qed.

Lemma write_byte_other j : 0 <= j < t -> t - j < l_depth l -> token l m' j = token l m j.
Proof using All.
  intros Hj Hd. destruct write_byte_fits. pose proof (slot_bounds l Hl j ltac:(lia)).
  pose proof (slot_disjoint l Hl j t Hj Hd). destruct Hl. unfold HEADER_SIZE in *. apply slice_splice_ne; simpl; lia.
Qed.

Lemma write_byte_same data :
  data !! i = Some b -> take i (token l m t) = take i data -> take (S i) (token l m' t) = take (S i) data.
Proof using All.
  intros Hb Htk. destruct write_byte_fits. apply list_eq. intros k.
  destruct (decide (k < S i)%nat) as [Hk|]; [|by rewrite !lookup_take_ge by lia].
  rewrite !lookup_take_lt by lia. unfold token. rewrite lookup_slice, decide_True by lia.
  rewrite lookup_splice by (simpl; lia). destruct (decide (k = i)) as [->|Hne].
  - rewrite decide_True by (simpl; lia). rewrite Hb. replace (_ - _)%nat with 0%nat by lia. done.
  - rewrite decide_False by (simpl; lia). apply (f_equal (lookup k)) in Htk.
    rewrite !lookup_take_lt in Htk by lia. rewrite <- Htk. unfold token. by rewrite lookup_slice, decide_True by lia.
Qed.
End write_byte.

Lemma inv_write data t h i b m c o ps qs :
  data !! i = Some b -> inv (mkWorld m (PCopy data t h i) c o ps qs) ->
  inv (mkWorld (splice m (Z.to_nat (slot l t) + i) [b]) (PCopy data t h (S i)) c o ps qs).
Proof using Hl.
  intros Hb [Hm Ho Hbd Ht Hh Htok (Heq & Hd & Hi & Hlt & Htk) Hc Hob]; simpl in *; subst t.
  pose proof (lookup_lt_Some _ _ _ Hb) as Hib. assert (Hi' : (i < Z.to_nat (l_width l))%nat) by lia.
  assert (Ht0 : 0 <= load_tail m) by lia. set (t := load_tail m) in *.
  pose proof (write_byte_tail m Hm t Ht0 i Hi' b) as E1. pose proof (write_byte_head m Hm t Ht0 i Hi' b) as E2.
  assert (E3 : forall k, load_head m <= k < t ->
    token l (splice m (Z.to_nat (slot l t) + i) [b]) k = token l m k) by (intros; apply write_byte_other; auto; lia).
  split; unfold producer_ok, consumer_ok, observer_ok in *; simpl in *; rewrite ?E1, ?E2; fold t; try done.
  - by rewrite write_byte_length.
  - rewrite Htok. f_equal. apply map_zrange_ext. intros k Hk. symmetry. by apply E3.
  - split; [done|]. split; [done|]. split; [lia|]. split; [done|]. by apply write_byte_same.
  - destruct c as [| |h' got]; [done..|]. destruct Hc as (-> & Hlt' & Hgot). rewrite E3 by lia. done.
Qed.

Lemma inv_publish data t h m c o ps qs :
  Z.of_nat (length (ps ++ [data])) <= U64_MAX -> inv (mkWorld m (PCopy data t h (length data)) c o ps qs) ->
  inv (mkWorld (store_tail (wrap64 (t + 1)) m) PIdle c o (ps ++ [data]) qs).
Proof using Hl.
  intros Hmax [Hm Ho Hbd Ht Hh Htok (Heq & Hd & Hi & Hlt & Htk) Hc Hob]; simpl in *; subst t.
  rewrite length_app in Hmax; simpl in Hmax. pose proof (mem_header m Hm) as H32.
  set (t := load_tail m) in *. rewrite (wrap64_id (t + 1)) by (unfold in_u64; lia).
  assert (E1 : load_tail (store_tail (t + 1) m) = t + 1).
  { rewrite load_store_tail by done. apply wrap64_id. unfold in_u64. lia. }
  assert (E2 : load_head (store_tail (t + 1) m) = load_head m) by (by apply load_head_store_tail).
  assert (E3 : forall k, 0 <= k -> token l (store_tail (t + 1) m) k = token l m k) by (intros; unfold store_tail; apply token_store; auto).
  assert (Hdata : token l m t = data).
  { destruct (write_byte_fits m Hm t ltac:(lia)). unfold token in *. rewrite !take_ge in Htk; [done|done|].
    rewrite length_slice by lia. lia. }
  split; unfold producer_ok, consumer_ok, observer_ok in *; simpl in *; rewrite ?E1, ?E2; fold t; try done; try lia.
  - by rewrite length_store_tail.
  - rewrite length_app. simpl. lia.
  - rewrite zrange_snoc, map_app, app_assoc by lia. simpl. rewrite E3, Hdata by lia. f_equal. rewrite Htok. f_equal.
    apply map_zrange_ext. intros k Hk. symmetry. apply E3. lia.
  - destruct c as [| |h' got]; [done..|]. destruct Hc as (-> & Hlt' & Hgot). rewrite E3 by lia. split; [done|]. split; [lia|done].
  - destruct o as [| |h' t']; [done..|]. lia.
Qed.

Lemma inv_pop h got p m o ps qs :
  Z.of_nat (length ps) <= U64_MAX -> Z.of_nat (length got) = l_width l ->
  inv (mkWorld m p (CCopy h got) o ps qs) ->
  inv (mkWorld (store_head (wrap64 (h + 1)) m) p CIdle o ps (qs ++ [got])).
Proof using Hl.
  intros Hmax Hlen [Hm Ho Hbd Ht Hh Htok Hp (Heq & Hlt & Hgot) Hob]; simpl in *; subst h. pose proof (mem_header m Hm) as H32.
  set (h := load_head m) in *. rewrite (wrap64_id (h + 1)) by (unfold in_u64; lia).
  assert (E1 : load_head (store_head (h + 1) m) = h + 1).
  { rewrite load_store_head by done. apply wrap64_id. unfold in_u64. lia. }
  assert (E2 : load_tail (store_head (h + 1) m) = load_tail m) by (by apply load_tail_store_head).
  assert (E3 : forall k, 0 <= k -> token l (store_head (h + 1) m) k = token l m k) by (intros; unfold store_head; apply token_store; auto).
  assert (Hfront : got = token l m h).
  { rewrite Hgot. apply take_ge. unfold token. destruct (write_byte_fits m Hm h ltac:(lia)). rewrite length_slice by lia. lia. }
  split; unfold producer_ok, consumer_ok, observer_ok in *; simpl in *; rewrite ?E1, ?E2; try done; try lia.
  - by rewrite length_store_head.
  - rewrite length_app. simpl. lia.
  - rewrite Htok, (zrange_cons h) by done. simpl. rewrite <- Hfront, <- app_assoc. simpl. do 2 f_equal.
    apply map_zrange_ext. intros k Hk. symmetry. apply E3. lia.
  - destruct p as [| |data t h' i]; [done..|]. destruct Hp as (-> & ? & ? & ? & Htk). rewrite E3 by lia.
    do 3 (split; [done|]). split; [lia|done].
  - destruct o as [|h'|h' t']; [done|..]; lia.
Qed.

Lemma take_snoc_lookup {A} (got xs : list A) b :
  got = take (length got) xs -> xs !! length got = Some b -> got ++ [b] = take (length (got ++ [b])) xs.
Proof. intros Hg Hb. rewrite length_app. simpl. rewrite Nat.add_1_r, (take_S_r _ _ b) by done. by rewrite <- Hg. Qed.

Lemma inv_step w w' : step w w' -> Z.of_nat (length (pushed w')) <= U64_MAX -> inv w -> inv w'.
Proof using Hl.
  destruct 1; simpl; intros Hmax Hinv; try (by eapply inv_write); try (by apply inv_publish in Hinv);
    try (by apply inv_pop in Hinv);
    destruct Hinv as [Hm Ho Hbd Ht Hh Htok Hp Hc Hob];
    split; unfold producer_ok, consumer_ok, observer_ok in *; simpl in *; try done; try lia.
  - bool_hyps. subst t. rewrite wrap64_id in * by (unfold in_u64; lia). split; [done|]. split; [done|]. split; [lia|]. split; [lia|done].
  - bool_hyps. subst h. split; [done|]. split; [lia|done].
  - destruct Hc as (-> & Hlt & Hgot). split; [done|]. split; [done|]. apply take_snoc_lookup; [done|].
    unfold token. rewrite lookup_slice, decide_True by done. done.
Qed.
End processes.

(** ** The steps are the operations, cut at their shared accesses *)

Lemma splice_snoc m off (data : list Z) i b :
  (off + length data <= length m)%nat -> data !! i = Some b ->
  splice (splice m off (take i data)) (off + i) [b] = splice m off (take (S i) data).
Proof.
  intros Hlen Hb. pose proof (lookup_lt_Some _ _ _ Hb). apply list_eq. intros k.
  assert (Hti : length (take i data) = i) by (rewrite length_take; lia).
  assert (Hts : length (take (S i) data) = S i) by (rewrite length_take; lia).
  rewrite !lookup_splice by (rewrite ?length_splice; simpl; rewrite ?Hti, ?Hts; lia). rewrite Hti, Hts. simpl.
  destruct (decide (off + i <= k < off + i + 1)%nat) as [Hk|Hk].
  - rewrite decide_True by lia. replace k with (off + i)%nat by lia.
    replace (off + i - (off + i))%nat with 0%nat by lia. replace (off + i - off)%nat with i by lia.
    rewrite lookup_take_lt by lia. done.
  - destruct (decide (off <= k < off + i)%nat).
    + rewrite decide_True by lia. by rewrite !lookup_take_lt by lia.
    + by rewrite decide_False by lia.
Qed.

Lemma splice_nil (m : list Z) off : splice m off [] = m.
Proof. unfold splice. simpl. by rewrite Nat.add_0_r, take_drop. Qed.

Lemma write_steps l data t h m c o ps qs i :
  (Z.to_nat (slot l t) + length data <= length m)%nat -> (i <= length data)%nat ->
  rtc (step l) (mkWorld m (PCopy data t h 0) c o ps qs)
    (mkWorld (splice m (Z.to_nat (slot l t)) (take i data)) (PCopy data t h i) c o ps qs).
Proof.
  intros Hlen. induction i as [|i IH]; intros Hi.
  - rewrite take_0, splice_nil. apply rtc_refl.
  - eapply rtc_r; [apply IH; lia|]. destruct (lookup_lt_is_Some_2 data i ltac:(lia)) as [b Hb].
    rewrite <- (splice_snoc m _ data i b) by done. by apply step_write.
Qed.

Lemma read_steps l p h m o ps qs i :
  (Z.to_nat (slot l h) + Z.to_nat (l_width l) <= length m)%nat -> (i <= Z.to_nat (l_width l))%nat ->
  rtc (step l) (mkWorld m p (CCopy h []) o ps qs) (mkWorld m p (CCopy h (take i (token l m h))) o ps qs).
Proof.
  intros Hlen. induction i as [|i IH]; intros Hi; [rewrite take_0; apply rtc_refl|].
  eapply rtc_r; [apply IH; lia|].
  assert (Hlk : token l m h !! i = m !! (Z.to_nat (slot l h) + i)%nat)
    by (unfold token; by rewrite lookup_slice, decide_True by lia).
  destruct (lookup_lt_is_Some_2 m (Z.to_nat (slot l h) + i) ltac:(lia)) as [b Hb].
  rewrite (take_S_r _ _ b) by (by rewrite Hlk).
  assert (Hli : length (take i (token l m h)) = i) by (rewrite length_take; unfold token; rewrite length_slice; lia).
  apply step_read; rewrite Hli; [lia|done].
Qed.

(** The interleaved steps are a refinement of the operations: a push
    that succeeds, or a pop that succeeds, is a run of the producer's,
    respectively the consumer's, steps from the segment before it to the
    segment after it, with nothing else moving. *)
Theorem operations_are_runs q :
  (forall data full q' c o ps qs,
     try_push_check_full q data = Ok (full, q') -> 0 <= slot (layout q) (load_tail (seg q)) ->
     rtc (step (layout q)) (mkWorld (seg q) PIdle c o ps qs) (mkWorld (seg q') PIdle c o (ps ++ [data]) qs)) /\
  (forall buf q' buf' p o ps qs,
     pop_into q buf = Ok (true, q', buf') -> 0 <= slot (layout q) (load_head (seg q)) -> 0 <= l_width (layout q) ->
     rtc (step (layout q)) (mkWorld (seg q) p CIdle o ps qs)
       (mkWorld (seg q') p CIdle o ps (qs ++ [take (Z.to_nat (l_width (layout q))) buf']))).
Proof.
  split.
  - intros data full q' c o ps qs. unfold try_push_check_full.
    destruct (l_depth (layout q) <=? _) eqn:Hfull; [done|].
    destruct (Z.of_nat (length data) =? l_width (layout q)) eqn:Hsz; simpl; [|done].
    destruct (in_range _ _ _) eqn:Hr; simpl; [|done]. intros [= <- <-] Hpos. unfold in_range in Hr. bool_hyps. simpl.
    eapply rtc_l; [by apply (step_load_tail _ data)|]. eapply rtc_l; [apply step_accept; [by apply Z.leb_gt|by apply Z.eqb_eq]|].
    eapply rtc_r; [apply (write_steps _ _ _ _ _ _ _ _ _ (length data)); lia|].
    rewrite take_ge by done. apply step_publish.
  - intros buf q' buf' p o ps qs. unfold pop_into, read_front.
    destruct (load_tail (seg q) =? load_head (seg q)) eqn:He; [done|].
    destruct (Z.of_nat (length buf) <? l_width (layout q)) eqn:Hb; [done|].
    destruct (in_range _ _ _) eqn:Hr; cbn [negb rbind]; [|done]. intros [= <- <-] Hpos Hw. unfold in_range in Hr. bool_hyps. cbn [seg].
    eapply rtc_l; [apply step_load_head|]. eapply rtc_l; [apply step_nonempty; by apply Z.eqb_neq|].
    fold (token (layout q) (seg q) (load_head (seg q))). set (w := Z.to_nat (l_width (layout q))) in *.
    assert (Hlen : length (token (layout q) (seg q) (load_head (seg q))) = w) by (apply length_slice; lia).
    assert (Hbuf : take w (splice buf 0 (token (layout q) (seg q) (load_head (seg q)))) = token (layout q) (seg q) (load_head (seg q)))
      by (unfold splice; rewrite take_0, <- Hlen, app_nil_l; apply take_app_length).
    rewrite Hbuf.
    eapply rtc_r; [apply (read_steps _ _ _ _ _ _ _ w); lia|]. rewrite take_ge by lia. apply step_pop. lia.
Qed.

Lemma operations_are_runs_witness :
  exists q', rtc (step (layout Example.queue)) (mkWorld (seg Example.queue) PIdle CIdle OIdle [] [])
    (mkWorld (seg q') PIdle CIdle OIdle [[1; 2; 3]] []).
Proof.
  assert (Hp : exists q', try_push_check_full Example.queue [1; 2; 3] = Ok (false, q')) by (eexists; vm_compute; reflexivity).
  destruct Hp as (q' & Hp). exists q'.
  refine (proj1 (operations_are_runs Example.queue) [1; 2; 3] false q' CIdle OIdle [] [] Hp _). vm_compute. discriminate.
Defined.

(** ** Every interleaving is a FIFO *)

Lemma pushed_grows l w w' : step l w w' -> (length (pushed w) <= length (pushed w'))%nat.
Proof. destruct 1; simpl; rewrite ?length_app; simpl; lia. Qed.

Lemma initial_ok l m :
  layout_ok l -> byte_len l <= Z.of_nat (length m) -> load_tail m = 0 -> load_head m = 0 -> inv l (initial m).
Proof. intros Hl Hm Ht Hh. pose proof (lo_depth l Hl). split; simpl; rewrite ?Ht, ?Hh; try done; lia. Qed.

Lemma reachable_inv l m w :
  layout_ok l -> inv l (initial m) -> rtc (step l) (initial m) w ->
  Z.of_nat (length (pushed w)) <= U64_MAX -> inv l w.
Proof.
  intros Hl H0. revert w. apply (rtc_ind_r (fun w => Z.of_nat (length (pushed w)) <= U64_MAX -> inv l w)); [done|].
  intros w w' _ Hs IH Hmax. pose proof (pushed_grows l w w' Hs). apply (inv_step l Hl w w' Hs Hmax), IH. lia.
Qed.

(** C1: under every interleaving of a producer, a consumer and an observer,
    the queue is a FIFO. What has been popped is always a prefix of what has
    been pushed, and never more than [depth] tokens are in flight; when the
    consumer has finished copying, what it holds is exactly the next token
    pushed and not popped, although the producer may be writing meanwhile; and
    a [head_tail] snapshot never shows a head beyond its tail. *)
Theorem concurrent_fifo l m w :
  layout_ok l -> byte_len l <= Z.of_nat (length m) -> load_tail m = 0 -> load_head m = 0 ->
  rtc (step l) (initial m) w -> Z.of_nat (length (pushed w)) <= U64_MAX ->
  popped w `prefix_of` pushed w /\
  Z.of_nat (length (pushed w)) - Z.of_nat (length (popped w)) <= l_depth l /\
  (forall h got, consumer w = CCopy h got -> Z.of_nat (length got) = l_width l ->
     pushed w !! length (popped w) = Some got) /\
  (forall h t, observer w = OSnapshot h t -> h <= t).
Proof.
  intros Hl Hm Ht Hh Hr Hmax. destruct (reachable_inv l m w Hl (initial_ok l m Hl Hm Ht Hh) Hr Hmax)
    as [Hlen Ho Hb Htl Hhd Htok _ Hc Hob].
  split; [rewrite Htok; by apply prefix_app_r|]. split; [lia|]. split.
  - intros h got Heq Hgot. unfold consumer_ok in Hc. rewrite Heq in Hc. destruct Hc as (-> & Hlt & Hg).
    rewrite Htok, lookup_app_r, Nat.sub_diag by done. rewrite zrange_cons by done. simpl. f_equal. rewrite Hg.
    symmetry. apply take_ge. unfold token.
    pose proof (slot_bounds l Hl (load_head (mem w)) ltac:(lia)). unfold HEADER_SIZE in *.
    pose proof (lo_width l Hl). rewrite length_slice by lia. lia.
  - intros h t Heq. unfold observer_ok in Hob. rewrite Heq in Hob. lia.
Qed.

Lemma concurrent_fifo_witness : exists w, pushed w = [[1; 2; 3]] /\ popped w `prefix_of` pushed w.
Proof.
  assert (Hp : exists q', try_push_check_full Example.queue [1; 2; 3] = Ok (false, q')) by (eexists; vm_compute; reflexivity).
  destruct Hp as (q' & Hp). exists (mkWorld (seg q') PIdle CIdle OIdle [[1; 2; 3]] []). split; [reflexivity|].
  refine (proj1 (concurrent_fifo (layout Example.queue) (seg Example.queue) _ example_layout _ _ _ _ _));
    [vm_compute; discriminate|vm_compute; reflexivity|vm_compute; reflexivity| |vm_compute; discriminate].
  unfold try_push_check_full in Hp. revert Hp. vm_compute. intros [= <-].
  eapply rtc_l; [by apply (step_load_tail _ [1; 2; 3])|]. eapply rtc_l; [apply step_accept; vm_compute; reflexivity|].
  do 3 (eapply rtc_l; [apply step_write; reflexivity|]).
  eapply rtc_l; [apply (step_publish _ [1; 2; 3])|]. vm_compute. apply rtc_refl.
Defined.
