(* ===== verification/Dpi.v ===== *)
(** * The simulator side: DPI streams and AXI memories

    [frt-dpi/src/stream.rs], [axi.rs] and [context.rs]: what the DPI library
    loaded into the simulator does with the shared queues and buffers on each
    call from the testbench.  The stream operations are proved against the FIFO
    that [Shm.represents] gives, not against the bytes.

    The statistics counters are modelled; the progress report they feed
    (standard error, wall clock, scheduler yield) is not. *)

From S2P Require Import Prelude Shm.

Record DpiStreamInner := mkInner {
  queue : Queue;
  bytes : list Z;
  last_istream_valid : bool;
}.

(** [poisoned] is the state of the [Mutex] around the inner stream. *)
Record DpiStream := mkStream { inner : DpiStreamInner; poisoned : bool; dpi_width_bytes : nat }.

Record DpiContext := mkContext {
  buffers : gmap string (list Z * Z);
  streams : gmap string DpiStream;
}.

(** The atomic counters of the module. *)
Record Stats := mkStats { READ_OK : Z; READ_MISS : Z; WRITE_OK : Z; WRITE_FULL : Z; MISS_COUNTER : Z }.

Definition count_read_ok (s : Stats) : Stats :=
  mkStats (wrap64 (READ_OK s + 1)) (READ_MISS s) (WRITE_OK s) (WRITE_FULL s) (MISS_COUNTER s).
Definition count_write_ok (s : Stats) : Stats :=
  mkStats (READ_OK s) (READ_MISS s) (wrap64 (WRITE_OK s + 1)) (WRITE_FULL s) (MISS_COUNTER s).
(** A miss also passes through [maybe_report_progress]. *)
Definition count_read_miss (s : Stats) : Stats :=
  mkStats (READ_OK s) (wrap64 (READ_MISS s + 1)) (WRITE_OK s) (WRITE_FULL s) (wrap64 (MISS_COUNTER s + 1)).
Definition count_write_full (s : Stats) : Stats :=
  mkStats (READ_OK s) (READ_MISS s) (WRITE_OK s) (wrap64 (WRITE_FULL s + 1)) (wrap64 (MISS_COUNTER s + 1)).

(** ** Operations on one stream *)

Definition inner_pop (s : DpiStreamInner) : res unit (bool * DpiStreamInner) :=
  let! (ok, q, b) := pop_into (queue s) (bytes s) in Ok (ok, mkInner q b (last_istream_valid s)).

Definition inner_peek (s : DpiStreamInner) : res unit (bool * DpiStreamInner) :=
  let! (ok, b) := peek_into (queue s) (bytes s) in Ok (ok, mkInner (queue s) b (last_istream_valid s)).

(** [copy_to_dpi]: what a buffer of [n] bytes holds afterwards. *)
Definition copy_to_dpi (s : DpiStreamInner) (n : nat) : list Z :=
  let k := Nat.min n (length (bytes s)) in take k (bytes s) ++ replicate (n - k) 0.

(** The host token for [data]: the compact DPI bytes, then zero padding. *)
Definition host_token (s : DpiStreamInner) (data : list Z) (dpi_width : nat) : list Z :=
  let n := Nat.min (length (bytes s)) dpi_width in take n data ++ replicate (length (bytes s) - n) 0.

(** [push_from_dpi]: the scratch bytes change even when the push fails. *)
Definition push_from_dpi (s : DpiStreamInner) (data : list Z) (dpi_width : nat) :
    res unit (option bool * DpiStreamInner) :=
  let b := host_token s data dpi_width in
  match try_push_check_full (queue s) b with
  | Ok (full_after, q) => Ok (Some full_after, mkInner q b (last_istream_valid s))
  | Err _ => Ok (None, mkInner (queue s) b (last_istream_valid s))
  | Panic => Panic
  end.

Definition set_valid (v : bool) (s : DpiStreamInner) : DpiStreamInner := mkInner (queue s) (bytes s) v.

Definition write_ready (s : DpiStreamInner) (known_full : bool) (st : Stats) : bool * Stats :=
  let can := negb known_full && negb (is_full (queue s)) in
  (can, if can then st else count_write_full st).

(** The body of each entry point once the stream is locked; [out] is the
    DPI buffer of [dpi_width_bytes] bytes. *)
Definition try_read_step (dpi : nat) (s : DpiStreamInner) (st : Stats) (out : list Z) :
    res unit (bool * list Z * DpiStreamInner * Stats) :=
  let! (ok, s) := inner_pop s in
  if ok then Ok (true, copy_to_dpi s dpi, s, count_read_ok st)
  else Ok (false, out, s, count_read_miss st).

Definition istream_step (dpi : nat) (s : DpiStreamInner) (st : Stats) (consume : bool) (out : list Z) :
    res unit (bool * list Z * DpiStreamInner * Stats) :=
  let! (s, st) :=
    (if last_istream_valid s && consume then
       let! (ok, s) := inner_pop s in Ok (s, if ok then count_read_ok st else st)
     else Ok (s, st)) in
  let! (ok, s) := inner_peek s in
  if ok then Ok (true, copy_to_dpi s dpi, set_valid true s, st)
  else Ok (false, out, set_valid false s, count_read_miss st).

Definition try_write_step (dpi : nat) (s : DpiStreamInner) (st : Stats) (data : list Z) :
    res unit (bool * DpiStreamInner * Stats) :=
  let! (r, s) := push_from_dpi s data dpi in
  match r with Some _ => Ok (true, s, count_write_ok st) | None => Ok (false, s, st) end.

Definition hls_ostream_step (dpi : nat) (s : DpiStreamInner) (st : Stats) (write : bool) (data : list Z) :
    res unit (bool * DpiStreamInner * Stats) :=
  let! (known_full, s, st) :=
    (if write then
       let! (r, s) := push_from_dpi s data dpi in
       match r with
       | Some full_after => Ok (full_after, s, count_write_ok st)
       | None => Ok (true, s, st)
       end
     else Ok (false, s, st)) in
  let (can, st) := write_ready s known_full st in Ok (can, s, st).

(** ** The entry points *)

Definition lock_stream (ctx : DpiContext) (port : string) : option DpiStream :=
  let? s := streams ctx !! port in if poisoned s then None else Some s.

Definition put_stream (ctx : DpiContext) (port : string) (d : DpiStream) (s : DpiStreamInner) : DpiContext :=
  mkContext (buffers ctx) (<[port := mkStream s (poisoned d) (dpi_width_bytes d)]> (streams ctx)).

Definition stream_try_read_impl (ctx : DpiContext) (st : Stats) (port : string) (out : list Z) :
    res unit (bool * list Z * DpiContext * Stats) :=
  match lock_stream ctx port with
  | None => Ok (false, out, ctx, st)
  | Some d =>
      let! (ok, out, s, st) := try_read_step (dpi_width_bytes d) (inner d) st out in
      Ok (ok, out, put_stream ctx port d s, st)
  end.

Definition stream_istream_step_impl (ctx : DpiContext) (st : Stats) (port : string) (consume : bool) (out : list Z) :
    res unit (bool * list Z * DpiContext * Stats) :=
  match lock_stream ctx port with
  | None => Ok (false, out, ctx, st)
  | Some d =>
      let! (ok, out, s, st) := istream_step (dpi_width_bytes d) (inner d) st consume out in
      Ok (ok, out, put_stream ctx port d s, st)
  end.

Definition stream_try_write_impl (ctx : DpiContext) (st : Stats) (port : string) (data : list Z) :
    res unit (bool * DpiContext * Stats) :=
  match lock_stream ctx port with
  | None => Ok (false, ctx, st)
  | Some d =>
      let! (ok, s, st) := try_write_step (dpi_width_bytes d) (inner d) st data in
      Ok (ok, put_stream ctx port d s, st)
  end.

Definition stream_hls_ostream_step_impl (ctx : DpiContext) (st : Stats) (port : string) (write : bool) (data : list Z) :
    res unit (bool * DpiContext * Stats) :=
  match lock_stream ctx port with
  | None => Ok (false, ctx, st)
  | Some d =>
      let! (ok, s, st) := hls_ostream_step (dpi_width_bytes d) (inner d) st write data in
      Ok (ok, put_stream ctx port d s, st)
  end.

Definition stream_can_write_impl (ctx : DpiContext) (st : Stats) (port : string) : bool * Stats :=
  match lock_stream ctx port with
  | None => (false, st)
  | Some d => write_ready (inner d) false st
  end.

(** ** AXI memories *)

(** [resolve_span]: the segment and the byte offset of an access. *)
Definition resolve_span (ctx : DpiContext) (port : string) (addr len : Z) : option (list Z * Z) :=
  let? (seg, base) := buffers ctx !! port in
  let? offset := checked_sub64 addr base in
  match checked_add64 offset len with
  | Some end_ => if Z.of_nat (length seg) <? end_ then None else Some (seg, offset)
  | None => None
  end.

(** The bytes copied to the DPI buffer; [None] leaves it alone. *)
Definition axi_read_impl (ctx : DpiContext) (port : string) (addr width : Z) : option (list Z) :=
  let? (seg, offset) := resolve_span ctx port addr width in
  Some (slice seg (Z.to_nat offset) (Z.to_nat width)).

Definition axi_write_impl (ctx : DpiContext) (port : string) (addr width : Z) (data : list Z) : DpiContext :=
  match resolve_span ctx port addr width with
  | None => ctx
  | Some (seg, offset) =>
      let base := match buffers ctx !! port with Some (_, b) => b | None => 0 end in
      mkContext (<[port := (splice seg (Z.to_nat offset) (take (Z.to_nat width) data), base)]> (buffers ctx)) (streams ctx)
  end.

(** ** Attaching to a simulation *)

(** [DpiContext::from_env] after the configuration is parsed: [open_segment]
    is [MmapSegment::open], whose error is returned as is. *)
Section from_config.
Context (open_segment : string -> res QueueError (list Z)).

Fixpoint open_buffers (l : list (string * (Z * string))) (acc : gmap string (list Z * Z)) :
    res QueueError (gmap string (list Z * Z)) :=
  match l with
  | [] => Ok acc
  | (name, (base_addr, path)) :: l' =>
      let! seg := open_segment path in open_buffers l' (<[name := (seg, base_addr)]> acc)
  end.

Fixpoint open_streams (l : list (string * (nat * string))) (acc : gmap string DpiStream) :
    res QueueError (gmap string DpiStream) :=
  match l with
  | [] => Ok acc
  | (name, (dpi, path)) :: l' =>
      let! q := open (open_segment path) in
      open_streams l' (<[name := mkStream (mkInner q (replicate (Z.to_nat (width q)) 0) false) false dpi]> acc)
  end.

Definition from_config (cfg_buffers : list (string * (Z * string))) (cfg_streams : list (string * (nat * string))) :
    res QueueError DpiContext :=
  let! b := open_buffers cfg_buffers ∅ in
  let! s := open_streams cfg_streams ∅ in
  Ok (mkContext b s).
End from_config.

(** ** Streams against the FIFO *)

(** The stream holds [items], and its scratch buffer has the token width. *)
Record holds (s : DpiStreamInner) (items : list (list Z)) : Prop := {
  holds_queue : represents (queue s) items;
  holds_bytes : Z.of_nat (length (bytes s)) = width (queue s);
}.

Lemma copy_to_dpi_resize s n : copy_to_dpi s n = resize n 0 (bytes s).
Proof.
  unfold copy_to_dpi. destruct (decide (n <= length (bytes s))%nat).
  - rewrite Nat.min_l by done. rewrite Nat.sub_diag. simpl. by rewrite app_nil_r, resize_le.
  - rewrite Nat.min_r by lia. rewrite take_ge by done. rewrite resize_ge by lia. done.
Qed.

Lemma host_token_resize s data dpi :
  (dpi <= length data)%nat -> host_token s data dpi = resize (length (bytes s)) 0 (take dpi data).
Proof.
  intros Hd. unfold host_token. destruct (decide (dpi <= length (bytes s))%nat).
  - rewrite Nat.min_r by done. rewrite resize_ge by (rewrite length_take; lia). rewrite length_take. do 2 f_equal. lia.
  - rewrite Nat.min_l by lia. rewrite Nat.sub_diag. simpl. rewrite app_nil_r, resize_le by (rewrite length_take; lia).
    rewrite take_take. f_equal. lia.
Qed.

Lemma length_host_token s data dpi : (dpi <= length data)%nat -> length (host_token s data dpi) = length (bytes s).
Proof. intros. rewrite host_token_resize by done. apply length_resize. Qed.

Section held.
Context (s : DpiStreamInner) (items : list (list Z)) (Hs : holds s items).

Lemma inner_pop_nil : items = [] -> inner_pop s = Ok (false, s).
Proof using Hs.
  intros Hi. unfold inner_pop, pop_into. rewrite (read_front_none _ _ (holds_queue _ _ Hs)) by (by left). by destruct s.
Qed.

Lemma inner_peek_nil : items = [] -> inner_peek s = Ok (false, s).
Proof using Hs.
  intros Hi. unfold inner_peek, peek_into. rewrite (read_front_none _ _ (holds_queue _ _ Hs)) by (by left). by destruct s.
Qed.

Lemma front_fills x rest : items = x :: rest -> x ++ drop (length x) (bytes s) = x.
Proof using Hs.
  intros Hi. destruct (read_front_some _ _ (holds_queue _ _ Hs) x rest (bytes s) Hi) as (_ & Hx & _).
  { rewrite (holds_bytes _ _ Hs). done. }
  rewrite drop_ge; [apply app_nil_r|]. pose proof (holds_bytes _ _ Hs). lia.
Qed.

Lemma inner_pop_cons x rest :
  items = x :: rest -> exists s', inner_pop s = Ok (true, s') /\ holds s' rest /\ bytes s' = x /\
    last_istream_valid s' = last_istream_valid s /\ layout (queue s') = layout (queue s).
Proof using Hs.
  intros Hi. destruct (read_front_some _ _ (holds_queue _ _ Hs) x rest (bytes s) Hi) as (Hr & Hx & Hq).
  { rewrite (holds_bytes _ _ Hs). done. }
  rewrite (front_fills x rest Hi) in Hr. unfold inner_pop, pop_into. rewrite Hr. cbn [rbind].
  eexists. split; [done|]. split; [by split|done].
Qed.

Lemma inner_peek_cons x rest :
  items = x :: rest -> inner_peek s = Ok (true, mkInner (queue s) x (last_istream_valid s)) /\
    holds (mkInner (queue s) x (last_istream_valid s)) items.
Proof using Hs.
  intros Hi. destruct (read_front_some _ _ (holds_queue _ _ Hs) x rest (bytes s) Hi) as (Hr & Hx & Hq).
  { rewrite (holds_bytes _ _ Hs). done. }
  rewrite (front_fills x rest Hi) in Hr. unfold inner_peek, peek_into. rewrite Hr. cbn [rbind].
  split; [done|]. split; [apply Hs|done].
Qed.

Lemma push_from_dpi_spec data dpi :
  load_tail (seg (queue s)) < U64_MAX -> (dpi <= length data)%nat ->
  let tok := resize (length (bytes s)) 0 (take dpi data) in
  if depth (queue s) <=? Z.of_nat (length items)
  then push_from_dpi s data dpi = Ok (None, mkInner (queue s) tok (last_istream_valid s)) /\
       holds (mkInner (queue s) tok (last_istream_valid s)) items
  else exists s', push_from_dpi s data dpi = Ok (Some (depth (queue s) <=? Z.of_nat (length items) + 1), s') /\
       holds s' (items ++ [tok]) /\ layout (queue s') = layout (queue s) /\
       last_istream_valid s' = last_istream_valid s /\ load_tail (seg (queue s')) = load_tail (seg (queue s)) + 1.
Proof using Hs.
  intros Hmax Hd tok. pose proof (host_token_resize s data dpi Hd) as Htok. fold tok in Htok.
  assert (Hlen : Z.of_nat (length tok) = width (queue s)) by (unfold tok; rewrite length_resize; apply Hs).
  unfold push_from_dpi. rewrite Htok. destruct (depth (queue s) <=? Z.of_nat (length items)) eqn:Hf; bool_hyps.
  - rewrite (push_full _ _ (holds_queue _ _ Hs)) by done. split; [done|]. split; [apply Hs|done].
  - destruct (push_appends _ _ (holds_queue _ _ Hs) tok Hmax Hf Hlen) as (q' & -> & Hr & Hl & Ht).
    eexists. split; [done|]. split; [split; [done|]; simpl; unfold width in *; by rewrite Hl|done].
Qed.
End held.

Lemma holds_set_valid v s items : holds s items -> holds (set_valid v s) items.
Proof. intros []. by split. Qed.

(** The input-stream handshake is a first-word-fall-through FIFO. With
    [items] in the queue, and a token presented in the previous cycle whenever
    the valid flag is set, a step consumes the token it presented (and only
    that one) when asked to, then presents the next one: it reports valid
    exactly when a token is left, and the DPI buffer holds that token's first
    bytes, zero padded; otherwise the buffer is untouched. *)
Theorem istream_step_refines dpi s st consume out items :
  holds s items -> (last_istream_valid s = true -> items <> []) ->
  let items' := if last_istream_valid s && consume then tail items else items in
  exists ok out' s' st',
    istream_step dpi s st consume out = Ok (ok, out', s', st') /\ holds s' items' /\
    (last_istream_valid s' = true -> items' <> []) /\ last_istream_valid s' = ok /\
    match items' with
    | [] => ok = false /\ out' = out
    | x :: _ => ok = true /\ out' = resize dpi 0 x
    end.
Proof.
  intros Hs Hv. set (items' := if _ : bool then _ else _). unfold istream_step.
  assert (Hpop : exists s1 st1, (if last_istream_valid s && consume then
      let! (ok, s) := inner_pop s in Ok (s, if ok then count_read_ok st else st) else Ok (s, st))
      = Ok (s1, st1) /\ holds s1 items').
  { unfold items'. destruct (last_istream_valid s && consume) eqn:E; [|by eauto]. bool_hyps.
    destruct items as [|x rest]; [by specialize (Hv H)|].
    destruct (inner_pop_cons s _ Hs x rest eq_refl) as (s1 & -> & ? & _). simpl. eauto. }
  destruct Hpop as (s1 & st1 & -> & Hs1). cbn [rbind]. clearbody items'. clear Hv Hs. destruct items' as [|x rest].
  - rewrite (inner_peek_nil s1 [] Hs1 eq_refl). simpl. eexists _, _, _, _. split; [done|].
    split; [by apply holds_set_valid|]. done.
  - destruct (inner_peek_cons s1 _ Hs1 x rest eq_refl) as [-> Hs2]. cbn [rbind]. eexists _, _, _, _. split; [done|].
    split; [exact (holds_set_valid true _ _ Hs2)|]. split; [done|]. split; [done|]. split; [done|]. by rewrite copy_to_dpi_resize.
Qed.

(** The output-stream handshake loses no token that is written when ready
    was reported. A step appends the written token when there is room, and
    reports ready exactly when there is room after it; so a write following a
    ready report is always accepted. A write is dropped only when the queue
    was already full. *)
Theorem ostream_step_refines dpi s st write data items :
  holds s items -> load_tail (seg (queue s)) < U64_MAX -> (dpi <= length data)%nat ->
  let room := Z.of_nat (length items) <? depth (queue s) in
  let items' := if write && room then items ++ [resize (length (bytes s)) 0 (take dpi data)] else items in
  exists ready s' st',
    hls_ostream_step dpi s st write data = Ok (ready, s', st') /\ holds s' items' /\
    depth (queue s') = depth (queue s) /\
    (ready = true <-> Z.of_nat (length items') < depth (queue s)).
Proof.
  intros Hs Hmax Hd room items'. unfold hls_ostream_step, write_ready. destruct write; cbn [andb] in items'.
  - pose proof (push_from_dpi_spec s items Hs data dpi Hmax Hd) as Hp. cbv zeta in Hp.
    destruct (depth (queue s) <=? Z.of_nat (length items)) eqn:Hf; bool_hyps.
    + destruct Hp as [-> Hs']. simpl. unfold items', room. rewrite (proj2 (Z.ltb_ge _ _) Hf).
      eexists _, _, _. split; [done|]. split; [done|]. split; [done|]. split; [done|lia].
    + destruct Hp as (s' & -> & Hs' & Hl & _). cbn [rbind]. unfold items', room. rewrite (proj2 (Z.ltb_lt _ _) Hf).
      rewrite (is_full_spec _ _ (holds_queue _ _ Hs')). unfold depth in *. rewrite Hl.
      eexists _, _, _. split; [done|]. split; [done|]. split; [by rewrite Hl|]. rewrite length_app. simpl.
      rewrite andb_true_iff, !negb_true_iff, !Z.leb_gt. lia.
  - cbn [rbind]. rewrite (is_full_spec _ _ (holds_queue _ _ Hs)). eexists _, _, _. split; [done|]. split; [done|].
    split; [done|]. unfold items'. simpl. rewrite negb_true_iff, Z.leb_gt. done.
Qed.

(** ** Write-then-read through the context *)

(** A port whose stream is attached, unpoisoned and holds [items]. *)
Definition attached (ctx : DpiContext) (port : string) (dpi : nat) (w : Z) (room : Z) (items : list (list Z)) : Prop :=
  exists s, streams ctx !! port = Some (mkStream s false dpi) /\ holds s items /\ width (queue s) = w /\
    room = depth (queue s) - Z.of_nat (length items) /\ load_tail (seg (queue s)) < U64_MAX - room.

Fixpoint write_all (ctx : DpiContext) (st : Stats) (port : string) (ds : list (list Z)) :
    res unit (list bool * DpiContext * Stats) :=
  match ds with
  | [] => Ok ([], ctx, st)
  | d :: ds' =>
      let! (ok, ctx, st) := stream_try_write_impl ctx st port d in
      let! (oks, ctx, st) := write_all ctx st port ds' in Ok (ok :: oks, ctx, st)
  end.

Fixpoint read_all (ctx : DpiContext) (st : Stats) (port : string) (outs : list (list Z)) :
    res unit (list (list Z) * DpiContext * Stats) :=
  match outs with
  | [] => Ok ([], ctx, st)
  | out :: outs' =>
      let! (_, got, ctx, st) := stream_try_read_impl ctx st port out in
      let! (gots, ctx, st) := read_all ctx st port outs' in Ok (got :: gots, ctx, st)
  end.

Lemma attached_write ctx st port dpi w room items data :
  attached ctx port dpi w room items -> 0 < room -> length data = dpi -> exists ctx' st',
    stream_try_write_impl ctx st port data = Ok (true, ctx', st') /\
    attached ctx' port dpi w (room - 1) (items ++ [resize (Z.to_nat w) 0 data]).
Proof.
  intros (s & Hs & Hh & Hw & Hr & Ht) Hpos Hd. unfold stream_try_write_impl, lock_stream. rewrite Hs. simpl.
  pose proof (push_from_dpi_spec s items Hh data dpi ltac:(lia) ltac:(lia)) as Hp. cbv zeta in Hp.
  rewrite (proj2 (Z.leb_gt _ _)) in Hp by lia. destruct Hp as (s' & Hp & Hh' & Hl & _ & Ht').
  unfold try_write_step. rewrite Hp. cbn [rbind]. eexists _, _. split; [done|]. exists s'. simpl.
  split; [by rewrite lookup_insert_eq|]. pose proof (holds_bytes _ _ Hh). unfold width, depth in *. split.
  - rewrite take_ge in Hh' by lia. replace (length (bytes s)) with (Z.to_nat w) in Hh' by lia. done.
  - rewrite Hl, Ht', length_app. simpl. split; [done|]. split; lia.
Qed.

Lemma attached_write_all ctx st port dpi w room items ds :
  attached ctx port dpi w room items -> Z.of_nat (length ds) <= room -> Forall (fun d => length d = dpi) ds ->
  exists ctx' st', write_all ctx st port ds = Ok (replicate (length ds) true, ctx', st') /\
    attached ctx' port dpi w (room - Z.of_nat (length ds)) (items ++ map (resize (Z.to_nat w) 0) ds).
Proof.
  revert ctx st room items; induction ds as [|d ds IH]; intros ctx st room items Ha Hroom Hds; simpl.
  - eexists _, _. split; [done|]. by rewrite app_nil_r, Z.sub_0_r.
  - apply Forall_cons in Hds as [Hd Hds]. simpl in Hroom.
    destruct (attached_write ctx st port dpi w room items d Ha ltac:(lia) Hd) as (ctx1 & st1 & -> & Ha1). cbn [rbind].
    destruct (IH ctx1 st1 (room - 1) _ Ha1 ltac:(lia) Hds) as (ctx2 & st2 & -> & Ha2). cbn [rbind].
    eexists _, _. split; [done|]. rewrite <- app_assoc in Ha2. simpl in Ha2.
    replace (room - Z.of_nat (S (length ds))) with (room - 1 - Z.of_nat (length ds)) by lia. done.
Qed.

Lemma attached_read_all ctx st port dpi s items outs :
  streams ctx !! port = Some (mkStream s false dpi) -> holds s items -> length outs = length items ->
  exists ctx' st', read_all ctx st port outs = Ok (map (resize dpi 0) items, ctx', st').
Proof.
  revert ctx st s items; induction outs as [|out outs IH]; intros ctx st s [|x rest] Hs Hh Hlen; simpl in Hlen; try lia.
  - simpl. eauto.
  - simpl. unfold stream_try_read_impl, lock_stream. rewrite Hs. simpl.
    destruct (inner_pop_cons s _ Hh x rest eq_refl) as (s' & Hp & Hh' & Hb & _).
    unfold try_read_step. rewrite Hp. cbn [rbind]. rewrite copy_to_dpi_resize, Hb.
    destruct (IH (put_stream ctx port (mkStream s false dpi) s') (count_read_ok st) s' rest) as (ctx' & st' & ->);
      [by simpl; rewrite lookup_insert_eq|done|lia|]. cbn [rbind]. eauto.
Qed.

Lemma resize_roundtrip (d : list Z) n w : length d = n -> (n <= w)%nat -> resize n 0 (resize w 0 d) = d.
Proof.
  intros Hd Hw. rewrite (resize_ge d) by lia. rewrite resize_le by (rewrite length_app, length_replicate; lia).
  by rewrite <- Hd, take_app_length.
Qed.

(** Tokens survive the trip through the shared queue. On an empty stream
    with room for them, a list of DPI tokens no wider than the host token is
    written without a refusal, and reading as many tokens back returns the same
    list in the same order, padding removed. *)
Theorem write_read_roundtrip ctx st port dpi w room ds outs :
  attached ctx port dpi w room [] -> Z.of_nat (length ds) <= room -> Z.of_nat dpi <= w ->
  Forall (fun d => length d = dpi) ds -> length outs = length ds ->
  exists ctx1 st1 ctx2 st2,
    write_all ctx st port ds = Ok (replicate (length ds) true, ctx1, st1) /\
    read_all ctx1 st1 port outs = Ok (ds, ctx2, st2).
Proof.
  intros Ha Hroom Hw Hds Houts. destruct (attached_write_all ctx st port dpi w room [] ds Ha Hroom Hds)
    as (ctx1 & st1 & Hwr & (s & Hs & Hh & _)). simpl in Hh.
  destruct (attached_read_all ctx1 st1 port dpi s _ outs Hs Hh) as (ctx2 & st2 & Hrd); [by rewrite length_map|].
  exists ctx1, st1, ctx2, st2. split; [done|]. rewrite Hrd, map_map. do 3 f_equal.
  clear -Hds Hw. induction Hds as [|d ds Hd _ IH]; simpl; [done|]. rewrite IH, resize_roundtrip by lia. done.
Qed.

(** ** AXI *)

Lemma resolve_span_spec ctx port addr len seg base :
  buffers ctx !! port = Some (seg, base) -> in_u64 addr -> in_u64 base -> 0 <= len -> Z.of_nat (length seg) <= U64_MAX ->
  resolve_span ctx port addr len =
    if decide (base <= addr /\ addr - base + len <= Z.of_nat (length seg)) then Some (seg, addr - base) else None.
Proof.
  unfold in_u64. intros Hb Ha Hbase Hlen Hseg. unfold resolve_span, checked_sub64, checked_add64. rewrite Hb.
  destruct (fits U64_MAX (addr - base)) as [o|] eqn:Ho; res_inv.
  - destruct (fits U64_MAX (addr - base + len)) as [e|] eqn:He; res_inv.
    + destruct (Z.of_nat (length seg) <? addr - base + len) eqn:Hlt; bool_hyps; destruct (decide _); try done; lia.
    + destruct (decide _); [lia|done].
  - destruct (decide _); [lia|done].
Qed.

(** AXI accesses stay inside the buffer of their port. An access is
    served exactly when its whole span lies in the mapped segment; a refused
    write changes nothing and a refused read returns nothing. A served write
    changes just the bytes of its span of that port's buffer: it is read back
    as written, every disjoint span of that buffer and every other port read
    as before. *)
Theorem axi_write_read ctx port seg base addr len data :
  buffers ctx !! port = Some (seg, base) -> in_u64 addr -> in_u64 base -> 0 <= len <= U32_MAX ->
  Z.of_nat (length seg) <= U64_MAX -> Z.of_nat (length data) = len ->
  let ctx' := axi_write_impl ctx port addr len data in
  if decide (base <= addr /\ addr - base + len <= Z.of_nat (length seg)) then
    axi_read_impl ctx' port addr len = Some data /\
    (forall addr' len', in_u64 addr' -> 0 <= len' -> addr' + len' <= addr \/ addr + len <= addr' ->
       axi_read_impl ctx' port addr' len' = axi_read_impl ctx port addr' len') /\
    (forall p a l, p <> port -> axi_read_impl ctx' p a l = axi_read_impl ctx p a l) /\
    streams ctx' = streams ctx
  else axi_read_impl ctx port addr len = None /\ ctx' = ctx.
Proof.
  intros Hb Ha Hbase Hlen Hseg Hd ctx'.
  pose proof (resolve_span_spec ctx port addr len seg base Hb Ha Hbase ltac:(lia) Hseg) as Hr.
  unfold ctx', axi_write_impl, axi_read_impl. rewrite Hr, Hb. clear ctx'. destruct (decide _) as [[H1 H2]|]; [|done].
  set (seg' := splice seg (Z.to_nat (addr - base)) (take (Z.to_nat len) data)).
  assert (Ht : take (Z.to_nat len) data = data) by (apply take_ge; lia).
  assert (Hfit : (Z.to_nat (addr - base) + length data <= length seg)%nat) by lia.
  assert (Hl : length seg' = length seg) by (unfold seg'; rewrite Ht; by apply length_splice).
  set (ctx' := mkContext _ _). assert (Hb' : buffers ctx' !! port = Some (seg', base)) by apply lookup_insert_eq.
  split; [|split; [|split; [|done]]].
  - rewrite (resolve_span_spec ctx' port addr len seg' base) by (done || lia). rewrite Hl, decide_True by done.
    f_equal. unfold seg'. rewrite Ht. replace (Z.to_nat len) with (length data) by lia. by apply slice_splice_eq.
  - intros addr' len' Ha' Hlen' Hdis. rewrite (resolve_span_spec ctx' port addr' len' seg' base) by (done || lia).
    rewrite (resolve_span_spec ctx port addr' len' seg base) by done. rewrite Hl. destruct (decide _) as [[??]|]; [|done].
    f_equal. unfold seg'. rewrite Ht. apply slice_splice_ne; lia.
  - intros p a l Hp. unfold resolve_span. simpl. by rewrite lookup_insert_ne.
Qed.

(** ** Attaching *)

Lemma open_streams_spec open_segment l acc m :
  open_streams open_segment l acc = Ok m ->
  forall port d, m !! port = Some d -> acc !! port = Some d \/
    exists dpi path q, In (port, (dpi, path)) l /\ open (open_segment path) = Ok q /\
      d = mkStream (mkInner q (replicate (Z.to_nat (width q)) 0) false) false dpi.
Proof.
  revert acc; induction l as [|[name [dpi path]] l IH]; intros acc; simpl.
  - intros [= <-]. auto.
  - intros (q & Hq & H)%rbind_ok port d Hd. destruct (IH _ H port d Hd) as [Hi|(dpi' & path' & q' & Hin & ?)].
    + destruct (decide (port = name)) as [->|Hne].
      * rewrite lookup_insert_eq in Hi. injection Hi as <-. right. exists dpi, path, q. auto.
      * rewrite lookup_insert_ne in Hi by done. auto.
    + right. exists dpi', path', q'. auto.
Qed.

(** Attaching to a simulation establishes what the stream operations
    rely on. Every stream of a context built from a configuration comes from an
    entry of it, and if the segment behind that entry is a queue holding
    [items] with room counters to spare, the stream is attached holding the same
    [items], its valid flag down. *)
Theorem from_config_attaches open_segment cb cs ctx port d items :
  from_config open_segment cb cs = Ok ctx -> streams ctx !! port = Some d ->
  represents (queue (inner d)) items -> load_tail (seg (queue (inner d))) < U64_MAX - depth (queue (inner d)) ->
  (exists path, In (port, (dpi_width_bytes d, path)) cs /\ open (open_segment path) = Ok (queue (inner d))) /\
  last_istream_valid (inner d) = false /\
  attached ctx port (dpi_width_bytes d) (width (queue (inner d)))
    (depth (queue (inner d)) - Z.of_nat (length items)) items.
Proof.
  intros Hc Hd Hrep Hmax. unfold from_config in Hc. apply rbind_ok in Hc as (b & _ & (s & Hs & [= <-])%rbind_ok).
  simpl in Hd. destruct (open_streams_spec _ _ _ _ Hs port d Hd) as [H|(dpi & path & q & Hin & Hq & ->)].
  { by rewrite lookup_empty in H. }
  simpl in *. split; [eauto|]. split; [done|]. eexists. split; [exact Hd|].
  pose proof (lo_width _ (rep_layout _ _ Hrep)). split; [split; simpl; [done|rewrite length_replicate; unfold width; lia]|].
  split; [done|]. split; [done|]. simpl. lia.
Qed.

(** ** Witnesses *)

Module Example.
Definition path : string := "/dev/shm/tapa_q".
Definition open_segment (p : string) : res QueueError (list Z) :=
  if bool_decide (p = path) then Ok (seg Shm.Example.queue) else Err MapFailed.
Definition stream : DpiStreamInner := mkInner Shm.Example.queue [0; 0; 0] false.
Definition context : DpiContext := mkContext {["a" := ([1; 2; 3; 4], 4096)]} {["q" := mkStream stream false 2]}.
Definition stats : Stats := mkStats 0 0 0 0 0.
End Example.

Lemma example_holds : holds Example.stream [].
Proof. split; [apply example_represents|]. vm_compute. reflexivity. Qed.

Lemma example_attached : attached Example.context "q" 2 3 2 [].
Proof.
  exists Example.stream. split; [reflexivity|]. split; [apply example_holds|]. vm_compute. intuition discriminate.
Qed.

Lemma istream_step_refines_witness :
  exists ok out' s' st', istream_step 2 Example.stream Example.stats true [7; 7] = Ok (ok, out', s', st') /\ out' = [7; 7].
Proof.
  destruct (istream_step_refines 2 Example.stream Example.stats true [7; 7] [] example_holds ltac:(discriminate))
    as (ok & out' & s' & st' & H & _ & _ & _ & _ & Ho). exists ok, out', s', st'. exact (conj H Ho).
Defined.

Lemma ostream_step_refines_witness :
  exists ready s' st', hls_ostream_step 2 Example.stream Example.stats true [5; 1] = Ok (ready, s', st') /\ holds s' [[5; 1; 0]].
Proof.
  assert (Hmax : load_tail (seg (queue Example.stream)) < U64_MAX) by (vm_compute; reflexivity).
  assert (Hlen : (2 <= length [5; 1])%nat) by (simpl; lia).
  destruct (ostream_step_refines 2 Example.stream Example.stats true [5; 1] [] example_holds Hmax Hlen)
    as (r & s' & st' & H & Hh & _). exists r, s', st'. exact (conj H Hh).
Defined.

Lemma write_read_roundtrip_witness :
  exists ctx1 st1 ctx2 st2,
    write_all Example.context Example.stats "q" [[5; 1]; [6; 0]] = Ok ([true; true], ctx1, st1) /\
    read_all ctx1 st1 "q" [[]; []] = Ok ([[5; 1]; [6; 0]], ctx2, st2).
Proof.
  refine (write_read_roundtrip Example.context Example.stats "q" 2 3 2 [[5; 1]; [6; 0]] [[]; []] example_attached _ _ _ _);
    [simpl; lia|lia|repeat constructor|reflexivity].
Defined.

Lemma axi_write_read_witness :
  axi_read_impl (axi_write_impl Example.context "a" 4097 2 [8; 9]) "a" 4097 2 = Some [8; 9].
Proof.
  assert (Hb : buffers Example.context !! "a" = Some ([1; 2; 3; 4], 4096)) by reflexivity.
  pose proof (axi_write_read Example.context "a" [1; 2; 3; 4] 4096 4097 2 [8; 9] Hb) as H.
  unfold in_u64, U64_MAX, U32_MAX in H. simpl length in H.
  specialize (H ltac:(lia) ltac:(lia) ltac:(lia) ltac:(lia) eq_refl). cbv zeta in H.
  destruct (decide (4096 <= 4097 /\ 4097 - 4096 + 2 <= Z.of_nat 4)) as [Hy|Hn]; [exact (proj1 H)|lia].
Defined.

Lemma from_config_attaches_witness :
  exists ctx d, from_config Example.open_segment [] [("q", (2%nat, Example.path))] = Ok ctx /\
    streams ctx !! "q" = Some d /\ last_istream_valid (inner d) = false.
Proof.
  set (d := mkStream (mkInner Shm.Example.queue (replicate 3 0) false) false 2).
  assert (Hc : from_config Example.open_segment [] [("q", (2%nat, Example.path))] = Ok (mkContext ∅ {["q" := d]}))
    by (vm_compute; reflexivity).
  assert (Hd : streams (mkContext ∅ {["q" := d]}) !! "q" = Some d) by reflexivity.
  assert (Hm : load_tail (seg (queue (inner d))) < U64_MAX - depth (queue (inner d))) by (vm_compute; reflexivity).
  exists (mkContext ∅ {["q" := d]}), d. split; [exact Hc|]. split; [exact Hd|].
  exact (proj1 (proj2 (from_config_attaches _ _ _ _ _ _ _ Hc Hd example_represents Hm))).
Defined.
