(* ===== verification/Paths.v ===== *)
(** * Candidate route enumeration

    [tapa-floorplan/src/route/paths.rs]: every simple grid path between two
    slots within a hop budget, shortest first.  The depth-first search recurses
    once per hop; the fuel [hop_budget + 2] is enough because the search is
    pruned when the budget is used up ([visit_spec]).  Out of fuel and the
    [expect] on the path head are [Panic]. *)

From S2P Require Import Prelude BTreeMap Geometry.

Definition abs_diff (a b : Z) : Z := Z.abs (a - b).

(** [manhattan]; the [u32] sum wraps. *)
Definition manhattan (a b : Cell) : Z := wrap32 (abs_diff a.1 b.1 + abs_diff a.2 b.2).

Definition in_bounds (cols rows : Z) (c : Cell) : bool := (c.1 <? cols) && (c.2 <? rows).

(** The four cells the search tries, in its order. *)
Definition neighbors (c : Cell) : list Cell :=
  let '(x, y) := c in
  [(wrap32 (x + 1), y); (x, wrap32 (y + 1)); (wrap32 (x - 1), y); (x, wrap32 (y - 1))].

(** A loop that appends what each iteration finds. *)
Fixpoint try_flat_map {E A B} (f : A -> res E (list B)) (l : list A) : res E (list B) :=
  match l with
  | [] => Ok []
  | x :: l' => let! ys := f x in let! zs := try_flat_map f l' in Ok (ys ++ zs)
  end.

(** [visit]: the paths it pushes.  [visited] is restored after each recursive
    call in the source, so it is passed down by value. *)
Fixpoint visit (fuel : nat) (dst : Cell) (hop_budget : Z) (cols rows : Z) (path : list Cell)
    (visited : gset Cell) : res unit (list (list Cell)) :=
  match fuel with
  | O => Panic
  | S fuel' =>
      let! current := expect (last path) in
      if bool_decide (current = dst) then Ok [path] else
      let hops_used := Z.of_nat (length path) - 1 in
      if hop_budget <? wrap64 (hops_used + manhattan current dst) then Ok [] else
      try_flat_map (fun next =>
        if negb (in_bounds cols rows next) || bool_decide (next ∈ visited) then Ok []
        else visit fuel' dst hop_budget cols rows (path ++ [next]) ({[next]} ∪ visited))
        (neighbors current)
  end.

Fixpoint list_cmp (a b : list Cell) : comparison :=
  match a, b with
  | [], [] => Eq
  | [], _ => Lt
  | _, [] => Gt
  | x :: a', y :: b' => match kcmp x y with Eq => list_cmp a' b' | c => c end
  end.

(** The comparator of [sort_by]: length, then lexicographic. *)
Definition path_cmp (a b : list Cell) : comparison :=
  match Nat.compare (length a) (length b) with Eq => list_cmp a b | c => c end.

Definition path_le (a b : list Cell) : Prop := path_cmp a b <> Gt.
#[export] Instance path_le_dec : RelDecision path_le.
Proof. intros a b. unfold path_le. destruct (path_cmp a b); [left|left|right]; congruence. Defined.

Definition hop_budget_of (src dst : Cell) (max_detour : Z) : Z := wrap64 (manhattan src dst + max_detour).

Definition enumerate_paths (src dst : Cell) (grid_cols grid_rows max_detour : Z) : res unit (list (list Cell)) :=
  if negb (in_bounds grid_cols grid_rows src) || negb (in_bounds grid_cols grid_rows dst) then Ok [] else
  let hop_budget := hop_budget_of src dst max_detour in
  let! paths := visit (Z.to_nat hop_budget + 2) dst hop_budget grid_cols grid_rows [src] {[src]} in
  Ok (merge_sort path_le paths).

(** ** Simple grid paths *)

Definition in_grid (cols rows : Z) (c : Cell) : Prop := 0 <= c.1 < cols /\ 0 <= c.2 < rows.

Record simple_path (cols rows : Z) (p : list Cell) : Prop := {
  sp_grid : Forall (in_grid cols rows) p;
  sp_steps : forall i a b, p !! i = Some a -> p !! S i = Some b -> Coor.adjacent a b;
  sp_nodup : NoDup p;
}.

Lemma simple_path_snoc cols rows p c n :
  last p = Some c -> simple_path cols rows p -> in_grid cols rows n -> Coor.adjacent c n -> n ∉ p ->
  simple_path cols rows (p ++ [n]).
Proof.
  intros Hl [Hg Hs Hn] Hin Hadj Hfresh. split.
  - apply Forall_app. auto.
  - intros i a b Ha Hb. apply lookup_snoc_Some in Hb as [[Hi Hb]|[Hi <-]].
    + rewrite lookup_app_l in Ha by lia. by eapply Hs.
    + rewrite lookup_app_l in Ha by lia. rewrite last_lookup in Hl.
      replace i with (pred (length p)) in Ha by lia. congruence.
  - apply NoDup_app. split; [done|]. split; [|apply NoDup_singleton].
    intros x Hx ->%list_elem_of_singleton. done.
Qed.

Lemma simple_path_prefix cols rows p q : p `prefix_of` q -> simple_path cols rows q -> simple_path cols rows p.
Proof.
  intros [k ->] [Hg Hs Hn]. split.
  - by apply Forall_app in Hg as [? _].
  - intros i a b Ha Hb. apply (Hs i); by apply lookup_app_l_Some.
  - by apply NoDup_app in Hn as [? _].
Qed.

(** A simple path that continues past a path visits a new neighbour first. *)
Lemma simple_path_next cols rows p q c :
  last p = Some c -> p `prefix_of` q -> q <> p -> simple_path cols rows q ->
  exists n, p ++ [n] `prefix_of` q /\ in_grid cols rows n /\ Coor.adjacent c n /\ n ∉ p.
Proof.
  intros Hl [k ->] Hne Hq. destruct k as [|n k]; [by rewrite app_nil_r in Hne|]. exists n.
  assert (Hp : p ++ [n] `prefix_of` p ++ n :: k) by (exists k; by rewrite <- app_assoc).
  destruct (simple_path_prefix _ _ _ _ Hp Hq) as [Hg Hs Hnd]. split; [done|].
  apply Forall_app in Hg as [_ Hg]. apply Forall_cons in Hg as [Hg _]. split; [exact Hg|].
  assert (Hlen : (length p <> 0)%nat) by (intros ->%nil_length_inv; discriminate Hl). split.
  - apply (Hs (pred (length p))).
    + rewrite lookup_app_l by lia. by rewrite <- last_lookup.
    + replace (S (pred (length p))) with (length p) by lia. by rewrite lookup_app_r, Nat.sub_diag by done.
  - apply NoDup_app in Hnd as (_ & Hd & _). intros Hin. apply (Hd n Hin). by apply list_elem_of_singleton.
Qed.

Section grid.
Context (cols rows : Z) (Hgrid : 0 <= cols /\ 0 <= rows /\ cols + rows <= U32_MAX).

Lemma manhattan_eq a b : in_grid cols rows a -> in_grid cols rows b ->
  manhattan a b = Z.abs (a.1 - b.1) + Z.abs (a.2 - b.2).
Proof using Hgrid.
  unfold in_grid, manhattan, abs_diff. intros. apply wrap32_id. unfold in_u32. lia.
Qed.

Lemma in_bounds_iff c : in_u32 c.1 -> in_u32 c.2 -> in_bounds cols rows c = true <-> in_grid cols rows c.
Proof using. unfold in_u32, in_bounds, in_grid. rewrite andb_true_iff, !Z.ltb_lt. lia. Qed.

(** The neighbours inside the grid are the adjacent cells, each tried once. *)
Lemma neighbors_in_grid c n :
  in_grid cols rows c -> n ∈ neighbors c -> in_bounds cols rows n = true -> in_grid cols rows n /\ Coor.adjacent c n.
Proof using Hgrid.
  destruct c as [x y]. unfold in_grid, U32_MAX in *. simpl. intros Hc Hn Hb.
  unfold in_bounds in Hb. apply andb_true_iff in Hb as [Hb1 Hb2]. apply Z.ltb_lt in Hb1, Hb2.
  pose proof (Z.mod_pos_bound (x - 1) 4294967296). pose proof (Z.mod_pos_bound (y - 1) 4294967296).
  unfold Coor.adjacent, wrap32 in *.
  rewrite !elem_of_cons, elem_of_nil in Hn.
  destruct Hn as [->|[->|[->|[->|[]]]]]; simpl in *.
  - rewrite Z.mod_small in * by lia. lia.
  - rewrite Z.mod_small in * by lia. lia.
  - destruct (decide (x = 0)) as [->|]; [change ((0 - 1) mod 4294967296) with 4294967295 in *; lia|].
    rewrite Z.mod_small in * by lia. lia.
  - destruct (decide (y = 0)) as [->|]; [change ((0 - 1) mod 4294967296) with 4294967295 in *; lia|].
    rewrite Z.mod_small in * by lia. lia.
Qed.

Lemma adjacent_in_neighbors c n :
  in_grid cols rows c -> in_grid cols rows n -> Coor.adjacent c n -> n ∈ neighbors c /\ in_bounds cols rows n = true.
Proof using Hgrid.
  destruct c as [x y], n as [a b]. unfold in_grid, Coor.adjacent, U32_MAX in *. simpl. intros Hc Hn Ha. split.
  - rewrite !elem_of_cons. unfold wrap32. assert (Hd : (a = x + 1 /\ b = y) \/ (a = x /\ b = y + 1) \/ (a = x - 1 /\ b = y) \/ (a = x /\ b = y - 1)) by lia.
    destruct Hd as [[-> ->]|[[-> ->]|[[-> ->]|[-> ->]]]]; [left|right; left|right; right; left|right; right; right; left];
      rewrite Z.mod_small by lia; done.
  - unfold in_bounds. simpl. rewrite andb_true_iff, !Z.ltb_lt. lia.
Qed.

Lemma neighbors_nodup c : in_grid cols rows c -> NoDup (neighbors c).
Proof using Hgrid.
  destruct c as [x y]. unfold in_grid, U32_MAX in *. simpl. intros Hc. unfold wrap32.
  rewrite (Z.mod_small (x + 1)), (Z.mod_small (y + 1)) by lia.
  pose proof (Z.mod_eq (x - 1) 4294967296 ltac:(lia)) as Hx. pose proof (Z.mod_eq (y - 1) 4294967296 ltac:(lia)) as Hy.
  pose proof (Z.mod_pos_bound (x - 1) 4294967296 ltac:(lia)). pose proof (Z.mod_pos_bound (y - 1) 4294967296 ltac:(lia)).
  repeat (constructor; [rewrite ?elem_of_cons, ?elem_of_nil; intros He; repeat destruct He as [He|He]; try done;
    pose proof (f_equal fst He); pose proof (f_equal snd He); simpl in *; lia|]).
  constructor.
Qed.

(** The pruning bound never cuts a path that can still succeed. *)
Lemma manhattan_remaining q dst k c :
  simple_path cols rows q -> last q = Some dst -> q !! k = Some c ->
  manhattan c dst <= Z.of_nat (length q) - 1 - Z.of_nat k.
Proof using Hgrid.
  intros Hq Hl Hk. rewrite last_lookup in Hl.
  assert (Hin : forall i x, q !! i = Some x -> in_grid cols rows x).
  { intros i x Hx. pose proof (sp_grid _ _ _ Hq) as Hg. rewrite Forall_forall in Hg. by eapply Hg, list_elem_of_lookup_2. }
  assert (Hind : forall j x, q !! (pred (length q) - j)%nat = Some x -> (j <= pred (length q))%nat ->
    Z.abs (x.1 - dst.1) + Z.abs (x.2 - dst.2) <= Z.of_nat j).
  { intros j; induction j as [|j IH]; intros x Hx Hj.
    - rewrite Nat.sub_0_r in Hx. simplify_eq. lia.
    - destruct (lookup_lt_is_Some_2 q (pred (length q) - j)) as [y Hy]; [lia|].
      specialize (IH y Hy ltac:(lia)).
      assert (Ha : Coor.adjacent x y).
      { apply (sp_steps _ _ _ Hq (pred (length q) - S j)); [done|]. by replace (S (pred (length q) - S j)) with (pred (length q) - j)%nat by lia. }
      unfold Coor.adjacent in Ha. lia. }
  pose proof (lookup_lt_Some _ _ _ Hk). rewrite manhattan_eq by eauto.
  specialize (Hind (pred (length q) - k)%nat c). replace (pred (length q) - (pred (length q) - k))%nat with k in Hind by lia.
  specialize (Hind Hk ltac:(lia)). lia.
Qed.
End grid.

(** ** The search is exact *)

Lemma try_flat_map_spec {E A B} (f : A -> res E (list B)) (Q : A -> B -> Prop) l :
  NoDup l ->
  (forall x, x ∈ l -> exists ys, f x = Ok ys /\ NoDup ys /\ forall y, y ∈ ys <-> Q x y) ->
  (forall x x' y, x ∈ l -> x' ∈ l -> Q x y -> Q x' y -> x = x') ->
  exists ys, try_flat_map f l = Ok ys /\ NoDup ys /\ forall y, y ∈ ys <-> exists x, x ∈ l /\ Q x y.
Proof.
  induction 1 as [|x l Hx Hl IH]; intros Hf Hd; simpl.
  - exists []. split; [done|]. split; [constructor|]. intros y. split; [by intros ?%not_elem_of_nil|].
    intros (z & Hz & _). by apply not_elem_of_nil in Hz.
  - destruct (Hf x) as (ys & -> & Hny & Hys); [by left|]. cbn [rbind].
    destruct IH as (zs & -> & Hnz & Hzs).
    { intros z Hz. apply Hf. by right. }
    { intros z z' y Hz Hz'. apply Hd; by right. }
    cbn [rbind]. exists (ys ++ zs). split; [done|]. split.
    + apply NoDup_app. split; [done|]. split; [|done]. intros y Hy (z & Hz & HQ)%Hzs. apply Hys in Hy.
      assert (x = z) as -> by (eapply Hd; [by left|by right|done|done]). done.
    + intros y. rewrite elem_of_app, Hys, Hzs. split.
      * intros [HQ|(z & Hz & HQ)]; [exists x; split; [by left|done]|exists z; split; [by right|done]].
      * intros (z & [->|Hz]%elem_of_cons & HQ); [by left|right; eauto].
Qed.

Section search.
Context (cols rows : Z) (Hgrid : 0 <= cols /\ 0 <= rows /\ cols + rows <= U32_MAX).
Context (dst : Cell) (Hdst : in_grid cols rows dst).
Context (budget : Z) (Hbudget : 0 <= budget <= U64_MAX - U32_MAX).

(** What the search from [path] has to find. *)
Definition completes (path q : list Cell) : Prop :=
  path `prefix_of` q /\ simple_path cols rows q /\ last q = Some dst /\ Z.of_nat (length q) <= budget + 1.

Lemma prefix_snoc_inj (p q : list Cell) n n' : p ++ [n] `prefix_of` q -> p ++ [n'] `prefix_of` q -> n = n'.
Proof. intros [k ->] [k' Heq]. rewrite <- !app_assoc in Heq. simplify_list_eq. done. Qed.

Section from.
Context (path : list Cell) (cur : Cell) (Hcur : last path = Some cur) (Hsp : simple_path cols rows path).

Lemma current_lookup : path !! pred (length path) = Some cur /\ (0 < length path)%nat /\ in_grid cols rows cur.
Proof using Hcur Hsp.
  assert (Hcur' := Hcur). rewrite last_lookup in Hcur'. split; [done|]. split.
  - destruct path; [discriminate Hcur|simpl; lia].
  - pose proof (sp_grid _ _ _ Hsp) as Hg. rewrite Forall_forall in Hg. by eapply Hg, list_elem_of_lookup_2.
Qed.

(** At the destination only the path itself completes. *)
Lemma completes_at_destination q :
  cur = dst -> Z.of_nat (length path) <= budget + 1 -> completes path q <-> q = path.
Proof using Hcur Hsp.
  intros Hd Hlen. destruct current_lookup as (Hcur' & Hpos & _). split; [|by intros ->; subst cur].
  intros (Hp & Hq & Hl & _). destruct (decide (q = path)) as [->|Hneq]; [done|]. exfalso.
  destruct (simple_path_next _ _ _ _ _ Hcur Hp Hneq Hq) as (n & [k Hk] & _). rewrite last_lookup in Hl.
  assert (H1 : q !! pred (length path) = Some dst) by (destruct Hp as [k' ->]; rewrite lookup_app_l by lia; by subst cur).
  pose proof (proj1 (NoDup_alt q) (sp_nodup _ _ _ Hq) _ _ _ H1 Hl) as Heq.
  rewrite Hk, !length_app in Heq. simpl in Heq. lia.
Qed.

(** What the pruning cuts cannot complete. *)
Lemma pruned_incomplete q :
  budget < Z.of_nat (length path) - 1 + manhattan cur dst -> ~ completes path q.
Proof using Hgrid Hcur Hsp.
  intros Hprune ([k Hk] & Hq & Hl & Hlq). destruct current_lookup as (Hcur' & Hpos & _).
  assert (Hqk : q !! pred (length path) = Some cur) by (rewrite Hk, lookup_app_l by lia; done).
  pose proof (manhattan_remaining cols rows Hgrid q dst _ _ Hq Hl Hqk). lia.
Qed.

(** Otherwise a completion goes through exactly one fresh neighbour. *)
Lemma completes_through q :
  cur <> dst ->
  completes path q <-> exists n, n ∈ neighbors cur /\ in_bounds cols rows n = true /\ n ∉ path /\ completes (path ++ [n]) q.
Proof using Hgrid Hcur Hsp.
  intros Hd. destruct current_lookup as (_ & _ & Hcg). split.
  - intros (Hp & Hq & Hl & Hlq).
    destruct (simple_path_next cols rows path q cur Hcur Hp) as (n & Hpn & Hng & Hadj & Hfresh); [|done|].
    { intros ->. rewrite Hl in Hcur. by simplify_eq. }
    destruct (adjacent_in_neighbors cols rows Hgrid cur n Hcg Hng Hadj) as [Hin Hb].
    exists n. split; [done|]. split; [done|]. by split.
  - intros (n & _ & _ & _ & Hp & Hrest). split; [|done]. etransitivity; [|exact Hp]. by apply prefix_app_r.
Qed.

Lemma manhattan_pos : cur <> dst -> 1 <= manhattan cur dst <= U32_MAX.
Proof using Hgrid Hdst Hcur Hsp.
  intros Hd. destruct current_lookup as (_ & _ & Hcg). rewrite (manhattan_eq cols rows Hgrid) by done.
  unfold in_grid in *. destruct cur as [cx cy], dst as [dx dy]; simpl in *.
  assert (~ (cx = dx /\ cy = dy)) by (by intros [-> ->]). lia.
Qed.
End from.

Lemma visit_spec fuel path visited :
  (forall c, c ∈ visited <-> c ∈ path) -> path <> [] -> simple_path cols rows path ->
  Z.of_nat (length path) <= budget + 1 -> budget + 3 <= Z.of_nat fuel + Z.of_nat (length path) ->
  exists ps, visit fuel dst budget cols rows path visited = Ok ps /\ NoDup ps /\ forall q, q ∈ ps <-> completes path q.
Proof using All.
  revert path visited; induction fuel as [|fuel IH]; intros path visited Hvis Hne Hsp Hlen Hfuel; [lia|].
  cbn [visit]. destruct (last path) as [cur|] eqn:Hcur; [|by apply last_None in Hcur]. cbn [expect rbind].
  destruct (current_lookup path cur Hcur Hsp) as (_ & Hpos & Hcg). case_bool_decide as Hd.
  { exists [path]. split; [done|]. split; [apply NoDup_singleton|]. intros q.
    by rewrite list_elem_of_singleton, (completes_at_destination path cur). }
  pose proof (manhattan_pos path cur Hcur Hsp Hd) as Hm.
  rewrite (wrap64_id (_ + _)) by (unfold in_u64, U64_MAX, U32_MAX in *; lia).
  destruct (budget <? Z.of_nat (length path) - 1 + manhattan cur dst) eqn:Hprune; bool_hyps.
  { exists []. split; [done|]. split; [constructor|]. intros q. rewrite elem_of_nil.
    split; [done|]. by apply (pruned_incomplete path cur). }
  destruct (try_flat_map_spec (E := unit) (fun next =>
    if negb (in_bounds cols rows next) || bool_decide (next ∈ visited) then Ok []
    else visit fuel dst budget cols rows (path ++ [next]) ({[next]} ∪ visited))
    (fun n q => in_bounds cols rows n = true /\ n ∉ path /\ completes (path ++ [n]) q) (neighbors cur)) as (ps & Hps & Hnd & Hel).
  - by apply (neighbors_nodup cols rows Hgrid).
  - intros n Hn. destruct (in_bounds cols rows n) eqn:Hb; simpl.
    2:{ exists []. split; [done|]. split; [constructor|]. intros q. rewrite elem_of_nil. naive_solver. }
    case_bool_decide as Hv.
    { exists []. split; [done|]. split; [constructor|]. intros q. rewrite elem_of_nil. apply Hvis in Hv. naive_solver. }
    assert (Hv' : n ∉ path) by (intros Hin; by apply Hv, Hvis).
    destruct (neighbors_in_grid cols rows Hgrid cur n Hcg Hn Hb) as [Hng Hadj].
    destruct (IH (path ++ [n]) ({[n]} ∪ visited)) as (qs & Hqs & Hnq & Hq).
    { intros c. rewrite elem_of_union, elem_of_singleton, elem_of_app, list_elem_of_singleton, Hvis. tauto. }
    { by destruct path. }
    { by apply (simple_path_snoc cols rows path cur). }
    1,2: rewrite length_app; simpl; lia.
    exists qs. split; [done|]. split; [done|]. intros q. rewrite Hq. tauto.
  - intros n n' q _ _ (_ & _ & Hp & _) (_ & _ & Hp' & _). by eapply prefix_snoc_inj.
  - exists ps. split; [done|]. split; [done|]. intros q. by rewrite Hel, (completes_through path cur).
Qed.
End search.

(** ** The order of the candidates *)

Lemma list_cmp_eq a b : list_cmp a b = Eq <-> a = b.
Proof.
  revert b; induction a as [|x a IH]; intros [|y b]; simpl; try done.
  destruct (kcmp x y) eqn:E.
  - apply kcmp_eq in E as ->. rewrite IH. split; [by intros ->|by intros [= ->]].
  - split; [done|]. intros [= -> ->]. by rewrite kcmp_refl in E.
  - split; [done|]. intros [= -> ->]. by rewrite kcmp_refl in E.
Qed.

Lemma list_cmp_antisym a b : list_cmp b a = CompOpp (list_cmp a b).
Proof.
  revert b; induction a as [|x a IH]; intros [|y b]; cbn [list_cmp]; try done.
  rewrite (kcmp_antisym x y). destruct (kcmp x y); simpl; auto.
Qed.

Lemma list_cmp_trans a b c : list_cmp a b = Lt -> list_cmp b c = Lt -> list_cmp a c = Lt.
Proof.
  revert b c; induction a as [|x a IH]; intros [|y b] [|z c]; cbn [list_cmp]; try done.
  destruct (kcmp x y) eqn:E1; [|intros _|done].
  - apply kcmp_eq in E1 as ->. intros H1. destruct (kcmp y z); eauto.
  - destruct (kcmp y z) eqn:E2; [|intros _|done].
    + apply kcmp_eq in E2 as ->. by rewrite E1.
    + by rewrite (kcmp_trans _ _ _ E1 E2).
Qed.

Lemma path_cmp_eq a b : path_cmp a b = Eq <-> a = b.
Proof.
  unfold path_cmp. destruct (Nat.compare_spec (length a) (length b)).
  - apply list_cmp_eq.
  - split; [done|]. intros ->. lia.
  - split; [done|]. intros ->. lia.
Qed.

Lemma path_cmp_antisym a b : path_cmp b a = CompOpp (path_cmp a b).
Proof.
  unfold path_cmp. rewrite Nat.compare_antisym.
  destruct (Nat.compare (length a) (length b)); simpl; auto using list_cmp_antisym.
Qed.

Lemma path_cmp_trans a b c : path_cmp a b = Lt -> path_cmp b c = Lt -> path_cmp a c = Lt.
Proof.
  unfold path_cmp. destruct (Nat.compare_spec (length a) (length b)); [|intros _|done];
    (destruct (Nat.compare_spec (length b) (length c)); [|intros _|done]);
    destruct (Nat.compare_spec (length a) (length c)); try done; try lia. apply list_cmp_trans.
Qed.

#[export] Instance path_le_total : Total path_le.
Proof. intros a b. unfold path_le. rewrite (path_cmp_antisym a b). destruct (path_cmp a b); simpl; auto. Qed.

#[export] Instance path_le_trans : Transitive path_le.
Proof.
  intros a b c. unfold path_le. destruct (path_cmp a b) eqn:E1; [|intros _|done].
  - apply path_cmp_eq in E1 as ->. done.
  - destruct (path_cmp b c) eqn:E2; [|intros _|done].
    + apply path_cmp_eq in E2 as ->. by rewrite E1.
    + by rewrite (path_cmp_trans _ _ _ E1 E2).
Qed.

Lemma path_ends_in_bounds cols rows q src dst :
  head q = Some src -> last q = Some dst -> simple_path cols rows q ->
  in_bounds cols rows src = true /\ in_bounds cols rows dst = true.
Proof.
  intros Hh Hl [Hg _ _]. rewrite Forall_forall in Hg.
  assert (Hs : in_grid cols rows src) by (apply Hg; destruct q; [done|]; injection Hh as ->; by left).
  assert (Hd : in_grid cols rows dst) by (apply Hg; apply last_Some in Hl as [l' ->]; apply elem_of_app; right; by left).
  unfold in_grid, in_bounds in *. rewrite !andb_true_iff, !Z.ltb_lt. lia.
Qed.

(** C23: route enumeration is exact. For endpoints on the grid the search
    terminates and returns, without repetition, precisely the simple grid paths
    from [src] to [dst] with at most [max_detour] hops more than the Manhattan
    distance, ordered by length and then lexicographically; for an endpoint off
    the grid it returns no candidate. *)
Theorem enumerate_paths_exact src dst cols rows max_detour :
  0 <= cols -> 0 <= rows -> cols + rows <= U32_MAX -> 0 <= max_detour <= U32_MAX ->
  in_u32 src.1 -> in_u32 src.2 -> in_u32 dst.1 -> in_u32 dst.2 ->
  exists ps, enumerate_paths src dst cols rows max_detour = Ok ps /\
    NoDup ps /\ StronglySorted path_le ps /\
    forall q, q ∈ ps <->
      head q = Some src /\ last q = Some dst /\ simple_path cols rows q /\
      Z.of_nat (length q) - 1 <= Z.abs (src.1 - dst.1) + Z.abs (src.2 - dst.2) + max_detour.
Proof.
  intros Hc Hr Hcr Hdet Hs1 Hs2 Hd1 Hd2. assert (Hgrid : 0 <= cols /\ 0 <= rows /\ cols + rows <= U32_MAX) by lia.
  unfold enumerate_paths. destruct (negb (in_bounds cols rows src) || negb (in_bounds cols rows dst)) eqn:Hoff.
  { exists []. split; [done|]. split; [apply NoDup_nil_2|]. split; [constructor|]. intros q. rewrite elem_of_nil.
    split; [done|]. intros (Hh & Hl & Hq & _). destruct (path_ends_in_bounds cols rows q src dst) as [E1 E2]; [done..|].
    by rewrite E1, E2 in Hoff. }
  apply orb_false_iff in Hoff as [Hbs%negb_false_iff Hbd%negb_false_iff].
  apply in_bounds_iff in Hbs, Hbd; [|done..]. unfold hop_budget_of.
  pose proof (manhattan_eq cols rows Hgrid src dst Hbs Hbd) as Hman.
  assert (Hm : 0 <= manhattan src dst <= U32_MAX) by (rewrite Hman; unfold in_grid in *; lia).
  assert (Hw : wrap64 (manhattan src dst + max_detour) = manhattan src dst + max_detour).
  { apply wrap64_id. unfold in_u64, U64_MAX, U32_MAX in *. lia. }
  rewrite Hw. set (budget := manhattan src dst + max_detour) in *.
  destruct (visit_spec cols rows Hgrid dst Hbd budget ltac:(unfold U64_MAX, U32_MAX in *; lia)
    (Z.to_nat budget + 2) [src] {[src]}) as (ps & -> & Hnd & Hel).
  { intros c. by rewrite elem_of_singleton, list_elem_of_singleton. }
  { done. }
  { split; [by apply Forall_singleton|intros [|i] a b; by simpl|apply NoDup_singleton]. }
  { simpl. lia. }
  { simpl. lia. }
  cbn [rbind]. exists (merge_sort path_le ps). split; [done|]. split; [by rewrite merge_sort_Permutation|].
  split; [apply (StronglySorted_merge_sort path_le)|]. intros q. rewrite merge_sort_Permutation, Hel. unfold completes. rewrite <- Hman.
  split.
  - intros ([k ->] & ? & ? & ?). simpl in *. split; [done|]. split; [done|]. split; [done|]. lia.
  - intros (Hh & ? & ? & ?). split; [|split; [done|split; [done|lia]]]. destruct q; [done|]. simpl in Hh. injection Hh as ->.
    by exists q.
Qed.

Lemma enumerate_paths_exact_witness :
  exists ps, enumerate_paths (0, 0) (1, 1) 2 2 2 = Ok ps /\ NoDup ps.
Proof.
  assert (H0 : in_u32 0) by (unfold in_u32, U32_MAX; lia). assert (H1 : in_u32 1) by (unfold in_u32, U32_MAX; lia).
  destruct (enumerate_paths_exact (0, 0) (1, 1) 2 2 2) as (ps & Hps & Hnd & _);
    [lia|lia|unfold U32_MAX; lia|unfold U32_MAX; lia|exact H0|exact H0|exact H1|exact H1|].
  exists ps. exact (conj Hps Hnd).
Defined.
