(* ===== verification/F64.v ===== *)
(** * Binary64 arithmetic

    The [f64] operations the solver interface and the capacity derating use,
    on the specification floats of the Standard Library (sign, mantissa,
    exponent; round to nearest even), which compute without axioms. *)

From Stdlib Require Import SpecFloat.
From S2P Require Import Prelude.

Definition f64 : Type := spec_float.

Module F64.
Definition prec : Z := 53.
Definition emax : Z := 1024.

(** [z as f64]. *)
Definition of_Z (z : Z) : f64 := binary_normalize prec emax z 0 false.

Definition zero : f64 := S754_zero false.
Definition one : f64 := of_Z 1.
Definition infinity : f64 := S754_infinity false.

Definition add (a b : f64) : f64 := SFadd prec emax a b.
Definition sub (a b : f64) : f64 := SFsub prec emax a b.
Definition mul (a b : f64) : f64 := SFmul prec emax a b.
Definition opp (a : f64) : f64 := SFopp a.
Definition abs (a : f64) : f64 := SFabs a.

(** [a.mul_add(b, c)]: one rounding.  The exact product is a float with a long
    mantissa, which the addition rounds. *)
Definition mul_add (a b c : f64) : f64 :=
  match a, b with
  | S754_finite sa ma ea, S754_finite sb mb eb => add (S754_finite (xorb sa sb) (ma * mb) (ea + eb)) c
  | _, _ => add (mul a b) c
  end.

Definition ltb (a b : f64) : bool := match SFcompare a b with Some Lt => true | _ => false end.
Definition leb (a b : f64) : bool := match SFcompare a b with Some Lt | Some Eq => true | _ => false end.
Definition gtb (a b : f64) : bool := ltb b a.

Definition is_nan (a : f64) : bool := match a with S754_nan => true | _ => false end.
Definition is_finite (a : f64) : bool := match a with S754_zero _ | S754_finite _ _ _ => true | _ => false end.

(** [a.max(b)]: the other one when one is not a number. *)
Definition max (a b : f64) : f64 :=
  if is_nan a then b else if is_nan b then a else if ltb a b then b else a.

Definition min (a b : f64) : f64 :=
  if is_nan a then b else if is_nan b then a else if ltb b a then b else a.

Definition div (a b : f64) : f64 := SFdiv prec emax a b.

(** [m * 2^e] rounded towards zero. *)
Definition trunc_abs (m : positive) (e : Z) : Z :=
  if 0 <=? e then Z.pos m * 2 ^ e else Z.pos m / 2 ^ (- e).

(** [a as u64]: truncation, saturating; [0] when not a number. *)
Definition to_u64 (a : f64) : Z :=
  match a with
  | S754_finite false m e => Z.min U64_MAX (trunc_abs m e)
  | S754_infinity false => U64_MAX
  | _ => 0
  end.

(** [a.round()]: half-way cases away from zero. *)
Definition round (a : f64) : f64 :=
  match a with
  | S754_finite s m e =>
      if 0 <=? e then a
      else match (Z.pos m + 2 ^ (- e - 1)) / 2 ^ (- e) with
           | Z0 => S754_zero s
           | z => if s then opp (of_Z z) else of_Z z
           end
  | _ => a
  end.

(** [a.floor()]. *)
Definition floor (a : f64) : f64 :=
  match a with
  | S754_finite s m e =>
      if 0 <=? e then a
      else match (if s then Z.neg m else Z.pos m) / 2 ^ (- e) with Z0 => S754_zero s | z => of_Z z end
  | _ => a
  end.

(** [a.clamp(lo, hi)]. *)
Definition clamp (a lo hi : f64) : f64 := if ltb a lo then lo else if gtb a hi then hi else a.

(** [a as u32]. *)
Definition to_u32 (a : f64) : Z := Z.min U32_MAX (to_u64 a).

Lemma to_u64_range a : in_u64 (to_u64 a).
Proof.
  unfold in_u64, to_u64, U64_MAX. destruct a as [s|s| |s m e]; try (destruct s; lia); [lia|].
  destruct s; [lia|]. assert (0 <= trunc_abs m e); [|lia].
  unfold trunc_abs. destruct (Z.leb_spec 0 e); [apply Z.mul_nonneg_nonneg; [lia|apply Z.pow_nonneg; lia]|].
  apply Z.div_pos; [lia|apply Z.pow_pos_nonneg; lia].
Qed.

(** Rounding never produces a NaN: the mantissas stay non-negative. *)
Lemma shr_1_nonneg mrs : 0 <= shr_m mrs -> 0 <= shr_m (shr_1 mrs).
Proof. destruct mrs as [m r s]. simpl. destruct m as [|[p|p|]|p]; simpl; lia. Qed.

Lemma shr_nonneg mrs e n : 0 <= shr_m mrs -> 0 <= shr_m (shr mrs e n).1.
Proof.
  intros H. destruct n as [|p|p]; simpl; try done. revert mrs H.
  induction p as [p IH|p IH|]; simpl; intros mrs H; auto using shr_1_nonneg.
Qed.

Lemma shr_fexp_nonneg m e l : 0 <= m -> 0 <= shr_m (shr_fexp prec emax m e l).1.
Proof. intros H. unfold shr_fexp. apply shr_nonneg. destruct l as [|[]]; simpl; done. Qed.

Lemma round_aux_not_nan s m e l : 0 <= m -> is_nan (binary_round_aux prec emax s m e l) = false.
Proof.
  intros H. unfold binary_round_aux. pose proof (shr_fexp_nonneg m e l H) as H1.
  destruct (shr_fexp prec emax m e l) as [r1 e1]. simpl in H1.
  assert (H2 : 0 <= round_nearest_even (shr_m r1) (loc_of_shr_record r1)).
  { unfold round_nearest_even. destruct (loc_of_shr_record r1) as [|[]]; try lia. destruct (Z.even _); lia. }
  pose proof (shr_fexp_nonneg _ e1 loc_Exact H2) as H3.
  destruct (shr_fexp prec emax _ e1 loc_Exact) as [r2 e2]. simpl in H3.
  destruct (shr_m r2); [done|by destruct (_ <=? _)|lia].
Qed.

Lemma normalize_not_nan m e s : is_nan (binary_normalize prec emax m e s) = false.
Proof.
  unfold binary_normalize, binary_round. destruct m as [|p|p]; [done| |];
    destruct (shl_align _ _ _); by apply round_aux_not_nan.
Qed.

Lemma sub_not_nan a b : is_finite a = true -> is_finite b = true -> is_nan (sub a b) = false.
Proof.
  intros Ha Hb. unfold sub, SFsub. destruct a as [sa|?| |sa ma ea], b as [sb|?| |sb mb eb]; try done.
  - by destruct sa, sb.
  - apply normalize_not_nan.
Qed.

(** Numbers are ordered. *)
Lemma gtb_leb a b : is_nan a = false -> is_nan b = false -> gtb a b = negb (leb a b).
Proof.
  intros Ha Hb. unfold gtb, ltb, leb, SFcompare. destruct a as [sa|sa| |sa ma ea], b as [sb|sb| |sb mb eb]; try done.
  all: try destruct sa; try destruct sb; try done.
  all: rewrite (Z.compare_antisym ea eb); destruct (ea ?= eb) eqn:E; simpl; try done;
    change (Pos.compare_cont Eq) with Pos.compare; rewrite (Pos.compare_antisym ma mb); by destruct (ma ?= mb)%positive.
Qed.
End F64.

(** [1e-6] and [1e-3], as the nearest binary64 numbers. *)
Definition SOLUTION_TOLERANCE : f64 := S754_finite false 4722366482869645 (-72).
Definition UTILIZATION_MIP_GAP_ABS : f64 := S754_finite false 4611686018427388 (-62).
(** [0.02] and [0.95]. *)
Definition USAGE_LIMIT_STEP : f64 := S754_finite false 5764607523034235 (-58).
Definition MAX_USAGE_LIMIT : f64 := S754_finite false 8556839292003942 (-53).
(** [0.7]. *)
Definition DEFAULT_USAGE_LIMIT : f64 := S754_finite false 6305039478318694 (-53).

(** [0.55], [0.9] and [0.03]. *)
Definition DEFAULT_SWEEP_MIN : f64 := S754_finite false 4953959590107546 (-53).
Definition DEFAULT_SWEEP_MAX : f64 := S754_finite false 8106479329266893 (-53).
Definition DEFAULT_SWEEP_STEP : f64 := S754_finite false 8646911284551352 (-58).

(** The literals checked against their decimal definition. *)
Example tolerance_literal : F64.to_u64 (F64.mul SOLUTION_TOLERANCE (F64.of_Z 1000000)) = 1.
Proof. reflexivity. Qed.
Example step_literal : F64.mul USAGE_LIMIT_STEP (F64.of_Z 50) = F64.one.
Proof. reflexivity. Qed.
Example ceiling_literal : F64.mul MAX_USAGE_LIMIT (F64.of_Z 20) = F64.of_Z 19.
Proof. reflexivity. Qed.
Example default_literal : F64.mul DEFAULT_USAGE_LIMIT (F64.of_Z 10) = F64.of_Z 7.
Proof. reflexivity. Qed.
Example mul_add_exact : F64.mul_add (F64.of_Z 3) (F64.of_Z 5) F64.one = F64.of_Z 16.
Proof. reflexivity. Qed.
Example sweep_min_literal : F64.div (F64.of_Z 55) (F64.of_Z 100) = DEFAULT_SWEEP_MIN.
Proof. vm_compute. reflexivity. Qed.
Example sweep_max_literal : F64.div (F64.of_Z 9) (F64.of_Z 10) = DEFAULT_SWEEP_MAX.
Proof. vm_compute. reflexivity. Qed.
Example sweep_step_literal : F64.div (F64.of_Z 3) (F64.of_Z 100) = DEFAULT_SWEEP_STEP.
Proof. vm_compute. reflexivity. Qed.
