(* ===== verification/Device.v ===== *)
(** * The device model

    [tapa-floorplan/src/device/model.rs]: the grid of physical slots, the
    validation of a device table, slot and anchor lookup, the resources of a
    region, and the wire capacities of slot borders. *)

From S2P Require Import Prelude RustStd BTreeMap Geometry Connectivity F64.

Definition UNIT_DIST_X : Z := 100.
Definition UNIT_DIST_Y : Z := 150.
Definition WIRE_CAPACITY_INF : Z := 100000000.

Record DirCaps := mkCaps { north : Z; south : Z; east : Z; west : Z }.
Definition caps_default : DirCaps :=
  mkCaps WIRE_CAPACITY_INF WIRE_CAPACITY_INF WIRE_CAPACITY_INF WIRE_CAPACITY_INF.

Record Slot := mkSlot {
  slot_x : Z;
  slot_y : Z;
  slot_area : Area;
  centroid_x : Z;
  centroid_y : Z;
  pblock_ranges : list string;
  wire_cap : DirCaps;
  tags : list string;
}.

Definition slot_cell (s : Slot) : Cell := (slot_x s, slot_y s).
Definition slot_coor (s : Slot) : Coor := Coor.slot (slot_x s) (slot_y s).

Record DeviceAnchor := mkAnchor {
  anchor_tag : string;
  site : string;
  x_offset_quarters : Z;
  y_offset_quarters : Z;
}.

Inductive PlacementStyle := Pblock | SlrAssignment.

(** [PlannedResources] and its wire names. *)
Definition RESOURCE_TABLE_NAMES : list (string * Resource) :=
  [("lut", Lut); ("ff", Ff); ("dsp", Dsp); ("bram_18k", Bram18k); ("uram", Uram)].
Definition planned_all : list Resource := map snd RESOURCE_TABLE_NAMES.

(** The parsing of the list; the error is the offending name. *)
Fixpoint planned_from_names (names : list string) : res string (list Resource) :=
  match names with
  | [] => Ok []
  | n :: ns =>
      match find_first (fun e => bool_decide (e.1 = n)) RESOURCE_TABLE_NAMES with
      | Some (_, r) => let! rs := planned_from_names ns in Ok (r :: rs)
      | None => Err n
      end
  end.

Record Device := mkDevice {
  key : string;
  part_num : string;
  platform_name : option string;
  rows : Z;
  cols : Z;
  placement : PlacementStyle;
  planned_resources : list Resource;
  usage_ceiling : option f64;
  user_pblock_name : option string;
  slots : list Slot;
  anchors : list DeviceAnchor;
}.

Inductive DeviceValidationError :=
| MissingPblockRanges (x y : Z)
| InvalidPblockRange (x y : Z) (range : string)
| InvalidUserPblockName (name : string)
| EmptyGrid
| SlotOutOfBounds (x y cols rows : Z)
| DuplicateSlot (x y : Z)
| MissingSlot (x y : Z)
| CentroidOffGrid (x y cx cy : Z)
| BankTagWithoutPlatform (x y : Z) (tag : string)
| AnchorTagWithoutCapacity (x y : Z) (tag : string)
| InvalidAnchorTag (tag : string) (count : nat)
| InvalidAnchorSite (tag site : string)
| AnchorOutsideSlot (tag : string).

Definition plans_resource (d : Device) (r : Resource) : bool :=
  existsb (fun p => bool_decide (p = r)) (planned_resources d).

(** ** Names interpolated into Tcl *)

Definition is_tcl_special (c : ascii) : bool :=
  Ascii.eqb c ";" || Ascii.eqb c "$" || Ascii.eqb c "[" || Ascii.eqb c "]".

Definition is_range_char (c : ascii) : bool := Str.is_alnum c || Ascii.eqb c "_" || Ascii.eqb c ":".

Definition valid_range_item (item : string) : bool :=
  Str.contains "_X" item && Str.contains "Y" item && Str.all is_range_char item.

Definition valid_pblock_range (range : string) : bool :=
  if negb (bool_decide (Str.trim range = range)) || Str.is_empty range
     || Str.has_control range || Str.existsb is_tcl_special range then false else
  let payload :=
    match Str.strip_prefix "-add " range with
    | Some p => Some p
    | None =>
        match Str.strip_prefix "-remove " range with
        | Some p => Some p
        | None => if Str.starts_with "-" range then None else Some range
        end
    end in
  match payload with
  | None => false
  | Some payload =>
      if Str.is_empty payload then false else
      let payload :=
        match Str.strip_prefix "{" payload with
        | Some p => Str.strip_suffix "}" p
        | None => if Str.ends_with "}" payload then None else Some payload
        end in
      match payload with
      | None => false
      | Some payload =>
          negb (Str.is_empty payload) && forallb valid_range_item (Str.split_ascii_whitespace payload)
      end
  end.

Definition valid_site_name (s : string) : bool :=
  Str.starts_with "NOC_" s && Str.all (fun c => Str.is_alnum c || Ascii.eqb c "_") s.

(** The check of [user_pblock_name] in [Device::validate]. *)
Definition valid_user_pblock_name (name : string) : bool :=
  match name with
  | EmptyString => false
  | String c rest =>
      (Str.is_alpha c || Ascii.eqb c "_") && negb (Str.starts_with "__" name)
      && Str.all (fun c => Str.is_alnum c || Ascii.eqb c "_") rest
  end.

(** ** Validation *)

(** The first loop of [validate_grid]: the cells seen. *)
Definition see_slot (d : Device) (seen : gset Cell) (s : Slot) : res DeviceValidationError (gset Cell) :=
  if (cols d <=? slot_x s) || (rows d <=? slot_y s)
  then Err (SlotOutOfBounds (slot_x s) (slot_y s) (cols d) (rows d)) else
  if bool_decide (slot_cell s ∈ seen) then Err (DuplicateSlot (slot_x s) (slot_y s))
  else Ok ({[slot_cell s]} ∪ seen).

Definition check_centroid (s : Slot) : res DeviceValidationError unit :=
  if bool_decide ((centroid_x s, centroid_y s) = (UNIT_DIST_X * slot_x s, UNIT_DIST_Y * slot_y s)) then Ok tt
  else Err (CentroidOffGrid (slot_x s) (slot_y s) (centroid_x s) (centroid_y s)).

(** Row-major grid cells. *)
Definition grid_cells (d : Device) : list Cell :=
  flat_map (fun y => map (fun x => (x, y)) (zrange 0 (cols d))) (zrange 0 (rows d)).

Definition validate_grid (d : Device) : res DeviceValidationError unit :=
  if (rows d =? 0) || (cols d =? 0) then Err EmptyGrid else
  let! seen := try_fold (see_slot d) ∅ (slots d) in
  let expected := rows d * cols d in
  let! _ := (if Z.of_nat (size seen) =? expected then Ok tt else
    let! (x, y) := expect (find_first (fun c => negb (bool_decide (c ∈ seen))) (grid_cells d)) in
    Err (MissingSlot x y)) in
  try_each check_centroid (slots d).

Definition has_tag (tag : string) (s : Slot) : bool := existsb (fun t => bool_decide (t = tag)) (tags s).

Definition slots_with_tag (d : Device) (tag : string) : list Slot := List.filter (has_tag tag) (slots d).

Definition check_anchor (d : Device) (seen : gset string) (a : DeviceAnchor) :
    res DeviceValidationError (gset string) :=
  let count := length (List.filter (has_tag (anchor_tag a)) (slots d)) in
  if negb (Nat.eqb count 1) || bool_decide (anchor_tag a ∈ seen) then Err (InvalidAnchorTag (anchor_tag a) count) else
  if negb (valid_site_name (site a)) then Err (InvalidAnchorSite (anchor_tag a) (site a)) else
  if (2 * UNIT_DIST_X <? Z.abs (x_offset_quarters a)) || (2 * UNIT_DIST_Y <? Z.abs (y_offset_quarters a))
  then Err (AnchorOutsideSlot (anchor_tag a)) else
  Ok ({[anchor_tag a]} ∪ seen).

Definition validate_anchors (d : Device) : res DeviceValidationError unit :=
  let! _ := try_fold (check_anchor d) ∅ (anchors d) in Ok tt.

Definition check_bank_tags (s : Slot) : res DeviceValidationError unit :=
  try_each (fun tag => if is_ok (bank_from_str tag) then Err (BankTagWithoutPlatform (slot_x s) (slot_y s) tag)
                       else Ok tt) (tags s).

Definition check_capacity (s : Slot) : res DeviceValidationError unit :=
  if negb (bool_decide (slot_area s = area_default)) then Ok tt else
  match tags s with
  | tag :: _ => Err (AnchorTagWithoutCapacity (slot_x s) (slot_y s) tag)
  | [] => Ok tt
  end.

Definition check_ranges (s : Slot) : res DeviceValidationError unit :=
  match pblock_ranges s with
  | [] => Err (MissingPblockRanges (slot_x s) (slot_y s))
  | rs => try_each (fun r => if valid_pblock_range r then Ok tt
                             else Err (InvalidPblockRange (slot_x s) (slot_y s) r)) rs
  end.

Definition validate (d : Device) : res DeviceValidationError unit :=
  let! _ := validate_grid d in
  let! _ := (match platform_name d with None => try_each check_bank_tags (slots d) | Some _ => Ok tt end) in
  let! _ := validate_anchors d in
  let! _ := try_each check_capacity (slots d) in
  let! _ := try_each check_ranges (slots d) in
  match user_pblock_name d with
  | Some name => if valid_user_pblock_name name then Ok tt else Err (InvalidUserPblockName name)
  | None => Ok tt
  end.

(** ** Lookup *)

Definition slot (d : Device) (x y : Z) : option Slot :=
  find_first (fun s => (slot_x s =? x) && (slot_y s =? y)) (slots d).

(** [i64] arithmetic wraps. *)
Definition wrap_i64 (z : Z) : Z := (z + 9223372036854775808) mod 18446744073709551616 - 9223372036854775808.

Definition anchor_position_quarters (d : Device) (tag : string) : option (Z * Z) :=
  let? a := find_first (fun a => bool_decide (anchor_tag a = tag)) (anchors d) in
  let? s := head (slots_with_tag d tag) in
  Some (wrap_i64 (wrap_i64 (centroid_x s * 4) + x_offset_quarters a),
        wrap_i64 (wrap_i64 (centroid_y s * 4) + y_offset_quarters a)).

Fixpoint sum_areas (d : Device) (total : Area) (cells : list Cell) : option Area :=
  match cells with
  | [] => Some total
  | (x, y) :: cells' =>
      let? s := slot d x y in
      let? t := Area.checked_add total (slot_area s) in
      sum_areas d t cells'
  end.

Definition island_area (d : Device) (region : Coor) : option Area :=
  sum_areas d area_default (Coor.all_slot_coors region).

(** ** Wire capacities *)

Definition usable_wire_capacity (raw : Z) : Z :=
  wrap64 (wrap64 (raw / 10 * 7) + wrap64 (wrap64 (raw mod 10 * 7) + 5) / 10).

Definition bounded_border_capacity (lhs rhs : Z) : option Z :=
  if Z.min lhs rhs <? WIRE_CAPACITY_INF then Some (usable_wire_capacity (Z.min lhs rhs)) else None.

(** ** The grid *)

(** Unsigned fields are unsigned. *)
Record typed (d : Device) : Prop := {
  typed_rows : in_u32 (rows d);
  typed_cols : in_u32 (cols d);
  typed_slots : Forall (fun s => in_u32 (slot_x s) /\ in_u32 (slot_y s) /\ Area.wf (slot_area s)) (slots d);
}.

(** One slot per cell of a non-empty rectangle, with centroids on the metric. *)
Record complete_grid (d : Device) : Prop := {
  grid_nonempty : 0 < rows d /\ 0 < cols d;
  grid_inside : Forall (fun s => slot_x s < cols d /\ slot_y s < rows d) (slots d);
  grid_unique : NoDup (map slot_cell (slots d));
  grid_covered : forall x y, 0 <= x < cols d -> 0 <= y < rows d -> (x, y) ∈ map slot_cell (slots d);
  grid_centroids : Forall (fun s => centroid_x s = UNIT_DIST_X * slot_x s /\ centroid_y s = UNIT_DIST_Y * slot_y s) (slots d);
}.

Lemma elem_of_grid_cells d c : c ∈ grid_cells d <-> 0 <= c.1 < cols d /\ 0 <= c.2 < rows d.
Proof.
  unfold grid_cells. rewrite list_elem_of_In, in_flat_map. destruct c as [x y]; simpl. split.
  - intros (y' & Hy & (x' & [= -> ->] & Hx)%in_map_iff). apply list_elem_of_In, elem_of_zrange in Hx, Hy. lia.
  - intros [Hx Hy]. exists y. split; [apply list_elem_of_In, elem_of_zrange; lia|].
    apply in_map_iff. exists x. split; [done|]. apply list_elem_of_In, elem_of_zrange; lia.
Qed.

Lemma length_flat_map_const {A B} (f : A -> list B) n l :
  (forall x, length (f x) = n) -> length (flat_map f l) = (length l * n)%nat.
Proof. intros Hf. induction l as [|x l IH]; simpl; [done|]. rewrite length_app, IH, Hf. lia. Qed.

Lemma NoDup_grid_cells d : NoDup (grid_cells d).
Proof.
  unfold grid_cells. generalize (NoDup_zrange 0 (rows d)). induction 1 as [|y l Hy _ IH]; simpl; [constructor|].
  apply NoDup_app. split; [|split; [|done]].
  - apply NoDup_ListNoDup, Finite.Injective_map_NoDup, NoDup_ListNoDup, NoDup_zrange. by intros a b [= ->].
  - intros [x y'] (x0 & [= <- <-] & _)%list_elem_of_In%in_map_iff Hin.
    apply list_elem_of_In, in_flat_map in Hin as (y0 & Hy0 & (x1 & [= _ ->] & _)%in_map_iff).
    by apply Hy, list_elem_of_In.
Qed.

Lemma size_grid_cells d : 0 <= rows d -> 0 <= cols d -> Z.of_nat (length (grid_cells d)) = rows d * cols d.
Proof.
  intros. unfold grid_cells. rewrite (length_flat_map_const _ (Z.to_nat (cols d))).
  - rewrite length_zrange. nia.
  - intros y. rewrite length_map, length_zrange. f_equal. lia.
Qed.

(** The slot loop accepts exactly the lists of distinct in-bounds slots, and
    collects their cells. *)
Lemma see_slots_spec d l seen :
  match try_fold (see_slot d) seen l with
  | Ok seen' => Forall (fun s => slot_x s < cols d /\ slot_y s < rows d) l /\ NoDup (map slot_cell l) /\
      (forall s, s ∈ l -> slot_cell s ∉ seen) /\ seen' = list_to_set (map slot_cell l) ∪ seen
  | Err _ => ~ (Forall (fun s => slot_x s < cols d /\ slot_y s < rows d) l /\ NoDup (map slot_cell l) /\
      (forall s, s ∈ l -> slot_cell s ∉ seen))
  | Panic => False
  end.
Proof.
  revert seen; induction l as [|s l IH]; intros seen; simpl.
  - split; [constructor|]. split; [constructor|]. split; [intros s Hs; by apply not_elem_of_nil in Hs|]. set_solver.
  - unfold see_slot at 1. destruct ((cols d <=? slot_x s) || (rows d <=? slot_y s)) eqn:Hb; simpl.
    { intros [Hall _]. apply Forall_cons in Hall as [? _]. lia. }
    bool_hyps. case_bool_decide as Hs; simpl; [intros (_ & _ & Hf); apply (Hf s); [by left|done]|].
    specialize (IH ({[slot_cell s]} ∪ seen)). destruct (try_fold (see_slot d) _ l) as [seen'|e|]; [|..|done].
    + destruct IH as (H1 & H2 & H3 & ->). split; [constructor; [lia|done]|]. split.
      * constructor; [|done]. intros (s' & Heq & Hin)%list_elem_of_In%in_map_iff.
        apply (H3 s'); [by apply list_elem_of_In|]. rewrite Heq. set_solver.
      * split; [|set_solver]. intros s' [->|Hs']%elem_of_cons; [done|]. specialize (H3 s' Hs'). set_solver.
    + intros (H1 & H2 & H3). apply IH. apply Forall_cons in H1 as [_ H1]. apply NoDup_cons in H2 as [H2 H2'].
      split; [done|]. split; [done|]. intros s' Hs' [Heq%elem_of_singleton|Hin]%elem_of_union.
      * apply H2. rewrite <- Heq. apply list_elem_of_In, in_map, list_elem_of_In. done.
      * apply (H3 s'); [by right|done].
Qed.

Lemma seen_is_grid (d : Device) (seen : gset Cell) :
  typed d -> Forall (fun s => slot_x s < cols d /\ slot_y s < rows d) (slots d) -> seen = list_to_set (map slot_cell (slots d)) ->
  Z.of_nat (size seen) = rows d * cols d <-> forall c, c ∈ grid_cells d -> c ∈ seen.
Proof.
  intros [Hr Hc Hs] Hin ->. unfold in_u32 in *.
  assert (Hsub : list_to_set (map slot_cell (slots d)) ⊆@{gset Cell} list_to_set (grid_cells d)).
  { intros c. rewrite !elem_of_list_to_set, elem_of_grid_cells. intros (s & <- & Hs')%list_elem_of_In%in_map_iff.
    apply list_elem_of_In in Hs'. rewrite Forall_forall in Hs, Hin. specialize (Hs _ Hs'). specialize (Hin _ Hs'). simpl. lia. }
  assert (Hsz : size (list_to_set (grid_cells d) : gset Cell) = length (grid_cells d)) by (apply size_list_to_set, NoDup_grid_cells).
  pose proof (size_grid_cells d) as Hlen. split.
  - intros Heq c Hcell. rewrite (set_subseteq_size_eq _ _ Hsub); [by apply elem_of_list_to_set|]. lia.
  - intros Hall. assert (Heq : list_to_set (map slot_cell (slots d)) =@{gset Cell} list_to_set (grid_cells d)).
    { apply set_eq. intros c. split; [apply Hsub|]. intros Hcell%elem_of_list_to_set. by apply Hall. }
    rewrite Heq, Hsz. lia.
Qed.

Lemma check_centroids_ok l :
  try_each check_centroid l = Ok tt <->
  Forall (fun s => centroid_x s = UNIT_DIST_X * slot_x s /\ centroid_y s = UNIT_DIST_Y * slot_y s) l.
Proof.
  rewrite try_each_ok. apply Forall_iff. intros s. unfold check_centroid. case_bool_decide as H.
  - split; [intros _|done]. by injection H as -> ->.
  - split; [done|]. intros [H1 H2]. destruct H. by f_equal.
Qed.

(** [validate_grid] decides [complete_grid]. *)
Lemma validate_grid_spec d :
  typed d ->
  (validate_grid d = Ok tt <-> complete_grid d) /\ validate_grid d <> Panic.
Proof.
  intros Hd. unfold validate_grid. destruct ((rows d =? 0) || (cols d =? 0)) eqn:H0.
  { split; [|done]. split; [done|]. intros [[??] _ _ _ _]. lia. }
  assert (Hpos : 0 < rows d /\ 0 < cols d) by (destruct Hd as [[??] [??] _]; lia).
  pose proof (see_slots_spec d (slots d) ∅) as Hseen.
  destruct (try_fold (see_slot d) ∅ (slots d)) as [seen|e|]; cbn [rbind]; [|..|done].
  2:{ split; [|done]. split; [done|]. intros [_ H1 H2 _ _]. destruct Hseen. split; [done|]. split; [done|].
      intros s _. apply not_elem_of_empty. }
  destruct Hseen as (Hin & Hnd & _ & Heq). rewrite union_empty_r_L in Heq.
  pose proof (seen_is_grid d seen Hd Hin Heq) as Hgrid.
  assert (Hcov : (forall c, c ∈ grid_cells d -> c ∈ seen) <->
    (forall x y, 0 <= x < cols d -> 0 <= y < rows d -> (x, y) ∈ map slot_cell (slots d))).
  { split.
    - intros H x y Hx Hy. rewrite <- (elem_of_list_to_set (C := gset Cell)), <- Heq. apply H, elem_of_grid_cells. done.
    - intros H [x y] [Hx Hy]%elem_of_grid_cells. rewrite Heq, elem_of_list_to_set. by apply H. }
  destruct (Z.of_nat (size seen) =? rows d * cols d) eqn:Hsz; bool_hyps; cbn [rbind].
  - rewrite check_centroids_ok. split; [split|].
    + intros Hcen. split; [done|done|done| |done]. by apply Hcov, Hgrid.
    + by intros [].
    + apply (try_each_cases (fun r => r <> Panic)); [done|]. intros s _. unfold check_centroid. by case_bool_decide.
  - destruct (find_first _ (grid_cells d)) as [[x y]|] eqn:Hf; cbn [expect rbind].
    + split; [|done]. split; [done|]. intros [_ _ _ Hc _]. destruct (Hsz (proj2 Hgrid (proj2 Hcov Hc))).
    + exfalso. apply Hsz, Hgrid. intros c Hc. apply find_first_None in Hf. rewrite Forall_forall in Hf.
      specialize (Hf c Hc). apply negb_false_iff, bool_decide_eq_true in Hf. done.
Qed.

(** [validate_grid] accepts exactly the complete grids: a non-empty
    rectangle with one slot in each cell and no slot outside it, every centroid
    on the unit metric. It never panics: when the cells seen are too few, the
    search for a missing cell finds one. *)
Theorem validate_grid_exact d :
  typed d ->
  (validate_grid d = Ok tt <-> complete_grid d) /\ validate_grid d <> Panic.
Proof. apply validate_grid_spec. Qed.

Lemma slot_lookup d x y :
  complete_grid d -> 0 <= x < cols d -> 0 <= y < rows d ->
  exists s, slot d x y = Some s /\ s ∈ slots d /\ slot_cell s = (x, y).
Proof.
  intros [_ _ _ Hc _] Hx Hy. specialize (Hc x y Hx Hy). apply list_elem_of_In, in_map_iff in Hc as (s & Hs & Hin).
  unfold slot. destruct (find_first _ (slots d)) as [s'|] eqn:Hf.
  - apply find_first_Some in Hf as [Hin' Hb]. bool_hyps. exists s'. split; [done|]. split; [done|]. unfold slot_cell. by f_equal.
  - apply find_first_None in Hf. rewrite Forall_forall in Hf. apply list_elem_of_In in Hin. specialize (Hf s Hin).
    injection Hs as <- <-. by rewrite !Z.eqb_refl in Hf.
Qed.

(** The amount of a resource in the slot of a cell. *)
Definition cell_amount (d : Device) (r : Resource) (c : Cell) : Z :=
  match slot d c.1 c.2 with Some s => amount r (slot_area s) | None => 0 end.

Definition sum_over (f : Cell -> Z) (cells : list Cell) : Z := fold_right (fun c a => f c + a) 0 cells.

Lemma slot_area_wf d x y s : typed d -> slot d x y = Some s -> Area.wf (slot_area s).
Proof.
  intros [_ _ Ht] [Hin _]%find_first_Some. rewrite Forall_forall in Ht. by apply Ht.
Qed.

Lemma sum_over_nonneg d r cells : typed d -> 0 <= sum_over (cell_amount d r) cells.
Proof.
  intros Hd. induction cells as [|c cells IH]; simpl; [done|]. unfold cell_amount at 1.
  destruct (slot d c.1 c.2) as [s|] eqn:Hs; [|lia]. pose proof (slot_area_wf _ _ _ _ Hd Hs r). unfold in_u64 in *. lia.
Qed.

Lemma sum_areas_spec d total cells :
  typed d -> Area.wf total -> (forall c, c ∈ cells -> slot d c.1 c.2 <> None) ->
  match sum_areas d total cells with
  | Some a => Area.wf a /\ forall r, amount r a = amount r total + sum_over (cell_amount d r) cells
  | None => exists r, U64_MAX < amount r total + sum_over (cell_amount d r) cells
  end.
Proof.
  intros Hd. revert total; induction cells as [|[x y] cells IH]; intros total Hwf Hall; simpl.
  - split; [done|]. intros r. lia.
  - destruct (slot d x y) as [s|] eqn:Hs; [|by destruct (Hall (x, y)); [left|]].
    pose proof (slot_area_wf _ _ _ _ Hd Hs) as Hsw.
    assert (Hca : forall r, cell_amount d r (x, y) = amount r (slot_area s)) by (intros r; unfold cell_amount; simpl; by rewrite Hs).
    destruct (Area.checked_add total (slot_area s)) as [t|] eqn:Ha.
    + pose proof (Area.checked_add_wf _ _ _ Hwf Hsw Ha) as Ht.
      specialize (IH t Ht ltac:(intros c Hc; apply Hall; by right)).
      assert (Hadd : forall r, amount r t = amount r total + amount r (slot_area s)) by (intros r; by apply (Area.checked_add_Some _ _ _ Hwf Hsw)).
      destruct (sum_areas d t cells) as [a|].
      * destruct IH as [IH1 IH2]. split; [done|]. intros r. rewrite IH2, Hadd, Hca. lia.
      * destruct IH as [r IH]. exists r. rewrite Hca. rewrite Hadd in IH. lia.
    + apply Area.checked_add_overflow in Ha as [r Hr]; [|done..]. exists r. rewrite Hca.
      pose proof (sum_over_nonneg d r cells Hd). lia.
Qed.

(** [island_area] is the sum of the slots of the region. For a region on
    a complete grid it returns, resource by resource, the total of the areas of
    the cells the region covers; it returns [None] only when some total exceeds
    [u64]. *)
Theorem island_area_sum d region :
  typed d -> complete_grid d -> Coor.wf region -> ur_x region < cols d -> ur_y region < rows d ->
  match island_area d region with
  | Some a => forall r, amount r a = sum_over (cell_amount d r) (Coor.all_slot_coors region)
  | None => exists r, U64_MAX < sum_over (cell_amount d r) (Coor.all_slot_coors region)
  end.
Proof.
  intros Hd Hg [Hx Hy _ _] Hcx Hcy. unfold island_area.
  pose proof (sum_areas_spec d area_default (Coor.all_slot_coors region) Hd Area.wf_default) as Hs.
  assert (Hz : forall r, amount r area_default = 0) by (by intros []).
  destruct (sum_areas d area_default _) as [a|].
  - intros r. destruct Hs as [_ Hs]; [|by rewrite Hs, Hz].
    intros [x y] [Hcx' Hcy']%Coor.elem_of_all_slot_coors. simpl in *.
    destruct (slot_lookup d x y Hg) as (s & -> & _); [lia..|done].
  - destruct Hs as [r Hr]; [|exists r; by rewrite Hz in Hr].
    intros [x y] [Hcx' Hcy']%Coor.elem_of_all_slot_coors. simpl in *.
    destruct (slot_lookup d x y Hg) as (s & -> & _); [lia..|done].
Qed.

(** ** Tcl safety of the accepted names *)

Lemma all_or_l (p q : ascii -> bool) s : Str.all p s = true -> Str.all (fun c => p c || q c) s = true.
Proof. apply Str.all_impl. intros c ->. done. Qed.

Lemma split_ws_all (p : ascii -> bool) cur s :
  forallb (Str.all p) (Str.split_ws_from cur s) = true ->
  Str.all (fun c => p c || Str.is_ascii_ws c) (cur +:+ s) = true.
Proof.
  revert cur; induction s as [|c s IH]; intros cur; simpl.
  - rewrite Str.app_nil_r. destruct cur as [|d cur]; [done|]. cbn [Str.is_empty forallb]. rewrite andb_true_r. apply all_or_l.
  - destruct (Str.is_ascii_ws c) eqn:Hc.
    + rewrite forallb_app, andb_true_iff. intros [H1 H2]. specialize (IH "" H2). rewrite Str.all_app, andb_true_iff. split.
      * destruct cur as [|d cur]; [done|]. cbn [Str.is_empty forallb] in H1. rewrite andb_true_r in H1. by apply all_or_l.
      * simpl. rewrite Hc, orb_true_r. done.
    + intros H. specialize (IH _ H). rewrite Str.app_assoc in IH. exact IH.
Qed.

(** The characters of an accepted range operation. *)
Definition range_safe (c : ascii) : bool :=
  is_range_char c || Ascii.eqb c " " || Ascii.eqb c "{" || Ascii.eqb c "}" || Ascii.eqb c "-".

Lemma no_control_ws s :
  Str.has_control s = false -> Str.all (fun c => negb (Str.is_ascii_ws c) || Ascii.eqb c " ") s = true.
Proof.
  induction s as [|c s IH]; simpl; [done|]. rewrite !orb_false_iff. intros [[[H1 _] _] H2].
  rewrite IH by done. rewrite andb_true_r. bool_hyps. unfold Str.is_ascii_ws.
  destruct (Ascii.eqb_spec c " ") as [->|Hne]; [done|]. rewrite orb_false_r, negb_true_iff, !orb_false_iff, !Z.eqb_neq.
  assert (Str.code c <> 32); [|lia]. intros Hc. apply Hne. unfold Str.code in Hc.
  rewrite <- (ascii_N_embedding c). f_equal. assert (N_of_ascii c = 32%N) as -> by lia. done.
Qed.

Lemma all_and (p q : ascii -> bool) s : Str.all p s = true -> Str.all q s = true -> Str.all (fun c => p c && q c) s = true.
Proof.
  induction s as [|c s IH]; simpl; [done|]. rewrite !andb_true_iff. intros [-> ?] [-> ?]. auto.
Qed.

Definition range_safe_ws (c : ascii) : bool := range_safe c || Str.is_ascii_ws c.

(** Removing the operation and the braces removes safe characters only. *)
Lemma payload_safe p s r :
  Str.strip_prefix p s = Some r -> Str.all range_safe_ws p = true -> Str.all range_safe_ws r = true ->
  Str.all range_safe_ws s = true.
Proof. intros ->%Str.strip_prefix_Some Hp Hr. by rewrite Str.all_app, Hp, Hr. Qed.

Lemma items_safe s :
  forallb valid_range_item (Str.split_ascii_whitespace s) = true -> Str.all range_safe_ws s = true.
Proof.
  intros Hi. apply (Str.all_impl (fun c => is_range_char c || Str.is_ascii_ws c)).
  - intros c. unfold range_safe_ws, range_safe. rewrite !orb_true_iff. tauto.
  - apply (split_ws_all is_range_char "" s). rewrite forallb_forall in *. intros i Hin. specialize (Hi i Hin).
    unfold valid_range_item in Hi. by bool_hyps.
Qed.

(** Names that reach the generated Tcl are inert. An accepted pblock
    range consists of letters, digits, underscores, colons, spaces, braces and
    dashes only: no bracket, dollar, semicolon, quote, backslash or line break
    can start a command or a substitution; an accepted site name is a plain
    [NOC_] identifier. *)
Theorem accepted_names_are_tcl_safe range s :
  (valid_pblock_range range = true -> Str.all range_safe range = true /\ range <> "") /\
  (valid_site_name s = true -> Str.all (fun c => Str.is_alnum c || Ascii.eqb c "_") s = true).
Proof.
  split; [|by intros [_ ?]%andb_true_iff]. unfold valid_pblock_range.
  destruct (_ || Str.existsb is_tcl_special range) eqn:E1; [done|]. bool_hyps.
  set (pl := match Str.strip_prefix "-add " range with Some _ => _ | None => _ end).
  destruct pl as [payload|] eqn:Hpl; [|done]. destruct (Str.is_empty payload); [done|].
  set (inner := match Str.strip_prefix "{" payload with Some _ => _ | None => _ end).
  destruct inner as [p|] eqn:Hin; [|done]. intros [_ Hitems]%andb_true_iff. apply items_safe in Hitems.
  assert (Hp : Str.all range_safe_ws payload = true).
  { unfold inner in Hin. destruct (Str.strip_prefix "{" payload) as [p'|] eqn:Hb.
    - apply (payload_safe _ _ _ Hb); [done|]. apply Str.strip_suffix_Some in Hin as ->. by rewrite Str.all_app, Hitems.
    - destruct (Str.ends_with "}" payload); [done|]. by injection Hin as <-. }
  assert (Hr : Str.all range_safe_ws range = true).
  { unfold pl in Hpl. destruct (Str.strip_prefix "-add " range) as [r1|] eqn:Ha; [by injection Hpl as <-; apply (payload_safe _ _ _ Ha)|].
    destruct (Str.strip_prefix "-remove " range) as [r2|] eqn:Hrm; [by injection Hpl as <-; apply (payload_safe _ _ _ Hrm)|].
    destruct (Str.starts_with "-" range); [done|]. by injection Hpl as <-. }
  split; [|by intros ->].
  assert (Hc : Str.has_control range = false) by done. pose proof (all_and _ _ _ Hr (no_control_ws _ Hc)) as Hboth.
  revert Hboth. apply Str.all_impl. intros c. unfold range_safe_ws, range_safe. rewrite !andb_true_iff, !orb_true_iff, negb_true_iff.
  intros [[?|Hws] [Hn|?]]; [tauto|tauto|congruence|tauto].
Qed.

(** A braced range of blanks has no range item, and passes: [all] holds on the
    empty iterator that [split_ascii_whitespace] returns. *)
Example blank_braces_accepted : valid_pblock_range "{ }" = true /\ valid_pblock_range "-remove { }" = true.
Proof. vm_compute. done. Qed.

(** ** Border capacities *)

(** The usable capacity is 70% of the raw one, rounded half up, without
    overflow on any [u64]; it never exceeds the raw capacity, and it is monotone. *)
Lemma usable_wire_capacity_eq raw : in_u64 raw -> usable_wire_capacity raw = (7 * raw + 5) / 10.
Proof.
  unfold in_u64, usable_wire_capacity. intros Hr.
  pose proof (Z.mod_pos_bound raw 10 ltac:(lia)). pose proof (Z.div_mod raw 10 ltac:(lia)) as Hd.
  set (q := raw / 10) in *. set (m := raw mod 10) in *.
  assert (0 <= q) by lia. unfold U64_MAX in *.
  assert (Hm : 0 <= (m * 7 + 5) / 10 < 7) by (split; [apply Z.div_pos; lia|apply Z.div_lt_upper_bound; lia]).
  rewrite (wrap64_id (q * 7)) by (unfold in_u64, U64_MAX; lia).
  rewrite (wrap64_id (m * 7)) by (unfold in_u64, U64_MAX; lia).
  rewrite (wrap64_id (m * 7 + 5)) by (unfold in_u64, U64_MAX; lia).
  rewrite wrap64_id by (unfold in_u64, U64_MAX; lia).
  replace (7 * raw + 5) with (m * 7 + 5 + 7 * q * 10) by lia. rewrite Z.div_add by lia. lia.
Qed.

Lemma usable_wire_capacity_bounds raw :
  in_u64 raw -> 0 <= usable_wire_capacity raw <= raw /\ 10 * usable_wire_capacity raw <= 7 * raw + 5 < 10 * usable_wire_capacity raw + 10.
Proof.
  intros Hr. rewrite usable_wire_capacity_eq by done. unfold in_u64 in Hr.
  pose proof (Z.div_mod (7 * raw + 5) 10 ltac:(lia)). pose proof (Z.mod_pos_bound (7 * raw + 5) 10 ltac:(lia)). lia.
Qed.

Lemma bounded_border_capacity_sym a b : bounded_border_capacity a b = bounded_border_capacity b a.
Proof. unfold bounded_border_capacity. by rewrite Z.min_comm. Qed.

Lemma bounded_border_capacity_range a b c :
  in_u64 a -> in_u64 b -> bounded_border_capacity a b = Some c -> 0 <= c < WIRE_CAPACITY_INF.
Proof.
  unfold in_u64, bounded_border_capacity. intros Ha Hb. destruct (_ <? _) eqn:H; [|done]. bool_hyps. intros [= <-].
  pose proof (usable_wire_capacity_bounds (Z.min a b)) as Hu. unfold in_u64 in Hu. lia.
Qed.

(** ** Witnesses: a 2 x 1 device *)

Module Example.
Definition mk_slot (x : Z) (t : list string) : Slot :=
  mkSlot x 0 (mkArea 100 200 4 8 0) (100 * x) 0 ["CLOCKREGION_X0Y0:CLOCKREGION_X1Y3"] (mkCaps 10 10 1000 1000) t.
Definition device : Device :=
  mkDevice "demo" "xcdemo" (Some "demo_platform") 1 2 Pblock planned_all None (Some "user_pblock")
    [mk_slot 0 ["HBM[0]"]; mk_slot 1 []] [mkAnchor "HBM[0]" "NOC_NMU512_X0Y0" 100 (-300)].
End Example.

Lemma example_typed : typed Example.device.
Proof.
  split; [unfold in_u32, U32_MAX; simpl; lia..|].
  assert (Hs : forall x t, in_u32 x -> in_u32 (slot_x (Example.mk_slot x t)) /\ in_u32 (slot_y (Example.mk_slot x t)) /\
    Area.wf (slot_area (Example.mk_slot x t))).
  { intros x t Hx. split; [done|]. split; [unfold in_u32, U32_MAX; simpl; lia|]. intros []; unfold in_u64, U64_MAX; simpl; lia. }
  apply Forall_cons. split; [apply Hs; unfold in_u32, U32_MAX; lia|].
  apply Forall_cons. split; [apply Hs; unfold in_u32, U32_MAX; lia|]. by apply Forall_nil.
Qed.

Lemma example_complete : complete_grid Example.device.
Proof.
  split.
  - simpl. lia.
  - apply Forall_cons. split; [simpl; lia|]. apply Forall_cons. split; [simpl; lia|]. by apply Forall_nil.
  - apply (bool_decide_unpack _). vm_compute. done.
  - intros x y Hx Hy. simpl in *. rewrite !elem_of_cons. assert (x = 0 \/ x = 1) as [-> | ->] by lia; (assert (y = 0) as -> by lia); auto.
  - apply Forall_cons. split; [done|]. apply Forall_cons. split; [done|]. by apply Forall_nil.
Qed.

Lemma validate_grid_exact_witness : validate_grid Example.device = Ok tt.
Proof. exact (proj2 (proj1 (validate_grid_exact Example.device example_typed)) example_complete). Defined.

Lemma island_area_sum_witness :
  exists a, island_area Example.device (mkCoor 0 0 1 0) = Some a /\
    forall r, amount r a = sum_over (cell_amount Example.device r) [(0, 0); (1, 0)].
Proof.
  assert (Hw : Coor.wf (mkCoor 0 0 1 0)) by (split; unfold U32_MAX; simpl; lia).
  pose proof (island_area_sum Example.device (mkCoor 0 0 1 0) example_typed example_complete Hw ltac:(simpl; lia) ltac:(simpl; lia)) as H.
  exists (mkArea 200 400 8 16 0).
  assert (Ha : island_area Example.device (mkCoor 0 0 1 0) = Some (mkArea 200 400 8 16 0)) by (vm_compute; reflexivity).
  rewrite Ha in H. exact (conj Ha H).
Defined.

Lemma accepted_names_are_tcl_safe_witness : Str.all range_safe "-add {SLICE_X0Y0:SLICE_X3Y9}" = true.
Proof.
  refine (proj1 (proj1 (accepted_names_are_tcl_safe "-add {SLICE_X0Y0:SLICE_X3Y9}" "NOC_0") _)). vm_compute. reflexivity.
Defined.
