(* ===== verification/Cut.v ===== *)
(** * Guillotine cuts

    [tapa-floorplan/src/partition/cut.rs]: the straight cuts of a set of
    candidate regions, and the wire capacity across each. *)

From S2P Require Import Prelude RustStd Geometry Device.

Record Cut := mkCut { cut_name : string; lhs : list Coor; rhs : list Coor; capacity : Z }.

(** [a..=b] on [u32]. *)
Definition inclusive (a b : Z) : list Z := zrange a (b + 1).

(** The facing declarations along the shared border, cell pair by cell pair. *)
Definition facing (d : Device) (near_cell far_cell : Z -> Cell) (near_side far_side : DirCaps -> Z) (shared : list Z) :
    list (Z * Z) :=
  flat_map (fun i =>
    match slot d (near_cell i).1 (near_cell i).2, slot d (far_cell i).1 (far_cell i).2 with
    | Some near, Some far => [(near_side (wire_cap near), far_side (wire_cap far))]
    | _, _ => []
    end) shared.

(** [try_fold] with [checked_add] over the bounded capacities. *)
Fixpoint sum_bounded (total : Z) (l : list (Z * Z)) : option Z :=
  match l with
  | [] => Some total
  | (near, far) :: l' =>
      let? c := bounded_border_capacity near far in
      let? t := checked_add64 total c in
      sum_bounded t l'
  end.

Definition border_capacity (d : Device) (l r : Coor) : option Z :=
  let shared_x := inclusive (Z.max (dl_x l) (dl_x r)) (Z.min (ur_x l) (ur_x r)) in
  let shared_y := inclusive (Z.max (dl_y l) (dl_y r)) (Z.min (ur_y l) (ur_y r)) in
  let pairs :=
    if Coor.is_south_neighbor_of l r then
      facing d (fun x => (x, ur_y l)) (fun x => (x, dl_y r)) north south shared_x
    else if Coor.is_north_neighbor_of l r then
      facing d (fun x => (x, dl_y l)) (fun x => (x, ur_y r)) south north shared_x
    else if Coor.is_west_neighbor_of l r then
      facing d (fun y => (ur_x l, y)) (fun y => (dl_x r, y)) east west shared_y
    else
      facing d (fun y => (dl_x l, y)) (fun y => (ur_x r, y)) west east shared_y in
  sum_bounded 0 pairs.

(** The [Option<u64>] sum: [None] as soon as one border is unbounded; the
    [u64] sum wraps. *)
Fixpoint sum_options (total : Z) (l : list (option Z)) : option Z :=
  match l with
  | [] => Some total
  | o :: l' => let? c := o in sum_options (wrap64 (total + c)) l'
  end.

Definition push_if_clean_and_binding (d : Device) (all_regions : list Coor) (cuts : list Cut)
    (name : string) (l r : list Coor) : list Cut :=
  if negb (Nat.eqb (length l + length r) (length all_regions)) then cuts else
  let borders := flat_map (fun left => map (fun right => (left, right)) r) l in
  match sum_options 0 (map (fun p => border_capacity d p.1 p.2)
                           (List.filter (fun p => Coor.is_neighbor p.1 p.2) borders)) with
  | Some c => cuts ++ [mkCut name l r c]
  | None => cuts
  end.

Definition max_or_zero (l : list Z) : Z := fold_right Z.max 0 l.

Definition find_cuts_for_regions (d : Device) (regions : list Coor) : list Cut :=
  let max_x := max_or_zero (map ur_x regions) in
  let max_y := max_or_zero (map ur_y regions) in
  let cuts := fold_left (fun cuts y =>
    push_if_clean_and_binding d regions cuts ("y=" +:+ show y)
      (List.filter (fun g => ur_y g <=? y) regions) (List.filter (fun g => y <? dl_y g) regions))
    (zrange 0 max_y) [] in
  fold_left (fun cuts x =>
    push_if_clean_and_binding d regions cuts ("x=" +:+ show x)
      (List.filter (fun g => ur_x g <=? x) regions) (List.filter (fun g => x <? dl_x g) regions))
    (zrange 0 max_x) cuts.

(** ** Facing cell pairs *)

(** The side a cell presents to an adjacent cell. *)
Definition toward (p q : Cell) (c : DirCaps) : Z :=
  if q.2 =? p.2 + 1 then north c else if q.2 =? p.2 - 1 then south c
  else if q.1 =? p.1 + 1 then east c else west c.

(** The usable capacity of the border between two adjacent cells. *)
Definition pair_capacity (d : Device) (pq : Cell * Cell) : option Z :=
  let '(p, q) := pq in
  let? s := slot d p.1 p.2 in
  let? t := slot d q.1 q.2 in
  bounded_border_capacity (toward p q (wire_cap s)) (toward q p (wire_cap t)).

(** The cell pairs facing each other across the border of two neighbours. *)
Definition border_pairs (l r : Coor) : list (Cell * Cell) :=
  let shared_x := inclusive (Z.max (dl_x l) (dl_x r)) (Z.min (ur_x l) (ur_x r)) in
  let shared_y := inclusive (Z.max (dl_y l) (dl_y r)) (Z.min (ur_y l) (ur_y r)) in
  if Coor.is_south_neighbor_of l r then map (fun x => ((x, ur_y l), (x, dl_y r))) shared_x
  else if Coor.is_north_neighbor_of l r then map (fun x => ((x, dl_y l), (x, ur_y r))) shared_x
  else if Coor.is_west_neighbor_of l r then map (fun y => ((ur_x l, y), (dl_x r, y))) shared_y
  else map (fun y => ((dl_x l, y), (ur_x r, y))) shared_y.

Definition inside (d : Device) (g : Coor) : Prop := Coor.wf g /\ ur_x g < cols d /\ ur_y g < rows d.

Lemma elem_of_map_zrange {A} (f : Z -> A) lo hi a : a ∈ map f (zrange lo hi) <-> exists i, a = f i /\ lo <= i < hi.
Proof.
  rewrite list_elem_of_In, in_map_iff. split.
  - intros (i & <- & Hi%list_elem_of_In%elem_of_zrange). eauto.
  - intros (i & -> & Hi). exists i. split; [done|]. by apply list_elem_of_In, elem_of_zrange.
Qed.

Lemma NoDup_map_inj {A B} (f : A -> B) l : (forall x y, f x = f y -> x = y) -> NoDup l -> NoDup (map f l).
Proof. intros Hf Hl. by apply NoDup_ListNoDup, Finite.Injective_map_NoDup, NoDup_ListNoDup. Qed.

Section pair.
Context (l r : Coor) (Hl : Coor.wf l) (Hr : Coor.wf r).
Context (Hul : ur_x l < U32_MAX /\ ur_y l < U32_MAX) (Hur : ur_x r < U32_MAX /\ ur_y r < U32_MAX).
Context (Hdis : Coor.disjoint l r) (Hn : Coor.is_neighbor l r = true).

(** Which side of [l] faces [r]; the sides exclude each other. *)
Lemma neighbor_side :
  (Coor.is_south_neighbor_of l r = true /\ ur_y l + 1 = dl_y r) \/
  (Coor.is_south_neighbor_of l r = false /\ Coor.is_north_neighbor_of l r = true /\ ur_y r + 1 = dl_y l) \/
  (Coor.is_south_neighbor_of l r = false /\ Coor.is_north_neighbor_of l r = false /\
   Coor.is_west_neighbor_of l r = true /\ ur_x l + 1 = dl_x r) \/
  (Coor.is_south_neighbor_of l r = false /\ Coor.is_north_neighbor_of l r = false /\
   Coor.is_west_neighbor_of l r = false /\ ur_x r + 1 = dl_x l).
Proof using Hl Hr Hul Hur Hn.
  apply Coor.is_neighbor_true in Hn; [|done|done|lia..]. destruct Hl as [Hlx Hly _ _], Hr as [Hrx Hry _ _].
  unfold Coor.is_south_neighbor_of, Coor.is_north_neighbor_of, Coor.is_west_neighbor_of.
  rewrite !wrap32_id by (unfold in_u32; lia).
  destruct (ur_y l + 1 =? dl_y r) eqn:E1, (dl_y l =? ur_y r + 1) eqn:E2, (ur_x l + 1 =? dl_x r) eqn:E3,
    (Z.max (dl_x l) (dl_x r) <=? Z.min (ur_x l) (ur_x r)) eqn:E4, (Z.max (dl_y l) (dl_y r) <=? Z.min (ur_y l) (ur_y r)) eqn:E5;
    simpl; bool_hyps; intuition lia.
Qed.
Lemma border_pairs_spec p q :
  (p, q) ∈ border_pairs l r <-> Coor.covers l p /\ Coor.covers r q /\ Coor.adjacent p q.
Proof using Hl Hr Hul Hur Hn.
  pose proof neighbor_side as Hside. destruct Hl as [Hlx Hly _ _], Hr as [Hrx Hry _ _].
  clear Hl Hr Hul Hur Hn. destruct p as [px py], q as [qx qy]. unfold border_pairs, inclusive, Coor.covers, Coor.adjacent; simpl.
  destruct Hside as [(-> & E)|[(-> & -> & E)|[(-> & -> & -> & E)|(-> & -> & -> & E)]]]; rewrite elem_of_map_zrange;
    (split; [intros (i & [= -> -> -> ->] & Hi); lia|intros (H1 & H2 & H3)]).
  - exists px. split; [f_equal; f_equal; lia|lia].
  - exists px. split; [f_equal; f_equal; lia|lia].
  - exists py. split; [f_equal; f_equal; lia|lia].
  - exists py. split; [f_equal; f_equal; lia|lia].
Qed.

Lemma border_pairs_nodup : NoDup (border_pairs l r).
Proof using.
  unfold border_pairs. repeat case_match; apply NoDup_map_inj; try apply NoDup_zrange; by intros x y [= ->].
Qed.
End pair.

(** ** Capacities as sums over facing pairs *)

Definition total (f : Cell * Cell -> option Z) (l : list (Cell * Cell)) : Z :=
  fold_right (fun pq a => default 0 (f pq) + a) 0 l.

Lemma total_app f l1 l2 : total f (l1 ++ l2) = total f l1 + total f l2.
Proof. induction l1 as [|x l1 IH]; simpl; [done|]. lia. Qed.

(** The declared capacities are [u64]. *)
Definition caps_typed (d : Device) : Prop :=
  Forall (fun s => in_u64 (north (wire_cap s)) /\ in_u64 (south (wire_cap s)) /\
                   in_u64 (east (wire_cap s)) /\ in_u64 (west (wire_cap s))) (slots d).

Lemma slot_caps d x y s p q : caps_typed d -> slot d x y = Some s -> in_u64 (toward p q (wire_cap s)).
Proof.
  intros Hc [Hin _]%find_first_Some. unfold caps_typed in Hc. rewrite Forall_forall in Hc.
  destruct (Hc s Hin) as (? & ? & ? & ?). unfold toward. by repeat case_match.
Qed.

Lemma pair_capacity_range d pq c : caps_typed d -> pair_capacity d pq = Some c -> 0 <= c < WIRE_CAPACITY_INF.
Proof.
  destruct pq as [p q]. intros Hc. unfold pair_capacity.
  destruct (slot d p.1 p.2) as [s|] eqn:Hs; [|done]. destruct (slot d q.1 q.2) as [t|] eqn:Ht; [|done].
  apply bounded_border_capacity_range; by eapply slot_caps.
Qed.

Lemma total_nonneg d l : caps_typed d -> 0 <= total (pair_capacity d) l.
Proof.
  intros Hc. induction l as [|pq l IH]; simpl; [done|]. destruct (pair_capacity d pq) as [c|] eqn:Hp; simpl; [|lia].
  pose proof (pair_capacity_range _ _ _ Hc Hp). lia.
Qed.

(** Looking up the facing declarations of a list of pairs. *)
Fixpoint sum_pairs (d : Device) (acc : Z) (l : list (Cell * Cell)) : option Z :=
  match l with
  | [] => Some acc
  | pq :: l' => let? c := pair_capacity d pq in let? t := checked_add64 acc c in sum_pairs d t l'
  end.

Lemma sum_pairs_Some d acc l c :
  caps_typed d -> in_u64 acc -> sum_pairs d acc l = Some c ->
  Forall (fun pq => pair_capacity d pq <> None) l /\ c = acc + total (pair_capacity d) l /\ in_u64 c.
Proof.
  intros Hc. revert acc; induction l as [|pq l IH]; intros acc Ha; simpl.
  - intros [= <-]. split; [by apply Forall_nil|]. split; [lia|done].
  - destruct (pair_capacity d pq) as [k|] eqn:Hp; [|done]. unfold checked_add64.
    destruct (fits U64_MAX (acc + k)) as [t|] eqn:Ht; [|done]. res_inv. intros Hs.
    destruct (IH (acc + k) ltac:(unfold in_u64; lia) Hs) as (H1 & -> & H3). split; [apply Forall_cons; by rewrite Hp|]. split; [lia|].
    by replace (acc + (k + total (pair_capacity d) l)) with (acc + k + total (pair_capacity d) l) by lia.
Qed.

Lemma facing_pairs d near far nside fside shared :
  (forall i, i ∈ shared -> slot d (near i).1 (near i).2 <> None /\ slot d (far i).1 (far i).2 <> None) ->
  (forall i c, i ∈ shared -> toward (near i) (far i) c = nside c /\ toward (far i) (near i) c = fside c) ->
  forall acc, sum_bounded acc (facing d near far nside fside shared) = sum_pairs d acc (map (fun i => (near i, far i)) shared).
Proof.
  intros Hs Ht. unfold facing. induction shared as [|i shared IH]; intros acc; [done|].
  destruct (Hs i ltac:(by left)) as [Hn Hf].
  specialize (IH ltac:(intros; apply Hs; by right) ltac:(intros; apply Ht; by right)). cbn [flat_map map sum_pairs].
  unfold pair_capacity. destruct (slot d (near i).1 (near i).2) as [s|]; [|done].
  destruct (slot d (far i).1 (far i).2) as [t|]; [|done]. cbn [app sum_bounded].
  destruct (Ht i (wire_cap s) ltac:(by left)) as [-> _]. destruct (Ht i (wire_cap t) ltac:(by left)) as [_ ->].
  destruct (bounded_border_capacity _ _); [|done]. by destruct (checked_add64 acc _).
Qed.

Lemma inside_slot d g x y : complete_grid d -> inside d g -> Coor.covers g (x, y) -> slot d x y <> None.
Proof.
  intros Hg ([Hx Hy _ _] & ? & ?) [??]; simpl in *. destruct (slot_lookup d x y Hg) as (s & -> & _); [lia..|done].
Qed.

Section border.
Context (d : Device) (Hd : typed d) (Hg : complete_grid d) (l r : Coor) (Hl : inside d l) (Hr : inside d r).
Context (Hn : Coor.is_neighbor l r = true).

Lemma inside_u32 g : inside d g -> ur_x g < U32_MAX /\ ur_y g < U32_MAX.
Proof using Hd. intros (_ & ? & ?). destruct Hd as [[??] [??] _]. lia. Qed.

(** The code's capacity of a border is the sum over its facing cell pairs. *)
Lemma border_capacity_pairs : border_capacity d l r = sum_pairs d 0 (border_pairs l r).
Proof using All.
  destruct Hl as (Hlw & ? & ?), Hr as (Hrw & ? & ?).
  pose proof (neighbor_side l r Hlw Hrw (inside_u32 l Hl) (inside_u32 r Hr) Hn) as Hside.
  pose proof Hlw as [? ? _ _]. pose proof Hrw as [? ? _ _].
  unfold border_capacity, border_pairs, inclusive.
  destruct Hside as [(-> & E)|[(-> & -> & E)|[(-> & -> & -> & E)|(-> & -> & -> & E)]]];
    (apply facing_pairs; [intros i Hi%elem_of_zrange|intros i c Hi%elem_of_zrange]).
  1,3,5,7: split; [apply (inside_slot d l)|apply (inside_slot d r)]; try done; unfold Coor.covers; simpl; lia.
  all: unfold toward; simpl; repeat (match goal with |- context [?a =? ?b] => destruct (Z.eqb_spec a b) end; try lia); done.
Qed.
End border.

(** ** Cuts *)

Lemma filter_partition {A} (p q : A -> bool) l :
  (forall x, x ∈ l -> p x = true -> q x = false) ->
  (length (List.filter p l) + length (List.filter q l) <= length l)%nat /\
  ((length (List.filter p l) + length (List.filter q l) = length l)%nat -> List.filter p l ++ List.filter q l ≡ₚ l).
Proof.
  intros Hpq. induction l as [|x l IH]; simpl; [done|].
  destruct IH as [IH1 IH2]; [intros y Hy; apply Hpq; by right|]. specialize (Hpq x ltac:(by left)).
  destruct (p x), (q x); simpl; try (specialize (Hpq eq_refl); done).
  - split; [lia|]. intros H. f_equiv. apply IH2. lia.
  - split; [lia|]. intros H. rewrite <- Permutation_middle. f_equiv. apply IH2. lia.
  - split; [lia|]. lia.
Qed.

(** The neighbouring region pairs across a bipartition, and their cell pairs. *)
Definition neighbor_pairs (l r : list Coor) : list (Coor * Coor) :=
  List.filter (fun p => Coor.is_neighbor p.1 p.2) (flat_map (fun a => map (fun b => (a, b)) r) l).
Definition cut_pairs (l r : list Coor) : list (Cell * Cell) :=
  flat_map (fun p => border_pairs p.1 p.2) (neighbor_pairs l r).

Lemma elem_of_neighbor_pairs l r a b :
  (a, b) ∈ neighbor_pairs l r <-> a ∈ l /\ b ∈ r /\ Coor.is_neighbor a b = true.
Proof.
  unfold neighbor_pairs. rewrite list_elem_of_In, filter_In, in_flat_map. split.
  - intros ((a' & Ha & (b' & [= -> ->] & Hb)%in_map_iff) & Hn). rewrite !list_elem_of_In. done.
  - rewrite !list_elem_of_In. intros (Ha & Hb & Hn). split; [|done]. exists a. split; [done|]. apply in_map_iff. eauto.
Qed.

Lemma wrap64_add a b : wrap64 (wrap64 a + b) = wrap64 (a + b).
Proof. unfold wrap64. by rewrite Z.add_mod_idemp_l. Qed.

(** Regions that a partition iteration hands in: on the grid, pairwise
    disjoint, without repetition. *)
Record regions_ok (d : Device) (regions : list Coor) : Prop := {
  ro_inside : forall g, g ∈ regions -> inside d g;
  ro_nodup : NoDup regions;
  ro_disjoint : forall a b, a ∈ regions -> b ∈ regions -> a <> b -> Coor.disjoint a b;
}.

Section cut.
Context (d : Device) (Hd : typed d) (Hg : complete_grid d) (Hcaps : caps_typed d).
Context (regions l r : list Coor) (Hro : regions_ok d regions).
Context (Hsub : forall g, g ∈ l \/ g ∈ r -> g ∈ regions) (Hnl : NoDup l) (Hnr : NoDup r).
Context (Hlr : forall a b, a ∈ l -> b ∈ r -> a <> b).

Lemma cut_disjoint a b : a ∈ l -> b ∈ r -> Coor.disjoint a b.
Proof using All. intros Ha Hb. apply (ro_disjoint _ _ Hro); auto. Qed.

Lemma cut_pairs_spec p q :
  (p, q) ∈ cut_pairs l r <-> exists a b, a ∈ l /\ b ∈ r /\ Coor.covers a p /\ Coor.covers b q /\ Coor.adjacent p q.
Proof using All.
  assert (Hin : forall g, g ∈ l \/ g ∈ r -> inside d g) by (intros; by apply (ro_inside _ _ Hro), Hsub).
  unfold cut_pairs. rewrite list_elem_of_In, in_flat_map. split.
  - intros ([a b] & Hab%list_elem_of_In & Hpq%list_elem_of_In). apply elem_of_neighbor_pairs in Hab as (Ha & Hb & Hn).
    exists a, b. split; [done|]. split; [done|]. simpl in Hpq.
    apply border_pairs_spec in Hpq; [done|apply Hin; auto..|apply (inside_u32 d); auto|apply (inside_u32 d); auto|done].
  - intros (a & b & Ha & Hb & Hp & Hq & Hadj).
    destruct (inside_u32 d Hd a (Hin a (or_introl Ha))), (inside_u32 d Hd b (Hin b (or_intror Hb))).
    assert (Hn : Coor.is_neighbor a b = true).
    { apply Coor.is_neighbor_adjacent; [apply Hin; auto|apply Hin; auto|done..|by apply cut_disjoint|eauto]. }
    exists (a, b). rewrite <- !list_elem_of_In. split; [by apply elem_of_neighbor_pairs|]. simpl.
    apply border_pairs_spec; [apply Hin; auto..|done|done|done|done].
Qed.

Lemma cut_pairs_nodup : NoDup (cut_pairs l r).
Proof using All.
  apply NoDup_flat_map.
  - unfold neighbor_pairs. apply NoDup_ListNoDup, List.NoDup_filter, NoDup_ListNoDup. apply NoDup_flat_map; [done| |].
    + intros a _. apply NoDup_map_inj; [by intros x y [= ->]|done].
    + intros a a' [x y] _ _ (b & [= <- <-] & _)%list_elem_of_In%in_map_iff (b' & [= <- <-] & _)%list_elem_of_In%in_map_iff. done.
  - intros [a b] _. apply border_pairs_nodup.
  - intros [a b] [a' b'] [p q] (Ha & Hb & Hn)%elem_of_neighbor_pairs (Ha' & Hb' & Hn')%elem_of_neighbor_pairs Hz Hz'.
    assert (Hin : forall g, g ∈ l \/ g ∈ r -> inside d g) by (intros; by apply (ro_inside _ _ Hro), Hsub).
    simpl in *. apply border_pairs_spec in Hz; [|apply Hin; auto..|apply (inside_u32 d); auto|apply (inside_u32 d); auto|done].
    apply border_pairs_spec in Hz'; [|apply Hin; auto..|apply (inside_u32 d); auto|apply (inside_u32 d); auto|done].
    assert (a = a') as ->.
    { destruct (decide (a = a')) as [|Hne]; [done|]. exfalso. destruct Hz, Hz'.
      by apply (ro_disjoint _ _ Hro a a' ltac:(auto) ltac:(auto) Hne p). }
    assert (b = b') as ->; [|done].
    destruct (decide (b = b')) as [|Hne]; [done|]. exfalso. destruct Hz as (_ & ? & _), Hz' as (_ & ? & _).
    by apply (ro_disjoint _ _ Hro b b' ltac:(auto) ltac:(auto) Hne q).
Qed.

Lemma sum_options_pairs np acc c :
  (forall ab, ab ∈ np -> ab ∈ neighbor_pairs l r) ->
  sum_options (wrap64 acc) (map (fun p => border_capacity d p.1 p.2) np) = Some c ->
  Forall (fun pq => pair_capacity d pq <> None) (flat_map (fun p => border_pairs p.1 p.2) np) /\
  c = wrap64 (acc + total (pair_capacity d) (flat_map (fun p => border_pairs p.1 p.2) np)).
Proof using All.
  revert acc; induction np as [|[a b] np IH]; intros acc Hnp; simpl.
  - intros [= <-]. split; [by apply Forall_nil|]. f_equal. lia.
  - destruct (proj1 (elem_of_neighbor_pairs l r a b) ltac:(apply Hnp; by left)) as (Ha & Hb & Hn).
    rewrite border_capacity_pairs; [|done|done|apply (ro_inside _ _ Hro); auto|apply (ro_inside _ _ Hro); auto|done].
    destruct (sum_pairs d 0 (border_pairs a b)) as [k|] eqn:Hk; [|done].
    apply sum_pairs_Some in Hk as (H1 & Hk & _); [|done|unfold in_u64, U64_MAX; lia].
    rewrite wrap64_add. intros Hs. destruct (IH (acc + k)) as [IH1 ->]; [intros; apply Hnp; by right|done|].
    split; [apply Forall_app; done|]. rewrite total_app. f_equal. lia.
Qed.
End cut.

(** A cut is the bipartition of the regions by a straight line. *)
Definition splits_at (lo hi : Coor -> Z) (pos : Z) (regions : list Coor) (c : Cut) : Prop :=
  lhs c = List.filter (fun g => hi g <=? pos) regions /\ rhs c = List.filter (fun g => pos <? lo g) regions.

Lemma push_spec d regions cuts name l r c :
  c ∈ push_if_clean_and_binding d regions cuts name l r <->
  c ∈ cuts \/ ((length l + length r = length regions)%nat /\ exists k,
    sum_options 0 (map (fun p => border_capacity d p.1 p.2) (neighbor_pairs l r)) = Some k /\ c = mkCut name l r k).
Proof.
  unfold push_if_clean_and_binding. fold (neighbor_pairs l r).
  destruct (Nat.eqb_spec (length l + length r) (length regions)); simpl; [|naive_solver].
  destruct (sum_options 0 _) as [k|]; [|naive_solver].
  rewrite elem_of_app, list_elem_of_singleton. naive_solver.
Qed.

Lemma fold_push_spec d regions (name : Z -> string) (L R : Z -> list Coor) positions cuts c :
  c ∈ fold_left (fun cuts y => push_if_clean_and_binding d regions cuts (name y) (L y) (R y)) positions cuts <->
  c ∈ cuts \/ exists y, y ∈ positions /\ (length (L y) + length (R y) = length regions)%nat /\ exists k,
    sum_options 0 (map (fun p => border_capacity d p.1 p.2) (neighbor_pairs (L y) (R y))) = Some k /\ c = mkCut (name y) (L y) (R y) k.
Proof.
  revert cuts; induction positions as [|y positions IH]; intros cuts; simpl.
  - split; [by left|]. intros [?|(y & Hy & _)]; [done|]. by apply not_elem_of_nil in Hy.
  - rewrite IH, push_spec. split.
    + intros [[?|?]|(y' & Hy' & ?)]; [by left|right; exists y; split; [by left|done]|right; exists y'; split; [by right|done]].
    + intros [?|(y' & [->|Hy']%elem_of_cons & ?)]; [by left; left|by left; right|right; eauto].
Qed.

(** What is said of a cut along a line. *)
Definition physical (d : Device) (regions : list Coor) (c : Cut) : Prop :=
  lhs c ++ rhs c ≡ₚ regions /\
  exists pairs, NoDup pairs /\
    (forall p q, (p, q) ∈ pairs <->
       exists a b, a ∈ lhs c /\ b ∈ rhs c /\ Coor.covers a p /\ Coor.covers b q /\ Coor.adjacent p q) /\
    Forall (fun pq => pair_capacity d pq <> None) pairs /\
    capacity c = wrap64 (total (pair_capacity d) pairs).

Section line.
Context (d : Device) (Hd : typed d) (Hg : complete_grid d) (Hcaps : caps_typed d).
Context (regions : list Coor) (Hro : regions_ok d regions).
Context (lo hi : Coor -> Z) (Hord : forall g, g ∈ regions -> lo g <= hi g) (pos : Z).
Local Notation l := (List.filter (fun g => hi g <=? pos) regions).
Local Notation r := (List.filter (fun g => pos <? lo g) regions).

Lemma line_cut name k :
  (length l + length r = length regions)%nat ->
  sum_options 0 (map (fun p => border_capacity d p.1 p.2) (neighbor_pairs l r)) = Some k ->
  physical d regions (mkCut name l r k).
Proof using All.
  intros Hlen Hsum.
  assert (Hsub : forall g, g ∈ l \/ g ∈ r -> g ∈ regions) by (intros g; rewrite !list_elem_of_In, !filter_In; tauto).
  assert (Hnl : NoDup l) by (apply NoDup_ListNoDup, List.NoDup_filter, NoDup_ListNoDup, Hro).
  assert (Hnr : NoDup r) by (apply NoDup_ListNoDup, List.NoDup_filter, NoDup_ListNoDup, Hro).
  assert (Hex : forall g, g ∈ regions -> (hi g <=? pos) = true -> (pos <? lo g) = false).
  { intros g Hin H1. specialize (Hord g Hin). bool_hyps. apply Z.ltb_ge. lia. }
  assert (Hlr : forall a b, a ∈ l -> b ∈ r -> a <> b).
  { intros a b. rewrite !list_elem_of_In, !filter_In. intros [Ha Ha'] [Hb Hb'] ->.
    rewrite Hex in Hb'; [done|by apply list_elem_of_In|done]. }
  split; simpl; [by apply filter_partition|]. exists (cut_pairs l r).
  split; [by apply (cut_pairs_nodup d Hd Hg Hcaps regions)|].
  split; [intros p q; by apply (cut_pairs_spec d Hd Hg Hcaps regions)|].
  apply (sum_options_pairs d Hd Hg Hcaps regions l r Hro Hsub Hnl Hnr Hlr (neighbor_pairs l r) 0 k); done.
Qed.
End line.

(** Every cut the partitioner gets is a clean straight bipartition of the
    regions whose capacity is physical. Its two sides together are exactly the
    regions, all of the first below (left of) the line and all of the second
    above (right of) it; and its capacity is the sum, over the pairs of
    adjacent cells that face each other across the line, each counted once, of
    70% of the smaller of the two facing wire capacities, every one of which is
    bounded. *)
Theorem cuts_are_physical d regions c :
  typed d -> complete_grid d -> caps_typed d -> regions_ok d regions -> c ∈ find_cuts_for_regions d regions ->
  physical d regions c /\
  exists pos, splits_at dl_y ur_y pos regions c \/ splits_at dl_x ur_x pos regions c.
Proof.
  intros Hd Hg Hcaps Hro Hc. unfold find_cuts_for_regions in Hc. rewrite !fold_push_spec in Hc.
  assert (Hwf : forall g, g ∈ regions -> Coor.wf g) by (intros g Hin; by apply (ro_inside _ _ Hro)).
  destruct Hc as [[Hc|(y & _ & Hlen & k & Hk & ->)]|(x & _ & Hlen & k & Hk & ->)]; [by apply not_elem_of_nil in Hc|..].
  - split; [|exists y; by left]. apply line_cut; try done. intros g Hin. destruct (Hwf g Hin). lia.
  - split; [|exists x; by right]. apply line_cut; try done. intros g Hin. destruct (Hwf g Hin). lia.
Qed.

Lemma example_regions : regions_ok Device.Example.device [Coor.slot 0 0; Coor.slot 1 0].
Proof.
  assert (Hin : forall g, g ∈ [Coor.slot 0 0; Coor.slot 1 0] -> g = Coor.slot 0 0 \/ g = Coor.slot 1 0).
  { intros g. rewrite !elem_of_cons, elem_of_nil. tauto. }
  split.
  - intros g [->| ->]%Hin; (split; [split; unfold U32_MAX; simpl; lia|simpl; lia]).
  - apply (bool_decide_unpack _). vm_compute. done.
  - intros a b [->| ->]%Hin [->| ->]%Hin Hne; try done; intros p [??] [??]; simpl in *; lia.
Qed.

Lemma cuts_are_physical_witness :
  exists c, c ∈ find_cuts_for_regions Device.Example.device [Coor.slot 0 0; Coor.slot 1 0] /\
    physical Device.Example.device [Coor.slot 0 0; Coor.slot 1 0] c /\ capacity c = 700.
Proof.
  assert (Hcaps : caps_typed Device.Example.device).
  { apply Forall_cons. split; [unfold in_u64, U64_MAX; simpl; lia|]. apply Forall_cons.
    split; [unfold in_u64, U64_MAX; simpl; lia|by apply Forall_nil]. }
  assert (Hc : mkCut "x=0" [Coor.slot 0 0] [Coor.slot 1 0] 700 ∈
    find_cuts_for_regions Device.Example.device [Coor.slot 0 0; Coor.slot 1 0]) by (vm_compute; left).
  exists (mkCut "x=0" [Coor.slot 0 0] [Coor.slot 1 0] 700). split; [exact Hc|]. split; [|reflexivity].
  exact (proj1 (cuts_are_physical _ _ _ example_typed example_complete Hcaps example_regions Hc)).
Defined.
