(* ===== verification/FloorGraph.v ===== *)
(** * The placement graph

    [tapa-floorplan/src/graph]: the graph the placement and routing programs
    run on, built from a flat task graph.  Task instances become vertices,
    internal FIFOs are charged to their consumer, memory interfaces become bank
    terminals and AXI nets, distributed control becomes a controller vertex and
    control nets; names are reserved on the way.  The builder is threaded
    explicitly; [vertices[i]] and [map[&key]] panic when absent. *)

From S2P Require Import Prelude RustStd BTreeMap Geometry Names Ir Connectivity Flatten.

Definition CONTROL_S_AXI_INSTANCE : string := "control_s_axi_U".

(** ** Data *)

Record AxiChannelWidths := mkWidths {
  read_address : Z; read_data : Z; write_address : Z; write_data : Z; write_response : Z }.

Definition physical_width (w : AxiChannelWidths) (c : AxiChannel) : Z :=
  match c with
  | ReadAddress => read_address w | ReadData => read_data w | WriteAddress => write_address w
  | WriteData => write_data w | WriteResponse => write_response w
  end.

Definition channels (w : AxiChannelWidths) : list (AxiChannel * Z) :=
  [(ReadAddress, read_address w); (ReadData, read_data w); (WriteAddress, write_address w);
   (WriteData, write_data w); (WriteResponse, write_response w)].

Definition enabled_channels (w : AxiChannelWidths) : list (AxiChannel * Z) :=
  List.filter (fun e => negb (e.2 =? 0)) (channels w).

Record MemoryInterface := mkMemory {
  mi_endpoint : AxiEndpoint;
  mi_bank : MemoryBank;
  channel_widths : AxiChannelWidths;
  bridge_instance : option string;
}.

Record ExpectedMemoryEndpoint := mkExpected { task_vertex : nat; child_category : ArgCategory }.

Record Vertex := mkVertex {
  v_name : string;
  v_area : Area;
  required_tag : option string;
  materialize : bool;
}.

Record PlacementEdge := mkEdge {
  e_src : nat; e_dst : nat; e_width : Z; forward_width : Z; reverse_width : Z }.

Record Stream := mkStreamNet {
  st_link : string; st_src : nat; st_dst : nat; st_width : Z; st_data_width : Z; st_depth : Z }.

Record AxiNet := mkAxiNet {
  an_endpoint : AxiEndpoint; an_bank : MemoryBank; an_channel : AxiChannel;
  an_src : nat; an_dst : nat; an_width : Z; payload_width : Z }.

Record ControlNet := mkControlNet {
  cn_instance : string; cn_channel : ControlChannel; cn_src : nat; cn_dst : nat; cn_width : Z }.

Record CoLocatedInstance := mkCoLocated { alias_name : string; host : nat }.

Record FloorGraph := mkFloorGraph {
  vertices : list Vertex;
  placement_edges : list PlacementEdge;
  streams : list Stream;
  axi_nets : list AxiNet;
  control_nets : list ControlNet;
  index : gmap string nat;
  co_located : list CoLocatedInstance;
}.

Inductive GraphError :=
| GMissingTop (name : string)
| MissingTaskDef (name : string)
| UnresolvedFifoWidth (fifo : string)
| FifoWidthMismatch (fifo : string) (producer consumer : Z)
| NameConflict (name first second : string)
| UnanchoredFifo (fifo : string)
| DanglingFifoEndpoint (fifo role definition : string) (idx : Z)
| ResourceOverflow (fifo : string)
| PlacementWidthOverflow (what : string)
| MissingHostRegion (instance host : string)
| MissingMemoryInterface (instance port top_port : string)
| UnknownMemoryInterface (instance port top_port : string)
| DuplicateMemoryInterface (instance port : string)
| UnsupportedMemoryInterface (port detail : string)
| InvalidAxiWidth (instance port : string) (channel : AxiChannel) (width : Z)
| UnrepresentableStreamName (fifo rtl : string)
| DuplicateVertex (name : string)
| DuplicateCanonicalName (name : string)
| SanitizedNameCollision (first second sanitized : string)
| GeneratedNameCollision (generated existing : string)
| ScalarMetadata (instance port detail : string)
| ControlWidthOverflow (instance : string) (channel : ControlChannel).

(** [ilog2] of a positive number. *)
Definition ilog2 (z : Z) : Z := Z.log2 z.

(** [fifo_area]; the [u64] arithmetic cannot overflow on [u32] inputs except
    in the products, which wrap. *)
Definition fifo_area (width depth : Z) : Area :=
  let log_term := 3 * ilog2 (Z.max depth 1) in
  if depth <? 128 then
    let lut_ram := width + wrap64 (width * saturating_sub depth 1) / 16 in
    let lut_logic := 15 + log_term in
    mkArea (lut_ram + lut_logic) (7 + log_term) 0 0 0
  else
    let count := depth / 512 + 1 in
    mkArea (wrap64 (width * count)) 0 (wrap64 (width * count) / 18) 0 0.

(** A loop over [child_instances]: definition, canonical name, index, instance.
    The iterator is lazy, so the index that does not fit [u32] panics when the
    loop gets to it. *)
Definition for_children {A} (f : A -> string * string * Z * TaskInstance -> res GraphError A) (acc : A) (top : Task) :
    res GraphError A :=
  try_fold (fun acc e =>
    let! index := u32_of_usize e.1.2 in
    f acc (e.1.1, canonical_name e.2 e.1.1 e.1.2, index, e.2)) acc (task_instances top).

(** ** The builder *)

Record DirectedWidth := mkDirected { forward : Z; reverse : Z }.

Record FloorGraphBuilder := mkBuilder {
  b_vertices : list Vertex;
  b_index : gmap string nat;
  task_endpoints : gmap (string * Z) nat;
  placement_widths : bmap (nat * nat) DirectedWidth;
  b_co_located : list CoLocatedInstance;
}.

Definition builder_default : FloorGraphBuilder := mkBuilder [] ∅ ∅ BMap.empty [].

Definition push_vertex (v : Vertex) (b : FloorGraphBuilder) : FloorGraphBuilder :=
  mkBuilder (b_vertices b ++ [v]) (<[v_name v := length (b_vertices b)]> (b_index b)) (task_endpoints b)
    (placement_widths b) (b_co_located b).

Definition push_alias (a : CoLocatedInstance) (b : FloorGraphBuilder) : FloorGraphBuilder :=
  mkBuilder (b_vertices b) (b_index b) (task_endpoints b) (placement_widths b) (b_co_located b ++ [a]).

Definition set_widths (w : bmap (nat * nat) DirectedWidth) (b : FloorGraphBuilder) : FloorGraphBuilder :=
  mkBuilder (b_vertices b) (b_index b) (task_endpoints b) w (b_co_located b).

(** One iteration of [add_task_vertices]. *)
Definition add_task_vertex (flat : TaskGraph) (b : FloorGraphBuilder) (e : string * string * Z * TaskInstance) :
    res GraphError FloorGraphBuilder :=
  let '(def_name, name, inst_idx, _) := e in
  let! def := ok_or (BMap.get def_name (graph_tasks flat)) (MissingTaskDef def_name) in
  let area := default area_default (self_area def) in
  let vertex_index := length (b_vertices b) in
  if bool_decide (is_Some (b_index b !! name)) then Err (DuplicateCanonicalName name) else
  Ok (mkBuilder (b_vertices b ++ [mkVertex name area None true])
        (<[name := vertex_index]> (b_index b))
        (<[(def_name, inst_idx) := vertex_index]> (task_endpoints b))
        (placement_widths b) (b_co_located b)).

Definition add_task_vertices (flat : TaskGraph) (top : Task) (b : FloorGraphBuilder) :
    res GraphError FloorGraphBuilder :=
  for_children (add_task_vertex flat) b top.

(** [add_placement_width]; [None] on overflow. *)
Definition add_placement_width (src dst : nat) (width : Z) (b : FloorGraphBuilder) : option FloorGraphBuilder :=
  let k := (Nat.min src dst, Nat.max src dst) in
  let entry := default (mkDirected 0 0) (BMap.get k (placement_widths b)) in
  let? entry :=
    (if Nat.ltb src dst
     then let? f := checked_add32 (forward entry) width in Some (mkDirected f (reverse entry))
     else let? r := checked_add32 (reverse entry) width in Some (mkDirected (forward entry) r)) in
  let? _ := checked_add32 (forward entry) (reverse entry) in
  Some (set_widths (BMap.insert k entry (placement_widths b)) b).

(** *** FIFOs *)

Record FifoArgWidths := mkArgWidths { w_producer : option Z; w_consumer : option Z }.

Definition index_binding (idx : bmap string FifoArgWidths) (b : PortBinding) : bmap string FifoArgWidths :=
  if negb (is_stream (cat (argument b))) then idx else
  match bound_port b, arg_name (argument b) with
  | Some port, Some fifo =>
      let entry := default (mkArgWidths None None) (BMap.get fifo idx) in
      let entry :=
        if is_output_stream (cat (argument b))
        then mkArgWidths (match w_producer entry with Some w => Some w | None => Some (port_width port) end) (w_consumer entry)
        else mkArgWidths (w_producer entry) (match w_consumer entry with Some w => Some w | None => Some (port_width port) end) in
      BMap.insert fifo entry idx
  | _, _ => idx
  end.

Definition index_fifo_arg_widths (flat : TaskGraph) (top : Task) : bmap string FifoArgWidths :=
  fold_left index_binding (bindings flat top) BMap.empty.

Definition resolve_fifo_endpoint (endpoints : gmap (string * Z) nat) (fifo_name role : string)
    (endpoint : option EndpointRef) : res GraphError (option nat) :=
  match endpoint with
  | None => Ok None
  | Some r =>
      let! v := ok_or (endpoints !! (ep_task r, ep_index r))
                      (DanglingFifoEndpoint fifo_name role (ep_task r) (ep_index r)) in
      Ok (Some v)
  end.

Definition resolve_fifo_data_width (idx : bmap string FifoArgWidths) (fifo_name : string) : res GraphError Z :=
  let widths := default (mkArgWidths None None) (BMap.get fifo_name idx) in
  let! payload :=
    match w_producer widths, w_consumer widths with
    | Some p, Some c => if negb (p =? c) then Err (FifoWidthMismatch fifo_name p c) else Ok p
    | Some p, None => Ok p
    | None, Some c => Ok c
    | None, None => Err (UnresolvedFifoWidth fifo_name)
    end in
  ok_or (checked_add32 payload 1) (UnresolvedFifoWidth fifo_name).

(** [self.vertices[host].area = ...]. *)
Definition charge (host : nat) (a : Area) (err : GraphError) (b : FloorGraphBuilder) : res GraphError FloorGraphBuilder :=
  let! v := expect (b_vertices b !! host) in
  let! area := ok_or (Area.checked_add (v_area v) a) err in
  Ok (mkBuilder (<[host := mkVertex (v_name v) area (required_tag v) (materialize v)]> (b_vertices b))
        (b_index b) (task_endpoints b) (placement_widths b) (b_co_located b)).

(** One iteration of [cluster_internal_fifos]. *)
Definition cluster_fifo (widths : bmap string FifoArgWidths) (acc : FloorGraphBuilder * list Stream)
    (e : string * InterconnectDefinition) : res GraphError (FloorGraphBuilder * list Stream) :=
  let '(b, ss) := acc in
  let '(fifo_name, fifo) := e in
  match fifo_depth fifo with
  | None => Ok (b, ss)
  | Some depth =>
      let! data_width := resolve_fifo_data_width widths fifo_name in
      let! physical := ok_or (checked_add32 data_width 2) (UnresolvedFifoWidth fifo_name) in
      let! src := resolve_fifo_endpoint (task_endpoints b) fifo_name "producer" (produced_by fifo) in
      let! dst := resolve_fifo_endpoint (task_endpoints b) fifo_name "consumer" (consumed_by fifo) in
      let! host := ok_or (match dst with Some d => Some d | None => src end) (UnanchoredFifo fifo_name) in
      let! b := charge host (fifo_area data_width (floorplanned_fifo_storage_depth depth)) (ResourceOverflow fifo_name) b in
      let b := push_alias (mkCoLocated fifo_name host) b in
      match src, dst with
      | Some s, Some d =>
          if Nat.eqb s d then Ok (b, ss) else
          let! b := ok_or (add_placement_width s d physical b) (PlacementWidthOverflow fifo_name) in
          Ok (b, ss ++ [mkStreamNet fifo_name s d physical data_width depth])
      | _, _ => Ok (b, ss)
      end
  end.

Definition cluster_internal_fifos (flat : TaskGraph) (top : Task) (b : FloorGraphBuilder) :
    res GraphError (FloorGraphBuilder * list Stream) :=
  try_fold (cluster_fifo (index_fifo_arg_widths flat top)) (b, []) (fifos top).

(** ** Name reservation ([validate.rs]) *)

Record OccupiedName := mkOccupied { owner : string; description : string }.

Definition check_sanitized (seen : bmap string string) (e : string * string * Z * TaskInstance) :
    res GraphError (bmap string string) :=
  let canonical := e.1.1.2 in
  let sanitized := sanitize_identifier_name canonical in
  match BMap.get sanitized seen with
  | Some first =>
      if negb (bool_decide (first = canonical)) then Err (SanitizedNameCollision first canonical sanitized)
      else Ok (BMap.insert sanitized canonical seen)
  | None => Ok (BMap.insert sanitized canonical seen)
  end.

Definition validate_sanitized_instance_names (top : Task) : res GraphError unit :=
  let! _ := for_children check_sanitized BMap.empty top in Ok tt.

Definition reserve_generated_name (occupied : bmap string OccupiedName) (e : string * string) :
    res GraphError (bmap string OccupiedName) :=
  let '(generated, own) := e in
  match BMap.get generated occupied with
  | Some existing => Err (GeneratedNameCollision generated (description existing))
  | None => Ok (BMap.insert generated (mkOccupied generated own) occupied)
  end.

(** One claim: name, owner, description. *)
Definition occupy (occupied : bmap string OccupiedName) (e : string * string * string) :
    res GraphError (bmap string OccupiedName) :=
  let '(name, own, desc) := e in
  match BMap.get name occupied with
  | Some existing =>
      if negb (bool_decide (owner existing = own)) then Err (NameConflict name (description existing) desc) else Ok occupied
  | None => Ok (BMap.insert name (mkOccupied own desc) occupied)
  end.

Definition vertex_claims (name : string) : list (string * string * string) :=
  let own := "vertex:" +:+ name in
  let desc := "placement vertex `" +:+ name +:+ "`" in
  [(name, own, desc); (sanitize_identifier_name name, own, desc)].

Definition stream_claims (fifo : string) : list (string * string * string) :=
  let own := "stream:" +:+ fifo in
  let desc := "stream `" +:+ fifo +:+ "`" in
  [(fifo, own, desc); (sanitize_array_name fifo +:+ "_fifo", own, desc)].

Definition alias_claims (name : string) : list (string * string * string) :=
  let own := "alias:" +:+ name in
  let desc := "co-located RTL instance `" +:+ name +:+ "`" in
  [(name, own, desc); (sanitize_identifier_name name, own, desc)].

Definition occupy_stream (occupied : bmap string OccupiedName) (fifo : string) :
    res GraphError (bmap string OccupiedName) :=
  let rtl := sanitize_array_name fifo +:+ "_fifo" in
  if negb (bool_decide (sanitize_identifier_name rtl = rtl)) then Err (UnrepresentableStreamName fifo rtl)
  else try_fold occupy occupied (stream_claims fifo).

Definition occupied_rtl_names (top : Task) (vs : list Vertex) (aliases : list CoLocatedInstance) :
    res GraphError (bmap string OccupiedName) :=
  let! o := try_fold (fun o v => try_fold occupy o (vertex_claims (v_name v))) BMap.empty vs in
  let! o := try_fold occupy_stream o (BMap.keys (fifos top)) in
  try_fold (fun o a =>
    if BMap.contains_key (alias_name a) (fifos top) then Ok o
    else try_fold occupy o (alias_claims (alias_name a))) o aliases.

Definition reserve_axi_pipeline_names (occupied : bmap string OccupiedName) (i : MemoryInterface) :
    res GraphError (bmap string OccupiedName) :=
  try_fold reserve_generated_name occupied
    (map (fun e => (axi_pipeline_instance_name (mi_endpoint i) e.1,
                    axi_debug e.1 +:+ " AXI pipeline for `" +:+ ep_top_port (mi_endpoint i) +:+ "`"))
         (enabled_channels (channel_widths i))).

(** Upper scopes other than the top: the ones that own a controller. *)
Definition upper_scopes (p : FlatProjection) : list TaskOccurrence :=
  List.filter (fun o => match occ_parent o, flat_endpoint o with Some _, None => true | _, _ => false end)
              (occurrences p).

Definition scope_controllers (o : TaskOccurrence) : list string :=
  [scope_controller_instance_name (global_name o); local_controller_instance_name (global_name o)].

Definition control_names (e : string * string * Z * TaskInstance) : list (string * string) :=
  let '(_, canonical, _, inst) := e in
  (local_controller_instance_name canonical, "local controller for `" +:+ canonical +:+ "`")
  :: map (fun c => (control_pipeline_instance_name canonical c,
                    control_debug c +:+ " pipeline for `" +:+ canonical +:+ "`"))
         ([Launch; Reset] ++ (if 0 <=? inst_step inst then [Completion] else [])).

Definition validate_control_names (top : Task) (memory : list MemoryInterface) (has_s_axi_control : bool)
    (vs : list Vertex) (aliases : list CoLocatedInstance) (projection : option FlatProjection) : res GraphError unit :=
  let! o := occupied_rtl_names top vs aliases in
  let! o := try_fold reserve_axi_pipeline_names o memory in
  let! o := reserve_generated_name o (global_controller_instance_name, "global controller") in
  let! o := (if has_s_axi_control then reserve_generated_name o (CONTROL_S_AXI_INSTANCE, "S-AXI control block") else Ok o) in
  let! o := for_children (fun o e => try_fold reserve_generated_name o (control_names e)) o top in
  let! _ := (match projection with
             | Some p => try_fold (fun o s => try_fold reserve_generated_name o
                 (map (fun n => (n, "upper controller for `" +:+ global_name s +:+ "`")) (scope_controllers s))) o (upper_scopes p)
             | None => Ok o
             end) in
  Ok tt.

(** ** Memory interfaces *)

Definition bad_memory {A} (port detail : string) : res GraphError A := Err (UnsupportedMemoryInterface port detail).

Definition validate_memory_interface_shape (i : MemoryInterface) (e : ExpectedMemoryEndpoint) : res GraphError unit :=
  let ep := mi_endpoint i in
  let who := "`" +:+ ep_instance ep +:+ "." +:+ ep_port ep +:+ "`" in
  let! _ :=
    match child_category e, bridge_instance i with
    | Mmap, Some _ => bad_memory (ep_top_port ep) ("plain mmap endpoint " +:+ who +:+ " cannot own an async bridge")
    | AsyncMmap, Some actual =>
        let stable := async_mmap_bridge_instance_name (ep_top_port ep) in
        if negb (bool_decide (actual = stable))
        then bad_memory (ep_top_port ep)
               ("async bridge name `" +:+ actual +:+ "` does not match stable hierarchy `" +:+ stable +:+ "`")
        else Ok tt
    | (Mmap | AsyncMmap), None => Ok tt
    | _, _ => Panic
    end in
  let w := channel_widths i in
  let ra := negb (read_address w =? 0) in
  let rd := negb (read_data w =? 0) in
  let wa := negb (write_address w =? 0) in
  let wd := negb (write_data w =? 0) in
  let wr := negb (write_response w =? 0) in
  if negb (eqb ra rd) then bad_memory (ep_top_port ep) ("endpoint " +:+ who +:+ " has a partial read channel group") else
  if negb (eqb wa wd) || negb (eqb wa wr)
  then bad_memory (ep_top_port ep) ("endpoint " +:+ who +:+ " has a partial write channel group") else
  if match bridge_instance i with None => true | Some _ => false end && (negb ra || negb wa)
  then bad_memory (ep_top_port ep) ("direct compact M-AXI endpoint " +:+ who +:+ " must expose all five channels")
  else Ok tt.

Definition is_some {A} (o : option A) : bool := match o with Some _ => true | None => false end.

(** The accumulators of [expected_memory_interfaces]. *)
Definition ExpectedAcc : Type := (bmap AxiEndpoint ExpectedMemoryEndpoint * bmap string (list string)).

Definition expect_argument (top task : Task) (instance_name : string) (vertex : nat) (acc : ExpectedAcc)
    (e : string * Arg) : res GraphError ExpectedAcc :=
  let '(child_port, a) := e in
  if negb (is_direct_mmap (cat a)) then Ok acc else
  let who := instance_name +:+ "." +:+ child_port in
  let! parent_port := ok_or (arg_name a)
    (UnsupportedMemoryInterface child_port ("child endpoint `" +:+ who +:+ "` binds a constant, not a top-level mmap")) in
  let! child := ok_or (task_port task child_port)
    (UnsupportedMemoryInterface parent_port ("child endpoint `" +:+ who +:+ "` has no port metadata")) in
  let! parent := ok_or (task_port top parent_port)
    (UnsupportedMemoryInterface parent_port "top-level mmap port metadata is missing") in
  if negb (bool_decide (port_cat child = cat a)) || negb (bool_decide (port_cat parent = Mmap))
  then bad_memory parent_port ("child binding category `" +:+ category_str (cat a) +:+ "` must match child metadata `"
         +:+ category_str (port_cat child) +:+ "` and connect to a plain top mmap") else
  if is_some (port_chan_count child) || is_some (port_chan_size child)
     || is_some (port_chan_count parent) || is_some (port_chan_size parent)
  then bad_memory parent_port "hierarchical mmap channels are not modeled" else
  let users := default [] (BMap.get parent_port acc.2) ++ [who] in
  Ok (BMap.insert (mkAxiEndpoint instance_name child_port parent_port) (mkExpected vertex (port_cat child)) acc.1,
      BMap.insert parent_port users acc.2).

Definition expect_instance (flat : TaskGraph) (top : Task) (endpoints : gmap (string * Z) nat) (acc : ExpectedAcc)
    (e : string * string * Z * TaskInstance) : res GraphError ExpectedAcc :=
  let '(definition, instance_name, endpoint_index, inst) := e in
  let! task := ok_or (BMap.get definition (graph_tasks flat)) (MissingTaskDef definition) in
  let! vertex := expect (endpoints !! (definition, endpoint_index)) in
  try_fold (expect_argument top task instance_name vertex) acc (inst_args inst).

Definition join (sep : string) (l : list string) : string :=
  match l with [] => "" | x :: l' => fold_left (fun a s => a +:+ sep +:+ s) l' x end.

Definition expected_memory_interfaces (flat : TaskGraph) (top : Task) (endpoints : gmap (string * Z) nat) :
    res GraphError (bmap AxiEndpoint ExpectedMemoryEndpoint) :=
  let! (expected, users) := for_children (expect_instance flat top endpoints) (BMap.empty, BMap.empty) top in
  match find_first (fun e => Nat.ltb 1 (length e.2)) users with
  | Some (top_port, us) => bad_memory top_port ("shared by " +:+ join ", " us +:+ " child endpoints")
  | None => Ok expected
  end.

Definition provide (m : bmap AxiEndpoint MemoryInterface) (i : MemoryInterface) :
    res GraphError (bmap AxiEndpoint MemoryInterface) :=
  if BMap.contains_key (mi_endpoint i) m
  then Err (DuplicateMemoryInterface (ep_instance (mi_endpoint i)) (ep_port (mi_endpoint i)))
  else Ok (BMap.insert (mi_endpoint i) i m).

Definition bank_kind_name (b : MemoryBank) : string := match bank_kind b with Hbm => "hbm" | Ddr => "ddr" end.
Definition bank_terminal_name (b : MemoryBank) : string := "__tapa_bank_" +:+ bank_kind_name b +:+ "_" +:+ show (bank_index b).

(** Reserving the names of one interface and co-locating its bridge. *)
Definition reserve_interface (provided : bmap AxiEndpoint MemoryInterface)
    (acc : FloorGraphBuilder * bmap string OccupiedName) (e : AxiEndpoint * ExpectedMemoryEndpoint) :
    res GraphError (FloorGraphBuilder * bmap string OccupiedName) :=
  let '(b, occupied) := acc in
  let '(endpoint, expected) := e in
  let! interface := expect (BMap.get endpoint provided) in
  let! _ := validate_memory_interface_shape interface expected in
  let! occupied := reserve_axi_pipeline_names occupied interface in
  match bridge_instance interface with
  | None => Ok (b, occupied)
  | Some bridge =>
      let! occupied := reserve_generated_name occupied (bridge, "async mmap bridge for `" +:+ ep_top_port endpoint +:+ "`") in
      Ok (push_alias (mkCoLocated bridge (task_vertex expected)) b, occupied)
  end.

Definition channel_ends (task terminal : nat) (c : AxiChannel) : nat * nat :=
  match c with
  | ReadAddress | WriteAddress | WriteData => (task, terminal)
  | ReadData | WriteResponse => (terminal, task)
  end.

(** One enabled channel of an interface. *)
Definition add_channel (endpoint : AxiEndpoint) (bank : MemoryBank) (task terminal : nat)
    (acc : FloorGraphBuilder * list AxiNet) (e : AxiChannel * Z) : res GraphError (FloorGraphBuilder * list AxiNet) :=
  let '(b, nets) := acc in
  let '(channel, width) := e in
  let payload := let? p := checked_sub32 width 2 in if 0 <? p then Some p else None in
  let! payload := ok_or payload (InvalidAxiWidth (ep_instance endpoint) (ep_port endpoint) channel width) in
  let '(src, dst) := channel_ends task terminal channel in
  let! b := ok_or (add_placement_width src dst width b)
    (PlacementWidthOverflow (ep_instance endpoint +:+ "." +:+ ep_port endpoint +:+ " " +:+ axi_debug channel)) in
  Ok (b, nets ++ [mkAxiNet endpoint bank channel src dst width payload]).

Definition terminal_of (bank : MemoryBank) (b : FloorGraphBuilder) (terminals : bmap MemoryBank nat) :
    res GraphError (FloorGraphBuilder * bmap MemoryBank nat * nat) :=
  match BMap.get bank terminals with
  | Some t => Ok (b, terminals, t)
  | None =>
      let name := bank_terminal_name bank in
      if bool_decide (is_Some (b_index b !! name)) then Err (DuplicateVertex name) else
      let t := length (b_vertices b) in
      Ok (push_vertex (mkVertex name area_default (Some (bank_display bank)) false) b, BMap.insert bank t terminals, t)
  end.

Definition add_interface (provided : bmap AxiEndpoint MemoryInterface)
    (acc : FloorGraphBuilder * bmap MemoryBank nat * list AxiNet) (e : AxiEndpoint * ExpectedMemoryEndpoint) :
    res GraphError (FloorGraphBuilder * bmap MemoryBank nat * list AxiNet) :=
  let '(b, terminals, nets) := acc in
  let '(endpoint, expected) := e in
  let! interface := expect (BMap.get endpoint provided) in
  match enabled_channels (channel_widths interface) with
  | [] => Ok (b, terminals, nets)
  | chans =>
      let! (b, terminals, terminal) := terminal_of (mi_bank interface) b terminals in
      let! (b, nets) := try_fold (add_channel endpoint (mi_bank interface) (task_vertex expected) terminal) (b, nets) chans in
      Ok (b, terminals, nets)
  end.

Definition add_memory_interfaces (flat : TaskGraph) (top : Task) (memory : list MemoryInterface) (b : FloorGraphBuilder) :
    res GraphError (FloorGraphBuilder * list AxiNet) :=
  let! expected := expected_memory_interfaces flat top (task_endpoints b) in
  let! provided := try_fold provide BMap.empty memory in
  let! _ := try_each (fun ep => if BMap.contains_key ep provided then Ok tt
    else Err (MissingMemoryInterface (ep_instance ep) (ep_port ep) (ep_top_port ep))) (BMap.keys expected) in
  let! _ := try_each (fun ep => if BMap.contains_key ep expected then Ok tt
    else Err (UnknownMemoryInterface (ep_instance ep) (ep_port ep) (ep_top_port ep))) (BMap.keys provided) in
  let! occupied := occupied_rtl_names top (b_vertices b) (b_co_located b) in
  let! (b, _) := try_fold (reserve_interface provided) (b, occupied) expected in
  let! (b, _, nets) := try_fold (add_interface provided) (b, BMap.empty, []) expected in
  Ok (b, nets).

(** ** Distributed control *)

Definition scalar_error {A} (instance port detail : string) : res GraphError A := Err (ScalarMetadata instance port detail).

(** The loop over the scalar ports of the child. *)
Definition launch_port (inst : TaskInstance) (name : string) (width : Z) (p : Port) : res GraphError Z :=
  let! a := ok_or (BMap.get (port_name p) (inst_args inst))
    (ScalarMetadata name (port_name p) "child scalar port has no instance argument") in
  if negb (is_scalar (cat a)) then
    scalar_error name (port_name p) ("child port is scalar but its instance argument is " +:+ category_str (cat a)) else
  if port_width p =? 0 then scalar_error name (port_name p) "scalar width must be greater than zero" else
  ok_or (checked_add32 width (port_width p)) (ControlWidthOverflow name Launch).

(** The loop over the arguments. *)
Definition launch_arg (task : Task) (name : string) (width : Z) (e : string * Arg) : res GraphError Z :=
  let '(pname, a) := e in
  if is_scalar (cat a) &&
     match find_first (fun p => bool_decide (port_name p = pname)) (ports task) with
     | None => true
     | Some p => negb (is_scalar (port_cat p))
     end
  then scalar_error name pname "instance argument is scalar but child scalar port metadata is missing" else
  if is_direct_mmap (cat a) then ok_or (checked_add32 width 64) (ControlWidthOverflow name Launch) else Ok width.

Definition control_launch_width (task : Task) (inst : TaskInstance) (name : string) : res GraphError Z :=
  let width := if inst_step inst <? 0 then 1 else 2 in
  let! width := try_fold (launch_port inst name) width (List.filter (fun p => is_scalar (port_cat p)) (ports task)) in
  try_fold (launch_arg task name) width (inst_args inst).

Definition add_control_net (instance : string) (channel : ControlChannel) (src dst : nat) (width : Z)
    (acc : FloorGraphBuilder * list ControlNet) : res GraphError (FloorGraphBuilder * list ControlNet) :=
  let! b := ok_or (add_placement_width src dst width acc.1) (ControlWidthOverflow instance channel) in
  Ok (b, acc.2 ++ [mkControlNet instance channel src dst width]).

(** One child instance of [add_control_interface]. *)
Definition add_control_child (flat : TaskGraph) (global : nat) (acc : FloorGraphBuilder * list ControlNet)
    (e : string * string * Z * TaskInstance) : res GraphError (FloorGraphBuilder * list ControlNet) :=
  let '(b, nets) := acc in
  let '(definition, canonical, endpoint_index, inst) := e in
  let! task := ok_or (BMap.get definition (graph_tasks flat)) (MissingTaskDef definition) in
  let! child := expect (task_endpoints b !! (definition, endpoint_index)) in
  let b := push_alias (mkCoLocated (local_controller_instance_name canonical) child) b in
  let! launch_width := control_launch_width task inst canonical in
  let! acc := add_control_net canonical Launch global child launch_width (b, nets) in
  let! acc := add_control_net canonical Reset global child 1 acc in
  if 0 <=? inst_step inst then add_control_net canonical Completion child global 1 acc else Ok acc.

Definition add_control_interface (flat : TaskGraph) (top : Task) (memory : list MemoryInterface)
    (has_s_axi_control : bool) (global_anchor : option string) (projection : option FlatProjection)
    (b : FloorGraphBuilder) : res GraphError (FloorGraphBuilder * list ControlNet) :=
  let! _ := validate_control_names top memory has_s_axi_control (b_vertices b) (b_co_located b) projection in
  if bool_decide (is_Some (b_index b !! global_controller_instance_name))
  then Err (GeneratedNameCollision global_controller_instance_name "placement vertex") else
  let global := length (b_vertices b) in
  let b := push_vertex (mkVertex global_controller_instance_name area_default global_anchor true) b in
  let b := if has_s_axi_control then push_alias (mkCoLocated CONTROL_S_AXI_INSTANCE global) b else b in
  let b := match projection with
           | Some p => fold_left (fun b n => push_alias (mkCoLocated n global) b) (flat_map scope_controllers (upper_scopes p)) b
           | None => b
           end in
  for_children (add_control_child flat global) (b, []) top.

(** ** Assembly ([query.rs]) *)

Definition finish (b : FloorGraphBuilder) : list PlacementEdge :=
  map (fun e => mkEdge e.1.1 e.1.2 (wrap32 (forward e.2 + reverse e.2)) (forward e.2) (reverse e.2)) (placement_widths b).

Definition build_with_scopes (flat : TaskGraph) (memory : list MemoryInterface) (control : option bool)
    (global_anchor : option string) (projection : option FlatProjection) : res GraphError FloorGraph :=
  let! top := ok_or (BMap.get (top flat) (graph_tasks flat)) (GMissingTop (top flat)) in
  let! b := add_task_vertices flat top builder_default in
  let! _ := validate_sanitized_instance_names top in
  let! (b, ss) := cluster_internal_fifos flat top b in
  let! (b, axi) := add_memory_interfaces flat top memory b in
  let has_children := match projection with
                      | Some p => Nat.ltb 1 (length (occurrences p))
                      | None => match tasks top with [] => false | _ => true end
                      end in
  let! (b, ctl) :=
    match control with
    | Some has_s_axi => if has_children then add_control_interface flat top memory has_s_axi global_anchor projection b
                        else Ok (b, [])
    | None => Ok (b, [])
    end in
  let! _ := occupied_rtl_names top (b_vertices b) (b_co_located b) in
  Ok (mkFloorGraph (b_vertices b) (finish b) ss axi ctl (b_index b) (b_co_located b)).

Definition build_with_projection (p : FlatProjection) (memory : list MemoryInterface) (control : option bool)
    (global_anchor : option string) : res GraphError FloorGraph :=
  build_with_scopes (flat p) memory control global_anchor (Some p).

Definition index_of (g : FloorGraph) (name : string) : option nat := index g !! name.

(** One alias of [materialize_co_locations]. *)
Definition materialize_alias (g : FloorGraph) (regions : bmap string string) (a : CoLocatedInstance) :
    res GraphError (bmap string string) :=
  let! h := expect (vertices g !! host a) in
  let! region := ok_or (BMap.get (v_name h) regions) (MissingHostRegion (alias_name a) (v_name h)) in
  match BMap.get (alias_name a) regions with
  | Some existing => Err (NameConflict (alias_name a) ("the instance already placed in `" +:+ existing +:+ "`")
                                       ("co-located alias of host `" +:+ v_name h +:+ "`"))
  | None => Ok (BMap.insert (alias_name a) region regions)
  end.

Definition materialize_co_locations (g : FloorGraph) (regions : bmap string string) : res GraphError (bmap string string) :=
  try_fold (materialize_alias g) regions (co_located g).

(** [remove_transient_regions]; [self.vertices[vertex]] panics out of range. *)
Definition keeps_region {E} (g : FloorGraph) (name : string) : res E bool :=
  match index g !! name with
  | None => Ok true
  | Some v => let! vx := expect (vertices g !! v) in Ok (materialize vx)
  end.

Fixpoint remove_transient_regions {E} (g : FloorGraph) (regions : bmap string string) : res E (bmap string string) :=
  match regions with
  | [] => Ok []
  | (name, region) :: rs =>
      let! keep := keeps_region g name in
      let! rest := remove_transient_regions g rs in
      Ok (if keep then (name, region) :: rest else rest)
  end.
