(* ===== verification/FloorGraphSpec.v ===== *)
(** * Correctness of the placement graph

    Invariants of the builder, kept by every pass: the name index is a
    bijection with the vertices, nets and aliases refer to existing vertices,
    and the accumulated placement widths are exactly the widths of the nets
    that cross each vertex pair. *)

From S2P Require Import Prelude RustStd BTreeMap Geometry Names Ir Connectivity Flatten FloorGraph.

(** A directed net: source, destination, width. *)
Definition Net : Type := nat * nat * Z.
Definition net_src (n : Net) : nat := n.1.1.
Definition net_dst (n : Net) : nat := n.1.2.
Definition net_width (n : Net) : Z := n.2.

(** Total width flowing from [i] to [j]. *)
Definition flow (nets : list Net) (i j : nat) : Z :=
  fold_right (fun n a => (if bool_decide (net_src n = i /\ net_dst n = j) then net_width n else 0) + a) 0 nets.

Lemma flow_app l1 l2 i j : flow (l1 ++ l2) i j = flow l1 i j + flow l2 i j.
Proof. induction l1 as [|n l1 IH]; simpl; [done|]. lia. Qed.

Lemma flow_one s d w i j : flow [(s, d, w)] i j = if bool_decide (s = i /\ d = j) then w else 0.
Proof. unfold flow. simpl. unfold net_src, net_dst, net_width. simpl. case_bool_decide; lia. Qed.

Definition entry_of (m : bmap (nat * nat) DirectedWidth) (i j : nat) : DirectedWidth :=
  default (mkDirected 0 0) (BMap.get (i, j) m).

(** The accumulated widths are the flows of [nets]. *)
Record widths_ok (m : bmap (nat * nat) DirectedWidth) (nets : list Net) : Prop := {
  wo_wf : BMap.wf m;
  wo_forward : forall i j, (i < j)%nat -> forward (entry_of m i j) = flow nets i j;
  wo_reverse : forall i j, (i < j)%nat -> reverse (entry_of m i j) = flow nets j i;
  wo_range : forall i j, 0 <= forward (entry_of m i j) /\ 0 <= reverse (entry_of m i j) /\
               forward (entry_of m i j) + reverse (entry_of m i j) <= U32_MAX;
  wo_keys : forall k, In k (BMap.keys m) -> (k.1 < k.2)%nat /\
               exists n, n ∈ nets /\ (Nat.min (net_src n) (net_dst n), Nat.max (net_src n) (net_dst n)) = k;
  wo_nets : forall n, n ∈ nets -> In (Nat.min (net_src n) (net_dst n), Nat.max (net_src n) (net_dst n)) (BMap.keys m);
}.

Lemma widths_ok_empty : widths_ok BMap.empty [].
Proof.
  split.
  - apply BMap.wf_nil.
  - done.
  - done.
  - intros i j. unfold entry_of, U32_MAX. simpl. lia.
  - intros k [].
  - intros n Hn. by apply not_elem_of_nil in Hn.
Qed.

Lemma entry_of_insert m k e i j :
  entry_of (BMap.insert k e m) i j = if decide ((i, j) = k) then e else entry_of m i j.
Proof. unfold entry_of. rewrite BMap.get_insert. by destruct (decide _). Qed.

(** Adding one net. *)
Lemma add_placement_width_spec src dst width b b' nets :
  widths_ok (placement_widths b) nets -> src <> dst -> 0 <= width ->
  add_placement_width src dst width b = Some b' ->
  widths_ok (placement_widths b') (nets ++ [(src, dst, width)]) /\
  b' = set_widths (placement_widths b') b.
Proof.
  intros [Hwf Hf Hr Hrange Hkeys Hnets] Hne Hw. unfold add_placement_width.
  set (k := (Nat.min src dst, Nat.max src dst)). fold (entry_of (placement_widths b) k.1 k.2).
  replace (default _ (BMap.get k _)) with (entry_of (placement_widths b) k.1 k.2) by done.
  set (old := entry_of (placement_widths b) k.1 k.2).
  destruct (Hrange k.1 k.2) as (Hr1 & Hr2 & Hr3). fold old in Hr1, Hr2, Hr3.
  set (upd := if Nat.ltb src dst then _ else _). destruct upd as [e|] eqn:He; [|done].
  destruct (checked_add32 (forward e) (reverse e)) as [t|] eqn:Ht; [|done]. intros [= <-]. simpl.
  assert (Hlt : (k.1 < k.2)%nat) by (unfold k; simpl; lia).
  assert (Hfe : forward e = forward old + (if Nat.ltb src dst then width else 0) /\
                reverse e = reverse old + (if Nat.ltb src dst then 0 else width)).
  { unfold upd, checked_add32 in He. destruct (Nat.ltb src dst).
    - destruct (fits U32_MAX (forward old + width)) eqn:E; [|done]. res_inv. lia.
    - destruct (fits U32_MAX (reverse old + width)) eqn:E; [|done]. res_inv. lia. }
  unfold checked_add32 in Ht. res_inv. split; [|by destruct b].
  assert (Hent : forall i j, (i < j)%nat -> entry_of (BMap.insert k e (placement_widths b)) i j =
    if decide ((i, j) = k) then e else entry_of (placement_widths b) i j) by (intros; apply entry_of_insert).
  split.
  - by apply BMap.wf_insert.
  - intros i j Hij. rewrite Hent, flow_app, flow_one, <- Hf by done. destruct (decide _) as [Heq|Hn].
    + unfold k in Heq. injection Heq as -> ->. rewrite (proj1 Hfe). change (forward old) with (forward (entry_of (placement_widths b) (Nat.min src dst) (Nat.max src dst))).
      destruct (Nat.ltb_spec src dst); case_bool_decide; lia.
    + rewrite bool_decide_eq_false_2; [lia|]. intros [-> ->]. apply Hn. unfold k. f_equal; lia.
  - intros i j Hij. rewrite Hent, flow_app, flow_one, <- Hr by done. destruct (decide _) as [Heq|Hn].
    + unfold k in Heq. injection Heq as -> ->. rewrite (proj2 Hfe). change (reverse old) with (reverse (entry_of (placement_widths b) (Nat.min src dst) (Nat.max src dst))).
      destruct (Nat.ltb_spec src dst); case_bool_decide; lia.
    + rewrite bool_decide_eq_false_2; [lia|]. intros [-> ->]. apply Hn. unfold k. f_equal; lia.
  - intros i j. rewrite entry_of_insert. destruct (decide _); [|apply Hrange].
    destruct Hfe as [Hf1 Hf2]. destruct (Nat.ltb src dst); lia.
  - intros k' [->|Hin]%BMap.In_keys_insert.
    + split; [done|]. exists (src, dst, width). split; [apply elem_of_app; right; by left|done].
    + destruct (Hkeys k' Hin) as (? & n & ? & ?). split; [done|]. exists n. split; [apply elem_of_app; by left|done].
  - intros n [Hin| ->%list_elem_of_singleton]%elem_of_app; apply BMap.In_keys_insert; [right; by apply Hnets|by left].
Qed.

(** ** The builder invariant

    [vs0] are the task vertices: the only ones with an area, and a prefix of the
    vertices once they have all been added. *)
Record builder_ok (vs0 : list Vertex) (b : FloorGraphBuilder) (nets : list Net) : Prop := {
  bo_widths : widths_ok (placement_widths b) nets;
  bo_index : forall name v, b_index b !! name = Some v <-> exists vx, b_vertices b !! v = Some vx /\ v_name vx = name;
  bo_endpoints : forall r v, task_endpoints b !! r = Some v -> (v < length vs0)%nat;
  bo_prefix : vs0 `prefix_of` b_vertices b;
  bo_new : forall v vx, (length vs0 <= v)%nat -> b_vertices b !! v = Some vx -> v_area vx = area_default;
  bo_hosts : forall a, a ∈ b_co_located b -> (host a < length (b_vertices b))%nat;
  bo_nets : forall n, n ∈ nets -> (net_src n < length (b_vertices b))%nat /\ (net_dst n < length (b_vertices b))%nat /\
              net_src n <> net_dst n /\ 0 <= net_width n;
}.

Lemma builder_ok_length vs0 b nets : builder_ok vs0 b nets -> (length vs0 <= length (b_vertices b))%nat.
Proof. intros H. apply prefix_length, (bo_prefix _ _ _ H). Qed.

(** Appending a vertex with a new name keeps the index exact. *)
Lemma index_snoc (vs : list Vertex) (idx : gmap string nat) vx :
  (forall name v, idx !! name = Some v <-> exists vx, vs !! v = Some vx /\ v_name vx = name) ->
  idx !! v_name vx = None ->
  forall name v, <[v_name vx := length vs]> idx !! name = Some v <->
    exists vy, (vs ++ [vx]) !! v = Some vy /\ v_name vy = name.
Proof.
  intros Hidx Hnew name v. destruct (decide (name = v_name vx)) as [->|Hne].
  - rewrite lookup_insert_eq. split.
    + intros [= <-]. exists vx. split; [|done]. apply lookup_snoc_Some. by right.
    + intros (vy & Hv & Hn). apply lookup_snoc_Some in Hv as [[_ Hv]|[-> _]]; [|done].
      assert (idx !! v_name vx = Some v) by (apply Hidx; eauto). congruence.
  - rewrite lookup_insert_ne, Hidx by done. split; intros (vy & Hv & Hn); exists vy; (split; [|done]).
    + apply lookup_snoc_Some. left. split; [by eapply lookup_lt_Some|done].
    + apply lookup_snoc_Some in Hv as [[_ Hv]|[_ <-]]; [done|congruence].
Qed.

(** A new vertex after the task vertices. *)
Lemma push_vertex_ok vs0 b nets vx :
  builder_ok vs0 b nets -> b_index b !! v_name vx = None -> v_area vx = area_default ->
  builder_ok vs0 (push_vertex vx b) nets.
Proof.
  intros [Hw Hi He Hp Hn Hh Hs] Hnew Harea. split; simpl; try done.
  - by apply index_snoc.
  - by apply prefix_app_r.
  - intros v vy Hv Hl. apply lookup_snoc_Some in Hl as [[_ Hl]|[_ <-]]; [by eapply Hn|done].
  - intros a Ha. rewrite length_app. specialize (Hh a Ha). lia.
  - intros n Hin. rewrite length_app. specialize (Hs n Hin). lia.
Qed.

Lemma push_alias_ok vs0 b nets a :
  builder_ok vs0 b nets -> (host a < length (b_vertices b))%nat -> builder_ok vs0 (push_alias a b) nets.
Proof.
  intros [Hw Hi He Hp Hn Hh Hs] Ha. split; simpl; try done.
  intros a' [Hin| ->%list_elem_of_singleton]%elem_of_app; [by apply Hh|done].
Qed.

(** What a pass may change of the builder besides the widths. *)
Definition same_frame (b b' : FloorGraphBuilder) : Prop :=
  b_vertices b' = b_vertices b /\ b_index b' = b_index b /\ task_endpoints b' = task_endpoints b.

#[export] Instance same_frame_preorder : PreOrder same_frame.
Proof.
  split; [by intros b|]. intros b1 b2 b3 (? & ? & ?) (? & ? & ?). unfold same_frame. split_and!; congruence.
Qed.

(** A new net between two existing vertices. *)
Lemma add_net_ok vs0 b nets s d w (err : GraphError) :
  builder_ok vs0 b nets -> (s < length (b_vertices b))%nat -> (d < length (b_vertices b))%nat -> s <> d -> 0 <= w ->
  yields (fun b' => builder_ok vs0 b' (nets ++ [(s, d, w)]) /\ same_frame b b') (ok_or (add_placement_width s d w b) err).
Proof.
  intros [Hw Hi He Hp Hn Hh Hs] Hsl Hdl Hne Hwn. apply yields_ok_or. intros b' Hadd.
  destruct (add_placement_width_spec _ _ _ _ _ _ Hw Hne Hwn Hadd) as [Hw' ->].
  split; [|done]. split; simpl; try done.
  intros n [Hin| ->%list_elem_of_singleton]%elem_of_app; [by apply Hs|done].
Qed.

(** ** The child instances

    The items a loop over the children sees when every index fits [u32]. *)
Definition child_instances (top : Task) : list (string * string * Z * TaskInstance) :=
  map (fun e => (e.1.1, canonical_name e.2 e.1.1 e.1.2, Z.of_nat e.1.2, e.2)) (task_instances top).

Definition children_fit (top : Task) : Prop :=
  forall e, e ∈ task_instances top -> Z.of_nat e.1.2 <= U32_MAX.

Lemma u32_of_usize_fits {E} n : Z.of_nat n <= U32_MAX -> @u32_of_usize E n = Ok (Z.of_nat n).
Proof. intros H. unfold u32_of_usize. by rewrite (proj2 (Z.leb_le _ _) H). Qed.

Lemma for_children_fit {A} (f : A -> string * string * Z * TaskInstance -> res GraphError A) acc top :
  children_fit top -> for_children f acc top = try_fold f acc (child_instances top).
Proof.
  unfold children_fit, for_children, child_instances. revert acc.
  induction (task_instances top) as [|e l IH]; simpl; intros acc Hfit; [done|].
  rewrite u32_of_usize_fits by (apply Hfit; by left). cbn [rbind].
  destruct (f acc _) as [acc'|err|]; cbn [rbind]; [|done..]. apply IH. intros e' He'. apply Hfit. by right.
Qed.

(** A loop that gets through has seen every index. *)
Lemma for_children_ok_fit {A} (f : A -> string * string * Z * TaskInstance -> res GraphError A) acc top r :
  for_children f acc top = Ok r -> children_fit top.
Proof.
  unfold children_fit, for_children. revert acc. induction (task_instances top) as [|e l IH]; simpl; intros acc H x Hx.
  - by apply not_elem_of_nil in Hx.
  - apply rbind_ok in H as (acc' & Hstep & H). apply elem_of_cons in Hx as [->|Hx]; [|by eapply IH].
    unfold u32_of_usize in Hstep. destruct (Z.leb_spec (Z.of_nat e.1.2) U32_MAX) as [Hle|Hgt]; [done|].
    by apply rbind_ok in Hstep as (i & Hi & _).
Qed.

(** ** Task vertices *)

(** The builder [b] after the child instances [l]. *)
Record tasks_placed (flat : TaskGraph) (l : list (string * string * Z * TaskInstance)) (b : FloorGraphBuilder) : Prop := {
  tp_length : length (b_vertices b) = length l;
  tp_vertex : forall k def name i inst, l !! k = Some (def, name, i, inst) ->
    exists task, BMap.get def (graph_tasks flat) = Some task /\
      b_vertices b !! k = Some (mkVertex name (default area_default (self_area task)) None true);
  tp_sound : forall d i k, task_endpoints b !! (d, i) = Some k -> exists name inst, l !! k = Some (d, name, i, inst);
  tp_complete : forall d name i inst, (d, name, i, inst) ∈ l -> is_Some (task_endpoints b !! (d, i));
}.

Lemma add_task_vertex_ok flat l b e :
  builder_ok (b_vertices b) b [] -> tasks_placed flat l b ->
  yields (fun b' => builder_ok (b_vertices b') b' [] /\ tasks_placed flat (l ++ [e]) b') (add_task_vertex flat b e).
Proof.
  intros [Hw Hi He Hp Hn Hh Hs] [Hlen Hv Hsnd Hcmp]. destruct e as [[[def name] i] inst]. unfold add_task_vertex.
  apply yields_bind, yields_ok_or. intros task Htask. case_bool_decide as Hdup; [done|]. simpl.
  apply eq_None_not_Some in Hdup. split; split; simpl; try done.
  - by apply (index_snoc _ _ (mkVertex name (default area_default (self_area task)) None true)).
  - intros r v. rewrite lookup_insert_Some, length_app. simpl. intros [[_ <-]|[_ Hr]]; [lia|]. apply He in Hr. lia.
  - intros v vx Hge Hl%lookup_lt_Some. lia.
  - intros a Ha. rewrite length_app. specialize (Hh a Ha). lia.
  - intros n Hin. by apply not_elem_of_nil in Hin.
  - rewrite !length_app, Hlen. done.
  - intros k def' name' i' inst' [[Hlt Hk]|[-> [= -> -> -> ->]]]%lookup_snoc_Some.
    + destruct (Hv _ _ _ _ _ Hk) as (t & Ht & Hl). exists t. split; [done|]. apply lookup_snoc_Some.
      left. split; [lia|done].
    + exists task. split; [done|]. apply lookup_snoc_Some. right. split; [lia|done].
  - intros d j k [[[= -> ->] <-]|[_ Hr]]%lookup_insert_Some.
    + exists name, inst. apply lookup_snoc_Some. right. split; [lia|done].
    + destruct (Hsnd _ _ _ Hr) as (n & t & Hl). exists n, t. apply lookup_snoc_Some. left. split; [by eapply lookup_lt_Some|done].
  - intros d n j t [Hin|[= -> -> -> ->]%list_elem_of_singleton]%elem_of_app.
    + destruct (decide ((d, j) = (def, i))) as [[= -> ->]|Hne].
      * rewrite lookup_insert_eq. by eexists.
      * rewrite lookup_insert_ne by done. by eapply Hcmp.
    + rewrite lookup_insert_eq. by eexists.
Qed.

Lemma builder_default_ok : builder_ok [] builder_default [].
Proof.
  split; simpl; try done; try (intros ? Hin; by apply not_elem_of_nil in Hin).
  - apply widths_ok_empty.
  - intros name v. rewrite lookup_empty. split; [done|]. by intros (? & ? & _).
Qed.

Lemma add_task_vertices_ok flat top :
  children_fit top ->
  yields (fun b => builder_ok (b_vertices b) b [] /\ tasks_placed flat (child_instances top) b)
         (add_task_vertices flat top builder_default).
Proof.
  intros Hfit. unfold add_task_vertices. rewrite (for_children_fit _ _ _ Hfit).
  eapply yields_mono; [|apply (yields_try_fold (fun rest b => exists l, child_instances top = l ++ rest /\
    builder_ok (b_vertices b) b [] /\ tasks_placed flat l b))].
  - simpl. intros b (l & Hl & Hb & Ht). rewrite app_nil_r in Hl. by subst l.
  - exists []. split_and!; [done|apply builder_default_ok|]. split; try done.
    intros d n i t Hin. by apply not_elem_of_nil in Hin.
  - intros l1 e l2 b Hsplit (l & Hl & Hb & Ht). eapply yields_mono; [|by apply add_task_vertex_ok].
    intros b' [Hb' Ht']. exists (l ++ [e]). split_and!; [|done|done]. by rewrite Hl, <- app_assoc.
Qed.

(** ** Clustered FIFOs *)

Definition stream_nets (ss : list Stream) : list Net := map (fun s => (st_src s, st_dst s, st_width s)) ss.

Lemma resolve_fifo_endpoint_ok eps fifo role ep (n : nat) :
  (forall r v, eps !! r = Some v -> (v < n)%nat) ->
  yields (fun o => forall v, o = Some v -> (v < n)%nat) (resolve_fifo_endpoint eps fifo role ep).
Proof.
  intros He. destruct ep as [r|]; simpl; [|done].
  apply yields_bind, yields_ok_or. intros v Hv. simpl. intros ? [= <-]. by eapply He.
Qed.

Lemma resolve_fifo_data_width_ok idx fifo : yields in_u32 (resolve_fifo_data_width idx fifo).
Proof.
  unfold resolve_fifo_data_width. apply yields_bind, (yields_mono (fun _ => True)).
  - intros p _. apply yields_ok_or. unfold checked_add32. intros w Hw. by apply fits_Some in Hw as [-> ?].
  - destruct (w_producer _), (w_consumer _); simpl; try done. by destruct (negb _).
Qed.

(** Charging a vertex changes its area only. *)
Lemma charge_ok b nets h a err :
  builder_ok (b_vertices b) b nets -> (h < length (b_vertices b))%nat ->
  yields (fun b' => builder_ok (b_vertices b') b' nets /\ length (b_vertices b') = length (b_vertices b) /\
                    task_endpoints b' = task_endpoints b) (charge h a err b).
Proof.
  intros [Hw Hi He Hp Hn Hh Hs] Hlt. unfold charge.
  destruct (lookup_lt_is_Some_2 _ _ Hlt) as [vx Hvx]. rewrite Hvx. simpl.
  apply yields_bind, yields_ok_or. intros area Harea. simpl. rewrite length_insert. split; [|done].
  split; simpl; rewrite ?length_insert; try done.
  - intros name v. rewrite Hi. destruct (decide (v = h)) as [->|Hne].
    + rewrite Hvx, list_lookup_insert_eq by done. split; intros (vy & [= <-] & Hname); eexists; done.
    + rewrite list_lookup_insert_ne by done. done.
  - intros v vy Hge Hl%lookup_lt_Some. rewrite length_insert in Hl. lia.
Qed.

Lemma cluster_fifo_ok widths b ss e :
  builder_ok (b_vertices b) b (stream_nets ss) ->
  yields (fun r => builder_ok (b_vertices r.1) r.1 (stream_nets r.2) /\ length (b_vertices r.1) = length (b_vertices b) /\
                   task_endpoints r.1 = task_endpoints b) (cluster_fifo widths (b, ss) e).
Proof.
  intros Hb. destruct e as [name fifo]. unfold cluster_fifo. destruct (fifo_depth fifo) as [depth|]; [|done].
  apply yields_bind. eapply yields_mono; [|apply resolve_fifo_data_width_ok]. intros w Hw.
  apply yields_bind, yields_ok_or. intros phys Hphys.
  pose proof (bo_endpoints _ _ _ Hb) as He.
  apply yields_bind. eapply yields_mono; [|by apply resolve_fifo_endpoint_ok]. intros src Hsrc. cbv beta in Hsrc.
  apply yields_bind. eapply yields_mono; [|by apply resolve_fifo_endpoint_ok]. intros dst Hdst. cbv beta in Hdst.
  apply yields_bind, yields_ok_or. intros h Hh.
  assert (Hlt : (h < length (b_vertices b))%nat).
  { destruct dst as [d|]; [injection Hh as ->; by apply Hdst|]. destruct src; [injection Hh as ->; by apply Hsrc|done]. }
  apply yields_bind. eapply yields_mono; [|by apply (charge_ok b (stream_nets ss))]. intros b1 (Hb1 & Hlen & Heps).
  assert (Hb2 : builder_ok (b_vertices (push_alias (mkCoLocated name h) b1)) (push_alias (mkCoLocated name h) b1) (stream_nets ss))
    by (apply push_alias_ok; [done|simpl; lia]).
  destruct src as [s|], dst as [d|]; try (split_and!; [exact Hb2|exact Hlen|exact Heps]).
  destruct (Nat.eqb_spec s d) as [_|Hne]; [split_and!; [exact Hb2|exact Hlen|exact Heps]|].
  assert (Hphys0 : 0 <= phys) by (unfold checked_add32 in Hphys; apply fits_Some in Hphys; lia).
  apply yields_bind. eapply yields_mono; [|apply (add_net_ok _ _ _ s d phys _ Hb2); [| |done|done]].
  - intros b3 [Hb3 (Hv & _ & Ht)]. simpl in *. unfold stream_nets. rewrite map_app, Hv. split_and!; [exact Hb3|done|congruence].
  - simpl. rewrite Hlen. by apply Hsrc.
  - simpl. rewrite Hlen. by apply Hdst.
Qed.

Lemma cluster_internal_fifos_ok flat top b :
  builder_ok (b_vertices b) b [] ->
  yields (fun r => builder_ok (b_vertices r.1) r.1 (stream_nets r.2) /\ length (b_vertices r.1) = length (b_vertices b) /\
                   task_endpoints r.1 = task_endpoints b) (cluster_internal_fifos flat top b).
Proof.
  intros Hb. unfold cluster_internal_fifos.
  apply (yields_try_fold (fun _ r => builder_ok (b_vertices r.1) r.1 (stream_nets r.2) /\
    length (b_vertices r.1) = length (b_vertices b) /\ task_endpoints r.1 = task_endpoints b)); [done|].
  intros l1 e l2 [b1 ss] _ (Hb1 & Hlen & Heps). eapply yields_mono; [|by apply cluster_fifo_ok].
  intros [b2 ss2] (? & ? & ?). split_and!; [done|simpl in *; congruence..].
Qed.

(** ** Name checks never panic *)

Definition no_panic {E A} (m : res E A) : Prop := yields (fun _ => True) m.

Lemma no_panic_bind {E A B} (m : res E A) (k : A -> res E B) :
  no_panic m -> (forall a, no_panic (k a)) -> no_panic (rbind m k).
Proof. intros Hm Hk. apply yields_bind. eapply yields_mono; [|exact Hm]. intros a _. apply Hk. Qed.

Lemma no_panic_ok_or {E A} (o : option A) (e : E) : no_panic (ok_or o e).
Proof. by apply yields_ok_or. Qed.

Lemma no_panic_try_fold {E A B} (f : A -> B -> res E A) l acc :
  (forall a x, no_panic (f a x)) -> no_panic (try_fold f acc l).
Proof. intros Hf. apply (yields_try_fold (fun _ _ => True)); [done|]. intros l1 x l2 a _ _. apply Hf. Qed.

Lemma no_panic_try_each {E B} (f : B -> res E unit) l :
  (forall x, no_panic (f x)) -> no_panic (try_each f l).
Proof. intros Hf. apply (try_each_cases no_panic); [done|]. intros x _. apply Hf. Qed.

Lemma no_panic_ok {E A} (a : A) : no_panic (@Ok E A a).
Proof. done. Qed.

Create HintDb no_panic.
#[export] Hint Resolve no_panic_ok no_panic_bind no_panic_ok_or no_panic_try_fold no_panic_try_each : no_panic.

Lemma no_panic_occupy o e : no_panic (occupy o e).
Proof. destruct e as [[name own] desc]. unfold occupy. destruct (BMap.get _ _); [|done]. by destruct (negb _). Qed.

Lemma no_panic_reserve o e : no_panic (reserve_generated_name o e).
Proof. destruct e. unfold reserve_generated_name. by destruct (BMap.get _ _). Qed.
#[export] Hint Resolve no_panic_occupy no_panic_reserve : no_panic.

Lemma no_panic_occupied top vs al : no_panic (occupied_rtl_names top vs al).
Proof.
  unfold occupied_rtl_names. apply no_panic_bind; [auto with no_panic|]. intros o.
  apply no_panic_bind.
  - apply no_panic_try_fold. intros a fifo. unfold occupy_stream. destruct (negb _); [done|auto with no_panic].
  - intros o2. apply no_panic_try_fold. intros a al'. destruct (BMap.contains_key _ _); [done|auto with no_panic].
Qed.

Lemma no_panic_sanitized top : children_fit top -> no_panic (validate_sanitized_instance_names top).
Proof.
  intros Hfit. unfold validate_sanitized_instance_names. rewrite (for_children_fit _ _ _ Hfit). apply no_panic_bind; [|done]. apply no_panic_try_fold. intros seen e.
  unfold check_sanitized. destruct (BMap.get _ _); [|done]. by destruct (negb _).
Qed.

Lemma no_panic_axi_names o i : no_panic (reserve_axi_pipeline_names o i).
Proof. unfold reserve_axi_pipeline_names. auto with no_panic. Qed.
#[export] Hint Resolve no_panic_occupied no_panic_sanitized no_panic_axi_names : no_panic.

Lemma no_panic_control_names top memory s vs al p :
  children_fit top -> no_panic (validate_control_names top memory s vs al p).
Proof.
  intros Hfit. unfold validate_control_names.
  apply no_panic_bind; [apply no_panic_occupied|intros o1].
  repeat (simple apply no_panic_bind; [|intros ?]); try (by auto with no_panic).
  - destruct s; auto with no_panic.
  - rewrite (for_children_fit _ _ _ Hfit). auto with no_panic.
  - destruct p; auto with no_panic.
Qed.

(** ** Memory interfaces *)

Definition axi_net_list (ns : list AxiNet) : list Net := map (fun n => (an_src n, an_dst n, an_width n)) ns.

(** The endpoints the memory pass expects belong to task vertices. *)
Definition expected_ok (n0 : nat) (m : bmap AxiEndpoint ExpectedMemoryEndpoint) : Prop :=
  forall ep e, In (ep, e) m -> (task_vertex e < n0)%nat /\ is_direct_mmap (child_category e) = true.

Lemma expected_memory_interfaces_ok flat top eps n0 :
  children_fit top ->
  (forall r v, eps !! r = Some v -> (v < n0)%nat) ->
  (forall d name i inst, (d, name, i, inst) ∈ child_instances top -> is_Some (eps !! (d, i))) ->
  yields (expected_ok n0) (expected_memory_interfaces flat top eps).
Proof.
  intros Hfit Hlt Hcmp. unfold expected_memory_interfaces. rewrite (for_children_fit _ _ _ Hfit). apply yields_bind.
  eapply yields_mono; [|apply (yields_try_fold (fun _ acc => expected_ok n0 acc.1)); [by intros ? ? []|]].
  - intros [ex users] Hex. destruct (find_first _ users) as [[port us]|]; [done|exact Hex].
  - intros l1 [[[d name] i] inst] l2 acc Hsplit Hacc. unfold expect_instance.
    apply yields_bind, yields_ok_or. intros task _.
    destruct (Hcmp d name i inst) as [v Hv]; [rewrite Hsplit; apply elem_of_app; right; by left|]. rewrite Hv. simpl.
    apply (yields_try_fold (fun _ acc => expected_ok n0 acc.1)); [done|].
    intros l3 [port a] l4 acc' _ Hacc'. unfold expect_argument.
    destruct (is_direct_mmap (cat a)) eqn:Hmm; simpl; [|done].
    apply yields_bind, yields_ok_or. intros pp _. apply yields_bind, yields_ok_or. intros child _.
    apply yields_bind, yields_ok_or. intros parent _.
    match goal with |- context [if ?c then bad_memory _ _ else _] => destruct c eqn:Hc; [done|] end.
    match goal with |- context [if ?c then bad_memory _ _ else _] => destruct c eqn:Hc2; [done|] end. simpl.
    bool_hyps. intros ep e [[_ ->]|Hin]%BMap.In_insert; [|by eapply Hacc']. simpl. split; [by eapply Hlt|congruence].
Qed.

Lemma validate_memory_interface_shape_ok i e :
  is_direct_mmap (child_category e) = true -> no_panic (validate_memory_interface_shape i e).
Proof.
  intros He. unfold validate_memory_interface_shape. apply no_panic_bind.
  - destruct (child_category e); try done; destruct (bridge_instance i); try done. by destruct (negb _).
  - intros _. cbv zeta. repeat match goal with |- context [if ?c then bad_memory _ _ else _] => destruct c; [done|] end. done.
Qed.

(** The interfaces provided for every expected endpoint. *)
Definition all_provided (expected : bmap AxiEndpoint ExpectedMemoryEndpoint) (provided : bmap AxiEndpoint MemoryInterface) : Prop :=
  forall ep e, In (ep, e) expected -> is_Some (BMap.get ep provided).

(** Passes only ever append vertices, and leave the task endpoints alone. *)
Definition grows (b b' : FloorGraphBuilder) : Prop :=
  (length (b_vertices b) <= length (b_vertices b'))%nat /\ task_endpoints b' = task_endpoints b.

#[export] Instance grows_preorder : PreOrder grows.
Proof.
  split; [by intros b|]. intros b1 b2 b3 (? & ?) (? & ?). split; [lia|congruence].
Qed.

Lemma same_frame_grows b b' : same_frame b b' -> grows b b'.
Proof. intros (Hv & _ & Ht). split; [by rewrite Hv|done]. Qed.

Lemma reserve_interface_ok vs0 expected provided b nets occ e :
  builder_ok vs0 b nets -> expected_ok (length vs0) expected -> all_provided expected provided -> In e expected ->
  yields (fun r => builder_ok vs0 r.1 nets /\ grows b r.1) (reserve_interface provided (b, occ) e).
Proof.
  intros Hb Hex Hprov Hin. destruct e as [ep e]. destruct (Hex _ _ Hin) as [Hlt Hmm].
  destruct (Hprov _ _ Hin) as [i Hi]. unfold reserve_interface. rewrite Hi. cbn [expect rbind].
  apply yields_bind. eapply yields_mono; [|by apply validate_memory_interface_shape_ok]. intros _ _.
  apply yields_bind. eapply yields_mono; [|apply no_panic_axi_names]. intros occ1 _.
  destruct (bridge_instance i) as [bridge|]; [|done].
  apply yields_bind. eapply yields_mono; [|apply no_panic_reserve]. intros occ2 _. split; [|done].
  apply push_alias_ok; [done|]. simpl. pose proof (builder_ok_length _ _ _ Hb). lia.
Qed.

(** Bank terminals are vertices after the task vertices. *)
Definition terminals_ok (n0 : nat) (b : FloorGraphBuilder) (ts : bmap MemoryBank nat) : Prop :=
  forall bank t, BMap.get bank ts = Some t -> (n0 <= t < length (b_vertices b))%nat.

Lemma terminal_of_ok vs0 b nets bank ts :
  builder_ok vs0 b nets -> terminals_ok (length vs0) b ts ->
  yields (fun r => builder_ok vs0 r.1.1 nets /\ terminals_ok (length vs0) r.1.1 r.1.2 /\ grows b r.1.1 /\
                   (length vs0 <= r.2 < length (b_vertices r.1.1))%nat) (terminal_of bank b ts).
Proof.
  intros Hb Hts. unfold terminal_of. destruct (BMap.get bank ts) as [t|] eqn:Ht.
  { simpl. split_and!; try done; by destruct (Hts _ _ Ht). }
  case_bool_decide as Hdup; [done|]. apply eq_None_not_Some in Hdup. pose proof (builder_ok_length _ _ _ Hb) as Hle.
  simpl. rewrite length_app. split_and!; [by apply push_vertex_ok| |split; simpl; [rewrite length_app; lia|done]|done|simpl; lia].
  intros bank' t. rewrite BMap.get_insert. simpl. rewrite length_app. simpl.
  destruct (decide _) as [->|_]; [intros [= <-]; lia|]. intros Hg. destruct (Hts _ _ Hg). lia.
Qed.

Lemma add_channel_ok vs0 b nets0 axi ep bank task terminal e :
  builder_ok vs0 b (nets0 ++ axi_net_list axi) -> (task < length vs0)%nat ->
  (length vs0 <= terminal < length (b_vertices b))%nat ->
  yields (fun r => builder_ok vs0 r.1 (nets0 ++ axi_net_list r.2) /\ same_frame b r.1)
    (add_channel ep bank task terminal (b, axi) e).
Proof.
  intros Hb Htask Hterm. destruct e as [ch width]. unfold add_channel. apply yields_bind, yields_ok_or.
  intros payload Hp. unfold checked_sub32 in Hp.
  destruct (fits U32_MAX (width - 2)) as [p|] eqn:Hfit; [|done]. apply fits_Some in Hfit as [-> Hw].
  assert (Hends : exists s d, channel_ends task terminal ch = (s, d) /\ (s < length (b_vertices b))%nat /\
                              (d < length (b_vertices b))%nat /\ s <> d).
  { destruct ch; simpl; eexists _, _; split; try reflexivity; lia. }
  destruct Hends as (s & d & -> & Hs & Hd & Hne).
  apply yields_bind. eapply yields_mono; [|by apply (add_net_ok _ _ _ s d width _ Hb); [..|lia]].
  intros b' [Hb' Hframe]. simpl. split; [|done]. unfold axi_net_list. by rewrite map_app, app_assoc.
Qed.

(** The state of the loop over the interfaces. *)
Definition axi_state_ok (vs0 : list Vertex) (b0 : FloorGraphBuilder) (nets0 : list Net)
    (r : FloorGraphBuilder * bmap MemoryBank nat * list AxiNet) : Prop :=
  builder_ok vs0 r.1.1 (nets0 ++ axi_net_list r.2) /\ terminals_ok (length vs0) r.1.1 r.1.2 /\ grows b0 r.1.1.

Lemma add_interface_ok vs0 expected provided b0 nets0 r e :
  axi_state_ok vs0 b0 nets0 r -> expected_ok (length vs0) expected -> all_provided expected provided -> In e expected ->
  yields (axi_state_ok vs0 b0 nets0) (add_interface provided r e).
Proof.
  intros (Hb & Hts & Hg) Hex Hprov Hin. destruct r as [[b ts] axi], e as [ep e].
  destruct (Hex _ _ Hin) as [Hlt _]. destruct (Hprov _ _ Hin) as [i Hi].
  unfold add_interface. rewrite Hi. cbn [expect rbind].
  destruct (enabled_channels (channel_widths i)) as [|ch chs]; [done|].
  apply yields_bind. eapply yields_mono; [|by apply terminal_of_ok].
  intros [[b1 ts1] t] (Hb1 & Hts1 & Hg1 & Ht). cbn [fst snd] in *.
  apply yields_bind. eapply yields_mono; [|apply (yields_try_fold (fun _ q =>
    builder_ok vs0 q.1 (nets0 ++ axi_net_list q.2) /\ same_frame b1 q.1)); [done|]].
  - intros [b2 axi2] [Hb2 Hf]. cbn [fst snd] in *. split_and!; [done| |].
    + intros bank u Hu. destruct Hf as (Hv & _ & _). cbn [fst snd]. rewrite Hv. by eapply Hts1.
    + transitivity b; [done|]. transitivity b1; [done|by apply same_frame_grows].
  - intros l1 x l2 [b2 axi2] _ [Hb2 Hf]. cbn [fst snd] in *.
    eapply yields_mono; [|apply (add_channel_ok vs0 b2 nets0 axi2); [done|done|]].
    + intros [b3 axi3] [? ?]. split; [done|]. by transitivity b2.
    + destruct Hf as (Hv & _ & _). by rewrite Hv.
Qed.

Lemma provide_all memory : no_panic (try_fold provide BMap.empty memory).
Proof. apply no_panic_try_fold. intros m i. unfold provide. by destruct (BMap.contains_key _ _). Qed.

Lemma add_memory_interfaces_ok flat top memory vs0 b nets0 :
  children_fit top ->
  builder_ok vs0 b nets0 ->
  (forall d name i inst, (d, name, i, inst) ∈ child_instances top -> is_Some (task_endpoints b !! (d, i))) ->
  yields (fun r => builder_ok vs0 r.1 (nets0 ++ axi_net_list r.2) /\ grows b r.1) (add_memory_interfaces flat top memory b).
Proof.
  intros Hfit Hb Hcmp. unfold add_memory_interfaces.
  apply yields_bind. eapply yields_mono; [|apply expected_memory_interfaces_ok; [done|apply Hb|done]]. intros expected Hex.
  apply yields_bind. eapply yields_mono; [|apply provide_all]. intros provided _.
  match goal with |- yields _ (rbind ?m _) => destruct m as [[]|e|] eqn:Hall end; cbn [rbind]; [|done|].
  2: { exfalso. assert (Hnp : no_panic (E := GraphError) (A := unit) Panic); [|done]. rewrite <- Hall.
       apply no_panic_try_each. intros ep. by destruct (BMap.contains_key _ _). }
  assert (Hprov : all_provided expected provided).
  { intros ep e Hin. apply try_each_ok in Hall. rewrite List.Forall_forall in Hall.
    specialize (Hall ep (in_map fst _ _ Hin)). unfold BMap.contains_key in Hall. by destruct (BMap.get ep provided). }
  apply yields_bind. eapply yields_mono; [|apply no_panic_try_each; intros ep; by destruct (BMap.contains_key _ _)]. intros _ _.
  apply yields_bind. eapply yields_mono; [|apply no_panic_occupied]. intros occ _.
  apply yields_bind. eapply yields_mono; [|apply (yields_try_fold (fun _ r => builder_ok vs0 r.1 nets0 /\ grows b r.1)); [done|]].
  - intros [b1 occ1] [Hb1 Hg1]. cbn [fst snd] in *. apply yields_bind.
    eapply yields_mono; [|apply (yields_try_fold (fun _ r => axi_state_ok vs0 b nets0 r))].
    + intros [[b2 ts] axi] (Hb2 & _ & Hg2). split; [exact Hb2|exact Hg2].
    + unfold axi_state_ok. cbn [fst snd axi_net_list map]. rewrite app_nil_r. split_and!; [done| |done]. by intros ? ?.
    + intros l1 e l2 r Hl Hr. eapply (add_interface_ok vs0 expected); [done..|]. rewrite Hl. apply in_elt.
  - intros l1 e l2 [b1 occ1] Hl [Hb1 Hg1]. cbn [fst snd] in *.
    eapply yields_mono; [|eapply (reserve_interface_ok vs0 expected _ b1 nets0); [done..|rewrite Hl; apply in_elt]].
    intros [b2 occ2] [? ?]. split; [done|]. by transitivity b1.
Qed.

(** ** Control *)

Definition control_net_list (ns : list ControlNet) : list Net := map (fun n => (cn_src n, cn_dst n, cn_width n)) ns.

Lemma control_launch_width_ok task inst name : yields (fun w => 0 <= w) (control_launch_width task inst name).
Proof.
  unfold control_launch_width. apply yields_bind.
  assert (Hadd : forall w x (e : GraphError), yields (fun w => 0 <= w) (ok_or (checked_add32 w x) e)).
  { intros w x e. apply yields_ok_or. intros w' Hw. unfold checked_add32 in Hw. apply fits_Some in Hw. lia. }
  eapply yields_mono; [|apply (yields_try_fold (fun _ w => 0 <= w)); [by destruct (_ <? 0)|]].
  - intros w Hw. apply (yields_try_fold (fun _ w => 0 <= w)); [done|].
    intros l1 [pname a] l2 w' _ Hw'. unfold launch_arg.
    match goal with |- context [if ?c then scalar_error _ _ _ else _] => destruct c; [done|] end.
    by destruct (is_direct_mmap _).
  - intros l1 p l2 w _ Hw. unfold launch_port. apply yields_bind, yields_ok_or. intros a _.
    destruct (negb _); [done|]. by destruct (_ =? 0).
Qed.

(** The state of the loop over the children. *)
Definition control_state_ok (vs0 : list Vertex) (b0 : FloorGraphBuilder) (nets0 : list Net)
    (r : FloorGraphBuilder * list ControlNet) : Prop :=
  builder_ok vs0 r.1 (nets0 ++ control_net_list r.2) /\ grows b0 r.1.

Lemma add_control_net_ok vs0 b0 nets0 instance ch s d w r :
  control_state_ok vs0 b0 nets0 r -> (s < length (b_vertices b0))%nat -> (d < length (b_vertices b0))%nat -> s <> d -> 0 <= w ->
  yields (control_state_ok vs0 b0 nets0) (add_control_net instance ch s d w r).
Proof.
  intros [Hb Hg] Hs Hd Hne Hw. destruct r as [b nets]. unfold add_control_net. cbn [fst snd] in *.
  destruct Hg as [Hlen Heps].
  apply yields_bind. eapply yields_mono; [|apply (add_net_ok vs0 b _ s d w _ Hb); [lia..|done|done]].
  intros b' [Hb' Hf]. split; cbn [fst snd].
  - unfold control_net_list. by rewrite map_app, app_assoc.
  - transitivity b; [done|by apply same_frame_grows].
Qed.

Lemma add_control_child_ok vs0 flat (global : nat) b0 nets0 r e :
  control_state_ok vs0 b0 nets0 r -> (length vs0 <= global < length (b_vertices b0))%nat ->
  (forall r v, task_endpoints b0 !! r = Some v -> (v < length vs0)%nat) ->
  is_Some (task_endpoints b0 !! (e.1.1.1, e.1.2)) ->
  yields (control_state_ok vs0 b0 nets0) (add_control_child flat global r e).
Proof.
  intros [Hb [Hlen Heps]] Hglobal Hlt [child Hchild]. destruct r as [b nets], e as [[[d name] i] inst].
  cbn [fst snd] in *. unfold add_control_child. apply yields_bind, yields_ok_or. intros task _.
  rewrite Heps, Hchild. cbn [expect rbind]. pose proof (Hlt _ _ Hchild) as Hc.
  apply yields_bind. eapply yields_mono; [|apply control_launch_width_ok]. intros w Hw. cbv beta in Hw.
  apply yields_bind. eapply yields_mono; [|apply (add_control_net_ok vs0 b0 nets0); [|lia..]].
  2: { split; [|by split]. by apply push_alias_ok; [|simpl; lia]. }
  intros r1 Hr1. apply yields_bind. eapply yields_mono; [|apply (add_control_net_ok vs0 b0 nets0); [done|lia..]].
  intros r2 Hr2. destruct (0 <=? inst_step inst); [|done].
  apply add_control_net_ok; [done|lia..].
Qed.

Lemma push_aliases_ok vs0 nets (global : nat) names b :
  builder_ok vs0 b nets -> (global < length (b_vertices b))%nat ->
  builder_ok vs0 (fold_left (fun b n => push_alias (mkCoLocated n global) b) names b) nets /\
  grows b (fold_left (fun b n => push_alias (mkCoLocated n global) b) names b).
Proof.
  revert b; induction names as [|n names IH]; simpl; intros b Hb Hg; [done|].
  apply (IH (push_alias (mkCoLocated n global) b)); [by apply push_alias_ok|done].
Qed.

Lemma add_control_interface_ok flat top memory s anchor p vs0 b nets0 :
  children_fit top ->
  builder_ok vs0 b nets0 ->
  (forall d name i inst, (d, name, i, inst) ∈ child_instances top -> is_Some (task_endpoints b !! (d, i))) ->
  yields (fun r => builder_ok vs0 r.1 (nets0 ++ control_net_list r.2) /\ grows b r.1)
    (add_control_interface flat top memory s anchor p b).
Proof.
  intros Hfit Hb Hcmp. unfold add_control_interface.
  apply yields_bind. eapply yields_mono; [|by apply no_panic_control_names]. intros _ _.
  case_bool_decide as Hdup; [done|]. apply eq_None_not_Some in Hdup. cbv zeta.
  set (global := length (b_vertices b)). set (vx := mkVertex global_controller_instance_name area_default anchor true).
  assert (Hb1 : builder_ok vs0 (push_vertex vx b) nets0) by (by apply push_vertex_ok).
  assert (Hg1 : grows b (push_vertex vx b)) by (split; simpl; [rewrite length_app; lia|done]).
  assert (Hlt1 : (global < length (b_vertices (push_vertex vx b)))%nat) by (simpl; rewrite length_app; unfold global; simpl; lia).
  set (b1 := push_vertex vx b) in *.
  set (b2 := if s then push_alias (mkCoLocated CONTROL_S_AXI_INSTANCE global) b1 else b1).
  assert (Hb2 : builder_ok vs0 b2 nets0 /\ grows b1 b2) by (unfold b2; destruct s; split; try done; by apply push_alias_ok).
  destruct Hb2 as [Hb2 Hg2].
  set (b3 := match p with Some _ => _ | None => _ end).
  assert (Hb3 : builder_ok vs0 b3 nets0 /\ grows b2 b3).
  { unfold b3. destruct p; [|done]. apply push_aliases_ok; [done|]. destruct Hg2. lia. }
  destruct Hb3 as [Hb3 Hg3]. assert (Hg : grows b b3) by (transitivity b1; [done|]; by transitivity b2).
  assert (Hgl : (length vs0 <= global < length (b_vertices b3))%nat).
  { pose proof (builder_ok_length _ _ _ Hb). destruct Hg2, Hg3. unfold global in *. lia. }
  clearbody b3. clear b2 Hb2 Hg2 Hg3. rewrite (for_children_fit _ _ _ Hfit).
  eapply yields_mono; [|apply (yields_try_fold (fun _ r => control_state_ok vs0 b3 nets0 r))].
  - intros r [Hr Hgr]. split; [done|]. by transitivity b3.
  - split; [|done]. cbn [fst snd control_net_list map]. by rewrite app_nil_r.
  - intros l1 e l2 r Hl Hr. apply add_control_child_ok; [done|done|apply Hb3|].
    destruct Hg as [_ ->]. destruct e as [[[d name] i] inst]. cbn [fst snd]. apply (Hcmp d name i inst).
    rewrite Hl. apply elem_of_app. right. by left.
Qed.

(** ** The whole build *)

(** All the nets of the graph. *)
Definition all_nets (g : FloorGraph) : list Net :=
  stream_nets (streams g) ++ axi_net_list (axi_nets g) ++ control_net_list (control_nets g).

(** The graph comes from a builder that is right, and whose task vertices were
    made by the first two passes. *)
Definition built (flat : TaskGraph) (td : Task) (g : FloorGraph) : Prop :=
  exists b0 b1 ss b,
    add_task_vertices flat td builder_default = Ok b0 /\ cluster_internal_fifos flat td b0 = Ok (b1, ss) /\
    builder_ok (b_vertices b1) b (all_nets g) /\
    vertices g = b_vertices b /\ index g = b_index b /\ co_located g = b_co_located b /\
    placement_edges g = finish b /\ is_ok (occupied_rtl_names td (vertices g) (co_located g)) = true.

Lemma build_with_scopes_fit flat memory control anchor p td :
  BMap.get (top flat) (graph_tasks flat) = Some td -> children_fit td ->
  yields (built flat td) (build_with_scopes flat memory control anchor p).
Proof.
  intros Htd Hfit. unfold build_with_scopes. rewrite Htd. cbn [ok_or rbind].
  pose proof (add_task_vertices_ok flat td Hfit) as H0.
  destruct (add_task_vertices flat td builder_default) as [b0|e|] eqn:E0; cbn [rbind]; [|done|done].
  destruct H0 as [Hb0 Ht0].
  apply yields_bind. eapply yields_mono; [|by apply no_panic_sanitized]. intros _ _.
  pose proof (cluster_internal_fifos_ok flat td b0 Hb0) as H1.
  destruct (cluster_internal_fifos flat td b0) as [[b1 ss]|e|] eqn:E1; cbn [rbind]; [|done|done].
  destruct H1 as (Hb1 & Hlen1 & Heps1). cbn [fst snd] in *.
  assert (Hcmp : forall b, grows b1 b -> forall d name i inst, (d, name, i, inst) ∈ child_instances td ->
    is_Some (task_endpoints b !! (d, i))).
  { intros b [_ ->] d name i inst Hin. rewrite Heps1. by eapply (tp_complete _ _ _ Ht0). }
  apply yields_bind. eapply yields_mono; [|by apply add_memory_interfaces_ok; [| |apply Hcmp]].
  intros [b2 axi] [Hb2 Hg2]. cbn [fst snd] in *. cbv zeta. apply yields_bind.
  apply (yields_mono (fun r => builder_ok (b_vertices b1) r.1 ((stream_nets ss ++ axi_net_list axi) ++ control_net_list r.2))).
  - intros [b3 ctl] Hb3. cbn [fst snd] in *. apply yields_bind.
    pose proof (no_panic_occupied td (b_vertices b3) (b_co_located b3)) as Hnp.
    destruct (occupied_rtl_names _ _ _) as [occ|e|] eqn:Eocc; [|done|done]. simpl.
    exists b0, b1, ss, b3. unfold all_nets. cbn [streams axi_nets control_nets].
    rewrite app_assoc. split_and!; try done. cbn [vertices co_located]. by rewrite Eocc.
  - assert (Hnil : builder_ok (b_vertices b1) b2 ((stream_nets ss ++ axi_net_list axi) ++ control_net_list []))
      by (cbn [control_net_list map]; by rewrite app_nil_r).
    destruct control as [s|]; [|done]. match goal with |- context [if ?c then _ else _] => destruct c; [|done] end.
    eapply yields_mono; [|apply add_control_interface_ok; [exact Hfit|exact Hb2|by apply Hcmp]]. by intros r [? _].
Qed.

(** A graph that was built comes from a top whose indices all fit. *)
Lemma build_with_scopes_ok flat memory control anchor p g :
  build_with_scopes flat memory control anchor p = Ok g ->
  exists td, BMap.get (top flat) (graph_tasks flat) = Some td /\ children_fit td /\ built flat td g.
Proof.
  intros H. assert (Htd : exists td, BMap.get (top flat) (graph_tasks flat) = Some td /\ children_fit td).
  { unfold build_with_scopes in H. apply rbind_ok in H as (td & Htd%ok_or_ok & H).
    apply rbind_ok in H as (b0 & H0 & _). exists td. split; [done|]. by apply for_children_ok_fit in H0. }
  destruct Htd as (td & Htd & Hfit). exists td. split_and!; [done..|].
  pose proof (build_with_scopes_fit flat memory control anchor p td Htd Hfit) as Hok. by rewrite H in Hok.
Qed.

(** ** FIFO areas *)

Lemma fifo_area_wf w depth : in_u32 w -> Area.wf (fifo_area w depth).
Proof.
  intros [Hw0 Hw1] r. unfold fifo_area, ilog2, in_u64, saturating_sub, U32_MAX, U64_MAX in *.
  destruct (Z.ltb_spec depth 128) as [Hd|Hd]; cbv zeta.
  - assert (Hlog : 0 <= Z.log2 (Z.max depth 1) <= 6).
    { split; [apply Z.log2_nonneg|]. change 6 with (Z.log2 127). apply Z.log2_le_mono. lia. }
    pose proof (Z.mod_pos_bound (w * Z.max 0 (depth - 1)) 18446744073709551616 ltac:(lia)) as Hm.
    unfold wrap64. pose proof (Z.div_pos (w * Z.max 0 (depth - 1) mod 18446744073709551616) 16 ltac:(lia) ltac:(lia)).
    pose proof (Z.div_lt_upper_bound (w * Z.max 0 (depth - 1) mod 18446744073709551616) 16 1152921504606846976 ltac:(lia) ltac:(lia)).
    destruct r; simpl; lia.
  - pose proof (Z.mod_pos_bound (w * (depth / 512 + 1)) 18446744073709551616 ltac:(lia)) as Hm.
    unfold wrap64. pose proof (Z.div_pos (w * (depth / 512 + 1) mod 18446744073709551616) 18 ltac:(lia) ltac:(lia)).
    pose proof (Z.div_le_upper_bound (w * (depth / 512 + 1) mod 18446744073709551616) 18 18446744073709551615 ltac:(lia) ltac:(lia)).
    destruct r; simpl; lia.
Qed.
