(* ===== verification/FloorGraphProps.v ===== *)
(** * Properties of the placement graph

    What the placement and routing programs rely on: the graph is well formed
    and building it never panics, the edge widths and the vertex areas account
    for every net and every FIFO once, the RTL names are unambiguous, and
    co-located instances get the region of their host. *)

From S2P Require Import Prelude RustStd BTreeMap Geometry Names Ir Connectivity Flatten FlattenProps FloorGraph FloorGraphSpec.

(** ** Areas *)

(** The endpoint a FIFO is charged to: its consumer, else its producer. *)
Definition anchor_ref (fifo : InterconnectDefinition) : option EndpointRef :=
  match consumed_by fifo with Some r => Some r | None => produced_by fifo end.

(** The area a FIFO costs. *)
Definition fifo_cost (widths : bmap string FifoArgWidths) (e : string * InterconnectDefinition) : Area :=
  match fifo_depth e.2, resolve_fifo_data_width widths e.1 with
  | Some depth, Ok w => fifo_area w (floorplanned_fifo_storage_depth depth)
  | _, _ => area_default
  end.

(** The cost of a FIFO at vertex [k], given the vertex of each endpoint. *)
Definition charged (eps : gmap (string * Z) nat) (widths : bmap string FifoArgWidths) (r : Resource) (k : nat)
    (e : string * InterconnectDefinition) : Z :=
  match fifo_depth e.2, anchor_ref e.2 with
  | Some _, Some ref => if bool_decide (eps !! (ep_task ref, ep_index ref) = Some k) then amount r (fifo_cost widths e) else 0
  | _, _ => 0
  end.

Lemma resolve_fifo_endpoint_Ok eps fifo role ep o :
  resolve_fifo_endpoint eps fifo role ep = Ok o ->
  match ep with
  | None => o = None
  | Some r => exists v, o = Some v /\ eps !! (ep_task r, ep_index r) = Some v
  end.
Proof. destruct ep as [r|]; simpl; intros H; res_inv; eauto. Qed.

(** What one FIFO does to the vertices. *)
Lemma cluster_fifo_vertices widths b ss e b' ss' :
  cluster_fifo widths (b, ss) e = Ok (b', ss') ->
  task_endpoints b' = task_endpoints b /\
  match fifo_depth e.2 with
  | None => b_vertices b' = b_vertices b
  | Some depth => exists ref h w vx area,
      anchor_ref e.2 = Some ref /\ task_endpoints b !! (ep_task ref, ep_index ref) = Some h /\
      resolve_fifo_data_width widths e.1 = Ok w /\ b_vertices b !! h = Some vx /\
      Area.checked_add (v_area vx) (fifo_area w (floorplanned_fifo_storage_depth depth)) = Some area /\
      b_vertices b' = <[h := mkVertex (v_name vx) area (required_tag vx) (materialize vx)]> (b_vertices b)
  end.
Proof.
  destruct e as [name fifo]. unfold cluster_fifo. cbn [fst snd]. destruct (fifo_depth fifo) as [depth|]; [|by intros [= <- <-]].
  intros H. apply rbind_ok in H as (w & Hw & H). apply rbind_ok in H as (phys & _ & H).
  apply rbind_ok in H as (src & Hsrc%resolve_fifo_endpoint_Ok & H).
  apply rbind_ok in H as (dst & Hdst%resolve_fifo_endpoint_Ok & H).
  apply rbind_ok in H as (h & Hh%ok_or_ok & H). apply rbind_ok in H as (b1 & Hb1 & H).
  unfold charge in Hb1. apply rbind_ok in Hb1 as (vx & Hvx%expect_ok & Hb1).
  apply rbind_ok in Hb1 as (area & Harea%ok_or_ok & [= <-]).
  assert (Hframe : task_endpoints b' = task_endpoints b /\
    b_vertices b' = <[h := mkVertex (v_name vx) area (required_tag vx) (materialize vx)]> (b_vertices b)).
  { destruct src as [s|], dst as [d|]; try (by injection H as <- <-).
    destruct (Nat.eqb s d); [by injection H as <- <-|]. apply rbind_ok in H as (b2 & Hadd%ok_or_ok & [= <- <-]).
    unfold add_placement_width in Hadd. repeat case_match; simplify_eq; done. }
  destruct Hframe as [Hf1 Hf2]. split; [done|].
  assert (Href : exists ref, anchor_ref fifo = Some ref /\ task_endpoints b !! (ep_task ref, ep_index ref) = Some h).
  { unfold anchor_ref. destruct (consumed_by fifo) as [r|].
    - destruct Hdst as (v & -> & Hv). injection Hh as ->. by exists r.
    - subst dst. destruct (produced_by fifo) as [r|]; [|by subst src].
      destruct Hsrc as (v & -> & Hv). injection Hh as ->. by exists r. }
  destruct Href as (ref & Href & Hh'). by exists ref, h, w, vx, area.
Qed.

(** The vertices after the FIFOs [l]. *)
Definition charged_for (eps : gmap (string * Z) nat) (widths : bmap string FifoArgWidths) (vs0 : list Vertex)
    (l : list (string * InterconnectDefinition)) (b : FloorGraphBuilder) : Prop :=
  task_endpoints b = eps /\
  forall k vx0, vs0 !! k = Some vx0 -> exists vx, b_vertices b !! k = Some vx /\
    v_name vx = v_name vx0 /\ required_tag vx = required_tag vx0 /\ materialize vx = materialize vx0 /\
    Area.wf (v_area vx) /\ forall r, amount r (v_area vx) = amount r (v_area vx0) + zsum (charged eps widths r k) l.

Lemma cluster_fifo_charges widths vs0 l b ss e b' ss' :
  length (b_vertices b) = length vs0 -> charged_for (task_endpoints b) widths vs0 l b ->
  cluster_fifo widths (b, ss) e = Ok (b', ss') ->
  length (b_vertices b') = length vs0 /\ charged_for (task_endpoints b) widths vs0 (l ++ [e]) b'.
Proof.
  intros Hlen [_ Hc] H. apply cluster_fifo_vertices in H as [Heps H].
  assert (Hsum : forall r k, zsum (charged (task_endpoints b) widths r k) (l ++ [e]) =
    zsum (charged (task_endpoints b) widths r k) l + charged (task_endpoints b) widths r k e).
  { intros r k. rewrite zsum_app. simpl. lia. }
  destruct (fifo_depth e.2) as [depth|] eqn:Hd.
  - destruct H as (ref & h & w & vx & area & Href & Hh & Hw & Hvx & Harea & Hvs).
    split; [by rewrite Hvs, length_insert|]. split; [done|]. intros k vx0 Hk.
    destruct (Hc k vx0 Hk) as (vy & Hvy & Hn & Ht & Hm & Hwf & Ham). rewrite Hvs.
    assert (Hch : forall r, charged (task_endpoints b) widths r k e =
      if bool_decide (h = k) then amount r (fifo_area w (floorplanned_fifo_storage_depth depth)) else 0).
    { intros r. unfold charged, fifo_cost. rewrite Hd, Href, Hh, Hw. repeat case_bool_decide; congruence. }
    destruct (decide (k = h)) as [->|Hne].
    + assert (vy = vx) as -> by congruence. pose proof (resolve_fifo_data_width_ok widths e.1) as Hwok.
      rewrite Hw in Hwok. simpl in Hwok. eexists. rewrite list_lookup_insert_eq by (by eapply lookup_lt_Some).
      split_and!; [done..| |].
      * eapply Area.checked_add_wf; [exact Hwf|by apply fifo_area_wf|exact Harea].
      * intros r. rewrite Hsum, Hch, bool_decide_eq_true_2 by done. cbn [v_area].
        destruct (proj1 (Area.checked_add_Some _ _ _ Hwf (fifo_area_wf w (floorplanned_fifo_storage_depth depth) Hwok)) Harea r) as [-> _]. rewrite Ham. lia.
    + exists vy. rewrite list_lookup_insert_ne by done. split_and!; try done. intros r.
      rewrite Hsum, Hch, bool_decide_eq_false_2 by done. rewrite Ham. lia.
  - split; [by rewrite H|]. split; [done|]. intros k vx0 Hk.
    destruct (Hc k vx0 Hk) as (vy & Hvy & Hn & Ht & Hm & Hwf & Ham). exists vy. rewrite H. split_and!; try done.
    intros r. rewrite Hsum, Ham. unfold charged at 3. rewrite Hd. lia.
Qed.

Lemma cluster_charges flat td b0 b1 ss :
  (forall vx, vx ∈ b_vertices b0 -> Area.wf (v_area vx)) -> cluster_internal_fifos flat td b0 = Ok (b1, ss) ->
  length (b_vertices b1) = length (b_vertices b0) /\
  charged_for (task_endpoints b0) (index_fifo_arg_widths flat td) (b_vertices b0) (fifos td) b1.
Proof.
  intros Hwf H. unfold cluster_internal_fifos in H.
  change b1 with (b1, ss).1. revert H. apply (try_fold_ind (fun l r => length (b_vertices r.1) = length (b_vertices b0) /\
    charged_for (task_endpoints b0) (index_fifo_arg_widths flat td) (b_vertices b0) l r.1)).
  - split; [done|]. split; [done|]. intros k vx0 Hk. exists vx0. split_and!; try done.
    + apply Hwf. by eapply list_elem_of_lookup_2.
    + intros r. simpl. lia.
  - intros l1 e l2 [b s] [b' s'] _ [Hlen Hc] Hstep. cbn [fst] in *. pose proof (proj1 Hc) as Heps.
    rewrite <- Heps in Hc |- *. by apply (cluster_fifo_charges _ _ _ b s e b' s').
Qed.

(** Whether the child instance [k] is the one FIFO [e] is charged to. *)
Definition charged_to (td : Task) (k : nat) (e : string * InterconnectDefinition) : bool :=
  match fifo_depth e.2, anchor_ref e.2, child_instances td !! k with
  | Some _, Some ref, Some (d, _, i, _) => bool_decide ((d, i) = (ep_task ref, ep_index ref))
  | _, _, _ => false
  end.

Lemma enumerate_fst {A B} (f : nat -> B) (l : list A) :
  map (fun p => f p.1) (enumerate l) = map f (seq 0 (length l)).
Proof.
  rewrite <- (map_map fst f). f_equal. unfold enumerate. apply fst_zip. rewrite length_seq. lia.
Qed.

Lemma task_instances_NoDup td :
  BMap.wf (tasks td) -> NoDup (map (fun e : string * nat * TaskInstance => e.1) (task_instances td)).
Proof.
  intros Hwf. unfold task_instances. pose proof (BMap.wf_NoDup _ Hwf) as Hk. revert Hk. clear Hwf.
  induction (tasks td) as [|[d l] m IH]; simpl; [constructor|]. intros [Hnot Hk]%NoDup_cons.
  rewrite map_app, map_map. simpl. rewrite (enumerate_fst (pair d)).
  apply NoDup_app. split_and!; [| |by apply IH].
  - apply (NoDup_fmap_2 (pair d)), NoDup_seq.
  - intros [d' i] Hin Hin'. apply list_elem_of_In in Hin. apply in_map_iff in Hin as (j & [= <- <-] & _).
    apply Hnot. apply list_elem_of_In in Hin'. apply in_map_iff in Hin' as ([[d' j'] t] & [= -> ->] & Hin').
    apply in_flat_map in Hin' as ([d' l'] & Hm & Hin'). apply in_map_iff in Hin' as (p & [= -> _ _] & _).
    apply list_elem_of_In. by apply (in_map fst _ (d, l')).
Qed.

(** Definition and index identify a child instance. *)
Lemma child_instances_unique td k1 k2 d i n1 n2 t1 t2 :
  BMap.wf (tasks td) -> child_instances td !! k1 = Some (d, n1, i, t1) -> child_instances td !! k2 = Some (d, n2, i, t2) ->
  k1 = k2.
Proof.
  intros Hwf H1 H2.
  assert (Hkey : forall k n t, child_instances td !! k = Some (d, n, i, t) ->
    map (fun e : string * nat * TaskInstance => e.1) (task_instances td) !! k = Some (d, Z.to_nat i)).
  { intros k n t Hk. unfold child_instances in Hk. rewrite list_lookup_fmap in Hk. rewrite list_lookup_fmap.
    destruct (task_instances td !! k) as [[[d' j] t']|]; [|discriminate Hk]. simplify_eq/=. by rewrite Nat2Z.id. }
  eapply NoDup_lookup; [by apply task_instances_NoDup|by eapply Hkey|by eapply Hkey].
Qed.

Lemma charged_exact flat td b widths r k e def name i inst :
  BMap.wf (tasks td) -> tasks_placed flat (child_instances td) b -> child_instances td !! k = Some (def, name, i, inst) ->
  charged (task_endpoints b) widths r k e = if charged_to td k e then amount r (fifo_cost widths e) else 0.
Proof.
  intros Hwf Ht Hk. unfold charged, charged_to. destruct (fifo_depth e.2); [|done].
  destruct (anchor_ref e.2) as [ref|]; [|done]. rewrite Hk. case_bool_decide as H1; case_bool_decide as H2; try done.
  - apply (tp_sound _ _ _ Ht) in H1 as (n & t & H1). assert (H := eq_trans (eq_sym H1) Hk). by simplify_eq.
  - injection H2 as -> ->. destruct H1.
    destruct (tp_complete _ _ _ Ht (ep_task ref) name (ep_index ref) inst) as [k' Hk'];
      [by eapply list_elem_of_lookup_2|].
    destruct (tp_sound _ _ _ Ht _ _ _ Hk') as (n & t & Hc). rewrite Hk'. f_equal.
    by eapply child_instances_unique.
Qed.

(** ** Properties *)

(** Vertex areas account for every FIFO once. In a graph that was built,
    each child instance of the top has the vertex of its position, bearing its
    canonical name; its area is, resource by resource, the area of its task
    definition plus the cost of each FIFO with a depth that is charged to it:
    the FIFOs it consumes, and those it produces that have no consumer. Every
    other vertex (bank terminals, the controller) has no area. *)
Theorem vertex_areas_conserved flat memory control anchor p g td :
  build_with_scopes flat memory control anchor p = Ok g -> BMap.get (top flat) (graph_tasks flat) = Some td ->
  BMap.wf (tasks td) ->
  (forall def task a, BMap.get def (graph_tasks flat) = Some task -> self_area task = Some a -> Area.wf a) ->
  (forall k def name i inst, child_instances td !! k = Some (def, name, i, inst) ->
     exists task vx, BMap.get def (graph_tasks flat) = Some task /\ vertices g !! k = Some vx /\
       v_name vx = name /\ materialize vx = true /\
       forall r, amount r (v_area vx) = amount r (default area_default (self_area task)) +
         zsum (fun e => if charged_to td k e then amount r (fifo_cost (index_fifo_arg_widths flat td) e) else 0) (fifos td)) /\
  (forall k vx, (length (child_instances td) <= k)%nat -> vertices g !! k = Some vx -> v_area vx = area_default).
Proof.
  intros Hbuild Htd Hwf Hareas. destruct (build_with_scopes_ok _ _ _ _ _ _ Hbuild) as (td' & Htd' & Hfit & b0 & b1 & ss & b & H0 & H1 & Hb & Hvs & _).
  assert (td' = td) as -> by congruence. clear Htd'. rewrite Hvs.
  pose proof (add_task_vertices_ok flat td Hfit) as Ht. rewrite H0 in Ht. destruct Ht as [_ Ht].
  assert (Hwf0 : forall vx, vx ∈ b_vertices b0 -> Area.wf (v_area vx)).
  { intros vx (k & Hk)%list_elem_of_lookup. pose proof (lookup_lt_Some _ _ _ Hk) as Hlt. rewrite (tp_length _ _ _ Ht) in Hlt.
    destruct (lookup_lt_is_Some_2 _ _ Hlt) as ([[[def name] i] inst] & Hc).
    destruct (tp_vertex _ _ _ Ht _ _ _ _ _ Hc) as (task & Htask & Hv). rewrite Hk in Hv. injection Hv as ->. cbn [v_area].
    destruct (self_area task) as [a|] eqn:Ha; simpl; [by eapply Hareas|apply Area.wf_default]. }
  destruct (cluster_charges _ _ _ _ _ Hwf0 H1) as [Hlen [Heps Hcharged]]. split.
  - intros k def name i inst Hc. destruct (tp_vertex _ _ _ Ht _ _ _ _ _ Hc) as (task & Htask & Hv).
    destruct (Hcharged _ _ Hv) as (vx & Hvx & Hn & _ & Hm & _ & Ham). exists task, vx.
    split_and!; try done; [eapply prefix_lookup_Some; [exact Hvx|apply (bo_prefix _ _ _ Hb)]|]. intros r. rewrite Ham. cbn [v_area]. f_equal.
    apply zsum_ext. intros e. by apply (charged_exact flat td b0 _ r k e def name i inst).
  - intros k vx Hge Hk. eapply (bo_new _ _ _ Hb); [|exact Hk]. by rewrite Hlen, (tp_length _ _ _ Ht).
Qed.

(** The index, the names and the hosts of a graph that was built. *)
Lemma built_index flat memory control anchor p g : build_with_scopes flat memory control anchor p = Ok g ->
  (forall name v, index_of g name = Some v <-> exists vx, vertices g !! v = Some vx /\ v_name vx = name) /\
  NoDup (map v_name (vertices g)) /\
  (forall a, a ∈ co_located g -> (host a < length (vertices g))%nat).
Proof.
  intros Hbuild. destruct (build_with_scopes_ok _ _ _ _ _ _ Hbuild) as (td & _ & _ & b0 & b1 & ss & b & _ & _ & Hb & Hvs & Hidx & Hco & _).
  unfold index_of. rewrite Hvs, Hidx, Hco. split_and!; [apply Hb| |apply Hb].
  apply NoDup_alt. intros i j name Hi Hj. rewrite list_lookup_fmap in Hi, Hj.
  assert (Hat : forall v, v_name <$> b_vertices b !! v = Some name -> b_index b !! name = Some v).
  { intros v Hv. apply fmap_Some in Hv as (vx & Hv & ->). apply (bo_index _ _ _ Hb). eauto. }
  apply Hat in Hi, Hj. congruence.
Qed.

(** C39: building the placement graph never panics, unless the top has more
    instances of one definition than [u32] can index; and what it returns is
    well formed: the index maps each vertex name to its vertex and to nothing
    else; every stream, AXI net and control net joins two different existing
    vertices, with a non-negative width; every co-located instance has an
    existing host; and vertex names are pairwise distinct. *)
Theorem built_graph_well_formed flat memory control anchor p :
  ((forall td, BMap.get (top flat) (graph_tasks flat) = Some td -> children_fit td) ->
   build_with_scopes flat memory control anchor p <> Panic) /\
  forall g, build_with_scopes flat memory control anchor p = Ok g ->
    (forall name v, index_of g name = Some v <-> exists vx, vertices g !! v = Some vx /\ v_name vx = name) /\
    NoDup (map v_name (vertices g)) /\
    (forall n, n ∈ all_nets g -> (net_src n < length (vertices g))%nat /\ (net_dst n < length (vertices g))%nat /\
       net_src n <> net_dst n /\ 0 <= net_width n) /\
    (forall a, a ∈ co_located g -> (host a < length (vertices g))%nat).
Proof.
  split.
  { intros Hfit H. destruct (BMap.get (top flat) (graph_tasks flat)) as [td|] eqn:Htd.
    - pose proof (build_with_scopes_fit flat memory control anchor p td Htd (Hfit td eq_refl)) as Hok. by rewrite H in Hok.
    - unfold build_with_scopes in H. by rewrite Htd in H. }
  intros g Hbuild. destruct (built_index _ _ _ _ _ _ Hbuild) as (Hidx & Hnd & Hhost). split_and!; [done|done| |done].
  destruct (build_with_scopes_ok _ _ _ _ _ _ Hbuild) as (td & _ & _ & b0 & b1 & ss & b & _ & _ & Hb & -> & _). apply Hb.
Qed.

(** C26: the placement edges account for every net once. There is one edge per
    pair of vertices joined by some net, with the smaller index first; its
    forward and reverse widths are the total widths of the streams, AXI nets and
    control nets in that direction, and its width is their sum, which has not
    wrapped around. *)
Theorem placement_widths_conserved flat memory control anchor p g :
  build_with_scopes flat memory control anchor p = Ok g ->
  NoDup (map (fun e => (e_src e, e_dst e)) (placement_edges g)) /\
  (forall e, e ∈ placement_edges g ->
     (e_src e < e_dst e)%nat /\
     forward_width e = flow (all_nets g) (e_src e) (e_dst e) /\
     reverse_width e = flow (all_nets g) (e_dst e) (e_src e) /\
     e_width e = forward_width e + reverse_width e /\ e_width e <= U32_MAX) /\
  (forall i j, (i < j)%nat ->
     (exists e, e ∈ placement_edges g /\ e_src e = i /\ e_dst e = j) <->
     (exists n, n ∈ all_nets g /\ ((net_src n = i /\ net_dst n = j) \/ (net_src n = j /\ net_dst n = i)))).
Proof.
  intros Hbuild. destruct (build_with_scopes_ok _ _ _ _ _ _ Hbuild) as (td & _ & _ & b0 & b1 & ss & b & _ & _ & Hb & _ & _ & _ & He & _).
  rewrite He. unfold finish. destruct (bo_widths _ _ _ Hb) as [Hwf Hf Hr Hrange Hkeys Hnets].
  split_and!.
  - rewrite map_map. simpl. erewrite map_ext; [apply (BMap.wf_NoDup _ Hwf)|]. by intros [[i j] w].
  - intros e Hin. apply list_elem_of_In, in_map_iff in Hin as ([[i j] w] & <- & Hin).
    destruct (Hkeys (i, j) (in_map fst _ _ Hin)) as [Hlt _]. apply (BMap.In_get _ _ _ Hwf) in Hin.
    assert (Hent : entry_of (placement_widths b) i j = w) by (unfold entry_of; by rewrite Hin).
    pose proof (Hrange i j) as Hw. rewrite Hent in Hw. cbn [fst snd e_src e_dst forward_width reverse_width e_width] in *.
    rewrite <- (Hf i j Hlt), <- (Hr i j Hlt), Hent, wrap32_id by (unfold in_u32; lia). lia.
  - intros i j Hij. split.
    + intros (e & Hin & <- & <-). apply list_elem_of_In, in_map_iff in Hin as ([[i j] w] & <- & Hin). simpl in *.
      destruct (Hkeys (i, j) (in_map fst _ _ Hin)) as (_ & n & Hn & [= Hmin Hmax]). exists n. split; [done|]. lia.
    + intros (n & Hn & Hends). pose proof (Hnets n Hn) as Hin.
      replace (Nat.min (net_src n) (net_dst n), Nat.max (net_src n) (net_dst n)) with (i, j) in Hin by (f_equal; lia).
      apply in_map_iff in Hin as ([[i' j'] w] & [= -> ->] & Hin).
      eexists. split; [apply list_elem_of_In, in_map_iff; by exists ((i, j), w)|done].
Qed.

(** ** Names *)

(** What bears RTL names in the top module. *)
Inductive Entity := EVertex (name : string) | EStream (fifo : string) | EAlias (name : string).

Definition entity_names (e : Entity) : list string :=
  match e with
  | EVertex n | EAlias n => [n; sanitize_identifier_name n]
  | EStream f => [f; sanitize_array_name f +:+ "_fifo"]
  end.

Definition entity_owner (e : Entity) : string :=
  match e with EVertex n => "vertex:" +:+ n | EStream f => "stream:" +:+ f | EAlias n => "alias:" +:+ n end.

Lemma entity_owner_inj e1 e2 : entity_owner e1 = entity_owner e2 -> e1 = e2.
Proof. destruct e1, e2; simpl; intros [=]; by subst. Qed.

(** The entities of a top definition with these vertices and aliases. *)
Definition entities (td : Task) (vs : list Vertex) (al : list CoLocatedInstance) (e : Entity) : Prop :=
  match e with
  | EVertex n => exists v, v ∈ vs /\ v_name v = n
  | EStream f => f ∈ BMap.keys (fifos td)
  | EAlias n => BMap.contains_key n (fifos td) = false /\ exists a, a ∈ al /\ alias_name a = n
  end.

(** The names of [e] are taken by [e]. *)
Definition takes (o : bmap string OccupiedName) (e : Entity) : Prop :=
  forall n, n ∈ entity_names e -> exists x, BMap.get n o = Some x /\ owner x = entity_owner e.

(** Claims never change the owner of a name. *)
Definition keeps_owners (o o' : bmap string OccupiedName) : Prop :=
  forall n x, BMap.get n o = Some x -> BMap.get n o' = Some x.

#[export] Instance keeps_owners_preorder : PreOrder keeps_owners.
Proof. split; [by intros o n x|]. intros o1 o2 o3 H1 H2 n x Hn. auto. Qed.

Lemma takes_mono o o' e : keeps_owners o o' -> takes o e -> takes o' e.
Proof. intros Hk Ht n Hn. destruct (Ht n Hn) as (x & Hx & Ho). eauto. Qed.

Lemma occupy_spec o name own desc o' :
  occupy o (name, own, desc) = Ok o' ->
  keeps_owners o o' /\ exists x, BMap.get name o' = Some x /\ owner x = own.
Proof.
  unfold occupy. destruct (BMap.get name o) as [x|] eqn:Hx.
  - destruct (negb _) eqn:Hc; [done|]. bool_hyps. intros [= <-]. split; [done|by exists x].
  - intros [= <-]. split; [|eexists; by rewrite BMap.get_insert_eq].
    intros n y Hy. rewrite BMap.get_insert_ne; [done|congruence].
Qed.

Lemma occupy_all e desc o o' :
  try_fold occupy o (map (fun n => (n, entity_owner e, desc)) (entity_names e)) = Ok o' -> keeps_owners o o' /\ takes o' e.
Proof.
  intros H. assert (Hk : forall l a a', try_fold occupy a l = Ok a' -> keeps_owners a a').
  { intros l a a'. apply try_fold_rel; [apply _|]. intros b [[n own] d] b' _ Hb. by apply occupy_spec in Hb as [? _]. }
  split; [by eapply Hk|]. revert o H.
  unfold takes. induction (entity_names e) as [|n l IH]; simpl; intros o H n' Hn'; [by apply not_elem_of_nil in Hn'|].
  apply rbind_ok in H as (o1 & Ho1 & H). apply elem_of_cons in Hn' as [->|Hn']; [|by eapply IH].
  apply occupy_spec in Ho1 as (_ & x & Hx & Hown). exists x. split; [|done]. by eapply Hk.
Qed.

(** A loop in which every element takes the names of its entity. *)
Lemma claims_loop {A} (f : bmap string OccupiedName -> A -> res GraphError (bmap string OccupiedName))
    (ent : A -> option Entity) l o o' :
  (forall a x a', f a x = Ok a' -> keeps_owners a a' /\ forall e, ent x = Some e -> takes a' e) ->
  try_fold f o l = Ok o' -> keeps_owners o o' /\ forall x e, x ∈ l -> ent x = Some e -> takes o' e.
Proof.
  intros Hf H. assert (Hk : forall l a a', try_fold f a l = Ok a' -> keeps_owners a a').
  { intros l1 a a'. apply try_fold_rel; [apply _|]. intros b x b' _ Hb. by apply Hf in Hb as [? _]. }
  split; [by eapply Hk|]. revert o H. induction l as [|y l IH]; simpl; intros o H x e Hx He; [by apply not_elem_of_nil in Hx|].
  apply rbind_ok in H as (o1 & Ho1 & H). apply elem_of_cons in Hx as [->|Hx]; [|by eapply IH].
  eapply takes_mono; [by eapply Hk|]. apply Hf in Ho1 as [_ Ht]. by apply Ht.
Qed.

Lemma occupied_rtl_names_spec td vs al o :
  occupied_rtl_names td vs al = Ok o -> forall e, entities td vs al e -> takes o e.
Proof.
  unfold occupied_rtl_names. intros H. apply rbind_ok in H as (o1 & H1 & H). apply rbind_ok in H as (o2 & H2 & H3).
  apply (claims_loop _ (fun v => Some (EVertex (v_name v)))) in H1 as [_ H1].
  2: { intros a v a' Ha. apply (occupy_all (EVertex (v_name v))) in Ha as [? ?]. split; [done|]. by intros ? [= <-]. }
  apply (claims_loop _ (fun f => Some (EStream f))) in H2 as [K2 H2].
  2: { intros a f a' Ha. unfold occupy_stream in Ha. destruct (negb _); [done|].
       apply (occupy_all (EStream f)) in Ha as [? ?]. split; [done|]. by intros ? [= <-]. }
  apply (claims_loop _ (fun a => if BMap.contains_key (alias_name a) (fifos td) then None else Some (EAlias (alias_name a))))
    in H3 as [K3 H3].
  2: { intros a x a' Ha. destruct (BMap.contains_key _ _); [injection Ha as <-; by split|].
       apply (occupy_all (EAlias (alias_name x))) in Ha as [? ?]. split; [done|]. by intros ? [= <-]. }
  intros [n|f|n]; simpl.
  - intros (v & Hv & <-). eapply takes_mono; [exact K3|]. eapply takes_mono; [exact K2|]. by eapply H1.
  - intros Hf. eapply takes_mono; [exact K3|]. by eapply H2.
  - intros (Hc & a & Ha & <-). eapply H3; [exact Ha|]. by rewrite Hc.
Qed.

(** RTL names are unambiguous. In a graph that was built, no two
    different entities of the top module (placement vertices, streams, and
    co-located instances that are not streams) share a name, be it the flat
    name or the sanitized instance name code generation will use. *)
Theorem rtl_names_unambiguous flat memory control anchor p g td e1 e2 n :
  build_with_scopes flat memory control anchor p = Ok g -> BMap.get (top flat) (graph_tasks flat) = Some td ->
  entities td (vertices g) (co_located g) e1 -> entities td (vertices g) (co_located g) e2 ->
  n ∈ entity_names e1 -> n ∈ entity_names e2 -> e1 = e2.
Proof.
  intros Hbuild Htd He1 He2 Hn1 Hn2. destruct (build_with_scopes_ok _ _ _ _ _ _ Hbuild) as (td' & Htd' & Hfit & b0 & b1 & ss & b & _ & _ & _ & _ & _ & _ & _ & Hocc).
  assert (td' = td) as -> by congruence.
  destruct (occupied_rtl_names td (vertices g) (co_located g)) as [o|?|] eqn:E; [|done|done].
  destruct (occupied_rtl_names_spec _ _ _ _ E _ He1 _ Hn1) as (x1 & Hx1 & Ho1).
  destruct (occupied_rtl_names_spec _ _ _ _ E _ He2 _ Hn2) as (x2 & Hx2 & Ho2).
  apply entity_owner_inj. congruence.
Qed.

(** ** Regions *)

(** The regions after the aliases [l]: the old ones, plus that of its host for
    each alias. *)
Definition regions_after (g : FloorGraph) (regions : bmap string string) (l : list CoLocatedInstance)
    (out : bmap string string) : Prop :=
  (forall n r, BMap.get n regions = Some r -> BMap.get n out = Some r) /\
  (forall a, a ∈ l -> BMap.get (alias_name a) regions = None /\
     exists h r, vertices g !! host a = Some h /\ BMap.get (v_name h) out = Some r /\ BMap.get (alias_name a) out = Some r) /\
  (forall n r, BMap.get n out = Some r -> BMap.get n regions = Some r \/ n ∈ map alias_name l) /\
  NoDup (map alias_name l).

Lemma materialize_alias_spec g regions l out a :
  (host a < length (vertices g))%nat -> regions_after g regions l out ->
  match materialize_alias g out a with
  | Ok out' => regions_after g regions (l ++ [a]) out'
  | Err (MissingHostRegion n h) => n = alias_name a /\ BMap.get h regions = None /\
      exists v, vertices g !! host a = Some v /\ v_name v = h
  | Err (NameConflict n _ _) => n = alias_name a /\ (is_Some (BMap.get n regions) \/ n ∈ map alias_name l)
  | _ => False
  end.
Proof.
  intros Hlt (Hold & Hal & Honly & Hnd). unfold materialize_alias.
  destruct (lookup_lt_is_Some_2 _ _ Hlt) as [h Hh]. rewrite Hh. cbn [expect rbind].
  destruct (BMap.get (v_name h) out) as [r|] eqn:Hr; cbn [ok_or rbind].
  2: { split_and!; [done| |by eexists]. destruct (BMap.get (v_name h) regions) eqn:E; [|done]. apply Hold in E. congruence. }
  destruct (BMap.get (alias_name a) out) as [x|] eqn:Hx.
  { split; [done|]. destruct (Honly _ _ Hx) as [->|?]; [left; by eexists|by right]. }
  assert (Hnew : BMap.get (alias_name a) regions = None).
  { destruct (BMap.get (alias_name a) regions) eqn:E; [|done]. apply Hold in E. congruence. }
  assert (Hkeep : forall n y, BMap.get n out = Some y -> BMap.get n (BMap.insert (alias_name a) r out) = Some y)
    by (intros n y Hy; rewrite BMap.get_insert_ne; [done|congruence]).
  unfold regions_after. rewrite map_app. split_and!.
  - intros n y Hy. by apply Hkeep, Hold.
  - intros a' [Ha'| ->%list_elem_of_singleton]%elem_of_app.
    + destruct (Hal a' Ha') as (? & h' & r' & ? & ? & ?). split; [done|]. exists h', r'. auto.
    + split; [done|]. exists h, r. rewrite BMap.get_insert_eq. auto.
  - intros n y. rewrite BMap.get_insert. destruct (decide _) as [->|_].
    + intros _. right. apply elem_of_app. right. by apply list_elem_of_singleton.
    + intros [?|?]%Honly; [by left|right; apply elem_of_app; by left].
  - apply NoDup_app. split_and!; [done| |apply NoDup_singleton]. intros n Hn ->%list_elem_of_singleton.
    apply list_elem_of_In, in_map_iff in Hn as (a' & Heq & Hin%list_elem_of_In).
    destruct (Hal a' Hin) as (_ & h' & r' & _ & _ & Hg). congruence.
Qed.

Lemma materialize_loop g regions l l2 out :
  (forall a, a ∈ l2 -> (host a < length (vertices g))%nat) -> regions_after g regions l out ->
  match try_fold (materialize_alias g) out l2 with
  | Ok out' => regions_after g regions (l ++ l2) out'
  | Err (MissingHostRegion n h) =>
      BMap.get h regions = None /\ exists a v, a ∈ l2 /\ alias_name a = n /\ vertices g !! host a = Some v /\ v_name v = h
  | Err (NameConflict n _ _) =>
      n ∈ map alias_name l2 /\ (is_Some (BMap.get n regions) \/ ~ NoDup (map alias_name (l ++ l2)))
  | _ => False
  end.
Proof.
  revert l out; induction l2 as [|a l2 IH]; simpl; intros l out Hh Hout; [by rewrite app_nil_r|].
  pose proof (materialize_alias_spec g regions l out a (Hh a ltac:(by left)) Hout) as Hstep.
  destruct (materialize_alias g out a) as [out'|e|]; cbn [rbind]; [| |done].
  - specialize (IH (l ++ [a]) out' (fun x Hx => Hh x (list_elem_of_further _ _ _ Hx)) Hstep).
    rewrite <- app_assoc in IH. destruct (try_fold _ out' l2) as [out''|e|]; [done| |done].
    destruct e; try done.
    + destruct IH as [Hn Hd]. split; [by right|done].
    + destruct IH as (Hr & x & v & Hx & Hrest). split; [done|]. exists x, v. split; [by right|done].
  - destruct e; try done.
    + destruct Hstep as [-> Hd]. split; [by left|]. destruct Hd as [?|Hin]; [by left|right].
      rewrite map_app. simpl. intros (_ & Hdis & _)%NoDup_app. apply (Hdis _ Hin). by left.
    + destruct Hstep as (-> & Hr & v & Hv & Hn). split; [done|]. exists a, v. split; [by left|done].
Qed.

Lemma keeps_region_spec {E} g name :
  (forall n v, index g !! n = Some v <-> exists vx, vertices g !! v = Some vx /\ v_name vx = n) ->
  exists keep, keeps_region (E := E) g name = Ok keep /\
    (keep = false <-> exists vx, vx ∈ vertices g /\ v_name vx = name /\ materialize vx = false).
Proof.
  intros Hidx. unfold keeps_region. destruct (index g !! name) as [v|] eqn:Hv.
  - pose proof (proj1 (Hidx _ _) Hv) as (vx & Hvx & Hn). rewrite Hvx. simpl. eexists. split; [done|]. split.
    + intros Hm. exists vx. split_and!; [by eapply list_elem_of_lookup_2|done..].
    + intros (vy & (u & Hu)%list_elem_of_lookup & Hny & Hm). assert (index g !! name = Some u) by (apply Hidx; eauto).
      congruence.
  - exists true. split; [done|]. split; [done|]. intros (vy & (u & Hu)%list_elem_of_lookup & Hny & Hm).
    assert (index g !! name = Some u) by (apply Hidx; eauto). congruence.
Qed.

Lemma remove_transient_spec {E} g regions :
  (forall n v, index g !! n = Some v <-> exists vx, vertices g !! v = Some vx /\ v_name vx = n) ->
  exists out, remove_transient_regions (E := E) g regions = Ok out /\
    forall n r, In (n, r) out <-> In (n, r) regions /\
      ~ exists vx, vx ∈ vertices g /\ v_name vx = n /\ materialize vx = false.
Proof.
  intros Hidx. induction regions as [|[n r] rs (out & Hout & IH)]; simpl.
  { exists []. split; [done|]. intros n r. simpl. tauto. }
  destruct (keeps_region_spec (E := E) g n Hidx) as (keep & Hk & Hkeep). rewrite Hk, Hout. cbn [rbind].
  eexists. split; [done|]. intros n' r'. destruct keep; simpl; rewrite IH.
  - split; [intros [[= <- <-]|[? ?]]; [split; [by left|]|split; [by right|done]]|intros [[[= <- <-]|?] ?]; [by left|by right]].
    intros Hex. by apply Hkeep in Hex.
  - split; [intros [? ?]; split; [by right|done]|intros [[[= <- <-]|?] Hn]; [|done]]. by destruct Hn; apply Hkeep.
Qed.

(** Co-located instances are placed with their hosts. On a graph that was
    built, materializing a region assignment keeps every given entry, adds
    nothing but the co-located instances, and puts each of them in the region of
    its host vertex; it fails only if some host has no region, or if the name
    of an instance is given already or occurs twice; it never panics. Removing
    the transient entries then drops exactly those of the vertices that are not
    RTL instances (the bank terminals). *)
Theorem co_locations_follow_hosts flat memory control anchor p g regions :
  build_with_scopes flat memory control anchor p = Ok g ->
  match materialize_co_locations g regions with
  | Ok out =>
      (forall n r, BMap.get n regions = Some r -> BMap.get n out = Some r) /\
      (forall n r, BMap.get n out = Some r -> BMap.get n regions = Some r \/ n ∈ map alias_name (co_located g)) /\
      (forall a, a ∈ co_located g -> exists h r,
         vertices g !! host a = Some h /\ BMap.get (v_name h) out = Some r /\ BMap.get (alias_name a) out = Some r)
  | Err (MissingHostRegion n h) =>
      BMap.get h regions = None /\
      exists a v, a ∈ co_located g /\ alias_name a = n /\ vertices g !! host a = Some v /\ v_name v = h
  | Err (NameConflict n _ _) =>
      n ∈ map alias_name (co_located g) /\ (is_Some (BMap.get n regions) \/ ~ NoDup (map alias_name (co_located g)))
  | _ => False
  end /\
  exists kept, remove_transient_regions (E := unit) g regions = Ok kept /\
    forall n r, In (n, r) kept <-> In (n, r) regions /\
      ~ exists vx, vx ∈ vertices g /\ v_name vx = n /\ materialize vx = false.
Proof.
  intros Hbuild. destruct (build_with_scopes_ok _ _ _ _ _ _ Hbuild) as (td & _ & _ & b0 & b1 & ss & b & _ & _ & Hb & Hvs & Hidx & Hco & _).
  split; [|apply remove_transient_spec; rewrite Hvs, Hidx; apply Hb].
  assert (Hhost : forall a, a ∈ co_located g -> (host a < length (vertices g))%nat) by (rewrite Hvs, Hco; apply Hb).
  unfold materialize_co_locations.
  pose proof (materialize_loop g regions [] (co_located g) regions Hhost) as Hloop. cbn [app] in Hloop.
  assert (H0 : regions_after g regions [] regions).
  { split_and!; [done| | |constructor]; [intros a Ha; by apply not_elem_of_nil in Ha|by left]. }
  specialize (Hloop H0). destruct (try_fold _ _ _) as [out|e|]; [|done..].
  destruct Hloop as (Hold & Hal & Honly & _). split_and!; [done|done|]. intros a Ha. apply (Hal a Ha).
Qed.

(** ** Witnesses *)

(** The graph of the flattened example: two producers and two consumers with a
    FIFO each, and distributed control with an S-AXI block. *)
Definition example_graph : FloorGraph :=
  match build_with_projection Example.projection [] (Some true) None with
  | Ok g => g
  | _ => mkFloorGraph [] [] [] [] [] ∅ []
  end.

Lemma example_built : build_with_scopes (flat Example.projection) [] (Some true) None (Some Example.projection) = Ok example_graph.
Proof. vm_compute. reflexivity. Qed.

Definition example_td : Task :=
  match BMap.get (top (flat Example.projection)) (graph_tasks (flat Example.projection)) with
  | Some td => td
  | None => Example.top_task
  end.

Lemma example_td_get : BMap.get (top (flat Example.projection)) (graph_tasks (flat Example.projection)) = Some example_td.
Proof. vm_compute. reflexivity. Qed.

Lemma example_td_wf : BMap.wf (tasks example_td).
Proof. apply BMap.wfb_wf. vm_compute. reflexivity. Qed.

(** The areas of the definitions are [u64]. *)
Definition areas_fit (g : TaskGraph) : bool :=
  forallb (fun e => match self_area e.2 with
                    | Some a => forallb (fun r => (0 <=? amount r a) && (amount r a <=? U64_MAX)) resource_all
                    | None => true
                    end) (graph_tasks g).

Lemma areas_fit_wf g : areas_fit g = true ->
  forall def task a, BMap.get def (graph_tasks g) = Some task -> self_area task = Some a -> Area.wf a.
Proof.
  unfold areas_fit. intros H def task a Hg%BMap.get_In Ha. rewrite forallb_forall in H. specialize (H _ Hg). cbn [snd] in H.
  rewrite Ha, forallb_forall in H. intros r.
  assert (Hr : In r resource_all) by (destruct r; simpl; tauto). specialize (H r Hr). bool_hyps. unfold in_u64. lia.
Qed.

Lemma example_areas : areas_fit (flat Example.projection) = true.
Proof. vm_compute. reflexivity. Qed.

Lemma vertex_areas_conserved_witness :
  exists vx, vertices example_graph !! 0%nat = Some vx /\ v_name vx = "Consumer_0" /\ amount Lut (v_area vx) = 66.
Proof.
  assert (Hc : exists t, child_instances example_td !! 0%nat = Some ("Consumer", "Consumer_0", 0, t))
    by (vm_compute; eexists; reflexivity).
  destruct Hc as (t & Hc).
  destruct (proj1 (vertex_areas_conserved _ _ _ _ _ _ _ example_built example_td_get example_td_wf (areas_fit_wf _ example_areas))
    _ _ _ _ _ Hc) as (task & vx & Htask & Hvx & Hn & _ & Ham).
  exists vx. split; [exact Hvx|]. split; [exact Hn|]. rewrite Ham.
  assert (H : BMap.get "Consumer" (graph_tasks (flat Example.projection)) = Some Example.consumer) by (vm_compute; reflexivity).
  rewrite H in Htask. injection Htask as <-. vm_compute. reflexivity.
Defined.

Lemma placement_widths_conserved_witness :
  exists e, e ∈ placement_edges example_graph /\ e_src e = 0%nat /\ e_dst e = 2%nat.
Proof.
  destruct (placement_widths_conserved _ _ _ _ _ _ example_built) as (_ & _ & H).
  apply (H 0%nat 2%nat); [lia|]. exists (2%nat, 0%nat, 35). split; [|right; split; reflexivity].
  apply list_elem_of_In. vm_compute. left. reflexivity.
Defined.

(** No vertex can bear the name of the FIFO instance of a stream. *)
Lemma rtl_names_unambiguous_witness :
  "q_second_Top_fifo" ∈ entity_names (EStream "q_second_Top") /\
  ~ entities example_td (vertices example_graph) (co_located example_graph) (EVertex "q_second_Top_fifo").
Proof.
  assert (H : entities example_td (vertices example_graph) (co_located example_graph) (EStream "q_second_Top")).
  { apply list_elem_of_In. vm_compute. right. left. reflexivity. }
  assert (Hn : "q_second_Top_fifo" ∈ entity_names (EStream "q_second_Top")).
  { apply list_elem_of_In. vm_compute. right. left. reflexivity. }
  split; [exact Hn|]. intros He.
  assert (Hne : "q_second_Top_fifo" ∈ entity_names (EVertex "q_second_Top_fifo")) by left.
  discriminate (rtl_names_unambiguous _ _ _ _ _ _ _ _ _ _ example_built example_td_get He H Hne Hn).
Defined.

(** A region for each vertex. *)
Definition example_regions : bmap string string :=
  BMap.from_list (map (fun v => (v_name v, "SLOT_X0Y0_TO_SLOT_X0Y0")) (vertices example_graph)).

Lemma co_locations_follow_hosts_witness :
  exists out, materialize_co_locations example_graph example_regions = Ok out /\
    forall a, a ∈ co_located example_graph -> exists h r,
      vertices example_graph !! host a = Some h /\ BMap.get (v_name h) out = Some r /\ BMap.get (alias_name a) out = Some r.
Proof.
  assert (E : exists out, materialize_co_locations example_graph example_regions = Ok out) by (vm_compute; eexists; reflexivity).
  destruct E as (out & E). exists out. split; [exact E|].
  destruct (co_locations_follow_hosts (flat Example.projection) [] (Some true) None (Some Example.projection)
    example_graph example_regions example_built) as [H _].
  rewrite E in H. exact (proj2 (proj2 H)).
Defined.
