(* ===== verification/F64Spec.v ===== *)
(** * Rounding of binary64 arithmetic

    The values of the finite floats, as integers in units of [2^-2148] (every
    product of two floats is a whole number of them), the rounding function of
    the operations on them, and its consequences: comparisons are comparisons of
    values, small integers are exact, and rounded sums and products are monotone. *)

From Stdlib Require Import SpecFloat.
From S2P Require Import Prelude F64.
Import F64.

Definition K : Z := 2148.

Definition units (a : f64) : Z :=
  match a with S754_finite s m e => cond_Zopp s (Z.pos m * 2 ^ (e + K)) | _ => 0 end.

(** A finite number of the format. *)
Definition fin (a : f64) : Prop := is_finite a = true /\ valid_binary prec emax a = true.

(** [n / d] rounded to the nearest integer, ties to even. *)
Definition rndq (n d : Z) : Z :=
  let q := n / d in
  match 2 * (n mod d) ?= d with
  | Lt => q
  | Eq => if Z.even q then q else q + 1
  | Gt => q + 1
  end.

Definition rnd (m t : Z) : Z := rndq m (2 ^ t).

(** The exponent, in units, of the last bit kept of [u]. *)
Definition grid (u : Z) : Z := Z.max (Z.log2 u - 52) 1074.

Definition round_units (u : Z) : Z := rnd u (grid u) * 2 ^ grid u.

(** ** Rounding to a multiple of a power of two *)

Lemma rndq_bounds n d : n / d <= rndq n d <= n / d + 1.
Proof. unfold rndq. destruct (_ ?= _); try lia. destruct (Z.even _); lia. Qed.

Lemma rndq_multiple q d : 0 < d -> rndq (q * d) d = q.
Proof.
  intros Hd. unfold rndq. rewrite Z.div_mul, Z.mod_mul by lia. rewrite (proj2 (Z.compare_lt_iff _ _)) by lia. done.
Qed.

Lemma rndq_scale n d c : 0 < d -> 0 < c -> rndq (n * c) (d * c) = rndq n d.
Proof.
  intros Hd Hc. unfold rndq. rewrite Z.div_mul_cancel_r, Z.mul_mod_distr_r by lia.
  replace (2 * (n mod d * c)) with (2 * (n mod d) * c) by ring. by rewrite <- Zmult_compare_compat_r by lia.
Qed.

Lemma rndq_mono n1 n2 d : 0 < d -> n1 <= n2 -> rndq n1 d <= rndq n2 d.
Proof.
  intros Hp Hle. pose proof (Z.div_le_mono n1 n2 _ Hp Hle) as Hq. destruct (Z.eq_dec (n1 / d) (n2 / d)) as [He|Hne].
  2: { pose proof (rndq_bounds n1 d). pose proof (rndq_bounds n2 d). lia. }
  assert (Hr : n1 mod d <= n2 mod d) by (rewrite !Z.mod_eq by lia; rewrite He; lia).
  unfold rndq. rewrite He.
  destruct (Z.compare_spec (2 * (n1 mod d)) d), (Z.compare_spec (2 * (n2 mod d)) d); try lia;
    destruct (Z.even _); lia.
Qed.

Lemma rndq_le n d q : 0 < d -> n <= q * d -> rndq n d <= q.
Proof. intros Hd H. rewrite <- (rndq_multiple q d Hd). by apply rndq_mono. Qed.

Lemma rndq_ge n d q : 0 < d -> q * d <= n -> q <= rndq n d.
Proof. intros Hd H. rewrite <- (rndq_multiple q d Hd). by apply rndq_mono. Qed.

(** The error is at most half a step. *)
Lemma rndq_error n d : 0 < d -> 2 * Z.abs (rndq n d * d - n) <= d.
Proof.
  intros Hd. unfold rndq. pose proof (Z.div_mod n d ltac:(lia)). pose proof (Z.mod_pos_bound n d Hd).
  destruct (Z.compare_spec (2 * (n mod d)) d); [destruct (Z.even _)|..]; nia.
Qed.

Lemma pow2_pos t : 0 <= t -> 0 < 2 ^ t.
Proof. intros. apply Z.pow_pos_nonneg; lia. Qed.

Lemma rnd_bounds m t : 0 <= t -> m / 2 ^ t <= rnd m t <= m / 2 ^ t + 1.
Proof. intros _. apply rndq_bounds. Qed.

Lemma rnd_multiple q t : 0 <= t -> rnd (q * 2 ^ t) t = q.
Proof. intros Ht. by apply rndq_multiple, pow2_pos. Qed.

Lemma rnd_scale m t j : 0 <= t -> 0 <= j -> rnd (m * 2 ^ j) (t + j) = rnd m t.
Proof. intros Ht Hj. unfold rnd. rewrite Z.pow_add_r by lia. by apply rndq_scale; apply pow2_pos. Qed.

Lemma rnd_mono m1 m2 t : 0 <= t -> m1 <= m2 -> rnd m1 t <= rnd m2 t.
Proof. intros Ht. by apply rndq_mono, pow2_pos. Qed.

Lemma rnd_le m t q : 0 <= t -> m <= q * 2 ^ t -> rnd m t <= q.
Proof. intros Ht. by apply rndq_le, pow2_pos. Qed.

Lemma rnd_ge m t q : 0 <= t -> q * 2 ^ t <= m -> q <= rnd m t.
Proof. intros Ht. by apply rndq_ge, pow2_pos. Qed.

(** ** The rounding function *)

Lemma grid_mono u v : 0 < u <= v -> grid u <= grid v.
Proof. intros H. unfold grid. pose proof (Z.log2_le_mono u v). lia. Qed.

Lemma grid_nonneg u : 0 <= grid u.
Proof. unfold grid. lia. Qed.

(** A normal number keeps 53 bits. *)
Lemma rnd_range u : 0 < u -> 0 <= rnd u (grid u) <= 2 ^ 53 /\ (1074 < grid u -> 2 ^ 52 <= rnd u (grid u)).
Proof.
  intros Hu. pose proof (Z.log2_spec u Hu) as [Hlo Hhi]. pose proof (grid_nonneg u) as Hg. split; [split|].
  - apply rnd_ge; lia.
  - apply rnd_le; [done|]. rewrite <- Z.pow_add_r by lia. unfold grid in *.
    apply Z.lt_le_incl, Z.lt_le_trans with (1 := Hhi). apply Z.pow_le_mono_r; lia.
  - intros H. apply rnd_ge; [done|]. rewrite <- Z.pow_add_r by lia. unfold grid in *.
    replace (52 + _) with (Z.log2 u) by lia. done.
Qed.

Lemma round_units_mono u v : 0 < u <= v -> round_units u <= round_units v.
Proof.
  intros H. pose proof (grid_mono u v H) as Hg. unfold round_units. pose proof (grid_nonneg u).
  destruct (Z.eq_dec (grid u) (grid v)) as [He|Hne].
  - rewrite He. apply Z.mul_le_mono_nonneg_r; [apply Z.pow_nonneg; lia|]. apply rnd_mono; lia.
  - assert (Hn : 1074 < grid v) by (unfold grid in *; lia).
    destruct (rnd_range u ltac:(lia)) as [[_ Hu] _]. destruct (rnd_range v ltac:(lia)) as [_ Hv]. specialize (Hv Hn).
    apply Z.le_trans with (2 ^ 53 * 2 ^ grid u); [apply Z.mul_le_mono_nonneg_r; [apply Z.pow_nonneg; lia|done]|].
    apply Z.le_trans with (2 ^ 52 * 2 ^ grid v); [|apply Z.mul_le_mono_nonneg_r; [apply Z.pow_nonneg; lia|done]].
    rewrite <- !Z.pow_add_r by lia. apply Z.pow_le_mono_r; lia.
Qed.

Lemma round_units_multiple q g : 0 < q -> grid (q * 2 ^ g) <= g -> round_units (q * 2 ^ g) = q * 2 ^ g.
Proof.
  intros Hq Hg. unfold round_units. set (h := grid _) in *. assert (0 <= h) by apply grid_nonneg.
  replace (q * 2 ^ g) with (q * 2 ^ (g - h) * 2 ^ h) by (rewrite <- Z.mul_assoc, <- Z.pow_add_r by lia; do 2 f_equal; lia).
  by rewrite rnd_multiple.
Qed.

Lemma round_units_error u : 0 < u -> Z.abs (round_units u - u) <= 2 ^ grid u.
Proof.
  intros Hu. unfold round_units. pose proof (grid_nonneg u) as Hg. pose proof (Z.pow_pos_nonneg 2 (grid u) ltac:(lia) Hg).
  pose proof (rnd_bounds u _ Hg). pose proof (Z.div_mod u (2 ^ grid u) ltac:(lia)). pose proof (Z.mod_pos_bound u (2 ^ grid u) ltac:(lia)).
  nia.
Qed.

(** ** The shift of the library rounds like [rnd] *)

Lemma digits_log2 p : Z.pos (digits2_pos p) = Z.log2 (Z.pos p) + 1.
Proof.
  assert (H : forall q, Z.log2 (Z.pos q~1) = Z.log2 (Z.pos q) + 1 /\ Z.log2 (Z.pos q~0) = Z.log2 (Z.pos q) + 1).
  { intros q. destruct q; split; simpl; lia. }
  induction p as [p IH|p IH|]; cbn [digits2_pos]; [| |done]; rewrite Pos2Z.inj_succ, IH; destruct (H p); lia.
Qed.

(** What the record says of the rest of [num / den], after [n] shifts. *)
Definition shifted (num den n : Z) (mrs : shr_record) : Prop :=
  0 <= shr_m mrs /\
  let r := num - shr_m mrs * (den * 2 ^ n) in
  0 <= r < den * 2 ^ n /\ shr_r mrs = (den * 2 ^ n <=? 2 * r) /\
  shr_s mrs = negb (2 * r =? if shr_r mrs then den * 2 ^ n else 0).

Lemma shifted_0 m : 0 <= m -> shifted m 1 0 {| shr_m := m; shr_r := false; shr_s := false |}.
Proof. intros H. repeat split; simpl; try lia. Qed.

Lemma shifted_1 num den n mrs : 0 < den -> 0 <= n -> shifted num den n mrs -> shifted num den (n + 1) (shr_1 mrs).
Proof.
  intros Hd Hn (Hm & Hr & Er & Es). assert (Hp : 0 < den * 2 ^ n) by (apply Z.mul_pos_pos; [done|by apply pow2_pos]).
  assert (Hpow : den * 2 ^ (n + 1) = 2 * (den * 2 ^ n)) by (rewrite Z.pow_add_r by lia; lia).
  set (P := den * 2 ^ n) in *. clearbody P.
  assert (Hz : shr_r mrs || shr_s mrs = negb (num - shr_m mrs * P =? 0)).
  { rewrite Es, Er. destruct (Z.leb_spec P (2 * (num - shr_m mrs * P))); simpl.
    - symmetry. apply negb_true_iff, Z.eqb_neq. lia.
    - f_equal. destruct (Z.eqb_spec (num - shr_m mrs * P) 0); [apply Z.eqb_eq; lia|apply Z.eqb_neq; lia]. }
  assert (Hgoal : exists b : bool, shr_m mrs = 2 * shr_m (shr_1 mrs) + Z.b2z b /\ 0 <= shr_m (shr_1 mrs) /\
    shr_r (shr_1 mrs) = b /\ shr_s (shr_1 mrs) = shr_r mrs || shr_s mrs).
  { destruct mrs as [m r s]. cbn [shr_m shr_r shr_s] in *. destruct m as [|[p|p|]|p]; [by exists false|by exists true|by exists false|by exists true|lia]. }
  destruct Hgoal as (b & Hb & H0 & Hb1 & Hs1). rewrite Hz in Hs1. unfold shifted. rewrite Hb1, Hs1, Hpow.
  set (m' := shr_m (shr_1 mrs)) in *. rewrite Hb in *. clearbody m'. clear Hz Es Er Hs1 Hb1 Hpow.
  destruct b; cbn [Z.b2z] in *; (split; [lia|split; [lia|split]]).
  - symmetry. apply Z.leb_le. lia.
  - f_equal. apply eq_true_iff_eq. rewrite !Z.eqb_eq. lia.
  - symmetry. apply Z.leb_gt. lia.
  - f_equal. apply eq_true_iff_eq. rewrite !Z.eqb_eq. lia.
Qed.

Lemma shifted_iter num den p : 0 < den -> forall n mrs, 0 <= n -> shifted num den n mrs ->
  shifted num den (n + Z.pos p) (SpecFloat.iter_pos shr_1 p mrs).
Proof.
  intros Hd. induction p as [p IH|p IH|]; intros n mrs Hn H; cbn [SpecFloat.iter_pos].
  - replace (n + Z.pos p~1) with (n + 1 + Z.pos p + Z.pos p) by lia. apply IH; [lia|]. apply IH; [lia|]. by apply shifted_1.
  - replace (n + Z.pos p~0) with (n + Z.pos p + Z.pos p) by lia. apply IH; [lia|]. by apply IH.
  - by apply shifted_1.
Qed.

Lemma shifted_round num den n mrs : 0 < den -> 0 <= n -> shifted num den n mrs ->
  round_nearest_even (shr_m mrs) (loc_of_shr_record mrs) = rndq num (den * 2 ^ n).
Proof.
  intros Hd Hn (Hm & Hr & Er & Es). assert (Hp : 0 < den * 2 ^ n) by (apply Z.mul_pos_pos; [done|by apply pow2_pos]).
  set (P := den * 2 ^ n) in *. clearbody P. destruct mrs as [m r s]. cbn [shr_m shr_r shr_s] in *.
  assert (Hq : num / P = m) by (symmetry; apply (Z.div_unique_pos _ _ _ (num - m * P)); lia).
  assert (Hmod : num mod P = num - m * P) by (rewrite Z.mod_eq by lia; rewrite Hq; lia).
  unfold rndq. rewrite Hq, Hmod. set (x := num - m * P) in *. clearbody x.
  destruct (Z.compare_spec (2 * x) P) as [He|Hl|Hg].
  - assert (r = true) as -> by (rewrite Er; apply Z.leb_le; lia). assert (s = false) as -> by (rewrite Es; apply negb_false_iff, Z.eqb_eq; lia). done.
  - assert (r = false) as -> by (rewrite Er; apply Z.leb_gt; lia). by destruct s.
  - assert (r = true) as -> by (rewrite Er; apply Z.leb_le; lia). assert (s = true) as -> by (rewrite Es; apply negb_true_iff, Z.eqb_neq; lia). done.
Qed.

Lemma shr_round num den mrs0 e t : 0 < den -> 0 <= t -> shifted num den 0 mrs0 ->
  exists mrs, shr mrs0 e t = (mrs, e + t) /\ round_nearest_even (shr_m mrs) (loc_of_shr_record mrs) = rndq num (den * 2 ^ t).
Proof.
  intros Hd Ht H0. destruct t as [|p|p]; [| |lia]; cbn [shr].
  - eexists. rewrite Z.add_0_r. split; [done|]. by apply shifted_round.
  - eexists. split; [done|]. apply (shifted_round num den (0 + Z.pos p)); [done|lia|]. by apply shifted_iter.
Qed.

(** The record of a quotient with its remainder. *)
Lemma located n d : 0 < d -> 0 <= n -> shifted n d 0 (shr_record_of_loc (n / d) (new_location d (n mod d))).
Proof.
  intros Hd Hn. pose proof (Z.div_mod n d ltac:(lia)) as Hdm. pose proof (Z.mod_pos_bound n d Hd) as Hr.
  pose proof (Z.div_pos n d Hn Hd) as Hq. assert (E : n - n / d * (d * 1) = n mod d) by lia.
  assert (Hloc : match new_location d (n mod d) with
    | loc_Exact => n mod d = 0
    | loc_Inexact c => n mod d <> 0 /\ c = (2 * (n mod d) ?= d) end).
  { unfold new_location, new_location_even, new_location_odd. destruct (Z.even d) eqn:Ev; destruct (Z.eqb_spec (n mod d) 0); try done.
    split; [done|]. assert (Hodd : d <> 2 * (n mod d)) by (intros Eq; rewrite Eq, Z.even_mul in Ev; done).
    destruct (Z.compare_spec (2 * (n mod d) + 1) d); symmetry; [apply Z.compare_lt_iff|apply Z.compare_lt_iff|apply Z.compare_gt_iff]; lia. }
  set (x := n mod d) in *. unfold shifted. change (2 ^ 0) with 1. clearbody x.
  destruct (new_location d x) as [|c]; [|destruct Hloc as [Hne ->]; destruct (Z.compare_spec (2 * x) d)];
    cbn [shr_record_of_loc shr_m shr_r shr_s]; rewrite E; (split; [done|split; [lia|split]]); symmetry;
    try (apply Z.leb_le; lia); try (apply Z.leb_gt; lia); try (apply negb_true_iff, Z.eqb_neq; lia); try (apply negb_false_iff, Z.eqb_eq; lia).
Qed.

(** ** Rounding a mantissa and an exponent *)

Notation fexp64 := (fexp prec emax).

Lemma fexp64_eq e : fexp64 e = Z.max (e - 53) (-1074).
Proof. reflexivity. Qed.

Lemma grid_fexp m e : - K <= e -> grid (Z.pos m * 2 ^ (e + K)) = fexp64 (Z.pos (digits2_pos m) + e) + K.
Proof.
  intros He. unfold grid, K in *. rewrite Z.log2_mul_pow2, fexp64_eq, digits_log2 by lia. lia.
Qed.

Lemma fin_intro s m e : fexp64 (Z.pos (digits2_pos m) + e) = e -> e <= 971 -> fin (S754_finite s m e).
Proof.
  intros H1 H2. split; [done|]. cbn [valid_binary]. unfold bounded, canonical_mantissa.
  rewrite H1, Z.eqb_refl. apply Z.leb_le. unfold emax, prec. lia.
Qed.

Lemma round_units_scaled m e : - K <= e -> e <= fexp64 (Z.pos (digits2_pos m) + e) ->
  round_units (Z.pos m * 2 ^ (e + K)) =
  rnd (Z.pos m) (fexp64 (Z.pos (digits2_pos m) + e) - e) * 2 ^ (fexp64 (Z.pos (digits2_pos m) + e) + K).
Proof.
  intros He Hle. unfold round_units. rewrite grid_fexp by done. set (f := fexp64 _) in *. f_equal.
  replace (f + K) with (f - e + (e + K)) by lia. apply rnd_scale; lia.
Qed.

(** Rounding [num / den] times [2 ^ e], of which [m] and [l] are the whole part
    and the location of the rest. *)
Lemma round_aux_quotient s num den m e l : 0 < den -> shifted num den 0 (shr_record_of_loc (Z.pos m) l) ->
  - K <= e -> e <= fexp64 (Z.pos (digits2_pos m) + e) <= 970 ->
  let f := fexp64 (Z.pos (digits2_pos m) + e) in
  let r := binary_round_aux prec emax s (Z.pos m) e l in
  fin r /\ units r = cond_Zopp s (rndq num (den * 2 ^ (f - e)) * 2 ^ (f + K)).
Proof.
  intros Hd Hs He [Hle Hbig]. cbv zeta. unfold binary_round_aux, shr_fexp. cbn [Zdigits2].
  set (f := fexp64 (Z.pos (digits2_pos m) + e)) in *.
  destruct (shr_round num den _ e (f - e) Hd ltac:(lia) Hs) as (mrs & -> & ->).
  replace (e + (f - e)) with f by lia. set (D := den * 2 ^ (f - e)).
  assert (HD : 0 < D) by (apply Z.mul_pos_pos; [done|apply pow2_pos; lia]).
  assert (Hm : Z.pos m * den <= num < (Z.pos m + 1) * den).
  { destruct Hs as (_ & Hr & _). assert (E : shr_m (shr_record_of_loc (Z.pos m) l) = Z.pos m) by (by destruct l as [|[]]).
    rewrite E in Hr. change (2 ^ 0) with 1 in Hr. lia. }
  pose proof (Z.log2_spec (Z.pos m) ltac:(lia)) as [Hlo Hhi]. set (g := Z.log2 (Z.pos m)) in *.
  assert (Hfe : f = Z.max (g + e - 52) (- 1074)) by (unfold f; rewrite fexp64_eq, digits_log2; fold g; lia).
  pose proof (Z.log2_nonneg (Z.pos m)) as Hg. fold g in Hg.
  assert (Hrange : 0 <= rndq num D <= 2 ^ 53 /\ (- 1074 < f -> 2 ^ 52 <= rndq num D)).
  { split; [split|].
    - apply rndq_ge; nia.
    - apply rndq_le; [done|]. apply Z.le_trans with (2 ^ Z.succ g * den); [nia|].
      apply Z.le_trans with (2 ^ (53 + (f - e)) * den); [apply Z.mul_le_mono_nonneg_r; [lia|]; apply Z.pow_le_mono_r; lia|].
      unfold D. rewrite Z.pow_add_r by lia. nia.
    - intros Hf. apply rndq_ge; [done|]. unfold D. replace (2 ^ 52 * (den * 2 ^ (f - e))) with (2 ^ (52 + (f - e)) * den) by (rewrite Z.pow_add_r by lia; ring).
      replace (52 + (f - e)) with g by lia. nia. }
  clearbody f g. set (q := rndq num D) in *. clearbody q. clear mrs Hm Hs.
  destruct Hrange as [[H0 H53] Hnorm]. assert (Hf : - 1074 <= f) by lia.
  destruct q as [|p|p]; [| |lia]; cbn [Zdigits2 shr_record_of_loc].
  { rewrite Z.add_0_l, fexp64_eq. destruct (Z.max (f - 53) (-1074) - f) as [|x|x] eqn:E; [|lia|]; simpl; by destruct s. }
  rewrite fexp64_eq, digits_log2.
  destruct (Z.eq_dec (Z.pos p) (2 ^ 53)) as [Hp|Hp].
  - change (2 ^ 53) with 9007199254740992 in Hp. injection Hp as ->. replace (Z.max _ _ - f) with 1 by (change (Z.log2 9007199254740992) with 53; lia).
    cbn [shr SpecFloat.iter_pos shr_1 shr_m orb]. unfold emax, prec. rewrite (proj2 (Z.leb_le _ _)) by lia. split.
    + apply fin_intro; [|lia]. rewrite fexp64_eq, digits_log2. change (Z.log2 4503599627370496) with 52. lia.
    + unfold units. f_equal. replace (f + 1 + K) with (Z.succ (f + K)) by lia. rewrite Z.pow_succ_r by (unfold K; lia). ring.
  - assert (Hlog : Z.log2 (Z.pos p) <= 52) by (apply Z.lt_succ_r, Z.log2_lt_pow2; lia).
    assert (Hcan : Z.max (Z.log2 (Z.pos p) + 1 + f - 53) (- 1074) = f).
    { destruct (Z.eq_dec f (- 1074)); [lia|]. enough (52 <= Z.log2 (Z.pos p)) by lia.
      apply Z.log2_le_pow2; [lia|]. apply Hnorm. lia. }
    rewrite Hcan, Z.sub_diag. cbn [shr shr_m]. unfold emax, prec. rewrite (proj2 (Z.leb_le _ _)) by lia. split; [|done].
    apply fin_intro; [|lia]. rewrite fexp64_eq, digits_log2. exact Hcan.
Qed.

Lemma round_aux_spec s m e : - K <= e -> e <= fexp64 (Z.pos (digits2_pos m) + e) <= 970 ->
  let r := binary_round_aux prec emax s (Z.pos m) e loc_Exact in
  fin r /\ units r = cond_Zopp s (round_units (Z.pos m * 2 ^ (e + K))).
Proof.
  intros He Hf. cbv zeta. rewrite round_units_scaled by (lia || done). unfold rnd. rewrite <- (Z.mul_1_l (2 ^ (_ - e))).
  apply round_aux_quotient; [done| |done|done]. by apply shifted_0.
Qed.

(** Far below the infinities. *)
Definition in_range (u : Z) : Prop := 0 <= u < 2 ^ (1000 + K).

Lemma fexp_in_range m e : - K <= e -> in_range (Z.pos m * 2 ^ (e + K)) -> fexp64 (Z.pos (digits2_pos m) + e) <= 970.
Proof.
  intros He [_ H]. apply Z.log2_lt_pow2 in H; [|apply Z.mul_pos_pos; [lia|apply Z.pow_pos_nonneg; lia]].
  rewrite Z.log2_mul_pow2 in H by lia. rewrite fexp64_eq, digits_log2. lia.
Qed.

Lemma iter_xO m d : Z.pos (Pos.iter xO m d) = Z.pos m * 2 ^ Z.pos d.
Proof.
  induction d as [|d IH] using Pos.peano_ind; [simpl; lia|].
  rewrite Pos.iter_succ, Pos2Z.inj_xO, IH, Pos2Z.inj_succ, Z.pow_succ_r by lia. ring.
Qed.

Lemma shl_align_spec m e e' : Z.min e e' = snd (shl_align m e e') /\
  (e' <= e -> Z.pos (fst (shl_align m e e')) = Z.pos m * 2 ^ (e - e')) /\ (e <= e' -> fst (shl_align m e e') = m).
Proof.
  unfold shl_align. destruct (e' - e) as [|d|d] eqn:E; cbn [fst snd].
  - split; [lia|]. split; [|done]. intros. replace (e - e') with 0 by lia. lia.
  - split; [lia|]. split; [lia|done].
  - split; [lia|]. split; [|lia]. intros. rewrite iter_xO. do 2 f_equal. lia.
Qed.

Lemma binary_round_spec s m e : - K <= e -> in_range (Z.pos m * 2 ^ (e + K)) ->
  let r := binary_round prec emax s m e in
  fin r /\ units r = cond_Zopp s (round_units (Z.pos m * 2 ^ (e + K))).
Proof.
  intros He Hr. pose proof (fexp_in_range m e He Hr) as Hf. cbv zeta. unfold binary_round.
  set (f := fexp64 (Z.pos (digits2_pos m) + e)) in *. destruct (shl_align_spec m e f) as (Hmin & Hle & Hge).
  destruct (shl_align m e f) as [mz ez]. cbn [fst snd] in *. subst ez. assert (- 1074 <= f) by (unfold f; rewrite fexp64_eq; lia).
  destruct (Z.le_gt_cases e f) as [Hef|Hef].
  - rewrite Z.min_l, Hge by lia. apply round_aux_spec; [done|]. fold f. lia.
  - rewrite Z.min_r by lia. specialize (Hle ltac:(lia)).
    assert (Hv : Z.pos mz * 2 ^ (f + K) = Z.pos m * 2 ^ (e + K)).
    { rewrite Hle, <- Z.mul_assoc, <- Z.pow_add_r by (unfold K; lia). do 2 f_equal. lia. }
    assert (Hd : fexp64 (Z.pos (digits2_pos mz) + f) = f).
    { unfold f at 2. rewrite !digits_log2, Hle, Z.log2_mul_pow2 by lia. f_equal. lia. }
    rewrite <- Hv. apply round_aux_spec; [unfold K; lia|]. lia.
Qed.

(** ** The operations on values *)

Lemma fin_finite s m e : fin (S754_finite s m e) -> fexp64 (Z.pos (digits2_pos m) + e) = e /\ - 1074 <= e <= 971.
Proof.
  intros [_ H]. cbn [valid_binary] in H. unfold bounded, canonical_mantissa in H. apply andb_true_iff in H as [H1%Z.eqb_eq H2%Z.leb_le].
  change (emax - prec) with 971 in H2. pose proof (fexp64_eq (Z.pos (digits2_pos m) + e)). lia.
Qed.

Lemma fin_cases a : fin a -> 0 <= units a ->
  (units a = 0 /\ exists s, a = S754_zero s) \/
  (exists m e, a = S754_finite false m e /\ - 1074 <= e /\ units a = Z.pos m * 2 ^ (e + K) /\ grid (units a) = e + K).
Proof.
  intros Hf Hu. destruct a as [s|s| |s m e]; [left; by eauto|by destruct Hf|by destruct Hf|right].
  destruct (fin_finite _ _ _ Hf) as [Hc He]. pose proof (Z.pow_pos_nonneg 2 (e + K) ltac:(lia) ltac:(unfold K; lia)).
  destruct s; cbn [units cond_Zopp] in Hu; [lia|]. exists m, e. split_and!; [done|lia|done|]. cbn [units cond_Zopp].
  rewrite grid_fexp by (unfold K; lia). by rewrite Hc.
Qed.

Lemma round_units_fin a : fin a -> 0 <= units a -> round_units (units a) = units a.
Proof.
  intros Hf Hu. destruct (fin_cases a Hf Hu) as [[-> _]|(m & e & -> & He & Hv & Hg)]; [done|].
  rewrite Hv in *. apply round_units_multiple; lia.
Qed.

Lemma round_units_nonneg u : 0 <= u -> 0 <= round_units u.
Proof.
  intros Hu. destruct (Z.eq_dec u 0) as [->|]; [done|]. unfold round_units.
  apply Z.mul_nonneg_nonneg; [apply rnd_range; lia|apply Z.pow_nonneg; lia].
Qed.

Lemma round_units_le u v : 0 <= u <= v -> round_units u <= round_units v.
Proof.
  intros H. destruct (Z.eq_dec u 0) as [->|]; [|apply round_units_mono; lia].
  apply (Z.le_trans _ 0); [done|]. apply round_units_nonneg. lia.
Qed.

Lemma normalize_spec z e : 0 <= z -> - K <= e -> in_range (z * 2 ^ (e + K)) ->
  fin (binary_normalize prec emax z e false) /\ units (binary_normalize prec emax z e false) = round_units (z * 2 ^ (e + K)).
Proof.
  intros Hz He Hr. destruct z as [|p|p]; [done| |lia]. by apply binary_round_spec.
Qed.

Lemma add_spec a b : fin a -> fin b -> 0 <= units a -> 0 <= units b -> in_range (units a + units b) ->
  fin (add a b) /\ units (add a b) = round_units (units a + units b).
Proof.
  intros Ha Hb Ua Ub Hr. unfold add, SFadd.
  destruct (fin_cases a Ha Ua) as [[Za [sa ->]]|(ma & ea & -> & Hea & Va & _)], (fin_cases b Hb Ub) as [[Zb [sb ->]]|(mb & eb & -> & Heb & Vb & _)].
  - split; [by destruct sa, sb|]. by destruct sa, sb.
  - split; [done|]. rewrite Za, Z.add_0_l. by rewrite round_units_fin.
  - split; [done|]. rewrite Zb, Z.add_0_r. by rewrite round_units_fin.
  - cbn [cond_Zopp]. set (ez := Z.min ea eb).
    destruct (shl_align_spec ma ea ez) as (_ & Ha' & _). destruct (shl_align_spec mb eb ez) as (_ & Hb' & _).
    rewrite Ha', Hb' by lia.
    assert (E : (Z.pos ma * 2 ^ (ea - ez) + Z.pos mb * 2 ^ (eb - ez)) * 2 ^ (ez + K) = units (S754_finite false ma ea) + units (S754_finite false mb eb)).
    { rewrite Va, Vb, Z.mul_add_distr_r, <- !Z.mul_assoc, <- !Z.pow_add_r by (unfold ez, K; lia). do 3 f_equal; lia. }
    rewrite <- E in *. apply normalize_spec; [|unfold ez, K; lia|done].
    apply Z.add_nonneg_nonneg; apply Z.mul_nonneg_nonneg; try lia; apply Z.pow_nonneg; lia.
Qed.

Lemma mul_spec a b : fin a -> fin b -> 0 <= units a -> 0 <= units b -> in_range (units a * units b / 2 ^ K) ->
  fin (mul a b) /\ units (mul a b) = round_units (units a * units b / 2 ^ K) /\
  units a * units b = units a * units b / 2 ^ K * 2 ^ K.
Proof.
  intros Ha Hb Ua Ub Hr. unfold mul, SFmul.
  destruct (fin_cases a Ha Ua) as [[Za [sa ->]]|(ma & ea & -> & Hea & Va & Ga)], (fin_cases b Hb Ub) as [[Zb [sb ->]]|(mb & eb & -> & Heb & Vb & Gb)].
  1-3: by split_and!; rewrite ?Za, ?Zb, ?Z.mul_0_r, ?Z.mul_0_l.
  assert (E : units (S754_finite false ma ea) * units (S754_finite false mb eb) = Z.pos (ma * mb) * 2 ^ (ea + eb + K) * 2 ^ K).
  { rewrite Va, Vb, Pos2Z.inj_mul. rewrite <- !Z.mul_assoc, <- Z.pow_add_r by (unfold K; lia).
    replace (ea + eb + K + K) with ((ea + K) + (eb + K)) by lia. rewrite (Z.pow_add_r 2 (ea + K)) by (unfold K; lia). ring. }
  rewrite E, Z.div_mul in Hr by (apply Z.pow_nonzero; unfold K; lia). rewrite E, Z.div_mul by (apply Z.pow_nonzero; unfold K; lia). cbn [xorb]. apply and_assoc. split; [|done].
  apply round_aux_spec; [unfold K; lia|]. split; [|apply fexp_in_range; [unfold K; lia|done]].
  rewrite fexp64_eq, digits_log2, Pos2Z.inj_mul. destruct (fin_finite _ _ _ Ha) as [Ca _], (fin_finite _ _ _ Hb) as [Cb _].
  rewrite fexp64_eq, digits_log2 in Ca, Cb.
  assert (La : Z.log2 (Z.pos ma) <= Z.log2 (Z.pos ma * Z.pos mb)) by (apply Z.log2_le_mono; nia).
  assert (Lb : Z.log2 (Z.pos mb) <= Z.log2 (Z.pos ma * Z.pos mb)) by (apply Z.log2_le_mono; nia). lia.
Qed.

(** A quotient, rounded on the grid of its whole part. *)
Definition round_quotient (n d : Z) : Z := rndq n (d * 2 ^ grid (n / d)) * 2 ^ grid (n / d).

Lemma log2_div_pow2 x k : 0 <= k -> 1 <= x / 2 ^ k -> Z.log2 (x / 2 ^ k) = Z.log2 x - k.
Proof.
  intros Hk H. pose proof (pow2_pos k Hk). pose proof (Z.mul_div_le x (2 ^ k) ltac:(lia)).
  assert (k <= Z.log2 x) by (apply Z.log2_le_pow2; nia). rewrite <- Z.shiftr_div_pow2 by done. rewrite Z.log2_shiftr by nia. lia.
Qed.

(** The size of a quotient of two mantissas. *)
Lemma quotient_size m1 m2 x : 0 <= x -> let D := Z.log2 (Z.pos m1) - Z.log2 (Z.pos m2) + x in
  (forall k, 0 <= k -> k + 1 <= D -> 2 ^ k <= Z.pos m1 * 2 ^ x / Z.pos m2) /\
  (0 <= D + 1 -> Z.pos m1 * 2 ^ x / Z.pos m2 < 2 ^ (D + 1)).
Proof.
  intros Hx D. pose proof (Z.log2_spec (Z.pos m1) ltac:(lia)) as [L1 U1]. pose proof (Z.log2_spec (Z.pos m2) ltac:(lia)) as [L2 U2].
  pose proof (Z.log2_nonneg (Z.pos m1)). pose proof (Z.log2_nonneg (Z.pos m2)). pose proof (pow2_pos x Hx). split.
  - intros k Hk HD. apply Z.div_le_lower_bound; [lia|]. apply Z.le_trans with (2 ^ Z.succ (Z.log2 (Z.pos m2)) * 2 ^ k); [apply Z.mul_le_mono_nonneg_r; [apply Z.pow_nonneg|]; lia|].
    rewrite <- Z.pow_add_r by lia. apply Z.le_trans with (2 ^ (Z.log2 (Z.pos m1) + x)); [apply Z.pow_le_mono_r; unfold D in *; lia|].
    rewrite Z.pow_add_r by lia. nia.
  - intros HD. apply Z.div_lt_upper_bound; [lia|]. apply Z.lt_le_trans with (2 ^ (Z.succ (Z.log2 (Z.pos m1)) + x)).
    + rewrite Z.pow_add_r by lia. nia.
    + apply Z.le_trans with (2 ^ Z.log2 (Z.pos m2) * 2 ^ (D + 1)); [|apply Z.mul_le_mono_nonneg_r; [apply Z.pow_nonneg|]; lia].
      rewrite <- Z.pow_add_r by lia. apply Z.pow_le_mono_r; unfold D; lia.
Qed.

(** The dividend may have any number of digits. *)
Lemma quotient_spec m1 e1 m2 e2 : - 1074 <= e1 <= 971 -> - 1074 <= e2 <= 971 -> Z.log2 (Z.pos m2) <= 52 -> let n := Z.pos m1 * 2 ^ (e1 + K) * 2 ^ K in let d := Z.pos m2 * 2 ^ (e2 + K) in
  2 ^ 1200 <= n / d < 2 ^ (1000 + K) ->
  let r := div (S754_finite false m1 e1) (S754_finite false m2 e2) in fin r /\ units r = round_quotient n d.
Proof.
  intros [He1 Hu1] [He2 Hu2] Hl2. cbv zeta. intros Hr. assert (HK : K = 2148) by done. pose proof (Z.log2_nonneg (Z.pos m1)) as Hl1.
  unfold round_quotient, div, SFdiv, SFdiv_core_binary. cbn [Zdigits2 xorb]. rewrite !digits_log2.
  set (D := Z.log2 (Z.pos m1) - Z.log2 (Z.pos m2) + (e1 - e2)).
  replace (_ + 1 + e1 - (_ + 1 + e2)) with D by (unfold D; lia).
  set (e' := Z.min (fexp64 D) (e1 - e2)). set (x := e1 - e2 - e').
  assert (Hx : 0 <= x) by (unfold x, e'; lia).
  assert (Hpow : match x with Z0 => Z.pos m1 | Z.pos _ => Z.shiftl (Z.pos m1) x | Z.neg _ => 0 end = Z.pos m1 * 2 ^ x).
  { destruct x as [|p|p]; [by rewrite Z.mul_1_r|by apply Z.shiftl_mul_pow2|lia]. }
  rewrite Hpow. clear Hpow. set (n := Z.pos m1 * 2 ^ x). assert (Hn : 0 <= n) by (apply Z.mul_nonneg_nonneg; [lia|apply Z.pow_nonneg; lia]).
  assert (E : Z.div_eucl n (Z.pos m2) = (n / Z.pos m2, n mod Z.pos m2)) by (unfold Z.div, Z.modulo; by destruct (Z.div_eucl n (Z.pos m2))).
  rewrite E. clear E.
  assert (He' : -K <= e') by (unfold e', K; rewrite fexp64_eq; lia). set (c := 2 ^ (e2 + e' + 2 * K)).
  assert (Hc : 0 < c) by (apply pow2_pos; unfold e', K; rewrite fexp64_eq; lia).
  assert (EN : Z.pos m1 * 2 ^ (e1 + K) * 2 ^ K = n * c).
  { unfold n, c. rewrite <- !Z.mul_assoc, <- !Z.pow_add_r by (unfold e', K in *; rewrite ?fexp64_eq in *; lia). do 2 f_equal. unfold x. lia. }
  assert (ED : forall g, 0 <= g -> Z.pos m2 * 2 ^ (e2 + K) * 2 ^ (g + e' + K) = Z.pos m2 * 2 ^ g * c).
  { intros g Hg. unfold c. rewrite <- !Z.mul_assoc, <- !Z.pow_add_r by (unfold e', K in *; rewrite ?fexp64_eq in *; lia). do 2 f_equal. lia. }
  set (w := Z.pos m1 * 2 ^ (e1 + K) * 2 ^ K / (Z.pos m2 * 2 ^ (e2 + K))) in *.
  assert (Hw : w = n * 2 ^ (e' + K) / Z.pos m2).
  { unfold w. rewrite EN. unfold c. replace (e2 + e' + 2 * K) with ((e' + K) + (e2 + K)) by lia.
    rewrite Z.pow_add_r, Z.mul_assoc by lia. apply Z.div_mul_cancel_r; [lia|apply Z.pow_nonzero; lia]. }
  assert (Hq : n / Z.pos m2 = w / 2 ^ (e' + K)).
  { rewrite Hw, Z.div_div by (lia || apply pow2_pos; lia). symmetry. apply Z.div_mul_cancel_r; [lia|apply Z.pow_nonzero; lia]. }
  assert (HD : - 948 <= D).
  { destruct (quotient_size m1 m2 (x + (e' + K)) ltac:(lia)) as [_ Hsz]. rewrite Z.pow_add_r, Z.mul_assoc in Hsz by lia. fold n in Hsz. rewrite <- Hw in Hsz.
    destruct (Z.lt_ge_cases D (- 948)) as [Hlt|]; [exfalso|lia]. replace (_ - _ + (x + (e' + K))) with (D + K) in Hsz by (unfold D, x; lia).
    specialize (Hsz ltac:(unfold D; lia)). destruct Hr as [Hr _]. apply (Z.lt_irrefl w). apply Z.lt_le_trans with (1 := Hsz).
    apply Z.le_trans with (2 := Hr). apply Z.pow_le_mono_r; lia. }
  assert (He'D : e' <= D - 53) by (unfold e'; rewrite fexp64_eq; lia).
  destruct (quotient_size m1 m2 x Hx) as [Hsz _]. fold n in Hsz. specialize (Hsz 52 ltac:(lia) ltac:(unfold D, x in *; lia)).
  assert (HL : Z.log2 (n / Z.pos m2) = Z.log2 w - (e' + K)).
  { rewrite Hq in *. apply log2_div_pow2; [lia|]. apply Z.le_trans with (2 ^ 52); [done|exact Hsz]. }
  assert (HL52 : 52 <= Z.log2 (n / Z.pos m2)) by (apply Z.log2_le_pow2; [apply Z.lt_le_trans with (2 ^ 52); [done|exact Hsz]|exact Hsz]).
  assert (HLw : 1200 <= Z.log2 w < 1000 + K).
  { destruct Hr as [R1 R2]. assert (0 < w) by (apply Z.lt_le_trans with (2 ^ 1200); [by apply pow2_pos|done]).
    split; [by apply Z.log2_le_pow2|by apply Z.log2_lt_pow2]. }
  pose proof (located n (Z.pos m2) ltac:(lia) Hn) as Hloc. destruct (n / Z.pos m2) as [|q|q] eqn:Eq; [done| |done].
  assert (Hf : fexp64 (Z.pos (digits2_pos q) + e') = Z.log2 w - 52 - K) by (rewrite fexp64_eq, digits_log2, HL; unfold K in *; lia).
  destruct (round_aux_quotient false n (Z.pos m2) q e' _ ltac:(lia) Hloc ltac:(lia) ltac:(rewrite Hf; unfold K in *; lia)) as [Hfin Hval].
  split; [exact Hfin|]. rewrite Hval. cbn [cond_Zopp]. rewrite Hf.
  assert (Hg : grid w = Z.log2 w - 52) by (unfold grid; lia). rewrite Hg. f_equal; [|f_equal; lia].
  pose proof (ED (Z.log2 w - 52 - K - e') ltac:(lia)) as EW. replace (Z.log2 w - 52 - K - e' + e' + K) with (Z.log2 w - 52) in EW by lia.
  rewrite EN, EW. symmetry. apply rndq_scale; [|done].
  apply Z.mul_pos_pos; [lia|]. apply pow2_pos. lia.
Qed.

Lemma div_spec a b : fin a -> fin b -> 0 < units a -> 0 < units b ->
  2 ^ 1200 <= units a * 2 ^ K / units b < 2 ^ (1000 + K) ->
  fin (div a b) /\ units (div a b) = round_quotient (units a * 2 ^ K) (units b).
Proof.
  intros Ha Hb Ua Ub Hr. destruct (fin_cases a Ha ltac:(lia)) as [[? _]|(m1 & e1 & -> & He1 & V1 & _)]; [lia|].
  destruct (fin_cases b Hb ltac:(lia)) as [[? _]|(m2 & e2 & -> & He2 & V2 & _)]; [lia|].
  rewrite V1, V2 in *. apply quotient_spec; [split; [lia|apply (fin_finite _ _ _ Ha)]|split; [lia|apply (fin_finite _ _ _ Hb)]| |exact Hr].
  pose proof (proj1 (fin_finite _ _ _ Hb)) as C. rewrite fexp64_eq, digits_log2 in C. lia.
Qed.

Lemma of_Z_spec z : 0 <= z <= U64_MAX -> fin (of_Z z) /\ units (of_Z z) = round_units (z * 2 ^ K).
Proof.
  intros Hz. apply (normalize_spec z 0); [lia|unfold K; lia|]. split; [apply Z.mul_nonneg_nonneg; [lia|done]|].
  rewrite Z.add_0_l, Z.pow_add_r by (unfold K; lia). apply Z.mul_lt_mono_pos_r; [apply Z.pow_pos_nonneg; unfold K; lia|].
  unfold U64_MAX in Hz. apply Z.lt_le_trans with (2 ^ 64); [lia|]. by apply Z.pow_le_mono_r.
Qed.

(** Integers up to [2^53] are exact. *)
Lemma of_Z_exact z : 0 <= z <= 2 ^ 53 -> fin (of_Z z) /\ units (of_Z z) = z * 2 ^ K.
Proof.
  intros Hz. destruct (of_Z_spec z ltac:(unfold U64_MAX; lia)) as [Hf ->]. split; [done|].
  destruct (Z.eq_dec z 0) as [->|]; [done|]. destruct (Z.eq_dec z (2 ^ 53)) as [->|].
  - replace (2 ^ 53 * 2 ^ K) with (1 * 2 ^ (53 + K)) by (rewrite Z.pow_add_r by (unfold K; lia); ring).
    apply round_units_multiple; [done|]. unfold grid. rewrite Z.log2_mul_pow2 by (unfold K; lia). simpl. unfold K. lia.
  - apply round_units_multiple; [lia|]. assert (Z.log2 z < 53) by (apply Z.log2_lt_pow2; lia).
    unfold grid. rewrite Z.log2_mul_pow2 by (unfold K; lia). unfold K. lia.
Qed.

(** Values of the format are ordered like their exponents, then mantissas. *)
Lemma canonical_lt m1 e1 m2 e2 :
  fexp64 (Z.pos (digits2_pos m1) + e1) = e1 -> fexp64 (Z.pos (digits2_pos m2) + e2) = e2 -> e1 < e2 -> - K <= e1 ->
  Z.pos m1 * 2 ^ (e1 + K) < Z.pos m2 * 2 ^ (e2 + K).
Proof.
  intros C1 C2 Hlt H1. rewrite fexp64_eq, digits_log2 in C1, C2.
  assert (L1 : Z.pos m1 < 2 ^ 53) by (apply Z.log2_lt_pow2; lia).
  assert (L2 : 2 ^ 52 <= Z.pos m2) by (apply Z.log2_le_pow2; lia).
  pose proof (Z.pow_pos_nonneg 2 (e1 + K) ltac:(lia) ltac:(lia)) as Hp.
  apply Z.lt_le_trans with (2 ^ 53 * 2 ^ (e1 + K)); [by apply Z.mul_lt_mono_pos_r|].
  apply Z.le_trans with (2 ^ 52 * 2 ^ (e2 + K)); [|apply Z.mul_le_mono_nonneg_r; [apply Z.pow_nonneg|]; lia].
  rewrite <- !Z.pow_add_r by lia. apply Z.pow_le_mono_r; lia.
Qed.

Lemma compare_finite m1 e1 m2 e2 : fin (S754_finite false m1 e1) -> fin (S754_finite false m2 e2) ->
  match e1 ?= e2 with Lt => Lt | Gt => Gt | Eq => Pos.compare_cont Eq m1 m2 end =
  (Z.pos m1 * 2 ^ (e1 + K) ?= Z.pos m2 * 2 ^ (e2 + K)).
Proof.
  intros [C1 H1]%fin_finite [C2 H2]%fin_finite. symmetry. destruct (Z.compare_spec e1 e2) as [->|Hlt|Hlt].
  - pose proof (Z.pow_pos_nonneg 2 (e2 + K) ltac:(lia) ltac:(unfold K; lia)). rewrite <- Zmult_compare_compat_r by lia. done.
  - apply Z.compare_lt_iff, canonical_lt; try done. unfold K. lia.
  - apply Z.compare_gt_iff, canonical_lt; try done. unfold K. lia.
Qed.

Lemma compare_spec a b : fin a -> fin b -> SFcompare a b = Some (units a ?= units b).
Proof.
  intros Ha Hb. assert (Hp : forall m e, fin (S754_finite false m e) -> 0 < Z.pos m * 2 ^ (e + K)).
  { intros m e [_ He]%fin_finite. apply Z.mul_pos_pos; [lia|]. apply Z.pow_pos_nonneg; unfold K; lia. }
  assert (Hs : forall s m e, fin (S754_finite s m e) -> fin (S754_finite false m e)) by (intros s m e [_ H]; split; [done|exact H]).
  destruct a as [sa|sa| |sa ma ea]; try (by destruct Ha); destruct b as [sb|sb| |sb mb eb]; try (by destruct Hb);
    try apply Hs in Ha; try apply Hs in Hb; cbn [SFcompare units]; f_equal.
  - pose proof (Hp _ _ Hb). symmetry. destruct sb; cbn [cond_Zopp]; [apply Z.compare_gt_iff|apply Z.compare_lt_iff]; lia.
  - pose proof (Hp _ _ Ha). symmetry. destruct sa; cbn [cond_Zopp]; [apply Z.compare_lt_iff|apply Z.compare_gt_iff]; lia.
  - pose proof (Hp _ _ Ha). pose proof (Hp _ _ Hb). pose proof (compare_finite _ _ _ _ Ha Hb) as Hc.
    destruct sa, sb; cbn [cond_Zopp].
    + rewrite Z.compare_opp, (Z.compare_antisym (Z.pos ma * _)), <- Hc. by destruct (ea ?= eb).
    + symmetry. apply Z.compare_lt_iff. lia.
    + symmetry. apply Z.compare_gt_iff. lia.
    + exact Hc.
Qed.

(** ** Comparisons, choices and conversions *)

(** A number of the format, as every [f64] is. *)
Definition valid (a : f64) : Prop := valid_binary prec emax a = true.

Lemma ltb_spec a b : fin a -> fin b -> ltb a b = (units a <? units b).
Proof. intros Ha Hb. unfold ltb, Z.ltb. rewrite (compare_spec a b) by done. by destruct (_ ?= _). Qed.

Lemma leb_spec a b : fin a -> fin b -> leb a b = (units a <=? units b).
Proof. intros Ha Hb. unfold leb, Z.leb. rewrite (compare_spec a b) by done. by destruct (_ ?= _). Qed.

Lemma fin_not_nan a : fin a -> is_nan a = false.
Proof. intros [H _]. by destruct a. Qed.

Lemma min_spec a b : fin a -> fin b -> min a b = (if units b <? units a then b else a).
Proof. intros Ha Hb. unfold min. by rewrite !fin_not_nan, ltb_spec by done. Qed.

Lemma max_spec a b : fin a -> fin b -> max a b = (if units a <? units b then b else a).
Proof. intros Ha Hb. unfold max. by rewrite !fin_not_nan, ltb_spec by done. Qed.

Lemma to_u64_spec a : fin a -> 0 <= units a -> to_u64 a = Z.min U64_MAX (units a / 2 ^ K).
Proof.
  intros Ha Hu. destruct (fin_cases a Ha Hu) as [[-> [s ->]]|(m & e & -> & He & -> & _)]; [by destruct s|].
  cbn [to_u64]. f_equal. unfold trunc_abs. destruct (Z.leb_spec 0 e).
  - rewrite Z.pow_add_r, Z.mul_assoc, Z.div_mul by (unfold K; lia || apply Z.pow_nonzero; lia). done.
  - replace K with ((e + K) + - e) at 2 by lia. rewrite (Z.pow_add_r 2 (e + K)) by (unfold K; lia).
    rewrite (Z.mul_comm (2 ^ (e + K))). rewrite Z.div_mul_cancel_r; [done|apply Z.pow_nonzero; unfold K; lia..].
Qed.

(** One, in units. *)
Definition UNIT : Z := 2 ^ K.
Lemma UNIT_pos : 0 < UNIT.
Proof. by apply Z.pow_pos_nonneg. Qed.

Lemma one_spec : fin one /\ units one = UNIT.
Proof. split; [done|]. vm_compute. reflexivity. Qed.

(** Products with a fraction: what a limit leaves of an amount. *)
Lemma scaled_spec z a : 0 <= z <= U64_MAX -> fin a -> 0 <= units a <= UNIT ->
  to_u64 (mul (of_Z z) a) = Z.min U64_MAX (round_units (round_units (z * UNIT) * units a / UNIT) / UNIT).
Proof.
  intros Hz Ha Hu. destruct (of_Z_spec z Hz) as [Hf Hv]. pose proof UNIT_pos as HU. fold UNIT in Hv.
  assert (Hpos : 0 <= round_units (z * UNIT)) by (apply round_units_nonneg, Z.mul_nonneg_nonneg; lia).
  assert (Hmax : round_units (z * UNIT) <= 2 ^ 64 * UNIT).
  { rewrite <- (round_units_multiple 1 (64 + K)) at 1.
    - apply Z.le_trans with (round_units (2 ^ 64 * UNIT)); [apply round_units_le; unfold U64_MAX in Hz; change (2 ^ 64) with 18446744073709551616; nia|].
      unfold UNIT. rewrite <- Z.pow_add_r by (unfold K; lia). rewrite Z.mul_1_l. done.
    - lia.
    - vm_compute. discriminate. }
  destruct (mul_spec (of_Z z) a) as (Hmf & Hmv & _); try done.
  - rewrite Hv. exact Hpos.
  - lia.
  - rewrite Hv. fold UNIT. split; [apply Z.div_pos; nia|]. apply Z.div_lt_upper_bound; [lia|].
    apply Z.le_lt_trans with (2 ^ 64 * UNIT * UNIT); [apply Z.mul_le_mono_nonneg; lia|].
    rewrite Z.pow_add_r by (unfold K; lia). fold UNIT. replace (UNIT * (2 ^ 1000 * UNIT)) with (2 ^ 1000 * UNIT * UNIT) by ring.
    do 2 (apply Z.mul_lt_mono_pos_r; [done|]). by apply Z.pow_lt_mono_r.
  - rewrite to_u64_spec; [|done|rewrite Hmv; apply round_units_nonneg, Z.div_pos; [apply Z.mul_nonneg_nonneg; [by rewrite Hv|lia]|done]].
    by rewrite Hmv, Hv.
Qed.

(** A larger limit leaves no less, and a fraction never more than there is. *)
Lemma scaled_mono z a b : 0 <= z <= U64_MAX -> fin a -> fin b -> 0 <= units a <= units b -> units b <= UNIT ->
  to_u64 (mul (of_Z z) a) <= to_u64 (mul (of_Z z) b).
Proof.
  intros Hz Ha Hb Hab Hb1. pose proof UNIT_pos as HU. rewrite !scaled_spec by (done || lia). apply Z.min_le_compat_l.
  assert (Hpos : 0 <= round_units (z * UNIT)) by (apply round_units_nonneg, Z.mul_nonneg_nonneg; lia).
  apply Z.div_le_mono; [lia|]. apply round_units_le. split; [apply Z.div_pos; nia|]. apply Z.div_le_mono; nia.
Qed.

Lemma scaled_le z a : 0 <= z <= 2 ^ 53 -> fin a -> 0 <= units a <= UNIT -> to_u64 (mul (of_Z z) a) <= z.
Proof.
  intros Hz Ha Hu. pose proof UNIT_pos as HU. destruct (of_Z_exact z Hz) as [Hf Hv]. fold UNIT in Hv.
  rewrite scaled_spec by (unfold U64_MAX; lia || done). apply Z.le_trans with (1 := Z.le_min_r _ _).
  apply Z.div_le_upper_bound; [lia|]. rewrite (Z.mul_comm UNIT), <- Hv, <- (round_units_fin (of_Z z)) by (done || rewrite Hv; nia).
  rewrite Hv. assert (Hz' : round_units (z * UNIT) = z * UNIT) by (rewrite <- Hv; apply round_units_fin; [done|rewrite Hv; nia]).
  rewrite Hz'. rewrite <- Hz' at 2. apply round_units_le. split; [apply Z.div_pos; nia|].
  apply Z.div_le_upper_bound; nia.
Qed.

(** ** Rounding to integers *)

Lemma trunc_units m e : - K <= e -> trunc_abs m e = Z.pos m * 2 ^ (e + K) / UNIT.
Proof.
  intros He. unfold trunc_abs, UNIT. destruct (Z.leb_spec 0 e).
  - rewrite Z.pow_add_r, Z.mul_assoc, Z.div_mul by (unfold K; lia || apply Z.pow_nonzero; lia). done.
  - replace K with ((e + K) + - e) at 2 by lia. rewrite (Z.pow_add_r 2 (e + K)) by lia.
    rewrite (Z.mul_comm (2 ^ (e + K))). rewrite Z.div_mul_cancel_r; [done|apply Z.pow_nonzero; lia..].
Qed.

(** Half-way cases go up. *)
Lemma to_u64_round a : fin a -> 0 <= units a -> units a <= 2 ^ 53 * UNIT -> to_u64 (round a) = (2 * units a + UNIT) / (2 * UNIT).
Proof.
  intros Ha Hu Hmax. pose proof UNIT_pos as HU. destruct (fin_cases a Ha Hu) as [[E [s ->]]|(m & e & -> & He & E & _)].
  - rewrite E. cbn [round to_u64]. rewrite Z.mul_0_r, Z.add_0_l, Z.div_small by lia. done.
  - rewrite E in *. cbn [round]. destruct (Z.leb_spec 0 e) as [H0|H0].
    + assert (Eu : Z.pos m * 2 ^ (e + K) = Z.pos m * 2 ^ e * UNIT) by (rewrite Z.pow_add_r by (unfold K; lia); unfold UNIT; ring).
      cbn [to_u64]. rewrite trunc_units by (unfold K; lia). rewrite Eu in *. rewrite Z.div_mul by lia.
      replace (2 * (Z.pos m * 2 ^ e * UNIT) + UNIT) with (UNIT + Z.pos m * 2 ^ e * (2 * UNIT)) by ring.
      rewrite Z.div_add, Z.div_small, Z.add_0_l by lia. apply Z.min_r. apply Z.mul_le_mono_pos_r in Hmax; [|done]. unfold U64_MAX. lia.
    + set (q := (Z.pos m + 2 ^ (- e - 1)) / 2 ^ (- e)).
      assert (Eq : (2 * (Z.pos m * 2 ^ (e + K)) + UNIT) / (2 * UNIT) = q).
      { unfold q, UNIT. replace (2 * 2 ^ K) with (2 ^ (- e) * 2 ^ (e + K + 1)) by (rewrite <- Z.pow_add_r by (unfold K; lia); replace (- e + (e + K + 1)) with (Z.succ K) by lia; rewrite Z.pow_succ_r by (unfold K; lia); ring).
        replace (2 * (Z.pos m * 2 ^ (e + K)) + 2 ^ K) with ((Z.pos m + 2 ^ (- e - 1)) * 2 ^ (e + K + 1)).
        - apply Z.div_mul_cancel_r; [apply Z.pow_nonzero; lia|apply Z.pow_nonzero; unfold K; lia].
        - rewrite Z.mul_add_distr_r, <- Z.pow_add_r by (unfold K; lia). rewrite (Z.pow_add_r 2 (e + K) 1) by (unfold K; lia).
          replace (- e - 1 + (e + K + 1)) with K by lia. ring. }
      rewrite Eq. assert (Hq : 0 <= q <= 2 ^ 53).
      { split; [apply Z.div_pos; [apply Z.add_nonneg_nonneg; [lia|apply Z.pow_nonneg; lia]|apply pow2_pos; lia]|].
        rewrite <- Eq. apply Z.lt_succ_r, Z.div_lt_upper_bound; [lia|]. lia. }
      destruct q as [|p|p] eqn:Ep; [done| |lia]. destruct (of_Z_exact (Z.pos p) Hq) as [Hf Hv].
      rewrite to_u64_spec by (done || (rewrite Hv; apply Z.mul_nonneg_nonneg; [lia|apply Z.pow_nonneg; lia])).
      rewrite Hv, Z.div_mul by (apply Z.pow_nonzero; unfold K; lia). apply Z.min_r. unfold U64_MAX. lia.
Qed.

Lemma to_u64_floor a : fin a -> 0 <= units a -> units a <= 2 ^ 53 * UNIT -> to_u64 (floor a) = units a / UNIT.
Proof.
  intros Ha Hu Hmax. pose proof UNIT_pos as HU. destruct (fin_cases a Ha Hu) as [[E [s ->]]|(m & e & -> & He & E & _)].
  - rewrite E. done.
  - rewrite E in *. cbn [floor]. assert (Hb : Z.pos m * 2 ^ (e + K) / UNIT <= 2 ^ 53) by (apply Z.div_le_upper_bound; [done|lia]).
    destruct (Z.leb_spec 0 e) as [H0|H0].
    + cbn [to_u64]. rewrite trunc_units by (unfold K; lia). apply Z.min_r. unfold U64_MAX. lia.
    + assert (Eq : Z.pos m / 2 ^ (- e) = Z.pos m * 2 ^ (e + K) / UNIT).
      { rewrite <- trunc_units by (unfold K; lia). unfold trunc_abs. by rewrite (proj2 (Z.leb_gt _ _)) by lia. }
      rewrite Eq. set (q := Z.pos m * 2 ^ (e + K) / UNIT) in *.
      assert (Hq : 0 <= q) by (apply Z.div_pos; [apply Z.mul_nonneg_nonneg; [lia|apply Z.pow_nonneg; lia]|done]).
      destruct q as [|p|p] eqn:Ep; [done| |lia]. destruct (of_Z_exact (Z.pos p) ltac:(lia)) as [Hf Hv].
      rewrite to_u64_spec by (done || (rewrite Hv; apply Z.mul_nonneg_nonneg; [lia|apply Z.pow_nonneg; lia])).
      rewrite Hv, Z.div_mul by (apply Z.pow_nonzero; unfold K; lia). apply Z.min_r. unfold U64_MAX. lia.
Qed.

(** ** Relative errors *)

(** Above the subnormals, rounding errs by at most [2^-53] of the value. *)
Lemma grid_pow u : 2 ^ 1126 <= u -> 2 ^ grid u * 2 ^ 52 <= u.
Proof.
  intros H. assert (Hu : 0 < u) by (apply Z.lt_le_trans with (2 ^ 1126); [by apply pow2_pos|done]).
  assert (1126 <= Z.log2 u) by (by apply Z.log2_le_pow2). unfold grid. rewrite Z.max_l, <- Z.pow_add_r by lia.
  replace (Z.log2 u - 52 + 52) with (Z.log2 u) by lia. by apply Z.log2_spec.
Qed.

Lemma round_units_relative u : 2 ^ 1126 <= u -> Z.abs (round_units u - u) * 2 ^ 53 <= u.
Proof.
  intros H. pose proof (grid_pow u H) as Hg. pose proof (rndq_error u (2 ^ grid u) (pow2_pos _ (grid_nonneg u))) as He.
  unfold round_units, rnd. replace (2 ^ 53) with (2 * 2 ^ 52) by done. nia.
Qed.

(** Cross-multiplied: the error of the quotient times the divisor. *)
Lemma round_quotient_relative n d : 0 < d -> 2 ^ 1126 <= n / d -> Z.abs (round_quotient n d * d - n) * 2 ^ 53 <= n.
Proof.
  intros Hd H. pose proof (grid_pow _ H) as Hg. unfold round_quotient. set (G := 2 ^ grid (n / d)) in *.
  assert (HG : 0 < G) by (apply pow2_pos, grid_nonneg). pose proof (rndq_error n (d * G) ltac:(nia)) as He.
  pose proof (Z.mul_div_le n d Hd). replace (2 ^ 53) with (2 * 2 ^ 52) by done.
  replace (rndq n (d * G) * G * d - n) with (rndq n (d * G) * (d * G) - n) by ring. nia.
Qed.
