(* ===== verification/Lp.v ===== *)
(** * Mixed-integer programs and their solutions

    [tapa-floorplan/src/solver]: the model the placement and routing programs
    are written in ([model.rs], [sparse.rs]), one-of-k choices ([assign.rs]), the
    check of a claimed incumbent ([solve.rs]), and the lexicographic refinement
    ([lexicographic.rs]).  The solver itself is an external process: it is an
    argument of the definitions that call it. *)

From S2P Require Import Prelude RustStd F64.

(** ** The model *)

Inductive VarKind := Binary | Continuous.
Inductive Comparison := Le | EqC.

(** A variable handle is its [u32] index. *)
Definition LpVar : Type := Z.

Record LinExpr := mkExpr { terms : list (f64 * LpVar); constant : f64 }.
Record VarDef := mkVar { label : string; kind : VarKind; lower : f64; upper : f64 }.
Record ConstraintDef := mkConstraint { c_name : string; c_expr : LinExpr; op : Comparison; rhs : f64 }.
Record LpModel := mkModel { objective : LinExpr; vars : list VarDef; constraints : list ConstraintDef }.

Definition sum_expr (l : list (f64 * LpVar)) : LinExpr := mkExpr l F64.zero.

Definition model_new : LpModel := mkModel (mkExpr [] F64.zero) [] [].

Definition add_var {E} (lbl : string) (k : VarKind) (lo hi : f64) (m : LpModel) : res E (LpVar * LpModel) :=
  let! index := u32_of_usize (length (vars m)) in
  Ok (index, mkModel (objective m) (vars m ++ [mkVar lbl k lo hi]) (constraints m)).

Definition add_binary {E} (lbl : string) (m : LpModel) : res E (LpVar * LpModel) :=
  add_var lbl Binary F64.zero F64.one m.

Definition add_continuous {E} (lbl : string) (lo hi : f64) (m : LpModel) : res E (LpVar * LpModel) :=
  add_var lbl Continuous lo hi m.

Definition set_objective (o : LinExpr) (m : LpModel) : LpModel := mkModel o (vars m) (constraints m).

Definition add_constraint (name : string) (e : LinExpr) (o : Comparison) (r : f64) (m : LpModel) : LpModel :=
  mkModel (objective m) (vars m) (constraints m ++ [mkConstraint name e o r]).

(** ** Solutions *)

Inductive LpStatus := Optimal | Feasible | Infeasible | Unbounded | NotSolved.

Record LpSolution := mkSolution { status : LpStatus; sol_objective : f64; values : gmap LpVar f64 }.

Record SolveOpts := mkOpts { time_limit : option Z; threads : option Z; mip_gap_abs : option f64 }.

Inductive SolverError :=
| InvalidOptions (m : string)
| Spawn (program source : string)
| ToolFailure (code : Z) (stderr : string)
| BadOutput (m : string)
| SolverInvalidSolution (m : string)
| InvalidModel (m : string).

Definition is_found (s : LpSolution) : bool := match status s with Optimal | Feasible => true | _ => false end.

Definition invalid {A} (m : string) : res SolverError A := Err (SolverInvalidSolution m).

(** The value of a variable; the message names it. *)
Definition value_of (vs : gmap LpVar f64) (v : LpVar) : res SolverError f64 :=
  ok_or (vs !! v) (SolverInvalidSolution ("the incumbent omitted variable x" +:+ Str.show v)).

Definition evaluate (e : LinExpr) (vs : gmap LpVar f64) : res SolverError f64 :=
  let! result := try_fold (fun acc t =>
    let! v := value_of vs t.2 in Ok (F64.add acc (F64.mul t.1 v))) (constant e) (terms e) in
  if F64.is_finite result then Ok result
  else invalid "evaluating the incumbent produced a non-finite value".

Definition scaled_tolerance (l : list f64) : f64 :=
  F64.mul SOLUTION_TOLERANCE
    (fold_left (fun scale v => F64.max scale (F64.abs v)) (List.filter F64.is_finite l) F64.one).

Definition constraint_tolerance (e : LinExpr) (vs : gmap LpVar f64) (r : f64) : res SolverError f64 :=
  let! activity := try_fold (fun acc t =>
    let! v := value_of vs t.2 in
    let a := F64.add acc (F64.abs (F64.mul t.1 v)) in
    if F64.is_finite a then Ok a
    else invalid "evaluating the incumbent constraint scale produced a non-finite value")
    (F64.abs (constant e)) (terms e) in
  Ok (scaled_tolerance [activity; r]).

Definition is_binary (k : VarKind) : bool := match k with Binary => true | Continuous => false end.

(** One variable of [validate_for].  Messages are abridged to their subject. *)
Definition check_var (vs : gmap LpVar f64) (e : nat * VarDef) : res SolverError unit :=
  let '(index, d) := e in
  let! var := u32_of_usize index in
  let name := "variable x" +:+ Str.show (Z.of_nat index) in
  let! v := ok_or (vs !! var) (SolverInvalidSolution ("the incumbent omitted " +:+ name)) in
  if negb (F64.is_finite v) then invalid (name +:+ " is not finite") else
  let tolerance := scaled_tolerance [v; lower d; upper d] in
  if F64.ltb v (F64.sub (lower d) tolerance) || F64.gtb v (F64.add (upper d) tolerance)
  then invalid (name +:+ " is outside its bounds") else
  if is_binary (kind d) && F64.gtb (F64.abs (F64.sub v (F64.round v))) SOLUTION_TOLERANCE
  then invalid ("integer " +:+ name +:+ " has fractional value") else Ok tt.

Definition check_constraint (vs : gmap LpVar f64) (c : ConstraintDef) : res SolverError unit :=
  let! lhs := evaluate (c_expr c) vs in
  let! tolerance := constraint_tolerance (c_expr c) vs (rhs c) in
  let satisfied :=
    match op c with
    | Le => F64.leb lhs (F64.add (rhs c) tolerance)
    | EqC => F64.leb (F64.abs (F64.sub lhs (rhs c))) tolerance
    end in
  if satisfied then Ok tt else invalid ("constraint `" +:+ c_name c +:+ "` is violated").

Definition validate_for (s : LpSolution) (m : LpModel) : res SolverError unit :=
  if negb (is_found s) then Ok tt else
  if negb (F64.is_finite (sol_objective s)) then invalid "the incumbent objective is not finite" else
  if negb (Nat.eqb (size (values s)) (length (vars m))) then invalid "the incumbent has the wrong number of values" else
  let! _ := try_each (check_var (values s)) (enumerate (vars m)) in
  let! _ := try_each (check_constraint (values s)) (constraints m) in
  let! o := evaluate (objective m) (values s) in
  if F64.gtb (F64.abs (F64.sub o (sol_objective s))) (scaled_tolerance [o; sol_objective s])
  then invalid "the reported objective does not match" else Ok tt.

Definition opts_validate (o : SolveOpts) : res SolverError unit :=
  if match time_limit o with Some t => t =? 0 | None => false end
  then Err (InvalidOptions "the solver time limit must be greater than zero") else
  if match threads o with Some t => t =? 0 | None => false end
  then Err (InvalidOptions "the solver thread count must be greater than zero") else
  if match mip_gap_abs o with Some g => negb (F64.is_finite g) || F64.ltb g F64.zero | None => false end
  then Err (InvalidOptions "the absolute MIP gap must be finite and non-negative") else Ok tt.

(** ** One-of-k choices *)

(** A counted loop that names and creates the choice variables. *)
Fixpoint add_binaries {E} (lbl : nat -> string) (is_ : list nat) (m : LpModel) : res E (list LpVar * LpModel) :=
  match is_ with
  | [] => Ok ([], m)
  | i :: is_' =>
      let! (v, m) := add_binary (lbl i) m in
      let! (vs, m) := add_binaries lbl is_' m in
      Ok (v :: vs, m)
  end.

Definition add_one_of_k_row {E} (row_name : string) (count : nat) (lbl : nat -> string) (m : LpModel) :
    res E (list LpVar * LpModel) :=
  let! (vs, m) := add_binaries lbl (seq 0 count) m in
  Ok (vs, add_constraint row_name (sum_expr (map (fun v => (F64.one, v)) vs)) EqC F64.one m).

Inductive OneOfKError :=
| MissingVariable (position : nat)
| NonBinary (position : nat) (value : f64) (vals : list f64)
| SelectionCount (selected : nat) (vals : list f64).

Definition near_zero (v : f64) : bool := negb (F64.gtb (F64.abs v) SOLUTION_TOLERANCE).
Definition near_one (v : f64) : bool := F64.leb (F64.abs (F64.sub v F64.one)) SOLUTION_TOLERANCE.

(** One iteration of [read_one_of_k]: the values so far and the selected ones. *)
Definition read_choice (s : LpSolution) (acc : list f64 * list nat) (e : nat * LpVar) :
    res OneOfKError (list f64 * list nat) :=
  let '(position, var) := e in
  let! v := ok_or (values s !! var) (MissingVariable position) in
  let vals := acc.1 ++ [v] in
  if negb (F64.is_finite v)
     || (F64.gtb (F64.abs v) SOLUTION_TOLERANCE && F64.gtb (F64.abs (F64.sub v F64.one)) SOLUTION_TOLERANCE)
  then Err (NonBinary position v vals)
  else Ok (vals, if near_one v then acc.2 ++ [position] else acc.2).

Definition read_one_of_k (s : LpSolution) (vs : list LpVar) : res OneOfKError nat :=
  let! (vals, selected) := try_fold (read_choice s) ([], []) (enumerate vs) in
  match selected with
  | [only] => Ok only
  | _ => Err (SelectionCount (length selected) vals)
  end.

(** ** Lexicographic refinement *)

Definition pin_bound (achieved : f64) : f64 :=
  F64.mul_add SOLUTION_TOLERANCE (F64.max (F64.abs achieved) F64.one) achieved.

(** [rank > 0] only; [u32::try_from(index)] panics beyond [u32]. *)
Definition rank_objective {E} (rank_rows : list (list LpVar)) : res E LinExpr :=
  let! ts := try_fold (fun acc row =>
    try_fold (fun acc e =>
      let '(index, var) := e in
      let! rank := u32_of_usize index in
      Ok (if 0 <? rank then acc ++ [(F64.of_Z rank, var)] else acc)) acc (enumerate row)) [] rank_rows in
  Ok (sum_expr ts).

Section solver.
(** The backend: an external process. *)
Variable solve : LpModel -> SolveOpts -> res SolverError LpSolution.

Definition refine (m : LpModel) (opts : SolveOpts) (pinned : LinExpr) (achieved : f64) (rank_rows : list (list LpVar)) :
    res SolverError (option LpSolution) :=
  let m := add_constraint "lexicographic_pin" pinned Le (pin_bound achieved) m in
  let! o := rank_objective rank_rows in
  let! refined := solve (set_objective o m) opts in
  Ok (if is_found refined then Some refined else None).
End solver.

(** ** Reading a choice back *)

(** What the check accepts, without the redundancy. *)
Definition choice_value (s : LpSolution) (var : LpVar) (v : f64) : Prop :=
  values s !! var = Some v /\ F64.is_finite v = true /\ (near_zero v = true \/ near_one v = true).

Lemma read_choice_ok s acc i var acc' :
  read_choice s acc (i, var) = Ok acc' <->
  exists v, choice_value s var v /\ acc' = (acc.1 ++ [v], if near_one v then acc.2 ++ [i] else acc.2).
Proof.
  unfold read_choice, choice_value. destruct (values s !! var) as [v|]; cbn [ok_or rbind].
  2: { split; [done|]. by intros (v & [? _] & _). }
  assert (Hcond : F64.is_finite v = true ->
    (F64.gtb (F64.abs v) SOLUTION_TOLERANCE && F64.gtb (F64.abs (F64.sub v F64.one)) SOLUTION_TOLERANCE = false <->
     near_zero v = true \/ near_one v = true)).
  { intros Hv. unfold near_zero, near_one. rewrite (F64.gtb_leb (F64.abs (F64.sub v F64.one))), andb_false_iff.
    - destruct (F64.gtb (F64.abs v) _), (F64.leb _ _); simpl; intuition congruence.
    - pose proof (F64.sub_not_nan v F64.one Hv eq_refl). by destruct (F64.sub v F64.one).
    - done. }
  split.
  - destruct (negb _ || _) eqn:Hc; [done|]. intros [= <-]. apply orb_false_iff in Hc as [Hf Hc].
    apply negb_false_iff in Hf. exists v. split; [|done]. split_and!; [done..|]. by apply Hcond.
  - intros (w & ([= <-] & Hf & Hz) & ->). rewrite Hf, (proj2 (Hcond Hf) Hz). done.
Qed.

(** The positions whose value is near one. *)
Definition selects (s : LpSolution) (vs : list LpVar) (i : nat) : Prop :=
  exists var v, vs !! i = Some var /\ values s !! var = Some v /\ near_one v = true.

Lemma read_choices s vs vals sel :
  try_fold (read_choice s) ([], []) (enumerate vs) = Ok (vals, sel) ->
  (forall var, var ∈ vs -> exists v, choice_value s var v) /\ NoDup sel /\ forall i, i ∈ sel <-> selects s vs i.
Proof.
  revert vals sel. induction vs as [|var vs IH] using rev_ind; intros vals sel H.
  - simpl in H. injection H as <- <-. split_and!; [intros ? Hin; by apply not_elem_of_nil in Hin|constructor|].
    intros i. split; [intros Hin; by apply not_elem_of_nil in Hin|]. by intros (? & ? & ? & _).
  - rewrite enumerate_snoc, try_fold_app in H. apply rbind_ok in H as ([vals' sel'] & H & Hlast).
    destruct (IH _ _ H) as (Hall & Hnd & Hsel). cbn [try_fold] in Hlast.
    apply rbind_ok in Hlast as (r & Hr & [= ->]). apply read_choice_ok in Hr as (v & Hv & [= -> ->]).
    assert (Hold : forall i, selects s (vs ++ [var]) i <-> selects s vs i \/ (i = length vs /\ near_one v = true)).
    { intros i. split.
      - intros (x & w & Hx & Hw & Hn). apply lookup_snoc_Some in Hx as [[_ Hx]|[-> <-]]; [left; by exists x, w|right].
        destruct Hv as (Hv & _). split; [done|congruence].
      - intros [(x & w & Hx & Hw & Hn)|[-> Hn]].
        + exists x, w. split_and!; [|done..]. apply lookup_snoc_Some. left. split; [by eapply lookup_lt_Some|done].
        + exists var, v. split_and!; [apply lookup_snoc_Some; by right|apply Hv|done]. }
    split_and!.
    + intros x [Hx| ->%list_elem_of_singleton]%elem_of_app; [by apply Hall|by exists v].
    + cbn [snd]. destruct (near_one v); [|done]. apply NoDup_app. split_and!; [done| |apply NoDup_singleton].
      intros i Hi%Hsel ->%list_elem_of_singleton. destruct Hi as (? & ? & Hl%lookup_lt_Some & _). lia.
    + intros i. rewrite Hold. cbn [snd]. destruct (near_one v) eqn:Hn.
      * rewrite elem_of_app, list_elem_of_singleton, Hsel. tauto.
      * rewrite Hsel. split; [by left|]. by intros [?|[_ ?]].
Qed.

Lemma read_choices_total s vs :
  (forall var, var ∈ vs -> exists v, choice_value s var v) ->
  exists r, try_fold (read_choice s) ([], []) (enumerate vs) = Ok r.
Proof.
  induction vs as [|var vs IH] using rev_ind; intros Hall; [by eexists|].
  destruct IH as [r Hr]; [intros x Hx; apply Hall, elem_of_app; by left|].
  rewrite enumerate_snoc, try_fold_app, Hr. cbn [rbind try_fold].
  destruct (Hall var ltac:(apply elem_of_app; right; by left)) as [v Hv].
  rewrite (proj2 (read_choice_ok s r (length vs) var _) (ex_intro _ v (conj Hv eq_refl))). by eexists.
Qed.

(** A row whose values are all legal and that selects [k] alone is read as [k]. *)
Lemma read_one_of_k_complete s vs k :
  (forall var, var ∈ vs -> exists v, choice_value s var v) -> (forall i, selects s vs i <-> i = k) -> read_one_of_k s vs = Ok k.
Proof.
  intros Hall Hk. unfold read_one_of_k. destruct (read_choices_total s vs Hall) as [[vals sel] H]. rewrite H. cbn [rbind].
  destruct (read_choices _ _ _ _ H) as (_ & Hnd & Hsel).
  assert (Hin : forall i, i ∈ sel <-> i = k) by (intros i; by rewrite Hsel).
  destruct sel as [|k1 [|k2 sel]].
  - exfalso. apply (not_elem_of_nil k), Hin. done.
  - f_equal. apply Hin. by left.
  - exfalso. apply NoDup_cons in Hnd as [Hn _]. apply Hn.
    assert (k1 = k) as -> by (apply Hin; by left). assert (k2 = k) as -> by (apply Hin; right; by left). by left.
Qed.

(** Reading a one-of-k choice back is exact, whatever the solver claims.
    Choice [k] is returned exactly when every variable of the row is present,
    finite, and zero or one within the tolerance, and variable [k] is the only
    one near one; no other value or omission is silently read as a choice. *)
Theorem one_of_k_readback s vs k :
  read_one_of_k s vs = Ok k <->
  (forall var, var ∈ vs -> exists v, choice_value s var v) /\ (forall i, selects s vs i <-> i = k).
Proof.
  split.
  - unfold read_one_of_k. intros H. apply rbind_ok in H as ([vals sel] & H & Hk). destruct (read_choices _ _ _ _ H) as (Hall & _ & Hsel).
    split; [done|]. intros i. rewrite <- Hsel. destruct sel as [|k' [|]]; [done| |done]. injection Hk as ->.
    apply list_elem_of_singleton.
  - intros [Hall Hk]. by apply read_one_of_k_complete.
Qed.
