(* ===== verification/Partition.v ===== *)
(** * The placement program

    [tapa-floorplan/src/partition/ilp.rs]: the schedule of placement iterations,
    the search of the utilization ladder, the candidate regions of each vertex,
    the mixed-integer program, and the readback of its solution.  The solver is
    an argument.  Indexing out of range, [unreachable!] and the end of the fuel
    of a search are [Panic]; [PartitionProps] shows that the searches end. *)

From S2P Require Import Prelude RustStd BTreeMap Geometry Names Ir Connectivity F64 Device Cut FloorGraph Lp.

Definition FLAT_SCHEDULE_MAX_EDGE_COUNT : Z := 300.
Definition MULTILEVEL_SCHEDULE_EDGE_COUNT : Z := 800.
Definition MULTILEVEL_SCHEDULE_MIN_ROWS : Z := 3.
Definition VERTICAL_DIST_PENALTY : Z := 2.

Inductive PartitionStrategy := Auto | Flat | MultiLevel.

#[export] Instance strategy_eq_dec : EqDecision PartitionStrategy.
Proof. solve_decision. Defined.

(** The derived [Ord]: field by field, and by declaration. *)
Definition coor_key (c : Coor) : Z * (Z * (Z * Z)) := (dl_x c, (dl_y c, (ur_x c, ur_y c))).
#[export] Program Instance ordkey_coor : OrdKey Coor := {| kcmp a b := kcmp (coor_key a) (coor_key b) |}.
Next Obligation. intros [] []. rewrite kcmp_eq. unfold coor_key. naive_solver. Qed.
Next Obligation. intros a b. apply kcmp_antisym. Qed.
Next Obligation. intros a b c. apply kcmp_trans. Qed.

Definition resource_index (r : Resource) : Z :=
  match r with Ff => 0 | Lut => 1 | Bram18k => 2 | Dsp => 3 | Uram => 4 end.
#[export] Program Instance ordkey_resource : OrdKey Resource := {| kcmp a b := (resource_index a ?= resource_index b) |}.
Next Obligation. intros [] []; simpl; naive_solver. Qed.
Next Obligation. intros [] []; done. Qed.
Next Obligation. intros [] [] []; simpl; done. Qed.

Definition RegionAreas : Type := bmap Coor Area.
Definition RegionResourceLimits : Type := bmap string (bmap Resource f64).

Record PlacementConfig := mkConfig {
  usage_limit : f64;
  retry_ceiling : f64;
  strategy : PartitionStrategy;
  max_resource_limits : RegionResourceLimits;
}.

Definition config_default : PlacementConfig := mkConfig DEFAULT_USAGE_LIMIT MAX_USAGE_LIMIT Auto BMap.empty.

Record Assignment := mkAssignment { a_regions : list Cell; a_slot_usage : bmap Cell Area }.

(** [InvalidSolution] carries the values its message prints. *)
Inductive IlpError :=
| ISolver (e : SolverError)
| IInfeasible (limit : f64) (demand : string)
| INoIncumbent (s : LpStatus)
| InvalidLimit (kind region : string) (value : f64) (range : string)
| NoCandidates (vertex : string)
| AnchorUnplaceable (m : string)
| InvalidRegion (region : string)
| IInvalidSolution (m : string) (vals : list f64).

(** ** Configuration *)

Definition validate_limit (kind region : string) (value : f64) (allow_zero : bool) : res IlpError unit :=
  let lower_bound_ok := F64.gtb value F64.zero || (allow_zero && F64.leb F64.zero value) in
  if F64.is_finite value && lower_bound_ok && F64.leb value F64.one then Ok tt
  else Err (InvalidLimit kind region value (if allow_zero then "0 <= limit <= 1" else "0 < limit <= 1")).

Definition validate_config (config : PlacementConfig) : res IlpError unit :=
  let! _ := validate_limit "base" "all regions" (usage_limit config) false in
  let! _ := validate_limit "retry ceiling" "all regions" (retry_ceiling config) false in
  if F64.ltb (retry_ceiling config) (usage_limit config)
  then Err (InvalidLimit "retry ceiling" "all regions" (retry_ceiling config) "base limit <= ceiling <= 1")
  else try_each (fun e => try_each (fun v => validate_limit "maximum" e.1 v true) (BMap.values e.2)) (max_resource_limits config).

(** Automatic schedule heuristic. *)
Definition select_strategy (d : Device) (edge_count : nat) : PartitionStrategy :=
  if (cols d =? 1) || (Z.of_nat edge_count <? FLAT_SCHEDULE_MAX_EDGE_COUNT) then Flat else
  if MULTILEVEL_SCHEDULE_EDGE_COUNT <? Z.of_nat edge_count then MultiLevel else
  if MULTILEVEL_SCHEDULE_MIN_ROWS <=? rows d then MultiLevel else Flat.

Definition resolve_strategy (g : FloorGraph) (d : Device) (requested : PartitionStrategy) : PartitionStrategy :=
  match requested with
  | Auto => select_strategy d (length (placement_edges g))
  | explicit => explicit
  end.

(** ** Regions *)

Definition region_areas (d : Device) (regions : list Coor) : res IlpError RegionAreas :=
  try_fold (fun acc region =>
    let! area := ok_or (island_area d region) (InvalidRegion (Coor.region_name region)) in
    Ok (BMap.insert region area acc)) BMap.empty regions.

Definition atomic_regions (d : Device) : list Coor :=
  flat_map (fun x => flat_map (fun y => match slot d x y with Some _ => [Coor.slot x y] | None => [] end)
                              (zrange 0 (rows d))) (zrange 0 (cols d)).

Definition row_regions (d : Device) : list Coor :=
  map (fun y => Coor.span 0 y (wrap32 (cols d - 1)) y) (zrange 0 (rows d)).

Definition exact_resource_cap_constraints (d : Device) (block_limit : f64) : RegionResourceLimits :=
  let by_resource := BMap.from_list (map (fun r => (r, block_limit))
    (List.filter (fun r => plans_resource d r && negb (is_logic r)) resource_all)) in
  BMap.from_list (map (fun region => (Coor.region_name region, by_resource)) (row_regions d ++ atomic_regions d)).

Definition lookup_limit (limits : RegionResourceLimits) (region : Coor) (r : Resource) : option f64 :=
  let? by_resource := BMap.get (Coor.region_name region) limits in BMap.get r by_resource.

(** [amount as f64 * limit], truncated. *)
Definition scaled_amount (a : Z) (limit : f64) : Z := F64.to_u64 (F64.mul (F64.of_Z a) limit).

Definition scaled_area (a : Area) (limit : f64) : Area := Area.from_amounts (fun r => scaled_amount (amount r a) limit).

Definition limit_for (limits : RegionResourceLimits) (region : Coor) (r : Resource) (default_limit : f64) : f64 :=
  default default_limit (lookup_limit limits region r).

Definition scaled_area_with_overrides (a : Area) (default_limit : f64) (limits : RegionResourceLimits) (region : Coor) : Area :=
  Area.from_amounts (fun r => scaled_amount (amount r a) (limit_for limits region r default_limit)).

(** ** Candidate regions *)

Definition region_has_tag (d : Device) (region : Coor) (required : string) : bool :=
  existsb (fun c => match slot d c.1 c.2 with Some s => has_tag required s | None => false end)
          (Coor.all_slot_coors region).

Definition area_fits_with (required available : Area) (planned : Resource -> bool) : bool :=
  forallb (fun r => amount r required <=? amount r available) (List.filter planned resource_all).

Definition area_fits (required available : Area) : bool := area_fits_with required available (fun _ => true).

Definition area_fits_on_device (d : Device) (required available : Area) : bool :=
  area_fits_with required available (plans_resource d).

Definition component_max (a b : Area) : Area := Area.from_amounts (fun r => Z.max (amount r a) (amount r b)).

Definition describe_area (a : Area) : string :=
  match map (fun r => resource_name r +:+ "=" +:+ Str.show (amount r a)) (List.filter (fun r => 0 <? amount r a) resource_all) with
  | [] => "no resources"
  | parts => join " " parts
  end.

(** [Iterator::reduce]. *)
Definition reduce {A} (f : A -> A -> A) (l : list A) : option A :=
  match l with [] => None | x :: l' => Some (fold_left f l' x) end.

Definition anchor_unplaceable_error (v : Vertex) (tag : string) (d : Device) (regions : list Coor) (areas : RegionAreas)
    (limit : f64) (limits : RegionResourceLimits) (externally_pinned : bool) : IlpError :=
  let tagged := List.filter (fun region => region_has_tag d region tag) regions in
  match tagged with
  | [] => AnchorUnplaceable ("`" +:+ v_name v +:+ "` is anchored to `" +:+ tag +:+ "`, which no region carries; the device table must declare that tag, or tag the slot that borders the interface instead")
  | _ =>
      let where_ := join ", " (map Coor.region_name tagged) in
      let scaled := omap (fun region => let? total := BMap.get region areas in
                            Some (scaled_area_with_overrides total limit limits region)) tagged in
      let fits_somewhere := existsb (area_fits (v_area v)) scaled in
      if fits_somewhere && externally_pinned then
        AnchorUnplaceable ("`" +:+ v_name v +:+ "` is anchored to `" +:+ tag +:+ "`, which selects " +:+ where_ +:+ ", and it fits there at this utilization limit, but a floorplan constraint or the multilevel row assignment excludes every one of those regions; relax that constraint or the tag")
      else
        let best_available := default area_default (reduce component_max scaled) in
        AnchorUnplaceable ("`" +:+ v_name v +:+ "` is anchored to `" +:+ tag +:+ "`, which selects " +:+ where_ +:+ ", but it needs " +:+ describe_area (v_area v) +:+ " and only " +:+ describe_area best_available +:+ " is available there at this utilization limit; the device table must give that slot the resources the platform leaves it, or tag the slot that borders the interface instead")
  end.

Definition coor_le (a b : Coor) : Prop := kcmp a b <> Gt.
#[export] Instance coor_le_dec : RelDecision coor_le.
Proof. intros a b. unfold coor_le. destruct (kcmp a b); [left|left|right]; congruence. Defined.

(** [Vec::dedup]: consecutive repetitions. *)
Fixpoint dedup (l : list Coor) : list Coor :=
  match l with
  | x :: (y :: _) as l' => if bool_decide (x = y) then dedup l' else x :: dedup l'
  | l => l
  end.

(** One iteration of the region loop: what [region] adds to the candidates. *)
Definition candidate_region (d : Device) (areas : RegionAreas) (limit : f64) (limits : RegionResourceLimits)
    (v : Vertex) (parent : option Coor) (candidates : list Coor) (region : Coor) : res IlpError (list Coor) :=
  if match parent with Some p => negb (Coor.is_inside region p) | None => false end then Ok candidates else
  if match required_tag v with Some tag => negb (region_has_tag d region tag) | None => false end then Ok candidates else
  let! total := ok_or (BMap.get region areas) (InvalidRegion (Coor.region_name region)) in
  let available := scaled_area_with_overrides total limit limits region in
  if negb (area_fits_on_device d (v_area v) available) then Ok candidates else Ok (candidates ++ [region]).

Definition vertex_domain (d : Device) (regions : list Coor) (areas : RegionAreas) (limit : f64)
    (parents : option (list Coor)) (limits : RegionResourceLimits) (domains : list (list Coor)) (e : nat * Vertex) :
    res IlpError (list (list Coor)) :=
  let '(index, v) := e in
  let! parent := match parents with Some ps => let! p := expect (ps !! index) in Ok (Some p) | None => Ok None end in
  let! candidates := try_fold (candidate_region d areas limit limits v parent) [] regions in
  match dedup (merge_sort coor_le candidates) with
  | [] =>
      match required_tag v with
      | Some tag => Err (anchor_unplaceable_error v tag d regions areas limit limits
                           (match parent with Some _ => true | None => false end))
      | None => Err (NoCandidates (v_name v))
      end
  | candidates => Ok (domains ++ [candidates])
  end.

Definition candidate_domains (g : FloorGraph) (d : Device) (regions : list Coor) (areas : RegionAreas) (limit : f64)
    (parents : option (list Coor)) (limits : RegionResourceLimits) : res IlpError (list (list Coor)) :=
  try_fold (vertex_domain d regions areas limit parents limits) [] (enumerate (vertices g)).

(** ** The program *)

(** [SparseRow]: coefficients and variables in insertion order. *)
Definition SparseRow : Type := list (f64 * LpVar).

Definition add_assignment_vars (g : FloorGraph) (domains : list (list Coor)) (m : LpModel) :
    res IlpError (list (list LpVar) * LpModel) :=
  try_fold (fun acc e =>
    let '(x, m) := acc in
    let '(vi, v) := e in
    let! domain := expect (domains !! vi) in
    let! (vs, m) := add_one_of_k_row ("vertex_" +:+ v_name v) (length domain)
      (fun candidate => "x_" +:+ v_name v +:+ "_" +:+ match domain !! candidate with Some r => Coor.region_name r | None => "" end) m in
    Ok (x ++ [vs], m)) ([], m) (enumerate (vertices g)).

Record YTerm := mkYTerm {
  yt_ei : nat; yt_edge : PlacementEdge; src_ci : nat; yt_src : Coor; dst_ci : nat; yt_dst : Coor }.

(** [edge_y_terms]: source candidate major, destination candidate minor. *)
Definition edge_y_terms (ei : nat) (edge : PlacementEdge) (domains : list (list Coor)) : res IlpError (list YTerm) :=
  let! srcs := expect (domains !! e_src edge) in
  match srcs with
  | [] => Ok []
  | _ =>
      let! dsts := expect (domains !! e_dst edge) in
      Ok (flat_map (fun s => map (fun t => mkYTerm ei edge s.1 s.2 t.1 t.2) (enumerate dsts)) (enumerate srcs))
  end.

Definition y_terms (g : FloorGraph) (domains : list (list Coor)) : res IlpError (list YTerm) :=
  try_fold (fun acc e => let! ts := edge_y_terms e.1 e.2 domains in Ok (acc ++ ts)) [] (enumerate (placement_edges g)).

(** The planes [y[edge][src_candidate][dst_candidate]]. *)
Definition YPlanes : Type := list (list (list LpVar)).

Definition yt_var (t : YTerm) (y : YPlanes) : res IlpError LpVar :=
  let! plane := expect (y !! yt_ei t) in
  let! row := expect (plane !! src_ci t) in
  expect (row !! dst_ci t).

(** [rows[i].push(x)]; an index out of range panics. *)
Definition push_at {A} (i : nat) (x : A) (rows : list (list A)) : res IlpError (list (list A)) :=
  let! row := expect (rows !! i) in Ok (<[i := row ++ [x]]> rows).

Definition nat_show (n : nat) : string := Str.show (Z.of_nat n).

Definition add_edge_vars (g : FloorGraph) (domains : list (list Coor)) (m : LpModel) : res IlpError (YPlanes * LpModel) :=
  try_fold (fun acc e =>
    let '(y, m) := acc in
    let '(ei, edge) := e in
    let! srcs := expect (domains !! e_src edge) in
    let! ts := edge_y_terms ei edge domains in
    let! (plane, m) := try_fold (fun acc t =>
      let '(plane, m) := acc in
      let! (v, m) := add_binary ("y_" +:+ nat_show ei +:+ "_" +:+ nat_show (src_ci t) +:+ "_" +:+ nat_show (dst_ci t)) m in
      let! plane := push_at (src_ci t) v plane in
      Ok (plane, m)) (replicate (length srcs) [], m) ts in
    let m := add_constraint ("route_" +:+ nat_show ei) (sum_expr (map (fun v => (F64.one, v)) (concat plane))) EqC F64.one m in
    Ok (y ++ [plane], m)) ([], m) (enumerate (placement_edges g)).

Definition minus_one : f64 := F64.opp F64.one.

(** The rows of one side of one edge: each gets [-x] and is equated to zero. *)
Definition couple_rows (name : nat -> string) (xs : list LpVar) (rows : list SparseRow) (m : LpModel) : res IlpError LpModel :=
  try_fold (fun m e =>
    let! v := expect (xs !! e.1) in
    Ok (add_constraint (name e.1) (sum_expr (e.2 ++ [(minus_one, v)])) EqC F64.zero m)) m (enumerate rows).

Definition add_coupling (g : FloorGraph) (domains : list (list Coor)) (x : list (list LpVar)) (y : YPlanes) (m : LpModel) :
    res IlpError LpModel :=
  try_fold (fun m e =>
    let '(ei, edge) := e in
    let! srcs := expect (domains !! e_src edge) in
    let! dsts := expect (domains !! e_dst edge) in
    let! ts := edge_y_terms ei edge domains in
    let! (src_rows, dst_cols) := try_fold (fun acc t =>
      let! v := yt_var t y in
      let! src_rows := push_at (src_ci t) (F64.one, v) acc.1 in
      let! dst_cols := push_at (dst_ci t) (F64.one, v) acc.2 in
      Ok (src_rows, dst_cols)) (replicate (length srcs) [], replicate (length dsts) []) ts in
    let! x_src := match src_rows with [] => Ok [] | _ => expect (x !! e_src edge) end in
    let! m := couple_rows (fun i => "edge_" +:+ nat_show ei +:+ "_src_" +:+ nat_show i) x_src src_rows m in
    let! x_dst := match dst_cols with [] => Ok [] | _ => expect (x !! e_dst edge) end in
    couple_rows (fun i => "edge_" +:+ nat_show ei +:+ "_dst_" +:+ nat_show i) x_dst dst_cols m) m (enumerate (placement_edges g)).

(** The flip-flops of the generated Heads: the forward width at the source
    region, the reverse width at the destination region. *)
Definition head_width (t : YTerm) (region : Coor) : Z :=
  if bool_decide (yt_src t = region) then forward_width (yt_edge t)
  else if bool_decide (yt_dst t = region) then reverse_width (yt_edge t) else 0.

Definition add_crossing_head_terms (terms : SparseRow) (g : FloorGraph) (domains : list (list Coor)) (y : YPlanes)
    (region : Coor) : res IlpError SparseRow :=
  let! ts := y_terms g domains in
  try_fold (fun terms t =>
    if bool_decide (yt_src t = yt_dst t) then Ok terms else
    let heads := head_width t region in
    if 0 <? heads then let! v := yt_var t y in Ok (terms ++ [(F64.of_Z heads, v)]) else Ok terms) terms ts.

(** [Iterator::position]. *)
Fixpoint position (region : Coor) (l : list Coor) : option nat :=
  match l with
  | [] => None
  | c :: l' => if bool_decide (c = region) then Some O else S <$> position region l'
  end.

Definition vertex_terms (r : Resource) (g : FloorGraph) (domains : list (list Coor)) (x : list (list LpVar)) (region : Coor) :
    res IlpError SparseRow :=
  try_fold (fun terms e =>
    let! domain := expect (domains !! e.1) in
    match position region domain with
    | Some ci =>
        let! xs := expect (x !! e.1) in
        let! v := expect (xs !! ci) in
        Ok (terms ++ [(F64.of_Z (amount r (v_area e.2)), v)])
    | None => Ok terms
    end) [] (enumerate (vertices g)).

Definition resource_row (g : FloorGraph) (domains : list (list Coor)) (limit : f64) (limits : RegionResourceLimits)
    (x : list (list LpVar)) (y : YPlanes) (region : Coor) (total : Area) (m : LpModel) (r : Resource) : res IlpError LpModel :=
  let! terms := vertex_terms r g domains x region in
  let! terms := if bool_decide (r = Ff) then add_crossing_head_terms terms g domains y region else Ok terms in
  let max_rhs := F64.of_Z (scaled_amount (amount r total) (limit_for limits region r limit)) in
  Ok (add_constraint ("node_" +:+ Coor.region_name region +:+ "_" +:+ resource_name r +:+ "_usage") (sum_expr terms) Le max_rhs m).

(** [BTreeSet<Coor>], in order. *)
Definition coor_set (l : list Coor) : list Coor := BMap.keys (BMap.from_list (map (fun c => (c, tt)) l)).

Definition add_resource_constraints (d : Device) (g : FloorGraph) (areas : RegionAreas) (domains : list (list Coor))
    (limit : f64) (limits : RegionResourceLimits) (x : list (list LpVar)) (y : YPlanes) (m : LpModel) : res IlpError LpModel :=
  try_fold (fun m region =>
    let! total := ok_or (BMap.get region areas) (InvalidRegion (Coor.region_name region)) in
    try_fold (resource_row g domains limit limits x y region total) m (List.filter (plans_resource d) resource_all))
    m (coor_set (concat domains)).

Definition mem_coor (c : Coor) (l : list Coor) : bool := existsb (fun a => bool_decide (a = c)) l.

Definition crosses_cut (c : Cut) (t : YTerm) : bool :=
  (mem_coor (yt_src t) (Cut.lhs c) && mem_coor (yt_dst t) (Cut.rhs c))
  || (mem_coor (yt_src t) (Cut.rhs c) && mem_coor (yt_dst t) (Cut.lhs c)).

Definition add_cut_constraints (g : FloorGraph) (domains : list (list Coor)) (cuts : list Cut) (y : YPlanes) (m : LpModel) :
    res IlpError LpModel :=
  try_fold (fun m cut =>
    let! ts := y_terms g domains in
    let! terms := try_fold (fun terms t =>
      if crosses_cut cut t then let! v := yt_var t y in Ok (terms ++ [(F64.of_Z (e_width (yt_edge t)), v)]) else Ok terms) [] ts in
    Ok (add_constraint ("cut_" +:+ cut_name cut +:+ "_capacity") (sum_expr terms) Le (F64.of_Z (Cut.capacity cut)) m)) m cuts.

Definition centroid_quarters (d : Device) (region : Coor) : res IlpError (Z * Z) :=
  let! dl := ok_or (slot d (dl_x region) (dl_y region)) (InvalidRegion (Coor.region_name region)) in
  let! ur := ok_or (slot d (ur_x region) (ur_y region)) (InvalidRegion (Coor.region_name region)) in
  Ok (wrap_i64 (2 * wrap_i64 (centroid_x dl + centroid_x ur)), wrap_i64 (2 * wrap_i64 (centroid_y dl + centroid_y ur))).

Definition vertex_location_quarters (d : Device) (v : Vertex) (centroid : Z * Z) : Z * Z :=
  default centroid (let? tag := required_tag v in anchor_position_quarters d tag).

(** [i64::abs], wrapping. *)
Definition abs_i64 (z : Z) : Z := wrap_i64 (Z.abs z).

Definition distance_quarters (a b : Z * Z) : Z :=
  wrap_i64 (abs_i64 (wrap_i64 (a.1 - b.1)) + wrap_i64 (VERTICAL_DIST_PENALTY * abs_i64 (wrap_i64 (a.2 - b.2)))).

Definition add_objective (g : FloorGraph) (d : Device) (domains : list (list Coor)) (y : YPlanes) (m : LpModel) : res IlpError LpModel :=
  let! centroids := try_fold (fun acc region =>
    let! c := centroid_quarters d region in Ok (BMap.insert region c acc)) BMap.empty (concat domains) in
  let! ts := y_terms g domains in
  let! terms := try_fold (fun terms t =>
    let! src := expect (vertices g !! e_src (yt_edge t)) in
    let! src_centroid := expect (BMap.get (yt_src t) centroids) in
    let! dst := expect (vertices g !! e_dst (yt_edge t)) in
    let! dst_centroid := expect (BMap.get (yt_dst t) centroids) in
    let dist := distance_quarters (vertex_location_quarters d src src_centroid) (vertex_location_quarters d dst dst_centroid) in
    if dist =? 0 then Ok terms else
    let! v := yt_var t y in
    Ok (terms ++ [(F64.div (F64.mul (F64.of_Z (e_width (yt_edge t))) (F64.of_Z dist)) (F64.of_Z 4), v)])) [] ts in
  Ok (set_objective (mkExpr terms F64.one) m).

Record FloorplanModel := mkFloorplanModel { fm_lp : LpModel; fm_x : list (list LpVar) }.

Definition build (g : FloorGraph) (d : Device) (domains : list (list Coor)) (areas : RegionAreas) (cuts : list Cut)
    (limit : f64) (limits : RegionResourceLimits) : res IlpError FloorplanModel :=
  let! (x, m) := add_assignment_vars g domains model_new in
  let! (y, m) := add_edge_vars g domains m in
  let! m := add_coupling g domains x y m in
  let! m := add_resource_constraints d g areas domains limit limits x y m in
  let! m := add_cut_constraints g domains cuts y m in
  let! m := add_objective g d domains y m in
  Ok (mkFloorplanModel m x).

Definition choice_failed (v : Vertex) (xs : list LpVar) (e : OneOfKError) : res IlpError nat :=
  match e with
  | MissingVariable position =>
      let! var := expect (xs !! position) in
      Err (IInvalidSolution ("solver result omitted assignment variable x" +:+ Str.show var +:+ " for vertex `" +:+ v_name v +:+ "`") [])
  | NonBinary _ _ vals => Err (IInvalidSolution ("vertex `" +:+ v_name v +:+ "` has non-binary values ") vals)
  | SelectionCount _ vals =>
      Err (IInvalidSolution ("vertex `" +:+ v_name v +:+ "` must select exactly one candidate, got ") vals)
  end.

Definition read_back (fm : FloorplanModel) (g : FloorGraph) (domains : list (list Coor)) (s : LpSolution) :
    res IlpError (list Coor) :=
  try_fold (fun assignments e =>
    let '(vi, v) := e in
    let! xs := expect (fm_x fm !! vi) in
    let! selected := match read_one_of_k s xs with
                     | Ok k => Ok k
                     | Err err => choice_failed v xs err
                     | Panic => Panic
                     end in
    let! domain := expect (domains !! vi) in
    let! region := expect (domain !! selected) in
    Ok (assignments ++ [region])) [] (enumerate (vertices g)).

(** ** The schedule *)

Definition LADDER_FUEL : nat := 64.

(** The [while] loop of [usage_ladder]: rungs are [USAGE_LIMIT_STEP] apart, and
    the ceiling is the last one. *)
Fixpoint climb (fuel : nat) (ceiling last_rung : f64) : res IlpError (list f64) :=
  match fuel with
  | O => Panic
  | S fuel' =>
      if F64.ltb last_rung ceiling then
        let next := F64.min (F64.add last_rung USAGE_LIMIT_STEP) ceiling in
        let! rungs := climb fuel' ceiling next in Ok (next :: rungs)
      else Ok []
  end.

Definition usage_ladder (base ceiling : f64) : res IlpError (list f64) :=
  let! rungs := climb LADDER_FUEL ceiling base in Ok (base :: rungs).

(** The [u64] sum wraps. *)
Definition sum64 (l : list Z) : Z := fold_left (fun a b => wrap64 (a + b)) l 0.

Definition saturating_mul (a b : Z) : Z := Z.min U64_MAX (a * b).

Definition describe_demand (d : Device) (g : FloorGraph) (areas : RegionAreas) (limit : f64) (limits : RegionResourceLimits) : string :=
  let worst := fold_left (fun worst r =>
    let demand := sum64 (map (fun v => amount r (v_area v)) (vertices g)) in
    let supply := sum64 (map (fun e => scaled_amount (amount r e.2) (limit_for limits e.1 r limit)) areas) in
    if (supply <? demand)
       && match worst with
          | None => true
          | Some (_, worst_demand, worst_supply) => saturating_mul worst_demand supply <? saturating_mul demand worst_supply
          end
    then Some (r, demand, supply) else worst) (List.filter (plans_resource d) resource_all) None in
  match worst with
  | Some (r, demand, supply) =>
      "the design needs " +:+ Str.show demand +:+ " " +:+ resource_name r +:+ " against " +:+ Str.show supply +:+ " available at that limit"
  | None => "every resource fits, so the binding constraint is inter-slot wire capacity or per-slot packing rather than the utilization limit"
  end.

Record FeasibleRung := mkRung {
  fr_limit : f64; fr_model : FloorplanModel; fr_domains : list (list Coor); fr_solution : LpSolution }.

(** The outcome of one rung; [A] is [FeasibleRung] in the schedule. *)
Inductive Rung (A : Type) := Placed (found : A) | RungInfeasible (reason : IlpError).
Arguments Placed {A} found.
Arguments RungInfeasible {A} reason.

Record SolvedIteration := mkSolved { placements : list Coor; solved_limit : f64 }.

Definition complete_assignment (g : FloorGraph) (placements : list Coor) : res IlpError Assignment :=
  let! (regions, usage) := try_fold (fun acc e =>
    let '(v, s) := e in
    if negb (Coor.width s =? 1) || negb (Coor.height s =? 1)
    then Err (IInvalidSolution ("vertex `" +:+ v_name v +:+ "` remained in non-atomic region `" +:+ Coor.region_name s +:+ "`") []) else
    let cell := (dl_x s, dl_y s) in
    if materialize v then
      let entry := default area_default (BMap.get cell acc.2) in
      let! entry := ok_or (Area.checked_add entry (v_area v))
        (IInvalidSolution ("resource accounting overflows in `" +:+ Coor.region_name s +:+ "`") []) in
      Ok (acc.1 ++ [cell], BMap.insert cell entry acc.2)
    else Ok (acc.1 ++ [cell], acc.2)) ([], BMap.empty) (zip (vertices g) placements) in
  Ok (mkAssignment regions usage).

(** The search of a ladder, on its indices; [probe] is one attempt.  Doubling
    strides from an infeasible rung up to the last one. *)
Section search.
Context {A : Type} (probe : nat -> res IlpError (Rung A)).

Fixpoint gallop (fuel : nat) (last_rung infeasible stride : nat) : res IlpError (nat * nat * A) :=
  match fuel with
  | O => Panic
  | S fuel' =>
      let rung := Nat.min (infeasible + stride) last_rung in
      let! r := probe rung in
      match r with
      | Placed found => Ok (infeasible, rung, found)
      | RungInfeasible reason => if Nat.eqb rung last_rung then Err reason else gallop fuel' last_rung rung (stride * 2)
      end
  end.

(** The bracket [(infeasible, feasible]]. *)
Fixpoint bisect (fuel : nat) (infeasible feasible : nat) (placed : A) : res IlpError A :=
  match fuel with
  | O => Panic
  | S fuel' =>
      if Nat.ltb 1 (feasible - infeasible) then
        let rung := (infeasible + (feasible - infeasible) / 2)%nat in
        let! r := probe rung in
        match r with
        | Placed found => bisect fuel' infeasible rung found
        | RungInfeasible _ => bisect fuel' rung feasible placed
        end
      else Ok placed
  end.

(** The search over [count] rungs, the first of which is the base. *)
Definition search_rungs (count : nat) : res IlpError A :=
  let! r := probe O in
  match r with
  | Placed found => Ok found
  | RungInfeasible reason =>
      if Nat.eqb count 1 then Err reason else
      let! (infeasible, feasible, placed) := gallop count (count - 1) O 1 in
      bisect count infeasible feasible placed
  end.
End search.

Section solver.
Variable solve : LpModel -> SolveOpts -> res SolverError LpSolution.

Definition attempt_placement (g : FloorGraph) (d : Device) (regions : list Coor) (areas : RegionAreas)
    (parents : option (list Coor)) (config : PlacementConfig) (cuts : list Cut) (limit : f64) (opts : SolveOpts) :
    res IlpError (Rung FeasibleRung) :=
  match candidate_domains g d regions areas limit parents (max_resource_limits config) with
  | Err (NoCandidates v) => Ok (RungInfeasible (NoCandidates v))
  | Err (AnchorUnplaceable m) => Ok (RungInfeasible (AnchorUnplaceable m))
  | Err e => Err e
  | Panic => Panic
  | Ok domains =>
      let! fm := build g d domains areas cuts limit (max_resource_limits config) in
      let! solution := map_err ISolver (solve (fm_lp fm) opts) in
      if is_found solution then Ok (Placed (mkRung limit fm domains solution)) else
      match status solution with
      | Infeasible =>
          Ok (RungInfeasible (IInfeasible (retry_ceiling config)
                     (describe_demand d g areas (retry_ceiling config) (max_resource_limits config))))
      | NotSolved | Unbounded => Err (INoIncumbent (status solution))
      | Optimal | Feasible => Panic
      end
  end.

(** [finish_iteration] with [refine_lexicographic]. *)
Definition finish_iteration (g : FloorGraph) (rung : FeasibleRung) (opts : SolveOpts) : res IlpError SolvedIteration :=
  let fm := fr_model rung in
  let! refined := map_err ISolver
    (refine solve (fm_lp fm) opts (objective (fm_lp fm)) (sol_objective (fr_solution rung)) (fm_x fm)) in
  let! placed := read_back fm g (fr_domains rung) (default (fr_solution rung) refined) in
  Ok (mkSolved placed (fr_limit rung)).

Definition solve_iteration (g : FloorGraph) (d : Device) (regions : list Coor) (parents : option (list Coor))
    (config : PlacementConfig) (base_usage_limit : f64) (opts : SolveOpts) : res IlpError SolvedIteration :=
  let cuts := find_cuts_for_regions d regions in
  let! areas := region_areas d regions in
  let! ladder := usage_ladder base_usage_limit (retry_ceiling config) in
  let probe rung :=
    let! limit := expect (ladder !! rung) in
    attempt_placement g d regions areas parents config cuts limit opts in
  let! placed := search_rungs probe (length ladder) in
  finish_iteration g placed opts.

Definition floorplan_with_config (g : FloorGraph) (d : Device) (config : PlacementConfig) (opts : SolveOpts) :
    res IlpError Assignment :=
  let! _ := validate_config config in
  let! final_regions :=
    match resolve_strategy g d (strategy config) with
    | Auto => Panic
    | Flat =>
        let! s := solve_iteration g d (atomic_regions d) None config (usage_limit config) opts in
        Ok (placements s)
    | MultiLevel =>
        let! row_pass := solve_iteration g d (row_regions d) None config (usage_limit config) opts in
        let atomic_base := solved_limit row_pass in
        match solve_iteration g d (atomic_regions d) (Some (placements row_pass)) config atomic_base opts with
        | Ok s => Ok (placements s)
        | Err (IInfeasible _ _) | Err (NoCandidates _) =>
            let! s := solve_iteration g d (atomic_regions d) None config atomic_base opts in
            Ok (placements s)
        | Err e => Err e
        | Panic => Panic
        end
    end in
  complete_assignment g final_regions.

Definition floorplan_with_strategy (g : FloorGraph) (d : Device) (base_usage_limit retry : f64) (s : PartitionStrategy)
    (opts : SolveOpts) : res IlpError Assignment :=
  floorplan_with_config g d (mkConfig base_usage_limit retry s BMap.empty) opts.

Definition floorplan_with_exact_resource_caps (g : FloorGraph) (d : Device) (logic_limit block_limit : f64)
    (s : PartitionStrategy) (opts : SolveOpts) : res IlpError (Assignment * PartitionStrategy) :=
  let s := resolve_strategy g d s in
  let limits := if bool_decide (s = MultiLevel) then exact_resource_cap_constraints d block_limit else BMap.empty in
  let! a := floorplan_with_config g d (mkConfig logic_limit logic_limit s limits) opts in
  Ok (a, s).
End solver.
