(* ===== verification/PartitionSearch.v ===== *)
(** * The utilization ladder and its search

    The ladder of [partition/ilp.rs] is finite and climbs to its ceiling, and the
    galloping search over it is a linear walk when feasibility is monotone. *)

From S2P Require Import Prelude F64 F64Spec Partition.

(** ** The ladder *)

(** A limit the configuration check accepts. *)
Definition fraction (a : f64) : Prop := fin a /\ 0 < units a <= UNIT.

Lemma validate_limit_fraction kind region v : valid v -> validate_limit kind region v false = Ok tt <-> fraction v.
Proof.
  intros Hv. unfold validate_limit, fraction, fin. cbn [andb]. rewrite orb_false_r. destruct (F64.is_finite v) eqn:Hf.
  - assert (Hfin : fin v) by done. assert (Hz : fin F64.zero) by done. destruct one_spec as [H1 E1].
    unfold F64.gtb. rewrite ltb_spec, leb_spec by done. rewrite E1. change (units F64.zero) with 0.
    cbn [andb]. destruct (Z.ltb_spec 0 (units v)), (Z.leb_spec (units v) UNIT); simpl; split; try done; intros; try lia.
  - simpl. split; [done|]. by intros [[]].
Qed.

Lemma step_spec : fin USAGE_LIMIT_STEP /\ 20 * UNIT - 2 <= 1000 * units USAGE_LIMIT_STEP <= 21 * UNIT.
Proof. split; [done|]. vm_compute. split; discriminate. Qed.

(** One rung above a fraction is at least [0.019] higher. *)
Lemma rung_above a : fraction a ->
  fin (F64.add a USAGE_LIMIT_STEP) /\ 19 * UNIT <= 1000 * (units (F64.add a USAGE_LIMIT_STEP) - units a).
Proof.
  intros [Ha Hu]. destruct step_spec as [Hs Es]. pose proof UNIT_pos as HU.
  assert (Hbig : 2 * UNIT < 2 ^ (1000 + K)) by (vm_compute; reflexivity).
  destruct (add_spec a USAGE_LIMIT_STEP) as [Hf Hv]; [done|done|lia|lia|unfold in_range; lia|]. split; [done|].
  rewrite Hv. set (s := units a + units USAGE_LIMIT_STEP) in *.
  pose proof (round_units_error s ltac:(lia)) as He.
  assert (Hg : 2 ^ grid s <= 2 ^ 2096).
  { apply Z.pow_le_mono_r; [lia|]. unfold grid. enough (Z.log2 s < 2149) by lia. apply Z.log2_lt_pow2; [lia|].
    change (2 ^ 2149) with (2 * UNIT). lia. }
  assert (1000 * 2 ^ 2096 + 2 < UNIT) by (vm_compute; reflexivity). lia.
Qed.

(** Consecutive rungs rise; the last one is the ceiling. *)
Fixpoint rises (a : f64) (l : list f64) (ceiling : f64) : Prop :=
  match l with
  | [] => units ceiling <= units a
  | b :: l' => units a < units b <= units ceiling /\ fin b /\ rises b l' ceiling
  end.

Lemma climb_spec fuel ceiling a :
  fraction ceiling -> fraction a ->
  (0 < Z.of_nat fuel) -> (units a < units ceiling -> 1000 * (UNIT - units a) < (Z.of_nat fuel - 1) * (19 * UNIT)) ->
  exists l, climb fuel ceiling a = Ok l /\ rises a l ceiling.
Proof.
  pose proof UNIT_pos as HU. revert a. induction fuel as [|fuel IH]; intros a Hc Ha H0 Hlt; [lia|]. cbn [climb].
  rewrite ltb_spec by (apply Ha || apply Hc). destruct (Z.ltb_spec (units a) (units ceiling)) as [Hl|Hl]; [|by exists []].
  specialize (Hlt Hl). destruct (rung_above a Ha) as [Hf Hr]. rewrite min_spec by (done || apply Hc).
  set (next := if units ceiling <? units (F64.add a USAGE_LIMIT_STEP) then ceiling else F64.add a USAGE_LIMIT_STEP).
  assert (Hn : fraction next /\ units a < units next <= units ceiling /\ (next = ceiling \/ 19 * UNIT <= 1000 * (units next - units a))).
  { unfold next. destruct Ha as [Ha Ua], Hc as [Hc Uc]. destruct (Z.ltb_spec (units ceiling) (units (F64.add a USAGE_LIMIT_STEP))).
    - split; [done|]. split; [lia|]. by left.
    - split; [split; [done|lia]|]. split; [lia|]. by right. }
  destruct Hn as (Hn & Hrise & Hstep). destruct (IH next) as (l & -> & Hl'); [done|done| | |].
  - assert (0 <= 1000 * (UNIT - units a)) by (destruct Ha; lia). nia.
  - intros Hlt'. destruct Hstep as [->|Hstep]; [lia|]. nia.
  - exists (next :: l). split; [done|]. split; [done|]. split; [apply Hn|done].
Qed.

(** The ladder is built, rises strictly from the base, and ends at the
    ceiling. *)
Lemma usage_ladder_spec base ceiling :
  fraction base -> fraction ceiling -> exists l, usage_ladder base ceiling = Ok (base :: l) /\ rises base l ceiling.
Proof.
  intros Hb Hc. unfold usage_ladder. destruct (climb_spec LADDER_FUEL ceiling base Hc Hb) as (l & -> & Hl).
  - done.
  - intros _. destruct Hb as [_ Hb]. unfold LADDER_FUEL. lia.
  - by exists l.
Qed.

Lemma rises_fin a l c b : fraction a -> fraction c -> rises a l c -> b ∈ a :: l -> fraction b /\ units a <= units b.
Proof.
  revert a. induction l as [|x l IH]; intros a Ha Hc Hr Hb.
  - apply list_elem_of_singleton in Hb as ->. split; [done|lia].
  - apply elem_of_cons in Hb as [->|Hb]; [split; [done|lia]|]. destruct Hr as (Hax & Hx & Hr).
    destruct (IH x) with (4 := Hb) as [? ?]; [|done|done|split; [done|lia]]. split; [done|]. destruct Ha, Hc. lia.
Qed.

Lemma rises_lt a l c i j x y : rises a l c -> (i < j)%nat -> (a :: l) !! i = Some x -> (a :: l) !! j = Some y -> units x < units y.
Proof.
  revert a i j x y. induction l as [|b l IH]; intros a i j x y Hr Hij Hx Hy.
  - destruct j as [|[|]]; [lia|done|done].
  - destruct Hr as (Hab & _ & Hr). destruct j as [|j]; [lia|]. cbn in Hy. destruct i as [|i].
    + injection Hx as <-. destruct j as [|j]; [injection Hy as <-; lia|].
      specialize (IH b O (S j) b y Hr ltac:(lia) eq_refl Hy). lia.
    + cbn in Hx. by apply (IH b i j x y Hr ltac:(lia)).
Qed.

(** The utilization ladder exists and is exact. For limits the
    configuration check accepts, building the ladder ends within its fuel; it
    starts at the base, rises strictly, never exceeds the ceiling, and its last
    rung is the ceiling (or the base, when that is not below the ceiling). *)
Theorem ladder_climbs base ceiling :
  valid base -> valid ceiling ->
  validate_limit "base" "all regions" base false = Ok tt -> validate_limit "retry ceiling" "all regions" ceiling false = Ok tt ->
  exists l, usage_ladder base ceiling = Ok (base :: l) /\
    (forall i j x y, (i < j)%nat -> (base :: l) !! i = Some x -> (base :: l) !! j = Some y -> F64.ltb x y = true) /\
    (forall x, x ∈ l -> F64.leb x ceiling = true) /\
    (forall x, last (base :: l) = Some x -> F64.leb ceiling x = true).
Proof.
  intros Vb Vc Hb%validate_limit_fraction Hc%validate_limit_fraction; [|done..].
  destruct (usage_ladder_spec base ceiling Hb Hc) as (l & Hl & Hr). exists l. split; [done|].
  assert (Hfin : forall x, x ∈ base :: l -> fin x) by (intros x Hx; by apply (rises_fin base l ceiling x Hb Hc Hr) in Hx as [[? _] _]).
  split_and!.
  - intros i j x y Hij Hx Hy. rewrite ltb_spec by (apply Hfin; by eapply list_elem_of_lookup_2).
    apply Z.ltb_lt. by eapply (rises_lt base l ceiling i j).
  - intros x Hx. rewrite leb_spec by (apply Hc || by apply Hfin; right). apply Z.leb_le.
    clear Hl Hfin Hb Vb. revert base Hr. induction Hx as [x l|x b l Hx IH]; intros a Hr; destruct Hr as (? & _ & Hr); [lia|eauto].
  - intros x Hx. assert (Hin : x ∈ base :: l).
    { rewrite last_lookup in Hx. by eapply list_elem_of_lookup_2. }
    rewrite leb_spec by (apply Hc || by apply Hfin). apply Z.leb_le. clear Hl Hfin Hb Vb Hin.
    revert base Hr Hx. induction l as [|b l IH]; intros a Hr Hx; [by injection Hx as <-|].
    destruct Hr as (_ & _ & Hr). apply (IH b Hr). by rewrite last_cons_cons in Hx.
Qed.

(** ** The search *)

Section search.
Context {A : Type} (probe : nat -> res IlpError (Rung A)).

(** One rung at a time, the reference the search stands for. *)
Fixpoint walk (rungs i : nat) : res IlpError A :=
  match rungs with
  | O => Panic
  | S rungs' =>
      let! r := probe i in
      match r with
      | Placed found => Ok found
      | RungInfeasible reason => match rungs' with O => Err reason | _ => walk rungs' (S i) end
      end
  end.

Definition linear_walk (count : nat) : res IlpError A := walk count O.

(** An attempt that ends the search: a hard error or a panic. *)
Definition fails (n : nat) (r : res IlpError A) : Prop :=
  match r with
  | Ok _ => False
  | Err e => exists k, (k <= n)%nat /\ probe k = Err e
  | Panic => exists k, (k <= n)%nat /\ probe k = Panic
  end.

(** What a search of the rungs up to [n] ends with: a rung that places, the one
    below which, if any, does not; the reason of the last rung; or the failure
    of an attempt. *)
Definition searched (n : nat) (r : res IlpError A) : Prop :=
  (exists a k, r = Ok a /\ (k <= n)%nat /\ probe k = Ok (Placed a) /\ (k = O \/ exists e, probe (k - 1)%nat = Ok (RungInfeasible e))) \/
  (exists e, r = Err e /\ probe n = Ok (RungInfeasible e)) \/ fails n r.

Lemma gallop_spec n fuel i stride e0 :
  probe i = Ok (RungInfeasible e0) -> (i < n)%nat -> (1 <= stride)%nat -> (n - i < fuel)%nat ->
  (exists lo hi a e, gallop probe fuel n i stride = Ok (lo, hi, a) /\ (lo < hi <= n)%nat /\ probe lo = Ok (RungInfeasible e) /\ probe hi = Ok (Placed a)) \/
  (exists e, gallop probe fuel n i stride = Err e /\ probe n = Ok (RungInfeasible e)) \/
  (exists e k, gallop probe fuel n i stride = Err e /\ (k <= n)%nat /\ probe k = Err e) \/
  (exists k, gallop probe fuel n i stride = Panic /\ (k <= n)%nat /\ probe k = Panic).
Proof.
  revert i stride e0. induction fuel as [|fuel IH]; intros i stride e0 Hi Hlt Hs Hf; [lia|]. cbn [gallop].
  set (rung := Nat.min (i + stride) n). assert (Hr : (i < rung <= n)%nat) by (unfold rung; lia).
  destruct (probe rung) as [[a|e]|e|] eqn:E; cbn [rbind].
  - left. by exists i, rung, a, e0.
  - destruct (Nat.eqb_spec rung n) as [Hn|Hn]; [right; left; exists e; by rewrite <- Hn|].
    apply (IH rung (stride * 2)%nat e); [done|lia..].
  - right. right. left. exists e, rung. split_and!; [done|lia|done].
  - right. right. right. exists rung. split_and!; [done|lia|done].
Qed.

Lemma bisect_spec n fuel lo hi a e :
  probe lo = Ok (RungInfeasible e) -> probe hi = Ok (Placed a) -> (lo < hi <= n)%nat -> (hi - lo <= fuel)%nat ->
  searched n (bisect probe fuel lo hi a).
Proof.
  revert lo hi a e. induction fuel as [|fuel IH]; intros lo hi a e Hlo Hhi Hlt Hf; [lia|]. cbn [bisect].
  destruct (Nat.ltb_spec 1 (hi - lo)) as [Hgap|Hgap].
  2: { left. exists a, hi. split_and!; [done|lia|done|]. right. exists e. by replace (hi - 1)%nat with lo by lia. }
  set (mid := (lo + (hi - lo) / 2)%nat).
  assert (Hmid : (lo < mid < hi)%nat).
  { unfold mid. pose proof (Nat.div_lt (hi - lo) 2 ltac:(lia) ltac:(lia)). pose proof (Nat.div_str_pos (hi - lo) 2 ltac:(lia)). lia. }
  destruct (probe mid) as [[b|e']|e'|] eqn:E; cbn [rbind].
  - apply (IH lo mid b e); [done|done|lia..].
  - apply (IH mid hi a e'); [done|done|lia..].
  - right. right. exists mid. split; [lia|done].
  - right. right. exists mid. split; [lia|done].
Qed.

Lemma search_searched count : (1 <= count)%nat -> searched (count - 1) (search_rungs probe count).
Proof.
  intros Hc. unfold search_rungs. destruct (probe O) as [[a|e]|e|] eqn:E; cbn [rbind].
  - left. exists a, O. split_and!; [done|lia|done|by left].
  - destruct (Nat.eqb_spec count 1) as [->|Hne]; [right; left; by exists e|].
    destruct (gallop_spec (count - 1) count O 1 e) as [(lo & hi & a & e' & -> & Hlt & Hlo & Hhi)|[(e' & -> & He)|[(e' & k & -> & Hk & He)|(k & -> & Hk & He)]]];
      [done|lia..| | | |]; cbn [rbind].
    + apply (bisect_spec _ _ _ _ _ e'); [done|done|lia..].
    + right. left. by exists e'.
    + right. right. by exists k.
    + right. right. by exists k.
  - right. right. exists O. split; [lia|done].
  - right. right. exists O. split; [lia|done].
Qed.

(** ** Monotone feasibility *)

Context (count : nat).
Hypothesis total : forall k, (k < count)%nat -> exists r, probe k = Ok r.
Hypothesis monotone : forall j k a, (j <= k < count)%nat -> probe j = Ok (Placed a) -> exists b, probe k = Ok (Placed b).

Lemma walk_Ok n i k a : (i + n = count)%nat -> (i <= k < count)%nat -> probe k = Ok (Placed a) ->
  (forall j, (i <= j < k)%nat -> exists e, probe j = Ok (RungInfeasible e)) -> walk n i = Ok a.
Proof using total.
  revert i. induction n as [|n IH]; intros i Hn Hk Hp Hlow; [lia|]. cbn [walk].
  destruct (Nat.eq_dec i k) as [->|Hne]; [by rewrite Hp|].
  destruct (Hlow i ltac:(lia)) as [e ->]. cbn [rbind]. destruct n as [|n]; [lia|].
  apply IH; [lia|lia|done|]. intros j Hj. apply Hlow. lia.
Qed.

Lemma walk_Err n i e : (i + n = count)%nat -> (1 <= n)%nat -> probe (count - 1)%nat = Ok (RungInfeasible e) ->
  (forall j, (i <= j < count)%nat -> exists e', probe j = Ok (RungInfeasible e')) -> walk n i = Err e.
Proof using total.
  revert i. induction n as [|n IH]; intros i Hn H1 Hp Hall; [lia|]. cbn [walk].
  destruct n as [|n].
  - replace i with (count - 1)%nat by lia. by rewrite Hp.
  - destruct (Hall i ltac:(lia)) as [e' ->]. cbn [rbind]. apply IH; [lia|lia|done|]. intros j Hj. apply Hall. lia.
Qed.

(** Below a rung that does not place, none does. *)
Lemma infeasible_below k e j : (j <= k < count)%nat -> probe k = Ok (RungInfeasible e) -> exists e', probe j = Ok (RungInfeasible e').
Proof using total monotone.
  intros Hj Hk. destruct (total j ltac:(lia)) as [[a|e'] Hp]; [|by exists e'].
  destruct (monotone j k a Hj Hp) as [b Hb]. congruence.
Qed.

Lemma search_walk : (1 <= count)%nat -> search_rungs probe count = linear_walk count.
Proof using total monotone.
  intros Hc. symmetry. unfold linear_walk.
  destruct (search_searched count Hc) as [(a & k & -> & Hk & Hp & Hlow)|[(e & -> & He)|Hf]].
  - apply (walk_Ok count O k a); [lia|lia|done|]. intros j Hj. destruct Hlow as [->|[e He]]; [lia|].
    apply (infeasible_below (k - 1) e); [lia|done].
  - apply walk_Err; [lia|done|done|]. intros j Hj. apply (infeasible_below (count - 1) e); [lia|done].
  - destruct (search_rungs probe count) as [a|e|]; [done| |]; destruct Hf as (k & Hk & Hp);
      destruct (total k ltac:(lia)) as [r Hr]; congruence.
Qed.
End search.

(** C35: the galloping search is the linear walk it stands for, when no attempt fails.
    Suppose every attempt of the ladder ends with a placement or a rejection, and
    feasibility is monotone in the limit: then doubling strides and bisecting gives the
    outcome of trying every rung in order, the placement of the lowest rung that places
    or, when none does, the reason of the ceiling.  Without either assumption, a placement
    the search returns is that of a rung whose next lower rung, if any, was rejected, and an
    error is the rejection of the ceiling or the failure of an attempt.  The walk may then
    differ: it meets the failures of the rungs the search skips ([search_skips_failures]). *)
Theorem search_is_linear_walk {A} (probe : nat -> res IlpError (Rung A)) count : (1 <= count)%nat ->
  searched probe (count - 1) (search_rungs probe count) /\
  ((forall k, (k < count)%nat -> exists r, probe k = Ok r) ->
   (forall j k a, (j <= k < count)%nat -> probe j = Ok (Placed a) -> exists b, probe k = Ok (Placed b)) ->
   search_rungs probe count = linear_walk probe count).
Proof. intros Hc. split; [by apply search_searched|]. intros Ht Hm. by apply search_walk. Qed.

(** Eight rungs, the third of which fails, and placement from the sixth on: the search
    returns the sixth, and the walk fails. *)
Example search_skips_failures :
  let probe k := if Nat.eqb k 2 then Err (NoCandidates "v") else Ok (if Nat.leb 5 k then Placed k else RungInfeasible (NoCandidates "w")) in
  search_rungs probe 8 = Ok 5%nat /\ linear_walk probe 8 = Err (NoCandidates "v").
Proof. vm_compute. done. Qed.

(** ** Witnesses *)

Lemma ladder_climbs_witness : exists l, usage_ladder DEFAULT_USAGE_LIMIT MAX_USAGE_LIMIT = Ok (DEFAULT_USAGE_LIMIT :: l) /\ length l = 13%nat.
Proof.
  destruct (ladder_climbs DEFAULT_USAGE_LIMIT MAX_USAGE_LIMIT eq_refl eq_refl eq_refl eq_refl) as (l & Hl & _).
  exists l. split; [exact Hl|].
  assert (E : usage_ladder DEFAULT_USAGE_LIMIT MAX_USAGE_LIMIT = Ok (DEFAULT_USAGE_LIMIT :: l)) by exact Hl.
  vm_compute in E. injection E as <-. reflexivity.
Defined.

Lemma search_is_linear_walk_witness :
  search_rungs (fun k => Ok (if Nat.leb 9 k then Placed k else RungInfeasible (NoCandidates "v"))) 13 = Ok 9%nat.
Proof.
  destruct (search_is_linear_walk (fun k => Ok (if Nat.leb 9 k then Placed k else RungInfeasible (NoCandidates "v"))) 13) as [_ H]; [lia|].
  rewrite H; [reflexivity| |].
  - intros k _. by eexists.
  - intros j k a Hj. destruct (Nat.leb_spec 9 j), (Nat.leb_spec 9 k); try done; [by eexists|lia].
Defined.
