(* ===== verification/PartitionProps.v ===== *)
(** * Placement: domains, limits and assignments

    What [partition/ilp.rs] promises of candidate regions, of raising the
    utilization limit, and of the assignment it returns whatever the solver
    answered. *)

From S2P Require Import Prelude RustStd BTreeMap Geometry Ir F64 Device Cut FloorGraph FloorGraphProps F64Spec Lp Partition PartitionSearch.

(** ** Sorting and removing repetitions *)

Lemma elem_of_dedup x l : x ∈ dedup l <-> x ∈ l.
Proof.
  induction l as [|y l IH]; [done|]. destruct l as [|z l]; [done|]. change (dedup (y :: z :: l)) with
    (if bool_decide (y = z) then dedup (z :: l) else y :: dedup (z :: l)).
  case_bool_decide as Hyz; [subst; rewrite IH, !elem_of_cons; tauto|]. by rewrite elem_of_cons, IH, (elem_of_cons _ x y).
Qed.

#[export] Instance coor_le_trans : Transitive coor_le.
Proof.
  intros a b c. unfold coor_le. destruct (kcmp a b) eqn:Hab; [apply kcmp_eq in Hab as ->; done| |done].
  destruct (kcmp b c) eqn:Hbc; [apply kcmp_eq in Hbc as <-; by rewrite Hab| |done].
  intros _ _. by rewrite (kcmp_trans _ _ _ Hab Hbc).
Qed.

#[export] Instance coor_le_total : Total coor_le.
Proof. intros a b. unfold coor_le. rewrite (kcmp_antisym a b). destruct (kcmp a b); [left|left|right]; done. Qed.

Lemma dedup_sorted l : StronglySorted coor_le l -> StronglySorted klt (dedup l).
Proof.
  induction l as [|y l IH]; intros Hs; [constructor|]. apply StronglySorted_inv in Hs as [Hs Hle].
  destruct l as [|z l]; [constructor; constructor|].
  change (dedup (y :: z :: l)) with (if bool_decide (y = z) then dedup (z :: l) else y :: dedup (z :: l)).
  case_bool_decide as Hyz; [by apply IH|]. constructor; [by apply IH|].
  apply Forall_forall. intros x Hx. apply (proj1 (elem_of_dedup _ _)) in Hx. unfold klt.
  assert (Hyz' : kcmp y z = Lt).
  { apply Forall_cons in Hle as [Hle _]. unfold coor_le in Hle. destruct (kcmp y z) eqn:E; [by apply kcmp_eq in E|done|done]. }
  apply elem_of_cons in Hx as [->|Hx]; [done|]. apply StronglySorted_inv in Hs as [_ Hz].
  rewrite Forall_forall in Hz. specialize (Hz x Hx). unfold coor_le in Hz.
  destruct (kcmp z x) eqn:E; [by apply kcmp_eq in E as <-|by apply (kcmp_trans y z x)|done].
Qed.

Lemma klt_sorted_NoDup (l : list Coor) : StronglySorted klt l -> NoDup l.
Proof.
  induction 1 as [|x l _ IH Hall]; [constructor|]. constructor; [|done]. intros Hin. rewrite Forall_forall in Hall.
  by apply (klt_irrefl x), Hall.
Qed.

(** ** Candidate domains *)

(** The regions a vertex may take at a limit. *)
Record admissible (d : Device) (areas : RegionAreas) (limit : f64) (limits : RegionResourceLimits) (v : Vertex)
    (parent : option Coor) (region : Coor) : Prop := {
  adm_parent : forall p, parent = Some p -> Coor.is_inside region p = true;
  adm_tag : forall tag, required_tag v = Some tag -> region_has_tag d region tag = true;
  adm_fits : exists total, BMap.get region areas = Some total /\
    forall r, plans_resource d r = true -> amount r (v_area v) <= scaled_amount (amount r total) (limit_for limits region r limit);
}.

Lemma resource_all_complete r : In r resource_all.
Proof. destruct r; simpl; tauto. Qed.

Lemma area_fits_on_device_spec d required available :
  area_fits_on_device d required available = true <->
  forall r, plans_resource d r = true -> amount r required <= amount r available.
Proof.
  unfold area_fits_on_device, area_fits_with. rewrite forallb_forall. split.
  - intros H r Hr. apply Z.leb_le, H, filter_In. split; [apply resource_all_complete|done].
  - intros H r [_ Hr]%filter_In. by apply Z.leb_le, H.
Qed.

Lemma candidate_region_ok d areas limit limits v parent cs region cs' :
  candidate_region d areas limit limits v parent cs region = Ok cs' ->
  (cs' = cs ++ [region] /\ admissible d areas limit limits v parent region) \/
  (cs' = cs /\ ~ admissible d areas limit limits v parent region).
Proof.
  unfold candidate_region. intros H.
  destruct parent as [p|] eqn:Ep; [destruct (Coor.is_inside region p) eqn:Hin|]; cbn [negb] in H.
  2: { right. injection H as <-. split; [done|]. intros [Hp _ _]. specialize (Hp p eq_refl). congruence. }
  all: destruct (required_tag v) as [tag|] eqn:Et; [destruct (region_has_tag d region tag) eqn:Htag|]; cbn [negb] in H.
  2,5: right; injection H as <-; split; [done|]; intros [_ Ht _]; specialize (Ht tag Et); congruence.
  all: apply rbind_ok in H as (total & Htot%ok_or_ok & H).
  all: destruct (area_fits_on_device d (v_area v) (scaled_area_with_overrides total limit limits region)) eqn:Hfit; cbn [negb] in H; injection H as <-.
  all: try (left; split; [done|]; split; [naive_solver|naive_solver|exists total; split; [done|]];
    intros r Hr; rewrite area_fits_on_device_spec in Hfit; specialize (Hfit r Hr);
    unfold scaled_area_with_overrides in Hfit; by rewrite Area.amount_from_amounts in Hfit).
  all: right; split; [done|]; intros [_ _ (total' & Htot' & Hfits)]; assert (total' = total) as -> by congruence;
    apply not_true_iff_false in Hfit; apply Hfit, area_fits_on_device_spec; intros r Hr;
    unfold scaled_area_with_overrides; rewrite Area.amount_from_amounts; by apply Hfits.
Qed.

Lemma candidates_ok d areas limit limits v parent regions cs :
  try_fold (candidate_region d areas limit limits v parent) [] regions = Ok cs ->
  forall region, region ∈ cs <-> region ∈ regions /\ admissible d areas limit limits v parent region.
Proof.
  intros H. refine (try_fold_ind (fun done cs => forall region, region ∈ cs <-> region ∈ done /\ admissible d areas limit limits v parent region)
    _ _ _ _ _ _ H).
  - intros region. rewrite !elem_of_nil. tauto.
  - intros l1 x l2 a a' _ IH Hstep region. rewrite elem_of_app, list_elem_of_singleton.
    apply candidate_region_ok in Hstep as [[-> Hadm]|[-> Hadm]].
    + rewrite elem_of_app, list_elem_of_singleton, IH. naive_solver.
    + rewrite IH. naive_solver.
Qed.

(** What is known of the domain of a vertex. *)
Definition domain_ok (d : Device) (regions : list Coor) (areas : RegionAreas) (limit : f64) (parents : option (list Coor))
    (limits : RegionResourceLimits) (vi : nat) (v : Vertex) (dom : list Coor) : Prop :=
  dom <> [] /\ StronglySorted klt dom /\
  forall region, region ∈ dom <-> region ∈ regions /\ admissible d areas limit limits v (parents ≫= (.!! vi)) region.

Lemma vertex_domain_ok d regions areas limit parents limits doms vi v doms' :
  vertex_domain d regions areas limit parents limits doms (vi, v) = Ok doms' ->
  exists dom, doms' = doms ++ [dom] /\ domain_ok d regions areas limit parents limits vi v dom.
Proof.
  unfold vertex_domain. intros H. apply rbind_ok in H as (parent & Hp & H). apply rbind_ok in H as (cs & Hcs & H).
  assert (Ep : parent = parents ≫= (.!! vi)).
  { destruct parents as [ps|]; [|by injection Hp as <-]. apply rbind_ok in Hp as (p & Hp%expect_ok & [= <-]). by simpl. }
  subst parent. set (dom := dedup (merge_sort coor_le cs)) in *. exists dom.
  assert (Hin : forall region, region ∈ dom <-> region ∈ cs) by (intros; unfold dom; by rewrite elem_of_dedup, merge_sort_Permutation).
  assert (Hs : StronglySorted klt dom) by (apply dedup_sorted, StronglySorted_merge_sort; apply _).
  destruct dom as [|c dom'] eqn:E; [by destruct (required_tag v)|]. injection H as <-. split; [done|].
  split; [done|]. split; [done|]. intros region. rewrite Hin. by apply candidates_ok.
Qed.

Lemma candidate_domains_ok g d regions areas limit parents limits doms :
  candidate_domains g d regions areas limit parents limits = Ok doms ->
  Forall2 (fun e dom => domain_ok d regions areas limit parents limits e.1 e.2 dom) (enumerate (vertices g)) doms.
Proof.
  unfold candidate_domains. intros H.
  refine (try_fold_ind (fun done doms => Forall2 (fun e dom => domain_ok d regions areas limit parents limits e.1 e.2 dom) done doms)
    _ _ _ _ _ _ H); [constructor|].
  intros l1 [vi v] l2 a a' _ IH Hstep. apply vertex_domain_ok in Hstep as (dom & -> & Hdom).
  apply Forall2_app; [done|]. by constructor.
Qed.

(** ** Raising the limit *)

Definition areas_typed (areas : RegionAreas) : Prop := forall region total, BMap.get region areas = Some total -> Area.wf total.

(** Overrides are fractions too, zero included. *)
Definition limits_typed (limits : RegionResourceLimits) : Prop :=
  forall region r l, lookup_limit limits region r = Some l -> fin l /\ 0 <= units l <= UNIT.

Lemma scaled_amount_mono z a b :
  in_u64 z -> fin a -> fin b -> 0 <= units a <= units b -> units b <= UNIT -> scaled_amount z a <= scaled_amount z b.
Proof. intros Hz. by apply scaled_mono. Qed.

Lemma derated_mono areas limits region total r a b :
  areas_typed areas -> BMap.get region areas = Some total -> fraction a -> fraction b -> units a <= units b ->
  scaled_amount (amount r total) (limit_for limits region r a) <= scaled_amount (amount r total) (limit_for limits region r b).
Proof.
  intros Ha Htot [Fa Ua] [Fb Ub] Hab. unfold limit_for. destruct (lookup_limit limits region r); simpl; [lia|].
  apply scaled_amount_mono; [by apply (Ha region total)|done|done|lia|lia].
Qed.

Lemma admissible_mono d areas a b limits v parent region :
  areas_typed areas -> fraction a -> fraction b -> units a <= units b ->
  admissible d areas a limits v parent region -> admissible d areas b limits v parent region.
Proof.
  intros Ha Fa Fb Hab [Hp Ht (total & Htot & Hfit)]. split; [done|done|]. exists total. split; [done|].
  intros r Hr. etransitivity; [by apply Hfit|]. by apply (derated_mono areas).
Qed.

Section widen.
Context (d : Device) (areas : RegionAreas) (limits : RegionResourceLimits) (a b : f64).
Context (Hareas : areas_typed areas) (Fa : fraction a) (Fb : fraction b) (Hab : units a <= units b).

(** A lookup of a region's area fails at every limit or at none. *)
Lemma candidate_region_total v parent cs cs' region r :
  candidate_region d areas a limits v parent cs region = Ok r -> exists r', candidate_region d areas b limits v parent cs' region = Ok r'.
Proof using Type.
  unfold candidate_region. intros H.
  destruct (match parent with Some p => negb (Coor.is_inside region p) | None => false end); [by eexists|].
  destruct (match required_tag v with Some tag => _ | None => _ end); [by eexists|].
  apply rbind_ok in H as (total & Htot & _). rewrite Htot. cbn [rbind]. destruct (negb _); by eexists.
Qed.

Lemma candidates_widen v parent regions cs :
  try_fold (candidate_region d areas a limits v parent) [] regions = Ok cs ->
  exists cs', try_fold (candidate_region d areas b limits v parent) [] regions = Ok cs'.
Proof using Type.
  intros H. destruct (try_fold_sim (fun _ _ => True) _ (candidate_region d areas b limits v parent) _ _ [] _
    (fun acc acc' x r _ _ Hr => match candidate_region_total v parent acc acc' x r Hr with
                               | ex_intro _ r' Hr' => ex_intro _ r' (conj Hr' I) end) I H) as (cs' & Hcs' & _).
  by exists cs'.
Qed.

Lemma vertex_domain_widen regions parents doms doms2 e doms' :
  vertex_domain d regions areas a parents limits doms e = Ok doms' ->
  exists doms2', vertex_domain d regions areas b parents limits doms2 e = Ok doms2'.
Proof using All.
  destruct e as [vi v]. intros H. pose proof (vertex_domain_ok _ _ _ _ _ _ _ _ _ _ H) as (dom & _ & Hne & _ & Hdom).
  unfold vertex_domain in *. apply rbind_ok in H as (parent & Hp & H). apply rbind_ok in H as (cs & Hcs & _).
  rewrite Hp. cbn [rbind]. destruct (candidates_widen v parent regions cs Hcs) as (cs' & Hcs'). rewrite Hcs'. cbn [rbind].
  assert (Ep : parent = parents ≫= (.!! vi)).
  { destruct parents as [ps|]; [|by injection Hp as <-]. apply rbind_ok in Hp as (p & Hp%expect_ok & [= <-]). by simpl. }
  destruct (dedup (merge_sort coor_le cs')) as [|c l] eqn:E; [|by eexists]. exfalso.
  destruct dom as [|region dom]; [done|]. destruct (proj1 (Hdom region) ltac:(by left)) as [Hin Hadm].
  rewrite <- Ep in Hadm. apply (admissible_mono _ _ _ b) in Hadm; [|done..].
  assert (Hc : region ∈ dedup (merge_sort coor_le cs')).
  { rewrite elem_of_dedup, merge_sort_Permutation. by apply (candidates_ok _ _ _ _ _ _ _ _ Hcs'). }
  rewrite E in Hc. by apply not_elem_of_nil in Hc.
Qed.

Lemma candidate_domains_widen g regions parents doms :
  candidate_domains g d regions areas a parents limits = Ok doms ->
  exists doms', candidate_domains g d regions areas b parents limits = Ok doms' /\
    Forall2 (fun dom dom' => forall region, region ∈ dom -> region ∈ dom') doms doms'.
Proof using All.
  intros H. destruct (try_fold_sim (fun _ _ => True) _ (vertex_domain d regions areas b parents limits) _ _ [] _
    (fun acc acc' x r _ _ Hr => match vertex_domain_widen regions parents acc acc' x r Hr with
                               | ex_intro _ r' Hr' => ex_intro _ r' (conj Hr' I) end) I H) as (doms' & Hdoms' & _).
  exists doms'. split; [done|]. apply candidate_domains_ok in H. apply candidate_domains_ok in Hdoms'.
  revert doms doms' H Hdoms'. generalize (enumerate (vertices g)) as es. induction es as [|e es IH]; intros doms doms' H1 H2.
  - apply Forall2_nil_inv_l in H1 as ->. apply Forall2_nil_inv_l in H2 as ->. constructor.
  - apply Forall2_cons_inv_l in H1 as (dom & l & (_ & _ & H1) & H1' & ->). apply Forall2_cons_inv_l in H2 as (dom' & l' & (_ & _ & H2) & H2' & ->).
    constructor; [|by apply IH]. intros region [Hin Hadm]%H1. apply H2. split; [done|]. by apply (admissible_mono _ _ a).
Qed.
End widen.

(** ** Iterations *)

Lemma read_back_ok fm g doms s places :
  read_back fm g doms s = Ok places ->
  length places = length (vertices g) /\
  forall vi region, places !! vi = Some region -> exists dom, doms !! vi = Some dom /\ region ∈ dom.
Proof.
  intros H. unfold read_back in H.
  enough (Hgen : length places = length (enumerate (vertices g)) /\
    forall vi region, places !! vi = Some region -> exists i v dom, enumerate (vertices g) !! vi = Some (i, v) /\ doms !! i = Some dom /\ region ∈ dom).
  { destruct Hgen as [Hlen Hin]. unfold enumerate in Hlen. rewrite length_zip, length_seq in Hlen. split; [lia|].
    intros vi region Hr. destruct (Hin vi region Hr) as (i & v & dom & He & Hdom & Hreg).
    apply lookup_zip_Some in He as [[-> _]%lookup_seq _]. by exists dom. }
  refine (try_fold_ind (fun done places => length places = length done /\
    forall vi region, places !! vi = Some region -> exists i v dom, done !! vi = Some (i, v) /\ doms !! i = Some dom /\ region ∈ dom)
    _ _ _ _ _ _ H); [by split|].
  intros l1 [i v] l2 a a' _ [Hlen IH] Hstep. apply rbind_ok in Hstep as (xs & _ & Hstep).
  apply rbind_ok in Hstep as (k & _ & Hstep). apply rbind_ok in Hstep as (dom & Hdom%expect_ok & Hstep).
  apply rbind_ok in Hstep as (region & Hreg%expect_ok & [= <-]). rewrite !length_app, Hlen. split; [done|].
  intros vi reg [[Hlt Hr]|[-> <-]]%lookup_snoc_Some.
  - destruct (IH vi reg Hr) as (i' & v' & dom' & Hl & ?). exists i', v', dom'. split; [by apply lookup_app_l_Some|done].
  - exists i, v, dom. split_and!; [|done|by eapply list_elem_of_lookup_2]. rewrite Hlen. apply lookup_app_Some. right.
    split; [done|]. by rewrite Nat.sub_diag.
Qed.

Section iteration.
Context (solve : LpModel -> SolveOpts -> res SolverError LpSolution) (g : FloorGraph) (d : Device) (opts : SolveOpts).

Lemma attempt_placement_ok regions areas parents config cuts limit rung :
  attempt_placement solve g d regions areas parents config cuts limit opts = Ok (Placed rung) ->
  candidate_domains g d regions areas limit parents (max_resource_limits config) = Ok (fr_domains rung) /\ fr_limit rung = limit.
Proof.
  unfold attempt_placement. intros H. destruct (candidate_domains _ _ _ _ _ _ _) as [doms|e|] eqn:E; [|by destruct e|done].
  apply rbind_ok in H as (fm & _ & H). apply rbind_ok in H as (sol & _ & H).
  destruct (is_found sol); [by injection H as <-|]. by destruct (status sol).
Qed.

(** A completed iteration: every vertex in a region of its domain, at a rung of
    the ladder. *)
Record iteration_ok (regions : list Coor) (parents : option (list Coor)) (config : PlacementConfig) (base : f64)
    (s : SolvedIteration) : Prop := {
  it_length : length (placements s) = length (vertices g);
  it_limit : exists l, usage_ladder base (retry_ceiling config) = Ok l /\ solved_limit s ∈ l;
  it_placed : exists areas, region_areas d regions = Ok areas /\
    forall vi v region, vertices g !! vi = Some v -> placements s !! vi = Some region ->
      region ∈ regions /\ admissible d areas (solved_limit s) (max_resource_limits config) v (parents ≫= (.!! vi)) region;
}.

Lemma solve_iteration_ok regions parents config base s :
  solve_iteration solve g d regions parents config base opts = Ok s -> iteration_ok regions parents config base s.
Proof.
  unfold solve_iteration. intros H. apply rbind_ok in H as (areas & Hareas & H). apply rbind_ok in H as (ladder & Hl & H).
  apply rbind_ok in H as (rung & Hs & H). unfold finish_iteration in H. apply rbind_ok in H as (refined & _ & H).
  apply rbind_ok in H as (places & Hrb & [= <-]). apply read_back_ok in Hrb as [Hlen Hin].
  assert (Hlad : (1 <= length ladder)%nat).
  { unfold usage_ladder in Hl. apply rbind_ok in Hl as (l & _ & [= <-]). simpl. lia. }
  destruct (search_searched (fun rung => let! limit := expect (ladder !! rung) in
      attempt_placement solve g d regions areas parents config (find_cuts_for_regions d regions) limit opts) (length ladder) Hlad)
    as [(a & k & Ha & Hk & Hp & _)|[(e & He & _)|Hf]].
  - rewrite Hs in Ha. injection Ha as <-. apply rbind_ok in Hp as (limit & Hlim%expect_ok & Hp).
    apply attempt_placement_ok in Hp as [Hdoms <-]. split; simpl; [done| |].
    + exists ladder. split; [done|]. by eapply list_elem_of_lookup_2.
    + exists areas. split; [done|]. intros vi v region Hv Hr. destruct (Hin vi region Hr) as (dom & Hdom & Hreg).
      apply candidate_domains_ok in Hdoms. apply elem_of_enumerate, list_elem_of_lookup in Hv as (j & Hj).
      destruct (Forall2_lookup_l _ _ _ _ _ Hdoms Hj) as (dom' & Hdom' & Hok).
      assert (j = vi) as -> by (apply lookup_zip_Some in Hj as [[-> _]%lookup_seq _]; done).
      assert (dom' = dom) as -> by congruence. by apply Hok.
  - by rewrite Hs in He.
  - rewrite Hs in Hf. done.
Qed.
End iteration.

(** ** Regions and their areas *)

Lemma region_areas_ok d regions areas :
  region_areas d regions = Ok areas -> forall region total, BMap.get region areas = Some total -> island_area d region = Some total.
Proof.
  unfold region_areas. intros H.
  refine (try_fold_inv (fun areas => forall region total, BMap.get region areas = Some total -> island_area d region = Some total) _ _ _ _ _ _ H).
  - intros acc region acc' _ IH Hs. apply rbind_ok in Hs as (area & Ha%ok_or_ok & [= <-]).
    intros region' total. rewrite BMap.get_insert. destruct (decide _) as [->|]; [by intros [= <-]|apply IH].
  - done.
Qed.

Lemma all_slot_coors_slot x y : Coor.all_slot_coors (Coor.slot x y) = [(x, y)].
Proof.
  unfold Coor.all_slot_coors. cbn [dl_x dl_y ur_x ur_y Coor.slot].
  rewrite (zrange_cons y), (zrange_nil (y + 1)), (zrange_cons x), (zrange_nil (x + 1)) by lia. done.
Qed.

Lemma island_area_slot d x y total : typed d -> island_area d (Coor.slot x y) = Some total ->
  exists s, slot d x y = Some s /\ total = slot_area s.
Proof.
  intros Hd. unfold island_area. rewrite all_slot_coors_slot. cbn [sum_areas]. destruct (slot d x y) as [s|] eqn:E; [|done].
  destruct (Area.checked_add area_default (slot_area s)) as [t|] eqn:Ha; [|done]. intros [= <-]. exists s. split; [done|].
  apply find_first_Some in E as [Hin _]. pose proof (typed_slots _ Hd) as Hs. rewrite Forall_forall in Hs.
  specialize (Hs s Hin) as (_ & _ & Hwf). apply Area.ext. intros r.
  destruct (proj1 (Area.checked_add_Some _ _ _ Area.wf_default Hwf) Ha r) as [-> _].
  by destruct r.
Qed.

Lemma elem_of_atomic_regions d region : region ∈ atomic_regions d ->
  exists x y s, region = Coor.slot x y /\ slot d x y = Some s.
Proof.
  unfold atomic_regions. intros (x & _ & (y & _ & H)%in_flat_map)%list_elem_of_In%in_flat_map.
  destruct (slot d x y) as [s|] eqn:E; [|done]. destruct H as [<-|[]]. by exists x, y, s.
Qed.

Lemma region_has_tag_slot d x y s tag : slot d x y = Some s -> region_has_tag d (Coor.slot x y) tag = true <-> tag ∈ tags s.
Proof.
  intros Hs. unfold region_has_tag. rewrite all_slot_coors_slot. cbn [existsb fst snd]. rewrite Hs, orb_false_r.
  unfold has_tag. rewrite existsb_exists. setoid_rewrite bool_decide_eq_true. split.
  - intros (t & Hin & ->). by apply list_elem_of_In.
  - intros Hin. exists tag. by split; [apply list_elem_of_In|].
Qed.

(** ** The assignment *)

(** What a placed vertex adds to a slot. *)
Definition placed_cost (e : Vertex * Cell) (c : Cell) (r : Resource) : Z :=
  if materialize e.1 then at_cell e.2 c (amount r (v_area e.1)) else 0.

Definition coor_cell (s : Coor) : Cell := (dl_x s, dl_y s).

Lemma map_zip_snd {A B C} (h : B -> C) (l : list A) (l' : list B) :
  (length l' <= length l)%nat -> map (fun e => h e.2) (zip l l') = map h l'.
Proof.
  revert l'. induction l as [|x l IH]; intros [|y l'] Hlen; simpl in *; [done|lia|done|]. rewrite IH by lia. done.
Qed.

Lemma zsum_zip_map {A B C} (f : A * C -> Z) (h : B -> C) (l : list A) (l' : list B) :
  zsum f (zip l (map h l')) = zsum (fun e => f (e.1, h e.2)) (zip l l').
Proof. revert l'. induction l as [|x l IH]; intros [|y l']; simpl; [done..|]. by rewrite IH. Qed.

Lemma complete_assignment_ok g places a :
  Forall (fun v => Area.wf (v_area v)) (vertices g) -> length places = length (vertices g) ->
  complete_assignment g places = Ok a ->
  a_regions a = map coor_cell places /\ usage_wf (a_slot_usage a) /\
  forall c r, used (a_slot_usage a) c r = zsum (fun e => placed_cost e c r) (zip (vertices g) (a_regions a)).
Proof.
  intros Hwf Hlen H. unfold complete_assignment in H. apply rbind_ok in H as ([regions usage] & H & [= <-]). cbn [a_regions a_slot_usage].
  enough (Hgen : regions = map (fun e => coor_cell e.2) (zip (vertices g) places) /\ usage_wf usage /\
    forall c r, used usage c r = zsum (fun e => placed_cost (e.1, coor_cell e.2) c r) (zip (vertices g) places)).
  { destruct Hgen as (-> & Hw & Hu). rewrite map_zip_snd by lia. split; [done|]. split; [done|]. intros c r. by rewrite Hu, zsum_zip_map. }
  refine (try_fold_ind (fun done acc => acc.1 = map (fun e => coor_cell e.2) done /\ usage_wf acc.2 /\
    forall c r, used acc.2 c r = zsum (fun e => placed_cost (e.1, coor_cell e.2) c r) done) _ _ _ (regions, usage) _ _ H).
  { split_and!; [done|split; [apply BMap.wf_nil|by intros c x]|by intros c []]. }
  intros l1 [v s] l2 [rs u] [rs' u'] Hl (Hr & Hu & Hz) Hstep. cbn [fst snd] in *.
  destruct (negb _ || negb _); [done|]. rewrite map_app. setoid_rewrite zsum_app.
  assert (Hv : Area.wf (v_area v)).
  { rewrite Forall_forall in Hwf. apply Hwf. assert (Hin : (v, s) ∈ zip (vertices g) places) by (rewrite Hl, elem_of_app; right; by left).
    apply list_elem_of_lookup in Hin as (i & Hi). apply lookup_zip_Some in Hi as [Hi _]. by eapply list_elem_of_lookup_2. }
  destruct (materialize v) eqn:Em.
  - apply rbind_ok in Hstep as (b & Hb%ok_or_ok & [= <- <-]). rewrite Hr. split; [done|].
    pose proof (used_wf u (dl_x s, dl_y s) Hu) as Hc.
    destruct (insert_grows u (dl_x s, dl_y s) (default area_default (BMap.get (dl_x s, dl_y s) u)) b (fun r => amount r (v_area v)) Hu) as [Hw Hg]; [|done| |].
    + by apply (Area.checked_add_wf _ _ _ Hc Hv Hb).
    + intros r. by destruct (proj1 (Area.checked_add_Some _ _ _ Hc Hv) Hb r).
    + split; [done|]. intros c r. rewrite Hg, Hz. unfold placed_cost at 3. cbn [zsum fold_right fst snd]. unfold placed_cost. cbn [fst snd].
      rewrite Em. unfold coor_cell. lia.
  - injection Hstep as <- <-. rewrite Hr. split_and!; [done|done|]. intros c r. rewrite Hz. cbn [zsum fold_right fst snd].
    assert (E : placed_cost (v, coor_cell s) c r = 0) by (unfold placed_cost; cbn [fst]; by rewrite Em). rewrite E. lia.
Qed.

Lemma rises_le a l c b : rises a l c -> b ∈ l -> units b <= units c.
Proof.
  revert a. induction l as [|x l IH]; intros a Hr Hb; [by apply not_elem_of_nil in Hb|].
  destruct Hr as (Hx & _ & Hr). apply elem_of_cons in Hb as [->|Hb]; [lia|]. by apply (IH x).
Qed.

(** A rung of a ladder lies between its ends. *)
Lemma rung_between base ceiling l b :
  fraction base -> fraction ceiling -> units base <= units ceiling -> usage_ladder base ceiling = Ok l -> b ∈ l ->
  fraction b /\ units base <= units b <= units ceiling.
Proof.
  intros Fb Fc Hle Hl Hb. destruct (usage_ladder_spec base ceiling Fb Fc) as (l' & Hl' & Hr). rewrite Hl in Hl'. injection Hl' as ->.
  destruct (rises_fin base l' ceiling b Fb Fc Hr Hb) as [Hf Hlo]. split; [done|]. split; [done|].
  apply elem_of_cons in Hb as [->|Hb]; [done|]. by apply (rises_le base l').
Qed.

(** A placement of every vertex at an atomic slot, at a limit. *)
Record placed_at (g : FloorGraph) (d : Device) (limits : RegionResourceLimits) (limit : f64) (places : list Coor) : Prop := {
  pl_length : length places = length (vertices g);
  pl_slot : forall vi v region, vertices g !! vi = Some v -> places !! vi = Some region ->
    exists s, slot d (dl_x region) (dl_y region) = Some s /\
      (forall tag, required_tag v = Some tag -> tag ∈ tags s) /\
      forall r, plans_resource d r = true ->
        amount r (v_area v) <= scaled_amount (amount r (slot_area s)) (limit_for limits (Coor.slot (dl_x region) (dl_y region)) r limit);
}.

Lemma iteration_placed solve g d opts parents config base s :
  typed d -> solve_iteration solve g d (atomic_regions d) parents config base opts = Ok s ->
  placed_at g d (max_resource_limits config) (solved_limit s) (placements s).
Proof.
  intros Hd H. apply solve_iteration_ok in H as [Hlen _ (areas & Hareas & Hpl)]. split; [done|].
  intros vi v region Hv Hr. destruct (Hpl vi v region Hv Hr) as [Hin [_ Htag (total & Htot & Hfit)]].
  apply elem_of_atomic_regions in Hin as (x & y & s' & -> & Hs). cbn [dl_x dl_y Coor.slot].
  apply (region_areas_ok _ _ _ Hareas) in Htot. destruct (island_area_slot d x y total Hd Htot) as (s0 & Hs0 & ->).
  assert (s0 = s') as -> by congruence. exists s'. split; [done|]. split; [|done].
  intros tag Ht. by apply (region_has_tag_slot d x y s' tag Hs), Htag.
Qed.

Lemma iteration_limit solve g d opts regions parents config base s :
  fraction base -> fraction (retry_ceiling config) -> units base <= units (retry_ceiling config) ->
  solve_iteration solve g d regions parents config base opts = Ok s ->
  fraction (solved_limit s) /\ units base <= units (solved_limit s) <= units (retry_ceiling config).
Proof. intros Fb Fc Hle H. apply solve_iteration_ok in H as [_ (l & Hl & Hin) _]. by eapply rung_between. Qed.

Lemma validate_config_ok config : valid (usage_limit config) -> valid (retry_ceiling config) -> validate_config config = Ok tt ->
  fraction (usage_limit config) /\ fraction (retry_ceiling config) /\ units (usage_limit config) <= units (retry_ceiling config).
Proof.
  intros Vb Vc H. unfold validate_config in H. apply rbind_ok in H as ([] & Hb & H). apply rbind_ok in H as ([] & Hc & H).
  apply validate_limit_fraction in Hb; [|done]. apply validate_limit_fraction in Hc; [|done]. split; [done|]. split; [done|].
  rewrite ltb_spec in H by (apply Hb || apply Hc). destruct (Z.ltb_spec (units (retry_ceiling config)) (units (usage_limit config))); [done|lia].
Qed.

Lemma floorplan_placed solve g d config opts a :
  typed d -> valid (usage_limit config) -> valid (retry_ceiling config) -> Forall (fun v => Area.wf (v_area v)) (vertices g) ->
  floorplan_with_config solve g d config opts = Ok a ->
  exists limit places, fraction limit /\ units (usage_limit config) <= units limit <= units (retry_ceiling config) /\
    placed_at g d (max_resource_limits config) limit places /\ complete_assignment g places = Ok a.
Proof.
  intros Hd Vb Vc Hwf H. unfold floorplan_with_config in H. apply rbind_ok in H as ([] & Hcfg & H).
  destruct (validate_config_ok config Vb Vc Hcfg) as (Fb & Fc & Hle). apply rbind_ok in H as (places & Hp & H).
  destruct (resolve_strategy g d (strategy config)); [done| |].
  - apply rbind_ok in Hp as (s & Hs & [= <-]). destruct (iteration_limit _ _ _ _ _ _ _ _ _ Fb Fc Hle Hs) as [Fs Hb].
    exists (solved_limit s), (placements s). split_and!; [done|lia|lia|by eapply iteration_placed|done].
  - apply rbind_ok in Hp as (rp & Hrp & Hp). destruct (iteration_limit _ _ _ _ _ _ _ _ _ Fb Fc Hle Hrp) as [Fr Hr].
    assert (Hcase : exists s ps, solve_iteration solve g d (atomic_regions d) ps config (solved_limit rp) opts = Ok s /\ placements s = places).
    { destruct (solve_iteration solve g d (atomic_regions d) (Some _) config _ opts) as [s|e|] eqn:E; [|destruct e; try done|done].
      - injection Hp as <-. by eauto.
      - apply rbind_ok in Hp as (s & Hs & [= <-]). by eauto.
      - apply rbind_ok in Hp as (s & Hs & [= <-]). by eauto. }
    destruct Hcase as (s & ps & Hs & <-). destruct (iteration_limit _ _ _ _ _ _ _ _ _ Fr Fc ltac:(lia) Hs) as [Fs Hb].
    exists (solved_limit s), (placements s). split_and!; [done|lia|lia|by eapply iteration_placed|done].
Qed.

(** ** The theorems *)

(** The candidates of a vertex are exactly its legal regions. When they
    exist, each vertex has a non-empty, strictly sorted list of regions of the
    iteration: those inside its parent region, carrying its required tag, and
    whose capacity, derated by the limit of the region and resource, holds its
    area in every planned resource. *)
Theorem candidate_domains_exact g d regions areas limit parents limits doms :
  candidate_domains g d regions areas limit parents limits = Ok doms ->
  length doms = length (vertices g) /\
  forall vi v dom, vertices g !! vi = Some v -> doms !! vi = Some dom ->
    dom <> [] /\ StronglySorted klt dom /\
    forall region, region ∈ dom <-> region ∈ regions /\ admissible d areas limit limits v (parents ≫= (.!! vi)) region.
Proof.
  intros H%candidate_domains_ok. split.
  { apply Forall2_length in H. unfold enumerate in H. rewrite length_zip, length_seq in H. lia. }
  intros vi v dom Hv Hdom. apply elem_of_enumerate, list_elem_of_lookup in Hv as (j & Hj).
  destruct (Forall2_lookup_l _ _ _ _ _ H Hj) as (dom' & Hdom' & Hok).
  assert (j = vi) as -> by (apply lookup_zip_Some in Hj as [[-> _]%lookup_seq _]; done). by simplify_eq.
Qed.

(** Raising the utilization limit only widens. If the candidates exist at
    a limit, they exist at every higher one, each vertex keeps all of its
    candidates, and no region loses capacity in any resource; and a limit never
    grants more than there is. *)
Theorem raising_limit_widens g d regions areas a b parents limits doms :
  areas_typed areas -> fraction a -> fraction b -> F64.leb a b = true ->
  candidate_domains g d regions areas a parents limits = Ok doms ->
  (exists doms', candidate_domains g d regions areas b parents limits = Ok doms' /\
    Forall2 (fun dom dom' => forall region, region ∈ dom -> region ∈ dom') doms doms') /\
  (forall region total r, BMap.get region areas = Some total ->
     scaled_amount (amount r total) (limit_for limits region r a) <= scaled_amount (amount r total) (limit_for limits region r b)) /\
  (forall z, 0 <= z <= 2 ^ 53 -> 0 <= scaled_amount z b <= z).
Proof.
  intros Ha Fa Fb Hab H. rewrite leb_spec in Hab by (apply Fa || apply Fb). apply Z.leb_le in Hab. split; [|split].
  - by apply (candidate_domains_widen d areas limits a b).
  - intros region total r Htot. by apply (derated_mono areas).
  - intros z Hz. split; [apply F64.to_u64_range|]. apply scaled_le; [done|apply Fb|]. destruct Fb. lia.
Qed.

(** Placement is safe whatever the solver answers. If an assignment is
    returned, there is a limit between the base and the ceiling such that every
    vertex is in one slot of the device, which carries its required tag and
    whose capacity, derated by that limit (or by the override of the slot),
    holds it in every planned resource; and the usage of each slot is exactly
    the sum of the areas of the materialized vertices placed there. *)
Theorem placement_sound solve g d config opts a :
  typed d -> valid (usage_limit config) -> valid (retry_ceiling config) -> Forall (fun v => Area.wf (v_area v)) (vertices g) ->
  floorplan_with_config solve g d config opts = Ok a ->
  length (a_regions a) = length (vertices g) /\
  (exists limit, F64.leb (usage_limit config) limit = true /\ F64.leb limit (retry_ceiling config) = true /\
    forall vi v c, vertices g !! vi = Some v -> a_regions a !! vi = Some c ->
      exists s, slot d c.1 c.2 = Some s /\ (forall tag, required_tag v = Some tag -> tag ∈ tags s) /\
        forall r, plans_resource d r = true ->
          amount r (v_area v) <= scaled_amount (amount r (slot_area s)) (limit_for (max_resource_limits config) (Coor.slot c.1 c.2) r limit)) /\
  (forall c r, used (a_slot_usage a) c r = zsum (fun e => placed_cost e c r) (zip (vertices g) (a_regions a))).
Proof.
  intros Hd Vb Vc Hwf H. pose proof H as Hcfg. unfold floorplan_with_config in Hcfg. apply rbind_ok in Hcfg as ([] & Hcfg & _).
  destruct (validate_config_ok config Vb Vc Hcfg) as (Fb & Fc & _).
  destruct (floorplan_placed _ _ _ _ _ _ Hd Vb Vc Hwf H) as (limit & places & Fl & Hl & [Hlen Hpl] & Ha).
  destruct (complete_assignment_ok g places a Hwf Hlen Ha) as (Hr & _ & Hu). split; [by rewrite Hr, length_map|]. split; [|done].
  exists limit. rewrite !leb_spec by (apply Fb || apply Fc || apply Fl). split; [apply Z.leb_le; lia|]. split; [apply Z.leb_le; lia|].
  intros vi v c Hv Hc. rewrite Hr, list_lookup_fmap in Hc. destruct (places !! vi) as [region|] eqn:E; [|done].
  injection Hc as <-. by apply (Hpl vi v region).
Qed.

(** ** Witnesses *)

Module PlacementExample.
(** A solver that gives every vertex its first candidate and every edge no
    route: the readback only looks at the vertices. *)
Definition solve (m : LpModel) (_ : SolveOpts) : res SolverError LpSolution :=
  let firsts := flat_map (fun c => if Str.starts_with "vertex_" (c_name c)
                                   then match terms (c_expr c) with (_, v) :: _ => [v] | [] => [] end else []) (constraints m) in
  Ok (mkSolution Optimal F64.one (list_to_map (map (fun i => let v := Z.of_nat i in
        (v, if existsb (Z.eqb v) firsts then F64.one else F64.zero)) (seq 0 (length (vars m)))))).
Definition config : PlacementConfig := mkConfig DEFAULT_USAGE_LIMIT MAX_USAGE_LIMIT Auto BMap.empty.
Definition opts : SolveOpts := mkOpts None None None.
Definition areas : RegionAreas :=
  match region_areas Device.Example.device (atomic_regions Device.Example.device) with Ok a => a | _ => [] end.
Definition assignment : Assignment :=
  match floorplan_with_config solve example_graph Device.Example.device config opts with Ok a => a | _ => mkAssignment [] [] end.
Definition domains : list (list Coor) :=
  match candidate_domains example_graph Device.Example.device (atomic_regions Device.Example.device) areas DEFAULT_USAGE_LIMIT
          None BMap.empty with Ok l => l | _ => [] end.
End PlacementExample.

Lemma example_domains :
  candidate_domains example_graph Device.Example.device (atomic_regions Device.Example.device) PlacementExample.areas
    DEFAULT_USAGE_LIMIT None BMap.empty = Ok PlacementExample.domains.
Proof. vm_compute. reflexivity. Qed.

Lemma example_placed :
  floorplan_with_config PlacementExample.solve example_graph Device.Example.device PlacementExample.config PlacementExample.opts
  = Ok PlacementExample.assignment.
Proof. vm_compute. reflexivity. Qed.

Definition area_ok (a : Area) : bool := forallb (fun r => (0 <=? amount r a) && (amount r a <=? U64_MAX)) resource_all.

Lemma area_ok_wf a : area_ok a = true -> Area.wf a.
Proof.
  unfold area_ok. rewrite forallb_forall. intros H r. specialize (H r (resource_all_complete r)). bool_hyps. unfold in_u64. lia.
Qed.

Lemma example_vertex_areas : Forall (fun v => Area.wf (v_area v)) (vertices example_graph).
Proof.
  assert (H : forallb (fun v => area_ok (v_area v)) (vertices example_graph) = true) by (vm_compute; reflexivity).
  rewrite forallb_forall in H. apply Forall_forall. intros v Hv%list_elem_of_In. by apply area_ok_wf, H.
Qed.

Lemma example_areas_typed : areas_typed PlacementExample.areas.
Proof.
  assert (H : forallb (fun e => area_ok e.2) PlacementExample.areas = true) by (vm_compute; reflexivity).
  intros region total Ht%BMap.get_In. rewrite forallb_forall in H. by apply area_ok_wf, (H (region, total)).
Qed.

Lemma fraction_of v : valid v -> is_ok (validate_limit "" "" v false) = true -> fraction v.
Proof. intros Hv H. apply (validate_limit_fraction "" "" v Hv). by destruct (validate_limit "" "" v false) as [[]| |]. Qed.

Lemma candidate_domains_exact_witness : length PlacementExample.domains = 5%nat.
Proof. rewrite (proj1 (candidate_domains_exact _ _ _ _ _ _ _ _ example_domains)). vm_compute. reflexivity. Defined.

Lemma raising_limit_widens_witness :
  exists doms, candidate_domains example_graph Device.Example.device (atomic_regions Device.Example.device) PlacementExample.areas
    MAX_USAGE_LIMIT None BMap.empty = Ok doms.
Proof.
  destruct (raising_limit_widens _ _ _ _ DEFAULT_USAGE_LIMIT MAX_USAGE_LIMIT _ _ _ example_areas_typed
    (fraction_of DEFAULT_USAGE_LIMIT eq_refl eq_refl) (fraction_of MAX_USAGE_LIMIT eq_refl eq_refl) eq_refl example_domains) as ((doms & Hd & _) & _).
  exists doms. exact Hd.
Defined.

Lemma placement_sound_witness : used (a_slot_usage PlacementExample.assignment) (0, 0) Lut = 132.
Proof.
  destruct (placement_sound PlacementExample.solve _ _ PlacementExample.config PlacementExample.opts _ example_typed eq_refl eq_refl example_vertex_areas example_placed) as (_ & _ & Hu).
  rewrite Hu. vm_compute. reflexivity.
Defined.
