(* ===== verification/PlacementProgram.v ===== *)
(** * The rows of the placement program

    What each group of rows of the mixed-integer program of [partition/ilp.rs]
    says of an integral valuation of its variables: one candidate per vertex,
    one pair of candidates per edge, flow conserved at both ends, the load of
    each region in each resource, the load of each cut.  Rows are read over
    exact values; every coefficient is an integer of at most [2^53]. *)

From S2P Require Import Prelude BTreeMap Geometry Ir F64 Device Cut FloorGraph F64Spec Lp Partition PartitionSearch PartitionProps.

(** ** Solutions of a program *)

Definition row_units (v : LpVar -> Z) (l : SparseRow) : Z := zsum (fun e => units e.1 * v e.2) l.

Definition holds (v : LpVar -> Z) (c : ConstraintDef) : Prop :=
  let lhs := row_units v (terms (c_expr c)) + units (constant (c_expr c)) in
  match op c with Le => lhs <= units (Lp.rhs c) | EqC => lhs = units (Lp.rhs c) end.

Definition rows_hold (v : LpVar -> Z) (m : LpModel) : Prop := Forall (holds v) (constraints m).

Definition var_ok (v : LpVar -> Z) (i : nat) (vd : VarDef) : Prop :=
  units (lower vd) <= v (Z.of_nat i) * UNIT <= units (upper vd).

(** An integral solution. *)
Definition solves (v : LpVar -> Z) (m : LpModel) : Prop :=
  (forall i vd, vars m !! i = Some vd -> var_ok v i vd) /\ rows_hold v m.

Definition fresh (m : LpModel) : Z := Z.of_nat (length (vars m)).

(** Binary variables only. *)
Definition binary_program (m : LpModel) : Prop :=
  Forall (fun vd => kind vd = Binary /\ lower vd = F64.zero /\ upper vd = F64.one) (vars m).

(** ** Sums *)

Lemma zsum_zero {A} (f : A -> Z) l : (forall x, x ∈ l -> f x = 0) -> zsum f l = 0.
Proof.
  induction l as [|x l IH]; intros H; [done|]. simpl. rewrite H by (by left). rewrite IH; [done|].
  intros y Hy. apply H. by right.
Qed.

Lemma zsum_ext_in {A} (f g : A -> Z) l : (forall x, x ∈ l -> f x = g x) -> zsum f l = zsum g l.
Proof.
  induction l as [|x l IH]; intros H; [done|]. simpl. rewrite H by (by left). rewrite IH; [done|].
  intros y Hy. apply H. by right.
Qed.

Lemma zsum_scale {A} (f : A -> Z) k l : zsum (fun x => k * f x) l = k * zsum f l.
Proof. induction l as [|x l IH]; simpl; [lia|]. rewrite IH. lia. Qed.

Lemma zsum_nonneg {A} (f : A -> Z) l : (forall x, x ∈ l -> 0 <= f x) -> 0 <= zsum f l.
Proof.
  induction l as [|x l IH]; intros H; simpl; [lia|]. pose proof (H x ltac:(by left)).
  specialize (IH ltac:(intros y Hy; apply H; by right)). lia.
Qed.

Lemma zsum_nonneg_zero {A} (f : A -> Z) l : (forall x, x ∈ l -> 0 <= f x) -> zsum f l = 0 -> forall x, x ∈ l -> f x = 0.
Proof.
  induction l as [|y l IH]; intros H Hs x Hx; [by apply not_elem_of_nil in Hx|]. simpl in Hs.
  pose proof (H y ltac:(by left)). pose proof (zsum_nonneg f l ltac:(intros z Hz; apply H; by right)).
  apply elem_of_cons in Hx as [->|Hx]; [lia|]. apply IH; [intros z Hz; apply H; by right|lia|done].
Qed.

Lemma zsum_map {A B} (f : B -> Z) (h : A -> B) l : zsum f (map h l) = zsum (fun x => f (h x)) l.
Proof. induction l as [|x l IH]; simpl; [done|]. by rewrite IH. Qed.

Lemma zsum_flat_map {A B} (f : B -> Z) (h : A -> list B) l : zsum f (flat_map h l) = zsum (fun x => zsum f (h x)) l.
Proof. induction l as [|x l IH]; simpl; [done|]. by rewrite zsum_app, IH. Qed.

Lemma row_units_app v l1 l2 : row_units v (l1 ++ l2) = row_units v l1 + row_units v l2.
Proof. apply zsum_app. Qed.

Lemma row_units_ones v (vs : list LpVar) : row_units v (map (fun x => (F64.one, x)) vs) = UNIT * zsum v vs.
Proof. unfold row_units. rewrite zsum_map. cbn [fst snd]. rewrite (proj2 one_spec). apply zsum_scale. Qed.

(** ** Loops *)

Lemma try_fold_flat_map {E A B C} (f : A -> C -> res E A) (h : B -> list C) l acc :
  try_fold f acc (flat_map h l) = try_fold (fun acc x => try_fold f acc (h x)) acc l.
Proof. revert acc; induction l as [|x l IH]; intros acc; [done|]. simpl. rewrite try_fold_app. destruct (try_fold f acc (h x)); [apply IH|done..]. Qed.

(** ** Variables and rows *)

Lemma add_constraint_rows v name e o r m :
  rows_hold v (add_constraint name e o r m) <-> rows_hold v m /\ holds v (mkConstraint name e o r).
Proof. unfold rows_hold, add_constraint. cbn [constraints]. rewrite Forall_app, Forall_singleton. reflexivity. Qed.

Lemma ones_row v name vs : holds v (mkConstraint name (sum_expr (map (fun x => (F64.one, x)) vs)) EqC F64.one) <-> zsum v vs = 1.
Proof.
  unfold holds. cbn [c_expr op Lp.rhs sum_expr terms constant]. rewrite row_units_ones, (proj2 one_spec). change (units F64.zero) with 0.
  pose proof UNIT_pos. split; intros; nia.
Qed.

(** A step that only adds binary variables, the consecutive handles [vs]. *)
Definition allocates (m m' : LpModel) (vs : list LpVar) : Prop :=
  vs = zrange (fresh m) (fresh m') /\ fresh m <= fresh m' /\ (binary_program m -> binary_program m').

Lemma allocates_nil m : allocates m m [].
Proof. split_and!; [|lia|done]. by rewrite zrange_nil. Qed.

Lemma zrange_app a b c : a <= b <= c -> zrange a b ++ zrange b c = zrange a c.
Proof.
  intros H. unfold zrange. replace (Z.to_nat (c - a)) with (Z.to_nat (b - a) + Z.to_nat (c - b))%nat by lia.
  rewrite seq_app, map_app. f_equal. apply list_eq. intros i. rewrite !list_lookup_fmap. destruct (decide (i < Z.to_nat (c - b))%nat).
  - rewrite !lookup_seq_lt by lia. simpl. f_equal. lia.
  - rewrite !lookup_seq_ge by lia. done.
Qed.

Lemma allocates_trans m1 m2 m3 l1 l2 : allocates m1 m2 l1 -> allocates m2 m3 l2 -> allocates m1 m3 (l1 ++ l2).
Proof.
  intros (-> & H1 & B1) (-> & H2 & B2). split_and!; [|lia|auto]. by apply zrange_app.
Qed.

Lemma add_binary_ok {E} lbl m x m' : @add_binary E lbl m = Ok (x, m') -> allocates m m' [x] /\ constraints m' = constraints m.
Proof.
  unfold add_binary, add_var, u32_of_usize. destruct (_ <=? _); [|done]. intros [= <- <-]. split; [|done].
  unfold allocates, fresh. cbn [vars]. rewrite length_app. cbn [length]. replace (Z.of_nat (length (vars m) + 1)) with (Z.of_nat (length (vars m)) + 1) by lia.
  rewrite zrange_snoc, zrange_nil by lia. split_and!; [done|lia|]. intros H. unfold binary_program. cbn [vars].
  apply Forall_app. split; [done|]. by apply Forall_singleton.
Qed.

Lemma allocates_row m m' vs c : allocates m m' vs -> allocates m (mkModel (objective m') (vars m') c) vs.
Proof. done. Qed.

Lemma add_binaries_ok {E} lbl is_ m vs m' : @add_binaries E lbl is_ m = Ok (vs, m') ->
  allocates m m' vs /\ constraints m' = constraints m /\ length vs = length is_.
Proof.
  revert m vs m'. induction is_ as [|i is_ IH]; intros m vs m' H; simpl in H.
  - injection H as <- <-. split_and!; [apply allocates_nil|done|done].
  - apply rbind_ok in H as ([x m1] & H1 & H). apply rbind_ok in H as ([xs m2] & H2 & [= <- <-]).
    apply add_binary_ok in H1 as [A1 C1]. apply IH in H2 as (A2 & C2 & L2). split_and!; [|congruence|simpl; congruence].
    apply (allocates_trans _ _ _ [x] xs A1 A2).
Qed.

Lemma add_one_of_k_ok {E} name count lbl m vs m' : @add_one_of_k_row E name count lbl m = Ok (vs, m') ->
  allocates m m' vs /\ length vs = count /\ forall v, rows_hold v m' <-> rows_hold v m /\ zsum v vs = 1.
Proof.
  unfold add_one_of_k_row. intros H. apply rbind_ok in H as ([xs m1] & H & [= <- <-]).
  apply add_binaries_ok in H as (A & C & L). rewrite length_seq in L. split_and!; [exact A|done|].
  intros v. rewrite add_constraint_rows, ones_row. unfold rows_hold. by rewrite C.
Qed.

(** ** The choice variables *)

Lemma add_assignment_vars_ok g domains m x m' :
  add_assignment_vars g domains m = Ok (x, m') ->
  allocates m m' (concat x) /\ length x = length (vertices g) /\
  (forall vi row, x !! vi = Some row -> exists dom, domains !! vi = Some dom /\ length row = length dom) /\
  forall v, rows_hold v m' <-> rows_hold v m /\ forall row, row ∈ x -> zsum v row = 1.
Proof.
  intros H. unfold add_assignment_vars in H.
  enough (Hgen : allocates m m' (concat x) /\ length x = length (enumerate (vertices g)) /\
    (forall vi row, x !! vi = Some row -> exists i v dom, enumerate (vertices g) !! vi = Some (i, v) /\ domains !! i = Some dom /\ length row = length dom) /\
    forall v, rows_hold v m' <-> rows_hold v m /\ forall row, row ∈ x -> zsum v row = 1).
  { destruct Hgen as (HA & HL & HR & HS). unfold enumerate in HL. rewrite length_zip, length_seq in HL. split_and!; [done|lia| |done].
    intros vi row Hr. destruct (HR vi row Hr) as (i & v & dom & He & Hd & Hlen). apply lookup_zip_Some in He as [[-> _]%lookup_seq _]. by exists dom. }
  refine (try_fold_ind (fun done acc => allocates m acc.2 (concat acc.1) /\ length acc.1 = length done /\
    (forall vi row, acc.1 !! vi = Some row -> exists i v dom, done !! vi = Some (i, v) /\ domains !! i = Some dom /\ length row = length dom) /\
    forall v, rows_hold v acc.2 <-> rows_hold v m /\ forall row, row ∈ acc.1 -> zsum v row = 1) _ _ _ (x, m') _ _ H).
  { split_and!; [apply allocates_nil|done|done|]. intros v. split; [|by intros [? _]]. intros Hv. split; [done|]. intros row Hr.
    by apply not_elem_of_nil in Hr. }
  intros l1 [vi vx] l2 [x1 m1] [x2 m2] _ (HA & HL & HR & HS) Hstep. cbn [fst snd] in *.
  apply rbind_ok in Hstep as (dom & Hdom%expect_ok & Hstep). apply rbind_ok in Hstep as ([vs m3] & Hk & [= <- <-]).
  apply add_one_of_k_ok in Hk as (A & L & R). split_and!.
  - rewrite concat_app. cbn [concat]. rewrite app_nil_r. by apply (allocates_trans m m1).
  - rewrite !length_app. cbn [length]. lia.
  - intros i row [[Hlt Hr]|[-> <-]]%lookup_snoc_Some.
    + destruct (HR i row Hr) as (j & u & dm & Hl & ?). exists j, u, dm. split; [by apply lookup_app_l_Some|done].
    + exists vi, vx, dom. split_and!; [|done|done]. rewrite HL, lookup_app_r, Nat.sub_diag by lia. done.
  - intros v. rewrite R, HS. setoid_rewrite elem_of_app. setoid_rewrite list_elem_of_singleton. naive_solver.
Qed.

Lemma map_lookup_enumerate {A B} (l : list A) (l' : list B) :
  length l = length l' -> map (fun e => l !! e.1) (enumerate l') = map Some l.
Proof.
  intros Hl. apply list_eq. intros i. rewrite !list_lookup_fmap. unfold enumerate.
  destruct (l' !! i) as [b|] eqn:Hb.
  - assert (Hz : zip (seq 0 (length l')) l' !! i = Some (i, b)).
    { apply lookup_zip_Some. split; [|done]. apply lookup_seq. split; [done|]. by apply lookup_lt_Some in Hb. }
    rewrite Hz. simpl. apply lookup_lt_Some in Hb. destruct (l !! i) eqn:E; [done|]. apply lookup_ge_None in E. lia.
  - apply lookup_ge_None in Hb. rewrite (proj2 (lookup_ge_None l i)) by lia.
    rewrite (proj2 (lookup_ge_None (zip _ _) i)); [done|]. rewrite length_zip, length_seq. lia.
Qed.

(** The inner loop: one row of the plane of an edge. *)
Lemma plane_row_ok ei edge s a lbl ds plane m row plane' m' :
  plane !! s = Some row ->
  try_fold (fun acc t =>
      let '(plane, m) := acc in
      let! (v, m) := add_binary (lbl t) m in
      let! plane := push_at (src_ci t) v plane in
      Ok (plane, m)) (plane, m) (map (fun t => mkYTerm ei edge s a t.1 t.2) ds) = @Ok IlpError _ (plane', m') ->
  exists vs, plane' = <[s := row ++ vs]> plane /\ allocates m m' vs /\ length vs = length ds /\ constraints m' = constraints m.
Proof.
  revert plane m row. induction ds as [|[t b] ds IH]; intros plane m row Hs H; simpl in H.
  - injection H as <- <-. exists []. rewrite app_nil_r, list_insert_id by done. split_and!; [done|apply allocates_nil|done|done].
  - apply rbind_ok in H as ([p1 m1] & H1 & H). apply rbind_ok in H1 as ([v m2] & Hb & H1).
    apply rbind_ok in H1 as (p2 & Hp & [= <- <-]). unfold push_at in Hp. cbn [src_ci] in Hp. rewrite Hs in Hp.
    cbn [expect rbind] in Hp. injection Hp as <-. apply add_binary_ok in Hb as [A1 C1].
    destruct (IH (<[s := row ++ [v]]> plane) m2 (row ++ [v])) as (vs & -> & A2 & L2 & C2); [|done|].
    { apply list_lookup_insert_eq. by eapply lookup_lt_Some. }
    exists (v :: vs). split_and!; [|by apply (allocates_trans _ _ _ [v] vs A1 A2)|simpl; congruence|congruence].
    rewrite list_insert_insert_eq, <- app_assoc. done.
Qed.

(** All rows of the plane, source by source. *)
Lemma plane_ok ei edge lbl srcs dsts m plane m' :
  try_fold (fun acc t =>
      let '(plane, m) := acc in
      let! (v, m) := add_binary (lbl t) m in
      let! plane := push_at (src_ci t) v plane in
      Ok (plane, m)) (replicate (length srcs) [], m)
    (flat_map (fun s => map (fun t => mkYTerm ei edge s.1 s.2 t.1 t.2) (enumerate dsts)) (enumerate srcs)) = @Ok IlpError _ (plane, m') ->
  allocates m m' (concat plane) /\ length plane = length srcs /\ Forall (fun row => length row = length dsts) plane /\ constraints m' = constraints m.
Proof.
  rewrite try_fold_flat_map. intros H.
  enough (Hgen : exists rows, plane = rows ++ replicate (length srcs - length (enumerate srcs)) [] /\ length rows = length (enumerate srcs) /\
    allocates m m' (concat rows) /\ Forall (fun row => length row = length dsts) rows /\ constraints m' = constraints m).
  { destruct Hgen as (rows & -> & HL & HA & HF & HC). unfold enumerate in *. rewrite length_zip, length_seq, Nat.min_id in *.
    rewrite Nat.sub_diag in *. simpl in *. rewrite app_nil_r in *. done. }
  refine (try_fold_ind (fun done acc => exists rows, acc.1 = rows ++ replicate (length srcs - length done) [] /\ length rows = length done /\
    allocates m acc.2 (concat rows) /\ Forall (fun row => length row = length dsts) rows /\ constraints acc.2 = constraints m) _ _ _ (plane, m') _ _ H).
  { exists []. simpl. rewrite Nat.sub_0_r. split_and!; [done|done|apply allocates_nil|constructor|done]. }
  intros l1 [s a] l2 [p1 m1] [p2 m2] He (rows & Hp & HL & HA & HF & HC) Hstep. cbn [fst snd] in *. subst p1.
  assert (Hs : s = length l1 /\ (length l1 < length srcs)%nat).
  { assert (Hl : enumerate srcs !! length l1 = Some (s, a)) by (rewrite He, lookup_app_r, Nat.sub_diag by lia; done).
    apply lookup_zip_Some in Hl as [[-> ?]%lookup_seq _]. done. }
  destruct Hs as [-> Hlt]. destruct (length srcs - length l1)%nat as [|k] eqn:Ek; [lia|].
  assert (Hrow : (rows ++ replicate (S k) []) !! length l1 = Some []) by (rewrite lookup_app_r, HL, Nat.sub_diag by lia; done).
  destruct (plane_row_ok _ _ _ _ _ _ _ _ _ _ _ Hrow Hstep) as (vs & -> & A & L & C). exists (rows ++ [vs]). rewrite !length_app. cbn [length].
  split_and!.
  - rewrite <- HL, insert_app_r_alt, Nat.sub_diag by lia. cbn. rewrite <- app_assoc. cbn. do 3 f_equal. lia.
  - lia.
  - rewrite concat_app. cbn [concat]. rewrite app_nil_r. by apply (allocates_trans m m1).
  - apply Forall_app. split; [done|]. apply Forall_singleton. rewrite L. unfold enumerate. rewrite length_zip, length_seq. lia.
  - congruence.
Qed.

(** The terms of an edge name the variables of its plane, in order. *)
Definition names_plane (y : YPlanes) (ts : list YTerm) (plane : list (list LpVar)) : Prop :=
  map (fun t => yt_var t y) ts = map Ok (concat plane).

Lemma edge_terms_cases ei edge domains ts :
  edge_y_terms ei edge domains = Ok ts ->
  exists srcs, domains !! e_src edge = Some srcs /\
    ((srcs = [] /\ ts = []) \/
     exists dsts, domains !! e_dst edge = Some dsts /\
       ts = flat_map (fun s => map (fun t => mkYTerm ei edge s.1 s.2 t.1 t.2) (enumerate dsts)) (enumerate srcs)).
Proof.
  unfold edge_y_terms. intros H. apply rbind_ok in H as (srcs & Hs%expect_ok & H). exists srcs. split; [done|].
  destruct srcs; [by injection H as <-; left|right]. apply rbind_ok in H as (dsts & Hd%expect_ok & [= <-]). by exists dsts.
Qed.

Lemma map_flat_map {A B C} (f : B -> C) (h : A -> list B) l : map f (flat_map h l) = flat_map (fun x => map f (h x)) l.
Proof. induction l as [|x l IH]; [done|]. simpl. by rewrite map_app, IH. Qed.

Lemma plane_names y ei edge srcs dsts plane :
  y !! ei = Some plane -> length plane = length srcs -> Forall (fun row => length row = length dsts) plane ->
  names_plane y (flat_map (fun s => map (fun t => mkYTerm ei edge s.1 s.2 t.1 t.2) (enumerate dsts)) (enumerate srcs)) plane.
Proof.
  intros Hy Hlen Hrows. unfold names_plane. rewrite map_flat_map.
  assert (Hin : forall s row, plane !! s = Some row ->
    map (fun t => yt_var t y) (map (fun t => mkYTerm ei edge s (default (Coor.slot 0 0) (srcs !! s)) t.1 t.2) (enumerate dsts)) = map Ok row).
  { intros s row Hs. rewrite Forall_forall in Hrows. specialize (Hrows row ltac:(by eapply list_elem_of_lookup_2)).
    rewrite map_map. rewrite (map_ext _ (fun t => expect (row !! t.1))).
    - rewrite <- (map_map (fun t => row !! t.1) expect), map_lookup_enumerate, map_map by done. done.
    - intros [t b]. unfold yt_var. cbn [yt_ei src_ci dst_ci fst]. rewrite Hy. cbn [expect rbind]. by rewrite Hs. }
  assert (Hall : flat_map (fun s => map (fun t => yt_var t y) (map (fun t => mkYTerm ei edge s.1 s.2 t.1 t.2) (enumerate dsts))) (enumerate srcs)
    = flat_map (fun e => default [] (map Ok <$> (plane !! e.1))) (enumerate srcs)).
  { rewrite !flat_map_concat_map. f_equal. apply map_ext_in. intros [s a] Hsa. apply list_elem_of_In, elem_of_enumerate in Hsa. cbn [fst snd].
    destruct (plane !! s) as [row|] eqn:Hp; [|apply lookup_ge_None in Hp; apply lookup_lt_Some in Hsa; lia].
    cbn [fmap option_fmap option_map default]. rewrite <- (Hin s row Hp). by rewrite Hsa. }
  rewrite Hall, flat_map_concat_map, concat_map. f_equal.
  rewrite <- (map_map (fun e => plane !! e.1) (fun o => default [] (map Ok <$> o))), map_lookup_enumerate, map_map by done. done.
Qed.

Definition edge_named (y : YPlanes) (domains : list (list Coor)) (ei : nat) (edge : PlacementEdge) : Prop :=
  exists ts plane, edge_y_terms ei edge domains = Ok ts /\ y !! ei = Some plane /\ names_plane y ts plane.

Lemma edge_y_terms_ei ei edge domains ts t : edge_y_terms ei edge domains = Ok ts -> t ∈ ts -> yt_ei t = ei.
Proof.
  intros (srcs & _ & [[_ ->]|(dsts & _ & ->)])%edge_terms_cases Ht; [by apply not_elem_of_nil in Ht|].
  apply list_elem_of_In, in_flat_map in Ht as (s & _ & (t' & <- & _)%in_map_iff). done.
Qed.

Lemma edge_named_app y plane domains ei edge : edge_named y domains ei edge -> edge_named (y ++ [plane]) domains ei edge.
Proof.
  intros (ts & p & Hts & Hy & Hn). exists ts, p. split; [done|]. split; [by apply lookup_app_l_Some|].
  unfold names_plane. rewrite <- Hn. apply map_ext_in. intros t Ht%list_elem_of_In.
  unfold yt_var. rewrite (edge_y_terms_ei _ _ _ _ _ Hts Ht), (lookup_app_l_Some _ _ _ _ Hy), Hy. done.
Qed.

Lemma add_edge_vars_ok g domains m y m' :
  add_edge_vars g domains m = Ok (y, m') ->
  allocates m m' (concat (concat y)) /\
  (forall ei edge, placement_edges g !! ei = Some edge -> edge_named y domains ei edge) /\ length y = length (placement_edges g) /\
  forall v, rows_hold v m' <-> rows_hold v m /\ forall plane, plane ∈ y -> zsum v (concat plane) = 1.
Proof.
  intros H. unfold add_edge_vars in H.
  enough (Hgen : allocates m m' (concat (concat y)) /\ length y = length (enumerate (placement_edges g)) /\
    (forall ei edge, (ei, edge) ∈ enumerate (placement_edges g) -> edge_named y domains ei edge) /\
    forall v, rows_hold v m' <-> rows_hold v m /\ forall plane, plane ∈ y -> zsum v (concat plane) = 1).
  { destruct Hgen as (HA & HL & HN & HR). unfold enumerate in HL. rewrite length_zip, length_seq in HL. split_and!; [done| |lia|done].
    intros ei edge He. by apply HN, elem_of_enumerate. }
  refine (try_fold_ind (fun done acc => allocates m acc.2 (concat (concat acc.1)) /\ length acc.1 = length done /\
    (forall ei edge, (ei, edge) ∈ done -> edge_named acc.1 domains ei edge) /\
    forall v, rows_hold v acc.2 <-> rows_hold v m /\ forall plane, plane ∈ acc.1 -> zsum v (concat plane) = 1) _ _ _ (y, m') _ _ H).
  { split_and!; [apply allocates_nil|done|by intros ? ? ?%not_elem_of_nil|]. intros v. split; [|by intros [? _]]. intros Hv.
    split; [done|]. by intros ? ?%not_elem_of_nil. }
  intros l1 [ei edge] l2 [y1 m1] [y2 m2] He (HA & HL & HN & HR) Hstep. cbn [fst snd] in *.
  apply rbind_ok in Hstep as (srcs & Hsrcs%expect_ok & Hstep). apply rbind_ok in Hstep as (ts & Hts & Hstep).
  apply rbind_ok in Hstep as ([plane m3] & Hp & [= <- <-]).
  assert (Hei : ei = length y1).
  { assert (Hl : enumerate (placement_edges g) !! length l1 = Some (ei, edge)) by (rewrite He, lookup_app_r, Nat.sub_diag by lia; done).
    apply lookup_zip_Some in Hl as [[-> _]%lookup_seq _]. lia. }
  assert (Hplane : allocates m1 m3 (concat plane) /\ names_plane (y1 ++ [plane]) ts plane /\ constraints m3 = constraints m1).
  { destruct (edge_terms_cases _ _ _ _ Hts) as (srcs' & Hs' & [[-> ->]|(dsts & Hd & ->)]).
    - assert (srcs = []) as -> by congruence. simpl in Hp. injection Hp as <- <-. split_and!; [apply allocates_nil|done|done].
    - assert (srcs' = srcs) as -> by congruence. destruct (plane_ok _ _ _ _ _ _ _ _ Hp) as (A & L & F & C). split_and!; [done| |done].
      apply plane_names; [|done|done]. by apply list_lookup_middle. }
  destruct Hplane as (A & N & C). split_and!.
  - rewrite concat_app. cbn [concat]. rewrite app_nil_r, concat_app. by apply (allocates_trans m m1).
  - rewrite !length_app. cbn [length]. lia.
  - intros ei' edge' [Hin|[= -> ->]%list_elem_of_singleton]%elem_of_app; [by apply edge_named_app, HN|].
    exists ts, plane. split_and!; [done| |done]. by apply list_lookup_middle.
  - intros v. rewrite add_constraint_rows, ones_row. setoid_rewrite elem_of_app. setoid_rewrite list_elem_of_singleton.
    assert (E : rows_hold v m3 <-> rows_hold v m1) by (unfold rows_hold; by rewrite C). rewrite E, HR. naive_solver.
Qed.

(** ** Rows that only constrain *)

Definition adds (m m' : LpModel) (P : (LpVar -> Z) -> Prop) : Prop :=
  vars m' = vars m /\ forall v, rows_hold v m' <-> rows_hold v m /\ P v.

Lemma adds_fold {B} (P : B -> (LpVar -> Z) -> Prop) (f : LpModel -> B -> res IlpError LpModel) l m m' :
  (forall m x m', x ∈ l -> f m x = Ok m' -> adds m m' (P x)) -> try_fold f m l = Ok m' ->
  adds m m' (fun v => forall x, x ∈ l -> P x v).
Proof.
  revert m; induction l as [|x l IH]; intros m Hf H; simpl in H.
  - injection H as <-. split; [done|]. intros v. split; [|by intros [? _]]. intros Hv. split; [done|]. by intros ? ?%not_elem_of_nil.
  - apply rbind_ok in H as (m1 & H1 & H). destruct (Hf m x m1 ltac:(by left) H1) as [V1 R1].
    destruct (IH m1 ltac:(intros; eapply Hf; [by right|done]) H) as [V2 R2]. split; [congruence|].
    intros v. rewrite R2, R1. setoid_rewrite elem_of_cons. naive_solver.
Qed.

Lemma adds_iff m m' P Q : (forall v, P v <-> Q v) -> adds m m' P -> adds m m' Q.
Proof. intros H [V R]. split; [done|]. intros v. by rewrite R, H. Qed.

Lemma adds_trans m1 m2 m3 P Q : adds m1 m2 P -> adds m2 m3 Q -> adds m1 m3 (fun v => P v /\ Q v).
Proof. intros [V1 R1] [V2 R2]. split; [congruence|]. intros v. rewrite R2, R1. tauto. Qed.

Lemma adds_constraint m name e o r : adds m (add_constraint name e o r m) (fun v => holds v (mkConstraint name e o r)).
Proof. split; [done|]. intros v. apply add_constraint_rows. Qed.

(** The value of a term's variable. *)
Definition yv (v : LpVar -> Z) (y : YPlanes) (t : YTerm) : Z := match yt_var t y with Ok z => v z | _ => 0 end.

Definition flow (v : LpVar -> Z) (y : YPlanes) (ci : YTerm -> nat) (i : nat) (ts : list YTerm) : Z :=
  zsum (fun t => if Nat.eqb (ci t) i then yv v y t else 0) ts.

Lemma minus_one_units : units minus_one = - UNIT.
Proof. vm_compute. reflexivity. Qed.

Lemma couple_rows_ok name xs rows m m' :
  couple_rows name xs rows m = Ok m' ->
  adds m m' (fun v => forall i row, rows !! i = Some row -> exists z, xs !! i = Some z /\ row_units v row = UNIT * v z).
Proof.
  intros H. unfold couple_rows in H.
  eapply (adds_fold (fun e v => exists z, xs !! e.1 = Some z /\ row_units v e.2 = UNIT * v z)) in H.
  - eapply adds_iff; [|exact H]. intros v. split.
    + intros Hv i row Hi. by apply (Hv (i, row)), elem_of_enumerate.
    + intros Hv [i row] Hi. by apply Hv, elem_of_enumerate.
  - intros m1 [i row] m2 _ Hs. apply rbind_ok in Hs as (z & Hz%expect_ok & [= <-]).
    eapply adds_iff; [|apply adds_constraint]. intros v. unfold holds. cbn [c_expr op Lp.rhs sum_expr terms constant fst snd].
    rewrite row_units_app. unfold row_units at 2. cbn [zsum fold_right fst snd]. rewrite minus_one_units. change (units F64.zero) with 0.
    split.
    + intros E. exists z. split; [done|]. lia.
    + intros (z' & Hz' & E). cbn [fst] in *. assert (z' = z) as -> by congruence. lia.
Qed.

Lemma push_at_ok {A} i (x : A) rows rows' : push_at i x rows = Ok rows' ->
  exists row, rows !! i = Some row /\ rows' = <[i := row ++ [x]]> rows.
Proof. unfold push_at. intros H. apply rbind_ok in H as (row & Hr%expect_ok & [= <-]). by exists row. Qed.

(** The rows of an edge collect its flows. *)
Lemma edge_rows_ok v y n k ts src_rows dst_cols :
  try_fold (fun acc t =>
      let! v := yt_var t y in
      let! src_rows := push_at (src_ci t) (F64.one, v) acc.1 in
      let! dst_cols := push_at (dst_ci t) (F64.one, v) acc.2 in
      Ok (src_rows, dst_cols)) (replicate n [], replicate k []) ts = @Ok IlpError _ (src_rows, dst_cols) ->
  length src_rows = n /\ length dst_cols = k /\
  (forall i row, src_rows !! i = Some row -> row_units v row = UNIT * flow v y src_ci i ts) /\
  (forall i row, dst_cols !! i = Some row -> row_units v row = UNIT * flow v y dst_ci i ts).
Proof.
  intros H.
  refine (try_fold_ind (fun ts acc => length acc.1 = n /\ length acc.2 = k /\
    (forall i row, acc.1 !! i = Some row -> row_units v row = UNIT * flow v y src_ci i ts) /\
    (forall i row, acc.2 !! i = Some row -> row_units v row = UNIT * flow v y dst_ci i ts)) _ _ _ (src_rows, dst_cols) _ _ H).
  { cbn [fst snd]. rewrite !length_replicate. split_and!; [done|done| |]; intros i row [-> _]%lookup_replicate; unfold row_units, flow; simpl; lia. }
  intros l1 t l2 [r1 c1] [r2 c2] _ (L1 & L2 & R1 & R2) Hstep. cbn [fst snd] in *.
  apply rbind_ok in Hstep as (z & Hz & Hstep). apply rbind_ok in Hstep as (r' & Hr & Hstep). apply rbind_ok in Hstep as (c' & Hc & [= <- <-]).
  apply push_at_ok in Hr as (row & Hrow & ->). apply push_at_ok in Hc as (col & Hcol & ->). rewrite !length_insert.
  assert (Hone : forall l, row_units v (l ++ [(F64.one, z)]) = row_units v l + UNIT * v z).
  { intros l. rewrite row_units_app. unfold row_units at 2. cbn [zsum fold_right fst snd]. rewrite (proj2 one_spec). lia. }
  assert (Hflow : forall ci i, flow v y ci i (l1 ++ [t]) = flow v y ci i l1 + if Nat.eqb (ci t) i then v z else 0).
  { intros ci i. unfold flow. rewrite zsum_app. cbn [zsum fold_right]. unfold yv at 2. rewrite Hz. lia. }
  split_and!; [done|done| |]; intros i row' Hi; rewrite Hflow.
  - apply list_lookup_insert_Some in Hi as [(E & <- & _)|[Hne Hi]].
    + rewrite Hone, (R1 _ _ Hrow), E, Nat.eqb_refl. ring.
    + rewrite (R1 _ _ Hi). destruct (Nat.eqb_spec (src_ci t) i); [done|]. ring.
  - apply list_lookup_insert_Some in Hi as [(E & <- & _)|[Hne Hi]].
    + rewrite Hone, (R2 _ _ Hcol), E, Nat.eqb_refl. ring.
    + rewrite (R2 _ _ Hi). destruct (Nat.eqb_spec (dst_ci t) i); [done|]. ring.
Qed.

(** Flow is conserved at both ends of an edge. *)
Definition coupled (v : LpVar -> Z) (domains : list (list Coor)) (x : list (list LpVar)) (y : YPlanes) (ei : nat) (edge : PlacementEdge) : Prop :=
  forall srcs dsts ts, domains !! e_src edge = Some srcs -> domains !! e_dst edge = Some dsts -> edge_y_terms ei edge domains = Ok ts ->
    (forall i, (i < length srcs)%nat -> exists row z, x !! e_src edge = Some row /\ row !! i = Some z /\ flow v y src_ci i ts = v z) /\
    (forall i, (i < length dsts)%nat -> exists row z, x !! e_dst edge = Some row /\ row !! i = Some z /\ flow v y dst_ci i ts = v z).

Lemma indexed_rows (v : LpVar -> Z) (rows : list SparseRow) (x : list (list LpVar)) xi n (F : nat -> Z) x_rows :
  length rows = n -> (forall i row, rows !! i = Some row -> row_units v row = UNIT * F i) ->
  match rows with [] => Ok [] | _ => @expect IlpError _ (x !! xi) end = Ok x_rows ->
  (forall i row, rows !! i = Some row -> exists z, x_rows !! i = Some z /\ row_units v row = UNIT * v z) <->
  (forall i, (i < n)%nat -> exists row z, x !! xi = Some row /\ row !! i = Some z /\ F i = v z).
Proof.
  intros Hlen Hrows Hx. pose proof UNIT_pos as HU. split.
  - intros H i Hi. destruct (rows !! i) as [row|] eqn:Hr; [|apply lookup_ge_None in Hr; lia].
    destruct (H i row Hr) as (z & Hz & E). rewrite (Hrows i row Hr) in E.
    destruct rows as [|r0 rows0]; [done|]. apply expect_ok in Hx. exists x_rows, z. split_and!; [done|done|]. nia.
  - intros H i row Hr. destruct (H i) as (xr & z & Hxr & Hz & E); [apply lookup_lt_Some in Hr; lia|].
    destruct rows as [|r0 rows0]; [done|]. apply expect_ok in Hx. assert (xr = x_rows) as -> by congruence.
    exists z. split; [done|]. by rewrite (Hrows i row Hr), E.
Qed.

Lemma add_coupling_ok g domains x y m m' :
  add_coupling g domains x y m = Ok m' ->
  adds m m' (fun v => forall ei edge, placement_edges g !! ei = Some edge -> coupled v domains x y ei edge).
Proof.
  intros H. unfold add_coupling in H. eapply (adds_fold (fun e v => coupled v domains x y e.1 e.2)) in H.
  { eapply adds_iff; [|exact H]. intros v. split.
    - intros Hv ei edge He. by apply (Hv (ei, edge)), elem_of_enumerate.
    - intros Hv [ei edge] He. by apply Hv, elem_of_enumerate. }
  intros m1 [ei edge] m2 _ Hs. apply rbind_ok in Hs as (srcs & Hsrcs%expect_ok & Hs). apply rbind_ok in Hs as (dsts & Hdsts%expect_ok & Hs).
  apply rbind_ok in Hs as (ts & Hts & Hs). apply rbind_ok in Hs as ([src_rows dst_cols] & Hrows & Hs).
  apply rbind_ok in Hs as (xs & Hxs & Hs). apply rbind_ok in Hs as (m3 & Hm3 & Hs). apply rbind_ok in Hs as (xd & Hxd & Hs).
  apply couple_rows_ok in Hm3. apply couple_rows_ok in Hs.
  eapply adds_iff; [|by eapply adds_trans]. intros v. cbn [fst snd].
  destruct (edge_rows_ok v y _ _ _ _ _ Hrows) as (L1 & L2 & R1 & R2).
  pose proof (indexed_rows v src_rows x (e_src edge) _ _ xs L1 R1 Hxs) as E1.
  pose proof (indexed_rows v dst_cols x (e_dst edge) _ _ xd L2 R2 Hxd) as E2. cbv beta in E1, E2. rewrite E1, E2. clear E1 E2. split.
  - intros [H1 H2] s' d' ts' Hs' Hd' Hts'. assert (s' = srcs) as -> by congruence. assert (d' = dsts) as -> by congruence.
    assert (ts' = ts) as -> by congruence. done.
  - intros Hc. by apply (Hc srcs dsts ts).
Qed.

(** ** Capacities and cuts *)

(** Coefficients are exact. *)
Definition exact (z : Z) : Prop := 0 <= z <= 2 ^ 53.

Lemma units_exact z : exact z -> units (F64.of_Z z) = z * UNIT.
Proof. intros H. by apply of_Z_exact. Qed.

Definition all_terms (g : FloorGraph) (domains : list (list Coor)) : list YTerm :=
  flat_map (fun e => match edge_y_terms e.1 e.2 domains with Ok l => l | _ => [] end) (enumerate (placement_edges g)).

Lemma y_terms_ok g domains ts : y_terms g domains = Ok ts -> ts = all_terms g domains.
Proof.
  unfold y_terms, all_terms. intros H.
  refine (try_fold_ind (fun es ts => ts = flat_map (fun e => match edge_y_terms e.1 e.2 domains with Ok l => l | _ => [] end) es) _ _ _ _ _ _ H).
  - done.
  - intros l1 e l2 a a' _ -> Hs. apply rbind_ok in Hs as (l & Hl & [= <-]). rewrite flat_map_app. cbn [flat_map]. by rewrite Hl, app_nil_r.
Qed.

(** A loop over the terms that appends the coefficient of some of them. *)
Lemma append_terms_ok v y (pick : YTerm -> bool) (coef : YTerm -> Z) ts terms0 terms1 :
  (forall t, t ∈ ts -> pick t = true -> exact (coef t)) ->
  try_fold (fun terms t => if pick t then let! z := yt_var t y in Ok (terms ++ [(F64.of_Z (coef t), z)]) else Ok terms) terms0 ts
    = @Ok IlpError _ terms1 ->
  row_units v terms1 = row_units v terms0 + UNIT * zsum (fun t => if pick t then coef t * yv v y t else 0) ts.
Proof.
  revert terms0. induction ts as [|t ts IH]; intros terms0 He H; simpl in H.
  - injection H as <-. cbn [zsum fold_right]. lia.
  - apply rbind_ok in H as (l & Hl & H). rewrite (IH l ltac:(intros u Hu; apply He; by right) H).
    cbn [zsum fold_right]. destruct (pick t) eqn:Ep; [|injection Hl as <-; unfold zsum; lia].
    apply rbind_ok in Hl as (z & Hz & [= <-]). rewrite row_units_app. unfold row_units at 2. cbn [zsum fold_right fst snd].
    rewrite units_exact by (apply He; [by left|done]). assert (Ey : yv v y t = v z) by (unfold yv; by rewrite Hz).
    rewrite Ey. unfold zsum. lia.
Qed.

Definition xv (v : LpVar -> Z) (x : list (list LpVar)) (vi ci : nat) : Z :=
  match x !! vi ≫= (.!! ci) with Some z => v z | None => 0 end.

(** What the assignment variables put of a resource in a region. *)
Definition vertex_load (v : LpVar -> Z) (domains : list (list Coor)) (x : list (list LpVar)) (region : Coor) (r : Resource)
    (e : nat * Vertex) : Z :=
  match domains !! e.1 ≫= position region with Some ci => amount r (v_area e.2) * xv v x e.1 ci | None => 0 end.

Lemma vertex_terms_ok v r g domains x region terms :
  (forall vx, vx ∈ vertices g -> exact (amount r (v_area vx))) ->
  vertex_terms r g domains x region = Ok terms ->
  row_units v terms = UNIT * zsum (vertex_load v domains x region r) (enumerate (vertices g)).
Proof.
  intros He H. unfold vertex_terms in H.
  refine (try_fold_ind (fun es terms => row_units v terms = UNIT * zsum (vertex_load v domains x region r) es) _ _ _ _ _ _ H).
  - unfold row_units. simpl. lia.
  - intros l1 [vi vx] l2 a a' Hl IH Hs. apply rbind_ok in Hs as (dom & Hdom%expect_ok & Hs). cbn [fst snd] in *.
    rewrite zsum_app. cbn [zsum fold_right]. unfold vertex_load at 2. cbn [fst snd]. rewrite Hdom. cbn [mbind option_bind].
    destruct (position region dom) as [ci|]; [|injection Hs as <-; lia].
    apply rbind_ok in Hs as (xs & Hxs%expect_ok & Hs). apply rbind_ok in Hs as (z & Hz%expect_ok & [= <-]).
    rewrite row_units_app, IH. unfold row_units at 1. cbn [zsum fold_right fst snd]. unfold xv. rewrite Hxs. cbn [mbind option_bind]. rewrite Hz.
    rewrite units_exact; [unfold zsum; lia|]. apply He. assert (Hin : (vi, vx) ∈ enumerate (vertices g)) by (rewrite Hl, elem_of_app; right; by left).
    apply elem_of_enumerate in Hin. by eapply list_elem_of_lookup_2.
Qed.

(** What the routes put of flip-flops in a region. *)
Definition head_load (v : LpVar -> Z) (y : YPlanes) (region : Coor) (t : YTerm) : Z :=
  if bool_decide (yt_src t = yt_dst t) then 0 else head_width t region * yv v y t.

Definition widths_exact (g : FloorGraph) : Prop :=
  forall e, e ∈ placement_edges g -> exact (e_width e) /\ exact (forward_width e) /\ exact (reverse_width e).

Lemma edge_y_terms_edge ei edge domains ts t : edge_y_terms ei edge domains = Ok ts -> t ∈ ts -> yt_edge t = edge.
Proof.
  intros (srcs & _ & [[_ ->]|(dsts & _ & ->)])%edge_terms_cases Ht; [by apply not_elem_of_nil in Ht|].
  apply list_elem_of_In, in_flat_map in Ht as (s & _ & (t' & <- & _)%in_map_iff). done.
Qed.

Lemma all_terms_edge g domains t : t ∈ all_terms g domains ->
  placement_edges g !! yt_ei t = Some (yt_edge t) /\ exists ts, edge_y_terms (yt_ei t) (yt_edge t) domains = Ok ts /\ t ∈ ts.
Proof.
  unfold all_terms. intros ([ei edge] & He & Ht)%list_elem_of_In%in_flat_map. apply list_elem_of_In, elem_of_enumerate in He. cbn [fst snd] in Ht.
  destruct (edge_y_terms ei edge domains) as [ts| |] eqn:E; try done. apply list_elem_of_In in Ht.
  rewrite (edge_y_terms_ei _ _ _ _ _ E Ht), (edge_y_terms_edge _ _ _ _ _ E Ht). split; [done|]. by exists ts.
Qed.

Lemma head_terms_ok v g domains y region terms0 terms1 :
  widths_exact g -> add_crossing_head_terms terms0 g domains y region = Ok terms1 ->
  row_units v terms1 = row_units v terms0 + UNIT * zsum (head_load v y region) (all_terms g domains).
Proof.
  intros Hw H. unfold add_crossing_head_terms in H. apply rbind_ok in H as (ts & Hts%y_terms_ok & H). subst ts.
  assert (Hhead : forall t, t ∈ all_terms g domains -> exact (head_width t region)).
  { intros t Ht. apply all_terms_edge in Ht as [He _]. apply list_elem_of_lookup_2, Hw in He as (_ & Hf & Hr).
    unfold head_width. case_bool_decide; [done|]. case_bool_decide; [done|]. split; lia. }
  rewrite (append_terms_ok v y (fun t => negb (bool_decide (yt_src t = yt_dst t)) && (0 <? head_width t region))
             (fun t => head_width t region) (all_terms g domains) terms0 terms1).
  - do 2 f_equal. apply zsum_ext_in. intros t Ht. unfold head_load. specialize (Hhead t Ht). unfold exact in Hhead.
    case_bool_decide; cbn [negb andb]; [done|]. destruct (Z.ltb_spec 0 (head_width t region)); [done|].
    assert (E : head_width t region = 0) by lia. rewrite E. lia.
  - intros t Ht _. by apply Hhead.
  - etransitivity; [|exact H]. apply try_fold_ext. intros l t _. case_bool_decide; [done|]. cbn [negb andb]. done.
Qed.

(** The load of a region in a resource. *)
Definition load (v : LpVar -> Z) (g : FloorGraph) (domains : list (list Coor)) (x : list (list LpVar)) (y : YPlanes)
    (region : Coor) (r : Resource) : Z :=
  zsum (vertex_load v domains x region r) (enumerate (vertices g))
  + if bool_decide (r = Ff) then zsum (head_load v y region) (all_terms g domains) else 0.

Definition amounts_exact (g : FloorGraph) (areas : RegionAreas) : Prop :=
  (forall vx r, vx ∈ vertices g -> exact (amount r (v_area vx))) /\
  (forall region total r, BMap.get region areas = Some total -> exact (amount r total)).

Lemma limit_for_ok limits region r limit : fraction limit -> limits_typed limits ->
  fin (limit_for limits region r limit) /\ 0 <= units (limit_for limits region r limit) <= UNIT.
Proof.
  intros [Hf Hu] Hl. unfold limit_for. destruct (lookup_limit limits region r) as [l|] eqn:E; simpl; [by apply (Hl region r)|]. split; [done|lia].
Qed.

Lemma scaled_exact z a : exact z -> fin a -> 0 <= units a <= UNIT -> exact (scaled_amount z a).
Proof.
  intros Hz Ha Hu. split; [apply F64.to_u64_range|]. etransitivity; [by apply scaled_le|]. apply Hz.
Qed.

Lemma resource_row_ok g domains limit limits areas x y region total r m m' :
  fraction limit -> limits_typed limits -> amounts_exact g areas -> widths_exact g -> BMap.get region areas = Some total ->
  resource_row g domains limit limits x y region total m r = Ok m' ->
  adds m m' (fun v => load v g domains x y region r <= scaled_amount (amount r total) (limit_for limits region r limit)).
Proof.
  intros Hlim Hlims [Hva Haa] Hw Htot H. unfold resource_row in H. apply rbind_ok in H as (terms0 & Ht & H).
  apply rbind_ok in H as (terms1 & Hh & [= <-]). eapply adds_iff; [|apply adds_constraint]. intros v.
  unfold holds. cbn [c_expr op Lp.rhs sum_expr terms constant]. change (units F64.zero) with 0. pose proof UNIT_pos.
  destruct (limit_for_ok limits region r limit Hlim Hlims) as [Lf Lu].
  rewrite units_exact by (apply scaled_exact; [by apply (Haa region)|done|done]).
  assert (E : row_units v terms1 = UNIT * load v g domains x y region r).
  { unfold load. case_bool_decide.
    - rewrite (head_terms_ok v g domains y region _ _ Hw Hh), (vertex_terms_ok v r g domains x region terms0) by (auto). ring.
    - injection Hh as <-. rewrite (vertex_terms_ok v r g domains x region terms0) by auto. ring. }
  rewrite E. nia.
Qed.

Lemma elem_of_coor_set c l : c ∈ coor_set l <-> c ∈ l.
Proof.
  unfold coor_set. rewrite !list_elem_of_In. split.
  - intros (e & <- & He)%in_map_iff. destruct e as [c' []]. apply BMap.In_from_list, in_map_iff in He as (c0 & [= ->] & ?). done.
  - intros Hc. apply BMap.keys_from_list. rewrite map_map. apply in_map_iff. by exists c.
Qed.

Lemma resources_ok d g domains limit limits areas x y m m' :
  fraction limit -> limits_typed limits -> amounts_exact g areas -> widths_exact g ->
  add_resource_constraints d g areas domains limit limits x y m = Ok m' ->
  adds m m' (fun v => forall region, region ∈ concat domains -> exists total, BMap.get region areas = Some total /\
    forall r, plans_resource d r = true -> load v g domains x y region r <= scaled_amount (amount r total) (limit_for limits region r limit)).
Proof.
  intros Hlim Hlims Ha Hw H. unfold add_resource_constraints in H.
  eapply (adds_fold (fun region v => exists total, BMap.get region areas = Some total /\
    forall r, plans_resource d r = true -> load v g domains x y region r <= scaled_amount (amount r total) (limit_for limits region r limit))) in H.
  { eapply adds_iff; [|exact H]. intros v. by setoid_rewrite elem_of_coor_set. }
  intros m1 region m2 _ Hs. apply rbind_ok in Hs as (total & Htot%ok_or_ok & Hs).
  eapply (adds_fold (fun r v => load v g domains x y region r <= scaled_amount (amount r total) (limit_for limits region r limit))) in Hs.
  - eapply adds_iff; [|exact Hs]. intros v. split.
    + intros Hv. exists total. split; [done|]. intros r Hr. apply Hv, list_elem_of_In, filter_In. split; [apply resource_all_complete|done].
    + intros (t & Ht & Hv) r [_ Hr]%list_elem_of_In%filter_In. assert (t = total) as -> by congruence. by apply Hv.
  - intros m3 r m4 _ Hr. by eapply resource_row_ok.
Qed.

Definition cut_load (v : LpVar -> Z) (y : YPlanes) (c : Cut) (t : YTerm) : Z :=
  if crosses_cut c t then e_width (yt_edge t) * yv v y t else 0.

Lemma cuts_ok g domains cuts y m m' :
  widths_exact g -> Forall (fun c => exact (Cut.capacity c)) cuts ->
  add_cut_constraints g domains cuts y m = Ok m' ->
  adds m m' (fun v => forall c, c ∈ cuts -> zsum (cut_load v y c) (all_terms g domains) <= Cut.capacity c).
Proof.
  intros Hw Hc H. unfold add_cut_constraints in H.
  eapply (adds_fold (fun c v => zsum (cut_load v y c) (all_terms g domains) <= Cut.capacity c)) in H; [done|].
  intros m1 c m2 Hin Hs. apply rbind_ok in Hs as (ts & Hts%y_terms_ok & Hs). subst ts. apply rbind_ok in Hs as (terms1 & Ht & [= <-]).
  eapply adds_iff; [|apply adds_constraint]. intros v. unfold holds. cbn [c_expr op Lp.rhs sum_expr terms constant]. change (units F64.zero) with 0.
  rewrite Forall_forall in Hc. rewrite units_exact by (by apply Hc). pose proof UNIT_pos.
  rewrite (append_terms_ok v y (crosses_cut c) (fun t => e_width (yt_edge t)) _ _ _) with (2 := Ht).
  - unfold row_units. cbn [zsum fold_right]. fold (zsum (cut_load v y c) (all_terms g domains)).
    change (fold_right (fun t a => cut_load v y c t + a) 0 (all_terms g domains)) with (zsum (cut_load v y c) (all_terms g domains)).
    change (zsum (fun t => if crosses_cut c t then e_width (yt_edge t) * yv v y t else 0) (all_terms g domains)) with (zsum (cut_load v y c) (all_terms g domains)).
    nia.
  - intros t Hin' _. apply all_terms_edge in Hin' as [He _]. apply list_elem_of_lookup_2, Hw in He as (? & _). done.
Qed.
