(* ===== verification/PlacementExact.v ===== *)
(** * The placement program is exact

    The integral solutions of the rows of [partition/ilp.rs] are exactly the
    placements that respect the candidate domains, the derated capacities with
    the Head registers of the crossings, and the cuts. *)

From S2P Require Import Prelude BTreeMap Geometry Ir F64 Device Cut FloorGraph FloorGraphProps F64Spec Lp Partition PartitionSearch PartitionProps PlacementProgram.

(** ** Placements *)

(** The cost of an edge by the regions of its ends. *)
Definition edge_cost (F : PlacementEdge -> Coor -> Coor -> Z) (places : list Coor) (e : PlacementEdge) : Z :=
  match places !! e_src e, places !! e_dst e with Some a, Some b => F e a b | _, _ => 0 end.

(** Heads: the forward width at the source, the reverse width at the
    destination, of the edges that cross. *)
Definition head_cost (region : Coor) (e : PlacementEdge) (a b : Coor) : Z :=
  if bool_decide (a = b) then 0 else if bool_decide (a = region) then forward_width e
  else if bool_decide (b = region) then reverse_width e else 0.

Definition cut_cost (c : Cut) (e : PlacementEdge) (a b : Coor) : Z :=
  if (mem_coor a (Cut.lhs c) && mem_coor b (Cut.rhs c)) || (mem_coor a (Cut.rhs c) && mem_coor b (Cut.lhs c)) then e_width e else 0.

(** What a placement asks of a region. *)
Definition demand (g : FloorGraph) (places : list Coor) (region : Coor) (r : Resource) : Z :=
  zsum (fun e => if bool_decide (e.2 = region) then amount r (v_area e.1) else 0) (zip (vertices g) places)
  + if bool_decide (r = Ff) then zsum (edge_cost (head_cost region) places) (placement_edges g) else 0.

(** The placements the program stands for. *)
Record legal_placement (g : FloorGraph) (d : Device) (domains : list (list Coor)) (areas : RegionAreas) (cuts : list Cut)
    (limit : f64) (limits : RegionResourceLimits) (places : list Coor) : Prop := {
  lp_domains : Forall2 (fun region dom => region ∈ dom) places domains;
  lp_resources : forall region total r, region ∈ concat domains -> BMap.get region areas = Some total -> plans_resource d r = true ->
    demand g places region r <= scaled_amount (amount r total) (limit_for limits region r limit);
  lp_cuts : forall c, c ∈ cuts -> zsum (edge_cost (cut_cost c) places) (placement_edges g) <= Cut.capacity c;
}.

(** ** Sums with one term *)

Lemma zsum_single {A} (F : A -> Z) l a0 : NoDup l -> a0 ∈ l -> (forall a, a ∈ l -> a <> a0 -> F a = 0) -> zsum F l = F a0.
Proof.
  induction 1 as [|x l Hx Hnd IH]; intros Hin H0; [by apply not_elem_of_nil in Hin|]. simpl.
  apply elem_of_cons in Hin as [->|Hin].
  - rewrite zsum_zero; [lia|]. intros y Hy. apply H0; [by right|]. by intros ->.
  - rewrite IH; [|done|intros a Ha; apply H0; by right]. rewrite H0; [lia|by left|]. by intros ->.
Qed.

Lemma NoDup_enumerate {A} (l : list A) : NoDup (enumerate l).
Proof.
  apply (NoDup_fmap_1 fst). unfold enumerate. rewrite fst_zip by (rewrite length_seq; lia). apply NoDup_seq.
Qed.

(** A term of an edge, from its two candidates. *)
Lemma elem_of_edge_terms ei edge domains ts t : edge_y_terms ei edge domains = Ok ts -> t ∈ ts ->
  exists srcs dsts, domains !! e_src edge = Some srcs /\ domains !! e_dst edge = Some dsts /\
    srcs !! src_ci t = Some (yt_src t) /\ dsts !! dst_ci t = Some (yt_dst t) /\ yt_edge t = edge /\ yt_ei t = ei.
Proof.
  intros (srcs & Hs & [[_ ->]|(dsts & Hd & ->)])%edge_terms_cases Ht; [by apply not_elem_of_nil in Ht|].
  apply list_elem_of_In, in_flat_map in Ht as ([i a] & Hi & ([j b] & <- & Hj)%in_map_iff). cbn.
  apply list_elem_of_In, elem_of_enumerate in Hi, Hj. by exists srcs, dsts.
Qed.

Lemma edge_terms_mk ei edge domains ts srcs dsts i j a b : edge_y_terms ei edge domains = Ok ts ->
  domains !! e_src edge = Some srcs -> domains !! e_dst edge = Some dsts -> srcs !! i = Some a -> dsts !! j = Some b ->
  mkYTerm ei edge i a j b ∈ ts.
Proof.
  intros (srcs' & Hs & Hc)%edge_terms_cases Hsrc Hdst Hi Hj. assert (srcs' = srcs) as -> by congruence.
  destruct Hc as [[-> _]|(dsts' & Hd & ->)]; [done|]. assert (dsts' = dsts) as -> by congruence.
  apply list_elem_of_In, in_flat_map. exists (i, a). split; [by apply list_elem_of_In, elem_of_enumerate|].
  apply in_map_iff. exists (j, b). split; [done|]. by apply list_elem_of_In, elem_of_enumerate.
Qed.

Lemma edge_terms_sum (F : YTerm -> Z) ei edge domains ts srcs dsts :
  edge_y_terms ei edge domains = Ok ts -> domains !! e_src edge = Some srcs -> domains !! e_dst edge = Some dsts ->
  zsum F ts = zsum (fun s => zsum (fun t => F (mkYTerm ei edge s.1 s.2 t.1 t.2)) (enumerate dsts)) (enumerate srcs).
Proof.
  intros (srcs' & Hs & Hc)%edge_terms_cases Hsrc Hdst. assert (srcs' = srcs) as -> by congruence.
  destruct Hc as [[-> ->]|(dsts' & Hd & ->)]; [done|]. assert (dsts' = dsts) as -> by congruence.
  rewrite zsum_flat_map. apply zsum_ext. intros s. by rewrite zsum_map.
Qed.

Lemma zsum_lookup_ext {A B} (f : A -> Z) (h : B -> Z) l l' :
  length l = length l' -> (forall i a b, l !! i = Some a -> l' !! i = Some b -> f a = h b) -> zsum f l = zsum h l'.
Proof.
  revert l'; induction l as [|a l IH]; intros [|b l'] Hlen H; [done|done|done|]. injection Hlen as Hlen. simpl.
  rewrite (H O a b), (IH l' Hlen); [done| |done|done]. intros i a' b' Ha Hb. by apply (H (S i)).
Qed.

Lemma position_lookup region dom ci : position region dom = Some ci -> dom !! ci = Some region.
Proof.
  revert ci; induction dom as [|c dom IH]; intros ci H; [done|]. simpl in H. case_bool_decide as E.
  - injection H as <-. by subst.
  - destruct (position region dom) as [k|]; [|done]. injection H as <-. by apply IH.
Qed.

Lemma position_None region dom : position region dom = None -> region ∉ dom.
Proof.
  induction dom as [|c dom IH]; intros H Hin; [by apply not_elem_of_nil in Hin|]. simpl in H. case_bool_decide as E; [done|].
  destruct (position region dom); [done|]. apply elem_of_cons in Hin as [->|Hin]; [done|]. by apply IH.
Qed.

(** A binary row whose sum is one has a single one. *)
Lemma one_hot (v : LpVar -> Z) row : (forall z, z ∈ row -> 0 <= v z) -> zsum v row = 1 ->
  exists j, (j < length row)%nat /\ forall k z, row !! k = Some z -> v z = Z.b2z (bool_decide (k = j)).
Proof.
  induction row as [|z row IH]; intros Hnn Hs; [done|]. simpl in Hs. pose proof (Hnn z ltac:(by left)) as Hz.
  assert (Hr : forall u, u ∈ row -> 0 <= v u) by (intros u Hu; apply Hnn; by right). pose proof (zsum_nonneg v row Hr).
  destruct (decide (v z = 0)) as [E|E].
  - destruct (IH Hr ltac:(lia)) as (j & Hj & Hk). exists (S j). split; [simpl; lia|]. intros [|k] u Hu.
    + injection Hu as <-. by rewrite bool_decide_eq_false_2.
    + rewrite (Hk k u Hu). f_equal. apply bool_decide_ext. lia.
  - exists O. split; [simpl; lia|]. intros [|k] u Hu.
    + injection Hu as <-. rewrite bool_decide_eq_true_2 by done. simpl. lia.
    + rewrite bool_decide_eq_false_2 by done. apply (zsum_nonneg_zero v row Hr); [lia|]. by eapply list_elem_of_lookup_2.
Qed.

Lemma choice_list {A} (P : nat -> A -> Prop) n : (forall i, (i < n)%nat -> exists a, P i a) ->
  exists l, length l = n /\ forall i a, l !! i = Some a -> P i a.
Proof.
  induction n as [|n IH]; intros H; [by exists []|]. destruct IH as (l & Hl & Hp); [intros i Hi; apply H; lia|].
  destruct (H n ltac:(lia)) as [a Ha]. exists (l ++ [a]). split; [rewrite length_app; simpl; lia|].
  intros i b [[_ Hb]|[-> <-]]%lookup_snoc_Some; [by apply Hp|by subst].
Qed.

Lemma flat_map_lookup_ext {A B C} (f : A -> list C) (h : B -> list C) l l' :
  length l = length l' -> (forall i a b, l !! i = Some a -> l' !! i = Some b -> f a = h b) -> flat_map f l = flat_map h l'.
Proof.
  revert l'; induction l as [|a l IH]; intros [|b l'] Hlen H; [done|done|done|]. injection Hlen as Hlen. simpl.
  rewrite (H O a b), (IH l' Hlen); [done| |done|done]. intros i a' b' Ha Hb. by apply (H (S i)).
Qed.

Lemma concat_concat {A} (l : list (list (list A))) : concat (concat l) = flat_map (fun p => concat p) l.
Proof. induction l as [|p l IH]; [done|]. simpl. by rewrite concat_app, IH. Qed.

(** Equal concatenations of rows of equal lengths are equal row by row. *)
Lemma concat_rows {A B} (f : A -> B) (xs : list (list A)) ys : map f (concat xs) = concat ys ->
  Forall2 (fun a b => length a = length b) xs ys -> Forall2 (fun a b => map f a = b) xs ys.
Proof.
  intros E H. induction H as [|a b xs ys Hl _ IH]; [done|]. simpl in E. rewrite map_app in E.
  apply app_inj_1 in E as [E1 E2]; [|by rewrite length_map]. constructor; [done|by apply IH].
Qed.

Lemma concat_length {A B} (xs : list (list A)) (ys : list (list B)) :
  Forall2 (fun a b => length a = length b) xs ys -> length (concat xs) = length (concat ys).
Proof. induction 1 as [|a b xs ys Hl _ IH]; [done|]. simpl. rewrite !length_app. lia. Qed.

(** A list of values as a valuation of consecutive handles. *)
Definition valued (l : list Z) (z : LpVar) : Z := default 0 (l !! Z.to_nat z).

Lemma map_valued l n : Z.to_nat n = length l -> 0 <= n -> map (valued l) (zrange 0 n) = l.
Proof.
  intros Hl Hn. apply list_eq. intros i. unfold zrange. rewrite map_map, list_lookup_fmap. replace (n - 0) with n by lia.
  destruct (decide (i < length l)%nat) as [Hi|Hi].
  - rewrite lookup_seq_lt by lia. cbn. unfold valued. replace (Z.to_nat (0 + Z.of_nat i)) with i by lia.
    destruct (l !! i) eqn:E; [done|]. apply lookup_ge_None in E. lia.
  - rewrite lookup_seq_ge by lia. cbn. symmetry. apply lookup_ge_None. lia.
Qed.

Lemma named_sum v y ts zs : map (fun t => yt_var t y) ts = map Ok zs -> zsum v zs = zsum (yv v y) ts.
Proof.
  revert zs; induction ts as [|t ts IH]; intros [|z zs] H; try done. injection H as Ht H. simpl. rewrite (IH zs H).
  unfold yv at 2. by rewrite Ht.
Qed.

(** ** Valuations of a placement *)

Section encode.
Context (g : FloorGraph) (domains : list (list Coor)) (x : list (list LpVar)) (y : YPlanes).
Context (Hx : forall vi row, x !! vi = Some row -> exists dom, domains !! vi = Some dom /\ length row = length dom).
Context (Hxl : length x = length (vertices g)) (Hdl : length domains = length (vertices g)).
Context (Hnd : Forall NoDup domains).
Context (Hy : forall ei edge, placement_edges g !! ei = Some edge -> edge_named y domains ei edge) (Hyl : length y = length (placement_edges g)).

Context (Hends : forall ei edge, placement_edges g !! ei = Some edge ->
  exists srcs dsts, domains !! e_src edge = Some srcs /\ domains !! e_dst edge = Some dsts).

Definition x_encodes (v : LpVar -> Z) (places : list Coor) : Prop :=
  forall vi dom region p j, domains !! vi = Some dom -> dom !! j = Some region -> places !! vi = Some p ->
    xv v x vi j = Z.b2z (bool_decide (region = p)).

Definition y_encodes (v : LpVar -> Z) (places : list Coor) : Prop :=
  forall t, t ∈ all_terms g domains ->
    yv v y t = Z.b2z (bool_decide (places !! e_src (yt_edge t) = Some (yt_src t)) && bool_decide (places !! e_dst (yt_edge t) = Some (yt_dst t))).

Lemma domain_NoDup vi dom : domains !! vi = Some dom -> NoDup dom.
Proof using All. intros H. rewrite Forall_forall in Hnd. apply Hnd. by eapply list_elem_of_lookup_2. Qed.

Lemma elem_of_all_terms ei edge ts t : placement_edges g !! ei = Some edge -> edge_y_terms ei edge domains = Ok ts -> t ∈ ts ->
  t ∈ all_terms g domains.
Proof using Type.
  intros He Hts Ht. apply list_elem_of_In, in_flat_map. exists (ei, edge). split; [by apply list_elem_of_In, elem_of_enumerate|].
  cbn [fst snd]. rewrite Hts. by apply list_elem_of_In.
Qed.

(** The ends of an edge and their regions. *)
Lemma edge_ends places ei edge : Forall2 (fun region dom => region ∈ dom) places domains -> placement_edges g !! ei = Some edge ->
  forall srcs dsts, domains !! e_src edge = Some srcs -> domains !! e_dst edge = Some dsts ->
  exists a b ks kd, places !! e_src edge = Some a /\ places !! e_dst edge = Some b /\ srcs !! ks = Some a /\ dsts !! kd = Some b.
Proof using Type.
  intros Hp He srcs dsts Hs Hd.
  destruct (Forall2_lookup_r _ _ _ _ _ Hp Hs) as (a & Ha & [ks Hks]%list_elem_of_lookup).
  destruct (Forall2_lookup_r _ _ _ _ _ Hp Hd) as (b & Hb & [kd Hkd]%list_elem_of_lookup). by exists a, b, ks, kd.
Qed.

(** An edge sum is the cost at the regions of the ends. *)
Lemma edge_sum (F : PlacementEdge -> Coor -> Coor -> Z) v places ei edge ts :
  Forall2 (fun region dom => region ∈ dom) places domains -> y_encodes v places ->
  placement_edges g !! ei = Some edge -> edge_y_terms ei edge domains = Ok ts ->
  zsum (fun t => F (yt_edge t) (yt_src t) (yt_dst t) * yv v y t) ts = edge_cost F places edge.
Proof using All.
  intros Hp Hv He Hts. destruct (Hends ei edge He) as (srcs & dsts & Hs & Hd). destruct (edge_ends places ei edge Hp He srcs dsts Hs Hd) as (a & b & ks & kd & Ha & Hb & Hks & Hkd).
  assert (Hyv : forall t, t ∈ ts -> yv v y t = Z.b2z (bool_decide (yt_src t = a) && bool_decide (yt_dst t = b))).
  { intros t Ht. rewrite (Hv t) by (by eapply elem_of_all_terms). destruct (elem_of_edge_terms _ _ _ _ _ Hts Ht) as (_ & _ & _ & _ & _ & _ & -> & _).
    rewrite Ha, Hb. f_equal. f_equal; apply bool_decide_ext; naive_solver. }
  rewrite (zsum_ext_in _ (fun t => F (yt_edge t) (yt_src t) (yt_dst t) * Z.b2z (bool_decide (yt_src t = a) && bool_decide (yt_dst t = b)))).
  2: { intros t Ht. by rewrite Hyv. }
  rewrite (edge_terms_sum _ _ _ _ _ _ _ Hts Hs Hd). cbn [yt_edge yt_src yt_dst].
  rewrite (zsum_single _ (enumerate srcs) (ks, a)).
  - cbn [fst snd]. rewrite bool_decide_eq_true_2 by done. cbn [andb]. rewrite (zsum_single _ (enumerate dsts) (kd, b)).
    + cbn [fst snd]. rewrite bool_decide_eq_true_2 by done. cbn [Z.b2z]. unfold edge_cost. rewrite Ha, Hb. lia.
    + apply NoDup_enumerate.
    + by apply elem_of_enumerate.
    + intros [j b'] Hj Hne. cbn [fst snd]. rewrite bool_decide_eq_false_2; [cbn [Z.b2z]; lia|]. intros ->. apply Hne. f_equal.
      apply elem_of_enumerate in Hj. by apply (NoDup_lookup dsts j kd b (domain_NoDup _ _ Hd)).
  - apply NoDup_enumerate.
  - by apply elem_of_enumerate.
  - intros [i a'] Hi Hne. apply zsum_zero. intros [j b'] _. cbn [fst snd]. rewrite (bool_decide_eq_false_2 (a' = a)); [cbn [andb Z.b2z]; lia|].
    intros ->. apply Hne. f_equal. apply elem_of_enumerate in Hi. by apply (NoDup_lookup srcs i ks a (domain_NoDup _ _ Hs)).
Qed.

(** A sum over all terms is the cost of the edges. *)
Lemma terms_sum (F : PlacementEdge -> Coor -> Coor -> Z) v places :
  Forall2 (fun region dom => region ∈ dom) places domains -> y_encodes v places ->
  zsum (fun t => F (yt_edge t) (yt_src t) (yt_dst t) * yv v y t) (all_terms g domains) = zsum (edge_cost F places) (placement_edges g).
Proof using All.
  intros Hp Hv. unfold all_terms. rewrite zsum_flat_map. apply zsum_lookup_ext; [unfold enumerate; rewrite length_zip, length_seq; lia|].
  intros i [ei edge] edge' [[Hei _]%lookup_seq He]%lookup_zip_Some He'. simpl in Hei. subst ei. assert (edge' = edge) as -> by congruence. cbn [fst snd].
  destruct (Hy _ _ He) as (ts & plane & Hts & _). rewrite Hts. by apply (edge_sum F v places i edge).
Qed.

Lemma encoded_plane v places ei edge plane : Forall2 (fun region dom => region ∈ dom) places domains -> y_encodes v places ->
  placement_edges g !! ei = Some edge -> y !! ei = Some plane -> zsum v (concat plane) = 1.
Proof using All.
  intros Hp Hv He Hpl. destruct (Hy _ _ He) as (ts & plane' & Hts & Hpl' & Hn). assert (plane' = plane) as -> by congruence.
  destruct (Hends _ _ He) as (srcs & dsts & Hs & Hd). destruct (edge_ends places ei edge Hp He srcs dsts Hs Hd) as (a & b & ks & kd & Ha & Hb & _).
  transitivity (zsum (fun t => 1 * yv v y t) ts).
  - rewrite (named_sum v y ts _ Hn). apply zsum_ext. intros t. lia.
  - rewrite (edge_sum (fun _ _ _ => 1) v places ei edge ts Hp Hv He Hts). unfold edge_cost. by rewrite Ha, Hb.
Qed.

Lemma x_row vi row dom p v places : x !! vi = Some row -> domains !! vi = Some dom -> places !! vi = Some p -> x_encodes v places ->
  forall j z region, row !! j = Some z -> dom !! j = Some region -> v z = Z.b2z (bool_decide (region = p)).
Proof using Type.
  intros Hr Hd Hp Hv j z region Hz Hj. specialize (Hv vi dom region p j Hd Hj Hp). unfold xv in Hv. rewrite Hr in Hv. cbn in Hv.
  by rewrite Hz in Hv.
Qed.

Lemma encoded_row v places row : Forall2 (fun region dom => region ∈ dom) places domains -> x_encodes v places -> row ∈ x -> zsum v row = 1.
Proof using All.
  intros Hp Hv [vi Hr]%list_elem_of_lookup. destruct (Hx vi row Hr) as (dom & Hd & Hl).
  destruct (Forall2_lookup_r _ _ _ _ _ Hp Hd) as (p & Hpl & Hin).
  rewrite (zsum_lookup_ext v (fun region => Z.b2z (bool_decide (region = p))) row dom Hl).
  - rewrite (zsum_single _ dom p); [by rewrite bool_decide_eq_true_2|by eapply domain_NoDup|done|].
    intros a _ Hne. by rewrite bool_decide_eq_false_2.
  - intros j z region. by apply (x_row vi row dom p v places).
Qed.

(** The flow of an encoded edge is the choice of its end. *)
Lemma encoded_coupled v places ei edge : Forall2 (fun region dom => region ∈ dom) places domains -> x_encodes v places -> y_encodes v places ->
  placement_edges g !! ei = Some edge -> coupled v domains x y ei edge.
Proof using All.
  intros Hp Hvx Hvy He srcs dsts ts Hs Hd Hts.
  destruct (edge_ends places ei edge Hp He srcs dsts Hs Hd) as (a & b & ks & kd & Ha & Hb & _).
  assert (Hrow : forall vi dom p i, domains !! vi = Some dom -> places !! vi = Some p -> (i < length dom)%nat ->
    exists row z region, x !! vi = Some row /\ row !! i = Some z /\ dom !! i = Some region /\ v z = Z.b2z (bool_decide (region = p))).
  { intros vi dom p i Hdm Hpl Hi. destruct (x !! vi) as [row|] eqn:Hr.
    - destruct (Hx vi row Hr) as (dom' & Hd' & Hl). assert (dom' = dom) as -> by congruence.
      destruct (row !! i) as [z|] eqn:Hz; [|apply lookup_ge_None in Hz; lia].
      destruct (dom !! i) as [region|] eqn:Hj; [|apply lookup_ge_None in Hj; lia].
      exists row, z, region. split_and!; [done..|]. by apply (x_row vi row dom p v places Hr Hdm Hpl Hvx i).
    - apply lookup_ge_None in Hr. apply lookup_lt_Some in Hdm. lia. }
  split; intros i Hi.
  - destruct (Hrow _ _ _ i Hs Ha Hi) as (row & z & region & Hr & Hz & Hj & E). exists row, z. split_and!; [done..|]. rewrite E.
    transitivity (edge_cost (fun _ s _ => Z.b2z (bool_decide (s = region))) places edge); [|unfold edge_cost; rewrite Ha, Hb; f_equal; apply bool_decide_ext; naive_solver].
    rewrite <- (edge_sum _ v places ei edge ts Hp Hvy He Hts). apply zsum_ext_in. intros t Ht.
    destruct (elem_of_edge_terms _ _ _ _ _ Hts Ht) as (s' & d' & Hs' & Hd' & Hci & _). assert (s' = srcs) as -> by congruence.
    destruct (Nat.eqb_spec (src_ci t) i) as [<-|Hne].
    + rewrite bool_decide_eq_true_2 by congruence. cbn [Z.b2z]. lia.
    + rewrite bool_decide_eq_false_2; [cbn [Z.b2z]; lia|]. intros Er. rewrite Er in Hci. apply Hne. by apply (NoDup_lookup srcs _ _ region (domain_NoDup _ _ Hs)).
  - destruct (Hrow _ _ _ i Hd Hb Hi) as (row & z & region & Hr & Hz & Hj & E). exists row, z. split_and!; [done..|]. rewrite E.
    transitivity (edge_cost (fun _ _ s => Z.b2z (bool_decide (s = region))) places edge); [|unfold edge_cost; rewrite Ha, Hb; f_equal; apply bool_decide_ext; naive_solver].
    rewrite <- (edge_sum _ v places ei edge ts Hp Hvy He Hts). apply zsum_ext_in. intros t Ht.
    destruct (elem_of_edge_terms _ _ _ _ _ Hts Ht) as (s' & d' & Hs' & Hd' & _ & Hci & _). assert (d' = dsts) as -> by congruence.
    destruct (Nat.eqb_spec (dst_ci t) i) as [<-|Hne].
    + rewrite bool_decide_eq_true_2 by congruence. cbn [Z.b2z]. lia.
    + rewrite bool_decide_eq_false_2; [cbn [Z.b2z]; lia|]. intros Er. rewrite Er in Hci. apply Hne. by apply (NoDup_lookup dsts _ _ region (domain_NoDup _ _ Hd)).
Qed.

(** The load of a region is the demand of the placement. *)
Lemma encoded_load v places region r : Forall2 (fun region dom => region ∈ dom) places domains -> x_encodes v places -> y_encodes v places ->
  load v g domains x y region r = demand g places region r.
Proof using All.
  intros Hp Hvx Hvy. unfold load, demand. f_equal.
  - pose proof (Forall2_length _ _ _ Hp) as Hlen.
    apply zsum_lookup_ext; [unfold enumerate; rewrite !length_zip, length_seq; lia|].
    intros i [vi vx] [vx' p] [[Hi _]%lookup_seq Hvi]%lookup_zip_Some [Hvi' Hpi]%lookup_zip_Some. simpl in Hi. subst vi. cbn [fst snd] in *.
    assert (vx' = vx) as -> by congruence. unfold vertex_load. cbn [fst snd].
    destruct (Forall2_lookup_l _ _ _ _ _ Hp Hpi) as (dom & Hd & Hin). rewrite Hd. cbn [mbind option_bind].
    destruct (position region dom) as [ci|] eqn:E.
    + rewrite (Hvx _ dom region p ci Hd (position_lookup _ _ _ E) Hpi). destruct (decide (region = p)) as [->|Hne].
      * rewrite !bool_decide_eq_true_2 by done. cbn [Z.b2z]. lia.
      * rewrite !bool_decide_eq_false_2 by congruence. cbn [Z.b2z]. lia.
    + apply position_None in E. rewrite bool_decide_eq_false_2; [done|]. by intros ->.
  - case_bool_decide; [|done]. rewrite <- (terms_sum (head_cost region) v places Hp Hvy). apply zsum_ext. intros t.
    unfold head_load, head_cost, head_width. by case_bool_decide.
Qed.

Lemma encoded_cut v places c : Forall2 (fun region dom => region ∈ dom) places domains -> y_encodes v places ->
  zsum (cut_load v y c) (all_terms g domains) = zsum (edge_cost (cut_cost c) places) (placement_edges g).
Proof using All.
  intros Hp Hvy. rewrite <- (terms_sum (cut_cost c) v places Hp Hvy). apply zsum_ext. intros t.
  unfold cut_load, cut_cost, crosses_cut. by destruct (_ || _).
Qed.

(** *** Every solution encodes a placement *)

Lemma choices v : (forall z, z ∈ concat x -> 0 <= v z) -> (forall row, row ∈ x -> zsum v row = 1) ->
  exists places, Forall2 (fun region dom => region ∈ dom) places domains /\ x_encodes v places.
Proof using All.
  intros Hnn Hone.
  destruct (choice_list (fun vi p => forall row dom, x !! vi = Some row -> domains !! vi = Some dom ->
    p ∈ dom /\ forall j z region, row !! j = Some z -> dom !! j = Some region -> v z = Z.b2z (bool_decide (region = p))) (length domains)) as (places & Hlen & Hpl).
  { intros vi Hvi. destruct (x !! vi) as [row|] eqn:Hr; [|apply lookup_ge_None in Hr; lia].
    destruct (Hx vi row Hr) as (dom & Hd & Hl). assert (Hin : row ∈ x) by (by eapply list_elem_of_lookup_2).
    destruct (one_hot v row) as (j & Hj & Hk); [|by apply Hone|].
    { intros z Hz. apply Hnn, list_elem_of_In, in_concat. exists row. split; by apply list_elem_of_In. }
    destruct (dom !! j) as [p|] eqn:Hp; [|apply lookup_ge_None in Hp; lia]. exists p. intros row' dom' Hr' Hd'.
    assert (row' = row) as -> by congruence. assert (dom' = dom) as -> by congruence. split; [by eapply list_elem_of_lookup_2|].
    intros k z region Hz Hreg. rewrite (Hk k z Hz). f_equal. apply bool_decide_ext. split; intros; [congruence|].
    subst. by apply (NoDup_lookup dom k j p (domain_NoDup _ _ Hd)). }
  assert (Hrow : forall vi dom, domains !! vi = Some dom -> exists row, x !! vi = Some row /\ length row = length dom).
  { intros vi dom Hd. destruct (x !! vi) as [row|] eqn:Hr; [|apply lookup_ge_None in Hr; apply lookup_lt_Some in Hd; lia].
    destruct (Hx vi row Hr) as (dom' & Hd' & Hl). exists row. split; [done|]. congruence. }
  exists places. split.
  - apply Forall2_same_length_lookup_2; [done|]. intros vi p dom Hp Hd. destruct (Hrow vi dom Hd) as (row & Hr & _). by apply (Hpl vi p Hp row dom).
  - intros vi dom region p j Hd Hj Hp. destruct (Hrow vi dom Hd) as (row & Hr & Hl). unfold xv. rewrite Hr. cbn [mbind option_bind].
    destruct (row !! j) as [z|] eqn:Hz; [|apply lookup_ge_None in Hz; apply lookup_lt_Some in Hj; lia].
    by apply (proj2 (Hpl vi p Hp row dom Hr Hd) j).
Qed.

Lemma term_var_in t z : t ∈ all_terms g domains -> yt_var t y = Ok z -> z ∈ concat (concat y).
Proof using All.
  intros (He & ts & Hts & Ht)%all_terms_edge Hz. destruct (Hy _ _ He) as (ts' & plane & Hts' & Hpl & Hn).
  assert (ts' = ts) as -> by congruence. apply list_elem_of_In, in_concat.
  assert (Hin : z ∈ concat plane).
  { apply list_elem_of_lookup in Ht as [k Hk]. assert (E : map (fun t => yt_var t y) ts !! k = map (@Ok IlpError _) (concat plane) !! k) by (by rewrite Hn).
    rewrite !list_lookup_fmap, Hk in E. cbn in E. rewrite Hz in E. destruct (concat plane !! k) eqn:Ek; [|done]. injection E as ->.
    by eapply list_elem_of_lookup_2. }
  apply list_elem_of_In, in_concat in Hin as (row & Hrow & Hzr). exists row. split; [|done]. apply in_concat. exists plane. split; [|done].
  apply list_elem_of_In. by eapply list_elem_of_lookup_2.
Qed.

(** Conserved flow follows the choices of the ends. *)
Lemma flow_follows v places : (forall z, z ∈ concat (concat y) -> 0 <= v z) ->
  (forall ei edge, placement_edges g !! ei = Some edge -> coupled v domains x y ei edge) ->
  Forall2 (fun region dom => region ∈ dom) places domains -> x_encodes v places -> y_encodes v places.
Proof using All.
  intros Hnn Hc Hp Hvx t Ht. assert (Ht' := Ht). apply all_terms_edge in Ht' as (He & ts & Hts & Hin).
  destruct (elem_of_edge_terms _ _ _ _ _ Hts Hin) as (srcs & dsts & Hs & Hd & Hsi & Hdi & _ & _).
  destruct (edge_ends places _ _ Hp He srcs dsts Hs Hd) as (a & b & ks & kd & Ha & Hb & Hks & Hkd). rewrite Ha, Hb.
  destruct (Hc _ _ He srcs dsts ts Hs Hd Hts) as [Fs Fd].
  assert (Hpos : forall u, u ∈ ts -> 0 <= yv v y u).
  { intros u Hu. unfold yv. destruct (yt_var u y) as [z| |] eqn:Hz; [|lia..]. apply Hnn. apply (term_var_in u); [|done]. by eapply elem_of_all_terms. }
  assert (Hxe : forall vi dom p i row z, domains !! vi = Some dom -> places !! vi = Some p -> x !! vi = Some row -> row !! i = Some z ->
    forall region, dom !! i = Some region -> v z = Z.b2z (bool_decide (region = p))).
  { intros vi dom p i row z Hdm Hpl Hr Hz region Hj. by apply (x_row vi row dom p v places Hr Hdm Hpl Hvx i). }
  assert (Hzero : forall ci i u, flow v y ci i ts = 0 -> u ∈ ts -> ci u = i -> yv v y u = 0).
  { intros ci i u E Hu Eu. pose proof (zsum_nonneg_zero (fun t => if Nat.eqb (ci t) i then yv v y t else 0) ts) as Hz. cbv beta in Hz.
    specialize (Hz ltac:(intros w Hw; destruct (Nat.eqb (ci w) i); [by apply Hpos|lia]) E u Hu). rewrite (proj2 (Nat.eqb_eq _ _) Eu) in Hz. done. }
  assert (Hsrc0 : forall u, u ∈ ts -> yt_src u <> a -> yv v y u = 0).
  { intros u Hu Hne. destruct (elem_of_edge_terms _ _ _ _ _ Hts Hu) as (s' & d' & Hs' & _ & Hui & _). assert (s' = srcs) as -> by congruence.
    destruct (Fs (src_ci u)) as (row & z & Hr & Hz & E); [by eapply lookup_lt_Some|].
    rewrite (Hxe _ _ _ _ _ _ Hs Ha Hr Hz _ Hui), bool_decide_eq_false_2 in E by done. by apply (Hzero src_ci (src_ci u)). }
  assert (Hdst0 : forall u, u ∈ ts -> yt_dst u <> b -> yv v y u = 0).
  { intros u Hu Hne. destruct (elem_of_edge_terms _ _ _ _ _ Hts Hu) as (s' & d' & _ & Hd' & _ & Hui & _). assert (d' = dsts) as -> by congruence.
    destruct (Fd (dst_ci u)) as (row & z & Hr & Hz & E); [by eapply lookup_lt_Some|].
    rewrite (Hxe _ _ _ _ _ _ Hd Hb Hr Hz _ Hui), bool_decide_eq_false_2 in E by done. by apply (Hzero dst_ci (dst_ci u)). }
  destruct (decide (yt_src t = a)) as [Es|Es].
  2: { rewrite (Hsrc0 t Hin Es), (bool_decide_eq_false_2 (Some a = _)) by congruence. done. }
  destruct (decide (yt_dst t = b)) as [Ed|Ed].
  2: { rewrite (Hdst0 t Hin Ed), (bool_decide_eq_false_2 (Some b = _)), andb_false_r by congruence. done. }
  rewrite !bool_decide_eq_true_2 by congruence. cbn [andb Z.b2z].
  destruct (Fs ks) as (row & z & Hr & Hz & E); [by eapply lookup_lt_Some|].
  rewrite (Hxe _ _ _ _ _ _ Hs Ha Hr Hz _ Hks), bool_decide_eq_true_2 in E by done. cbn [Z.b2z] in E. rewrite <- E.
  unfold flow. rewrite (edge_terms_sum _ _ _ _ _ srcs dsts Hts Hs Hd). cbn [src_ci].
  set (u := mkYTerm (yt_ei t) (yt_edge t) ks a kd b).
  assert (Hut : t = u).
  { destruct t as [ei edge si s di d]. unfold u. cbn in *. subst s d. f_equal.
    - by apply (NoDup_lookup srcs _ _ a (domain_NoDup _ _ Hs)).
    - by apply (NoDup_lookup dsts _ _ b (domain_NoDup _ _ Hd)). }
  rewrite (zsum_single _ (enumerate srcs) (ks, a)); [|apply NoDup_enumerate|by apply elem_of_enumerate|].
  - cbn [fst snd]. rewrite (zsum_single _ (enumerate dsts) (kd, b)); [|apply NoDup_enumerate|by apply elem_of_enumerate|].
    + cbn [fst snd]. rewrite Nat.eqb_refl. fold u. by rewrite <- Hut.
    + intros [j d] Hj Hne. cbn [fst snd]. rewrite Nat.eqb_refl. apply Hdst0; [|intros Eb].
      * eapply edge_terms_mk; [exact Hts|exact Hs|exact Hd|exact Hks|by apply elem_of_enumerate in Hj].
      * cbn in Eb. subst d. apply Hne. f_equal. apply elem_of_enumerate in Hj. by apply (NoDup_lookup dsts _ _ b (domain_NoDup _ _ Hd)).
  - intros [i s] Hi Hne. apply zsum_zero. intros [j d] _. cbn [fst snd]. destruct (Nat.eqb_spec i ks) as [->|]; [|done].
    exfalso. apply Hne. f_equal. apply elem_of_enumerate in Hi. congruence.
Qed.

(** *** Every placement is encoded *)

Lemma all_terms_named : map (fun t => yt_var t y) (all_terms g domains) = map Ok (concat (concat y)).
Proof using All.
  rewrite concat_concat. unfold all_terms. rewrite !map_flat_map. apply flat_map_lookup_ext.
  { unfold enumerate. rewrite length_zip, length_seq. lia. }
  intros i [ei edge] plane [[Hi _]%lookup_seq He]%lookup_zip_Some Hpl. simpl in Hi. subst ei. cbn [fst snd].
  destruct (Hy _ _ He) as (ts & plane' & -> & Hpl' & Hn). assert (plane' = plane) as -> by (apply (inj Some); exact (eq_trans (eq_sym Hpl') Hpl)). done.
Qed.

Definition choice_values (places : list Coor) : list Z :=
  concat (zip_with (fun dom p => map (fun region => Z.b2z (bool_decide (region = p))) dom) domains places).

Definition term_value (places : list Coor) (t : YTerm) : Z :=
  Z.b2z (bool_decide (places !! e_src (yt_edge t) = Some (yt_src t)) && bool_decide (places !! e_dst (yt_edge t) = Some (yt_dst t))).

Lemma binary_values places z : 0 <= valued (choice_values places ++ map (term_value places) (all_terms g domains)) z <= 1.
Proof using All.
  unfold valued. destruct (_ !! Z.to_nat z) as [u|] eqn:E; simpl; [|lia]. apply list_elem_of_lookup_2, elem_of_app in E as [E|E].
  - unfold choice_values in E. apply list_elem_of_In, in_concat in E as (l & Hl & Hu). apply list_elem_of_In, list_elem_of_lookup in Hl as [i Hi].
    apply lookup_zip_with_Some in Hi as (dom & p & -> & _). apply in_map_iff in Hu as (r & <- & _). destruct (bool_decide _); simpl; lia.
  - apply list_elem_of_In, in_map_iff in E as (t & <- & _). unfold term_value. destruct (_ && _); simpl; lia.
Qed.

Lemma valuation n1 n2 places : concat x = zrange 0 n1 -> concat (concat y) = zrange n1 n2 -> 0 <= n1 <= n2 ->
  Forall2 (fun region dom => region ∈ dom) places domains ->
  let v := valued (choice_values places ++ map (term_value places) (all_terms g domains)) in
  x_encodes v places /\ y_encodes v places.
Proof using All.
  intros Hx0 Hy0 Hn Hp v. pose proof (Forall2_length _ _ _ Hp) as Hlen.
  set (onehots := zip_with (fun dom p => map (fun region => Z.b2z (bool_decide (region = p))) dom) domains places).
  assert (Hshape : Forall2 (fun a b => length a = length b) x onehots).
  { apply Forall2_same_length_lookup_2; [unfold onehots; rewrite length_zip_with; lia|]. intros vi row l Hr Hl.
    apply lookup_zip_with_Some in Hl as (dom & p & -> & Hd & _). destruct (Hx vi row Hr) as (dom' & Hd' & Hl'). rewrite length_map. congruence. }
  pose proof (f_equal length all_terms_named) as Hlt. rewrite !length_map in Hlt.
  pose proof (concat_length _ _ Hshape) as Hlx.
  assert (Hall : map v (concat x ++ concat (concat y)) = choice_values places ++ map (term_value places) (all_terms g domains)).
  { rewrite Hx0, Hy0, zrange_app by lia. apply map_valued; [|lia]. rewrite length_app, length_map, Hlt. unfold choice_values. fold onehots.
    rewrite <- Hlx, Hx0, Hy0. unfold zrange. rewrite !length_map, !length_seq. lia. }
  rewrite map_app in Hall. apply app_inj_1 in Hall as [Ex Ey]; [|rewrite length_map; exact Hlx]. split.
  - apply (concat_rows v x onehots) in Ex; [|done]. intros vi dom region p j Hd Hj Hpl.
    assert (Ho : onehots !! vi = Some (map (fun region => Z.b2z (bool_decide (region = p))) dom)) by (apply lookup_zip_with_Some; eauto).
    destruct (Forall2_lookup_r _ _ _ _ _ Ex Ho) as (row & Hr & E). unfold xv. rewrite Hr. cbn [mbind option_bind].
    assert (El : map v row !! j = Some (Z.b2z (bool_decide (region = p)))) by (rewrite E, list_lookup_fmap, Hj; done).
    rewrite list_lookup_fmap in El. destruct (row !! j) as [z|]; [|done]. by injection El.
  - intros t [k Hk]%list_elem_of_lookup. assert (En : map (fun t => yt_var t y) (all_terms g domains) !! k = map Ok (concat (concat y)) !! k) by (by rewrite all_terms_named).
    assert (Ev : map v (concat (concat y)) !! k = map (term_value places) (all_terms g domains) !! k) by (by rewrite Ey).
    rewrite !list_lookup_fmap, Hk in En. rewrite (list_lookup_fmap v), (list_lookup_fmap (term_value places)), Hk in Ev. destruct (concat (concat y) !! k) as [z|]; [|done]. injection En as En. injection Ev as Ev.
    unfold yv. rewrite En. exact Ev.
Qed.
End encode.

(** ** The whole program *)

Lemma add_objective_ok g d domains y m m' : add_objective g d domains y m = Ok m' -> adds m m' (fun _ => True).
Proof.
  unfold add_objective. intros H. apply rbind_ok in H as (cs & _ & H). apply rbind_ok in H as (ts & _ & H).
  apply rbind_ok in H as (terms & _ & [= <-]). split; [done|]. intros v. unfold rows_hold. cbn [set_objective constraints]. tauto.
Qed.

Lemma coupling_ends g domains x y m m' : add_coupling g domains x y m = Ok m' ->
  forall ei edge, placement_edges g !! ei = Some edge ->
  exists srcs dsts, domains !! e_src edge = Some srcs /\ domains !! e_dst edge = Some dsts.
Proof.
  intros H ei edge He. unfold add_coupling in H.
  refine (try_fold_ind (fun done _ => forall e, e ∈ done -> exists srcs dsts, domains !! e_src e.2 = Some srcs /\ domains !! e_dst e.2 = Some dsts)
    _ _ _ _ _ _ H (ei, edge) _).
  - by intros ? ?%not_elem_of_nil.
  - intros l1 [i e] l2 m1 m2 _ IH Hs e' [He'| ->%list_elem_of_singleton]%elem_of_app; [by apply IH|].
    apply rbind_ok in Hs as (srcs & Hsrcs%expect_ok & Hs). apply rbind_ok in Hs as (dsts & Hdsts%expect_ok & _). by exists srcs, dsts.
  - by apply elem_of_enumerate.
Qed.

(** The handles a program allocates, and what its rows say. *)
Record program_of (g : FloorGraph) (d : Device) (domains : list (list Coor)) (areas : RegionAreas) (cuts : list Cut)
    (limit : f64) (limits : RegionResourceLimits) (fm : FloorplanModel) (y : YPlanes) (n : Z) : Prop := {
  po_x : concat (fm_x fm) = zrange 0 n;
  po_y : concat (concat y) = zrange n (fresh (fm_lp fm));
  po_n : 0 <= n <= fresh (fm_lp fm);
  po_binary : binary_program (fm_lp fm);
  po_len : length (fm_x fm) = length (vertices g);
  po_row : forall vi row, fm_x fm !! vi = Some row -> exists dom, domains !! vi = Some dom /\ length row = length dom;
  po_planes : length y = length (placement_edges g);
  po_named : forall ei edge, placement_edges g !! ei = Some edge -> edge_named y domains ei edge;
  po_ends : forall ei edge, placement_edges g !! ei = Some edge -> exists srcs dsts, domains !! e_src edge = Some srcs /\ domains !! e_dst edge = Some dsts;
  po_rows : forall v, rows_hold v (fm_lp fm) <->
    (forall row, row ∈ fm_x fm -> zsum v row = 1) /\ (forall plane, plane ∈ y -> zsum v (concat plane) = 1) /\
    (forall ei edge, placement_edges g !! ei = Some edge -> coupled v domains (fm_x fm) y ei edge) /\
    (forall region, region ∈ concat domains -> exists total, BMap.get region areas = Some total /\
       forall r, plans_resource d r = true -> load v g domains (fm_x fm) y region r <= scaled_amount (amount r total) (limit_for limits region r limit)) /\
    (forall c, c ∈ cuts -> zsum (cut_load v y c) (all_terms g domains) <= Cut.capacity c);
}.

Lemma build_ok g d domains areas cuts limit limits fm :
  fraction limit -> limits_typed limits -> amounts_exact g areas -> widths_exact g -> Forall (fun c => exact (Cut.capacity c)) cuts ->
  build g d domains areas cuts limit limits = Ok fm -> exists y n, program_of g d domains areas cuts limit limits fm y n.
Proof.
  intros Hl Hls Ha Hw Hc H. unfold build in H. apply rbind_ok in H as ([x m1] & H1 & H). apply rbind_ok in H as ([y m2] & H2 & H).
  apply rbind_ok in H as (m3 & H3 & H). apply rbind_ok in H as (m4 & H4 & H). apply rbind_ok in H as (m5 & H5 & H).
  apply rbind_ok in H as (m6 & H6 & [= <-]). pose proof (coupling_ends _ _ _ _ _ _ H3) as Hends.
  apply add_assignment_vars_ok in H1 as ((Ex & F1 & B1) & Lx & Rx & S1). apply add_edge_vars_ok in H2 as ((Ey & F2 & B2) & Ny & Ly & S2).
  apply add_coupling_ok in H3 as [V3 S3]. apply resources_ok in H4 as [V4 S4]; [|done..]. apply cuts_ok in H5 as [V5 S5]; [|done..].
  apply add_objective_ok in H6 as [V6 S6]. assert (Ev : vars m6 = vars m2) by congruence.
  assert (Ef : fresh m6 = fresh m2) by (unfold fresh; by rewrite Ev).
  exists y, (fresh m1). split; cbn [fm_lp fm_x]; rewrite ?Ef; try done.
  - unfold binary_program. rewrite Ev. apply B2, B1. constructor.
  - intros v. rewrite S6, S5, S4, S3, S2, S1.
    assert (E0 : rows_hold v model_new) by constructor. tauto.
Qed.

(** The solution file of an integral valuation. *)
Definition reports (s : LpSolution) (v : LpVar -> Z) (m : LpModel) : Prop :=
  forall z, 0 <= z < fresh m -> values s !! z = Some (F64.of_Z (v z)).

(** A row that encodes a choice is read as that choice. *)
Lemma read_row s (v : LpVar -> Z) row j : (j < length row)%nat ->
  (forall z, z ∈ row -> values s !! z = Some (F64.of_Z (v z))) ->
  (forall k z, row !! k = Some z -> v z = Z.b2z (bool_decide (k = j))) -> read_one_of_k s row = Ok j.
Proof.
  intros Hj Hs Hv. apply read_one_of_k_complete.
  - intros z [k Hk]%list_elem_of_lookup. exists (F64.of_Z (v z)). unfold choice_value.
    rewrite (Hv k z Hk). split_and!; [rewrite <- (Hv k z Hk); apply Hs; by eapply list_elem_of_lookup_2|by destruct (bool_decide _)|].
    destruct (bool_decide _); [right|left]; vm_compute; reflexivity.
  - intros i. unfold selects. split.
    + intros (z & w & Hz & Hw & Hn). rewrite Hs in Hw by (by eapply list_elem_of_lookup_2). injection Hw as <-.
      rewrite (Hv i z Hz) in Hn. case_bool_decide; [done|]. vm_compute in Hn. done.
    + intros ->. destruct (row !! j) as [z|] eqn:Hz; [|apply lookup_ge_None in Hz; lia]. exists z, (F64.of_Z (v z)).
      split_and!; [done|apply Hs; by eapply list_elem_of_lookup_2|]. rewrite (Hv j z Hz), bool_decide_eq_true_2 by done. vm_compute. reflexivity.
Qed.

Section program.
Context (g : FloorGraph) (d : Device) (domains : list (list Coor)) (areas : RegionAreas) (cuts : list Cut)
  (limit : f64) (limits : RegionResourceLimits) (fm : FloorplanModel) (y : YPlanes) (n : Z).
Context (Hpo : program_of g d domains areas cuts limit limits fm y n).
Context (Hdl : length domains = length (vertices g)) (Hnd : Forall NoDup domains).
Context (Hareas : forall region, region ∈ concat domains -> exists total, BMap.get region areas = Some total).

Lemma encoding_reads v places s : Forall2 (fun region dom => region ∈ dom) places domains -> x_encodes domains (fm_x fm) v places ->
  reports s v (fm_lp fm) -> read_back fm g domains s = Ok places.
Proof using All.
  intros Hp Hv Hs. unfold read_back. pose proof (Forall2_length _ _ _ Hp) as Hlen.
  enough (Hgen : forall l1 l2 acc, enumerate (vertices g) = l1 ++ l2 -> acc = take (length l1) places ->
    try_fold (fun assignments e =>
      let '(vi, v) := e in
      let! xs := expect (fm_x fm !! vi) in
      let! selected := match read_one_of_k s xs with Ok k => Ok k | Err err => choice_failed v xs err | Panic => Panic end in
      let! domain := expect (domains !! vi) in
      let! region := expect (domain !! selected) in
      Ok (assignments ++ [region])) acc l2 = Ok places).
  { by apply (Hgen [] (enumerate (vertices g))). }
  intros l1 l2. revert l1. induction l2 as [|[vi vx] l2 IH]; intros l1 acc He ->.
  - cbn [try_fold]. f_equal. apply take_ge. apply (f_equal length) in He. unfold enumerate in He.
    rewrite length_zip, length_seq, app_nil_r in He. lia.
  - assert (Hl : enumerate (vertices g) !! length l1 = Some (vi, vx)) by (rewrite He; by apply list_lookup_middle).
    apply lookup_zip_Some in Hl as [[Hvi Hlt]%lookup_seq Hvx]. simpl in Hvi. subst vi.
    destruct (places !! length l1) as [p|] eqn:Hpl; [|apply lookup_ge_None in Hpl; lia].
    destruct (Forall2_lookup_l _ _ _ _ _ Hp Hpl) as (dom & Hd & Hin). apply list_elem_of_lookup in Hin as [j Hj].
    destruct (fm_x fm !! length l1) as [row|] eqn:Hr; [|apply lookup_ge_None in Hr; rewrite (po_len _ _ _ _ _ _ _ _ _ _ Hpo) in Hr; lia].
    destruct (po_row _ _ _ _ _ _ _ _ _ _ Hpo _ _ Hr) as (dom' & Hd' & Hlr). assert (dom' = dom) as -> by congruence.
    assert (Hread : read_one_of_k s row = Ok j).
    { apply (read_row s v); [apply lookup_lt_Some in Hj; lia| |].
      - intros z Hz. apply Hs. assert (Hzx : z ∈ concat (fm_x fm)).
        { apply list_elem_of_In, in_concat. exists row. split; [apply list_elem_of_In; by eapply list_elem_of_lookup_2|by apply list_elem_of_In]. }
        rewrite (po_x _ _ _ _ _ _ _ _ _ _ Hpo) in Hzx. apply elem_of_zrange in Hzx. pose proof (po_n _ _ _ _ _ _ _ _ _ _ Hpo). lia.
      - intros k z Hz. destruct (dom !! k) as [region|] eqn:Hk; [|apply lookup_ge_None in Hk; apply lookup_lt_Some in Hz; lia].
        rewrite (x_row domains (fm_x fm) _ _ _ _ v places Hr Hd Hpl Hv k z region Hz Hk). f_equal. apply bool_decide_ext. split; intros E.
        + subst. rewrite Forall_forall in Hnd. apply (NoDup_lookup dom k j p); [apply Hnd; by eapply list_elem_of_lookup_2|done..].
        + congruence. }
    cbn [try_fold]. rewrite Hr. cbn [expect rbind]. rewrite Hread. cbn [rbind]. rewrite Hd. cbn [expect rbind]. rewrite Hj. cbn [expect rbind].
    apply (IH (l1 ++ [(length l1, vx)])); [by rewrite <- app_assoc|]. rewrite length_app. cbn [length]. rewrite Nat.add_1_r. symmetry.
    by apply take_S_r.
Qed.

(** Binary variables take two values. *)
Lemma solves_binary v z : solves v (fm_lp fm) -> 0 <= z < fresh (fm_lp fm) -> 0 <= v z <= 1.
Proof using All.
  intros [Hv _] Hz. unfold fresh in Hz. destruct (vars (fm_lp fm) !! Z.to_nat z) as [vd|] eqn:E; [|apply lookup_ge_None in E; lia].
  specialize (Hv _ _ E). pose proof (po_binary _ _ _ _ _ _ _ _ _ _ Hpo) as Hb. unfold binary_program in Hb. rewrite Forall_forall in Hb.
  destruct (Hb vd ltac:(by eapply list_elem_of_lookup_2)) as (_ & El & Eu). unfold var_ok in Hv. rewrite El, Eu, (proj2 one_spec) in Hv.
  change (units F64.zero) with 0 in Hv. rewrite Z2Nat.id in Hv by lia. pose proof UNIT_pos. nia.
Qed.

Lemma solution_places v : solves v (fm_lp fm) ->
  exists places, legal_placement g d domains areas cuts limit limits places /\ x_encodes domains (fm_x fm) v places.
Proof using All.
  intros Hv. pose proof (po_rows _ _ _ _ _ _ _ _ _ _ Hpo v) as Hrows. destruct Hpo as [Px Py Pn Pb Pl Pr Pp Pm Pe _].
  apply proj2 in Hv as Hr. apply Hrows in Hr as (R1 & R2 & R3 & R4 & R5).
  assert (Hb : forall z, 0 <= z < fresh (fm_lp fm) -> 0 <= v z) by (intros z Hz; by apply (solves_binary v z Hv)).
  destruct (choices g domains (fm_x fm) y Pr Pl Hdl Hnd Pm Pp Pe v) as (places & Hp & Hxe); [|done|].
  { intros z Hz. rewrite Px in Hz. apply elem_of_zrange in Hz. apply Hb. lia. }
  assert (Hye : y_encodes g domains y v places).
  { apply (flow_follows g domains (fm_x fm) y Pr Pl Hdl Hnd Pm Pp Pe v places); [|done..].
    intros z Hz. rewrite Py in Hz. apply elem_of_zrange in Hz. apply Hb. lia. }
  exists places. split; [|done]. split; [done| |].
  - intros region total r Hreg Htot Hpr. rewrite <- (encoded_load g domains (fm_x fm) y Pr Pl Hdl Hnd Pm Pp Pe v places) by done.
    destruct (R4 region Hreg) as (total' & Htot' & Hle). assert (total' = total) as -> by congruence. by apply Hle.
  - intros c Hc. rewrite <- (encoded_cut g domains (fm_x fm) y Pr Pl Hdl Hnd Pm Pp Pe v places) by done. by apply R5.
Qed.

Lemma places_solution places : legal_placement g d domains areas cuts limit limits places ->
  exists v, solves v (fm_lp fm) /\ x_encodes domains (fm_x fm) v places.
Proof using All.
  intros [Hp Hres Hcut]. pose proof (po_rows _ _ _ _ _ _ _ _ _ _ Hpo) as Hrows. pose proof Hpo as [Px Py Pn Pb Pl Pr Pp Pm Pe _].
  set (v := valued (choice_values domains places ++ map (term_value places) (all_terms g domains))).
  destruct (valuation g domains (fm_x fm) y Pr Pl Hdl Hnd Pm Pp Pe n _ places Px Py Pn Hp) as [Hxe Hye]. fold v in Hxe, Hye.
  exists v. split; [|done]. split.
  - intros i vd Hi. unfold binary_program in Pb. rewrite Forall_forall in Pb. destruct (Pb vd ltac:(by eapply list_elem_of_lookup_2)) as (_ & El & Eu).
    unfold var_ok. rewrite El, Eu, (proj2 one_spec). change (units F64.zero) with 0.
    pose proof (binary_values g domains (fm_x fm) y Pr Pl Hdl Hnd Pm Pp Pe places (Z.of_nat i)) as Hb. fold v in Hb. pose proof UNIT_pos. nia.
  - apply Hrows. split_and!.
    + intros row Hr. by apply (encoded_row g domains (fm_x fm) y Pr Pl Hdl Hnd Pm Pp Pe v places).
    + intros plane [ei Hpl]%list_elem_of_lookup. destruct (placement_edges g !! ei) as [edge|] eqn:He.
      2: { apply lookup_ge_None in He. apply lookup_lt_Some in Hpl. lia. }
      by apply (encoded_plane g domains (fm_x fm) y Pr Pl Hdl Hnd Pm Pp Pe v places ei edge).
    + intros ei edge He. by apply (encoded_coupled g domains (fm_x fm) y Pr Pl Hdl Hnd Pm Pp Pe v places).
    + intros region Hreg. destruct (Hareas region Hreg) as [total Htot]. exists total. split; [done|]. intros r Hr.
      rewrite (encoded_load g domains (fm_x fm) y Pr Pl Hdl Hnd Pm Pp Pe v places) by done. by apply Hres.
    + intros c Hc. rewrite (encoded_cut g domains (fm_x fm) y Pr Pl Hdl Hnd Pm Pp Pe v places) by done. by apply Hcut.
Qed.
End program.

Lemma domains_facts g d regions areas limit parents limits domains :
  candidate_domains g d regions areas limit parents limits = Ok domains ->
  length domains = length (vertices g) /\ Forall NoDup domains /\
  forall region, region ∈ concat domains -> exists total, BMap.get region areas = Some total.
Proof.
  intros H%candidate_domains_ok. pose proof (Forall2_length _ _ _ H) as Hlen. unfold enumerate in Hlen. rewrite length_zip, length_seq in Hlen.
  assert (Hd : forall dom, dom ∈ domains -> exists vi v, domain_ok d regions areas limit parents limits vi v dom).
  { intros dom [vi Hv]%list_elem_of_lookup. destruct (Forall2_lookup_r _ _ _ _ _ H Hv) as ([i v] & _ & Hok). by exists i, v. }
  split_and!; [lia| |].
  - apply Forall_forall. intros dom (vi & v & _ & Hs & _)%Hd. by apply klt_sorted_NoDup.
  - intros region (dom & Hdom & Hin)%list_elem_of_In%in_concat. apply list_elem_of_In, Hd in Hdom as (vi & v & _ & _ & Hiff).
    apply list_elem_of_In, Hiff in Hin as (_ & [_ _ (total & Ht & _)]). by exists total.
Qed.

(** C6: the placement program is exact. For candidates, capacities and widths
    the graph builder and the candidate filter produce, the integral solutions
    of the program are the legal placements: every solution, whatever the
    solver, reads back as a placement that keeps each vertex in its candidates,
    each region within its derated capacity, Head registers of crossings
    included, and each cut within its wires; and every such placement is the
    readback of some solution, so the program excludes none. *)
Theorem placement_program_exact g d regions parents areas cuts limit limits domains fm :
  candidate_domains g d regions areas limit parents limits = Ok domains ->
  fraction limit -> limits_typed limits -> amounts_exact g areas -> widths_exact g -> Forall (fun c => exact (Cut.capacity c)) cuts ->
  build g d domains areas cuts limit limits = Ok fm ->
  (forall v, solves v (fm_lp fm) -> exists places, legal_placement g d domains areas cuts limit limits places /\
     forall s, reports s v (fm_lp fm) -> read_back fm g domains s = Ok places) /\
  (forall places, legal_placement g d domains areas cuts limit limits places -> exists v, solves v (fm_lp fm) /\
     forall s, reports s v (fm_lp fm) -> read_back fm g domains s = Ok places).
Proof.
  intros (Hlen & Hnd & Har)%domains_facts Hl Hls Ha Hw Hc H.
  destruct (build_ok _ _ _ _ _ _ _ _ Hl Hls Ha Hw Hc H) as (y & n & Hpo). split.
  - intros v Hv. destruct (solution_places _ _ _ _ _ _ _ _ _ _ Hpo Hlen Hnd Har v Hv) as (places & Hp & Hx).
    exists places. split; [done|]. intros s. apply (encoding_reads _ _ _ _ _ _ _ _ _ _ Hpo Hlen Hnd Har v places s (lp_domains _ _ _ _ _ _ _ _ Hp) Hx).
  - intros places Hp. destruct (places_solution _ _ _ _ _ _ _ _ _ _ Hpo Hlen Hnd Har places Hp) as (v & Hv & Hx).
    exists v. split; [done|]. intros s. apply (encoding_reads _ _ _ _ _ _ _ _ _ _ Hpo Hlen Hnd Har v places s (lp_domains _ _ _ _ _ _ _ _ Hp) Hx).
Qed.

(** ** Witness *)

Module ProgramExample.
Definition d := Device.Example.device.
Definition cuts : list Cut := find_cuts_for_regions d (atomic_regions d).
Definition fm : FloorplanModel :=
  match build example_graph d PlacementExample.domains PlacementExample.areas cuts DEFAULT_USAGE_LIMIT BMap.empty with
  | Ok fm => fm | _ => mkFloorplanModel model_new [] end.
(** The two tasks in different slots; one slot cannot hold them. *)
Definition places : list Coor := map (fun x => Coor.slot x 0) [0; 1; 0; 1; 0].
Definition exactb (z : Z) : bool := (0 <=? z) && (z <=? 9007199254740992).
Definition legalb : bool :=
  bool_decide (Forall2 (fun region dom => region ∈ dom) places PlacementExample.domains)
  && forallb (fun region => match BMap.get region PlacementExample.areas with
       | Some total => forallb (fun r => demand example_graph places region r <=? scaled_amount (amount r total) DEFAULT_USAGE_LIMIT) resource_all
       | None => true end) (concat PlacementExample.domains)
  && forallb (fun c => zsum (edge_cost (cut_cost c) places) (placement_edges example_graph) <=? Cut.capacity c) cuts.
End ProgramExample.

Lemma exactb_exact z : ProgramExample.exactb z = true -> exact z.
Proof. unfold ProgramExample.exactb, exact. intros H. bool_hyps. change (2 ^ 53) with 9007199254740992. lia. Qed.

Lemma example_exact :
  amounts_exact example_graph PlacementExample.areas /\ widths_exact example_graph /\
  Forall (fun c => exact (Cut.capacity c)) ProgramExample.cuts.
Proof.
  assert (Hv : forallb (fun v => forallb (fun r => ProgramExample.exactb (amount r (v_area v))) resource_all) (vertices example_graph) = true)
    by (vm_compute; reflexivity).
  assert (Ha : forallb (fun e => forallb (fun r => ProgramExample.exactb (amount r e.2)) resource_all) PlacementExample.areas = true)
    by (vm_compute; reflexivity).
  assert (Hw : forallb (fun e => ProgramExample.exactb (e_width e) && ProgramExample.exactb (forward_width e) && ProgramExample.exactb (reverse_width e))
    (placement_edges example_graph) = true) by (vm_compute; reflexivity).
  assert (Hc : forallb (fun c => ProgramExample.exactb (Cut.capacity c)) ProgramExample.cuts = true) by (vm_compute; reflexivity).
  rewrite forallb_forall in Hv, Ha, Hw, Hc. split_and!; [split| |].
  - intros vx r Hin%list_elem_of_In%Hv. rewrite forallb_forall in Hin. by apply exactb_exact, Hin, resource_all_complete.
  - intros region total r Hin%BMap.get_In%Ha. rewrite forallb_forall in Hin. by apply exactb_exact, (Hin r), resource_all_complete.
  - intros e Hin%list_elem_of_In%Hw. rewrite !andb_true_iff in Hin. destruct Hin as [[? ?] ?]. split_and!; by apply exactb_exact.
  - apply Forall_forall. intros c Hin%list_elem_of_In%Hc. by apply exactb_exact.
Qed.

Lemma example_legal :
  legal_placement example_graph ProgramExample.d PlacementExample.domains PlacementExample.areas ProgramExample.cuts
    DEFAULT_USAGE_LIMIT BMap.empty ProgramExample.places.
Proof.
  assert (H : ProgramExample.legalb = true) by (vm_compute; reflexivity). unfold ProgramExample.legalb in H.
  rewrite !andb_true_iff, !forallb_forall in H. destruct H as [[Hd%bool_decide_eq_true_1 Hr] Hc]. split; [done| |].
  - intros region total r Hin%list_elem_of_In%Hr Htot _. rewrite Htot, forallb_forall in Hin. apply Z.leb_le, Hin, resource_all_complete.
  - intros c Hin%list_elem_of_In%Hc. by apply Z.leb_le.
Qed.

Lemma placement_program_exact_witness :
  exists v, solves v (fm_lp ProgramExample.fm) /\
    forall s, reports s v (fm_lp ProgramExample.fm) -> read_back ProgramExample.fm example_graph PlacementExample.domains s = Ok ProgramExample.places.
Proof.
  destruct example_exact as (Ha & Hw & Hc).
  refine (proj2 (placement_program_exact example_graph ProgramExample.d _ _ PlacementExample.areas ProgramExample.cuts DEFAULT_USAGE_LIMIT BMap.empty
    PlacementExample.domains ProgramExample.fm example_domains (fraction_of DEFAULT_USAGE_LIMIT eq_refl eq_refl) _ Ha Hw Hc _) _ example_legal).
  - intros region r l Hl. unfold lookup_limit in Hl. done.
  - vm_compute. reflexivity.
Defined.
