(* ===== verification/RouteIlp.v ===== *)
(** * The routing program

    [tapa-floorplan/src/route/ilp.rs]: one path per cross-slot net, chosen by a
    solver among enumerated candidates without exceeding the wires of any
    boundary.  The solver is an argument; what comes back from it is read and
    recounted, so the result does not depend on trusting it. *)

From S2P Require Import Prelude RustStd BTreeMap Geometry Paths F64 Device Lp.

Definition MAX_DETOUR : Z := 2.

Record RouteNet := mkRouteNet { rn_src : Cell; rn_dst : Cell; rn_width : Z }.

Inductive RouteError :=
| RSolver (e : SolverError)
| RInfeasible (m : string)
| NoIncumbent (s : LpStatus)
| InvalidEndpoint (net_index : nat) (endpoint : string) (cell_x cell_y : Z)
| InvalidPath (net_index : nat) (reason : string)
| RInvalidSolution (m : string).

Record Boundary := mkBoundary { bd_a : Cell; bd_b : Cell; capacity : option Z }.

(** [slice.windows(2)]. *)
Definition windows {A} (l : list A) : list (A * A) := zip l (tail l).

Definition cell_debug (c : Cell) : string := "(" +:+ Str.show c.1 +:+ ", " +:+ Str.show c.2 +:+ ")".

(** The right and the upper boundary of one slot. *)
Definition boundaries_at (d : Device) (x y : Z) : list Boundary :=
  match slot d x y with
  | None => []
  | Some s =>
      (if wrap32 (x + 1) <? cols d then
         match slot d (wrap32 (x + 1)) y with
         | Some rt => [mkBoundary (x, y) (wrap32 (x + 1), y)
                            (bounded_border_capacity (east (wire_cap s)) (west (wire_cap rt)))]
         | None => []
         end
       else []) ++
      (if wrap32 (y + 1) <? rows d then
         match slot d x (wrap32 (y + 1)) with
         | Some up => [mkBoundary (x, y) (x, wrap32 (y + 1))
                         (bounded_border_capacity (north (wire_cap s)) (south (wire_cap up)))]
         | None => []
         end
       else [])
  end.

Definition boundaries (d : Device) : list Boundary :=
  flat_map (fun y => flat_map (fun x => boundaries_at d x y) (zrange 0 (cols d))) (zrange 0 (rows d)).

Definition path_crosses (path : list Cell) (b : Boundary) : bool :=
  existsb (fun hop => (bool_decide (hop.1 = bd_a b) && bool_decide (hop.2 = bd_b b))
                      || (bool_decide (hop.1 = bd_b b) && bool_decide (hop.2 = bd_a b))) (windows path).

Definition is_slot (d : Device) (c : Cell) : bool := match slot d c.1 c.2 with Some _ => true | None => false end.

Definition hop_distance (hop : Cell * Cell) : Z := wrap32 (abs_diff hop.1.1 hop.2.1 + abs_diff hop.1.2 hop.2.2).

Definition validate_path (net_index : nat) (net : RouteNet) (path : list Cell) (d : Device) : res RouteError unit :=
  let bad reason := Err (InvalidPath net_index reason) in
  if negb (bool_decide (head path = Some (rn_src net))) then bad ("path must start at " +:+ cell_debug (rn_src net)) else
  if negb (bool_decide (last path = Some (rn_dst net))) then bad ("path must end at " +:+ cell_debug (rn_dst net)) else
  match find_first (fun c => negb (is_slot d c)) path with
  | Some c => bad ("slot " +:+ cell_debug c +:+ " is outside the device")
  | None =>
      if negb (Nat.eqb (size (list_to_set path : gset Cell)) (length path)) then bad "path revisits a slot" else
      match find_first (fun hop => negb (hop_distance hop =? 1)) (windows path) with
      | Some (from, to) => bad ("non-adjacent hop " +:+ cell_debug from +:+ " -> " +:+ cell_debug to)
      | None => Ok tt
      end
  end.

Definition validate_nets (nets : list RouteNet) (d : Device) : res RouteError unit :=
  try_each (fun e : nat * RouteNet =>
    try_each (fun p : string * Cell =>
      if is_slot d p.2 then Ok tt else Err (InvalidEndpoint e.1 p.1 p.2.1 p.2.2))
      [("source", rn_src e.2); ("destination", rn_dst e.2)]) (enumerate nets).

(** ** Candidates *)

Record Candidates := mkCandidates { sets : list (list (list Cell)); of_net : list nat }.

(** [Candidates::paths]; both indexings panic out of range. *)
Definition paths_of {E} (c : Candidates) (net_index : nat) : res E (list (list Cell)) :=
  let! s := expect (of_net c !! net_index) in expect (sets c !! s).

(** [Candidates::iter], in net order. *)
Fixpoint collect_sets {E} (all : list (list (list Cell))) (idx : list nat) : res E (list (list (list Cell))) :=
  match idx with
  | [] => Ok []
  | s :: idx' => let! ps := expect (all !! s) in let! rest := collect_sets all idx' in Ok (ps :: rest)
  end.
Definition iter_candidates {E} (c : Candidates) : res E (list (list (list Cell))) := collect_sets (sets c) (of_net c).

Definition add_candidate (d : Device) (acc : Candidates * bmap (Cell * Cell) nat) (e : nat * RouteNet) :
    res RouteError (Candidates * bmap (Cell * Cell) nat) :=
  let '(c, of_pair) := acc in
  let '(net_index, net) := e in
  match BMap.get (rn_src net, rn_dst net) of_pair with
  | Some s => Ok (mkCandidates (sets c) (of_net c ++ [s]), of_pair)
  | None =>
      let! paths := map_err (fun _ => RInfeasible "") (enumerate_paths (rn_src net) (rn_dst net) (cols d) (rows d) MAX_DETOUR) in
      match paths with
      | [] => Err (RInfeasible ("net " +:+ Str.show (Z.of_nat net_index) +:+ " has no path from " +:+ cell_debug (rn_src net)
                     +:+ " to " +:+ cell_debug (rn_dst net) +:+ " within " +:+ Str.show MAX_DETOUR +:+ " extra hops"))
      | _ =>
          let! _ := try_each (fun path => validate_path net_index net path d) paths in
          let s := length (sets c) in
          Ok (mkCandidates (sets c ++ [paths]) (of_net c ++ [s]), BMap.insert (rn_src net, rn_dst net) s of_pair)
      end
  end.

Definition candidates_for (nets : list RouteNet) (d : Device) : res RouteError Candidates :=
  let! (c, _) := try_fold (add_candidate d) (mkCandidates [] [], BMap.empty) (enumerate nets) in Ok c.

(** ** The model *)

(** The Body registers a path leaves in each slot, and what each slot can spend. *)
Record RegisterBudget := mkBudget { bodies : list Cell -> list Cell; available : bmap Cell Z }.

Definition count_cell (l : list Cell) (c : Cell) : Z := Z.of_nat (length (List.filter (fun x => bool_decide (x = c)) l)).

(** The terms of a row that runs over the candidates of every net; each
    candidate has the variable of its position. *)
Definition net_terms (f : RouteNet -> list Cell -> option f64) (nets : list RouteNet)
    (cands : list (list (list Cell))) (path_vars : list (list LpVar)) : list (f64 * LpVar) :=
  flat_map (fun e : RouteNet * (list (list Cell) * list LpVar) =>
    flat_map (fun pv : list Cell * LpVar =>
      match f e.1 pv.1 with Some c => [(c, pv.2)] | None => [] end) (zip e.2.1 e.2.2))
    (zip nets (zip cands path_vars)).

Definition register_terms (budget : RegisterBudget) (cell : Cell) (net : RouteNet) (path : list Cell) : option f64 :=
  let registers := wrap64 (count_cell (bodies budget path) cell * rn_width net) in
  if 0 <? registers then Some (F64.of_Z registers) else None.

Definition add_register_budget_rows (nets : list RouteNet) (cands : list (list (list Cell)))
    (path_vars : list (list LpVar)) (budget : RegisterBudget) (m : LpModel) : LpModel :=
  fold_left (fun m e =>
    add_constraint ("slot_" +:+ Str.show e.1.1 +:+ "_" +:+ Str.show e.1.2 +:+ "_registers")
      (sum_expr (net_terms (register_terms budget e.1) nets cands path_vars)) Le (F64.of_Z e.2) m)
    (available budget) m.

Definition rank_terms (sign : f64) (row : list LpVar) : list (f64 * LpVar) :=
  flat_map (fun e => if Nat.ltb 0 e.1 then [(F64.mul sign (F64.of_Z (Z.of_nat e.1)), e.2)] else []) (enumerate row).

(** One net of [add_symmetry_rows]: the model and the last net of each class. *)
Definition symmetry_row (path_vars : list (list LpVar)) (acc : LpModel * bmap (Cell * Cell * Z) nat) (e : nat * RouteNet) :
    res RouteError (LpModel * bmap (Cell * Cell * Z) nat) :=
  let '(m, previous) := acc in
  let '(net_index, net) := e in
  let k := (rn_src net, rn_dst net, rn_width net) in
  let previous' := BMap.insert k net_index previous in
  match BMap.get k previous with
  | None => Ok (m, previous')
  | Some earlier =>
      let! vs := expect (path_vars !! earlier) in
      let! ws := expect (path_vars !! net_index) in
      Ok (add_constraint ("symmetry_" +:+ Str.show (Z.of_nat earlier) +:+ "_" +:+ Str.show (Z.of_nat net_index))
            (sum_expr (rank_terms F64.one vs ++ rank_terms (F64.opp F64.one) ws)) Le F64.zero m, previous')
  end.

Definition add_symmetry_rows (nets : list RouteNet) (path_vars : list (list LpVar)) (m : LpModel) : res RouteError LpModel :=
  let! (m, _) := try_fold (symmetry_row path_vars) (m, BMap.empty) (enumerate nets) in Ok m.

(** The rows of one boundary. *)
Definition boundary_rows (nets : list RouteNet) (cands : list (list (list Cell))) (path_vars : list (list LpVar))
    (max_crossings : option LpVar) (m : LpModel) (e : nat * Boundary) : LpModel :=
  let '(boundary_index, b) := e in
  match capacity b with
  | None => m
  | Some cap =>
      let crossings := net_terms (fun net path => if path_crosses path b then Some (F64.of_Z (rn_width net)) else None)
                         nets cands path_vars in
      let name := "bound_" +:+ Str.show (Z.of_nat boundary_index) in
      let m := add_constraint (name +:+ "_capacity") (sum_expr crossings) Le (F64.of_Z cap) m in
      match max_crossings with
      | Some v => if 0 <? cap
                  then add_constraint name (sum_expr (crossings ++ [(F64.opp (F64.of_Z cap), v)])) Le F64.zero m
                  else m
      | None => m
      end
  end.

Definition hop_objective (nets : list RouteNet) (cands : list (list (list Cell))) (path_vars : list (list LpVar)) : LinExpr :=
  sum_expr (net_terms (fun _ path =>
    let hops := Z.of_nat (pred (length path)) in if 0 <? hops then Some (F64.of_Z hops) else None) nets cands path_vars).

(** ** Diagnostics of an infeasible program *)

(** [max_by_key] on [(excess, demand)]: the last of the greatest. *)
Definition max_by_excess {A} (l : list (Z * Z * A)) : option (Z * Z * A) :=
  fold_left (fun best e =>
    match best with
    | None => Some e
    | Some b =>
        match kcmp (e.1.1 - e.1.2, e.1.1) (b.1.1 - b.1.2, b.1.1) with Lt => best | _ => Some e end
    end) l None.

(** The sum of [f] over the nets and what goes with them; a [u64] sum wraps. *)
Definition wrapping_sum {A} (f : RouteNet -> A -> Z) (l : list (RouteNet * A)) : Z :=
  fold_left (fun acc e => wrap64 (acc + f e.1 e.2)) l 0.

Definition first_path {E} (cands : list (list (list Cell))) : res E (list (list Cell)) :=
  try_fold (fun acc paths => let! p := expect (head paths) in Ok (acc ++ [p])) [] cands.

Definition describe_register_pressure (nets : list RouteNet) (shortest : list (list Cell)) (budget : option RegisterBudget) : string :=
  let worst :=
    match budget with
    | None => None
    | Some bg =>
        max_by_excess (flat_map (fun e : Cell * Z =>
          let demand := wrapping_sum (fun net path => wrap64 (count_cell (bodies bg path) e.1 * rn_width net)) (zip nets shortest) in
          if e.2 <? demand then [(demand, e.2, e.1)] else []) (available bg))
    end in
  match worst with
  | Some (demand, avail, cell) =>
      "no boundary is over-subscribed, but on shortest paths slot " +:+ cell_debug cell +:+ " would hold " +:+ Str.show demand
      +:+ " pipeline registers with only " +:+ Str.show avail +:+ " flip-flops left; place the endpoints closer together, lower --usage-limit, or choose a lighter --pp-scheme"
  | None => "no single boundary or slot is over-subscribed on shortest paths, so the nets cannot be spread across the available detours"
  end.

Definition describe_congestion (nets : list RouteNet) (cands : list (list (list Cell))) (limits : list Boundary)
    (budget : option RegisterBudget) : res RouteError string :=
  let! shortest := first_path cands in
  let worst := max_by_excess (flat_map (fun b =>
    match capacity b with
    | None => []
    | Some cap =>
        let demand := wrapping_sum (fun net path => if path_crosses path b then rn_width net else 0) (zip nets shortest) in
        if cap <? demand then [(demand, cap, b)] else []
    end) limits) in
  Ok (match worst with
      | Some (demand, cap, b) =>
          "with every net on a shortest path the " +:+ cell_debug (bd_a b) +:+ "-" +:+ cell_debug (bd_b b) +:+ " boundary carries "
          +:+ Str.show demand +:+ " wires against a budget of " +:+ Str.show cap
          +:+ "; place the endpoints closer together, or widen the boundary's declared wire capacity"
      | None => describe_register_pressure nets shortest budget
      end).

(** ** Reading the solution *)

Definition choice_error (net_index : nat) (e : OneOfKError) : RouteError :=
  let net := Str.show (Z.of_nat net_index) in
  match e with
  | MissingVariable position =>
      RInvalidSolution ("solver omitted path variable for net " +:+ net +:+ ", candidate " +:+ Str.show (Z.of_nat position))
  | NonBinary position _ _ =>
      RInvalidSolution ("path variable for net " +:+ net +:+ ", candidate " +:+ Str.show (Z.of_nat position) +:+ " is not binary")
  | SelectionCount 0 _ => RInvalidSolution ("no path selected for net " +:+ net)
  | SelectionCount _ _ => RInvalidSolution ("more than one path selected for net " +:+ net)
  end.

Definition select_route (solution : LpSolution) (routes : list (list Cell)) (e : nat * (list (list Cell) * list LpVar)) :
    res RouteError (list (list Cell)) :=
  let '(net_index, (paths, vs)) := e in
  let! path_index := map_err (choice_error net_index) (read_one_of_k solution vs) in
  let! path := expect (paths !! path_index) in
  Ok (routes ++ [path]).

Definition selected_routes (cands : list (list (list Cell))) (path_vars : list (list LpVar)) (solution : LpSolution) :
    res RouteError (list (list Cell)) :=
  try_fold (select_route solution) [] (enumerate (zip cands path_vars)).

Definition crossing_width (nets : list RouteNet) (routes : list (list Cell)) (b : Boundary) : Z :=
  wrapping_sum (fun net path => if path_crosses path b then rn_width net else 0) (zip nets routes).

Definition validate_within_capacity (nets : list RouteNet) (routes : list (list Cell)) (limits : list Boundary) :
    res RouteError unit :=
  try_each (fun b =>
    match capacity b with
    | None => Ok tt
    | Some cap =>
        let crossing := crossing_width nets routes b in
        if cap <? crossing
        then Err (RInvalidSolution ("boundary " +:+ cell_debug (bd_a b) +:+ "->" +:+ cell_debug (bd_b b) +:+ " carries "
               +:+ Str.show crossing +:+ " wires, exceeding its capacity " +:+ Str.show cap))
        else Ok tt
    end) limits.

Section solver.
Variable solve : LpModel -> SolveOpts -> res SolverError LpSolution.

(** The one-of-k rows, net by net. *)
Definition add_path_vars (c : Candidates) (acc : list (list LpVar) * LpModel) (net_index : nat) :
    res RouteError (list (list LpVar) * LpModel) :=
  let '(path_vars, m) := acc in
  let! paths := paths_of c net_index in
  let net := Str.show (Z.of_nat net_index) in
  let! (vs, m) := add_one_of_k_row ("net_" +:+ net) (length paths)
                    (fun path_index => "p_" +:+ net +:+ "_" +:+ Str.show (Z.of_nat path_index)) m in
  Ok (path_vars ++ [vs], m).

(** The whole model: the norm variable, the choice variables, the model. *)
Definition route_model (nets : list RouteNet) (c : Candidates) (cands : list (list (list Cell))) (limits : list Boundary)
    (budget : option RegisterBudget) : res RouteError (option LpVar * list (list LpVar) * LpModel) :=
  let balanced := existsb (fun b => match capacity b with Some cap => 0 <? cap | None => false end) limits in
  let! (max_crossings, m) :=
    if balanced
    then let! (v, m) := add_continuous "max_crossings" F64.zero F64.infinity model_new in Ok (Some v, m)
    else Ok (None, model_new) in
  let! (path_vars, m) := try_fold (add_path_vars c) ([], m) (seq 0 (length nets)) in
  let! m := add_symmetry_rows nets path_vars m in
  let m := match budget with Some bg => add_register_budget_rows nets cands path_vars bg m | None => m end in
  let m := fold_left (boundary_rows nets cands path_vars max_crossings) (enumerate limits) m in
  let objective := match max_crossings with
                   | Some v => sum_expr [(F64.one, v)]
                   | None => hop_objective nets cands path_vars
                   end in
  Ok (max_crossings, path_vars, set_objective objective m).

Definition route_nets (nets : list RouteNet) (d : Device) (budget : option RegisterBudget) (opts : SolveOpts) :
    res RouteError (list (list Cell)) :=
  match nets with
  | [] => Ok []
  | _ =>
      let! _ := validate_nets nets d in
      let! c := candidates_for nets d in
      let limits := boundaries d in
      let! cands := iter_candidates c in
      let! (max_crossings, path_vars, m) := route_model nets c cands limits budget in
      let route_opts := mkOpts (time_limit opts) (threads opts)
                          (match max_crossings with Some _ => Some UTILIZATION_MIP_GAP_ABS | None => None end) in
      let! solution := map_err RSolver (solve m route_opts) in
      if negb (is_found solution) then
        match status solution with
        | Infeasible => let! why := describe_congestion nets cands limits budget in Err (RInfeasible why)
        | NotSolved | Unbounded => Err (NoIncumbent (status solution))
        | Optimal | Feasible => Panic
        end
      else
        let! refined := map_err RSolver (refine solve m route_opts (objective m) (sol_objective solution) path_vars) in
        let solution := match refined with Some r => r | None => solution end in
        let! routes := selected_routes cands path_vars solution in
        let! _ := validate_within_capacity nets routes limits in
        Ok routes
  end.
End solver.

(** ** Legal routes *)

(** A simple grid path from [src] to [dst]. *)
Definition legal_route (d : Device) (src dst : Cell) (p : list Cell) : Prop :=
  head p = Some src /\ last p = Some dst /\ simple_path (cols d) (rows d) p.

Lemma lookup_windows {A} (l : list A) i a b : windows l !! i = Some (a, b) <-> l !! i = Some a /\ l !! S i = Some b.
Proof.
  unfold windows. rewrite lookup_zip_Some. destruct l as [|x l]; simpl; [by rewrite !lookup_nil|done].
Qed.

Lemma size_list_to_set_NoDup (l : list Cell) :
  (size (list_to_set l : gset Cell) <= length l)%nat /\ (size (list_to_set l : gset Cell) = length l -> NoDup l).
Proof.
  induction l as [|x l [Hle IH]]; [split; [done|constructor]|]; simpl.
  destruct (decide (x ∈ l)) as [Hin|Hn].
  - assert (Heq : {[x]} ∪ (list_to_set l : gset Cell) = list_to_set l) by set_solver. rewrite Heq. split; lia.
  - rewrite size_union, size_singleton by set_solver. split; [lia|]. intros H. constructor; [done|]. apply IH. lia.
Qed.

Lemma is_slot_in_grid d c : typed d -> complete_grid d -> is_slot d c = true -> in_grid (cols d) (rows d) c.
Proof.
  intros Hd Hg H. unfold is_slot, slot in H. destruct (find_first _ (slots d)) as [s|] eqn:E; [|done].
  apply find_first_Some in E as [Hin Hb]. bool_hyps.
  pose proof (proj1 (Forall_forall _ _) (grid_inside _ Hg) s Hin) as Hlt.
  pose proof (proj1 (Forall_forall _ _) (typed_slots _ Hd) s Hin) as ([Hx _] & [Hy _] & _).
  simpl in *. unfold in_grid. lia.
Qed.

Lemma validate_path_legal i net (p : list Cell) d :
  typed d -> complete_grid d -> cols d + rows d <= U32_MAX ->
  validate_path i net p d = Ok tt -> legal_route d (rn_src net) (rn_dst net) p.
Proof.
  intros Hd Hg Hsize. unfold validate_path.
  destruct (negb (bool_decide (head p = _))) eqn:Hh; [done|]. destruct (negb (bool_decide (last p = _))) eqn:Hl; [done|].
  destruct (find_first _ p) as [c|] eqn:Hs; [done|]. destruct (negb (Nat.eqb _ _)) eqn:Hn; [done|].
  destruct (find_first _ (windows p)) as [[a b]|] eqn:Hw; [done|]. intros _.
  bool_hyps. apply Nat.eqb_eq, size_list_to_set_NoDup in Hn. apply find_first_None in Hs, Hw.
  rewrite Forall_forall in Hs. rewrite Forall_forall in Hw.
  assert (Hgrid : forall c, c ∈ p -> in_grid (cols d) (rows d) c).
  { intros c Hc. apply is_slot_in_grid; [done..|]. specialize (Hs c Hc). by apply negb_false_iff in Hs. }
  split_and!; [done..|]. split; [by apply Forall_forall| |done].
  intros k a b Ha Hb. specialize (Hw (a, b) ltac:(eapply list_elem_of_lookup_2, lookup_windows; eauto)).
  destruct (Hgrid a ltac:(by eapply list_elem_of_lookup_2)) as [Hax Hay], (Hgrid b ltac:(by eapply list_elem_of_lookup_2)) as [Hbx Hby].
  apply negb_false_iff, Z.eqb_eq in Hw. unfold hop_distance, abs_diff in Hw. cbn [fst snd] in Hw.
  rewrite wrap32_id in Hw; [done|]. unfold in_u32. lia.
Qed.

(** ** Candidates *)

(** The candidate sets built for the nets [l]. *)
Record candidates_ok (d : Device) (l : list RouteNet) (c : Candidates) (of_pair : bmap (Cell * Cell) nat) : Prop := {
  co_length : length (of_net c) = length l;
  co_net : forall i net, l !! i = Some net -> exists s ps, of_net c !! i = Some s /\ sets c !! s = Some ps /\
    forall p, p ∈ ps -> legal_route d (rn_src net) (rn_dst net) p;
  co_pair : forall src dst s, BMap.get (src, dst) of_pair = Some s -> exists ps, sets c !! s = Some ps /\
    forall p, p ∈ ps -> legal_route d src dst p;
}.

Lemma add_candidate_ok d l c of_pair net c' of_pair' :
  typed d -> complete_grid d -> cols d + rows d <= U32_MAX ->
  candidates_ok d l c of_pair -> add_candidate d (c, of_pair) (length l, net) = Ok (c', of_pair') ->
  candidates_ok d (l ++ [net]) c' of_pair'.
Proof.
  intros Hd Hg Hsize [Hlen Hnet Hpair]. unfold add_candidate.
  destruct (BMap.get _ of_pair) as [s|] eqn:Hs.
  - intros [= <- <-]. destruct (Hpair _ _ _ Hs) as (ps & Hps & Hlegal). split; simpl; [by rewrite !length_app, Hlen| |done].
    intros i n [[Hlt Hi]|[-> <-]]%lookup_snoc_Some.
    + destruct (Hnet i n Hi) as (s' & ps' & Hs' & ?). exists s', ps'. split; [|done]. apply lookup_snoc_Some.
      left. split; [lia|done].
    + exists s, ps. split; [|done]. apply lookup_snoc_Some. right. by split.
  - intros H. apply rbind_ok in H as (ps & _ & H). destruct ps as [|p0 ps0] eqn:Eps; [done|]. rewrite <- Eps in H. clear Eps p0 ps0.
    apply rbind_ok in H as ([] & Hval & [= <- <-]). apply try_each_ok in Hval. rewrite Forall_forall in Hval.
    assert (Hlegal : forall p, p ∈ ps -> legal_route d (rn_src net) (rn_dst net) p)
      by (intros p Hp; eapply validate_path_legal; eauto).
    assert (Hold : forall s ps', sets c !! s = Some ps' -> (sets c ++ [ps]) !! s = Some ps')
      by (intros s ps' Hlk; apply lookup_snoc_Some; left; split; [by eapply lookup_lt_Some|done]).
    assert (Hnew : (sets c ++ [ps]) !! length (sets c) = Some ps) by (apply lookup_snoc_Some; by right).
    split; simpl.
    + by rewrite !length_app, Hlen.
    + intros i n [[Hlt Hi]|[-> <-]]%lookup_snoc_Some.
      * destruct (Hnet i n Hi) as (s' & ps' & Hs' & Hps' & ?). exists s', ps'. split_and!; [|by apply Hold|done].
        apply lookup_snoc_Some. left. split; [lia|done].
      * exists (length (sets c)), ps. split_and!; [apply lookup_snoc_Some; right; by split|done|done].
    + intros src dst s. rewrite BMap.get_insert. destruct (decide _) as [[= -> ->]|_].
      * intros [= <-]. by exists ps.
      * intros Hget. destruct (Hpair _ _ _ Hget) as (ps' & ? & ?). exists ps'. split; [by apply Hold|done].
Qed.

Lemma candidates_for_ok d nets c :
  typed d -> complete_grid d -> cols d + rows d <= U32_MAX ->
  candidates_for nets d = Ok c -> exists of_pair, candidates_ok d nets c of_pair.
Proof.
  intros Hd Hg Hsize H. unfold candidates_for in H. apply rbind_ok in H as ([c' of_pair] & H & [= ->]). exists of_pair.
  revert c of_pair H. induction nets as [|net nets IH] using rev_ind; intros c of_pair H.
  - simpl in H. injection H as <- <-. split; done.
  - rewrite enumerate_snoc, try_fold_app in H. apply rbind_ok in H as ([c1 p1] & H & Hlast). cbn [try_fold] in Hlast.
    apply rbind_ok in Hlast as ([c2 p2] & Hstep & [= -> ->]). by eapply add_candidate_ok; [..|by apply IH|].
Qed.

Lemma collect_sets_ok {E} all idx cands :
  @collect_sets E all idx = Ok cands ->
  length cands = length idx /\ forall i s, idx !! i = Some s -> all !! s = cands !! i.
Proof.
  revert cands; induction idx as [|s idx IH]; simpl; intros cands H.
  - injection H as <-. split; [done|]. intros i s Hi. by rewrite lookup_nil in Hi.
  - apply rbind_ok in H as (ps & Hps%expect_ok & H). apply rbind_ok in H as (rest & Hrest & [= <-]).
    destruct (IH _ Hrest) as [Hlen Hlk]. split; [by rewrite <- Hlen|]. intros [|i] s'; simpl; [by intros [= <-]|apply Hlk].
Qed.

(** Every candidate of every net is legal. *)
Lemma iter_candidates_ok d nets c of_pair cands :
  candidates_ok d nets c of_pair -> @iter_candidates RouteError c = Ok cands ->
  length cands = length nets /\
  forall i net ps p, nets !! i = Some net -> cands !! i = Some ps -> p ∈ ps -> legal_route d (rn_src net) (rn_dst net) p.
Proof.
  intros [Hlen Hnet _] [Hl Hlk]%collect_sets_ok. split; [congruence|]. intros i net ps p Hi Hps Hp.
  destruct (Hnet i net Hi) as (s & ps' & Hs & Hps' & Hlegal). rewrite (Hlk i s Hs), Hps in Hps'.
  injection Hps' as <-. by apply Hlegal.
Qed.

Lemma add_path_vars_length c l acc acc' :
  try_fold (add_path_vars c) acc l = Ok acc' -> length acc'.1 = (length acc.1 + length l)%nat.
Proof.
  revert acc; induction l as [|i l IH]; simpl; intros acc H; [injection H as <-; lia|].
  apply rbind_ok in H as (acc1 & H1 & H). rewrite (IH _ H). destruct acc as [pv m]. unfold add_path_vars in H1.
  apply rbind_ok in H1 as (ps & _ & H1). apply rbind_ok in H1 as ([vs m1] & _ & [= <-]).
  simpl. rewrite length_app. simpl. lia.
Qed.

Lemma route_model_path_vars nets c cands limits budget mc pv m :
  route_model nets c cands limits budget = Ok (mc, pv, m) -> length pv = length nets.
Proof.
  unfold route_model. intros H. apply rbind_ok in H as ([mc' m0] & _ & H). apply rbind_ok in H as ([pv' m1] & Hpv & H).
  apply rbind_ok in H as (m2 & _ & [= <- <- <-]). apply add_path_vars_length in Hpv. simpl in Hpv.
  by rewrite Hpv, length_seq.
Qed.

Lemma selected_routes_ok cands pv sol routes :
  length pv = length cands -> selected_routes cands pv sol = Ok routes ->
  length routes = length cands /\ forall i r, routes !! i = Some r -> exists ps, cands !! i = Some ps /\ r ∈ ps.
Proof.
  intros Hlen H. unfold selected_routes in H.
  assert (Hz : length (zip cands pv) = length cands) by (rewrite length_zip; lia).
  assert (Hlk : forall i x, zip cands pv !! i = Some x -> cands !! i = Some x.1).
  { intros i [ps vs] Hx. by apply lookup_zip_Some in Hx as [? _]. }
  rewrite <- Hz. revert routes H Hlk. generalize (zip cands pv). clear Hz. intros l.
  induction l as [|x l IH] using rev_ind; intros routes H Hlk.
  - simpl in H. injection H as <-. split; [done|]. intros i r Hr. by rewrite lookup_nil in Hr.
  - rewrite enumerate_snoc, try_fold_app in H. apply rbind_ok in H as (rs & Hrs & Hlast). cbn [try_fold] in Hlast.
    destruct (IH rs Hrs) as [Hl Hr].
    { intros i y Hy. apply Hlk, lookup_snoc_Some. left. split; [by eapply lookup_lt_Some|done]. }
    apply rbind_ok in Hlast as (rs' & Hstep & [= <-]). destruct x as [ps vs]. unfold select_route in Hstep.
    apply rbind_ok in Hstep as (k & _ & Hstep). apply rbind_ok in Hstep as (path & Hpath%expect_ok & [= <-]).
    rewrite !length_app, Hl. split; [done|]. intros i r [[Hlt Hi]|[-> <-]]%lookup_snoc_Some; [by apply Hr|].
    exists ps. split; [|by eapply list_elem_of_lookup_2]. apply (Hlk _ (ps, vs)), lookup_snoc_Some. right. by rewrite Hl.
Qed.

(** The wires the routes put across the border of [a] and [b]. *)
Definition border_load (nets : list RouteNet) (routes : list (list Cell)) (a b : Cell) : Z :=
  zsum (fun e => if path_crosses e.2 (mkBoundary a b None) then rn_width e.1 else 0) (zip nets routes).

(** Sums of few [u32] values do not wrap. *)
Lemma wrapping_sum_exact {A} (f : RouteNet -> A -> Z) l :
  (forall e, e ∈ l -> in_u32 (f e.1 e.2)) -> Z.of_nat (length l) <= U32_MAX -> wrapping_sum f l = zsum (fun e => f e.1 e.2) l.
Proof.
  intros Hf Hlen. unfold wrapping_sum.
  cut (forall acc, 0 <= acc -> acc + Z.of_nat (length l) * U32_MAX <= U64_MAX ->
    fold_left (fun acc e => wrap64 (acc + f e.1 e.2)) l acc = acc + zsum (fun e => f e.1 e.2) l).
  { intros H. rewrite H; [lia|lia|]. unfold U32_MAX, U64_MAX in *. nia. }
  clear Hlen. unfold U32_MAX, in_u32 in *. induction l as [|x l IH]; cbn [fold_left length zsum fold_right]; intros acc H0 Hb; [lia|].
  pose proof (Hf x ltac:(by left)) as [Hx0 Hx1]. unfold U32_MAX in Hx1. rewrite Nat2Z.inj_succ in Hb. rewrite wrap64_id by (unfold in_u64; lia).
  rewrite IH; [unfold zsum; lia| |lia|lia]. intros e He. apply Hf. by right.
Qed.

Lemma capacity_respected nets routes limits b cap :
  Forall (fun n => in_u32 (rn_width n)) nets -> Z.of_nat (length nets) <= U32_MAX ->
  validate_within_capacity nets routes limits = Ok tt -> b ∈ limits -> capacity b = Some cap ->
  border_load nets routes (bd_a b) (bd_b b) <= cap.
Proof.
  intros Hw Hlen H Hb Hcap. unfold validate_within_capacity in H. rewrite try_each_ok, Forall_forall in H.
  specialize (H b Hb). rewrite Hcap in H. destruct (Z.ltb_spec cap (crossing_width nets routes b)) as [|Hle]; [done|].
  unfold crossing_width in Hle. rewrite wrapping_sum_exact in Hle; [done| |].
  - intros [n p] Hin. cbn [fst snd]. destruct (path_crosses p b); [|unfold in_u32, U32_MAX; lia].
    rewrite Forall_forall in Hw. apply Hw. apply list_elem_of_In in Hin. apply in_combine_l in Hin. by apply list_elem_of_In.
  - rewrite length_zip. lia.
Qed.

Lemma boundaries_complete d a b s t :
  typed d -> complete_grid d -> slot d a.1 a.2 = Some s -> slot d b.1 b.2 = Some t ->
  (b = (a.1 + 1, a.2) -> mkBoundary a b (bounded_border_capacity (east (wire_cap s)) (west (wire_cap t))) ∈ boundaries d) /\
  (b = (a.1, a.2 + 1) -> mkBoundary a b (bounded_border_capacity (north (wire_cap s)) (south (wire_cap t))) ∈ boundaries d).
Proof.
  intros Hd Hg Hs Ht.
  assert (Hin : forall c u, slot d c.1 c.2 = Some u -> in_grid (cols d) (rows d) c).
  { intros c u Hu. apply is_slot_in_grid; [done..|]. unfold is_slot. by rewrite Hu. }
  destruct (Hin a s Hs) as [Hax Hay], (Hin b t Ht) as [Hbx Hby]. destruct a as [x y]. cbn [fst snd] in *.
  pose proof (typed_cols _ Hd) as [_ Hc]. pose proof (typed_rows _ Hd) as [_ Hr].
  assert (Hat : forall bd, In bd (boundaries_at d x y) -> bd ∈ boundaries d).
  { intros bd Hbd. apply list_elem_of_In, in_flat_map. exists y. split; [by apply list_elem_of_In, elem_of_zrange|].
    apply in_flat_map. exists x. split; [by apply list_elem_of_In, elem_of_zrange|done]. }
  split; intros ->; cbn [fst snd] in *; apply Hat; unfold boundaries_at; rewrite Hs; apply in_app_iff.
  - left. rewrite wrap32_id by (unfold in_u32; lia). rewrite (proj2 (Z.ltb_lt _ _)) by lia. rewrite Ht. by left.
  - right. rewrite wrap32_id by (unfold in_u32; lia). rewrite (proj2 (Z.ltb_lt _ _)) by lia. rewrite Ht. by left.
Qed.

(** What is proved of the routes; shared with the pipeline plan. *)
Lemma route_nets_legal solve nets d budget opts routes :
  typed d -> complete_grid d -> cols d + rows d <= U32_MAX -> nets <> [] ->
  Forall (fun n => in_u32 (rn_width n)) nets -> Z.of_nat (length nets) <= U32_MAX ->
  route_nets solve nets d budget opts = Ok routes ->
  length routes = length nets /\
  (forall i net r, nets !! i = Some net -> routes !! i = Some r -> legal_route d (rn_src net) (rn_dst net) r) /\
  (forall a b s t cap, slot d a.1 a.2 = Some s -> slot d b.1 b.2 = Some t ->
     (b = (a.1 + 1, a.2) /\ bounded_border_capacity (east (wire_cap s)) (west (wire_cap t)) = Some cap \/
      b = (a.1, a.2 + 1) /\ bounded_border_capacity (north (wire_cap s)) (south (wire_cap t)) = Some cap) ->
     border_load nets routes a b <= cap).
Proof.
  intros Hd Hg Hsize Hne Hw Hlen H. unfold route_nets in H. destruct nets as [|n0 nets0] eqn:Enets.
  { done. }
  rewrite <- Enets in *.
  apply rbind_ok in H as (_ & _ & H). apply rbind_ok in H as (c & Hc & H). apply rbind_ok in H as (cands & Hcands & H).
  apply rbind_ok in H as ([[mc pv] m] & Hm & H). apply rbind_ok in H as (sol & _ & H).
  destruct (negb (is_found sol)).
  { destruct (status sol); try done. by apply rbind_ok in H as (? & _ & ?). }
  apply rbind_ok in H as (refined & _ & H). apply rbind_ok in H as (rs & Hrs & H).
  apply rbind_ok in H as ([] & Hval & [= ->]).
  destruct (candidates_for_ok _ _ _ Hd Hg Hsize Hc) as [of_pair Hok].
  destruct (iter_candidates_ok _ _ _ _ _ Hok Hcands) as [Hclen Hlegal].
  destruct (selected_routes_ok cands pv _ routes ltac:(rewrite (route_model_path_vars _ _ _ _ _ _ _ _ Hm); done) Hrs) as [Hrlen Hr].
  split; [congruence|]. split.
  - intros i net r Hi Hri. destruct (Hr i r Hri) as (ps & Hps & Hin). by eapply Hlegal.
  - intros a b s t cap Hs Ht Hcap. destruct (boundaries_complete d a b s t Hd Hg Hs Ht) as [He Hn].
    destruct Hcap as [[Hb Hcap]|[Hb Hcap]]; [specialize (He Hb)|specialize (Hn Hb)].
    + by apply (capacity_respected _ _ _ _ _ Hw Hlen Hval He Hcap).
    + by apply (capacity_respected _ _ _ _ _ Hw Hlen Hval Hn Hcap).
Qed.

(** ** An example *)

Module RouteExample.
(** A solver that selects every variable: right where each net has one path. *)
Definition solve (m : LpModel) (_ : SolveOpts) : res SolverError LpSolution :=
  Ok (mkSolution Optimal F64.zero (list_to_map (map (fun i => (Z.of_nat i, F64.one)) (seq 0 (length (vars m)))))).
Definition nets : list RouteNet := [mkRouteNet (0, 0) (1, 0) 32; mkRouteNet (1, 0) (0, 0) 5].
Definition routes : list (list Cell) := [[(0, 0); (1, 0)]; [(1, 0); (0, 0)]].
End RouteExample.

Lemma example_routed : route_nets RouteExample.solve RouteExample.nets Example.device None (mkOpts None None None) = Ok RouteExample.routes.
Proof. vm_compute. reflexivity. Qed.
