(* ===== verification/Pipeline.v ===== *)
(** * The pipeline plan

    [tapa-floorplan/src/pipeline/plan.rs]: the channels of a placed design that
    cross slots are routed together, each route gets its Body registers by the
    pipeline scheme, and the generated resources are accounted slot by slot.
    [scaled_area] is the derating of [partition/ilp.rs]. *)

From S2P Require Import Prelude RustStd BTreeMap Geometry Names Connectivity Paths F64 Device FloorGraph Lp Partition RouteIlp.

(** ** Data *)

Inductive RoutedChannel :=
| RStream (fifo : string)
| RAxi (endpoint : AxiEndpoint) (bank : MemoryBank) (channel : AxiChannel)
| RControl (instance : string) (channel : ControlChannel).

Inductive PipelineScheme := Single | Double | SingleHDoubleV.

Record PlannedRoute := mkPlanned {
  p_channel : RoutedChannel; p_route : list Cell; p_scheme : PipelineScheme; reg_regions : list Cell }.

Inductive PipelineError :=
| PRoute (e : RouteError)
| BadRegion (region : string)
| Accounting (link detail : string)
| RealizedCapacity (region resource : string) (used limit : Z).

Record PendingNet := mkPending {
  pn_channel : RoutedChannel; shared_channels : option RoutedChannel; pn_src : Cell; pn_dst : Cell; pn_width : Z }.

(** ** Body registers *)

(** [slice[1..slice.len() - 1]] of a slice of at least two. *)
Definition inner {A} (l : list A) : list A := take (length l - 2) (drop 1 l).

Definition is_vertical (hop : Cell * Cell) : bool := negb (hop.1.2 =? hop.2.2).

Definition multiplicity (route : list Cell) : list nat :=
  fold_left (fun m e => if is_vertical e.2 then alter S (S e.1) (alter S e.1 m) else m)
    (enumerate (windows route)) (replicate (length route) 1%nat).

Definition pipeline_reg_cells (route : list Cell) (s : PipelineScheme) : list Cell :=
  if Nat.ltb (length route) 2 then [] else
  match s with
  | Single => inner route
  | Double => flat_map (fun hop => [hop.1; hop.2]) (windows route)
  | SingleHDoubleV => inner (flat_map (fun e => replicate e.2 e.1) (zip route (multiplicity route)))
  end.

(** ** The nets that cross slots *)

Definition accounting_error {A} (link detail : string) : res PipelineError A := Err (Accounting link detail).

Definition crossing_cells {E} (regions : list Cell) (src dst : nat) : res E (option (Cell * Cell)) :=
  let! s := expect (regions !! src) in
  let! d := expect (regions !! dst) in
  Ok (if bool_decide (s = d) then None else Some (s, d)).

Definition stream_net (regions : list Cell) (nets : list PendingNet) (e : Stream) : res PipelineError (list PendingNet) :=
  let! c := crossing_cells regions (st_src e) (st_dst e) in
  Ok (match c with
      | None => nets
      | Some (s, d) => nets ++ [mkPending (RStream (st_link e)) None s d (st_width e)]
      end).

Definition axi_net (regions : list Cell) (nets : list PendingNet) (e : AxiNet) : res PipelineError (list PendingNet) :=
  let! c := crossing_cells regions (an_src e) (an_dst e) in
  Ok (match c with
      | None => nets
      | Some (s, d) => nets ++ [mkPending (RAxi (an_endpoint e) (an_bank e) (an_channel e)) None s d (an_width e)]
      end).

Definition is_reset (c : ControlChannel) : bool := match c with Reset => true | _ => false end.
Definition is_launch (c : ControlChannel) : bool := match c with Launch => true | _ => false end.

Definition matching_reset (all : list ControlNet) (e : ControlNet) : option ControlNet :=
  find_first (fun c => bool_decide (cn_instance c = cn_instance e) && is_reset (cn_channel c)
                       && Nat.eqb (cn_src c) (cn_src e) && Nat.eqb (cn_dst c) (cn_dst e)) all.

Definition control_net (all : list ControlNet) (regions : list Cell) (nets : list PendingNet) (e : ControlNet) :
    res PipelineError (list PendingNet) :=
  if is_reset (cn_channel e) then Ok nets else
  let! c := crossing_cells regions (cn_src e) (cn_dst e) in
  match c with
  | None => Ok nets
  | Some (s, d) =>
      let! (shared, width) :=
        (if is_launch (cn_channel e) then
           let! reset := ok_or (matching_reset all e) (Accounting (cn_instance e) "Launch control has no matching Reset channel") in
           let! width := ok_or (checked_add32 (cn_width e) (cn_width reset))
                               (Accounting (cn_instance e) "combined Launch/Reset routing width overflows u32") in
           Ok (Some (RControl (cn_instance reset) (cn_channel reset)), width)
         else Ok (None, cn_width e)) in
      Ok (nets ++ [mkPending (RControl (cn_instance e) (cn_channel e)) shared s d width])
  end.

Definition cross_slot_nets (g : FloorGraph) (regions : list Cell) : res PipelineError (list PendingNet) :=
  let! nets := try_fold (stream_net regions) [] (streams g) in
  let! nets := try_fold (axi_net regions) nets (axi_nets g) in
  try_fold (control_net (control_nets g) regions) nets (control_nets g).

(** ** Capacities *)

Definition register_budgets (baseline : bmap Cell Area) (d : Device) (logic_capacity_limit : f64) : bmap Cell Z :=
  BMap.from_list (map (fun s =>
    let cap := ff (scaled_area (slot_area s) logic_capacity_limit) in
    let placed := match BMap.get (slot_x s, slot_y s) baseline with Some a => ff a | None => 0 end in
    ((slot_x s, slot_y s), saturating_sub cap placed)) (slots d)).

(** ** Planning *)

(** The planned routes of one net: its channel and the one that shares its path. *)
Definition planned_of (s : PipelineScheme) (e : PendingNet * list Cell) : list PlannedRoute :=
  map (fun ch => mkPlanned ch e.2 s (pipeline_reg_cells e.2 s))
    (pn_channel e.1 :: match shared_channels e.1 with Some c => [c] | None => [] end).

Definition route_net_of (n : PendingNet) : RouteNet := mkRouteNet (pn_src n) (pn_dst n) (pn_width n).

Definition plan_routes (solve : LpModel -> SolveOpts -> res SolverError LpSolution) (g : FloorGraph) (regions : list Cell)
    (baseline : bmap Cell Area) (d : Device) (s : PipelineScheme) (logic_capacity_limit : f64) (opts : SolveOpts) :
    res PipelineError (list PlannedRoute) :=
  if negb (Nat.eqb (length regions) (length (vertices g)))
  then accounting_error "placement" "every graph vertex needs exactly one slot" else
  let! nets := cross_slot_nets g regions in
  match nets with
  | [] => Ok []
  | _ =>
      let budget := mkBudget (fun path => pipeline_reg_cells path s) (register_budgets baseline d logic_capacity_limit) in
      let! routes := map_err PRoute (route_nets solve (map route_net_of nets) d (Some budget) opts) in
      Ok (flat_map (planned_of s) (zip nets routes))
  end.

(** ** Accounting *)

Definition ff_area (w : Z) : Area := mkArea 0 w 0 0 0.

Definition subtract_usage (usage : bmap Cell Area) (region : Cell) (a : Area) (link : string) : res PipelineError (bmap Cell Area) :=
  let! current := ok_or (BMap.get region usage) (Accounting link ("missing baseline usage for `" +:+ cell_debug region +:+ "`")) in
  let! current := ok_or (Area.checked_sub current a)
    (Accounting link ("baseline usage in `" +:+ cell_debug region +:+ "` does not contain its FIFO estimate")) in
  Ok (BMap.insert region current usage).

Definition add_usage (usage : bmap Cell Area) (region : Cell) (a : Area) (link : string) : res PipelineError (bmap Cell Area) :=
  let current := default area_default (BMap.get region usage) in
  let! current := ok_or (Area.checked_add current a)
    (Accounting link ("resource count overflows in `" +:+ cell_debug region +:+ "`")) in
  Ok (BMap.insert region current usage).

Definition verify_route_endpoint (g : FloorGraph) (regions : list Cell) (vertex : nat) (route_region : Cell)
    (link endpoint : string) : res PipelineError unit :=
  let! v := expect (vertices g !! vertex) in
  let! placed := ok_or (regions !! vertex) (Accounting link ("missing region for `" +:+ v_name v +:+ "`")) in
  if negb (bool_decide (placed = route_region))
  then accounting_error link (endpoint +:+ " route region `" +:+ cell_debug route_region +:+ "` differs from `" +:+ cell_debug placed +:+ "`")
  else Ok tt.

Definition route_endpoints (g : FloorGraph) (regions : list Cell) (r : PlannedRoute) (src dst : nat) (link : string) :
    res PipelineError (Cell * Cell) :=
  let! hd := ok_or (head (p_route r)) (Accounting link "route has no Head region") in
  let! tl := ok_or (last (p_route r)) (Accounting link "route has no Tail region") in
  let! _ := verify_route_endpoint g regions src hd link "Head" in
  let! _ := verify_route_endpoint g regions dst tl link "Tail" in
  Ok (hd, tl).

Definition account_head_and_body (usage : bmap Cell Area) (hd : Cell) (bodies : list Cell) (width head_luts : Z) (link : string) :
    res PipelineError (bmap Cell Area) :=
  let! usage := add_usage usage hd (mkArea head_luts width 0 0 0) link in
  try_fold (fun usage region => add_usage usage region (ff_area width) link) usage bodies.

(** [u32::try_from(bodies.len())], doubled, plus [k]. *)
Definition tail_depth (r : PlannedRoute) (k : Z) (link : string) : res PipelineError Z :=
  let! level := ok_or (fits U32_MAX (Z.of_nat (length (reg_regions r)))) (Accounting link "Body level exceeds u32") in
  ok_or (let? l := checked_mul32 level 2 in checked_add32 l k) (Accounting link "Tail depth overflows u32").

Definition account_control_pipeline (usage : bmap Cell Area) (g : FloorGraph) (regions : list Cell) (r : PlannedRoute)
    (net : ControlNet) (link : string) : res PipelineError (bmap Cell Area) :=
  let! (hd, tl) := route_endpoints g regions r (cn_src net) (cn_dst net) link in
  let! usage := account_head_and_body usage hd (reg_regions r) (cn_width net) 0 link in
  add_usage usage tl (ff_area (cn_width net)) link.

Definition account_axi_pipeline (usage : bmap Cell Area) (g : FloorGraph) (regions : list Cell) (r : PlannedRoute)
    (net : AxiNet) (link : string) : res PipelineError (bmap Cell Area) :=
  let! (hd, tl) := route_endpoints g regions r (an_src net) (an_dst net) link in
  let! real_depth := tail_depth r 8 link in
  let! usage := add_usage usage tl (fifo_area (payload_width net) real_depth) link in
  account_head_and_body usage hd (reg_regions r) (an_width net) 1 link.

Definition account_stream_pipeline (usage : bmap Cell Area) (g : FloorGraph) (regions : list Cell) (r : PlannedRoute)
    (st : Stream) (fifo : string) : res PipelineError (bmap Cell Area) :=
  let! (hd, tl) := route_endpoints g regions r (st_src st) (st_dst st) fifo in
  let! usage := subtract_usage usage tl (fifo_area (st_data_width st) (floorplanned_fifo_storage_depth (st_depth st))) fifo in
  let! extra_depth := tail_depth r 6 fifo in
  let! real_depth := ok_or (checked_add32 (st_depth st) extra_depth) (Accounting fifo "Tail depth overflows u32") in
  let! usage := add_usage usage tl (fifo_area (st_data_width st) real_depth) fifo in
  let! register_width := ok_or (let? w := checked_add32 (st_data_width st) 2 in if w =? st_width st then Some w else None)
                               (Accounting fifo "inconsistent stream width metadata") in
  account_head_and_body usage hd (reg_regions r) register_width 1 fifo.

Definition axi_link (ep : AxiEndpoint) (c : AxiChannel) : string :=
  ep_instance ep +:+ "." +:+ ep_port ep +:+ " " +:+ axi_debug c.

#[export] Instance axi_endpoint_eq_dec : EqDecision AxiEndpoint.
Proof. solve_decision. Defined.
#[export] Instance axi_channel_eq_dec : EqDecision AxiChannel.
Proof. solve_decision. Defined.
#[export] Instance control_channel_eq_dec : EqDecision ControlChannel.
Proof. solve_decision. Defined.

(** The metadata of a routed channel. *)
Definition find_axi (g : FloorGraph) (ep : AxiEndpoint) (bank : MemoryBank) (c : AxiChannel) : option AxiNet :=
  find_first (fun n => bool_decide (an_endpoint n = ep) && bool_decide (an_bank n = bank) && bool_decide (an_channel n = c)) (axi_nets g).
Definition find_control (g : FloorGraph) (instance : string) (c : ControlChannel) : option ControlNet :=
  find_first (fun n => bool_decide (cn_instance n = instance) && bool_decide (cn_channel n = c)) (control_nets g).
Definition stream_map (g : FloorGraph) : bmap string Stream := BMap.from_list (map (fun s => (st_link s, s)) (streams g)).

Definition account_route (g : FloorGraph) (regions : list Cell) (usage : bmap Cell Area) (r : PlannedRoute) :
    res PipelineError (bmap Cell Area) :=
  match p_channel r with
  | RStream fifo =>
      let! st := ok_or (BMap.get fifo (stream_map g)) (Accounting fifo "no matching stream metadata") in
      account_stream_pipeline usage g regions r st fifo
  | RAxi ep bank c =>
      let link := axi_link ep c in
      let! net := ok_or (find_axi g ep bank c) (Accounting link "no matching AXI channel metadata") in
      account_axi_pipeline usage g regions r net link
  | RControl instance c =>
      let link := instance +:+ " " +:+ control_rtl_name c in
      let! net := ok_or (find_control g instance c) (Accounting link "no matching control metadata") in
      account_control_pipeline usage g regions r net link
  end.

(** The check of one resource of one slot. *)
Definition check_resource (d : Device) (c : Coor) (used : Area) (logic_limit block_limit : Area) (r : Resource) :
    res PipelineError unit :=
  if negb (plans_resource d r) then Ok tt else
  let allowed := if is_logic r then amount r logic_limit else amount r block_limit in
  if allowed <? amount r used then Err (RealizedCapacity (Coor.region_name c) (resource_name r) (amount r used) allowed) else Ok tt.

Definition validate_realized_usage (usage : bmap Cell Area) (d : Device) (logic_capacity_limit block_capacity_limit : f64) :
    res PipelineError unit :=
  try_each (fun e : Cell * Area =>
    let c := Coor.slot e.1.1 e.1.2 in
    let! cap := ok_or (island_area d c) (BadRegion (Coor.region_name c)) in
    let logic_limit := scaled_area cap logic_capacity_limit in
    let block_limit := scaled_area cap block_capacity_limit in
    try_each (check_resource d c e.2 logic_limit block_limit) resource_all) usage.

Definition realize_slot_usage_with_resource_caps (g : FloorGraph) (regions : list Cell) (baseline : bmap Cell Area)
    (routes : list PlannedRoute) (d : Device) (logic_capacity_limit block_capacity_limit : f64) : res PipelineError (bmap Cell Area) :=
  let! usage := try_fold (account_route g regions) baseline routes in
  let! _ := validate_realized_usage usage d logic_capacity_limit block_capacity_limit in
  Ok usage.

Definition realize_slot_usage (g : FloorGraph) (regions : list Cell) (baseline : bmap Cell Area) (routes : list PlannedRoute)
    (d : Device) (capacity_limit : f64) : res PipelineError (bmap Cell Area) :=
  realize_slot_usage_with_resource_caps g regions baseline routes d capacity_limit capacity_limit.
