(* ===== verification/PipelineProps.v ===== *)
(** * Properties of the pipeline plan

    How many registers each slot of a route gets, that every crossing channel is
    planned once along a legal path within the wires of the device, and that
    the realized usage is the baseline plus exactly what the plan generates. *)

From S2P Require Import Prelude RustStd BTreeMap Geometry Names Connectivity Paths F64 Device FloorGraph FloorGraphSpec FloorGraphProps Lp Partition RouteIlp Pipeline.

(** ** Counting *)

Lemma count_cell_app l1 l2 c : count_cell (l1 ++ l2) c = count_cell l1 c + count_cell l2 c.
Proof. unfold count_cell. rewrite List.filter_app, length_app. lia. Qed.

Lemma count_cell_one x c : count_cell [x] c = Z.b2z (bool_decide (x = c)).
Proof. unfold count_cell. simpl. by destruct (bool_decide (x = c)). Qed.

Lemma count_cell_cons x l c : count_cell (x :: l) c = Z.b2z (bool_decide (x = c)) + count_cell l c.
Proof. change (x :: l) with ([x] ++ l). by rewrite count_cell_app, count_cell_one. Qed.

Lemma count_cell_absent l c : c ∉ l -> count_cell l c = 0.
Proof.
  induction l as [|x l IH]; [done|]. intros [Hne Hn]%not_elem_of_cons. rewrite count_cell_cons, IH by done.
  by rewrite bool_decide_eq_false_2.
Qed.

Lemma count_cell_replicate n x c : count_cell (replicate n x) c = if bool_decide (x = c) then Z.of_nat n else 0.
Proof.
  induction n as [|n IH]; [by destruct (bool_decide _)|]. simpl. rewrite count_cell_cons, IH.
  destruct (bool_decide _); simpl Z.b2z; lia.
Qed.

(** [inner] drops one copy of the first and one of the last element. *)
Lemma inner_split {A} (x y : A) l : inner (x :: l ++ [y]) = l.
Proof.
  unfold inner. simpl. rewrite length_app. simpl. replace (length l + 1 - 1)%nat with (length l) by lia.
  by rewrite drop_0, take_app_length.
Qed.

Lemma ends_split {A} (l : list A) : (2 <= length l)%nat -> exists x m y, l = x :: m ++ [y].
Proof.
  destruct l as [|x l]; simpl; [lia|]. intros Hl. destruct (@exists_last _ l) as (m & y & ->); [by intros ->; simpl in Hl; lia|].
  by exists x, m, y.
Qed.

Lemma count_inner (l : list Cell) x y c :
  (2 <= length l)%nat -> head l = Some x -> last l = Some y ->
  count_cell (inner l) c = count_cell l c - Z.b2z (bool_decide (x = c)) - Z.b2z (bool_decide (y = c)).
Proof.
  intros Hl Hx Hy. destruct (ends_split l Hl) as (x' & m & y' & ->). simpl in Hx. injection Hx as ->.
  change (x :: m ++ [y']) with ((x :: m) ++ [y']) in Hy. rewrite last_snoc in Hy. injection Hy as ->.
  rewrite inner_split, count_cell_cons, count_cell_app, count_cell_one. lia.
Qed.

(** A cell of a simple route occurs at its position only. *)
Lemma count_weighted (route : list Cell) (ms : list nat) i c m :
  NoDup route -> length ms = length route -> route !! i = Some c -> ms !! i = Some m ->
  count_cell (flat_map (fun e => replicate e.2 e.1) (zip route ms)) c = Z.of_nat m.
Proof.
  revert ms i; induction route as [|x route IH]; intros [|m0 ms] i Hnd Hlen Hc Hm; try done.
  apply NoDup_cons in Hnd as [Hnot Hnd]. simpl. rewrite count_cell_app, count_cell_replicate.
  destruct i as [|i]; simpl in Hc, Hm.
  - injection Hc as ->. injection Hm as ->. rewrite bool_decide_eq_true_2 by done. rewrite count_cell_absent; [lia|].
    intros Hin. apply list_elem_of_In, in_flat_map in Hin as ([y k] & Hin & Hrep).
    apply list_elem_of_In, elem_of_replicate in Hrep as [-> _]. apply in_combine_l in Hin. by apply Hnot, list_elem_of_In.
  - rewrite bool_decide_eq_false_2 by (intros ->; by apply Hnot, (list_elem_of_lookup_2 _ _ _ Hc)).
    rewrite (IH ms i); [lia|done|by injection Hlen|done..].
Qed.

(** ** Multiplicities *)

Definition vertical_at (route : list Cell) (k : nat) : bool :=
  match windows route !! k with Some hop => is_vertical hop | None => false end.

(** The hop that arrives at position [i]. *)
Definition vertical_before (route : list Cell) (i : nat) : bool :=
  match i with O => false | S k => vertical_at route k end.

Definition bump (m : list nat) (e : nat * (Cell * Cell)) : list nat :=
  if is_vertical e.2 then alter S (S e.1) (alter S e.1 m) else m.

Lemma length_bumps l m : length (fold_left bump l m) = length m.
Proof.
  revert m; induction l as [|e l IH]; simpl; intros m; [done|]. rewrite IH. unfold bump.
  destruct (is_vertical e.2); by rewrite ?length_alter.
Qed.

Lemma lookup_bump m e i :
  bump m e !! i = (fun x => x + (if is_vertical e.2 && (bool_decide (i = e.1) || bool_decide (i = S e.1)) then 1 else 0))%nat <$> m !! i.
Proof.
  unfold bump. destruct (is_vertical e.2); simpl.
  2: { destruct (m !! i); simpl; [f_equal; lia|done]. }
  destruct (decide (i = S e.1)) as [->|Hne1].
  - rewrite list_lookup_alter_eq, list_lookup_alter_ne by lia. rewrite (bool_decide_eq_true_2 (S e.1 = S e.1)) by done.
    rewrite orb_true_r. destruct (m !! S e.1); simpl; [f_equal; lia|done].
  - rewrite list_lookup_alter_ne by congruence. rewrite (bool_decide_eq_false_2 (i = S e.1)) by done. rewrite orb_false_r.
    destruct (decide (i = e.1)) as [->|Hne2].
    + rewrite list_lookup_alter_eq, bool_decide_eq_true_2 by done. destruct (m !! e.1); simpl; [f_equal; lia|done].
    + rewrite list_lookup_alter_ne, bool_decide_eq_false_2 by congruence. destruct (m !! i); simpl; [f_equal; lia|done].
Qed.

(** The vertical hops of [ws] with an end at [i]. *)
Definition touching (ws : list (Cell * Cell)) (i : nat) : nat :=
  ((if match ws !! i with Some hop => is_vertical hop | None => false end then 1 else 0) +
   (if match i with O => false | S k => match ws !! k with Some hop => is_vertical hop | None => false end end then 1 else 0))%nat.

Lemma lookup_bumps ws m i :
  fold_left bump (enumerate ws) m !! i = (fun x => x + touching ws i)%nat <$> m !! i.
Proof.
  induction ws as [|hop ws IH] using rev_ind.
  - simpl. unfold touching. rewrite lookup_nil. destruct i; destruct (m !! _); simpl; rewrite ?lookup_nil; [f_equal; lia|done|f_equal; lia|done].
  - rewrite enumerate_snoc, fold_left_app. simpl. rewrite lookup_bump, IH. cbn [fst snd].
    destruct (m !! i) as [x|]; simpl; [|done]. f_equal. unfold touching.
    assert (Hat : forall k, match (ws ++ [hop]) !! k with Some h => is_vertical h | None => false end =
      match ws !! k with Some h => is_vertical h | None => false end || (bool_decide (k = length ws) && is_vertical hop)).
    { intros k. destruct (decide (k = length ws)) as [->|Hne].
      - rewrite bool_decide_eq_true_2 by done. rewrite lookup_app_r, Nat.sub_diag by lia. simpl.
        rewrite (lookup_ge_None_2 ws (length ws)) by lia. done.
      - rewrite bool_decide_eq_false_2 by done. simpl. rewrite orb_false_r.
        destruct (decide (k < length ws)%nat); [by rewrite lookup_app_l|].
        rewrite !lookup_ge_None_2 by (rewrite ?length_app; simpl; lia). done. }
    rewrite Hat. destruct i as [|i].
    + destruct (decide (0%nat = length ws)) as [H0|H0].
      * rewrite <- H0. rewrite (lookup_ge_None_2 ws 0) by lia. rewrite bool_decide_eq_true_2, bool_decide_eq_false_2 by done.
        simpl. destruct (is_vertical hop); simpl; lia.
      * rewrite !bool_decide_eq_false_2 by done. rewrite andb_false_r. simpl. rewrite orb_false_r. lia.
    + rewrite Hat. destruct (decide (S i = length ws)) as [H1|H1], (decide (i = length ws)) as [H2|H2]; try lia.
      * rewrite (bool_decide_eq_true_2 (S i = length ws)), (bool_decide_eq_false_2 (i = length ws)),
          (bool_decide_eq_false_2 (S i = S (length ws))) by lia.
        rewrite (lookup_ge_None_2 ws (S i)) by lia. simpl. rewrite orb_false_r. destruct (is_vertical hop); simpl; lia.
      * rewrite (bool_decide_eq_false_2 (S i = length ws)), (bool_decide_eq_true_2 (i = length ws)),
          (bool_decide_eq_true_2 (S i = S (length ws))) by lia.
        rewrite (lookup_ge_None_2 ws i), (lookup_ge_None_2 ws (S i)) by lia. simpl. destruct (is_vertical hop); simpl; lia.
      * rewrite (bool_decide_eq_false_2 (S i = length ws)), (bool_decide_eq_false_2 (i = length ws)),
          (bool_decide_eq_false_2 (S i = S (length ws))) by lia.
        simpl. rewrite !orb_false_r, andb_false_r. simpl. lia.
Qed.

Lemma multiplicity_spec route i :
  (i < length route)%nat ->
  multiplicity route !! i =
    Some (1 + (if vertical_at route i then 1 else 0) + (if vertical_before route i then 1 else 0))%nat.
Proof.
  intros Hi. change (multiplicity route) with (fold_left bump (enumerate (windows route)) (replicate (length route) 1%nat)).
  rewrite lookup_bumps, lookup_replicate_2 by done. simpl. unfold touching, vertical_at, vertical_before.
  destruct i; f_equal; unfold vertical_at; lia.
Qed.

(** ** Register placement *)

(** What each scheme promises for position [i] of a route of [n] slots. *)
Definition registers_at (route : list Cell) (s : PipelineScheme) (i : nat) : Z :=
  let interior := Z.b2z (Nat.ltb 0 i && Nat.ltb (S i) (length route)) in
  match s with
  | Single => interior
  | Double => Z.b2z (Nat.ltb 0 i) + Z.b2z (Nat.ltb (S i) (length route))
  | SingleHDoubleV => interior + Z.b2z (vertical_before route i) + Z.b2z (vertical_at route i)
  end.

Lemma zip_replicate_ones (l : list Cell) : flat_map (fun e => replicate e.2 e.1) (zip l (replicate (length l) 1%nat)) = l.
Proof. induction l as [|x l IH]; simpl; [done|]. by rewrite IH. Qed.

Lemma length_windows {A} (l : list A) : length (windows l) = pred (length l).
Proof. unfold windows. rewrite length_zip. destruct l as [|x l]; [done|]. cbn [tail length pred]. lia. Qed.

(** The ends of a simple route, seen from position [i]. *)
Lemma route_ends (route : list Cell) i c :
  NoDup route -> route !! i = Some c ->
  exists x y, head route = Some x /\ last route = Some y /\
    bool_decide (x = c) = Nat.eqb i 0 /\ bool_decide (y = c) = Nat.eqb (S i) (length route).
Proof.
  intros Hnd Hi. pose proof (lookup_lt_Some _ _ _ Hi) as Hlt.
  assert (Hat : forall j x, route !! j = Some x -> bool_decide (x = c) = Nat.eqb i j).
  { intros j x Hj. destruct (Nat.eqb_spec i j) as [->|Hne].
    - apply bool_decide_eq_true_2. congruence.
    - apply bool_decide_eq_false_2. intros ->. apply Hne. by eapply NoDup_lookup. }
  destruct (lookup_lt_is_Some_2 route 0 ltac:(lia)) as [x Hx].
  destruct (lookup_lt_is_Some_2 route (pred (length route)) ltac:(lia)) as [y Hy].
  exists x, y. split_and!.
  - rewrite <- Hx. by destruct route.
  - by rewrite last_lookup.
  - by apply Hat.
  - rewrite (Hat _ _ Hy). destruct (Nat.eqb_spec i (pred (length route))), (Nat.eqb_spec (S i) (length route)); lia.
Qed.

Definition hop_cells (l : list Cell) : list Cell := flat_map (fun hop => [hop.1; hop.2]) (windows l).

Lemma hop_cells_cons x y l : hop_cells (x :: y :: l) = x :: y :: hop_cells (y :: l).
Proof. done. Qed.

Lemma hop_cells_subset l c : c ∈ hop_cells l -> c ∈ l.
Proof.
  induction l as [|x [|y l] IH]; [done|by intros Hc%not_elem_of_nil|]. rewrite hop_cells_cons, !elem_of_cons.
  intros [->|[->|Hc]]; [by left|right; by left|right]. apply elem_of_cons. by apply IH.
Qed.

Lemma count_hop_cells route i c :
  NoDup route -> route !! i = Some c ->
  count_cell (hop_cells route) c = Z.b2z (Nat.ltb 0 i) + Z.b2z (Nat.ltb (S i) (length route)).
Proof.
  revert i; induction route as [|x [|y l] IH]; intros i Hnd Hi; [done| |].
  - destruct i; [|done]. done.
  - rewrite hop_cells_cons, !count_cell_cons. apply NoDup_cons in Hnd as [Hx Hnd]. destruct i as [|i].
    + injection Hi as ->. rewrite bool_decide_eq_true_2 by done. rewrite bool_decide_eq_false_2 by (intros ->; apply Hx; by left).
      rewrite count_cell_absent by (intros Hc; by apply Hx, hop_cells_subset). done.
    + rewrite bool_decide_eq_false_2 by (intros ->; by apply Hx, (list_elem_of_lookup_2 _ i)).
      rewrite (IH i Hnd Hi). destruct (route_ends (y :: l) i c Hnd Hi) as (y' & z & [= <-] & _ & -> & _).
      change (Nat.ltb (S (S i)) (length (x :: y :: l))) with (Nat.ltb (S i) (length (y :: l))).
      destruct (Nat.eqb_spec i 0), (Nat.ltb_spec 0 i); try lia; simpl Z.b2z; lia.
Qed.

Lemma inner_subset {A} (l : list A) x : x ∈ inner l -> x ∈ l.
Proof.
  unfold inner. intros Hx. eapply elem_of_sublist; [exact Hx|].
  etransitivity; [apply sublist_take|apply sublist_drop].
Qed.

Lemma length_multiplicity route : length (multiplicity route) = length route.
Proof.
  change (multiplicity route) with (fold_left bump (enumerate (windows route)) (replicate (length route) 1%nat)).
  by rewrite length_bumps, length_replicate.
Qed.

(** Repeating every slot of a route keeps its ends. *)
Lemma expanded_ends_gen (route : list Cell) (ms : list nat) x y :
  length ms = length route -> Forall (fun m => 1 <= m)%nat ms -> head route = Some x -> last route = Some y ->
  let ex := flat_map (fun e => replicate e.2 e.1) (zip route ms) in
  (length route <= length ex)%nat /\ head ex = Some x /\ last ex = Some y.
Proof.
  revert ms x; induction route as [|r route IH]; intros [|m ms] x Hlen Hms Hx Hy; try done.
  apply Forall_cons in Hms as [Hm Hms]. injection Hx as ->. simpl in Hlen. injection Hlen as Hlen.
  destruct m as [|m]; [lia|]. cbv zeta.
  change (flat_map _ (zip (x :: route) (S m :: ms))) with
    (replicate (S m) x ++ flat_map (fun e => replicate e.2 e.1) (zip route ms)).
  destruct route as [|r' route].
  - destruct ms; [|done]. injection Hy as ->. simpl. rewrite app_nil_r, length_replicate. split_and!; [lia|done|].
    rewrite replicate_cons_app. apply last_snoc.
  - destruct (IH ms r' Hlen Hms eq_refl) as (Hle & Hh & Hl); [by rewrite <- Hy|].
    rewrite length_app, length_replicate. split_and!; [simpl in *; lia|done|].
    by rewrite last_app, Hl.
Qed.

Lemma expanded_ends route x y :
  (2 <= length route)%nat -> head route = Some x -> last route = Some y ->
  let ex := flat_map (fun e => replicate e.2 e.1) (zip route (multiplicity route)) in
  (2 <= length ex)%nat /\ head ex = Some x /\ last ex = Some y.
Proof.
  intros Hl Hx Hy. destruct (expanded_ends_gen route (multiplicity route) x y) as (Hle & ? & ?);
    [apply length_multiplicity| |done|done|split_and!; [simpl in *; lia|done|done]].
  apply Forall_forall. intros m (i & Hi)%list_elem_of_lookup. pose proof (lookup_lt_Some _ _ _ Hi) as Hlt.
  rewrite length_multiplicity in Hlt. rewrite multiplicity_spec in Hi by done. injection Hi as <-. lia.
Qed.

(** Each scheme puts exactly its registers in each slot of the route. On
    a simple route of at least two slots, [Single] puts one Body register in
    each intermediate slot, [Double] one on each side of every boundary, and
    [SingleHDoubleV] one in each intermediate slot plus, for every vertical hop,
    one in each of its two slots; no scheme puts any register off the route. *)
Theorem register_placement route s i c :
  (2 <= length route)%nat -> NoDup route -> route !! i = Some c ->
  count_cell (pipeline_reg_cells route s) c = registers_at route s i /\
  forall x, x ∉ route -> count_cell (pipeline_reg_cells route s) x = 0.
Proof.
  intros Hl Hnd Hi. unfold pipeline_reg_cells. rewrite (proj2 (Nat.ltb_ge _ _)) by done.
  pose proof (lookup_lt_Some _ _ _ Hi) as Hlt. destruct (route_ends route i c Hnd Hi) as (x & y & Hx & Hy & Hxc & Hyc).
  assert (Hint : 1 - Z.b2z (Nat.eqb i 0) - Z.b2z (Nat.eqb (S i) (length route)) =
                 Z.b2z (Nat.ltb 0 i && Nat.ltb (S i) (length route))).
  { destruct (Nat.eqb_spec i 0), (Nat.eqb_spec (S i) (length route)), (Nat.ltb_spec 0 i), (Nat.ltb_spec (S i) (length route));
      simpl; lia. }
  assert (Hone : count_cell route c = 1).
  { rewrite <- (zip_replicate_ones route). apply (count_weighted route _ i c 1%nat Hnd); [by rewrite length_replicate|done|].
    by apply lookup_replicate_2. }
  destruct s; cbn [registers_at].
  - split; [rewrite (count_inner route x y c Hl Hx Hy), Hone, Hxc, Hyc; lia|].
    intros z Hz. apply count_cell_absent. intros Hin. by apply Hz, inner_subset.
  - split; [by apply count_hop_cells|]. intros z Hz. apply count_cell_absent. intros Hin. by apply Hz, hop_cells_subset.
  - set (ex := flat_map _ (zip route (multiplicity route))).
    assert (Hex : count_cell ex c = 1 + Z.b2z (vertical_at route i) + Z.b2z (vertical_before route i)).
    { unfold ex. rewrite (count_weighted route (multiplicity route) i c _ Hnd (length_multiplicity route) Hi (multiplicity_spec route i Hlt)).
      destruct (vertical_at route i), (vertical_before route i); simpl; lia. }
    destruct (expanded_ends route x y Hl Hx Hy) as (Hexl & Hexx & Hexy).
    split; [rewrite (count_inner ex x y c Hexl Hexx Hexy), Hex, Hxc, Hyc; lia|].
    intros z Hz. apply count_cell_absent. intros Hin. apply Hz. apply inner_subset in Hin. unfold ex in Hin.
    apply list_elem_of_In, in_flat_map in Hin as ([w k] & Hin & Hrep). apply list_elem_of_In, elem_of_replicate in Hrep as [-> _].
    apply in_combine_l in Hin. by apply list_elem_of_In.
Qed.

(** ** Planned routes *)

(** [ch] is a channel of the graph from vertex [src] to [dst], [w] wires wide. *)
Definition channel_net (g : FloorGraph) (ch : RoutedChannel) (src dst : nat) (w : Z) : Prop :=
  match ch with
  | RStream f => exists n, n ∈ streams g /\ st_link n = f /\ st_src n = src /\ st_dst n = dst /\ st_width n = w
  | RAxi ep bank c => exists n, n ∈ axi_nets g /\ an_endpoint n = ep /\ an_bank n = bank /\ an_channel n = c /\
      an_src n = src /\ an_dst n = dst /\ an_width n = w
  | RControl i c => exists n, n ∈ control_nets g /\ cn_instance n = i /\ cn_channel n = c /\
      cn_src n = src /\ cn_dst n = dst /\ cn_width n = w
  end.

(** Whether two vertices are placed in different slots. *)
Definition crosses (regions : list Cell) (src dst : nat) : bool := negb (bool_decide (regions !! src = regions !! dst)).

(** The channels that need a route, in order: a crossing launch brings the reset
    of its instance along; resets have no route of their own. *)
Definition stream_channels (regions : list Cell) (n : Stream) : list RoutedChannel :=
  if crosses regions (st_src n) (st_dst n) then [RStream (st_link n)] else [].
Definition axi_channels (regions : list Cell) (n : AxiNet) : list RoutedChannel :=
  if crosses regions (an_src n) (an_dst n) then [RAxi (an_endpoint n) (an_bank n) (an_channel n)] else [].
Definition control_channels (regions : list Cell) (n : ControlNet) : list RoutedChannel :=
  if negb (is_reset (cn_channel n)) && crosses regions (cn_src n) (cn_dst n)
  then RControl (cn_instance n) (cn_channel n) :: (if is_launch (cn_channel n) then [RControl (cn_instance n) Reset] else [])
  else [].

Definition expected_channels (g : FloorGraph) (regions : list Cell) : list RoutedChannel :=
  flat_map (stream_channels regions) (streams g) ++ flat_map (axi_channels regions) (axi_nets g) ++
  flat_map (control_channels regions) (control_nets g).

Definition channels_of (n : PendingNet) : list RoutedChannel :=
  pn_channel n :: match shared_channels n with Some c => [c] | None => [] end.

(** A pending net stands for its channels, between the slots of its vertices. *)
Definition net_ok (g : FloorGraph) (regions : list Cell) (n : PendingNet) : Prop :=
  exists src dst w, channel_net g (pn_channel n) src dst w /\ regions !! src = Some (pn_src n) /\
    regions !! dst = Some (pn_dst n) /\ pn_src n <> pn_dst n /\
    match shared_channels n with
    | None => pn_width n = w
    | Some c => exists w', channel_net g c src dst w' /\ pn_width n = w + w' /\ w + w' <= U32_MAX
    end.

Lemma crossing_cells_ok {E} regions src dst c :
  @crossing_cells E regions src dst = Ok c ->
  match c with
  | None => crosses regions src dst = false
  | Some (s, d) => crosses regions src dst = true /\ regions !! src = Some s /\ regions !! dst = Some d /\ s <> d
  end.
Proof.
  unfold crossing_cells, crosses. intros H. apply rbind_ok in H as (s & Hs%expect_ok & H).
  apply rbind_ok in H as (d & Hd%expect_ok & [= <-]). rewrite Hs, Hd. case_bool_decide as Heq.
  - subst. by rewrite bool_decide_eq_true_2.
  - rewrite bool_decide_eq_false_2 by congruence. done.
Qed.

(** The loop invariant of the three passes: [chs] are the channels so far. *)
Definition nets_ok (g : FloorGraph) (regions : list Cell) (chs : list RoutedChannel) (nets : list PendingNet) : Prop :=
  flat_map channels_of nets = chs /\ Forall (net_ok g regions) nets.

Lemma nets_ok_snoc g regions chs nets n :
  nets_ok g regions chs nets -> net_ok g regions n -> nets_ok g regions (chs ++ channels_of n) (nets ++ [n]).
Proof.
  intros [<- Hall] Hn. split; [by rewrite flat_map_app; simpl; rewrite app_nil_r|].
  apply Forall_app. split; [done|]. apply Forall_cons. split; [done|]. by apply Forall_nil.
Qed.

(** A pass over the nets of one kind. *)
Lemma pass_ok {A} g regions (f : list PendingNet -> A -> res PipelineError (list PendingNet)) (chs_of : A -> list RoutedChannel)
    (all l : list A) chs nets nets' :
  (forall chs nets x nets', x ∈ all -> nets_ok g regions chs nets -> f nets x = Ok nets' ->
     nets_ok g regions (chs ++ chs_of x) nets' /\ (length nets' <= S (length nets))%nat) ->
  (forall x, x ∈ l -> x ∈ all) -> nets_ok g regions chs nets -> try_fold f nets l = Ok nets' ->
  nets_ok g regions (chs ++ flat_map chs_of l) nets' /\ (length nets' <= length nets + length l)%nat.
Proof.
  intros Hstep. revert chs nets; induction l as [|x l IH]; simpl; intros chs nets Hsub Hok H.
  - injection H as <-. rewrite app_nil_r. split; [done|lia].
  - apply rbind_ok in H as (nets1 & H1 & H). destruct (Hstep _ _ _ _ (Hsub x ltac:(by left)) Hok H1) as [Hok1 Hl1].
    destruct (IH _ _ (fun y Hy => Hsub y ltac:(by right)) Hok1 H) as [Hok2 Hl2]. rewrite app_assoc. split; [done|lia].
Qed.

Lemma control_net_ok g regions chs nets e nets' :
  e ∈ control_nets g -> nets_ok g regions chs nets -> control_net (control_nets g) regions nets e = Ok nets' ->
  nets_ok g regions (chs ++ control_channels regions e) nets' /\ (length nets' <= S (length nets))%nat.
Proof.
  intros Hin Hok. unfold control_net, control_channels. destruct (is_reset (cn_channel e)); simpl.
  { intros [= <-]. rewrite app_nil_r. split; [done|lia]. }
  intros H. apply rbind_ok in H as (c & Hc%crossing_cells_ok & H). destruct c as [[s d]|].
  2: { injection H as <-. rewrite Hc, app_nil_r. split; [done|lia]. }
  destruct Hc as (-> & Hs & Hd & Hne). apply rbind_ok in H as ([shared width] & Hw & [= <-]).
  rewrite length_app. simpl. split; [|lia].
  assert (Hself : channel_net g (RControl (cn_instance e) (cn_channel e)) (cn_src e) (cn_dst e) (cn_width e)) by (exists e; done).
  destruct (is_launch (cn_channel e)).
  - apply rbind_ok in Hw as (reset & Hreset%ok_or_ok & Hw). apply rbind_ok in Hw as (w & Hsum%ok_or_ok & [= <- <-]).
    unfold checked_add32 in Hsum. apply fits_Some in Hsum as [-> Hsum]. apply find_first_Some in Hreset as [Hr Hb].
    apply andb_true_iff in Hb as [Hb Hdst%Nat.eqb_eq]. apply andb_true_iff in Hb as [Hb Hsrc%Nat.eqb_eq].
    apply andb_true_iff in Hb as [Hinst%bool_decide_eq_true_1 Hch].
    destruct (cn_channel reset) eqn:Hch'; try done. rewrite Hinst. apply (nets_ok_snoc g regions chs nets (mkPending (RControl (cn_instance e) (cn_channel e))
      (Some (RControl (cn_instance e) Reset)) s d (cn_width e + cn_width reset)) Hok).
    exists (cn_src e), (cn_dst e), (cn_width e). split_and!; try done. exists (cn_width reset). split; [|simpl; lia].
    exists reset. split_and!; congruence || done.
  - injection Hw as <- <-.
    apply (nets_ok_snoc g regions chs nets (mkPending (RControl (cn_instance e) (cn_channel e)) None s d (cn_width e)) Hok).
    by exists (cn_src e), (cn_dst e), (cn_width e).
Qed.

Lemma stream_net_ok g regions chs nets e nets' :
  e ∈ streams g -> nets_ok g regions chs nets -> stream_net regions nets e = Ok nets' ->
  nets_ok g regions (chs ++ stream_channels regions e) nets' /\ (length nets' <= S (length nets))%nat.
Proof.
  intros Hin Hok H. unfold stream_net in H. apply rbind_ok in H as (c & Hc%crossing_cells_ok & [= <-]).
  unfold stream_channels. destruct c as [[s d]|]; [|rewrite Hc, app_nil_r; split; [done|lia]].
  destruct Hc as (-> & Hs & Hd & Hne). rewrite length_app. split; [|simpl; lia].
  apply (nets_ok_snoc g regions chs nets (mkPending (RStream (st_link e)) None s d (st_width e)) Hok).
  exists (st_src e), (st_dst e), (st_width e). split_and!; try done. by exists e.
Qed.

Lemma axi_net_ok g regions chs nets e nets' :
  e ∈ axi_nets g -> nets_ok g regions chs nets -> axi_net regions nets e = Ok nets' ->
  nets_ok g regions (chs ++ axi_channels regions e) nets' /\ (length nets' <= S (length nets))%nat.
Proof.
  intros Hin Hok H. unfold axi_net in H. apply rbind_ok in H as (c & Hc%crossing_cells_ok & [= <-]).
  unfold axi_channels. destruct c as [[s d]|]; [|rewrite Hc, app_nil_r; split; [done|lia]].
  destruct Hc as (-> & Hs & Hd & Hne). rewrite length_app. split; [|simpl; lia].
  apply (nets_ok_snoc g regions chs nets (mkPending (RAxi (an_endpoint e) (an_bank e) (an_channel e)) None s d (an_width e)) Hok).
  exists (an_src e), (an_dst e), (an_width e). split_and!; try done. by exists e.
Qed.

Lemma cross_slot_nets_ok g regions nets :
  cross_slot_nets g regions = Ok nets ->
  nets_ok g regions (expected_channels g regions) nets /\ (length nets <= length (all_nets g))%nat.
Proof.
  unfold cross_slot_nets. intros H. apply rbind_ok in H as (n1 & H1 & H). apply rbind_ok in H as (n2 & H2 & H3).
  assert (H0 : nets_ok g regions [] []) by (split; [done|by apply Forall_nil]).
  destruct (pass_ok g regions _ (stream_channels regions) (streams g) (streams g) [] [] n1
    (fun _ _ _ _ => stream_net_ok _ _ _ _ _ _) (fun _ Hx => Hx) H0 H1) as [K1 L1].
  destruct (pass_ok g regions _ (axi_channels regions) (axi_nets g) (axi_nets g) _ n1 n2
    (fun _ _ _ _ => axi_net_ok _ _ _ _ _ _) (fun _ Hx => Hx) K1 H2) as [K2 L2].
  destruct (pass_ok g regions _ (control_channels regions) (control_nets g) (control_nets g) _ n2 nets
    (fun _ _ _ _ => control_net_ok _ _ _ _ _ _) (fun _ Hx => Hx) K2 H3) as [K3 L3].
  split; [unfold expected_channels; rewrite app_assoc; exact K3|].
  unfold all_nets, stream_nets, axi_net_list, control_net_list. rewrite !length_app, !length_map. simpl in L1. lia.
Qed.

(** A planned route carries its channel between the slots of its vertices. *)
Definition planned_ok (g : FloorGraph) (regions : list Cell) (d : Device) (s : PipelineScheme) (r : PlannedRoute) (w : Z) : Prop :=
  p_scheme r = s /\ reg_regions r = pipeline_reg_cells (p_route r) s /\
  exists src dst a b, channel_net g (p_channel r) src dst w /\ regions !! src = Some a /\ regions !! dst = Some b /\
    a <> b /\ legal_route d a b (p_route r).

(** The wires planned routes put across the border of [a] and [b]. *)
Definition planned_load (rs : list PlannedRoute) (ws : list Z) (a b : Cell) : Z :=
  zsum (fun e => if path_crosses (p_route e.1) (mkBoundary a b None) then e.2 else 0) (zip rs ws).

(** The channels of one net on its route: a launch and its reset share it, and
    their wires add up to those of the net. *)
Lemma plan_net g regions d s n r :
  net_ok g regions n -> legal_route d (pn_src n) (pn_dst n) r ->
  exists ws, Forall2 (planned_ok g regions d s) (planned_of s (n, r)) ws /\
    forall a b, planned_load (planned_of s (n, r)) ws a b =
      if path_crosses r (mkBoundary a b None) then pn_width n else 0.
Proof.
  intros (src & dst & w & Hch & Hs & Hd & Hne & Hshared) Hlegal. unfold planned_of. cbn [fst snd].
  destruct (shared_channels n) as [c|].
  - destruct Hshared as (w' & Hc & Hw & _). exists [w; w']. simpl. split.
    + apply Forall2_cons. split; [split_and!; [done|done|by exists src, dst, (pn_src n), (pn_dst n)]|].
      apply Forall2_cons. split; [split_and!; [done|done|by exists src, dst, (pn_src n), (pn_dst n)]|]. by apply Forall2_nil.
    + intros a b. unfold planned_load. simpl. destruct (path_crosses r _); lia.
  - exists [w]. simpl. split.
    + apply Forall2_cons. split; [split_and!; [done|done|by exists src, dst, (pn_src n), (pn_dst n)]|]. by apply Forall2_nil.
    + intros a b. unfold planned_load. simpl. destruct (path_crosses r _); lia.
Qed.

Lemma plan_nets g regions d s nets routes :
  length routes = length nets -> Forall (net_ok g regions) nets ->
  (forall i n r, nets !! i = Some n -> routes !! i = Some r -> legal_route d (pn_src n) (pn_dst n) r) ->
  exists ws, Forall2 (planned_ok g regions d s) (flat_map (planned_of s) (zip nets routes)) ws /\
    forall a b, planned_load (flat_map (planned_of s) (zip nets routes)) ws a b =
      border_load (map route_net_of nets) routes a b.
Proof.
  revert routes; induction nets as [|n nets IH]; intros [|r routes] Hlen Hall Hlegal; try done.
  { exists []. split; [by apply Forall2_nil|done]. }
  apply Forall_cons in Hall as [Hn Hall]. simpl in Hlen. injection Hlen as Hlen.
  destruct (IH routes Hlen Hall (fun i => Hlegal (S i))) as (ws & Hws & Hload).
  destruct (plan_net g regions d s n r Hn (Hlegal 0%nat _ _ eq_refl eq_refl)) as (ws0 & Hws0 & Hload0).
  exists (ws0 ++ ws). cbn [zip zip_with flat_map]. split; [by apply Forall2_app|]. intros a b.
  unfold planned_load. rewrite zip_with_app by (by eapply Forall2_length). rewrite zsum_app.
  change (planned_load (planned_of s (n, r)) ws0 a b + planned_load (flat_map (planned_of s) (zip nets routes)) ws a b =
    border_load (map route_net_of (n :: nets)) (r :: routes) a b).
  rewrite Hload0, Hload. done.
Qed.

Lemma channels_of_planned s nets routes :
  length routes = length nets -> map p_channel (flat_map (planned_of s) (zip nets routes)) = flat_map channels_of nets.
Proof.
  revert routes; induction nets as [|n nets IH]; intros [|r routes] Hlen; try done. simpl in Hlen. injection Hlen as Hlen.
  cbn [zip zip_with flat_map]. rewrite map_app. cbn [flat_map]. f_equal; [|by apply IH].
  unfold planned_of, channels_of. rewrite map_map. simpl. by destruct (shared_channels n).
Qed.

Lemma channel_width_u32 g ch src dst w :
  (forall n, n ∈ all_nets g -> in_u32 (net_width n)) -> channel_net g ch src dst w -> in_u32 w.
Proof.
  intros Hw Hch. destruct ch as [f|ep bank c|i c]; simpl in Hch.
  - destruct Hch as (n & Hin & _ & _ & _ & <-). apply (Hw (st_src n, st_dst n, st_width n)). unfold all_nets.
    apply elem_of_app. left. by apply (list_elem_of_fmap_2 (fun s => (st_src s, st_dst s, st_width s))).
  - destruct Hch as (n & Hin & _ & _ & _ & _ & _ & <-). apply (Hw (an_src n, an_dst n, an_width n)). unfold all_nets.
    apply elem_of_app. right. apply elem_of_app. left. by apply (list_elem_of_fmap_2 (fun s => (an_src s, an_dst s, an_width s))).
  - destruct Hch as (n & Hin & _ & _ & _ & _ & <-). apply (Hw (cn_src n, cn_dst n, cn_width n)). unfold all_nets.
    apply elem_of_app. right. apply elem_of_app. right. by apply (list_elem_of_fmap_2 (fun s => (cn_src s, cn_dst s, cn_width s))).
Qed.

Lemma net_width_u32 g regions n :
  (forall m, m ∈ all_nets g -> in_u32 (net_width m)) -> net_ok g regions n -> in_u32 (pn_width n).
Proof.
  intros Hw (src & dst & w & Hch & _ & _ & _ & Hs). pose proof (channel_width_u32 _ _ _ _ _ Hw Hch) as [? ?].
  destruct (shared_channels n) as [c|]; [|by rewrite Hs]. destruct Hs as (w' & Hc & -> & Hle).
  pose proof (channel_width_u32 _ _ _ _ _ Hw Hc) as [? ?]. unfold in_u32. lia.
Qed.

(** What [plan_routes] returns. *)
Lemma plan_routes_ok solve g regions baseline d s limit opts rs :
  typed d -> complete_grid d -> cols d + rows d <= U32_MAX ->
  (forall n, n ∈ all_nets g -> in_u32 (net_width n)) -> Z.of_nat (length (all_nets g)) <= U32_MAX ->
  plan_routes solve g regions baseline d s limit opts = Ok rs ->
  map p_channel rs = expected_channels g regions /\
  exists ws, Forall2 (planned_ok g regions d s) rs ws /\
    (rs <> [] -> forall a b u v cap, slot d a.1 a.2 = Some u -> slot d b.1 b.2 = Some v ->
       (b = (a.1 + 1, a.2) /\ bounded_border_capacity (east (wire_cap u)) (west (wire_cap v)) = Some cap \/
        b = (a.1, a.2 + 1) /\ bounded_border_capacity (north (wire_cap u)) (south (wire_cap v)) = Some cap) ->
       planned_load rs ws a b <= cap).
Proof.
  intros Hd Hg Hsize Hw Hlen H. unfold plan_routes in H. destruct (negb _); [done|].
  apply rbind_ok in H as (nets & Hnets & H). destruct (cross_slot_nets_ok _ _ _ Hnets) as [[Hch Hall] Hle].
  destruct nets as [|n0 nets0] eqn:Enets.
  { injection H as <-. split; [by rewrite <- Hch|]. exists []. split; [by apply Forall2_nil|done]. }
  rewrite <- Enets in *. apply rbind_ok in H as (routes & Hroutes & [= <-]).
  destruct (route_nets solve (map route_net_of nets) d _ opts) as [routes'|e|] eqn:E; [|done|done]. injection Hroutes as ->.
  apply route_nets_legal in E as (Hrlen & Hlegal & Hcap); try done.
  2: { by rewrite Enets. }
  2: { apply Forall_forall. intros rn Hin. apply list_elem_of_In, in_map_iff in Hin as (n & <- & Hin%list_elem_of_In).
       rewrite Forall_forall in Hall. by apply (net_width_u32 g regions), Hall. }
  2: { rewrite length_map. lia. }
  rewrite length_map in Hrlen.
  destruct (plan_nets g regions d s nets routes Hrlen Hall) as (ws & Hws & Hload).
  { intros i n r Hn Hr. apply (Hlegal i (route_net_of n)); [by rewrite list_lookup_fmap, Hn|done]. }
  split; [by rewrite channels_of_planned|]. exists ws. split; [done|]. intros _ a b u v cap Hu Hv Hc. rewrite Hload. by eapply Hcap.
Qed.

(** Every channel that crosses slots is planned exactly once, whatever the
    solver answers. The planned channels are, in order, the streams and AXI
    channels whose ends are in different slots, and the launch, with the reset
    of its instance, and completion channels that are; each has a simple path of
    the device from the slot of its source to that of its destination, and the
    registers its scheme gives that path; and together, on every border with
    bounded wires, they use no more wires than there are. *)
Theorem planned_routes_exact solve g regions baseline d s limit opts rs :
  typed d -> complete_grid d -> cols d + rows d <= U32_MAX ->
  (forall n, n ∈ all_nets g -> in_u32 (net_width n)) -> Z.of_nat (length (all_nets g)) <= U32_MAX ->
  plan_routes solve g regions baseline d s limit opts = Ok rs ->
  map p_channel rs = expected_channels g regions /\
  exists ws, Forall2 (planned_ok g regions d s) rs ws /\
    (rs <> [] -> forall a b u v cap, slot d a.1 a.2 = Some u -> slot d b.1 b.2 = Some v ->
       (b = (a.1 + 1, a.2) /\ bounded_border_capacity (east (wire_cap u)) (west (wire_cap v)) = Some cap \/
        b = (a.1, a.2 + 1) /\ bounded_border_capacity (north (wire_cap u)) (south (wire_cap v)) = Some cap) ->
       planned_load rs ws a b <= cap).
Proof. apply plan_routes_ok. Qed.

(** ** Realized usage *)

Lemma add_usage_grows usage c a link usage' :
  usage_wf usage -> Area.wf a -> add_usage usage c a link = Ok usage' ->
  grows_by usage usage' (fun c' r => at_cell c c' (amount r a)).
Proof.
  intros Hu Ha H. unfold add_usage in H. apply rbind_ok in H as (b & Hb%ok_or_ok & [= <-]).
  pose proof (used_wf usage c Hu) as Hc. eapply insert_grows; [done|by eapply (Area.checked_add_wf _ a)|done|].
  intros r. by destruct (proj1 (Area.checked_add_Some _ _ _ Hc Ha) Hb r).
Qed.

Lemma subtract_usage_grows usage c a link usage' :
  usage_wf usage -> Area.wf a -> subtract_usage usage c a link = Ok usage' ->
  grows_by usage usage' (fun c' r => at_cell c c' (- amount r a)).
Proof.
  intros Hu Ha H. unfold subtract_usage in H. apply rbind_ok in H as (x & Hx%ok_or_ok & H).
  apply rbind_ok in H as (b & Hb%ok_or_ok & [= <-]). pose proof (proj2 Hu _ _ Hx) as Hc.
  eapply (insert_grows _ _ x); [done|by eapply (Area.checked_sub_wf x a)|by rewrite Hx|].
  intros r. destruct (proj1 (Area.checked_sub_Some _ _ _ Hc Ha) Hb r). lia.
Qed.

Lemma ff_area_wf lut w : 0 <= lut <= 1 -> in_u32 w -> Area.wf (mkArea lut w 0 0 0).
Proof. intros Hl [Hw0 Hw1] r. unfold in_u64, U64_MAX, U32_MAX in *. destruct r; simpl; lia. Qed.

(** The registers of a pipeline: its head and its bodies. *)
Definition register_cost (hd : Cell) (bodies : list Cell) (w luts : Z) (c : Cell) (r : Resource) : Z :=
  at_cell hd c (amount r (mkArea luts w 0 0 0)) + count_cell bodies c * amount r (ff_area w).

Lemma bodies_grow bodies w link usage usage' :
  usage_wf usage -> in_u32 w ->
  try_fold (fun usage region => add_usage usage region (ff_area w) link) usage bodies = Ok usage' ->
  grows_by usage usage' (fun c r => count_cell bodies c * amount r (ff_area w)).
Proof.
  intros Hu Hw. revert usage Hu. induction bodies as [|b bodies IH]; simpl; intros usage Hu H.
  - injection H as <-. split; [done|]. intros c r. unfold count_cell. simpl. lia.
  - apply rbind_ok in H as (u1 & H1 & H). apply add_usage_grows in H1; [|done|by apply ff_area_wf].
    eapply grows_by_ext; [|eapply grows_by_trans; [exact H1|by apply IH; [apply H1|]]].
    intros c r. simpl. rewrite count_cell_cons. unfold at_cell. destruct (bool_decide (b = c)); simpl Z.b2z; lia.
Qed.

Lemma head_and_body_grow usage hd bodies w luts link usage' :
  usage_wf usage -> in_u32 w -> 0 <= luts <= 1 ->
  account_head_and_body usage hd bodies w luts link = Ok usage' ->
  grows_by usage usage' (register_cost hd bodies w luts).
Proof.
  intros Hu Hw Hl H. unfold account_head_and_body in H. apply rbind_ok in H as (u1 & H1 & H).
  apply add_usage_grows in H1; [|done|by apply ff_area_wf].
  apply (grows_by_trans _ _ _ _ _ H1). by apply bodies_grow in H; [|apply H1|].
Qed.

(** ** What a planned route costs *)

Definition body_level (r : PlannedRoute) : Z := Z.of_nat (length (reg_regions r)).

(** The resources of a route, from the metadata of its channel: the registers,
    and the tail, which replaces the FIFO a stream was estimated with. *)
Definition route_cost (g : FloorGraph) (rt : PlannedRoute) (c : Cell) (r : Resource) : Z :=
  match head (p_route rt), last (p_route rt) with
  | Some hd, Some tl =>
      match p_channel rt with
      | RStream f =>
          match BMap.get f (stream_map g) with
          | Some st =>
              at_cell tl c (amount r (fifo_area (st_data_width st) (st_depth st + (body_level rt * 2 + 6)))
                            - amount r (fifo_area (st_data_width st) (floorplanned_fifo_storage_depth (st_depth st))))
              + register_cost hd (reg_regions rt) (st_width st) 1 c r
          | None => 0
          end
      | RAxi ep bank ch =>
          match find_axi g ep bank ch with
          | Some n => at_cell tl c (amount r (fifo_area (payload_width n) (body_level rt * 2 + 8)))
                      + register_cost hd (reg_regions rt) (an_width n) 1 c r
          | None => 0
          end
      | RControl i ch =>
          match find_control g i ch with
          | Some n => at_cell tl c (amount r (ff_area (cn_width n))) + register_cost hd (reg_regions rt) (cn_width n) 0 c r
          | None => 0
          end
      end
  | _, _ => 0
  end.

(** Widths are [u32]. *)
Record graph_typed (g : FloorGraph) : Prop := {
  gt_streams : forall n, n ∈ streams g -> in_u32 (st_data_width n) /\ in_u32 (st_width n);
  gt_axi : forall n, n ∈ axi_nets g -> in_u32 (payload_width n) /\ in_u32 (an_width n);
  gt_control : forall n, n ∈ control_nets g -> in_u32 (cn_width n);
}.

Lemma route_endpoints_ok g regions rt src dst link hd tl :
  route_endpoints g regions rt src dst link = Ok (hd, tl) -> head (p_route rt) = Some hd /\ last (p_route rt) = Some tl.
Proof.
  unfold route_endpoints. intros H. apply rbind_ok in H as (h & Hh%ok_or_ok & H). apply rbind_ok in H as (t & Ht%ok_or_ok & H).
  apply rbind_ok in H as (_ & _ & H). by apply rbind_ok in H as (_ & _ & [= <- <-]).
Qed.

Lemma tail_depth_ok rt k link z : tail_depth rt k link = Ok z -> z = body_level rt * 2 + k.
Proof.
  unfold tail_depth, checked_mul32, checked_add32. intros H. apply rbind_ok in H as (l & Hl%ok_or_ok & H%ok_or_ok).
  apply fits_Some in Hl as [-> _]. destruct (fits U32_MAX (Z.of_nat _ * 2)) as [m|] eqn:E; [|done].
  apply fits_Some in E as [-> _]. by apply fits_Some in H as [-> _].
Qed.

Lemma stream_cost g regions rt f st usage usage' :
  graph_typed g -> usage_wf usage -> p_channel rt = RStream f -> BMap.get f (stream_map g) = Some st -> st ∈ streams g ->
  account_stream_pipeline usage g regions rt st f = Ok usage' -> grows_by usage usage' (route_cost g rt).
Proof.
  intros Hg Hu Hch Hst Hin H. destruct (gt_streams _ Hg _ Hin) as [Hdw _]. unfold account_stream_pipeline in H.
  apply rbind_ok in H as ([hd tl] & [Hh Ht]%route_endpoints_ok & H). apply rbind_ok in H as (u1 & H1 & H).
  apply rbind_ok in H as (extra & ->%tail_depth_ok & H). apply rbind_ok in H as (depth & Hd%ok_or_ok & H).
  apply rbind_ok in H as (u2 & H2 & H). apply rbind_ok in H as (rw & Hrw%ok_or_ok & H).
  unfold checked_add32 in Hd, Hrw. apply fits_Some in Hd as [-> _].
  destruct (fits U32_MAX (st_data_width st + 2)) as [x|] eqn:Ex; [|done]. apply fits_Some in Ex as [-> Hx].
  destruct (Z.eqb_spec (st_data_width st + 2) (st_width st)) as [Heq|]; [|done]. injection Hrw as <-.
  apply subtract_usage_grows in H1; [|done|by apply fifo_area_wf].
  apply add_usage_grows in H2; [|apply H1|by apply fifo_area_wf].
  apply head_and_body_grow in H; [|apply H2|unfold in_u32; lia|lia].
  eapply grows_by_ext; [|eapply grows_by_trans; [eapply grows_by_trans; [exact H1|exact H2]|exact H]].
  intros c r. unfold route_cost. rewrite Hh, Ht, Hch, Hst, Heq. unfold at_cell. destruct (bool_decide (tl = c)); lia.
Qed.

Lemma axi_cost g regions rt ep bank ch n link usage usage' :
  graph_typed g -> usage_wf usage -> p_channel rt = RAxi ep bank ch -> find_axi g ep bank ch = Some n ->
  account_axi_pipeline usage g regions rt n link = Ok usage' -> grows_by usage usage' (route_cost g rt).
Proof.
  intros Hg Hu Hch Hn H. pose proof Hn as [Hin _]%find_first_Some. destruct (gt_axi _ Hg _ Hin) as [Hp Hw].
  unfold account_axi_pipeline in H.
  apply rbind_ok in H as ([hd tl] & [Hh Ht]%route_endpoints_ok & H). apply rbind_ok in H as (depth & ->%tail_depth_ok & H).
  apply rbind_ok in H as (u1 & H1 & H). apply add_usage_grows in H1; [|done|by apply fifo_area_wf].
  apply head_and_body_grow in H; [|apply H1|done|lia].
  eapply grows_by_ext; [|eapply grows_by_trans; [exact H1|exact H]].
  intros c r. unfold route_cost. by rewrite Hh, Ht, Hch, Hn.
Qed.

Lemma control_cost g regions rt i ch n link usage usage' :
  graph_typed g -> usage_wf usage -> p_channel rt = RControl i ch -> find_control g i ch = Some n ->
  account_control_pipeline usage g regions rt n link = Ok usage' -> grows_by usage usage' (route_cost g rt).
Proof.
  intros Hg Hu Hch Hn H. pose proof Hn as [Hin _]%find_first_Some. pose proof (gt_control _ Hg _ Hin) as Hw.
  unfold account_control_pipeline in H.
  apply rbind_ok in H as ([hd tl] & [Hh Ht]%route_endpoints_ok & H). apply rbind_ok in H as (u1 & H1 & H).
  apply head_and_body_grow in H1; [|done|done|lia]. apply add_usage_grows in H; [|apply H1|by apply ff_area_wf].
  eapply grows_by_ext; [|eapply grows_by_trans; [exact H1|exact H]].
  intros c r. unfold route_cost. rewrite Hh, Ht, Hch, Hn. lia.
Qed.

Lemma stream_map_In g f st : BMap.get f (stream_map g) = Some st -> st ∈ streams g.
Proof.
  intros H%BMap.get_In%BMap.In_from_list. apply in_map_iff in H as (x & [= _ ->] & Hin). by apply list_elem_of_In.
Qed.

Lemma account_route_cost g regions rt usage usage' :
  graph_typed g -> usage_wf usage -> account_route g regions usage rt = Ok usage' -> grows_by usage usage' (route_cost g rt).
Proof.
  intros Hg Hu H. unfold account_route in H. destruct (p_channel rt) as [f|ep bank ch|i ch] eqn:Hch;
    apply rbind_ok in H as (n & Hn%ok_or_ok & H).
  - eapply stream_cost; eauto using stream_map_In.
  - by eapply axi_cost.
  - by eapply control_cost.
Qed.

Lemma account_routes_cost g regions routes usage usage' :
  graph_typed g -> usage_wf usage -> try_fold (account_route g regions) usage routes = Ok usage' ->
  grows_by usage usage' (fun c r => zsum (fun rt => route_cost g rt c r) routes).
Proof.
  intros Hg. revert usage; induction routes as [|rt routes IH]; simpl; intros usage Hu H.
  - injection H as <-. split; [done|]. intros c r. lia.
  - apply rbind_ok in H as (u1 & H1 & H). apply account_route_cost in H1; [|done..].
    eapply grows_by_trans; [exact H1|]. by apply IH; [apply H1|].
Qed.

(** What the accounting returns. *)
Lemma realize_ok g regions baseline routes d logic block usage :
  graph_typed g -> usage_wf baseline ->
  realize_slot_usage_with_resource_caps g regions baseline routes d logic block = Ok usage ->
  (forall c r, used usage c r = used baseline c r + zsum (fun rt => route_cost g rt c r) routes) /\
  (forall c a, BMap.get c usage = Some a -> exists cap, island_area d (Coor.slot c.1 c.2) = Some cap /\
     forall r, plans_resource d r = true ->
       amount r a <= scaled_amount (amount r cap) (if is_logic r then logic else block)).
Proof.
  intros Hg Hu H. unfold realize_slot_usage_with_resource_caps in H. apply rbind_ok in H as (u & Hacc & H).
  apply rbind_ok in H as ([] & Hval & [= ->]). split; [by apply (account_routes_cost g regions routes baseline)|].
  intros c a Ha. unfold validate_realized_usage in Hval. rewrite try_each_ok, Forall_forall in Hval.
  specialize (Hval (c, a) ltac:(by apply list_elem_of_In, BMap.get_In)). cbn [fst snd] in Hval.
  apply rbind_ok in Hval as (cap & Hcap%ok_or_ok & Hval). exists cap. split; [done|]. intros r Hr.
  rewrite try_each_ok, Forall_forall in Hval.
  assert (Hin : r ∈ resource_all) by (unfold resource_all; destruct r; rewrite !elem_of_cons; tauto).
  specialize (Hval r Hin). unfold check_resource in Hval. rewrite Hr in Hval. cbn [negb] in Hval.
  destruct (Z.ltb_spec (if is_logic r then amount r (scaled_area cap logic) else amount r (scaled_area cap block)) (amount r a))
    as [|Hle]; [done|].
  unfold scaled_area in Hle. destruct (is_logic r); by rewrite Area.amount_from_amounts in Hle.
Qed.

(** The realized usage is the placed usage plus what the plan generates,
    and fits the device. When the accounting succeeds, each slot holds, resource
    by resource, its baseline plus the costs of the planned routes: a head and
    a Body register per recorded region, and a tail of the depth the route needs,
    in place of the FIFO estimate for a stream; and for every slot and planned
    resource the total is within the capacity of the slot derated by the limit
    of the class of the resource. *)
Theorem realized_usage_exact g regions baseline routes d logic block usage :
  graph_typed g -> usage_wf baseline ->
  realize_slot_usage_with_resource_caps g regions baseline routes d logic block = Ok usage ->
  (forall c r, used usage c r = used baseline c r + zsum (fun rt => route_cost g rt c r) routes) /\
  (forall c a, BMap.get c usage = Some a -> exists cap, island_area d (Coor.slot c.1 c.2) = Some cap /\
     forall r, plans_resource d r = true ->
       amount r a <= scaled_amount (amount r cap) (if is_logic r then logic else block)).
Proof. apply realize_ok. Qed.

(** ** Witnesses *)

Lemma register_placement_witness :
  count_cell (pipeline_reg_cells [(0, 0); (0, 1); (0, 2)] SingleHDoubleV) (0, 1) = 3.
Proof.
  assert (Hnd : NoDup [(0, 0); (0, 1); (0, 2)]) by (apply (bool_decide_unpack _); vm_compute; done).
  exact (proj1 (register_placement [(0, 0); (0, 1); (0, 2)] SingleHDoubleV 1 (0, 1) ltac:(simpl; lia) Hnd eq_refl)).
Defined.

Module PlanExample.
(** [example_graph] with one producer away from its consumer. *)
Definition regions : list Cell := [(0, 0); (1, 0); (0, 0); (0, 0); (0, 0)].
Definition baseline : bmap Cell Area := [((0, 0), mkArea 66 13 0 0 0); ((1, 0), mkArea 66 13 0 0 0)].
Definition opts : SolveOpts := mkOpts None None None.
Definition plan : list PlannedRoute :=
  match plan_routes RouteExample.solve example_graph regions baseline Example.device Double F64.one opts with
  | Ok rs => rs
  | _ => []
  end.
Definition usage : bmap Cell Area :=
  match realize_slot_usage example_graph regions baseline plan Example.device F64.one with Ok u => u | _ => [] end.
End PlanExample.

Lemma example_planned :
  plan_routes RouteExample.solve example_graph PlanExample.regions PlanExample.baseline Example.device Double F64.one
    PlanExample.opts = Ok PlanExample.plan.
Proof. vm_compute. reflexivity. Qed.

Lemma example_realized :
  realize_slot_usage_with_resource_caps example_graph PlanExample.regions PlanExample.baseline PlanExample.plan
    Example.device F64.one F64.one = Ok PlanExample.usage.
Proof. vm_compute. reflexivity. Qed.

Definition u32_ok (z : Z) : bool := (0 <=? z) && (z <=? U32_MAX).

Lemma forallb_u32 {A} (f : A -> Z) l : forallb (fun x => u32_ok (f x)) l = true -> forall x, x ∈ l -> in_u32 (f x).
Proof.
  rewrite forallb_forall. intros H x Hx%list_elem_of_In. specialize (H x Hx). unfold u32_ok in H. bool_hyps.
  by split.
Qed.

Lemma example_net_widths : forall n, n ∈ all_nets example_graph -> in_u32 (net_width n).
Proof. apply (forallb_u32 net_width). vm_compute. reflexivity. Qed.

Lemma example_graph_typed : graph_typed example_graph.
Proof.
  split.
  - intros n Hn. split; [revert n Hn; apply (forallb_u32 st_data_width)|revert n Hn; apply (forallb_u32 st_width)];
      vm_compute; reflexivity.
  - intros n Hn. split; [revert n Hn; apply (forallb_u32 payload_width)|revert n Hn; apply (forallb_u32 an_width)];
      vm_compute; reflexivity.
  - apply (forallb_u32 cn_width). vm_compute. reflexivity.
Qed.

Lemma example_baseline_wf : usage_wf PlanExample.baseline.
Proof.
  split; [unfold BMap.wf; simpl; repeat constructor|]. intros c a H%BMap.get_In. simpl in H.
  destruct H as [[= <- <-]|[[= <- <-]|[]]]; intros []; unfold in_u64, U64_MAX; simpl; lia.
Qed.

Lemma planned_routes_exact_witness :
  map p_channel PlanExample.plan =
    [RStream "q_second_Top"; RControl "Consumer_1" Launch; RControl "Consumer_1" Reset; RControl "Consumer_1" Completion].
Proof.
  assert (Hlen : Z.of_nat (length (all_nets example_graph)) <= U32_MAX) by (vm_compute; discriminate).
  assert (Hsize : cols Example.device + rows Example.device <= U32_MAX) by (vm_compute; discriminate).
  rewrite (proj1 (planned_routes_exact _ _ _ _ _ _ _ _ _ example_typed example_complete Hsize example_net_widths Hlen example_planned)).
  vm_compute. reflexivity.
Defined.

Lemma realized_usage_exact_witness : used PlanExample.usage (1, 0) Lut = 79.
Proof.
  rewrite (proj1 (realized_usage_exact _ _ _ _ _ _ _ _ example_graph_typed example_baseline_wf example_realized)).
  vm_compute. reflexivity.
Defined.
