(* ===== verification/Plan.v ===== *)
(** * Device selection and plan orchestration

    [tapa-floorplan/src/device/select.rs] and [plan/mod.rs], [plan/options.rs]:
    the device of a part number, the inputs of a plan, placement followed by
    routing and accounting, and the assembled result.  The embedded tables are
    JSON parsed by a library: [table] is the parse of the table of a key.  The
    two solver phases are arguments. *)

From S2P Require Import Prelude RustStd BTreeMap Geometry Names Ir Connectivity Flatten F64 Device FloorGraph Lp Partition Pipeline.

(** ** Device selection *)

Definition TABLES : list string := ["u250"; "u280"; "u55c"; "vck190"; "v80"].

Inductive SelectError :=
| UnknownPart (query known : string)
| MalformedTable (key source : string)
| InvalidTable (key : string) (source : DeviceValidationError).

(** The text before the first dash. *)
Definition part_family (part : string) : string :=
  match Str.split "-" part with [] => part | family :: _ => family end.

Section select.
(** [serde_json::from_str] on the table embedded under a key. *)
Variable table : string -> res string Device.

Definition all_devices : res SelectError (list Device) :=
  try_fold (fun acc key =>
    let! d := map_err (MalformedTable key) (table key) in
    let! _ := map_err (InvalidTable key) (validate d) in
    Ok (acc ++ [d])) [] TABLES.

Definition matches (query : string) (d : Device) : bool :=
  let key := Str.to_ascii_lowercase (key d) in
  let part := Str.to_ascii_lowercase (part_num d) in
  String.eqb query key || String.eqb query part || String.eqb (part_family query) (part_family part).

Definition select_device (part : string) : res SelectError Device :=
  let query := Str.to_ascii_lowercase (Str.trim part) in
  let! devices := all_devices in
  match find_first (matches query) devices with
  | Some d => Ok d
  | None => Err (UnknownPart part (join ", " TABLES))
  end.
End select.

(** ** Options *)

Record PlanOptions := mkPlanOptions {
  po_usage_limit : f64;
  max_seconds : Z;
  po_threads : Z;
  partition_strategy : PartitionStrategy;
  po_scheme : PipelineScheme;
}.

Definition options_default : PlanOptions := mkPlanOptions DEFAULT_USAGE_LIMIT 600 1 Auto Double.

Inductive PlanOptionsError := UsageLimit (l : f64) | MaxSeconds | Threads.

Definition validate_options (o : PlanOptions) : res PlanOptionsError unit :=
  if negb (F64.is_finite (po_usage_limit o)) || F64.leb (po_usage_limit o) F64.zero || F64.gtb (po_usage_limit o) F64.one
  then Err (UsageLimit (po_usage_limit o)) else
  if max_seconds o =? 0 then Err MaxSeconds else
  if po_threads o =? 0 then Err Threads else Ok tt.

Definition solve_options (o : PlanOptions) : SolveOpts := mkOpts (Some (max_seconds o)) (Some (po_threads o)) None.

(** ** Resource caps of an exact candidate *)

Definition EXACT_DSE_CAP_SCALE : Z := 1000000000.
Definition MULTILEVEL_BLOCK_RESOURCE_MARGIN_UNITS : Z := EXACT_DSE_CAP_SCALE / 10.

Record ExactDseResourceCaps := mkCaps {
  logic_utilization_cap : f64;
  effective_block_utilization_cap : f64;
  multilevel_block_margin_applied : bool;
}.

Definition for_strategy (logic_cap : f64) (s : PartitionStrategy) : ExactDseResourceCaps :=
  let applied := bool_decide (s = MultiLevel) in
  let block_cap :=
    if applied then
      let scale := F64.of_Z EXACT_DSE_CAP_SCALE in
      let margin := F64.div (F64.of_Z MULTILEVEL_BLOCK_RESOURCE_MARGIN_UNITS) scale in
      F64.div (F64.round (F64.mul (F64.min (F64.add logic_cap margin) F64.one) scale)) scale
    else logic_cap in
  mkCaps logic_cap block_cap applied.

(** ** State and result *)

Record PlanInputs := mkInputs {
  memory : list MemoryInterface;
  control : option bool;
  in_projection : option FlatProjection;
}.

Inductive PlanError :=
| POptions (e : PlanOptionsError)
| NoPartNum
| PDevice (e : SelectError)
| PTransform (e : TransformError)
| PGraph (e : GraphError)
| PIlp (e : IlpError)
| PPipeline (e : PipelineError)
| BankTag (bank : MemoryBank) (count : nat)
| PlatformRequired (expected : string)
| PlatformMismatch (platform expected : string)
| ControlTag (tag : string) (count : nat).

Record PipelineRoute := mkPipelineRoute {
  channel : RoutedChannel; route : list string; scheme : PipelineScheme; route_reg_regions : list string }.

(** [From<PlannedRoute>]. *)
Definition pipeline_route (rt : PlannedRoute) : PipelineRoute :=
  mkPipelineRoute (p_channel rt) (map Coor.slot_tag (p_route rt)) (p_scheme rt) (map Coor.slot_tag (reg_regions rt)).

Record FloorplanResult := mkResult {
  fr_device : string;
  fr_grid : Z * Z;
  fr_regions : bmap string string;
  fr_routes : list PipelineRoute;
  fr_slot_usage : bmap string Area;
}.

Record FlowSettings := mkFlow {
  flatten_hierarchy : bool;
  flow_part_num : option string;
  flow_platform : option string;
  flow_clock_period : option Z;
  skip_aie : bool;
  synthed : bool;
}.

Definition flow_default : FlowSettings := mkFlow false None None None false false.

Record WorkState := mkState {
  version : Z; state_graph : TaskGraph; flow : FlowSettings; floorplan : option FloorplanResult }.

Definition VERSION : Z := 5.

Definition state_new (g : TaskGraph) : WorkState := mkState VERSION g flow_default None.

(** ** Preparation *)

Definition validate_memory_platform (st : WorkState) (d : Device) (has_memory : bool) : res PlanError unit :=
  match platform_name d with
  | Some expected =>
      if negb has_memory then Ok tt else
      let! platform := ok_or (flow_platform (flow st)) (PlatformRequired expected) in
      let basename := default platform (Str.file_name platform) in
      let normalized := Str.map_chars (fun c => if Ascii.eqb c ":" || Ascii.eqb c "." then "_"%char else c) basename in
      if negb (String.eqb normalized expected) then Err (PlatformMismatch platform expected) else Ok tt
  | None => Ok tt
  end.

(** One bank of the loop; [seen] are the banks validated so far. *)
Definition check_bank (d : Device) (seen : list MemoryBank) (mi : MemoryInterface) : res PlanError (list MemoryBank) :=
  if bool_decide (mi_bank mi ∈ seen) then Ok seen else
  let count := length (slots_with_tag d (bank_display (mi_bank mi))) in
  if negb (Nat.eqb count 1) then Err (BankTag (mi_bank mi) count) else Ok (mi_bank mi :: seen).

Definition select_control_anchor (d : Device) (has_s_axi_control : bool) : res PlanError (option string) :=
  let tag := if has_s_axi_control then "S_AXI_CONTROL" else "CLK_RST" in
  match length (slots_with_tag d tag) with
  | O => Ok None
  | S O => Ok (Some tag)
  | count => Err (ControlTag tag count)
  end.

Definition active_control (st : WorkState) (c : option bool) : option bool :=
  let? c := c in
  let? top := BMap.get (top (state_graph st)) (graph_tasks (state_graph st)) in
  if bool_decide (level top = Upper) && negb (match tasks top with [] => true | _ => false end) then Some c else None.

Section plan.
Variable table : string -> res string Device.

Definition prepare_plan (st : WorkState) (inputs : PlanInputs) : res PlanError (Device * FloorGraph) :=
  let! part := ok_or (flow_part_num (flow st)) NoPartNum in
  let! d := map_err PDevice (select_device table part) in
  let! _ := validate_memory_platform st d (negb (match memory inputs with [] => true | _ => false end)) in
  let! _ := try_fold (check_bank d) [] (memory inputs) in
  let! p := match in_projection inputs with
            | Some p => Ok p
            | None => map_err PTransform (flatten_with_origins (state_graph st))
            end in
  let active := active_control st (control inputs) in
  let! anchor := match active with Some c => select_control_anchor d c | None => Ok None end in
  let! g := map_err PGraph (build_with_projection p (memory inputs) active anchor) in
  Ok (d, g).

(** Placement regions by vertex name. *)
Definition placed_regions (g : FloorGraph) (cells : list Cell) : bmap string string :=
  BMap.from_list (map (fun e => (v_name e.1, Coor.region_name (Coor.slot e.2.1 e.2.2))) (zip (vertices g) cells)).

Definition finish_plan (solve : LpModel -> SolveOpts -> res SolverError LpSolution) (g : FloorGraph) (d : Device)
    (o : PlanOptions) (opts : SolveOpts) (a : Assignment) (caps : ExactDseResourceCaps) : res PlanError FloorplanResult :=
  let! routes := map_err PPipeline
    (plan_routes solve g (a_regions a) (a_slot_usage a) d (po_scheme o) (logic_utilization_cap caps) opts) in
  let! usage := map_err PPipeline
    (if multilevel_block_margin_applied caps
     then realize_slot_usage_with_resource_caps g (a_regions a) (a_slot_usage a) routes d
            (logic_utilization_cap caps) (effective_block_utilization_cap caps)
     else realize_slot_usage g (a_regions a) (a_slot_usage a) routes d (logic_utilization_cap caps)) in
  let! regions := map_err PGraph (materialize_co_locations g (placed_regions g (a_regions a))) in
  let! regions := remove_transient_regions g regions in
  Ok (mkResult (key d) (cols d, rows d) regions (map pipeline_route routes)
        (BMap.from_list (map (fun e => (Coor.region_name (Coor.slot e.1.1 e.1.2), e.2)) usage))).

Definition plan_with_retry_ceiling_and_solvers (st : WorkState) (o : PlanOptions) (inputs : PlanInputs) (retry_ceiling : f64)
    (placement_solver finish_solver : LpModel -> SolveOpts -> res SolverError LpSolution) : res PlanError FloorplanResult :=
  let! _ := map_err POptions (validate_options o) in
  let! (d, g) := prepare_plan st inputs in
  let opts := solve_options o in
  let! a := map_err PIlp
    (floorplan_with_strategy placement_solver g d (po_usage_limit o) retry_ceiling (partition_strategy o) opts) in
  finish_plan finish_solver g d o opts a (mkCaps retry_ceiling retry_ceiling false).

Definition table_retry_ceiling (st : WorkState) (o : PlanOptions) : f64 :=
  default (F64.max (po_usage_limit o) MAX_USAGE_LIMIT)
    (let? part := flow_part_num (flow st) in
     match select_device table part with Ok d => usage_ceiling d | _ => None end).

(** [CbcSolver], the one solver of both phases. *)
Variable cbc : LpModel -> SolveOpts -> res SolverError LpSolution.

Definition plan_with_retry_ceiling (st : WorkState) (o : PlanOptions) (inputs : PlanInputs) (retry_ceiling : f64) :
    res PlanError FloorplanResult :=
  plan_with_retry_ceiling_and_solvers st o inputs retry_ceiling cbc cbc.

Definition plan_with_inputs (st : WorkState) (o : PlanOptions) (inputs : PlanInputs) : res PlanError FloorplanResult :=
  plan_with_retry_ceiling st o inputs (table_retry_ceiling st o).

(** The caps of the attempt, and its own outcome. *)
Definition plan_with_inputs_at_usage_limit_and_caps (st : WorkState) (o : PlanOptions) (inputs : PlanInputs) :
    res PlanError (ExactDseResourceCaps * res PlanError FloorplanResult) :=
  let! _ := map_err POptions (validate_options o) in
  let! (d, g) := prepare_plan st inputs in
  let s := resolve_strategy g d (partition_strategy o) in
  let caps := for_strategy (po_usage_limit o) s in
  let opts := solve_options o in
  let result :=
    let! (a, _) := map_err PIlp
      (floorplan_with_exact_resource_caps cbc g d (logic_utilization_cap caps) (effective_block_utilization_cap caps) s opts) in
    finish_plan cbc g d o opts a caps in
  match result with Panic => Panic | result => Ok (caps, result) end.
End plan.
