(* ===== verification/PlanProps.v ===== *)
(** * Properties of the plan

    A plan is legal: what placement, routing, accounting and materialization
    promise, composed over [plan/mod.rs]. *)

From S2P Require Import Prelude RustStd BTreeMap Geometry Names Ir Connectivity Flatten F64 Device FloorGraph FloorGraphSpec FloorGraphProps.
From S2P Require Import Geometry Paths F64Spec Lp Partition PartitionSearch PartitionProps RouteIlp Pipeline PipelineProps Plan.

(** ** Device selection *)

Lemma all_devices_ok table ds : all_devices table = Ok ds ->
  Forall2 (fun key d => table key = Ok d /\ validate d = Ok tt) TABLES ds.
Proof.
  unfold all_devices. intros H.
  refine (try_fold_ind (fun keys ds => Forall2 (fun key d => table key = Ok d /\ validate d = Ok tt) keys ds) _ _ _ _ _ _ H); [constructor|].
  intros l1 k l2 a a' _ IH Hs. apply rbind_ok in Hs as (d & Hd%map_err_ok & Hs). apply rbind_ok in Hs as ([] & Hv%map_err_ok & [= <-]).
  apply Forall2_app; [done|]. constructor; [done|constructor].
Qed.

Lemma select_device_ok table part d : select_device table part = Ok d ->
  exists key, key ∈ TABLES /\ table key = Ok d /\ validate d = Ok tt /\ matches (Str.to_ascii_lowercase (Str.trim part)) d = true.
Proof.
  unfold select_device. intros H. apply rbind_ok in H as (ds & Hds%all_devices_ok & H).
  destruct (find_first _ ds) as [x|] eqn:E; [|done]. injection H as ->. apply find_first_Some in E as [[i Hi]%list_elem_of_lookup Hm].
  destruct (Forall2_lookup_r _ _ _ _ _ Hds Hi) as (k & Hk & Ht & Hv). exists k. split_and!; [by eapply list_elem_of_lookup_2|done..].
Qed.

Lemma validate_complete d : typed d -> validate d = Ok tt -> complete_grid d.
Proof. intros Hd H. unfold validate in H. apply rbind_ok in H as ([] & H & _). by apply (validate_grid_spec d Hd). Qed.

Lemma prepare_plan_ok table st inputs d g : prepare_plan table st inputs = Ok (d, g) ->
  validate d = Ok tt /\ exists flat memory control anchor p, build_with_scopes flat memory control anchor p = Ok g.
Proof.
  unfold prepare_plan. intros H. apply rbind_ok in H as (part & _ & H). apply rbind_ok in H as (d' & Hd%map_err_ok & H).
  apply rbind_ok in H as ([] & _ & H). apply rbind_ok in H as (seen & _ & H). apply rbind_ok in H as (p & _ & H).
  apply rbind_ok in H as (anchor & _ & H). apply rbind_ok in H as (g' & Hg%map_err_ok & [= <- <-]).
  apply select_device_ok in Hd as (_ & _ & _ & Hv & _). split; [done|]. unfold build_with_projection in Hg. eauto 6.
Qed.

(** ** Legal plans *)

(** The inputs are of their machine types. *)
Record sized (d : Device) (g : FloorGraph) : Prop := {
  sz_device : typed d;
  sz_grid : cols d + rows d <= U32_MAX;
  sz_areas : Forall (fun v => Area.wf (v_area v)) (vertices g);
  sz_graph : graph_typed g;
  sz_widths : forall n, n ∈ all_nets g -> in_u32 (net_width n);
  sz_nets : Z.of_nat (length (all_nets g)) <= U32_MAX;
}.

Definition cell_tag (c : Cell) : string := Coor.region_name (Coor.slot c.1 c.2).

Definition amount_at (usage : bmap string Area) (c : Cell) (r : Resource) : Z :=
  amount r (default area_default (BMap.get (cell_tag c) usage)).

(** A result, and the placement and routes it stands for. *)
Record legal_plan (g : FloorGraph) (d : Device) (s : PipelineScheme) (logic block : f64) (cells : list Cell)
    (routes : list PlannedRoute) (r : FloorplanResult) : Prop := {
  lp_device : fr_device r = key d /\ fr_grid r = (cols d, rows d);
  lp_vertices : length cells = length (vertices g) /\ forall vi v c, vertices g !! vi = Some v -> cells !! vi = Some c ->
    (exists sl, slot d c.1 c.2 = Some sl /\ forall tag, required_tag v = Some tag -> tag ∈ tags sl) /\
    (materialize v = true -> BMap.get (v_name v) (fr_regions r) = Some (cell_tag c));
  lp_aliases : forall a, a ∈ co_located g -> exists c, cells !! host a = Some c /\ BMap.get (alias_name a) (fr_regions r) = Some (cell_tag c);
  lp_regions : forall name region, BMap.get name (fr_regions r) = Some region ->
    (exists v, v ∈ vertices g /\ v_name v = name /\ materialize v = true) \/ name ∈ map alias_name (co_located g);
  lp_routes : fr_routes r = map pipeline_route routes /\ map p_channel routes = expected_channels g cells;
  lp_wires : exists ws, Forall2 (planned_ok g cells d s) routes ws /\
    (routes <> [] -> forall a b u v cap, slot d a.1 a.2 = Some u -> slot d b.1 b.2 = Some v ->
       (b = (a.1 + 1, a.2) /\ bounded_border_capacity (east (wire_cap u)) (west (wire_cap v)) = Some cap \/
        b = (a.1, a.2 + 1) /\ bounded_border_capacity (north (wire_cap u)) (south (wire_cap v)) = Some cap) ->
       planned_load routes ws a b <= cap);
  lp_usage : forall c x, in_u32 c.1 -> in_u32 c.2 -> amount_at (fr_slot_usage r) c x =
    zsum (fun e => placed_cost e c x) (zip (vertices g) cells) + zsum (fun rt => route_cost g rt c x) routes;
  lp_capacity : forall region a, BMap.get region (fr_slot_usage r) = Some a -> exists c sl, region = cell_tag c /\ slot d c.1 c.2 = Some sl /\
    forall x, plans_resource d x = true -> amount x a <= scaled_amount (amount x (slot_area sl)) (if is_logic x then logic else block);
}.

(** ** Regions of the result *)

Lemma placed_entries g cells : map fst (map (fun e : Vertex * Cell => (v_name e.1, cell_tag e.2)) (zip (vertices g) cells)) =
  map (fun e => v_name e.1) (zip (vertices g) cells).
Proof. by rewrite map_map. Qed.

Lemma map_zip_fst {A B C} (h : A -> C) (l : list A) (l' : list B) : length l' = length l -> map (fun e => h e.1) (zip l l') = map h l.
Proof. revert l'. induction l as [|x l IH]; intros [|y l'] Hl; try done. simpl. f_equal. apply IH. simpl in Hl. lia. Qed.

Lemma placed_regions_get g cells vi v c : NoDup (map v_name (vertices g)) -> length cells = length (vertices g) ->
  vertices g !! vi = Some v -> cells !! vi = Some c -> BMap.get (v_name v) (placed_regions g cells) = Some (cell_tag c).
Proof.
  intros Hnd Hlen Hv Hc. unfold placed_regions. apply BMap.get_from_list.
  - rewrite placed_entries, map_zip_fst by done. done.
  - apply in_map_iff. exists (v, c). split; [done|]. apply list_elem_of_In, (list_elem_of_lookup_2 _ vi), lookup_zip_Some. done.
Qed.

Lemma placed_regions_inv g cells name region : BMap.get name (placed_regions g cells) = Some region ->
  exists v, v ∈ vertices g /\ v_name v = name.
Proof.
  intros H%BMap.get_In. apply BMap.In_from_list, in_map_iff in H as ([v c] & [= <- _] & Hin).
  apply in_combine_l in Hin. exists v. split; [by apply list_elem_of_In|done].
Qed.

Lemma kept_get {E} g regions kept :
  remove_transient_regions (E := E) g regions = Ok kept ->
  forall name, BMap.get name kept = match keeps_region (E := E) g name with Ok true => BMap.get name regions | _ => None end.
Proof.
  revert kept; induction regions as [|[n r] regions IH]; simpl; intros kept H name.
  - injection H as <-. simpl. by destruct (keeps_region g name) as [[]| |].
  - apply rbind_ok in H as (keep & Hk & H). apply rbind_ok in H as (rest & Hrest & [= <-]). specialize (IH rest Hrest name).
    destruct (kcmp name n) eqn:E1.
    + apply kcmp_eq in E1. subst n. rewrite Hk. destruct keep; simpl; [by rewrite kcmp_refl|]. by rewrite IH, Hk.
    + destruct keep; simpl; [by rewrite E1|done].
    + destruct keep; simpl; [by rewrite E1|done].
Qed.

(** The regions of a result: vertices that are instances, and aliases. *)
Lemma result_regions g cells out kept flat memory control anchor p :
  build_with_scopes flat memory control anchor p = Ok g -> length cells = length (vertices g) ->
  materialize_co_locations g (placed_regions g cells) = Ok out -> remove_transient_regions (E := PlanError) g out = Ok kept ->
  (forall vi v c, vertices g !! vi = Some v -> cells !! vi = Some c -> materialize v = true -> BMap.get (v_name v) kept = Some (cell_tag c)) /\
  (forall a, a ∈ co_located g -> exists c, cells !! host a = Some c /\ BMap.get (alias_name a) kept = Some (cell_tag c)) /\
  (forall name region, BMap.get name kept = Some region ->
     (exists v, v ∈ vertices g /\ v_name v = name /\ materialize v = true) \/ name ∈ map alias_name (co_located g)).
Proof.
  intros Hbuild Hlen Hout Hkept. destruct (built_index _ _ _ _ _ _ Hbuild) as (Hidx & Hnd & Hhost).
  pose proof (materialize_loop g (placed_regions g cells) [] (co_located g) (placed_regions g cells) Hhost) as Hloop. cbn [app] in Hloop.
  specialize (Hloop ltac:(split_and!; [done|by intros ? ?%not_elem_of_nil|by left|constructor])).
  unfold materialize_co_locations in Hout. rewrite Hout in Hloop. destruct Hloop as (Hold & Hal & Honly & _).
  assert (Hkeep : forall name, exists keep, keeps_region (E := PlanError) g name = Ok keep /\
    (keep = false <-> exists vx, vx ∈ vertices g /\ v_name vx = name /\ materialize vx = false)) by (intros; by apply keeps_region_spec).
  assert (Huniq : forall v w, v ∈ vertices g -> w ∈ vertices g -> v_name v = v_name w -> v = w).
  { intros v w [i Hi]%list_elem_of_lookup [j Hj]%list_elem_of_lookup E. assert (i = j) as ->; [|congruence].
    apply (NoDup_lookup _ i j (v_name v) Hnd); rewrite list_lookup_fmap; [by rewrite Hi|rewrite Hj; simpl; congruence]. }
  assert (Hkept_true : forall name, (forall v, v ∈ vertices g -> v_name v = name -> materialize v = true) -> BMap.get name kept = BMap.get name out).
  { intros name Hn. rewrite (kept_get g out kept Hkept). destruct (Hkeep name) as (keep & -> & Hk). destruct keep; [done|].
    destruct (proj1 Hk eq_refl) as (vx & Hvx & En & Em). rewrite (Hn vx Hvx En) in Em. done. }
  split_and!.
  - intros vi v c Hv Hc Hm. rewrite Hkept_true; [apply Hold; by eapply placed_regions_get|]. intros w Hw En.
    assert (w = v) as ->; [|done]. apply Huniq; [done|by eapply list_elem_of_lookup_2|done].
  - intros a Ha. destruct (Hal a Ha) as (Hnone & h & region & Hh & Hreg & Hget).
    destruct (cells !! host a) as [c|] eqn:Hc; [|apply lookup_ge_None in Hc; apply lookup_lt_Some in Hh; lia].
    exists c. split; [done|]. pose proof (placed_regions_get g cells _ _ _ Hnd Hlen Hh Hc) as Hp. apply Hold in Hp.
    rewrite Hkept_true; [congruence|]. intros w [j Hj]%list_elem_of_lookup En. exfalso.
    destruct (cells !! j) as [cj|] eqn:Hcj; [|apply lookup_ge_None in Hcj; apply lookup_lt_Some in Hj; lia].
    pose proof (placed_regions_get g cells _ _ _ Hnd Hlen Hj Hcj) as Hpj. rewrite En in Hpj. congruence.
  - intros name region H. rewrite (kept_get g out kept Hkept) in H. destruct (Hkeep name) as (keep & Ek & Hk). rewrite Ek in H. destruct keep; [|done].
    apply Honly in H as [H|H]; [left|by right]. apply placed_regions_inv in H as (v & Hv & En). exists v. split_and!; [done..|].
    destruct (materialize v) eqn:Em; [done|]. assert (true = false); [|done]. apply Hk. by exists v.
Qed.

(** ** Usage of the result *)

Lemma cell_tag_inj c c' : in_u32 c.1 -> in_u32 c.2 -> in_u32 c'.1 -> in_u32 c'.2 -> cell_tag c = cell_tag c' -> c = c'.
Proof.
  intros H1 H2 H3 H4 E. assert (W : forall x y, in_u32 x -> in_u32 y -> Coor.wf (Coor.slot x y)) by (intros x y [] []; split; simpl; lia).
  apply (f_equal Coor.from_region_name) in E. unfold cell_tag in E. rewrite !Coor.from_region_name_region_name in E by auto.
  destruct c, c'. by injection E as -> ->.
Qed.

Lemma slot_range d x y s : typed d -> slot d x y = Some s -> in_u32 x /\ in_u32 y.
Proof.
  intros Hd [Hin Hxy]%find_first_Some. pose proof (typed_slots _ Hd) as Hs. rewrite Forall_forall in Hs.
  destruct (Hs s Hin) as (Hx & Hy & _). bool_hyps. by subst.
Qed.

Lemma tagged_usage (usage : bmap Cell Area) : BMap.wf usage ->
  (forall c a, In (c, a) usage -> in_u32 c.1 /\ in_u32 c.2) ->
  let tagged := BMap.from_list (map (fun e => (Coor.region_name (Coor.slot e.1.1 e.1.2), e.2)) usage) in
  (forall c x, in_u32 c.1 -> in_u32 c.2 -> amount_at tagged c x = used usage c x) /\
  (forall region a, BMap.get region tagged = Some a -> exists c, region = cell_tag c /\ BMap.get c usage = Some a).
Proof.
  intros Hwf Hrange tagged. assert (Hnd : NoDup (map fst (map (fun e : Cell * Area => (cell_tag e.1, e.2)) usage))).
  { rewrite map_map. cbn [fst]. rewrite <- (map_map fst cell_tag). apply NoDup_alt. intros i j tag Hi Hj. rewrite list_lookup_fmap in Hi, Hj.
    change (map fst usage) with (BMap.keys usage) in *.
    destruct (BMap.keys usage !! i) as [ci|] eqn:Ei; [|done]. destruct (BMap.keys usage !! j) as [cj|] eqn:Ej; [|done].
    assert (Hk : forall c, c ∈ BMap.keys usage -> in_u32 c.1 /\ in_u32 c.2).
    { intros c Hc%list_elem_of_In%in_map_iff. destruct Hc as ([c' a] & <- & Hin). by apply (Hrange c' a). }
    apply (NoDup_lookup _ i j ci (BMap.wf_NoDup _ Hwf) Ei). rewrite Ej. f_equal.
    destruct (Hk ci) as [? ?]; [by eapply list_elem_of_lookup_2|]. destruct (Hk cj) as [? ?]; [by eapply list_elem_of_lookup_2|].
    apply cell_tag_inj; try done. simpl in *. congruence. }
  assert (Hget : forall c a, BMap.get c usage = Some a -> BMap.get (cell_tag c) tagged = Some a).
  { intros c a Hc%BMap.get_In. apply BMap.get_from_list; [exact Hnd|]. apply in_map_iff. by exists (c, a). }
  assert (Hinv : forall region a, BMap.get region tagged = Some a -> exists c, region = cell_tag c /\ BMap.get c usage = Some a).
  { intros region a H%BMap.get_In. apply BMap.In_from_list, in_map_iff in H as ([c a'] & [= <- ->] & Hin).
    exists c. split; [done|]. by apply BMap.In_get. }
  split; [|done]. intros c x H1 H2. unfold amount_at, used. destruct (BMap.get c usage) as [a|] eqn:E.
  - by rewrite (Hget c a E).
  - destruct (BMap.get (cell_tag c) tagged) as [a|] eqn:Et; [|done]. destruct (Hinv _ _ Et) as (c' & Etag & Hc').
    destruct (Hrange c' a) as [? ?]; [by apply BMap.get_In|]. apply cell_tag_inj in Etag; [|done..]. congruence.
Qed.

(** ** Plans *)

Definition block_limit (caps : ExactDseResourceCaps) : f64 :=
  if multilevel_block_margin_applied caps then effective_block_utilization_cap caps else logic_utilization_cap caps.

(** A placement of the graph on the device, with the usage it reports. *)
Record placed_on (g : FloorGraph) (d : Device) (a : Assignment) : Prop := {
  po_length : length (a_regions a) = length (vertices g);
  po_slots : forall vi v c, vertices g !! vi = Some v -> a_regions a !! vi = Some c ->
    exists sl, slot d c.1 c.2 = Some sl /\ forall tag, required_tag v = Some tag -> tag ∈ tags sl;
  po_usage : usage_wf (a_slot_usage a) /\
    forall c x, used (a_slot_usage a) c x = zsum (fun e => placed_cost e c x) (zip (vertices g) (a_regions a));
}.

Lemma config_placed solve g d config opts a :
  sized d g -> valid (usage_limit config) -> valid (retry_ceiling config) ->
  floorplan_with_config solve g d config opts = Ok a -> placed_on g d a.
Proof.
  intros [Hd _ Hwf _ _ _] Vb Vc H. destruct (floorplan_placed _ _ _ _ _ _ Hd Vb Vc Hwf H) as (limit & places & _ & _ & [Hlen Hpl] & Ha).
  destruct (complete_assignment_ok g places a Hwf Hlen Ha) as (Hr & Hw & Hu). split; [by rewrite Hr, length_map| |done].
  intros vi v c Hv Hc. rewrite Hr, list_lookup_fmap in Hc. destruct (places !! vi) as [region|] eqn:E; [|done].
  injection Hc as <-. destruct (Hpl vi v region Hv E) as (sl & Hs & Ht & _). by exists sl.
Qed.

Lemma finish_plan_legal solve g d o opts a caps r flat memory control anchor p :
  build_with_scopes flat memory control anchor p = Ok g -> sized d g -> complete_grid d -> placed_on g d a ->
  finish_plan solve g d o opts a caps = Ok r ->
  exists routes, legal_plan g d (po_scheme o) (logic_utilization_cap caps) (block_limit caps) (a_regions a) routes r.
Proof.
  intros Hbuild Hsz Hgrid [Hlen Hslots [Huw Hu]] H. destruct Hsz as [Hd Hsize Hwf Hgt Hw Hn]. unfold finish_plan in H.
  apply rbind_ok in H as (routes & Hroutes%map_err_ok & H). apply rbind_ok in H as (usage & Husage%map_err_ok & H).
  apply rbind_ok in H as (out & Hout%map_err_ok & H). apply rbind_ok in H as (kept & Hkept & [= <-]).
  destruct (plan_routes_ok _ _ _ _ _ _ _ _ _ Hd Hgrid Hsize Hw Hn Hroutes) as (Hch & ws & Hws & Hcap).
  assert (Hreal : realize_slot_usage_with_resource_caps g (a_regions a) (a_slot_usage a) routes d (logic_utilization_cap caps) (block_limit caps) = Ok usage).
  { unfold block_limit. by destruct (multilevel_block_margin_applied caps). }
  destruct (realize_ok _ _ _ _ _ _ _ _ Hgt Huw Hreal) as [Hcost Hfit].
  assert (Huse : usage_wf usage).
  { unfold realize_slot_usage_with_resource_caps in Hreal. apply rbind_ok in Hreal as (u & Hacc & Hv). apply rbind_ok in Hv as ([] & _ & [= ->]).
    by destruct (account_routes_cost _ _ _ _ _ Hgt Huw Hacc). }
  assert (Hcells : forall c b, BMap.get c usage = Some b -> exists sl, slot d c.1 c.2 = Some sl /\ forall x, plans_resource d x = true ->
    amount x b <= scaled_amount (amount x (slot_area sl)) (if is_logic x then logic_utilization_cap caps else block_limit caps)).
  { intros c b Hc. destruct (Hfit c b Hc) as (cap & Hi & Hle). apply island_area_slot in Hi as (sl & Hs & ->); [|done]. by exists sl. }
  destruct (tagged_usage usage (proj1 Huse)) as [Htag Hinv].
  { intros c b Hin. apply BMap.In_get in Hin; [|apply Huse]. destruct (Hcells c b Hin) as (sl & Hs & _). by apply (slot_range d _ _ sl). }
  destruct (result_regions _ _ _ _ _ _ _ _ _ Hbuild Hlen Hout Hkept) as (Hrv & Hra & Hri).
  exists routes. split; cbn [fr_device fr_grid fr_regions fr_routes fr_slot_usage].
  - done.
  - split; [done|]. intros vi v c Hv Hc. split; [by apply (Hslots vi)|]. by apply (Hrv vi).
  - done.
  - done.
  - done.
  - by exists ws.
  - intros c x H1 H2. rewrite Htag by done. by rewrite Hcost, Hu.
  - intros region b Hb. destruct (Hinv region b Hb) as (c & -> & Hc). destruct (Hcells c b Hc) as (sl & Hs & Hle). by exists c, sl.
Qed.

(** C33: a plan is legal, whatever the two solvers answer. When planning
    succeeds for a design on its selected device, there are slots for the
    vertices and routes for the channels such that: every vertex is in a slot of
    the device with its required tag, and the result lists exactly the instances
    with the slots of their vertices or hosts; the routes are simple paths
    between the slots of their ends, one per channel that crosses, with the
    registers of the scheme, within the wires of every border; and the reported
    usage of each slot is exactly what is placed there and what the routes
    generate, within the slot derated by the retry ceiling. *)
Theorem plan_is_legal table st o inputs ceiling ps fs d g r :
  prepare_plan table st inputs = Ok (d, g) -> sized d g -> valid (po_usage_limit o) -> valid ceiling ->
  plan_with_retry_ceiling_and_solvers table st o inputs ceiling ps fs = Ok r ->
  exists cells routes, legal_plan g d (po_scheme o) ceiling ceiling cells routes r.
Proof.
  intros Hprep Hsz Vb Vc H. destruct (prepare_plan_ok _ _ _ _ _ Hprep) as (Hv & flat & memory & control & anchor & p & Hbuild).
  unfold plan_with_retry_ceiling_and_solvers in H. apply rbind_ok in H as ([] & _ & H). rewrite Hprep in H. cbn [rbind] in H.
  apply rbind_ok in H as (a & Ha%map_err_ok & H). exists (a_regions a).
  apply (finish_plan_legal fs g d o (solve_options o) a (mkCaps ceiling ceiling false) r flat memory control anchor p Hbuild Hsz); [| |exact H].
  - apply validate_complete; [apply Hsz|done].
  - by eapply config_placed in Ha.
Qed.

(** The same for an exact candidate, at its own caps. *)
Lemma exact_plan_legal table cbc st o inputs caps d g r :
  prepare_plan table st inputs = Ok (d, g) -> sized d g -> valid (po_usage_limit o) ->
  plan_with_inputs_at_usage_limit_and_caps table cbc st o inputs = Ok (caps, Ok r) ->
  logic_utilization_cap caps = po_usage_limit o /\
  exists cells routes, legal_plan g d (po_scheme o) (logic_utilization_cap caps) (block_limit caps) cells routes r.
Proof.
  intros Hprep Hsz Vb H. destruct (prepare_plan_ok _ _ _ _ _ Hprep) as (Hv & flat & memory & control & anchor & p & Hbuild).
  unfold plan_with_inputs_at_usage_limit_and_caps in H. apply rbind_ok in H as ([] & _ & H). rewrite Hprep in H. cbn [rbind] in H.
  cbv zeta in H. set (s := resolve_strategy g d (partition_strategy o)) in *. set (caps' := for_strategy (po_usage_limit o) s) in *.
  match type of H with match ?x with _ => _ end = _ => destruct x as [r'|e|] eqn:E end; [|done..]. injection H as <- ->.
  split; [done|]. apply rbind_ok in E as ([a s'] & Ha%map_err_ok & E). exists (a_regions a).
  apply (finish_plan_legal cbc g d o (solve_options o) a caps' r flat memory control anchor p Hbuild Hsz); [| |exact E].
  - apply validate_complete; [apply Hsz|done].
  - unfold floorplan_with_exact_resource_caps in Ha. apply rbind_ok in Ha as (a' & Ha & [= <- _]). by eapply config_placed in Ha.
Qed.

(** ** Witness *)

Module WholePlan.
(** A placement solver: the second candidate for one consumer, the first for
    every other vertex. *)
Definition place (m : LpModel) (_ : SolveOpts) : res SolverError LpSolution :=
  let chosen := flat_map (fun c =>
    if Str.starts_with "vertex_" (c_name c)
    then match terms (c_expr c), String.eqb (c_name c) "vertex_Consumer_1" with
         | _ :: (_, v) :: _, true => [v]
         | (_, v) :: _, _ => [v]
         | [], _ => [] end
    else []) (constraints m) in
  Ok (mkSolution Optimal F64.one (list_to_map (map (fun i => let v := Z.of_nat i in
        (v, if existsb (Z.eqb v) chosen then F64.one else F64.zero)) (seq 0 (length (vars m)))))).
(** Every embedded table parses to the example device. *)
Definition table (_ : string) : res string Device := Ok Device.Example.device.
Definition state : WorkState :=
  mkState VERSION Flatten.Example.graph (mkFlow false (Some " XCDEMO") None None false false) None.
Definition inputs : PlanInputs := mkInputs [] (Some true) None.
Definition result : FloorplanResult :=
  match plan_with_retry_ceiling_and_solvers table state options_default inputs F64.one place RouteExample.solve with
  | Ok r => r | _ => mkResult "" (0, 0) [] [] [] end.
End WholePlan.

Lemma example_prepared : prepare_plan WholePlan.table WholePlan.state WholePlan.inputs = Ok (Device.Example.device, example_graph).
Proof. vm_compute. reflexivity. Qed.

Lemma example_sized : sized Device.Example.device example_graph.
Proof.
  split; [apply example_typed| |apply example_vertex_areas|apply example_graph_typed|apply example_net_widths|]; vm_compute; discriminate.
Qed.

Lemma example_whole_plan :
  plan_with_retry_ceiling_and_solvers WholePlan.table WholePlan.state options_default WholePlan.inputs F64.one WholePlan.place RouteExample.solve
  = Ok WholePlan.result.
Proof. vm_compute. reflexivity. Qed.

Lemma plan_is_legal_witness : exists cells routes,
  legal_plan example_graph Device.Example.device Double F64.one F64.one cells routes WholePlan.result /\ length routes = 4%nat.
Proof.
  destruct (plan_is_legal WholePlan.table WholePlan.state options_default WholePlan.inputs F64.one WholePlan.place RouteExample.solve
    _ _ WholePlan.result example_prepared example_sized eq_refl eq_refl example_whole_plan) as (cells & routes & H).
  exists cells, routes. split; [exact H|]. pose proof (proj1 (lp_routes _ _ _ _ _ _ _ _ H)) as E. apply (f_equal length) in E.
  rewrite length_map in E. rewrite <- E. vm_compute. reflexivity.
Defined.
