(* ===== verification/Dse.v ===== *)
(** * Design-space exploration

    [tapa-floorplan/src/dse.rs]: the descending sweep of exact utilization caps
    around the planner, on a fixed-point grid of caps, and the realized
    utilization that drives it.  One attempt is an argument of the sweep, and
    the end of its fuel is [Panic]; [sweep_exact] shows that it is never reached. *)

From S2P Require Import Prelude RustStd BTreeMap Geometry F64 Device FloorGraph FloorGraphProps F64Spec Lp Partition PartitionSearch RouteIlp Pipeline Plan PlanProps.

Definition ADAPTIVE_MARGIN : Z := EXACT_DSE_CAP_SCALE / 100.

Record DseOptions := mkDse { dse_min : f64; dse_max : f64; dse_step : f64 }.

Definition dse_default : DseOptions := mkDse DEFAULT_SWEEP_MIN DEFAULT_SWEEP_MAX DEFAULT_SWEEP_STEP.

Inductive DseCandidate :=
| CFeasible (caps : ExactDseResourceCaps) (max_utilization : f64) (fp : FloorplanResult)
| CInfeasible (caps : ExactDseResourceCaps).

Definition candidate_caps (c : DseCandidate) : ExactDseResourceCaps :=
  match c with CFeasible caps _ _ | CInfeasible caps => caps end.

(** [InvalidOptions] and [InvalidFloorplan] carry the values they print. *)
Inductive DseError :=
| DInvalidOptions (m : string) (vals : list f64)
| DPlan (logic_utilization_cap : f64) (source : PlanError)
| InvalidFloorplan (m : string) (vals : list f64).

(** ** Options *)

Record ValidatedOptions := mkValidated { v_min : Z; v_max : Z; v_step : Z }.

Definition validate_fraction (name : string) (value : f64) : res DseError unit :=
  if negb (F64.is_finite value) || F64.leb value F64.zero || F64.gtb value F64.one
  then Err (DInvalidOptions (name +:+ " must be finite and in the range (0, 1]") [value]) else Ok tt.

Definition cap_units (name : string) (value : f64) : res DseError Z :=
  let units := F64.to_u32 (F64.round (F64.mul value (F64.of_Z EXACT_DSE_CAP_SCALE))) in
  if units =? 0
  then Err (DInvalidOptions (name +:+ " is below the supported utilization resolution") [F64.div F64.one (F64.of_Z EXACT_DSE_CAP_SCALE)])
  else Ok units.

Definition cap_value (units : Z) : f64 := F64.div (F64.of_Z units) (F64.of_Z EXACT_DSE_CAP_SCALE).

(** [TryFrom<DseOptions>]. *)
Definition try_from (o : DseOptions) : res DseError ValidatedOptions :=
  let! _ := validate_fraction "minimum" (dse_min o) in
  let! _ := validate_fraction "maximum" (dse_max o) in
  let! _ := validate_fraction "step" (dse_step o) in
  if F64.gtb (dse_min o) (dse_max o)
  then Err (DInvalidOptions "the minimum utilization cap exceeds the maximum" [dse_min o; dse_max o]) else
  let! min := cap_units "minimum" (dse_min o) in
  let! max := cap_units "maximum" (dse_max o) in
  let! step := cap_units "step" (dse_step o) in
  Ok (mkValidated min max step).

Definition validate_dse (o : DseOptions) : res DseError unit := let! _ := try_from o in Ok tt.

(** ** The sweep *)

Inductive RejectionKind := Terminal | Retryable.

#[export] Instance rejection_kind_eq_dec : EqDecision RejectionKind.
Proof. solve_decision. Defined.

Section sweep.
Context {T M E : Type}.

Inductive Attempt :=
| AFeasible (value : T) (regions : bmap string string) (max_utilization : f64) (binding_logic_cap : Z) (metadata : M)
| AInfeasible (kind : RejectionKind) (metadata : M).

Record Swept := mkSwept { sw_cap : Z; sw_value : option (T * f64); sw_metadata : M }.

(** The caps an attempt leaves to try: the next one, or the end of the sweep;
    with what it adds to the candidates and to the placements visited. *)
Definition sweep_step (o : ValidatedOptions) (cap : Z) (visited : list (bmap string string)) (a : Attempt) :
    option Z * list (bmap string string) * list Swept :=
  match a with
  | AFeasible value regions max_utilization binding_logic_cap metadata =>
      let nominal := saturating_sub cap (v_step o) in
      let adaptive := saturating_sub binding_logic_cap ADAPTIVE_MARGIN in
      let next := Z.min nominal adaptive in
      if bool_decide (regions ∈ visited) then (Some next, visited, [])
      else (Some next, regions :: visited, [mkSwept cap (Some (value, max_utilization)) metadata])
  | AInfeasible kind metadata =>
      (if bool_decide (kind = Terminal) then None else Some (saturating_sub cap (v_step o)), visited, [mkSwept cap None metadata])
  end.

Fixpoint sweep_from (fuel : nat) (attempt : f64 -> res E Attempt) (o : ValidatedOptions) (cap : Z)
    (visited : list (bmap string string)) : res E (list Swept) :=
  match fuel with
  | O => Panic
  | S fuel' =>
      if cap <? v_min o then Ok [] else
      let! a := attempt (cap_value cap) in
      let '(next, visited, found) := sweep_step o cap visited a in
      match next with
      | None => Ok found
      | Some next_cap =>
          if cap <=? next_cap then Ok found else
          let! rest := sweep_from fuel' attempt o next_cap visited in
          Ok (found ++ rest)
      end
  end.

Definition sweep_fuel (o : ValidatedOptions) : nat := Z.to_nat (v_max o / v_step o + 3).

Definition sweep_with (o : ValidatedOptions) (attempt : f64 -> res E Attempt) : res E (list Swept) :=
  sweep_from (sweep_fuel o) attempt o (v_max o) [].
End sweep.
Arguments Attempt : clear implicits.
Arguments Swept : clear implicits.

(** ** Realized utilization *)

Definition utilization_units (utilization : f64) : Z :=
  F64.to_u32 (F64.floor (F64.mul (F64.clamp utilization F64.zero F64.one) (F64.of_Z EXACT_DSE_CAP_SCALE))).

Definition rejection_kind (e : PlanError) : option RejectionKind :=
  match e with
  | PIlp (IInfeasible _ _) | PIlp (NoCandidates _) => Some Terminal
  | PPipeline (PRoute (RInfeasible _)) | PPipeline (RealizedCapacity _ _ _ _) => Some Retryable
  | _ => None
  end.

Record RealizedUtilization := mkRealized { logic : f64; block : f64 }.

Definition maximum (u : RealizedUtilization) : f64 := F64.max (logic u) (block u).

Definition binding_logic_cap_units (u : RealizedUtilization) (caps : ExactDseResourceCaps) : Z :=
  let block_margin := if multilevel_block_margin_applied caps then MULTILEVEL_BLOCK_RESOURCE_MARGIN_UNITS else 0 in
  Z.max (utilization_units (logic u)) (saturating_sub (utilization_units (block u)) block_margin).

Definition resource_ratio (used available : Z) : f64 := F64.div (F64.of_Z used) (F64.of_Z available).

(** One resource of one slot. *)
Definition realize_resource (d : Device) (region : string) (s : Slot) (usage : Area) (u : RealizedUtilization) (r : Resource) :
    res DseError RealizedUtilization :=
  if negb (plans_resource d r) then Ok u else
  let used := amount r usage in
  let available := amount r (slot_area s) in
  if available =? 0 then
    if negb (used =? 0)
    then Err (InvalidFloorplan (region +:+ " uses " +:+ Str.show used +:+ " " +:+ resource_name r +:+ " with zero available") [])
    else Ok u
  else
    let ratio := resource_ratio used available in
    Ok (if is_logic r then mkRealized (F64.max (logic u) ratio) (block u) else mkRealized (logic u) (F64.max (block u) ratio)).

Definition realize_slot (d : Device) (u : RealizedUtilization) (e : string * Area) : res DseError RealizedUtilization :=
  let '(region, usage) := e in
  let! c := ok_or (match Coor.from_region_name region with
                   | Some c => if (Coor.width c =? 1) && (Coor.height c =? 1) then Some c else None
                   | None => None end)
                  (InvalidFloorplan ("usage key `" +:+ region +:+ "` is not an atomic slot") []) in
  let! s := ok_or (slot d (dl_x c) (dl_y c))
                  (InvalidFloorplan ("usage key `" +:+ region +:+ "` is outside device `" +:+ key d +:+ "`") []) in
  try_fold (realize_resource d region s usage) u resource_all.

Definition realized_utilization (fp : FloorplanResult) (d : Device) : res DseError RealizedUtilization :=
  if negb (String.eqb (fr_device fp) (key d))
  then Err (InvalidFloorplan ("floorplan device `" +:+ fr_device fp +:+ "` does not match utilization device `" +:+ key d +:+ "`") []) else
  let! u := try_fold (realize_slot d) (mkRealized F64.zero F64.zero) (fr_slot_usage fp) in
  if F64.gtb (maximum u) F64.one then Err (InvalidFloorplan "maximum realized utilization exceeds device capacity" [maximum u]) else Ok u.

Definition maximum_realized_utilization (fp : FloorplanResult) (d : Device) : res DseError f64 :=
  let! u := realized_utilization fp d in Ok (maximum u).

(** ** Exploration *)

Section explore.
Variable table : string -> res string Device.
Variable cbc : LpModel -> SolveOpts -> res SolverError LpSolution.

(** The closure of [explore]: one attempt at an exact cap. *)
Definition explore_attempt (st : WorkState) (plan_options : PlanOptions) (inputs : PlanInputs) (cap : f64) :
    res DseError (Attempt FloorplanResult ExactDseResourceCaps) :=
  let exact_options := mkPlanOptions cap (max_seconds plan_options) (po_threads plan_options)
                         (partition_strategy plan_options) (po_scheme plan_options) in
  let! (caps, result) := map_err (DPlan cap) (plan_with_inputs_at_usage_limit_and_caps table cbc st exact_options inputs) in
  match result with
  | Ok fp =>
      let! d := map_err (fun e => DPlan cap (PDevice e)) (select_device table (fr_device fp)) in
      let! realized := realized_utilization fp d in
      Ok (AFeasible fp (fr_regions fp) (maximum realized) (binding_logic_cap_units realized caps) caps)
  | Err e => match rejection_kind e with Some kind => Ok (AInfeasible kind caps) | None => Err (DPlan cap e) end
  | Panic => Panic
  end.

Definition candidates_from_sweep (attempts : list (Swept FloorplanResult ExactDseResourceCaps)) : list DseCandidate :=
  map (fun a => match sw_value a with
                | Some (fp, max_utilization) => CFeasible (sw_metadata a) max_utilization fp
                | None => CInfeasible (sw_metadata a) end) attempts.

Definition explore (st : WorkState) (plan_options : PlanOptions) (inputs : PlanInputs) (options : DseOptions) :
    res DseError (list DseCandidate) :=
  let! o := try_from options in
  let! attempts := sweep_with o (explore_attempt st plan_options inputs) in
  Ok (candidates_from_sweep attempts).
End explore.

(** * Properties of the exploration

    The grid of caps, the sweep, and the candidates of a whole exploration. *)

Notation SCALE := EXACT_DSE_CAP_SCALE.

(** ** The grid of caps *)

Definition on_grid (u : Z) : Prop := 1 <= u <= SCALE.

Lemma scale_float : fin (F64.of_Z SCALE) /\ units (F64.of_Z SCALE) = SCALE * UNIT.
Proof. by apply of_Z_exact. Qed.

Lemma cap_value_spec u : on_grid u ->
  fin (cap_value u) /\ 0 < units (cap_value u) <= UNIT /\ Z.abs (units (cap_value u) * SCALE - u * UNIT) * 2 ^ 53 <= u * UNIT.
Proof.
  intros Hu. pose proof UNIT_pos as HU. destruct scale_float as [Fs Vs].
  destruct (of_Z_exact u) as [Fu Vu]; [unfold on_grid, EXACT_DSE_CAP_SCALE in Hu; lia|]. fold UNIT in Vu.
  assert (Hq : units (F64.of_Z u) * 2 ^ K / units (F64.of_Z SCALE) = u * UNIT / SCALE).
  { rewrite Vu, Vs. fold UNIT. apply Z.div_mul_cancel_r; [done|lia]. }
  assert (Hlo : UNIT / SCALE <= u * UNIT / SCALE) by (apply Z.div_le_mono; [done|destruct Hu; nia]).
  assert (Hhi : u * UNIT / SCALE <= UNIT) by (apply Z.div_le_upper_bound; [done|destruct Hu; nia]).
  assert (Hbig : 2 ^ 1200 <= UNIT / SCALE) by (vm_compute; discriminate).
  destruct (div_spec (F64.of_Z u) (F64.of_Z SCALE) Fu Fs) as [Hf Hv].
  { rewrite Vu. destruct Hu. nia. }
  { rewrite Vs. unfold EXACT_DSE_CAP_SCALE. lia. }
  { rewrite Hq. split; [lia|]. apply Z.le_lt_trans with (1 := Hhi). unfold UNIT. apply Z.pow_lt_mono_r; unfold K; lia. }
  unfold cap_value. split; [exact Hf|]. rewrite Hv, Vu, Vs. fold UNIT.
  set (n := u * UNIT * UNIT). set (d := SCALE * UNIT) in *. assert (Hd : 0 < d) by (unfold d, EXACT_DSE_CAP_SCALE; lia).
  assert (En : n / d = u * UNIT / SCALE) by (apply Z.div_mul_cancel_r; [done|lia]).
  pose proof (round_quotient_relative n d Hd) as Hrel. rewrite En in Hrel.
  specialize (Hrel ltac:(apply Z.le_trans with (2 := Hlo), Z.le_trans with (2 := Hbig); apply Z.pow_le_mono_r; lia)).
  set (A := round_quotient n d) in *. assert (Habs : Z.abs (A * SCALE - u * UNIT) * 2 ^ 53 <= u * UNIT).
  { replace (A * d - n) with ((A * SCALE - u * UNIT) * UNIT) in Hrel by (unfold d, n; ring). rewrite Z.abs_mul, (Z.abs_eq UNIT) in Hrel by lia.
    unfold n in Hrel. apply (Z.mul_le_mono_pos_r _ _ UNIT); [done|]. lia. }
  split; [|exact Habs]. split.
  - unfold on_grid, EXACT_DSE_CAP_SCALE in *. change (2 ^ 53) with 9007199254740992 in Habs. clearbody A. clear - Habs Hu HU. nia.
  - unfold A, round_quotient. rewrite En. set (G := grid (u * UNIT / SCALE)).
    assert (HG : 0 <= G <= K).
    { split; [apply grid_nonneg|]. unfold G, grid. pose proof (Z.log2_le_mono _ _ Hhi) as Hl. unfold UNIT in Hl at 2. rewrite Z.log2_pow2 in Hl by (unfold K; lia). unfold K in *. lia. }
    assert (EU : UNIT = 2 ^ (K - G) * 2 ^ G) by (rewrite <- Z.pow_add_r by lia; unfold UNIT; f_equal; lia).
    apply Z.le_trans with (2 ^ (K - G) * 2 ^ G); [|by rewrite <- EU]. apply Z.mul_le_mono_nonneg_r; [apply Z.pow_nonneg; lia|]. apply rndq_le.
    + apply Z.mul_pos_pos; [done|]. apply pow2_pos. lia.
    + replace (2 ^ (K - G) * (d * 2 ^ G)) with (d * (2 ^ (K - G) * 2 ^ G)) by ring. rewrite <- EU. unfold n, d. destruct Hu. nia.
Qed.

(** A cap in units of the grid, half-way cases up. *)
Definition to_grid (v : Z) : Z := (2 * round_units (v * SCALE) + UNIT) / (2 * UNIT).

Lemma round_scale : round_units (UNIT * SCALE) = UNIT * SCALE.
Proof. destruct scale_float as [Fs Vs]. rewrite (Z.mul_comm UNIT), <- Vs. apply round_units_fin; [done|]. rewrite Vs. unfold EXACT_DSE_CAP_SCALE. pose proof UNIT_pos. lia. Qed.

Lemma to_grid_mono v w : 0 <= v <= w -> w <= UNIT -> 0 <= to_grid v <= to_grid w /\ to_grid w <= SCALE.
Proof.
  intros H1 H2. pose proof UNIT_pos as HU. unfold to_grid.
  assert (R1 : 0 <= round_units (v * SCALE)) by (apply round_units_nonneg; unfold EXACT_DSE_CAP_SCALE; lia).
  assert (R2 : round_units (v * SCALE) <= round_units (w * SCALE)) by (apply round_units_le; unfold EXACT_DSE_CAP_SCALE; lia).
  assert (R3 : round_units (w * SCALE) <= UNIT * SCALE) by (rewrite <- round_scale; apply round_units_le; unfold EXACT_DSE_CAP_SCALE; lia).
  split; [split|].
  - apply Z.div_pos; lia.
  - apply Z.div_le_mono; lia.
  - apply Z.lt_succ_r, Z.div_lt_upper_bound; [lia|]. lia.
Qed.

Lemma cap_units_spec name a : fin a -> 0 <= units a <= UNIT ->
  cap_units name a = if to_grid (units a) =? 0
    then Err (DInvalidOptions (name +:+ " is below the supported utilization resolution") [F64.div F64.one (F64.of_Z SCALE)])
    else Ok (to_grid (units a)).
Proof.
  intros Ha Hu. pose proof UNIT_pos as HU. destruct scale_float as [Fs Vs].
  assert (E : units a * units (F64.of_Z SCALE) / 2 ^ K = units a * SCALE).
  { rewrite Vs. fold UNIT. rewrite Z.mul_assoc, Z.div_mul; [done|lia]. }
  assert (Hpos : 0 <= units a * SCALE <= UNIT * SCALE) by (unfold EXACT_DSE_CAP_SCALE; lia).
  destruct (mul_spec a (F64.of_Z SCALE) Ha Fs) as (Fm & Vm & _); [lia|rewrite Vs; unfold EXACT_DSE_CAP_SCALE; lia| |].
  { rewrite E. split; [lia|]. apply Z.le_lt_trans with (1 := proj2 Hpos). unfold UNIT. rewrite Z.mul_comm, Z.pow_add_r by (unfold K; lia).
    apply Z.mul_lt_mono_pos_r; [apply pow2_pos; unfold K; lia|]. unfold EXACT_DSE_CAP_SCALE. apply Z.lt_le_trans with (2 ^ 30); [done|]. by apply Z.pow_le_mono_r. }
  rewrite E in Vm. assert (R : 0 <= round_units (units a * SCALE) <= UNIT * SCALE).
  { split; [apply round_units_nonneg; lia|]. rewrite <- round_scale. apply round_units_le. lia. }
  destruct (to_grid_mono (units a) (units a) ltac:(lia) ltac:(lia)) as [[G0 _] G1].
  assert (Eu : F64.to_u32 (F64.round (F64.mul a (F64.of_Z SCALE))) = to_grid (units a)).
  { unfold F64.to_u32. rewrite to_u64_round, Vm; [|done|lia|unfold EXACT_DSE_CAP_SCALE in *; lia].
    fold (to_grid (units a)). apply Z.min_r. unfold U32_MAX, EXACT_DSE_CAP_SCALE in *. lia. }
  unfold cap_units. cbv zeta. by rewrite Eu.
Qed.

Lemma to_grid_cap_value u : on_grid u -> to_grid (units (cap_value u)) = u.
Proof.
  intros Hu. pose proof UNIT_pos as HU. destruct (cap_value_spec u Hu) as (_ & [Hpos Hle] & Habs). set (A := units (cap_value u)) in *.
  change (2 ^ 53) with 9007199254740992 in *. unfold to_grid.
  assert (HX : 2 ^ 1126 <= A * SCALE).
  { apply Z.le_trans with (UNIT / 2); [vm_compute; discriminate|]. apply Z.div_le_upper_bound; [done|]. unfold on_grid, EXACT_DSE_CAP_SCALE in *. clearbody A. nia. }
  pose proof (round_units_relative (A * SCALE) HX) as Hr. change (2 ^ 53) with 9007199254740992 in Hr.
  set (R := round_units (A * SCALE)) in *. clearbody R A. symmetry. apply (Z.div_unique_pos _ _ _ (2 * (R - u * UNIT) + UNIT)); [|ring].
  unfold on_grid, EXACT_DSE_CAP_SCALE in *. clear HX. nia.
Qed.

(** The caps of a sweep are an exact grid. Every cap of the grid survives
    its conversion to a float and back, however often: the units of its float
    are the cap itself; its float is a fraction in (0, 1]; and different caps
    are different floats, in the same order. *)
Theorem cap_grid_exact name u v : on_grid u -> on_grid v -> u < v ->
  cap_units name (cap_value u) = Ok u /\ validate_fraction name (cap_value u) = Ok tt /\
  F64.ltb (cap_value u) (cap_value v) = true.
Proof.
  intros Hu Hv Hlt. pose proof UNIT_pos as HU. destruct (cap_value_spec u Hu) as (Fu & Bu & Au). destruct (cap_value_spec v Hv) as (Fv & Bv & Av).
  split_and!.
  - rewrite cap_units_spec by (done || lia). rewrite to_grid_cap_value by done. destruct (Z.eqb_spec u 0); [destruct Hu; lia|done].
  - unfold validate_fraction, F64.gtb. rewrite (proj1 Fu), leb_spec, ltb_spec by done. rewrite (proj2 one_spec). change (units F64.zero) with 0.
    destruct (Z.leb_spec (units (cap_value u)) 0); [lia|]. destruct (Z.ltb_spec UNIT (units (cap_value u))); [lia|done].
  - rewrite ltb_spec by done. apply Z.ltb_lt. change (2 ^ 53) with 9007199254740992 in *. unfold on_grid, EXACT_DSE_CAP_SCALE in *.
    set (A := units (cap_value u)) in *. set (B := units (cap_value v)) in *. clearbody A B. nia.
Qed.

(** ** The sweep *)

Section sweep.
Context {T M E : Type} (attempt : f64 -> res E (Attempt T M)) (o : ValidatedOptions).
Context (Hmin : 1 <= v_min o) (Hstep : 1 <= v_step o).

(** A candidate records the attempt at its cap; with its placement. *)
Definition recorded (s : Swept T M) (placement : option (bmap string string)) : Prop :=
  match attempt (cap_value (sw_cap s)) with
  | Ok (AFeasible value regions max_utilization _ metadata) =>
      sw_value s = Some (value, max_utilization) /\ sw_metadata s = metadata /\ placement = Some regions
  | Ok (AInfeasible _ metadata) => sw_value s = None /\ sw_metadata s = metadata /\ placement = None
  | _ => False
  end.

Definition terminal (s : Swept T M) : Prop := exists m, attempt (cap_value (sw_cap s)) = Ok (AInfeasible Terminal m).

(** The candidates of a descent from [cap]. *)
Record descent (cap : Z) (visited : list (bmap string string)) (out : list (Swept T M)) : Prop := {
  ds_sorted : StronglySorted (fun a b => sw_cap b + v_step o <= sw_cap a) out;
  ds_range : Forall (fun s => v_min o <= sw_cap s <= cap) out;
  ds_recorded : exists ps, Forall2 recorded out ps /\ NoDup (omap id ps) /\ forall p, p ∈ omap id ps -> p ∉ visited;
  ds_terminal : forall i s, out !! i = Some s -> terminal s -> S i = length out;
}.

Lemma descent_nil cap visited : descent cap visited [].
Proof.
  split; [constructor|constructor| |done]. exists []. split_and!; [constructor|constructor|]. intros p Hp. by apply not_elem_of_nil in Hp.
Qed.

Lemma descent_lower cap cap' visited out : cap' <= cap -> descent cap' visited out -> descent cap visited out.
Proof. intros H [S R P N]. split; [done| |done|done]. eapply Forall_impl; [exact R|]. simpl. lia. Qed.

Lemma descent_cons cap next visited visited' s p rest :
  sw_cap s = cap -> v_min o <= cap -> (0 < next -> next + v_step o <= cap) -> recorded s p -> ~ terminal s ->
  visited' = match p with Some r => r :: visited | None => visited end -> (forall r, p = Some r -> r ∉ visited) ->
  descent next visited' rest -> descent cap visited (s :: rest).
Proof using All.
  intros Hc Hlo Hnext Hrec Hterm -> Hnew [S R (ps & P1 & P2 & P3) N].
  assert (Hpos : rest <> [] -> 0 < next).
  { intros Hne. destruct rest as [|x rest]; [done|]. apply Forall_cons in R as [Hx _]. lia. }
  split.
  - constructor; [done|]. rewrite Forall_forall in R |- *. intros x Hx. specialize (R x Hx). simpl in R.
    assert (0 < next) by (apply Hpos; intros ->; by apply not_elem_of_nil in Hx). lia.
  - constructor; [lia|]. rewrite Forall_forall in R |- *. intros x Hx. specialize (R x Hx). simpl in R.
    assert (0 < next) by (apply Hpos; intros ->; by apply not_elem_of_nil in Hx). lia.
  - exists (p :: ps). split; [by constructor|]. destruct p as [r|]; simpl.
    + split.
      * constructor; [|done]. intros Hin. apply (P3 r Hin). by left.
      * intros q [->|Hq]%elem_of_cons; [by apply Hnew|]. intros Hv. apply (P3 q Hq). by right.
    + split; [done|]. exact P3.
  - intros [|i] x Hx Ht; [injection Hx as <-; done|]. simpl. f_equal. by apply (N i x).
Qed.

Lemma sweep_descends fuel : forall cap visited out, 0 <= cap ->
  sweep_from fuel attempt o cap visited = Ok out -> descent cap visited out.
Proof using All.
  induction fuel as [|fuel IH]; intros cap visited out H0 H; [done|]. cbn [sweep_from] in H.
  destruct (Z.ltb_spec cap (v_min o)) as [Hlt|Hge]; [injection H as <-; apply descent_nil|].
  apply rbind_ok in H as (a & Ha & H). destruct a as [value regions mu binding metadata|kind metadata]; cbn [sweep_step] in H.
  - set (next := Z.min (saturating_sub cap (v_step o)) (saturating_sub binding ADAPTIVE_MARGIN)) in *.
    assert (Hn : 0 <= next /\ (0 < next -> next + v_step o <= cap)) by (unfold next, saturating_sub; lia).
    assert (Hrec : recorded (mkSwept cap (Some (value, mu)) metadata) (Some regions)) by (unfold recorded; cbn [sw_cap]; by rewrite Ha).
    assert (Hnt : ~ terminal (mkSwept cap (Some (value, mu)) metadata)) by (intros [m Hm]; cbn [sw_cap] in Hm; congruence).
    case_bool_decide as Hv; destruct (Z.leb_spec cap next) as [Hle|Hgt].
    + injection H as <-. apply descent_nil.
    + apply rbind_ok in H as (rest & Hrest & [= <-]). apply IH in Hrest; [|lia]. apply (descent_lower cap next); [lia|exact Hrest].
    + lia.
    + apply rbind_ok in H as (rest & Hrest & [= <-]). apply IH in Hrest; [|lia].
      eapply (descent_cons cap next visited); [done|done|lia|exact Hrec|done|done| |exact Hrest]. by intros r [= <-].
  - assert (Hrec : recorded (mkSwept cap None metadata) None) by (unfold recorded; cbn [sw_cap]; by rewrite Ha).
    case_bool_decide as Hk; [|destruct (Z.leb_spec cap (saturating_sub cap (v_step o))) as [Hle|Hgt]].
    + injection H as <-. split.
      * by repeat constructor.
      * repeat constructor; simpl; lia.
      * exists [None]. split_and!; [by constructor|constructor|]. intros p Hp. by apply not_elem_of_nil in Hp.
      * by intros [|i] x Hx.
    + unfold saturating_sub in Hle. lia.
    + apply rbind_ok in H as (rest & Hrest & [= <-]). apply IH in Hrest; [|unfold saturating_sub; lia].
      eapply (descent_cons cap _ visited); [done|done| |exact Hrec| |done|done|exact Hrest]; [unfold saturating_sub; lia|].
      intros [m Hm]. cbn [sw_cap] in Hm. rewrite Ha in Hm. by injection Hm as ->.
Qed.

Lemma sweep_first out : v_min o <= v_max o -> sweep_with o attempt = Ok out ->
  exists s, head out = Some s /\ sw_cap s = v_max o.
Proof using All.
  intros Hle H. unfold sweep_with in H. destruct (sweep_fuel o) as [|fuel]; [done|]. cbn [sweep_from] in H.
  destruct (Z.ltb_spec (v_max o) (v_min o)); [lia|]. apply rbind_ok in H as (a & _ & H).
  destruct a as [value regions mu binding metadata|kind metadata]; cbn [sweep_step] in H; case_bool_decide as Hv.
  - by apply not_elem_of_nil in Hv.
  - destruct (_ <=? _); [injection H as <-; by eexists|]. apply rbind_ok in H as (rest & _ & [= <-]). by eexists.
  - injection H as <-. by eexists.
  - destruct (_ <=? _); [injection H as <-; by eexists|]. apply rbind_ok in H as (rest & _ & [= <-]). by eexists.
Qed.

(** *** What a sweep does

    The caps it tries, one after another, and what comes of it, from a cap and the
    placements already recorded.  A plan is recorded unless its placement was, and the
    next cap is the lower of a step below and one percent below what the plan needs; a
    retryable rejection is recorded, and the next cap is a step below; a terminal one is
    recorded, and ends the sweep; a failed attempt fails it. *)
Inductive sweep_run : Z -> list (bmap string string) -> list Z -> res E (list (Swept T M)) -> Prop :=
| run_below cap visited : cap < v_min o -> sweep_run cap visited [] (Ok [])
| run_new cap visited value regions mu binding metadata next caps r :
    v_min o <= cap -> attempt (cap_value cap) = Ok (AFeasible value regions mu binding metadata) -> regions ∉ visited ->
    next = Z.max 0 (Z.min (cap - v_step o) (binding - 10000000)) -> sweep_run next (regions :: visited) caps r ->
    sweep_run cap visited (cap :: caps) (let! rest := r in Ok (mkSwept cap (Some (value, mu)) metadata :: rest))
| run_repeated cap visited value regions mu binding metadata next caps r :
    v_min o <= cap -> attempt (cap_value cap) = Ok (AFeasible value regions mu binding metadata) -> regions ∈ visited ->
    next = Z.max 0 (Z.min (cap - v_step o) (binding - 10000000)) -> sweep_run next visited caps r ->
    sweep_run cap visited (cap :: caps) r
| run_retryable cap visited metadata caps r :
    v_min o <= cap -> attempt (cap_value cap) = Ok (AInfeasible Retryable metadata) ->
    sweep_run (Z.max 0 (cap - v_step o)) visited caps r ->
    sweep_run cap visited (cap :: caps) (let! rest := r in Ok (mkSwept cap None metadata :: rest))
| run_terminal cap visited metadata :
    v_min o <= cap -> attempt (cap_value cap) = Ok (AInfeasible Terminal metadata) ->
    sweep_run cap visited [cap] (Ok [mkSwept cap None metadata])
| run_failed cap visited e :
    v_min o <= cap -> attempt (cap_value cap) = Err e -> sweep_run cap visited [cap] (Err e).

Lemma adaptive_next cap binding : 0 <= v_step o ->
  Z.min (saturating_sub cap (v_step o)) (saturating_sub binding ADAPTIVE_MARGIN) = Z.max 0 (Z.min (cap - v_step o) (binding - 10000000)).
Proof. intros H. unfold saturating_sub. change ADAPTIVE_MARGIN with 10000000. lia. Qed.

(** Enough fuel: the sweep runs as described. *)
Lemma sweep_runs fuel : forall cap visited, (0 < Z.of_nat fuel) -> (0 < cap -> cap / v_step o + 2 <= Z.of_nat fuel) ->
  (forall c, attempt c <> Panic) -> exists caps, sweep_run cap visited caps (sweep_from fuel attempt o cap visited).
Proof using Hmin Hstep.
  induction fuel as [|fuel IH]; intros cap visited Hf Hc Ha; [lia|]. cbn [sweep_from].
  destruct (Z.ltb_spec cap (v_min o)) as [Hlt|Hge]; [exists []; by constructor|].
  assert (Hrec : forall next visited, (0 < next -> next + v_step o <= cap) -> exists caps, sweep_run next visited caps (sweep_from fuel attempt o next visited)).
  { intros next visited' Hn. specialize (Hc ltac:(lia)). apply IH; [pose proof (Z.div_pos cap (v_step o) ltac:(lia) ltac:(lia)); lia|intros Hp|done].
    specialize (Hn Hp). pose proof (Z.div_le_mono (next + 1 * v_step o) cap (v_step o) ltac:(lia) ltac:(lia)) as Hd. rewrite Z.div_add in Hd by lia. lia. }
  destruct (attempt (cap_value cap)) as [a|e|] eqn:Ea; [|exists [cap]; by constructor|by destruct (Ha (cap_value cap))].
  cbn [rbind]. destruct a as [value regions mu binding metadata|[] metadata]; cbn [sweep_step].
  - rewrite adaptive_next by lia. set (next := Z.max 0 _). assert (Hn : 0 <= next /\ (0 < next -> next + v_step o <= cap)) by lia.
    assert (Hlt : (cap <=? next) = false) by lia.
    case_bool_decide as Hv; cbv iota beta; rewrite Hlt.
    + destruct (Hrec next visited (proj2 Hn)) as (caps & Hr). exists (cap :: caps).
      assert (E0 : rbind (sweep_from fuel attempt o next visited) (fun rest => Ok ([] ++ rest)) = sweep_from fuel attempt o next visited) by (by destruct (sweep_from _ _ _ _ _)).
      rewrite E0. by eapply run_repeated.
    + destruct (Hrec next (regions :: visited) (proj2 Hn)) as (caps & Hr). exists (cap :: caps). cbn [app]. by eapply run_new.
  - rewrite bool_decide_eq_true_2 by done. exists [cap]. by constructor.
  - rewrite bool_decide_eq_false_2 by done. unfold saturating_sub. assert ((cap <=? Z.max 0 (cap - v_step o)) = false) as -> by lia.
    destruct (Hrec (Z.max 0 (cap - v_step o)) visited) as (caps & Hr); [lia|]. exists (cap :: caps). cbn [app]. by constructor.
Qed.

Lemma run_caps cap visited caps r : sweep_run cap visited caps r ->
  StronglySorted (fun a b => b + v_step o <= a) caps /\ Forall (fun c => v_min o <= c <= cap) caps /\ (v_min o <= cap -> head caps = Some cap) /\ r <> Panic.
Proof using Hmin Hstep.
  assert (Hcons : forall cap next caps, v_min o <= cap -> (0 < next -> next + v_step o <= cap) ->
    StronglySorted (fun a b => b + v_step o <= a) caps -> Forall (fun c => v_min o <= c <= next) caps ->
    StronglySorted (fun a b => b + v_step o <= a) (cap :: caps) /\ Forall (fun c => v_min o <= c <= cap) (cap :: caps)).
  { intros cap' next caps' Hlo Hn Hs Hf. split; constructor; [done| |lia|]; eapply Forall_impl; [exact Hf| |exact Hf|]; simpl; intros x Hx; lia. }
  induction 1 as [cap visited Hlt|cap visited value regions mu binding metadata next caps r Hlo Ha Hv -> _ (IH1 & IH2 & _ & IH4)
    |cap visited value regions mu binding metadata next caps r Hlo Ha Hv -> _ (IH1 & IH2 & _ & IH4)|cap visited metadata caps r Hlo Ha _ (IH1 & IH2 & _ & IH4)
    |cap visited metadata Hlo Ha|cap visited e Hlo Ha].
  - split_and!; [constructor|constructor|lia|done].
  - unshelve epose proof (Hcons cap _ caps Hlo _ IH1 IH2) as [? ?]; [lia|]. split_and!; [done|done|done|by destruct r].
  - unshelve epose proof (Hcons cap _ caps Hlo _ IH1 IH2) as [? ?]; [lia|]. by split_and!.
  - unshelve epose proof (Hcons cap _ caps Hlo _ IH1 IH2) as [? ?]; [lia|]. split_and!; [done|done|done|by destruct r].
  - split_and!; [by repeat constructor|repeat constructor; lia|done|done].
  - split_and!; [by repeat constructor|repeat constructor; lia|done|done].
Qed.

(** A run is determined by where it starts. *)
Lemma run_deterministic cap visited caps1 r1 caps2 r2 : sweep_run cap visited caps1 r1 -> sweep_run cap visited caps2 r2 -> caps1 = caps2 /\ r1 = r2.
Proof using Type.
  intros Hrun. revert caps2 r2. induction Hrun; intros caps2 r2 Hr2; inversion Hr2; subst; try lia; try congruence; simplify_eq;
    repeat match goal with H : attempt _ = _, H' : attempt _ = _ |- _ => rewrite H in H'; simplify_eq end; try done; try contradiction.
  all: match goal with IH : forall _ _, sweep_run _ _ _ _ -> _, H : sweep_run _ _ _ _ |- _ => apply IH in H as [-> ->] end; done.
Qed.
End sweep.

(** C34: what a sweep tries and records, exactly. Whatever the attempts answer, a sweep
    over valid bounds ends, and it is the run from the maximum, the only one: each cap
    from there on is attempted; each plan is recorded unless its placement was, each
    infeasible attempt is recorded; after a plan the next cap is the lower of a step
    below and one percent of the scale below what the plan needs, after a retryable
    rejection a step below; and it ends only below the minimum, at a terminal rejection,
    or with the error of an attempt. The caps attempted start at the maximum, stay within
    the bounds, and descend by at least a step; no two records have the same placement. *)
Theorem sweep_exact {T M E} (attempt : f64 -> res E (Attempt T M)) o :
  1 <= v_min o <= v_max o -> 1 <= v_step o -> (forall c, attempt c <> Panic) ->
  exists caps, sweep_run attempt o (v_max o) [] caps (sweep_with o attempt) /\
    (forall caps' r, sweep_run attempt o (v_max o) [] caps' r -> caps' = caps /\ r = sweep_with o attempt) /\
    sweep_with o attempt <> Panic /\ head caps = Some (v_max o) /\
    StronglySorted (fun a b => b + v_step o <= a) caps /\ Forall (fun c => v_min o <= c <= v_max o) caps /\
    forall out, sweep_with o attempt = Ok out -> descent attempt o (v_max o) [] out /\ exists s, head out = Some s /\ sw_cap s = v_max o.
Proof.
  intros Hmin Hstep Ha. pose proof (Z.div_pos (v_max o) (v_step o) ltac:(lia) ltac:(lia)).
  destruct (sweep_runs attempt o ltac:(lia) Hstep (sweep_fuel o) (v_max o) []) as (caps & Hr); [unfold sweep_fuel; lia|unfold sweep_fuel; lia|done|].
  exists caps. destruct (run_caps attempt o ltac:(lia) Hstep _ _ _ _ Hr) as (H1 & H2 & H3 & H4). split_and!; [exact Hr| |exact H4|apply H3; lia|exact H1|exact H2|].
  - intros caps' r Hr'. by destruct (run_deterministic attempt o _ _ _ _ _ _ Hr Hr').
  - intros out Ho. split; [|apply sweep_first in Ho; [done|lia..]]. unfold sweep_with in Ho. by apply sweep_descends in Ho; [|lia..].
Qed.

(** ** Options *)

Lemma validate_fraction_ok name a : valid a -> validate_fraction name a = Ok tt -> fin a /\ 0 < units a <= UNIT.
Proof.
  intros Hv H. unfold validate_fraction in H. destruct (F64.is_finite a) eqn:Ef; [|done]. simpl in H.
  assert (Fa : fin a) by done. unfold F64.gtb in H. rewrite leb_spec, ltb_spec, (proj2 one_spec) in H by (done || apply one_spec).
  change (units F64.zero) with 0 in H. destruct (Z.leb_spec (units a) 0); [done|]. destruct (Z.ltb_spec UNIT (units a)); [done|]. split; [done|lia].
Qed.

Lemma cap_units_ok name a u : fin a -> 0 < units a <= UNIT -> cap_units name a = Ok u -> u = to_grid (units a) /\ on_grid u.
Proof.
  intros Fa Ha H. rewrite cap_units_spec in H by (done || lia). destruct (to_grid_mono (units a) (units a)) as [[H0 _] H1]; [lia..|].
  destruct (Z.eqb_spec (to_grid (units a)) 0); [done|]. injection H as <-. unfold on_grid. split; [done|lia].
Qed.

Lemma try_from_ok o v : valid (dse_min o) -> valid (dse_max o) -> valid (dse_step o) -> try_from o = Ok v ->
  on_grid (v_min v) /\ on_grid (v_max v) /\ v_min v <= v_max v /\ on_grid (v_step v).
Proof.
  intros V1 V2 V3 H. unfold try_from in H.
  apply rbind_ok in H as ([] & H1%validate_fraction_ok & H); [|done]. apply rbind_ok in H as ([] & H2%validate_fraction_ok & H); [|done].
  apply rbind_ok in H as ([] & H3%validate_fraction_ok & H); [|done]. destruct (F64.gtb _ _) eqn:Eg; [done|].
  unfold F64.gtb in Eg. rewrite ltb_spec in Eg by (apply H1 || apply H2). apply Z.ltb_ge in Eg.
  apply rbind_ok in H as (a & Ha%cap_units_ok & H); [|apply H1..]. apply rbind_ok in H as (b & Hb%cap_units_ok & H); [|apply H2..].
  apply rbind_ok in H as (c & Hc%cap_units_ok & [= <-]); [|apply H3..]. simpl. destruct Ha as [-> Ga]. destruct Hb as [-> Gb].
  split_and!; [done|done| |apply Hc]. apply to_grid_mono; lia.
Qed.

(** ** Exploration *)

Lemma realized_at_most_one fp d u : realized_utilization fp d = Ok u -> F64.gtb (maximum u) F64.one = false.
Proof.
  unfold realized_utilization. destruct (negb _); [done|]. intros H. apply rbind_ok in H as (w & _ & H).
  destruct (F64.gtb (maximum w) F64.one) eqn:E; [done|]. by injection H as <-.
Qed.

Lemma exact_caps table cbc st o inputs caps r : plan_with_inputs_at_usage_limit_and_caps table cbc st o inputs = Ok (caps, r) ->
  logic_utilization_cap caps = po_usage_limit o.
Proof.
  intros H. unfold plan_with_inputs_at_usage_limit_and_caps in H. apply rbind_ok in H as ([] & _ & H). apply rbind_ok in H as ([d g] & _ & H).
  cbv zeta in H. match type of H with match ?x with _ => _ end = _ => destruct x as [r'|e|] end; [by injection H as <- _|by injection H as <- _|done].
Qed.

(** A candidate explored at the cap [u] of the grid. *)
Definition explored table g d (s : PipelineScheme) (u : Z) (c : DseCandidate) : Prop :=
  logic_utilization_cap (candidate_caps c) = cap_value u /\
  match c with
  | CFeasible caps mu fp =>
      (exists d', select_device table (fr_device fp) = Ok d' /\ maximum_realized_utilization fp d' = Ok mu /\ F64.gtb mu F64.one = false) /\
      exists cells routes, legal_plan g d s (logic_utilization_cap caps) (block_limit caps) cells routes fp
  | CInfeasible _ => True
  end.

Section exploration.
Context (table : string -> res string Device) (cbc : LpModel -> SolveOpts -> res SolverError LpSolution).
Context (st : WorkState) (po : PlanOptions) (inputs : PlanInputs) (d : Device) (g : FloorGraph).
Context (Hprep : prepare_plan table st inputs = Ok (d, g)) (Hsz : sized d g).

Lemma explored_attempt s p : on_grid (sw_cap s) -> recorded (explore_attempt table cbc st po inputs) s p ->
  explored table g d (po_scheme po) (sw_cap s)
    match sw_value s with Some (fp, mu) => CFeasible (sw_metadata s) mu fp | None => CInfeasible (sw_metadata s) end /\
  p = option_map (fun v => fr_regions v.1) (sw_value s).
Proof using All.
  intros Hu H. destruct (cap_value_spec _ Hu) as (Fc & _). unfold recorded in H. unfold explore_attempt in H. cbv zeta in H.
  destruct (plan_with_inputs_at_usage_limit_and_caps _ _ _ _ _) as [[caps r]|e|] eqn:Hp; [|done..]. cbn [map_err rbind] in H.
  pose proof (exact_caps _ _ _ _ _ _ _ Hp) as Hc. simpl in Hc. destruct r as [fp|e|]; [|destruct (rejection_kind e); [|done]|done].
  - apply (exact_plan_legal table cbc st _ inputs caps d g) in Hp; [|done|done|apply Fc]. destruct Hp as (_ & Hlegal).
    destruct (select_device table (fr_device fp)) as [d'|e|] eqn:Hd; [|done..]. cbn [map_err rbind] in H.
    destruct (realized_utilization fp d') as [ru|e|] eqn:Hr; [|done..]. cbn [rbind] in H. destruct H as (-> & -> & ->).
    split; [|done]. split; [exact Hc|]. split; [|exact Hlegal]. exists d'. split; [done|]. unfold maximum_realized_utilization. rewrite Hr.
    split; [done|]. by eapply realized_at_most_one.
  - destruct H as (-> & -> & ->). by split.
Qed.
End exploration.

(** What an exploration returns. The candidates of a successful exploration
    are explored at caps of the grid that start at the requested maximum and
    descend to the minimum by at least the requested step; a feasible candidate
    is a legal plan of the design at its own caps, whose realized utilization
    is at most the device; and no two candidates place the design alike. *)
Theorem explored_candidates_legal table cbc st po inputs d g opts cands :
  prepare_plan table st inputs = Ok (d, g) -> sized d g ->
  valid (dse_min opts) -> valid (dse_max opts) -> valid (dse_step opts) ->
  explore table cbc st po inputs opts = Ok cands ->
  exists o caps, try_from opts = Ok o /\ head caps = Some (v_max o) /\
    StronglySorted (fun a b => b + v_step o <= a) caps /\ Forall (fun u => on_grid u /\ v_min o <= u) caps /\
    Forall2 (explored table g d (po_scheme po)) caps cands /\
    NoDup (omap (fun c => match c with CFeasible _ _ fp => Some (fr_regions fp) | CInfeasible _ => None end) cands).
Proof.
  intros Hprep Hsz V1 V2 V3 H. unfold explore in H. apply rbind_ok in H as (o & Ho & H). apply rbind_ok in H as (out & Hout & [= <-]).
  destruct (try_from_ok _ _ V1 V2 V3 Ho) as (G1 & G2 & Hle & G3). unfold on_grid in G1, G2, G3.
  destruct (sweep_first _ o ltac:(lia) ltac:(lia) out Hle Hout) as (s0 & Hhead & Hs0).
  unfold sweep_with in Hout. apply sweep_descends in Hout as [S R (ps & P1 & P2 & _) _]; [|lia..].
  exists o, (map sw_cap out). split; [done|]. split; [by destruct out; [done|]; injection Hhead as ->; rewrite <- Hs0|].
  split; [|split; [|split]].
  - clear -S. induction S as [|x l S IH F]; [constructor|]. constructor; [done|]. simpl. by apply Forall_fmap.
  - rewrite Forall_map. eapply Forall_impl; [exact R|]. intros s Hs. simpl in *. unfold on_grid. lia.
  - apply Forall2_fmap_l with (f := sw_cap). unfold candidates_from_sweep. apply Forall2_fmap_r.
    apply Forall2_same_length_lookup_2; [done|]. intros i x y Hx Hy. rewrite Hx in Hy. injection Hy as <-.
    destruct (Forall2_lookup_l _ _ _ _ _ P1 Hx) as (p & _ & Hp). eapply explored_attempt in Hp; [exact (proj1 Hp)|done|done|].
    rewrite Forall_lookup in R. specialize (R i x Hx). unfold on_grid. simpl in R. lia.
  - enough (omap id ps = omap (fun c => match c with CFeasible _ _ fp => Some (fr_regions fp) | CInfeasible _ => None end) (candidates_from_sweep out)) as <- by done.
    clear S P2 Hhead. induction P1 as [|s p out ps Hp P1 IH]; [done|]. apply Forall_cons in R as [Rs R].
    eapply explored_attempt in Hp as [_ ->]; [|done|done|unfold on_grid; simpl in Rs; lia]. simpl. destruct (sw_value s) as [[fp mu]|]; simpl; [f_equal|]; by apply IH.
Qed.

(** ** Witnesses *)

Lemma cap_grid_exact_witness : on_grid 700000000 /\ on_grid 700001000 /\ cap_units "step" (cap_value 700000000) = Ok 700000000.
Proof.
  split; [|split]; [unfold on_grid, EXACT_DSE_CAP_SCALE; lia..|].
  apply (cap_grid_exact "step" 700000000 700001000); unfold on_grid, EXACT_DSE_CAP_SCALE; lia.
Defined.

Module Sweeps.
(** Placement succeeds at and above 800000000 units, with one of two placements. *)
Definition attempt (cap : f64) : res unit (Attempt string unit) :=
  match cap_units "cap" cap with
  | Ok u =>
      if 900000000 <=? u then Ok (AFeasible "wide" [("a", "SLOT_X0Y0")] F64.one 950000000 tt)
      else if 800000000 <=? u then Ok (AFeasible "tight" [("a", "SLOT_X1Y0")] F64.one 850000000 tt)
      else Ok (AInfeasible Terminal tt)
  | _ => Err tt
  end.
Definition bounds : ValidatedOptions := mkValidated 500000000 1000000000 20000000.
End Sweeps.

Example sweep_caps : sweep_with Sweeps.bounds Sweeps.attempt =
  Ok [mkSwept 1000000000 (Some ("wide", F64.one)) tt; mkSwept 880000000 (Some ("tight", F64.one)) tt; mkSwept 780000000 None tt].
Proof. vm_compute. reflexivity. Qed.

Lemma sweep_exact_witness : exists caps, head caps = Some (v_max Sweeps.bounds) /\
  sweep_run Sweeps.attempt Sweeps.bounds (v_max Sweeps.bounds) [] caps (sweep_with Sweeps.bounds Sweeps.attempt).
Proof.
  destruct (sweep_exact Sweeps.attempt Sweeps.bounds) as (caps & Hr & _ & _ & Hh & _); [split; vm_compute; discriminate|vm_compute; discriminate| |].
  - intros c. unfold Sweeps.attempt. destruct (cap_units _ _); [|done|done]. by repeat case_match.
  - exists caps. split; [exact Hh|exact Hr].
Defined.

Module Exploration.
(** One solver for both programs of a plan. *)
Definition cbc (m : LpModel) (so : SolveOpts) : res SolverError LpSolution :=
  if existsb (fun c => Str.starts_with "vertex_" (c_name c)) (constraints m) then WholePlan.place m so else RouteExample.solve m so.
Definition options : DseOptions := mkDse (cap_value 990000000) F64.one DEFAULT_SWEEP_STEP.
Definition candidates : list DseCandidate :=
  match explore WholePlan.table cbc WholePlan.state options_default WholePlan.inputs options with Ok l => l | _ => [] end.
End Exploration.

Lemma example_explored :
  explore WholePlan.table Exploration.cbc WholePlan.state options_default WholePlan.inputs Exploration.options = Ok Exploration.candidates.
Proof. vm_compute. reflexivity. Qed.

Lemma example_feasible : exists caps mu fp, Exploration.candidates = [CFeasible caps mu fp].
Proof.
  assert (match Exploration.candidates with [CFeasible _ _ _] => true | _ => false end = true) as H by (vm_compute; reflexivity).
  destruct Exploration.candidates as [|[caps mu fp|] [|]]; [done| |done..]. by exists caps, mu, fp.
Qed.

Lemma explored_candidates_legal_witness : exists caps mu fp cells routes,
  Exploration.candidates = [CFeasible caps mu fp] /\
  legal_plan example_graph Device.Example.device Double (cap_value SCALE) (block_limit caps) cells routes fp.
Proof.
  destruct (explored_candidates_legal WholePlan.table Exploration.cbc WholePlan.state options_default WholePlan.inputs _ _
    Exploration.options Exploration.candidates example_prepared example_sized eq_refl eq_refl eq_refl example_explored)
    as (o & us & Ho & Hh & _ & _ & Hex & _).
  assert (Hmax : v_max o = SCALE) by (vm_compute in Ho; by injection Ho as <-).
  destruct example_feasible as (caps & mu & fp & Hcs). rewrite Hcs in Hex. destruct us as [|u us]; [discriminate Hh|]. injection Hh as ->.
  apply Forall2_cons_1 in Hex as [(Hc & _ & cells & routes & H) _]. exists caps, mu, fp, cells, routes. split; [exact Hcs|].
  simpl in Hc. rewrite Hmax in Hc. rewrite <- Hc. exact H.
Defined.
