(* ===== verification/Xdc.v ===== *)
(** * Constraint emission

    [tapa-floorplan/src/xdc.rs]: a floorplan result and its device become the
    Tcl constraints the implementation tool applies. *)

From S2P Require Import Prelude RustStd BTreeMap Geometry Names Device FloorGraph RouteIlp Pipeline Plan.

Definition BATCHED_CELL_MATCH_THRESHOLD : nat := 16.

(** The quote, the newline and the carriage return. *)
Definition dquote : ascii := ascii_of_nat 34.
Definition newline : ascii := ascii_of_nat 10.
Definition carriage_return : ascii := ascii_of_nat 13.
Definition quoted (s : string) : string := String dquote (s +:+ String dquote "").

(** [EmptyRoute] carries the channel it prints. *)
Inductive XdcError :=
| DeviceMismatch (result device : string)
| GridMismatch (result device : Z * Z)
| InvalidRegion (region detail : string)
| EmptyRoute (channel : RoutedChannel)
| AmbiguousFifoSuffix (first second : string).

(** ** Validation *)

Definition validate_region_rectangle (d : Device) (region : string) : res XdcError unit :=
  let! c := ok_or (Coor.from_region_or_slot_name region) (InvalidRegion region "not a region or slot tag") in
  if (cols d <=? ur_x c) || (rows d <=? ur_y c)
  then Err (InvalidRegion region ("slot (" +:+ Str.show (ur_x c) +:+ ", " +:+ Str.show (ur_y c) +:+ ") is outside device `" +:+ key d +:+ "`")) else
  try_each (fun '(x, y) => match slot d x y with
    | Some _ => Ok tt
    | None => Err (InvalidRegion region ("slot (" +:+ Str.show x +:+ ", " +:+ Str.show y +:+ ") is outside device `" +:+ key d +:+ "`"))
    end) (Coor.all_slot_coors c).

(** One placement region. *)
Definition validate_region (d : Device) (region : string) : res XdcError unit :=
  let! _ := validate_region_rectangle d region in
  match placement d with
  | Pblock => Ok tt
  | SlrAssignment =>
      let! c := expect (Coor.from_region_or_slot_name region) in
      if negb (Coor.width c =? 1) || negb (Coor.height c =? 1)
      then Err (InvalidRegion region "SLR-only placement requires one atomic SLR per instance") else Ok tt
  end.

Definition validate_stage (d : Device) (stage : string) : res XdcError unit :=
  let! c := ok_or (Coor.from_atomic_region_name stage) (InvalidRegion stage "route stages must be atomic slots") in
  match slot d (dl_x c) (dl_y c) with
  | Some _ => Ok tt
  | None => Err (InvalidRegion stage ("slot is outside device `" +:+ key d +:+ "`"))
  end.

Definition validate_route (d : Device) (r : PipelineRoute) : res XdcError unit :=
  match route r with
  | [] => Err (EmptyRoute (channel r))
  | _ => try_each (validate_stage d) (route r ++ route_reg_regions r)
  end.

(** The keys of the regions by sanitized name. *)
Definition sanitized_keys (regions : bmap string string) : bmap string string :=
  BMap.from_list (map (fun k => (sanitize_identifier_name k, k)) (BMap.keys regions)).

Definition validate_result (r : FloorplanResult) (d : Device) : res XdcError unit :=
  if negb (String.eqb (fr_device r) (key d)) then Err (DeviceMismatch (fr_device r) (key d)) else
  if negb (bool_decide (fr_grid r = (cols d, rows d))) then Err (GridMismatch (fr_grid r) (cols d, rows d)) else
  let! _ := try_each (validate_region d) (BMap.values (fr_regions r)) in
  let! _ := try_each (validate_route d) (fr_routes r) in
  try_each (fun '(name, first) => match BMap.get (name +:+ "_fifo") (sanitized_keys (fr_regions r)) with
    | Some second => Err (AmbiguousFifoSuffix first second)
    | None => Ok tt
    end) (sanitized_keys (fr_regions r)).

(** ** Cell patterns *)

Definition is_regex_special (c : ascii) : bool :=
  existsb (Ascii.eqb c) ["."; "^"; "$"; "*"; "+"; "?"; "("; ")"; "["; "]"; "{"; "}"; "|"; "\"]%char.

Fixpoint regex_escape (s : string) : string :=
  match s with
  | EmptyString => ""
  | String c s' => if is_regex_special c then String "\" (String c (regex_escape s')) else String c (regex_escape s')
  end.

Definition cell_name_regex (instance : string) : string :=
  "^(.*/)?" +:+ regex_escape (sanitize_identifier_name instance) +:+ "(_fifo)?(/.*)?$".
Definition pipeline_head_regex (instance : string) : string :=
  "^(.*/)?" +:+ regex_escape instance +:+ "/TAPA_HS_HEAD(_GATE)?(/.*)?$".
Definition pipeline_body_regex (instance : string) (index : nat) : string :=
  "^(.*/)?" +:+ regex_escape instance +:+ "/TAPA_HS_BODY\[" +:+ Str.show (Z.of_nat index) +:+ "\].*TAPA_HS_BODY_REG(/.*)?$".
Definition pipeline_tail_regex (instance : string) : string :=
  "^(.*/)?" +:+ regex_escape instance +:+ "/TAPA_HS_TAIL(/.*)?$".

(** The characters [tcl_double_quote_escape] puts a backslash before. *)
Definition is_tcl_quoted_special (c : ascii) : bool :=
  existsb (Ascii.eqb c) ["\"; dquote; "$"; "["; "{"; "}"]%char.

Fixpoint tcl_double_quote_escape (s : string) : string :=
  match s with
  | EmptyString => ""
  | String c s' =>
      if is_tcl_quoted_special c then String "\" (String c (tcl_double_quote_escape s'))
      else if Ascii.eqb c newline then "\n" +:+ tcl_double_quote_escape s'
      else if Ascii.eqb c carriage_return then "\r" +:+ tcl_double_quote_escape s'
      else String c (tcl_double_quote_escape s')
  end.

(** ** Cell matches *)

Record CellMatch := mkMatch { pattern : string; description : string; user_sll_reg : bool }.

Inductive CellPlacement := InPblock (name : string) | InSlr (slr : Z).

(** [CellPlacement::pattern]. *)
Definition placement_pattern (p : CellPlacement) (pat : string) : res XdcError string :=
  match p with
  | InPblock _ => Ok pat
  | InSlr _ => let! s := expect (Str.strip_suffix_str "(/.*)?$" pat) in Ok (s +:+ "$")
  end.

Definition hierarchical_cells_only (p : CellPlacement) : bool := match p with InSlr _ => true | InPblock _ => false end.

(** [CellPlacement::emit]. *)
Definition emit_placement (p : CellPlacement) : string :=
  match p with
  | InPblock name => "add_cells_to_pblock " +:+ name +:+ " $cells"
  | InSlr slr => "set_property USER_SLR_ASSIGNMENT SLR" +:+ Str.show slr +:+ " $cells"
  end.

Definition braced (payload : string) : string := if Str.starts_with "{" payload then payload else "{" +:+ payload +:+ "}".

Definition tcl_pattern_list (patterns : list string) : string := join " " (map braced patterns).

Definition hierarchy_filter (only : bool) : string := if only then " && IS_PRIMITIVE == 0" else "".

Definition append_batched_cell_query (variable : string) (patterns : list string) (only : bool) : string :=
  "set " +:+ variable +:+ " [get_cells -quiet -hierarchical -regexp -filter {NAME =~ " +:+ quoted ("(" +:+ join "|" patterns +:+ ")")
  +:+ hierarchy_filter only +:+ "}]".

(** A Tcl error line. *)
Definition tcl_error (condition message : string) : string :=
  "if {" +:+ condition +:+ "} { error " +:+ quoted ("TAPA floorplan ERROR: " +:+ message) +:+ " }".

Definition add_sll_register_mark (source description : string) : list string :=
  ["set sll_regs [filter $" +:+ source +:+ " {IS_SEQUENTIAL == 1}]";
   tcl_error "![llength $sll_regs]" ("expected sequential cells in `" +:+ tcl_double_quote_escape description +:+ "` were not found");
   "set_property USER_SLL_REG TRUE $sll_regs"].

Definition add_single_sll_register_match (m : CellMatch) : list string :=
  ["set sll_cells [get_cells -quiet -hierarchical -regexp -filter {NAME =~ " +:+ quoted (pattern m) +:+ "}]";
   tcl_error "![llength $sll_cells]" ("expected pipeline cells in `" +:+ tcl_double_quote_escape (description m) +:+ "` were not found")]
  ++ add_sll_register_mark "sll_cells" (description m).

Definition add_batched_cell_matches (matches : list CellMatch) (p : CellPlacement) : res XdcError (list string) :=
  let! patterns := try_map (fun m => placement_pattern p (pattern m)) matches in
  let sll_patterns := map pattern (List.filter user_sll_reg matches) in
  Ok ([append_batched_cell_query "cells" patterns (hierarchical_cells_only p);
       tcl_error "![llength $cells]" "no expected cells were found";
       "set cell_names [get_property NAME $cells]";
       "set expected_patterns [list " +:+ tcl_pattern_list patterns +:+ "]";
       "foreach pattern $expected_patterns {";
       "  if {[lsearch -regexp $cell_names $pattern] < 0} {";
       "    error " +:+ quoted "TAPA floorplan ERROR: expected cell matching `$pattern` was not found";
       "  }";
       "}";
       emit_placement p]
      ++ match sll_patterns with
         | [] => []
         | _ =>
             [append_batched_cell_query "sll_cells" sll_patterns false;
              tcl_error "![llength $sll_cells]" "no expected SLL pipeline cells were found";
              "set sll_regs [filter $sll_cells {IS_SEQUENTIAL == 1}]";
              tcl_error "![llength $sll_regs]" "expected sequential pipeline cells were not found";
              "set sll_reg_names [get_property NAME $sll_regs]";
              "set expected_sll_patterns [list " +:+ tcl_pattern_list sll_patterns +:+ "]";
              "foreach pattern $expected_sll_patterns {";
              "  if {[lsearch -regexp $sll_reg_names $pattern] < 0} {";
              "    error " +:+ quoted "TAPA floorplan ERROR: expected sequential cells matching `$pattern` were not found";
              "  }";
              "}";
              "set_property USER_SLL_REG TRUE $sll_regs"]
         end).

(** One cell match below the threshold. *)
Definition add_cell_match (p : CellPlacement) (m : CellMatch) : res XdcError (list string) :=
  let! pat := placement_pattern p (pattern m) in
  Ok (["set cells [get_cells -quiet -hierarchical -regexp -filter {NAME =~ " +:+ quoted pat +:+ hierarchy_filter (hierarchical_cells_only p) +:+ "}]";
       tcl_error "![llength $cells]" ("expected cell `" +:+ tcl_double_quote_escape (description m) +:+ "` was not found")]
      ++ (if user_sll_reg m
          then if hierarchical_cells_only p then add_single_sll_register_match m else add_sll_register_mark "cells" (description m)
          else [])
      ++ [emit_placement p]).

Definition add_cell_matches (matches : list CellMatch) (p : CellPlacement) : res XdcError (list string) :=
  if Nat.leb BATCHED_CELL_MATCH_THRESHOLD (length matches) then add_batched_cell_matches matches p else
  let! ls := try_map (add_cell_match p) matches in Ok (concat ls).

(** ** Pblocks *)

Definition region_slot_pblock_ranges (d : Device) (region : string) : list (list string) :=
  match Coor.from_region_or_slot_name region with
  | None => []
  | Some c => omap (fun xy => let? s := slot d xy.1 xy.2 in Some (pblock_ranges s)) (Coor.all_slot_coors c)
  end.

Definition resize_operation (pblock range : string) : string :=
  match Str.strip_prefix "-add " range with
  | Some payload => "resize_pblock " +:+ pblock +:+ " -add " +:+ braced payload
  | None =>
      match Str.strip_prefix "-remove " range with
      | Some payload => "resize_pblock " +:+ pblock +:+ " -remove " +:+ braced payload
      | None =>
          if Str.starts_with "{" range then "resize_pblock " +:+ pblock +:+ " -add " +:+ range
          else "resize_pblock " +:+ pblock +:+ " -add {" +:+ range +:+ "}"
      end
  end.

Definition add_resize_operations (pblock : string) (ranges : list string) : list string := map (resize_operation pblock) ranges.

(** The guard of a variable that may be empty. *)
Definition if_nonempty (var line : string) : list string := ["if {$" +:+ var +:+ " ne " +:+ quoted "" +:+ "} {"; "  " +:+ line; "}"].

(** One slot of a union: its ranges go through a pblock of their own. *)
Definition union_slot (region : string) (e : nat * list string) : list string :=
  let temporary := "TAPA_SLOT_UNION_" +:+ region +:+ "_" +:+ Str.show (Z.of_nat e.1) in
  ["create_pblock " +:+ temporary] ++ add_resize_operations temporary e.2
  ++ ["set slot_ranges [get_property DERIVED_RANGES [get_pblocks " +:+ temporary +:+ "]]"]
  ++ if_nonempty "slot_ranges" ("resize_pblock " +:+ region +:+ " -add $slot_ranges")
  ++ ["delete_pblock -quiet " +:+ temporary].

Definition add_slot_ranges (region : string) (slots : list (list string)) : list string :=
  match slots with
  | [ranges] => add_resize_operations region ranges
  | _ =>
      if forallb (forallb (fun range => negb (Str.starts_with "-remove " range))) slots
      then flat_map (add_resize_operations region) slots
      else flat_map (union_slot region) (enumerate slots)
  end.

Definition clip_step (source target operation : string) : list string :=
  ["set derived_ranges [get_property DERIVED_RANGES [get_pblocks " +:+ source +:+ "]]"]
  ++ if_nonempty "derived_ranges" ("resize_pblock " +:+ target +:+ " " +:+ operation +:+ " $derived_ranges").

Definition add_parent_clip (region parent : string) : list string :=
  let temporary := "TAPA_PARENT_CLIP_" +:+ region in
  ["create_pblock " +:+ temporary] ++ clip_step region temporary "-add" ++ clip_step parent temporary "-remove"
  ++ clip_step temporary region "-remove" ++ ["delete_pblock -quiet " +:+ temporary].

Definition add_region_pblock (region : string) (matches : list CellMatch) (d : Device) : res XdcError (list string) :=
  let! cells := add_cell_matches matches (InPblock region) in
  Ok (["create_pblock " +:+ region;
       "set_property EXCLUDE_PLACEMENT 0 [get_pblocks " +:+ region +:+ "]";
       "set_property CONTAIN_ROUTING 0 [get_pblocks " +:+ region +:+ "]";
       "set_property IS_SOFT 1 [get_pblocks " +:+ region +:+ "]"]
      ++ match user_pblock_name d with Some parent => ["set_property PARENT " +:+ parent +:+ " [get_pblocks " +:+ region +:+ "]"] | None => [] end
      ++ add_slot_ranges region (region_slot_pblock_ranges d region)
      ++ cells
      ++ match user_pblock_name d with Some parent => add_parent_clip region parent | None => [] end).

Definition add_region_slr_assignment (region : string) (matches : list CellMatch) : res XdcError (list string) :=
  let! c := expect (Coor.from_region_or_slot_name region) in
  add_cell_matches matches (InSlr (dl_y c)).

Definition reset_timing_constraints : list string :=
  ["set_false_path -quiet -through [get_nets -quiet -hier -filter {NAME =~ " +:+ quoted "*__tapa_control_fabric_reset_n*" +:+ "}]";
   "set_false_path -quiet -through [get_nets -quiet -hier -filter {NAME =~ " +:+ quoted "*peripheral_aresetn*" +:+ "}]"].

(** ** The cells of a result *)

Definition canonical_pblock_name (region : string) : string :=
  match Coor.from_region_or_slot_name region with Some c => Coor.region_name c | None => region end.

(** The stages beside a vertical crossing; only membership is asked. *)
Definition user_sll_body_indices (r : PipelineRoute) : list nat :=
  match scheme r with
  | Single => []
  | _ =>
      flat_map (fun '(index, (a, b)) =>
        match Coor.from_region_or_slot_name a, Coor.from_region_or_slot_name b with
        | Some source, Some destination => if dl_y source =? dl_y destination then [] else [index; S index]
        | _, _ => []
        end) (enumerate (windows (route_reg_regions r)))
  end.

(** The generated instance of a channel, and how diagnostics call it. *)
Definition pipeline_instance (c : RoutedChannel) : string * string :=
  match c with
  | RStream fifo => (sanitize_array_name fifo +:+ "_fifo", fifo)
  | RAxi e _ ch => (axi_pipeline_instance_name e ch, ep_instance e +:+ "." +:+ ep_port e +:+ " " +:+ axi_rtl_name ch)
  | RControl i ch => (control_pipeline_instance_name i ch, i +:+ " " +:+ control_rtl_name ch)
  end.

Definition routed_streams (r : FloorplanResult) : list string :=
  omap (fun rt => match channel rt with RStream fifo => Some fifo | _ => None end) (fr_routes r).

(** The cells of one route, with the region of each, in the order added. *)
Definition route_cells (rt : PipelineRoute) : res XdcError (list (string * CellMatch)) :=
  let sll := user_sll_body_indices rt in
  let '(inst, desc) := pipeline_instance (channel rt) in
  let! (head_region, tail_region) := expect (let? a := head (route rt) in let? b := last (route rt) in Some (a, b)) in
  Ok ([(head_region, mkMatch (pipeline_head_regex inst) (desc +:+ " Head") false)]
      ++ map (fun e => (e.2, mkMatch (pipeline_body_regex inst e.1) (desc +:+ " Body " +:+ Str.show (Z.of_nat e.1)) (existsb (Nat.eqb e.1) sll)))
           (enumerate (route_reg_regions rt))
      ++ [(tail_region, mkMatch (pipeline_tail_regex inst) (desc +:+ " Tail") false)]).

Definition instance_cells (r : FloorplanResult) : list (string * CellMatch) :=
  omap (fun e => if bool_decide (e.1 ∈ routed_streams r) then None else Some (e.2, mkMatch (cell_name_regex e.1) e.1 false)) (fr_regions r).

(** The closure [add_cell]. *)
Definition add_cell (by_region : bmap string (list CellMatch)) (e : string * CellMatch) : bmap string (list CellMatch) :=
  let name := canonical_pblock_name e.1 in
  BMap.insert name (default [] (BMap.get name by_region) ++ [e.2]) by_region.

(** Every cell with its region, in the order added. *)
Definition all_cells (r : FloorplanResult) : res XdcError (list (string * CellMatch)) :=
  let! routes := try_map route_cells (fr_routes r) in
  Ok (instance_cells r ++ concat routes).

(** The lines of one region. *)
Definition region_lines (d : Device) (e : string * list CellMatch) : res XdcError (list string) :=
  match placement d with SlrAssignment => add_region_slr_assignment e.1 e.2 | Pblock => add_region_pblock e.1 e.2 d end.

Definition emit_xdc (r : FloorplanResult) (d : Device) : res XdcError string :=
  let! _ := validate_result r d in
  let! cells := all_cells r in
  let by_region := fold_left add_cell cells [] in
  let! lines := try_map (region_lines d) by_region in
  Ok (join (String newline "") (concat lines ++ reset_timing_constraints) +:+ String newline "").

Inductive RenderXdcError := RenderDevice (e : SelectError) | RenderXdc (e : XdcError).

(** [plan::render_xdc]. *)
Definition render_xdc (table : string -> res string Device) (r : FloorplanResult) : res RenderXdcError string :=
  let! d := map_err RenderDevice (select_device table (fr_device r)) in
  map_err RenderXdc (emit_xdc r d).
