(* ===== verification/XdcProps.v ===== *)
(** * Properties of constraint emission

    The text of patterns and diagnostics, the cells each region gets, and
    totality of the emission. *)

From S2P Require Import Prelude RustStd BTreeMap Geometry Names Ir Device FloorGraph RouteIlp Pipeline Plan Xdc.

(** ** Patterns

    The fragment of regular expressions the patterns use, with its language
    and its text; the characters of a literal are escaped. *)

Inductive re := RLit (s : string) | RAll | RSeq (a b : re) | ROpt (a : re).

Fixpoint print (r : re) : string :=
  match r with
  | RLit s => regex_escape s
  | RAll => ".*"
  | RSeq a b => print a +:+ print b
  | ROpt a => "(" +:+ print a +:+ ")?"
  end.

Fixpoint lang (r : re) (x : string) : Prop :=
  match r with
  | RLit s => x = s
  | RAll => True
  | RSeq a b => exists y z, x = y +:+ z /\ lang a y /\ lang b z
  | ROpt a => x = "" \/ lang a x
  end.

(** Reading a literal back: an operator that is not escaped is no literal. *)
Fixpoint read_literal (s : string) : option string :=
  match s with
  | EmptyString => Some ""
  | String "\" (String c s') => let? t := read_literal s' in Some (String c t)
  | String c s' => if is_regex_special c then None else let? t := read_literal s' in Some (String c t)
  end.

Lemma read_escaped s : read_literal (regex_escape s) = Some s.
Proof.
  induction s as [|c s IH]; [done|]. simpl. destruct (is_regex_special c) eqn:Ec.
  - simpl. by rewrite IH.
  - cbn [read_literal]. rewrite IH, Ec. destruct c as [[] [] [] [] [] [] [] []]; try done.
Qed.

(** *** Path components *)

Definition no_char (c : ascii) (s : string) : Prop := Str.all (fun d => negb (Ascii.eqb c d)) s = true.

Lemma split_cons c s : exists w ws, Str.split c s = w :: ws.
Proof. destruct s as [|d s]; simpl; [by eexists _, _|]. destruct (Ascii.eqb c d); [by eexists _, _|]. destruct (Str.split c s); by eexists _, _. Qed.

Lemma split_none c s : no_char c s -> Str.split c s = [s].
Proof.
  unfold no_char. induction s as [|d s IH]; [done|]. simpl. rewrite andb_true_iff, negb_true_iff. intros [-> H]. by rewrite IH.
Qed.

Lemma split_app c x y : Str.split c (x +:+ String c y) = Str.split c x ++ Str.split c y.
Proof.
  induction x as [|d x IH]; simpl; [by rewrite Ascii.eqb_refl|]. rewrite IH. destruct (Ascii.eqb c d); [done|].
  destruct (split_cons c x) as (w & ws & ->). done.
Qed.

Lemma split_head c s w ws : Str.split c s = w :: ws -> s = w \/ exists q, s = w +:+ String c q.
Proof.
  revert w ws. induction s as [|d s IH]; intros w ws H; simpl in H; [injection H as <- _; by left|].
  destruct (Ascii.eqb c d) eqn:E.
  - injection H as <- _. apply Ascii.eqb_eq in E as <-. right. by exists s.
  - destruct (split_cons c s) as (v & vs & Hs). rewrite Hs in H. injection H as <- _.
    destruct (IH _ _ Hs) as [->|[q ->]]; [by left|right; by exists q].
Qed.

Lemma split_tail c s w ws n : Str.split c s = w :: ws -> n ∈ ws -> exists p, s = p +:+ String c n \/ exists q, s = p +:+ String c (n +:+ String c q).
Proof.
  revert w ws. induction s as [|d s IH]; intros w ws H Hn; simpl in H; [injection H as _ <-; by apply not_elem_of_nil in Hn|].
  destruct (split_cons c s) as (v & vs & Hs). destruct (Ascii.eqb c d) eqn:E.
  - injection H as _ <-. apply Ascii.eqb_eq in E as <-. rewrite Hs in Hn. apply elem_of_cons in Hn as [->|Hn].
    + exists "". destruct (split_head _ _ _ _ Hs) as [->|[q ->]]; [by left|right; by exists q].
    + destruct (IH _ _ Hs Hn) as [p [->|[q ->]]]; exists (String c p); [by left|right; by exists q].
  - rewrite Hs in H. injection H as _ <-. destruct (IH _ _ Hs Hn) as [p [->|[q ->]]]; exists (String d p); [by left|right; by exists q].
Qed.

(** The components of a hierarchical cell name. *)
Definition component (n cell : string) : Prop := n ∈ Str.split "/" cell.

Definition cell_re (name : string) : re :=
  RSeq (ROpt (RSeq RAll (RLit "/"))) (RSeq (RLit name) (RSeq (ROpt (RLit "_fifo")) (ROpt (RSeq (RLit "/") RAll)))).

Lemma component_iff n cell : no_char "/" n -> component n cell <->
  exists pre post, cell = pre +:+ n +:+ post /\ (pre = "" \/ exists p, pre = p +:+ "/") /\ (post = "" \/ exists q, post = "/" +:+ q).
Proof.
  intros Hn. unfold component. split.
  - intros H. destruct (split_cons "/" cell) as (w & ws & Hs). rewrite Hs in H. apply elem_of_cons in H as [->|H].
    + destruct (split_head _ _ _ _ Hs) as [->|[q ->]]; [exists "", ""; rewrite Str.app_nil_r|exists "", ("/" +:+ q)].
      * split; [done|]. by split; left.
      * split; [done|]. split; [by left|right; by exists q].
    + destruct (split_tail _ _ _ _ _ Hs H) as [p [->|[q ->]]].
      * exists (p +:+ "/"), "". rewrite Str.app_nil_r, Str.app_assoc. split; [done|]. split; [right; by exists p|by left].
      * exists (p +:+ "/"), ("/" +:+ q). rewrite Str.app_assoc. split; [done|]. split; right; [by exists p|by exists q].
  - intros (pre & post & -> & Hpre & Hpost).
    assert (Hin : n ∈ Str.split "/" (n +:+ post)).
    { destruct Hpost as [->|[q ->]]; [rewrite Str.app_nil_r, split_none by done; by left|].
      change ("/" +:+ q) with (String "/" q). rewrite split_app, split_none by done. by left. }
    destruct Hpre as [->|[p ->]]; [done|]. rewrite Str.app_assoc. change ("/" +:+ (n +:+ post)) with (String "/" (n +:+ post)). rewrite split_app.
    apply elem_of_app. by right.
Qed.

Lemma lang_cell name cell : no_char "/" name -> lang (cell_re name) cell <-> component name cell \/ component (name +:+ "_fifo") cell.
Proof.
  intros Hn. assert (Hf : no_char "/" (name +:+ "_fifo")) by (unfold no_char; rewrite Str.all_app; by rewrite Hn).
  rewrite !component_iff by done. simpl. split.
  - intros (pre & z & -> & Hpre & y & post & -> & -> & o & tl & -> & Ho & Htl).
    assert (Hpre' : pre = "" \/ exists p, pre = p +:+ "/") by (destruct Hpre as [->|(a & b & -> & _ & ->)]; [by left|right; by exists a]).
    assert (Htl' : tl = "" \/ exists q, tl = "/" +:+ q) by (destruct Htl as [->|(a & b & -> & -> & _)]; [by left|right; by exists b]).
    destruct Ho as [->| ->]; [left; by exists pre, tl|right; exists pre, tl; by rewrite Str.app_assoc].
  - assert (Hrest : forall pre post, (pre = "" \/ exists p, pre = p +:+ "/") -> (post = "" \/ exists q, post = "/" +:+ q) ->
      (pre = "" \/ exists y z, pre = y +:+ z /\ True /\ z = "/") /\ (post = "" \/ exists y z, post = y +:+ z /\ y = "/" /\ True)).
    { intros pre post [->|[p ->]] [->|[q ->]]; split; try (by left); right; [by exists "/", q|by exists p, "/"|by exists p, "/"|by exists "/", q]. }
    intros [(pre & post & -> & H1 & H2)|(pre & post & -> & H1 & H2)]; destruct (Hrest pre post H1 H2) as [H1' H2'].
    + exists pre, (name +:+ post). split; [done|]. split; [done|]. exists name, post. do 2 (split; [done|]). exists "", post. split; [done|]. split; [by left|done].
    + exists pre, ((name +:+ "_fifo") +:+ post). split; [done|]. split; [done|]. exists name, ("_fifo" +:+ post). split; [by rewrite Str.app_assoc|]. split; [done|].
      exists "_fifo", post. split; [done|]. split; [by right|done].
Qed.

Lemma sanitized_no_slash i : no_char "/" (sanitize_identifier_name i).
Proof.
  assert (H : Str.all is_rtl_char (sanitize_identifier_name i) = true).
  { unfold sanitize_identifier_name. destruct (sanitize_array_name i) as [|c t]; [done|]. pose proof (sanitize_chars_legal (String c t)). destruct (Str.is_digit c); done. }
  eapply Str.all_impl; [|exact H]. intros c Hc. apply negb_true_iff, Ascii.eqb_neq. intros <-. done.
Qed.

(** ** Validation *)

Lemma validate_result_ok r d : validate_result r d = Ok tt <->
  fr_device r = key d /\ fr_grid r = (cols d, rows d) /\ Forall (fun region => validate_region d region = Ok tt) (BMap.values (fr_regions r)) /\
  Forall (fun rt => validate_route d rt = Ok tt) (fr_routes r) /\
  forall name first, In (name, first) (sanitized_keys (fr_regions r)) -> BMap.get (name +:+ "_fifo") (sanitized_keys (fr_regions r)) = None.
Proof.
  unfold validate_result. destruct (String.eqb_spec (fr_device r) (key d)); simpl; [|naive_solver]. case_bool_decide; simpl; [|naive_solver].
  rewrite rbind_ok. split.
  - intros ([] & H1%try_each_ok & H2). apply rbind_ok in H2 as ([] & H2%try_each_ok & H3%try_each_ok). split_and!; [done..|]. intros name first Hin.
    rewrite Forall_forall in H3. apply list_elem_of_In in Hin. specialize (H3 _ Hin). simpl in H3. by destruct (BMap.get _ _).
  - intros (_ & _ & H1%try_each_ok & H2%try_each_ok & H3). exists tt. split; [done|]. rewrite H2. simpl. apply try_each_ok, Forall_forall.
    intros [name first] Hin%list_elem_of_In. by rewrite (H3 _ _ Hin).
Qed.

(** The names an instance's pattern may take as a component. *)
Definition own_name (i n : string) : Prop := n = sanitize_identifier_name i \/ n = sanitize_identifier_name i +:+ "_fifo".

Lemma sanitized_key r i : In i (BMap.keys (fr_regions r)) -> exists first, In (sanitize_identifier_name i, first) (sanitized_keys (fr_regions r)).
Proof.
  intros Hi. assert (Hk : In (sanitize_identifier_name i) (BMap.keys (sanitized_keys (fr_regions r)))).
  { apply BMap.keys_from_list. rewrite map_map. simpl. by apply in_map. }
  unfold BMap.keys in Hk. apply in_map_iff in Hk as ([k v] & <- & Hin). by exists v.
Qed.

Lemma fifo_suffix_free r d a b : validate_result r d = Ok tt -> In a (BMap.keys (fr_regions r)) -> In b (BMap.keys (fr_regions r)) ->
  sanitize_identifier_name b <> sanitize_identifier_name a +:+ "_fifo".
Proof.
  intros (_ & _ & _ & _ & H)%validate_result_ok Ha Hb E. destruct (sanitized_key r a Ha) as [fa Hfa]. destruct (sanitized_key r b Hb) as [fb Hfb].
  specialize (H _ _ Hfa). rewrite <- E in H. apply BMap.get_None in H. apply H. unfold BMap.keys. apply in_map_iff. by exists (sanitize_identifier_name b, fb).
Qed.

(** The cell patterns of a validated result do not claim each other's
    cells. The pattern of an instance is the text of an expression whose
    literals are escaped, and matches exactly the cells below a component that
    is the name of the instance, with or without [_fifo]; two instances with
    different names share no such component. *)
Theorem cell_patterns_exact r d a b : validate_result r d = Ok tt -> In a (BMap.keys (fr_regions r)) -> In b (BMap.keys (fr_regions r)) ->
  sanitize_identifier_name a <> sanitize_identifier_name b ->
  (cell_name_regex a = "^" +:+ print (cell_re (sanitize_identifier_name a)) +:+ "$" /\
   read_literal (regex_escape (sanitize_identifier_name a)) = Some (sanitize_identifier_name a)) /\
  (forall cell, lang (cell_re (sanitize_identifier_name a)) cell <-> exists n, own_name a n /\ component n cell) /\
  forall n, own_name a n -> ~ own_name b n.
Proof.
  intros Hv Ha Hb Hne. split; [split; [|apply read_escaped]|split].
  - unfold cell_name_regex. simpl. by rewrite !Str.app_assoc.
  - intros cell. rewrite lang_cell by apply sanitized_no_slash. unfold own_name. naive_solver.
  - intros n [->| ->] [E|E].
    + done.
    + by apply (fifo_suffix_free r d b a Hv Hb Ha).
    + by apply (fifo_suffix_free r d a b Hv Ha Hb).
    + by apply Str.app_inj_r in E.
Qed.

(** ** Diagnostics *)

(** Tcl reads a quoted word inside a braced script: a special character that is
    not escaped, a raw line break, or an escape of another letter or digit
    (which has a meaning of its own) is not plain text. *)
Fixpoint tcl_read (s : string) : option string :=
  match s with
  | EmptyString => Some ""
  | String "\" (String c s') =>
      let? t := tcl_read s' in
      if Ascii.eqb c "n" then Some (String newline t) else if Ascii.eqb c "r" then Some (String carriage_return t)
      else if Str.is_alnum c || Ascii.eqb c newline then None else Some (String c t)
  | String c s' => if is_tcl_quoted_special c || Ascii.eqb c newline || Ascii.eqb c carriage_return then None else let? t := tcl_read s' in Some (String c t)
  end.

(** A diagnostic shows exactly the text it is given. Whatever the names of
    a design, the escaped text cannot end its quotes, substitute a variable or
    a command, or unbalance the braces of the script around it, and Tcl reads
    it back as the original text. *)
Theorem tcl_text_inert s : tcl_read (tcl_double_quote_escape s) = Some s.
Proof.
  induction s as [|c s IH]; [done|]. cbn [tcl_double_quote_escape]. destruct (is_tcl_quoted_special c) eqn:Ec.
  - cbn [tcl_read]. rewrite IH. destruct c as [[] [] [] [] [] [] [] []]; try done.
  - destruct (Ascii.eqb_spec c newline) as [->|Hn]; [simpl; by rewrite IH|]. destruct (Ascii.eqb_spec c carriage_return) as [->|Hr]; [simpl; by rewrite IH|].
    apply Ascii.eqb_neq in Hn, Hr. cbn [tcl_read]. rewrite IH, Ec, Hn, Hr. destruct c as [[] [] [] [] [] [] [] []]; try done.
Qed.

(** ** Emission *)

Definition SUFFIX : string := "(/.*)?$".

(** A cell of a validated result: its region parses, its pattern covers the
    descendants of the cell. *)
Definition cell_ok (e : string * CellMatch) : Prop :=
  (exists c, Coor.from_region_or_slot_name e.1 = Some c /\ Coor.wf c) /\ exists s, pattern e.2 = s +:+ SUFFIX.

Lemma region_or_slot_wf name c : Coor.from_region_or_slot_name name = Some c -> Coor.wf c.
Proof.
  unfold Coor.from_region_or_slot_name. destruct (Coor.from_region_name name) as [c'|] eqn:E.
  - intros [= <-]. by apply Coor.from_region_name_wf in E.
  - unfold Coor.from_slot_name. destruct (Coor.parse_slot_tag name) as [[x y]|] eqn:Ep; [|done]. intros [= <-]. apply Coor.parse_slot_tag_range in Ep as [].
    by apply Coor.slot_wf.
Qed.

Lemma region_parses d region : validate_region d region = Ok tt -> exists c, Coor.from_region_or_slot_name region = Some c /\ Coor.wf c.
Proof.
  intros H. unfold validate_region in H. apply rbind_ok in H as ([] & H & _). unfold validate_region_rectangle in H.
  apply rbind_ok in H as (c & Hc%ok_or_ok & _). exists c. split; [done|]. by eapply region_or_slot_wf.
Qed.

Lemma stage_parses d stage : validate_stage d stage = Ok tt -> exists c, Coor.from_region_or_slot_name stage = Some c /\ Coor.wf c.
Proof.
  intros H. unfold validate_stage in H. apply rbind_ok in H as (c & Hc%ok_or_ok & _). unfold Coor.from_atomic_region_name in Hc.
  destruct (Coor.from_region_or_slot_name stage) as [c'|] eqn:E; [|done]. exists c'. split; [done|]. by eapply region_or_slot_wf.
Qed.

Lemma canonical_parses region c : Coor.from_region_or_slot_name region = Some c -> Coor.wf c ->
  canonical_pblock_name region = Coor.region_name c /\ Coor.from_region_or_slot_name (Coor.region_name c) = Some c.
Proof. intros H Hw. unfold canonical_pblock_name. rewrite H. split; [done|]. unfold Coor.from_region_or_slot_name. by rewrite Coor.from_region_name_region_name. Qed.

Lemma app_suffix a b c : a +:+ (b +:+ c) = (a +:+ b) +:+ c.
Proof. by rewrite Str.app_assoc. Qed.

Lemma pattern_suffixes : (forall i, exists s, cell_name_regex i = s +:+ SUFFIX) /\ (forall i, exists s, pipeline_head_regex i = s +:+ SUFFIX) /\
  (forall i k, exists s, pipeline_body_regex i k = s +:+ SUFFIX) /\ (forall i, exists s, pipeline_tail_regex i = s +:+ SUFFIX).
Proof.
  split_and!.
  - intros i. exists ("^(.*/)?" +:+ regex_escape (sanitize_identifier_name i) +:+ "(_fifo)?"). by rewrite !Str.app_assoc.
  - intros i. exists ("^(.*/)?" +:+ regex_escape i +:+ "/TAPA_HS_HEAD(_GATE)?"). by rewrite !Str.app_assoc.
  - intros i k. exists ("^(.*/)?" +:+ regex_escape i +:+ "/TAPA_HS_BODY\[" +:+ Str.show (Z.of_nat k) +:+ "\].*TAPA_HS_BODY_REG"). by rewrite !Str.app_assoc.
  - intros i. exists ("^(.*/)?" +:+ regex_escape i +:+ "/TAPA_HS_TAIL"). by rewrite !Str.app_assoc.
Qed.

Lemma instance_cells_ok r d : Forall (fun region => validate_region d region = Ok tt) (BMap.values (fr_regions r)) -> Forall cell_ok (instance_cells r).
Proof.
  intros H. apply Forall_forall. intros e He. apply list_elem_of_omap in He as ([i region] & Hin & He). simpl in He. case_bool_decide; [done|]. injection He as <-.
  rewrite Forall_forall in H. split; [|simpl; apply pattern_suffixes]. simpl. apply (region_parses d), H. unfold BMap.values. apply list_elem_of_In, in_map_iff.
  exists (i, region). split; [done|]. by apply list_elem_of_In.
Qed.

Lemma route_cells_ok rt d : validate_route d rt = Ok tt -> exists cells, route_cells rt = Ok cells /\ Forall cell_ok cells.
Proof.
  intros H. unfold validate_route in H. destruct (route rt) as [|a l] eqn:Er; [done|]. apply try_each_ok in H. rewrite Forall_forall in H.
  assert (Hs : forall s, s ∈ (a :: l) ++ route_reg_regions rt -> exists c, Coor.from_region_or_slot_name s = Some c /\ Coor.wf c) by (intros s Hin; by apply (stage_parses d), H).
  unfold route_cells. rewrite Er. destruct (pipeline_instance (channel rt)) as [inst desc]. destruct (last (a :: l)) as [z|] eqn:El; [|by apply last_None in El]. simpl.
  eexists. split; [done|]. destruct pattern_suffixes as (_ & Ph & Pb & Pt). apply Forall_cons. split; [split; [apply Hs; by left|apply Ph]|]. apply Forall_app. split.
  - apply Forall_forall. intros e He. apply list_elem_of_In, in_map_iff in He as ([k s] & <- & He). split; [|apply Pb]. simpl. apply Hs, elem_of_app. right.
    apply list_elem_of_In, elem_of_enumerate in He. by eapply list_elem_of_lookup_2.
  - apply Forall_cons. split; [|done]. split; [|apply Pt]. apply Hs, elem_of_app. left. apply last_Some in El as [l' ->]. apply elem_of_app. right. by left.
Qed.

Lemma all_cells_ok r d : validate_result r d = Ok tt -> exists cells, all_cells r = Ok cells /\ Forall cell_ok cells.
Proof.
  intros (_ & _ & Hr & Hrt & _)%validate_result_ok. unfold all_cells.
  assert (H : exists css, try_map route_cells (fr_routes r) = Ok css /\ Forall (Forall cell_ok) css).
  { induction Hrt as [|rt l Hd _ IH]; [by exists []|]. destruct (route_cells_ok _ _ Hd) as (cs & Hcs & Fcs). destruct IH as (css & Hcss & Fcss).
    exists (cs :: css). simpl. rewrite Hcs, Hcss. split; [done|]. by constructor. }
  destruct H as (css & -> & Hcss). simpl. eexists. split; [done|]. apply Forall_app. split; [by eapply instance_cells_ok|]. by apply Forall_concat.
Qed.

(** *** Grouping *)

(** The cells of one pblock, in the order added. *)
Definition cells_of (name : string) (cells : list (string * CellMatch)) : list CellMatch :=
  map snd (List.filter (fun e => String.eqb (canonical_pblock_name e.1) name) cells).

Definition groups (cells : list (string * CellMatch)) : bmap string (list CellMatch) := fold_left add_cell cells [].

Lemma groups_snoc cells e : groups (cells ++ [e]) = add_cell (groups cells) e.
Proof. unfold groups. by rewrite fold_left_app. Qed.

Lemma groups_ok cells : BMap.wf (groups cells) /\ forall name,
  BMap.get name (groups cells) = match cells_of name cells with [] => None | ms => Some ms end.
Proof.
  induction cells as [|e cells [Hw IH]] using rev_ind; [by split; [apply BMap.wf_nil|]|]. rewrite groups_snoc. unfold add_cell. split; [by apply BMap.wf_insert|].
  intros name. rewrite BMap.get_insert. unfold cells_of. rewrite List.filter_app, map_app. simpl. destruct (decide (name = canonical_pblock_name e.1)) as [->|Hne].
  - rewrite String.eqb_refl. rewrite IH. unfold cells_of. simpl. destruct (map snd _); done.
  - destruct (String.eqb_spec (canonical_pblock_name e.1) name); [by subst|]. rewrite app_nil_r. apply IH.
Qed.

(** *** Totality *)

Lemma placement_pattern_ok p m : (exists s, pattern m = s +:+ SUFFIX) -> exists pat, placement_pattern p (pattern m) = Ok pat.
Proof. intros [s ->]. destruct p; simpl; [by eexists|]. change "(/.*)?$" with SUFFIX. rewrite Str.strip_suffix_app by done. by eexists. Qed.

Lemma try_map_defined {E A B} (f : A -> res E B) l : Forall (fun a => exists b, f a = Ok b) l -> exists bs, try_map f l = Ok bs.
Proof. induction 1 as [|a l [b Hb] _ [bs IH]]; [by exists []|]. exists (b :: bs). simpl. by rewrite Hb, IH. Qed.

Lemma cell_matches_ok ms p : Forall (fun m => exists s, pattern m = s +:+ SUFFIX) ms -> exists ls, add_cell_matches ms p = Ok ls.
Proof.
  intros H. unfold add_cell_matches. destruct (Nat.leb _ _).
  - unfold add_batched_cell_matches. destruct (try_map_defined (fun m => placement_pattern p (pattern m) : res XdcError string) ms) as [pats ->]; [|by eexists].
    eapply Forall_impl; [exact H|]. intros m Hm. by apply placement_pattern_ok.
  - destruct (try_map_defined (add_cell_match p) ms) as [ls ->]; [|by eexists]. eapply Forall_impl; [exact H|]. intros m Hm.
    destruct (placement_pattern_ok p m Hm) as [pat Hp]. unfold add_cell_match. rewrite Hp. by eexists.
Qed.

Lemma region_lines_ok d cells name ms : Forall cell_ok cells -> BMap.get name (groups cells) = Some ms -> exists ls, region_lines d (name, ms) = Ok ls.
Proof.
  intros Hc Hg. rewrite (proj2 (groups_ok cells)) in Hg. assert (Hms : cells_of name cells = ms /\ ms <> []) by (destruct (cells_of name cells); by simplify_eq). destruct Hms as [Hms Hne].
  assert (Hin : forall m, m ∈ ms -> exists region, canonical_pblock_name region = name /\ cell_ok (region, m)).
  { intros m Hm. rewrite <- Hms in Hm. unfold cells_of in Hm. apply list_elem_of_In, in_map_iff in Hm as ([region m'] & <- & Hf). apply filter_In in Hf as [Hf Hn].
    apply String.eqb_eq in Hn. exists region. split; [done|]. rewrite Forall_forall in Hc. apply Hc. by apply list_elem_of_In. }
  assert (Hp : forall p, exists ls, add_cell_matches ms p = Ok ls).
  { intros p. apply cell_matches_ok, Forall_forall. intros m Hm. destruct (Hin m Hm) as (region & _ & _ & H). exact H. }
  unfold region_lines. simpl. destruct (placement d).
  - unfold add_region_pblock. destruct (Hp (InPblock name)) as [ls ->]. by eexists.
  - unfold add_region_slr_assignment. destruct ms as [|m ms]; [done|]. destruct (Hin m ltac:(by left)) as (region & <- & (c & Hc' & Hw) & _).
    destruct (canonical_parses region c Hc' Hw) as [-> ->]. simpl. apply Hp.
Qed.

Lemma try_each_np {E B} (f : B -> res E unit) l : (forall x, f x <> Panic) -> try_each f l <> Panic.
Proof. intros H. by apply (try_each_cases (fun m => m <> Panic)). Qed.

Lemma validate_region_yields d region : validate_region d region <> Panic.
Proof.
  unfold validate_region. destruct (validate_region_rectangle d region) as [[]|e|] eqn:Hr; [|done|].
  - simpl. destruct (placement d); [done|]. unfold validate_region_rectangle in Hr. apply rbind_ok in Hr as (c & Hc%ok_or_ok & _). rewrite Hc. simpl. by destruct (_ || _).
  - unfold validate_region_rectangle in Hr. destruct (Coor.from_region_or_slot_name region) as [c|]; [|done]. simpl in Hr. destruct (_ || _); [done|]. exfalso.
    refine (try_each_np _ _ _ Hr). intros [x y]. by destruct (slot d x y).
Qed.

Lemma validate_yields r d : validate_result r d <> Panic.
Proof.
  unfold validate_result. destruct (negb _); [done|]. destruct (negb _); [done|].
  destruct (try_each (validate_region d) _) as [[]|e|] eqn:E1; [|done|].
  - simpl. destruct (try_each (validate_route d) _) as [[]|e|] eqn:E2; [|done|].
    + apply try_each_np. intros [n f]. by destruct (BMap.get _ _).
    + exfalso. refine (try_each_np _ _ _ E2). intros rt. unfold validate_route. destruct (route rt); [done|].
      apply try_each_np. intros st. unfold validate_stage. destruct (Coor.from_atomic_region_name st); [|done]. simpl. by destruct (slot d _ _).
  - exfalso. refine (try_each_np _ _ _ E1). apply validate_region_yields.
Qed.

(** C38: emission is total on validated results, and groups them. Whatever
    passes validation is rendered: the text is one block of lines for each
    pblock, in order, and the reset constraints; each pblock named once, with
    exactly the cells whose region it is, in the order of the result.  What
    does not pass is rejected before any line is written. *)
Theorem emit_xdc_exact r d : match validate_result r d with
  | Ok _ => exists cells blocks, all_cells r = Ok cells /\ Forall cell_ok cells /\
      NoDup (BMap.keys (groups cells)) /\ (forall name, default [] (BMap.get name (groups cells)) = cells_of name cells) /\
      Forall2 (fun e ls => region_lines d e = Ok ls) (groups cells) blocks /\
      emit_xdc r d = Ok (join (String newline "") (concat blocks ++ reset_timing_constraints) +:+ String newline "")
  | Err e => emit_xdc r d = Err e
  | Panic => False
  end.
Proof.
  pose proof (validate_yields r d) as Hnp.
  unfold emit_xdc. destruct (validate_result r d) as [[]|e|] eqn:Hv; [|done|done]. destruct (all_cells_ok r d Hv) as (cells & Hcells & Hok).
  destruct (groups_ok cells) as [Hw Hg]. destruct (try_map_defined (region_lines d) (groups cells)) as [blocks Hb].
  { apply Forall_forall. intros [name ms] Hin%list_elem_of_In. apply BMap.In_get in Hin; [|done]. by eapply region_lines_ok. }
  exists cells, blocks. split; [done|]. split; [done|]. split; [by apply BMap.wf_NoDup|]. split; [|split].
  - intros name. rewrite Hg. by destruct (cells_of name cells).
  - by apply try_map_Forall2.
  - simpl. rewrite Hcells. simpl. fold (groups cells). by rewrite Hb.
Qed.

(** ** An example *)

Module XdcExample.
Definition device : Device := Device.Example.device.
Definition result : FloorplanResult :=
  mkResult (key device) (cols device, rows device) [("q[0]", "SLOT_X0Y0_TO_SLOT_X0Y0"); ("work_0", "SLOT_X0Y0_TO_SLOT_X0Y0"); ("work_1", "SLOT_X1Y0")]
    [mkPipelineRoute (RStream "q[0]") ["SLOT_X0Y0"; "SLOT_X1Y0"] Double ["SLOT_X0Y0"; "SLOT_X1Y0"]] [].
End XdcExample.

Lemma xdc_example_valid : validate_result XdcExample.result XdcExample.device = Ok tt.
Proof. vm_compute. reflexivity. Qed.

Example xdc_example_cells : match all_cells XdcExample.result with
  | Ok cells => map (fun e => (canonical_pblock_name e.1, pattern e.2)) cells | _ => [] end =
  [("SLOT_X0Y0_TO_SLOT_X0Y0", "^(.*/)?work_0(_fifo)?(/.*)?$"); ("SLOT_X1Y0_TO_SLOT_X1Y0", "^(.*/)?work_1(_fifo)?(/.*)?$");
   ("SLOT_X0Y0_TO_SLOT_X0Y0", "^(.*/)?q_0_fifo/TAPA_HS_HEAD(_GATE)?(/.*)?$");
   ("SLOT_X0Y0_TO_SLOT_X0Y0", "^(.*/)?q_0_fifo/TAPA_HS_BODY\[0\].*TAPA_HS_BODY_REG(/.*)?$");
   ("SLOT_X1Y0_TO_SLOT_X1Y0", "^(.*/)?q_0_fifo/TAPA_HS_BODY\[1\].*TAPA_HS_BODY_REG(/.*)?$");
   ("SLOT_X1Y0_TO_SLOT_X1Y0", "^(.*/)?q_0_fifo/TAPA_HS_TAIL(/.*)?$")].
Proof. vm_compute. reflexivity. Qed.

Lemma cell_patterns_exact_witness : lang (cell_re "work_0") "top/work_0_fifo/ram" /\ ~ own_name "work_1" "work_0".
Proof.
  destruct (cell_patterns_exact XdcExample.result XdcExample.device "work_0" "work_1" xdc_example_valid) as (_ & H & Hd); [simpl; tauto|simpl; tauto|done|].
  split; [|apply Hd; by left]. apply H. exists "work_0_fifo". split; [by right|]. unfold component. apply list_elem_of_In. vm_compute. tauto.
Defined.
