(* ===== verification/F64Text.v ===== *)
(** * Decimal text of [f64]

    [str::parse::<f64>] and [Display] of the Standard Library of Rust: parsing
    rounds the exact decimal value to nearest even, and printing writes the fewest
    digits that parse back to the same value, the closest of these, never with an
    exponent.  First, text that trimming leaves alone, for the components that parse
    text.  Nothing here models repository code. *)

From Stdlib Require Import SpecFloat.
From S2P Require Import Prelude RustStd BTreeMap Names Connectivity F64.

Local Open Scope Z_scope.

(** ** Text that trimming leaves alone *)

(** Characters that are neither white space nor the start of a comment. *)
Definition plain (c : ascii) : bool := is_word c || Ascii.eqb c "=" || Ascii.eqb c ".".

Lemma trim_with_plain fuel ws s : Str.all plain s = true ->
  forallb (fun w => match w with String d _ => negb (plain d) | _ => false end) ws = true -> Str.trim_with fuel ws s = s.
Proof.
  intros Hs Hws. destruct fuel as [|n]; [done|]. cbn [Str.trim_with]. assert (Str.strip_any ws s = None) as ->; [|done].
  destruct s as [|c s]; simpl in Hs.
  - induction ws as [|[|d w] ws IH]; simpl in *; [done|done|]. by apply IH; bool_hyps.
  - bool_hyps. apply strip_any_none, List.Forall_forall. intros w Hw. rewrite forallb_forall in Hws. specialize (Hws w Hw).
    destruct w as [|d r]; [done|]. exists d, r. split; [done|]. intros ->. match goal with H : plain c = true |- _ => by rewrite H in Hws end.
Qed.

Lemma trim_plain s : Str.all plain s = true -> Str.trim s = s.
Proof.
  intros Hs. unfold Str.trim. rewrite (trim_with_plain _ Str.whitespace s Hs) by (vm_compute; reflexivity).
  rewrite (trim_with_plain _ (map Str.rev Str.whitespace)); [apply rev_rev|by rewrite all_rev|vm_compute; reflexivity].
Qed.

Lemma plain_word s : Str.all is_word s = true -> Str.all plain s = true.
Proof. apply Str.all_impl. intros c Hc. unfold plain. by rewrite Hc. Qed.

Lemma plain_digits s : Str.all Str.is_digit s = true -> Str.all plain s = true.
Proof. apply Str.all_impl. intros c Hc. unfold plain, is_word, Str.is_alnum. by rewrite Hc, !orb_true_r. Qed.

Module F64Text.
Import F64.

(** [num / den], correctly rounded. *)
Definition ratio (num den : positive) : f64 := div (S754_finite false num 0) (S754_finite false den 0).

(** [mantissa * 10^exponent]. *)
Definition of_decimal (mantissa exponent : Z) : f64 :=
  match mantissa with
  | Z.pos m => if 0 <=? exponent then ratio (m * Z.to_pos (10 ^ exponent)) 1 else ratio m (Z.to_pos (10 ^ (- exponent)))
  | _ => zero
  end.

(** ** Parsing *)

(** A run of digits: their value after [acc], their number, and the rest. *)
Fixpoint digits (acc : Z) (count : nat) (s : string) : Z * nat * string :=
  match s with
  | String c s' => if Str.is_digit c then digits (acc * 10 + Str.digit_val c) (S count) s' else (acc, count, s)
  | EmptyString => (acc, count, s)
  end.

Definition sign (s : string) : bool * string :=
  match s with
  | String c s' => if Ascii.eqb c "-" then (true, s') else if Ascii.eqb c "+" then (false, s') else (false, s)
  | EmptyString => (false, s)
  end.

(** The exponent after the digits, if any. *)
Definition exponent (s : string) : option Z :=
  match s with
  | EmptyString => Some 0
  | String c s' =>
      if Ascii.eqb c "e" || Ascii.eqb c "E" then
        let '(negative, s') := sign s' in
        let '(e, count, rest) := digits 0 0 s' in
        if Nat.eqb count 0 || negb (Str.is_empty rest) then None else Some (if negative then - e else e)
      else None
  end.

Definition parse_number (s : string) : option f64 :=
  let '(whole, n, rest) := digits 0 0 s in
  let '(mantissa, k, rest) :=
    match rest with
    | String c rest' => if Ascii.eqb c "." then digits whole 0 rest' else (whole, O, rest)
    | EmptyString => (whole, O, rest)
    end in
  if Nat.eqb (n + k) 0 then None else
  let? e := exponent rest in
  Some (of_decimal mantissa (e - Z.of_nat k)).

Definition parse (s : string) : option f64 :=
  let '(negative, s) := sign s in
  let name := Str.to_ascii_lowercase s in
  let? a :=
    if String.eqb name "inf" || String.eqb name "infinity" then Some infinity
    else if String.eqb name "nan" then Some S754_nan
    else parse_number s in
  Some (if negative then opp a else a).

(** ** Printing *)

(** The [k] with [10^(k-1) <= num/den < 10^k]. *)
Fixpoint scale_up (fuel : nat) (k num den : Z) : Z :=
  match fuel with O => k | S n => if num <? den then k else scale_up n (k + 1) num (den * 10) end.
Fixpoint scale_down (fuel : nat) (k num den : Z) : Z :=
  match fuel with O => k | S n => if num * 10 <? den then scale_down n (k - 1) (num * 10) den else k end.
Definition magnitude (num den : Z) : Z :=
  if num <? den then scale_down 400 0 num den else scale_up 400 0 num den.

(** [num / den] in units of [10^e]: the whole part, and twice the rest over the
    unit. *)
Definition in_units (num den e : Z) : Z * comparison :=
  let n := num * 10 ^ Z.max 0 (- e) in
  let d := den * 10 ^ Z.max 0 e in
  (n / d, 2 * (n mod d) ?= d).

Definition same (a b : f64) : bool := match SFcompare a b with Some Eq => true | _ => false end.

(** The decimal of [n] digits that stands for [a]; a tie goes up. *)
Definition candidate (a : f64) (num den k n : Z) : option (Z * Z) :=
  let e := k - n in
  let '(low, half) := in_units num den e in
  let down := same (of_decimal low e) a in
  let up := same (of_decimal (low + 1) e) a in
  if down && up then Some (if match half with Lt => true | _ => false end then low else low + 1, e)
  else if down then Some (low, e)
  else if up then Some (low + 1, e)
  else None.

(** Seventeen digits tell any two values apart. *)
Fixpoint shortest (fuel : nat) (a : f64) (num den k n : Z) : Z * Z :=
  match candidate a num den k n with
  | Some d => d
  | None => match fuel with O => ((in_units num den (k - n)).1, k - n) | S f => shortest f a num den k (n + 1) end
  end.

Fixpoint strip_zeros (fuel : nat) (d e : Z) : Z * Z :=
  match fuel with O => (d, e) | S n => if (d mod 10 =? 0) && negb (d =? 0) then strip_zeros n (d / 10) (e + 1) else (d, e) end.

Definition repeat_zero (n : Z) : string := fold_right (fun c s => c +:+ s) "" (replicate (Z.to_nat n) "0").

(** [{:0width}] of a number. *)
Definition pad (width n : Z) : string := repeat_zero (width - Z.of_nat (String.length (Str.show n))) +:+ Str.show n.

Definition decimal_text (d e : Z) : string :=
  if 0 <=? e then Str.show d +:+ repeat_zero e
  else Str.show (d / 10 ^ (- e)) +:+ "." +:+ pad (- e) (d mod 10 ^ (- e)).

Definition show_abs (m : positive) (e : Z) : string :=
  let num := Z.pos m * 2 ^ Z.max 0 e in
  let den := 2 ^ Z.max 0 (- e) in
  let k := magnitude num den in
  let '(d, x) := shortest 16 (S754_finite false m e) num den k 1 in
  let '(d, x) := strip_zeros 18 d x in
  decimal_text d x.

Definition show (a : f64) : string :=
  match a with
  | S754_nan => "NaN"
  | S754_infinity s => if s then "-inf" else "inf"
  | S754_zero s => if s then "-0" else "0"
  | S754_finite s m e => (if s then "-" else "") +:+ show_abs m e
  end.

(** ** Examples *)

Example show_tenth : parse "0.1" = Some (S754_finite false 7205759403792794 (-56)) /\ show (S754_finite false 7205759403792794 (-56)) = "0.1".
Proof. vm_compute. done. Qed.
Example show_third : show (div (of_Z 1) (of_Z 3)) = "0.3333333333333333".
Proof. vm_compute. done. Qed.
Example show_integer : show (of_Z 1200) = "1200" /\ show (opp (of_Z 7)) = "-7" /\ show (mul (of_Z 3) (div (of_Z 1) (of_Z 10))) = "0.30000000000000004".
Proof. vm_compute. done. Qed.
Example show_large : parse "1e23" = Some (S754_finite false 5960464477539062 24) /\ show (S754_finite false 5960464477539062 24) = "100000000000000000000000".
Proof. vm_compute. done. Qed.
Example parse_forms : parse ".5" = parse "5.e-1" /\ parse "5." = Some (of_Z 5) /\ parse "." = None /\ parse "1e" = None /\ parse "-Infinity" = Some (S754_infinity true)
  /\ parse " 1" = None /\ parse "1_0" = None.
Proof. vm_compute. done. Qed.
Example extremes : show (S754_finite false 1 (-1074)) = "0." +:+ repeat_zero 323 +:+ "5" /\ parse "1e400" = Some infinity /\ parse "1e-400" = Some zero.
Proof. vm_compute. done. Qed.
End F64Text.
