(* ===== verification/Clock.v ===== *)
(** * Clock periods

    [tapa-ir/src/clock.rs]: a clock period in whole picoseconds, read from and
    written as decimal nanoseconds. *)

From Stdlib Require Import SpecFloat.
From S2P Require Import Prelude RustStd Names Connectivity F64 F64Spec F64Text.

Local Open Scope Z_scope.

(** The private [u64]. *)
Definition ClockPeriod : Type := Z.

Inductive ClockPeriodError := NotANumber (text : string) | OutOfRange (text : string).

Definition clock_error_str (e : ClockPeriodError) : string :=
  match e with
  | NotANumber t => "clock period `" +:+ t +:+ "` is not a number"
  | OutOfRange t => "clock period must be a finite, non-negative number of nanoseconds, got `" +:+ t +:+ "`"
  end.

Definition ZERO : ClockPeriod := 0.

Definition nanoseconds (p : ClockPeriod) : f64 := F64.div (F64.of_Z p) (F64.of_Z 1000).

Definition TWO_POW_64 : f64 := F64.of_Z 18446744073709551616.

Definition from_nanoseconds_str (text : string) : res ClockPeriodError ClockPeriod :=
  let! ns := ok_or (F64Text.parse (Str.trim text)) (NotANumber text) in
  let picoseconds := F64.mul ns (F64.of_Z 1000) in
  if negb (F64.leb F64.zero picoseconds && F64.ltb picoseconds TWO_POW_64) then Err (OutOfRange text)
  else Ok (F64.to_u64 (F64.round picoseconds)).

(** [while digits.ends_with('0')]. *)
Fixpoint pop_zeros (fuel : nat) (digits : string) : string :=
  match fuel with
  | O => digits
  | S n => match Str.strip_suffix "0" digits with Some d => pop_zeros n d | None => digits end
  end.

Definition display (p : ClockPeriod) : string :=
  let whole := p / 1000 in
  let fraction := p mod 1000 in
  if fraction =? 0 then Str.show whole else
    let digits := F64Text.pad 3 fraction in
    Str.show whole +:+ "." +:+ pop_zeros (String.length digits) digits.

(** ** Reading what was written *)

Definition starts_digit (s : string) : bool := match s with String c _ => Str.is_digit c | EmptyString => false end.

Lemma digits_run s acc count rest v : Str.all Str.is_digit s = true -> starts_digit rest = false -> Str.parse_digits acc s = Some v ->
  F64Text.digits acc count (s +:+ rest) = (v, (count + String.length s)%nat, rest).
Proof.
  revert acc count. induction s as [|c s IH]; intros acc count Hs Hr Hv.
  - simpl in Hv. injection Hv as ->. rewrite Nat.add_0_r. cbn [String.append]. destruct rest as [|c r]; [done|]. cbn [F64Text.digits].
    simpl in Hr. by rewrite Hr.
  - cbn [Str.all Str.parse_digits] in *. bool_hyps. cbn [String.append F64Text.digits]. destruct (Str.is_digit c); [|done].
    rewrite IH by done. by rewrite Nat.add_succ_comm.
Qed.

Lemma parse_digits_shift s acc v : Str.parse_digits 0 s = Some v -> Str.parse_digits acc s = Some (acc * 10 ^ Z.of_nat (String.length s) + v).
Proof.
  assert (H : forall s a b v, Str.parse_digits a s = Some v -> Str.parse_digits (a + b) s = Some (v + b * 10 ^ Z.of_nat (String.length s))).
  { clear. intros s. induction s as [|c s IH]; intros a b v; cbn [Str.parse_digits String.length].
    - intros [= ->]. f_equal. rewrite Z.pow_0_r. lia.
    - destruct (Str.is_digit c); [|done]. intros Hv. rewrite Nat2Z.inj_succ, Z.pow_succ_r by lia.
      replace ((a + b) * 10 + Str.digit_val c) with ((a * 10 + Str.digit_val c) + b * 10) by ring. rewrite (IH _ _ _ Hv). f_equal. ring. }
  intros Hv. rewrite (H s 0 acc v Hv : Str.parse_digits acc s = _). f_equal. ring.
Qed.

Lemma parse_digits_show n : 0 <= n -> Str.parse_digits 0 (Str.show n) = Some n.
Proof. intros Hn. destruct (Str.show_spec n Hn) as (_ & _ & Hp). specialize (Hp 0 ""). by rewrite Str.app_nil_r in Hp. Qed.

(** Every fraction is written with at most three digits that stand for it. *)
Definition fraction_text (f : Z) : string := let digits := F64Text.pad 3 f in pop_zeros (String.length digits) digits.

Lemma fraction_text_spec f : 0 < f < 1000 -> let t := fraction_text f in
  Str.all Str.is_digit t = true /\ (1 <= String.length t <= 3)%nat /\ exists v, Str.parse_digits 0 t = Some v /\ v * 10 ^ (3 - Z.of_nat (String.length t)) = f.
Proof.
  intros Hf. cbv zeta.
  assert (H : forallb (fun k => let f := Z.of_nat k in let t := fraction_text f in Str.all Str.is_digit t && Nat.leb 1 (String.length t) && Nat.leb (String.length t) 3
    && match Str.parse_digits 0 t with Some v => v * 10 ^ (3 - Z.of_nat (String.length t)) =? f | None => false end) (seq 1 999) = true) by (vm_compute; reflexivity).
  rewrite forallb_forall in H. specialize (H (Z.to_nat f) ltac:(apply in_seq; lia)). cbv zeta in H. rewrite Z2Nat.id in H by lia.
  destruct (Str.parse_digits 0 (fraction_text f)) as [v|]; [|by rewrite andb_false_r in H]. bool_hyps. split; [done|].
  split; [split; [by apply Nat.leb_le|]; by apply Nat.leb_le|]. exists v. split; [done|]. lia.
Qed.

(** What the text of a period is parsed to: its exact value, rounded. *)
Lemma parse_display p : 0 < p -> exists m k, 0 < m /\ 0 <= k <= 3 /\ m * 10 ^ (3 - k) = p /\ F64Text.parse (display p) = Some (F64Text.of_decimal m (- k)).
Proof.
  intros Hp. pose proof (Z.div_mod p 1000 ltac:(done)) as Hdm. pose proof (Z.mod_pos_bound p 1000 ltac:(done)) as Hmod.
  assert (Hw : 0 <= p / 1000) by (apply Z.div_pos; lia). pose proof (Str.show_digits _ Hw) as Hd. pose proof (parse_digits_show _ Hw) as Hs.
  assert (Hgo : forall t, starts_digit t = false -> F64Text.parse (Str.show (p / 1000) +:+ t) = F64Text.parse_number (Str.show (p / 1000) +:+ t)).
  { intros t Ht. pose proof (Str.show_nonempty _ Hw). destruct (Str.show (p / 1000)) as [|c s] eqn:E; [done|]. cbn [Str.all] in Hd. bool_hyps.
    unfold F64Text.parse, F64Text.sign. cbn [String.append]. destruct (Ascii.eqb_spec c "-"); [by subst|]. destruct (Ascii.eqb_spec c "+"); [by subst|].
    cbn [Str.to_ascii_lowercase Str.map_chars]. unfold Str.to_ascii_lowercase. cbn [Str.map_chars]. unfold Str.to_lower, Str.is_upper.
    assert (Hc : 48 <= Str.code c <= 57) by (unfold Str.is_digit in *; lia). destruct (Z.leb_spec 65 (Str.code c)); [lia|]. cbn [andb].
    assert (Hne : forall d r r', Str.code d <> Str.code c -> String.eqb (String c r) (String d r') = false).
    { intros d r r' Hx. apply String.eqb_neq. intros [= ->]. done. }
    rewrite !Hne by (vm_compute Str.code at 1; lia). cbn [orb]. by destruct (F64Text.parse_number _). }
  unfold display. destruct (Z.eqb_spec (p mod 1000) 0) as [Hz|Hz].
  - exists (p / 1000), 0. split; [lia|]. split; [done|]. split; [lia|]. rewrite <- (Str.app_nil_r (Str.show _)). rewrite Hgo by done.
    unfold F64Text.parse_number. rewrite (digits_run _ 0 0 "" _ Hd eq_refl Hs).
    destruct (Nat.eqb_spec (0 + String.length (Str.show (p / 1000)) + 0) 0) as [Hl|]; [|done].
    pose proof (Str.show_nonempty _ Hw). by destruct (Str.show (p / 1000)).
  - destruct (fraction_text_spec (p mod 1000) ltac:(lia)) as (Ht & Hl & v & Hv & Hval). fold (fraction_text (p mod 1000)).
    set (t := fraction_text (p mod 1000)) in *. exists (p / 1000 * 10 ^ Z.of_nat (String.length t) + v), (Z.of_nat (String.length t)).
    assert (Hv0 : 0 < v) by (destruct (Z.lt_trichotomy v 0) as [|[->|]]; [|lia|done]; pose proof (Z.pow_pos_nonneg 10 (3 - Z.of_nat (String.length t)) ltac:(lia) ltac:(lia)); nia).
    split; [pose proof (Z.pow_pos_nonneg 10 (Z.of_nat (String.length t)) ltac:(lia) ltac:(lia)); nia|]. split; [lia|]. split.
    + rewrite Z.mul_add_distr_r, <- Z.mul_assoc, <- Z.pow_add_r, Hval by lia. replace (_ + (3 - _)) with 3 by lia. lia.
    + rewrite Hgo by done. unfold F64Text.parse_number. rewrite (digits_run _ 0 0 ("." +:+ t) _ Hd eq_refl Hs). cbn [String.append Ascii.eqb Bool.eqb].
      rewrite <- (Str.app_nil_r t) at 1. rewrite (digits_run t _ 0 "" _ Ht eq_refl (parse_digits_shift _ _ _ Hv)).
      destruct (Nat.eqb_spec (0 + String.length (Str.show (p / 1000)) + (0 + String.length t)) 0); [lia|]. done.
Qed.

Lemma of_decimal_ratio m k : 0 < m -> 0 <= k <= 3 -> F64Text.of_decimal m (- k) = F64Text.ratio (Z.to_pos m) (Z.to_pos (10 ^ k)).
Proof.
  intros Hm Hk. unfold F64Text.of_decimal. destruct m as [|m|m]; [done| |done]. cbn [Z.to_pos].
  destruct (Z.leb_spec 0 (- k)); [|by rewrite Z.opp_involutive]. assert (k = 0) as -> by lia. by rewrite Pos.mul_1_r.
Qed.

(** The value read is off by less than a part in [2^53]. *)
Lemma decimal_close m k : 0 < m <= 2 ^ 60 -> 0 <= k <= 3 -> let a := F64Text.of_decimal m (- k) in
  F64Spec.fin a /\ 0 < F64Spec.units a /\ Z.abs (F64Spec.units a * 10 ^ k - m * F64Spec.UNIT) * 2 ^ 53 <= m * F64Spec.UNIT.
Proof.
  intros Hm Hk. cbv zeta. rewrite of_decimal_ratio by lia. unfold F64Text.ratio. pose proof F64Spec.UNIT_pos as HU.
  assert (Hden : 1 <= 10 ^ k <= 1000) by (assert (k = 0 \/ k = 1 \/ k = 2 \/ k = 3) as [-> | [-> | [-> | ->]]] by lia; split; vm_compute; congruence).
  assert (Hlog : Z.log2 (Z.pos (Z.to_pos (10 ^ k))) <= 52).
  { rewrite Z2Pos.id by lia. apply Z.le_trans with (Z.log2 1000); [apply Z.log2_le_mono; lia|vm_compute; congruence]. }
  pose proof (F64Spec.quotient_spec (Z.to_pos m) 0 (Z.to_pos (10 ^ k)) 0 ltac:(lia) ltac:(lia) Hlog) as Hq. cbv zeta in Hq.
  rewrite !Z2Pos.id, Z.add_0_l in Hq by lia. change (2 ^ F64Spec.K) with F64Spec.UNIT in Hq.
  set (n := m * F64Spec.UNIT * F64Spec.UNIT) in *. set (d := 10 ^ k * F64Spec.UNIT) in *.
  assert (Hd : 0 < d) by (unfold d; nia).
  assert (Hlo : 2 ^ 1200 <= n / d).
  { apply Z.div_le_lower_bound; [done|]. unfold n, d. apply Z.le_trans with (1000 * 2 ^ 1200 * F64Spec.UNIT); [nia|].
    replace (m * F64Spec.UNIT * F64Spec.UNIT) with (F64Spec.UNIT * F64Spec.UNIT * m) by ring.
    apply Z.le_trans with (F64Spec.UNIT * F64Spec.UNIT * 1); [rewrite Z.mul_1_r; apply Z.mul_le_mono_nonneg_r; [lia|vm_compute; congruence]|apply Z.mul_le_mono_nonneg_l; nia]. }
  assert (Hhi : n / d < 2 ^ (1000 + F64Spec.K)).
  { apply Z.div_lt_upper_bound; [done|]. unfold n, d. apply Z.le_lt_trans with (2 ^ 60 * F64Spec.UNIT * F64Spec.UNIT); [nia|].
    apply Z.lt_le_trans with (1 * F64Spec.UNIT * 2 ^ (1000 + F64Spec.K)); [|nia]. vm_compute; congruence. }
  destruct (Hq (conj Hlo Hhi)) as [Hf Hv]. split; [exact Hf|]. rewrite Hv.
  assert (Hrel : Z.abs (F64Spec.round_quotient n d * d - n) * 2 ^ 53 <= n).
  { apply F64Spec.round_quotient_relative; [done|]. apply Z.le_trans with (2 := Hlo). vm_compute; congruence. }
  unfold d in Hrel at 2. unfold n in Hrel at 2 3. set (u := F64Spec.round_quotient n d) in *. clearbody u n d.
  replace (u * (10 ^ k * F64Spec.UNIT) - m * F64Spec.UNIT * F64Spec.UNIT) with ((u * 10 ^ k - m * F64Spec.UNIT) * F64Spec.UNIT) in Hrel by ring.
  rewrite Z.abs_mul, (Z.abs_eq F64Spec.UNIT) in Hrel by lia.
  assert (Hc : Z.abs (u * 10 ^ k - m * F64Spec.UNIT) * 2 ^ 53 <= m * F64Spec.UNIT).
  { apply (Z.mul_le_mono_pos_r _ _ F64Spec.UNIT HU). lia. }
  split; [|exact Hc]. assert (0 < m * F64Spec.UNIT) by nia. apply Z.nle_gt. intros Hn. assert (u * 10 ^ k <= 0) by nia.
  assert (m * F64Spec.UNIT <= Z.abs (u * 10 ^ k - m * F64Spec.UNIT)) by lia. change (2 ^ 53) with 9007199254740992 in Hc. lia.
Qed.

(** A number of nanoseconds close to [p] thousandths is read as [p]. *)
Lemma close_is_read a p : F64Spec.fin a -> 0 < F64Spec.units a -> 0 < p <= 2 ^ 50 ->
  Z.abs (F64Spec.units a * 1000 - p * F64Spec.UNIT) * 2 ^ 53 <= p * F64Spec.UNIT ->
  let picoseconds := F64.mul a (F64.of_Z 1000) in
  F64.leb F64.zero picoseconds && F64.ltb picoseconds TWO_POW_64 = true /\ F64.to_u64 (F64.round picoseconds) = p.
Proof.
  intros Ha Hu Hp Hc. cbv zeta. pose proof F64Spec.UNIT_pos as HU. destruct (F64Spec.of_Z_exact 1000 ltac:(lia)) as [Hb Vb].
  set (u := F64Spec.units a) in *. change (2 ^ F64Spec.K) with F64Spec.UNIT in Vb.
  assert (Eprod : u * F64Spec.units (F64.of_Z 1000) / 2 ^ F64Spec.K = u * 1000).
  { rewrite Vb. change (2 ^ F64Spec.K) with F64Spec.UNIT. rewrite Z.mul_assoc. apply Z.div_mul. lia. }
  change (2 ^ 53) with 9007199254740992 in Hc. change (2 ^ 50) with 1125899906842624 in Hp.
  assert (Hw : p * F64Spec.UNIT <= 2 * (u * 1000) <= 4 * (p * F64Spec.UNIT)) by lia.
  assert (Hbig : 2 ^ 1126 * 2 <= p * F64Spec.UNIT).
  { apply Z.le_trans with (1 * F64Spec.UNIT); [vm_compute; congruence|apply Z.mul_le_mono_nonneg_r; lia]. }
  assert (Hrange : F64Spec.in_range (u * 1000)).
  { split; [lia|]. apply Z.le_lt_trans with (2 * 1125899906842624 * F64Spec.UNIT); [nia|]. by vm_compute. }
  rewrite <- Eprod in Hrange. destruct (F64Spec.mul_spec a (F64.of_Z 1000) Ha Hb ltac:(fold u; lia) ltac:(rewrite Vb; lia) Hrange) as (Hf & Hv & _).
  fold u in Hv. rewrite Eprod in Hv. pose proof (F64Spec.round_units_relative (u * 1000) ltac:(lia)) as Hrel. rewrite <- Hv in Hrel.
  change (2 ^ 53) with 9007199254740992 in Hrel. set (r := F64Spec.units (F64.mul a (F64.of_Z 1000))) in *.
  assert (Hr : Z.abs (r - p * F64Spec.UNIT) * 9007199254740992 <= 3 * (p * F64Spec.UNIT)) by lia.
  assert (Hsmall : 3 * (p * F64Spec.UNIT) <= 3377699720527872 * F64Spec.UNIT) by nia.
  split.
  - assert (H0 : F64Spec.fin F64.zero) by (split; by vm_compute). assert (H64 : F64Spec.fin TWO_POW_64) by (split; by vm_compute).
    assert (V64 : F64Spec.units TWO_POW_64 = 18446744073709551616 * F64Spec.UNIT) by (by vm_compute).
    rewrite F64Spec.leb_spec, F64Spec.ltb_spec by done. fold r. rewrite V64. change (F64Spec.units F64.zero) with 0. apply andb_true_iff.
    split; [apply Z.leb_le|apply Z.ltb_lt]; nia.
  - rewrite F64Spec.to_u64_round; [|done|fold r; lia|fold r; change (2 ^ 53) with 9007199254740992; nia]. fold r. symmetry.
    apply (Z.div_unique _ _ _ (2 * r + F64Spec.UNIT - p * (2 * F64Spec.UNIT))); lia.
Qed.

Lemma display_plain p : 0 <= p -> Str.all plain (display p) = true.
Proof.
  intros Hp. assert (Hw : 0 <= p / 1000) by (apply Z.div_pos; lia). pose proof (plain_digits _ (Str.show_digits _ Hw)) as Hd.
  pose proof (Z.mod_pos_bound p 1000 ltac:(done)). unfold display. destruct (Z.eqb_spec (p mod 1000) 0); [done|].
  rewrite !Str.all_app, Hd. cbn [andb]. apply plain_digits. by destruct (fraction_text_spec (p mod 1000) ltac:(lia)) as [Ht _].
Qed.

(** C31: a period of at most [2^50] picoseconds, about nineteen minutes, survives being
    written and read: the decimal nanoseconds printed for it are read back as exactly that
    period, although both the text and the product are rounded to floats.  Longer periods,
    which the type allows, need not: [2^53 + 1] picoseconds read back one less
    ([long_period_drifts]). *)
Theorem clock_period_roundtrip p : 0 <= p <= 2 ^ 50 -> from_nanoseconds_str (display p) = Ok p.
Proof.
  intros Hp. destruct (Z.eq_dec p 0) as [->|Hp0]; [by vm_compute|].
  destruct (parse_display p ltac:(lia)) as (m & k & Hm & Hk & Hmk & Ht).
  assert (H10 : 1 <= 10 ^ (3 - k)) by (pose proof (Z.pow_pos_nonneg 10 (3 - k) ltac:(lia) ltac:(lia)); lia).
  destruct (decimal_close m k) as (Hf & Hu & Hc); [change (2 ^ 60) with 1152921504606846976; change (2 ^ 50) with 1125899906842624 in Hp; nia|done|].
  set (a := F64Text.of_decimal m (- k)) in *.
  assert (Hclose : Z.abs (F64Spec.units a * 1000 - p * F64Spec.UNIT) * 2 ^ 53 <= p * F64Spec.UNIT).
  { replace 1000 with (10 ^ k * 10 ^ (3 - k)) by (rewrite <- Z.pow_add_r by lia; by replace (k + (3 - k)) with 3 by lia). rewrite <- Hmk.
    replace (F64Spec.units a * (10 ^ k * 10 ^ (3 - k)) - m * 10 ^ (3 - k) * F64Spec.UNIT) with ((F64Spec.units a * 10 ^ k - m * F64Spec.UNIT) * 10 ^ (3 - k)) by ring.
    rewrite Z.abs_mul, (Z.abs_eq (10 ^ (3 - k))) by lia. replace (_ * _ * 2 ^ 53) with (Z.abs (F64Spec.units a * 10 ^ k - m * F64Spec.UNIT) * 2 ^ 53 * 10 ^ (3 - k)) by ring.
    replace (m * 10 ^ (3 - k) * F64Spec.UNIT) with (m * F64Spec.UNIT * 10 ^ (3 - k)) by ring. apply Z.mul_le_mono_nonneg_r; [lia|exact Hc]. }
  destruct (close_is_read a p Hf Hu ltac:(lia) Hclose) as [Hb Hv].
  unfold from_nanoseconds_str. rewrite trim_plain by (apply display_plain; lia). rewrite Ht. cbn [ok_or rbind]. by rewrite Hb, Hv.
Qed.

Lemma clock_period_roundtrip_witness : display 3330 = "3.33" /\ from_nanoseconds_str "3.33" = Ok 3330.
Proof. split; [by vm_compute|]. apply (clock_period_roundtrip 3330). split; [lia|vm_compute; congruence]. Defined.

(** Beyond the bound a period may drift. *)
Example long_period_drifts : from_nanoseconds_str (display 9007199254740993) = Ok 9007199254740992.
Proof. vm_compute. reflexivity. Qed.

(** White space around the number is ignored; what is not a finite, non-negative
    number is refused. *)
Example clock_errors : from_nanoseconds_str " 4 " = Ok 4000 /\ from_nanoseconds_str "1e-3" = Ok 1 /\ from_nanoseconds_str "-0" = Ok 0
  /\ from_nanoseconds_str "-1" = Err (OutOfRange "-1") /\ from_nanoseconds_str "nan" = Err (OutOfRange "nan") /\ from_nanoseconds_str "" = Err (NotANumber "").
Proof. vm_compute. done. Qed.
