(* ===== verification/LpText.v ===== *)
(** * CPLEX-LP text

    [tapa-floorplan/src/solver/lp_writer.rs]: rendering a model to the text the
    solver reads. *)

From Stdlib Require Import SpecFloat.
From S2P Require Import Prelude RustStd Names F64 Lp F64Text.

Local Open Scope Z_scope.

Inductive LpWriteError := UnsatisfiableConstant (name : string) (op : Comparison) (rhs : f64).

Definition comparison_debug (o : Comparison) : string := match o with Le => "Le" | EqC => "Eq" end.

Definition format_num (value : f64) : string := F64Text.show value.

Definition write_error_str (e : LpWriteError) : string :=
  match e with
  | UnsatisfiableConstant name op rhs =>
      "constraint `" +:+ name +:+ "` reduces to the unsatisfiable constant `0 " +:+ comparison_debug op +:+ " " +:+ format_num rhs +:+ "`"
  end.

Definition is_zero (coef : f64) : bool := match SFcompare coef F64.zero with Some Eq => true | _ => false end.

(** [f64::EPSILON]. *)
Definition EPSILON : f64 := S754_finite false 4503599627370496 (-104).

Definition empty_constraint_is_vacuous (o : Comparison) (rhs : f64) : bool :=
  match o with
  | Le => F64.leb F64.zero rhs
  | EqC => F64.ltb (F64.abs rhs) EPSILON
  end.

(** [Comparison::as_str]. *)
Definition comparison_str (o : Comparison) : string := match o with Le => "<=" | EqC => "=" end.

(** The text so far; empty before the first term. *)
Definition write_term (out : string) (t : f64 * LpVar) : string :=
  if is_zero t.1 then out else
  let negative := F64.ltb t.1 F64.zero in
  let magnitude := if negative then F64.opp t.1 else t.1 in
  let join := if Str.is_empty out then (if negative then "- " else "") else if negative then " - " else " + " in
  out +:+ join +:+ format_num magnitude +:+ " x" +:+ Str.show t.2.

Definition write_terms (ts : list (f64 * LpVar)) : string :=
  let out := fold_left write_term ts "" in
  if Str.is_empty out then "0" else out.

Definition write_objective (objective : LinExpr) : string :=
  let out := write_terms (terms objective) in
  if F64.gtb (constant objective) F64.zero then out +:+ " + " +:+ format_num (constant objective)
  else if F64.ltb (constant objective) F64.zero then out +:+ " - " +:+ format_num (F64.opp (constant objective))
  else out.

(** ** Names *)

Definition is_name_char (c : ascii) : bool := Str.is_alnum c || Ascii.eqb c "_".

(** One character for each character: the continuation bytes of a character
    produce nothing. *)
Fixpoint safe_chars (s : string) : string :=
  match s with
  | EmptyString => ""
  | String c s' => if is_continuation c then safe_chars s' else String (if is_name_char c then c else "_"%char) (safe_chars s')
  end.

Definition sanitize_name (name : string) : string :=
  let out := safe_chars name in
  let is_variable_namespace := match out with
    | String c rest => Ascii.eqb c "x" && negb (Str.is_empty rest) && Str.all Str.is_digit rest
    | EmptyString => false
    end in
  let no_start := match out with String c _ => Str.is_digit c | EmptyString => true end in
  if is_variable_namespace || no_start then String "c" out else out.

(** ** Sections *)

Definition label_line (e : nat * VarDef) : option string :=
  if Str.is_empty (label e.2) then None else Some ("\ x" +:+ Str.show (Z.of_nat e.1) +:+ ": " +:+ label e.2).

(** A row without a variable is dropped when it holds, and refused when not. *)
Definition constraint_line (c : ConstraintDef) : res LpWriteError (list string) :=
  let r := F64.sub (rhs c) (constant (c_expr c)) in
  if forallb (fun t => is_zero t.1) (terms (c_expr c)) then
    if empty_constraint_is_vacuous (op c) r then Ok [] else Err (UnsatisfiableConstant (c_name c) (op c) r)
  else Ok [" " +:+ sanitize_name (c_name c) +:+ ": " +:+ write_terms (terms (c_expr c)) +:+ " " +:+ comparison_str (op c) +:+ " " +:+ format_num r].

Definition bound_line (e : nat * VarDef) : option string :=
  let x := "x" +:+ Str.show (Z.of_nat e.1) in
  let v := e.2 in
  if is_binary (kind v) then None
  else if negb (F64.is_finite (upper v) || F64.gtb (F64.abs (lower v)) F64.zero) then None
  else if F64.is_finite (upper v) then Some (" " +:+ format_num (lower v) +:+ " <= " +:+ x +:+ " <= " +:+ format_num (upper v))
  else Some (" " +:+ x +:+ " >= " +:+ format_num (lower v)).

Definition bound_lines (m : LpModel) : list string := omap bound_line (enumerate (vars m)).

Definition section_vars (m : LpModel) : list string :=
  omap (fun e => if is_binary (kind e.2) then Some (" x" +:+ Str.show (Z.of_nat e.1)) else None) (enumerate (vars m)).

Definition section (title : string) (ls : list string) : list string := match ls with [] => [] | _ => title :: ls end.

Definition write_cplex_lp (m : LpModel) : res LpWriteError string :=
  let! rows := try_map constraint_line (constraints m) in
  let ls := omap label_line (enumerate (vars m)) ++ ["Minimize"; " obj: " +:+ write_objective (objective m); "Subject To"] ++ concat rows
    ++ section "Bounds" (bound_lines m) ++ section "Binaries" (section_vars m) ++ ["End"] in
  Ok (fold_right (fun l s => l +:+ String "010" s) "" ls).

(** ** Names of rows and columns are apart *)

(** A name CBC lists a column by: [x] and an index. *)
Definition column_of (name : string) : option LpVar := let? suffix := Str.strip_prefix "x" name in Str.parse_u32 suffix.

Lemma safe_chars_name s : Str.all is_name_char (safe_chars s) = true.
Proof.
  induction s as [|c s IH]; [done|]. cbn [safe_chars]. destruct (is_continuation c); [done|]. cbn [Str.all]. rewrite IH, andb_true_r.
  by destruct (is_name_char c) eqn:E.
Qed.

Lemma parse_digits_digits acc s v : Str.parse_digits acc s = Some v -> Str.all Str.is_digit s = true.
Proof. revert acc. induction s as [|c s IH]; intros acc; [done|]. cbn. destruct (Str.is_digit c); [apply IH|done]. Qed.

(** The name of a row is never read back as a column. *)
Lemma sanitized_not_column name : column_of (sanitize_name name) = None.
Proof.
  unfold column_of, sanitize_name. pose proof (safe_chars_name name) as Hs. destruct (safe_chars name) as [|c out]; [done|].
  destruct (Ascii.eqb_spec c "x") as [->|Hne]; cbn [andb orb].
  - destruct (negb (Str.is_empty out) && Str.all Str.is_digit out) eqn:E; [done|]. cbn [orb].
    change (Str.is_digit "x") with false. cbv iota. cbn [Str.strip_prefix]. rewrite Ascii.eqb_refl. unfold Str.parse_u32, Str.parse_uint.
    destruct out as [|d out]; [done|]. cbn [Str.all] in Hs. bool_hyps. destruct (Ascii.eqb_spec d "+"); [by subst|]. cbn [Str.is_empty].
    destruct (Str.parse_digits 0 (String d out)) eqn:Ep; [|done]. apply parse_digits_digits in Ep. by rewrite Ep in E.
  - destruct (Str.is_digit c); [done|]. cbn [Str.strip_prefix]. by destruct (Ascii.eqb_spec "x" c); [subst|].
Qed.

Example sample_lp : write_cplex_lp (mkModel (mkExpr [(F64.of_Z 2, 0); (F64.opp (F64.of_Z 1), 1)] F64.one)
    [mkVar "a" Binary F64.zero F64.one; mkVar "" Continuous F64.zero (F64.of_Z 10)]
    [mkConstraint "x1" (mkExpr [(F64.of_Z 3, 0); (F64.of_Z 1, 1)] F64.one) Le (F64.of_Z 4); mkConstraint "empty" (mkExpr [] F64.zero) Le F64.one])
  = Ok (fold_right (fun l s => l +:+ String "010" s) ""
      ["\ x0: a"; "Minimize"; " obj: 2 x0 - 1 x1 + 1"; "Subject To"; " cx1: 3 x0 + 1 x1 <= 3"; "Bounds"; " 0 <= x1 <= 10"; "Binaries"; " x0"; "End"]).
Proof. vm_compute. done. Qed.
