(* ===== verification/Protocol.v ===== *)
(** * Wire protocol constants

    The naming and width conventions of [tapa-protocol/src/lib.rs]: handshake
    ports, stream suffixes, the M-AXI port catalog with its width rules, and the
    lookups the other crates make in it. *)

From S2P Require Import Prelude RustStd.

Local Open Scope Z_scope.

(** ** Handshake and HLS names *)

Definition HANDSHAKE_CLK : string := "ap_clk".
Definition HANDSHAKE_RST : string := "ap_rst".
Definition HLS_RST_INV : string := "ap_rst_n_inv".
Definition HANDSHAKE_RST_N : string := "ap_rst_n".
Definition HANDSHAKE_START : string := "ap_start".
Definition HANDSHAKE_DONE : string := "ap_done".
Definition HANDSHAKE_IDLE : string := "ap_idle".
Definition HANDSHAKE_READY : string := "ap_ready".

Definition HLS_CE_REG : string := "ap_ce_reg".
Definition HLS_FSM_CS : string := "ap_CS_fsm".
Definition HLS_FSM_NS : string := "ap_NS_fsm".
Definition HLS_FSM_STATE_PREFIX : string := "ap_ST_fsm_state".

(** ** Streams *)

Definition ISTREAM_SUFFIXES : list string := ["_dout"; "_empty_n"; "_read"].
Definition OSTREAM_SUFFIXES : list string := ["_din"; "_full_n"; "_write"].
Definition STREAM_DATA_SUFFIXES : list string := ["_dout"; "_din"].

Definition stream_data_wire_width (elem_width : Z) : Z := Z.min U32_MAX (elem_width + 1).

(** [div_ceil] is exact; the product by 8 is on 32 bits. *)
Definition div_ceil (a b : Z) : Z := (a + b - 1) / b.
Definition axis_data_width (elem_width : Z) : Z := wrap32 (div_ceil elem_width 8 * 8).

Definition stream_port_name (base suffix : string) : string := base +:+ "_s" +:+ suffix.
Definition stream_peek_port_name (base suffix : string) : string := base +:+ "_peek" +:+ suffix.

Inductive PortDir := DirInput | DirOutput.

Definition str_in (s : string) (l : list string) : bool := bool_decide (s ∈ l).

Definition stream_port_direction (suffix : string) : option PortDir :=
  if str_in suffix ["_dout"; "_empty_n"; "_full_n"] then Some DirInput
  else if str_in suffix ["_read"; "_din"; "_write"] then Some DirOutput
  else None.

Definition FIFO_READ_PORTS : list string := ["if_dout"; "if_empty_n"; "if_read"; "if_read_ce"].
Definition FIFO_WRITE_PORTS : list string := ["if_din"; "if_full_n"; "if_write"; "if_write_ce"].

(** ** AXI *)

Definition S_AXI_NAME : string := "s_axi_control".
Definition S_AXI_LITE_CTRL_PORTS : list string :=
  ["AWVALID"; "AWREADY"; "AWADDR"; "WVALID"; "WREADY"; "WDATA"; "WSTRB"; "ARVALID"; "ARREADY";
   "ARADDR"; "RVALID"; "RREADY"; "RDATA"; "RRESP"; "BVALID"; "BREADY"; "BRESP"].
Definition M_AXI_PREFIX : string := "m_axi_".
Definition AXI_ADDR_WIDTH : Z := 64.
Definition AXI_ID_WIDTH : Z := 1.
Definition M_AXI_MAX_OUTSTANDING : Z := 16.

Inductive AxiWidth := WFixed (width : Z) | WAddress | WData | WId | WStrobe.

Record AxiPort := mkAxiPort {
  axp_name : string;
  axp_suffix : string;
  axp_direction : PortDir;
  axp_is_compact : bool;
  axp_width : AxiWidth;
}.

Definition axi_port_width (p : AxiPort) (data_width addr_width id_width : Z) : Z :=
  match axp_width p with
  | WFixed width => width
  | WAddress => addr_width
  | WData => data_width
  | WId => id_width
  | WStrobe => div_ceil data_width 8
  end.

Definition is_id_port (p : AxiPort) : bool := match axp_width p with WId => true | _ => false end.

Record AxiChannelInfo := mkAxiChannel {
  axc_name : string;
  axc_ports : list AxiPort;
  axc_valid : string;
  axc_ready : string;
}.

Definition compact_ports (c : AxiChannelInfo) : list AxiPort := List.filter axp_is_compact (axc_ports c).
Definition compact_suffixes (c : AxiChannelInfo) : list string := map axp_suffix (compact_ports c).

(** The [channel!] macro. *)
Definition channel (name : string) (ports : list (string * PortDir * AxiWidth * bool)) : AxiChannelInfo :=
  {| axc_name := name;
     axc_valid := "_" +:+ name +:+ "VALID";
     axc_ready := "_" +:+ name +:+ "READY";
     axc_ports := map (fun '(n, d, w, c) => mkAxiPort n ("_" +:+ name +:+ n) d c w) ports |}.

(** The [address_channel!] macro. *)
Definition address_channel (name : string) : AxiChannelInfo :=
  channel name
    [("ADDR", DirOutput, WAddress, true); ("BURST", DirOutput, WFixed 2, true);
     ("CACHE", DirOutput, WFixed 4, false); ("ID", DirOutput, WId, true);
     ("LEN", DirOutput, WFixed 8, true); ("LOCK", DirOutput, WFixed 1, false);
     ("PROT", DirOutput, WFixed 3, false); ("QOS", DirOutput, WFixed 4, false);
     ("READY", DirInput, WFixed 1, true); ("SIZE", DirOutput, WFixed 3, true);
     ("VALID", DirOutput, WFixed 1, true)].

Definition M_AXI_CHANNELS : list AxiChannelInfo :=
  [address_channel "AR"; address_channel "AW";
   channel "B" [("ID", DirInput, WId, true); ("READY", DirOutput, WFixed 1, true);
                ("RESP", DirInput, WFixed 2, true); ("VALID", DirInput, WFixed 1, true)];
   channel "R" [("DATA", DirInput, WData, true); ("ID", DirInput, WId, true);
                ("LAST", DirInput, WFixed 1, true); ("READY", DirOutput, WFixed 1, true);
                ("RESP", DirInput, WFixed 2, true); ("VALID", DirInput, WFixed 1, true)];
   channel "W" [("DATA", DirOutput, WData, true); ("LAST", DirOutput, WFixed 1, true);
                ("READY", DirInput, WFixed 1, true); ("STRB", DirOutput, WStrobe, true);
                ("VALID", DirOutput, WFixed 1, true)]].

Definition M_AXI_RECOGNITION_ONLY_SUFFIXES : list string := ["_ARREGION"; "_AWREGION"].

Definition m_axi_channel (name : string) : option AxiChannelInfo :=
  find_first (fun c => bool_decide (axc_name c = name)) M_AXI_CHANNELS.

Definition m_axi_ports : list AxiPort := flat_map axc_ports M_AXI_CHANNELS.
Definition m_axi_compact_ports : list AxiPort := List.filter axp_is_compact m_axi_ports.
Definition m_axi_compact_suffixes : list string := map axp_suffix m_axi_compact_ports.
Definition m_axi_suffixes : list string := map axp_suffix m_axi_ports ++ M_AXI_RECOGNITION_ONLY_SUFFIXES.

Definition m_axi_port_direction (suffix : string) : option PortDir :=
  option_map axp_direction (find_first (fun p => bool_decide (axp_suffix p = suffix)) m_axi_ports).

Definition axi_subport_width (subport : string) (data_width addr_width id_width : Z) : Z :=
  match find_first (fun p => bool_decide (axp_name p = subport)) m_axi_ports with
  | Some p => axi_port_width p data_width addr_width id_width
  | None => 1
  end.

(** [trim_start_matches('_')]. *)
Fixpoint trim_underscores (s : string) : string :=
  match s with
  | String c s' => if Ascii.eqb c "_" then trim_underscores s' else s
  | EmptyString => ""
  end.

Definition or_else {A} (o : option A) (k : option A) : option A := match o with Some _ => o | None => k end.

Definition axi_subport_from_suffix (suffix : string) : string :=
  let s := trim_underscores suffix in
  default s (or_else (Str.strip_prefix "AR" s) (or_else (Str.strip_prefix "AW" s)
    (or_else (Str.strip_prefix "R" s) (or_else (Str.strip_prefix "W" s) (Str.strip_prefix "B" s))))).

(** ** The catalog is a vocabulary

    Suffixes name ports uniquely; a suffix leads back to its sub-port, whose width
    is that of the port. *)

#[export] Instance PortDir_eq : EqDecision PortDir.
Proof. solve_decision. Defined.
#[export] Instance AxiWidth_eq : EqDecision AxiWidth.
Proof. solve_decision. Defined.
#[export] Instance AxiPort_eq : EqDecision AxiPort.
Proof. solve_decision. Defined.

Lemma m_axi_suffixes_nodup : NoDup (map axp_suffix m_axi_ports).
Proof. apply (bool_decide_unpack _). vm_compute. exact I. Qed.

Lemma m_axi_suffix_inj p q : p ∈ m_axi_ports -> q ∈ m_axi_ports -> axp_suffix p = axp_suffix q -> p = q.
Proof.
  intros Hp Hq E.
  apply list_elem_of_lookup in Hp as [i Hi]. apply list_elem_of_lookup in Hq as [j Hj].
  assert (i = j) as ->.
  { eapply (NoDup_lookup _ i j _ m_axi_suffixes_nodup).
    - rewrite list_lookup_fmap, Hi. reflexivity.
    - rewrite list_lookup_fmap, Hj. simpl. by rewrite E. }
  congruence.
Qed.

Lemma find_suffix_sound p : p ∈ m_axi_ports -> find_first (fun q => bool_decide (axp_suffix q = axp_suffix p)) m_axi_ports = Some p.
Proof.
  intros Hp. destruct (find_first _ _) as [q|] eqn:E.
  - apply find_first_Some in E as [Hin Hq]. apply bool_decide_eq_true in Hq. f_equal. by apply m_axi_suffix_inj.
  - apply find_first_None in E. rewrite Forall_forall in E. specialize (E p Hp). by apply bool_decide_eq_false in E.
Qed.

(** Whatever the widths, the sub-port a suffix names has the width of its port. *)
Lemma subport_width_ok p : p ∈ m_axi_ports ->
  forall dw aw iw, axi_subport_width (axi_subport_from_suffix (axp_suffix p)) dw aw iw = axi_port_width p dw aw iw.
Proof.
  assert (H : Forall (fun p => forall dw aw iw, axi_subport_width (axi_subport_from_suffix (axp_suffix p)) dw aw iw = axi_port_width p dw aw iw) m_axi_ports).
  { repeat (apply Forall_cons; split; [intros; reflexivity|]). apply Forall_nil. done. }
  rewrite Forall_forall in H. auto.
Qed.
