(* ===== verification/Ini.v ===== *)
(** * Connectivity configurations

    [tapa-xilinx/src/connectivity.rs]: the line scanner the Vitis and SLASH
    configurations share, memory assignments, and the SLASH clock; and the
    physical port name of [tapa-xilinx/src/platform/kernel_xml.rs]. *)

From S2P Require Import Prelude RustStd BTreeMap Names Connectivity F64Text Protocol.

(** ** Ports *)

Inductive PortCategory := CatScalar | CatMAxi | CatIStream | CatOStream.
#[export] Instance port_category_eq_dec : EqDecision PortCategory.
Proof. solve_decision. Defined.

Record KernelXmlPort := mkXmlPort { xp_name : string; xp_category : PortCategory; xp_width : Z; xp_port : string; xp_ctype : string }.

Definition compiled_m_axi_name (p : KernelXmlPort) : option string :=
  if bool_decide (xp_category p = CatMAxi) then
    let base := if Str.is_empty (xp_port p) then xp_name p else xp_port p in
    Some (M_AXI_PREFIX +:+ sanitize_array_name base)
  else None.

(** ** Lines *)

Inductive ConnectivityParseError :=
| MalformedSection (line : Z) (text : string)
| MalformedEntry (line : Z) (text : string)
| MalformedBinding (line : Z) (value : string)
| MalformedEndpoint (line : Z) (endpoint : string)
| UnknownTarget (line : Z) (target : string)
| ConflictingBinding (line : Z) (endpoint : MemoryEndpoint) (first_line : Z) (first_bank second_bank : MemoryBank).

Definition connectivity_error_str (e : ConnectivityParseError) : string :=
  let at_line (n : Z) (s : string) := "line " +:+ Str.show n +:+ ": " +:+ s in
  match e with
  | MalformedSection n t => at_line n ("malformed section header `" +:+ t +:+ "`")
  | MalformedEntry n t => at_line n ("malformed connectivity entry `" +:+ t +:+ "`; expected `key=value`")
  | MalformedBinding n v => at_line n ("malformed `sp` binding `" +:+ v +:+ "`; expected `kernel.port:HBM[n]` or `kernel.port:DDR[n]`")
  | MalformedEndpoint n p => at_line n ("malformed memory endpoint `" +:+ p +:+ "`; expected `kernel.port`")
  | UnknownTarget n t => at_line n ("unknown memory target `" +:+ t +:+ "`; expected `HBM[n]` or `DDR[n]`")
  | ConflictingBinding n p first b1 b2 =>
      at_line n ("conflicting binding for `" +:+ endpoint_display p +:+ "`: line " +:+ Str.show first +:+ " assigns " +:+ bank_display b1
        +:+ ", but this entry assigns " +:+ bank_display b2)
  end.

Inductive IniLine :=
| IniSection (text : string)
| IniEntry (text key value : string)
| IniMalformed (text : string).

Definition ini_text (l : IniLine) : string := match l with IniSection t | IniEntry t _ _ | IniMalformed t => t end.

(** The line before the first [#] or [;]. *)
Fixpoint strip_comment (line : string) : string :=
  match line with
  | EmptyString => ""
  | String c l => if Ascii.eqb c "#" || Ascii.eqb c ";" then "" else String c (strip_comment l)
  end.

Definition scan_line (x : nat * string) : option (Z * IniLine) :=
  let text := Str.trim (strip_comment x.2) in
  if Str.is_empty text then None else
  let item :=
    if Str.starts_with "[" text then IniSection text
    else match Str.split_once "=" text with
         | Some (key, value) => IniEntry text key value
         | None => IniMalformed text
         end in
  Some (Z.of_nat x.1 + 1, item)%Z.

Definition scan_ini (input : string) : list (Z * IniLine) := omap scan_line (enumerate (Str.lines input)).

(** ** Names *)

Definition is_identifier (s : string) : bool := is_ident s.

(** One [N] after another; every round removes a bracket. *)
Fixpoint index_suffixes (fuel : nat) (saw : bool) (rest : string) : bool :=
  match fuel with
  | O => false
  | S n =>
      match Str.strip_prefix "[" rest with
      | None => saw && Str.is_empty rest
      | Some inner =>
          match Str.split_once "]" inner with
          | Some (digits, after) =>
              if negb (Str.is_empty digits) && Str.all Str.is_digit digits then index_suffixes n true after else false
          | None => false
          end
      end
  end.

Definition is_port_name (value : string) : bool :=
  match Str.split_once "[" value with
  | None => is_identifier value
  | Some (base, after) =>
      if Str.is_empty base || negb (is_identifier base) then false
      else index_suffixes (S (String.length value)) false (String "[" after)
  end.

Section parse.
Local Open Scope Z_scope.

Definition parse_section (line : string) (n : Z) : res ConnectivityParseError string :=
  match (let? l := Str.strip_prefix "[" line in Str.strip_suffix "]" l) with
  | None => Err (MalformedSection n line)
  | Some section =>
      let section := Str.trim section in
      if Str.is_empty section || Str.existsb (fun c => Ascii.eqb c "[" || Ascii.eqb c "]") section then Err (MalformedSection n line)
      else Ok section
  end.

Definition parse_endpoint (value : string) (n : Z) : res ConnectivityParseError MemoryEndpoint :=
  let parts := map Str.trim (Str.split "." value) in
  match parts with
  | [kernel; port] =>
      if is_identifier kernel && is_port_name port then Ok (mkMemEndpoint kernel port) else Err (MalformedEndpoint n value)
  | _ => Err (MalformedEndpoint n value)
  end.

Definition parse_bank (value : string) (n : Z) : res ConnectivityParseError MemoryBank :=
  map_err (fun _ => UnknownTarget n value) (bank_from_str value).

Definition parse_binding (value : string) (n : Z) : res ConnectivityParseError MemoryBinding :=
  match Str.split_once ":" value with
  | None => Err (MalformedBinding n value)
  | Some (endpoint, target) =>
      if Str.contains "]:" target then Err (MalformedBinding n value) else
      let! endpoint := parse_endpoint (Str.trim endpoint) n in
      let! bank := parse_bank (Str.trim target) n in
      Ok (mkMemBinding endpoint bank)
  end.

(** ** Vitis *)

Record VitisState := mkVitis { vt_in : bool; vt_bindings : list MemoryBinding; vt_indices : bmap MemoryEndpoint (nat * Z) }.

Definition add_sp (s : VitisState) (n : Z) (value : string) : res ConnectivityParseError VitisState :=
  let! b := parse_binding (Str.trim value) n in
  match BMap.get (mb_endpoint b) (vt_indices s) with
  | Some (index, first_line) =>
      let! first := expect (vt_bindings s !! index) in
      if negb (bool_decide (mb_bank first = mb_bank b)) then Err (ConflictingBinding n (mb_endpoint b) first_line (mb_bank first) (mb_bank b))
      else Ok s
  | None => Ok (mkVitis (vt_in s) (vt_bindings s ++ [b]) (BMap.insert (mb_endpoint b) (length (vt_bindings s), n) (vt_indices s)))
  end.

Definition is_header (in_connectivity : bool) (item : IniLine) : bool :=
  match item with IniSection _ => true | _ => negb in_connectivity && Str.ends_with "]" (ini_text item) end.

Definition vitis_line (s : VitisState) (x : Z * IniLine) : res ConnectivityParseError VitisState :=
  let '(n, item) := x in
  if is_header (vt_in s) item then
    let! section := parse_section (ini_text item) n in
    Ok (mkVitis (String.eqb section "connectivity") (vt_bindings s) (vt_indices s))
  else if negb (vt_in s) then Ok s
  else match item with
  | IniEntry _ key value => if String.eqb (Str.trim key) "sp" then add_sp s n value else Ok s
  | _ => Err (MalformedEntry n (ini_text item))
  end.

Definition parse_vitis_config (input : string) : res ConnectivityParseError MemoryBindings :=
  let! s := try_fold vitis_line (mkVitis false [] BMap.empty) (scan_ini input) in
  match try_from_bindings (vt_bindings s) with Ok m => Ok m | _ => Panic end.

(** ** SLASH *)

Record SlashConfig := mkSlash { sl_instance : string; sl_entries : list string; sl_clocks : list (list string) }.

Record SlashState := mkSlashState {
  ss_connectivity : bool;
  ss_clock : bool;
  ss_lines : list string;
  ss_clocks : list (list string);
  ss_instance : option string;
  ss_entries : list string;
}.

Definition parse_nk (top : string) (s : SlashState) (value : string) : res string SlashState :=
  let wrong := Err ("expected one SLASH `nk=" +:+ top +:+ ":1:<instance>`") in
  match ss_instance s, Str.split ":" (Str.trim value) with
  | None, [t; count; instance] =>
      if String.eqb t top && String.eqb count "1" && is_identifier instance
      then Ok (mkSlashState (ss_connectivity s) (ss_clock s) (ss_lines s) (ss_clocks s) (Some instance) (ss_entries s))
      else wrong
  | _, _ => wrong
  end.

Definition slash_line (top : string) (s : SlashState) (x : Z * IniLine) : res string SlashState :=
  let text := ini_text x.2 in
  match x.2 with
  | IniSection _ =>
      Ok (mkSlashState (String.eqb text "[connectivity]") (String.eqb (Str.to_ascii_lowercase text) "[clock]")
        (if ss_clock s then [] else ss_lines s) (if ss_clock s then ss_clocks s ++ [ss_lines s] else ss_clocks s) (ss_instance s) (ss_entries s))
  | item =>
      if ss_clock s then Ok (mkSlashState (ss_connectivity s) true (ss_lines s ++ [text]) (ss_clocks s) (ss_instance s) (ss_entries s))
      else if ss_connectivity s then
        match item with
        | IniEntry _ key value =>
            if String.eqb (Str.trim key) "nk" then parse_nk top s value
            else if String.eqb (Str.trim key) "sp" then
              Ok (mkSlashState (ss_connectivity s) (ss_clock s) (ss_lines s) (ss_clocks s) (ss_instance s) (ss_entries s ++ [Str.trim value]))
            else Ok s
        | _ => Err ("invalid SLASH entry `" +:+ text +:+ "`")
        end
      else Ok s
  end.

Definition parse_slash (input top : string) : res string SlashConfig :=
  let! s := try_fold (slash_line top) (mkSlashState false false [] [] None []) (scan_ini input) in
  let clocks := if ss_clock s then ss_clocks s ++ [ss_lines s] else ss_clocks s in
  let! instance := ok_or (ss_instance s) ("missing SLASH `nk=" +:+ top +:+ ":1:<instance>`") in
  Ok (mkSlash instance (ss_entries s) clocks).

Definition LF : string := String "010" "".

(** One line of the normalized configuration. *)
Definition normalize_sp (parsed : SlashConfig) (top : string) (ports : list KernelXmlPort) (text entry : string) : res string string :=
  let! (endpoint, target) := ok_or (Str.split_once ":" entry) ("invalid SLASH sp `" +:+ entry +:+ "`") in
  let! physical := ok_or (Str.strip_prefix (sl_instance parsed +:+ ".") (Str.trim endpoint)) ("unknown kernel instance in `" +:+ entry +:+ "`") in
  let! logical := ok_or (option_map xp_name (find_first (fun p => bool_decide (compiled_m_axi_name p = Some physical)) ports))
    ("SLASH port `" +:+ physical +:+ "` is not a compiled top interface") in
  let! (kind, index) := ok_or
    (match Str.strip_prefix "HBM" (Str.trim target) with
     | Some v => Some ("HBM", v)
     | None => option_map (fun v => ("DDR", v)) (Str.strip_prefix "DDR" (Str.trim target))
     end) ("unsupported SLASH memory `" +:+ target +:+ "`") in
  Ok (text +:+ "sp=" +:+ top +:+ "." +:+ logical +:+ ":" +:+ kind +:+ "[" +:+ index +:+ "]" +:+ LF).

Definition slash_bindings (parsed : SlashConfig) (top : string) (ports : list KernelXmlPort) : res string MemoryBindings :=
  let! normalized := try_fold (normalize_sp parsed top ports) ("[connectivity]" +:+ LF) (sl_entries parsed) in
  map_err connectivity_error_str (parse_vitis_config normalized).

Definition parse_slash_config (input top : string) (ports : list KernelXmlPort) : res string MemoryBindings :=
  let! parsed := parse_slash input top in slash_bindings parsed top ports.

Definition clock_field (acc : option string * option string) (line : string) : res string (option string * option string) :=
  match Str.split_once "=" line with
  | None => Err ("invalid SLASH [clock] entry `" +:+ line +:+ "`")
  | Some (key, value) =>
      let key := Str.to_ascii_lowercase (Str.trim key) in
      Ok (if String.eqb key "krnl" then (Some (Str.trim value), acc.2)
          else if String.eqb key "freqhz" then (acc.1, Some (Str.trim value)) else acc)
  end.

Definition validate_clock_section (kernel frequency : option string) (instance : string) (requested_hz : Z) : res string unit :=
  let! actual_kernel := ok_or kernel "incomplete SLASH [clock]: missing `krnl`" in
  let! f := ok_or frequency "incomplete SLASH [clock]: missing `freqhz`" in
  let! actual_frequency := ok_or (Str.parse_u64 f) "invalid SLASH [clock] `freqhz`" in
  if negb (String.eqb actual_kernel instance) || negb (actual_frequency =? requested_hz) then
    Err ("SLASH [clock] must be `krnl=" +:+ instance +:+ "` and `freqhz=" +:+ Str.show requested_hz +:+ "`, found `krnl=" +:+ actual_kernel
      +:+ "` and `freqhz=" +:+ Str.show actual_frequency +:+ "`")
  else Ok tt.

Definition validate_clock (instance : string) (requested_hz : Z) (section : list string) : res string unit :=
  let! (kernel, frequency) := try_fold clock_field (None, None) section in
  validate_clock_section kernel frequency instance requested_hz.

Definition enforce_slash_clock (input : string) (parsed : SlashConfig) (requested_hz : Z) : res string string :=
  if requested_hz =? 0 then Err "SLASH clock must be positive" else
  let! _ := try_each (validate_clock (sl_instance parsed) requested_hz) (sl_clocks parsed) in
  match sl_clocks parsed with
  | [] =>
      let output := if negb (Str.is_empty input) && negb (Str.ends_with "010" input) then input +:+ LF else input in
      let output := if Str.is_empty output then output else output +:+ LF in
      Ok (output +:+ "[clock]" +:+ LF +:+ "krnl=" +:+ sl_instance parsed +:+ LF +:+ "freqhz=" +:+ Str.show requested_hz +:+ LF)
  | _ => Ok input
  end.

Definition prepare_slash_config (input top : string) (ports : list KernelXmlPort) (requested_hz : Z) : res string (MemoryBindings * string) :=
  let! parsed := parse_slash input top in
  let! bindings := slash_bindings parsed top ports in
  let! config := enforce_slash_clock input parsed requested_hz in
  Ok (bindings, config).
End parse.

(** * What a connectivity configuration means

    The bindings of a Vitis configuration are those of the [sp] entries of its
    connectivity sections, each port once, and two entries that disagree are
    refused; and a SLASH configuration that is prepared is left alone when it is prepared
    again. *)

(** ** Bindings *)

(** The [sp] entries of the connectivity sections, with their lines. *)
Fixpoint sp_entries (inside : bool) (items : list (Z * IniLine)) : list (Z * string) :=
  match items with
  | [] => []
  | (n, item) :: rest =>
      if is_header inside item then
        sp_entries (match parse_section (ini_text item) n with Ok s => String.eqb s "connectivity" | _ => false end) rest
      else match item with
      | IniEntry _ key value => (if inside && String.eqb (Str.trim key) "sp" then [(n, Str.trim value)] else []) ++ sp_entries inside rest
      | _ => sp_entries inside rest
      end
  end.

#[export] Instance memory_endpoint_eq_dec : EqDecision MemoryEndpoint.
Proof. solve_decision. Defined.
#[export] Instance memory_binding_eq_dec : EqDecision MemoryBinding.
Proof. solve_decision. Defined.

(** Each binding at its first occurrence. *)
Definition distinct (bs : list MemoryBinding) : list MemoryBinding :=
  fold_left (fun acc b => if bool_decide (b ∈ acc) then acc else acc ++ [b]) bs [].

Definition declares (e : Z * string) (b : MemoryBinding) : Prop := parse_binding e.2 e.1 = Ok b.

Lemma distinct_snoc bs b : distinct (bs ++ [b]) = if bool_decide (b ∈ distinct bs) then distinct bs else distinct bs ++ [b].
Proof. unfold distinct. by rewrite fold_left_app. Qed.

(** The state of the parser after the entries [es]. *)
Record vitis_ok (es : list (Z * string)) (bs : list MemoryBinding) (s : VitisState) : Prop := {
  vo_declared : Forall2 declares es bs;
  vo_bindings : vt_bindings s = distinct bs;
  vo_endpoints : NoDup (map mb_endpoint (vt_bindings s));
  vo_indices e i n : BMap.get e (vt_indices s) = Some (i, n) ->
    exists b v es1 es2, vt_bindings s !! i = Some b /\ mb_endpoint b = e /\ declares (n, v) b /\ es = es1 ++ (n, v) :: es2 /\
      forall y b', y ∈ es1 -> declares y b' -> mb_endpoint b' <> e;
  vo_indexed b : b ∈ vt_bindings s -> BMap.get (mb_endpoint b) (vt_indices s) <> None;
}.

(** An entry gives its port another bank than the first entry of that port. *)
Definition disagrees (es : list (Z * string)) (n : Z) (v : string) (e : ConnectivityParseError) : Prop :=
  exists p first v1 b1 b2 es1 es2, e = ConflictingBinding n p first b1 b2 /\ b1 <> b2 /\
    declares (first, v1) (mkMemBinding p b1) /\ declares (n, v) (mkMemBinding p b2) /\
    es = es1 ++ (first, v1) :: es2 /\ forall y b, y ∈ es1 -> declares y b -> mb_endpoint b <> p.

(** Whether the items end inside a connectivity section. *)
Fixpoint inside_after (inside : bool) (items : list (Z * IniLine)) : bool :=
  match items with
  | [] => inside
  | (n, item) :: rest =>
      inside_after (if is_header inside item
        then match parse_section (ini_text item) n with Ok s => String.eqb s "connectivity" | _ => false end else inside) rest
  end.

(** Why a line is refused after the entries [es]: it is no section header, no entry,
    no binding, or a binding that disagrees. *)
Definition refused (es : list (Z * string)) (inside : bool) (x : Z * IniLine) (e : ConnectivityParseError) : Prop :=
  if is_header inside x.2 then parse_section (ini_text x.2) x.1 = Err e
  else inside = true /\ match x.2 with
    | IniEntry _ key value => Str.trim key = "sp" /\ (parse_binding (Str.trim value) x.1 = Err e \/ disagrees es x.1 (Str.trim value) e)
    | item => e = MalformedEntry x.1 (ini_text item)
    end.

Lemma vitis_ok_in es bs s inside : vitis_ok es bs s -> vitis_ok es bs (mkVitis inside (vt_bindings s) (vt_indices s)).
Proof. intros []. by split. Qed.

Lemma parse_binding_no_panic v n : parse_binding v n <> Panic.
Proof.
  unfold parse_binding, parse_endpoint, parse_bank. destruct (Str.split_once _ _) as [[a b]|]; [|done].
  destruct (Str.contains _ _); [done|]. destruct (map _ _) as [|x [|y []]]; try done. destruct (_ && _); [|done]. simpl.
  unfold bank_from_str, bank_index_from_str, ok_or. by repeat (case_match; simplify_eq/=).
Qed.

(** The entries declare their bindings. *)
Lemma declared_elem es bs y b : Forall2 declares es bs -> y ∈ es -> declares y b -> b ∈ bs.
Proof.
  intros Hd Hy Hb. apply list_elem_of_lookup in Hy as [k Hk]. destruct (Forall2_lookup_l _ _ _ _ _ Hd Hk) as (b' & Hb' & Hdb).
  unfold declares in *. assert (b' = b) as -> by congruence. by eapply list_elem_of_lookup_2.
Qed.

Lemma elem_of_distinct b bs : b ∈ bs -> b ∈ distinct bs.
Proof.
  induction bs as [|x bs IH] using rev_ind; [done|]. rewrite distinct_snoc. intros [Hin| ->%list_elem_of_singleton]%elem_of_app.
  - case_bool_decide; [by apply IH|apply elem_of_app; left; by apply IH].
  - case_bool_decide; [done|]. apply elem_of_app. right. by left.
Qed.

Lemma add_sp_ok es bs s n v : vitis_ok es bs s ->
  match add_sp s n v with
  | Ok s' => exists b, vitis_ok (es ++ [(n, Str.trim v)]) (bs ++ [b]) s' /\ vt_in s' = vt_in s
  | Err e => parse_binding (Str.trim v) n = Err e \/ disagrees es n (Str.trim v) e
  | Panic => False
  end.
Proof.
  intros [Hd Hb He Hi Hx]. unfold add_sp. destruct (parse_binding (Str.trim v) n) as [b|e|] eqn:Ep; [|by left|by apply parse_binding_no_panic in Ep].
  simpl. assert (Hd' : Forall2 declares (es ++ [(n, Str.trim v)]) (bs ++ [b])) by (apply Forall2_app; [done|by constructor]).
  destruct (BMap.get (mb_endpoint b) (vt_indices s)) as [[i m]|] eqn:Eg.
  - destruct (Hi _ _ _ Eg) as (b0 & v0 & es1 & es2 & Hl & Hep & Hdec & Hes & Hfirst). rewrite Hl. simpl. destruct (bool_decide_reflect (mb_bank b0 = mb_bank b)) as [Hbk|Hbk]; simpl.
    + exists b. split; [|done]. assert (Hbb : b = b0) by (destruct b, b0; simpl in *; congruence). subst b0.
      split; [done| |done| |done].
      * rewrite distinct_snoc, <- Hb. by rewrite bool_decide_eq_true_2 by (eapply list_elem_of_lookup_2; exact Hl).
      * intros e i' n' Hg. destruct (Hi _ _ _ Hg) as (b1 & v1 & l1 & l2 & ? & ? & ? & -> & ?). exists b1, v1, l1, (l2 ++ [(n, Str.trim v)]).
        by rewrite <- app_assoc.
    + right. exists (mb_endpoint b), m, v0, (mb_bank b0), (mb_bank b), es1, es2. split; [done|]. split; [done|]. split_and!; try done.
      * rewrite <- Hep. by destruct b0.
      * by destruct b.
  - exists b. split; [|done]. assert (Hn : b ∉ vt_bindings s) by (intros Hin; by apply Hx in Hin). split; cbn [vt_bindings vt_indices]; [done| | | |].
    + rewrite distinct_snoc, <- Hb. by rewrite bool_decide_eq_false_2.
    + rewrite map_app. apply NoDup_app. split; [done|]. split; [|apply NoDup_singleton]. intros e (b' & -> & Hin)%list_elem_of_fmap He'.
      apply list_elem_of_singleton in He'. apply Hx in Hin. congruence.
    + intros e i m. rewrite BMap.get_insert. destruct (decide _) as [->|Hne]; intros Hg.
      * simplify_eq. exists b, (Str.trim v), es, []. rewrite lookup_app_r, Nat.sub_diag by done. split_and!; try done.
        intros y b' Hy Hdy He'. assert (Hin : b' ∈ vt_bindings s) by (rewrite Hb; by eapply elem_of_distinct, declared_elem).
        apply Hx in Hin. congruence.
      * destruct (Hi _ _ _ Hg) as (b1 & v1 & l1 & l2 & H1 & ? & ? & -> & ?). exists b1, v1, l1, (l2 ++ [(n, Str.trim v)]).
        split; [by apply lookup_app_l_Some|]. by rewrite <- app_assoc.
    + intros b' [Hin| ->%list_elem_of_singleton]%elem_of_app; [|by rewrite BMap.get_insert_eq]. rewrite BMap.get_insert. destruct (decide _); [done|by apply Hx].
Qed.

Lemma parse_section_no_panic t n : parse_section t n <> Panic.
Proof. unfold parse_section. by repeat case_match. Qed.

(** One line: it is read, or refused. *)
Lemma vitis_line_ok es bs s x : vitis_ok es bs s ->
  match vitis_line s x with
  | Ok s' => exists bs', vitis_ok (es ++ sp_entries (vt_in s) [x]) bs' s' /\ vt_in s' = inside_after (vt_in s) [x]
  | Err e => refused es (vt_in s) x e
  | Panic => False
  end.
Proof.
  intros Hs. destruct x as [n item]. unfold vitis_line, refused. cbn [sp_entries inside_after fst snd]. destruct (is_header (vt_in s) item) eqn:Eh.
  - pose proof (parse_section_no_panic (ini_text item) n) as Hp. destruct (parse_section (ini_text item) n) as [sec|e|]; simpl; [|done|done].
    exists bs. split; [|done]. rewrite List.app_nil_r. by apply vitis_ok_in.
  - destruct (vt_in s) eqn:Ei; cbn [negb andb].
    + destruct item as [t|t key value|t]; [done| |done]. rewrite List.app_nil_r. destruct (String.eqb_spec (Str.trim key) "sp") as [Hk|Hk].
      * pose proof (add_sp_ok es bs s n value Hs) as Ha. destruct (add_sp s n value) as [s'|e|]; [|by repeat split|done].
        destruct Ha as (b & Ha & Hin). exists (bs ++ [b]). by rewrite Hin.
      * exists bs. by rewrite List.app_nil_r.
    + exists bs. destruct item; by rewrite List.app_nil_r.
Qed.

Lemma sp_entries_cons inside x items : sp_entries inside (x :: items) = sp_entries inside [x] ++ sp_entries (inside_after inside [x]) items.
Proof.
  destruct x as [n item]. cbn [sp_entries inside_after]. destruct (is_header inside item); [done|]. destruct item; [done| |done]. by rewrite List.app_nil_r.
Qed.

Lemma vitis_fold items es bs s : vitis_ok es bs s ->
  match try_fold vitis_line s items with
  | Ok s' => exists bs', vitis_ok (es ++ sp_entries (vt_in s) items) bs' s'
  | Err e => exists before x after bs', items = before ++ x :: after /\ Forall2 declares (es ++ sp_entries (vt_in s) before) bs' /\
      NoDup (map mb_endpoint (distinct bs')) /\ refused (es ++ sp_entries (vt_in s) before) (inside_after (vt_in s) before) x e
  | Panic => False
  end.
Proof.
  revert es bs s. induction items as [|x items IH]; intros es bs s Hs; [exists bs; by rewrite List.app_nil_r|].
  cbn [try_fold]. rewrite sp_entries_cons. pose proof (vitis_line_ok es bs s x Hs) as Hx. destruct (vitis_line s x) as [s'|e|]; cbn [rbind]; [| |done].
  - destruct Hx as (bs1 & Hs1 & Hin). specialize (IH _ _ _ Hs1). rewrite Hin, <- app_assoc in IH. destruct (try_fold vitis_line s' items) as [s2|e|]; [done| |done].
    destruct IH as (before & y & after & bs2 & -> & H1 & H2 & H3). exists (x :: before), y, after, bs2. rewrite sp_entries_cons.
    rewrite <- app_assoc in H1, H3. split; [done|]. split; [exact H1|]. split; [exact H2|]. destruct x as [n item]. exact H3.
  - exists [], x, items, bs. cbn [sp_entries inside_after]. rewrite List.app_nil_r. split; [done|]. destruct Hs as [Hd Hb He _ _]. rewrite Hb in He. done.
Qed.

Lemma vitis_init : vitis_ok [] [] (mkVitis false [] BMap.empty).
Proof. split; [constructor|done|apply NoDup_nil_2|done|]. intros b H. by apply not_elem_of_nil in H. Qed.

(** What is read of any text. *)
Lemma parse_vitis_spec input : let entries := sp_entries false (scan_ini input) in
  match parse_vitis_config input with
  | Ok m => exists bs, Forall2 declares entries bs /\ bindings_list m = distinct bs /\ NoDup (map mb_endpoint (bindings_list m))
  | Err e => exists before x after bs, scan_ini input = before ++ x :: after /\ Forall2 declares (sp_entries false before) bs /\
      NoDup (map mb_endpoint (distinct bs)) /\ refused (sp_entries false before) (inside_after false before) x e
  | Panic => False
  end.
Proof.
  cbv zeta. unfold parse_vitis_config. pose proof (vitis_fold (scan_ini input) _ _ _ vitis_init) as Hf. destruct (try_fold vitis_line _ _) as [s|e|]; simpl; [|exact Hf|done].
  destruct Hf as (bs & [Hd Hb He _ _]). unfold try_from_bindings. rewrite (proj2 (check_unique_ok BMap.empty (vt_bindings s))) by (by split).
  simpl. by exists bs.
Qed.

(** ** Text *)

(** A line without its number. *)
Definition scan_text (raw : string) : option IniLine := option_map snd (scan_line (O, raw)).

Lemma scan_line_text x : option_map snd (scan_line x) = scan_text x.2.
Proof. unfold scan_text, scan_line. cbn [snd]. by destruct (Str.is_empty _). Qed.

Lemma texts_lines (l : list string) k : map snd (omap scan_line (zip (seq k (length l)) l)) = omap scan_text l.
Proof.
  revert k. induction l as [|raw l IH]; intros k; [done|]. cbn. pose proof (scan_line_text (k, raw)) as Ht. cbn in Ht. rewrite <- Ht.
  destruct (scan_line (k, raw)) as [x|]; simpl; [f_equal|]; apply IH.
Qed.

Lemma scan_ini_texts input : map snd (scan_ini input) = omap scan_text (Str.lines input).
Proof. apply texts_lines. Qed.

(** *** Trimming *)

Definition CR : ascii := "013".

(** A pattern is a carriage return, or has none. *)
Definition cr_pattern (p : string) : bool :=
  match p with String c "" => true | _ => Str.all (fun c => negb (Ascii.eqb c CR)) p && negb (Str.is_empty p) end.

Lemma strip_prefix_cr p s : Str.all (fun c => negb (Ascii.eqb c CR)) p = true ->
  Str.strip_prefix p (s +:+ String CR "") = option_map (fun r => r +:+ String CR "") (Str.strip_prefix p s).
Proof.
  revert s. induction p as [|c p IH]; intros s Hp; [done|]. simpl in Hp. bool_hyps. destruct s as [|d s]; simpl.
  - by destruct (Ascii.eqb_spec c CR).
  - destruct (Ascii.eqb c d); [by apply IH|done].
Qed.

Lemma strip_any_cr ps c s : forallb cr_pattern ps = true ->
  Str.strip_any ps (String c s +:+ String CR "") = option_map (fun r => r +:+ String CR "") (Str.strip_any ps (String c s)).
Proof.
  induction ps as [|p ps IH]; intros Hp; [done|]. cbn [forallb] in Hp. bool_hyps. cbn [Str.strip_any].
  assert (Hs : Str.strip_prefix p (String c s +:+ String CR "") = option_map (fun r => r +:+ String CR "") (Str.strip_prefix p (String c s))).
  { destruct p as [|d [|d' p]]; [done| |unfold cr_pattern in *; bool_hyps; by apply strip_prefix_cr]. simpl. by destruct (Ascii.eqb d c). }
  rewrite Hs. destruct (Str.strip_prefix p (String c s)); simpl; [done|by apply IH].
Qed.

Lemma strip_any_shorter ps s r : forallb cr_pattern ps = true -> Str.strip_any ps s = Some r -> (String.length r < String.length s)%nat.
Proof.
  induction ps as [|p ps IH]; intros Hp; [done|]. cbn [forallb] in Hp. bool_hyps. cbn [Str.strip_any].
  destruct (Str.strip_prefix p s) eqn:E; [|by apply IH]. intros [= ->]. apply Str.strip_prefix_Some in E as ->. rewrite Str.length_app.
  destruct p; [done|simpl; lia].
Qed.

Lemma trim_with_nil fuel ps : forallb cr_pattern ps = true -> Str.trim_with fuel ps "" = "".
Proof.
  intros Hp. destruct fuel as [|n]; [done|]. cbn [Str.trim_with]. destruct (Str.strip_any ps "") eqn:E; [|done].
  apply strip_any_shorter in E; [simpl in E; lia|done].
Qed.

Lemma trim_with_cr n ps s : forallb cr_pattern ps = true -> Str.strip_any ps (String CR "") = Some "" -> (String.length s <= n)%nat ->
  Str.trim_with (S n) ps (s +:+ String CR "") =
  (if Str.is_empty (Str.trim_with n ps s) then "" else Str.trim_with n ps s +:+ String CR "").
Proof.
  intros Hp Hcr Hn. assert (Hnil : forall n, Str.trim_with (S n) ps (String CR "") = "").
  { intros m. cbn [Str.trim_with]. rewrite Hcr. by apply trim_with_nil. }
  destruct s as [|c s]; [rewrite trim_with_nil by done; apply Hnil|].
  revert c s Hn. induction n as [|n IH]; intros c s Hn; [simpl in Hn; lia|].
  change (Str.trim_with (S (S n)) ps ?x) with (match Str.strip_any ps x with Some r => Str.trim_with (S n) ps r | None => x end).
  change (Str.trim_with (S n) ps (String c s)) with (match Str.strip_any ps (String c s) with Some r => Str.trim_with n ps r | None => String c s end).
  rewrite strip_any_cr by done. destruct (Str.strip_any ps (String c s)) as [r|] eqn:E; cbn [option_map]; [|done].
  apply strip_any_shorter in E; [|done]. destruct r as [|d r]; [|apply IH; lia].
  rewrite trim_with_nil by done. apply Hnil.
Qed.

Lemma trim_cr s : Str.trim (s +:+ String CR "") = Str.trim s.
Proof.
  unfold Str.trim. rewrite Str.length_app, Nat.add_comm. change (String.length (String CR "") + ?n)%nat with (S n).
  rewrite trim_with_cr by (done || reflexivity). set (front := Str.trim_with (String.length s) Str.whitespace s). clearbody front.
  destruct front as [|c front]; [done|]. cbn [Str.is_empty]. rewrite rev_app, Str.length_app, Nat.add_comm. done.
Qed.

Lemma strip_comment_cr s : Str.trim (strip_comment (s +:+ String CR "")) = Str.trim (strip_comment s).
Proof.
  assert (H : strip_comment (s +:+ String CR "") = strip_comment s \/ strip_comment (s +:+ String CR "") = strip_comment s +:+ String CR "").
  { induction s as [|c s IH]; [by right|]. simpl. destruct (_ || _); [by left|]. destruct IH as [-> | ->]; [by left|by right]. }
  destruct H as [-> | ->]; [done|apply trim_cr].
Qed.

Lemma scan_strip_cr raw : scan_text (Str.strip_cr raw) = scan_text raw.
Proof.
  unfold Str.strip_cr. destruct (Str.strip_suffix "013" raw) as [l|] eqn:E; [|done]. apply Str.strip_suffix_Some in E as ->.
  unfold scan_text, scan_line. cbn [snd]. change "013"%char with CR. by rewrite strip_comment_cr.
Qed.

(** *** Lines *)

Lemma lines_split cur a b : Str.lines_from cur (a +:+ String "010" b) = Str.lines_from cur (a +:+ LF) ++ Str.lines b.
Proof.
  revert cur. induction a as [|c a IH]; intros cur; simpl; [done|]. destruct (Ascii.eqb c "010"); [simpl; f_equal|]; apply IH.
Qed.

Lemma scan_newline cur a : omap scan_text (Str.lines_from cur (a +:+ LF)) = omap scan_text (Str.lines_from cur a).
Proof.
  revert cur. induction a as [|c a IH]; intros cur.
  - cbn. rewrite scan_strip_cr. by destruct cur.
  - simpl. destruct (Ascii.eqb c "010"); [cbn [omap list_omap]; by rewrite IH|apply IH].
Qed.

(** What is appended on a new line is read after the rest. *)
Lemma scan_append a b : omap scan_text (Str.lines (a +:+ LF +:+ b)) = omap scan_text (Str.lines a) ++ omap scan_text (Str.lines b).
Proof. unfold Str.lines at 1. change (LF +:+ b) with (String "010" b). rewrite lines_split, omap_app. by rewrite scan_newline. Qed.

(** ** The clock section *)

Lemma strip_comment_plain s : Str.all plain s = true -> strip_comment s = s.
Proof.
  induction s as [|c s IH]; intros Hs; [done|]. simpl in Hs. bool_hyps. cbn [strip_comment]. rewrite IH by done.
  destruct (Ascii.eqb_spec c "#"); [by subst|]. by destruct (Ascii.eqb_spec c ";"); [subst|].
Qed.

Lemma lines_plain s rest cur : Str.all plain s = true -> Str.all plain cur = true -> cur +:+ s <> "" ->
  Str.lines_from cur (s +:+ LF +:+ rest) = (cur +:+ s) :: Str.lines rest.
Proof.
  revert cur. induction s as [|c s IH]; intros cur Hs Hc Hne.
  - simpl. rewrite Str.app_nil_r in *. f_equal. unfold Str.strip_cr. destruct (Str.strip_suffix "013" cur) as [l|] eqn:E; [|done].
    apply Str.strip_suffix_Some in E as ->. rewrite Str.all_app in Hc. simpl in Hc. by rewrite andb_false_r in Hc.
  - simpl in Hs. bool_hyps. cbn [String.append Str.lines_from]. destruct (Ascii.eqb_spec c "010"); [by subst|].
    rewrite IH; [by rewrite Str.app_assoc|done| |by rewrite Str.app_assoc]. rewrite Str.all_app, Hc. simpl. match goal with H : plain c = true |- _ => by rewrite H end.
Qed.

Lemma ident_word s : is_ident s = true -> Str.all is_word s = true /\ s <> "".
Proof.
  destruct s as [|c s]; [done|]. simpl. intros H. bool_hyps. split; [|done]. match goal with H : Str.all is_word s = true |- _ => rewrite H end.
  rewrite andb_true_r. unfold is_word, Str.is_alnum. unfold is_ident_start in *. by destruct (Str.is_alpha c), (Str.is_digit c), (Ascii.eqb c "_").
Qed.

Definition clock_section (instance : string) (hz : Z) : string :=
  "[clock]" +:+ LF +:+ "krnl=" +:+ instance +:+ LF +:+ "freqhz=" +:+ Str.show hz +:+ LF.

Definition clock_items (instance : string) (hz : Z) : list IniLine :=
  [IniSection "[clock]"; IniEntry ("krnl=" +:+ instance) "krnl" instance; IniEntry ("freqhz=" +:+ Str.show hz) "freqhz" (Str.show hz)].

Lemma scan_plain_entry key value : Str.all plain (key +:+ "=" +:+ value) = true -> Str.starts_with "[" (key +:+ "=" +:+ value) = false ->
  Str.split_once "=" (key +:+ "=" +:+ value) = Some (key, value) ->
  scan_text (key +:+ "=" +:+ value) = Some (IniEntry (key +:+ "=" +:+ value) key value).
Proof.
  intros Hp Hb Hs. unfold scan_text, scan_line. cbn [snd]. rewrite strip_comment_plain, trim_plain by done. rewrite Hb, Hs.
  by destruct (key +:+ "=" +:+ value).
Qed.

Lemma scan_clock_section instance hz : is_ident instance = true -> (0 <= hz)%Z -> omap scan_text (Str.lines (clock_section instance hz)) = clock_items instance hz.
Proof.
  intros Hi Hz. apply ident_word in Hi as [Hi _]. pose proof (plain_word _ Hi) as Hpi. pose proof (plain_digits _ (Str.show_digits hz Hz)) as Hph.
  unfold clock_section, Str.lines. change ("[clock]" +:+ LF +:+ ?x) with ("[clock]" +:+ String "010" x). rewrite lines_split, omap_app.
  change (omap scan_text (Str.lines_from "" ("[clock]" +:+ LF))) with [IniSection "[clock]"]. unfold Str.lines.
  replace ("krnl=" +:+ instance +:+ LF +:+ "freqhz=" +:+ Str.show hz +:+ LF) with (("krnl" +:+ "=" +:+ instance) +:+ LF +:+ ("freqhz" +:+ "=" +:+ Str.show hz) +:+ LF +:+ "")
    by (rewrite Str.app_nil_r; by rewrite !Str.app_assoc).
  rewrite lines_plain by done. unfold Str.lines. rewrite lines_plain by done. change ("" +:+ ?x) with x.
  cbn [omap list_omap Str.lines Str.lines_from Str.is_empty]. by rewrite !scan_plain_entry.
Qed.

(** ** Preparing a SLASH configuration *)

(** Lines are numbered only for the errors of the Vitis parser. *)
Lemma slash_fold_texts top items s :
  try_fold (slash_line top) s items = try_fold (fun s item => slash_line top s (0%Z, item)) s (map snd items).
Proof.
  revert s. induction items as [|[n item] items IH]; intros s; [done|]. cbn [try_fold map snd].
  change (slash_line top s (0%Z, item)) with (slash_line top s (n, item)). destruct (slash_line top s (n, item)); simpl; [apply IH|done|done].
Qed.

Definition slash_init : SlashState := mkSlashState false false [] [] None [].

(** Outside a clock section no line is kept, and the instance is an identifier. *)
Record slash_ok (s : SlashState) : Prop := {
  so_lines : ss_clock s = false -> ss_lines s = [];
  so_instance i : ss_instance s = Some i -> is_ident i = true;
}.

Lemma slash_line_ok top s x s' : slash_ok s -> slash_line top s x = Ok s' -> slash_ok s'.
Proof.
  intros [Hl Hi] H. destruct x as [n item]. unfold slash_line in H. cbn [snd] in H. destruct item as [t|t key value|t].
  - injection H as <-. split; [|exact Hi]. cbn. intros _. destruct (ss_clock s); [done|by apply Hl].
  - destruct (ss_clock s) eqn:Ec; [injection H as <-; by split|]. destruct (ss_connectivity s); [|injection H as <-; by split; [rewrite Ec|]].
    destruct (String.eqb _ "nk").
    + unfold parse_nk in H. destruct (ss_instance s); [done|]. destruct (Str.split _ _) as [|a [|b [|c []]]]; try done.
      destruct (String.eqb a top && String.eqb b "1" && is_identifier c) eqn:Eg; [|done]. bool_hyps. injection H as <-. cbn. rewrite Ec. split; [done|]. by intros ? [= <-].
    + destruct (String.eqb _ "sp"); injection H as <-; cbn; rewrite ?Ec; by split; rewrite ?Ec.
  - destruct (ss_clock s) eqn:Ec; [injection H as <-; by split|]. destruct (ss_connectivity s); [done|injection H as <-; by split; [rewrite Ec|]].
Qed.

Lemma slash_fold_ok top items s : try_fold (slash_line top) slash_init items = Ok s -> slash_ok s.
Proof. intros Hs. refine (try_fold_inv slash_ok _ _ _ _ _ _ Hs); [|by split]. intros. by eapply slash_line_ok. Qed.

Lemma parse_slash_instance input top parsed : parse_slash input top = Ok parsed -> is_ident (sl_instance parsed) = true.
Proof.
  unfold parse_slash. intros (s & Hs%slash_fold_ok & (i & Hi%ok_or_ok & [= <-])%rbind_ok)%rbind_ok. by apply (so_instance s Hs).
Qed.

(** A configuration without a clock, and the same with the clock section. *)
Lemma parse_slash_clock input output top parsed hz : parse_slash input top = Ok parsed -> sl_clocks parsed = [] ->
  omap scan_text (Str.lines output) = omap scan_text (Str.lines input) ++ clock_items (sl_instance parsed) hz ->
  parse_slash output top = Ok (mkSlash (sl_instance parsed) (sl_entries parsed) [["krnl=" +:+ sl_instance parsed; "freqhz=" +:+ Str.show hz]]).
Proof.
  unfold parse_slash. intros (s & Hs & Hp)%rbind_ok Hc Ho. pose proof (slash_fold_ok _ _ _ Hs) as Hok. revert Hs.
  rewrite !slash_fold_texts, !scan_ini_texts, Ho, try_fold_app. intros ->. cbn [rbind].
  apply rbind_ok in Hp as (instance & Hi%ok_or_ok & [= <-]). cbn [sl_clocks sl_instance sl_entries] in *.
  destruct (ss_clock s) eqn:Ec; [by destruct (ss_clocks s)|]. pose proof (so_lines s Hok Ec) as Hl.
  unfold clock_items. cbn [try_fold]. unfold slash_line. cbn [snd ini_text ss_clock ss_connectivity ss_lines ss_clocks ss_instance ss_entries rbind].
  change (String.eqb (Str.to_ascii_lowercase "[clock]") "[clock]") with true. rewrite Ec, Hl, Hc. cbn [rbind ss_clock ss_connectivity ss_lines ss_clocks ss_instance ss_entries app].
  by rewrite Hi.
Qed.

Lemma enforce_clock_items input parsed hz config : enforce_slash_clock input parsed hz = Ok config ->
  hz <> 0%Z /\ (config = input /\ sl_clocks parsed <> [] \/
    sl_clocks parsed = [] /\ omap scan_text (Str.lines config) = omap scan_text (Str.lines input) ++ omap scan_text (Str.lines (clock_section (sl_instance parsed) hz))).
Proof.
  unfold enforce_slash_clock. destruct (Z.eqb_spec hz 0) as [|Hz]; [done|]. intros (_ & _ & H)%rbind_ok. split; [done|].
  destruct (sl_clocks parsed); [right|left; by injection H as <-]. split; [done|].
  change ("[clock]" +:+ LF +:+ "krnl=" +:+ ?x) with ("[clock]" +:+ LF +:+ "krnl=" +:+ x) in H. fold (clock_section (sl_instance parsed) hz) in H.
  injection H as <-. generalize (clock_section (sl_instance parsed) hz). intros section.
  destruct (negb (Str.is_empty input) && negb (Str.ends_with "010" input)).
  - destruct (Str.is_empty (input +:+ LF)) eqn:E; [by destruct input|]. rewrite !Str.app_assoc. rewrite scan_append. done.
  - destruct input as [|c input]; [done|]. cbn [Str.is_empty]. rewrite Str.app_assoc. apply scan_append.
Qed.

Lemma validate_clock_section_items instance hz : is_ident instance = true -> in_u64 hz ->
  validate_clock instance hz ["krnl=" +:+ instance; "freqhz=" +:+ Str.show hz] = Ok tt.
Proof.
  intros Hi Hz. apply ident_word in Hi as [Hi%plain_word _]. unfold validate_clock. cbn [try_fold]. unfold clock_field.
  change (Str.split_once "=" ("krnl=" +:+ instance)) with (Some ("krnl", instance)). change (Str.split_once "=" ("freqhz=" +:+ Str.show hz)) with (Some ("freqhz", Str.show hz)).
  cbv iota beta. change (Str.to_ascii_lowercase (Str.trim "krnl")) with "krnl". change (Str.to_ascii_lowercase (Str.trim "freqhz")) with "freqhz".
  cbn [String.eqb Ascii.eqb Bool.eqb rbind fst snd]. rewrite !trim_plain by (done || by apply plain_digits, Str.show_digits, Hz).
  unfold validate_clock_section, Str.parse_u64. cbn [ok_or rbind]. rewrite Str.parse_show by exact Hz. cbn [ok_or rbind].
  by rewrite String.eqb_refl, Z.eqb_refl.
Qed.

(** Preparing is idempotent: a SLASH configuration that was accepted, with the
    clock section added when there was none, is accepted again for the same
    clock, with the same memory bindings, and left as it is. *)
Theorem prepare_idempotent input top ports hz bindings config : in_u64 hz ->
  prepare_slash_config input top ports hz = Ok (bindings, config) -> prepare_slash_config config top ports hz = Ok (bindings, config).
Proof.
  intros Hz H. unfold prepare_slash_config in H. apply rbind_ok in H as (parsed & Hp & H). apply rbind_ok in H as (b & Hb & H).
  apply rbind_ok in H as (c & Hc & [= <- <-]). pose proof (enforce_clock_items _ _ _ _ Hc) as [Hz0 [[-> _]|[Hn Hi]]].
  { unfold prepare_slash_config. rewrite Hp. cbn [rbind]. rewrite Hb. cbn [rbind]. by rewrite Hc. }
  pose proof (parse_slash_instance _ _ _ Hp) as Hident. rewrite scan_clock_section in Hi by (done || apply Hz).
  unfold prepare_slash_config. rewrite (parse_slash_clock input c top parsed hz Hp Hn Hi). cbn [rbind].
  change (slash_bindings (mkSlash _ _ _) top ports) with (slash_bindings parsed top ports). rewrite Hb. cbn [rbind].
  unfold enforce_slash_clock. apply Z.eqb_neq in Hz0 as ->. cbn [sl_clocks sl_instance try_each]. by rewrite validate_clock_section_items.
Qed.

(** ** The layout of a configuration

    A file as it is written: lines of a section header, an [sp] entry, another entry or
    nothing, with blanks around and a comment after. *)

Inductive ConfText :=
| CtBlank
| CtSection (name : string)
| CtBank (b : MemoryBinding)
| CtOther (key value : string).

Record ConfLine := mkConfLine { cl_before : nat; cl_text : ConfText; cl_after : nat; cl_comment : option (ascii * string) }.

Fixpoint blanks (n : nat) : string := match n with O => "" | S n => String " " (blanks n) end.

Definition binding_text (b : MemoryBinding) : string :=
  me_kernel (mb_endpoint b) +:+ "." +:+ me_port (mb_endpoint b) +:+ ":" +:+ bank_display (mb_bank b).

Definition conf_text (t : ConfText) : string :=
  match t with
  | CtBlank => ""
  | CtSection name => "[" +:+ name +:+ "]"
  | CtBank b => "sp=" +:+ binding_text b
  | CtOther key value => key +:+ "=" +:+ value
  end.

Definition conf_comment (c : option (ascii * string)) : string := match c with Some (c, text) => String c text | None => "" end.

Definition conf_line (l : ConfLine) : string := blanks (cl_before l) +:+ conf_text (cl_text l) +:+ blanks (cl_after l) +:+ conf_comment (cl_comment l).

Definition conf_file (ls : list ConfLine) : string := fold_right (fun l s => conf_line l +:+ String "010" s) "" ls.

(** A visible ASCII character that does not start a comment. *)
Definition visible (c : ascii) : bool := (33 <=? Str.code c)%Z && (Str.code c <=? 126)%Z && negb (Ascii.eqb c "#" || Ascii.eqb c ";").

(** A port: a name, indexed when it is an element of an array. *)
Definition indexed (base : string) (indices : list Z) : string := base +:+ fold_right (fun i s => "[" +:+ Str.show i +:+ "]" +:+ s) "" indices.

Definition conf_text_ok (t : ConfText) : Prop :=
  match t with
  | CtBlank => True
  | CtSection name => name <> "" /\ Str.all (fun c => visible c && negb (Ascii.eqb c "[" || Ascii.eqb c "]")) name = true
  | CtBank b => is_ident (me_kernel (mb_endpoint b)) = true /\ in_u32 (bank_index (mb_bank b)) /\
      exists base indices, me_port (mb_endpoint b) = indexed base indices /\ is_ident base = true /\ Forall (fun i => 0 <= i)%Z indices
  | CtOther key value => key <> "sp" /\ Str.all (fun c => visible c && negb (Ascii.eqb "=" c)) key = true /\ Str.all visible value = true /\
      Str.starts_with "[" (key +:+ "=" +:+ value) = false /\ Str.ends_with "]" (key +:+ "=" +:+ value) = false
  end.

Definition in_line (c : ascii) : bool := negb (Ascii.eqb c "010") && negb (Ascii.eqb c CR).

Definition conf_line_ok (l : ConfLine) : Prop :=
  conf_text_ok (cl_text l) /\
  match cl_comment l with Some (c, text) => (c = "#"%char \/ c = ";"%char) /\ Str.all in_line text = true | None => True end.

(** *** What a file binds

    The bindings with the lines of their first entries, or the first entry that cannot
    stand: one that gives a port another bank, or one outside the connectivity section,
    which is taken for a section header. *)
Fixpoint conf_bindings (inside : bool) (n : Z) (seen : list (Z * MemoryBinding)) (ls : list ConfLine) : res ConnectivityParseError (list MemoryBinding) :=
  match ls with
  | [] => Ok (map snd seen)
  | l :: ls =>
      match cl_text l with
      | CtBank b =>
          if inside then
            match find_first (fun x => bool_decide (mb_endpoint x.2 = mb_endpoint b)) seen with
            | Some (m, first) =>
                if bool_decide (mb_bank first = mb_bank b) then conf_bindings inside (n + 1)%Z seen ls
                else Err (ConflictingBinding n (mb_endpoint b) m (mb_bank first) (mb_bank b))
            | None => conf_bindings inside (n + 1)%Z (seen ++ [(n, b)]) ls
            end
          else Err (MalformedSection n (conf_text (cl_text l)))
      | CtSection name => conf_bindings (String.eqb name "connectivity") (n + 1)%Z seen ls
      | CtBlank | CtOther _ _ => conf_bindings inside (n + 1)%Z seen ls
      end
  end.

(** *** Reading the layout *)

Lemma visible_not_space t c : visible c = true -> (Str.code t < 33)%Z \/ (126 < Str.code t)%Z -> t <> c.
Proof. unfold visible. intros Hc Ht ->. bool_hyps. lia. Qed.

Lemma strip_visible ps c s : forallb (fun w => match w with String d _ => (Str.code d <? 33)%Z || (126 <? Str.code d)%Z | _ => false end) ps = true ->
  visible c = true -> Str.strip_any ps (String c s) = None.
Proof.
  intros Hps Hc. apply strip_any_none, List.Forall_forall. intros w Hw. rewrite forallb_forall in Hps. specialize (Hps w Hw).
  destruct w as [|d r]; [done|]. exists d, r. split; [done|]. apply visible_not_space; [done|]. lia.
Qed.

Lemma trim_blanks ps t n : (forall s, Str.strip_any ps (String " " s) = Some s) -> Str.strip_any ps "" = None ->
  forallb (fun w => match w with String d _ => (Str.code d <? 33)%Z || (126 <? Str.code d)%Z | _ => false end) ps = true ->
  Str.all visible t = true -> forall k rest, (k <= n)%nat -> (t = "" -> rest = "") -> Str.trim_with n ps (blanks k +:+ t +:+ rest) = t +:+ rest.
Proof.
  intros Hs H0 Hps Ht k. revert n. induction k as [|k IH]; intros n rest Hk Hr.
  - destruct n as [|n]; [done|]. cbn [blanks String.append Str.trim_with]. destruct t as [|c t]; [rewrite (Hr eq_refl); cbn [String.append]; by rewrite H0|].
    cbn [Str.all] in Ht. bool_hyps. cbn [String.append]. by rewrite strip_visible.
  - destruct n as [|n]; [lia|]. cbn [blanks String.append Str.trim_with]. rewrite Hs. apply IH; [lia|done].
Qed.

Lemma rev_blanks n : Str.rev (blanks n) = blanks n.
Proof.
  induction n as [|n IH]; [done|]. cbn [blanks]. rewrite rev_cons, IH. clear IH. induction n as [|n IH]; [done|]. cbn [blanks String.append]. by f_equal.
Qed.

Lemma trim_visible a t b : Str.all visible t = true -> Str.trim (blanks a +:+ t +:+ blanks b) = t.
Proof.
  intros Ht. unfold Str.trim. assert (Hlen : forall n, String.length (blanks n) = n) by (intros n; induction n; cbn; congruence).
  destruct (decide (t = "")) as [->|Hne].
  - cbn [String.append]. assert (Hab : blanks a +:+ blanks b = blanks (a + b)) by (clear; induction a; cbn; congruence). rewrite Hab.
    pose proof (trim_blanks Str.whitespace "" (String.length (blanks (a + b))) ltac:(reflexivity) ltac:(reflexivity) ltac:(vm_compute; reflexivity) eq_refl (a + b)%nat "") as Hf.
    cbn [String.append] in Hf. rewrite Str.app_nil_r in Hf. rewrite Hf; [done|by rewrite Hlen|done].
  - rewrite (trim_blanks Str.whitespace t _) by (reflexivity || (vm_compute; reflexivity) || done || (rewrite !Str.length_app, Hlen; lia)).
    rewrite rev_app, rev_blanks, Str.length_app, Hlen.
    replace (blanks b +:+ Str.rev t) with (blanks b +:+ Str.rev t +:+ "") by by rewrite Str.app_nil_r.
    rewrite (trim_blanks (map Str.rev Str.whitespace)) by (reflexivity || (vm_compute; reflexivity) || done || lia || by rewrite all_rev).
    rewrite Str.app_nil_r. apply rev_rev.
Qed.

Lemma trim_all_visible t : Str.all visible t = true -> Str.trim t = t.
Proof. intros Ht. pose proof (trim_visible 0 t 0 Ht) as H. cbn in H. by rewrite Str.app_nil_r in H. Qed.

Lemma strip_comment_line s c : Str.all (fun d => negb (Ascii.eqb d "#" || Ascii.eqb d ";")) s = true ->
  match c with Some (d, _) => d = "#"%char \/ d = ";"%char | None => True end -> strip_comment (s +:+ conf_comment c) = s.
Proof.
  intros Hs Hc. induction s as [|d s IH]; cbn [String.append].
  - destruct c as [[d text]|]; [|done]. cbn. by destruct Hc as [-> | ->].
  - cbn [Str.all] in Hs. apply andb_true_iff in Hs as [H1 H2]. cbn [strip_comment]. apply negb_true_iff in H1. by rewrite H1, IH.
Qed.

Lemma all_blanks p n : p " "%char = true -> Str.all p (blanks n) = true.
Proof. intros Hp. induction n as [|n IH]; [done|]. cbn. by rewrite Hp. Qed.

Lemma lines_in_line cur s rest : Str.all in_line s = true -> Str.all in_line cur = true -> Str.lines_from cur (s +:+ String "010" rest) = (cur +:+ s) :: Str.lines rest.
Proof.
  revert cur. induction s as [|c s IH]; intros cur Hs Hc.
  - cbn [String.append Str.lines_from]. rewrite Str.app_nil_r. cbn. f_equal. unfold Str.strip_cr. destruct (Str.strip_suffix "013" cur) as [l|] eqn:E; [|done].
    apply Str.strip_suffix_Some in E as ->. rewrite Str.all_app in Hc. cbn in Hc. by rewrite andb_false_r in Hc.
  - cbn [Str.all] in Hs. apply andb_true_iff in Hs as [H1 H2]. cbn [String.append Str.lines_from]. destruct (Ascii.eqb_spec c "010"); [by subst|].
    rewrite IH; [by rewrite Str.app_assoc|done|]. rewrite Str.all_app, Hc. cbn [Str.all]. by rewrite H1.
Qed.

(** *** The text of a line *)

Lemma ident_chars s : is_ident s = true -> Str.all (fun c => is_word c) s = true /\ s <> "".
Proof. apply ident_word. Qed.

Lemma indexed_chars base indices : is_ident base = true -> Forall (fun i => 0 <= i)%Z indices ->
  Str.all (fun c => is_word c || Ascii.eqb c "[" || Ascii.eqb c "]") (indexed base indices) = true.
Proof.
  intros [Hb _]%ident_word Hi. unfold indexed. rewrite Str.all_app. apply andb_true_iff. split.
  - revert Hb. apply Str.all_impl. by intros c ->.
  - induction Hi as [|i l Hi _ IH]; [done|]. cbn [fold_right]. rewrite !Str.all_app, IH. repeat (apply andb_true_iff; split); try done.
    generalize (Str.show_digits i Hi). apply Str.all_impl. intros c Hc. unfold is_word, Str.is_alnum. by rewrite Hc, !orb_true_r.
Qed.

Lemma word_visible c : is_word c = true -> visible c = true.
Proof.
  unfold is_word, Str.is_alnum, Str.is_alpha, Str.is_upper, Str.is_lower, Str.is_digit, visible. intros H.
  destruct (Ascii.eqb_spec c "_") as [?|]; [by subst|]. destruct (Ascii.eqb_spec c "#") as [?|]; [by subst|]. destruct (Ascii.eqb_spec c ";") as [?|]; [by subst|]. lia.
Qed.

Lemma port_visible c : is_word c || Ascii.eqb c "[" || Ascii.eqb c "]" = true -> visible c = true.
Proof.
  intros H. destruct (is_word c) eqn:E; [by apply word_visible|]. destruct (Ascii.eqb_spec c "[") as [?|]; [by subst|]. by destruct (Ascii.eqb_spec c "]") as [?|]; [by subst|].
Qed.

Definition bank_char (c : ascii) : bool := is_word c || Ascii.eqb c "[" || Ascii.eqb c "]".

Lemma bank_chars b : in_u32 (bank_index b) -> Str.all bank_char (bank_display b) = true.
Proof.
  intros [Hi _]. unfold bank_display. rewrite !Str.all_app.
  assert (Str.all bank_char (Str.show (bank_index b)) = true) as ->; [|by destruct (bank_kind b)].
  generalize (Str.show_digits _ Hi). apply Str.all_impl. intros c Hc. unfold bank_char, is_word, Str.is_alnum. by rewrite Hc, !orb_true_r.
Qed.

Lemma text_visible t : conf_text_ok t -> Str.all visible (conf_text t) = true.
Proof.
  destruct t as [|name|b|key value]; cbn [conf_text conf_text_ok].
  - done.
  - intros [_ Hn]. rewrite !Str.all_app. repeat (apply andb_true_iff; split); try done. revert Hn. apply Str.all_impl. intros c Hc. by bool_hyps.
  - intros ([Hk _]%ident_word & Hb & base & indices & Hp & Hi & Hf). unfold binding_text. rewrite Hp, !Str.all_app. repeat (apply andb_true_iff; split); try done.
    + revert Hk. apply Str.all_impl. apply word_visible.
    + generalize (indexed_chars _ _ Hi Hf). apply Str.all_impl. apply port_visible.
    + generalize (bank_chars _ Hb). apply Str.all_impl. apply port_visible.
  - intros (_ & Hk & Hv & _). rewrite !Str.all_app. repeat (apply andb_true_iff; split); try done. revert Hk. apply Str.all_impl. intros c Hc. by bool_hyps.
Qed.

(** The item of a text. *)
Definition conf_item (t : ConfText) : option IniLine :=
  match t with
  | CtBlank => None
  | CtSection _ => Some (IniSection (conf_text t))
  | CtBank b => Some (IniEntry (conf_text t) "sp" (binding_text b))
  | CtOther key value => Some (IniEntry (conf_text t) key value)
  end.

Lemma scan_conf_line k l : conf_line_ok l -> scan_line (k, conf_line l) = option_map (fun i => (Z.of_nat k + 1, i)%Z) (conf_item (cl_text l)).
Proof.
  intros [Ht Hc]. pose proof (text_visible _ Ht) as Hv. unfold scan_line. cbn [fst snd].
  assert (Es : strip_comment (conf_line l) = blanks (cl_before l) +:+ conf_text (cl_text l) +:+ blanks (cl_after l)).
  { unfold conf_line. rewrite <- !Str.app_assoc. apply strip_comment_line.
    - rewrite !Str.all_app, !all_blanks by done. rewrite andb_true_r. revert Hv. apply Str.all_impl. intros c. unfold visible. by intros [_ ?]%andb_true_iff.
    - destruct (cl_comment l) as [[d text]|]; [|done]. by destruct Hc. }
  rewrite Es, trim_visible by done. destruct (cl_text l) as [|name|b|key value]; cbn [conf_text conf_text_ok conf_item] in *; [done|done| |].
  - change (Str.is_empty ("sp=" +:+ ?x)) with false. change (Str.starts_with "[" ("sp=" +:+ ?x)) with false. cbv iota.
    by rewrite (proj2 (Str.split_once_Some "=" _ "sp" (binding_text b))) by done.
  - destruct Ht as (_ & Hk & _ & Hs & _). rewrite Hs. assert (Str.is_empty (key +:+ "=" +:+ value) = false) as -> by (by destruct key).
    rewrite (proj2 (Str.split_once_Some "=" _ key value)); [done|]. split; [done|]. revert Hk. apply Str.all_impl. by intros c [_ ?]%andb_true_iff.
Qed.

Lemma conf_in_line l : conf_line_ok l -> Str.all in_line (conf_line l) = true.
Proof.
  intros [Ht Hc]. pose proof (text_visible _ Ht) as Hv. unfold conf_line. rewrite !Str.all_app, !all_blanks by done. cbn [andb].
  apply andb_true_iff. split.
  - revert Hv. apply Str.all_impl. intros c Hc'. unfold visible, in_line, CR in *. destruct (Ascii.eqb_spec c "010"); [by subst|]. by destruct (Ascii.eqb_spec c "013"); [subst|].
  - destruct (cl_comment l) as [[d text]|]; [|done]. destruct Hc as [[-> | ->] Hc]; exact Hc.
Qed.

(** The items of a file, numbered from [n]. *)
Fixpoint conf_items (n : Z) (ls : list ConfLine) : list (Z * IniLine) :=
  match ls with
  | [] => []
  | l :: ls => match conf_item (cl_text l) with Some i => [(n, i)] | None => [] end ++ conf_items (n + 1) ls
  end.

Lemma scan_conf_file ls : Forall conf_line_ok ls -> scan_ini (conf_file ls) = conf_items 1 ls.
Proof.
  intros Hls. unfold scan_ini. assert (El : Str.lines (conf_file ls) = map conf_line ls).
  { clear - Hls. induction Hls as [|l ls Hl _ IH]; [done|]. cbn [conf_file fold_right map]. unfold Str.lines.
    rewrite lines_in_line by (done || by apply conf_in_line). cbn [String.append]. by rewrite <- IH. }
  rewrite El. unfold enumerate. rewrite length_map. change 1%Z with (Z.of_nat 0 + 1)%Z. generalize 0%nat as k. clear El.
  induction Hls as [|l ls Hl _ IH]; intros k; [done|]. cbn [length seq map]. change (zip (k :: ?a) (?x :: ?b)) with ((k, x) :: zip a b).
  cbn [omap list_omap conf_items]. rewrite (scan_conf_line k l Hl), IH. rewrite Nat2Z.inj_succ. replace (Z.succ (Z.of_nat k) + 1)%Z with (Z.of_nat k + 1 + 1)%Z by lia.
  by destruct (conf_item (cl_text l)).
Qed.

(** *** The binding of an entry *)

Lemma pieces_single c s : Str.all (fun d => negb (Ascii.eqb c d)) s = true -> Str.split c s = [s].
Proof.
  induction s as [|d s IH]; [done|]. cbn [Str.all Str.split]. intros H. apply andb_true_iff in H as [H1 H2]. apply negb_true_iff in H1. by rewrite H1, IH.
Qed.

Lemma split_two c a b : Str.all (fun d => negb (Ascii.eqb c d)) a = true -> Str.all (fun d => negb (Ascii.eqb c d)) b = true -> Str.split c (a +:+ String c b) = [a; b].
Proof.
  intros Ha Hb. induction a as [|d a IH]; cbn [String.append Str.split].
  - by rewrite Ascii.eqb_refl, pieces_single.
  - cbn [Str.all] in Ha. apply andb_true_iff in Ha as [H1 H2]. apply negb_true_iff in H1. by rewrite H1, IH.
Qed.

Lemma contains_colon s : Str.all (fun d => negb (Ascii.eqb ":" d)) s = true -> Str.contains "]:" s = false.
Proof.
  unfold Str.contains. induction s as [|d s IH]; [done|]. cbn [Str.all]. intros H. apply andb_true_iff in H as [H1 H2]. specialize (IH H2).
  cbn [Str.split_once_str]. assert (Hp : Str.strip_prefix "]:" (String d s) = None).
  { cbn [Str.strip_prefix]. destruct (Ascii.eqb "]" d); [|done]. destruct s as [|e s]; [done|]. cbn [Str.all] in H2. apply andb_true_iff in H2 as [H2 _].
    apply negb_true_iff in H2. by rewrite H2. }
  rewrite Hp. by destruct (Str.split_once_str "]:" s) as [[]|].
Qed.

Lemma index_suffixes_show indices fuel saw : Forall (fun i => 0 <= i)%Z indices -> (length indices < fuel)%nat -> (saw = true \/ indices <> []) ->
  index_suffixes fuel saw (fold_right (fun i s => "[" +:+ Str.show i +:+ "]" +:+ s) "" indices) = true.
Proof.
  intros Hi. revert fuel saw. induction Hi as [|i l Hi _ IH]; intros [|fuel] saw Hf Hs; cbn [length] in Hf; try lia.
  - cbn. by destruct Hs as [-> |].
  - cbn [fold_right index_suffixes String.append Str.strip_prefix]. rewrite Ascii.eqb_refl.
    rewrite (proj2 (Str.split_once_Some "]" _ (Str.show i) (fold_right (fun i s => "[" +:+ Str.show i +:+ "]" +:+ s) "" l))).
    + rewrite Str.show_digits by done. pose proof (Str.show_nonempty i Hi) as Hn. destruct (Str.show i); [done|]. cbn [Str.is_empty negb andb]. apply IH; [lia|by left].
    + split; [done|]. apply Str.digits_not_char; [done|]. by apply Str.show_digits.
Qed.

Lemma suffixes_length indices : (length indices <= String.length (fold_right (fun i s => "[" +:+ Str.show i +:+ "]" +:+ s) "" indices))%nat.
Proof. induction indices as [|j l IH]; [done|]. cbn [length fold_right]. rewrite !Str.length_app. cbn [String.length]. lia. Qed.

Lemma indexed_port base indices : is_ident base = true -> Forall (fun i => 0 <= i)%Z indices -> is_port_name (indexed base indices) = true.
Proof.
  intros Hb Hi. pose proof (ident_word _ Hb) as [Hw Hne]. unfold is_port_name, indexed.
  assert (Hnb : Str.all (fun d => negb (Ascii.eqb "[" d)) base = true).
  { revert Hw. apply Str.all_impl. intros c Hc. destruct (Ascii.eqb_spec "[" c) as [<-|]; [done|done]. }
  destruct indices as [|i l].
  - cbn [fold_right]. rewrite Str.app_nil_r. rewrite (proj2 (Str.split_once_None "[" base)) by done. exact Hb.
  - cbn [fold_right]. set (rest := Str.show i +:+ "]" +:+ _). change ("[" +:+ rest) with (String "[" rest).
    rewrite (proj2 (Str.split_once_Some "[" _ base rest)) by done. unfold is_identifier. rewrite Hb. destruct base as [|c base]; [done|]. cbn [Str.is_empty negb orb].
    apply (index_suffixes_show (i :: l)); [done| |by right]. pose proof (suffixes_length (i :: l)) as Hl. cbn [fold_right] in Hl. fold rest in Hl.
    rewrite !Str.length_app in *. cbn [String.length] in *. lia.
Qed.

Lemma parse_binding_text b n : conf_text_ok (CtBank b) ->
  parse_binding (binding_text b) n = Ok b.
Proof.
  unfold binding_text.
  destruct b as [[kernel port] bank]. cbn [conf_text_ok mb_endpoint mb_bank me_kernel me_port]. intros (Hk & Hb & base & indices & -> & Hi & Hf).
  pose proof (ident_word _ Hk) as [Hkw _]. pose proof (indexed_chars _ _ Hi Hf) as Hp. pose proof (bank_chars _ Hb) as Hbc.
  assert (Hno : forall c s, bank_char c = false -> Str.all bank_char s = true -> Str.all (fun d => negb (Ascii.eqb c d)) s = true).
  { intros c s Hc. apply Str.all_impl. intros d Hd. destruct (Ascii.eqb_spec c d) as [<-|]; [congruence|done]. }
  assert (Hkb : Str.all bank_char kernel = true) by (revert Hkw; apply Str.all_impl; intros c Hc; unfold bank_char; by rewrite Hc).
  assert (Hvis : forall s, Str.all bank_char s = true -> Str.all visible s = true) by (intros s; apply Str.all_impl, port_visible).
  unfold parse_binding. replace (kernel +:+ "." +:+ indexed base indices +:+ ":" +:+ bank_display bank) with ((kernel +:+ "." +:+ indexed base indices) +:+ String ":" (bank_display bank)) by by rewrite !Str.app_assoc.
  rewrite (proj2 (Str.split_once_Some ":" _ (kernel +:+ "." +:+ indexed base indices) (bank_display bank))).
  2:{ split; [done|]. rewrite !Str.all_app. repeat (apply andb_true_iff; split); try done; by apply Hno. }
  rewrite contains_colon by by apply Hno. rewrite !trim_all_visible; [|by apply Hvis|rewrite !Str.all_app; repeat (apply andb_true_iff; split); try done; by apply Hvis].
  unfold parse_endpoint. change ("." +:+ indexed base indices) with (String "." (indexed base indices)). rewrite split_two by by apply Hno. cbn [map].
  rewrite !trim_all_visible by by apply Hvis. unfold is_identifier. rewrite Hk, indexed_port by done. cbn [andb rbind]. unfold parse_bank.
  by rewrite bank_from_str_display.
Qed.

(** *** Reading the file *)

(** The state of the parser after the bindings [seen]. *)
Record reads_as (seen : list (Z * MemoryBinding)) (s : VitisState) : Prop := {
  ra_bindings : vt_bindings s = map snd seen;
  ra_index e : match find_first (fun x => bool_decide (mb_endpoint x.2 = e)) seen with
    | Some (m, b) => exists i, BMap.get e (vt_indices s) = Some (i, m) /\ seen !! i = Some (m, b)
    | None => BMap.get e (vt_indices s) = None
    end;
}.

Lemma find_first_snoc {A} (p : A -> bool) l x : find_first p (l ++ [x]) = match find_first p l with Some y => Some y | None => if p x then Some x else None end.
Proof. induction l as [|y l IH]; [done|]. cbn [app find_first]. by destruct (p y). Qed.

Lemma reads_snoc seen s n b : reads_as seen s -> find_first (fun x => bool_decide (mb_endpoint x.2 = mb_endpoint b)) seen = None ->
  reads_as (seen ++ [(n, b)]) (mkVitis (vt_in s) (vt_bindings s ++ [b]) (BMap.insert (mb_endpoint b) (length (vt_bindings s), n) (vt_indices s))).
Proof.
  intros [Hb Hi] Hn. split; cbn [vt_bindings vt_indices]; [by rewrite Hb, map_app|]. intros e. rewrite find_first_snoc, BMap.get_insert. cbn [snd].
  assert (Hlen : length (vt_bindings s) = length seen) by (by rewrite Hb, length_map). specialize (Hi e). destruct (decide (e = mb_endpoint b)) as [->|Hne].
  - rewrite Hn, bool_decide_eq_true_2 by done. exists (length (vt_bindings s)). split; [done|]. by rewrite Hlen, lookup_app_r, Nat.sub_diag by done.
  - destruct (find_first _ seen) as [[m b0]|].
    + destruct Hi as (i & H1 & H2). exists i. split; [done|]. by apply lookup_app_l_Some.
    + by rewrite bool_decide_eq_false_2.
Qed.

Lemma section_name name n : conf_text_ok (CtSection name) -> parse_section (conf_text (CtSection name)) n = Ok name.
Proof.
  cbn [conf_text_ok conf_text]. intros [Hne Hn]. unfold parse_section. cbn [String.append Str.strip_prefix]. rewrite Ascii.eqb_refl.
  rewrite (proj2 (Str.strip_suffix_Some "]" _ name)) by done. cbv zeta. rewrite trim_all_visible by (revert Hn; apply Str.all_impl; by intros c [? _]%andb_true_iff).
  assert (Hb : Str.existsb (fun c => Ascii.eqb c "[" || Ascii.eqb c "]") name = false).
  { clear Hne. induction name as [|c name IH]; [done|]. cbn [Str.all Str.existsb] in *. apply andb_true_iff in Hn as [Hc Hn]. apply andb_true_iff in Hc as [_ Hc].
    apply negb_true_iff in Hc. by rewrite Hc, IH. }
  rewrite Hb. by destruct name.
Qed.

Lemma bank_text_header b n : conf_text_ok (CtBank b) -> Str.ends_with "]" (conf_text (CtBank b)) = true /\
  parse_section (conf_text (CtBank b)) n = Err (MalformedSection n (conf_text (CtBank b))).
Proof.
  intros _. split; [|done]. unfold Str.ends_with. cbn [conf_text]. unfold binding_text, bank_display.
  destruct (Str.strip_suffix "]" _) eqn:E; [done|]. exfalso.
  rewrite (proj2 (Str.strip_suffix_Some "]" _ ("sp=" +:+ me_kernel (mb_endpoint b) +:+ "." +:+ me_port (mb_endpoint b) +:+ ":" +:+
    match bank_kind (mb_bank b) with Hbm => "HBM" | Ddr => "DDR" end +:+ "[" +:+ Str.show (bank_index (mb_bank b))))) in E; [done|]. by rewrite !Str.app_assoc.
Qed.

Lemma conf_fold ls n seen s : Forall conf_line_ok ls -> reads_as seen s ->
  match conf_bindings (vt_in s) n seen ls with
  | Ok bs => exists s', try_fold vitis_line s (conf_items n ls) = Ok s' /\ vt_bindings s' = bs
  | Err e => try_fold vitis_line s (conf_items n ls) = Err e
  | Panic => False
  end.
Proof.
  intros Hls. revert n seen s. induction Hls as [|l ls [Ht _] _ IH]; intros n seen s Hs; cbn [conf_bindings conf_items].
  { exists s. split; [done|apply Hs]. }
  destruct (cl_text l) as [|name|b|key value] eqn:Et; cbn [conf_item app].
  - by apply IH.
  - cbn [try_fold]. unfold vitis_line at 1 3. cbn [is_header ini_text]. rewrite section_name by done. cbn [rbind].
    apply (IH (n + 1)%Z seen (mkVitis (String.eqb name "connectivity") (vt_bindings s) (vt_indices s))). destruct Hs. by split.
  - cbn [try_fold]. unfold vitis_line at 1 3. cbn [is_header ini_text]. destruct (bank_text_header b n Ht) as [He Hp]. rewrite He. destruct (vt_in s) eqn:Ei; cbn [negb andb]; [|by rewrite Hp].
    change (String.eqb (Str.trim "sp") "sp") with true. cbv iota. unfold add_sp.
    assert (Hv : Str.all visible (binding_text b) = true).
    { pose proof (text_visible _ Ht) as Hv. cbn [conf_text] in Hv. rewrite Str.all_app in Hv. by apply andb_true_iff in Hv as [_ ?]. }
    rewrite trim_all_visible, parse_binding_text by done. cbn [rbind]. pose proof (ra_index _ _ Hs (mb_endpoint b)) as Hi.
    destruct (find_first _ seen) as [[m first]|] eqn:Ef.
    + destruct Hi as (i & -> & Hl). rewrite (ra_bindings _ _ Hs), list_lookup_fmap, Hl. cbn [fmap option_fmap option_map expect rbind snd].
      destruct (bool_decide (mb_bank first = mb_bank b)); cbn [negb rbind]; [|done]. specialize (IH (n + 1)%Z seen s Hs). by rewrite Ei in IH.
    + rewrite Hi. cbn [rbind]. specialize (IH (n + 1)%Z _ _ (reads_snoc seen s n b Hs Ef)). cbn [vt_in] in IH. by rewrite Ei in *.
  - cbn [try_fold]. unfold vitis_line at 1 3. cbn [is_header ini_text conf_text]. destruct Ht as (Hk & Hkv & _ & _ & He). rewrite He, andb_false_r.
    rewrite trim_all_visible by (revert Hkv; apply Str.all_impl; by intros c [? _]%andb_true_iff). apply String.eqb_neq in Hk. rewrite Hk.
    destruct (negb (vt_in s)); cbn [rbind]; by apply IH.
Qed.

(** C30: what a connectivity configuration binds. A file of section headers, [sp]
    entries, other entries and blank lines, with any blanks around and any comments, is
    read as it is written: exactly the ports its connectivity sections bind, each once,
    in the order of their first entries; the first entry that gives a port another bank
    is refused as a conflict, with its line, the port, the line of the first entry and
    both banks (an [sp] entry outside a connectivity section is refused as a malformed
    header). Any other text is read without a panic: either every entry declares a
    binding and the result is the bindings declared, each once; or it is refused at a line
    before which all entries declare bindings that agree, because that line is no
    header, no entry, no binding, or disagrees with the first entry of its port. *)
Theorem vitis_config_exact :
  (forall ls, Forall conf_line_ok ls -> parse_vitis_config (conf_file ls) = let! bs := conf_bindings false 1 [] ls in Ok (mkBindings bs)) /\
  forall input, let entries := sp_entries false (scan_ini input) in
  match parse_vitis_config input with
  | Ok m => exists bs, Forall2 declares entries bs /\ bindings_list m = distinct bs /\ NoDup (map mb_endpoint (bindings_list m))
  | Err e => exists before x after bs, scan_ini input = before ++ x :: after /\ Forall2 declares (sp_entries false before) bs /\
      NoDup (map mb_endpoint (distinct bs)) /\ refused (sp_entries false before) (inside_after false before) x e
  | Panic => False
  end.
Proof.
  split; [|exact parse_vitis_spec]. intros ls Hls. unfold parse_vitis_config. rewrite scan_conf_file by done.
  assert (H0 : reads_as [] (mkVitis false [] BMap.empty)) by done.
  pose proof (conf_fold ls 1 [] _ Hls H0) as Hf. cbn [vt_in] in Hf. pose proof (vitis_fold (conf_items 1 ls) _ _ _ vitis_init) as Hv.
  destruct (conf_bindings false 1 [] ls) as [bs|e|]; [|by rewrite Hf|done]. destruct Hf as (s & Hs & <-). rewrite Hs in Hv |- *. cbn [rbind].
  destruct Hv as (bs' & [_ _ He _ _]). unfold try_from_bindings. by rewrite (proj2 (check_unique_ok BMap.empty (vt_bindings s))) by (by split).
Qed.

(** ** Concrete configurations *)

Definition sample_ports : list KernelXmlPort := [mkXmlPort "a" CatMAxi 512 "" "float*"; mkXmlPort "ch[0]" CatMAxi 64 "" "int*"].

Definition sample_config : string :=
  "[connectivity] # ports" +:+ LF +:+ "nk=top:1:top_1" +:+ LF +:+ "sp = top_1.m_axi_a:HBM3 " +:+ String CR LF +:+ "sp=top_1.m_axi_ch_0:DDR0".

Lemma prepare_idempotent_witness : exists bindings config, prepare_slash_config sample_config "top" sample_ports 300000000 = Ok (bindings, config) /\
  config <> sample_config /\ length (bindings_list bindings) = 2%nat /\ prepare_slash_config config "top" sample_ports 300000000 = Ok (bindings, config).
Proof.
  destruct (prepare_slash_config sample_config "top" sample_ports 300000000) as [[bindings config]|e|] eqn:E; [|by vm_compute in E..].
  exists bindings, config. split; [done|]. assert (Hz : in_u64 300000000) by (unfold in_u64, U64_MAX; lia).
  pose proof (prepare_idempotent sample_config "top" sample_ports 300000000 bindings config Hz E) as Hi. vm_compute in E. injection E as <- <-. by repeat split.
Defined.

(** A file with a comment, two ports, and an entry that disagrees with the second line. *)
Definition conflict_file : list ConfLine :=
  [mkConfLine 0 (CtSection "connectivity") 1 (Some ("#"%char, " ports"));
   mkConfLine 0 (CtBank (mkMemBinding (mkMemEndpoint "k" "p[3]") (mkBank Hbm 0))) 0 None;
   mkConfLine 2 CtBlank 0 None;
   mkConfLine 0 (CtOther "nk" "k:1:k_1") 0 None;
   mkConfLine 1 (CtBank (mkMemBinding (mkMemEndpoint "k" "p[3]") (mkBank Ddr 1))) 3 (Some (";"%char, ""))].

Lemma vitis_config_exact_witness : Forall conf_line_ok conflict_file /\
  parse_vitis_config (conf_file conflict_file) = Err (ConflictingBinding 5 (mkMemEndpoint "k" "p[3]") 2 (mkBank Hbm 0) (mkBank Ddr 1)).
Proof.
  assert (Hok : Forall conf_line_ok conflict_file).
  { assert (Hp : exists base indices, "p[3]" = indexed base indices /\ is_ident base = true /\ Forall (fun i => 0 <= i)%Z indices)
      by (exists "p", [3%Z]; split; [reflexivity|split; [reflexivity|by repeat constructor]]).
    unfold conflict_file. repeat (apply Forall_cons; split); [..|by apply Forall_nil]; split; cbn [cl_text cl_comment conf_text_ok]; try done.
    all: first [split; [by left|done]|split; [by right|done]|split; [done|]; split; [unfold in_u32, U32_MAX; simpl; lia|exact Hp]]. }
  split; [exact Hok|]. rewrite (proj1 vitis_config_exact conflict_file Hok). reflexivity.
Defined.

(** Two entries that disagree are refused, however the port is written. *)
Example config_conflict : parse_vitis_config ("[connectivity]" +:+ LF +:+ "sp=k.p:HBM[0]" +:+ LF +:+ " sp = k.p : HBM[ 1 ]")
  = Err (ConflictingBinding 3 (mkMemEndpoint "k" "p") 2 (mkBank Hbm 0) (mkBank Hbm 1)).
Proof. vm_compute. reflexivity. Qed.
