(* ===== verification/Rtl.v ===== *)
(** * Verilog modules: data, lookups, construction and emission

    [tapa-rtl]: the expressions and statements code generation builds
    ([builder.rs]), the parsed interface of a module and its lookups
    ([module.rs], [port.rs], [param.rs], [signal.rs], [expression.rs]), the
    module under mutation ([mutation.rs]) and the text of all of them
    ([emit.rs]).  The parser, on a third-party grammar, and the regular
    expressions that clean a body up are arguments of the definitions that
    call them. *)

From S2P Require Import Prelude RustStd BTreeMap Names FloorGraph Xdc Protocol.

Local Open Scope Z_scope.

(** ** Token expressions *)

Definition Expression := list string.

Definition concat_strings (l : list string) : string := fold_right (fun a b => a +:+ b) "" l.
Definition expression_source (e : Expression) : string := concat_strings e.
Definition expression_as_u32 (e : Expression) : option Z := Str.parse_u32 (expression_source e).

Definition is_operator_char (c : ascii) : bool :=
  existsb (Ascii.eqb c) [":"; "+"; "-"; "*"; "/"; "("; ")"; "["; "]"; " "; "009"]%char.

(** The token in progress, when there is one. *)
Definition flush_token (current : string) : list string := if Str.is_empty current then [] else [current].

(** The loop of [tokenize_expression] with its current token. *)
Fixpoint tokenize_from (current : string) (s : string) : list string :=
  match s with
  | EmptyString => flush_token current
  | String c s' =>
      if is_operator_char c
      then flush_token current ++ (if Str.is_ascii_ws c then [] else [String c ""]) ++ tokenize_from "" s'
      else tokenize_from (current +:+ String c "") s'
  end.

Definition tokenize_expression (input : string) : Expression := tokenize_from "" (Str.trim input).

(** ** Interfaces *)

Inductive Direction := Input | Output | Inout.
Record Width := mkWidth { msb : Expression; lsb : Expression }.
Record RtlPort := mkRtlPort { rp_name : string; rp_direction : Direction; rp_width : option Width }.
Record RtlParameter := mkRtlParameter { param_name : string; param_default : Expression; param_width : option Width }.
Inductive SignalKind := Wire | Reg.
Record Signal := mkSignal { sg_name : string; sg_kind : SignalKind; sg_width : option Width; sg_attribute : option string }.

#[export] Instance Direction_eq : EqDecision Direction.
Proof. solve_decision. Defined.
#[export] Instance SignalKind_eq : EqDecision SignalKind.
Proof. solve_decision. Defined.

Definition bit_count (w : Width) : option Z :=
  let? m := expression_as_u32 (msb w) in
  let? l := expression_as_u32 (lsb w) in
  Some (wrap32 (Z.abs (m - l) + 1)).

Definition bit_width (p : RtlPort) : option Z :=
  match rp_width p with None => Some 1 | Some w => bit_count w end.

Record VerilogModule := mkModule {
  mod_name : string;
  mod_ports : list RtlPort;
  mod_parameters : list RtlParameter;
  mod_signals : list Signal;
  mod_source : string;
}.

Definition FIFO_INFIXES : list string := ["_V"; "_r"; "_s"; ""].

Definition rtl_find_port (m : VerilogModule) (name : string) : option RtlPort :=
  find_first (fun p => bool_decide (rp_name p = name)) (mod_ports m).

Definition has_port (m : VerilogModule) (name : string) : bool :=
  match rtl_find_port m name with Some _ => true | None => false end.

Definition str_ends_with (suffix s : string) : bool :=
  match Str.strip_suffix_str suffix s with Some _ => true | None => false end.

Definition find_port_by_affixes (m : VerilogModule) (prefix suffix : string) : option RtlPort :=
  find_first (fun p => Str.starts_with prefix (rp_name p) && str_ends_with suffix (rp_name p)) (mod_ports m).

(** [Iterator::find_map]. *)
Fixpoint find_map {A B} (f : A -> option B) (l : list A) : option B :=
  match l with
  | [] => None
  | x :: l' => match f x with Some y => Some y | None => find_map f l' end
  end.

(** What the standard library's Unicode tables say of a string: whether all its
    characters are letters or digits, underscores apart. *)
Class UnicodeTables := {
  word_chars : string -> bool;
  word_chars_ascii : forall s, Str.all (fun c => Str.code c <? 128) s = true -> word_chars s = Str.all is_word s;
}.

Section lookups.
Context `{UnicodeTables}.

(** The first [[] and, since the name ends in []], the bracket that ends it. *)
Definition match_array_name (name : string) : option (string * Z) :=
  let? (base, rest) := Str.split_once "[" name in
  let? idx_str := Str.strip_suffix "]" rest in
  if Str.is_empty idx_str || Str.is_empty base || negb (word_chars base) then None
  else let? idx := Str.parse_u32 idx_str in Some (base, idx).

Definition find_with_base (m : VerilogModule) (suffix base : string) : option RtlPort :=
  find_map (fun infix => rtl_find_port m (base +:+ infix +:+ suffix)) FIFO_INFIXES.

Definition get_port_of (m : VerilogModule) (fifo suffix : string) : option RtlPort :=
  match find_with_base m suffix (sanitize_array_name fifo) with
  | Some p => Some p
  | None =>
      match match_array_name fifo with
      | Some (base, idx) => if idx =? 0 then find_with_base m suffix base else None
      | None => None
      end
  end.
End lookups.

(** ** The builder *)

Inductive BinOperator := OpEq | OpPlus | OpAnd.

Inductive Expr :=
| Ident (name : string)
| Lit (val : string)
| BinOp (lhs : Expr) (op : BinOperator) (rhs : Expr)
| Index (base index : Expr)
| Range (base msb lsb : Expr)
| Concat (exprs : list Expr)
| Not (inner : Expr).

Definition expr_int (val : Z) : Expr := Lit (Str.show val).
Definition int_const (width val : Z) : Expr := Lit (Str.show width +:+ "'d" +:+ Str.show val).
Definition expr_eq (l r : Expr) : Expr := BinOp l OpEq r.
Definition expr_plus (l r : Expr) : Expr := BinOp l OpPlus r.
Definition logical_and (l r : Expr) : Expr := BinOp l OpAnd r.

(** [Expr::all]: [reduce] and the identity. *)
Definition expr_all (terms : list Expr) : Expr :=
  match terms with
  | [] => Lit "1'b1"
  | t :: ts => fold_left logical_and ts t
  end.

Record PortArg := mkPortArg { pa_name : string; pa_connection : Expr }.
Record ParamArg := mkParamArg { pm_name : string; pm_value : Expr }.
Record ModuleInstance := mkInst {
  mi_module : string; mi_instance : string; mi_params : list ParamArg; mi_ports : list PortArg }.
Record ContinuousAssign := mkAssign { as_lhs : Expr; as_rhs : Expr }.

Inductive Statement :=
| NonblockingAssign (lhs rhs : Expr)
| If (cond : Expr) (then_body else_body : list Statement)
| Case (expr : Expr) (items : list CaseItem) (dflt : list Statement)
with CaseItem := mkItem (value : Expr) (body : list Statement).

Record AlwaysBlock := mkAlways { al_clk : string; al_body : list Statement }.

(** ** Text *)

Definition nl : string := String newline "".

Definition op_str (o : BinOperator) : string := match o with OpEq => "==" | OpPlus => "+" | OpAnd => "&&" end.

Fixpoint expr_str (e : Expr) : string :=
  match e with
  | Ident name => name
  | Lit val => val
  | BinOp l o r => "(" +:+ expr_str l +:+ " " +:+ op_str o +:+ " " +:+ expr_str r +:+ ")"
  | Index b i => expr_str b +:+ "[" +:+ expr_str i +:+ "]"
  | Range b m l => expr_str b +:+ "[" +:+ expr_str m +:+ ":" +:+ expr_str l +:+ "]"
  | Concat es => "{" +:+ join ", " (map expr_str es) +:+ "}"
  | Not i => "!" +:+ expr_str i
  end.

Fixpoint write_indent (level : nat) : string := match level with O => "" | S n => "  " +:+ write_indent n end.

Fixpoint write_statement (indent : nat) (s : Statement) : string :=
  let statements n l := concat_strings (map (write_statement n) l) in
  match s with
  | NonblockingAssign l r => write_indent indent +:+ expr_str l +:+ " <= " +:+ expr_str r +:+ ";" +:+ nl
  | If c t e =>
      write_indent indent +:+ "if (" +:+ expr_str c +:+ ") begin" +:+ nl
      +:+ statements (S indent) t
      +:+ (match e with
           | [] => ""
           | _ => write_indent indent +:+ "end else begin" +:+ nl +:+ statements (S indent) e
           end)
      +:+ write_indent indent +:+ "end" +:+ nl
  | Case e items d =>
      write_indent indent +:+ "case (" +:+ expr_str e +:+ ")" +:+ nl
      +:+ concat_strings (map (fun i => match i with mkItem v b =>
            write_indent (S indent) +:+ expr_str v +:+ ": begin" +:+ nl
            +:+ statements (S (S indent)) b
            +:+ write_indent (S indent) +:+ "end" +:+ nl end) items)
      +:+ (match d with
           | [] => ""
           | _ => write_indent (S indent) +:+ "default: begin" +:+ nl +:+ statements (S (S indent)) d
                  +:+ write_indent (S indent) +:+ "end" +:+ nl
           end)
      +:+ write_indent indent +:+ "endcase" +:+ nl
  end.

Definition width_str (w : Width) : string := "[" +:+ expression_source (msb w) +:+ ":" +:+ expression_source (lsb w) +:+ "]".
Definition direction_str (d : Direction) : string := match d with Input => "input" | Output => "output" | Inout => "inout" end.
Definition opt_width_str (w : option Width) : string := match w with Some w => " " +:+ width_str w | None => "" end.
Definition port_str (p : RtlPort) : string := direction_str (rp_direction p) +:+ " wire" +:+ opt_width_str (rp_width p) +:+ " " +:+ rp_name p.
Definition signal_kind_str (k : SignalKind) : string := match k with Wire => "wire" | Reg => "reg" end.
Definition signal_str (s : Signal) : string :=
  (match sg_attribute s with Some a => "(* " +:+ a +:+ " *) " | None => "" end)
  +:+ signal_kind_str (sg_kind s) +:+ opt_width_str (sg_width s) +:+ " " +:+ sg_name s +:+ ";".
Definition port_arg_str (a : PortArg) : string := "." +:+ pa_name a +:+ "(" +:+ expr_str (pa_connection a) +:+ ")".
Definition param_arg_str (a : ParamArg) : string := "." +:+ pm_name a +:+ "(" +:+ expr_str (pm_value a) +:+ ")".

(** One item per line; the last carries no comma. *)
Definition comma_lines (l : list string) : string :=
  concat_strings (map (fun '(i, a) => a +:+ (if (S i <? length l)%nat then "," else "") +:+ nl) (enumerate l)).
Definition write_arg_lines (args : list string) : string := comma_lines (map (fun a => "  " +:+ a) args).

Definition instance_str (i : ModuleInstance) : string :=
  mi_module i
  +:+ (match mi_params i with
       | [] => ""
       | ps => " #(" +:+ nl +:+ write_arg_lines (map param_arg_str ps) +:+ ")"
       end)
  +:+ " " +:+ mi_instance i +:+ " (" +:+ nl +:+ write_arg_lines (map port_arg_str (mi_ports i)) +:+ ");" +:+ nl.

Definition assign_str (a : ContinuousAssign) : string := "assign " +:+ expr_str (as_lhs a) +:+ " = " +:+ expr_str (as_rhs a) +:+ ";".
Definition always_str (a : AlwaysBlock) : string :=
  "always @(posedge " +:+ al_clk a +:+ ") begin" +:+ nl
  +:+ concat_strings (map (write_statement 1) (al_body a)) +:+ "end" +:+ nl.

(** ** The module under mutation *)

Inductive BuilderError := EmptyName | DuplicatePort (name : string) | DuplicateSignal (name : string).

Record MutableModule := mkMutable {
  inner : VerilogModule;
  body_text : string;
  trailing_text : string;
  added_instances : list ModuleInstance;
  added_assigns : list ContinuousAssign;
  added_always : list AlwaysBlock;
}.

Definition set_inner (m : MutableModule) (i : VerilogModule) : MutableModule :=
  mkMutable i (body_text m) (trailing_text m) (added_instances m) (added_assigns m) (added_always m).
Definition set_ports (m : VerilogModule) (ps : list RtlPort) : VerilogModule :=
  mkModule (mod_name m) ps (mod_parameters m) (mod_signals m) (mod_source m).
Definition set_signals (m : VerilogModule) (ss : list Signal) : VerilogModule :=
  mkModule (mod_name m) (mod_ports m) (mod_parameters m) ss (mod_source m).

(** [original_module_text] stands for the parser's split of a source. *)
Definition from_parsed (original_module_text : string -> string * string) (m : VerilogModule) : MutableModule :=
  let '(body, trailing) := original_module_text (mod_source m) in
  mkMutable m body trailing [] [] [].

Definition add_port (m : MutableModule) (p : RtlPort) : res BuilderError MutableModule :=
  if Str.is_empty (rp_name p) then Err EmptyName
  else if has_port (inner m) (rp_name p) then Err (DuplicatePort (rp_name p))
  else Ok (set_inner m (set_ports (inner m) (mod_ports (inner m) ++ [p]))).

Definition has_signal (m : VerilogModule) (name : string) : bool :=
  existsb (fun s => bool_decide (sg_name s = name)) (mod_signals m).

Definition add_signal (m : MutableModule) (s : Signal) : res BuilderError MutableModule :=
  if Str.is_empty (sg_name s) then Err EmptyName
  else if has_signal (inner m) (sg_name s) then Err (DuplicateSignal (sg_name s))
  else Ok (set_inner m (set_signals (inner m) (mod_signals (inner m) ++ [s]))).

(** [let _ = m.add_port(p)]: a rejected port leaves the module as it is. *)
Definition try_add_port (m : MutableModule) (p : RtlPort) : MutableModule :=
  match add_port m p with Ok m' => m' | _ => m end.
Definition try_add_signal (m : MutableModule) (s : Signal) : MutableModule :=
  match add_signal m s with Ok m' => m' | _ => m end.

Definition add_instance (m : MutableModule) (i : ModuleInstance) : MutableModule :=
  mkMutable (inner m) (body_text m) (trailing_text m) (added_instances m ++ [i]) (added_assigns m) (added_always m).
Definition add_assign (m : MutableModule) (a : ContinuousAssign) : MutableModule :=
  mkMutable (inner m) (body_text m) (trailing_text m) (added_instances m) (added_assigns m ++ [a]) (added_always m).
Definition add_always (m : MutableModule) (a : AlwaysBlock) : MutableModule :=
  mkMutable (inner m) (body_text m) (trailing_text m) (added_instances m) (added_assigns m) (added_always m ++ [a]).

Definition remove_port (m : MutableModule) (name : string) : MutableModule :=
  set_inner m (set_ports (inner m) (List.filter (fun p => negb (bool_decide (rp_name p = name))) (mod_ports (inner m)))).

Definition is_output_port (ports : list RtlPort) (name : string) : bool :=
  existsb (fun p => bool_decide (rp_direction p = Output /\ rp_name p = name)) ports.

Definition is_reg (s : Signal) : bool := bool_decide (sg_kind s = Reg).

Definition demote_output_port_regs_to_wires (m : MutableModule) : MutableModule :=
  set_inner m (set_signals (inner m)
    (List.filter (fun s => negb (is_reg s && is_output_port (mod_ports (inner m)) (sg_name s))) (mod_signals (inner m)))).

Definition with_kind (s : Signal) (k : SignalKind) : Signal := mkSignal (sg_name s) k (sg_width s) (sg_attribute s).

Definition demote_signal_regs_to_wires (m : MutableModule) (names : list string) : MutableModule :=
  set_inner m (set_signals (inner m)
    (map (fun s => if str_in (sg_name s) names && is_reg s then with_kind s Wire else s) (mod_signals (inner m)))).

(** The first signal of the name changes kind. *)
Fixpoint set_first_kind (name : string) (k : SignalKind) (l : list Signal) : list Signal :=
  match l with
  | [] => []
  | s :: l' => if bool_decide (sg_name s = name) then with_kind s k :: l' else s :: set_first_kind name k l'
  end.

Definition ensure_signal_kind (m : MutableModule) (name : string) (k : SignalKind) : MutableModule :=
  set_inner m (set_signals (inner m)
    (if has_signal (inner m) name then set_first_kind name k (mod_signals (inner m))
     else mod_signals (inner m) ++ [mkSignal name k None None])).

(** The patterns, as the regular-expression engine reads them. *)
Definition cleanup_patterns : list string :=
  ["(?m)^.*_regslice_both\b.*$\n?";
   "(?m)^.*" +:+ HLS_FSM_STATE_PREFIX +:+ "\d+_blk\b.*$\n?";
   "(?m)^.*" +:+ HLS_FSM_STATE_PREFIX +:+ "\d+\b.*$\n?";
   "(?m)^.*\b(?:" +:+ HLS_FSM_CS +:+ "|" +:+ HLS_FSM_NS +:+ ")\b.*$\n?";
   "(?ms)^initial begin\n.*?end\n?";
   "(?m)^.*\b" +:+ HLS_CE_REG +:+ "\b.*$\n?";
   "(?m)^.*\b" +:+ HLS_RST_INV +:+ "\b.*$\n?";
   "(?m)^\s*assign\s+(?:" +:+ HANDSHAKE_DONE +:+ "|" +:+ HANDSHAKE_READY +:+ "|" +:+ HANDSHAKE_IDLE +:+ ")\s*=.*;\s*\n?"].

Definition is_hls_signal (name : string) : bool :=
  Str.starts_with HLS_FSM_CS name || Str.starts_with HLS_FSM_NS name || Str.starts_with "ap_ST_fsm" name
  || Str.contains "_blk" name || bool_decide (name = HLS_CE_REG) || bool_decide (name = HLS_RST_INV).

(** [regex_remove pattern text] stands for [replace_all] with the empty string. *)
Definition cleanup_hls_artifacts (regex_remove : string -> string -> string) (m : MutableModule) : MutableModule :=
  let i := inner m in
  let i := mkModule (mod_name i) (mod_ports i)
             (List.filter (fun p => negb (Str.starts_with "ap_ST_fsm" (param_name p))) (mod_parameters i))
             (List.filter (fun s => negb (is_hls_signal (sg_name s))) (mod_signals i)) (mod_source i) in
  mkMutable i (fold_left (fun t p => regex_remove p t) cleanup_patterns (body_text m)) (trailing_text m)
    (added_instances m) (added_assigns m) (added_always m).

Definition parameter_line (p : RtlParameter) : string :=
  "  parameter " +:+ (match param_width p with Some w => width_str w +:+ " " | None => "" end) +:+ param_name p
  +:+ (match param_default p with [] => "" | d => " = " +:+ expression_source d end).

Definition port_line (kinds : bmap string SignalKind) (p : RtlPort) : string :=
  if bool_decide (rp_direction p = Output) && bool_decide (BMap.get (rp_name p) kinds = Some Reg)
  then "  output reg" +:+ opt_width_str (rp_width p) +:+ " " +:+ rp_name p
  else "  " +:+ port_str p.

Definition emit (m : MutableModule) : string :=
  let i := inner m in
  let kinds := BMap.from_list (map (fun s => (sg_name s, sg_kind s)) (mod_signals i)) in
  (match mod_parameters i with
   | [] => "module " +:+ mod_name i +:+ " (" +:+ nl
   | ps => "module " +:+ mod_name i +:+ " #(" +:+ nl +:+ comma_lines (map parameter_line ps) +:+ ") (" +:+ nl
   end)
  +:+ comma_lines (map (port_line kinds) (mod_ports i))
  +:+ ");" +:+ nl +:+ nl
  +:+ concat_strings (map (fun s => if has_port i (sg_name s) then "" else signal_str s +:+ nl) (mod_signals i))
  +:+ nl
  +:+ (if Str.is_empty (Str.trim (body_text m)) then "" else Str.trim (body_text m) +:+ nl +:+ nl)
  +:+ concat_strings (map (fun x => instance_str x +:+ nl) (added_instances m))
  +:+ concat_strings (map (fun x => assign_str x +:+ nl) (added_assigns m))
  +:+ concat_strings (map (fun x => always_str x +:+ nl) (added_always m))
  +:+ "endmodule //" +:+ mod_name i +:+ nl +:+ trailing_text m.

(** ** Constructors *)

Definition simple_port (name : string) (d : Direction) : RtlPort := mkRtlPort name d None.
Definition wide_width (m l : string) : Width := mkWidth (tokenize_expression m) (tokenize_expression l).
Definition wide_port (name : string) (d : Direction) (m l : string) : RtlPort := mkRtlPort name d (Some (wide_width m l)).
Definition wire (name : string) : Signal := mkSignal name Wire None None.
Definition wire_with_attribute (name attribute : string) : Signal := mkSignal name Wire None (Some attribute).
Definition reg (name : string) : Signal := mkSignal name Reg None None.
Definition wide_wire (name m l : string) : Signal := mkSignal name Wire (Some (wide_width m l)) None.
Definition wide_reg (name m l : string) : Signal := mkSignal name Reg (Some (wide_width m l)) None.

(** A wire of [width] bits, without a range when one bit wide ([passes/mod.rs]). *)
Definition width_wire (name : string) (width : Z) : Signal :=
  if 1 <? width then wide_wire name (Str.show (width - 1)) "0" else wire name.

Example emit_small :
  emit (add_assign (try_add_signal (mkMutable (mkModule "m" [simple_port "a" Output] [] [] "") "" "" [] [] []) (width_wire "b" 8))
         (mkAssign (Ident "a") (expr_all [Index (Ident "b") (expr_int 0); Not (Ident "c")])))
  = "module m (" +:+ nl +:+ "  output wire a" +:+ nl +:+ ");" +:+ nl +:+ nl +:+ "wire [7:0] b;" +:+ nl +:+ nl
    +:+ "assign a = (b[0] && !c);" +:+ nl +:+ "endmodule //m" +:+ nl.
Proof. vm_compute. reflexivity. Qed.
