(* ===== verification/Control.v ===== *)
(** * The control FSMs code generation emits

    The handshake signals of a child instance ([instance_signals.rs]), the
    four-state FSM and the start logic of a child ([passes/children/fsm.rs]), the
    three-state FSM of a task ([program.rs]) and their assembly into the task's
    FSM module ([add_fsm_control_logic] of [passes/children/signals.rs]). *)

From S2P Require Import Prelude RustStd Protocol Rtl.

(** ** Instance signals *)

Record InstanceSignals := mkSig { is_instance : string; is_autorun : bool }.

(** [InstanceSignals::new], which asserts a name. *)
Definition instance_signals_new {E} (instance_name : string) (autorun : bool) : res E InstanceSignals :=
  if Str.is_empty instance_name then Panic else Ok (mkSig instance_name autorun).

Definition state_name (s : InstanceSignals) : string := is_instance s +:+ "__state".
Definition start_name (s : InstanceSignals) : string := is_instance s +:+ "__ap_start".
Definition done_name (s : InstanceSignals) : string := is_instance s +:+ "__ap_done".
Definition is_done_name (s : InstanceSignals) : string := is_instance s +:+ "__is_done".
Definition idle_name (s : InstanceSignals) : string := is_instance s +:+ "__ap_idle".
Definition ready_name (s : InstanceSignals) : string := is_instance s +:+ "__ap_ready".

Definition state_expr (s : InstanceSignals) : Expr := Ident (state_name s).
Definition start_expr (s : InstanceSignals) : Expr := Ident (start_name s).
Definition done_expr (s : InstanceSignals) : Expr := Ident (done_name s).
Definition set_state (s : InstanceSignals) (new_state : Expr) : Statement := NonblockingAssign (state_expr s) new_state.
Definition is_state (s : InstanceSignals) (target : Expr) : Expr := expr_eq (state_expr s) target.

Definition all_signals (s : InstanceSignals) : list Signal :=
  if is_autorun s then [reg (start_name s)]
  else [wide_reg (state_name s) "1" "0"; wire (start_name s); wire (done_name s);
        wire (is_done_name s); wire (idle_name s); wire (ready_name s)].

Definition instance_portargs (s : InstanceSignals) : list PortArg :=
  mkPortArg HANDSHAKE_START (start_expr s) ::
  (if is_autorun s then []
   else [mkPortArg HANDSHAKE_DONE (done_expr s); mkPortArg HANDSHAKE_IDLE (Ident (idle_name s));
         mkPortArg HANDSHAKE_READY (Ident (ready_name s))]).

Definition fsm_ports (s : InstanceSignals) : list RtlPort :=
  if is_autorun s then [simple_port (start_name s) Output]
  else [simple_port (start_name s) Output; simple_port (ready_name s) Input;
        simple_port (done_name s) Input; simple_port (idle_name s) Input].

(** ** State encodings *)

Definition GLOBAL_STATE_IDLE : string := "2'b00".
Definition GLOBAL_STATE_RUNNING : string := "2'b01".
Definition GLOBAL_STATE_DONE : string := "2'b10".
Definition CHILD_STATE_IDLE : string := "2'b00".
Definition CHILD_STATE_RUNNING : string := "2'b01".
Definition CHILD_STATE_WAITING : string := "2'b11".
Definition CHILD_STATE_DONE : string := "2'b10".
Definition START_Q : string := "__tapa_start_q".
Definition DONE_Q : string := "__tapa_done_q".
Definition GLOBAL_STATE : string := "__tapa_state".

(** ** The FSM of a child *)

Definition generate_child_fsm (sig : InstanceSignals) (start_input done_release : Expr) : AlwaysBlock :=
  let ready := Ident (ready_name sig) in
  let done := done_expr sig in
  mkAlways HANDSHAKE_CLK
    [If (Ident HANDSHAKE_RST)
       [set_state sig (Lit CHILD_STATE_IDLE)]
       [Case (state_expr sig)
          [mkItem (Lit CHILD_STATE_IDLE)
             [If start_input [set_state sig (Lit CHILD_STATE_RUNNING)] []];
           mkItem (Lit CHILD_STATE_RUNNING)
             [If (logical_and ready done) [set_state sig (Lit CHILD_STATE_DONE)]
                [If ready [set_state sig (Lit CHILD_STATE_WAITING)] []]];
           mkItem (Lit CHILD_STATE_WAITING)
             [If done [set_state sig (Lit CHILD_STATE_DONE)] []];
           mkItem (Lit CHILD_STATE_DONE)
             [If done_release [set_state sig (Lit CHILD_STATE_IDLE)] []]]
          [set_state sig (Lit CHILD_STATE_IDLE)]]].

Definition generate_is_done_assign (sig : InstanceSignals) : ContinuousAssign :=
  mkAssign (Ident (is_done_name sig)) (is_state sig (Lit CHILD_STATE_DONE)).

Definition generate_autorun_start (sig : InstanceSignals) : AlwaysBlock :=
  mkAlways HANDSHAKE_CLK
    [If (Ident HANDSHAKE_RST)
       [NonblockingAssign (start_expr sig) (Lit "1'b0")]
       [If (Ident HANDSHAKE_START) [NonblockingAssign (start_expr sig) (Lit "1'b1")] []]].

Definition generate_start_assign (sig : InstanceSignals) : ContinuousAssign :=
  mkAssign (start_expr sig) (is_state sig (Lit CHILD_STATE_RUNNING)).

(** ** The FSM of a task *)

Definition global_fsm_block (is_done_signal_names : list string) : AlwaysBlock :=
  let state := Ident GLOBAL_STATE in
  mkAlways HANDSHAKE_CLK
    [If (Ident HANDSHAKE_RST)
       [NonblockingAssign state (Lit GLOBAL_STATE_IDLE)]
       [Case state
          [mkItem (Lit GLOBAL_STATE_IDLE)
             [If (Ident HANDSHAKE_START) [NonblockingAssign state (Lit GLOBAL_STATE_RUNNING)] []];
           mkItem (Lit GLOBAL_STATE_RUNNING)
             [If (expr_all (map Ident is_done_signal_names)) [NonblockingAssign state (Lit GLOBAL_STATE_DONE)] []];
           mkItem (Lit GLOBAL_STATE_DONE)
             [NonblockingAssign state (Lit GLOBAL_STATE_IDLE)]]
          []]].

Definition apply_global_fsm (m : MutableModule) (is_done_signal_names : list string) : MutableModule :=
  let m := try_add_port m (simple_port HANDSHAKE_START Input) in
  let m := try_add_port m (simple_port HANDSHAKE_DONE Output) in
  let m := try_add_port m (simple_port HANDSHAKE_IDLE Output) in
  let m := try_add_port m (simple_port HANDSHAKE_READY Output) in
  let m := try_add_signal m (wide_reg GLOBAL_STATE "1" "0") in
  let m := try_add_signal m (wire HANDSHAKE_RST) in
  let m := try_add_signal m (wire START_Q) in
  let m := try_add_signal m (wire DONE_Q) in
  let m := add_assign m (mkAssign (Ident HANDSHAKE_RST) (Not (Ident HANDSHAKE_RST_N))) in
  let m := add_assign m (mkAssign (Ident START_Q) (Ident HANDSHAKE_START)) in
  let m := add_always m (global_fsm_block is_done_signal_names) in
  let m := add_assign m (mkAssign (Ident HANDSHAKE_IDLE) (expr_eq (Ident GLOBAL_STATE) (Lit GLOBAL_STATE_IDLE))) in
  let m := add_assign m (mkAssign (Ident DONE_Q) (expr_eq (Ident GLOBAL_STATE) (Lit GLOBAL_STATE_DONE))) in
  let m := add_assign m (mkAssign (Ident HANDSHAKE_DONE) (Ident DONE_Q)) in
  add_assign m (mkAssign (Ident HANDSHAKE_READY) (Ident DONE_Q)).

(** ** The children's part of the FSM module

    [add_fsm_control_logic] for a task without a distributed control plan. *)
Definition add_fsm_control_logic (sig : InstanceSignals) (fsm_mm : MutableModule) : MutableModule :=
  let m := fold_left try_add_signal (all_signals sig) fsm_mm in
  if is_autorun sig
  then add_always (ensure_signal_kind m (start_name sig) Reg) (generate_autorun_start sig)
  else
    let m := add_always m (generate_child_fsm sig (Ident START_Q) (Ident DONE_Q)) in
    let m := add_assign m (generate_start_assign sig) in
    add_assign m (generate_is_done_assign sig).

(** The control logic of a task with the given children: their logic in instance
    order, then the global FSM over the completion nets of those that complete. *)
Definition is_done_signals (sigs : list InstanceSignals) : list string :=
  map is_done_name (List.filter (fun s => negb (is_autorun s)) sigs).

Definition control_logic (sigs : list InstanceSignals) (fsm_mm : MutableModule) : MutableModule :=
  apply_global_fsm (fold_left (fun m s => add_fsm_control_logic s m) sigs fsm_mm) (is_done_signals sigs).
