(* ===== verification/VerilogSem.v ===== *)
(** * A semantics for the Verilog code generation builds

    Two-state, cycle-based semantics of the fragment the generated control uses:
    unsigned expressions, [if] and [case] over nonblocking assignments in blocks
    clocked by one edge, continuous assignments.  A behaviour of a module is a
    sequence of valuations of its names, one per cycle, in which every assignment
    holds and every written name takes the value its last write gives it. *)

From S2P Require Import Prelude RustStd Protocol Rtl.

Local Open Scope Z_scope.

Definition env := string -> Z.

(** ** Literals: [W'bD], [W'dD], ['dD] and plain decimals; a plain decimal has 32 bits. *)

Fixpoint binary_digits (acc : Z) (s : string) : option Z :=
  match s with
  | EmptyString => Some acc
  | String c s' =>
      if Ascii.eqb c "0" then binary_digits (2 * acc) s'
      else if Ascii.eqb c "1" then binary_digits (2 * acc + 1) s' else None
  end.

Definition lit_value (s : string) : option (Z * Z) :=
  match Str.split_once "'" s with
  | None => let? v := Str.parse_digits 0 s in if Str.is_empty s then None else Some (32, v)
  | Some (w, rest) =>
      let? width := if Str.is_empty w then Some 32 else Str.parse_digits 0 w in
      match rest with
      | String c digits =>
          if Str.is_empty digits then None
          else let? v := if Ascii.eqb c "b" then binary_digits 0 digits
                         else if Ascii.eqb c "d" then Str.parse_digits 0 digits else None in
               Some (width, v mod 2 ^ width)
      | EmptyString => None
      end
  end.

(** ** Expressions, with their self-determined width *)

Definition bit (b : bool) : Z * Z := (1, if b then 1 else 0).

Definition concat_step (acc : option (Z * Z)) (x : option (Z * Z)) : option (Z * Z) :=
  let? (w1, v1) := acc in let? (w2, v2) := x in Some (w1 + w2, v1 * 2 ^ w2 + v2).

(** [wd] gives the declared width of a name. A sum has no width of its own and is
    outside the fragment. *)
Fixpoint eval (wd rho : env) (e : Expr) : option (Z * Z) :=
  match e with
  | Ident n => Some (wd n, rho n)
  | Lit s => lit_value s
  | BinOp l op r =>
      let? (_, a) := eval wd rho l in
      let? (_, b) := eval wd rho r in
      match op with
      | OpEq => Some (bit (a =? b))
      | OpAnd => Some (bit (negb (a =? 0) && negb (b =? 0)))
      | OpPlus => None
      end
  | Index b i =>
      let? (_, v) := eval wd rho b in
      let? (_, k) := eval wd rho i in
      Some (1, (v / 2 ^ k) mod 2)
  | Range b m l =>
      let? (_, v) := eval wd rho b in
      let? (_, hi) := eval wd rho m in
      let? (_, lo) := eval wd rho l in
      Some (hi - lo + 1, (v / 2 ^ lo) mod 2 ^ (hi - lo + 1))
  | Concat es => fold_left concat_step (map (eval wd rho) es) (Some (0, 0))
  | Not i => let? (_, v) := eval wd rho i in Some (bit (v =? 0))
  end.

(** The control fragment does not look at widths. *)
Definition value (rho : env) (e : Expr) : option Z := option_map snd (eval (fun _ => 1) rho e).

(** ** Statements: the nonblocking writes they perform, in order *)

Definition write := (string * Z)%type.

Definition seq_writes {A} (f : A -> option (list write)) : list A -> option (list write) :=
  fix go l :=
    match l with
    | [] => Some []
    | x :: l' => let? a := f x in let? b := go l' in Some (a ++ b)
    end.

Fixpoint exec (rho : env) (s : Statement) : option (list write) :=
  let body := seq_writes (exec rho) in
  match s with
  | NonblockingAssign (Ident n) r => let? v := value rho r in Some [(n, v)]
  | NonblockingAssign _ _ => None
  | If c t e => let? v := value rho c in if v =? 0 then body e else body t
  | Case e items d =>
      let? v := value rho e in
      (fix pick l :=
         match l with
         | [] => body d
         | mkItem x b :: l' => let? k := value rho x in if v =? k then body b else pick l'
         end) items
  end.

Definition exec_block (rho : env) (b : AlwaysBlock) : option (list write) := seq_writes (exec rho) (al_body b).
Definition exec_blocks (rho : env) : list AlwaysBlock -> option (list write) := seq_writes (exec_block rho).

(** The value the last write to [n] gives it, its own otherwise. *)
Definition last_write (ws : list write) (n : string) (v : Z) : Z :=
  fold_left (fun v w => if bool_decide (w.1 = n) then w.2 else v) ws v.

(** ** Behaviours *)

(** The names a statement may write. *)
Fixpoint targets (s : Statement) : list string :=
  match s with
  | NonblockingAssign (Ident n) _ => [n]
  | NonblockingAssign _ _ => []
  | If _ t e => flat_map targets t ++ flat_map targets e
  | Case _ items d => flat_map (fun i => match i with mkItem _ b => flat_map targets b end) items ++ flat_map targets d
  end.

Definition block_targets (b : AlwaysBlock) : list string := flat_map targets (al_body b).
Definition registers (bs : list AlwaysBlock) : list string := flat_map block_targets bs.

Record behaviour (assigns : list ContinuousAssign) (blocks : list AlwaysBlock) (tr : nat -> env) : Prop := {
  beh_assign : forall t a, a ∈ assigns -> exists n, as_lhs a = Ident n /\ value (tr t) (as_rhs a) = Some (tr t n);
  beh_step : forall t, exists ws, exec_blocks (tr t) blocks = Some ws /\
    forall n, n ∈ registers blocks -> tr (S t) n = last_write ws n (tr t n);
}.

Definition module_behaviour (m : MutableModule) : (nat -> env) -> Prop := behaviour (added_assigns m) (added_always m).

(** ** Writes of a block stay among its targets *)

Lemma seq_writes_Some {A} (f : A -> option (list write)) l ws :
  seq_writes f l = Some ws -> exists wss, Forall2 (fun x w => f x = Some w) l wss /\ ws = concat wss.
Proof.
  revert ws. induction l as [|x l IH]; simpl; intros ws H.
  - injection H as <-. by exists [].
  - destruct (f x) as [a|] eqn:Ea; [|done]. destruct (seq_writes f l) as [b|]; [|done]. injection H as <-.
    destruct (IH b eq_refl) as (wss & H & ->). exists (a :: wss). split; [by constructor|done].
Qed.

Lemma seq_writes_app {A} (f : A -> option (list write)) l1 l2 :
  seq_writes f (l1 ++ l2) = (let? a := seq_writes f l1 in let? b := seq_writes f l2 in Some (a ++ b)).
Proof.
  induction l1 as [|x l1 IH]; simpl; [by destruct (seq_writes f l2)|].
  rewrite IH. destruct (f x), (seq_writes f l1), (seq_writes f l2); try done. by rewrite app_assoc.
Qed.

Lemma seq_writes_targets {A} (f : A -> option (list write)) (g : A -> list string) l ws n :
  Forall (fun x => forall ws, f x = Some ws -> n ∈ ws.*1 -> n ∈ g x) l ->
  seq_writes f l = Some ws -> n ∈ ws.*1 -> n ∈ flat_map g l.
Proof.
  intros Hl. revert ws. induction Hl as [|x l Hx Hl IH]; simpl; intros ws H Hn.
  - injection H as <-. by apply not_elem_of_nil in Hn.
  - destruct (f x) as [a|] eqn:Ea; [|done]. destruct (seq_writes f l) as [b|]; [|done]. injection H as <-.
    rewrite fmap_app in Hn. apply elem_of_app in Hn as [Hn|Hn]; apply elem_of_app; [left; eauto|right; eauto].
Qed.

Lemma last_write_app ws1 ws2 n v : last_write (ws1 ++ ws2) n v = last_write ws2 n (last_write ws1 n v).
Proof. unfold last_write. by rewrite fold_left_app. Qed.

Lemma last_write_ne ws n v : n ∉ ws.*1 -> last_write ws n v = v.
Proof.
  revert v. induction ws as [|[m x] ws IH]; simpl; [done|]. intros v Hn.
  rewrite not_elem_of_cons in Hn. destruct Hn as [H1 H2]. rewrite bool_decide_eq_false_2 by congruence. by apply IH.
Qed.

Section statement_induction.
Context (P : Statement -> Prop).
Context (Hset : forall l r, P (NonblockingAssign l r)).
Context (Hif : forall c t e, Forall P t -> Forall P e -> P (If c t e)).
Context (Hcase : forall e items d, Forall (fun i => match i with mkItem _ b => Forall P b end) items -> Forall P d -> P (Case e items d)).

Fixpoint statement_ind' (s : Statement) : P s :=
  let fix body (l : list Statement) : Forall P l :=
    match l with [] => Forall_nil_2 _ | x :: l' => Forall_cons_2 _ _ _ (statement_ind' x) (body l') end in
  match s with
  | NonblockingAssign l r => Hset l r
  | If c t e => Hif c t e (body t) (body e)
  | Case e items d =>
      Hcase e items d
        ((fix go (l : list CaseItem) : Forall (fun i => match i with mkItem _ b => Forall P b end) l :=
            match l with
            | [] => Forall_nil_2 _
            | mkItem v b :: l' => Forall_cons_2 (fun i => match i with mkItem _ b => Forall P b end) (mkItem v b) l' (body b) (go l')
            end) items)
        (body d)
  end.
End statement_induction.

Lemma exec_targets rho s : forall ws n, exec rho s = Some ws -> n ∈ ws.*1 -> n ∈ targets s.
Proof.
  induction s as [l r|c t e Ht He|x items d Hi Hd] using statement_ind'; simpl; intros ws n H Hn.
  - destruct l; try done. destruct (value rho r); [|done]. injection H as <-. done.
  - destruct (value rho c) as [v|]; [|done]. apply elem_of_app.
    destruct (v =? 0); [right; eapply (seq_writes_targets (exec rho) targets)|left; eapply (seq_writes_targets (exec rho) targets)]; eauto;
      eapply Forall_impl; eauto; naive_solver.
  - destruct (value rho x) as [v|]; [|done]. revert H. induction Hi as [|[k b] items Hb Hi IH]; simpl; intros H.
    + eapply (seq_writes_targets (exec rho) targets); eauto. eapply Forall_impl; eauto; naive_solver.
    + destruct (value rho k) as [kv|]; [|done]. destruct (v =? kv).
      * apply elem_of_app. left. apply elem_of_app. left.
        eapply (seq_writes_targets (exec rho) targets); eauto. eapply Forall_impl; eauto; naive_solver.
      * specialize (IH H). apply elem_of_app in IH as [IH|IH]; rewrite <- (app_assoc (flat_map targets b)); apply elem_of_app; right; apply elem_of_app; auto.
Qed.

Lemma exec_block_targets rho b ws n : exec_block rho b = Some ws -> n ∈ ws.*1 -> n ∈ block_targets b.
Proof.
  intros H Hn. eapply (seq_writes_targets (exec rho) targets); eauto. apply Forall_forall. intros s _ ws' H' Hn'. eapply exec_targets; eauto.
Qed.

Lemma exec_blocks_targets rho bs ws n : exec_blocks rho bs = Some ws -> n ∈ ws.*1 -> n ∈ registers bs.
Proof.
  intros H Hn. eapply (seq_writes_targets (exec_block rho) block_targets); eauto. apply Forall_forall. intros b _ ws' H' Hn'. eapply exec_block_targets; eauto.
Qed.

(** A name only one block writes follows that block. *)
Lemma block_step bs1 b bs2 assigns tr t n :
  behaviour assigns (bs1 ++ b :: bs2) tr -> n ∉ registers bs1 -> n ∉ registers bs2 -> n ∈ block_targets b ->
  exists ws, exec_block (tr t) b = Some ws /\ tr (S t) n = last_write ws n (tr t n).
Proof.
  intros [_ Hs] H1 H2 Hb. destruct (Hs t) as (ws & He & Hn). unfold exec_blocks in He. rewrite seq_writes_app in He. simpl in He.
  destruct (seq_writes (exec_block (tr t)) bs1) as [w1|] eqn:E1; [|done].
  destruct (exec_block (tr t) b) as [w|] eqn:E; [|done].
  destruct (seq_writes (exec_block (tr t)) bs2) as [w2|] eqn:E2; [|done]. injection He as <-.
  exists w. split; [done|]. rewrite Hn.
  - rewrite !last_write_app. rewrite (last_write_ne w2); [|intros ?; apply H2; eapply exec_blocks_targets; eauto].
    f_equal. apply last_write_ne. intros ?; apply H1; eapply exec_blocks_targets; eauto.
  - unfold registers. rewrite flat_map_app. simpl. apply elem_of_app. right. apply elem_of_app. by left.
Qed.

(** ** Every input sequence has a behaviour

    Modules whose assignments are listed in dependency order are simulated: each
    cycle registers take their written values, other names their inputs, and one
    pass over the assignments settles the rest. *)

Fixpoint evaluable (e : Expr) : bool :=
  match e with
  | Ident _ => true
  | Lit s => match lit_value s with Some _ => true | None => false end
  | BinOp l op r => match op with OpPlus => false | _ => evaluable l && evaluable r end
  | Not i => evaluable i
  | _ => false
  end.

Fixpoint reads (e : Expr) : list string :=
  match e with
  | Ident n => [n]
  | BinOp l _ r => reads l ++ reads r
  | Not i => reads i
  | _ => []
  end.

Lemma evaluable_value rho e : evaluable e = true -> exists v, value rho e = Some v.
Proof.
  unfold value. induction e as [n|s|l IHl op r IHr|b IHb i IHi|b IHb m IHm l IHl|es|i IHi]; simpl; intros H; try done.
  - eauto.
  - destruct (lit_value s) as [[w v]|]; [simpl; eauto|done].
  - destruct op; try done; apply andb_true_iff in H as [Hl Hr]; destruct (IHl Hl) as [a Ea], (IHr Hr) as [b Eb];
      destruct (eval _ rho l) as [[]|]; try done; destruct (eval _ rho r) as [[]|]; try done; simpl; eauto.
  - destruct (IHi H) as [v Ev]. destruct (eval _ rho i) as [[]|]; [simpl; eauto|done].
Qed.

Lemma eval_agree wd rho rho' e : (forall n, n ∈ reads e -> rho n = rho' n) -> evaluable e = true -> eval wd rho e = eval wd rho' e.
Proof.
  induction e as [n|s|l IHl op r IHr|b IHb i IHi|b IHb m IHm l IHl|es|i IHi]; simpl; intros H He; try done.
  - by rewrite H; [|apply elem_of_cons; left].
  - assert (evaluable l = true /\ evaluable r = true) as [Hl Hr] by (destruct op; try done; by apply andb_true_iff).
    rewrite IHl, IHr; auto; intros; apply H, elem_of_app; auto.
  - by rewrite IHi.
Qed.

Lemma value_agree rho rho' e : (forall n, n ∈ reads e -> rho n = rho' n) -> evaluable e = true -> value rho e = value rho' e.
Proof. intros H He. unfold value. by rewrite (eval_agree _ rho rho'). Qed.

Definition upd (rho : env) (n : string) (v : Z) : env := fun m => if bool_decide (m = n) then v else rho m.

Definition settle_one (rho : env) (a : ContinuousAssign) : env :=
  match as_lhs a, value rho (as_rhs a) with Ident n, Some v => upd rho n v | _, _ => rho end.
Definition settle (assigns : list ContinuousAssign) (rho : env) : env := fold_left settle_one assigns rho.

Definition assigned (assigns : list ContinuousAssign) : list string :=
  omap (fun a => match as_lhs a with Ident n => Some n | _ => None end) assigns.

(** Each assignment drives a name no earlier one reads or drives, and its
    own side does not read it. *)
Fixpoint ordered_from (seen : list string) (assigns : list ContinuousAssign) : bool :=
  match assigns with
  | [] => true
  | a :: rest =>
      match as_lhs a with
      | Ident n => evaluable (as_rhs a) && bool_decide (n ∉ seen) && bool_decide (n ∉ reads (as_rhs a))
                   && ordered_from (n :: reads (as_rhs a) ++ seen) rest
      | _ => false
      end
  end.

Lemma settle_other assigns rho n : n ∉ assigned assigns -> settle assigns rho n = rho n.
Proof.
  revert rho. induction assigns as [|a rest IH]; intros rho Hn; [done|]. unfold settle, assigned in *. simpl in *.
  destruct (as_lhs a) as [m| | | | | |] eqn:Ea; unfold settle_one; rewrite Ea; try (apply IH; exact Hn).
  rewrite not_elem_of_cons in Hn. destruct Hn as [H1 H2]. rewrite IH by exact H2.
  destruct (value rho (as_rhs a)); [|done]. unfold upd. by rewrite bool_decide_eq_false_2.
Qed.

Lemma ordered_not_seen seen assigns n : ordered_from seen assigns = true -> n ∈ seen -> n ∉ assigned assigns.
Proof.
  revert seen. induction assigns as [|a rest IH]; simpl; intros seen H Hn; [apply not_elem_of_nil|].
  unfold assigned. simpl. destruct (as_lhs a) as [m| | | | | |]; try done.
  apply andb_true_iff in H as [H Hr]. apply andb_true_iff in H as [H _]. apply andb_true_iff in H as [_ Hs].
  apply bool_decide_eq_true in Hs. apply not_elem_of_cons. split; [by intros ->|].
  apply (IH _ Hr). apply elem_of_cons. right. apply elem_of_app. by right.
Qed.

Lemma settle_holds seen assigns rho a : ordered_from seen assigns = true -> a ∈ assigns ->
  exists n, as_lhs a = Ident n /\ value (settle assigns rho) (as_rhs a) = Some (settle assigns rho n).
Proof.
  revert seen rho. induction assigns as [|b rest IH]; simpl; intros seen rho H Ha; [by apply not_elem_of_nil in Ha|].
  destruct (as_lhs b) as [n| | | | | |] eqn:Eb; try done.
  apply andb_true_iff in H as [H Hr]. apply andb_true_iff in H as [H Hown]. apply andb_true_iff in H as [He Hs].
  apply bool_decide_eq_true in Hs, Hown.
  apply elem_of_cons in Ha as [->|Ha]; [|unfold settle; simpl; eauto].
  exists n. split; [done|]. destruct (evaluable_value rho _ He) as [v Ev].
  assert (Hset : settle_one rho b = upd rho n v) by (unfold settle_one; by rewrite Eb, Ev).
  change (settle (b :: rest) rho) with (settle rest (settle_one rho b)). rewrite Hset.
  rewrite (value_agree _ (upd rho n v)); [|intros m Hm; apply settle_other; eapply ordered_not_seen; eauto; apply elem_of_cons; right; apply elem_of_app; by left|done].
  rewrite (settle_other rest _ n) by (eapply ordered_not_seen; eauto; by apply elem_of_cons; left).
  rewrite (value_agree _ rho); [|intros m Hm; unfold upd; rewrite bool_decide_eq_false_2; [done|intros ->; done]|done].
  unfold upd. by rewrite bool_decide_eq_true_2.
Qed.

Fixpoint executable (s : Statement) : bool :=
  match s with
  | NonblockingAssign (Ident _) r => evaluable r
  | NonblockingAssign _ _ => false
  | If c t e => evaluable c && forallb executable t && forallb executable e
  | Case x items d =>
      evaluable x && forallb (fun i => match i with mkItem k b => evaluable k && forallb executable b end) items && forallb executable d
  end.

Lemma seq_writes_total {A} (f : A -> option (list write)) l :
  Forall (fun x => exists ws, f x = Some ws) l -> exists ws, seq_writes f l = Some ws.
Proof.
  induction 1 as [|x l [a Ha] _ [b Hb]]; simpl; [eauto|]. rewrite Ha, Hb. eauto.
Qed.

Lemma forallb_total {A} (p : A -> bool) (f : A -> option (list write)) l :
  Forall (fun x => p x = true -> exists ws, f x = Some ws) l -> forallb p l = true -> exists ws, seq_writes f l = Some ws.
Proof.
  intros Hf H. apply seq_writes_total. induction Hf as [|x l Hx Hl IH]; [constructor|]. simpl in H.
  apply andb_true_iff in H as [Hp H]. constructor; auto.
Qed.

Lemma executable_exec rho s : executable s = true -> exists ws, exec rho s = Some ws.
Proof.
  induction s as [l r|c t e Ht He|x items d Hi Hd] using statement_ind'; simpl; intros H.
  - destruct l; try done. destruct (evaluable_value rho r H) as [v ->]. eauto.
  - apply andb_true_iff in H as [H Hee]. apply andb_true_iff in H as [Hc Hte]. destruct (evaluable_value rho c Hc) as [v ->].
    destruct (v =? 0); by apply (forallb_total executable).
  - apply andb_true_iff in H as [H Hde]. apply andb_true_iff in H as [Hc Hie]. destruct (evaluable_value rho x Hc) as [v ->].
    induction Hi as [|[k b] items Hb Hi IH]; [by apply (forallb_total executable)|]. simpl in Hie.
    apply andb_true_iff in Hie as [Hkb Hie]. apply andb_true_iff in Hkb as [Hk Hb']. destruct (evaluable_value rho k Hk) as [kv ->].
    destruct (v =? kv); [by apply (forallb_total executable)|auto].
Qed.

Section simulation.
Context (assigns : list ContinuousAssign) (blocks : list AlwaysBlock) (inputs : nat -> env).

Fixpoint simulate (t : nat) : env :=
  match t with
  | O => settle assigns (inputs O)
  | S t' =>
      let rho := simulate t' in
      let ws := default [] (exec_blocks rho blocks) in
      settle assigns (fun n => if bool_decide (n ∈ registers blocks) then last_write ws n (rho n) else inputs t n)
  end.

Context (Hassigns : ordered_from (registers blocks) assigns = true).
Context (Hblocks : forallb (fun b => forallb executable (al_body b)) blocks = true).

Lemma simulate_behaviour : behaviour assigns blocks simulate.
Proof using Hassigns Hblocks.
  split.
  - intros t a Ha. destruct t; by apply (settle_holds (registers blocks)).
  - intros t. destruct (forallb_total (fun b => forallb executable (al_body b)) (exec_block (simulate t)) blocks) as [ws Hws]; [|done|].
    { apply Forall_forall. intros b _ Hb. apply (forallb_total executable); [|done]. apply Forall_forall. intros s _. apply executable_exec. }
    exists ws. split; [done|]. intros n Hn. simpl. rewrite settle_other by (eapply ordered_not_seen; eauto).
    rewrite bool_decide_eq_true_2 by done. unfold exec_blocks. by rewrite Hws.
Qed.

Lemma simulate_input t n : n ∉ registers blocks -> n ∉ assigned assigns -> simulate t n = inputs t n.
Proof using All.
  intros Hr Ha. destruct t; simpl; rewrite settle_other by done; [done|]. by rewrite bool_decide_eq_false_2.
Qed.
End simulation.
