(* ===== verification/ControlProps.v ===== *)
(** * What the generated control does

    The FSM modules refine a system of phases, and make progress: every task that
    starts completes, when all its children have reported done, provided each
    child answers its start. *)

From S2P Require Import Prelude RustStd Protocol Rtl Control VerilogSem.

Local Open Scope Z_scope.

(** ** The abstract system *)

Inductive child_phase := Idle | Running | Waiting | Done.
Inductive task_phase := TIdle | TRunning | TDone.

#[export] Instance child_phase_eq : EqDecision child_phase.
Proof. solve_decision. Defined.
#[export] Instance task_phase_eq : EqDecision task_phase.
Proof. solve_decision. Defined.

Definition child_code (p : child_phase) : Z := match p with Idle => 0 | Running => 1 | Waiting => 3 | Done => 2 end.
Definition task_code (p : task_phase) : Z := match p with TIdle => 0 | TRunning => 1 | TDone => 2 end.

Definition child_next (start ready done release : bool) (p : child_phase) : child_phase :=
  match p with
  | Idle => if start then Running else Idle
  | Running => if ready then (if done then Done else Waiting) else Running
  | Waiting => if done then Done else Waiting
  | Done => if release then Idle else Done
  end.

Definition task_next (start all_done : bool) (p : task_phase) : task_phase :=
  match p with
  | TIdle => if start then TRunning else TIdle
  | TRunning => if all_done then TDone else TRunning
  | TDone => TIdle
  end.

(** A name is high when its value is not zero. *)
Definition hi (rho : env) (n : string) : bool := negb (rho n =? 0).

Record system := mkSystem { task : task_phase; kids : list child_phase }.

Definition system_reset (sigs : list InstanceSignals) : system := mkSystem TIdle (map (fun _ => Idle) sigs).

(** One cycle of the system over the completing children [sigs], whose signals and
    those of the task are read in [rho]. *)
Definition system_step (sigs : list InstanceSignals) (rho : env) (st : system) : system :=
  if negb (hi rho HANDSHAKE_RST_N) then system_reset sigs
  else mkSystem
    (task_next (hi rho HANDSHAKE_START) (forallb (fun p => bool_decide (p = Done)) (kids st)) (task st))
    (zip_with (fun s p => child_next (hi rho HANDSHAKE_START) (hi rho (ready_name s)) (hi rho (done_name s))
                            (bool_decide (task st = TDone)) p) sigs (kids st)).

(** The state registers hold the codes of the phases. *)
Record represents (sigs : list InstanceSignals) (rho : env) (st : system) : Prop := {
  rep_task : rho GLOBAL_STATE = task_code (task st);
  rep_kids : Forall2 (fun s p => rho (state_name s) = child_code p) sigs (kids st);
}.

(** ** The blocks *)

Lemma value_ident rho n : value rho (Ident n) = Some (rho n).
Proof. reflexivity. Qed.
Lemma value_lit rho s w v : lit_value s = Some (w, v) -> value rho (Lit s) = Some v.
Proof. unfold value. simpl. by intros ->. Qed.
Lemma value_eq rho l r a b : value rho l = Some a -> value rho r = Some b -> value rho (BinOp l OpEq r) = Some (if a =? b then 1 else 0).
Proof.
  unfold value. simpl. destruct (eval _ rho l) as [[]|]; [|done]. destruct (eval _ rho r) as [[]|]; [|done]. simpl. by intros [= ->] [= ->].
Qed.
Lemma value_and rho l r a b : value rho l = Some a -> value rho r = Some b ->
  value rho (logical_and l r) = Some (if negb (a =? 0) && negb (b =? 0) then 1 else 0).
Proof.
  unfold value. simpl. destruct (eval _ rho l) as [[]|]; [|done]. destruct (eval _ rho r) as [[]|]; [|done]. simpl. by intros [= ->] [= ->].
Qed.
Lemma value_not rho e a : value rho e = Some a -> value rho (Not e) = Some (if a =? 0 then 1 else 0).
Proof. unfold value. simpl. destruct (eval _ rho e) as [[]|]; [|done]. simpl. by intros [= ->]. Qed.

Lemma lit_00 rho : value rho (Lit "2'b00") = Some 0. Proof. by apply (value_lit rho _ 2 0). Qed.
Lemma lit_01 rho : value rho (Lit "2'b01") = Some 1. Proof. by apply (value_lit rho _ 2 1). Qed.
Lemma lit_10 rho : value rho (Lit "2'b10") = Some 2. Proof. by apply (value_lit rho _ 2 2). Qed.
Lemma lit_11 rho : value rho (Lit "2'b11") = Some 3. Proof. by apply (value_lit rho _ 2 3). Qed.

(** A conjunction is true when all its terms are. *)
Lemma value_all rho names : value rho (expr_all (map Ident names)) = Some (if forallb (hi rho) names then 1 else 0) \/
  exists n, names = [n] /\ value rho (expr_all (map Ident names)) = Some (rho n).
Proof.
  destruct names as [|n names]; [left; by apply (value_lit rho _ 1 1)|].
  destruct names as [|m names]; [right; by exists n|]. left.
  assert (Hf : forall names e (b : bool), value rho e = Some (if b then 1 else 0) ->
    value rho (fold_left logical_and (map Ident names) e) = Some (if b && forallb (hi rho) names then 1 else 0)).
  { clear n m names. induction names as [|n names IH]; simpl; intros e b He; [by rewrite andb_true_r|].
    rewrite (IH _ (b && hi rho n)), andb_assoc; [done|]. rewrite (value_and _ _ _ _ _ He (value_ident rho n)). by destruct b. }
  simpl. rewrite (Hf _ _ (hi rho n && hi rho m)), andb_assoc; [done|]. by apply value_and.
Qed.

Lemma value_all_true rho names : exists v, value rho (expr_all (map Ident names)) = Some v /\ negb (v =? 0) = forallb (hi rho) names.
Proof.
  destruct (value_all rho names) as [H|(n & -> & H)]; eexists; (split; [exact H|]).
  - by destruct (forallb _ _).
  - simpl. by rewrite andb_true_r.
Qed.

Definition child_block (s : InstanceSignals) : AlwaysBlock := generate_child_fsm s (Ident START_Q) (Ident DONE_Q).

Lemma child_block_writes s rho p : rho (state_name s) = child_code p ->
  exists ws, exec_block rho (child_block s) = Some ws /\
    last_write ws (state_name s) (rho (state_name s)) =
      (if hi rho HANDSHAKE_RST then child_code Idle
       else child_code (child_next (hi rho START_Q) (hi rho (ready_name s)) (hi rho (done_name s)) (hi rho DONE_Q) p)).
Proof.
  intros Hp. unfold exec_block, child_block, generate_child_fsm, set_state, state_expr, done_expr, hi. cbn [al_body seq_writes exec].
  rewrite (value_and _ _ _ _ _ (value_ident rho (ready_name s)) (value_ident rho (done_name s))), !value_ident, lit_00, lit_01, lit_10, lit_11, Hp.
  destruct (rho HANDSHAKE_RST =? 0); simpl.
  - destruct p; simpl; repeat (match goal with |- context [if rho ?n =? 0 then _ else _] => destruct (rho n =? 0) | |- context [negb (rho ?n =? 0)] => destruct (rho n =? 0) end; simpl);
      eexists; (split; [reflexivity|]); unfold last_write; simpl; rewrite ?bool_decide_eq_true_2 by done; done.
  - eexists. split; [reflexivity|]. unfold last_write. simpl. by rewrite bool_decide_eq_true_2.
Qed.

Lemma child_block_reset s rho : hi rho HANDSHAKE_RST = true ->
  exists ws, exec_block rho (child_block s) = Some ws /\ last_write ws (state_name s) (rho (state_name s)) = child_code Idle.
Proof.
  unfold hi. intros H. unfold exec_block, child_block, generate_child_fsm, set_state, state_expr. cbn [al_body seq_writes exec].
  rewrite value_ident, lit_00. destruct (rho HANDSHAKE_RST =? 0); [done|]. simpl.
  eexists. split; [reflexivity|]. unfold last_write. simpl. by rewrite bool_decide_eq_true_2.
Qed.

Lemma global_block_writes names rho p : rho GLOBAL_STATE = task_code p ->
  exists ws, exec_block rho (global_fsm_block names) = Some ws /\
    last_write ws GLOBAL_STATE (rho GLOBAL_STATE) =
      (if hi rho HANDSHAKE_RST then task_code TIdle
       else task_code (task_next (hi rho HANDSHAKE_START) (forallb (hi rho) names) p)).
Proof.
  intros Hp. destruct (value_all_true rho names) as (v & Hv & Ev).
  unfold exec_block, global_fsm_block, hi at 1 2. cbn [al_body seq_writes exec].
  rewrite Hv, !value_ident, lit_00, lit_01, lit_10, Hp.
  destruct (rho HANDSHAKE_RST =? 0); simpl.
  - rewrite <- Ev. destruct p; simpl; repeat (match goal with |- context [if ?n =? 0 then _ else _] => destruct (n =? 0) | |- context [negb (?n =? 0)] => destruct (n =? 0) end; simpl);
      eexists; (split; [reflexivity|]); reflexivity.
  - eexists. split; reflexivity.
Qed.

Lemma global_block_reset names rho : hi rho HANDSHAKE_RST = true ->
  exists ws, exec_block rho (global_fsm_block names) = Some ws /\ last_write ws GLOBAL_STATE (rho GLOBAL_STATE) = task_code TIdle.
Proof.
  unfold hi. intros H. unfold exec_block, global_fsm_block. cbn [al_body seq_writes exec].
  rewrite value_ident, lit_00. destruct (rho HANDSHAKE_RST =? 0); [done|]. simpl. eexists. split; reflexivity.
Qed.

Lemma autorun_block_writes s rho :
  exists ws, exec_block rho (generate_autorun_start s) = Some ws /\
    last_write ws (start_name s) (rho (start_name s)) =
      (if hi rho HANDSHAKE_RST then 0 else if hi rho HANDSHAKE_START then 1 else rho (start_name s)).
Proof.
  unfold exec_block, generate_autorun_start, start_expr, hi. cbn [al_body seq_writes exec].
  rewrite !value_ident, (value_lit rho "1'b0" 1 0), (value_lit rho "1'b1" 1 1) by reflexivity.
  destruct (rho HANDSHAKE_RST =? 0); simpl; [destruct (rho HANDSHAKE_START =? 0); simpl|];
    eexists; (split; [reflexivity|]); unfold last_write; simpl; rewrite ?bool_decide_eq_true_2 by done; done.
Qed.

(** ** The control within a module

    What the theorems need of a module: every block the only writer of its
    register, and the assignments present.  Other blocks and assignments, such as
    those of the argument pipelines, may stand beside them. *)

Definition sole_writer (blocks : list AlwaysBlock) (b : AlwaysBlock) (n : string) : Prop :=
  exists bs1 bs2, blocks = bs1 ++ b :: bs2 /\ n ∉ registers bs1 /\ n ∉ registers bs2.

Definition completing (sigs : list InstanceSignals) : list InstanceSignals := List.filter (fun s => negb (is_autorun s)) sigs.

Definition global_assigns : list ContinuousAssign :=
  [mkAssign (Ident HANDSHAKE_RST) (Not (Ident HANDSHAKE_RST_N));
   mkAssign (Ident START_Q) (Ident HANDSHAKE_START);
   mkAssign (Ident HANDSHAKE_IDLE) (expr_eq (Ident GLOBAL_STATE) (Lit GLOBAL_STATE_IDLE));
   mkAssign (Ident DONE_Q) (expr_eq (Ident GLOBAL_STATE) (Lit GLOBAL_STATE_DONE));
   mkAssign (Ident HANDSHAKE_DONE) (Ident DONE_Q);
   mkAssign (Ident HANDSHAKE_READY) (Ident DONE_Q)].

Definition child_assigns (s : InstanceSignals) : list ContinuousAssign :=
  if is_autorun s then [] else [generate_start_assign s; generate_is_done_assign s].

Definition control_block (s : InstanceSignals) : AlwaysBlock := if is_autorun s then generate_autorun_start s else child_block s.
Definition control_reg (s : InstanceSignals) : string := if is_autorun s then start_name s else state_name s.

Record has_control (sigs : list InstanceSignals) (assigns : list ContinuousAssign) (blocks : list AlwaysBlock) : Prop := {
  hc_block : forall s, s ∈ sigs -> sole_writer blocks (control_block s) (control_reg s);
  hc_global : sole_writer blocks (global_fsm_block (is_done_signals sigs)) GLOBAL_STATE;
  hc_assigns : forall a, a ∈ global_assigns \/ (exists s, s ∈ sigs /\ a ∈ child_assigns s) -> a ∈ assigns;
}.

(** *** Assembly *)

Lemma try_add_signal_body m s :
  added_assigns (try_add_signal m s) = added_assigns m /\ added_always (try_add_signal m s) = added_always m.
Proof. unfold try_add_signal, add_signal. repeat (case_match; simplify_eq/=); auto. Qed.

Lemma try_add_port_body m p :
  added_assigns (try_add_port m p) = added_assigns m /\ added_always (try_add_port m p) = added_always m.
Proof. unfold try_add_port, add_port. repeat (case_match; simplify_eq/=); auto. Qed.

Lemma try_add_signals_body m l :
  added_assigns (fold_left try_add_signal l m) = added_assigns m /\ added_always (fold_left try_add_signal l m) = added_always m.
Proof.
  revert m. induction l as [|s l IH]; simpl; intros m; [done|]. destruct (IH (try_add_signal m s)) as [-> ->]. apply try_add_signal_body.
Qed.

Lemma add_fsm_control_logic_body s m :
  added_assigns (add_fsm_control_logic s m) = added_assigns m ++ child_assigns s /\
  added_always (add_fsm_control_logic s m) = added_always m ++ [control_block s].
Proof.
  unfold add_fsm_control_logic, child_assigns, control_block, child_block.
  destruct (try_add_signals_body m (all_signals s)) as [E1 E2]. destruct (is_autorun s); simpl; rewrite E1, E2.
  - by rewrite app_nil_r.
  - by rewrite <- app_assoc.
Qed.

Lemma apply_global_fsm_body m names :
  added_assigns (apply_global_fsm m names) = added_assigns m ++ global_assigns /\
  added_always (apply_global_fsm m names) = added_always m ++ [global_fsm_block names].
Proof.
  unfold apply_global_fsm. cbn [added_assigns added_always add_assign add_always].
  repeat match goal with
  | |- context [added_assigns (try_add_signal ?m ?s)] => rewrite (proj1 (try_add_signal_body m s))
  | |- context [added_always (try_add_signal ?m ?s)] => rewrite (proj2 (try_add_signal_body m s))
  | |- context [added_assigns (try_add_port ?m ?s)] => rewrite (proj1 (try_add_port_body m s))
  | |- context [added_always (try_add_port ?m ?s)] => rewrite (proj2 (try_add_port_body m s))
  end.
  by rewrite <- !app_assoc.
Qed.

Lemma children_body sigs m :
  added_assigns (fold_left (fun m s => add_fsm_control_logic s m) sigs m) = added_assigns m ++ flat_map child_assigns sigs /\
  added_always (fold_left (fun m s => add_fsm_control_logic s m) sigs m) = added_always m ++ map control_block sigs.
Proof.
  revert m. induction sigs as [|s sigs IH]; simpl; intros m; [by rewrite !app_nil_r|].
  destruct (IH (add_fsm_control_logic s m)) as [-> ->]. destruct (add_fsm_control_logic_body s m) as [-> ->].
  by rewrite <- !app_assoc.
Qed.

Lemma control_logic_body sigs m :
  added_assigns (control_logic sigs m) = added_assigns m ++ flat_map child_assigns sigs ++ global_assigns /\
  added_always (control_logic sigs m) = added_always m ++ map control_block sigs ++ [global_fsm_block (is_done_signals sigs)].
Proof.
  unfold control_logic. destruct (apply_global_fsm_body (fold_left (fun m s => add_fsm_control_logic s m) sigs m) (is_done_signals sigs)) as [-> ->].
  destruct (children_body sigs m) as [-> ->]. by rewrite <- !app_assoc.
Qed.

(** *** Distinct registers *)

Fixpoint last_char (s : string) : option ascii :=
  match s with EmptyString => None | String c EmptyString => Some c | String _ s' => last_char s' end.

Lemma last_char_app a c b : last_char (a +:+ String c b) = last_char (String c b).
Proof.
  induction a as [|x a IH]; [done|]. rewrite <- IH. simpl. by destruct a.
Qed.

Lemma control_reg_inj s1 s2 : control_reg s1 = control_reg s2 -> is_instance s1 = is_instance s2.
Proof.
  unfold control_reg, start_name, state_name. intros E.
  destruct (is_autorun s1), (is_autorun s2); try (by apply Str.app_inj_r in E);
    apply (f_equal last_char) in E; rewrite !last_char_app in E; discriminate.
Qed.

Lemma control_reg_global s : control_reg s <> GLOBAL_STATE.
Proof.
  unfold control_reg, start_name, state_name. destruct (is_autorun s); intros E.
  - apply (f_equal last_char) in E. rewrite last_char_app in E. discriminate.
  - apply (f_equal (Str.strip_suffix_str "__state")) in E. rewrite Str.strip_suffix_app in E by done. discriminate.
Qed.

Lemma control_block_targets s n : n ∈ block_targets (control_block s) <-> n = control_reg s.
Proof.
  unfold control_block, control_reg, child_block, block_targets, generate_autorun_start, generate_child_fsm, set_state, state_expr, start_expr.
  destruct (is_autorun s); simpl; rewrite ?elem_of_cons, ?elem_of_nil; naive_solver.
Qed.

Lemma global_block_targets names n : n ∈ block_targets (global_fsm_block names) <-> n = GLOBAL_STATE.
Proof. unfold block_targets, global_fsm_block. simpl. rewrite !elem_of_cons, elem_of_nil. naive_solver. Qed.

Lemma control_registers sigs n : n ∈ registers (map control_block sigs) <-> exists s, s ∈ sigs /\ n = control_reg s.
Proof.
  unfold registers. rewrite flat_map_concat_map, map_map, list_elem_of_In, in_concat. split.
  - intros (l & Hl & Hn). apply in_map_iff in Hl as (s & <- & Hs). apply list_elem_of_In in Hs, Hn. exists s. by rewrite <- control_block_targets.
  - intros (s & Hs & ->). exists (block_targets (control_block s)). split; [apply in_map_iff; exists s; by rewrite <- list_elem_of_In|].
    apply list_elem_of_In. by apply control_block_targets.
Qed.

Lemma registers_app l1 l2 n : n ∈ registers (l1 ++ l2) <-> n ∈ registers l1 \/ n ∈ registers l2.
Proof. unfold registers. rewrite flat_map_app. apply elem_of_app. Qed.

(** A module whose own blocks leave the control registers alone has the control. *)
Lemma control_logic_has sigs m : NoDup (map is_instance sigs) ->
  (forall n, n ∈ registers (added_always m) -> n <> GLOBAL_STATE /\ forall s, s ∈ sigs -> n <> control_reg s) ->
  has_control sigs (added_assigns (control_logic sigs m)) (added_always (control_logic sigs m)).
Proof.
  intros Hnd Hm. destruct (control_logic_body sigs m) as [-> ->]. split.
  - intros s Hs. apply list_elem_of_split in Hs as (l1 & l2 & ->).
    assert (Hne : forall s', s' ∈ l1 \/ s' ∈ l2 -> control_reg s <> control_reg s').
    { intros s' H E. apply control_reg_inj in E. rewrite map_app in Hnd. simpl in Hnd. apply NoDup_app in Hnd as (_ & Hd & Hnd).
      apply NoDup_cons in Hnd as [Hn _]. destruct H as [H|H].
      - apply (Hd (is_instance s)); [rewrite E; by apply list_elem_of_fmap_2|by apply elem_of_cons; left].
      - apply Hn. rewrite E. by apply list_elem_of_fmap_2. }
    exists (added_always m ++ map control_block l1), (map control_block l2 ++ [global_fsm_block (is_done_signals (l1 ++ s :: l2))]).
    split; [by rewrite map_app, <- !app_assoc|]. split; rewrite registers_app, control_registers; intros [H|H].
    + destruct (Hm _ H) as [_ Hc]. apply (Hc s); [apply elem_of_app; right; by apply elem_of_cons; left|done].
    + destruct H as (s' & Hs' & E). apply (Hne s'); auto.
    + destruct H as (s' & Hs' & E). apply (Hne s'); auto.
    + unfold registers in H. cbn [flat_map] in H. rewrite List.app_nil_r in H. apply global_block_targets in H. by apply control_reg_global in H.
  - exists (added_always m ++ map control_block sigs), []. split; [by rewrite <- app_assoc|]. split; [|apply not_elem_of_nil].
    rewrite registers_app, control_registers. intros [H|(s & _ & E)]; [by apply Hm in H as [H _]|by apply (control_reg_global s)].
  - intros a [Ha|(s & Hs & Ha)]; apply elem_of_app; right; apply elem_of_app; [by right|left].
    apply list_elem_of_In, in_flat_map. exists s. by rewrite <- !list_elem_of_In.
Qed.

(** ** The phases agree

    An idle task has idle children, a running one children under way, a done one
    children that are all done. *)

Definition agree (st : system) : Prop :=
  match task st with
  | TIdle => Forall (fun p => p = Idle) (kids st)
  | TRunning => Forall (fun p => p <> Idle) (kids st)
  | TDone => Forall (fun p => p = Done) (kids st)
  end.

Lemma Forall_zip_with_r {A B} (P Q : B -> Prop) (f : A -> B -> B) l k :
  (forall a b, P b -> Q (f a b)) -> Forall P k -> Forall Q (zip_with f l k).
Proof.
  intros H Hk. revert l. induction Hk as [|b k Hb Hk IH]; intros [|a l]; simpl; constructor; auto.
Qed.

Lemma agree_step sigs rho st : agree st -> agree (system_step sigs rho st).
Proof.
  unfold agree, system_step. intros H. destruct (hi rho HANDSHAKE_RST_N); simpl.
  2: { apply Forall_fmap, Forall_forall. done. }
  destruct (task st); simpl.
  - destruct (hi rho HANDSHAKE_START); simpl; (eapply Forall_zip_with_r; [|exact H]); by intros s p ->.
  - destruct (forallb (fun p => bool_decide (p = Done)) (kids st)) eqn:E.
    + assert (Hd : Forall (fun p => p = Done) (kids st)).
      { apply Forall_forall. intros p Hp. apply list_elem_of_In in Hp. rewrite forallb_forall in E. apply E in Hp. by apply bool_decide_eq_true in Hp. }
      eapply Forall_zip_with_r; [|exact Hd]. by intros s p ->.
    + eapply Forall_zip_with_r; [|exact H]. intros s p Hp. destruct p; simpl; repeat case_match; done.
  - eapply Forall_zip_with_r; [|exact H]. by intros s p ->.
Qed.

(** ** Behaviours of a module with the control *)

Lemma Forall2_zip_with {A B} (P Q : A -> B -> Prop) (f : A -> B -> B) l k :
  (forall a b, a ∈ l -> P a b -> Q a (f a b)) -> Forall2 P l k -> Forall2 Q l (zip_with f l k).
Proof.
  intros H Hf. induction Hf as [|a b l k Hab Hf IH]; simpl; constructor; [apply H; [by apply elem_of_cons; left|done]|].
  apply IH. intros a' b' Ha'. apply H. by apply elem_of_cons; right.
Qed.

Section control.
Context (sigs : list InstanceSignals) (assigns : list ContinuousAssign) (blocks : list AlwaysBlock) (tr : nat -> env).
Context (Hc : has_control sigs assigns blocks) (Hb : behaviour assigns blocks tr).

Notation kid_sigs := (completing sigs).

Lemma assign_value a n t v : a ∈ global_assigns \/ (exists s, s ∈ sigs /\ a ∈ child_assigns s) ->
  as_lhs a = Ident n -> value (tr t) (as_rhs a) = Some v -> tr t n = v.
Proof using Hb Hc.
  intros Ha Hl Hv. destruct (beh_assign _ _ _ Hb t a (hc_assigns _ _ _ Hc a Ha)) as (n' & Hl' & Hv'). congruence.
Qed.

Lemma rst_value t : hi (tr t) HANDSHAKE_RST = negb (hi (tr t) HANDSHAKE_RST_N).
Proof using Hb Hc.
  unfold hi. rewrite (assign_value (mkAssign (Ident HANDSHAKE_RST) (Not (Ident HANDSHAKE_RST_N))) HANDSHAKE_RST t
    (if tr t HANDSHAKE_RST_N =? 0 then 1 else 0)); [by destruct (tr t HANDSHAKE_RST_N =? 0)|left; set_solver|done|by apply value_not].
Qed.

Lemma start_q_value t : tr t START_Q = tr t HANDSHAKE_START.
Proof using Hb Hc. apply (assign_value (mkAssign (Ident START_Q) (Ident HANDSHAKE_START))); [left; set_solver|done|done]. Qed.

Lemma done_q_value t : tr t DONE_Q = if tr t GLOBAL_STATE =? 2 then 1 else 0.
Proof using Hb Hc.
  apply (assign_value (mkAssign (Ident DONE_Q) (expr_eq (Ident GLOBAL_STATE) (Lit GLOBAL_STATE_DONE)))); [left; set_solver|done|].
  apply value_eq; [done|apply lit_10].
Qed.

Lemma ap_done_value t : tr t HANDSHAKE_DONE = if tr t GLOBAL_STATE =? 2 then 1 else 0.
Proof using Hb Hc.
  rewrite <- done_q_value. apply (assign_value (mkAssign (Ident HANDSHAKE_DONE) (Ident DONE_Q))); [left; set_solver|done|done].
Qed.

Lemma ap_idle_value t : tr t HANDSHAKE_IDLE = if tr t GLOBAL_STATE =? 0 then 1 else 0.
Proof using Hb Hc.
  apply (assign_value (mkAssign (Ident HANDSHAKE_IDLE) (expr_eq (Ident GLOBAL_STATE) (Lit GLOBAL_STATE_IDLE)))); [left; set_solver|done|].
  apply value_eq; [done|apply lit_00].
Qed.

Lemma completing_elem s : s ∈ kid_sigs <-> s ∈ sigs /\ is_autorun s = false.
Proof. unfold completing. rewrite list_elem_of_In, filter_In, <- list_elem_of_In. by rewrite negb_true_iff. Qed.

Lemma kid_start_value t s : s ∈ kid_sigs -> tr t (start_name s) = if tr t (state_name s) =? 1 then 1 else 0.
Proof using Hb Hc.
  rewrite completing_elem. intros [Hs Ha]. apply (assign_value (generate_start_assign s)); [|done|].
  - right. exists s. split; [done|]. unfold child_assigns. rewrite Ha. by apply elem_of_cons; left.
  - apply value_eq; [done|apply lit_01].
Qed.

Lemma kid_is_done_value t s : s ∈ kid_sigs -> tr t (is_done_name s) = if tr t (state_name s) =? 2 then 1 else 0.
Proof using Hb Hc.
  rewrite completing_elem. intros [Hs Ha]. apply (assign_value (generate_is_done_assign s)); [|done|].
  - right. exists s. split; [done|]. unfold child_assigns. rewrite Ha. apply elem_of_cons; right. by apply elem_of_cons; left.
  - apply value_eq; [done|apply lit_10].
Qed.

Lemma sole_step b n t : sole_writer blocks b n -> n ∈ block_targets b ->
  exists ws, exec_block (tr t) b = Some ws /\ tr (S t) n = last_write ws n (tr t n).
Proof using Hb. intros (bs1 & bs2 & E & H1 & H2) Hn. rewrite E in Hb. by apply (block_step bs1 b bs2 assigns). Qed.

Lemma kid_step t s : s ∈ kid_sigs -> exists ws, exec_block (tr t) (child_block s) = Some ws /\ tr (S t) (state_name s) = last_write ws (state_name s) (tr t (state_name s)).
Proof using Hb Hc.
  rewrite completing_elem. intros [Hs Ha]. pose proof (hc_block _ _ _ Hc s Hs) as H. pose proof (proj2 (control_block_targets s (control_reg s)) eq_refl) as Ht.
  unfold control_block, control_reg in *. rewrite Ha in H, Ht. by apply sole_step.
Qed.

Lemma global_step t : exists ws, exec_block (tr t) (global_fsm_block (is_done_signals sigs)) = Some ws /\ tr (S t) GLOBAL_STATE = last_write ws GLOBAL_STATE (tr t GLOBAL_STATE).
Proof using Hb Hc. apply sole_step; [apply (hc_global _ _ _ Hc)|by apply global_block_targets]. Qed.

(** Reset puts the registers in the codes of the initial system, whatever they held. *)
Lemma control_reset t : tr t HANDSHAKE_RST_N = 0 -> represents kid_sigs (tr (S t)) (system_reset kid_sigs).
Proof using Hb Hc.
  intros Hr. assert (Hrst : hi (tr t) HANDSHAKE_RST = true) by (rewrite rst_value; unfold hi; by rewrite Hr).
  split; simpl.
  - destruct (global_step t) as (ws & He & ->). destruct (global_block_reset (is_done_signals sigs) (tr t) Hrst) as (ws' & He' & E). assert (ws = ws') as -> by congruence. by rewrite E.
  - apply Forall2_fmap_r, Forall_Forall2_diag, Forall_forall. intros s Hs.
    destruct (kid_step t s Hs) as (ws & He & ->). destruct (child_block_reset s (tr t) Hrst) as (ws' & He' & E). assert (ws = ws') as -> by congruence. by rewrite E.
Qed.

Lemma represented_all_done t st : represents kid_sigs (tr t) st ->
  forallb (hi (tr t)) (is_done_signals sigs) = forallb (fun p => bool_decide (p = Done)) (kids st).
Proof using Hb Hc.
  intros [_ Hk]. unfold is_done_signals. fold (completing sigs).
  assert (Hin : forall s, s ∈ kid_sigs -> tr t (is_done_name s) = if tr t (state_name s) =? 2 then 1 else 0) by (intros; by apply kid_is_done_value).
  revert Hin. induction Hk as [|s p l ps Hp Hk IH]; simpl; intros Hin; [done|].
  rewrite IH by (intros s' Hs'; apply Hin; by apply elem_of_cons; right). f_equal. unfold hi. rewrite Hin by (by apply elem_of_cons; left). rewrite Hp. by destruct p.
Qed.

(** One cycle of a behaviour is one step of the system. *)
Lemma control_step t st : represents kid_sigs (tr t) st -> represents kid_sigs (tr (S t)) (system_step kid_sigs (tr t) st).
Proof using Hb Hc.
  intros Hrep. unfold system_step. destruct (hi (tr t) HANDSHAKE_RST_N) eqn:Hr; simpl.
  2: { apply control_reset. unfold hi in Hr. apply negb_false_iff, Z.eqb_eq in Hr. done. }
  assert (Hrst : hi (tr t) HANDSHAKE_RST = false) by (rewrite rst_value; by rewrite Hr).
  split; simpl.
  - destruct (global_step t) as (ws & He & ->).
    destruct (global_block_writes (is_done_signals sigs) (tr t) (task st)) as (ws' & He' & E); [apply (rep_task _ _ _ Hrep)|].
    assert (ws = ws') as -> by congruence. rewrite E, Hrst. by rewrite (represented_all_done _ _ Hrep).
  - apply (Forall2_zip_with (fun s p => tr t (state_name s) = child_code p)); [|apply (rep_kids _ _ _ Hrep)].
    intros s p Hs Hp. destruct (kid_step t s Hs) as (ws & He & ->).
    destruct (child_block_writes s (tr t) p Hp) as (ws' & He' & E). assert (ws = ws') as -> by congruence. rewrite E, Hrst. f_equal.
    f_equal; [unfold hi; by rewrite start_q_value|].
    unfold hi. rewrite done_q_value, (rep_task _ _ _ Hrep). by destruct (task st).
Qed.

(** *** After a reset *)

Context (t0 : nat) (Hreset : tr t0 HANDSHAKE_RST_N = 0) (Hrun : forall u, (t0 < u)%nat -> tr u HANDSHAKE_RST_N <> 0).

Lemma after_reset u : (t0 < u)%nat -> exists st, represents kid_sigs (tr u) st /\ agree st.
Proof using Hb Hc Hreset.
  induction u as [|u IH]; [lia|]. intros Hu. destruct (decide (u = t0)) as [->|Hne].
  - eexists. split; [by apply control_reset|]. unfold agree. simpl. apply Forall_fmap, Forall_forall. done.
  - destruct IH as (st & Hr & Ha); [lia|]. eexists. split; [by apply control_step|by apply agree_step].
Qed.

Lemma not_reset u : (t0 < u)%nat -> hi (tr u) HANDSHAKE_RST = false.
Proof using Hb Hc Hrun. intros Hu. rewrite rst_value. unfold hi. apply Hrun in Hu. apply Z.eqb_neq in Hu. by rewrite Hu. Qed.

(** The phase of one child, and its step. *)
Lemma kid_phase u s : (t0 < u)%nat -> s ∈ kid_sigs -> exists p, tr u (state_name s) = child_code p.
Proof using Hb Hc Hreset.
  intros Hu Hs. destruct (after_reset u Hu) as (st & [_ Hk] & _). apply list_elem_of_lookup in Hs as [i Hi].
  destruct (Forall2_lookup_l _ _ _ _ _ Hk Hi) as (p & _ & Hp). eauto.
Qed.

Lemma kid_phase_step u s p : (t0 < u)%nat -> s ∈ kid_sigs -> tr u (state_name s) = child_code p ->
  tr (S u) (state_name s) = child_code (child_next (hi (tr u) HANDSHAKE_START) (hi (tr u) (ready_name s)) (hi (tr u) (done_name s)) (tr u GLOBAL_STATE =? 2) p).
Proof using Hb Hc Hrun.
  intros Hu Hs Hp. destruct (kid_step u s Hs) as (ws & He & ->). destruct (child_block_writes s (tr u) p Hp) as (ws' & He' & E).
  assert (ws = ws') as -> by congruence. rewrite E, not_reset by done. f_equal.
  f_equal; [unfold hi; by rewrite start_q_value|]. unfold hi. rewrite done_q_value. by destruct (_ =? 2).
Qed.

Lemma running_kid u s : (t0 < u)%nat -> tr u GLOBAL_STATE = 1 -> s ∈ kid_sigs -> exists p, p <> Idle /\ tr u (state_name s) = child_code p.
Proof using Hb Hc Hreset.
  intros Hu Ht Hs. destruct (after_reset u Hu) as (st & [Hg Hk] & Ha). unfold agree in Ha.
  destruct (task st); rewrite Hg in Ht; try discriminate. apply list_elem_of_lookup in Hs as [i Hi].
  destruct (Forall2_lookup_l _ _ _ _ _ Hk Hi) as (p & Hp & Hv). exists p. split; [|done].
  rewrite Forall_forall in Ha. apply Ha. by apply list_elem_of_lookup_2 in Hp.
Qed.

Lemma done_kid u s : (t0 < u)%nat -> tr u GLOBAL_STATE = 2 -> s ∈ kid_sigs -> tr u (state_name s) = child_code Done.
Proof using Hb Hc Hreset.
  intros Hu Ht Hs. destruct (after_reset u Hu) as (st & [Hg Hk] & Ha). unfold agree in Ha.
  destruct (task st); rewrite Hg in Ht; try discriminate. apply list_elem_of_lookup in Hs as [i Hi].
  destruct (Forall2_lookup_l _ _ _ _ _ Hk Hi) as (p & Hp & Hv). rewrite Hv. f_equal.
  rewrite Forall_forall in Ha. apply Ha. by apply list_elem_of_lookup_2 in Hp.
Qed.

(** A running task runs until its completion. *)
Lemma running_step u : (t0 < u)%nat -> tr u GLOBAL_STATE = 1 -> tr (S u) GLOBAL_STATE = 1 \/ tr (S u) GLOBAL_STATE = 2.
Proof using Hb Hc Hrun.
  intros Hu Ht. destruct (global_step u) as (ws & He & ->). destruct (global_block_writes (is_done_signals sigs) (tr u) TRunning Ht) as (ws' & He' & E).
  assert (ws = ws') as -> by congruence. rewrite E, not_reset by done. simpl. destruct (forallb _ _); auto.
Qed.

Lemma completion_step u : (t0 < u)%nat -> tr u GLOBAL_STATE = 1 -> (forall s, s ∈ kid_sigs -> tr u (state_name s) = 2) -> tr (S u) GLOBAL_STATE = 2.
Proof using Hb Hc Hrun.
  intros Hu Ht Hall. destruct (global_step u) as (ws & He & ->). destruct (global_block_writes (is_done_signals sigs) (tr u) TRunning Ht) as (ws' & He' & E).
  assert (ws = ws') as -> by congruence. rewrite E, not_reset by done. simpl. replace (forallb _ _) with true; [done|]. symmetry. apply forallb_forall.
  intros n Hn. unfold is_done_signals in Hn. apply in_map_iff in Hn as (s & <- & Hs). apply list_elem_of_In in Hs.
  unfold hi. rewrite (kid_is_done_value u s Hs), (Hall s Hs). done.
Qed.

(** The start of an autorun child is high once the task has been started. *)
Lemma autorun_latches s k : s ∈ sigs -> is_autorun s = true ->
  tr (S (t0 + k)) (start_name s) = if existsb (fun u => hi (tr u) HANDSHAKE_START) (seq (S t0) k) then 1 else 0.
Proof using Hb Hc Hrun Hreset.
  intros Hs Ha. assert (Hstep : forall u, tr (S u) (start_name s) =
    (if hi (tr u) HANDSHAKE_RST then 0 else if hi (tr u) HANDSHAKE_START then 1 else tr u (start_name s))).
  { intros u. pose proof (hc_block _ _ _ Hc s Hs) as H. pose proof (proj2 (control_block_targets s (control_reg s)) eq_refl) as Ht.
    unfold control_block, control_reg in *. rewrite Ha in H, Ht. destruct (sole_step _ _ u H Ht) as (ws & He & ->).
    destruct (autorun_block_writes s (tr u)) as (ws' & He' & E). by assert (ws = ws') as -> by congruence. }
  induction k as [|k IH].
  - rewrite Nat.add_0_r, Hstep, rst_value. unfold hi. by rewrite Hreset.
  - rewrite Hstep, not_reset by lia. rewrite seq_S, existsb_app. simpl. replace (t0 + S k)%nat with (S (t0 + k)) by lia. rewrite IH, orb_false_r.
    destruct (hi (tr (S (t0 + k))) HANDSHAKE_START); [by rewrite orb_true_r|]. by rewrite orb_false_r.
Qed.

(** *** Progress *)

Definition completes_after (u : nat) : Prop := exists v, (u <= v)%nat /\ tr v GLOBAL_STATE = 2.
Definition running_to (u v : nat) : Prop := forall w, (u <= w <= v)%nat -> tr w GLOBAL_STATE = 1.

Lemma completes_later u u' : (u <= u')%nat -> completes_after u' -> completes_after u.
Proof using Type. intros Hu (v & Hv & H). exists v. split; [lia|done]. Qed.

Lemma running_join u v w : running_to u v -> running_to v w -> running_to u w.
Proof using Type. intros H1 H2 x Hx. destruct (decide (x <= v)%nat); [apply H1|apply H2]; lia. Qed.

(** A child that keeps its phase until an event meets the event. *)
Lemma meets s p (ev : nat -> bool) d u :
  (forall w, (t0 < w)%nat -> tr w GLOBAL_STATE = 1 -> tr w (state_name s) = child_code p -> ev w = false -> tr (S w) (state_name s) = child_code p) ->
  (t0 < u)%nat -> tr u GLOBAL_STATE = 1 -> tr u (state_name s) = child_code p -> ev (u + d)%nat = true ->
  completes_after u \/ exists v, (u <= v)%nat /\ running_to u v /\ tr v (state_name s) = child_code p /\ ev v = true.
Proof using Hb Hc Hrun.
  intros Hkeep. revert u. induction d as [|d IH]; intros u Hu Ht Hp Hev.
  - right. exists u. split; [lia|]. split; [by intros w ?; replace w with u by lia|]. by rewrite Nat.add_0_r in Hev.
  - destruct (ev u) eqn:E; [right; exists u; split; [lia|]; split; [by intros w ?; replace w with u by lia|done]|].
    destruct (running_step u Hu Ht) as [Ht'|Ht']; [|left; exists (S u); split; [lia|done]].
    destruct (IH (S u)) as [H|(v & Hv & Hr & H)]; [lia|done|by apply Hkeep|by rewrite <- plus_n_Sm in Hev|left; by apply (completes_later u (S u)); [lia|]|].
    right. exists v. split; [lia|]. split; [|done]. apply (running_join u (S u) v); [|done]. intros w ?. destruct (decide (w = u)) as [->|]; [done|]. by replace w with (S u) by lia.
Qed.

Lemma next_running u v : (t0 < u)%nat -> running_to u v -> (u <= v)%nat -> running_to u (S v) \/ completes_after u.
Proof using Hb Hc Hrun.
  intros Hu Hr Hv. destruct (running_step v) as [H|H]; [lia|apply Hr; lia| |right; exists (S v); split; [lia|done]].
  left. intros w Hw. destruct (decide (w = S v)) as [->|]; [done|apply Hr; lia].
Qed.

(** What a child owes the control: it raises ready while its start is held, and
    a done with each ready it raises, or later. *)
Definition answers (s : InstanceSignals) (t : nat) : Prop :=
  (forall u, (t <= u)%nat -> hi (tr u) (start_name s) = true -> exists v, (u <= v)%nat /\ hi (tr v) (ready_name s) = true) /\
  (forall u, (t <= u)%nat -> hi (tr u) (start_name s) = true -> hi (tr u) (ready_name s) = true -> exists v, (u <= v)%nat /\ hi (tr v) (done_name s) = true).

Lemma kid_waits u s : (t0 < u)%nat -> tr u GLOBAL_STATE = 1 -> s ∈ kid_sigs -> tr u (state_name s) = child_code Waiting ->
  (exists v, (u <= v)%nat /\ hi (tr v) (done_name s) = true) ->
  completes_after u \/ exists v, (u <= v)%nat /\ running_to u v /\ tr v (state_name s) = 2.
Proof using Hb Hc Hrun.
  intros Hu Ht Hs Hp (v & Hv & Hd).
  destruct (meets s Waiting (fun w => hi (tr w) (done_name s)) (v - u) u) as [H|(w & Hw & Hr & Hpw & Hdw)]; try done; [| |by left|].
  - intros w Hw Htw Hpw Hdw. rewrite (kid_phase_step w s Waiting) by done. simpl. by rewrite Hdw.
  - by replace (u + (v - u))%nat with v by lia.
  - destruct (next_running u w Hu Hr Hw) as [Hr'|H]; [|by left]. right. exists (S w). split; [lia|]. split; [done|].
    rewrite (kid_phase_step w s Waiting) by (done || lia). simpl. by rewrite Hdw.
Qed.

Lemma kid_finishes u s t : (t0 < u)%nat -> (t <= u)%nat -> tr u GLOBAL_STATE = 1 -> s ∈ kid_sigs -> answers s t ->
  tr u (state_name s) <> child_code Waiting ->
  completes_after u \/ exists v, (u <= v)%nat /\ running_to u v /\ tr v (state_name s) = 2.
Proof using Hb Hc Hrun Hreset.
  intros Hu Htu Ht Hs [Hready Hdone] Hnw. destruct (running_kid u s Hu Ht Hs) as (p & Hp & Hpv). destruct p; try done.
  2: { right. exists u. split; [lia|]. split; [by intros w ?; replace w with u by lia|done]. }
  destruct (Hready u Htu) as (v & Hv & Hrv); [unfold hi; by rewrite (kid_start_value u s Hs), Hpv|].
  destruct (meets s Running (fun w => hi (tr w) (ready_name s)) (v - u) u) as [H|(w & Hw & Hr & Hpw & Hrw)]; try done; [| |by left|].
  - intros w Hw Htw Hpw Hrw. rewrite (kid_phase_step w s Running) by done. simpl. by rewrite Hrw.
  - by replace (u + (v - u))%nat with v by lia.
  - destruct (next_running u w Hu Hr Hw) as [Hr'|H]; [|by left].
    pose proof (kid_phase_step w s Running ltac:(lia) Hs Hpw) as Hn. simpl in Hn. rewrite Hrw in Hn.
    destruct (hi (tr w) (done_name s)) eqn:Ed; [right; exists (S w); split; [lia|]; split; done|].
    destruct (Hdone w) as (x & Hx & Hdx); [lia|unfold hi; by rewrite (kid_start_value w s Hs), Hpw|done|].
    assert (w <> x) by (intros ->; congruence).
    destruct (kid_waits (S w) s) as [H'|(y & Hy & Hry & Hyd)]; [lia|apply Hr'; lia|done|done|exists x; split; [lia|done]|left; by apply (completes_later u (S w)); [lia|]|].
    right. exists y. split; [lia|]. split; [by apply (running_join u (S w) y)|done].
Qed.

Lemma done_stays u v s : (t0 < u)%nat -> s ∈ kid_sigs -> (u <= v)%nat -> running_to u v -> tr u (state_name s) = 2 -> tr v (state_name s) = 2.
Proof using Hb Hc Hrun.
  intros Hu Hs Hv Hr Hd. induction Hv as [|v Hv IH]; [done|].
  rewrite (kid_phase_step v s Done); [|lia|done|apply IH; intros w ?; apply Hr; lia]. simpl. by rewrite (Hr v) by lia.
Qed.

Lemma kids_finish u t (l : list InstanceSignals) : (t0 < u)%nat -> (t <= u)%nat -> tr u GLOBAL_STATE = 1 -> (forall s, s ∈ l -> s ∈ kid_sigs /\ answers s t /\ tr u (state_name s) = 1) ->
  completes_after u \/ exists v, (u <= v)%nat /\ running_to u v /\ forall s, s ∈ l -> tr v (state_name s) = 2.
Proof using Hb Hc Hrun Hreset.
  intros Hu Htu Ht. induction l as [|s l IH]; intros Hl.
  - right. exists u. split; [lia|]. split; [by intros w ?; replace w with u by lia|]. intros s Hs. by apply not_elem_of_nil in Hs.
  - destruct IH as [H|(v & Hv & Hr & Hd)]; [intros s' Hs'; apply Hl; by apply elem_of_cons; right|by left|].
    destruct (Hl s) as (Hs & Ha & Hp); [by apply elem_of_cons; left|].
    destruct (kid_finishes u s t Hu Htu Ht Hs Ha) as [H|(w & Hw & Hrw & Hdw)]; [by rewrite Hp|by left|]. right.
    destruct (le_ge_dec v w) as [Hle|Hge].
    + exists w. split; [done|]. split; [done|]. intros s' [->|Hs']%elem_of_cons; [done|].
      apply (done_stays v); [lia|apply Hl; by apply elem_of_cons; right|done|intros x ?; apply Hrw; lia|by apply Hd].
    + exists v. split; [done|]. split; [done|]. intros s' [->|Hs']%elem_of_cons; [|by apply Hd].
      apply (done_stays w); [lia|done|done|intros x ?; apply Hr; lia|done].
Qed.

(** The cycle after an idle task sees its start. *)
Lemma started t : (t0 < t)%nat -> tr t GLOBAL_STATE = 0 -> hi (tr t) HANDSHAKE_START = true ->
  tr (S t) GLOBAL_STATE = 1 /\ forall s, s ∈ kid_sigs -> tr (S t) (state_name s) = 1.
Proof using Hb Hc Hrun Hreset.
  intros Hu Ht Hst. split.
  - destruct (global_step t) as (ws & He & ->). destruct (global_block_writes (is_done_signals sigs) (tr t) TIdle Ht) as (ws' & He' & E).
    assert (ws = ws') as -> by congruence. rewrite E, not_reset by done. simpl. by rewrite Hst.
  - intros s Hs. destruct (after_reset t Hu) as (st & [Hg Hk] & Ha). unfold agree in Ha. destruct (task st); rewrite Hg in Ht; try discriminate.
    pose proof Hs as Hs'. apply list_elem_of_lookup in Hs' as [i Hi]. destruct (Forall2_lookup_l _ _ _ _ _ Hk Hi) as (p & Hp & Hv).
    rewrite Forall_forall in Ha. rewrite (Ha p) in Hv by (by apply list_elem_of_lookup_2 in Hp).
    rewrite (kid_phase_step t s Idle) by done. simpl. by rewrite Hst.
Qed.

(** A child done now and not before has reported it in between. *)
Lemma reported u v s : (t0 < u)%nat -> (u <= v)%nat -> s ∈ kid_sigs -> tr u (state_name s) <> 2 -> tr v (state_name s) = 2 ->
  exists w, (u <= w < v)%nat /\ hi (tr w) (done_name s) = true.
Proof using Hb Hc Hrun Hreset.
  intros Hu Hv Hs Hn. induction Hv as [|v Hv IH]; intros Hd; [done|].
  destruct (decide (tr v (state_name s) = 2)) as [H|H]; [destruct (IH H) as (w & Hw & Hdw); exists w; split; [lia|done]|].
  exists v. split; [lia|]. destruct (kid_phase v s ltac:(lia) Hs) as (p & Hp). rewrite (kid_phase_step v s p) in Hd by (done || lia).
  destruct p; simpl in Hd; repeat case_match; simplify_eq; done.
Qed.

Lemma first_completion u v : (u < v)%nat -> tr v GLOBAL_STATE = 2 -> exists w, (u < w)%nat /\ tr w GLOBAL_STATE = 2 /\ forall x, (u < x < w)%nat -> tr x GLOBAL_STATE <> 2.
Proof using Type.
  induction v as [v IH] using lt_wf_ind. intros Hu Hv.
  assert (Hd : forall n, (exists x, (u < x < n)%nat /\ tr x GLOBAL_STATE = 2) \/ forall x, (u < x < n)%nat -> tr x GLOBAL_STATE <> 2).
  { induction n as [|n IHn]; [right; lia|]. destruct IHn as [(x & Hx & H)|H]; [left; exists x; split; [lia|done]|].
    destruct (decide ((u < n)%nat /\ tr n GLOBAL_STATE = 2)) as [[Hn Hg]|Hn]; [left; exists n; split; [lia|done]|].
    right. intros x Hx Hg. destruct (decide (x = n)) as [->|]; [apply Hn; split; [lia|done]|apply (H x); [lia|done]]. }
  destruct (Hd v) as [(x & Hx & H)|H]; [apply (IH x); [lia|lia|done]|exists v; auto].
Qed.

Lemma completes t : (t0 < t)%nat -> hi (tr t) HANDSHAKE_IDLE = true -> hi (tr t) HANDSHAKE_START = true -> (forall s, s ∈ kid_sigs -> answers s t) ->
  exists v, (t < v)%nat /\ hi (tr v) HANDSHAKE_DONE = true /\ (forall w, (t < w < v)%nat -> hi (tr w) HANDSHAKE_DONE = false) /\
    forall s, s ∈ kid_sigs -> exists w, (t < w < v)%nat /\ hi (tr w) (done_name s) = true.
Proof using Hb Hc Hrun Hreset.
  intros Ht Hidle Hst Hans.
  assert (Hg : tr t GLOBAL_STATE = 0) by (unfold hi in Hidle; rewrite ap_idle_value in Hidle; by destruct (Z.eqb_spec (tr t GLOBAL_STATE) 0)).
  destruct (started t Ht Hg Hst) as [Hg1 Hk1].
  assert (exists v, (t < v)%nat /\ tr v GLOBAL_STATE = 2) as (v & Hv & Hgv).
  { destruct (kids_finish (S t) t kid_sigs) as [(v & Hv & H)|(v & Hv & Hr & Hd)]; try lia; [auto|exists v; split; [lia|done]|].
    exists (S v). split; [lia|]. apply completion_step; [lia|apply Hr; lia|done]. }
  destruct (first_completion t v Hv Hgv) as (w & Hw & Hgw & Hno). exists w. split; [done|]. split; [|split].
  - unfold hi. by rewrite ap_done_value, Hgw.
  - intros x Hx. unfold hi. rewrite ap_done_value. specialize (Hno x Hx). by destruct (Z.eqb_spec (tr x GLOBAL_STATE) 2).
  - intros s Hs. destruct (reported (S t) w s) as (x & Hx & Hdx); [lia|lia|done|by rewrite Hk1|by apply done_kid; [lia| |]|]. exists x. split; [lia|done].
Qed.
End control.

(** ** The theorems *)

Definition free_of_control (sigs : list InstanceSignals) (m : MutableModule) : Prop :=
  forall n, n ∈ registers (added_always m) -> n <> GLOBAL_STATE /\ forall s, s ∈ sigs -> n <> control_reg s.

Section theorems.
Context (sigs : list InstanceSignals) (m : MutableModule) (tr : nat -> env).
Context (Hnames : NoDup (map is_instance sigs)) (Hm : free_of_control sigs m) (Hb : module_behaviour (control_logic sigs m) tr).

(** C3: the generated FSM module refines the system of phases: after a reset its
    registers hold, at every cycle, the codes of the phases the system reaches by
    stepping on the inputs of the cycles since. *)
Theorem control_fsm_refines t0 k : tr t0 HANDSHAKE_RST_N = 0 ->
  represents (completing sigs) (tr (S (t0 + k)))
    (fold_left (fun st u => system_step (completing sigs) (tr u) st) (seq (S t0) k) (system_reset (completing sigs))).
Proof using All.
  intros Hr. pose proof (control_logic_has sigs m Hnames Hm) as Hc. induction k as [|k IH].
  - rewrite Nat.add_0_r. by apply (control_reset sigs _ _ tr Hc Hb).
  - rewrite seq_S, fold_left_app. simpl. replace (t0 + S k)%nat with (S (t0 + k)) by lia. by apply (control_step sigs _ _ tr Hc Hb).
Qed.
End theorems.

(** ** A concrete task: two completing children and an autorun one *)

Definition sample_sigs : list InstanceSignals := [mkSig "a_0" false; mkSig "b_0" true; mkSig "c_0" false].
Definition empty_fsm : MutableModule := mkMutable (mkModule "top_fsm" [] [] [] "") "" "" [] [] [].
Definition sample_module : MutableModule := control_logic sample_sigs empty_fsm.

(** Reset in the first cycle, everything asserted from then on. *)
Definition sample_inputs (t : nat) (n : string) : Z := if bool_decide (n = HANDSHAKE_RST_N /\ t = O) then 0 else 1.
Definition sample_trace : nat -> env := simulate (added_assigns sample_module) (added_always sample_module) sample_inputs.

Lemma sample_behaviour : module_behaviour sample_module sample_trace.
Proof. apply simulate_behaviour; vm_compute; reflexivity. Qed.

Lemma sample_input t n : n ∉ registers (added_always sample_module) -> n ∉ assigned (added_assigns sample_module) -> sample_trace t n = sample_inputs t n.
Proof. apply simulate_input; vm_compute; reflexivity. Qed.

Lemma sample_names : NoDup (map is_instance sample_sigs).
Proof. apply (bool_decide_unpack _). vm_compute. exact I. Qed.

Lemma sample_free : free_of_control sample_sigs empty_fsm.
Proof. intros n H. by apply not_elem_of_nil in H. Qed.

Ltac sample_reads := rewrite sample_input by (apply (bool_decide_unpack _); vm_compute; exact I).

Lemma sample_reset : sample_trace 0 HANDSHAKE_RST_N = 0.
Proof. by sample_reads. Qed.

(** Reset, idle, running, children done, task done. *)
Lemma control_fsm_refines_witness : represents (completing sample_sigs) (sample_trace 4) (mkSystem TDone [Done; Done]).
Proof.
  assert (E : fold_left (fun st u => system_step (completing sample_sigs) (sample_trace u) st) (seq 1 3) (system_reset (completing sample_sigs)) = mkSystem TDone [Done; Done])
    by (vm_compute; reflexivity).
  rewrite <- E. exact (control_fsm_refines sample_sigs empty_fsm sample_trace sample_names sample_free sample_behaviour 0 3 sample_reset).
Defined.
