(* ===== verification/Topology.v ===== *)
(** * The state of code generation

    [tapa-codegen]: its errors ([error.rs]), the design with its attached RTL
    ([state/rtl_state.rs]), the tables the passes work on ([state/views.rs]) and
    the helpers the passes share ([passes/mod.rs], [target.rs]). *)

From S2P Require Import Prelude RustStd BTreeMap Geometry Names Ir Flatten FloorGraph Pipeline Plan Protocol Rtl.

Local Open Scope Z_scope.

Inductive VerilogParseError := EmptyInput | NoModuleFound | ParseFailed (module message : string).

Inductive CodegenError :=
| TaskNotFound (name : string)
| ModuleAlreadyAttached (name : string)
| FsmForLowerTask (name : string)
| InvalidMmapConnection (detail : string)
| InvalidChildInstanceNames (detail : string)
| InvalidFloorplan (detail : string)
| FifoWidthUnresolved (name : string)
| RtlParse (e : VerilogParseError)
| RtlBuilder (e : BuilderError).

(** ** The parser and the regular expressions, libraries of the program *)

Class RtlLibraries := {
  (** [parser::parse_module]. *)
  parse_module : string -> res VerilogParseError VerilogModule;
  (** [parser::original_module_text]: the body and what follows the module. *)
  original_module_text : string -> string * string;
  (** [parser::unconditionally_zero_driven_names]. *)
  zero_driven_names : string -> list string;
  (** [Regex::replace_all] with the empty string. *)
  regex_remove : string -> string -> string;
}.

(** ** State *)

Record TopologyWithRtl := mkTopology {
  tp_design : TaskGraph;
  flat_projection : option FlatProjection;
  floorplan : option FloorplanResult;
  module_map : bmap string MutableModule;
  fsm_modules : bmap string MutableModule;
  generated_files : bmap string string;
  template_files : bmap string string;
}.

Definition topology_new (design : TaskGraph) : TopologyWithRtl := mkTopology design None None BMap.empty BMap.empty BMap.empty BMap.empty.

Definition data_design (st : TopologyWithRtl) : TaskGraph :=
  match flat_projection st with Some p => flat p | None => tp_design st end.

Definition is_ignore (t : Task) : bool := match synth t with SynthIgnore => true | _ => false end.

Definition codegen_top_task (st : TopologyWithRtl) : option Task :=
  let? t := BMap.get (top (tp_design st)) (graph_tasks (tp_design st)) in
  if bool_decide (level t = Upper) && negb (is_ignore t) then Some t else None.

Definition supports_distributed_control (st : TopologyWithRtl) : bool :=
  match codegen_top_task st with
  | Some t => negb (bool_decide (map fst (tasks t) = []))
  | None => false
  end && BMap.contains_key (top (tp_design st)) (module_map st).

Definition top_instantiates_control_s_axi (st : TopologyWithRtl) : bool :=
  match codegen_top_task st with Some _ => true | None => false end &&
  match BMap.get (top (tp_design st)) (module_map st) with
  | Some m => existsb (fun p => bool_decide (rp_name p = "s_axi_control_AWVALID")) (mod_ports (inner m))
  | None => false
  end.

Definition set_modules (st : TopologyWithRtl) (m : bmap string MutableModule) : TopologyWithRtl :=
  mkTopology (tp_design st) (flat_projection st) (floorplan st) m (fsm_modules st) (generated_files st) (template_files st).
Definition set_fsms (st : TopologyWithRtl) (m : bmap string MutableModule) : TopologyWithRtl :=
  mkTopology (tp_design st) (flat_projection st) (floorplan st) (module_map st) m (generated_files st) (template_files st).

Definition attach_module `{RtlLibraries} (st : TopologyWithRtl) (task_name : string) (m : VerilogModule) :
    res CodegenError TopologyWithRtl :=
  if negb (BMap.contains_key task_name (graph_tasks (tp_design st))) then Err (TaskNotFound task_name)
  else if BMap.contains_key task_name (module_map st) then Err (ModuleAlreadyAttached task_name)
  else Ok (set_modules st (BMap.insert task_name (from_parsed original_module_text m) (module_map st))).

(** [u32::BITS - leading_zeros]. *)
Definition routing_id_bits (n : Z) : Z := if n <=? 1 then 0 else Z.log2 (n - 1) + 1.

(** ** Tables *)

(** [if let Some(m) = table.get_mut(name) { .. }]. *)
Definition with_module (name : string) (f : MutableModule -> MutableModule) (t : bmap string MutableModule) : bmap string MutableModule :=
  match BMap.get name t with Some m => BMap.insert name (f m) t | None => t end.

(** [VerilogModule::parse]. *)
Definition module_parse `{RtlLibraries} (source : string) : res VerilogParseError VerilogModule :=
  if Str.is_empty (Str.trim source) then Err EmptyInput else parse_module source.

Definition render_fsm_module (fsm_name : string) : string :=
  "module " +:+ fsm_name +:+ " (" +:+ nl
  +:+ "  input wire ap_clk," +:+ nl
  +:+ "  input wire ap_rst_n," +:+ nl
  +:+ "  input wire ap_start," +:+ nl
  +:+ "  output wire ap_done," +:+ nl
  +:+ "  output wire ap_ready," +:+ nl
  +:+ "  output wire ap_idle" +:+ nl
  +:+ ");" +:+ nl
  +:+ "endmodule //" +:+ fsm_name.

Definition create_fsm_module `{RtlLibraries} (fsms : bmap string MutableModule) (task_name : string) (task_level : TaskLevel) :
    res CodegenError (bmap string MutableModule) :=
  match task_level with
  | Lower => Err (FsmForLowerTask task_name)
  | Upper =>
      let! parsed := map_err RtlParse (module_parse (render_fsm_module (task_name +:+ "_fsm"))) in
      Ok (BMap.insert task_name (from_parsed original_module_text parsed) fsms)
  end.

(** ** Shared by the passes *)

(** An indexing [map[key]], which panics on a missing key. *)
Definition index {E V} (m : bmap string V) (k : string) : res E V := expect (BMap.get k m).

Definition parse_atomic_region (region : string) : option (Z * Z) :=
  let? c := Coor.from_atomic_region_name region in Some (dl_x c, dl_y c).

Definition OPTIONAL_AXI_ADDRESS_PORTS : list (string * string) :=
  [("awlock", "1'b0"); ("awcache", "4'b0011"); ("awprot", "3'b000"); ("awqos", "4'b0000");
   ("arlock", "1'b0"); ("arcache", "4'b0011"); ("arprot", "3'b000"); ("arqos", "4'b0000")].

Definition scalar_driver (source : ArgSource) : Expr :=
  match source with
  | AName name => Ident (sanitize_array_name name)
  | ALiteral v => Lit (wire_display v)
  end.

Definition top_stream_needs_axis_adapter (t : Target) : bool :=
  match t with XilinxVitis | XilinxSlash => true | XilinxHls => false end.

Definition is_hmap (g : MemoryGeometry) : bool := match geo_channels g with Some _ => true | None => false end.

(** [FABRIC_RESET_N] and the reset net of [distributed_control.rs]. *)
Definition FABRIC_RESET_N : string := "__tapa_control_fabric_reset_n".
Definition FABRIC_RESET_MAX_FANOUT : Z := 256.
Definition fabric_reset_signal (distributed_control : bool) : Signal :=
  if distributed_control then wire_with_attribute HANDSHAKE_RST ("max_fanout = " +:+ Str.show FABRIC_RESET_MAX_FANOUT)
  else wire HANDSHAKE_RST.

(** [stream_crossing_body_level] of [passes/floorplans/mod.rs]. *)
Definition stream_crossing_body_level (fp : option FloorplanResult) (fifo_name : string) : option Z :=
  let? fp := fp in
  find_map (fun r => match Plan.channel r with
    | RStream fifo => if bool_decide (fifo = fifo_name) then Some (Z.min U32_MAX (Z.of_nat (length (route_reg_regions r)))) else None
    | _ => None
    end) (fr_routes fp).
