(* ===== verification/AsyncMmap.v ===== *)
(** * The bridge of an async mmap

    [tapa-codegen/src/passes/async_mmap.rs]: which FIFO channels of an async mmap
    port a child declares, which AXI directions survive, and the bridge that
    connects them to the AXI fabric. *)

From S2P Require Import Prelude RustStd BTreeMap Names Protocol Rtl Topology.

Local Open Scope Z_scope.

Definition READ_ADDR : string := "read_addr".
Definition READ_DATA : string := "read_data".
Definition WRITE_ADDR : string := "write_addr".
Definition WRITE_DATA : string := "write_data".
Definition WRITE_RESP : string := "write_resp".
Definition TAGS : list string := [READ_ADDR; READ_DATA; WRITE_ADDR; WRITE_DATA; WRITE_RESP].

Record EnabledAxiDirections := mkEnabled { en_read : bool; en_write : bool }.

Definition tag_suffixes (tag : string) : list string :=
  if str_in tag [READ_ADDR; WRITE_ADDR; WRITE_DATA] then OSTREAM_SUFFIXES
  else if str_in tag [READ_DATA; WRITE_RESP] then ISTREAM_SUFFIXES
  else [].

Definition tag_data_width (tag suffix : string) (data_width : Z) : Z :=
  if negb (str_in suffix STREAM_DATA_SUFFIXES) then 1
  else if str_in tag [READ_ADDR; WRITE_ADDR] then AXI_ADDR_WIDTH
  else if bool_decide (tag = WRITE_RESP) then 8
  else if bool_decide (tag = WRITE_DATA /\ suffix = "_din") then Z.min U32_MAX (data_width + 1)
  else data_width.

Definition signal_name (base tag suffix : string) : string :=
  sanitize_array_name base +:+ "_" +:+ tag +:+ "__" +:+ trim_underscores suffix.

Definition bridge_base_from_m_axi_prefix (prefix : string) : string := default prefix (Str.strip_prefix M_AXI_PREFIX prefix).

Definition has_affixes (m : VerilogModule) (prefix suffix : string) : bool :=
  match find_port_by_affixes m prefix suffix with Some _ => true | None => false end.

(** The tags in order, which is that of the set the code collects. *)
Definition active_tags (child_rtl : VerilogModule) (child_port : string) : list string :=
  List.filter (fun tag =>
    let prefix := child_port +:+ "_" +:+ tag in
    existsb (fun suffix => has_affixes child_rtl prefix suffix || has_affixes child_rtl (prefix +:+ "_peek") suffix) (tag_suffixes tag)
    || has_affixes child_rtl prefix "_offset") TAGS.

Section enabled.
Context `{RtlLibraries} (child_rtl : VerilogModule) (child_port : string) (tags : list string).

(** A direction is in use unless every activity output present is tied to zero. *)
Definition group_enabled (group : list (string * string)) : bool :=
  existsb (fun '(tag, activity_suffix) =>
    str_in tag tags &&
    match find_port_by_affixes child_rtl (child_port +:+ "_" +:+ tag) activity_suffix with
    | None => true
    | Some port => negb (str_in (rp_name port) (zero_driven_names (mod_source child_rtl)))
    end) group.

Definition enabled_axi_directions : EnabledAxiDirections :=
  mkEnabled (group_enabled [(READ_ADDR, "_write"); (READ_DATA, "_read")])
            (group_enabled [(WRITE_ADDR, "_write"); (WRITE_DATA, "_write"); (WRITE_RESP, "_read")]).
End enabled.

Definition has_direct_m_axi_ports (child_rtl : VerilogModule) (child_port : string) : bool :=
  has_port child_rtl (child_port +:+ "_offset")
  || existsb (fun suffix => has_port child_rtl (M_AXI_PREFIX +:+ child_port +:+ suffix)) m_axi_compact_suffixes.

Definition child_connection_expr (base tag suffix : string) : Expr :=
  let signal := Ident (signal_name base tag suffix) in
  if str_in tag [READ_DATA; WRITE_RESP] && bool_decide (suffix = "_dout") then Concat [Lit "1'b0"; signal] else signal.

Definition bridge_connection_expr (base tag suffix : string) (data_width : Z) : Expr :=
  let signal := Ident (signal_name base tag suffix) in
  if bool_decide (tag = WRITE_DATA /\ suffix = "_din")
  then Range signal (expr_int (saturating_sub data_width 1)) (expr_int 0) else signal.

Definition opt_arg (p : option RtlPort) (e : Expr) : list PortArg :=
  match p with Some p => [mkPortArg (rp_name p) e] | None => [] end.

(** The connections of one tag. *)
Definition tag_portargs (child_rtl : VerilogModule) (child_port bridge_base offset_signal tag : string) : list PortArg :=
  let prefix := child_port +:+ "_" +:+ tag in
  flat_map (fun suffix =>
    opt_arg (find_port_by_affixes child_rtl prefix suffix) (child_connection_expr bridge_base tag suffix)
    ++ (if str_in tag [READ_DATA; WRITE_RESP] && str_in suffix ["_dout"; "_empty_n"]
        then opt_arg (find_port_by_affixes child_rtl (prefix +:+ "_peek") suffix) (child_connection_expr bridge_base tag suffix)
        else [])) (tag_suffixes tag)
  ++ (if str_in tag [READ_ADDR; WRITE_ADDR; WRITE_DATA] then opt_arg (rtl_find_port child_rtl (prefix +:+ "_peek")) (Lit "'d0") else [])
  ++ (if str_ends_with "_addr" tag then opt_arg (find_port_by_affixes child_rtl prefix "_offset") (Ident offset_signal) else []).

Definition child_portargs (child_rtl : VerilogModule) (child_port bridge_base offset_signal : string) : list PortArg :=
  flat_map (tag_portargs child_rtl child_port bridge_base offset_signal) TAGS.

Definition add_bridge_signals (m : MutableModule) (bridge_base : string) (active : list string) (data_width : Z) : MutableModule :=
  fold_left (fun m tag =>
    fold_left (fun m suffix => try_add_signal m (width_wire (signal_name bridge_base tag suffix) (tag_data_width tag suffix data_width)))
      (tag_suffixes tag) m) active m.

(** The M-AXI ports of one channel of the bridge. *)
Definition bridge_channel (active_prefix inactive_prefix : string) (enabled : EnabledAxiDirections) (connect_optional_axi_ports : bool)
    (channel : string) : list PortArg :=
  let channel_enabled := if str_in channel ["AR"; "R"] then en_read enabled else en_write enabled in
  let channel_prefix := if channel_enabled then active_prefix else inactive_prefix in
  match m_axi_channel channel with
  | None => []
  | Some info =>
      map (fun port =>
        let connect_optional := connect_optional_axi_ports && (negb channel_enabled || bool_decide (active_prefix = inactive_prefix)) in
        mkPortArg ("m_axi" +:+ axp_suffix port)
          (if axp_is_compact port || connect_optional then Ident (channel_prefix +:+ axp_suffix port) else Lit ""))
        (axc_ports info)
  end.

(** The FIFO ports of one tag of the bridge. *)
Definition bridge_tag (bridge_base : string) (active : list string) (data_width : Z) (tag : string) : list PortArg :=
  map (fun suffix =>
    mkPortArg (tag +:+ suffix)
      (if str_in tag active then bridge_connection_expr bridge_base tag suffix data_width
       else if str_ends_with "_read" suffix || str_ends_with "_write" suffix then Lit "1'b0"
       else if bool_decide (suffix = "_din") then Lit "'d0" else Lit "")) (tag_suffixes tag).

Definition b2z (b : bool) : Z := if b then 1 else 0.

Definition build_bridge_instance (bridge_base instance_name active_m_axi_prefix inactive_m_axi_prefix : string) (active : list string)
    (enabled : EnabledAxiDirections) (data_width : Z) (connect_optional_axi_ports : bool) (reset : Expr) : ModuleInstance :=
  let bytes := data_width / 8 in
  let max_burst_len := saturating_sub (if data_width =? 0 then 0 else 8192 / data_width) 1 in
  mkInst "async_mmap" instance_name
    [mkParamArg "DataWidth" (expr_int data_width);
     mkParamArg "DataWidthBytesLog" (expr_int (routing_id_bits bytes));
     mkParamArg "AddrWidth" (expr_int AXI_ADDR_WIDTH);
     mkParamArg "WaitTimeWidth" (expr_int 2);
     mkParamArg "MaxWaitTime" (expr_int 3);
     mkParamArg "BurstLenWidth" (expr_int 8);
     mkParamArg "MaxBurstLen" (expr_int max_burst_len);
     mkParamArg "EnableReadChannel" (expr_int (b2z (en_read enabled)));
     mkParamArg "EnableWriteChannel" (expr_int (b2z (en_write enabled)))]
    ([mkPortArg "clk" (Ident HANDSHAKE_CLK); mkPortArg "rst" reset]
     ++ flat_map (bridge_channel active_m_axi_prefix inactive_m_axi_prefix enabled connect_optional_axi_ports) ["AW"; "W"; "B"; "AR"; "R"]
     ++ flat_map (bridge_tag bridge_base active data_width) TAGS).
