(* ===== verification/Mmap.v ===== *)
(** * Memory-map connections

    [tapa-codegen/src/state/mmap/mod.rs]: the child ports that share an mmap
    argument become the slaves of one connection, with merged channel geometry and
    aggregated thread counts and ID widths; [direct.rs]: the catalog of child
    interfaces wired straight to a port of the top. *)

From S2P Require Import Prelude RustStd BTreeMap Geometry Names Ir Flatten FloorGraph Protocol Rtl Topology AsyncMmap.

Local Open Scope Z_scope.

Definition invalid_mmap {A} (detail : string) : res CodegenError A := Err (InvalidMmapConnection detail).

(** ** Merging parent and child metadata *)

(** Both declare a value, and not the same. *)
Definition opt_mismatch (a b : option Z) : option (Z * Z) :=
  match a, b with Some x, Some y => if x =? y then None else Some (x, y) | _, _ => None end.

Definition validate_mmap_channel_geometry (parent_task parent_port : string) (parent : Port) (child_task child_port : string) (child : Port) :
    res CodegenError unit :=
  match opt_mismatch (port_chan_count parent) (port_chan_count child) with
  | Some (p, c) => invalid_mmap ("mmap channel-count mismatch: `" +:+ parent_task +:+ "." +:+ parent_port +:+ "` declares "
      +:+ Str.show p +:+ ", but `" +:+ child_task +:+ "." +:+ child_port +:+ "` declares " +:+ Str.show c)
  | None =>
      match opt_mismatch (port_chan_size parent) (port_chan_size child) with
      | Some (p, c) => invalid_mmap ("mmap channel-size mismatch: `" +:+ parent_task +:+ "." +:+ parent_port +:+ "` declares "
          +:+ Str.show p +:+ ", but `" +:+ child_task +:+ "." +:+ child_port +:+ "` declares " +:+ Str.show c)
      | None => Ok tt
      end
  end.

(** [Display] of [MemoryGeometryError]. *)
Definition geometry_error_str (e : MemoryGeometryError) : string :=
  match e with
  | ChannelCountZero => "hmap channel count is 0"
  | PartialChannels => "hmap must specify both chan_count and chan_size"
  | BadDataWidth w => "M-AXI data width must be a nonzero multiple of 8 bits, got " +:+ Str.show w
  | ChannelSizeZero => "hmap channel size must be greater than zero"
  | NotPowerOfTwo size data_width bytes => "hmap channel byte size must be a power of two: chan_size=" +:+ Str.show size
      +:+ " * data_width=" +:+ Str.show data_width +:+ " / 8 = " +:+ Str.show bytes +:+ " bytes"
  end.

Definition merge_mmap_port_metadata (parent_task parent_port : string) (parent : option Port) (child_task child_port : string) (child : option Port) :
    res CodegenError MemoryGeometry :=
  let! _ :=
    match parent, child with
    | Some p, Some c =>
        if negb (port_width p =? port_width c)
        then invalid_mmap ("mmap width mismatch: `" +:+ parent_task +:+ "." +:+ parent_port +:+ "` is " +:+ Str.show (port_width p)
               +:+ " bits, but `" +:+ child_task +:+ "." +:+ child_port +:+ "` is " +:+ Str.show (port_width c) +:+ " bits")
        else validate_mmap_channel_geometry parent_task parent_port p child_task child_port c
    | _, _ => Ok tt
    end in
  let! data_width := ok_or (option_map port_width (or_else parent child))
    (InvalidMmapConnection ("no port named `" +:+ parent_port +:+ "` on task `" +:+ parent_task +:+ "` or `" +:+ child_port
       +:+ "` on child `" +:+ child_task +:+ "` to derive the mmap data width from")) in
  let field (f : Port -> option Z) := or_else (parent ≫= f) (child ≫= f) in
  map_err (fun e => InvalidMmapConnection ("mmap argument `" +:+ parent_task +:+ "." +:+ parent_port +:+ "`: " +:+ geometry_error_str e))
    (geometry_new data_width (field port_chan_count) (field port_chan_size)).

(** ** Connections *)

Record MMapSlave := mkSlave { ms_task : string; ms_inst_idx : Z; ms_port : string; ms_threads : Z; ms_id_width : Z }.
Record MMapConnection := mkConnection { mc_arg_name : string; mc_slaves : list MMapSlave; mc_geometry : MemoryGeometry }.

Definition id_width_for_child_threads (child_id_width n : Z) : Z := wrap32 (Z.max child_id_width 1 + routing_id_bits n).

Definition thread_count (c : MMapConnection) : Z := wrap32 (Z.of_nat (length (mc_slaves c))).

(** [Iterator::max] over a list that may be empty. *)
Definition max_or (d : Z) (l : list Z) : Z := match l with [] => d | x :: l' => fold_left Z.max l' x end.

Definition conn_id_width (c : MMapConnection) : Z :=
  id_width_for_child_threads (max_or 1 (map ms_id_width (mc_slaves c))) (thread_count c).

Definition conn_channel_count (c : MMapConnection) : Z := channel_count (mc_geometry c).
Definition total_threads (c : MMapConnection) : Z := wrap32 (zsum ms_threads (mc_slaves c)).

(** ** Port widths of attached RTL *)

Fixpoint remove_spaces (s : string) : string :=
  match s with
  | String c s' => if Ascii.eqb c " " then remove_spaces s' else String c (remove_spaces s')
  | EmptyString => ""
  end.

Definition resolve_parameter_default (m : VerilogModule) (name : string) : option Z :=
  let? p := find_first (fun p => bool_decide (param_name p = name)) (mod_parameters m) in
  expression_as_u32 (param_default p).

Definition resolve_width_endpoint (m : VerilogModule) (e : Expression) : option Z :=
  match expression_as_u32 e with
  | Some v => Some v
  | None =>
      let source := remove_spaces (expression_source e) in
      match Str.strip_suffix_str "-1" source with
      | None => resolve_parameter_default m source
      | Some parameter => let? v := resolve_parameter_default m parameter in checked_sub32 v 1
      end
  end.

Definition resolve_rtl_port_width (m : VerilogModule) (p : RtlPort) : option Z :=
  match rp_width p with
  | None => Some 1
  | Some w =>
      let? hi := resolve_width_endpoint m (msb w) in
      let? lo := resolve_width_endpoint m (lsb w) in
      checked_add32 (Z.abs (hi - lo)) 1
  end.

Definition rtl_m_axi_id_widths (m : VerilogModule) (prefix : string) : list (string * RtlPort * option Z) :=
  omap (fun entry => option_map (fun p => (axp_suffix entry, p, resolve_rtl_port_width m p)) (rtl_find_port m (prefix +:+ axp_suffix entry)))
    (List.filter is_id_port m_axi_compact_ports).

(** ** Aggregation *)

(** The arguments of every child instance, in definition, invocation and port order. *)
Definition arg_sites (t : Task) : list (string * nat * string * Arg) :=
  flat_map (fun '(child, insts) => flat_map (fun '(i, inst) => map (fun '(port, a) => (child, i, port, a)) (inst_args inst)) (enumerate insts)) (tasks t).

Notation connections := (bmap string MMapConnection).
Notation mmap_cache := (bmap string (bmap string MMapConnection)).

Definition opt_pair_debug (o : option (Z * Z)) : string :=
  match o with None => "None" | Some (a, b) => "Some((" +:+ Str.show a +:+ ", " +:+ Str.show b +:+ "))" end.

Section aggregation.
Context (st : TopologyWithRtl).

Notation design_tasks := (graph_tasks (data_design st)).

Definition module_id_width (child_task child_port_name : string) : Z :=
  match BMap.get child_task (module_map st) with
  | None => 1
  | Some m => max_or 1 (omap (fun x => x.2) (rtl_m_axi_id_widths (inner m) ("m_axi_" +:+ sanitize_array_name child_port_name)))
  end.

Definition is_upper_task (name : string) : bool :=
  match BMap.get name design_tasks with Some t => bool_decide (level t = Upper) | None => false end.

(** [rec] aggregates a nested task. *)
Definition child_mmap_summary (rec : string -> mmap_cache -> res CodegenError (connections * mmap_cache))
    (child_task child_port_name : string) (cache : mmap_cache) : res CodegenError (Z * Z * mmap_cache) :=
  let module_width := module_id_width child_task child_port_name in
  let! (nested, threads, cache) :=
    if is_upper_task child_task then
      let! cache :=
        if BMap.contains_key child_task cache then Ok cache
        else let! (conns, cache) := rec child_task cache in Ok (BMap.insert child_task conns cache) in
      let! conns := expect (BMap.get child_task cache) in
      match BMap.get child_port_name conns with
      | Some c => Ok (conn_id_width c, total_threads c, cache)
      | None => Ok (1, 1, cache)
      end
    else Ok (1, 1, cache) in
  Ok (Z.max module_width nested, threads, cache).

(** Record one argument of a child of [task_name] as a slave. *)
Definition add_slave (task_name : string) (task : Task) (conns : connections) (site : string * nat * string * Arg) (id_width threads : Z) :
    res CodegenError connections :=
  let '(child_task, inst_idx, child_port, a) := site in
  let port := BMap.get child_task design_tasks ≫= fun t => find_port child_port (ports t) in
  match arg_name a with
  | None => Ok conns
  | Some parent_arg =>
      let! geometry := merge_mmap_port_metadata task_name parent_arg (find_port parent_arg (ports task)) child_task child_port port in
      let conn := default (mkConnection parent_arg [] geometry) (BMap.get parent_arg conns) in
      if negb (geo_data_width (mc_geometry conn) =? geo_data_width geometry) then
        invalid_mmap ("mmap argument `" +:+ task_name +:+ "." +:+ parent_arg +:+ "` has conflicting data widths: "
          +:+ Str.show (geo_data_width (mc_geometry conn)) +:+ " vs " +:+ Str.show (geo_data_width geometry)
          +:+ " at `" +:+ child_task +:+ "." +:+ child_port +:+ "`")
      else if negb (bool_decide (geo_channels (mc_geometry conn) = geo_channels geometry)) then
        invalid_mmap ("mmap argument `" +:+ task_name +:+ "." +:+ parent_arg +:+ "` has conflicting channel shapes: "
          +:+ opt_pair_debug (geo_channels (mc_geometry conn)) +:+ " vs " +:+ opt_pair_debug (geo_channels geometry)
          +:+ " at `" +:+ child_task +:+ "." +:+ child_port +:+ "`")
      else
        let slave := mkSlave child_task (wrap32 (Z.of_nat inst_idx)) child_port threads id_width in
        Ok (BMap.insert parent_arg (mkConnection (mc_arg_name conn) (mc_slaves conn ++ [slave]) (mc_geometry conn)) conns)
  end.

Definition aggregate_site (rec : string -> mmap_cache -> res CodegenError (connections * mmap_cache)) (task_name : string) (task : Task)
    (acc : connections * mmap_cache) (site : string * nat * string * Arg) : res CodegenError (connections * mmap_cache) :=
  let '(conns, cache) := acc in
  let '(child_task, _, child_port, a) := site in
  if negb (is_direct_mmap (cat a)) then Ok acc else
  let! (id_width, threads, cache) := child_mmap_summary rec child_task child_port cache in
  let! conns := add_slave task_name task conns site id_width threads in
  Ok (conns, cache).

(** An hmap driven by one child port that shares the mmap internally. *)
Definition check_single_slave (c : MMapConnection) : res CodegenError unit :=
  match mc_slaves c with
  | [s] =>
      if is_hmap (mc_geometry c) && (1 <? total_threads c) then
        invalid_mmap ("hmap argument `" +:+ mc_arg_name c +:+ "` is driven only by `" +:+ ms_task s +:+ "." +:+ ms_port s
          +:+ "`, which internally shares the mmap (" +:+ Str.show (total_threads c) +:+ " threads); this combination is not supported")
      else Ok tt
  | _ => Ok tt
  end.

(** One level of [aggregate_mmap_connections_cached]. *)
Definition aggregate_level (rec : string -> mmap_cache -> res CodegenError (connections * mmap_cache)) (task_name : string) (cache : mmap_cache) :
    res CodegenError (connections * mmap_cache) :=
  let! task := ok_or (BMap.get task_name design_tasks) (TaskNotFound task_name) in
  let! (conns, cache) := try_fold (aggregate_site rec task_name task) (BMap.empty, cache) (arg_sites task) in
  let! _ := try_each check_single_slave (BMap.values conns) in
  Ok (conns, cache).

(** The recursion, by depth; a hierarchy deeper than the fuel overflows the stack. *)
Fixpoint aggregate_mmap_connections_cached (fuel : nat) (task_name : string) (cache : mmap_cache) : res CodegenError (connections * mmap_cache) :=
  match fuel with
  | O => Panic
  | S fuel => aggregate_level (aggregate_mmap_connections_cached fuel) task_name cache
  end.

(** A chain of distinct tasks is no longer than the design. *)
Definition aggregate_fuel : nat := S (length design_tasks).

Definition aggregate_mmap_connections (task_name : string) : res CodegenError connections :=
  let! (conns, _) := aggregate_mmap_connections_cached aggregate_fuel task_name BMap.empty in Ok conns.
End aggregation.

(** ** Direct interfaces ([direct.rs]) *)

Record DirectMmapInterface := mkDirect {
  di_endpoint : AxiEndpoint;
  di_data_width : Z;
  di_addr_width : Z;
  di_id_width : Z;
  di_channel_widths : AxiChannelWidths;
  di_bridge_instance : option string;
}.

Definition invalid_direct {A} (interface reason : string) : res CodegenError A :=
  Err (InvalidMmapConnection ("direct M-AXI interface `" +:+ interface +:+ "` " +:+ reason)).

Definition or_invalid_direct {A} (o : option A) (interface reason : string) : res CodegenError A :=
  match o with Some x => Ok x | None => invalid_direct interface reason end.

Definition validate_plain_mmap_category (c : ArgCategory) (interface location : string) : res CodegenError unit :=
  match c with
  | AsyncMmap => invalid_direct interface ("is connected to async mmap " +:+ location +:+ "; async memory interfaces are not supported")
  | Mmap => Ok tt
  | _ => invalid_direct interface ("has category `" +:+ category_str c +:+ "` at " +:+ location +:+ ", expected plain mmap")
  end.

Definition validate_plain_parent_mmap (task : Task) (c : MMapConnection) (interface : string) : res CodegenError unit :=
  if is_hmap (mc_geometry c) then invalid_direct interface "is an hmap; channelized memory interfaces are not supported" else
  let! p := or_invalid_direct (find_port (mc_arg_name c) (ports task)) interface "has no corresponding parent task port" in
  validate_plain_mmap_category (port_cat p) interface "parent port".

Definition direct_mmap_child_instance (task : Task) (c : MMapConnection) (interface : string) : res CodegenError (MMapSlave * nat * TaskInstance) :=
  match mc_slaves c with
  | [slave] =>
      let i := Z.to_nat (ms_inst_idx slave) in
      let! insts := or_invalid_direct (BMap.get (ms_task slave) (tasks task)) interface
        ("references missing child task definition `" +:+ ms_task slave +:+ "`") in
      let! inst := or_invalid_direct (insts !! i) interface
        ("references missing child instance `" +:+ ms_task slave +:+ "[" +:+ Str.show (ms_inst_idx slave) +:+ "]`") in
      Ok (slave, i, inst)
  | l => invalid_direct interface ("is shared by " +:+ Str.show (Z.of_nat (length l)) +:+ " child ports; shared memory interfaces are not supported")
  end.

Definition validate_direct_child_mmap (design : TaskGraph) (instance : TaskInstance) (slave : MMapSlave) (interface : string) :
    res CodegenError ArgCategory :=
  let path := ms_task slave +:+ "." +:+ ms_port slave in
  let! binding := or_invalid_direct (BMap.get (ms_port slave) (inst_args instance)) interface ("references missing child binding `" +:+ path +:+ "`") in
  let child_location := "child port `" +:+ path +:+ "`" in
  if negb (is_direct_mmap (cat binding)) then
    invalid_direct interface ("has category `" +:+ category_str (cat binding) +:+ "` at binding " +:+ child_location +:+ ", expected mmap or async_mmap") else
  let! child_task := or_invalid_direct (BMap.get (ms_task slave) (graph_tasks design)) interface
    ("references missing child task definition `" +:+ ms_task slave +:+ "`") in
  if negb (bool_decide (level child_task = Lower)) then
    invalid_direct interface ("reaches upper-level child task `" +:+ ms_task slave +:+ "`; catalog a flattened design") else
  let! child_port := or_invalid_direct (find_port (ms_port slave) (ports child_task)) interface ("has no child port metadata for `" +:+ path +:+ "`") in
  if negb (bool_decide (port_cat child_port = cat binding)) then
    invalid_direct interface ("has category `" +:+ category_str (cat binding) +:+ "` at binding " +:+ child_location +:+ " but `"
      +:+ category_str (port_cat child_port) +:+ "` in child port metadata")
  else Ok (port_cat child_port).

(** [expect] panics on an unknown channel; the sum is on 32 bits. *)
Definition channel_physical_width (data_width id_width : Z) (channel : string) : res CodegenError Z :=
  let! info := expect (m_axi_channel channel) in
  Ok (wrap32 (zsum (fun p => axi_port_width p data_width AXI_ADDR_WIDTH id_width) (compact_ports info))).

Definition direct_m_axi_channel_widths (data_width id_width : Z) : res CodegenError AxiChannelWidths :=
  let width := channel_physical_width data_width id_width in
  let! ar := width "AR" in
  let! r := width "R" in
  let! aw := width "AW" in
  let! w := width "W" in
  let! b := width "B" in
  Ok (mkWidths ar r aw w b).

Definition rtl_direction (d : PortDir) : Direction := match d with DirInput => Input | DirOutput => Output end.
Definition direction_debug (d : Direction) : string := match d with Input => "Input" | Output => "Output" | Inout => "Inout" end.

Definition render_port_width (p : RtlPort) : string :=
  match rp_width p with
  | None => ""
  | Some w => " [" +:+ expression_source (msb w) +:+ ":" +:+ expression_source (lsb w) +:+ "]"
  end.

Section compact.
Context (m : VerilogModule) (interface rtl_prefix : string) (data_width : Z).

Definition check_compact_port (entry : AxiPort) : res CodegenError unit :=
  let name := rtl_prefix +:+ axp_suffix entry in
  let! p := or_invalid_direct (rtl_find_port m name) interface ("is missing required child RTL port `" +:+ mod_name m +:+ "." +:+ name +:+ "`") in
  if negb (bool_decide (rp_direction p = rtl_direction (axp_direction entry))) then
    invalid_direct interface ("has child RTL port `" +:+ mod_name m +:+ "." +:+ name +:+ "` with direction " +:+ direction_debug (rp_direction p)
      +:+ ", expected " +:+ direction_debug (rtl_direction (axp_direction entry)))
  else Ok tt.

Definition check_id_width (acc : option Z) (x : string * RtlPort * option Z) : res CodegenError (option Z) :=
  let '(suffix, p, resolved) := x in
  let name := mod_name m +:+ "." +:+ rtl_prefix +:+ suffix in
  let! w := or_invalid_direct resolved interface ("cannot resolve ID width of child RTL port `" +:+ name +:+ "`" +:+ render_port_width p) in
  match acc with
  | Some previous =>
      if negb (w =? previous) then
        invalid_direct interface ("has inconsistent child RTL ID widths: `" +:+ name +:+ "` is " +:+ Str.show w +:+ " bits, expected "
          +:+ Str.show previous +:+ " bits")
      else Ok (Some previous)
  | None => Ok (Some w)
  end.

Definition check_port_width (id_width : Z) (entry : AxiPort) : res CodegenError unit :=
  let name := rtl_prefix +:+ axp_suffix entry in
  let! p := expect (rtl_find_port m name) in
  match resolve_rtl_port_width m p with
  | None => Ok tt
  | Some actual =>
      let expected := axi_port_width entry data_width AXI_ADDR_WIDTH id_width in
      if negb (actual =? expected) then
        invalid_direct interface ("has child RTL port `" +:+ mod_name m +:+ "." +:+ name +:+ "` width " +:+ Str.show actual +:+ ", expected " +:+ Str.show expected)
      else Ok tt
  end.

Definition validate_compact_m_axi_ports : res CodegenError Z :=
  let! _ := try_each check_compact_port m_axi_compact_ports in
  let! id := try_fold check_id_width None (rtl_m_axi_id_widths m rtl_prefix) in
  let! id_width := or_invalid_direct id interface "has no child RTL ID ports from which to derive ID width" in
  let! _ := try_each (check_port_width id_width) m_axi_compact_ports in
  Ok id_width.
End compact.

Section direct.
Context `{RtlLibraries}.

(** A debug assertion on the category is not kept in a release build. *)
Definition catalog_direct_mmap_rtl (m : VerilogModule) (child_category : ArgCategory) (slave : MMapSlave) (interface : string) (data_width : Z)
    (top_port : string) : res CodegenError (Z * AxiChannelWidths * option string) :=
  if bool_decide (child_category = Mmap) || has_direct_m_axi_ports m (ms_port slave) then
    let! id_width := validate_compact_m_axi_ports m interface (M_AXI_PREFIX +:+ sanitize_array_name (ms_port slave)) data_width in
    let! widths := direct_m_axi_channel_widths data_width id_width in
    Ok (id_width, widths, None)
  else
    let tags := active_tags m (ms_port slave) in
    match tags with
    | [] => invalid_direct interface ("has async mmap child `" +:+ ms_task slave +:+ "." +:+ ms_port slave
              +:+ "` with neither FIFO-style async ports nor a compact M-AXI interface")
    | _ =>
        let enabled := enabled_axi_directions m (ms_port slave) tags in
        let! w := direct_m_axi_channel_widths data_width AXI_ID_WIDTH in
        let w := if en_read enabled then w else mkWidths 0 0 (write_address w) (write_data w) (write_response w) in
        let w := if en_write enabled then w else mkWidths (read_address w) (read_data w) 0 0 0 in
        Ok (AXI_ID_WIDTH, w, Some (async_mmap_bridge_instance_name top_port))
    end.

Definition direct_mmap_interface (st : TopologyWithRtl) (task_name : string) (task : Task) (c : MMapConnection) : res CodegenError DirectMmapInterface :=
  let qualified_port := task_name +:+ "." +:+ mc_arg_name c in
  let! _ := validate_plain_parent_mmap task c qualified_port in
  let! (slave, i, instance) := direct_mmap_child_instance task c qualified_port in
  let! child_category := validate_direct_child_mmap (data_design st) instance slave qualified_port in
  let! m := or_invalid_direct (BMap.get (ms_task slave) (module_map st)) qualified_port
    ("has no RTL module attached for child task `" +:+ ms_task slave +:+ "`") in
  let! (id_width, widths, bridge) :=
    catalog_direct_mmap_rtl (inner m) child_category slave qualified_port (geo_data_width (mc_geometry c)) (mc_arg_name c) in
  Ok (mkDirect (mkAxiEndpoint (canonical_name instance (ms_task slave) i) (ms_port slave) (mc_arg_name c))
        (geo_data_width (mc_geometry c)) AXI_ADDR_WIDTH id_width widths bridge).

Definition direct_mmap_interfaces (st : TopologyWithRtl) (task_name : string) : res CodegenError (list DirectMmapInterface) :=
  let! task := ok_or (BMap.get task_name (graph_tasks (data_design st))) (TaskNotFound task_name) in
  let! conns := aggregate_mmap_connections st task_name in
  try_map (direct_mmap_interface st task_name task) (BMap.values conns).
End direct.
