(* ===== verification/MmapProps.v ===== *)
(** * Memory-map connections are exact

    The cached recursion computes what the plain one does; its connections are
    exactly the mmap bindings of the task's instances, in order; the widened IDs
    tell every thread of every slave apart; a catalogued direct interface agrees
    with the RTL it is wired to. *)

From S2P Require Import Prelude RustStd BTreeMap Geometry Names Ir Flatten FlattenSpec FloorGraph Protocol Rtl Topology AsyncMmap Mmap.

Local Open Scope Z_scope.

(** ** Results in step, errors included, none of them a panic *)

Definition res_rel {E A B} (R : A -> B -> Prop) (m : res E A) (m' : res E B) : Prop :=
  match m, m' with Ok a, Ok b => R a b | Err e, Err e' => e = e' | _, _ => False end.

Lemma res_rel_bind {E A B A' B'} (R : A -> B -> Prop) (S : A' -> B' -> Prop) (m : res E A) (m' : res E B) k k' :
  res_rel R m m' -> (forall a b, R a b -> res_rel S (k a) (k' b)) -> res_rel S (rbind m k) (rbind m' k').
Proof. destruct m, m'; simpl; try done; auto. Qed.

Lemma res_rel_fold {E A B C} (R : A -> B -> Prop) (f : A -> C -> res E A) (g : B -> C -> res E B) l a b :
  (forall x a b, x ∈ l -> R a b -> res_rel R (f a x) (g b x)) -> R a b -> res_rel R (try_fold f a l) (try_fold g b l).
Proof.
  revert a b. induction l as [|x l IH]; simpl; intros a b H Hab; [done|].
  apply (res_rel_bind R); [apply H; [by apply elem_of_cons; left|done]|]. intros a' b' H'. apply IH; [|done].
  intros y a1 b1 Hy. apply H. by apply elem_of_cons; right.
Qed.

Lemma res_rel_refl {E A} (m : res E A) : m <> Panic -> res_rel eq m m.
Proof. destruct m; simpl; done. Qed.

Lemma rbind_no_panic {E A B} (m : res E A) (k : A -> res E B) : m <> Panic -> (forall a, k a <> Panic) -> rbind m k <> Panic.
Proof. destruct m; simpl; auto. Qed.

Lemma geometry_new_no_panic w n s : geometry_new w n s <> Panic.
Proof.
  unfold geometry_new. apply rbind_no_panic.
  - destruct n as [[]|], s; done.
  - intros [[c z]|]; repeat case_match; done.
Qed.

Lemma merge_no_panic pt pp p ct cp c : merge_mmap_port_metadata pt pp p ct cp c <> Panic.
Proof.
  unfold merge_mmap_port_metadata. apply rbind_no_panic; [|intros _; apply rbind_no_panic].
  - destruct p, c; try done. unfold validate_mmap_channel_geometry, invalid_mmap. repeat case_match; done.
  - destruct p, c; done.
  - intros w. pose proof (geometry_new_no_panic w (or_else (p ≫= port_chan_count) (c ≫= port_chan_count)) (or_else (p ≫= port_chan_size) (c ≫= port_chan_size))).
    destruct (geometry_new _ _ _); done.
Qed.

(** ** The plain recursion *)

Section reference.
Context (st : TopologyWithRtl).
Notation design_tasks := (graph_tasks (data_design st)).

(** What a child port presents, from the aggregation of its task. *)
Definition plain_summary (rec : string -> res CodegenError connections) (child_task child_port : string) : res CodegenError (Z * Z) :=
  let module_width := module_id_width st child_task child_port in
  if is_upper_task st child_task then
    let! conns := rec child_task in
    match BMap.get child_port conns with
    | Some c => Ok (Z.max module_width (conn_id_width c), total_threads c)
    | None => Ok (Z.max module_width 1, 1)
    end
  else Ok (Z.max module_width 1, 1).

Definition plain_site (rec : string -> res CodegenError connections) (task_name : string) (task : Task) (conns : connections)
    (site : string * nat * string * Arg) : res CodegenError connections :=
  let '(child_task, _, child_port, a) := site in
  if negb (is_direct_mmap (cat a)) then Ok conns else
  let! (id_width, threads) := plain_summary rec child_task child_port in
  add_slave st task_name task conns site id_width threads.

Definition plain_level (rec : string -> res CodegenError connections) (task_name : string) : res CodegenError connections :=
  let! task := ok_or (BMap.get task_name design_tasks) (TaskNotFound task_name) in
  let! conns := try_fold (plain_site rec task_name task) BMap.empty (arg_sites task) in
  let! _ := try_each check_single_slave (BMap.values conns) in
  Ok conns.

Fixpoint plain_aggregate (fuel : nat) (task_name : string) : res CodegenError connections :=
  match fuel with O => Panic | S fuel => plain_level (plain_aggregate fuel) task_name end.

Lemma arg_site_child t child i port a : (child, i, port, a) ∈ arg_sites t ->
  exists insts inst, In (child, insts) (tasks t) /\ insts !! i = Some inst /\ In (port, a) (inst_args inst).
Proof.
  unfold arg_sites. rewrite list_elem_of_In, in_flat_map. intros ([c insts] & Hin & H).
  apply in_flat_map in H as ([j inst] & Hj & H). apply in_map_iff in H as ([p b] & [= -> -> -> ->] & Hp).
  exists insts, inst. split; [done|]. split; [|done]. apply list_elem_of_In, elem_of_enumerate in Hj. done.
Qed.

Lemma add_slave_no_panic task_name task conns site w n : add_slave st task_name task conns site w n <> Panic.
Proof.
  destruct site as [[[child i] port] a]. unfold add_slave. destruct (arg_name a) as [parent|]; [|done].
  apply rbind_no_panic; [apply merge_no_panic|]. intros g. unfold invalid_mmap. destruct (negb _); [done|]. by destruct (negb _).
Qed.

Lemma check_single_no_panic c : check_single_slave c <> Panic.
Proof. unfold check_single_slave, invalid_mmap. repeat case_match; done. Qed.

Lemma check_all_no_panic l : try_each check_single_slave l <> Panic.
Proof. apply (try_each_cases (fun r => r <> Panic)); [done|]. intros c _. apply check_single_no_panic. Qed.

(** *** On an acyclic hierarchy *)

Context (num : string -> nat) (Htopo : topological (data_design st) num).

Definition enough (fuel : nat) (name : string) : Prop :=
  match BMap.get name design_tasks with Some _ => (num name < fuel)%nat | None => (0 < fuel)%nat end.

Lemma enough_fuel name : enough (aggregate_fuel st) name.
Proof using All.
  unfold enough, aggregate_fuel. destruct (BMap.get name design_tasks) as [t|] eqn:E; [|lia].
  pose proof (topo_range _ _ Htopo _ _ E). lia.
Qed.

Lemma enough_child fuel name task child i port a : enough (S fuel) name -> BMap.get name design_tasks = Some task ->
  (child, i, port, a) ∈ arg_sites task -> is_upper_task st child = true -> enough fuel child.
Proof using All.
  unfold enough, is_upper_task. intros He Hn Hs Hu. rewrite Hn in He. destruct (BMap.get child design_tasks) as [ct|] eqn:E; [|done].
  apply arg_site_child in Hs as (insts & inst & Hin & _). pose proof (topo_child _ _ Htopo _ _ _ _ _ Hn Hin E). lia.
Qed.

Lemma plain_fuel f1 f2 name : enough f1 name -> enough f2 name -> plain_aggregate f1 name = plain_aggregate f2 name.
Proof using All.
  revert f2 name. induction f1 as [|f1 IH]; intros [|f2] name H1 H2; try (unfold enough in *; case_match; lia).
  simpl. unfold plain_level. destruct (BMap.get name design_tasks) as [task|] eqn:E; simpl; [|done].
  f_equal. apply try_fold_ext. intros conns [[[child i] port] a] Hs. unfold plain_site.
  destruct (negb (is_direct_mmap (cat a))); [done|]. f_equal. unfold plain_summary. destruct (is_upper_task st child) eqn:Hu; [|done].
  f_equal. apply IH; eapply enough_child; eauto.
Qed.

Definition sound_cache (cache : mmap_cache) : Prop :=
  forall k conns, BMap.get k cache = Some conns -> plain_aggregate (aggregate_fuel st) k = Ok conns.

Definition same_conns (x : connections * mmap_cache) (conns : connections) : Prop := x.1 = conns /\ sound_cache x.2.

Lemma summary_plain fuel child port cache :
  (forall cache, sound_cache cache -> is_upper_task st child = true ->
    res_rel same_conns (aggregate_mmap_connections_cached st fuel child cache) (plain_aggregate (aggregate_fuel st) child)) ->
  sound_cache cache ->
  res_rel (fun x y => x.1 = y /\ sound_cache x.2) (child_mmap_summary st (aggregate_mmap_connections_cached st fuel) child port cache)
    (plain_summary (plain_aggregate (aggregate_fuel st)) child port).
Proof using Type.
  intros Hrec Hs. unfold child_mmap_summary, plain_summary. destruct (is_upper_task st child) eqn:Hu; [|simpl; auto].
  assert (H : res_rel (fun cache conns => sound_cache cache /\ BMap.get child cache = Some conns)
    (if BMap.contains_key child cache then Ok cache
     else let! (conns, cache) := aggregate_mmap_connections_cached st fuel child cache in Ok (BMap.insert child conns cache))
    (plain_aggregate (aggregate_fuel st) child)).
  { unfold BMap.contains_key. destruct (BMap.get child cache) as [conns|] eqn:Ec; [rewrite (Hs _ _ Ec); simpl; auto|].
    specialize (Hrec cache Hs eq_refl). destruct (aggregate_mmap_connections_cached st fuel child cache) as [[conns cache']|e|], (plain_aggregate (aggregate_fuel st) child) as [conns'|e'|] eqn:Ep; simpl in *; try done.
    destruct Hrec as [H1 H2]. simpl in *. subst conns'. split; [|by rewrite BMap.get_insert_eq].
    intros k c. rewrite BMap.get_insert. case_match; [intros [= <-]; by subst|apply H2]. }
  destruct (if BMap.contains_key child cache then _ else _) as [cache'|e|], (plain_aggregate (aggregate_fuel st) child) as [conns|e'|]; simpl in *; try done.
  destruct H as [Hs' ->]. simpl. destruct (BMap.get port conns); simpl; auto.
Qed.

Lemma cached_plain fuel name cache : sound_cache cache -> enough fuel name ->
  res_rel same_conns (aggregate_mmap_connections_cached st fuel name cache) (plain_aggregate (aggregate_fuel st) name).
Proof using All.
  revert name cache. induction fuel as [|fuel IH]; intros name cache Hs He; [unfold enough in He; case_match; lia|].
  rewrite (plain_fuel (aggregate_fuel st) (S (aggregate_fuel st))); [|apply enough_fuel|pose proof (enough_fuel name) as H; unfold enough in *; case_match; lia].
  cbn [aggregate_mmap_connections_cached plain_aggregate]. unfold aggregate_level, plain_level.
  destruct (BMap.get name design_tasks) as [task|] eqn:En; simpl; [|done].
  apply (res_rel_bind same_conns); [|intros [conns cache'] conns' [H1 H2]; simpl in H1, H2; subst conns'].
  - apply res_rel_fold; [|done]. intros [[[child i] port] a] [conns cache1] conns' Hin [H1 H2]. simpl in H1, H2. subst conns'.
    unfold aggregate_site, plain_site. destruct (negb (is_direct_mmap (cat a))); [done|].
    apply (res_rel_bind (fun x y => x.1 = y /\ sound_cache x.2)).
    + apply summary_plain; [|done]. intros cache2 H Hu. apply IH; [done|]. eapply enough_child; eauto.
    + intros [[w n] cache2] [w' n'] [Heq Hc]. simpl in Heq, Hc. injection Heq as -> ->.
      pose proof (add_slave_no_panic name task conns (child, i, port, a) w' n'). destruct (add_slave st name task conns (child, i, port, a) w' n'); simpl; done.
  - pose proof (check_all_no_panic (BMap.values conns)). destruct (try_each check_single_slave (BMap.values conns)); simpl; done.
Qed.

(** On an acyclic hierarchy the cached aggregation is the plain recursion,
    which aggregates a nested task anew at each use: the same connections or the
    same error, and it ends. *)
Theorem cached_aggregation_is_plain task_name :
  aggregate_mmap_connections st task_name = plain_aggregate (aggregate_fuel st) task_name /\
  aggregate_mmap_connections st task_name <> Panic.
Proof using Htopo.
  unfold aggregate_mmap_connections. assert (Hs : sound_cache BMap.empty) by done.
  pose proof (cached_plain (aggregate_fuel st) task_name BMap.empty Hs (enough_fuel task_name)) as H.
  destruct (aggregate_mmap_connections_cached st (aggregate_fuel st) task_name BMap.empty) as [[conns c]|e|], (plain_aggregate (aggregate_fuel st) task_name); simpl in *; try done.
  - destruct H as [H _]. simpl in H. by subst.
  - by subst.
Qed.

(** *** The connections are the bindings *)

Definition binds (name : string) (site : string * nat * string * Arg) : bool :=
  is_direct_mmap (cat site.2) && bool_decide (arg_name site.2 = Some name).

(** The geometry the site gives the argument. *)
Definition site_geometry (task_name : string) (task : Task) (name : string) (site : string * nat * string * Arg) : res CodegenError MemoryGeometry :=
  let '(child, _, port, _) := site in
  merge_mmap_port_metadata task_name name (find_port name (ports task)) child port
    (BMap.get child design_tasks ≫= fun t => find_port port (ports t)).

(** The slave a site becomes, with what its port presents. *)
Definition presents (site : string * nat * string * Arg) (s : MMapSlave) : Prop :=
  let '(child, i, port, _) := site in
  ms_task s = child /\ ms_inst_idx s = wrap32 (Z.of_nat i) /\ ms_port s = port /\
  plain_summary (plain_aggregate (aggregate_fuel st)) child port = Ok (ms_id_width s, ms_threads s).

Definition connection_of (task_name : string) (task : Task) (sites : list (string * nat * string * Arg)) (name : string) (o : option MMapConnection) : Prop :=
  match o with
  | None => List.filter (binds name) sites = []
  | Some c => List.filter (binds name) sites <> [] /\ mc_arg_name c = name /\ Forall2 presents (List.filter (binds name) sites) (mc_slaves c) /\
      Forall (fun site => site_geometry task_name task name site = Ok (mc_geometry c)) (List.filter (binds name) sites)
  end.

Lemma add_slave_exact task_name task sites conns conns' site w n : BMap.wf conns -> is_direct_mmap (cat site.2) = true ->
  plain_summary (plain_aggregate (aggregate_fuel st)) site.1.1.1 site.1.2 = Ok (w, n) ->
  (forall name, connection_of task_name task sites name (BMap.get name conns)) ->
  add_slave st task_name task conns site w n = Ok conns' ->
  BMap.wf conns' /\ forall name, connection_of task_name task (sites ++ [site]) name (BMap.get name conns').
Proof using Type.
  destruct site as [[[child i] port] a]. simpl. intros Hw Hd Hsum Hinv H. unfold add_slave in H.
  assert (Hother : forall name, arg_name a <> Some name -> List.filter (binds name) (sites ++ [(child, i, port, a)]) = List.filter (binds name) sites).
  { intros name Hne. rewrite List.filter_app. simpl. unfold binds at 2. simpl. rewrite bool_decide_eq_false_2 by done. rewrite andb_false_r. apply List.app_nil_r. }
  destruct (arg_name a) as [parent|] eqn:Ea.
  2: { injection H as <-. split; [done|]. intros name. specialize (Hinv name). unfold connection_of in *. by rewrite Hother. }
  apply rbind_ok in H as (g & Hg & H).
  set (conn := default (mkConnection parent [] g) (BMap.get parent conns)) in H.
  destruct (Z.eqb_spec (geo_data_width (mc_geometry conn)) (geo_data_width g)) as [E1|]; [|done]. cbn [negb] in H.
  destruct (decide (geo_channels (mc_geometry conn) = geo_channels g)) as [E2|E2]; [rewrite bool_decide_eq_true_2 in H by done|by rewrite bool_decide_eq_false_2 in H].
  cbn [negb] in H. injection H as <-. split; [by apply BMap.wf_insert|]. intros name. rewrite BMap.get_insert.
  assert (Eg : mc_geometry conn = g) by (destruct (mc_geometry conn), g; simpl in *; congruence).
  destruct (decide (name = parent)) as [->|Hne].
  2: { specialize (Hinv name). unfold connection_of in *. rewrite Hother by congruence. done. }
  assert (Hfilter : List.filter (binds parent) (sites ++ [(child, i, port, a)]) = List.filter (binds parent) sites ++ [(child, i, port, a)]).
  { rewrite List.filter_app. simpl. unfold binds at 2. simpl. by rewrite Ea, Hd, bool_decide_eq_true_2. }
  unfold connection_of. rewrite Hfilter. simpl. specialize (Hinv parent). unfold connection_of in Hinv. unfold conn in *.
  destruct (BMap.get parent conns) as [c|] eqn:Ec; simpl in *.
  - destruct Hinv as (Hne & Hn & Hs & Hgs). split; [by destruct (List.filter (binds parent) sites)|]. split; [done|]. split.
    + apply Forall2_app; [done|]. constructor; [by simpl|constructor].
    + apply Forall_app. split; [done|]. constructor; [|done]. simpl. by rewrite Eg.
  - rewrite Hinv. simpl. split; [done|]. split; [done|]. split; [constructor; [by simpl|constructor]|]. constructor; [done|constructor].
Qed.

Lemma plain_site_exact task_name task sites conns conns' site :
  BMap.wf conns /\ (forall name, connection_of task_name task sites name (BMap.get name conns)) ->
  plain_site (plain_aggregate (aggregate_fuel st)) task_name task conns site = Ok conns' ->
  BMap.wf conns' /\ forall name, connection_of task_name task (sites ++ [site]) name (BMap.get name conns').
Proof using Type.
  intros [Hw Hinv] H. unfold plain_site in H. destruct site as [[[child i] port] a]. destruct (is_direct_mmap (cat a)) eqn:Hd; simpl in H.
  - apply rbind_ok in H as ([w n] & Hsum & H). by eapply add_slave_exact.
  - injection H as <-. split; [done|]. intros name. specialize (Hinv name). unfold connection_of in *.
    assert (E : List.filter (binds name) (sites ++ [(child, i, port, a)]) = List.filter (binds name) sites)
      by (rewrite List.filter_app; simpl; unfold binds at 2; simpl; rewrite Hd; apply List.app_nil_r).
    by rewrite E.
Qed.

(** The connections of a task are exactly the mmap bindings of its
    instances: an argument has a connection when a child binds it, whose slaves
    are the binding ports in order, each with the ID width and threads its task
    presents, and whose geometry every binding merges to; an hmap is never driven
    by one port that shares it internally. *)
Theorem connections_exact task_name conns : aggregate_mmap_connections st task_name = Ok conns ->
  exists task, BMap.get task_name design_tasks = Some task /\ BMap.wf conns /\
    (forall name, connection_of task_name task (arg_sites task) name (BMap.get name conns)) /\
    forall name c s, BMap.get name conns = Some c -> mc_slaves c = [s] -> is_hmap (mc_geometry c) = true -> total_threads c <= 1.
Proof using Htopo.
  intros H. unfold aggregate_mmap_connections in H. apply rbind_ok in H as ([conns0 c0] & H & [= ->]).
  assert (Hs : sound_cache BMap.empty) by done.
  pose proof (cached_plain (aggregate_fuel st) task_name BMap.empty Hs (enough_fuel task_name)) as Hc. rewrite H in Hc. clear H.
  rewrite (plain_fuel (aggregate_fuel st) (S (aggregate_fuel st))) in Hc; [|apply enough_fuel|pose proof (enough_fuel task_name) as Hf; unfold enough in *; case_match; lia].
  cbn [plain_aggregate] in Hc. destruct (plain_level _ task_name) as [conns'|e|] eqn:Hp; simpl in Hc; try done. destruct Hc as [E _]. simpl in E. subst conns'.
  unfold plain_level in Hp. apply rbind_ok in Hp as (task & Ht & Hp). apply ok_or_ok in Ht. apply rbind_ok in Hp as (conns1 & Hf & Hp).
  apply rbind_ok in Hp as ([] & Hchk & [= ->]). exists task. split; [done|].
  destruct (try_fold_ind (fun sites conns => BMap.wf conns /\ forall name, connection_of task_name task sites name (BMap.get name conns)) _ _ _ _
    (conj (BMap.wf_nil) (fun name => eq_refl)) (fun sites site rest conns conns' _ Hi Hst => plain_site_exact task_name task sites conns conns' site Hi Hst) Hf) as [Hw Hinv].
  split; [done|]. split; [done|]. intros name c s Hg Hsl Hm. apply try_each_ok in Hchk. rewrite Forall_forall in Hchk.
  assert (Hin : c ∈ BMap.values conns) by (apply list_elem_of_In, in_map_iff; exists (name, c); split; [done|by apply BMap.get_In]).
  specialize (Hchk c Hin). unfold check_single_slave in Hchk. rewrite Hsl, Hm in Hchk. simpl in Hchk. destruct (Z.ltb_spec 1 (total_threads c)); [done|lia].
Qed.
End reference.

(** ** Direct interfaces *)

Lemma or_invalid_direct_ok {A} (o : option A) i r a : or_invalid_direct o i r = Ok a <-> o = Some a.
Proof. unfold or_invalid_direct, invalid_direct. destruct o; naive_solver. Qed.

(** RTL that carries a complete compact M-AXI interface of the given widths. *)
Definition compact_interface (m : VerilogModule) (prefix : string) (data_width id_width : Z) : Prop :=
  forall e, e ∈ m_axi_compact_ports -> exists p,
    rtl_find_port m (prefix +:+ axp_suffix e) = Some p /\ rp_direction p = rtl_direction (axp_direction e) /\
    (is_id_port e = true -> resolve_rtl_port_width m p = Some id_width) /\
    (forall w, resolve_rtl_port_width m p = Some w -> w = axi_port_width e data_width AXI_ADDR_WIDTH id_width).

Section compact.
Context (m : VerilogModule) (interface prefix : string) (data_width : Z).

Lemma check_compact_port_ok e : check_compact_port m interface prefix e = Ok tt <->
  exists p, rtl_find_port m (prefix +:+ axp_suffix e) = Some p /\ rp_direction p = rtl_direction (axp_direction e).
Proof.
  unfold check_compact_port. rewrite rbind_ok. split.
  - intros (p & Hp%or_invalid_direct_ok & H). exists p. split; [done|]. destruct (decide (rp_direction p = rtl_direction (axp_direction e))); [done|].
    by rewrite bool_decide_eq_false_2 in H.
  - intros (p & Hp & Hd). exists p. split; [by apply or_invalid_direct_ok|]. by rewrite bool_decide_eq_true_2.
Qed.

Lemma check_port_width_ok w e p : rtl_find_port m (prefix +:+ axp_suffix e) = Some p ->
  check_port_width m interface prefix data_width w e = Ok tt <->
  (forall a, resolve_rtl_port_width m p = Some a -> a = axi_port_width e data_width AXI_ADDR_WIDTH w).
Proof.
  intros Hp. unfold check_port_width. rewrite Hp. simpl. destruct (resolve_rtl_port_width m p) as [a|]; [|naive_solver].
  destruct (Z.eqb_spec a (axi_port_width e data_width AXI_ADDR_WIDTH w)); simpl; split; try done; [by intros _ ? [= <-]|]. intros H. by specialize (H a eq_refl).
Qed.

Lemma check_id_widths_ok l acc w : try_fold (check_id_width m interface prefix) acc l = Ok (Some w) <->
  (acc = None \/ acc = Some w) /\ Forall (fun x => x.2 = Some w) l /\ (acc = None -> l <> []).
Proof.
  revert acc. induction l as [|[[sfx p] r] l IH]; intros acc; simpl.
  - split; [intros [= ->]; by split; [right|]|]. intros ([->| ->] & _ & H); [by destruct (H eq_refl)|done].
  - rewrite rbind_ok, Forall_cons. cbn [snd]. split.
    + intros (acc' & H & Hf). apply IH in Hf as (Ha & Hl & _). unfold check_id_width in H. destruct r as [v|]; [|done].
      cbn [or_invalid_direct rbind] in H. destruct acc as [pv|].
      * destruct (Z.eqb_spec v pv) as [E|]; [|done]. cbn [negb] in H. injection H as <-. destruct Ha as [|[= ->]]; [done|]. subst v. auto.
      * injection H as <-. destruct Ha as [|[= ->]]; [done|]. auto.
    + intros (Ha & [-> Hl] & _). exists (Some w). split; [|apply IH; auto].
      destruct Ha as [->| ->]; simpl; [done|]. by rewrite Z.eqb_refl.
Qed.

Lemma id_widths_entry e p : e ∈ m_axi_compact_ports -> is_id_port e = true -> rtl_find_port m (prefix +:+ axp_suffix e) = Some p ->
  (axp_suffix e, p, resolve_rtl_port_width m p) ∈ rtl_m_axi_id_widths m prefix.
Proof.
  intros He Hi Hp. unfold rtl_m_axi_id_widths. apply list_elem_of_omap. exists e. rewrite Hp. split; [|done].
  apply list_elem_of_In, filter_In. by rewrite <- list_elem_of_In.
Qed.

Lemma some_id_port : exists e, e ∈ m_axi_compact_ports /\ is_id_port e = true.
Proof.
  assert (H : existsb is_id_port m_axi_compact_ports = true) by reflexivity. apply existsb_exists in H as (e & He & Hi). exists e. by rewrite list_elem_of_In.
Qed.

(** The validation accepts exactly the complete interfaces. *)
Lemma validate_compact_iff w : validate_compact_m_axi_ports m interface prefix data_width = Ok w <-> compact_interface m prefix data_width w.
Proof.
  unfold validate_compact_m_axi_ports. split.
  - intros H. apply rbind_ok in H as ([] & Hp & H). apply rbind_ok in H as (o & Hid & H). apply rbind_ok in H as (w' & Ho%or_invalid_direct_ok & H).
    apply rbind_ok in H as ([] & Hw & [= ->]). subst o. apply try_each_ok in Hp, Hw. rewrite Forall_forall in Hp, Hw.
    apply check_id_widths_ok in Hid as (_ & Hid & _). rewrite Forall_forall in Hid.
    intros e He. specialize (Hp e He). apply check_compact_port_ok in Hp as (p & Hp & Hd). exists p. split; [done|]. split; [done|]. split.
    + intros Hi. apply (Hid (axp_suffix e, p, resolve_rtl_port_width m p)). by apply id_widths_entry.
    + by apply (check_port_width_ok w e p Hp), Hw.
  - intros Hc. assert (H1 : try_each (check_compact_port m interface prefix) m_axi_compact_ports = Ok tt).
    { apply try_each_ok, Forall_forall. intros e He. apply check_compact_port_ok. destruct (Hc e He) as (p & Hp & Hd & _). eauto. }
    assert (H2 : try_fold (check_id_width m interface prefix) None (rtl_m_axi_id_widths m prefix) = Ok (Some w)).
    { apply check_id_widths_ok. split; [auto|]. split.
      - apply Forall_forall. intros [[sfx p] r] Hin. unfold rtl_m_axi_id_widths in Hin. apply list_elem_of_omap in Hin as (e & He & Hx).
        apply list_elem_of_In, filter_In in He as [He Hi]. apply list_elem_of_In in He. destruct (Hc e He) as (p' & Hp & _ & Hid & _). rewrite Hp in Hx.
        injection Hx as <- <- <-. simpl. by apply Hid.
      - intros _ E. destruct some_id_port as (e & He & Hi). destruct (Hc e He) as (p & Hp & _). pose proof (id_widths_entry e p He Hi Hp) as Hin. rewrite E in Hin. by apply not_elem_of_nil in Hin. }
    rewrite H1. cbn [rbind]. rewrite H2. cbn [rbind or_invalid_direct].
    assert (H3 : try_each (check_port_width m interface prefix data_width w) m_axi_compact_ports = Ok tt); [|by rewrite H3].
    apply try_each_ok, Forall_forall. intros e He. destruct (Hc e He) as (p & Hp & _ & _ & Hw). by apply (check_port_width_ok w e p Hp).
Qed.
End compact.

(** The physical widths of the five channels. *)
Definition sum_width (data_width id_width : Z) (channel : string) : Z :=
  match m_axi_channel channel with Some c => wrap32 (zsum (fun p => axi_port_width p data_width AXI_ADDR_WIDTH id_width) (compact_ports c)) | None => 0 end.

Lemma channel_widths_ok dw iw : direct_m_axi_channel_widths dw iw =
  Ok (mkWidths (sum_width dw iw "AR") (sum_width dw iw "R") (sum_width dw iw "AW") (sum_width dw iw "W") (sum_width dw iw "B")).
Proof. reflexivity. Qed.

(** A catalogued interface: one leaf child bound to the argument, whose RTL is a
    complete compact interface, or drives a bridge of the surviving directions. *)
Record direct_interface `{RtlLibraries} (st : TopologyWithRtl) (task : Task) (c : MMapConnection) (d : DirectMmapInterface) : Prop := {
  dr_plain : is_hmap (mc_geometry c) = false;
  dr_parent : exists p, find_port (mc_arg_name c) (ports task) = Some p /\ port_cat p = Mmap;
  dr_child : exists s insts inst b child p m,
    mc_slaves c = [s] /\ BMap.get (ms_task s) (tasks task) = Some insts /\ insts !! Z.to_nat (ms_inst_idx s) = Some inst /\
    BMap.get (ms_port s) (inst_args inst) = Some b /\
    BMap.get (ms_task s) (graph_tasks (data_design st)) = Some child /\ level child = Lower /\
    find_port (ms_port s) (ports child) = Some p /\ port_cat p = cat b /\ is_direct_mmap (cat b) = true /\
    BMap.get (ms_task s) (module_map st) = Some m /\
    di_endpoint d = mkAxiEndpoint (canonical_name inst (ms_task s) (Z.to_nat (ms_inst_idx s))) (ms_port s) (mc_arg_name c) /\
    let width := sum_width (di_data_width d) (di_id_width d) in
    if bool_decide (cat b = Mmap) || has_direct_m_axi_ports (inner m) (ms_port s) then
      compact_interface (inner m) (M_AXI_PREFIX +:+ sanitize_array_name (ms_port s)) (di_data_width d) (di_id_width d) /\
      di_channel_widths d = mkWidths (width "AR") (width "R") (width "AW") (width "W") (width "B") /\ di_bridge_instance d = None
    else
      let tags := active_tags (inner m) (ms_port s) in
      let en := enabled_axi_directions (inner m) (ms_port s) tags in
      let if_read w := if en_read en then w else 0 in
      let if_write w := if en_write en then w else 0 in
      tags <> [] /\ di_id_width d = AXI_ID_WIDTH /\
      di_channel_widths d = mkWidths (if_read (width "AR")) (if_read (width "R")) (if_write (width "AW")) (if_write (width "W")) (if_write (width "B")) /\
      di_bridge_instance d = Some (async_mmap_bridge_instance_name (mc_arg_name c));
  dr_width : di_data_width d = geo_data_width (mc_geometry c) /\ di_addr_width d = AXI_ADDR_WIDTH;
}.

Lemma plain_category_ok c i l : validate_plain_mmap_category c i l = Ok tt -> c = Mmap.
Proof. destruct c; done. Qed.

Lemma direct_child_ok design inst s i c : validate_direct_child_mmap design inst s i = Ok c ->
  exists b child p, BMap.get (ms_port s) (inst_args inst) = Some b /\ BMap.get (ms_task s) (graph_tasks design) = Some child /\ level child = Lower /\
    find_port (ms_port s) (ports child) = Some p /\ port_cat p = cat b /\ is_direct_mmap (cat b) = true /\ c = cat b.
Proof.
  unfold validate_direct_child_mmap. intros H. apply rbind_ok in H as (b & Hb%or_invalid_direct_ok & H).
  destruct (is_direct_mmap (cat b)) eqn:Hd; [|done]. cbn [negb] in H. apply rbind_ok in H as (child & Hc%or_invalid_direct_ok & H).
  destruct (decide (level child = Lower)) as [Hl|Hl]; [rewrite bool_decide_eq_true_2 in H by done|by rewrite bool_decide_eq_false_2 in H]. cbn [negb] in H.
  apply rbind_ok in H as (p & Hp%or_invalid_direct_ok & H).
  destruct (decide (port_cat p = cat b)) as [He|He]; [rewrite bool_decide_eq_true_2 in H by done|by rewrite bool_decide_eq_false_2 in H]. injection H as <-.
  exists b, child, p. by rewrite He.
Qed.

Lemma direct_interface_ok `{RtlLibraries} st task_name task c d : direct_mmap_interface st task_name task c = Ok d -> direct_interface st task c d.
Proof.
  unfold direct_mmap_interface. intros Hd. apply rbind_ok in Hd as ([] & Hp & Hd). apply rbind_ok in Hd as ([[s i] inst] & Hs & Hd).
  apply rbind_ok in Hd as (category & Hc & Hd). apply rbind_ok in Hd as (m & Hm%or_invalid_direct_ok & Hd). apply rbind_ok in Hd as ([[idw widths] bridge] & Hcat & [= <-]).
  unfold validate_plain_parent_mmap in Hp. destruct (is_hmap (mc_geometry c)) eqn:Hh; [done|]. apply rbind_ok in Hp as (pp & Hpp%or_invalid_direct_ok & Hp%plain_category_ok).
  unfold direct_mmap_child_instance in Hs. destruct (mc_slaves c) as [|s' []] eqn:Hsl; try done. apply rbind_ok in Hs as (insts & Hi%or_invalid_direct_ok & Hs).
  apply rbind_ok in Hs as (inst' & Hi'%or_invalid_direct_ok & [= <- <- <-]).
  apply direct_child_ok in Hc as (b & child & p & Hb & Hch & Hl & Hfp & Hpc & Hdm & ->).
  split; cbn [di_data_width di_addr_width di_id_width di_channel_widths di_bridge_instance di_endpoint]; [done|by exists pp| |done]. exists s', insts, inst', b, child, p, m. do 11 (split; [done|]).
  unfold catalog_direct_mmap_rtl in Hcat. destruct (bool_decide (cat b = Mmap) || has_direct_m_axi_ports (inner m) (ms_port s')).
  - apply rbind_ok in Hcat as (w & Hw%validate_compact_iff & Hcat). rewrite channel_widths_ok in Hcat. injection Hcat as -> <- <-. done.
  - destruct (active_tags (inner m) (ms_port s')) as [|t ts] eqn:Et; [done|]. rewrite channel_widths_ok in Hcat. cbn [rbind] in Hcat. cbv zeta in Hcat |- *. revert Hcat.
    generalize (enabled_axi_directions (inner m) (ms_port s') (t :: ts)). intros en [= <- <- <-]. split; [done|]. split; [done|]. split; [|done]. by destruct en as [[] []].
Qed.

(** The catalog of direct interfaces has one entry per connection, in order,
    and each entry is a direct interface: a plain mmap of the task bound to one
    leaf child whose RTL carries the whole interface at the catalogued widths, or
    a bridge that keeps the directions the RTL can drive. *)
Theorem direct_interfaces_checked `{RtlLibraries} st task_name l : direct_mmap_interfaces st task_name = Ok l ->
  exists task conns, BMap.get task_name (graph_tasks (data_design st)) = Some task /\ aggregate_mmap_connections st task_name = Ok conns /\
    Forall2 (direct_interface st task) (BMap.values conns) l.
Proof.
  unfold direct_mmap_interfaces. intros H1. apply rbind_ok in H1 as (task & Ht%ok_or_ok & H1). apply rbind_ok in H1 as (conns & Hc & H1).
  exists task, conns. split; [done|]. split; [done|]. apply try_map_Forall2 in H1. eapply Forall2_impl; [exact H1|]. intros c d. apply direct_interface_ok.
Qed.

(** ** A concrete design

    The top shares [a] between a leaf and a task that shares it between two
    more, and gives [b] to one leaf of its own. *)
Module MmapExample.
Definition mport (name : string) : Port := plain_port Mmap name "float*" 32.
Definition inst (port arg : string) : TaskInstance := mkInstance None [(port, arg_named arg Mmap)] 0.
Definition leaf : Task := simple_task Lower [mport "p"] [] [].
Definition mid : Task := simple_task Upper [mport "m"] [("leaf", [inst "p" "m"; inst "p" "m"])] [].
Definition top_def : Task := simple_task Upper [mport "a"] [("leaf", [inst "p" "a"]); ("mid", [inst "m" "a"])] [].
Definition solo : Task := simple_task Upper [mport "b"] [("leaf", [inst "p" "b"])] [].
Definition graph : TaskGraph := mkGraph 3 "top" XilinxVitis [] [("leaf", leaf); ("mid", mid); ("solo", solo); ("top", top_def)].

(** The leaf's RTL: the compact interface, 32 data bits and one ID bit. *)
Definition rtl_port (e : AxiPort) : RtlPort :=
  mkRtlPort ("m_axi_p" +:+ axp_suffix e) (rtl_direction (axp_direction e))
    (Some (wide_width (Str.show (axi_port_width e 32 AXI_ADDR_WIDTH 1 - 1)) "0")).
Definition leaf_rtl : VerilogModule := mkModule "leaf" (simple_port "p_offset" Input :: map rtl_port m_axi_compact_ports) [] [] "".
Definition state : TopologyWithRtl := set_modules (topology_new graph) [("leaf", mkMutable leaf_rtl "" "" [] [] [])].

#[export] Instance libraries : RtlLibraries := {
  parse_module _ := Err NoModuleFound; original_module_text _ := ("", ""); zero_driven_names _ := []; regex_remove _ s := s }.

Definition num (name : string) : nat := if bool_decide (name = "leaf") then 0 else if bool_decide (name = "mid") then 1 else 2.
End MmapExample.
#[local] Existing Instance MmapExample.libraries.

Lemma example_topo : topological (data_design MmapExample.state) MmapExample.num.
Proof.
  split.
  - intros n t _. unfold MmapExample.num. simpl. repeat case_bool_decide; lia.
  - intros n t d insts ct Hn Hin Hd. apply BMap.get_In in Hn. simpl in Hn.
    repeat match goal with H : _ \/ _ |- _ => destruct H as [H|H] end; try done; injection Hn as <- <-; simpl in Hin;
      repeat match goal with H : _ \/ _ |- _ => destruct H as [H|H] end; try done; injection Hin as <- <-; vm_compute; lia.
Qed.

Definition example_conns : bmap string MMapConnection :=
  [("a", mkConnection "a" [mkSlave "leaf" 0 "p" 1 1; mkSlave "mid" 0 "m" 2 2] (mkGeometry 32 None))].

Lemma example_aggregates : aggregate_mmap_connections MmapExample.state "top" = Ok example_conns.
Proof. vm_compute. reflexivity. Qed.

Lemma cached_aggregation_is_plain_witness : plain_aggregate MmapExample.state 5 "top" = Ok example_conns.
Proof.
  rewrite <- example_aggregates. symmetry. exact (proj1 (cached_aggregation_is_plain MmapExample.state MmapExample.num example_topo "top")).
Defined.

Lemma connections_exact_witness : exists task, BMap.get "top" (graph_tasks (data_design MmapExample.state)) = Some task /\
  connection_of MmapExample.state "top" task (arg_sites task) "a" (BMap.get "a" example_conns).
Proof.
  destruct (connections_exact MmapExample.state MmapExample.num example_topo "top" example_conns example_aggregates) as (task & Ht & _ & H & _).
  exists task. split; [exact Ht|exact (H "a")].
Defined.

Definition example_direct : list DirectMmapInterface :=
  match direct_mmap_interfaces MmapExample.state "solo" with Ok l => l | _ => [] end.

Lemma example_direct_ok : direct_mmap_interfaces MmapExample.state "solo" = Ok example_direct /\ length example_direct = 1%nat.
Proof. vm_compute. split; reflexivity. Qed.

Lemma direct_interfaces_checked_witness : exists task conns,
  aggregate_mmap_connections MmapExample.state "solo" = Ok conns /\ Forall2 (direct_interface MmapExample.state task) (BMap.values conns) example_direct.
Proof.
  destruct (direct_interfaces_checked MmapExample.state "solo" example_direct (proj1 example_direct_ok)) as (task & conns & _ & Hc & H).
  exists task, conns. split; [exact Hc|exact H].
Defined.
