(* ===== verification/MAxi.v ===== *)
(** * M-AXI ports and crossbars

    [tapa-codegen/src/passes/m_axi.rs]: the ports a memory-map connection adds to
    its task, the crossbar that multiplexes its slaves onto its channels, and the
    text of the crossbar module. *)

From S2P Require Import Prelude RustStd BTreeMap Names Ir FloorGraph Protocol Rtl VerilogSem Topology AsyncMmap Mmap.

Local Open Scope Z_scope.

(** [{idx:02}]. *)
Definition show2 (n : Z) : string := if n <? 10 then "0" +:+ Str.show n else Str.show n.

Definition build_m_axi_ports (name : string) (data_width addr_width id_width : Z) : list RtlPort :=
  let prefix := M_AXI_PREFIX +:+ sanitize_array_name name in
  map (fun entry =>
    let port_name := prefix +:+ axp_suffix entry in
    let direction := rtl_direction (axp_direction entry) in
    let width := axi_port_width entry data_width addr_width id_width in
    if 1 <? width then wide_port port_name direction (Str.show (width - 1)) "0" else simple_port port_name direction) m_axi_ports.

Definition add_m_axi_ports_with_id_width (m : MutableModule) (name : string) (data_width addr_width id_width : Z) : MutableModule :=
  fold_left try_add_port (build_m_axi_ports name data_width addr_width id_width) m.

Definition add_m_axi_ports (m : MutableModule) (name : string) (data_width addr_width : Z) : MutableModule :=
  add_m_axi_ports_with_id_width m name data_width addr_width AXI_ID_WIDTH.

(** ** The crossbar instance *)

Definition needs_crossbar (c : MMapConnection) : bool := (1 <? thread_count c) || is_hmap (mc_geometry c).

Definition crossbar_module_name (c : MMapConnection) : string :=
  "axi_crossbar_" +:+ Str.show (thread_count c) +:+ "x" +:+ Str.show (conn_channel_count c).

Definition crossbar_slave_prefix (arg_name : string) (slave_idx : nat) : string :=
  M_AXI_PREFIX +:+ sanitize_array_name arg_name +:+ "_s" +:+ Str.show (Z.of_nat slave_idx).

Definition crossbar_master_addr_raw (arg_name : string) (channel_idx : Z) (suffix : string) : string :=
  M_AXI_PREFIX +:+ sanitize_array_name arg_name +:+ "_" +:+ Str.show channel_idx +:+ suffix +:+ "_raw".

Definition crossbar_slave_id_width (c : MMapConnection) : Z :=
  Z.max 1 (saturating_sub (conn_id_width c) (routing_id_bits (thread_count c))).

Definition is_id_suffix (suffix : string) : bool := str_in suffix ["_ARID"; "_AWID"; "_BID"; "_RID"].

Definition resolve_suffix_width (suffix : string) (data_width : Z) : Z :=
  axi_subport_width (axi_subport_from_suffix suffix) data_width AXI_ADDR_WIDTH AXI_ID_WIDTH.

Definition crossbar_slave_suffix_width (c : MMapConnection) (suffix : string) : Z :=
  if is_id_suffix suffix then crossbar_slave_id_width c else resolve_suffix_width suffix (geo_data_width (mc_geometry c)).

Definition validate_mmap_connection (c : MMapConnection) : res CodegenError unit :=
  if existsb (fun s => ms_threads s =? 0) (mc_slaves c) then
    invalid_mmap ("M-AXI slave thread count is 0 for argument `" +:+ mc_arg_name c +:+ "`")
  else if needs_crossbar c && bool_decide (length (mc_slaves c) = O) then
    invalid_mmap ("crossbar has no downstream connections for argument `" +:+ mc_arg_name c +:+ "`")
  else Ok tt.

(** Where channel [idx] begins. *)
Definition channel_base (addr_width idx : Z) : string :=
  Str.show AXI_ADDR_WIDTH +:+ "'d" +:+ (if AXI_ADDR_WIDTH <=? addr_width then "0" else Str.show (wrap64 (Z.shiftl idx addr_width))).

Definition channel_params (addr_width idx : Z) : list ParamArg :=
  [mkParamArg ("M" +:+ show2 idx +:+ "_BASE_ADDR") (Lit (channel_base addr_width idx));
   mkParamArg ("M" +:+ show2 idx +:+ "_ADDR_WIDTH") (expr_int addr_width);
   mkParamArg ("M" +:+ show2 idx +:+ "_ISSUE") (expr_int M_AXI_MAX_OUTSTANDING)].

Definition try_build_crossbar_params (c : MMapConnection) : res CodegenError (list ParamArg) :=
  let! _ := validate_mmap_connection c in
  let addr_width := default AXI_ADDR_WIDTH (channel_addr_width (mc_geometry c)) in
  Ok ([mkParamArg "DATA_WIDTH" (expr_int (geo_data_width (mc_geometry c)));
       mkParamArg "ADDR_WIDTH" (expr_int AXI_ADDR_WIDTH);
       mkParamArg "S_ID_WIDTH" (expr_int (crossbar_slave_id_width c));
       mkParamArg "M_ID_WIDTH" (expr_int (conn_id_width c))]
      ++ flat_map (channel_params addr_width) (zrange 0 (conn_channel_count c))
      ++ map (fun '(idx, s) => mkParamArg ("S" +:+ show2 (Z.of_nat idx) +:+ "_THREADS") (expr_int (ms_threads s))) (enumerate (mc_slaves c))).

(** The connections of one upstream channel, and of one slave. *)
Definition master_ports (arg_name : string) (hmap : bool) (idx : Z) : list PortArg :=
  let m_prefix := M_AXI_PREFIX +:+ arg_name +:+ (if hmap then "_" +:+ Str.show idx else "") in
  map (fun suffix =>
    mkPortArg ("m" +:+ show2 idx +:+ suffix)
      (Ident (if hmap && str_ends_with "ADDR" suffix then crossbar_master_addr_raw arg_name idx suffix else m_prefix +:+ suffix)))
    m_axi_compact_suffixes.

Definition slave_ports (arg_name : string) (idx : nat) : list PortArg :=
  map (fun suffix => mkPortArg ("s" +:+ show2 (Z.of_nat idx) +:+ suffix) (Ident (crossbar_slave_prefix arg_name idx +:+ suffix))) m_axi_compact_suffixes.

Definition try_build_crossbar_instance (c : MMapConnection) : res CodegenError ModuleInstance :=
  let arg_name := sanitize_array_name (mc_arg_name c) in
  let! params := try_build_crossbar_params c in
  Ok (mkInst (crossbar_module_name c) ("axi_crossbar__" +:+ arg_name) params
    ([mkPortArg "clk" (Ident HANDSHAKE_CLK); mkPortArg "rst" (Ident HANDSHAKE_RST)]
     ++ flat_map (master_ports arg_name (is_hmap (mc_geometry c))) (zrange 0 (conn_channel_count c))
     ++ flat_map (slave_ports arg_name) (seq 0 (length (mc_slaves c))))).

(** ** The text of the crossbar module *)

Definition join_indented (items : list string) : string := join ("," +:+ nl) (map (fun p => "  " +:+ p) items).

Definition crossbar_port_width (p : AxiPort) (master_side : bool) : string :=
  match axp_width p with
  | WFixed w => Str.show w
  | WAddress => "ADDR_WIDTH"
  | WData => "DATA_WIDTH"
  | WId => if master_side then "M_ID_WIDTH" else "S_ID_WIDTH"
  | WStrobe => "DATA_WIDTH/8"
  end.

Definition width_decl (width : string) : string := if bool_decide (width = "1") then "" else " [" +:+ width +:+ "-1:0]".

Definition concat_ports (prefix : string) (count : Z) (suffix : string) : string :=
  let port_name idx := prefix +:+ show2 idx +:+ suffix in
  if count =? 1 then port_name 0
  else "{" +:+ join ", " (map port_name (List.rev (zrange 0 count))) +:+ "}".

(** The declared ports of one side, with the direction the crossbar sees. *)
Definition crossbar_side (letter out_dir in_dir : string) (master_side : bool) (count : Z) : list string :=
  flat_map (fun idx => map (fun p =>
    (match axp_direction p with DirOutput => out_dir | DirInput => in_dir end) +:+ " wire" +:+ width_decl (crossbar_port_width p master_side)
    +:+ " " +:+ letter +:+ show2 idx +:+ axp_suffix p) m_axi_compact_ports) (zrange 0 count).

Definition to_axi_suffix (suffix : string) : string := Str.to_ascii_lowercase (trim_underscores suffix).

Definition reversed_params (letter tail : string) (count : Z) : string :=
  join ", " (map (fun idx => letter +:+ show2 idx +:+ tail) (List.rev (zrange 0 count))).

Definition generate_crossbar_rtl (c : MMapConnection) : string :=
  let module_name := crossbar_module_name c in
  let slaves := thread_count c in
  let channels := conn_channel_count c in
  let s := Str.show slaves in
  let ch := Str.show channels in
  let connect_bits := Str.show (wrap32 (channels * slaves)) in
  let params :=
    ["parameter DATA_WIDTH = 32"; "parameter ADDR_WIDTH = " +:+ Str.show AXI_ADDR_WIDTH; "parameter S_ID_WIDTH = " +:+ Str.show AXI_ID_WIDTH;
     "parameter M_ID_WIDTH = S_ID_WIDTH+$clog2(" +:+ s +:+ ")"]
    ++ flat_map (fun idx => ["parameter M" +:+ show2 idx +:+ "_BASE_ADDR = 0"; "parameter M" +:+ show2 idx +:+ "_ADDR_WIDTH = ADDR_WIDTH";
                             "parameter M" +:+ show2 idx +:+ "_ISSUE = " +:+ Str.show M_AXI_MAX_OUTSTANDING]) (zrange 0 channels)
    ++ map (fun idx => "parameter S" +:+ show2 idx +:+ "_THREADS = 1") (zrange 0 slaves) in
  let ports := ["input wire clk"; "input wire rst"] ++ crossbar_side "m" "output" "input" true channels ++ crossbar_side "s" "input" "output" false slaves in
  let axi_params :=
    [".S_COUNT(" +:+ s +:+ ")"; ".M_COUNT(" +:+ ch +:+ ")"; ".DATA_WIDTH(DATA_WIDTH)"; ".ADDR_WIDTH(ADDR_WIDTH)"; ".S_ID_WIDTH(S_ID_WIDTH)"; ".M_ID_WIDTH(M_ID_WIDTH)";
     ".S_THREADS({" +:+ reversed_params "S" "_THREADS" slaves +:+ "})";
     ".S_ACCEPT({" +:+ s +:+ "{32'd" +:+ Str.show M_AXI_MAX_OUTSTANDING +:+ "}})"; ".M_REGIONS(1)";
     ".M_BASE_ADDR({" +:+ reversed_params "M" "_BASE_ADDR" channels +:+ "})"; ".M_ADDR_WIDTH({" +:+ reversed_params "M" "_ADDR_WIDTH" channels +:+ "})";
     ".M_CONNECT_READ({" +:+ connect_bits +:+ "{1'b1}})"; ".M_CONNECT_WRITE({" +:+ connect_bits +:+ "{1'b1}})";
     ".M_ISSUE({" +:+ reversed_params "M" "_ISSUE" channels +:+ "})"] in
  let axi_ports :=
    [".clk(clk)"; ".rst(rst)"]
    ++ map (fun '(name, value) => ".s_axi_" +:+ name +:+ "({" +:+ s +:+ "{" +:+ value +:+ "}})") OPTIONAL_AXI_ADDRESS_PORTS
    ++ map (fun suffix => ".s_axi_" +:+ to_axi_suffix suffix +:+ "(" +:+ concat_ports "s" slaves suffix +:+ ")") m_axi_compact_suffixes
    ++ map (fun '(name, _) => ".m_axi_" +:+ name +:+ "()") OPTIONAL_AXI_ADDRESS_PORTS
    ++ map (fun suffix => ".m_axi_" +:+ to_axi_suffix suffix +:+ "(" +:+ concat_ports "m" channels suffix +:+ ")") m_axi_compact_suffixes
    ++ [".s_axi_awuser(" +:+ s +:+ "'b0)"; ".s_axi_wuser(" +:+ s +:+ "'b0)"; ".s_axi_aruser(" +:+ s +:+ "'b0)";
        ".m_axi_awregion()"; ".m_axi_awuser()"; ".m_axi_arregion()"; ".m_axi_aruser()"; ".s_axi_buser()"; ".s_axi_ruser()";
        ".m_axi_buser(" +:+ ch +:+ "'b0)"; ".m_axi_ruser(" +:+ ch +:+ "'b0)"] in
  "// Auto-generated AXI crossbar: " +:+ s +:+ " slaves x " +:+ ch +:+ " channels" +:+ nl
  +:+ "module " +:+ module_name +:+ " #(" +:+ nl +:+ join_indented params +:+ nl +:+ ") (" +:+ nl +:+ join_indented ports +:+ nl +:+ ");" +:+ nl +:+ nl
  +:+ "axi_crossbar #(" +:+ nl +:+ join_indented axi_params +:+ nl +:+ ") xbar (" +:+ nl +:+ join_indented axi_ports +:+ nl +:+ ");" +:+ nl +:+ nl
  +:+ "endmodule //" +:+ module_name.

(** ** How one mmap argument of a child reaches the wires ([instance.rs]) *)

Inductive ChildMmapBinding :=
| Direct
| Crossbar (slave_index : nat) (wire_id_width child_id_width : Z)
| Pipelined (wire_prefix : string).

Definition child_binding (bindings : bmap string ChildMmapBinding) (arg_name : string) : ChildMmapBinding := default Direct (BMap.get arg_name bindings).

(** The padding of the ID bits a child does not drive. *)
Definition id_padding (bindings : bmap string ChildMmapBinding) (a : Arg) : list ContinuousAssign :=
  if negb (is_direct_mmap (cat a)) then [] else
  match arg_name a with
  | None => []
  | Some parent =>
      match child_binding bindings parent with
      | Crossbar slave_index target_width child_width =>
          if target_width <=? child_width then [] else
          map (fun suffix =>
            mkAssign (Range (Ident (crossbar_slave_prefix parent slave_index +:+ suffix)) (expr_int (target_width - 1)) (expr_int child_width))
              (int_const (target_width - child_width) 0)) ["_ARID"; "_AWID"]
      | _ => []
      end
  end.

Definition add_crossbar_slave_id_padding (modules : bmap string MutableModule) (task_name : string) (args : bmap string Arg)
    (bindings : bmap string ChildMmapBinding) : bmap string MutableModule :=
  with_module task_name (fun m => fold_left add_assign (flat_map (id_padding bindings) (BMap.values args)) m) modules.

(** ** The pass *)

(** The ports a connection adds. *)
Definition add_connection_ports (c : MMapConnection) (m : MutableModule) : MutableModule :=
  let dw := geo_data_width (mc_geometry c) in
  if is_hmap (mc_geometry c) then
    fold_left (fun m idx => add_m_axi_ports_with_id_width m (mc_arg_name c +:+ "_" +:+ Str.show idx) dw AXI_ADDR_WIDTH (conn_id_width c))
      (zrange 0 (conn_channel_count c)) m
  else if needs_crossbar c || (1 <? conn_id_width c) then add_m_axi_ports_with_id_width m (mc_arg_name c) dw AXI_ADDR_WIDTH (conn_id_width c)
  else add_m_axi_ports m (mc_arg_name c) dw AXI_ADDR_WIDTH.

(** The address of one hmap channel: the local bits added to the offset. *)
Definition hmap_address (c : MMapConnection) (addr_width idx : Z) (m : MutableModule) (suffix : string) : MutableModule :=
  let base := sanitize_array_name (mc_arg_name c) +:+ "_" +:+ Str.show idx in
  let raw := crossbar_master_addr_raw (mc_arg_name c) idx suffix in
  let m := try_add_signal m (wide_wire raw (Str.show (AXI_ADDR_WIDTH - 1)) "0") in
  let local_addr := if 64 <=? addr_width then Ident raw else Range (Ident raw) (expr_int (wrap32 (addr_width - 1))) (expr_int 0) in
  add_assign m (mkAssign (Ident ("m_axi_" +:+ base +:+ suffix)) (expr_plus (Ident (base +:+ "_offset")) local_addr)).

Definition add_crossbar_wires (c : MMapConnection) (m : MutableModule) : MutableModule :=
  let m := if is_hmap (mc_geometry c) then
      let addr_width := default AXI_ADDR_WIDTH (channel_addr_width (mc_geometry c)) in
      fold_left (fun m idx => fold_left (hmap_address c addr_width idx) ["_ARADDR"; "_AWADDR"] m) (zrange 0 (conn_channel_count c)) m
    else m in
  fold_left (fun m idx => fold_left (fun m suffix =>
      try_add_signal m (width_wire (crossbar_slave_prefix (mc_arg_name c) idx +:+ suffix) (crossbar_slave_suffix_width c suffix))) m_axi_compact_suffixes m)
    (seq 0 (length (mc_slaves c))) m.

Definition add_m_axi_connection (task_name : string) (acc : bmap string MutableModule * bmap string string) (c : MMapConnection) :
    res CodegenError (bmap string MutableModule * bmap string string) :=
  let '(modules, outputs) := acc in
  let modules := with_module task_name (add_connection_ports c) modules in
  if needs_crossbar c then
    let modules := with_module task_name (add_crossbar_wires c) modules in
    let! inst := try_build_crossbar_instance c in
    Ok (with_module task_name (fun m => add_instance m inst) modules,
        BMap.insert (crossbar_module_name c +:+ ".v") (generate_crossbar_rtl c) outputs)
  else Ok (modules, outputs).

Definition add_m_axi_and_crossbars (modules : bmap string MutableModule) (outputs : bmap string string) (task_name : string) (conns : bmap string MMapConnection) :
    res CodegenError (bmap string MutableModule * bmap string string) :=
  try_fold (add_m_axi_connection task_name) (modules, outputs) (BMap.values conns).

(** * The crossbars of shared memory maps

    Widened IDs tell every ID of every slave apart; the channels of an hmap get
    consecutive, disjoint address ranges of their own size; every wire the
    crossbar and its children meet on is declared. *)

(** ** IDs *)

Lemma routing_bits_cover n : n <= 2 ^ routing_id_bits n /\ 0 <= routing_id_bits n.
Proof.
  unfold routing_id_bits. destruct (Z.leb_spec n 1); [simpl; lia|].
  pose proof (Z.log2_spec (n - 1) ltac:(lia)) as [_ H1]. pose proof (Z.log2_nonneg (n - 1)). rewrite <- Z.add_1_r in H1. lia.
Qed.

Lemma routing_bits_le n : n <= U32_MAX -> routing_id_bits n <= 32.
Proof.
  intros Hn. unfold routing_id_bits. destruct (Z.leb_spec n 1); [lia|]. unfold U32_MAX in Hn.
  pose proof (Z.log2_le_mono (n - 1) (2 ^ 32 - 1) ltac:(lia)) as Hl. change (Z.log2 (2 ^ 32 - 1)) with 31 in Hl. lia.
Qed.

Lemma fold_max_ge l x y : y = x \/ y ∈ l -> y <= fold_left Z.max l x.
Proof.
  revert x y. induction l as [|z l IH]; simpl; intros x y Hy; [destruct Hy as [->|Hy]; [lia|by apply not_elem_of_nil in Hy]|].
  assert (Hm : Z.max x z <= fold_left Z.max l (Z.max x z)) by (apply IH; by left).
  destruct Hy as [->|Hy]; [lia|]. apply elem_of_cons in Hy as [->|Hy]; [lia|apply IH; by right].
Qed.

Lemma max_or_ge d l y : y ∈ l -> y <= max_or d l.
Proof. destruct l as [|x l]; [by intros Hy%not_elem_of_nil|]. intros Hy. apply fold_max_ge. by apply elem_of_cons in Hy. Qed.

Definition widest_child (c : MMapConnection) : Z := Z.max (max_or 1 (map ms_id_width (mc_slaves c))) 1.

Lemma connection_id_width c : Z.of_nat (length (mc_slaves c)) <= U32_MAX -> widest_child c + 32 <= U32_MAX ->
  thread_count c = Z.of_nat (length (mc_slaves c)) /\
  conn_id_width c = widest_child c + routing_id_bits (thread_count c) /\ crossbar_slave_id_width c = widest_child c.
Proof.
  intros Hl Hw. assert (Ht : thread_count c = Z.of_nat (length (mc_slaves c))) by (apply wrap32_id; unfold in_u32; lia).
  pose proof (routing_bits_cover (thread_count c)) as [_ H0]. pose proof (routing_bits_le (thread_count c) ltac:(lia)) as H1.
  assert (1 <= widest_child c) by (unfold widest_child; lia).
  assert (Hi : conn_id_width c = widest_child c + routing_id_bits (thread_count c)).
  { unfold conn_id_width, id_width_for_child_threads. fold (widest_child c). apply wrap32_id. unfold in_u32. lia. }
  split; [done|]. split; [done|]. unfold crossbar_slave_id_width, saturating_sub. rewrite Hi. lia.
Qed.

(** The IDs of a connection tell its threads apart: each slave's port is
    wide enough for the IDs its child presents, and the slave's number in front
    of its ID is an ID of the connection's width that no other pair gives. *)
Theorem crossbar_ids_distinct c : Z.of_nat (length (mc_slaves c)) <= U32_MAX -> widest_child c + 32 <= U32_MAX ->
  let w := crossbar_slave_id_width c in
  (forall s, s ∈ mc_slaves c -> ms_id_width s <= w) /\
  forall i j a b, (i < length (mc_slaves c))%nat -> (j < length (mc_slaves c))%nat -> 0 <= a < 2 ^ w -> 0 <= b < 2 ^ w ->
    0 <= Z.of_nat i * 2 ^ w + a < 2 ^ conn_id_width c /\ (Z.of_nat i * 2 ^ w + a = Z.of_nat j * 2 ^ w + b -> i = j /\ a = b).
Proof.
  intros Hl Hw. destruct (connection_id_width c Hl Hw) as (Ht & Hi & Hs). rewrite Hs, Hi. cbv zeta. split.
  - intros s Hin. unfold widest_child. pose proof (max_or_ge 1 (map ms_id_width (mc_slaves c)) (ms_id_width s) ltac:(by apply list_elem_of_fmap_2)). lia.
  - intros i j a b Hi' Hj Ha Hb. destruct (routing_bits_cover (thread_count c)) as [Hc H0]. assert (1 <= widest_child c) by (unfold widest_child; lia).
    rewrite Z.pow_add_r by lia. split; [nia|]. intros E. assert (Z.of_nat i = Z.of_nat j) by nia. split; [lia|nia].
Qed.

(** ** Addresses *)

Lemma channel_base_value aw idx : 0 <= idx -> (aw < AXI_ADDR_WIDTH -> 0 <= aw /\ idx * 2 ^ aw < 2 ^ 64) ->
  lit_value (channel_base aw idx) = Some (64, if AXI_ADDR_WIDTH <=? aw then 0 else idx * 2 ^ aw).
Proof.
  intros Hi Ha. unfold channel_base. destruct (Z.leb_spec AXI_ADDR_WIDTH aw) as [|Hlt]; [reflexivity|]. destruct (Ha Hlt) as [H0 Hb].
  rewrite Z.shiftl_mul_pow2 by done. assert (Hr : 0 <= idx * 2 ^ aw) by nia.
  rewrite wrap64_id by (unfold in_u64, U64_MAX; change (2 ^ 64) with 18446744073709551616 in Hb; lia).
  destruct (Str.show_spec (idx * 2 ^ aw) Hr) as (Hne & _ & Hp). specialize (Hp 0 ""). rewrite Str.app_nil_r in Hp.
  assert (Hsp : forall x, Str.split_once "'" (Str.show AXI_ADDR_WIDTH +:+ "'d" +:+ x) = Some ("64", String "d" x)) by reflexivity.
  unfold lit_value. rewrite Hsp. destruct (Str.show (idx * 2 ^ aw)) as [|ch s] eqn:E; [done|]. cbn [Str.is_empty].
  change (Str.parse_digits 0 "64") with (Some 64). cbv iota. change (Ascii.eqb "d" "b") with false. change (Ascii.eqb "d" "d") with true. cbv iota.
  rewrite Hp. cbn [Str.parse_digits]. rewrite Z.mul_0_l, Z.add_0_l. by rewrite Z.mod_small by lia.
Qed.

(** The crossbar of an hmap maps its channels to consecutive ranges: the
    base of each channel is the sum of the sizes before it and its range is as
    large as the channel, so an address within the memory lies in exactly one. *)
Theorem channel_ranges_partition w count size g : geometry_new w (Some count) (Some size) = Ok g ->
  0 <= w <= U32_MAX -> 0 <= count -> 0 <= size <= U32_MAX -> count * channel_bytes size w <= 2 ^ 64 ->
  exists aw, channel_addr_width g = Some aw /\ 2 ^ aw = channel_bytes size w /\
    (forall idx, 0 <= idx < count -> lit_value (channel_base aw idx) = Some (64, idx * 2 ^ aw)) /\
    forall a, 0 <= a < count * 2 ^ aw -> exists idx, 0 <= idx < count /\ idx * 2 ^ aw <= a < (idx + 1) * 2 ^ aw /\
      forall j, j * 2 ^ aw <= a < (j + 1) * 2 ^ aw -> j = idx.
Proof.
  intros Hg Hw Hc0 Hs Hfit. unfold geometry_new in Hg. apply rbind_ok in Hg as (chans & Hc & Hg).
  assert (Some (count, size) = chans /\ count <> 0) as [<- Hnz] by (destruct count; simplify_eq/=; done).
  destruct ((w =? 0) || negb (w mod 8 =? 0)); [done|].
  destruct (channel_bytes size w =? 0); [done|]. destruct (is_power_of_two (channel_bytes size w)) eqn:Hp; [|done]. injection Hg as <-.
  apply is_power_of_two_spec in Hp as [Hpos Hp]. exists (Z.log2 (channel_bytes size w)). simpl. split; [done|].
  set (aw := Z.log2 (channel_bytes size w)) in *. assert (0 <= aw) by apply Z.log2_nonneg. split; [done|]. rewrite Hp in Hfit.
  assert (aw < 64).
  { apply (Z.pow_lt_mono_r_iff 2); [lia|lia|]. assert (channel_bytes size w < 2 ^ 64) by (unfold channel_bytes, wrap64; change (2 ^ 64) with 18446744073709551616; apply Z.mod_pos_bound; lia). lia. }
  split.
  - intros idx Hidx. rewrite channel_base_value; [|lia|].
    + by destruct (Z.leb_spec AXI_ADDR_WIDTH aw); [unfold AXI_ADDR_WIDTH in *; lia|].
    + intros _. split; [done|]. nia.
  - intros a Ha. exists (a / 2 ^ aw). pose proof (Z.pow_pos_nonneg 2 aw). pose proof (Z.div_mod a (2 ^ aw) ltac:(lia)). pose proof (Z.mod_pos_bound a (2 ^ aw) ltac:(lia)).
    split; [split; [apply Z.div_pos; lia|apply Z.div_lt_upper_bound; lia]|]. split; [nia|]. intros j Hj. apply (Z.div_unique a (2 ^ aw) j (a - j * 2 ^ aw)); [left; nia|lia].
Qed.

Lemma crossbar_ids_distinct_witness :
  let c := mkConnection "gmem" [mkSlave "a" 0 "x" 1 1; mkSlave "b" 0 "y" 2 3; mkSlave "b" 1 "y" 2 3] (mkGeometry 512 None) in
  conn_id_width c = 5 /\ crossbar_slave_id_width c = 3 /\
  0 <= Z.of_nat 2 * 2 ^ crossbar_slave_id_width c + 5 < 2 ^ conn_id_width c.
Proof.
  set (c := mkConnection _ _ _). split; [reflexivity|]. split; [reflexivity|].
  destruct (crossbar_ids_distinct c) as [_ H]; [vm_compute; congruence..|].
  exact (proj1 (H 2%nat 1%nat 5 5 ltac:(simpl; lia) ltac:(simpl; lia) ltac:(vm_compute; by split) ltac:(vm_compute; by split))).
Defined.

Lemma channel_ranges_partition_witness :
  exists g aw, geometry_new 512 (Some 4) (Some 1024) = Ok g /\ channel_addr_width g = Some aw /\
    lit_value (channel_base aw 3) = Some (64, 3 * 2 ^ 16).
Proof.
  edestruct (channel_ranges_partition 512 4 1024) as (aw & H1 & H2 & H3 & _);
    [reflexivity|unfold U32_MAX; lia|lia|unfold U32_MAX; lia|vm_compute; congruence|].
  eexists _, aw. split; [reflexivity|]. split; [exact H1|]. injection H1 as <-. exact (H3 3 ltac:(lia)).
Defined.
