(* ===== verification/Fifos.v ===== *)
(** * FIFO storage and wires

    [tapa-codegen/src/passes/fifos.rs]: the storage of each internal FIFO of a
    task, the wires both sides meet on, the connection of external FIFOs to the
    ports of the task and the AXI4-Stream adapters at the boundary of the top. *)

From S2P Require Import Prelude RustStd BTreeMap Geometry Names Ir Flatten FloorGraph Plan Protocol Rtl Topology.

Local Open Scope Z_scope.

Definition fifo_addr_width (depth : Z) : Z := Z.max (routing_id_bits depth) 1.

(** The wire a module port of the storage meets, after the [if] prefix. *)
Definition fifo_port_args (name : string) (rst : Expr) : list PortArg :=
  [mkPortArg "clk" (Ident HANDSHAKE_CLK); mkPortArg "reset" rst] ++
  map (fun port_name =>
    let wire_suffix := default port_name (Str.strip_prefix "if" port_name) in
    mkPortArg port_name
      (if str_in port_name ["if_read_ce"; "if_write_ce"] then Lit "1'b1" else Ident (name +:+ wire_suffix)))
    (FIFO_READ_PORTS ++ FIFO_WRITE_PORTS).

Definition build_fifo_instance (name : string) (rst width : Expr) (depth : Z) : ModuleInstance :=
  let name := sanitize_array_name name in
  mkInst "fifo" (name +:+ "_fifo")
    [mkParamArg "DATA_WIDTH" width; mkParamArg "ADDR_WIDTH" (expr_int (fifo_addr_width depth)); mkParamArg "DEPTH" (expr_int depth)]
    (fifo_port_args name rst).

Definition build_registered_ready_fifo_instance (name : string) (rst width : Expr) (logical_depth : Z) : ModuleInstance :=
  let name := sanitize_array_name name in
  let storage_depth := floorplanned_fifo_storage_depth logical_depth in
  mkInst "fifo_almost_full" (name +:+ "_fifo")
    [mkParamArg "DATA_WIDTH" width; mkParamArg "ADDR_WIDTH" (expr_int (fifo_addr_width storage_depth));
     mkParamArg "DEPTH" (expr_int storage_depth); mkParamArg "GRACE_PERIOD" (expr_int 1)]
    (fifo_port_args name rst).

Definition build_hs_pipeline_instance (name : string) (rst width : Expr) (depth body_level : Z) : ModuleInstance :=
  let name := sanitize_array_name name in
  mkInst "tapa_hs_pipeline" (name +:+ "_fifo")
    [mkParamArg "DATA_WIDTH" width; mkParamArg "DEPTH" (expr_int depth); mkParamArg "BODY_LEVEL" (expr_int body_level)]
    (fifo_port_args name rst).

Definition build_internal_fifo_instance (name : string) (rst width : Expr) (depth : Z) (floorplanned : bool) (crossing_level : option Z) : ModuleInstance :=
  match crossing_level with
  | Some level => build_hs_pipeline_instance name rst width depth level
  | None =>
      if floorplanned && negb (floorplanned_fifo_storage_depth depth =? depth)
      then build_registered_ready_fifo_instance name rst width depth
      else build_fifo_instance name rst width depth
  end.

Definition build_axis_adapter (fifo_name : string) (data_width : Z) (is_input : bool) : ModuleInstance :=
  let fifo_name := sanitize_array_name fifo_name in
  let net s := Ident (fifo_name +:+ s) in
  mkInst (if is_input then "axis_to_stream_adapter" else "stream_to_axis_adapter") ("tapa_axis_" +:+ fifo_name)
    [mkParamArg "DATA_WIDTH" (expr_int data_width)]
    ([mkPortArg "clk" (Ident HANDSHAKE_CLK); mkPortArg "reset" (Ident HANDSHAKE_RST)] ++
     (if is_input then
        [mkPortArg "s_axis_tdata" (net "_TDATA"); mkPortArg "s_axis_tvalid" (net "_TVALID"); mkPortArg "s_axis_tready" (net "_TREADY");
         mkPortArg "s_axis_tlast" (net "_TLAST"); mkPortArg "m_stream_dout" (net "_dout"); mkPortArg "m_stream_empty_n" (net "_empty_n");
         mkPortArg "m_stream_read" (net "_read")]
      else
        [mkPortArg "s_stream_din" (net "_din"); mkPortArg "s_stream_full_n" (net "_full_n"); mkPortArg "s_stream_write" (net "_write");
         mkPortArg "m_axis_tdata" (net "_TDATA"); mkPortArg "m_axis_tvalid" (net "_TVALID"); mkPortArg "m_axis_tready" (net "_TREADY");
         mkPortArg "m_axis_tlast" (net "_TLAST")])).

(** [width - 1] on 32 bits. *)
Definition msb_of (width : Z) : string := Str.show (wrap32 (width - 1)).

Definition add_plio_axis_ports (m : MutableModule) (fifo_name : string) (width : Z) (is_input : bool) : MutableModule :=
  let base := sanitize_array_name fifo_name in
  let '(data, ready) := if is_input then (Input, Output) else (Output, Input) in
  fold_left try_add_port
    [wide_port (base +:+ "_TDATA") data (msb_of width) "0"; simple_port (base +:+ "_TVALID") data;
     simple_port (base +:+ "_TREADY") ready; simple_port (base +:+ "_TLAST") data] m.

Section passes.
Context `{UnicodeTables} (design : TaskGraph) (fp : option FloorplanResult).

(** The first width found among the candidates. *)
Definition first_width (l : list RtlPort) : option Z := find_map bit_width l.

Definition rtl_fifo_width (m : VerilogModule) (producer : FifoEndpoint) : option Z :=
  match fe_binding producer with
  | Some b => find_map (fun suffix => get_port_of m (bound_port_name b) suffix ≫= bit_width) ["_din"; "_dout"]
  | None => first_width (List.filter (fun p => existsb (fun suffix => str_ends_with suffix (rp_name p)) STREAM_DATA_SUFFIXES) (mod_ports m))
  end.

Definition topology_fifo_width (producer : FifoEndpoint) : option Z :=
  let? task := fe_task producer in
  let output p := is_output_stream (port_cat p) in
  let bound := fe_binding producer ≫= fun b => bound_port b ≫= fun p => if output p then Some p else None in
  option_map (fun p => stream_data_wire_width (port_width p)) (or_else bound (find_first output (ports task))).

Definition resolve_fifo_width (modules : bmap string MutableModule) (producer : FifoEndpoint) (fifo_name : string) : res CodegenError Z :=
  ok_or (or_else (BMap.get (ep_task (fe_reference producer)) modules ≫= fun m => rtl_fifo_width (inner m) producer) (topology_fifo_width producer))
    (FifoWidthUnresolved fifo_name).

Definition instantiate_fifo (task_name : string) (task : Task) (modules : bmap string MutableModule) (e : string * InterconnectDefinition) :
    res CodegenError (bmap string MutableModule) :=
  let '(fifo_name, fifo) := e in
  match fifo_depth fifo with
  | None => Ok modules
  | Some depth =>
      let! producer := ok_or (fifo_endpoint design task fifo_name (produced_by fifo)) (FifoWidthUnresolved fifo_name) in
      let! width := resolve_fifo_width modules producer fifo_name in
      let crossing_level := stream_crossing_body_level fp fifo_name in
      let inst := build_internal_fifo_instance fifo_name (Ident HANDSHAKE_RST) (expr_int width) depth
                    (match fp with Some _ => true | None => false end) crossing_level in
      Ok (with_module task_name (fun m => add_instance m inst) modules)
  end.

Definition instantiate_fifos (modules : bmap string MutableModule) (task_name : string) : res CodegenError (bmap string MutableModule) :=
  let! task := index (graph_tasks design) task_name in
  try_fold (instantiate_fifo task_name task) modules (fifos task).

(** The wires of an internal FIFO. *)
Definition declare_fifo_wires (base : string) (width : Z) (m : MutableModule) : MutableModule :=
  fold_left (fun m suffix =>
    try_add_signal m (if str_in suffix STREAM_DATA_SUFFIXES then wide_wire (base +:+ suffix) (msb_of width) "0" else wire (base +:+ suffix)))
    (ISTREAM_SUFFIXES ++ OSTREAM_SUFFIXES) m.

(** One wire of an external FIFO, joined to the port of the task it names. *)
Definition connect_external_wire (fifo_name : string) (stream_width : Z) (m : MutableModule) (suffix : string) : MutableModule :=
  let canonical := sanitize_array_name fifo_name +:+ suffix in
  let w := if str_in suffix STREAM_DATA_SUFFIXES then Some (wide_width (Str.show stream_width) "0") else None in
  let m := try_add_signal m (mkSignal canonical Wire w None) in
  match get_port_of (inner m) fifo_name suffix with
  | None => m
  | Some parent_port =>
      if bool_decide (rp_name parent_port = canonical) then m
      else
        match stream_port_direction suffix with
        | Some DirInput => add_assign m (mkAssign (Ident canonical) (Ident (rp_name parent_port)))
        | _ => add_assign m (mkAssign (Ident (rp_name parent_port)) (Ident canonical))
        end
  end.

Fixpoint repeat_str (s : string) (n : nat) : string := match n with O => "" | S n => s +:+ repeat_str s n end.

Definition redirect_tlast (unused : string) (i : ModuleInstance) : ModuleInstance :=
  mkInst (mi_module i) (mi_instance i) (mi_params i)
    (map (fun p => if bool_decide (pa_name p = "m_axis_tlast") then mkPortArg (pa_name p) (Ident unused) else p) (mi_ports i)).

(** The adapter of a stream at the boundary of the top. *)
Definition connect_axis (fifo_name : string) (stream_width : Z) (is_input to_aie : bool) (m : MutableModule) : MutableModule :=
  let base := sanitize_array_name fifo_name in
  let adapter := build_axis_adapter fifo_name stream_width is_input in
  let unused := base +:+ "_eot_unused" in
  let '(m, adapter) :=
    if to_aie && negb is_input
    then (add_assign (try_add_signal m (wire unused)) (mkAssign (Ident (base +:+ "_TLAST")) (Lit "1'b1")), redirect_tlast unused adapter)
    else (m, adapter) in
  let m := add_instance m adapter in
  if negb is_input && has_port (inner m) (base +:+ "_TKEEP") then
    let keep_width := Z.max (axis_data_width stream_width / 8) 1 in
    add_assign m (mkAssign (Ident (base +:+ "_TKEEP")) (Lit (Str.show keep_width +:+ "'b" +:+ repeat_str "1" (Z.to_nat keep_width))))
  else m.

Definition connect_fifo (task_name : string) (task : Task) (modules : bmap string MutableModule) (e : string * InterconnectDefinition) :
    res CodegenError (bmap string MutableModule) :=
  let '(fifo_name, fifo) := e in
  let has_consumer := match consumed_by fifo with Some _ => true | None => false end in
  match fifo_depth fifo with
  | Some _ =>
      match produced_by fifo with
      | Some _ =>
          if has_consumer then
            let! producer := ok_or (fifo_endpoint design task fifo_name (produced_by fifo)) (FifoWidthUnresolved fifo_name) in
            let! width := resolve_fifo_width modules producer fifo_name in
            Ok (with_module task_name (declare_fifo_wires (sanitize_array_name fifo_name) width) modules)
          else Ok modules
      | None => Ok modules
      end
  | None =>
      let! port := ok_or (task_port task fifo_name) (FifoWidthUnresolved fifo_name) in
      let stream_width := port_width port in
      let is_vitis_top_axis := bool_decide (task_name = top design) && top_stream_needs_axis_adapter (target design) in
      let to_aie := match port_aie_plio port with Some _ => true | None => false end in
      Ok (with_module task_name (fun m =>
        let m := fold_left (connect_external_wire fifo_name stream_width) (if has_consumer then ISTREAM_SUFFIXES else OSTREAM_SUFFIXES) m in
        let m := if is_vitis_top_axis && to_aie then add_plio_axis_ports m fifo_name stream_width has_consumer else m in
        if is_vitis_top_axis then connect_axis fifo_name stream_width has_consumer to_aie m else m) modules)
  end.

Definition connect_fifos (modules : bmap string MutableModule) (task_name : string) : res CodegenError (bmap string MutableModule) :=
  let! task := index (graph_tasks design) task_name in
  try_fold (connect_fifo task_name task) modules (fifos task).
End passes.
