(* ===== verification/AxiPipeline.v ===== *)
(** * Pipelines of direct M-AXI channels

    [tapa-codegen/src/passes/axi_pipeline.rs]: the check that the routes of a
    floorplan fit the direct memory interfaces of the top, and the pipelines that
    take the place of the plain connection of a routed interface. *)

From S2P Require Import Prelude RustStd BTreeMap Geometry Names Ir Connectivity FloorGraph Pipeline Plan Protocol Rtl Topology AsyncMmap Mmap.

Local Open Scope Z_scope.

Definition channel_index (c : AxiChannel) : Z :=
  match c with ReadAddress => 0 | ReadData => 1 | WriteAddress => 2 | WriteData => 3 | WriteResponse => 4 end.

(** Derived [Ord]: declaration order. *)
#[export] Instance ordkey_axi_channel : OrdKey AxiChannel.
Proof. refine (ordkey_proj channel_index _). abstract (intros [] []; simpl; congruence). Defined.

Definition invalid_floorplan {A} (detail : string) : res CodegenError A := Err (InvalidFloorplan detail).

Record PlannedAxiRoute := mkAxiRoute { ar_bank : MemoryBank; ar_route : list string; ar_reg_regions : list string }.

Record RoutedEndpoint := mkRouted { re_interface : DirectMmapInterface; body_levels : bmap AxiChannel Z }.

Record DirectAxiPipelinePlan := mkAxiPlan { routed : bmap AxiEndpoint RoutedEndpoint }.

Definition channel_rtl_name (c : AxiChannel) : string :=
  match c with ReadAddress => "AR" | ReadData => "R" | WriteAddress => "AW" | WriteData => "W" | WriteResponse => "B" end.

Definition display_endpoint (e : AxiEndpoint) : string :=
  "`" +:+ ep_instance e +:+ "." +:+ ep_port e +:+ "` (top port `" +:+ ep_top_port e +:+ "`)".

Definition display_slot (s : Z * Z) : string := "SLOT_X" +:+ Str.show s.1 +:+ "Y" +:+ Str.show s.2.

Definition direct_endpoint (e : AxiEndpoint) : string := "direct M-AXI endpoint " +:+ display_endpoint e.

Definition invalid_route_direction {A} (e : AxiEndpoint) (c : AxiChannel) (endpoint_name : string) (actual expected : Z * Z) : res CodegenError A :=
  invalid_floorplan (direct_endpoint e +:+ " " +:+ axi_debug c +:+ " route must " +:+ endpoint_name +:+ " at child slot "
    +:+ display_slot expected +:+ ", got " +:+ display_slot actual).

(** ** One route *)

(** Requests leave the child; responses arrive at it. *)
Definition leaves_child (c : AxiChannel) : bool :=
  match c with ReadAddress | WriteAddress | WriteData => true | ReadData | WriteResponse => false end.

Definition route_slot (e : AxiEndpoint) (c : AxiChannel) (region : string) : res CodegenError (Z * Z) :=
  match Coor.from_slot_name region with
  | Some coor => Ok (dl_x coor, dl_y coor)
  | None => invalid_floorplan (direct_endpoint e +:+ " " +:+ axi_debug c +:+ " route has invalid slot `" +:+ region +:+ "`")
  end.

(** The slot at the bank's end of a route. *)
Definition route_bank_slot (e : AxiEndpoint) (c : AxiChannel) (slots : list (Z * Z)) (child_slot : Z * Z) : res CodegenError (Z * Z) :=
  let! source := expect (head slots) in
  let! destination := expect (last slots) in
  if leaves_child c then
    if bool_decide (source = child_slot) then Ok destination else invalid_route_direction e c "start" source child_slot
  else if bool_decide (destination = child_slot) then Ok source else invalid_route_direction e c "end" destination child_slot.

(** The bank and the bank's slot that the channels seen so far agree on. *)
Definition CommonBank : Type := option MemoryBank * option (Z * Z).

Definition validate_channel_route (e : AxiEndpoint) (c : AxiChannel) (r : PlannedAxiRoute) (child_slot : Z * Z) (common : CommonBank) :
    res CodegenError CommonBank :=
  if Nat.ltb (length (ar_route r)) 2 then
    invalid_floorplan (direct_endpoint e +:+ " " +:+ axi_debug c +:+ " route must cross at least two slots")
  else
    let! slots := try_map (route_slot e c) (ar_route r) in
    let! bank_slot := route_bank_slot e c slots child_slot in
    if bool_decide (bank_slot = child_slot) then
      invalid_floorplan (direct_endpoint e +:+ " " +:+ axi_debug c +:+ " has a route even though both endpoints are in " +:+ display_slot child_slot)
    else
      let! bank :=
        match common.1 with
        | Some expected =>
            if bool_decide (expected = ar_bank r) then Ok expected
            else invalid_floorplan (direct_endpoint e +:+ " routes channels to both " +:+ bank_display expected +:+ " and " +:+ bank_display (ar_bank r))
        | None => Ok (ar_bank r)
        end in
      let! slot :=
        match common.2 with
        | Some expected =>
            if bool_decide (expected = bank_slot) then Ok expected
            else invalid_floorplan (direct_endpoint e +:+ " routes channels to different bank-side slots ("
                   +:+ display_slot expected +:+ ", " +:+ display_slot bank_slot +:+ ")")
        | None => Ok bank_slot
        end in
      Ok (Some bank, Some slot).

(** ** The plan *)

Definition expect_interface (expected : bmap AxiEndpoint DirectMmapInterface) (i : DirectMmapInterface) :
    res CodegenError (bmap AxiEndpoint DirectMmapInterface) :=
  if BMap.contains_key (di_endpoint i) expected then invalid_floorplan (direct_endpoint (di_endpoint i) +:+ " is cataloged more than once")
  else Ok (BMap.insert (di_endpoint i) i expected).

Definition AxiRoutes : Type := bmap AxiEndpoint (bmap AxiChannel PlannedAxiRoute).

Definition plan_axi_route (expected : bmap AxiEndpoint DirectMmapInterface) (planned : AxiRoutes) (r : PipelineRoute) : res CodegenError AxiRoutes :=
  match Plan.channel r with
  | RAxi e bank c =>
      match BMap.get e expected with
      | None => invalid_floorplan ("AXI route names unknown direct M-AXI endpoint " +:+ display_endpoint e)
      | Some i =>
          if physical_width (di_channel_widths i) c =? 0 then
            invalid_floorplan (direct_endpoint e +:+ " has a route for disabled " +:+ axi_debug c +:+ " channel")
          else
            let routes := default BMap.empty (BMap.get e planned) in
            if BMap.contains_key c routes then invalid_floorplan (direct_endpoint e +:+ " has more than one " +:+ axi_debug c +:+ " route")
            else Ok (BMap.insert e (BMap.insert c (mkAxiRoute bank (Plan.route r) (route_reg_regions r)) routes) planned)
      end
  | _ => Ok planned
  end.

Definition route_channel (e : AxiEndpoint) (child_slot : Z * Z) (channel_routes : bmap AxiChannel PlannedAxiRoute)
    (acc : CommonBank * bmap AxiChannel Z) (c : AxiChannel) : res CodegenError (CommonBank * bmap AxiChannel Z) :=
  let! r := expect (BMap.get c channel_routes) in
  let! common := validate_channel_route e c r child_slot acc.1 in
  let body_level := Z.of_nat (length (ar_reg_regions r)) in
  if U32_MAX <? body_level then invalid_floorplan (direct_endpoint e +:+ " " +:+ axi_debug c +:+ " Body level exceeds u32")
  else
    let! _ := try_each (fun region =>
      match Coor.from_slot_name region with
      | Some _ => Ok tt
      | None => invalid_floorplan (direct_endpoint e +:+ " " +:+ axi_debug c +:+ " has invalid Body region `" +:+ region +:+ "`")
      end) (ar_reg_regions r) in
    Ok (common, BMap.insert c body_level acc.2).

Definition missing_channels (enabled : list AxiChannel) (channel_routes : bmap AxiChannel PlannedAxiRoute) : string :=
  join ", " (map axi_debug (List.filter (fun c => negb (BMap.contains_key c channel_routes)) enabled)).

Definition route_endpoint (fp : FloorplanResult) (planned : AxiRoutes) (acc : bmap AxiEndpoint RoutedEndpoint) (x : AxiEndpoint * DirectMmapInterface) :
    res CodegenError (bmap AxiEndpoint RoutedEndpoint) :=
  let '(e, i) := x in
  match BMap.get (ep_instance e) (fr_regions fp) with
  | None => invalid_floorplan (direct_endpoint e +:+ " has no instance placement")
  | Some child_region =>
      match parse_atomic_region child_region with
      | None => invalid_floorplan (direct_endpoint e +:+ " has non-atomic instance placement `" +:+ child_region +:+ "`")
      | Some child_slot =>
          match BMap.get e planned with
          | None => Ok acc
          | Some channel_routes =>
              let enabled := map fst (enabled_channels (di_channel_widths i)) in
              if negb (Nat.eqb (length channel_routes) (length enabled)) then
                invalid_floorplan (direct_endpoint e +:+ " has a partial AXI route set; missing " +:+ missing_channels enabled channel_routes)
              else
                let! (_, levels) := try_fold (route_channel e child_slot channel_routes) (None, None, BMap.empty) enabled in
                Ok (BMap.insert e (mkRouted i levels) acc)
          end
      end
  end.

Definition from_floorplan (interfaces : list DirectMmapInterface) (fp : FloorplanResult) : res CodegenError DirectAxiPipelinePlan :=
  let! expected := try_fold expect_interface BMap.empty interfaces in
  let! planned := try_fold (plan_axi_route expected) BMap.empty (fr_routes fp) in
  let! routed := try_fold (route_endpoint fp planned) BMap.empty expected in
  Ok (mkAxiPlan routed).

Definition child_prefix_of (top_port : string) : string := "__tapa_axi_" +:+ sanitize_identifier_name top_port +:+ "_child".

Definition child_wire_prefix (plan : DirectAxiPipelinePlan) (e : AxiEndpoint) : option string :=
  if BMap.contains_key e (routed plan) then Some (child_prefix_of (ep_top_port e)) else None.

(** ** The pipelines *)

Definition interface_port_width (i : DirectMmapInterface) (p : AxiPort) : Z := axi_port_width p (di_data_width i) (di_addr_width i) (di_id_width i).

Definition payload_ports (info : AxiChannelInfo) : list AxiPort :=
  List.filter (fun p => negb (bool_decide (axp_suffix p = axc_valid info)) && negb (bool_decide (axp_suffix p = axc_ready info))) (compact_ports info).

Definition sum_u32 (l : list Z) : Z := fold_left (fun a b => wrap32 (a + b)) l 0.

Definition concat_payload (ports : list AxiPort) (prefix : string) : Expr := Concat (map (fun p => Ident (prefix +:+ axp_suffix p)) ports).

Definition build_channel_instance (i : DirectMmapInterface) (c : AxiChannel) (body_level : Z) (child_prefix top_prefix : string) : res CodegenError ModuleInstance :=
  let! info := expect (m_axi_channel (channel_rtl_name c)) in
  let payload := payload_ports info in
  let payload_width := sum_u32 (map (interface_port_width i) payload) in
  let width := physical_width (di_channel_widths i) c in
  if width <? 2 then invalid_floorplan (direct_endpoint (di_endpoint i) +:+ " " +:+ axi_debug c +:+ " width does not include VALID and READY")
  else
    let expected_width := width - 2 in
    if negb (payload_width =? expected_width) || (payload_width =? 0) then
      invalid_floorplan (direct_endpoint (di_endpoint i) +:+ " " +:+ axi_debug c +:+ " payload width is "
        +:+ Str.show payload_width +:+ ", expected " +:+ Str.show expected_width)
    else
      let '(source_prefix, destination_prefix) := if leaves_child c then (child_prefix, top_prefix) else (top_prefix, child_prefix) in
      Ok (mkInst "tapa_hs_pipeline" (axi_pipeline_instance_name (di_endpoint i) c)
        [mkParamArg "DATA_WIDTH" (expr_int payload_width); mkParamArg "DEPTH" (expr_int 2); mkParamArg "BODY_LEVEL" (expr_int body_level)]
        [mkPortArg "clk" (Ident HANDSHAKE_CLK); mkPortArg "reset" (Ident HANDSHAKE_RST);
         mkPortArg "if_full_n" (Ident (source_prefix +:+ axc_ready info)); mkPortArg "if_write_ce" (Lit "1'b1");
         mkPortArg "if_write" (Ident (source_prefix +:+ axc_valid info)); mkPortArg "if_din" (concat_payload payload source_prefix);
         mkPortArg "if_empty_n" (Ident (destination_prefix +:+ axc_valid info)); mkPortArg "if_read_ce" (Lit "1'b1");
         mkPortArg "if_read" (Ident (destination_prefix +:+ axc_ready info)); mkPortArg "if_dout" (concat_payload payload destination_prefix)]).

(** [module.add_signal(..)?]. *)
Definition add_signal_c (m : MutableModule) (s : Signal) : res CodegenError MutableModule := map_err RtlBuilder (add_signal m s).

Definition instantiate_channel (r : RoutedEndpoint) (m : MutableModule) (x : AxiChannel * Z) : res CodegenError MutableModule :=
  let i := re_interface r in
  let c := x.1 in
  let child_prefix := child_prefix_of (ep_top_port (di_endpoint i)) in
  let top_prefix := M_AXI_PREFIX +:+ sanitize_array_name (ep_top_port (di_endpoint i)) in
  let! info := expect (m_axi_channel (channel_rtl_name c)) in
  let! m := try_fold (fun m p => add_signal_c m (width_wire (child_prefix +:+ axp_suffix p) (interface_port_width i p))) m (compact_ports info) in
  let! body_level := expect (BMap.get c (body_levels r)) in
  let! inst := build_channel_instance i c body_level child_prefix top_prefix in
  Ok (add_instance m inst).

(** The optional address signals of the enabled address channels. *)
Definition tie_offs (i : DirectMmapInterface) : list ContinuousAssign :=
  map (fun '(name, value) =>
      mkAssign (Ident (M_AXI_PREFIX +:+ sanitize_array_name (ep_top_port (di_endpoint i)) +:+ "_" +:+ Str.to_ascii_uppercase name)) (Lit value))
    (List.filter (fun '(name, _) =>
        Str.starts_with "ar" name && negb (read_address (di_channel_widths i) =? 0)
        || Str.starts_with "aw" name && negb (write_address (di_channel_widths i) =? 0)) OPTIONAL_AXI_ADDRESS_PORTS).

Definition instantiate_endpoint (m : MutableModule) (r : RoutedEndpoint) : res CodegenError MutableModule :=
  let! m := try_fold (instantiate_channel r) m (enabled_channels (di_channel_widths (re_interface r))) in
  Ok (fold_left add_assign (tie_offs (re_interface r)) m).

(** [if let Some(m) = modules.get_mut(name) { .. }] with a body that can fail. *)
Definition try_with_module (name : string) (f : MutableModule -> res CodegenError MutableModule) (t : bmap string MutableModule) :
    res CodegenError (bmap string MutableModule) :=
  match BMap.get name t with Some m => let! m := f m in Ok (BMap.insert name m t) | None => Ok t end.

Definition axi_plan_instantiate (plan : DirectAxiPipelinePlan) (modules : bmap string MutableModule) (task_name : string) :
    res CodegenError (bmap string MutableModule) :=
  try_with_module task_name (fun m => try_fold instantiate_endpoint m (BMap.values (routed plan))) modules.

(** * The memory-channel pipelines follow the floorplan

    A plan that is accepted has, for every routed interface, one route per enabled
    channel, all between the slot of the child and one slot of one bank, in the
    direction the channel flows; no route of the floorplan is left out. *)

(** ** The routes the floorplan has for a channel *)

Definition is_axi_route (e : AxiEndpoint) (c : AxiChannel) (r : PipelineRoute) : bool :=
  match Plan.channel r with RAxi e' _ c' => bool_decide (e' = e) && bool_decide (c' = c) | _ => false end.

Definition axi_routes_of (rs : list PipelineRoute) (e : AxiEndpoint) (c : AxiChannel) : list PipelineRoute := List.filter (is_axi_route e c) rs.

Definition lookup_route (planned : AxiRoutes) (e : AxiEndpoint) (c : AxiChannel) : option PlannedAxiRoute :=
  let? routes := BMap.get e planned in BMap.get c routes.

(** The planned route of a channel is what the floorplan has for it. *)
Definition route_matches (rs : list PipelineRoute) (e : AxiEndpoint) (c : AxiChannel) (o : option PlannedAxiRoute) : Prop :=
  match o with
  | Some a => exists r, axi_routes_of rs e c = [r] /\ Plan.channel r = RAxi e (ar_bank a) c /\ Plan.route r = ar_route a /\ route_reg_regions r = ar_reg_regions a
  | None => axi_routes_of rs e c = []
  end.

Definition channel_enabled (expected : bmap AxiEndpoint DirectMmapInterface) (e : AxiEndpoint) (c : AxiChannel) : Prop :=
  exists i, BMap.get e expected = Some i /\ physical_width (di_channel_widths i) c <> 0.

Lemma axi_routes_snoc rs r e c : axi_routes_of (rs ++ [r]) e c = axi_routes_of rs e c ++ (if is_axi_route e c r then [r] else []).
Proof. unfold axi_routes_of. rewrite List.filter_app. simpl. by destruct (is_axi_route e c r). Qed.

Lemma lookup_route_insert planned e bc e' c' :
  lookup_route (BMap.insert e bc planned) e' c' = if decide (e' = e) then BMap.get c' bc else lookup_route planned e' c'.
Proof. unfold lookup_route. rewrite BMap.get_insert. by do 2 destruct (decide _). Qed.

Definition plan_inv (expected : bmap AxiEndpoint DirectMmapInterface) (rs : list PipelineRoute) (planned : AxiRoutes) : Prop :=
  forall e c, route_matches rs e c (lookup_route planned e c) /\ (lookup_route planned e c <> None -> channel_enabled expected e c).

Lemma plan_axi_route_inv expected rs planned r planned' :
  plan_inv expected rs planned -> plan_axi_route expected planned r = Ok planned' -> plan_inv expected (rs ++ [r]) planned'.
Proof.
  intros Hinv H e c. destruct (Hinv e c) as [Hm He]. unfold route_matches. rewrite axi_routes_snoc. unfold is_axi_route.
  unfold plan_axi_route in H. destruct (Plan.channel r) as [fifo|e0 bank c0|inst ch] eqn:Hch; [| |].
  1,3: injection H as <-; split; [|done]; simpl; rewrite List.app_nil_r; exact Hm.
  destruct (BMap.get e0 expected) as [i|] eqn:Hi; [|done]. destruct (Z.eqb_spec (physical_width (di_channel_widths i) c0) 0) as [|Hw]; [done|].
  destruct (BMap.contains_key c0 _) eqn:Hk; [done|]. injection H as <-. unfold BMap.contains_key in Hk.
  rewrite lookup_route_insert. unfold lookup_route in *.
  destruct (decide (e = e0)) as [->|Hne].
  - rewrite BMap.get_insert, (bool_decide_eq_true_2 (e0 = e0)) by done. simpl.
    assert (Hd : BMap.get c (default BMap.empty (BMap.get e0 planned)) = (let? routes := BMap.get e0 planned in BMap.get c routes)) by by destruct (BMap.get e0 planned).
    destruct (decide (c = c0)) as [->|Hnc].
    + rewrite bool_decide_eq_true_2 by done. rewrite Hd in Hk. simpl in *. destruct (BMap.get e0 planned) as [bc|]; simpl in *.
      * destruct (BMap.get c0 bc); [done|]. simpl in Hm. rewrite Hm. split; [by exists r|]. intros _. by exists i.
      * rewrite Hm. split; [by exists r|]. intros _. by exists i.
    + rewrite bool_decide_eq_false_2 by congruence. rewrite Hd, List.app_nil_r. by split.
  - rewrite bool_decide_eq_false_2 by congruence. simpl. rewrite List.app_nil_r. by split.
Qed.

(** ** The channels of one endpoint *)

Definition slot_of (tag : string) (s : Z * Z) : Prop := exists c, Coor.from_slot_name tag = Some c /\ s = (dl_x c, dl_y c).

(** A channel leaves, or reaches, the child at [child_slot] and the bank at [bank_slot]. *)
Definition channel_spans (c : AxiChannel) (route : list string) (child_slot bank_slot : Z * Z) : Prop :=
  exists slots, Forall2 slot_of route slots /\
    if leaves_child c then head slots = Some child_slot /\ last slots = Some bank_slot
    else head slots = Some bank_slot /\ last slots = Some child_slot.

Lemma route_slot_of e c tag s : route_slot e c tag = Ok s -> slot_of tag s.
Proof. unfold route_slot, slot_of. destruct (Coor.from_slot_name tag) as [coor|]; [|done]. intros [= <-]. by exists coor. Qed.

Lemma validate_channel_route_sound e c r child_slot common common' : validate_channel_route e c r child_slot common = Ok common' ->
  exists bank_slot, common' = (Some (ar_bank r), Some bank_slot) /\ bank_slot <> child_slot /\ channel_spans c (ar_route r) child_slot bank_slot /\
    (forall b, common.1 = Some b -> b = ar_bank r) /\ (forall s, common.2 = Some s -> s = bank_slot).
Proof.
  unfold validate_channel_route. destruct (Nat.ltb _ 2); [done|]. intros H.
  apply rbind_ok in H as (slots & Hs & H). apply rbind_ok in H as (bank_slot & Hb & H).
  destruct (bool_decide_reflect (bank_slot = child_slot)); [done|].
  apply rbind_ok in H as (bank & Hbank & H). apply rbind_ok in H as (slot & Hslot & [= <-]).
  assert (bank = ar_bank r /\ forall b, common.1 = Some b -> b = ar_bank r) as [-> Hc1].
  { destruct (common.1) as [b0|]; [|by simplify_eq]. destruct (bool_decide_reflect (b0 = ar_bank r)); naive_solver. }
  assert (slot = bank_slot /\ forall s, common.2 = Some s -> s = bank_slot) as [-> Hc2].
  { destruct (common.2) as [s0|]; [|by simplify_eq]. destruct (bool_decide_reflect (s0 = bank_slot)); naive_solver. }
  exists bank_slot. repeat split; [done| |done..]. exists slots. split.
  - apply try_map_Forall2 in Hs. eapply Forall2_impl; [exact Hs|]. intros tag s. apply route_slot_of.
  - unfold route_bank_slot in Hb. apply rbind_ok in Hb as (src & Hsrc%expect_ok & Hb). apply rbind_ok in Hb as (dst & Hdst%expect_ok & Hb).
    destruct (leaves_child c); case_bool_decide; simplify_eq; by split.
Qed.

(** What the channels processed so far have in common. *)
Definition channels_inv (child_slot : Z * Z) (routes : bmap AxiChannel PlannedAxiRoute) (l : list AxiChannel) (acc : CommonBank * bmap AxiChannel Z) : Prop :=
  (forall s, acc.1.2 = Some s -> s <> child_slot) /\
  forall c, c ∈ l -> exists r bank_slot, BMap.get c routes = Some r /\ acc.1 = (Some (ar_bank r), Some bank_slot) /\
    channel_spans c (ar_route r) child_slot bank_slot /\ BMap.get c acc.2 = Some (Z.of_nat (length (ar_reg_regions r))).

Lemma route_channel_inv e child_slot routes l c acc acc' :
  channels_inv child_slot routes l acc -> route_channel e child_slot routes acc c = Ok acc' -> channels_inv child_slot routes (l ++ [c]) acc'.
Proof.
  intros [_ Hinv] H. unfold route_channel in H. apply rbind_ok in H as (r & Hr%expect_ok & H). apply rbind_ok in H as (common & Hc & H).
  destruct (U32_MAX <? _); [done|]. apply rbind_ok in H as (_ & _ & [= <-]).
  destruct (validate_channel_route_sound _ _ _ _ _ _ Hc) as (bank_slot & -> & Hne & Hspan & H1 & H2). split; [naive_solver|].
  intros c' [Hin|Hin%list_elem_of_singleton]%elem_of_app.
  - destruct (Hinv c' Hin) as (r' & bs & Hr' & Hacc & Hsp & Hlev). rewrite Hacc in H1, H2.
    exists r', bs. split; [done|]. split; [simpl; f_equal; f_equal; [symmetry; by apply H1|symmetry; by apply H2]|]. split; [done|].
    simpl. rewrite BMap.get_insert. destruct (decide (c' = c)) as [->|]; [|done]. by simplify_eq.
  - subst c'. exists r, bank_slot. simpl. by rewrite BMap.get_insert_eq.
Qed.

Definition pipelined (fp : FloorplanResult) (e : AxiEndpoint) (r : RoutedEndpoint) : Prop :=
  exists region child_slot bank bank_slot,
    BMap.get (ep_instance e) (fr_regions fp) = Some region /\ parse_atomic_region region = Some child_slot /\ bank_slot <> child_slot /\
    forall c, physical_width (di_channel_widths (re_interface r)) c <> 0 ->
      exists rt, axi_routes_of (fr_routes fp) e c = [rt] /\ Plan.channel rt = RAxi e bank c /\ channel_spans c (Plan.route rt) child_slot bank_slot /\
        BMap.get c (body_levels r) = Some (Z.of_nat (length (route_reg_regions rt))).

Lemma elem_of_enabled w c : c ∈ map fst (enabled_channels w) <-> physical_width w c <> 0.
Proof.
  unfold enabled_channels. rewrite list_elem_of_In, in_map_iff. setoid_rewrite List.filter_In. unfold channels. split.
  - intros ([c' v] & <- & Hin & Hv). simpl in *. destruct (Z.eqb_spec v 0); [done|]. by repeat destruct Hin as [[= <- <-]|Hin].
  - intros Hw. exists (c, physical_width w c). split; [done|]. split; [destruct c; simpl; tauto|]. simpl. by destruct (Z.eqb_spec (physical_width w c) 0).
Qed.

Lemma route_channels_sound fp planned e i child_slot region routes acc :
  plan_inv acc (fr_routes fp) planned -> BMap.get e planned = Some routes -> BMap.get (ep_instance e) (fr_regions fp) = Some region ->
  parse_atomic_region region = Some child_slot -> forall common levels c0, physical_width (di_channel_widths i) c0 <> 0 ->
  try_fold (route_channel e child_slot routes) (None, None, BMap.empty) (map fst (enabled_channels (di_channel_widths i))) = Ok (common, levels) ->
  pipelined fp e (mkRouted i levels).
Proof.
  intros Hplan Hr Hreg Hslot common levels c0 Hc0 H.
  assert (H0 : channels_inv child_slot routes [] (None, None, BMap.empty)) by (split; [done|by intros c Hc%not_elem_of_nil]).
  pose proof (try_fold_ind (channels_inv child_slot routes) _ _ _ _ H0 (fun l1 x l2 a a' _ Ha Hx => route_channel_inv e child_slot routes l1 x a a' Ha Hx) H) as [Hne Hinv]. simpl in *.
  destruct (Hinv c0) as (r0 & bs & _ & Hacc & _); [by apply elem_of_enabled|]. simpl in Hacc. subst common.
  exists region, child_slot, (ar_bank r0), bs. split; [done|]. split; [done|]. split; [by apply Hne|]. intros c Hc.
  destruct (Hinv c) as (r & bs' & Hg & Hacc & Hspan & Hlev); [by apply elem_of_enabled|]. simpl in *. injection Hacc as Hb ->.
  destruct (Hplan e c) as [Hm _]. unfold lookup_route in Hm. rewrite Hr in Hm. simpl in Hm. rewrite Hg in Hm.
  destruct Hm as (rt & H1 & H2 & H3 & H4). exists rt. rewrite H3, H4, Hb. by repeat split.
Qed.

Lemma planned_nonempty expected rs planned : try_fold (plan_axi_route expected) BMap.empty rs = Ok planned ->
  forall e routes, BMap.get e planned = Some routes -> exists c a, BMap.get c routes = Some a.
Proof.
  intros H. refine (try_fold_inv (fun p : AxiRoutes => forall e routes, BMap.get e p = Some routes -> exists c a, BMap.get c routes = Some a) _ _ _ _ _ _ H); [|done].
  clear H. intros p r p' _ IH H e routes. unfold plan_axi_route in H. destruct (Plan.channel r) as [fifo|e0 bank c0|inst ch]; [injection H as <-; apply IH| |injection H as <-; apply IH].
  destruct (BMap.get e0 expected); [|done]. destruct (_ =? 0); [done|]. destruct (BMap.contains_key c0 _); [done|]. injection H as <-.
  rewrite BMap.get_insert. destruct (decide (e = e0)); [|apply IH]. intros [= <-]. exists c0. rewrite BMap.get_insert_eq. eauto.
Qed.

Definition endpoints_inv (fp : FloorplanResult) (planned : AxiRoutes) (l : list (AxiEndpoint * DirectMmapInterface)) (acc : bmap AxiEndpoint RoutedEndpoint) : Prop :=
  (forall e r, BMap.get e acc = Some r -> (e, re_interface r) ∈ l /\ pipelined fp e r) /\
  forall e i, (e, i) ∈ l -> BMap.get e planned <> None -> BMap.get e acc <> None.

Lemma route_endpoint_inv expected fp planned l acc x acc' :
  plan_inv expected (fr_routes fp) planned -> (forall e routes, BMap.get e planned = Some routes -> exists c a, BMap.get c routes = Some a) ->
  BMap.get x.1 expected = Some x.2 ->
  endpoints_inv fp planned l acc -> route_endpoint fp planned acc x = Ok acc' -> endpoints_inv fp planned (l ++ [x]) acc'.
Proof.
  destruct x as [e i]. intros Hplan Hne Hi [Hs Hc] H. simpl in *.
  destruct (BMap.get (ep_instance e) (fr_regions fp)) as [region|] eqn:Hreg; [|done]. destruct (parse_atomic_region region) as [slot|] eqn:Hslot; [|done].
  destruct (BMap.get e planned) as [routes|] eqn:Hr.
  - destruct (negb _); [done|]. apply rbind_ok in H as ([common levels] & Hf & [= <-]).
    destruct (Hne e routes Hr) as (c0 & a0 & Ha0).
    assert (physical_width (di_channel_widths i) c0 <> 0).
    { destruct (Hplan e c0) as [_ Hen]. unfold lookup_route in Hen. rewrite Hr in Hen. simpl in Hen. rewrite Ha0 in Hen.
      destruct (Hen ltac:(done)) as (i' & Hi' & Hw). by simplify_eq. }
    assert (Hok : pipelined fp e (mkRouted i levels)) by by eapply route_channels_sound.
    split.
    + intros e' r'. rewrite BMap.get_insert. destruct (decide (e' = e)) as [->|].
      * intros [= <-]. split; [|done]. apply elem_of_app. right. by apply list_elem_of_singleton.
      * intros [Hin Hp]%Hs. split; [|done]. apply elem_of_app. by left.
    + intros e' i' Hin Hp. rewrite BMap.get_insert. destruct (decide (e' = e)); [done|].
      apply elem_of_app in Hin as [Hin|Hin%list_elem_of_singleton]; [by eapply Hc|by simplify_eq].
  - injection H as <-. split.
    + intros e' r' [Hin Hp]%Hs. split; [|done]. apply elem_of_app. by left.
    + intros e' i' [Hin|Hin%list_elem_of_singleton]%elem_of_app; [by eapply Hc|by simplify_eq].
Qed.

Lemma expected_interfaces ifs expected : try_fold expect_interface BMap.empty ifs = Ok expected ->
  BMap.wf expected /\ forall e i, BMap.get e expected = Some i <-> i ∈ ifs /\ di_endpoint i = e.
Proof.
  intros H. refine (try_fold_ind (fun (l : list DirectMmapInterface) (m : bmap AxiEndpoint DirectMmapInterface) => BMap.wf m /\ forall e i, BMap.get e m = Some i <-> i ∈ l /\ di_endpoint i = e) _ _ _ _ _ _ H).
  - split; [apply BMap.wf_nil|]. intros e i. split; [done|]. by intros [?%not_elem_of_nil _].
  - clear H. intros l1 x l2 m m' _ [Hwf IH] H. unfold expect_interface in H. destruct (BMap.contains_key _ m) eqn:Hk; [done|]. injection H as <-.
    unfold BMap.contains_key in Hk. split; [by apply BMap.wf_insert|]. intros e i. rewrite BMap.get_insert, elem_of_app, list_elem_of_singleton.
    destruct (decide (e = di_endpoint x)) as [->|Hne].
    + split; [intros [= <-]; by split; [right|]|]. intros [[Hin| ->] He]; [|done]. pose proof (proj2 (IH (di_endpoint x) i) (conj Hin He)) as Hg. by rewrite Hg in Hk.
    + rewrite IH. split; [intros []; split; [by left|done]|]. intros [[Hin| ->] He]; [done|congruence].
Qed.

(** C24: a floorplan whose memory routes are accepted is followed exactly: every
    routed interface is cataloged, its child is placed in one slot, and each
    enabled channel has exactly one route, between that slot and one other slot of
    one bank, in the direction the channel flows, with a register per region the
    route names; and every memory route of the floorplan belongs to an enabled
    channel of a routed interface. *)
Theorem axi_plan_follows_floorplan ifs fp plan : from_floorplan ifs fp = Ok plan ->
  (forall e r, BMap.get e (routed plan) = Some r -> re_interface r ∈ ifs /\ di_endpoint (re_interface r) = e /\ pipelined fp e r) /\
  forall rt e bank c, rt ∈ fr_routes fp -> Plan.channel rt = RAxi e bank c ->
    exists r, BMap.get e (routed plan) = Some r /\ physical_width (di_channel_widths (re_interface r)) c <> 0.
Proof.
  intros H. unfold from_floorplan in H. apply rbind_ok in H as (expected & He & H). apply rbind_ok in H as (planned & Hp & H). apply rbind_ok in H as (routed & Hr & [= <-]).
  destruct (expected_interfaces _ _ He) as [Hwf Hexp].
  assert (Hinv : plan_inv expected (fr_routes fp) planned).
  { refine (try_fold_ind (plan_inv expected) _ _ _ _ _ _ Hp); [by intros e c|]. intros l1 x l2 a a' _. apply plan_axi_route_inv. }
  assert (Hend : endpoints_inv fp planned expected routed).
  { refine (try_fold_ind (endpoints_inv fp planned) _ _ _ _ _ _ Hr).
    - split; [done|]. by intros e i Hin%not_elem_of_nil.
    - intros l1 x l2 a a' Hl. apply (route_endpoint_inv expected); [done|by eapply planned_nonempty|].
      apply BMap.In_get; [done|]. rewrite Hl. apply list_elem_of_In, elem_of_app. right. destruct x. by left. }
  destruct Hend as [Hs Hc]. split.
  - intros e r Hg. destruct (Hs e r Hg) as [Hin Hpl]. 
    assert (Hi : BMap.get e expected = Some (re_interface r)) by by apply BMap.In_get, list_elem_of_In. apply Hexp in Hi as [??]. by split_and!.
  - intros rt e bank c Hin Hch. simpl. destruct (Hinv e c) as [Hm Hen].
    assert (Hl : lookup_route planned e c <> None).
    { intros Hn. rewrite Hn in Hm. simpl in Hm. assert (Hf : In rt (axi_routes_of (fr_routes fp) e c)); [|by rewrite Hm in Hf].
      apply List.filter_In. split; [by apply list_elem_of_In|]. unfold is_axi_route. rewrite Hch. by rewrite !bool_decide_eq_true_2. }
    destruct (Hen Hl) as (i & Hi & Hw). unfold lookup_route in Hl.
    destruct (BMap.get e routed) as [r|] eqn:Hg.
    + exists r. split; [done|]. destruct (Hs e r Hg) as [Hin' _]. assert (Hi' : BMap.get e expected = Some (re_interface r)) by by apply BMap.In_get, list_elem_of_In.
      by simplify_eq.
    + exfalso. apply (Hc e i); [by apply list_elem_of_In, BMap.get_In| |done]. intros Hn. by rewrite Hn in Hl.
Qed.

Lemma axi_plan_follows_floorplan_witness :
  let e := mkAxiEndpoint "load" "x" "mem" in
  let i := mkDirect e 512 64 1 (mkWidths 83 519 0 0 0) None in
  let bank := mkBank Hbm 0 in
  let fp := mkResult "u280" (1, 2) [("load", "SLOT_X0Y1")]
    [mkPipelineRoute (RAxi e bank ReadAddress) ["SLOT_X0Y1"; "SLOT_X0Y0"] Single ["SLOT_X0Y1"];
     mkPipelineRoute (RAxi e bank ReadData) ["SLOT_X0Y0"; "SLOT_X0Y1"] Single []] [] in
  exists plan r, from_floorplan [i] fp = Ok plan /\ BMap.get e (routed plan) = Some r /\ pipelined fp e r.
Proof.
  intros e i bank fp.
  assert (H : exists plan r, from_floorplan [i] fp = Ok plan /\ BMap.get e (routed plan) = Some r) by (eexists _, _; split; vm_compute; reflexivity).
  destruct H as (plan & r & H1 & H2). exists plan, r. split; [exact H1|]. split; [exact H2|].
  exact (proj2 (proj2 (proj1 (axi_plan_follows_floorplan [i] fp plan H1) e r H2))).
Defined.
