(* ===== verification/DistributedControl.v ===== *)
(** * Distributed control

    [tapa-codegen/src/passes/distributed_control.rs]: the plan of the controllers
    of a floorplanned or flattened top, checked against the floorplan, and the
    launch, reset and completion wiring of each child and each retained scope. *)

From S2P Require Import Prelude RustStd BTreeMap Geometry Names Ir Flatten FloorGraph Pipeline Plan Protocol Rtl Control Topology AsyncMmap Mmap AxiPipeline.

Local Open Scope Z_scope.

Definition GLOBAL_START : string := "__tapa_control_start".
Definition GLOBAL_RELEASE : string := "__tapa_control_release".
Definition CHILDREN_DONE : string := "__tapa_control_children_done".
Definition CHILDREN_CLEAR : string := "__tapa_control_children_clear".

#[export] Instance scheme_eq_dec : EqDecision PipelineScheme.
Proof. solve_decision. Defined.

Definition control_index (c : ControlChannel) : Z := match c with Launch => 0 | Reset => 1 | Completion => 2 end.
#[export] Instance ordkey_control_channel : OrdKey ControlChannel.
Proof. refine (ordkey_proj control_index _). abstract (intros [] []; simpl; congruence). Defined.
Definition control_debug (c : ControlChannel) : string := match c with Launch => "Launch" | Reset => "Reset" | Completion => "Completion" end.

(** ** Data *)

Record ChildEntry := mkEntry { ce_instance : string; ce_definition : string; ce_autorun : bool; ce_args : bmap string Arg }.

Record FeedForwardRoute := mkFeed { ff_path : list string; ff_scheme : PipelineScheme; ff_reg_regions : list string; ff_body_level : Z; ff_latency : Z }.
#[export] Instance feed_eq_dec : EqDecision FeedForwardRoute.
Proof. solve_decision. Defined.

Definition PlannedRoutes : Type := bmap (string * ControlChannel) FeedForwardRoute.

Record PayloadField := mkField { pf_output : string; pf_source : Expr; pf_width : Z; pf_lsb : Z }.

Record ChildControlPlan := mkChildPlan {
  cp_owner : option string;
  register_payload : bool;
  cp_autorun : bool;
  launch_width : Z;
  payload : list PayloadField;
  cp_launch : option FeedForwardRoute;
  cp_reset : option FeedForwardRoute;
  cp_completion : option FeedForwardRoute;
}.

Record ScopeControlPlan := mkScopePlan { sp_instance : string; completion_signals : list string }.

Record DistributedControlPlan := mkControlPlan {
  plan_children : bmap string ChildControlPlan;
  plan_scopes : list ScopeControlPlan;
  root_completion_signals : option (list string);
  flush_cycles : Z;
}.

Definition invalid_child {A} (instance rest : string) : res CodegenError A := invalid_floorplan ("child `" +:+ instance +:+ "` " +:+ rest).

(** ** Payload *)

(** [mmap_offset_source] of [passes/mod.rs]. *)
Definition mmap_offset_source (parent : string) (conns : bmap string MMapConnection) : Expr :=
  match BMap.get parent conns with
  | Some c => if is_hmap (mc_geometry c) then Lit "64'd0" else Ident (sanitize_array_name parent +:+ "_offset")
  | None => Ident (sanitize_array_name parent +:+ "_offset")
  end.

Definition resolve_scalar_width (st : TopologyWithRtl) (child_name port_name : string) : res CodegenError Z :=
  let rtl_width := let? m := BMap.get child_name (module_map st) in let? p := rtl_find_port (inner m) port_name in bit_width p in
  let topology_width := let? t := BMap.get child_name (graph_tasks (tp_design st)) in
    let? p := find_first (fun p => bool_decide (Ir.port_name p = port_name)) (ports t) in Some (port_width p) in
  let path := "`" +:+ child_name +:+ "." +:+ port_name +:+ "`" in
  match topology_width with
  | Some w =>
      if w <=? 0 then invalid_floorplan ("cannot resolve topology scalar width for " +:+ path)
      else match rtl_width with
        | Some r => if r =? w then Ok w
                    else invalid_floorplan ("scalar width mismatch for " +:+ path +:+ ": topology is " +:+ Str.show w +:+ " bits but RTL is " +:+ Str.show r +:+ " bits")
        | None => Ok w
        end
  | None => invalid_floorplan ("cannot resolve topology scalar width for " +:+ path)
  end.

Section payload.
Context (st : TopologyWithRtl) (child_name instance : string) (conns : bmap string MMapConnection).

Definition check_scalar_port (args : bmap string Arg) (p : Port) : res CodegenError unit :=
  if negb (is_scalar (port_cat p)) then Ok tt
  else match BMap.get (port_name p) args with
    | Some a => if is_scalar (cat a) then Ok tt
                else invalid_child instance ("scalar port `" +:+ child_name +:+ "." +:+ port_name p +:+ "` requires a scalar argument")
    | None => invalid_child instance ("scalar port `" +:+ child_name +:+ "." +:+ port_name p +:+ "` requires a scalar argument")
    end.

(** The wire, the driver and the width of one argument; [None] is [continue]. *)
Definition payload_source (x : string * Arg) : res CodegenError (option (string * Expr * Z)) :=
  let '(port_name, a) := x in
  let rtl_instance := sanitize_identifier_name instance in
  if is_scalar (cat a) then
    let! w := resolve_scalar_width st child_name port_name in
    Ok (Some (rtl_instance +:+ "__" +:+ port_name, scalar_driver (arg a), w))
  else if is_direct_mmap (cat a) then
    match arg_name a with
    | Some parent => Ok (Some (rtl_instance +:+ "__" +:+ port_name +:+ "_offset", mmap_offset_source parent conns, 64))
    | None => Ok None
    end
  else Ok None.

Definition add_payload_field (acc : list PayloadField * Z) (x : string * Arg) : res CodegenError (list PayloadField * Z) :=
  let! field := payload_source x in
  match field with
  | None => Ok acc
  | Some (output, source, width) =>
      if width =? 0 then invalid_child instance ("argument `" +:+ x.1 +:+ "` has zero width")
      else
        match checked_add32 acc.2 width with
        | Some next => Ok (acc.1 ++ [mkField output source width acc.2], next)
        | None => invalid_floorplan ("the Launch width of child `" +:+ instance +:+ "` exceeds u32::MAX")
        end
  end.

Definition control_width (is_autorun : bool) : Z := if is_autorun then 1 else 2.

Definition build_payload_fields (is_autorun : bool) (args : bmap string Arg) : res CodegenError (list PayloadField * Z) :=
  let! _ := match BMap.get child_name (graph_tasks (tp_design st)) with
    | Some child => try_each (check_scalar_port args) (ports child)
    | None => Ok tt
    end in
  try_fold add_payload_field ([], control_width is_autorun) args.
End payload.

(** ** Routes *)

Definition control_slot (instance : string) (c : ControlChannel) (region : string) : res CodegenError (Z * Z) :=
  match Coor.from_slot_name region with
  | Some coor => Ok (dl_x coor, dl_y coor)
  | None => invalid_child instance (control_debug c +:+ " route has invalid slot `" +:+ region +:+ "`")
  end.

Definition check_body_region (instance : string) (c : ControlChannel) (path : list string) (region : string) : res CodegenError unit :=
  match Coor.from_slot_name region with
  | None => invalid_child instance (control_debug c +:+ " has invalid Body region `" +:+ region +:+ "`")
  | Some _ => if str_in region path then Ok tt else invalid_child instance (control_debug c +:+ " Body region `" +:+ region +:+ "` is not on its route")
  end.

Definition validate_route (instance : string) (c : ControlChannel) (r : FeedForwardRoute) (source destination : Z * Z) : res CodegenError unit :=
  if Nat.ltb (length (ff_path r)) 2 then invalid_child instance (control_debug c +:+ " route must cross at least two slots")
  else
    let! slots := try_map (control_slot instance c) (ff_path r) in
    if bool_decide (head slots = Some source) && bool_decide (last slots = Some destination)
    then try_each (check_body_region instance c (ff_path r)) (ff_reg_regions r)
    else invalid_child instance (control_debug c +:+ " route has inconsistent direction").

Definition remove_route (key : string * ControlChannel) (routes : PlannedRoutes) : PlannedRoutes :=
  BMap.retain (fun k _ => negb (bool_decide (k = key))) routes.

Definition take_expected_route (routes : PlannedRoutes) (instance : string) (c : ControlChannel) (expected : bool) (source destination : Z * Z) :
    res CodegenError (option FeedForwardRoute * PlannedRoutes) :=
  let key := (instance, c) in
  match expected, BMap.get key routes with
  | false, None => Ok (None, routes)
  | false, Some _ => invalid_child instance ("has a " +:+ control_debug c +:+ " route despite co-located endpoints")
  | true, None => invalid_floorplan ("cross-slot child `" +:+ instance +:+ "` is missing its " +:+ control_debug c +:+ " route")
  | true, Some r => let! _ := validate_route instance c r source destination in Ok (Some r, remove_route key routes)
  end.

Definition collect_route (known : list string) (acc : PlannedRoutes * Z) (r : PipelineRoute) : res CodegenError (PlannedRoutes * Z) :=
  let body_level := Z.of_nat (length (route_reg_regions r)) in
  if U32_MAX <? body_level then invalid_floorplan "pipeline Body level exceeds u32"
  else
    match checked_add32 body_level 2 with
    | None => invalid_floorplan "pipeline latency exceeds u32"
    | Some latency =>
        match Plan.channel r with
        | RControl instance c =>
            if negb (str_in instance known) then invalid_floorplan ("control route names unknown child instance `" +:+ instance +:+ "`")
            else if BMap.contains_key (instance, c) acc.1 then invalid_child instance ("has more than one " +:+ control_debug c +:+ " route")
            else Ok (BMap.insert (instance, c) (mkFeed (Plan.route r) (Plan.scheme r) (route_reg_regions r) body_level latency) acc.1, acc.2)
        | _ => Ok (acc.1, Z.max acc.2 latency)
        end
    end.

Definition collect_control_routes (fp : FloorplanResult) (known : list string) : res CodegenError (PlannedRoutes * Z) :=
  try_fold (collect_route known) (BMap.empty, 0) (fr_routes fp).

Definition child_placement_slot (fp : FloorplanResult) (instance : string) : res CodegenError (Z * Z) :=
  match BMap.get instance (fr_regions fp) with
  | None => invalid_child instance "has no instance placement"
  | Some child_region =>
      match parse_atomic_region child_region with
      | None => invalid_child instance ("has non-atomic placement `" +:+ child_region +:+ "`")
      | Some child_slot =>
          let local_name := local_controller_instance_name instance in
          match BMap.get local_name (fr_regions fp) with
          | None => invalid_child instance ("has no local controller placement `" +:+ local_name +:+ "`")
          | Some local_region =>
              if bool_decide (local_region = child_region) then Ok child_slot
              else invalid_floorplan ("local controller `" +:+ local_name +:+ "` is placed in `" +:+ local_region +:+ "`, expected `" +:+ child_region +:+ "`")
          end
      end
  end.

Definition route_latency (r : option FeedForwardRoute) : Z := match r with Some r => ff_latency r | None => 0 end.

(** The state of [plan_children]: the plans, the flush bound, the largest reset
    latency, and the routes not yet taken. *)
Definition ChildrenAcc : Type := bmap string ChildControlPlan * Z * Z * PlannedRoutes.

Definition plan_child (st : TopologyWithRtl) (fp : FloorplanResult) (global_slot : Z * Z) (conns : bmap string MMapConnection)
    (acc : ChildrenAcc) (e : ChildEntry) : res CodegenError ChildrenAcc :=
  let '(children, flush, max_reset, routes) := acc in
  let instance := ce_instance e in
  let! child_slot := child_placement_slot fp instance in
  let crossing := negb (bool_decide (child_slot = global_slot)) in
  let! (launch, routes) := take_expected_route routes instance Launch crossing global_slot child_slot in
  let! (reset, routes) := take_expected_route routes instance Reset crossing global_slot child_slot in
  let! (completion, routes) :=
    if ce_autorun e then
      if BMap.contains_key (instance, Completion) routes
      then invalid_floorplan ("autorun child `" +:+ instance +:+ "` must not have a Completion route") else Ok (None, routes)
    else take_expected_route routes instance Completion crossing child_slot global_slot in
  let! _ :=
    match launch, reset with
    | Some l, Some r => if bool_decide (l = r) then Ok tt else invalid_child instance "Launch and Reset routes must be identical"
    | _, _ => Ok tt
    end in
  let! (fields, width) := build_payload_fields st (ce_definition e) instance conns (ce_autorun e) (ce_args e) in
  let! latency := ok_or (checked_add32 (route_latency reset) (route_latency completion))
    (InvalidFloorplan ("child `" +:+ instance +:+ "` reset flush latency exceeds u32")) in
  Ok (BMap.insert instance (mkChildPlan None false (ce_autorun e) width fields launch reset completion) children,
      Z.max flush latency, Z.max max_reset (route_latency reset), routes).

(** ** Scopes of a flattened design *)

Definition global_region_of (fp : FloorplanResult) : option string := BMap.get global_controller_instance_name (fr_regions fp).

(** The controllers generated for one occurrence. *)
Definition occurrence_controllers (st : TopologyWithRtl) (o : TaskOccurrence) : res CodegenError (list string) :=
  let local := local_controller_instance_name (global_name o) in
  match flat_endpoint o with
  | Some _ => Ok [local; sanitize_identifier_name (global_name o)]
  | None =>
      let generated := [local; scope_controller_instance_name (global_name o)] in
      let! _ := match Topology.floorplan st with
        | None => Ok tt
        | Some fp =>
            try_each (fun name =>
              if bool_decide (BMap.get name (fr_regions fp) = global_region_of fp) then Ok tt
              else invalid_floorplan ("upper scope controller `" +:+ name +:+ "` must be placed with the global controller")) generated
        end in
      Ok generated
  end.

Definition insert_control_name (names : list string) (name : string) : res CodegenError (list string) :=
  if str_in name names then invalid_floorplan ("generated control instance `" +:+ name +:+ "` is not unique") else Ok (names ++ [name]).

Definition validate_scope_inventory (st : TopologyWithRtl) (p : FlatProjection) : res CodegenError (list string) :=
  try_fold (fun names o =>
    let! generated := occurrence_controllers st o in
    try_fold insert_control_name names generated) [global_controller_instance_name] (tl (occurrences p)).

Definition unresolved {A} : res CodegenError A := invalid_floorplan "flat projection has an unresolved original invocation".

Definition original_invocation (st : TopologyWithRtl) (p : FlatProjection) (k : nat) : res CodegenError TaskInstance :=
  match source_invocation p (tp_design st) k with Some i => Ok i | None => unresolved end.

Definition Completions : Type := bmap nat (list string).

Definition collect_completion (st : TopologyWithRtl) (p : FlatProjection) (acc : Completions) (x : nat * TaskOccurrence) : res CodegenError Completions :=
  let '(k, o) := x in
  let! invocation := original_invocation st p k in
  if inst_step invocation <? 0 then Ok acc
  else
    let! parent := expect (occ_parent o) in
    let! sig := instance_signals_new (sanitize_identifier_name (global_name o)) false in
    Ok (BMap.insert parent (default [] (BMap.get parent acc) ++ [is_done_name sig]) acc).

(** The original arguments of an invocation, which name the forwarding registers
    of the scope it is in. *)
Definition scoped_arg (owner : option string) (a : Arg) : Arg :=
  match owner, arg a with
  | Some o, AName name => mkArg (AName (sanitize_identifier_name o +:+ "__" +:+ sanitize_array_name name)) (cat a)
  | _, _ => a
  end.

Definition scoped_args (owner : option string) (args : bmap string Arg) : bmap string Arg :=
  BMap.from_list (map (fun '(port, a) => (port, scoped_arg owner a)) args).

Definition scope_owner (p : FlatProjection) (o : TaskOccurrence) : res CodegenError (option string) :=
  let! parent := expect (occ_parent o) in
  if Nat.eqb parent 0 then Ok None else let! po := expect (occurrences p !! parent) in Ok (Some (global_name po)).

Definition set_owner (c : ChildControlPlan) (owner : option string) (fields : list PayloadField) (width : Z) : ChildControlPlan :=
  mkChildPlan owner (register_payload c) (cp_autorun c) width fields (cp_launch c) (cp_reset c) (cp_completion c).

Definition ScopeAcc : Type := bmap string ChildControlPlan * list ScopeControlPlan * Completions.

Definition retain_occurrence (st : TopologyWithRtl) (p : FlatProjection) (conns : bmap string MMapConnection) (acc : ScopeAcc) (x : nat * TaskOccurrence) :
    res CodegenError ScopeAcc :=
  let '(children, scopes, completions) := acc in
  let '(k, o) := x in
  let! invocation := original_invocation st p k in
  let! owner := scope_owner p o in
  let instance := global_name o in
  let is_autorun := inst_step invocation <? 0 in
  let args := scoped_args owner (inst_args invocation) in
  let! source := expect (occ_source o) in
  let! (fields, width) := build_payload_fields st (ep_task source) instance conns is_autorun args in
  match flat_endpoint o with
  | Some _ =>
      match BMap.get instance children with
      | None => invalid_floorplan ("projected leaf `" +:+ instance +:+ "` has no control plan")
      | Some child => Ok (BMap.insert instance (set_owner child owner fields width) children, scopes, completions)
      end
  | None =>
      if BMap.contains_key instance children then invalid_floorplan ("upper scope `" +:+ instance +:+ "` collides with a physical child")
      else
        Ok (BMap.insert instance (mkChildPlan owner true is_autorun width fields None None None) children,
            scopes ++ [mkScopePlan instance (default [] (BMap.get k completions))],
            BMap.retain (fun k' _ => negb (Nat.eqb k' k)) completions)
  end.

Definition retain_scopes (st : TopologyWithRtl) (conns : bmap string MMapConnection) (plan : DistributedControlPlan) : res CodegenError DistributedControlPlan :=
  match flat_projection st with
  | None => Ok plan
  | Some p =>
      let! _ := validate_scope_inventory st p in
      let! completions := try_fold (collect_completion st p) BMap.empty (tl (enumerate (occurrences p))) in
      let! (children, scopes, completions) :=
        try_fold (retain_occurrence st p conns) (plan_children plan, plan_scopes plan, completions) (tl (enumerate (occurrences p))) in
      Ok (mkControlPlan children scopes (Some (default [] (BMap.get 0%nat completions))) (flush_cycles plan))
  end.

(** ** The plan *)

Definition add_entry (acc : list ChildEntry) (x : string * nat * TaskInstance) : res CodegenError (list ChildEntry) :=
  let '(child_name, index, inst) := x in
  let logical_name := canonical_name inst child_name index in
  if str_in logical_name (map ce_instance acc) then invalid_floorplan ("flattened child instance `" +:+ logical_name +:+ "` is not unique")
  else Ok (acc ++ [mkEntry logical_name child_name (inst_step inst <? 0) (inst_args inst)]).

(** The invocations of a task, in iteration order. *)
Definition invocations (t : Task) : list (string * nat * TaskInstance) :=
  flat_map (fun '(child_name, insts) => map (fun '(index, inst) => (child_name, index, inst)) (enumerate insts)) (tasks t).

Definition validate_control_axi_placement (st : TopologyWithRtl) (fp : FloorplanResult) (global_region : string) : res CodegenError unit :=
  match top_instantiates_control_s_axi st, BMap.get CONTROL_S_AXI_INSTANCE (fr_regions fp) with
  | true, None => invalid_floorplan ("top control AXI-Lite is missing placement '" +:+ CONTROL_S_AXI_INSTANCE +:+ "'")
  | true, Some region =>
      if bool_decide (region = global_region) then Ok tt
      else invalid_floorplan (CONTROL_S_AXI_INSTANCE +:+ " is placed in `" +:+ region +:+ "`, expected global controller region `" +:+ global_region +:+ "`")
  | false, Some _ => invalid_floorplan ("unexpected " +:+ CONTROL_S_AXI_INSTANCE +:+ " placement without a generated top control AXI-Lite block")
  | false, None => Ok tt
  end.

Definition without_routes_child (st : TopologyWithRtl) (conns : bmap string MMapConnection) (children : bmap string ChildControlPlan) (x : string * nat * TaskInstance) :
    res CodegenError (bmap string ChildControlPlan) :=
  let '(definition, index, invocation) := x in
  let instance := canonical_name invocation definition index in
  let is_autorun := inst_step invocation <? 0 in
  let! (fields, width) := build_payload_fields st definition instance conns is_autorun (inst_args invocation) in
  Ok (BMap.insert instance (mkChildPlan None false is_autorun width fields None None None) children).

Definition without_routes (st : TopologyWithRtl) (conns : bmap string MMapConnection) : res CodegenError DistributedControlPlan :=
  let! task := index (graph_tasks (data_design st)) (top (tp_design st)) in
  let! children := try_fold (without_routes_child st conns) BMap.empty (invocations task) in
  retain_scopes st conns (mkControlPlan children [] None 0).

Definition is_control_route (r : PipelineRoute) : bool := match Plan.channel r with RControl _ _ => true | _ => false end.

(** The plan of a placed top. *)
Definition placed_control (st : TopologyWithRtl) (fp : FloorplanResult) (task_name global_region : string) (conns : bmap string MMapConnection) :
    res CodegenError DistributedControlPlan :=
  match BMap.get task_name (graph_tasks (data_design st)) with
  | None => Err (TaskNotFound task_name)
  | Some task =>
      let! _ := validate_control_axi_placement st fp global_region in
      let! global_slot := ok_or (parse_atomic_region global_region)
        (InvalidFloorplan ("global controller has non-atomic placement `" +:+ global_region +:+ "`")) in
      let! entries := try_fold add_entry [] (invocations task) in
      let! (routes, max_data) := collect_control_routes fp (map ce_instance entries) in
      let! (children, flush, max_reset, routes) := try_fold (plan_child st fp global_slot conns) (BMap.empty, 0, 0, routes) entries in
      match routes with
      | ((instance, c), _) :: _ => invalid_child instance ("has unexpected " +:+ control_debug c +:+ " route")
      | [] =>
          let! bound := ok_or (checked_add32 max_reset max_data) (InvalidFloorplan "data-fabric reset latency exceeds u32") in
          retain_scopes st conns (mkControlPlan children [] None (Z.max flush bound))
      end
  end.

Definition control_plan_from_floorplan (st : TopologyWithRtl) (task_name : string) (conns : bmap string MMapConnection) :
    res CodegenError (option DistributedControlPlan) :=
  let flattened := match flat_projection st with Some _ => true | None => false end in
  match Topology.floorplan st with
  | None => if flattened then let! plan := without_routes st conns in Ok (Some plan) else Ok None
  | Some fp =>
      match global_region_of fp with
      | None =>
          if flattened && supports_distributed_control st then invalid_floorplan "scoped flat control is missing global controller placement"
          else if existsb is_control_route (fr_routes fp) then invalid_floorplan "control routes are present without a global controller placement"
          else Ok None
      | Some global_region =>
          if negb (bool_decide (task_name = top (tp_design st))) || negb (supports_distributed_control st)
          then invalid_floorplan ("global controller placement cannot be realized for task `" +:+ task_name +:+ "`")
          else let! plan := placed_control st fp task_name global_region conns in Ok (Some plan)
      end
  end.

(** ** Wiring *)

Definition control_wire_prefix (instance : string) : string := "__tapa_control_" +:+ sanitize_identifier_name instance.

Definition scope_signal (scope : option string) (signal : string) : string :=
  match scope with
  | None => "__tapa_control_" +:+ signal
  | Some instance => control_wire_prefix instance +:+ "__" +:+ signal
  end.

Definition child_reset_name (instance : string) : string := control_wire_prefix instance +:+ "__reset_n".

Definition concat_or_scalar (fields : list Expr) : Expr := match fields with [e] => e | _ => Concat fields end.

Definition select_bits (signal : string) (lsb width : Z) : Expr :=
  if width =? 1 then Index (Ident signal) (expr_int lsb)
  else Range (Ident signal) (expr_int (wrap32 (lsb + width - 1))) (expr_int lsb).

Definition done_and_clear (signals : list string) : Expr * Expr :=
  (expr_all (map Ident signals), expr_all (map (fun s => Not (Ident s)) signals)).

Definition instantiate_or_connect_pipeline (m : MutableModule) (instance : string) (c : ControlChannel) (r : option FeedForwardRoute) (width : Z)
    (input output : Expr) : MutableModule :=
  match r with
  | Some r =>
      add_instance m (mkInst "tapa_control_pipeline" (control_pipeline_instance_name instance c)
        [mkParamArg "WIDTH" (expr_int width); mkParamArg "BODY_LEVEL" (expr_int (ff_body_level r))]
        [mkPortArg "clk" (Ident HANDSHAKE_CLK); mkPortArg "in_data" input; mkPortArg "out_data" output])
  | None => add_assign m (mkAssign output input)
  end.

(** The bundle a launch carries, most significant field first. *)
Definition launch_bundle (child : ChildControlPlan) : Expr :=
  concat_or_scalar (map pf_source (List.rev (payload child))
    ++ (if cp_autorun child then [] else [Ident (scope_signal (cp_owner child) "release")])
    ++ [Ident (scope_signal (cp_owner child) "start")]).

Definition connect_field (child : ChildControlPlan) (launch_output : string) (m : MutableModule) (f : PayloadField) : res CodegenError MutableModule :=
  if register_payload child then
    let! m := add_signal_c m (if pf_width f =? 1 then reg (pf_output f) else wide_reg (pf_output f) (Str.show (pf_width f - 1)) "0") in
    Ok (add_always m (mkAlways HANDSHAKE_CLK [NonblockingAssign (Ident (pf_output f)) (pf_source f)]))
  else
    let! m := add_signal_c m (width_wire (pf_output f) (pf_width f)) in
    Ok (add_assign m (mkAssign (Ident (pf_output f)) (select_bits launch_output (pf_lsb f) (pf_width f)))).

Definition local_controller (child : ChildControlPlan) (instance launch_output local_completion : string) (s : InstanceSignals) : ModuleInstance :=
  let tie_low_if_autorun signal := if cp_autorun child then Lit "1'b0" else Ident signal in
  mkInst "tapa_local_controller" (local_controller_instance_name instance)
    [mkParamArg "AUTORUN" (expr_int (b2z (cp_autorun child)))]
    [mkPortArg "ap_clk" (Ident HANDSHAKE_CLK); mkPortArg "reset_n" (Ident (child_reset_name instance));
     mkPortArg "launch_start" (if launch_width child =? 1 then Ident launch_output else Index (Ident launch_output) (expr_int 0));
     mkPortArg "launch_release" (if cp_autorun child then Lit "1'b0" else Index (Ident launch_output) (expr_int 1));
     mkPortArg "child_done" (tie_low_if_autorun (done_name s)); mkPortArg "child_ready" (tie_low_if_autorun (ready_name s));
     mkPortArg "child_idle" (tie_low_if_autorun (idle_name s)); mkPortArg "child_start" (Ident (start_name s));
     mkPortArg "completion" (Ident local_completion)].

Definition wire_child (child : ChildControlPlan) (instance : string) (s : InstanceSignals) (m : MutableModule) : res CodegenError MutableModule :=
  let prefix := control_wire_prefix instance in
  let launch_input := prefix +:+ "__launch_input" in
  let launch_output := prefix +:+ "__launch_output" in
  let reset_n := child_reset_name instance in
  let local_completion := prefix +:+ "__local_completion" in
  let! m := try_fold add_signal_c m
    [width_wire launch_input (launch_width child); width_wire launch_output (launch_width child); wire reset_n; wire local_completion] in
  let m := add_assign m (mkAssign (Ident launch_input) (launch_bundle child)) in
  let m := instantiate_or_connect_pipeline m instance Launch (cp_launch child) (launch_width child) (Ident launch_input) (Ident launch_output) in
  let m := instantiate_or_connect_pipeline m instance Reset (cp_reset child) 1 (Ident HANDSHAKE_RST_N) (Ident reset_n) in
  let! m := try_fold (connect_field child launch_output) m (payload child) in
  let m := add_instance m (local_controller child instance launch_output local_completion s) in
  if cp_autorun child then Ok m
  else Ok (instantiate_or_connect_pipeline m instance Completion (cp_completion child) 1 (Ident local_completion) (Ident (is_done_name s))).

Definition instantiate_child (plan : DistributedControlPlan) (modules : bmap string MutableModule) (task_name instance : string) (s : InstanceSignals) :
    res CodegenError (bmap string MutableModule) :=
  match BMap.get instance (plan_children plan) with
  | None => invalid_floorplan ("generated child `" +:+ instance +:+ "` has no control plan")
  | Some child => try_with_module task_name (wire_child child instance s) modules
  end.

Definition wire_scope (scope : ScopeControlPlan) (s : InstanceSignals) (m : MutableModule) : res CodegenError MutableModule :=
  let start := scope_signal (Some (sp_instance scope)) "start" in
  let release := scope_signal (Some (sp_instance scope)) "release" in
  let! m := try_fold add_signal_c m [wire start; wire release] in
  let '(done, clear) := done_and_clear (completion_signals scope) in
  Ok (add_instance m (mkInst "tapa_global_controller" (scope_controller_instance_name (sp_instance scope)) []
    [mkPortArg "ap_clk" (Ident HANDSHAKE_CLK); mkPortArg "ap_rst_n" (Ident HANDSHAKE_RST_N); mkPortArg "ap_start" (Ident (start_name s));
     mkPortArg "children_done" done; mkPortArg "children_clear" clear; mkPortArg "launch_start" (Ident start); mkPortArg "launch_release" (Ident release);
     mkPortArg "fabric_reset_n" (Lit ""); mkPortArg "ap_done" (Ident (done_name s)); mkPortArg "ap_ready" (Ident (ready_name s));
     mkPortArg "ap_idle" (Ident (idle_name s))])).

Definition scope_handshake (s : InstanceSignals) (autorun : bool) : list Signal :=
  map wire ([start_name s; done_name s; ready_name s; idle_name s] ++ (if autorun then [] else [is_done_name s])).

Definition instantiate_one_scope (plan : DistributedControlPlan) (task_name : string) (modules : bmap string MutableModule) (scope : ScopeControlPlan) :
    res CodegenError (bmap string MutableModule) :=
  let! child := index (plan_children plan) (sp_instance scope) in
  let! s := instance_signals_new (sanitize_identifier_name (sp_instance scope)) (cp_autorun child) in
  let! modules := try_with_module task_name (fun m => try_fold add_signal_c m (scope_handshake s (cp_autorun child))) modules in
  let! modules := instantiate_child plan modules task_name (sp_instance scope) s in
  try_with_module task_name (wire_scope scope s) modules.

Definition global_controller (flush : Z) : ModuleInstance :=
  mkInst "tapa_global_controller" global_controller_instance_name [mkParamArg "FLUSH_CYCLES" (expr_int flush)]
    [mkPortArg "ap_clk" (Ident HANDSHAKE_CLK); mkPortArg "ap_rst_n" (Ident HANDSHAKE_RST_N); mkPortArg "ap_start" (Ident HANDSHAKE_START);
     mkPortArg "children_done" (Ident CHILDREN_DONE); mkPortArg "children_clear" (Ident CHILDREN_CLEAR); mkPortArg "launch_start" (Ident GLOBAL_START);
     mkPortArg "launch_release" (Ident GLOBAL_RELEASE); mkPortArg "fabric_reset_n" (Ident FABRIC_RESET_N); mkPortArg "ap_done" (Ident HANDSHAKE_DONE);
     mkPortArg "ap_ready" (Ident HANDSHAKE_READY); mkPortArg "ap_idle" (Ident HANDSHAKE_IDLE)].

Definition wire_global (plan : DistributedControlPlan) (signals : list string) (m : MutableModule) : res CodegenError MutableModule :=
  let! m := try_fold add_signal_c m (map wire [GLOBAL_START; GLOBAL_RELEASE; CHILDREN_DONE; CHILDREN_CLEAR; FABRIC_RESET_N]) in
  let '(done, clear) := done_and_clear signals in
  let m := add_assign m (mkAssign (Ident CHILDREN_DONE) done) in
  let m := add_assign m (mkAssign (Ident CHILDREN_CLEAR) clear) in
  Ok (add_instance m (global_controller (flush_cycles plan))).

Definition instantiate_global (plan : DistributedControlPlan) (modules : bmap string MutableModule) (task_name : string) (signals : list string) :
    res CodegenError (bmap string MutableModule) :=
  let! modules := try_fold (instantiate_one_scope plan task_name) modules (plan_scopes plan) in
  try_with_module task_name (wire_global plan (default signals (root_completion_signals plan))) modules.
