(* ===== verification/DistributedControlProps.v ===== *)
(** * Distributed control does what its controllers rely on

    The launch bundle delivers every field unmixed; the routes of the floorplan
    are each used once, where a child is away from the global controller, and
    the flush covers their latency; the names of the controllers are distinct. *)

From S2P Require Import Prelude RustStd BTreeMap Geometry Names Ir Flatten FloorGraph Pipeline Plan Protocol Rtl Control VerilogSem Topology AsyncMmap Mmap AxiPipeline DistributedControl.

Local Open Scope Z_scope.

(** ** Literals *)

Lemma eval_int wd rho n : 0 <= n -> eval wd rho (expr_int n) = Some (32, n).
Proof.
  intros Hn. unfold expr_int. simpl. unfold lit_value. destruct (Str.show_spec n Hn) as (Hne & Hd & Hp).
  assert (Hq : Str.split_once "'" (Str.show n) = None).
  { apply Str.split_once_None. refine (Str.all_impl _ _ _ _ Hd). intros c. by destruct (Ascii.eqb_spec "'" c) as [<-|]. }
  rewrite Hq. specialize (Hp 0 ""). rewrite Str.app_nil_r in Hp. rewrite Hp. simpl. by destruct (Str.show n).
Qed.

(** ** Bundles *)

(** Fields of the given widths and values, the first in the lowest bits. *)
Definition field_value : Type := (Z * Z)%type.

Fixpoint pack (l : list field_value) : Z := match l with [] => 0 | (w, v) :: l => v + 2 ^ w * pack l end.

Definition fits_width (x : field_value) : Prop := 0 <= x.1 /\ 0 <= x.2 < 2 ^ x.1.

Definition total_width (l : list field_value) : Z := zsum fst l.

Lemma total_width_nonneg l : Forall fits_width l -> 0 <= total_width l.
Proof. unfold total_width. induction 1 as [|[w v] l [Hw _] _ IH]; simpl in *; lia. Qed.

Lemma pack_range l : Forall fits_width l -> 0 <= pack l < 2 ^ total_width l.
Proof.
  induction 1 as [|[w v] l [Hw Hv] Hl IH]; simpl in *; [unfold total_width; simpl; lia|].
  change (total_width ((w, v) :: l)) with (w + total_width l). pose proof (total_width_nonneg l Hl). rewrite Z.pow_add_r by done. nia.
Qed.

(** Any field of a bundle is recovered by its offset and width. *)
Lemma pack_select l1 w v l2 : Forall fits_width (l1 ++ (w, v) :: l2) -> (pack (l1 ++ (w, v) :: l2) / 2 ^ total_width l1) mod 2 ^ w = v.
Proof.
  induction l1 as [|[w1 v1] l1 IH]; simpl; intros Hf.
  - apply Forall_cons in Hf as [[Hw Hv] _]. simpl in *. change (total_width []) with 0. rewrite Z.pow_0_r, Z.div_1_r, (Z.mul_comm (2 ^ w)), Z_mod_plus_full. by apply Z.mod_small.
  - apply Forall_cons in Hf as [[Hw Hv] Hf]. simpl in *. change (total_width ((w1, v1) :: l1)) with (w1 + total_width l1).
    pose proof (total_width_nonneg l1 (proj1 (proj1 (Forall_app _ _ _) Hf))). rewrite Z.pow_add_r by done.
    rewrite <- Z.div_div by (apply Z.pow_nonzero || apply Z.pow_pos_nonneg; lia).
    rewrite (Z.mul_comm (2 ^ w1)), Z.div_add by (apply Z.pow_nonzero; lia). rewrite (Z.div_small v1) by done. rewrite Z.add_0_l. by apply IH.
Qed.

(** A concatenation with the most significant part first packs its parts. *)
Lemma eval_concat wd rho es l : Forall2 (fun e x => eval wd rho e = Some x) es l -> Forall fits_width l ->
  eval wd rho (Concat (List.rev es)) = Some (total_width l, pack l).
Proof.
  intros He Hf. cbn [eval]. rewrite map_rev, <- fold_left_rev_right, List.rev_involutive. revert He.
  revert es. induction Hf as [|[w v] l [Hw Hv] Hl IH]; intros es He; inversion He as [|e x es' l' Hx Hes]; subst; clear He; [done|].
  simpl. rewrite (IH _ Hes), Hx. simpl. change (total_width ((w, v) :: l)) with (w + total_width l). do 2 f_equal; lia.
Qed.

(** ** The fields of a launch lie one after the other *)

Definition contiguous (base : Z) (fields : list PayloadField) (next : Z) : Prop :=
  next = base + zsum pf_width fields /\ next <= U32_MAX /\ Forall (fun f => 1 <= pf_width f) fields /\
  forall l1 f l2, fields = l1 ++ f :: l2 -> pf_lsb f = base + zsum pf_width l1.

Lemma resolve_scalar_width_pos st child port w : resolve_scalar_width st child port = Ok w -> 0 < w.
Proof.
  unfold resolve_scalar_width. intros H. repeat (case_match; try done); simplify_eq; lia.
Qed.

Lemma payload_source_width st child inst conns x o s w : payload_source st child inst conns x = Ok (Some (o, s, w)) -> 1 <= w.
Proof.
  destruct x as [port a]. unfold payload_source. destruct (is_scalar (cat a)).
  - intros H. apply rbind_ok in H as (w' & Hw%resolve_scalar_width_pos & [= _ _ <-]). lia.
  - destruct (is_direct_mmap (cat a)); [|done]. destruct (arg_name a); [|done]. intros [= _ _ <-]. lia.
Qed.

Lemma zsum_snoc {A} (f : A -> Z) l x : zsum f (l ++ [x]) = zsum f l + f x.
Proof. rewrite zsum_app. unfold zsum. simpl. lia. Qed.

Lemma payload_contiguous st child inst conns autorun args fields w :
  build_payload_fields st child inst conns autorun args = Ok (fields, w) -> contiguous (control_width autorun) fields w.
Proof.
  intros H. unfold build_payload_fields in H. apply rbind_ok in H as (_ & _ & H).
  refine (try_fold_inv (fun acc => contiguous (control_width autorun) acc.1 acc.2) _ _ _ _ _ _ H); clear H.
  - intros [fs n] x acc' _ (Hn & Hle & Hw & Hlsb) H. simpl in *. unfold add_payload_field in H. apply rbind_ok in H as (field & Hf & H).
    destruct field as [[[o s] v]|]; [|injection H as <-; by split]. apply payload_source_width in Hf.
    cbn [fst snd] in H. destruct (v =? 0); [done|]. destruct (checked_add32 n v) as [n'|] eqn:Hc; [|done]. injection H as <-. apply fits_Some in Hc as [-> Hb].
    unfold contiguous. simpl. rewrite zsum_snoc. split; [simpl; lia|]. split; [lia|]. split; [apply Forall_app; split; [done|by constructor]|].
    intros l1 f l2 E. destruct l2 as [|y l2' _] using rev_ind.
    + apply (app_inj_tail fs l1) in E as [-> <-]. simpl. lia.
    + rewrite app_comm_cons, app_assoc in E. apply app_inj_tail in E as [-> <-]. by eapply Hlsb.
  - unfold contiguous. simpl. split; [unfold zsum; simpl; lia|]. split; [destruct autorun; unfold U32_MAX; simpl; lia|]. split; [constructor|]. by intros [].
Qed.

(** ** The launch bundle *)

Definition connection (i : ModuleInstance) (port : string) : option Expr :=
  let? p := find_first (fun p => bool_decide (pa_name p = port)) (mi_ports i) in Some (pa_connection p).

(** The low bits of a bundle: the start, and the release of a child that completes. *)
Definition launch_header (child : ChildControlPlan) (rho : env) : list field_value :=
  (1, rho (scope_signal (cp_owner child) "start")) :: (if cp_autorun child then [] else [(1, rho (scope_signal (cp_owner child) "release"))]).

Lemma eval_concat_or_scalar wd rho l : eval wd rho (concat_or_scalar l) = eval wd rho (Concat l).
Proof. destruct l as [|e [|e' l]]; try done. simpl. by destruct (eval wd rho e) as [[w v]|]. Qed.

Lemma launch_bundle_concat wd rho child : eval wd rho (launch_bundle child) =
  eval wd rho (Concat (List.rev (Ident (scope_signal (cp_owner child) "start") ::
    (if cp_autorun child then [] else [Ident (scope_signal (cp_owner child) "release")]) ++ map pf_source (payload child)))).
Proof.
  unfold launch_bundle. rewrite eval_concat_or_scalar, map_rev. do 2 f_equal. simpl List.rev. rewrite List.rev_app_distr, <- List.app_assoc.
  by destruct (cp_autorun child).
Qed.

Lemma eval_select wd rho out lsb w : 0 <= lsb -> 1 <= w -> lsb + w <= U32_MAX + 1 ->
  eval wd rho (select_bits out lsb w) = Some (w, (rho out / 2 ^ lsb) mod 2 ^ w).
Proof.
  intros Hl Hw Hm. unfold select_bits. destruct (Z.eqb_spec w 1) as [->|].
  - cbn [eval]. by rewrite eval_int.
  - cbn [eval]. rewrite wrap32_id by (unfold in_u32; lia). rewrite !eval_int by lia. cbn. replace (lsb + w - 1 - lsb + 1) with w by lia. done.
Qed.

Lemma select_lookup l k w v : Forall fits_width l -> l !! k = Some (w, v) -> (pack l / 2 ^ total_width (take k l)) mod 2 ^ w = v.
Proof. intros Hf Hk. rewrite <- (take_drop_middle l k _ Hk) in Hf |- * at 1. by apply pack_select. Qed.

Definition field_values (fs : list PayloadField) (values : list Z) : list field_value := zip_with (fun f v => (pf_width f, v)) fs values.

Definition sources_hold (wd rho : env) (fs : list PayloadField) (values : list Z) : Prop :=
  Forall2 (fun f v => eval wd rho (pf_source f) = Some (pf_width f, v) /\ 0 <= v < 2 ^ pf_width f) fs values.

Lemma field_values_fit wd rho fs values : Forall (fun f => 1 <= pf_width f) fs -> sources_hold wd rho fs values ->
  Forall fits_width (field_values fs values) /\ Forall2 (fun e x => eval wd rho e = Some x) (map pf_source fs) (field_values fs values).
Proof.
  intros Hp Hv. revert Hp. unfold field_values. induction Hv as [|f v fs vs [He Hb] _ IH]; intros Hp; [by repeat constructor|].
  apply Forall_cons in Hp as [Hp Hps]. destruct (IH Hps) as [H1 H2]. split; [constructor; [split; simpl; lia|done]|by constructor].
Qed.

Lemma field_values_width wd rho fs values k : sources_hold wd rho fs values -> total_width (take k (field_values fs values)) = zsum pf_width (take k fs).
Proof.
  intros Hv. unfold field_values. revert k. induction Hv as [|f v fs vs _ _ IH]; intros [|k]; try done. simpl. unfold total_width in *. simpl. by rewrite IH.
Qed.

Lemma field_values_lookup fs values k f v : fs !! k = Some f -> values !! k = Some v -> field_values fs values !! k = Some (pf_width f, v).
Proof. intros Hf Hv. unfold field_values. by rewrite lookup_zip_with, Hf, Hv. Qed.

Lemma zsum_width_nonneg fs : Forall (fun f => 1 <= pf_width f) fs -> 0 <= zsum pf_width fs.
Proof. unfold zsum. induction 1 as [|f fs Hf _ IH]; simpl; lia. Qed.

Lemma lookup_width_le fs k f : Forall (fun f => 1 <= pf_width f) fs -> fs !! k = Some f -> zsum pf_width (take k fs) + pf_width f <= zsum pf_width fs.
Proof.
  intros Hp Hf. rewrite <- (take_drop_middle _ _ _ Hf) at 2. rewrite zsum_app. pose proof (zsum_width_nonneg _ (Forall_drop _ (S k) _ Hp)).
  unfold zsum in *. simpl. lia.
Qed.

(** C7: whatever a child is launched with arrives: the bundle holds the start, the
    release and one field per scalar and memory argument, exactly as wide as the
    launch wire, and each slice the child's side takes of it is the value its
    source had, provided every source is as wide as the port it feeds. *)
Theorem launch_bundle_delivers st name inst conns args child : build_payload_fields st name inst conns (cp_autorun child) args = Ok (payload child, launch_width child) ->
  forall wd rho values, let start := scope_signal (cp_owner child) "start" in let release := scope_signal (cp_owner child) "release" in
  wd start = 1 -> 0 <= rho start < 2 -> wd release = 1 -> 0 <= rho release < 2 ->
  sources_hold wd rho (payload child) values ->
  exists bundle, eval wd rho (launch_bundle child) = Some (launch_width child, bundle) /\ 0 <= bundle < 2 ^ launch_width child /\
    forall wd' rho' out done sig, rho' out = bundle ->
      Forall2 (fun f v => eval wd' rho' (select_bits out (pf_lsb f) (pf_width f)) = Some (pf_width f, v)) (payload child) values /\
      let controller := local_controller child inst out done sig in
      (let? e := connection controller "launch_start" in value rho' e) = Some (rho start) /\
      (let? e := connection controller "launch_release" in value rho' e) = Some (if cp_autorun child then 0 else rho release).
Proof.
  intros Hb wd rho values start release Hws Hs Hwr Hr Hv.
  destruct (payload_contiguous _ _ _ _ _ _ _ _ Hb) as (Hw & Hmax & Hpos & Hlsb).
  destruct (field_values_fit _ _ _ _ Hpos Hv) as [Hfit Heval]. pose proof (fun k => field_values_width _ _ _ _ k Hv) as Hwidth.
  set (fields := field_values (payload child) values) in *. set (header := launch_header child rho).
  assert (Hhead : Forall fits_width header /\ total_width header = control_width (cp_autorun child)).
  { unfold header, launch_header. fold start release. destruct (cp_autorun child); split; try done; repeat constructor; simpl; lia. }
  destruct Hhead as [Hhf Hhw]. assert (Hall : Forall fits_width (header ++ fields)) by by apply Forall_app.
  assert (Htotal : total_width (header ++ fields) = launch_width child).
  { unfold total_width at 1. rewrite zsum_app. fold (total_width header) (total_width fields). rewrite Hhw, Hw. f_equal.
    rewrite <- (firstn_all (payload child)), <- (Hwidth (length (payload child))). unfold fields, field_values.
    rewrite take_ge; [done|]. rewrite length_zip_with. lia. }
  exists (pack (header ++ fields)). split; [|split].
  - rewrite launch_bundle_concat, <- Htotal. apply eval_concat; [|done]. unfold header, launch_header. fold start release.
    destruct (cp_autorun child); simpl; repeat (constructor; [simpl; by rewrite ?Hws, ?Hwr|]); done.
  - rewrite <- Htotal. by apply pack_range.
  - intros wd' rho' out done sig Hout. split; [|split].
    + apply Forall2_same_length_lookup. split; [by eapply Forall2_length|]. intros k f v Hf Hk.
      pose proof (take_drop_middle _ _ _ Hf) as Hsplit. pose proof (Hlsb _ _ _ (eq_sym Hsplit)) as Hl. pose proof (lookup_width_le _ _ _ Hpos Hf) as Hle.
      pose proof (zsum_width_nonneg _ (Forall_take _ k _ Hpos)) as Hnn. pose proof (proj1 (Forall_lookup _ _) Hpos _ _ Hf) as Hf1. simpl in Hf1.
      assert (1 <= control_width (cp_autorun child)) by by destruct (cp_autorun child).
      rewrite eval_select by lia. rewrite Hout. f_equal. f_equal.
      replace (pf_lsb f) with (total_width (take (length header + k) (header ++ fields))).
      * apply select_lookup; [done|]. rewrite lookup_app_r by apply Nat.le_add_r. rewrite Nat.add_comm, Nat.add_sub. by apply field_values_lookup.
      * rewrite take_app_add. unfold total_width. rewrite zsum_app. fold (total_width header) (total_width (take k fields)). by rewrite Hhw, Hwidth, Hl.
    + change (connection _ "launch_start") with (Some (if launch_width child =? 1 then Ident out else Index (Ident out) (expr_int 0))).
      cbv beta iota. assert (Hsel : (pack (header ++ fields) / 2 ^ 0) mod 2 = rho start) by (apply (select_lookup _ 0 1 _ Hall); unfold header; done).
      unfold value. destruct (Z.eqb_spec (launch_width child) 1) as [H1|].
      * cbn [eval option_map snd]. rewrite Hout. rewrite Z.pow_0_r, Z.div_1_r in Hsel. pose proof (pack_range _ Hall) as Hp. rewrite Htotal, H1 in Hp. rewrite Z.mod_small in Hsel by lia. by rewrite Hsel.
      * cbn [eval]. rewrite eval_int by lia. cbn [option_map snd]. by rewrite Hout, Hsel.
    + change (connection _ "launch_release") with (Some (if cp_autorun child then Lit "1'b0" else Index (Ident out) (expr_int 1))). cbv beta iota.
      unfold value. destruct (cp_autorun child) eqn:Ha; [done|]. cbn [eval]. rewrite eval_int by lia. cbn [option_map snd]. rewrite Hout. f_equal.
      assert (Hh : (header ++ fields) !! 1%nat = Some (1, rho release)) by (unfold header, launch_header; by rewrite Ha).
      pose proof (select_lookup _ _ _ _ Hall Hh) as Hsel. replace (total_width (take 1 (header ++ fields))) with 1 in Hsel; [exact Hsel|done].
Qed.

(** ** The control routes of a floorplan *)

Definition is_route_for (n : string) (c : ControlChannel) (r : PipelineRoute) : bool :=
  match Plan.channel r with RControl n' c' => bool_decide ((n', c') = (n, c)) | _ => false end.

Definition control_routes_of (rs : list PipelineRoute) (n : string) (c : ControlChannel) : list PipelineRoute := List.filter (is_route_for n c) rs.

Definition pipeline_latency (r : PipelineRoute) : Z := Z.of_nat (length (route_reg_regions r)) + 2.

Definition realizes (r : FeedForwardRoute) (rt : PipelineRoute) : Prop :=
  ff_path r = Plan.route rt /\ ff_reg_regions r = route_reg_regions rt /\ ff_body_level r = Z.of_nat (length (route_reg_regions rt)) /\ ff_latency r = pipeline_latency rt.

Definition planned_for (rs : list PipelineRoute) (n : string) (c : ControlChannel) (o : option FeedForwardRoute) : Prop :=
  match o with
  | Some r => exists rt, control_routes_of rs n c = [rt] /\ realizes r rt
  | None => control_routes_of rs n c = []
  end.

Definition collect_inv (known : list string) (rs : list PipelineRoute) (acc : PlannedRoutes * Z) : Prop :=
  BMap.wf acc.1 /\ (forall n c, planned_for rs n c (BMap.get (n, c) acc.1) /\ (BMap.get (n, c) acc.1 <> None -> n ∈ known)) /\
  Forall (fun rt => is_control_route rt = false -> pipeline_latency rt <= acc.2) rs.

Lemma str_in_spec s l : str_in s l = true <-> s ∈ l.
Proof. apply bool_decide_eq_true. Qed.

Lemma collect_route_inv known rs acc r acc' : collect_inv known rs acc -> collect_route known acc r = Ok acc' -> collect_inv known (rs ++ [r]) acc'.
Proof.
  intros (Hwf & Hp & Hd) H. unfold collect_route in H. destruct (U32_MAX <? _); [done|].
  destruct (checked_add32 _ 2) as [lat|] eqn:Hl; [|done]. apply fits_Some in Hl as [-> _].
  assert (Hsnoc : forall n c, control_routes_of (rs ++ [r]) n c = control_routes_of rs n c ++ (if is_route_for n c r then [r] else [])).
  { intros n c. unfold control_routes_of. rewrite List.filter_app. simpl. by destruct (is_route_for n c r). }
  unfold is_route_for in Hsnoc. destruct (Plan.channel r) as [f|e b c|n0 c0] eqn:Hch.
  1,2: injection H as <-; split; [done|]; split; [intros n' c'; specialize (Hsnoc n' c'); destruct (Hp n' c') as [Hm Hk]; split; [|done];
    unfold planned_for; rewrite Hsnoc, List.app_nil_r; exact Hm|];
    apply Forall_app; split; [eapply Forall_impl; [exact Hd|]; simpl; intros x Hx Hf; specialize (Hx Hf); lia|]; repeat constructor; simpl; unfold pipeline_latency; lia.
  destruct (str_in n0 known) eqn:Hk; [|done]. simpl in H. destruct (BMap.contains_key (n0, c0) acc.1) eqn:Hc; [done|]. injection H as <-.
  split; [by apply BMap.wf_insert|]. split.
  - intros n c. simpl. rewrite BMap.get_insert. destruct (Hp n c) as [Hm Hn]. unfold planned_for. rewrite Hsnoc.
    destruct (decide ((n, c) = (n0, c0))) as [[= -> ->]|Hne].
    + rewrite bool_decide_eq_true_2 by done. unfold BMap.contains_key in Hc. destruct (BMap.get (n0, c0) acc.1); [done|].
      simpl in Hm. rewrite Hm. split; [by exists r|]. intros _. by apply str_in_spec.
    + rewrite bool_decide_eq_false_2 by congruence. rewrite List.app_nil_r. by split.
  - apply Forall_app. split; [done|]. repeat constructor. unfold is_control_route. by rewrite Hch.
Qed.

Lemma collect_control_routes_sound fp known routes max_data : collect_control_routes fp known = Ok (routes, max_data) -> collect_inv known (fr_routes fp) (routes, max_data).
Proof.
  intros H. refine (try_fold_ind (collect_inv known) _ _ _ _ _ _ H); [split; [apply BMap.wf_nil|by repeat constructor]|].
  intros l1 x l2 a a' _. apply collect_route_inv.
Qed.

Lemma take_expected_route_sound routes n c expected s d o routes' : BMap.wf routes -> take_expected_route routes n c expected s d = Ok (o, routes') ->
  o = BMap.get (n, c) routes /\ BMap.wf routes' /\ (forall k, BMap.get k routes' = if bool_decide (k = (n, c)) then None else BMap.get k routes) /\
  match o with Some r => expected = true /\ validate_route n c r s d = Ok tt | None => expected = false end.
Proof.
  intros Hwf H. unfold take_expected_route in H. destruct expected, (BMap.get (n, c) routes) as [r|] eqn:Hg; try done.
  - apply rbind_ok in H as ([] & Hv & [= <- <-]). split; [done|]. unfold remove_route. split; [by apply BMap.wf_retain|]. split; [|done].
    intros k. rewrite BMap.get_retain by done. destruct (BMap.get k routes) eqn:Hk; [|by destruct (bool_decide _)]. by destruct (bool_decide (k = (n, c))).
  - injection H as <- <-. split; [done|]. split; [done|]. split; [|done]. intros k. destruct (bool_decide_reflect (k = (n, c))) as [->|]; done.
Qed.

(** ** The plans of the children *)

Definition route_for (child : ChildControlPlan) (c : ControlChannel) : option FeedForwardRoute :=
  match c with Launch => cp_launch child | Reset => cp_reset child | Completion => cp_completion child end.

Definition expected_route (child_slot slot : Z * Z) (autorun : bool) (c : ControlChannel) : bool :=
  negb (bool_decide (child_slot = slot)) && negb (autorun && bool_decide (c = Completion)).

(** Launch and reset flow to the child, completion from it. *)
Definition route_source (child_slot slot : Z * Z) (c : ControlChannel) : Z * Z := match c with Completion => child_slot | _ => slot end.
Definition route_destination (child_slot slot : Z * Z) (c : ControlChannel) : Z * Z := match c with Completion => slot | _ => child_slot end.

Record child_ok (fp : FloorplanResult) (slot : Z * Z) (planned : PlannedRoutes) (n : string) (autorun : bool) (flush max_reset : Z) (child : ChildControlPlan) (child_slot : Z * Z) : Prop := {
  ok_placed : child_placement_slot fp n = Ok child_slot;
  ok_autorun : cp_autorun child = autorun;
  ok_planned : forall c, route_for child c = BMap.get (n, c) planned;
  ok_routed : forall c, match route_for child c with
    | Some r => expected_route child_slot slot autorun c = true /\ validate_route n c r (route_source child_slot slot c) (route_destination child_slot slot c) = Ok tt
    | None => expected_route child_slot slot autorun c = false
    end;
  ok_together : cp_launch child = cp_reset child;
  ok_flush : route_latency (cp_reset child) + route_latency (cp_completion child) <= flush;
  ok_reset : route_latency (cp_reset child) <= max_reset;
}.

Lemma child_ok_mono fp slot planned n autorun flush max_reset child child_slot flush' max_reset' :
  flush <= flush' -> max_reset <= max_reset' -> child_ok fp slot planned n autorun flush max_reset child child_slot -> child_ok fp slot planned n autorun flush' max_reset' child child_slot.
Proof. intros Hf Hr []. split; try done; lia. Qed.

Definition children_inv (fp : FloorplanResult) (slot : Z * Z) (planned : PlannedRoutes) (l : list ChildEntry) (acc : ChildrenAcc) : Prop :=
  let '(children, flush, max_reset, routes) := acc in
  BMap.wf routes /\ (forall n c, BMap.get (n, c) routes = if bool_decide (n ∈ map ce_instance l) then None else BMap.get (n, c) planned) /\
  forall e, e ∈ l -> exists child child_slot, BMap.get (ce_instance e) children = Some child /\ child_ok fp slot planned (ce_instance e) (ce_autorun e) flush max_reset child child_slot.

(** Taking the completion route of a child, which one that never completes has not. *)
Lemma take_completion_sound (e : ChildEntry) crossing s d routes o routes' : BMap.wf routes ->
  (if ce_autorun e then
     if BMap.contains_key (ce_instance e, Completion) routes
     then invalid_floorplan ("autorun child `" +:+ ce_instance e +:+ "` must not have a Completion route") else Ok (None, routes)
   else take_expected_route routes (ce_instance e) Completion crossing s d) = Ok (o, routes') ->
  o = BMap.get (ce_instance e, Completion) routes /\ BMap.wf routes' /\
  (forall k, BMap.get k routes' = if bool_decide (k = (ce_instance e, Completion)) then None else BMap.get k routes) /\
  match o with Some r => crossing && negb (ce_autorun e) = true /\ validate_route (ce_instance e) Completion r s d = Ok tt | None => crossing && negb (ce_autorun e) = false end.
Proof.
  intros Hwf H. destruct (ce_autorun e).
  - unfold BMap.contains_key in H. destruct (BMap.get (ce_instance e, Completion) routes) eqn:Hg; [done|]. injection H as <- <-.
    split; [done|]. split; [done|]. split; [|by rewrite andb_false_r]. intros k. destruct (bool_decide_reflect (k = (ce_instance e, Completion))) as [->|]; done.
  - rewrite andb_true_r. by apply take_expected_route_sound.
Qed.

Lemma plan_child_inv st fp slot conns planned l acc e acc' : ce_instance e ∉ map ce_instance l ->
  children_inv fp slot planned l acc -> plan_child st fp slot conns acc e = Ok acc' -> children_inv fp slot planned (l ++ [e]) acc'.
Proof.
  destruct acc as [[[children flush] max_reset] routes]. intros Hnew (Hwf & Hroutes & Hchildren) H. unfold plan_child in H.
  apply rbind_ok in H as (child_slot & Hslot & H).
  apply rbind_ok in H as ([launch r1] & Hl & H). apply rbind_ok in H as ([reset r2] & Hr & H). apply rbind_ok in H as ([completion r3] & Hc & H).
  apply rbind_ok in H as ([] & Hsame & H). apply rbind_ok in H as ([fields width] & _ & H). apply rbind_ok in H as (lat & Hlat%ok_or_ok%fits_Some & [= <-]).
  destruct (take_expected_route_sound _ _ _ _ _ _ _ _ Hwf Hl) as (Hlg & Hwf1 & Hg1 & Hlv).
  destruct (take_expected_route_sound _ _ _ _ _ _ _ _ Hwf1 Hr) as (Hrg & Hwf2 & Hg2 & Hrv).
  destruct (take_completion_sound _ _ _ _ _ _ _ Hwf2 Hc) as (Hcg & Hwf3 & Hg3 & Hcv).
  rewrite Hg1 in Hrg. rewrite Hg2, Hg1 in Hcg. rewrite bool_decide_eq_false_2 in Hrg by done. rewrite !bool_decide_eq_false_2 in Hcg by done.
  rewrite Hroutes, (bool_decide_eq_false_2 _ Hnew) in Hlg, Hrg, Hcg.
  split; [done|]. split.
  - intros n c. rewrite Hg3, Hg2, Hg1, Hroutes, map_app. destruct (decide (n = ce_instance e)) as [->|Hne].
    + rewrite (bool_decide_eq_true_2 (_ ∈ _ ++ _)) by (apply elem_of_app; right; by left). destruct c; by repeat case_bool_decide.
    + rewrite !(bool_decide_eq_false_2 ((n, c) = _)) by congruence.
      apply (f_equal (fun b : bool => if b then None else BMap.get (n, c) planned)), bool_decide_ext. rewrite elem_of_app. simpl. set_solver.
  - intros e' Hin. rewrite BMap.get_insert. apply elem_of_app in Hin as [Hin|Hin%list_elem_of_singleton].
    + destruct (decide (ce_instance e' = ce_instance e)) as [E|_]; [exfalso; apply Hnew; rewrite <- E; by apply list_elem_of_fmap_2|].
      destruct (Hchildren e' Hin) as (child & cs & Hget & Hok). exists child, cs. split; [done|]. eapply child_ok_mono; [| |exact Hok]; lia.
    + subst e'. destruct (decide _) as [_|]; [|done]. eexists _, child_slot. split; [reflexivity|]. split; simpl; try done; try lia.
      * intros []; simpl; congruence.
      * unfold expected_route. intros []; simpl; rewrite ?andb_false_r, ?andb_true_r; done.
      * destruct launch as [ro|], reset as [rs|]; try done; [by destruct (bool_decide_reflect (ro = rs)); simplify_eq|destruct Hlv as [? _]; congruence|destruct Hrv as [? _]; congruence].
Qed.

(** ** Scopes keep the routes *)

Definition same_control (c c' : ChildControlPlan) : Prop := cp_autorun c' = cp_autorun c /\ forall ch, route_for c' ch = route_for c ch.

Definition keeps_children (m m' : bmap string ChildControlPlan) : Prop :=
  forall n c, BMap.get n m = Some c -> exists c', BMap.get n m' = Some c' /\ same_control c c'.

#[export] Instance keeps_children_preorder : PreOrder keeps_children.
Proof.
  split; [by intros m n c Hg; exists c|]. intros m1 m2 m3 H12 H23 n c Hg. destruct (H12 n c Hg) as (c2 & Hg2 & Ha & Hr). destruct (H23 n c2 Hg2) as (c3 & Hg3 & Ha' & Hr').
  exists c3. split; [done|]. split; [congruence|]. intros ch. by rewrite Hr', Hr.
Qed.

Lemma retain_occurrence_keeps st p conns acc x acc' : retain_occurrence st p conns acc x = Ok acc' -> keeps_children acc.1.1 acc'.1.1.
Proof.
  destruct acc as [[children scopes] completions], x as [k o]. intros H. unfold retain_occurrence in H.
  apply rbind_ok in H as (inv & _ & H). apply rbind_ok in H as (owner & _ & H). apply rbind_ok in H as (source & _ & H). apply rbind_ok in H as ([fields width] & _ & H).
  destruct (flat_endpoint o).
  - destruct (BMap.get (global_name o) children) as [child|] eqn:Hc; [|done]. injection H as <-. simpl. intros n c Hg. rewrite BMap.get_insert.
    destruct (decide (n = global_name o)) as [->|]; [|by exists c]. simplify_eq. eexists. split; [reflexivity|]. split; [done|]. by intros [].
  - destruct (BMap.contains_key (global_name o) children) eqn:Hc; [done|]. injection H as <-. simpl. intros n c Hg. rewrite BMap.get_insert.
    destruct (decide (n = global_name o)) as [->|]; [|by exists c]. unfold BMap.contains_key in Hc. by rewrite Hg in Hc.
Qed.

Lemma retain_scopes_keeps st conns plan plan' : retain_scopes st conns plan = Ok plan' ->
  keeps_children (plan_children plan) (plan_children plan') /\ flush_cycles plan' = flush_cycles plan.
Proof.
  unfold retain_scopes. destruct (flat_projection st) as [p|]; [|by intros [= <-]]. intros H.
  apply rbind_ok in H as (names & _ & H). apply rbind_ok in H as (completions & _ & H). apply rbind_ok in H as ([[children scopes] rest] & Hf & [= <-]).
  split; [|done]. simpl. pose (R := fun a b : ScopeAcc => keeps_children a.1.1 b.1.1).
  assert (PreOrder R) by (split; [intros a; unfold R; reflexivity|intros a b c; unfold R; by etransitivity]).
  refine (try_fold_rel R _ _ _ _ _ Hf). intros a x a' _. apply retain_occurrence_keeps.
Qed.

(** ** The entries are the invocations, by distinct names *)

Definition entry_of (x : string * nat * TaskInstance) : ChildEntry :=
  mkEntry (canonical_name x.2 x.1.1 x.1.2) x.1.1 (inst_step x.2 <? 0) (inst_args x.2).

Lemma entries_exact l entries : try_fold add_entry [] l = Ok entries -> entries = map entry_of l /\ NoDup (map ce_instance entries).
Proof.
  intros H. refine (try_fold_ind (fun l es => es = map entry_of l /\ NoDup (map ce_instance es)) _ _ _ _ _ _ H); [by split; [|constructor]|].
  clear H. intros l1 [[name k] inst] l2 es es' _ [-> Hnd] H. unfold add_entry in H.
  destruct (str_in _ _) eqn:Hin; [done|]. injection H as <-. rewrite map_app. split; [done|].
  rewrite map_app. apply NoDup_app. split; [done|]. split; [|by repeat constructor; apply not_elem_of_nil].
  intros x Hx Hy%list_elem_of_singleton. subst x. apply str_in_spec in Hx. change (ce_instance _) with (canonical_name inst name k) in Hx. congruence.
Qed.

(** ** The whole plan *)

Definition controlled (fp : FloorplanResult) (slot : Z * Z) (flush : Z) (n : string) (autorun : bool) (child : ChildControlPlan) : Prop :=
  exists child_slot, child_placement_slot fp n = Ok child_slot /\ cp_autorun child = autorun /\ cp_launch child = cp_reset child /\
    (forall c, planned_for (fr_routes fp) n c (route_for child c) /\
       match route_for child c with
       | Some r => expected_route child_slot slot autorun c = true /\ validate_route n c r (route_source child_slot slot c) (route_destination child_slot slot c) = Ok tt
       | None => expected_route child_slot slot autorun c = false
       end) /\
    route_latency (cp_reset child) + route_latency (cp_completion child) <= flush /\
    forall rt, rt ∈ fr_routes fp -> is_control_route rt = false -> route_latency (cp_reset child) + pipeline_latency rt <= flush.

(** C9: a plan of distributed control that is accepted is complete and exact:
    every invocation of the top has its plan and is placed in one slot with its
    local controller; it has a launch and a reset route, which are the same, and
    when it completes a completion route, exactly if it is away from the global
    controller, each the only route of the floorplan for its channel, between the
    two slots in the right direction; no control route is left over; and the flush
    is as long as any reset and completion together, and any reset and data route. *)
Theorem control_plan_follows_floorplan st fp task_name conns plan : control_plan_from_floorplan st task_name conns = Ok (Some plan) -> Topology.floorplan st = Some fp ->
  exists task region slot, BMap.get task_name (graph_tasks (data_design st)) = Some task /\ global_region_of fp = Some region /\ parse_atomic_region region = Some slot /\
    (forall x, x ∈ invocations task -> exists child, BMap.get (canonical_name x.2 x.1.1 x.1.2) (plan_children plan) = Some child /\
       controlled fp slot (flush_cycles plan) (canonical_name x.2 x.1.1 x.1.2) (inst_step x.2 <? 0) child) /\
    forall rt n c, rt ∈ fr_routes fp -> Plan.channel rt = RControl n c -> exists child, BMap.get n (plan_children plan) = Some child /\ route_for child c <> None.
Proof.
  intros H Hfp. unfold control_plan_from_floorplan in H. rewrite Hfp in H.
  destruct (global_region_of fp) as [region|] eqn:Hreg; [|by repeat (case_match; try done)].
  destruct (negb _ || negb _); [done|]. apply rbind_ok in H as (plan0 & H & [= ->]). unfold placed_control in H.
  destruct (BMap.get task_name _) as [task|]; [|done]. apply rbind_ok in H as (_ & _ & H). apply rbind_ok in H as (slot & Hslot%ok_or_ok & H).
  apply rbind_ok in H as (entries & He & H). apply rbind_ok in H as ([routes0 max_data] & Hcol & H). apply rbind_ok in H as ([[[children flush] max_reset] routes] & Hplan & H).
  destruct routes as [|[[n0 c0] r0] routes]; [|done]. apply rbind_ok in H as (bound & Hbound%ok_or_ok%fits_Some & H).
  destruct (retain_scopes_keeps _ _ _ _ H) as [Hkeep Hflush]. simpl in Hkeep, Hflush.
  destruct (entries_exact _ _ He) as [-> Hnd]. destruct (collect_control_routes_sound _ _ _ _ Hcol) as (Hwf & Hplanned & Hdata).
  assert (Hinv : children_inv fp slot routes0 (map entry_of (invocations task)) (children, flush, max_reset, [])).
  { refine (try_fold_ind (children_inv fp slot routes0) _ _ _ _ _ _ Hplan).
    - split; [done|]. split; [by intros n c|]. by intros e He'%not_elem_of_nil.
    - intros l1 x l2 a a' Hl. apply plan_child_inv. rewrite Hl, map_app in Hnd. apply NoDup_app in Hnd as (_ & Hd & _). intros Hx. apply (Hd _ Hx). by left. }
  destruct Hinv as (_ & Hleft & Hchildren). simpl in Hplanned, Hdata.
  exists task, region, slot. split; [done|]. split; [done|]. split; [done|]. split.
  - intros x Hx. destruct (Hchildren (entry_of x)) as (child & cs & Hget & Hok); [by apply list_elem_of_fmap_2|].
    destruct (Hkeep _ _ Hget) as (child' & Hget' & Ha & Hr). exists child'. split; [done|]. destruct Hok as [H1 H2 H3 H4 H5 H6 H7]. simpl in *.
    exists cs. pose proof (Hr Launch) as Hrl. pose proof (Hr Reset) as Hrr. pose proof (Hr Completion) as Hrc. simpl in Hrl, Hrr, Hrc.
    split; [done|]. split; [congruence|]. split; [congruence|]. rewrite Hrr, Hrc, Hflush. split; [|split; [lia|]].
    + intros c. rewrite Hr. split; [|apply H4]. rewrite H3. apply Hplanned.
    + intros rt Hrt Hcr. pose proof (proj1 (Forall_forall _ _) Hdata rt Hrt Hcr). lia.
  - intros rt n c Hrt Hch. destruct (Hplanned n c) as [Hp Hk].
    assert (Hget : BMap.get (n, c) routes0 <> None).
    { intros Hn. rewrite Hn in Hp. simpl in Hp. assert (Hin : In rt (control_routes_of (fr_routes fp) n c)); [|by rewrite Hp in Hin].
      apply List.filter_In. split; [by apply list_elem_of_In|]. unfold is_route_for. rewrite Hch. by apply bool_decide_eq_true. }
    pose proof (Hk Hget) as Hin. apply list_elem_of_fmap in Hin as (e & -> & Hin).
    destruct (Hchildren e Hin) as (child & cs & Hg & Hok). destruct (Hkeep _ _ Hg) as (child' & Hg' & _ & Hr). exists child'. split; [done|].
    rewrite Hr, (ok_planned _ _ _ _ _ _ _ _ _ Hok). done.
Qed.

(** ** Examples *)

Module ControlExample.
Definition leaf : Task := simple_task Lower [plain_port Scalar "n" "int" 32; plain_port Mmap "p" "float*" 32] [] [].
Definition inst : TaskInstance := mkInstance None [("n", arg_named "n" Scalar); ("p", arg_named "a" Mmap)] 0.
Definition ticker : TaskInstance := mkInstance (Some "tick") [("n", arg_named "n" Scalar); ("p", arg_named "b" Mmap)] (-1).
Definition top_def : Task := simple_task Upper [plain_port Scalar "n" "int" 32] [("leaf", [inst; ticker])] [].
Definition graph : TaskGraph := mkGraph 3 "top" XilinxVitis [] [("leaf", leaf); ("top", top_def)].
Definition route (n : string) (c : ControlChannel) (path regs : list string) : PipelineRoute := mkPipelineRoute (RControl n c) path Single regs.

(** [leaf_0] is in the slot of the global controller, [tick] in another. *)
Definition fp : FloorplanResult := mkResult "u280" (1, 2)
  [("__tapa_global_controller", "SLOT_X0Y0"); ("__tapa_local_controller_leaf_0", "SLOT_X0Y0"); ("__tapa_local_controller_tick", "SLOT_X0Y1");
   ("leaf_0", "SLOT_X0Y0"); ("tick", "SLOT_X0Y1")]
  [route "tick" Launch ["SLOT_X0Y0"; "SLOT_X0Y1"] ["SLOT_X0Y1"]; mkPipelineRoute (RStream "q") ["SLOT_X0Y0"; "SLOT_X0Y1"] Single [];
   route "tick" Reset ["SLOT_X0Y0"; "SLOT_X0Y1"] ["SLOT_X0Y1"]] [].
Definition empty_module : MutableModule := mkMutable (mkModule "top" [] [] [] "") "" "" [] [] [].
Definition state : TopologyWithRtl := mkTopology graph None (Some fp) [("top", empty_module)] [] [] [].
End ControlExample.

Lemma control_plan_follows_floorplan_witness : exists plan child,
  control_plan_from_floorplan ControlExample.state "top" [] = Ok (Some plan) /\ BMap.get "tick" (plan_children plan) = Some child /\ cp_reset child <> None.
Proof.
  assert (H : exists plan, control_plan_from_floorplan ControlExample.state "top" [] = Ok (Some plan)) by (eexists; vm_compute; reflexivity).
  destruct H as [plan H]. destruct (control_plan_follows_floorplan _ ControlExample.fp _ _ _ H eq_refl) as (task & region & slot & _ & _ & _ & _ & Hroutes).
  destruct (Hroutes (ControlExample.route "tick" Reset ["SLOT_X0Y0"; "SLOT_X0Y1"] ["SLOT_X0Y1"]) "tick" Reset) as (child & Hg & Hr);
    [right; right; left|reflexivity|]. exists plan, child. split; [exact H|]. split; [exact Hg|exact Hr].
Defined.

Lemma launch_bundle_delivers_witness :
  let child := mkChildPlan None false false 98 [mkField "leaf_0__n" (Ident "n") 32 2; mkField "leaf_0__p_offset" (Ident "a_offset") 64 34] None None None in
  let wd n := if bool_decide (n = "n") then 32 else if bool_decide (n = "a_offset") then 64 else 1 in
  let rho n := if bool_decide (n = "n") then 7 else if bool_decide (n = "a_offset") then 4096 else 1 in
  exists bundle, eval wd rho (launch_bundle child) = Some (98, bundle).
Proof.
  intros child wd rho.
  destruct (launch_bundle_delivers ControlExample.state "leaf" "leaf_0" [] (inst_args ControlExample.inst) child ltac:(vm_compute; reflexivity)
    wd rho [7; 4096] ltac:(reflexivity) ltac:(vm_compute; by split) ltac:(reflexivity) ltac:(vm_compute; by split)) as (bundle & Hb & _);
    [repeat constructor; vm_compute; congruence|]. exists bundle. exact Hb.
Defined.
