(* ===== verification/Children.v ===== *)
(** * The children of a task

    [tapa-codegen/src/passes/children/instance.rs] and [signals.rs]: the wiring of
    each child instance of an upper task, its part of the task's FSM module or of
    the distributed control, its memory bindings and its bridges. *)

From S2P Require Import Prelude RustStd BTreeMap Geometry Names Ir Flatten FloorGraph Pipeline Plan Protocol Rtl Control VerilogSem ControlProps Topology AsyncMmap Mmap MAxi AxiPipeline DistributedControl.

Local Open Scope Z_scope.

Section children.
Context `{UnicodeTables}.

(** ** Memory bindings ([ChildMmapBinding]) *)

Definition mmap_wire_prefix (arg_name : string) (slave_index : option nat) : string :=
  let sanitized_arg := sanitize_array_name arg_name in
  match slave_index with
  | Some slave_idx => crossbar_slave_prefix sanitized_arg slave_idx
  | None => M_AXI_PREFIX +:+ sanitized_arg
  end.

Definition upstream_wire_prefix (b : ChildMmapBinding) (arg_name : string) : string :=
  mmap_wire_prefix arg_name (match b with Crossbar slave_index _ _ => Some slave_index | _ => None end).

Definition binding_wire_prefix (b : ChildMmapBinding) (arg_name : string) : string :=
  match b with Pipelined wire_prefix => wire_prefix | _ => upstream_wire_prefix b arg_name end.

Definition id_widths (b : ChildMmapBinding) : option (Z * Z) :=
  match b with Crossbar _ wire_id_width child_id_width => Some (wire_id_width, child_id_width) | _ => None end.

(** ** Names of stream and memory ports *)

(** [name.find('[')] and the first [']'] after it. *)
Definition array_name_parts (name : string) : option (string * string * string) :=
  let? (base, rest) := Str.split_once "[" name in
  let? (idx, tail) := Str.split_once "]" rest in
  Some (base, idx, tail).

Definition resolve_peek_port_name (m : VerilogModule) (name suffix : string) : option string :=
  match array_name_parts name with
  | Some (base, idx, tail) => let? p := rtl_find_port m (base +:+ "_peek_" +:+ idx +:+ tail +:+ suffix) in Some (rp_name p)
  | None => let? p := get_port_of m name ("_peek" +:+ suffix) in Some (rp_name p)
  end.

Definition resolve_stream_port (m : option VerilogModule) (name suffix : string) : string :=
  match (let? m := m in get_port_of m name suffix) with
  | Some p => rp_name p
  | None => stream_port_name (sanitize_array_name name) suffix
  end.

Definition direct_mmap_offset_port (child_rtl : option VerilogModule) (child_port : string) : string :=
  let conventional := child_port +:+ "_offset" in
  match child_rtl with
  | Some m => if negb (has_port m conventional) && has_port m (child_port +:+ "_r") then child_port +:+ "_r" else conventional
  | None => conventional
  end.

Definition direct_mmap_connection_expr (wire_name suffix : string) (widths : option (Z * Z)) : Expr :=
  match widths with
  | None => Ident wire_name
  | Some (target_width, child_width) =>
      if negb (is_id_suffix suffix) || (target_width <=? 1) || (target_width <=? child_width) then Ident wire_name
      else Range (Ident wire_name) (expr_int (wrap32 (child_width - 1))) (expr_int 0)
  end.

(** [filter.is_none_or(|module| module has the port)]. *)
Definition declares (filter : option VerilogModule) (port : string) : bool :=
  match filter with None => true | Some m => has_port m port end.

Definition direct_mmap_portargs (child_port offset_sig wire_prefix : string) (widths : option (Z * Z)) (filter child_rtl : option VerilogModule) : list PortArg :=
  let offset_port := direct_mmap_offset_port child_rtl child_port in
  (if declares filter offset_port then [mkPortArg offset_port (Ident offset_sig)] else [])
  ++ flat_map (fun suffix =>
       let child_axi_port := "m_axi_" +:+ child_port +:+ suffix in
       if declares filter child_axi_port
       then [mkPortArg child_axi_port (direct_mmap_connection_expr (wire_prefix +:+ suffix) suffix widths)] else []) m_axi_compact_suffixes.

(** ** The instance of a child *)

Section instance.
Context (instance_name : string) (bindings : bmap string ChildMmapBinding) (parent_fifos : list string) (parent_rtl child_rtl : option VerilogModule).

Definition stream_signal (name suffix : string) : string :=
  if str_in name parent_fifos then sanitize_array_name name +:+ suffix else resolve_stream_port parent_rtl name suffix.

Definition peek_signal (name suffix : string) : string :=
  if str_in name parent_fifos then sanitize_array_name name +:+ suffix
  else default (stream_peek_port_name (sanitize_array_name name) suffix) (let? m := parent_rtl in resolve_peek_port_name m name suffix).

Definition child_peek_port (name suffix : string) : option string := let? m := child_rtl in resolve_peek_port_name m name suffix.

Definition istream_portargs (child_port parent : string) : list PortArg :=
  flat_map (fun suffix =>
    mkPortArg (resolve_stream_port child_rtl child_port suffix) (Ident (stream_signal parent suffix)) ::
    (if str_in suffix ["_dout"; "_empty_n"] then
       match child_peek_port child_port suffix with
       | Some peek_port => [mkPortArg peek_port (Ident (peek_signal parent suffix))]
       | None => []
       end
     else [])) ISTREAM_SUFFIXES.

Definition ostream_portargs (child_port parent : string) : list PortArg :=
  map (fun suffix => mkPortArg (resolve_stream_port child_rtl child_port suffix) (Ident (stream_signal parent suffix))) OSTREAM_SUFFIXES
  ++ match child_peek_port child_port "" with Some peek_port => [mkPortArg peek_port (Lit "'d0")] | None => [] end.

Definition mmap_portargs (async : bool) (child_port parent : string) : list PortArg :=
  let offset_sig := instance_name +:+ "__" +:+ child_port +:+ "_offset" in
  let binding := child_binding bindings parent in
  let prefix := binding_wire_prefix binding parent in
  if async then
    match child_rtl with
    | Some m =>
        if has_direct_m_axi_ports m child_port then
          let has_offset := has_port m (direct_mmap_offset_port child_rtl child_port) in
          direct_mmap_portargs child_port offset_sig prefix (id_widths binding) (if has_offset then None else Some m) child_rtl
        else child_portargs m child_port (bridge_base_from_m_axi_prefix prefix) offset_sig
    | None => []
    end
  else direct_mmap_portargs child_port offset_sig prefix (id_widths binding) None child_rtl.

Definition arg_portargs (x : string * Arg) : list PortArg :=
  let '(child_port, a) := x in
  if is_scalar (cat a) then [mkPortArg child_port (Ident (instance_name +:+ "__" +:+ child_port))]
  else
    match arg_name a with
    | None => []
    | Some parent =>
        match cat a with
        | Scalar => []
        | Istream | Istreams => istream_portargs child_port parent
        | Ostream | Ostreams => ostream_portargs child_port parent
        | Mmap => mmap_portargs false child_port parent
        | AsyncMmap => mmap_portargs true child_port parent
        | Immap | Ommap => [mkPortArg (sanitize_array_name child_port) (Ident (sanitize_array_name parent))]
        end
    end.

Definition build_child_instance_with_reset (child_task_name : string) (s : InstanceSignals) (args : bmap string Arg) (reset_n : Expr) : ModuleInstance :=
  mkInst child_task_name instance_name []
    ([mkPortArg HANDSHAKE_CLK (Ident HANDSHAKE_CLK); mkPortArg HANDSHAKE_RST_N reset_n] ++ instance_portargs s ++ flat_map arg_portargs args).
End instance.

(** ** Staging *)

(** The tables a stage changes, and what it accumulates. *)
Record ChildStage := mkStage {
  st_modules : bmap string MutableModule;
  st_fsms : bmap string MutableModule;
  st_is_done : list string;
  st_fsm_portargs : list PortArg;
}.

Definition map_modules (f : bmap string MutableModule -> bmap string MutableModule) (s : ChildStage) : ChildStage :=
  mkStage (f (st_modules s)) (st_fsms s) (st_is_done s) (st_fsm_portargs s).
Definition map_fsms (f : bmap string MutableModule -> bmap string MutableModule) (s : ChildStage) : ChildStage :=
  mkStage (st_modules s) (f (st_fsms s)) (st_is_done s) (st_fsm_portargs s).
Definition push_portargs (l : list PortArg) (s : ChildStage) : ChildStage :=
  mkStage (st_modules s) (st_fsms s) (st_is_done s) (st_fsm_portargs s ++ l).
Definition push_is_done (n : string) (s : ChildStage) : ChildStage :=
  mkStage (st_modules s) (st_fsms s) (st_is_done s ++ [n]) (st_fsm_portargs s).

(** [ChildInstance]. *)
Record ChildInstance := mkChild {
  ci_child : string;
  ci_logical : string;
  ci_sig : InstanceSignals;
  ci_args : bmap string Arg;
  ci_rtl : option VerilogModule;
}.
Definition ci_name (i : ChildInstance) : string := is_instance (ci_sig i).
Definition ci_autorun (i : ChildInstance) : bool := is_autorun (ci_sig i).

Definition child_instance_new (child_name : string) (idx : nat) (inst : TaskInstance) (child_rtl : option VerilogModule) : res CodegenError ChildInstance :=
  let logical := match inst_name inst with Some n => n | None => child_name +:+ "_" +:+ Str.show (Z.of_nat idx) end in
  let! s := instance_signals_new (sanitize_identifier_name logical) (inst_step inst <? 0) in
  Ok (mkChild child_name logical s (inst_args inst) child_rtl).

(** [(parent_arg, child_task, inst_idx) -> slave_idx]. *)
Definition SlaveMap : Type := bmap (string * string * nat) nat.

Section stage.
Context (design : TaskGraph) (task_name : string) (task : Task).
Context (conns : bmap string MMapConnection) (slave_map : SlaveMap) (axi_plan : option DirectAxiPipelinePlan) (control_plan : option DistributedControlPlan).

Definition distributed : bool := match control_plan with Some _ => true | None => false end.

Definition declare_parent_handshake_wires (i : ChildInstance) (s : ChildStage) : ChildStage :=
  let g := ci_sig i in
  let signals :=
    if distributed then wire (start_name g) :: (if ci_autorun i then [] else map wire [done_name g; idle_name g; ready_name g; is_done_name g])
    else if ci_autorun i then [wire (start_name g)] else all_signals g in
  map_modules (with_module task_name (fun m => fold_left try_add_signal signals m)) s.

Definition fsm_handshake (g : InstanceSignals) : list RtlPort :=
  fsm_ports g ++ (if is_autorun g then [] else [simple_port (is_done_name g) Output]).

Definition register_fsm_handshake_ports (i : ChildInstance) (s : ChildStage) : ChildStage :=
  let g := ci_sig i in
  let s := if distributed then s
    else push_portargs (map (fun p => mkPortArg (rp_name p) (Ident (rp_name p))) (fsm_handshake g))
           (map_fsms (with_module task_name (fun m => fold_left try_add_port (fsm_handshake g) m)) s) in
  if ci_autorun i then s else push_is_done (is_done_name g) s.

Definition stage_fsm_control_logic (i : ChildInstance) (s : ChildStage) : ChildStage :=
  if distributed then s else map_fsms (with_module task_name (add_fsm_control_logic (ci_sig i))) s.

(** *** The pipeline of a scalar or offset argument through the FSM module *)

Definition resolve_child_scalar_width (modules : bmap string MutableModule) (child_name port : string) : option (string * string) :=
  match (let? m := BMap.get child_name modules in rtl_find_port (inner m) port) with
  | Some p => let? w := rp_width p in Some (expression_source (msb w), expression_source (lsb w))
  | None =>
      let? t := BMap.get child_name (graph_tasks design) in
      let? p := find_first (fun p => bool_decide (port_name p = port) && is_scalar (port_cat p)) (ports t) in
      if 1 <? port_width p then Some (Str.show (port_width p - 1), "0") else None
  end.

Definition pipeline_wire_names (inst_name port : string) (is_mmap : bool) : string * string :=
  if is_mmap then (inst_name +:+ "__" +:+ port +:+ "_offset", inst_name +:+ "__" +:+ port +:+ "_offset_in")
  else (inst_name +:+ "__" +:+ port, inst_name +:+ "__" +:+ port +:+ "_in").

Definition add_pipeline_stage (pipeline_out fsm_in : string) (width : option (string * string)) (s : ChildStage) : ChildStage :=
  let port name dir := match width with Some (m, l) => wide_port name dir m l | None => simple_port name dir end in
  let reg_name := pipeline_out +:+ "_reg" in
  let s := map_modules (with_module task_name (fun m =>
    try_add_signal m (match width with Some (h, l) => wide_wire pipeline_out h l | None => wire pipeline_out end))) s in
  map_fsms (with_module task_name (fun m =>
    let m := try_add_port m (port fsm_in Input) in
    let m := try_add_port m (port pipeline_out Output) in
    let m := try_add_signal m (match width with Some (h, l) => wide_reg reg_name h l | None => reg reg_name end) in
    let m := add_always m (mkAlways HANDSHAKE_CLK [NonblockingAssign (Ident reg_name) (Ident fsm_in)]) in
    add_assign m (mkAssign (Ident pipeline_out) (Ident reg_name)))) s.

Definition pipeline_arg (i : ChildInstance) (s : ChildStage) (x : string * Arg) : ChildStage :=
  let '(port, a) := x in
  let is_mmap := is_direct_mmap (cat a) in
  if negb (is_scalar (cat a)) && negb is_mmap then s
  else
    let width := if is_scalar (cat a) then resolve_child_scalar_width (st_modules s) (ci_child i) port else Some ("63", "0") in
    let '(pipeline_out, fsm_in) := pipeline_wire_names (ci_name i) port is_mmap in
    let s := add_pipeline_stage pipeline_out fsm_in width s in
    let push driver := push_portargs [mkPortArg fsm_in driver; mkPortArg pipeline_out (Ident pipeline_out)] s in
    if is_mmap then match arg_name a with Some parent => push (mmap_offset_source parent conns) | None => s end
    else push (scalar_driver (arg a)).

Definition pipeline_instance_signals (i : ChildInstance) (s : ChildStage) : ChildStage := fold_left (pipeline_arg i) (ci_args i) s.

Definition apply_control_plan_or_pipelines (i : ChildInstance) (s : ChildStage) : res CodegenError ChildStage :=
  match control_plan with
  | Some plan =>
      let! modules := instantiate_child plan (st_modules s) task_name (ci_logical i) (ci_sig i) in
      Ok (map_modules (fun _ => modules) s)
  | None => Ok (pipeline_instance_signals i s)
  end.

(** *** Memory arguments *)

Definition bind_mmap (i : ChildInstance) (idx : nat) (child_port parent : string) : res CodegenError ChildMmapBinding :=
  match (let? plan := axi_plan in child_wire_prefix plan (mkAxiEndpoint (ci_logical i) child_port parent)) with
  | Some prefix => Ok (Pipelined prefix)
  | None =>
      match BMap.get (parent, ci_child i, idx) slave_map with
      | Some slave_index =>
          let! c := index conns parent in
          let! slave := expect (mc_slaves c !! slave_index) in
          Ok (Crossbar slave_index (crossbar_slave_id_width c) (ms_id_width slave))
      | None => Ok Direct
      end
  end.

Definition add_mmap_binding (i : ChildInstance) (idx : nat) (bindings : bmap string ChildMmapBinding) (x : string * Arg) :
    res CodegenError (bmap string ChildMmapBinding) :=
  if negb (is_direct_mmap (cat x.2)) then Ok bindings
  else match arg_name x.2 with
    | None => Ok bindings
    | Some parent => let! b := bind_mmap i idx x.1 parent in Ok (BMap.insert parent b bindings)
    end.

Definition build_mmap_bindings (i : ChildInstance) (idx : nat) : res CodegenError (bmap string ChildMmapBinding) :=
  try_fold (add_mmap_binding i idx) BMap.empty (ci_args i).

Definition instance_reset_exprs (distributed_control : bool) (logical : string) : Expr * Expr :=
  let reset_n := if distributed_control then Ident (child_reset_name logical) else Ident HANDSHAKE_RST_N in
  (reset_n, if distributed_control then Not reset_n else Ident HANDSHAKE_RST).

Definition is_crossbar (b : ChildMmapBinding) : bool := match b with Crossbar _ _ _ => true | _ => false end.

Definition add_bridge `{RtlLibraries} (i : ChildInstance) (child_rtl : VerilogModule) (bindings : bmap string ChildMmapBinding) (bridge_reset : Expr)
    (s : ChildStage) (x : string * Arg) : ChildStage :=
  let '(child_port, a) := x in
  if negb (bool_decide (cat a = AsyncMmap)) then s
  else match arg_name a with
    | None => s
    | Some parent =>
        let active := active_tags child_rtl child_port in
        if Nat.eqb (length active) 0 then s
        else
          let enabled := enabled_axi_directions child_rtl child_port active in
          let binding := child_binding bindings parent in
          let prefix := binding_wire_prefix binding parent in
          let upstream := upstream_wire_prefix binding parent in
          let bridge_base := bridge_base_from_m_axi_prefix prefix in
          let data_width := match BMap.get parent conns with Some c => geo_data_width (mc_geometry c) | None => 64 end in
          map_modules (with_module task_name (fun m =>
            add_instance (add_bridge_signals m bridge_base active data_width)
              (build_bridge_instance bridge_base (async_mmap_bridge_instance_name parent) prefix upstream active enabled data_width (negb (is_crossbar binding)) bridge_reset))) s
    end.

Definition add_async_mmap_bridges `{RtlLibraries} (i : ChildInstance) (bindings : bmap string ChildMmapBinding) (bridge_reset : Expr) (s : ChildStage) : ChildStage :=
  match ci_rtl i with None => s | Some child_rtl => fold_left (add_bridge i child_rtl bindings bridge_reset) (ci_args i) s end.

Definition add_child_instance (i : ChildInstance) (bindings : bmap string ChildMmapBinding) (reset_n : Expr) (s : ChildStage) : ChildStage :=
  let parent_rtl := option_map inner (BMap.get task_name (st_modules s)) in
  let inst := build_child_instance_with_reset (ci_name i) bindings (BMap.keys (fifos task)) parent_rtl (ci_rtl i) (ci_child i) (ci_sig i) (ci_args i) reset_n in
  let s := map_modules (with_module task_name (fun m => add_instance m inst)) s in
  match ci_rtl i with
  | Some _ => map_modules (fun modules => add_crossbar_slave_id_padding modules task_name (ci_args i) bindings) s
  | None => s
  end.

Definition wire_child_instance `{RtlLibraries} (i : ChildInstance) (idx : nat) (s : ChildStage) : res CodegenError ChildStage :=
  let s := declare_parent_handshake_wires i s in
  let s := register_fsm_handshake_ports i s in
  let s := stage_fsm_control_logic i s in
  let! s := apply_control_plan_or_pipelines i s in
  let! bindings := build_mmap_bindings i idx in
  let '(reset_n, bridge_reset) := instance_reset_exprs distributed (ci_logical i) in
  Ok (add_child_instance i bindings reset_n (add_async_mmap_bridges i bindings bridge_reset s)).

Definition instantiate_fsm_module (s : ChildStage) : ChildStage :=
  if distributed then s
  else
    let ports := map (fun n => mkPortArg n (Ident n)) [HANDSHAKE_CLK; HANDSHAKE_RST_N; HANDSHAKE_START; HANDSHAKE_DONE; HANDSHAKE_IDLE; HANDSHAKE_READY] in
    map_modules (with_module task_name (fun m => add_instance m (mkInst (task_name +:+ "_fsm") "__tapa_fsm_unit" [] (ports ++ st_fsm_portargs s)))) s.

Definition wire_definition `{RtlLibraries} (s : ChildStage) (x : string * list TaskInstance) : res CodegenError ChildStage :=
  let '(child_name, insts) := x in
  let child_rtl := option_map inner (BMap.get child_name (st_modules s)) in
  try_fold (fun s y => let '(idx, inst) := y in
    let! i := child_instance_new child_name idx inst child_rtl in
    wire_child_instance i idx s) s (enumerate insts).

(** The stage, and the completion nets it returns. *)
Definition generate_child_signals `{RtlLibraries} (modules fsms : bmap string MutableModule) : res CodegenError ChildStage :=
  let! s := try_fold wire_definition (mkStage modules fsms [] []) (tasks task) in
  Ok (instantiate_fsm_module s).
End stage.
End children.

(** * The control of the generated FSM module

    What the child stage and the control stage put into the FSM module of a task,
    argument pipelines included, is the control of its instances: a task that
    starts completes. *)

(** ** Blocks that leave the control registers alone *)

Definition is_pipe (b : AlwaysBlock) : Prop := forall n, n ∈ block_targets b -> exists x, n = x +:+ "_reg".

Lemma control_reg_not_pipe g x : control_reg g <> x +:+ "_reg".
Proof.
  unfold control_reg, start_name, state_name. destruct (is_autorun g); intros E; apply (f_equal last_char) in E; rewrite !last_char_app in E; discriminate.
Qed.

Lemma global_not_pipe x : GLOBAL_STATE <> x +:+ "_reg".
Proof. intros E. apply (f_equal last_char) in E. rewrite last_char_app in E. discriminate. Qed.

Lemma pipe_registers bs n : Forall is_pipe bs -> n ∈ registers bs -> exists x, n = x +:+ "_reg".
Proof.
  unfold registers. induction 1 as [|b bs Hb _ IH]; simpl; [by intros ?%not_elem_of_nil|]. intros [H|H]%elem_of_app; [by apply Hb|by apply IH].
Qed.

(** The control blocks of the instances in order, with pipelines in between. *)
Inductive shaped : list InstanceSignals -> list AlwaysBlock -> Prop :=
| shaped_nil : shaped [] []
| shaped_snoc sigs bs g ps : shaped sigs bs -> Forall is_pipe ps -> shaped (sigs ++ [g]) (bs ++ control_block g :: ps).

Lemma registers_cons b bs n : n ∈ registers (b :: bs) <-> n ∈ block_targets b \/ n ∈ registers bs.
Proof. unfold registers. simpl. apply elem_of_app. Qed.

Lemma shaped_registers sigs bs n : shaped sigs bs -> n ∈ registers bs -> (exists s, s ∈ sigs /\ n = control_reg s) \/ exists x, n = x +:+ "_reg".
Proof.
  induction 1 as [|sigs bs g ps _ IH Hp]; [by intros ?%not_elem_of_nil|]. rewrite registers_app, registers_cons, control_block_targets.
  intros [H|[->|H]].
  - destruct (IH H) as [(s & Hs & ->)|Hx]; [|by right]. left. exists s. split; [|done]. apply elem_of_app. by left.
  - left. exists g. split; [|done]. apply elem_of_app. right. by apply list_elem_of_singleton.
  - right. by eapply pipe_registers.
Qed.

Lemma shaped_sole sigs bs s : shaped sigs bs -> NoDup (map is_instance sigs) -> s ∈ sigs -> sole_writer bs (control_block s) (control_reg s).
Proof.
  induction 1 as [|sigs bs g ps Hs IH Hp]; [by intros _ ?%not_elem_of_nil|]. rewrite map_app. intros (Hnd & Hd & _)%NoDup_app Hin.
  assert (Hne : forall s', s' ∈ sigs -> control_reg s' <> control_reg g).
  { intros s' Hs' E%control_reg_inj. apply (Hd (is_instance s')); [by apply list_elem_of_fmap_2|]. rewrite E. by apply list_elem_of_singleton. }
  apply elem_of_app in Hin as [Hin|Hin%list_elem_of_singleton].
  - destruct (IH Hnd Hin) as (b1 & b2 & -> & H1 & H2). exists b1, (b2 ++ control_block g :: ps). split; [by rewrite <- app_assoc|]. split; [done|].
    rewrite registers_app, registers_cons, control_block_targets. intros [?|[E|H]]; [done|by apply (Hne s)|].
    destruct (pipe_registers _ _ Hp H) as [x E]. by apply control_reg_not_pipe in E.
  - subst s. exists bs, ps. split; [done|]. split; intros H.
    + destruct (shaped_registers _ _ _ Hs H) as [(s & Hin & E)|[x E]]; [by apply (Hne s Hin)|by apply control_reg_not_pipe in E].
    + destruct (pipe_registers _ _ Hp H) as [x E]. by apply control_reg_not_pipe in E.
Qed.

Lemma shaped_pipes sigs bs ps : shaped sigs bs -> sigs <> [] -> Forall is_pipe ps -> shaped sigs (bs ++ ps).
Proof.
  intros Hs Hne Hp. destruct Hs as [|sigs bs g qs Hs Hq]; [done|]. rewrite <- app_assoc. simpl. constructor; [done|]. by apply Forall_app.
Qed.

(** The FSM module with the global FSM has the control of its instances. *)
Lemma shaped_has_control sigs m : shaped sigs (added_always m) -> NoDup (map is_instance sigs) ->
  (forall g a, g ∈ sigs -> a ∈ child_assigns g -> a ∈ added_assigns m) ->
  has_control sigs (added_assigns (apply_global_fsm m (is_done_signals sigs))) (added_always (apply_global_fsm m (is_done_signals sigs))).
Proof.
  intros Hs Hnd Ha. destruct (apply_global_fsm_body m (is_done_signals sigs)) as [-> ->]. split.
  - intros s Hin. destruct (shaped_sole _ _ _ Hs Hnd Hin) as (b1 & b2 & -> & H1 & H2). exists b1, (b2 ++ [global_fsm_block (is_done_signals sigs)]).
    split; [by rewrite <- app_assoc|]. split; [done|]. rewrite registers_app, registers_cons, global_block_targets. intros [?|[E|H]]; [done|by apply control_reg_global in E|by apply not_elem_of_nil in H].
  - exists (added_always m), []. split; [done|]. split; [|apply not_elem_of_nil]. intros H. destruct (shaped_registers _ _ _ Hs H) as [(s & _ & E)|[x E]]; [by apply (control_reg_global s)|by apply global_not_pipe in E].
  - intros a [Hg|(s & Hin & Hc)]; apply elem_of_app; [by right|left]. by apply (Ha s).
Qed.

(** ** What a stage adds to the FSM module of its task *)

Lemma get_with_module k f (t : bmap string MutableModule) : BMap.get k (with_module k f t) = option_map f (BMap.get k t).
Proof. unfold with_module. destruct (BMap.get k t) eqn:E; [by rewrite BMap.get_insert_eq|by rewrite E]. Qed.

Lemma try_add_ports_body m l :
  added_assigns (fold_left try_add_port l m) = added_assigns m /\ added_always (fold_left try_add_port l m) = added_always m.
Proof. revert m. induction l as [|p l IH]; simpl; intros m; [done|]. destruct (IH (try_add_port m p)) as [-> ->]. apply try_add_port_body. Qed.

Section stage.
Context `{UnicodeTables} `{RtlLibraries}.
Context (design : TaskGraph) (task_name : string) (task : Task) (conns : bmap string MMapConnection) (slave_map : SlaveMap) (axi_plan : option DirectAxiPipelinePlan).

(** The module of the task's FSM gains assignments and blocks; nothing else of it
    that matters here changes, nor the completion nets. *)
Definition gains (s s' : ChildStage) (l : list ContinuousAssign) (bs : list AlwaysBlock) : Prop :=
  forall m, BMap.get task_name (st_fsms s) = Some m -> exists m', BMap.get task_name (st_fsms s') = Some m' /\
    added_assigns m' = added_assigns m ++ l /\ added_always m' = added_always m ++ bs.

Lemma gains_trans s1 s2 s3 l1 l2 b1 b2 : gains s1 s2 l1 b1 -> gains s2 s3 l2 b2 -> gains s1 s3 (l1 ++ l2) (b1 ++ b2).
Proof using Type.
  intros H12 H23 m Hm. destruct (H12 m Hm) as (m2 & Hm2 & E1 & E2). destruct (H23 m2 Hm2) as (m3 & Hm3 & E3 & E4).
  exists m3. split; [done|]. by rewrite E3, E4, E1, E2, <- !app_assoc.
Qed.

Lemma gains_same s s' : st_fsms s' = st_fsms s -> gains s s' [] [].
Proof using Type. intros E m Hm. exists m. rewrite E. split; [done|]. by rewrite !List.app_nil_r. Qed.

Lemma gains_fsms s f l bs : (forall m, added_assigns (f m) = added_assigns m ++ l /\ added_always (f m) = added_always m ++ bs) ->
  gains s (map_fsms (with_module task_name f) s) l bs.
Proof using Type. intros Hf m Hm. exists (f m). simpl. rewrite get_with_module, Hm. split; [done|]. apply Hf. Qed.

Definition pipe_block (out fsm_in : string) : AlwaysBlock := mkAlways HANDSHAKE_CLK [NonblockingAssign (Ident (out +:+ "_reg")) (Ident fsm_in)].

Lemma pipe_block_is_pipe out fsm_in : is_pipe (pipe_block out fsm_in).
Proof using Type. intros n Hn. exists out. unfold pipe_block, block_targets in Hn. simpl in Hn. by apply list_elem_of_singleton in Hn. Qed.

Lemma add_pipeline_stage_gains out fsm_in w s : gains s (add_pipeline_stage task_name out fsm_in w s) [mkAssign (Ident out) (Ident (out +:+ "_reg"))] [pipe_block out fsm_in].
Proof using Type.
  unfold add_pipeline_stage. intros m Hm. cbn [map_fsms map_modules st_fsms]. rewrite get_with_module, Hm. eexists. split; [reflexivity|].
  cbn [added_assigns added_always add_assign add_always]. destruct w as [[h l]|];
    rewrite (proj1 (try_add_signal_body _ _)), (proj2 (try_add_signal_body _ _)), !(proj1 (try_add_port_body _ _)), !(proj2 (try_add_port_body _ _)); done.
Qed.

Lemma pipeline_arg_gains i s x : exists l bs, gains s (pipeline_arg design task_name conns i s x) l bs /\ Forall is_pipe bs /\
  st_is_done (pipeline_arg design task_name conns i s x) = st_is_done s.
Proof using Type.
  destruct x as [port a]. unfold pipeline_arg. destruct (_ && _); [exists [], []; split; [by apply gains_same|by split]|].
  destruct (pipeline_wire_names _ _ _) as [out fsm_in]. set (w := if is_scalar (cat a) then _ else _).
  exists [mkAssign (Ident out) (Ident (out +:+ "_reg"))], [pipe_block out fsm_in].
  assert (Hg := add_pipeline_stage_gains out fsm_in w s).
  split; [|split; [repeat constructor; apply pipe_block_is_pipe|by repeat case_match]].
  repeat case_match; exact Hg.
Qed.

Lemma pipelines_gain i s : exists l bs, gains s (pipeline_instance_signals design task_name conns i s) l bs /\ Forall is_pipe bs /\
  st_is_done (pipeline_instance_signals design task_name conns i s) = st_is_done s.
Proof using Type.
  unfold pipeline_instance_signals. generalize (ci_args i) as args. intros args. revert s. induction args as [|x args IH]; intros s; simpl.
  - exists [], []. split; [by apply gains_same|by split].
  - destruct (pipeline_arg_gains i s x) as (l1 & b1 & Hg1 & Hp1 & E1). destruct (IH (pipeline_arg design task_name conns i s x)) as (l2 & b2 & Hg2 & Hp2 & E2).
    exists (l1 ++ l2), (b1 ++ b2). split; [by eapply gains_trans|]. split; [by apply Forall_app|congruence].
Qed.

Lemma wire_child_gains i idx s s' : wire_child_instance design task_name task conns slave_map axi_plan None i idx s = Ok s' ->
  exists l bs, gains s s' (child_assigns (ci_sig i) ++ l) (control_block (ci_sig i) :: bs) /\ Forall is_pipe bs /\
    st_is_done s' = st_is_done s ++ (if is_autorun (ci_sig i) then [] else [is_done_name (ci_sig i)]).
Proof using Type.
  unfold wire_child_instance. intros Hw. cbn [apply_control_plan_or_pipelines rbind] in Hw.
  set (s1 := declare_parent_handshake_wires task_name None i s) in *. set (s2 := register_fsm_handshake_ports task_name None i s1) in *.
  set (s3 := stage_fsm_control_logic task_name None i s2) in *. set (s4 := pipeline_instance_signals design task_name conns i s3) in *.
  apply rbind_ok in Hw as (bindings & _ & Hw). cbn [instance_reset_exprs distributed] in Hw.
  destruct (pipelines_gain i s3) as (l & bs & Hg4 & Hp & E4). fold s4 in Hg4, E4.
  assert (H1 : gains s s1 [] []) by by apply gains_same.
  assert (H2 : gains s1 s2 [] []).
  { assert (Hg : gains s1 (map_fsms (with_module task_name (fun m => fold_left try_add_port (fsm_handshake (ci_sig i)) m)) s1) [] []).
    { apply gains_fsms. intros m. destruct (try_add_ports_body m (fsm_handshake (ci_sig i))) as [-> ->]. by rewrite !List.app_nil_r. }
    unfold s2, register_fsm_handshake_ports. cbn [distributed]. destruct (ci_autorun i); exact Hg. }
  assert (H3 : gains s2 s3 (child_assigns (ci_sig i)) [control_block (ci_sig i)]) by (apply gains_fsms; intros m; apply add_fsm_control_logic_body).
  assert (H5 : st_fsms s' = st_fsms s4 /\ st_is_done s' = st_is_done s4).
  { injection Hw as <-. unfold add_child_instance, add_async_mmap_bridges. destruct (ci_rtl i) as [r|]; cbn [map_modules st_fsms st_is_done]; [|by split].
    generalize s4. induction (ci_args i) as [|x args IH]; intros t; [done|]. cbn [fold_left].
    destruct (IH (add_bridge task_name conns i r bindings (Ident HANDSHAKE_RST) t x)) as [-> ->]. unfold add_bridge. destruct x. by repeat case_match. }
  exists l, bs. split; [|split; [done|]].
  - pose proof (gains_trans _ _ _ _ _ _ _ H1 (gains_trans _ _ _ _ _ _ _ H2 (gains_trans _ _ _ _ _ _ _ H3 Hg4))) as Hall.
    intros m Hm. destruct H5 as [-> _]. exact (Hall m Hm).
  - destruct H5 as [_ ->]. rewrite E4. unfold s3, stage_fsm_control_logic. cbn [distributed map_fsms st_is_done].
    unfold s2, register_fsm_handshake_ports, ci_autorun. cbn [distributed]. destruct (is_autorun (ci_sig i)); simpl; [by rewrite List.app_nil_r|done].
Qed.

(** *** The loop over the instances *)

Definition sig_of (x : string * nat * TaskInstance) : InstanceSignals :=
  mkSig (sanitize_identifier_name (canonical_name x.2 x.1.1 x.1.2)) (inst_step x.2 <? 0).

Definition staged (sigs : list InstanceSignals) (s : ChildStage) : Prop :=
  st_is_done s = is_done_signals sigs /\ exists m, BMap.get task_name (st_fsms s) = Some m /\ shaped sigs (added_always m) /\
    forall g a, g ∈ sigs -> a ∈ child_assigns g -> a ∈ added_assigns m.

Lemma is_done_snoc sigs g : is_done_signals (sigs ++ [g]) = is_done_signals sigs ++ (if is_autorun g then [] else [is_done_name g]).
Proof using Type. unfold is_done_signals. rewrite List.filter_app, map_app. simpl. by destruct (is_autorun g). Qed.

Lemma wire_child_staged sigs i idx s s' : staged sigs s -> wire_child_instance design task_name task conns slave_map axi_plan None i idx s = Ok s' ->
  staged (sigs ++ [ci_sig i]) s'.
Proof using Type.
  intros [Hd (m & Hm & Hs & Ha)] Hw. destruct (wire_child_gains _ _ _ _ Hw) as (l & bs & Hg & Hp & Hd'). destruct (Hg m Hm) as (m' & Hm' & E1 & E2).
  split; [by rewrite is_done_snoc, Hd', Hd|]. exists m'. split; [done|]. split; [rewrite E2; by constructor|]. rewrite E1.
  intros g a [Hin|Hin%list_elem_of_singleton]%elem_of_app Hc; apply elem_of_app; [left; by eapply Ha|right; apply elem_of_app; left; by subst g].
Qed.

Lemma child_instance_sig name idx inst rtl i : child_instance_new name idx inst rtl = Ok i -> ci_sig i = sig_of (name, idx, inst).
Proof using Type.
  unfold child_instance_new. intros H1. apply rbind_ok in H1 as (g & Hg & [= <-]). unfold instance_signals_new in Hg. destruct (Str.is_empty _); [done|]. by injection Hg as <-.
Qed.

Lemma wire_definition_staged sigs s x s' : staged sigs s -> wire_definition design task_name task conns slave_map axi_plan None s x = Ok s' ->
  staged (sigs ++ map sig_of (map (fun '(idx, inst) => (x.1, idx, inst)) (enumerate x.2))) s'.
Proof using Type.
  destruct x as [name insts]. intros Hst Hw. unfold wire_definition in Hw. simpl.
  refine (try_fold_ind (fun l t => staged (sigs ++ map sig_of (map (fun '(idx, inst) => (name, idx, inst)) l)) t) _ _ _ _ _ _ Hw); [by rewrite List.app_nil_r|].
  intros l1 [idx inst] l2 t t' _ Ht Hw'. apply rbind_ok in Hw' as (i & Hi & Hw'). rewrite !map_app, app_assoc. simpl.
  rewrite <- (child_instance_sig _ _ _ _ _ Hi). by eapply wire_child_staged.
Qed.

Lemma generate_child_signals_staged modules fsms m0 s : BMap.get task_name fsms = Some m0 -> added_always m0 = [] ->
  generate_child_signals design task_name task conns slave_map axi_plan None modules fsms = Ok s -> staged (map sig_of (invocations task)) s.
Proof using Type.
  intros Hm0 Hempty Hgen. unfold generate_child_signals in Hgen. apply rbind_ok in Hgen as (s1 & Hf & [= <-]).
  assert (Hst : staged (map sig_of (invocations task)) s1).
  { refine (try_fold_ind (fun l t => staged (map sig_of (flat_map (fun '(child_name, insts) => map (fun '(index, inst) => (child_name, index, inst)) (enumerate insts)) l)) t) _ _ _ _ _ _ Hf).
    - split; [done|]. exists m0. split; [done|]. rewrite Hempty. split; [constructor|]. by intros g a Hg%not_elem_of_nil.
    - intros l1 [name insts] l2 t t' _ Ht Hw. rewrite flat_map_app, map_app. simpl. rewrite List.app_nil_r. by apply (wire_definition_staged _ t (name, insts) t'). }
  exact Hst.
Qed.
End stage.

(** What it is for an FSM module to run its children: in every behaviour of it, once
    reset is over, a start seen while the task is idle is answered by the task's
    done, provided each child instance that completes answers its own start; the
    first such done comes after every one of them has reported its own. *)
Definition runs_children (sigs : list InstanceSignals) (m : MutableModule) : Prop :=
  forall tr t0 t, module_behaviour m tr ->
    tr t0 HANDSHAKE_RST_N = 0 -> (forall u, (t0 < u)%nat -> tr u HANDSHAKE_RST_N <> 0) -> (t0 < t)%nat ->
    hi (tr t) HANDSHAKE_IDLE = true -> hi (tr t) HANDSHAKE_START = true ->
    (forall g, g ∈ completing sigs -> answers tr g t) ->
    exists v, (t < v)%nat /\ hi (tr v) HANDSHAKE_DONE = true /\ (forall w, (t < w < v)%nat -> hi (tr w) HANDSHAKE_DONE = false) /\
      forall g, g ∈ completing sigs -> exists w, (t < w < v)%nat /\ hi (tr w) (done_name g) = true.

(** The FSM module the child stage builds for an upper task without distributed
    control, with the global FSM the control stage adds. *)
Lemma generated_task_completes `{UnicodeTables} `{RtlLibraries} design task_name task conns slave_map axi_plan modules fsms m0 s :
  generate_child_signals design task_name task conns slave_map axi_plan None modules fsms = Ok s ->
  BMap.get task_name fsms = Some m0 -> added_always m0 = [] -> NoDup (map is_instance (map sig_of (invocations task))) ->
  exists m, BMap.get task_name (st_fsms s) = Some m /\ runs_children (map sig_of (invocations task)) (apply_global_fsm m (st_is_done s)).
Proof.
  intros Hgen Hm0 Hempty Hnd. destruct (generate_child_signals_staged _ _ _ _ _ _ _ _ _ _ Hm0 Hempty Hgen) as [Hd (m & Hm & Hs & Ha)].
  exists m. split; [done|]. intros tr t0 t Hb. rewrite Hd in Hb. intros.
  by apply (completes _ _ _ tr (shaped_has_control _ _ Hs Hnd Ha) Hb t0).
Qed.

(** ** Other tasks' FSM modules are left alone *)

Section others.
Context `{UnicodeTables} `{RtlLibraries}.
Context (design : TaskGraph) (task_name : string) (task : Task) (conns : bmap string MMapConnection) (slave_map : SlaveMap)
  (axi_plan : option DirectAxiPipelinePlan) (control_plan : option DistributedControlPlan).

Definition keeps_others (s s' : ChildStage) : Prop := forall k, k <> task_name -> BMap.get k (st_fsms s') = BMap.get k (st_fsms s).

#[local] Instance keeps_others_preorder : PreOrder keeps_others.
Proof using Type. split; [by intros s k|]. intros s1 s2 s3 H12 H23 k Hk. by rewrite H23, H12. Qed.

Lemma get_with_module_ne k name f (t : bmap string MutableModule) : k <> name -> BMap.get k (with_module name f t) = BMap.get k t.
Proof using Type. intros Hk. unfold with_module. destruct (BMap.get name t); [by apply BMap.get_insert_ne|done]. Qed.

Lemma keeps_same s s' : st_fsms s' = st_fsms s -> keeps_others s s'.
Proof using Type. intros E k _. by rewrite E. Qed.

Lemma keeps_fsms f s : keeps_others s (map_fsms (with_module task_name f) s).
Proof using Type. intros k Hk. by apply get_with_module_ne. Qed.

Lemma pipelines_keep i s : keeps_others s (pipeline_instance_signals design task_name conns i s).
Proof using Type.
  unfold pipeline_instance_signals. generalize (ci_args i) as args. intros args. revert s. induction args as [|[port a] args IH]; intros s; simpl; [reflexivity|].
  etransitivity; [|apply IH]. destruct (_ && _); [reflexivity|]. destruct (pipeline_wire_names _ _ _) as [out fsm_in].
  set (w := if is_scalar (cat a) then _ else _). set (s1 := add_pipeline_stage task_name out fsm_in w s).
  assert (H1 : keeps_others s s1) by (etransitivity; [|apply keeps_fsms]; by apply keeps_same). repeat case_match; exact H1.
Qed.

Lemma bridges_keep i bindings reset s : st_fsms (add_async_mmap_bridges task_name conns i bindings reset s) = st_fsms s.
Proof using Type.
  unfold add_async_mmap_bridges. destruct (ci_rtl i) as [r|]; [|done]. generalize s. induction (ci_args i) as [|x args IH]; intros t; [done|]. cbn [fold_left].
  rewrite IH. unfold add_bridge. destruct x. by repeat case_match.
Qed.

Lemma wire_child_keeps i idx s s' : wire_child_instance design task_name task conns slave_map axi_plan control_plan i idx s = Ok s' -> keeps_others s s'.
Proof using Type.
  unfold wire_child_instance. intros Hw. apply rbind_ok in Hw as (s1 & H1 & Hw). apply rbind_ok in Hw as (bindings & _ & Hw).
  destruct (instance_reset_exprs _ _) as [reset_n bridge_reset]. injection Hw as <-.
  set (s0 := stage_fsm_control_logic _ _ _ _) in H1.
  assert (Hs0 : keeps_others s s0).
  { subst s0. unfold stage_fsm_control_logic, register_fsm_handshake_ports. destruct (distributed control_plan), (ci_autorun i);
      repeat (first [by apply keeps_same | etransitivity; [|apply keeps_fsms]]). }
  etransitivity; [exact Hs0|]. unfold apply_control_plan_or_pipelines in H1. transitivity s1.
  - destruct control_plan as [plan|]; [apply rbind_ok in H1 as (modules & _ & [= <-]); by apply keeps_same|injection H1 as <-; apply pipelines_keep].
  - apply keeps_same. unfold add_child_instance. destruct (ci_rtl i); cbn [map_modules st_fsms]; apply bridges_keep.
Qed.

Lemma generate_child_signals_keeps modules fsms s k : generate_child_signals design task_name task conns slave_map axi_plan control_plan modules fsms = Ok s ->
  k <> task_name -> BMap.get k (st_fsms s) = BMap.get k fsms.
Proof using Type.
  unfold generate_child_signals. intros Hg Hk. apply rbind_ok in Hg as (s1 & Hf & [= <-]).
  assert (H1 : keeps_others (mkStage modules fsms [] []) s1).
  { refine (try_fold_rel keeps_others _ _ _ _ _ Hf). intros a [name insts] a' _ Hw. unfold wire_definition in Hw.
    refine (try_fold_rel keeps_others _ _ _ _ _ Hw). intros b [idx inst] b' _ Hb. apply rbind_ok in Hb as (i & _ & Hb). by eapply wire_child_keeps. }
  transitivity (BMap.get k (st_fsms s1)); [|exact (H1 k Hk)]. unfold instantiate_fsm_module. by destruct (distributed control_plan).
Qed.
End others.
