(* ===== verification/Passes.v ===== *)
(** * The passes of code generation

    [tapa-codegen]: what each task's passes are given ([passes/mod.rs]), the
    passes that are not files of their own here ([passes/cleanup.rs],
    [passes/s_axi.rs]), the collection of outputs ([emit.rs], [artifact.rs]) and
    the driver ([lib.rs]). *)

From S2P Require Import Prelude RustStd BTreeMap Geometry Names Ir Flatten FloorGraph Pipeline Plan Protocol Rtl Control Topology AsyncMmap Mmap MAxi Fifos AxiPipeline DistributedControl Children.

Local Open Scope Z_scope.

(** * Port-only shells for custom RTL

    [tapa-codegen/src/template.rs]: the ports of a task and the text of its shell. *)

Definition port_with_width (name : string) (d : Direction) (width : Z) : RtlPort :=
  if 1 <? width then wide_port name d (Str.show (width - 1)) "0" else simple_port name d.

Definition shell_m_axi_ports (name : string) (data_width : Z) : list RtlPort := build_m_axi_ports name data_width AXI_ADDR_WIDTH AXI_ID_WIDTH.

Definition stream_names (name : string) (c : ArgCategory) (chan_count : option Z) : list string :=
  let name := sanitize_array_name name in
  let chan_count := default 1 chan_count in
  if (bool_decide (c = Istreams) || bool_decide (c = Ostreams)) && (1 <? chan_count)
  then map (fun idx => name +:+ "_" +:+ Str.show idx) (zrange 0 chan_count) else [name].

Definition istream_ports (name : string) (width : Z) : list RtlPort :=
  let stream_width := stream_data_wire_width width in
  [port_with_width (stream_port_name name "_dout") Input stream_width;
   simple_port (stream_port_name name "_empty_n") Input;
   simple_port (stream_port_name name "_read") Output;
   port_with_width (stream_peek_port_name name "_dout") Input stream_width;
   simple_port (stream_peek_port_name name "_empty_n") Input;
   simple_port (stream_peek_port_name name "_read") Output].

Definition ostream_ports (name : string) (width : Z) : list RtlPort :=
  let stream_width := stream_data_wire_width width in
  [port_with_width (stream_port_name name "_din") Output stream_width;
   simple_port (stream_port_name name "_full_n") Input;
   simple_port (stream_port_name name "_write") Output;
   port_with_width (stream_peek_port_name name "") Input stream_width].

Definition addr_ostream_ports (name : string) : list RtlPort :=
  [port_with_width (stream_port_name name "_din") Output AXI_ADDR_WIDTH;
   simple_port (stream_port_name name "_full_n") Input;
   simple_port (stream_port_name name "_write") Output;
   port_with_width (name +:+ "_offset") Input AXI_ADDR_WIDTH].

Definition async_mmap_ports (name : string) (data_width : Z) : list RtlPort :=
  let name := sanitize_array_name name in
  addr_ostream_ports (name +:+ "_read_addr") ++ istream_ports (name +:+ "_read_data") data_width
  ++ addr_ostream_ports (name +:+ "_write_addr") ++ ostream_ports (name +:+ "_write_data") data_width
  ++ istream_ports (name +:+ "_write_resp") 8.

Definition mmap_ports (name : string) (width : Z) (chan_count : option Z) : list RtlPort :=
  let name := sanitize_array_name name in
  let one name := port_with_width (name +:+ "_offset") Input AXI_ADDR_WIDTH :: shell_m_axi_ports name width in
  match chan_count with
  | Some n => flat_map (fun idx => one (name +:+ "_" +:+ Str.show idx)) (zrange 0 n)
  | None => one name
  end.

Definition template_port (p : Port) : list RtlPort :=
  match port_cat p with
  | Scalar => [port_with_width (sanitize_array_name (port_name p)) Input (port_width p)]
  | Istream | Istreams => flat_map (fun s => istream_ports s (port_width p)) (stream_names (port_name p) (port_cat p) (port_chan_count p))
  | Ostream | Ostreams => flat_map (fun s => ostream_ports s (port_width p)) (stream_names (port_name p) (port_cat p) (port_chan_count p))
  | AsyncMmap => async_mmap_ports (port_name p) (port_width p)
  | Mmap | Immap | Ommap => mmap_ports (port_name p) (port_width p) (port_chan_count p)
  end.

Definition template_ports (t : Task) : list RtlPort :=
  [simple_port HANDSHAKE_CLK Input; simple_port HANDSHAKE_RST_N Input; simple_port HANDSHAKE_START Input;
   simple_port HANDSHAKE_DONE Output; simple_port HANDSHAKE_IDLE Output; simple_port HANDSHAKE_READY Output]
  ++ flat_map template_port (ports t).

Definition render_task_template (name : string) (t : Task) : string :=
  "module " +:+ name +:+ " (" +:+ nl +:+ join ("," +:+ nl) (map (fun p => "  " +:+ port_str p) (template_ports t)) +:+ nl +:+ ");" +:+ nl +:+ "endmodule".

Section passes.
Context `{UnicodeTables} `{RtlLibraries}.

(** ** Inputs of a task ([TaskStageInputs::prepare]) *)

Record TaskStageInputs := mkInputs {
  is_top_task : bool;
  ti_mmap_conns : bmap string MMapConnection;
  ti_slave_map : SlaveMap;
  ti_axi_plan : option DirectAxiPipelinePlan;
  ti_control_plan : option DistributedControlPlan;
  ti_is_done : list string;
  ti_control_s_axi : bool;
}.

Definition insert_instance_name (task_name : string) (names : bmap string string) (x : string * nat * TaskInstance) : res CodegenError (bmap string string) :=
  let logical_name := canonical_name x.2 x.1.1 x.1.2 in
  let rtl_name := sanitize_identifier_name logical_name in
  match BMap.get rtl_name names with
  | Some previous =>
      Err (InvalidChildInstanceNames ("task `" +:+ task_name +:+ "`: `" +:+ previous +:+ "` and `" +:+ logical_name
        +:+ "` both produce RTL identifier `" +:+ rtl_name +:+ "`"))
  | None => Ok (BMap.insert rtl_name logical_name names)
  end.

Definition insert_slave (arg_name : string) (m : SlaveMap) (x : nat * MMapSlave) : SlaveMap :=
  BMap.insert (arg_name, ms_task x.2, Z.to_nat (ms_inst_idx x.2)) x.1 m.

Definition insert_slaves (m : SlaveMap) (c : MMapConnection) : SlaveMap :=
  if needs_crossbar c then fold_left (insert_slave (mc_arg_name c)) (enumerate (mc_slaves c)) m else m.

Definition prepare (st : TopologyWithRtl) (task_name : string) : res CodegenError TaskStageInputs :=
  let is_top := bool_decide (task_name = top (tp_design st)) in
  let! task := index (graph_tasks (data_design st)) task_name in
  let! _ := try_fold (insert_instance_name task_name) BMap.empty (invocations task) in
  let! conns := aggregate_mmap_connections st task_name in
  let! _ := try_each validate_mmap_connection (BMap.values conns) in
  let! axi_plan :=
    match is_top, Topology.floorplan st with
    | true, Some fp =>
        let! interfaces := direct_mmap_interfaces st task_name in
        let! plan := from_floorplan interfaces fp in Ok (Some plan)
    | _, _ => Ok None
    end in
  let! control_plan := if is_top then control_plan_from_floorplan st task_name conns else Ok None in
  Ok (mkInputs is_top conns (fold_left insert_slaves (BMap.values conns) BMap.empty) axi_plan control_plan [] (top_instantiates_control_s_axi st)).

(** ** Design passes *)

Definition ignore_task_shell (modules : bmap string MutableModule) (x : string * Task) : res CodegenError (bmap string MutableModule) :=
  if is_ignore x.2 then
    let! m := map_err RtlParse (module_parse (render_task_template x.1 x.2)) in
    Ok (BMap.insert x.1 (from_parsed original_module_text m) modules)
  else Ok modules.

Definition ignore_task_shells (st : TopologyWithRtl) : res CodegenError TopologyWithRtl :=
  let! modules := try_fold ignore_task_shell (module_map st) (graph_tasks (data_design st)) in
  Ok (set_modules st modules).

(** ** Task passes *)

(** What a pass works on: the inputs and the state. *)
Definition PassState : Type := TaskStageInputs * TopologyWithRtl.

Definition istream_prefixes (t : Task) : list string :=
  flat_map (fun p =>
    if is_input_stream (port_cat p) then
      (if bool_decide (port_cat p = Istreams)
       then map (fun idx => port_name p +:+ "_" +:+ Str.show idx +:+ "_peek") (zrange 0 (default 1 (port_chan_count p))) else [])
      ++ [port_name p +:+ "_peek"]
    else []) (ports t).

Definition remove_peek_ports (t : Task) (m : MutableModule) : MutableModule :=
  let peek_ports := map rp_name (List.filter (fun p => existsb (fun prefix => Str.starts_with prefix (rp_name p)) (istream_prefixes t)) (mod_ports (inner m))) in
  fold_left remove_port peek_ports m.

Definition clear_body (m : MutableModule) : MutableModule :=
  mkMutable (inner m) "" (trailing_text m) (added_instances m) (added_assigns m) (added_always m).

Definition clean_module (t : Task) (is_top distributed : bool) (m : MutableModule) : MutableModule :=
  let m := clear_body (cleanup_hls_artifacts regex_remove m) in
  let m := demote_signal_regs_to_wires (demote_output_port_regs_to_wires m) [HANDSHAKE_DONE; HANDSHAKE_IDLE; HANDSHAKE_READY] in
  let m := try_add_signal m (fabric_reset_signal distributed) in
  let m := add_assign m (mkAssign (Ident HANDSHAKE_RST) (Not (Ident (if distributed then FABRIC_RESET_N else HANDSHAKE_RST_N)))) in
  if is_top then remove_peek_ports t m else m.

Definition has_plan (i : TaskStageInputs) : bool := match ti_control_plan i with Some _ => true | None => false end.

Definition cleanup_pass (name : string) (x : PassState) : res CodegenError PassState :=
  let '(i, st) := x in
  let! task := index (graph_tasks (data_design st)) name in
  Ok (i, set_modules st (with_module name (clean_module task (is_top_task i) (has_plan i)) (module_map st))).

Definition create_fsm_pass (name : string) (x : PassState) : res CodegenError PassState :=
  let '(i, st) := x in
  if has_plan i then Ok (i, st)
  else
    let! task := ok_or (BMap.get name (graph_tasks (data_design st))) (TaskNotFound name) in
    let! fsms := create_fsm_module (fsm_modules st) name (level task) in
    Ok (i, set_fsms st fsms).

Definition set_is_done (i : TaskStageInputs) (l : list string) : TaskStageInputs :=
  mkInputs (is_top_task i) (ti_mmap_conns i) (ti_slave_map i) (ti_axi_plan i) (ti_control_plan i) l (ti_control_s_axi i).

Definition child_signals_pass (name : string) (x : PassState) : res CodegenError PassState :=
  let '(i, st) := x in
  let! task := index (graph_tasks (data_design st)) name in
  let! s := generate_child_signals (data_design st) name task (ti_mmap_conns i) (ti_slave_map i) (ti_axi_plan i) (ti_control_plan i) (module_map st) (fsm_modules st) in
  Ok (set_is_done i (st_is_done s), set_fsms (set_modules st (st_modules s)) (st_fsms s)).

Definition fifo_pass (name : string) (x : PassState) : res CodegenError PassState :=
  let '(i, st) := x in
  let! modules := instantiate_fifos (data_design st) (Topology.floorplan st) (module_map st) name in
  let! modules := connect_fifos (data_design st) modules name in
  Ok (i, set_modules st modules).

Definition set_generated (st : TopologyWithRtl) (files : bmap string string) : TopologyWithRtl :=
  mkTopology (tp_design st) (flat_projection st) (Topology.floorplan st) (module_map st) (fsm_modules st) files (template_files st).

Definition m_axi_pass (name : string) (x : PassState) : res CodegenError PassState :=
  let '(i, st) := x in
  let! (modules, files) := add_m_axi_and_crossbars (module_map st) (generated_files st) name (ti_mmap_conns i) in
  Ok (i, set_generated (set_modules st modules) files).

Definition axi_pipeline_pass (name : string) (x : PassState) : res CodegenError PassState :=
  let '(i, st) := x in
  match ti_axi_plan i with
  | Some plan => let! modules := axi_plan_instantiate plan (module_map st) name in Ok (i, set_modules st modules)
  | None => Ok (i, st)
  end.

Definition control_fsm_pass (name : string) (x : PassState) : res CodegenError PassState :=
  let '(i, st) := x in
  match ti_control_plan i with
  | Some plan => let! modules := instantiate_global plan (module_map st) name (ti_is_done i) in Ok (i, set_modules st modules)
  | None => Ok (i, set_fsms st (with_module name (fun m => apply_global_fsm m (ti_is_done i)) (fsm_modules st)))
  end.

(** *** The control slave of the top ([passes/s_axi.rs]) *)

Definition control_port_signals (p : Port) : list Signal :=
  let sanitized := sanitize_array_name (port_name p) in
  if is_scalar (port_cat p) then [width_wire sanitized (Z.max (port_width p) 1)]
  else if is_mmap_like (port_cat p) then
    match port_chan_count p with
    | Some n => map (fun idx => wide_wire (sanitized +:+ "_" +:+ Str.show idx +:+ "_offset") "63" "0") (zrange 0 n)
    | None => [wide_wire (sanitized +:+ "_offset") "63" "0"]
    end
  else [].

Definition instantiate_top_control_s_axi (task_name : string) (task : Task) (m : MutableModule) : MutableModule :=
  let signals := flat_map control_port_signals (ports task) in
  let m := fold_left try_add_signal signals m in
  add_instance m (mkInst (task_name +:+ "_control_s_axi") "control_s_axi_U"
    [mkParamArg "C_S_AXI_ADDR_WIDTH" (Ident "C_S_AXI_CONTROL_ADDR_WIDTH"); mkParamArg "C_S_AXI_DATA_WIDTH" (Ident "C_S_AXI_CONTROL_DATA_WIDTH")]
    ([mkPortArg "ACLK" (Ident HANDSHAKE_CLK); mkPortArg "ARESET" (Ident HANDSHAKE_RST); mkPortArg "ACLK_EN" (Lit "1'b1")]
     ++ map (fun p => mkPortArg p (Ident (S_AXI_NAME +:+ "_" +:+ p))) S_AXI_LITE_CTRL_PORTS
     ++ map (fun s => mkPortArg s (Ident s)) [HANDSHAKE_START; HANDSHAKE_DONE; HANDSHAKE_IDLE; HANDSHAKE_READY; "interrupt"]
     ++ map (fun s => mkPortArg (sg_name s) (Ident (sg_name s))) signals)).

Definition s_axi_pass (name : string) (x : PassState) : res CodegenError PassState :=
  let '(i, st) := x in
  if negb (is_top_task i) || negb (ti_control_s_axi i) then Ok (i, st)
  else match BMap.get name (graph_tasks (data_design st)) with
    | None => Ok (i, st)
    | Some task => Ok (i, set_modules st (with_module name (instantiate_top_control_s_axi name task) (module_map st)))
    end.

(** ** The driver *)

Definition TASK_PASSES : list (string -> PassState -> res CodegenError PassState) :=
  [cleanup_pass; create_fsm_pass; child_signals_pass; fifo_pass; m_axi_pass; axi_pipeline_pass; control_fsm_pass; s_axi_pass].

Definition run_task (st : TopologyWithRtl) (task_name : string) : res CodegenError TopologyWithRtl :=
  let! task := index (graph_tasks (data_design st)) task_name in
  if is_ignore task || negb (bool_decide (level task = Upper)) then Ok st
  else
    let! inputs := prepare st task_name in
    let! (_, st) := try_fold (fun x (pass : string -> PassState -> res CodegenError PassState) => pass task_name x) (inputs, st) TASK_PASSES in
    Ok st.

(** *** Outputs ([emit.rs], [artifact.rs]) *)

Definition set_templates (st : TopologyWithRtl) (files : bmap string string) : TopologyWithRtl :=
  mkTopology (tp_design st) (flat_projection st) (Topology.floorplan st) (module_map st) (fsm_modules st) (generated_files st) files.

Definition collect_task (st : TopologyWithRtl) (x : string * Task) : res CodegenError TopologyWithRtl :=
  let '(name, task) := x in
  let file := name +:+ ".v" in
  if is_ignore task then
    let! m := index (module_map st) name in
    let rtl := emit m in
    Ok (set_generated (set_templates st (BMap.insert file rtl (template_files st))) (BMap.insert file rtl (generated_files st)))
  else if bool_decide (level task = Upper) then
    match BMap.get name (module_map st) with
    | Some m => Ok (set_generated st (BMap.insert file (emit m) (generated_files st)))
    | None => Ok st
    end
  else Ok st.

Definition collect_outputs (st : TopologyWithRtl) : res CodegenError TopologyWithRtl :=
  let! st := try_fold collect_task st (graph_tasks (data_design st)) in
  Ok (fold_left (fun st x => set_generated st (BMap.insert (x.1 +:+ "_fsm.v") (emit x.2) (generated_files st))) (fsm_modules st) st).

Record ArtifactManifest := mkManifest { files : bmap string string; support_asset_paths : list string }.

(** [assets] are the embedded support files. *)
Definition collect_artifacts (assets : list (string * string)) (st : TopologyWithRtl) : ArtifactManifest :=
  let under dir (m : bmap string string) (acc : bmap string string) := fold_left (fun acc x => BMap.insert (dir +:+ "/" +:+ x.1) x.2 acc) m acc in
  let fs := under "template" (template_files st) (under "rtl" (generated_files st) BMap.empty) in
  mkManifest (under "rtl" assets fs) (map (fun x => "rtl/" +:+ x.1) assets).

Definition generate_rtl (assets : list (string * string)) (st : TopologyWithRtl) : res CodegenError (TopologyWithRtl * ArtifactManifest) :=
  let task_names := BMap.keys (graph_tasks (data_design st)) in
  let! st := ignore_task_shells st in
  let! st := try_fold run_task st task_names in
  let! st := collect_outputs st in
  Ok (st, collect_artifacts assets st).
End passes.
