(* ===== verification/PassesProps.v ===== *)
(** * Code generation end to end

    Every upper task of a generated design is run by its FSM module; the memory
    arguments of the children meet the crossbar slaves that were counted for them. *)

From S2P Require Import Prelude RustStd BTreeMap Geometry Names Ir Flatten FloorGraph Pipeline Plan Protocol Rtl Control VerilogSem ControlProps Topology AsyncMmap Mmap MmapProps MAxi Fifos AxiPipeline DistributedControl Children Passes.

Local Open Scope Z_scope.

Section passes.
Context `{UnicodeTables} `{RtlLibraries}.

(** ** What passes leave alone *)

Record same_design (st st' : TopologyWithRtl) : Prop := {
  same_graph : tp_design st' = tp_design st;
  same_flat : flat_projection st' = flat_projection st;
  same_plan : Topology.floorplan st' = Topology.floorplan st;
}.

#[export] Instance same_design_preorder : PreOrder same_design.
Proof using Type. split; [by split|]. intros a b c [] []. split; congruence. Qed.

Lemma same_data_design st st' : same_design st st' -> data_design st' = data_design st.
Proof using Type. intros [E1 E2 _]. unfold data_design. by rewrite E1, E2. Qed.

(** A task that runs without distributed control: not the top, or neither placed
    nor flattened. *)
Definition undistributed (st : TopologyWithRtl) (name : string) : Prop :=
  name <> top (tp_design st) \/ (Topology.floorplan st = None /\ flat_projection st = None).

Lemma undistributed_same st st' name : same_design st st' -> undistributed st name -> undistributed st' name.
Proof using Type. intros [E1 E2 E3]. unfold undistributed. by rewrite E1, E2, E3. Qed.

(** ** Preparation *)

Lemma instance_names_distinct name l names : try_fold (insert_instance_name name) BMap.empty l = Ok names -> NoDup (map is_instance (map sig_of l)).
Proof using Type.
  intros Hf. refine (proj1 (try_fold_ind (fun l m => NoDup (map is_instance (map sig_of l)) /\ forall n, n ∈ map is_instance (map sig_of l) -> BMap.get n m <> None) _ _ _ _ _ _ Hf)).
  - split; [constructor|]. by intros n Hn%not_elem_of_nil.
  - intros l1 x l2 m m' _ [Hnd Hin] Hs. unfold insert_instance_name in Hs. destruct (BMap.get _ m) eqn:Hg; [done|]. injection Hs as <-.
    rewrite !map_app. simpl. split.
    + apply NoDup_app. split; [done|]. split; [|by apply NoDup_singleton]. intros n Hn Hx%list_elem_of_singleton. subst n. by apply (Hin _ Hn).
    + intros n [Hn|Hn%list_elem_of_singleton]%elem_of_app; rewrite BMap.get_insert; destruct (decide _); try done. by apply Hin.
Qed.

Lemma prepare_spec st name i : prepare st name = Ok i -> undistributed st name ->
  ti_control_plan i = None /\ exists task, BMap.get name (graph_tasks (data_design st)) = Some task /\ NoDup (map is_instance (map sig_of (invocations task))).
Proof using Type.
  unfold prepare. intros Hp Hu. apply rbind_ok in Hp as (task & Ht%expect_ok & Hp). apply rbind_ok in Hp as (names & Hn & Hp).
  apply rbind_ok in Hp as (conns & _ & Hp). apply rbind_ok in Hp as ([] & _ & Hp). apply rbind_ok in Hp as (axi & _ & Hp). apply rbind_ok in Hp as (plan & Hplan & [= <-]).
  split; [|exists task; split; [done|by eapply instance_names_distinct]]. simpl.
  destruct (bool_decide_reflect (name = top (tp_design st))) as [->|]; [|by injection Hplan].
  destruct Hu as [Hu|[E1 E2]]; [done|]. unfold control_plan_from_floorplan in Hplan. rewrite E1, E2 in Hplan. by injection Hplan.
Qed.

(** ** One task *)

Lemma create_fsm_added fsms name lv fsms' : create_fsm_module fsms name lv = Ok fsms' ->
  exists m, fsms' = BMap.insert name m fsms /\ added_always m = [].
Proof using Type.
  unfold create_fsm_module. destruct lv; [done|]. intros Hc. apply rbind_ok in Hc as (parsed & _ & [= <-]). eexists. split; [reflexivity|].
  unfold from_parsed. by destruct (original_module_text _).
Qed.

(** The passes between the child stage and the control stage keep the FSM modules. *)
Lemma middle_passes_keep name i st x : (let! x := fifo_pass name (i, st) in let! x := m_axi_pass name x in axi_pipeline_pass name x) = Ok x ->
  x.1 = i /\ fsm_modules x.2 = fsm_modules st /\ same_design st x.2.
Proof using Type.
  intros Hx. apply rbind_ok in Hx as ([i1 st1] & H1 & Hx). apply rbind_ok in Hx as ([i2 st2] & H2 & H3).
  unfold fifo_pass in H1. apply rbind_ok in H1 as (m1 & _ & H1). apply rbind_ok in H1 as (m1' & _ & [= <- <-]).
  unfold m_axi_pass in H2. apply rbind_ok in H2 as ([m2 f2] & _ & [= <- <-]).
  unfold axi_pipeline_pass in H3. destruct (ti_axi_plan i); [apply rbind_ok in H3 as (m3 & _ & [= <-])|injection H3 as <-]; by repeat split.
Qed.

Lemma run_task_spec st name st' : run_task st name = Ok st' ->
  same_design st st' /\ (forall k, k <> name -> BMap.get k (fsm_modules st') = BMap.get k (fsm_modules st)) /\
  forall task, BMap.get name (graph_tasks (data_design st)) = Some task -> is_ignore task = false -> level task = Upper -> undistributed st name ->
    exists m, BMap.get name (fsm_modules st') = Some m /\ runs_children (map sig_of (invocations task)) m.
Proof using Type.
  unfold run_task. intros Hr. apply rbind_ok in Hr as (task & Ht%expect_ok & Hr). destruct (is_ignore task || _) eqn:Hskip.
  { injection Hr as <-. split; [reflexivity|]. split; [done|]. intros task' Ht' Hi Hl. simplify_eq. by rewrite Hi, Hl in Hskip. }
  apply rbind_ok in Hr as (i & Hi & Hr). apply rbind_ok in Hr as ([i' st''] & Hpasses & [= ->]). cbn [try_fold TASK_PASSES] in Hpasses.
  apply rbind_ok in Hpasses as ([i1 st1] & H1 & Hpasses). apply rbind_ok in Hpasses as ([i2 st2] & H2 & Hpasses). apply rbind_ok in Hpasses as ([i3 st3] & H3 & Hpasses).
  apply rbind_ok in Hpasses as (x4 & H4 & Hpasses). apply rbind_ok in Hpasses as (x5 & H5 & Hpasses). apply rbind_ok in Hpasses as ([i6 st6] & H6 & Hpasses).
  apply rbind_ok in Hpasses as ([i7 st7] & H7 & Hpasses). apply rbind_ok in Hpasses as ([i8 st8] & H8 & [= -> ->]).
  unfold cleanup_pass in H1. apply rbind_ok in H1 as (t1 & _ & [= <- <-]).
  set (stc := set_modules st _) in *. assert (Hs1 : same_design st stc) by done. change (fsm_modules st) with (fsm_modules stc).
  destruct (middle_passes_keep name i3 st3 (i6, st6)) as (E6 & F6 & S6); [by rewrite H4; cbn [rbind]; rewrite H5|]. simpl in E6, F6, S6. subst i6.
  assert (H78 : same_design st6 st' /\ fsm_modules st' = (if ti_control_plan i3 then fsm_modules st6 else with_module name (fun m => apply_global_fsm m (ti_is_done i3)) (fsm_modules st6))).
  { unfold control_fsm_pass in H7. unfold s_axi_pass in H8. destruct (ti_control_plan i3); [apply rbind_ok in H7 as (m7 & _ & [= <- <-])|injection H7 as <- <-];
      repeat case_match; simplify_eq; by repeat split. }
  destruct H78 as [S78 F78]. unfold create_fsm_pass, has_plan in H2. unfold child_signals_pass in H3.
  apply rbind_ok in H3 as (task3 & Ht3%expect_ok & H3). apply rbind_ok in H3 as (s3 & Hs3 & [= <- <-]). simpl in F6, S6, F78.
  assert (Hcreate : i2 = i /\ same_design stc st2 /\ (forall k, k <> name -> BMap.get k (fsm_modules st2) = BMap.get k (fsm_modules stc)) /\
    (ti_control_plan i = None -> exists m, BMap.get name (fsm_modules st2) = Some m /\ added_always m = [])).
  { destruct (ti_control_plan i); [by injection H2 as <- <-|]. apply rbind_ok in H2 as (t2 & _ & H2). apply rbind_ok in H2 as (fsms2 & Hf2 & [= <- <-]).
    destruct (create_fsm_added _ _ _ _ Hf2) as (m & -> & Hm). split; [done|]. split; [by split|]. split; [intros k Hk; by apply BMap.get_insert_ne|].
    intros _. exists m. split; [apply BMap.get_insert_eq|done]. }
  destruct Hcreate as (-> & S2 & K2 & C2). assert (Sall : same_design st st') by (transitivity st2; [by transitivity stc|transitivity st6; [destruct S6; by split|done]]).
  split; [done|]. split.
  - intros k Hk. rewrite <- (K2 k Hk), <- (generate_child_signals_keeps _ _ _ _ _ _ _ _ _ _ k Hs3 Hk), F78. destruct (ti_control_plan i); [by rewrite F6|].
    rewrite get_with_module_ne by done. by rewrite F6.
  - intros task' Ht' _ _ Hu. simplify_eq. destruct (prepare_spec _ _ _ Hi Hu) as (Hnone & task0 & Ht0 & Hnd). destruct (C2 Hnone) as (m0 & Hm0 & Hempty).
    assert (Hd2 : data_design st2 = data_design st) by (apply same_data_design; by transitivity stc). rewrite Hd2 in Ht3. simplify_eq. rewrite Hnone in Hs3, F78.
    destruct (generated_task_completes _ _ _ _ _ _ _ _ _ _ Hs3 Hm0 Hempty Hnd) as (m & Hm & Hruns). exists (apply_global_fsm m (st_is_done s3)).
    split; [|done]. rewrite F78, get_with_module, F6, Hm. done.
Qed.

(** ** The driver *)

Definition generated_task (st : TopologyWithRtl) (task : Task) (name : string) : Prop :=
  exists m, BMap.get name (fsm_modules st) = Some m /\ runs_children (map sig_of (invocations task)) m.

Definition upper_task (st : TopologyWithRtl) (name : string) (task : Task) : Prop :=
  BMap.get name (graph_tasks (data_design st)) = Some task /\ is_ignore task = false /\ level task = Upper.

Lemma collect_outputs_keep st st' : collect_outputs st = Ok st' -> fsm_modules st' = fsm_modules st.
Proof using Type.
  unfold collect_outputs. intros Hc. apply rbind_ok in Hc as (st1 & Hf & [= <-]). transitivity (fsm_modules st1).
  - assert (Hl : forall l (s : TopologyWithRtl), fsm_modules (fold_left (fun st x => set_generated st (BMap.insert (x.1 +:+ "_fsm.v") (emit x.2) (generated_files st))) l s) = fsm_modules s).
    { induction l as [|x l IH]; intros s; [done|]. cbn [fold_left]. by rewrite IH. }
    apply Hl.
  - refine (try_fold_inv (fun s : TopologyWithRtl => fsm_modules s = fsm_modules st) _ _ _ _ _ _ Hf); [|done].
    intros a [name task] a' _ Ha Hx. unfold collect_task in Hx. destruct (is_ignore task); [by apply rbind_ok in Hx as (m & _ & [= <-])|].
    destruct (bool_decide _); [|by injection Hx as <-]. by destruct (BMap.get name (module_map a)); injection Hx as <-.
Qed.

(** C2: generation serves its purpose: in the modules the driver produces, every
    upper task that is not the placed or flattened top has an FSM module that runs
    its children: after reset, a start seen while the task is idle is answered by
    the task's done, if each completing child answers its own start, and not before
    each of them has reported done. *)
Theorem generated_rtl_completes assets st st' manifest name task : generate_rtl assets st = Ok (st', manifest) ->
  upper_task st name task -> undistributed st name -> generated_task st' task name.
Proof using Type.
  unfold generate_rtl. intros Hg (Hget & Hig & Hup) Hu. apply rbind_ok in Hg as (st1 & H1 & Hg). apply rbind_ok in Hg as (st2 & H2 & Hg). apply rbind_ok in Hg as (st3 & H3 & [= <- _]).
  assert (S1 : same_design st st1) by (unfold ignore_task_shells in H1; by apply rbind_ok in H1 as (modules & _ & [= <-])).
  apply collect_outputs_keep in H3. unfold generated_task. rewrite H3. clear H3.
  assert (Hin : name ∈ BMap.keys (graph_tasks (data_design st))) by (apply list_elem_of_In; by eapply BMap.get_Some_key).
  revert Hin. refine (proj2 (try_fold_ind (fun l s => same_design st s /\ (name ∈ l -> generated_task s task name)) _ _ _ _ _ _ H2)).
  - split; [done|]. by intros ?%not_elem_of_nil.
  - intros l1 k l2 a a' _ [Sa Ha] Hr. destruct (run_task_spec _ _ _ Hr) as (Sr & Kr & Tr). split; [by transitivity a|].
    intros [Hin|Hin%list_elem_of_singleton]%elem_of_app; [|subst k].
    + destruct (decide (name = k)) as [<-|Hne]; [|destruct (Ha Hin) as (m & Hm & Hruns); exists m; by rewrite Kr].
      apply Tr; [by rewrite (same_data_design _ _ Sa)|done|done|by eapply undistributed_same].
    + apply Tr; [by rewrite (same_data_design _ _ Sa)|done|done|by eapply undistributed_same].
Qed.
End passes.

(** ** Children meet the slaves that were counted for them *)

Definition slave_site (s : MMapSlave) : string * nat := (ms_task s, Z.to_nat (ms_inst_idx s)).

Lemma insert_slaves_other c m arg site : mc_arg_name c <> arg -> BMap.get (arg, site.1, site.2) (insert_slaves m c) = BMap.get (arg, site.1, site.2) m.
Proof.
  intros Hne. unfold insert_slaves. destruct (needs_crossbar c); [|done]. generalize (enumerate (mc_slaves c)) as l. intros l. revert m.
  induction l as [|x l IH]; intros m; [done|]. cbn [fold_left]. rewrite IH. unfold insert_slave. rewrite BMap.get_insert_ne; [done|]. congruence.
Qed.

Lemma fold_slaves_other cs m arg site : arg ∉ map mc_arg_name cs -> BMap.get (arg, site.1, site.2) (fold_left insert_slaves cs m) = BMap.get (arg, site.1, site.2) m.
Proof.
  revert m. induction cs as [|c cs IH]; intros m Hn; [done|]. simpl in Hn. apply not_elem_of_cons in Hn as [H1 H2]. cbn [fold_left].
  rewrite IH by done. by apply insert_slaves_other.
Qed.

(** The number of the slave at a site no other slave of the connection has. *)
Lemma insert_slaves_number c m k s : needs_crossbar c = true -> NoDup (map slave_site (mc_slaves c)) -> mc_slaves c !! k = Some s ->
  BMap.get (mc_arg_name c, ms_task s, Z.to_nat (ms_inst_idx s)) (insert_slaves m c) = Some k.
Proof.
  intros Hx. unfold insert_slaves. rewrite Hx. generalize (mc_slaves c) as l. intros l. induction l as [|s' l IH] using rev_ind; [done|].
  rewrite enumerate_snoc, fold_left_app, map_app. intros (Hnd & Hd & _)%NoDup_app Hk. cbn [fold_left]. unfold insert_slave at 1. simpl.
  rewrite BMap.get_insert. destruct (decide _) as [[= E1 E2]|Hne].
  - apply lookup_app_Some in Hk as [Hk|[Hle Hk]].
    + exfalso. apply (Hd (slave_site s)); [apply list_elem_of_fmap_2; by eapply list_elem_of_lookup_2|]. apply list_elem_of_singleton. unfold slave_site. congruence.
    + apply list_lookup_singleton_Some in Hk as [Hz _]. f_equal. lia.
  - apply lookup_app_Some in Hk as [Hk|[Hle Hk]]; [by apply IH|]. apply list_lookup_singleton_Some in Hk as [_ <-]. by exfalso.
Qed.

Lemma fold_slaves_number cs m c k s : NoDup (map mc_arg_name cs) -> c ∈ cs -> needs_crossbar c = true -> NoDup (map slave_site (mc_slaves c)) -> mc_slaves c !! k = Some s ->
  BMap.get (mc_arg_name c, ms_task s, Z.to_nat (ms_inst_idx s)) (fold_left insert_slaves cs m) = Some k.
Proof.
  revert m. induction cs as [|c' cs IH]; intros m Hnd Hin Hx Hs Hk; [by apply not_elem_of_nil in Hin|]. simpl in Hnd. apply NoDup_cons in Hnd as [Hn Hnd]. cbn [fold_left].
  apply elem_of_cons in Hin as [->|Hin]; [|by apply IH]. pose proof (fold_slaves_other cs (insert_slaves m c') (mc_arg_name c') (slave_site s) Hn) as E. simpl in E.
  rewrite E. by apply insert_slaves_number.
Qed.

(** Each connection is kept under its own name. *)
Definition keyed (conns : bmap string MMapConnection) : Prop := BMap.wf conns /\ Forall (fun x => mc_arg_name x.2 = x.1) conns.

Lemma add_slave_keyed st name task conns site w n conns' : add_slave st name task conns site w n = Ok conns' -> keyed conns -> keyed conns'.
Proof.
  intros H [Hw Hk]. destruct site as [[[child i] port] a]. unfold add_slave in H. destruct (arg_name a) as [parent|]; [|by injection H as <-].
  apply rbind_ok in H as (g & _ & H). destruct (negb _); [done|]. destruct (negb _); [done|]. injection H as <-. split; [by apply BMap.wf_insert|].
  apply Forall_forall. intros [k c] Hin%list_elem_of_In. apply BMap.In_get in Hin; [|by apply BMap.wf_insert]. rewrite BMap.get_insert in Hin.
  assert (Hold : forall k c, BMap.get k conns = Some c -> mc_arg_name c = k).
  { intros k' c' Hg%BMap.get_In. rewrite Forall_forall in Hk. by apply (Hk (k', c')), list_elem_of_In. }
  destruct (decide (k = parent)) as [->|]; [|by apply Hold]. injection Hin as <-. simpl. unfold default. destruct (BMap.get parent conns) eqn:E; simpl; [by apply Hold|reflexivity].
Qed.

Lemma aggregate_keyed st name conns : aggregate_mmap_connections st name = Ok conns -> keyed conns.
Proof.
  unfold aggregate_mmap_connections. intros ([conns' cache] & H & [= ->])%rbind_ok. unfold aggregate_fuel in H. cbn [aggregate_mmap_connections_cached] in H.
  unfold aggregate_level in H. apply rbind_ok in H as (task & _ & H). apply rbind_ok in H as ([conns1 cache1] & Hf & H). apply rbind_ok in H as ([] & _ & [= -> ->]).
  refine (try_fold_inv (fun acc : bmap string MMapConnection * bmap string (bmap string MMapConnection) => keyed acc.1) _ _ _ _ _ _ Hf); [|split; [apply BMap.wf_nil|constructor]].
  intros [a ca] [[[child i] port] arg] a' _ Ha Hx. unfold aggregate_site in Hx. destruct (negb _); [by injection Hx as <-|].
  apply rbind_ok in Hx as ([[w n] cache'] & _ & Hx). apply rbind_ok in Hx as (conns2 & Hs & [= <-]). by eapply add_slave_keyed.
Qed.

Lemma keyed_distinct conns : keyed conns -> NoDup (map mc_arg_name (BMap.values conns)).
Proof.
  intros [Hw Hk]. assert (E : map mc_arg_name (BMap.values conns) = BMap.keys conns).
  { unfold BMap.values, BMap.keys. rewrite map_map. clear Hw. induction Hk as [|x l Hx _ IH]; [done|]. simpl. by rewrite Hx, IH. }
  rewrite E. by apply BMap.wf_NoDup.
Qed.

(** An instance binds a memory as every one of its ports that names it does. *)
Lemma child_binding_of conns slaves axi inst idx bindings parent b : build_mmap_bindings conns slaves axi inst idx = Ok bindings ->
  (forall port b', bind_mmap conns slaves axi inst idx port parent = Ok b' -> b' = b) ->
  forall port a, (port, a) ∈ ci_args inst -> is_direct_mmap (cat a) = true -> arg_name a = Some parent -> child_binding bindings parent = b.
Proof.
  intros Hb Heq port a Hin Hd Ha.
  refine (try_fold_ind (fun l bindings => forall x, x ∈ l -> is_direct_mmap (cat x.2) = true -> arg_name x.2 = Some parent -> child_binding bindings parent = b)
    _ _ _ _ _ _ Hb (port, a) Hin Hd Ha); [by intros x ?%not_elem_of_nil|].
  intros l1 y l2 m m' _ IH Hy x Hx Hxd Hxa. unfold add_mmap_binding in Hy.
  apply elem_of_app in Hx as [Hx| ->%list_elem_of_singleton].
  - specialize (IH x Hx Hxd Hxa). destruct (negb _); [by injection Hy as <-|]. destruct (arg_name y.2) as [p|]; [|by injection Hy as <-].
    apply rbind_ok in Hy as (b' & Hb' & [= <-]). unfold child_binding. rewrite BMap.get_insert. destruct (decide _) as [<-|]; [by apply Heq in Hb'|done].
  - rewrite Hxd, Hxa in Hy. cbn [negb] in Hy. apply rbind_ok in Hy as (b' & Hb' & [= <-]). unfold child_binding. rewrite BMap.get_insert_eq. by apply Heq in Hb'.
Qed.

(** The decimal number of a slave ends where its suffix begins. *)
Lemma digits_end a b s t : Str.all Str.is_digit a = true -> Str.all Str.is_digit b = true -> a +:+ String "_" s = b +:+ String "_" t -> a = b.
Proof.
  revert b. induction a as [|x a IH]; intros [|y b] Ha Hb E; simpl in *; [done| | |].
  - injection E as <- _. by apply andb_prop in Hb as [Hb _].
  - injection E as -> _. by apply andb_prop in Ha as [Ha _].
  - injection E as -> E. apply andb_prop in Ha as [_ Ha]. apply andb_prop in Hb as [_ Hb]. f_equal. by apply (IH b).
Qed.

Lemma slave_wire_inj name k k' s s' : s ∈ m_axi_compact_suffixes -> s' ∈ m_axi_compact_suffixes ->
  crossbar_slave_prefix name k +:+ s = crossbar_slave_prefix name k' +:+ s' -> k = k'.
Proof.
  assert (Hu : forall s, s ∈ m_axi_compact_suffixes -> exists t, s = String "_" t).
  { intros x Hx. revert x Hx. apply Forall_forall. repeat (constructor; [eexists; reflexivity|]). constructor. }
  intros (t & ->)%Hu (t' & ->)%Hu. unfold crossbar_slave_prefix. rewrite !Str.app_assoc. intros E. repeat apply Str.app_inj_l in E.
  apply digits_end in E; [|apply Str.show_digits; lia..]. apply Str.show_inj in E; lia.
Qed.

Section meeting.
Context `{UnicodeTables} `{RtlLibraries}.

Lemma direct_not_shared st task c d : direct_interface st task c d -> needs_crossbar c = false.
Proof using Type. intros [Hh _ (s & insts & inst & b & child & p & m & Hs & _) _]. unfold needs_crossbar, thread_count. by rewrite Hs, Hh. Qed.

(** What [prepare] hands to the passes about memories: a plan of pipelines leaves
    no memory shared. *)
Lemma prepare_memories st name i : prepare st name = Ok i ->
  keyed (ti_mmap_conns i) /\ Forall (fun c => validate_mmap_connection c = Ok tt) (BMap.values (ti_mmap_conns i)) /\
  ti_slave_map i = fold_left insert_slaves (BMap.values (ti_mmap_conns i)) BMap.empty /\
  (Exists (fun c => needs_crossbar c = true) (BMap.values (ti_mmap_conns i)) -> ti_axi_plan i = None).
Proof using Type.
  unfold prepare. intros (task & _ & Hp)%rbind_ok. apply rbind_ok in Hp as (names & _ & Hp). apply rbind_ok in Hp as (conns & Hc & Hp).
  apply rbind_ok in Hp as ([] & Hv & Hp). apply rbind_ok in Hp as (axi & Ha & Hp). apply rbind_ok in Hp as (control & _ & [= <-]). simpl.
  split; [by eapply aggregate_keyed|]. split; [by apply try_each_ok|]. split; [done|]. intros (c & Hin & Hx)%Exists_exists.
  destruct (bool_decide _), (Topology.floorplan st) as [fp|]; try by injection Ha as <-. apply rbind_ok in Ha as (ifs & Hi & _). exfalso.
  unfold direct_mmap_interfaces in Hi. apply rbind_ok in Hi as (t & _ & Hi). apply rbind_ok in Hi as (conns' & Hc' & Hi). rewrite Hc in Hc'. injection Hc' as <-.
  apply try_map_Forall2 in Hi. clear - Hi Hin Hx.
  induction Hi as [|c' d cs ds Hd _ IH]; [by apply not_elem_of_nil in Hin|]. apply elem_of_cons in Hin as [<-|Hin]; [|by apply IH].
  apply direct_interface_ok, direct_not_shared in Hd. congruence.
Qed.

(** C22: the wires of a shared memory meet. For a memory that needs a crossbar and that
    no instance takes through two ports ([NoDup] of the slave sites), and an instance
    that takes it through a port of category [Mmap]: the port of the crossbar counted
    for the instance and the instance's own port are on the same wire, narrowed to the
    ID width the instance drives, and no other slave has that wire. An instance that
    takes the memory through two ports leaves a port of the crossbar unconnected
    ([same_memory_twice]), and an asynchronous port is connected through a bridge:
    neither is covered. *)
Theorem children_meet_crossbars st name i c k s child idx bindings port a fifos parent_rtl child_rtl : prepare st name = Ok i ->
  c ∈ BMap.values (ti_mmap_conns i) -> needs_crossbar c = true -> NoDup (map slave_site (mc_slaves c)) -> mc_slaves c !! k = Some s ->
  (ci_child child, idx) = slave_site s -> (port, a) ∈ ci_args child -> cat a = Mmap -> arg_name a = Some (mc_arg_name c) ->
  build_mmap_bindings (ti_mmap_conns i) (ti_slave_map i) (ti_axi_plan i) child idx = Ok bindings ->
  exists crossbar, try_build_crossbar_instance c = Ok crossbar /\ forall suffix, suffix ∈ m_axi_compact_suffixes -> exists w,
    mkPortArg ("s" +:+ show2 (Z.of_nat k) +:+ suffix) (Ident w) ∈ mi_ports crossbar /\
     mkPortArg ("m_axi_" +:+ port +:+ suffix) (direct_mmap_connection_expr w suffix (Some (crossbar_slave_id_width c, ms_id_width s)))
      ∈ arg_portargs (ci_name child) bindings fifos parent_rtl child_rtl (port, a) /\
     forall k' suffix', suffix' ∈ m_axi_compact_suffixes -> w = crossbar_slave_prefix (sanitize_array_name (mc_arg_name c)) k' +:+ suffix' -> k' = k.
Proof using Type.
  intros Hp Hc Hx Hnd Hk [= Hchild Hidx] Hin Hcat Ha Hb. destruct (prepare_memories _ _ _ Hp) as (Hkey & Hval & Hmap & Hpipe).
  assert (Haxi : ti_axi_plan i = None) by (apply Hpipe, Exists_exists; by exists c).
  rewrite Forall_forall in Hval. specialize (Hval c Hc). pose proof (keyed_distinct _ Hkey) as Hdist. destruct Hkey as [Hw Hkey].
  assert (Hget : BMap.get (mc_arg_name c) (ti_mmap_conns i) = Some c).
  { apply list_elem_of_In, in_map_iff in Hc as ([p c'] & Hc' & Hi'). simpl in Hc'. subst c'. rewrite Forall_forall in Hkey.
    specialize (Hkey (p, c) (proj2 (list_elem_of_In _ _) Hi')). simpl in Hkey. rewrite Hkey. by apply BMap.In_get. }
  assert (Hbind : child_binding bindings (mc_arg_name c) = Crossbar k (crossbar_slave_id_width c) (ms_id_width s)).
  { eapply child_binding_of; [exact Hb| |exact Hin|by rewrite Hcat|exact Ha]. intros p b' Hb'. unfold bind_mmap in Hb'. rewrite Haxi, Hmap, Hchild, Hidx in Hb'.
    rewrite (fold_slaves_number _ _ c k s) in Hb' by done. unfold index, expect in Hb'. rewrite Hget in Hb'. cbn [rbind] in Hb'. rewrite Hk in Hb'. by injection Hb' as <-. }
  unfold try_build_crossbar_instance, try_build_crossbar_params. rewrite Hval. cbn [rbind]. eexists. split; [reflexivity|]. intros suffix Hs.
  exists (crossbar_slave_prefix (sanitize_array_name (mc_arg_name c)) k +:+ suffix). cbn [mi_ports]. split; [|split].
  - apply elem_of_app. right. apply elem_of_app. right. apply list_elem_of_In, in_flat_map. exists k. split.
    + apply in_seq. apply lookup_lt_Some in Hk. lia.
    + unfold slave_ports. apply in_map_iff. exists suffix. split; [done|by apply list_elem_of_In].
  - unfold arg_portargs. rewrite Hcat, Ha. cbn [is_scalar]. unfold mmap_portargs. rewrite Hbind. unfold direct_mmap_portargs. apply elem_of_app. right.
    apply list_elem_of_In, in_flat_map. exists suffix. split; [by apply list_elem_of_In|]. by left.
  - intros k' suffix' Hs' E. symmetry. exact (slave_wire_inj _ _ _ _ _ Hs Hs' E).
Qed.
End meeting.

(** ** A concrete design: a child that completes, an autorun one, their pipelines *)

Module GeneratedExample.
#[local] Instance tables : UnicodeTables := { word_chars s := Str.all is_word s; word_chars_ascii s _ := eq_refl }.

Definition fsm_header : VerilogModule := mkModule "top_fsm" [] [] [] "".
#[local] Instance libraries : RtlLibraries := { parse_module _ := Ok fsm_header; original_module_text _ := ("", ""); zero_driven_names _ := []; regex_remove _ s := s }.

Definition scalar_arg : Arg := arg_named "n" Scalar.
Definition child : TaskInstance := mkInstance None [("n", scalar_arg); ("p", arg_named "a" Mmap)] 0.
Definition ticker : TaskInstance := mkInstance (Some "tick") [("n", scalar_arg)] (-1).
Definition leaf : Task := simple_task Lower [plain_port Scalar "n" "int" 32; plain_port Mmap "p" "float*" 32] [] [].
Definition top_def : Task := simple_task Upper [plain_port Scalar "n" "int" 32; plain_port Mmap "a" "float*" 32] [("leaf", [child; ticker])] [].
Definition graph : TaskGraph := mkGraph 3 "top" XilinxVitis [] [("leaf", leaf); ("top", top_def)].
Definition state : TopologyWithRtl := set_modules (topology_new graph) [("top", empty_fsm)].
Definition generated : res CodegenError (TopologyWithRtl * ArtifactManifest) := generate_rtl [("fifo.v", "")] state.
Definition result : TopologyWithRtl * ArtifactManifest := match generated with Ok r => r | _ => (state, mkManifest [] []) end.
Definition fsm : MutableModule := default empty_fsm (BMap.get "top" (fsm_modules result.1)).
Definition trace : nat -> env := simulate (added_assigns fsm) (added_always fsm) sample_inputs.

Lemma trace_behaviour : module_behaviour fsm trace.
Proof. apply simulate_behaviour; vm_compute; reflexivity. Qed.

Lemma trace_input t n : n ∉ registers (added_always fsm) -> n ∉ assigned (added_assigns fsm) -> trace t n = sample_inputs t n.
Proof. apply simulate_input; vm_compute; reflexivity. Qed.

Ltac input := rewrite trace_input by (apply (bool_decide_unpack _); vm_compute; exact I).

Lemma trace_answers g t : g ∈ completing (map sig_of (invocations top_def)) -> answers trace g t.
Proof.
  intros Hg. assert (g = mkSig "leaf_0" false) as -> by (apply elem_of_cons in Hg as [->|Hg]; [reflexivity|by apply not_elem_of_nil in Hg]).
  assert (H : forall u, hi (trace u) "leaf_0__ap_ready" = true /\ hi (trace u) "leaf_0__ap_done" = true) by (intros u; unfold hi; do 2 input; done).
  split; intros u Hu; [intros _|intros _ _]; exists u; (split; [done|apply H]).
Qed.

Lemma trace_runs u : (0 < u)%nat -> trace u HANDSHAKE_RST_N <> 0.
Proof. intros Hu. input. unfold sample_inputs. by rewrite bool_decide_eq_false_2 by lia. Qed.

Lemma trace_reset : trace 0 HANDSHAKE_RST_N = 0.
Proof. by input. Qed.

Lemma trace_idle : hi (trace 1) HANDSHAKE_IDLE = true /\ hi (trace 1) HANDSHAKE_START = true.
Proof. vm_compute. done. Qed.

Lemma generated_rtl_completes_witness : exists v, (1 < v)%nat /\ hi (trace v) HANDSHAKE_DONE = true.
Proof.
  assert (Hg : generate_rtl [("fifo.v", "")] state = Ok (result.1, result.2)) by (vm_compute; reflexivity).
  destruct (generated_rtl_completes [("fifo.v", "")] state _ _ "top" top_def Hg) as (m & Hm & H);
    [split; [reflexivity|split; reflexivity]|right; split; reflexivity|].
  assert (Hf : m = fsm) by (unfold fsm; rewrite Hm; reflexivity). rewrite Hf in H.
  destruct (H trace 0%nat 1%nat trace_behaviour trace_reset trace_runs ltac:(lia) (proj1 trace_idle) (proj2 trace_idle) (fun g => trace_answers g 1%nat))
    as (v & Hv & Hd & _). exists v. split; assumption.
Defined.
End GeneratedExample.

(** ** Two instances of a leaf that share a memory *)

Module SharedExample.
Definition leaf : Task := simple_task Lower [plain_port Mmap "p" "float*" 32; plain_port Mmap "q" "float*" 32] [] [].
Definition user : TaskInstance := mkInstance None [("p", arg_named "a" Mmap)] 0.
Definition both : TaskInstance := mkInstance None [("p", arg_named "a" Mmap); ("q", arg_named "a" Mmap)] 0.
Definition design (users : list TaskInstance) : TaskGraph :=
  mkGraph 3 "top" XilinxVitis [] [("leaf", leaf); ("top", simple_task Upper [plain_port Mmap "a" "float*" 32] [("leaf", users)] [])].
Definition inputs (users : list TaskInstance) : res CodegenError TaskStageInputs :=
  prepare (H0 := GeneratedExample.libraries) (topology_new (design users)) "top".
Definition user_child : ChildInstance := mkChild "leaf" "leaf_1" (mkSig "leaf_1" false) (inst_args user) None.
Definition both_child : ChildInstance := mkChild "leaf" "leaf_0" (mkSig "leaf_0" false) (inst_args both) None.

Definition result (users : list TaskInstance) : TaskStageInputs :=
  match inputs users with Ok i => i | _ => mkInputs false [] [] None None [] false end.
Definition memory (i : TaskStageInputs) : MMapConnection := default (mkConnection "" [] (mkGeometry 0 None)) (head (BMap.values (ti_mmap_conns i))).
Definition bindings (i : TaskStageInputs) (child : ChildInstance) (idx : nat) : res CodegenError (bmap string ChildMmapBinding) :=
  build_mmap_bindings (ti_mmap_conns i) (ti_slave_map i) (ti_axi_plan i) child idx.
End SharedExample.

Lemma children_meet_crossbars_witness : let c := SharedExample.memory (SharedExample.result [SharedExample.user; SharedExample.user]) in
  exists crossbar w, try_build_crossbar_instance c = Ok crossbar /\ mkPortArg "s01_ARADDR" (Ident w) ∈ mi_ports crossbar /\
    mkPortArg "m_axi_p_ARADDR" (direct_mmap_connection_expr w "_ARADDR" (Some (crossbar_slave_id_width c, 1)))
      ∈ arg_portargs (H := GeneratedExample.tables) "leaf_1" [("a", Crossbar 1 1 1)] [] None None ("p", arg_named "a" Mmap).
Proof.
  intros c. set (i := SharedExample.result [SharedExample.user; SharedExample.user]) in c.
  assert (Hi : SharedExample.inputs [SharedExample.user; SharedExample.user] = Ok i) by (vm_compute; reflexivity).
  assert (Hs : mc_slaves c !! 1%nat = Some (mkSlave "leaf" 1 "p" 1 1)) by (vm_compute; reflexivity).
  destruct (children_meet_crossbars (H := GeneratedExample.tables) (H0 := GeneratedExample.libraries) (topology_new (SharedExample.design [SharedExample.user; SharedExample.user])) "top"
    i c 1 (mkSlave "leaf" 1 "p" 1 1) SharedExample.user_child 1 [("a", Crossbar 1 1 1)] "p" (arg_named "a" Mmap) [] None None Hi) as (crossbar & Hc & H).
  - assert (E : BMap.values (ti_mmap_conns i) = [c]) by (vm_compute; reflexivity). rewrite E. left.
  - vm_compute. reflexivity.
  - apply (bool_decide_unpack _). vm_compute. exact I.
  - exact Hs.
  - reflexivity.
  - left.
  - reflexivity.
  - vm_compute. reflexivity.
  - vm_compute. reflexivity.
  - destruct (H "_ARADDR") as (w & H1 & H2 & _); [apply (bool_decide_unpack _); vm_compute; exact I|]. exists crossbar, w. split; [exact Hc|]. split; [exact H1|exact H2].
Defined.

(** An instance that takes the memory through two ports is counted as two slaves,
    but both its ports are on the wires of the second. *)
Example same_memory_twice : let i := SharedExample.result [SharedExample.both] in
  map ms_port (mc_slaves (SharedExample.memory i)) = ["p"; "q"] /\ SharedExample.bindings i SharedExample.both_child 0 = Ok [("a", Crossbar 1 1 1)].
Proof. split; vm_compute; reflexivity. Qed.
