(* ===== verification/CosimSpec.v ===== *)
(** * What a co-simulation is given

    The kernel a package declares ([frt-cosim/src/metadata/mod.rs]), the binding
    of its scalars, the configuration the simulator attaches with
    ([frt-shm/src/config.rs]), and the runners of the two simulators. *)

From S2P Require Import Prelude RustStd BTreeMap.

Local Open Scope Z_scope.

(** ** Kernels *)

Inductive StreamDir := DirIn | DirOut.
Inductive StreamProtocol := Axis | ApFifo.

Inductive ArgKind :=
| Scalar (width : Z)
| Mmap (data_width addr_width : Z)
| Stream (width depth : Z) (dir : StreamDir) (protocol : StreamProtocol).

Record ArgSpec := mkArg { as_name : string; as_id : Z; as_kind : ArgKind }.

(** What the runtime reads of [KernelSpec]; the files of the kernel and its
    register map are for the test-bench generators. *)
Record KernelSpec := mkKernelSpec { ks_top : string; ks_args : list ArgSpec; ks_part : option string }.

Definition is_stream_kind (k : ArgKind) : bool := match k with Stream _ _ _ _ => true | _ => false end.
Definition is_mmap_kind (k : ArgKind) : bool := match k with Mmap _ _ => true | _ => false end.

(** [u32::div_ceil] and the like. *)
Definition div_ceil (a b : Z) : Z := (a + b - 1) / b.

(** [normalized_scalar_bytes]. *)
Definition normalized_scalar_bytes (width_bits : Z) (raw : option (list Z)) : list Z :=
  let expected := Z.to_nat (Z.max 1 (div_ceil width_bits 8)) in
  let out := match raw with Some bytes => bytes | None => [] end in
  match Nat.compare (length out) expected with
  | Lt => out ++ replicate (expected - length out) 0
  | Gt => take expected out
  | Eq => out
  end.

(** ** The configuration of the DPI *)

(** [BufferEntry]: base address and path; [StreamEntry]: width in bytes and path. *)
Record DpiConfig := mkDpiConfig { dc_buffers : bmap string (Z * string); dc_streams : bmap string (Z * string) }.

(** [serde_json::Value], as far as it is indexed. *)
Inductive Json :=
| JNull
| JU64 (n : Z)
| JString (s : string)
| JArray (l : list Json)
| JObject (fields : bmap string Json)
| JOther.

(** [value[key]]. *)
Definition index (v : Json) (key : string) : Json :=
  match v with JObject fields => match BMap.get key fields with Some x => x | None => JNull end | _ => JNull end.

Definition as_str (v : Json) : option string := match v with JString s => Some s | _ => None end.
Definition as_u64 (v : Json) : option Z := match v with JU64 n => Some n | _ => None end.
(** The elements of an array, and the values of an object in the order of its keys;
    none for another value. *)
Definition array_items (v : Json) : list Json := match v with JArray l => l | _ => [] end.
Definition object_values (v : Json) : list Json := match v with JObject fields => BMap.values fields | _ => [] end.
Definition object_keys (v : Json) : list string := match v with JObject fields => BMap.keys fields | _ => [] end.

(** ** Simulators *)

Inductive Simulator := SimVerilator | SimXsim (legacy : bool).

(** [VerilatorRunner] and [XsimRunner], with [XsimOptions]. *)
Inductive Runner :=
| VerilatorRunner (dpi_lib : string)
| XsimRunner (dpi_lib : string) (save_waveform legacy start_gui : bool) (part_num_override : option string).

Record ExitStatus := mkExit { exit_success : bool; exit_text : string }.

(** ** Scalars *)

Lemma div_ceil_spec a b : 0 < b -> div_ceil a b * b < a + b /\ a <= div_ceil a b * b.
Proof. intros Hb. unfold div_ceil. pose proof (Z.div_mod (a + b - 1) b ltac:(lia)). pose proof (Z.mod_pos_bound (a + b - 1) b Hb). nia. Qed.

Lemma normalized_scalar_length width raw : 0 <= width -> Z.of_nat (length (normalized_scalar_bytes width raw)) = Z.max 1 (div_ceil width 8).
Proof.
  intros Hw. unfold normalized_scalar_bytes. set (out := match raw with Some bytes => bytes | None => [] end).
  destruct (Nat.compare_spec (length out) (Z.to_nat (Z.max 1 (div_ceil width 8)))) as [->|Hl|Hl]; rewrite ?length_app, ?length_replicate, ?length_take; lia.
Qed.

Lemma normalized_scalar_idempotent width raw : 0 <= width ->
  normalized_scalar_bytes width (Some (normalized_scalar_bytes width raw)) = normalized_scalar_bytes width raw.
Proof.
  intros Hw. pose proof (normalized_scalar_length width raw Hw) as Hl. unfold normalized_scalar_bytes at 1.
  replace (length _) with (Z.to_nat (Z.max 1 (div_ceil width 8))) by lia. by rewrite Nat.compare_refl.
Qed.

Example scalar_bytes : normalized_scalar_bytes 17 (Some [1; 2; 3; 4]) = [1; 2; 3] /\ normalized_scalar_bytes 32 (Some [7]) = [7; 0; 0; 0] /\ normalized_scalar_bytes 0 None = [0].
Proof. by split_and!. Qed.
