(* ===== verification/Frt.v ===== *)
(** * The host runtime: errors, buffers, and the kind of a bitstream

    [frt/src/error.rs], [frt/src/device.rs] and [frt/src/instance.rs].  What lies
    outside the runtime (an operating system, a board, a simulator, a clock, the
    memory of the host) is an environment that is asked with events and answers
    from the history of the events before; an operation of the runtime is a
    function of its own state and of that history, and extends both. *)

From Stdlib Require Import SpecFloat.
From S2P Require Import Prelude RustStd BTreeMap CosimSpec.

Local Open Scope Z_scope.

(** ** Errors ([FrtError]) *)

(** An [ExitStatus], an [io::Error] and a [CosimError] are their texts. *)
Inductive FrtError :=
| Vrt (detail : string)
| NoDevice (path : string)
| MetadataParse (detail : string)
| DpiLibraryNotFound (name : string)
| NoXrtRuntime (detail : string)
| ResumeStreamBinding (detail : string)
| CosimOption (detail : string)
| CosimTimeout (timeout_secs : Z)
| Xrt (detail : string)
| SimFailed (status : string)
| Io (error : string)
| CosimFailed (error : string).

Definition vrt {A} (detail : string) : res FrtError A := Err (Vrt detail).

(** [Display]. *)
Definition frt_display (e : FrtError) : string :=
  match e with
  | Vrt d => "VRT error: " +:+ d
  | NoDevice p => "no device found for " +:+ p
  | MetadataParse d => "xclbin/xo metadata parse error: " +:+ d
  | DpiLibraryNotFound n =>
      "cosim runtime library `" +:+ n +:+ "` not found; searched next to the host executable, the linked library path, $TAPA_HOME, and LD_LIBRARY_PATH. Set TAPA_HOME to the TAPA installation prefix (for example `/opt/tapa`) and retry"
  | NoXrtRuntime d =>
      "no XRT runtime found: " +:+ d +:+ ". Install XRT (and source its setup.sh) to run a design on hardware or in hardware emulation; software simulation and fast cosim do not need it"
  | ResumeStreamBinding d => "resume-from-post-sim stream binding error: " +:+ d
  | CosimOption d => "invalid cosim runtime option: " +:+ d
  | CosimTimeout s =>
      "cosimulation exceeded the configured " +:+ Str.show s +:+ "s wall-clock timeout; increase -cosim_timeout_seconds or set it to 0 to disable the timeout"
  | Xrt d => "XRT error: " +:+ d
  | SimFailed s => "simulator exited with status " +:+ s
  | Io e => e
  | CosimFailed e => "cosim error: " +:+ e
  end.

(** ** Bytes and text *)

Definition bytes_of (s : string) : list Z := map Str.code (list_ascii_of_string s).

(** The length of the longest prefix that is a character or the start of one,
    and whether it is a whole character ([String::from_utf8_lossy] replaces the
    others). *)
Definition continues (lo hi : Z) (o : option Z) : bool := match o with Some b => (lo <=? b) && (b <=? hi) | None => false end.

Definition second_range (b : Z) : Z * Z :=
  if b =? 224 then (160, 191) else if b =? 237 then (128, 159) else if b =? 240 then (144, 191) else if b =? 244 then (128, 143) else (128, 191).

Definition utf8_len (b : Z) : nat :=
  if b <? 128 then 1 else if (194 <=? b) && (b <=? 223) then 2 else if (224 <=? b) && (b <=? 239) then 3 else if (240 <=? b) && (b <=? 244) then 4 else 0.

Definition utf8_step (b : Z) (rest : list Z) : nat * bool :=
  let n := utf8_len b in
  let '(lo, hi) := second_range b in
  match n with
  | 0%nat => (1%nat, false)
  | 1%nat => (1%nat, true)
  | _ =>
      if negb (continues lo hi (rest !! 0%nat)) then (1%nat, false)
      else if Nat.eqb n 2 then (2%nat, true)
      else if negb (continues 128 191 (rest !! 1%nat)) then (2%nat, false)
      else if Nat.eqb n 3 then (3%nat, true)
      else if negb (continues 128 191 (rest !! 2%nat)) then (3%nat, false)
      else (4%nat, true)
  end.

Fixpoint lossy (fuel : nat) (bs : list Z) : list Z :=
  match fuel, bs with
  | S fuel, b :: rest =>
      let '(n, whole) := utf8_step b rest in
      (if whole then take n bs else [239; 191; 189]) ++ lossy fuel (drop n bs)
  | _, _ => []
  end.

(** Each step takes a byte, so the length is enough fuel. *)
Definition from_utf8_lossy (bs : list Z) : string := Str.utf8 (lossy (length bs) bs).

(** ** Buffers *)

Inductive BufferAccess := PlaceHolder | ReadOnly | WriteOnly | ReadWrite.

#[export] Instance access_eq_dec : EqDecision BufferAccess.
Proof. solve_decision. Defined.

Definition from_wire (value : Z) : option BufferAccess :=
  match value with
  | 0 => Some PlaceHolder
  | 1 => Some ReadOnly
  | 2 => Some WriteOnly
  | 3 => Some ReadWrite
  | _ => None
  end.

Definition loads_from_host (a : BufferAccess) : bool := match a with ReadOnly | ReadWrite => true | _ => false end.
Definition stores_to_host (a : BufferAccess) : bool := match a with WriteOnly | ReadWrite => true | _ => false end.

(** ** The kind of a bitstream *)

Inductive ExecutionMode := ModeVrt | ModeHardware | ModeCosim.

(** [Path::extension]: what follows the last dot of the file name, unless it
    is the only one and the name starts with it. *)
Definition extension (name : string) : option string :=
  match List.rev (Str.split "." name) with
  | ext :: ((_ :: _) as before) => if bool_decide (before = [""]) then None else Some ext
  | _ => None
  end.

Definition mode_of (path : string) : res FrtError ExecutionMode :=
  match (let? name := Str.file_name path in extension name) with
  | Some ext =>
      if String.eqb ext "vbin" then Ok ModeVrt
      else if String.eqb ext "xclbin" then Ok ModeHardware
      else if String.eqb ext "xo" || String.eqb ext "zip" then Ok ModeCosim
      else Err (NoDevice path)
  | None => Err (NoDevice path)
  end.

(** ** The environment *)

(** [struct vrtd_buffer], as far as the runtime reads it, and [BarFile]. *)
Record VrtdBuffer := mkVrtdBuffer { vb_handle : Z; vb_size : Z; vb_phys_addr : Z; vb_staged : bool }.
Record BarFile := mkBar { bar_mapped : bool; bar_len : Z; bar_fd : Z; bar_mock : bool }.

(** The functions of XRT the runtime calls ([frt/src/xrt/api.rs]); a handle is its
    address, and 0 the null one.  A variadic argument is a word, a [size_t], a
    [double], or a handle. *)
Inductive XrtValue := VaU32 (v : Z) | VaU64 (v : Z) | VaDouble (v : spec_float) | VaHandle (bo : Z).

Inductive ApiCall :=
| DeviceOpen (index : Z)
| DeviceOpenByBdf (bdf : string)
| DeviceClose (device : Z)
| DeviceLoadXclbinFile (device : Z) (path : string)
| DeviceGetXclbinUuid (device : Z)
| KernelOpen (device : Z) (uuid : list Z) (name : string)
| KernelClose (kernel : Z)
| KernelArgGroupId (kernel arg : Z)
| BoAlloc (device size group : Z)
| BoAllocUserPtr (device ptr size group : Z)
| BoFree (bo : Z)
| BoWrite (bo : Z) (data : list Z)
| BoRead (bo size : Z)
| BoSync (bo direction size : Z)
| RunOpen (kernel : Z)
| RunClose (run : Z)
| RunSetArg (run arg : Z) (value : XrtValue)
| RunStart (run : Z)
| RunState (run : Z)
| RunWait (run : Z)
| GraphOpen (device : Z) (uuid : list Z) (name : string)
| GraphClose (graph : Z)
| GraphReset (graph : Z)
| GraphRun (graph iterations : Z)
| GraphWait (graph cycles : Z)
| GraphUpdateRtp (graph : Z) (alias : string) (value : list Z).

Inductive Event :=
| Now
| Sleep (ns : Z)
| HostRead (ptr bytes : Z)
| HostWrite (ptr : Z) (data : list Z)
| MmioRead (offset : Z)
| MmioWrite (offset value : Z)
| BarIoctl (fd flags : Z)
| Connect (socket : string)
| DeviceByBdf (fd : Z) (bdf : string)
| DesignWriteFile (fd device : Z) (path : string)
| ClockSetRate (fd device region hz : Z)
| ClockGetRate (fd device region : Z)
| OpenBar (fd device bar : Z)
| CloseBar
| CloseFd (fd : Z)
| BufferOpen (fd device kind direction region size : Z)
| BufferClose (handle : Z)
| SyncToDevice (handle offset size : Z)
| SyncFromDevice (handle offset size : Z)
| StagingWrite (handle : Z) (data : list Z)
| StagingRead (handle bytes : Z)
| Request (frames : list (list Z))
| CloseTransport
| StopProcess
| ProcessId
| ShmNonce
| MapCreate (path : string) (size : Z)
| MapOpen (path : string)
| MapRead (path : string) (len : Z)
| MapWrite (path : string) (offset : Z) (data : list Z)
| Unlink (path : string)
| GetEnv (name : string)
| ReadFile (path : string)
| WriteConfig (path : string) (config : DpiConfig)
| CreateDirAll (path : string)
| Canonicalize (path : string)
| TempDir
| UnixNanos
| LoadSpec (path : string)
| DpiLibrary (variant : string)
| Prepare (runner : Runner) (config : DpiConfig) (scalars : list (Z * list Z)) (tb_dir : string)
| Spawn (runner : Runner) (config : DpiConfig) (tb_dir : string)
| TryWait (child : Z)
| Wait (child : Z)
| KillGroup (pgid signal : Z)
| XrtApi (call : ApiCall).

(** What an event is answered with: a return code with the values written
    through the pointers, or a result that carries the text of the error.  A call of
    XRT returns a handle, a code or nothing (0), and may write bytes. *)
Definition answer (e : Event) : Type :=
  match e return Type with
  | Now | MmioRead _ => Z
  | HostRead _ _ | StagingRead _ _ => list Z
  | BarIoctl _ _ => option string
  | Connect _ => (string + Z)%type
  | DesignWriteFile _ _ _ | SyncToDevice _ _ _ | SyncFromDevice _ _ _ => Z
  | DeviceByBdf _ _ | ClockSetRate _ _ _ _ | ClockGetRate _ _ _ => (Z * Z)%type
  | OpenBar _ _ _ => (Z * BarFile)%type
  | BufferOpen _ _ _ _ _ _ => (Z * option VrtdBuffer)%type
  | Request _ => (FrtError + list Z)%type
  | ProcessId | ShmNonce | UnixNanos => Z
  | MapCreate _ _ | WriteConfig _ _ | CreateDirAll _ | Prepare _ _ _ _ => option string
  | MapOpen _ => (string + Z)%type
  | MapRead _ _ => list Z
  | GetEnv _ => option string
  | ReadFile _ | Canonicalize _ | TempDir => (string + string)%type
  | LoadSpec _ => (string + KernelSpec)%type
  | DpiLibrary _ => (FrtError + string)%type
  | Spawn _ _ _ => (string + Z)%type
  | TryWait _ => (string + option ExitStatus)%type
  | Wait _ => (string + ExitStatus)%type
  | KillGroup _ _ => option (Z * string)
  | XrtApi _ => (Z * list Z)%type
  | _ => unit
  end.

Definition history : Type := list Event.

(** An answer to each event, for concrete environments to start from: calls
    succeed, and what is read is zero, empty or absent. *)
Definition default_answer (e : Event) : answer e :=
  match e return answer e with
  | Now | MmioRead _ => 0
  | HostRead _ n | StagingRead _ n | MapRead _ n => replicate (Z.to_nat n) 0
  | BarIoctl _ _ => None
  | Connect _ => inr 0
  | DesignWriteFile _ _ _ | SyncToDevice _ _ _ | SyncFromDevice _ _ _ => 0
  | DeviceByBdf _ _ | ClockSetRate _ _ _ _ | ClockGetRate _ _ _ => (0, 0)
  | OpenBar _ _ _ => (0, mkBar true 0 0 false)
  | BufferOpen _ _ _ _ _ _ => (0, None)
  | Request _ => inr []
  | ProcessId | ShmNonce | UnixNanos => 0
  | MapCreate _ _ | WriteConfig _ _ | CreateDirAll _ | Prepare _ _ _ _ => None
  | MapOpen _ => inr 0
  | GetEnv _ => None
  | ReadFile _ | Canonicalize _ | TempDir => inr EmptyString
  | LoadSpec _ => inr (mkKernelSpec "" [] None)
  | DpiLibrary _ => inr EmptyString
  | Spawn _ _ _ => inr 0
  | TryWait _ => inr None
  | Wait _ => inr (mkExit true "exit status: 0")
  | KillGroup _ _ => None
  | XrtApi _ => (0, [])
  | _ => tt
  end.

Class Env := { respond : forall e : Event, history -> answer e }.

(** ** Time *)

(** The time a stretch of history sleeps. *)
Definition slept (h : history) : Z := zsum (fun e => match e with Sleep ns => Z.max 0 ns | _ => 0 end) h.

Lemma slept_app h1 h2 : slept (h1 ++ h2) = slept h1 + slept h2.
Proof. apply zsum_app. Qed.

Lemma slept_nonneg h : 0 <= slept h.
Proof. induction h as [|e h IH]; [done|]. change (slept (e :: h)) with (match e with Sleep ns => Z.max 0 ns | _ => 0 end + slept h). destruct e; lia. Qed.

(** [Instant] never goes back, and a sleep takes at least as long as asked. *)
Class MonotonicClock `{Env} : Prop := clock_advances : forall h h', respond Now h + slept h' <= respond Now (h ++ h').

(** What a library returns as a [Result]. *)
Definition of_sum {E A} (r : E + A) : res E A := match r with inl e => Err e | inr a => Ok a end.

(** ** Operations *)

(** An operation on a device of type [D]: what it returns, and the device and
    the history after it, also when it fails. *)
Definition io (D A : Type) : Type := D * history -> res FrtError A * (D * history).

Section io.
Context {D : Type}.

Definition io_ret {A} (a : A) : io D A := fun s => (Ok a, s).
Definition io_lift {A} (r : res FrtError A) : io D A := fun s => (r, s).
Definition io_bind {A B} (m : io D A) (k : A -> io D B) : io D B := fun s =>
  match m s with
  | (Ok a, s') => k a s'
  | (Err e, s') => (Err e, s')
  | (Panic, s') => (Panic, s')
  end.
Definition io_get : io D D := fun s => (Ok s.1, s).
Definition io_modify (f : D -> D) : io D unit := fun s => (Ok tt, (f s.1, s.2)).
Definition io_map_err {A} (f : FrtError -> FrtError) (m : io D A) : io D A := fun s => let '(r, s') := m s in (map_err f r, s').

Definition ask `{Env} (e : Event) : io D (answer e) := fun s => (Ok (respond e s.2), (s.1, s.2 ++ [e])).
Definition tell `{Env} (e : Event) : io D unit := fun s => (Ok tt, (s.1, s.2 ++ [e])).

Fixpoint io_each {A} (f : A -> io D unit) (l : list A) : io D unit :=
  match l with
  | [] => io_ret tt
  | x :: l' => io_bind (f x) (fun _ => io_each f l')
  end.

(** *** How a composed operation can end *)

Lemma io_bind_ok {A B} (m : io D A) (k : A -> io D B) s b s' :
  io_bind m k s = (Ok b, s') <-> exists a s1, m s = (Ok a, s1) /\ k a s1 = (Ok b, s').
Proof. unfold io_bind. destruct (m s) as [[a|e|] s1]; naive_solver. Qed.

Lemma io_bind_fail {A B} (m : io D A) (k : A -> io D B) s r s' : io_bind m k s = (r, s') -> (forall b, r <> Ok b) ->
  (exists r1, m s = (r1, s') /\ (forall a, r1 <> Ok a) /\ (r1 = Panic <-> r = Panic)) \/ exists a s1, m s = (Ok a, s1) /\ k a s1 = (r, s').
Proof.
  unfold io_bind. destruct (m s) as [[a|e|] s1]; intros H Hr; [right; by exists a, s1| |]; left; simplify_eq; eexists; (split; [done|]); done.
Qed.

Lemma io_bind_assoc {A B C} (m : io D A) (k : A -> io D B) (l : B -> io D C) s : io_bind (io_bind m k) l s = io_bind m (fun a => io_bind (k a) l) s.
Proof. unfold io_bind. by destruct (m s) as [[a|e|] s']. Qed.

(** *** What an operation leaves alone *)

(** The part [P] of the state and the history is the same afterwards, however it
    ends. *)
Definition keeps {X A} (P : D * history -> X) (m : io D A) : Prop := forall s, P (m s).2 = P s.

(** What [P] does not see. *)
Definition unseen {X} (P : D * history -> X) (e : Event) : Prop := forall d h, P (d, h ++ [e]) = P (d, h).

Section keeps.
Context {X : Type} (P : D * history -> X).

Lemma keeps_ret {A} (a : A) : keeps P (io_ret a).
Proof. by intros s. Qed.
Lemma keeps_lift {A} (r : res FrtError A) : keeps P (io_lift r).
Proof. by intros s. Qed.
Lemma keeps_get : keeps P io_get.
Proof. by intros s. Qed.
Lemma keeps_ask `{Env} e : unseen P e -> keeps P (ask e).
Proof. intros He [d h]. apply He. Qed.
Lemma keeps_tell `{Env} e : unseen P e -> keeps P (tell e).
Proof. intros He [d h]. apply He. Qed.
Lemma keeps_modify f : (forall d h, P (f d, h) = P (d, h)) -> keeps P (io_modify f).
Proof. intros Hf [d h]. apply Hf. Qed.
Lemma keeps_bind {A B} (m : io D A) (k : A -> io D B) : keeps P m -> (forall a, keeps P (k a)) -> keeps P (io_bind m k).
Proof.
  intros Hm Hk s. unfold io_bind. specialize (Hm s). destruct (m s) as [[a|e|] s1]; simpl in *; [|done|done]. by rewrite <- Hm; apply Hk.
Qed.
Lemma keeps_map_err {A} f (m : io D A) : keeps P m -> keeps P (io_map_err f m).
Proof. intros Hm s. unfold io_map_err. specialize (Hm s). by destruct (m s). Qed.
Lemma keeps_each {A} (f : A -> io D unit) l : (forall x, keeps P (f x)) -> keeps P (io_each f l).
Proof. intros Hf. induction l as [|x l IH]; [apply keeps_ret|]. by apply keeps_bind. Qed.
End keeps.

(** *** What an operation emits

    From a device that satisfies [Pre], an operation leaves one that does, and the
    events it adds to the history satisfy [Q], however it ends. *)
Definition emits {A} (Pre : D -> Prop) (Q : Event -> Prop) (m : io D A) : Prop :=
  forall d h r d' h', Pre d -> m (d, h) = (r, (d', h')) -> Pre d' /\ exists t, h' = h ++ t /\ Forall Q t.

Section emits.
Context (Pre : D -> Prop) (Q : Event -> Prop).

Lemma emits_nothing {A} (m : io D A) : (forall d h, Pre d -> exists r d', m (d, h) = (r, (d', h)) /\ Pre d') -> emits Pre Q m.
Proof. intros Hm d h r d' h' Hd E. destruct (Hm d h Hd) as (r0 & d0 & E0 & Hd0). rewrite E in E0. injection E0 as -> -> ->. split; [done|]. exists []. by rewrite List.app_nil_r. Qed.
Lemma emits_ret {A} (a : A) : emits Pre Q (io_ret a).
Proof. apply emits_nothing. intros d h Hd. by exists (Ok a), d. Qed.
Lemma emits_lift {A} (r : res FrtError A) : emits Pre Q (io_lift r).
Proof. apply emits_nothing. intros d h Hd. by exists r, d. Qed.
Lemma emits_modify f : (forall d, Pre d -> Pre (f d)) -> emits Pre Q (io_modify f).
Proof. intros Hf. apply emits_nothing. intros d h Hd. exists (Ok tt), (f d). by split; [|apply Hf]. Qed.
Lemma emits_ask `{Env} e : Q e -> emits Pre Q (ask e).
Proof. intros He d h r d' h' Hd E. unfold ask in E. cbn [fst snd] in E. injection E as _ <- <-. split; [done|]. exists [e]. by repeat constructor. Qed.
Lemma emits_tell `{Env} e : Q e -> emits Pre Q (tell e).
Proof. intros He d h r d' h' Hd E. unfold tell in E. cbn [fst snd] in E. injection E as _ <- <-. split; [done|]. exists [e]. by repeat constructor. Qed.

Lemma emits_then {A B} (m : io D A) (k : A -> io D B) d h r d' h' (Hd : Pre d) : emits Pre Q m -> io_bind m k (d, h) = (r, (d', h')) ->
  (forall a d1 h1, m (d, h) = (Ok a, (d1, h1)) -> Pre d1 -> emits Pre Q (k a)) -> Pre d' /\ exists t, h' = h ++ t /\ Forall Q t.
Proof.
  intros Hm E Hk. unfold io_bind in E. destruct (m (d, h)) as [[a|e|] [d1 h1]] eqn:E1; apply Hm in E1 as H1; try done; destruct H1 as (Hd1 & t & -> & Ht).
  - destruct (Hk _ _ _ eq_refl Hd1 _ _ _ _ _ Hd1 E) as (Hd' & t' & -> & Ht'). split; [done|]. exists (t ++ t'). rewrite app_assoc. split; [done|]. by apply Forall_app.
  - injection E as _ <- <-. split; [done|]. by exists t.
  - injection E as _ <- <-. split; [done|]. by exists t.
Qed.

Lemma emits_bind {A B} (m : io D A) (k : A -> io D B) : emits Pre Q m -> (forall a, emits Pre Q (k a)) -> emits Pre Q (io_bind m k).
Proof. intros Hm Hk d h r d' h' Hd E. eapply emits_then; [exact Hd|exact Hm|exact E|intros; apply Hk]. Qed.
Lemma emits_bind_get {B} (k : D -> io D B) : (forall d, Pre d -> emits Pre Q (k d)) -> emits Pre Q (io_bind io_get k).
Proof.
  intros Hk d h r d' h' Hd E. unfold io_bind, io_get in E. cbn [fst] in E. by apply (Hk d Hd) in E.
Qed.
Lemma emits_bind_lift {A B} (r : res FrtError A) (k : A -> io D B) : (forall a, r = Ok a -> emits Pre Q (k a)) -> emits Pre Q (io_bind (io_lift r) k).
Proof.
  intros Hk. destruct r as [a|e|]; [by apply (Hk a)|apply emits_nothing..]; intros d h Hd; [by exists (Err e), d|by exists Panic, d].
Qed.
(** What an event is answered is known in what follows it. *)
Lemma emits_bind_ask `{Env} {B} e (k : answer e -> io D B) : Q e -> (forall h, emits Pre Q (k (respond e h))) -> emits Pre Q (io_bind (ask e) k).
Proof.
  intros He Hk d h r d' h' Hd E. unfold io_bind, ask in E. cbn [fst snd] in E. apply (Hk h) in E as (Hd' & t & -> & Ht); [|done]. split; [done|].
  exists (e :: t). by rewrite <- app_assoc; split; [|constructor].
Qed.
Lemma emits_each {A} (f : A -> io D unit) l : (forall x, x ∈ l -> emits Pre Q (f x)) -> emits Pre Q (io_each f l).
Proof.
  induction l as [|x l IH]; intros Hf; [apply emits_ret|]. cbn [io_each]. apply emits_bind; [apply Hf; left|]. intros _. apply IH. intros y Hy. apply Hf. by right.
Qed.
End emits.

Lemma emits_mono {A} (Pre : D -> Prop) (Q Q' : Event -> Prop) (m : io D A) : (forall e, Q e -> Q' e) -> emits Pre Q m -> emits Pre Q' m.
Proof. intros HQ Hm d h r d' h' Hd E. destruct (Hm _ _ _ _ _ Hd E) as (Hd' & t & -> & Ht). split; [done|]. exists t. split; [done|]. by eapply Forall_impl. Qed.

(** *** Operations that do not panic *)

Definition no_panic {A} (m : io D A) : Prop := forall s, (m s).1 <> Panic.

Lemma no_panic_lift {A} (r : res FrtError A) : r <> Panic -> no_panic (io_lift r).
Proof. by intros Hr s. Qed.
Lemma io_no_panic_bind {A B} (m : io D A) (k : A -> io D B) : no_panic m -> (forall a, no_panic (k a)) -> no_panic (io_bind m k).
Proof. intros Hm Hk s. specialize (Hm s). unfold io_bind. destruct (m s) as [[a|e|] s']; [apply Hk|done|done]. Qed.
Lemma no_panic_each {A} (f : A -> io D unit) l : (forall x, no_panic (f x)) -> no_panic (io_each f l).
Proof. intros Hf. induction l as [|x l IH]; [done|]. cbn [io_each]. by apply io_no_panic_bind. Qed.
End io.

Create HintDb keeps discriminated.
#[export] Hint Resolve keeps_ret keeps_lift keeps_get : keeps.

(** The code between two operations it calls. *)
Ltac keeps_tac :=
  repeat first
    [ progress intros
    | match goal with
      | |- keeps _ (io_bind _ _) => apply keeps_bind
      | |- keeps _ (io_each _ _) => apply keeps_each
      | |- keeps _ (io_map_err _ _) => apply keeps_map_err
      | |- keeps _ (io_modify _) => apply keeps_modify
      | |- keeps _ (ask _) => apply keeps_ask
      | |- keeps _ (tell _) => apply keeps_tell
      end
    | solve [eauto 3 with keeps]
    | match goal with |- keeps _ (match ?x with _ => _ end) => destruct x end
    | done ].

Create HintDb emits discriminated.
#[export] Hint Resolve emits_ret emits_lift : emits.

Ltac emits_tac :=
  repeat first
    [ progress intros
    | match goal with
      | |- emits _ _ (io_bind io_get _) => apply emits_bind_get
      | |- emits _ _ (io_bind (ask _) _) => apply emits_bind_ask
      | |- emits _ _ (io_bind _ _) => apply emits_bind
      | |- emits _ _ (io_each _ _) => apply emits_each
      | |- emits _ _ (io_modify _) => apply emits_modify
      | |- emits _ _ (ask _) => apply emits_ask
      | |- emits _ _ (tell _) => apply emits_tell
      end
    | solve [eauto 3 with emits]
    | match goal with |- emits _ _ (match ?x with _ => _ end) => destruct x end
    | done ].

Ltac no_panic_tac :=
  repeat first
    [ progress intros
    | match goal with
      | |- no_panic (io_bind _ _) => apply io_no_panic_bind
      | |- no_panic (io_each _ _) => apply no_panic_each
      | |- no_panic (io_lift _) => apply no_panic_lift
      end
    | match goal with |- no_panic (match ?x with _ => _ end) => destruct x end
    | done ].

Notation "'do!' x ':=' m 'in' k" := (io_bind m (fun x => k)) (at level 200, x pattern, m at level 100, k at level 200).

(** [elapsed_ns]: the time since [started], never negative, saturating. *)
Definition elapsed_ns `{Env} {D} (started : Z) : io D Z := do! now := ask Now in io_ret (Z.min (Z.max 0 (now - started)) U64_MAX).

Lemma keeps_elapsed `{Env} {D X} (P : D * history -> X) started : unseen P Now -> keeps P (elapsed_ns started).
Proof. intros Hn. unfold elapsed_ns. keeps_tac. Qed.
#[export] Hint Resolve keeps_elapsed : keeps.
