(* ===== verification/Vbin.v ===== *)
(** * SLASH VBIN archives

    [frt/src/vrt/vbin.rs]: what may be extracted from an archive, the kernel
    that [system_map.xml] describes, and the register image of an argument.
    Reading the archive and deserializing the XML are the work of libraries: the
    definitions take what these return. *)

From S2P Require Import Prelude RustStd BTreeMap Shm Frt.

Local Open Scope Z_scope.

Inductive Platform := Hardware | Simulation | Emulation.
Inductive ArgKind := KScalar | KBuffer.
Inductive MemoryTarget := Ddr | Hbm (bank : Z) | HbmVnoc.

#[export] Instance arg_kind_eq_dec : EqDecision ArgKind.
Proof. solve_decision. Defined.

Record Arg := mkArg { a_index : Z; a_name : string; a_kind : ArgKind; a_offset : Z; a_range : Z; writable : bool; a_port : option string }.

Record Kernel := mkKernel { k_name : string; base_address : Z; k_args : list Arg; k_connections : bmap string MemoryTarget }.

(** ** Queries *)

Definition kernel_arg (k : Kernel) (index : Z) : res FrtError Arg :=
  ok_or (find_first (fun a => a_index a =? index) (k_args k)) (Vrt ("unknown VRT argument index " +:+ Str.show index)).

Definition memory_target (k : Kernel) (a : Arg) : res FrtError MemoryTarget :=
  let! port := ok_or (a_port a) (Vrt ("buffer argument " +:+ Str.show (a_index a) +:+ " (`" +:+ a_name a +:+ "`) has no AXI port")) in
  ok_or (BMap.get port (k_connections k)) (Vrt ("kernel `" +:+ k_name k +:+ "` has no memory connection for port `" +:+ port +:+ "`")).

(** ** Register images *)

(** [slice::as_chunks::<4>], of a length that is a multiple of four. *)
Fixpoint chunks4 (l : list Z) : list (list Z) :=
  match l with
  | a :: b :: c :: d :: l' => [a; b; c; d] :: chunks4 l'
  | _ => []
  end.

Definition div_ceil (a b : Z) : Z := (a + b - 1) / b.

Definition register_bits (range : Z) : Z := if range =? 0 then 32 else range.

Definition word_offset (offset : Z) (x : nat * list Z) : res FrtError (Z * Z) :=
  let! o := ok_or (let? delta := fits U32_MAX (Z.of_nat x.1 * 4) in checked_add32 offset delta) (Vrt "register offset overflow") in
  Ok (o, le_value x.2).

Definition register_words (offset range : Z) (value : list Z) : res FrtError (list (Z * Z)) :=
  if negb (offset mod 4 =? 0) then vrt ("register offset " +:+ Str.show_hex offset +:+ " is not 32-bit aligned") else
  let bits := register_bits range in
  if 64 <? bits then
    vrt ("register at " +:+ Str.show_hex offset +:+ " is " +:+ Str.show bits +:+ " bits wide; VRT supports at most 64") else
  let byte_count := Z.max (div_ceil bits 32) 1 * 4 in
  let value_byte_count := div_ceil bits 8 in
  if value_byte_count <? Z.of_nat (length value) then
    vrt (Str.show (Z.of_nat (length value)) +:+ "-byte value does not fit the " +:+ Str.show bits +:+ "-bit register at " +:+ Str.show_hex offset) else
  let padded := value ++ replicate (Z.to_nat byte_count - length value) 0 in
  try_map (word_offset offset) (enumerate (chunks4 padded)).

Definition validate_scalar_arg (k : Kernel) (index : Z) (value : list Z) : res FrtError unit :=
  let! a := kernel_arg k index in
  if negb (bool_decide (a_kind a = KScalar)) then vrt ("argument " +:+ Str.show index +:+ " (`" +:+ a_name a +:+ "`) is not a scalar") else
  let! _ := register_words (a_offset a) (a_range a) value in
  Ok tt.

(** A null pointer is zero. *)
Definition validate_buffer_arg (k : Kernel) (index ptr bytes : Z) : res FrtError (MemoryTarget * Z) :=
  if bytes =? 0 then vrt ("zero-length buffer argument " +:+ Str.show index) else
  if ptr =? 0 then vrt ("null host pointer for buffer argument " +:+ Str.show index) else
  let! a := kernel_arg k index in
  if negb (bool_decide (a_kind a = KBuffer)) || negb (a_range a =? 64) then
    vrt ("argument " +:+ Str.show index +:+ " (`" +:+ a_name a +:+ "`) is not a 64-bit buffer pointer") else
  let! target := memory_target k a in
  let! size := ok_or (fits U64_MAX bytes) (Vrt ("buffer argument " +:+ Str.show index +:+ ": out of range integral type conversion attempted")) in
  Ok (target, size).

(** ** Numbers in the metadata *)

Definition parse_u64 (text field : string) : res FrtError Z :=
  let text := Str.trim text in
  let hex := match Str.strip_prefix "0x" text with Some h => Some h | None => Str.strip_prefix "0X" text end in
  let parsed := match hex with Some h => Str.from_str_radix 16 U64_MAX h | None => Str.from_str_radix 10 U64_MAX text end in
  map_err (fun e => Vrt ("invalid " +:+ field +:+ " value `" +:+ text +:+ "`: " +:+ Str.int_error e)) parsed.

Definition parse_u32 (text field : string) : res FrtError Z :=
  let! value := parse_u64 text field in
  ok_or (fits U32_MAX value) (Vrt ("invalid " +:+ field +:+ " value `" +:+ text +:+ "`: out of range integral type conversion attempted")).

Definition parse_bool (text field : string) : res FrtError bool :=
  if Str.is_empty (Str.trim text) then Ok false
  else let! v := parse_u32 text field in Ok (negb (v =? 0)).

Definition parse_memory_target (target : string) : res FrtError MemoryTarget :=
  let target := Str.trim target in
  let unsupported := vrt ("unsupported memory target `" +:+ target +:+ "`") in
  if String.eqb target "MEM" || String.eqb target "HBM" || String.eqb target "HBM_VNOC" then Ok HbmVnoc else
  match Str.strip_prefix "HBM" target with
  | Some bank =>
      match Str.parse_uint 255 bank with
      | Some bank => if bank <=? 63 then Ok (Hbm bank) else vrt ("invalid HBM memory target `" +:+ target +:+ "`")
      | None => vrt ("invalid HBM memory target `" +:+ target +:+ "`")
      end
  | None =>
      match Str.strip_prefix "DDR" target with
      | Some bank => if Nat.eqb (String.length bank) 1 && Str.all Str.is_digit bank then Ok Ddr else unsupported
      | None => unsupported
      end
  end.

(** ** [system_map.xml] *)

Record RawArg := mkRawArg { r_index : string; r_name : string; r_kind : string; r_offset : string; r_range : string; r_writable : string; r_port : string }.
Record RawConnection := mkRawConnection { rc_port : string; rc_target : string }.
Record RawKernel := mkRawKernel { rk_name : string; rk_base_address : string; rk_args : list RawArg; rk_connections : list RawConnection }.
Record RawSystemMap := mkRawMap { rs_platform : string; rs_clock_frequency : string; rs_kernels : list RawKernel }.
Record Metadata := mkMetadata { md_platform : Platform; clock_frequency_hz : Z; md_kernel : Kernel }.

Definition parse_arg (raw : RawArg) : res FrtError Arg :=
  let! index := parse_u32 (r_index raw) "argument idx" in
  let! kind :=
    let kind := Str.trim (r_kind raw) in
    if String.eqb kind "scalar" then Ok KScalar
    else if String.eqb kind "buffer" then Ok KBuffer
    else vrt ("argument " +:+ Str.show index +:+ " has unsupported type `" +:+ kind +:+ "`") in
  let! offset := parse_u32 (r_offset raw) "argument offset" in
  if negb (offset mod 4 =? 0) then
    vrt ("argument " +:+ Str.show index +:+ " offset " +:+ Str.show_hex offset +:+ " is not 32-bit aligned") else
  let! range := if Str.is_empty (Str.trim (r_range raw)) then Ok 32 else parse_u32 (r_range raw) "argument range" in
  if 64 <? range then
    vrt ("argument " +:+ Str.show index +:+ " is " +:+ Str.show range +:+ " bits wide; VRT supports at most 64") else
  let! w := parse_bool (r_writable raw) "argument w" in
  let port := Str.trim (r_port raw) in
  Ok (mkArg index (r_name raw) kind offset range w (if Str.is_empty port then None else Some port)).

(** [sort_by_key] on the index: a stable insertion. *)
Fixpoint insert_arg (a : Arg) (l : list Arg) : list Arg :=
  match l with
  | [] => [a]
  | b :: l' => if a_index a <=? a_index b then a :: l else b :: insert_arg a l'
  end.
Definition sort_args (l : list Arg) : list Arg := fold_right insert_arg [] l.

(** The first of two neighbours of one index. *)
Fixpoint duplicate_index (l : list Arg) : option Arg :=
  match l with
  | a :: ((b :: _) as l') => if a_index a =? a_index b then Some a else duplicate_index l'
  | _ => None
  end.

Definition add_connection (name : string) (acc : bmap string MemoryTarget) (c : RawConnection) : res FrtError (bmap string MemoryTarget) :=
  let! target := parse_memory_target (rc_target c) in
  if BMap.contains_key (rc_port c) acc then
    vrt ("kernel `" +:+ name +:+ "` has duplicate connection for port `" +:+ rc_port c +:+ "`")
  else Ok (BMap.insert (rc_port c) target acc).

Definition parse_platform (text : string) : res FrtError Platform :=
  let p := Str.trim text in
  if String.eqb p "Hardware" then Ok Hardware
  else if String.eqb p "Simulation" then Ok Simulation
  else if String.eqb p "Emulation" then Ok Emulation
  else vrt ("unknown VBIN platform `" +:+ p +:+ "`").

(** [raw] is what [quick_xml::de::from_str] returns. *)
Definition parse_system_map (raw : string + RawSystemMap) : res FrtError Metadata :=
  let! raw := map_err (fun e => Vrt ("cannot parse system_map.xml: " +:+ e)) (of_sum raw) in
  let! platform := parse_platform (rs_platform raw) in
  let! hz := parse_u64 (rs_clock_frequency raw) "ClockFrequency" in
  if hz =? 0 then vrt "system_map.xml has a zero ClockFrequency" else
  match rs_kernels raw with
  | [k] =>
      let name := Str.trim (rk_name k) in
      if Str.is_empty name then vrt "system_map.xml has an empty kernel name" else
      let! base := parse_u64 (rk_base_address k) "Kernel BaseAddress" in
      if negb (base mod 4 =? 0) then
        vrt ("kernel `" +:+ name +:+ "` base address " +:+ Str.show_hex base +:+ " is not 32-bit aligned") else
      let! args := try_map parse_arg (rk_args k) in
      let args := sort_args args in
      match duplicate_index args with
      | Some a => vrt ("kernel `" +:+ name +:+ "` has duplicate argument index " +:+ Str.show (a_index a))
      | None =>
          let! connections := try_fold (add_connection name) BMap.empty (rk_connections k) in
          Ok (mkMetadata platform hz (mkKernel name base args connections))
      end
  | ks => vrt ("system_map.xml contains " +:+ Str.show (Z.of_nat (length ks)) +:+ " kernels; a TAPA VBIN must contain exactly one")
  end.

(** ** Extraction *)

(** [Path::components] of a Unix path; a [.] counts only at its start. *)
Inductive Component := RootDir | CurDir | ParentDir | Normal (part : string).

Definition component (first : bool) (part : string) : option Component :=
  if String.eqb part "" then None
  else if String.eqb part "." then (if first then Some CurDir else None)
  else if String.eqb part ".." then Some ParentDir
  else Some (Normal part).

Definition components (path : string) : list Component :=
  match Str.split "/" path with
  | [] => []
  | part :: rest =>
      (if Str.starts_with "/" path then [RootDir] else match component true part with Some c => [c] | None => [] end)
      ++ omap (component false) rest
  end.

(** A relative path is the list of its components. *)
Definition display_path (parts : list string) : string :=
  match parts with [] => "" | p :: ps => fold_left (fun a b => a +:+ "/" +:+ b) ps p end.

Definition push_component (path : string) (clean : list string) (c : Component) : res FrtError (list string) :=
  match c with
  | Normal part => Ok (clean ++ [part])
  | CurDir => Ok clean
  | ParentDir | RootDir => vrt ("VBIN contains unsafe path `" +:+ path +:+ "`")
  end.

Definition safe_relative_path (path : string) : res FrtError (option (list string)) :=
  if Str.starts_with "/" path then vrt ("VBIN contains absolute path `" +:+ path +:+ "`") else
  let! clean := try_fold (push_component path) [] (components path) in
  Ok (if bool_decide (clean = []) then None else Some clean).

(** An entry as the tar library reads it, and what unpacking it below the
    destination returns. *)
Inductive EntryType := Regular | Directory | OtherEntry.
#[export] Instance entry_type_eq_dec : EqDecision EntryType.
Proof. solve_decision. Defined.

Record TarEntry := mkEntry { entry_type : EntryType; entry_path : string + string; unpack_in : string + bool }.

(** Files by the paths they have below the destination. *)
Record ExtractedFiles := mkExtracted { system_maps : list (list string); pdis : list (list string); simulators : list (list string) }.

Definition classify (relative : list string) (f : ExtractedFiles) : ExtractedFiles :=
  match last relative with
  | Some name =>
      if String.eqb name "system_map.xml" then mkExtracted (system_maps f ++ [relative]) (pdis f) (simulators f)
      else if String.eqb name "vpp_sim" then mkExtracted (system_maps f) (pdis f) (simulators f ++ [relative])
      else if bool_decide (extension name = Some "pdi") then mkExtracted (system_maps f) (pdis f ++ [relative]) (simulators f)
      else f
  | None => f
  end.

Definition Extraction : Type := ExtractedFiles * list (list string).

Definition extract_entry (archive : string) (acc : Extraction) (e : string + TarEntry) : res FrtError Extraction :=
  let '(files, seen) := acc in
  let! e := map_err (fun m => Vrt ("invalid VBIN tar `" +:+ archive +:+ "`: " +:+ m)) (of_sum e) in
  match entry_type e with
  | OtherEntry =>
      vrt ("VBIN entry `" +:+ (match entry_path e with inr p => p | inl _ => "<invalid>" end)
        +:+ "` is not a regular file or directory; links and special files are not allowed")
  | ty =>
      let! path := map_err (fun m => Vrt ("invalid path in `" +:+ archive +:+ "`: " +:+ m)) (of_sum (entry_path e)) in
      let! relative := safe_relative_path path in
      match relative with
      | None => Ok acc
      | Some relative =>
          if bool_decide (ty = Regular) && bool_decide (relative ∈ seen) then vrt ("VBIN contains duplicate file `" +:+ display_path relative +:+ "`") else
          let seen := if bool_decide (ty = Regular) then relative :: seen else seen in
          let! unpacked := map_err (fun m => Vrt ("cannot extract VBIN entry `" +:+ display_path relative +:+ "`: " +:+ m)) (of_sum (unpack_in e)) in
          if negb unpacked then vrt ("VBIN entry `" +:+ display_path relative +:+ "` escapes the extraction directory") else
          Ok (if bool_decide (ty = Regular) then classify relative files else files, seen)
      end
  end.

Definition extract (archive : string) (entries : list (string + TarEntry)) : res FrtError ExtractedFiles :=
  let! (files, _) := try_fold (extract_entry archive) (mkExtracted [] [] [], []) entries in
  Ok files.

Definition exactly_one (paths : list (list string)) (name : string) : res FrtError (option (list string)) :=
  match paths with
  | [] => Ok None
  | [p] => Ok (Some p)
  | _ => vrt ("VBIN contains " +:+ Str.show (Z.of_nat (length paths)) +:+ " files named `" +:+ name +:+ "`; expected at most one")
  end.

(** The order of paths: that of their components. *)
Fixpoint path_leb (a b : list string) : bool :=
  match a, b with
  | [], _ => true
  | _ :: _, [] => false
  | x :: a', y :: b' => match kcmp x y with Lt => true | Gt => false | Eq => path_leb a' b' end
  end.
Fixpoint insert_path (a : list string) (l : list (list string)) : list (list string) :=
  match l with
  | [] => [a]
  | b :: l' => if path_leb a b then a :: l else b :: insert_path a l'
  end.
Definition sort_paths (l : list (list string)) : list (list string) := fold_right insert_path [] l.

Record Vbin := mkVbin {
  vb_platform : Platform;
  vb_clock_frequency_hz : Z;
  vb_kernel : Kernel;
  pdi_paths : list (list string);
  simulation_executable : option (list string);
}.

(** [read] reads and deserializes an extracted [system_map.xml]. *)
Definition vbin_open (archive : string) (entries : list (string + TarEntry)) (read : list string -> FrtError + (string + RawSystemMap)) : res FrtError Vbin :=
  let! files := extract archive entries in
  let! map := exactly_one (system_maps files) "system_map.xml" in
  let! map := ok_or map (Vrt (archive +:+ " contains no system_map.xml")) in
  let! raw := of_sum (read map) in
  let! metadata := parse_system_map raw in
  let! sim := exactly_one (simulators files) "vpp_sim" in
  Ok (mkVbin (md_platform metadata) (clock_frequency_hz metadata) (md_kernel metadata) (sort_paths (pdis files)) sim).

(** * Archives, kernels and register images are what they should be

    An accepted [system_map.xml] describes a well-formed kernel, extraction
    stays below its directory, and a register image holds its value. *)

(** ** Register images *)

Definition is_byte (b : Z) : Prop := 0 <= b < 256.

(** The bytes a sequence of register writes puts at consecutive addresses. *)
Definition image_bytes (ws : list (Z * Z)) : list Z := flat_map (fun w => le_bytes 4 w.2) ws.

Lemma le_bytes_value l : Forall is_byte l -> le_bytes (length l) (le_value l) = l.
Proof.
  induction 1 as [|b l Hb _ IH]; [done|]. cbn [length le_bytes le_value]. unfold is_byte in Hb.
  rewrite (Z.mul_comm 256), Z.mod_add, Z.mod_small by lia. f_equal.
  replace ((b + le_value l * 256) / 256) with (le_value l); [done|]. apply Z.div_unique with b; lia.
Qed.

Lemma chunks4_spec n l : length l = (4 * n)%nat -> length (chunks4 l) = n /\ concat (chunks4 l) = l /\ Forall (fun c => length c = 4%nat) (chunks4 l).
Proof.
  revert l. induction n as [|n IH]; intros l Hl; [by destruct l|].
  do 4 (destruct l as [|? l]; [simpl in Hl; lia|]). destruct (IH l) as (H1 & H2 & H3); [simpl in Hl; lia|]. cbn [chunks4].
  split; [by cbn [length]; rewrite H1|]. split; [by cbn [concat app]; rewrite H2|]. by constructor.
Qed.

(** The words a register of [range] bits has. *)
Definition register_size (range : Z) : Z := Z.max (div_ceil (register_bits range) 32) 1.

Lemma word_offset_ok offset x w : 0 <= offset -> word_offset offset x = Ok w <-> w = (offset + Z.of_nat x.1 * 4, le_value x.2) /\ offset + Z.of_nat x.1 * 4 <= U32_MAX.
Proof.
  intros Ho. unfold word_offset. destruct (fits U32_MAX (Z.of_nat x.1 * 4)) as [d|] eqn:Ed.
  - apply fits_Some in Ed as [-> Hd]. destruct (checked_add32 _ _) as [o|] eqn:Eo; simpl.
    + unfold checked_add32 in Eo. apply fits_Some in Eo as [-> Ho']. split; [intros [= <-]; split; [done|lia]|intros [-> _]; done].
    + unfold checked_add32 in Eo. apply fits_None in Eo. split; [done|]. intros [_ Hle]. exfalso. apply Eo. unfold U32_MAX in *. lia.
  - apply fits_None in Ed. simpl. split; [done|]. intros [_ Hle]. exfalso. apply Ed. lia.
Qed.

Lemma register_size_bounds range : 0 <= range -> register_bits range <= 64 ->
  0 < register_bits range /\ 1 <= register_size range <= 2 /\ div_ceil (register_bits range) 8 <= register_size range * 4.
Proof.
  intros Hr Hw. assert (Hbits : 0 < register_bits range) by (unfold register_bits in *; destruct (Z.eqb_spec range 0); lia).
  unfold register_size, div_ceil. set (bits := register_bits range) in *. split; [done|].
  pose proof (Z.div_mod (bits + 32 - 1) 32 ltac:(lia)). pose proof (Z.mod_pos_bound (bits + 32 - 1) 32 ltac:(lia)).
  pose proof (Z.div_mod (bits + 8 - 1) 8 ltac:(lia)). pose proof (Z.mod_pos_bound (bits + 8 - 1) 8 ltac:(lia)). lia.
Qed.

Lemma wider_than bits n : div_ceil bits 8 < n <-> bits <= 8 * (n - 1).
Proof. unfold div_ceil. pose proof (Z.div_mod (bits + 8 - 1) 8 ltac:(lia)). pose proof (Z.mod_pos_bound (bits + 8 - 1) 8 ltac:(lia)). lia. Qed.

(** The words of whole chunks. *)
Lemma words_of_chunks offset n padded ws : 0 <= offset -> length padded = (4 * n)%nat -> Forall is_byte padded ->
  try_map (word_offset offset) (enumerate (chunks4 padded)) = Ok ws ->
  length ws = n /\ (forall i w, ws !! i = Some w -> w.1 = offset + Z.of_nat i * 4 /\ w.1 <= U32_MAX) /\ image_bytes ws = padded.
Proof.
  intros Ho Hlen Hb H. destruct (chunks4_spec _ _ Hlen) as (Hc1 & Hc2 & Hc3). apply try_map_Forall2 in H. pose proof (Forall2_length _ _ _ H) as Hl.
  rewrite length_enumerate in Hl. split; [lia|].
  assert (Hw : forall i w, ws !! i = Some w -> exists c, chunks4 padded !! i = Some c /\ w = (offset + Z.of_nat i * 4, le_value c) /\ w.1 <= U32_MAX).
  { intros i w Hi. destruct (Forall2_lookup_r _ _ _ _ _ H Hi) as (x & [Hx Hc]%lookup_enumerate & [-> Hle]%word_offset_ok); [|done]. subst i. by exists x.2. }
  split; [intros i w Hi; by destruct (Hw i w Hi) as (c & _ & -> & ?)|]. rewrite <- Hc2. unfold image_bytes. rewrite flat_map_concat_map. f_equal.
  apply list_eq. intros i. rewrite list_lookup_fmap. destruct (ws !! i) as [w|] eqn:Ew; cbn [fmap option_fmap option_map].
  - destruct (Hw i w Ew) as (c & Hc & -> & _). rewrite Hc. f_equal. rewrite Forall_forall in Hc3.
    assert (Hin : c ∈ chunks4 padded) by (by eapply list_elem_of_lookup_2). specialize (Hc3 c Hin). cbn [snd]. rewrite <- Hc3 at 1.
    apply le_bytes_value, Forall_forall. intros b Hbc. rewrite Forall_forall in Hb. apply Hb. rewrite <- Hc2. apply list_elem_of_In, in_concat.
    exists c. by split; apply list_elem_of_In.
  - apply lookup_ge_None in Ew. symmetry. apply lookup_ge_None. lia.
Qed.

Lemma words_made offset n padded : 0 <= offset -> length padded = (4 * S n)%nat ->
  is_ok (try_map (word_offset offset) (enumerate (chunks4 padded))) = true <-> offset + Z.of_nat n * 4 <= U32_MAX.
Proof.
  intros Ho Hlen. destruct (chunks4_spec _ _ Hlen) as (Hc1 & _ & _). split.
  - destruct (try_map _ _) as [ws| |] eqn:E; try done. intros _. apply try_map_Forall2 in E.
    destruct (lookup_lt_is_Some_2 (chunks4 padded) n) as [c Hc]; [lia|].
    destruct (Forall2_lookup_l _ _ _ n (n, c) E) as (w & _ & [_ Hle]%word_offset_ok); [by apply lookup_enumerate|done|done].
  - intros Hle. rewrite (try_map_total _ (fun x => (offset + Z.of_nat x.1 * 4, le_value x.2))); [done|].
    apply Forall_forall. intros x [j Hj]%list_elem_of_lookup. apply lookup_enumerate in Hj as [<- Hj]. apply lookup_lt_Some in Hj. apply word_offset_ok; [done|].
    split; [done|]. lia.
Qed.

(** A register image is exactly the value: it is made when the register is
    aligned and at most two words, the value no wider and no address overflows,
    and then writes the little-endian words of the value, zero-extended, at
    consecutive addresses from the offset on. *)
Theorem register_words_exact offset range value : 0 <= offset -> 0 <= range -> Forall is_byte value ->
  (forall ws, register_words offset range value = Ok ws ->
     length ws = Z.to_nat (register_size range) /\ (forall i w, ws !! i = Some w -> w.1 = offset + Z.of_nat i * 4 /\ w.1 <= U32_MAX /\ w.1 mod 4 = 0) /\
     exists n, image_bytes ws = value ++ replicate n 0) /\
  (is_ok (register_words offset range value) = true <->
     offset mod 4 = 0 /\ register_bits range <= 64 /\ 8 * (Z.of_nat (length value) - 1) < register_bits range /\ offset + (register_size range - 1) * 4 <= U32_MAX).
Proof.
  intros Ho Hr Hv. unfold register_words.
  destruct (Z.eqb_spec (offset mod 4) 0) as [Hal|Hal]; cbn [negb]; [|split; [done|split; [done|by intros (? & _)]]].
  destruct (Z.ltb_spec 64 (register_bits range)) as [Hw|Hw]; [split; [done|split; [done|intros (_ & ? & _); lia]]|].
  destruct (register_size_bounds range Hr Hw) as (Hb & Hs & Hc). pose proof (wider_than (register_bits range) (Z.of_nat (length value))) as Hwide.
  destruct (Z.ltb_spec (div_ceil (register_bits range) 8) (Z.of_nat (length value))) as [Hf|Hf]; [split; [done|split; [done|intros (_ & _ & ? & _); lia]]|].
  change (Z.max (div_ceil (register_bits range) 32) 1) with (register_size range).
  set (padded := value ++ replicate (Z.to_nat (register_size range * 4) - length value) 0).
  assert (Hlen : length padded = (4 * S (Z.to_nat (register_size range - 1)))%nat) by (unfold padded; rewrite length_app, length_replicate; lia).
  assert (Hpb : Forall is_byte padded) by (apply Forall_app; split; [done|]; apply Forall_replicate; unfold is_byte; lia). split.
  - intros ws H. destruct (words_of_chunks _ _ _ _ Ho Hlen Hpb H) as (H1 & H2 & H3). split; [lia|]. split; [|by eexists].
    intros i w Hi. destruct (H2 i w Hi) as [-> Hle]. split; [done|]. split; [done|]. by rewrite Z.mod_add.
  - rewrite (words_made _ _ _ Ho Hlen). lia.
Qed.

(** ** The kernel of a system map *)

Record well_formed_arg (a : Arg) : Prop := {
  wa_index : in_u32 (a_index a);
  wa_offset : in_u32 (a_offset a) /\ a_offset a mod 4 = 0;
  wa_range : 0 <= a_range a <= 64;
  wa_port : a_port a <> Some "";
}.

Definition index_lt (a b : Arg) : Prop := a_index a < a_index b.
Definition index_le (a b : Arg) : Prop := a_index a <= a_index b.

Record well_formed_kernel (k : Kernel) : Prop := {
  wk_name : k_name k <> "";
  wk_base : in_u64 (base_address k) /\ base_address k mod 4 = 0;
  wk_args : StronglySorted index_lt (k_args k) /\ Forall well_formed_arg (k_args k);
  wk_connections : BMap.wf (k_connections k);
}.

Lemma parse_u64_range text field v : parse_u64 text field = Ok v -> in_u64 v.
Proof.
  unfold parse_u64. cbv zeta. intros H%map_err_ok. revert H. generalize (Str.trim text). intros t.
  destruct (match Str.strip_prefix "0x" t with Some h => Some h | None => _ end); intros H; by eapply Str.from_str_radix_range in H.
Qed.

Lemma parse_u32_range text field v : parse_u32 text field = Ok v -> in_u32 v.
Proof. unfold parse_u32. intros (u & _ & [-> H]%ok_or_ok%fits_Some)%rbind_ok. done. Qed.

Lemma parse_arg_well_formed r a : parse_arg r = Ok a -> well_formed_arg a.
Proof.
  unfold parse_arg. intros (index & Hi%parse_u32_range & H)%rbind_ok. apply rbind_ok in H as (kind & _ & H). apply rbind_ok in H as (offset & Ho%parse_u32_range & H).
  destruct (Z.eqb_spec (offset mod 4) 0); [|done]. cbn [negb] in H. apply rbind_ok in H as (range & Hr & H). destruct (Z.ltb_spec 64 range) as [|Hr']; [done|].
  apply rbind_ok in H as (w & _ & [= <-]). split; simpl; [done|done| |].
  - split; [|done]. destruct (Str.is_empty _); [by injection Hr as <-|]. apply parse_u32_range in Hr. by destruct Hr.
  - destruct (Str.is_empty (Str.trim (r_port r))) eqn:E; [done|]. intros [= E']. by rewrite E' in E.
Qed.

Lemma insert_arg_perm a l : insert_arg a l ≡ₚ a :: l.
Proof. induction l as [|b l IH]; [done|]. simpl. destruct (a_index a <=? a_index b); [done|]. rewrite IH. apply Permutation_swap. Qed.

Lemma sort_args_perm l : sort_args l ≡ₚ l.
Proof. induction l as [|a l IH]; [done|]. simpl. by rewrite insert_arg_perm, IH. Qed.

Lemma insert_arg_sorted a l : StronglySorted index_le l -> StronglySorted index_le (insert_arg a l).
Proof.
  unfold index_le. induction 1 as [|b l Hs IH Hb]; simpl; [by repeat constructor|]. destruct (Z.leb_spec (a_index a) (a_index b)).
  - constructor; [by constructor|]. constructor; [done|]. eapply Forall_impl; [exact Hb|]. simpl. lia.
  - constructor; [done|]. rewrite insert_arg_perm. constructor; [lia|done].
Qed.

Lemma sort_args_sorted l : StronglySorted index_le (sort_args l).
Proof. induction l as [|a l IH]; [constructor|]. by apply insert_arg_sorted. Qed.

Lemma no_duplicate_strict l : StronglySorted index_le l -> duplicate_index l = None -> StronglySorted index_lt l.
Proof.
  unfold index_le, index_lt. induction 1 as [|a l Hs IH Ha]; intros Hd; [constructor|]. destruct l as [|b l]; [repeat constructor|]. cbn [duplicate_index] in Hd.
  destruct (Z.eqb_spec (a_index a) (a_index b)); [done|]. specialize (IH Hd). constructor; [done|].
  apply Forall_cons in Ha as [Ha1 Ha]. apply StronglySorted_inv in IH as [_ Hb]. constructor; [lia|]. eapply Forall_impl; [exact Hb|]. simpl. lia.
Qed.

(** The connections as they are declared. *)
Record connects (raw : list RawConnection) (m : bmap string MemoryTarget) : Prop := {
  cn_wf : BMap.wf m;
  cn_ports : NoDup (map rc_port raw);
  cn_targets : Forall (fun c => exists t, parse_memory_target (rc_target c) = Ok t) raw;
  cn_get : forall port t, BMap.get port m = Some t <-> exists c, c ∈ raw /\ rc_port c = port /\ parse_memory_target (rc_target c) = Ok t;
}.

Lemma add_connections name raw m : try_fold (add_connection name) BMap.empty raw = Ok m -> connects raw m.
Proof.
  apply (try_fold_ind (fun l m => connects l m)).
  - split; [apply BMap.wf_nil|constructor|constructor|]. intros port t. split; [done|]. by intros (c & ?%not_elem_of_nil & _).
  - intros l1 c l2 a a' _ [Hw Hn Ht Hg] H. unfold add_connection in H. apply rbind_ok in H as (t & Hc & H).
    unfold BMap.contains_key in H. destruct (BMap.get (rc_port c) a) eqn:E; [done|]. injection H as <-.
    assert (Hnew : rc_port c ∉ map rc_port l1).
    { intros (c' & Ec & Hin)%list_elem_of_fmap. rewrite Forall_forall in Ht. destruct (Ht c' Hin) as [t' Ht'].
      rewrite (proj2 (Hg (rc_port c) t')) in E; [done|]. by exists c'. }
    split; [by apply BMap.wf_insert| | |].
    + rewrite map_app. apply NoDup_app. split; [done|]. split; [|apply NoDup_singleton]. by intros x Hx ->%list_elem_of_singleton.
    + apply Forall_app. split; [done|]. constructor; [by exists t|constructor].
    + intros port t'. rewrite BMap.get_insert. destruct (decide _) as [->|Hne].
      * split; [intros [= <-]; exists c; split; [by apply elem_of_app; right; left|done]|]. intros (c' & [Hin| ->%list_elem_of_singleton]%elem_of_app & Ep & Et); [|congruence].
        exfalso. apply Hnew. rewrite <- Ep. by apply list_elem_of_fmap_2.
      * rewrite Hg. split; intros (c' & Hin & Ep & Et); exists c'; (split; [|done]); [by apply elem_of_app; left|].
        apply elem_of_app in Hin as [Hin| ->%list_elem_of_singleton]; [done|]. by destruct Hne.
Qed.

(** The kernel of an accepted system map is well formed, and it is the one
    described: its arguments are the declared ones in the order of their distinct
    indices, word-aligned and at most 64 bits wide, and each declared port is
    connected once, to its memory. *)
Theorem metadata_well_formed raw m : parse_system_map (inr raw) = Ok m ->
  clock_frequency_hz m <> 0 /\ well_formed_kernel (md_kernel m) /\ exists k args, rs_kernels raw = [k] /\
    k_name (md_kernel m) = Str.trim (rk_name k) /\ Forall2 (fun r a => parse_arg r = Ok a) (rk_args k) args /\ k_args (md_kernel m) ≡ₚ args /\
    connects (rk_connections k) (k_connections (md_kernel m)).
Proof.
  unfold parse_system_map. cbn [of_sum map_err rbind]. intros (platform & _ & H)%rbind_ok. apply rbind_ok in H as (hz & _ & H).
  destruct (Z.eqb_spec hz 0) as [|Hz]; [done|]. destruct (rs_kernels raw) as [|k []] eqn:Ek; [done| |done]. cbv zeta in H.
  destruct (Str.is_empty (Str.trim (rk_name k))) eqn:En; [done|]. apply rbind_ok in H as (base & Hb%parse_u64_range & H).
  destruct (Z.eqb_spec (base mod 4) 0); [|done]. cbn [negb] in H. apply rbind_ok in H as (args & Ha & H).
  destruct (duplicate_index (sort_args args)) eqn:Ed; [done|]. apply rbind_ok in H as (conns & Hc%add_connections & [= <-]). cbn [md_kernel clock_frequency_hz].
  apply try_map_Forall2 in Ha. split; [done|]. split; [|exists k, args; split; [done|]; split; [done|]; split; [done|]; split; [apply sort_args_perm|done]].
  split; cbn [k_name base_address k_args k_connections]; [|done| |by destruct Hc].
  - intros E. by rewrite E in En.
  - split; [by apply no_duplicate_strict; [apply sort_args_sorted|]|]. rewrite sort_args_perm. apply Forall_forall. intros a [i Hi]%list_elem_of_lookup.
    destruct (Forall2_lookup_r _ _ _ _ _ Ha Hi) as (r & _ & Hr). by eapply parse_arg_well_formed.
Qed.

(** ** Extraction stays below its directory *)

(** A component of a path that leads into a directory, and no further. *)
Definition plain_component (part : string) : Prop :=
  part <> "" /\ part <> "." /\ part <> ".." /\ Str.all (fun c => negb (Ascii.eqb "/" c)) part = true.

Definition confined (relative : list string) : Prop := relative <> [] /\ Forall plain_component relative.

Lemma split_no_separator c s part : part ∈ Str.split c s -> Str.all (fun d => negb (Ascii.eqb c d)) part = true.
Proof.
  revert part. induction s as [|d s IH]; intros part; cbn [Str.split].
  - by intros ->%list_elem_of_singleton.
  - destruct (Ascii.eqb c d) eqn:E; [intros [->|H]%elem_of_cons; [done|by apply IH]|].
    destruct (Str.split c s) as [|p ps] eqn:Es; [intros ->%list_elem_of_singleton; simpl; by rewrite E|].
    intros [->|H]%elem_of_cons; [|apply IH; by right]. simpl. rewrite E. simpl. apply IH. by left.
Qed.

Lemma component_plain first path part n : part ∈ Str.split "/" path -> component first part = Some (Normal n) -> plain_component n.
Proof.
  unfold component. intros Hin%split_no_separator H. destruct (String.eqb_spec part ""); [done|]. destruct (String.eqb_spec part "."); [by destruct first|].
  destruct (String.eqb_spec part ".."); [done|]. injection H as <-. by repeat split.
Qed.

Lemma components_plain path n : Normal n ∈ components path -> plain_component n.
Proof.
  unfold components. destruct (Str.split "/" path) as [|part rest] eqn:E; [by intros ?%not_elem_of_nil|]. intros [H|H]%elem_of_app.
  - destruct (Str.starts_with "/" path); [by apply list_elem_of_singleton in H|]. destruct (component true part) eqn:Ec; [|by apply not_elem_of_nil in H].
    apply list_elem_of_singleton in H as <-. eapply component_plain; [|exact Ec]. rewrite E. by left.
  - apply list_elem_of_omap in H as (part' & Hin & Hc). eapply component_plain; [|exact Hc]. rewrite E. by right.
Qed.

Lemma safe_path_confined path relative : safe_relative_path path = Ok (Some relative) -> confined relative.
Proof.
  unfold safe_relative_path. destruct (Str.starts_with _ _); [done|]. intros (clean & Hf & H)%rbind_ok. destruct (bool_decide (clean = [])) eqn:E; [done|].
  injection H as ->. apply bool_decide_eq_false in E. split; [done|].
  refine (try_fold_ind (fun l clean => Forall plain_component clean) _ _ _ _ _ _ Hf); [constructor|].
  intros l1 c l2 a a' El Ha Hx. destruct c as [| | |part]; try done; injection Hx as <-; [done|]. apply Forall_app. split; [done|]. constructor; [|constructor].
  apply (components_plain path). rewrite El. apply elem_of_app. right. by left.
Qed.

(** The paths the regular files of an archive have below the directory. *)
Definition regular_path (e : string + TarEntry) : option (list string) :=
  match e with
  | inr (mkEntry Regular (inr path) _) => match safe_relative_path path with Ok r => r | _ => None end
  | _ => None
  end.

Definition named (name : string) (relative : list string) : bool := bool_decide (last relative = Some name).
Definition is_pdi (relative : list string) : bool :=
  negb (named "system_map.xml" relative) && negb (named "vpp_sim" relative) && match last relative with Some n => bool_decide (extension n = Some "pdi") | None => false end.

Definition classified (seen : list (list string)) : ExtractedFiles :=
  mkExtracted (List.filter (named "system_map.xml") seen) (List.filter is_pdi seen) (List.filter (named "vpp_sim") seen).

Lemma classify_snoc seen relative : classify relative (classified seen) = classified (seen ++ [relative]).
Proof.
  unfold classify, classified, is_pdi, named. rewrite !List.filter_app. simpl. destruct (last relative) as [n|]; cycle 1.
  { simpl. by rewrite !List.app_nil_r. }
  destruct (String.eqb_spec n "system_map.xml") as [->|H1]; simpl.
  { by rewrite !List.app_nil_r. }
  rewrite (bool_decide_eq_false_2 (Some n = Some "system_map.xml")) by congruence. simpl. destruct (String.eqb_spec n "vpp_sim") as [->|H2]; simpl.
  { by rewrite !List.app_nil_r. }
  rewrite (bool_decide_eq_false_2 (Some n = Some "vpp_sim")) by congruence. simpl. rewrite !List.app_nil_r. by destruct (bool_decide _); rewrite ?List.app_nil_r.
Qed.

(** What the library was asked and answered about an entry that is accepted. *)
Definition unpacked (e : string + TarEntry) : Prop := exists t, e = inr t /\ entry_type t <> OtherEntry /\
  forall r path, entry_path t = inr path -> safe_relative_path path = Ok (Some r) -> unpack_in t = inr true.

Definition extraction_so_far (l : list (string + TarEntry)) (acc : Extraction) : Prop :=
  acc.2 = List.rev (omap regular_path l) /\ NoDup acc.2 /\ Forall confined acc.2 /\ acc.1 = classified (omap regular_path l) /\ Forall unpacked l.

Lemma extract_entry_step archive l acc e acc' : extraction_so_far l acc -> extract_entry archive acc e = Ok acc' -> extraction_so_far (l ++ [e]) acc'.
Proof.
  destruct acc as [fs seen], e as [m|[ty path unp]]; [done|]. intros (Hs & Hn & Hc & Hfs & Hall) H. cbn [fst snd] in *.
  assert (Hty : ty <> OtherEntry) by (intros ->; done). unfold extract_entry in H. cbn [of_sum map_err rbind entry_type entry_path unpack_in] in H.
  assert (Hx : (let! path := map_err (fun m => Vrt ("invalid path in `" +:+ archive +:+ "`: " +:+ m)) (of_sum path) in
    let! relative := safe_relative_path path in
    match relative with
    | None => Ok (fs, seen)
    | Some relative =>
        if bool_decide (ty = Regular) && bool_decide (relative ∈ seen) then vrt ("VBIN contains duplicate file `" +:+ display_path relative +:+ "`") else
        let seen := if bool_decide (ty = Regular) then relative :: seen else seen in
        let! unpacked := map_err (fun m => Vrt ("cannot extract VBIN entry `" +:+ display_path relative +:+ "`: " +:+ m)) (of_sum unp) in
        if negb unpacked then vrt ("VBIN entry `" +:+ display_path relative +:+ "` escapes the extraction directory") else
        Ok (if bool_decide (ty = Regular) then classify relative fs else fs, seen)
    end) = Ok acc') by (by destruct ty).
  clear H. apply rbind_ok in Hx as (p & Hp%map_err_ok & Hx). destruct path as [|path]; [done|]. injection Hp as ->. apply rbind_ok in Hx as (o & Ho & Hx).
  unfold extraction_so_far. rewrite omap_app, Forall_app. cbn [omap list_omap regular_path]. destruct o as [relative|].
  - destruct (bool_decide (ty = Regular) && bool_decide (relative ∈ seen)) eqn:Ed; [done|]. apply rbind_ok in Hx as (b & Hb%map_err_ok & Hx).
    destruct unp as [|b']; [done|]. injection Hb as ->. destruct b; [|done]. injection Hx as <-. cbn [fst snd].
    assert (Hu : Forall unpacked [inr (mkEntry ty (inr p) (inr true))]) by (repeat constructor; eexists; by split).
    destruct ty; [|by rewrite List.app_nil_r|done]. cbn [regular_path] in *. rewrite bool_decide_eq_true_2 in Ed |- * by done. simpl in Ed. apply bool_decide_eq_false in Ed.
    rewrite Ho, List.rev_app_distr. cbn [List.rev app]. rewrite Hs, Hfs. rewrite <- Hs. split; [done|]. split; [by constructor|]. split.
    + constructor; [by eapply safe_path_confined|done].
    + split; [apply classify_snoc|done].
  - injection Hx as <-. cbn [fst snd]. assert (E : regular_path (inr (mkEntry ty (inr p) unp)) = None) by (simpl; rewrite Ho; by destruct ty).
    simpl in E. rewrite E, List.app_nil_r. do 4 (split; [done|]). split; [done|]. constructor; [|constructor]. eexists. split; [done|]. split; [done|].
    cbn [entry_path]. intros r path [= <-] Hr. congruence.
Qed.

(** C32: extraction is confined: no special file is unpacked, every unpacked file
    has a path of plain components below the directory, no two the same, and the
    files are classified by their names, none left out. *)
Theorem extraction_confined archive entries files : extract archive entries = Ok files ->
  let seen := omap regular_path entries in NoDup seen /\ Forall confined seen /\ files = classified seen /\ Forall unpacked entries.
Proof.
  unfold extract. intros ([files' seen'] & Hf & [= <-])%rbind_ok. cbv zeta.
  assert (Hi : extraction_so_far entries (files', seen')).
  { refine (try_fold_ind extraction_so_far _ _ _ _ _ _ Hf); [by repeat constructor|]. intros. by eapply extract_entry_step. }
  destruct Hi as (Hs & Hn & Hc & Hfs & He). cbn [fst snd] in *. subst seen' files'. rewrite <- Permutation_rev in Hn, Hc. done.
Qed.

(** ** Concrete archives *)

(** A 64-bit register at offset 16, and six bytes for it. *)
Lemma register_words_exact_witness : exists ws, register_words 16 64 [1; 2; 3; 4; 5; 6] = Ok ws /\ length ws = 2%nat /\
  exists n, image_bytes ws = [1; 2; 3; 4; 5; 6] ++ replicate n 0.
Proof.
  assert (Hv : Forall is_byte [1; 2; 3; 4; 5; 6]) by (repeat constructor; done).
  destruct (register_words 16 64 [1; 2; 3; 4; 5; 6]) as [ws|e|] eqn:E; [|by vm_compute in E..].
  exists ws. split; [done|]. destruct (register_words_exact 16 64 [1; 2; 3; 4; 5; 6] ltac:(done) ltac:(done) Hv) as [H _].
  destruct (H ws E) as (Hl & _ & Hi). split; [by rewrite Hl|exact Hi].
Defined.

(** A kernel of two arguments, listed out of order. *)
Definition small_map : RawSystemMap := mkRawMap " Simulation " "300000000" [mkRawKernel "vadd" "0x20100000000"
  [mkRawArg "1" "a" "buffer" "0x18" "64" "1" "m_axi_a"; mkRawArg "0" "n" "scalar" "16" "" "1" ""]
  [mkRawConnection "m_axi_a" "HBM3"; mkRawConnection "m_axi_b" "DDR0"]].

Lemma metadata_well_formed_witness : exists m, parse_system_map (inr small_map) = Ok m /\ map a_index (k_args (md_kernel m)) = [0; 1] /\
  well_formed_kernel (md_kernel m).
Proof.
  destruct (parse_system_map (inr small_map)) as [m|e|] eqn:E; [|by vm_compute in E..]. exists m. split; [done|].
  split; [by vm_compute in E; injection E as <-|]. by destruct (metadata_well_formed small_map m E) as (_ & H & _).
Defined.

Definition small_archive : list (string + TarEntry) :=
  [inr (mkEntry Directory (inr "./") (inr true)); inr (mkEntry Regular (inr "./design/system_map.xml") (inr true)); inr (mkEntry Regular (inr "design/top.pdi") (inr true))].

Lemma extraction_confined_witness : exists files, extract "a.vbin" small_archive = Ok files /\ pdis files = [["design"; "top.pdi"]] /\
  Forall confined (omap regular_path small_archive).
Proof.
  destruct (extract "a.vbin" small_archive) as [files|e|] eqn:E; [|by vm_compute in E..]. exists files. split; [done|].
  split; [by vm_compute in E; injection E as <-|]. by destruct (extraction_confined "a.vbin" small_archive files E) as (_ & H & _).
Defined.

(** An entry that climbs out of the directory is refused. *)
Example extraction_refuses_parent : is_ok (extract "a.vbin" [inr (mkEntry Regular (inr "design/../../etc/passwd") (inr true))]) = false.
Proof. vm_compute. reflexivity. Qed.
