(* ===== verification/VrtCtrl.v ===== *)
(** * The [ap_ctrl] handshake of the VRT backends

    [frt/src/vrt/ctrl.rs]: [ControlChannel] is the interface a backend
    implements, and everything else about the control channel is written
    against it.  [ControlChannelSpec] states what an implementation promises:
    which events a register access is, and that it changes nothing else. *)

From S2P Require Import Prelude RustStd BTreeMap Shm Frt Vbin.

Local Open Scope Z_scope.

(** ** The lifecycle of a kernel ([ExecutionState], [device.rs]) *)

(** An instant is in nanoseconds. *)
Inductive ExecutionState := Idle | Running (started : Z) | Finished.

Definition is_running (s : ExecutionState) : bool := match s with Running _ => true | _ => false end.
Definition is_finished_state (s : ExecutionState) : bool := match s with Finished => true | _ => false end.

Definition ensure_not_running (s : ExecutionState) (action kernel : string) : res FrtError unit :=
  if is_running s then vrt ("cannot " +:+ action +:+ " while the " +:+ kernel +:+ " is running") else Ok tt.

Definition CTRL_OFFSET : Z := 0.
Definition CTRL_START : Z := 1.
Definition CTRL_DONE : Z := 2.
(** Durations in nanoseconds. *)
Definition FINISH_TIMEOUT : Z := 60000000000.
Definition FINISH_POLL : Z := 1000000.

(** ** The interface *)

Class ControlChannel `{Env} (D : Type) := {
  LABEL : string;
  ctrl_write : Z -> Z -> io D unit;
  ctrl_read : Z -> io D Z;
  execution_state : D -> ExecutionState;
  set_execution_state : ExecutionState -> D -> D;
  set_compute_ns : Z -> D -> D;
  kernel : D -> Kernel;
  scalars : D -> bmap Z (list Z);
  set_scalars : bmap Z (list Z) -> D -> D;
  buffer_address : D -> Z -> option Z;
}.

Section channel.
Context `{ControlChannel D}.

(** ** Operations *)

Definition write_word (x : Z * Z) : io D unit := ctrl_write x.1 x.2.

Definition write_value (a : Arg) (value : list Z) : io D unit :=
  do! words := io_lift (register_words (a_offset a) (a_range a) value) in
  io_each write_word words.

Definition set_scalar (index : Z) (value : list Z) : io D unit :=
  do! d := io_get in
  do! _ := io_lift (ensure_not_running (execution_state d) "change an argument" LABEL) in
  do! _ := io_lift (validate_scalar_arg (kernel d) index value) in
  io_modify (fun d => set_scalars (BMap.insert index value (scalars d)) d).

(** The bytes bound to an argument. *)
Definition arg_value (d : D) (a : Arg) : res FrtError (list Z) :=
  match a_kind a with
  | KScalar => ok_or (BMap.get (a_index a) (scalars d)) (Vrt ("unbound scalar argument " +:+ Str.show (a_index a) +:+ " (`" +:+ a_name a +:+ "`)"))
  | KBuffer =>
      ok_or (let? address := buffer_address d (a_index a) in Some (le_bytes 8 address))
        (Vrt ("unbound buffer argument " +:+ Str.show (a_index a) +:+ " (`" +:+ a_name a +:+ "`)"))
  end.

Definition write_arg (a : Arg) : io D unit :=
  if writable a then
    do! d := io_get in
    do! value := io_lift (arg_value d a) in
    write_value a value
  else io_ret tt.

Definition start : io D unit :=
  do! d := io_get in
  do! _ := io_lift (ensure_not_running (execution_state d) "start the kernel again" LABEL) in
  do! _ := io_each write_arg (k_args (kernel d)) in
  do! started := ask Now in
  do! _ := ctrl_write CTRL_OFFSET CTRL_START in
  io_modify (fun d => set_execution_state (Running started) (set_compute_ns 0 d)).

Definition poll_finished : io D bool :=
  do! d := io_get in
  match execution_state d with
  | Running started =>
      do! status := ctrl_read CTRL_OFFSET in
      if Z.land status CTRL_DONE =? 0 then io_ret false
      else
        do! ns := elapsed_ns started in
        do! _ := io_modify (fun d => set_execution_state Finished (set_compute_ns ns d)) in
        io_ret true
  | s => io_ret (is_finished_state s)
  end.

(** One poll per millisecond: the loop is left after the timeout. *)
Definition finish_fuel : nat := Z.to_nat (FINISH_TIMEOUT / FINISH_POLL) + 2.

Fixpoint wait_loop (fuel : nat) (timeout : Z -> FrtError) (wait_started : Z) : io D unit :=
  match fuel with
  | O => io_lift Panic
  | S fuel =>
      do! finished := poll_finished in
      if finished then io_ret tt
      else
        do! now := ask Now in
        if FINISH_TIMEOUT <=? Z.max 0 (now - wait_started) then io_lift (Err (timeout (FINISH_TIMEOUT / 1000000000)))
        else
          do! _ := tell (Sleep FINISH_POLL) in
          wait_loop fuel timeout wait_started
  end.

Definition wait_finished (timeout : Z -> FrtError) : io D unit :=
  do! d := io_get in
  if is_running (execution_state d) then
    do! wait_started := ask Now in
    wait_loop finish_fuel timeout wait_started
  else io_ret tt.
End channel.

(** * What the control channel guarantees over any backend

    [ControlChannelSpec] is what a backend promises of its registers.  From it
    alone: a kernel is started after all its arguments are written, and never
    otherwise; waiting for it ends. *)

(** ** What the control channel leaves alone

    What [P] sees is neither the lifecycle nor the passing of time. *)
Section keeps.
Context `{HE : Env} {D : Type} `{HC : !ControlChannel D} {X : Type} (P : D * history -> X).
Hypothesis P_state : forall s d h, P (set_execution_state s d, h) = P (d, h).
Hypothesis P_compute : forall ns d h, P (set_compute_ns ns d, h) = P (d, h).
Hypothesis P_now : unseen P Now.
Hypothesis P_sleep : forall ns, unseen P (Sleep ns).
Hypothesis P_write : forall o v, keeps P (ctrl_write o v).
Hypothesis P_read : forall o, keeps P (ctrl_read o).

Lemma keeps_poll : keeps P poll_finished.
Proof using P_state P_compute P_read P_now. unfold poll_finished. keeps_tac. by rewrite P_state. Qed.

Lemma keeps_wait_loop fuel timeout started : keeps P (wait_loop fuel timeout started).
Proof using P_state P_compute P_read P_now P_sleep.
  induction fuel as [|fuel IH]; [apply keeps_lift|]. cbn [wait_loop]. apply keeps_bind; [apply keeps_poll|]. keeps_tac.
Qed.

Lemma keeps_wait timeout : keeps P (wait_finished timeout).
Proof using P_state P_compute P_read P_now P_sleep.
  unfold wait_finished. apply keeps_bind; [apply keeps_get|]. intros d. destruct (is_running _); [|apply keeps_ret].
  apply keeps_bind; [by apply keeps_ask|]. intros t. apply keeps_wait_loop.
Qed.

Lemma keeps_start : keeps P start.
Proof using P_state P_compute P_write P_now.
  unfold start. keeps_tac; [|by rewrite P_state].
  unfold write_arg, write_value, write_word. keeps_tac.
Qed.

Lemma keeps_set_scalar index value : (forall m d h, P (set_scalars m d, h) = P (d, h)) -> keeps P (set_scalar index value).
Proof using Type. intros Hs. unfold set_scalar. keeps_tac. Qed.
End keeps.

(** ** The promise of a backend *)

Class ControlChannelSpec `{Env} (D : Type) `{!ControlChannel D} := {
  (** The events a completed register write is. *)
  write_events : D -> Z -> Z -> history;
  ctrl_write_spec o v d h r d' h' : ctrl_write o v (d, h) = (r, (d', h')) ->
    d' = d /\ match r with
              | Ok _ => h' = h ++ write_events d o v
              | Err _ => exists p, p `prefix_of` write_events d o v /\ h' = h ++ p
              | Panic => False
              end;
  ctrl_read_spec o d h r d' h' : ctrl_read o (d, h) = (r, (d', h')) -> d' = d /\ r <> Panic /\ exists p, h' = h ++ p /\ slept p = 0;
  set_state_state s d : execution_state (set_execution_state s d) = s;
  set_state_kernel s d : kernel (set_execution_state s d) = kernel d;
  set_compute_state ns d : execution_state (set_compute_ns ns d) = execution_state d;
  set_compute_kernel ns d : kernel (set_compute_ns ns d) = kernel d;
}.

Section channel.
Context `{HE : Env} {D : Type} `{HC : !ControlChannel D} `{HS : !ControlChannelSpec D}.

(** ** Starting a kernel *)

(** The words an argument is written with; none when it is not written, or
    cannot be. *)
Definition arg_words (d : D) (a : Arg) : list (Z * Z) :=
  if writable a then
    match arg_value d a with
    | Ok v => match register_words (a_offset a) (a_range a) v with Ok ws => ws | _ => [] end
    | _ => []
    end
  else [].

Definition word_events (d : D) (ws : list (Z * Z)) : history := flat_map (fun w => write_events d w.1 w.2) ws.
Definition all_arg_events (d : D) (args : list Arg) : history := flat_map (fun a => word_events d (arg_words d a)) args.

(** The argument can be written. *)
Definition bound (d : D) (a : Arg) : Prop :=
  writable a = true -> exists v ws, arg_value d a = Ok v /\ register_words (a_offset a) (a_range a) v = Ok ws.

Lemma word_offset_no_panic offset x : word_offset offset x <> Panic.
Proof. unfold word_offset. by destruct (ok_or _ _) eqn:E; try done; destruct (let? _ := _ in _). Qed.

Lemma try_map_no_panic {E A B} (f : A -> res E B) l : (forall x, f x <> Panic) -> try_map f l <> Panic.
Proof. intros Hf. induction l as [|x l IH]; [done|]. cbn [try_map]. specialize (Hf x). destruct (f x); [|done|done]. simpl. by destruct (try_map f l). Qed.

Lemma register_words_no_panic o r v : register_words o r v <> Panic.
Proof.
  unfold register_words. destruct (negb _); [done|]. destruct (64 <? _); [done|]. destruct (_ <? Z.of_nat _); [done|].
  apply try_map_no_panic, word_offset_no_panic.
Qed.

(** How a sequence of writes can end: all of it, or an error after some of it. *)
Definition writes (d : D) (h : history) (events : history) (all : Prop) (s : res FrtError unit * (D * history)) : Prop :=
  s.2.1 = d /\ match s.1 with
    | Ok _ => all /\ s.2.2 = h ++ events
    | Err _ => exists p, p `prefix_of` events /\ s.2.2 = h ++ p
    | Panic => False
    end.

Lemma writes_nil d h all (s : res FrtError unit * (D * history)) : s = (Ok tt, (d, h)) -> all -> writes d h [] all s.
Proof using Type. intros -> Ha. split; [done|]. split; [done|]. by rewrite List.app_nil_r. Qed.

Lemma writes_err d h events all e : writes d h events all (Err e, (d, h)).
Proof using Type. split; [done|]. exists []. split; [apply prefix_nil|by rewrite List.app_nil_r]. Qed.

Lemma writes_each {A} (f : A -> io D unit) (events : A -> history) (ok : A -> Prop) d h l :
  (forall h x, writes d h (events x) (ok x) (f x (d, h))) -> writes d h (flat_map events l) (Forall ok l) (io_each f l (d, h)).
Proof using Type.
  intros Hf. revert h. induction l as [|x l IH]; intros h; [by apply writes_nil; [|constructor]|].
  cbn [io_each flat_map]. unfold io_bind. destruct (Hf h x) as [H1 H2]. destruct (f x (d, h)) as [r [d' h']]. simpl in H1, H2. subst d'.
  destruct r as [u|e|]; [destruct H2 as [Hx ->]|split; [done|]; destruct H2 as (p & Hp & ->); exists p; split; [by apply prefix_app_r|done]|done].
  destruct (IH (h ++ events x)) as [H3 H4]. split; [done|]. destruct (io_each f l _) as [[u'|e|] [d' h']]; simpl in *; [..|done].
  - destruct H4 as [Hl ->]. split; [by constructor|]. by rewrite app_assoc.
  - destruct H4 as (p & Hp & ->). exists (events x ++ p). split; [by apply prefix_app|by rewrite app_assoc].
Qed.

Lemma write_word_writes d h w : writes d h (write_events d w.1 w.2) True (write_word w (d, h)).
Proof using Type.
  unfold write_word. destruct (ctrl_write w.1 w.2 (d, h)) as [r [d' h']] eqn:E. apply ctrl_write_spec in E as [-> E]. split; [done|]. by destruct r.
Qed.

Lemma write_argument d h a : writes d h (word_events d (arg_words d a)) (bound d a) (write_arg a (d, h)).
Proof using Type.
  unfold write_arg, arg_words, bound. destruct (writable a); [|by apply writes_nil].
  unfold io_bind, io_get, io_lift, write_value. cbn [fst]. destruct (arg_value d a) as [v|e|] eqn:Ev; [|by apply writes_err|].
  - pose proof (register_words_no_panic (a_offset a) (a_range a) v) as Hn. unfold io_bind, io_lift.
    destruct (register_words _ _ v) as [ws|e|] eqn:Ew; [|by apply writes_err|done].
    destruct (writes_each write_word _ _ d h ws (write_word_writes d)) as [H1 H2]. split; [done|].
    destruct (io_each _ _ _) as [[u|e|] ?]; simpl in *; [split; [intros _; by exists v, ws|by destruct H2]|done|done].
  - unfold arg_value in Ev. destruct (a_kind a); [by destruct (BMap.get _ _)|by destruct (buffer_address d _)].
Qed.

Lemma write_arguments d h args : writes d h (all_arg_events d args) (Forall (bound d) args) (io_each write_arg args (d, h)).
Proof using Type. apply writes_each. intros h' a. apply write_argument. Qed.

(** C15: a kernel is started only after its arguments are in place: a start that
    succeeds writes the register image of every writable argument, in order, each
    from the value bound to it, and then the start bit, and nothing else; one that
    fails before the start bit is attempted leaves the kernel alone. *)
Theorem start_orders_writes d h r d' h' : start (d, h) = (r, (d', h')) ->
  let args := all_arg_events d (k_args (kernel d)) in let pulse := write_events d CTRL_OFFSET CTRL_START in
  match r with
  | Ok _ => is_running (execution_state d) = false /\ Forall (bound d) (k_args (kernel d)) /\ h' = h ++ args ++ [Now] ++ pulse /\
      execution_state d' = Running (respond Now (h ++ args)) /\ kernel d' = kernel d
  | Err _ => d' = d /\ exists p, h' = h ++ p /\ (p `prefix_of` args \/ (Forall (bound d) (k_args (kernel d)) /\ exists q, q `prefix_of` pulse /\ p = args ++ [Now] ++ q))
  | Panic => False
  end.
Proof using Type.
  intros H. cbv zeta. unfold start, io_bind at 1 2, io_get, io_lift in H. cbn [fst] in H. unfold ensure_not_running in H.
  destruct (is_running (execution_state d)) eqn:Er.
  { unfold vrt in H. simplify_eq. split; [done|]. exists []. rewrite List.app_nil_r. split; [done|]. left. apply prefix_nil. }
  unfold io_bind at 1 in H. destruct (write_arguments d h (k_args (kernel d))) as [H1 H2]. destruct (io_each _ _ _) as [[u|e|] [d1 h1]]; simpl in H1, H2; subst d1; [..|done].
  - destruct H2 as [Hb ->]. unfold io_bind, ask in H. cbn [fst snd] in H. destruct (ctrl_write _ _ _) as [w [d2 h2]] eqn:E. apply ctrl_write_spec in E as [-> E].
    destruct w as [u'|e|]; [|simplify_eq|done].
    + unfold io_modify in H. cbn [fst snd] in H. simplify_eq. rewrite !app_assoc in *. split; [done|]. split; [done|]. split; [done|].
      rewrite set_state_state, set_state_kernel, set_compute_kernel. done.
    + destruct E as (p & Hp & ->). split; [done|]. eexists. split; [by rewrite <- !app_assoc|]. right. split; [done|]. by exists p.
  - simplify_eq. destruct H2 as (p & Hp & ->). split; [done|]. exists p. split; [done|]. by left.
Qed.

(** ** Waiting for a kernel *)

Lemma poll_spec d h r d' h' : poll_finished (d, h) = (r, (d', h')) ->
  r <> Panic /\ kernel d' = kernel d /\ (exists p, h' = h ++ p /\ slept p = 0) /\ (r = Ok true -> is_finished_state (execution_state d') = true) /\
  (r <> Ok true -> execution_state d' = execution_state d).
Proof using All.
  unfold poll_finished, io_bind at 1, io_get. cbn [fst]. intros H.
  assert (Hstill : forall b, io_ret b (d, h) = (r, (d', h')) -> (b = true -> is_finished_state (execution_state d) = true) ->
    r <> Panic /\ kernel d' = kernel d /\ (exists p, h' = h ++ p /\ slept p = 0) /\ (r = Ok true -> is_finished_state (execution_state d') = true) /\
    (r <> Ok true -> execution_state d' = execution_state d)).
  { intros b [= <- <- <-] Hb. split; [done|]. split; [done|]. split; [exists []; by rewrite List.app_nil_r|]. split; [|done]. intros [= ->]. by apply Hb. }
  destruct (execution_state d) as [|t|] eqn:Ed; [by apply (Hstill false)| |by apply (Hstill true)].
  unfold io_bind at 1 in H. destruct (ctrl_read CTRL_OFFSET (d, h)) as [w [d1 h1]] eqn:E. apply ctrl_read_spec in E as (-> & Hn & p & -> & Hp).
  destruct w as [status|e|]; [|simplify_eq; repeat split; try done; by exists p|done].
  destruct (_ =? 0); [unfold io_ret in H; simplify_eq; repeat split; try done; by exists p|].
  unfold elapsed_ns, io_bind, ask, io_modify, io_ret in H. cbn [fst snd] in H. simplify_eq. split; [done|]. split; [by rewrite set_state_kernel, set_compute_kernel|].
  split; [|split; [by rewrite set_state_state|done]]. exists (p ++ [Now]). rewrite app_assoc. split; [done|]. by rewrite slept_app, Hp.
Qed.

Lemma finish_fuel_value : Z.of_nat finish_fuel = 60002.
Proof. unfold finish_fuel. rewrite Nat2Z.inj_add, Z2Nat.id by done. done. Qed.

(** After [k] rounds, [k] polls have been slept through. *)
Lemma wait_loop_ends `{HM : !MonotonicClock} timeout h0 fuel k d seg r d' h' : (fuel + k = finish_fuel)%nat -> Z.of_nat k * FINISH_POLL <= slept seg ->
  (k = 0%nat \/ (Z.of_nat k - 1) * FINISH_POLL < FINISH_TIMEOUT) -> is_running (execution_state d) = true ->
  wait_loop fuel timeout (respond Now h0) (d, h0 ++ seg) = (r, (d', h')) ->
  r <> Panic /\ kernel d' = kernel d /\ (r = Ok tt -> is_finished_state (execution_state d') = true).
Proof using All.
  revert k d seg. induction fuel as [|fuel IH]; intros k d seg Hk Hslept Hlate Hrun H.
  { exfalso. pose proof finish_fuel_value. unfold FINISH_POLL, FINISH_TIMEOUT in *. lia. }
  cbn [wait_loop] in H. unfold io_bind at 1 in H. destruct (poll_finished (d, h0 ++ seg)) as [w [d1 h1]] eqn:E.
  apply poll_spec in E as (Hn & Hker & (p & -> & Hp) & Hdone & Hsame). destruct w as [b|e|]; [|simplify_eq; by repeat split|done].
  destruct b; [unfold io_ret in H; simplify_eq; split; [done|]; split; [done|]; intros _; by apply Hdone|].
  specialize (Hsame ltac:(done)). unfold io_bind at 1, ask in H. cbn [fst snd] in H.
  assert (Hnow : Z.of_nat k * FINISH_POLL <= respond Now ((h0 ++ seg) ++ p) - respond Now h0).
  { pose proof (clock_advances h0 (seg ++ p)) as Hc. rewrite app_assoc, slept_app, Hp in Hc. lia. }
  destruct (Z.leb_spec FINISH_TIMEOUT (Z.max 0 (respond Now ((h0 ++ seg) ++ p) - respond Now h0))) as [Hle|Hgt].
  { unfold io_lift in H. simplify_eq. by split. }
  unfold io_bind at 1, tell in H. cbn [fst snd] in H. rewrite <- !app_assoc in H. apply (IH (S k)) in H.
  - destruct H as (H1 & H2 & H3). split; [done|]. split; [congruence|done].
  - lia.
  - rewrite !slept_app, Hp. unfold slept at 2 3. cbn. unfold FINISH_POLL in *. lia.
  - right. unfold FINISH_POLL, FINISH_TIMEOUT in *. lia.
  - by rewrite Hsame.
Qed.

Lemma wait_no_panic `{HM : !MonotonicClock} timeout d h : (wait_finished timeout (d, h)).1 <> Panic.
Proof using All.
  unfold wait_finished, io_bind at 1, io_get. cbn [fst]. destruct (is_running (execution_state d)) eqn:Er; [|done].
  unfold io_bind, ask. cbn [fst snd]. destruct (wait_loop _ _ _ _) as [r [d' h']] eqn:E.
  apply (wait_loop_ends timeout h finish_fuel 0 d [Now]) in E; [by destruct E|lia|cbn; lia|by left|done].
Qed.

(** Waiting for a kernel ends: whatever the device answers, [finish] returns,
    with the kernel finished or with an error, as long as time passes. *)
Theorem finish_ends `{HM : !MonotonicClock} timeout d h r d' h' : wait_finished timeout (d, h) = (r, (d', h')) ->
  r <> Panic /\ kernel d' = kernel d /\ (r = Ok tt -> is_running (execution_state d') = false).
Proof using All.
  unfold wait_finished, io_bind at 1, io_get. cbn [fst]. destruct (is_running (execution_state d)) eqn:Er; [|intros [= <- <- <-]; by repeat split].
  unfold io_bind, ask. cbn [fst snd]. intros H. apply (wait_loop_ends timeout h finish_fuel 0 d [Now]) in H; [|lia|cbn; lia|by left|done].
  destruct H as (H1 & H2 & H3). split; [done|]. split; [done|]. intros Hr. specialize (H3 Hr). by destruct (execution_state d').
Qed.
End channel.
