(* ===== verification/VrtSim.v ===== *)
(** * The simulation backend of VRT

    [frt/src/vrt/sim.rs]: the simulated address space, the requests to the
    simulator, and the [Device] operations.  [serde_json] is a parameter; the
    transport and the process of the simulator belong to the environment. *)

From S2P Require Import Prelude RustStd BTreeMap Shm Frt Vbin VrtCtrl.

Local Open Scope Z_scope.

Definition HBM_BASE : Z := 274877906944.
Definition DDR_BASE : Z := 6597069766656.
Definition MEMORY_WINDOW_BYTES : Z := 134217728.
Definition BUFFER_ALIGNMENT : Z := 4096.

(** ** Addresses *)

Record BumpRange := mkRange { br_next : Z; br_end : Z }.

Definition bump_new (base : Z) : BumpRange := mkRange base (base + MEMORY_WINDOW_BYTES).

(** [size & !(BUFFER_ALIGNMENT - 1)], on 64 bits. *)
Definition align_down (size : Z) : Z := Z.land size (Z.lxor U64_MAX (BUFFER_ALIGNMENT - 1)).

Definition bump_allocate (r : BumpRange) (bytes : Z) (target : string) : res FrtError (Z * BumpRange) :=
  if bytes =? 0 then vrt "zero-length simulation buffer allocation" else
  let! reserved := ok_or (let? size := checked_add64 bytes (BUFFER_ALIGNMENT - 1) in Some (align_down size))
    (Vrt (target +:+ " simulation buffer size overflow")) in
  let address := br_next r in
  let! next := ok_or (checked_add64 address reserved) (Vrt (target +:+ " simulation buffer address overflow")) in
  if br_end r <? next then
    vrt (target +:+ " simulation allocation of " +:+ Str.show bytes +:+ " bytes exceeds the 128MiB window at " +:+ Str.show_hex address)
  else Ok (address, mkRange next (br_end r)).

(** Every HBM bank reaches one window. *)
Record AddressAllocators := mkAllocators { al_hbm : BumpRange; al_ddr : BumpRange }.

Definition allocators_new : AddressAllocators := mkAllocators (bump_new HBM_BASE) (bump_new DDR_BASE).

Definition allocate (a : AddressAllocators) (target : MemoryTarget) (bytes : Z) : res FrtError (Z * AddressAllocators) :=
  match target with
  | Ddr => let! (address, r) := bump_allocate (al_ddr a) bytes "DDR" in Ok (address, mkAllocators (al_hbm a) r)
  | Hbm _ | HbmVnoc => let! (address, r) := bump_allocate (al_hbm a) bytes "HBM" in Ok (address, mkAllocators r (al_ddr a))
  end.

(** ** The device *)

Record SimBinding := mkSimBinding { sb_ptr : Z; sb_bytes : Z; sb_access : BufferAccess; sb_address : Z }.

Record SimDevice := mkSim {
  sd_kernel : Kernel;
  sd_process : bool;
  sd_allocators : AddressAllocators;
  sd_scalars : bmap Z (list Z);
  sd_buffers : bmap Z SimBinding;
  sd_state : ExecutionState;
  session_active : bool;
  sd_load_ns : Z;
  sd_compute_ns : Z;
  sd_store_ns : Z;
}.

(** [SimDevice::new]; [process] tells whether a simulator was spawned. *)
Definition sim_new (k : Kernel) (process : bool) : SimDevice :=
  mkSim k process allocators_new BMap.empty BMap.empty Idle false 0 0 0.

Definition sim_set_state (s : ExecutionState) (d : SimDevice) : SimDevice :=
  mkSim (sd_kernel d) (sd_process d) (sd_allocators d) (sd_scalars d) (sd_buffers d) s (session_active d) (sd_load_ns d) (sd_compute_ns d) (sd_store_ns d).
Definition sim_set_compute (ns : Z) (d : SimDevice) : SimDevice :=
  mkSim (sd_kernel d) (sd_process d) (sd_allocators d) (sd_scalars d) (sd_buffers d) (sd_state d) (session_active d) (sd_load_ns d) ns (sd_store_ns d).
Definition sim_set_scalars (m : bmap Z (list Z)) (d : SimDevice) : SimDevice :=
  mkSim (sd_kernel d) (sd_process d) (sd_allocators d) m (sd_buffers d) (sd_state d) (session_active d) (sd_load_ns d) (sd_compute_ns d) (sd_store_ns d).
Definition sim_set_session (b : bool) (d : SimDevice) : SimDevice :=
  mkSim (sd_kernel d) (sd_process d) (sd_allocators d) (sd_scalars d) (sd_buffers d) (sd_state d) b (sd_load_ns d) (sd_compute_ns d) (sd_store_ns d).
Definition sim_set_load (ns : Z) (d : SimDevice) : SimDevice :=
  mkSim (sd_kernel d) (sd_process d) (sd_allocators d) (sd_scalars d) (sd_buffers d) (sd_state d) (session_active d) ns (sd_compute_ns d) (sd_store_ns d).
Definition sim_set_store (ns : Z) (d : SimDevice) : SimDevice :=
  mkSim (sd_kernel d) (sd_process d) (sd_allocators d) (sd_scalars d) (sd_buffers d) (sd_state d) (session_active d) (sd_load_ns d) (sd_compute_ns d) ns.
Definition sim_bind (index : Z) (b : SimBinding) (a : AddressAllocators) (d : SimDevice) : SimDevice :=
  mkSim (sd_kernel d) (sd_process d) a (sd_scalars d) (BMap.insert index b (sd_buffers d)) (sd_state d) (session_active d) (sd_load_ns d) (sd_compute_ns d) (sd_store_ns d).

(** ** Requests *)

(** The commands of [json!], and the parts of [serde_json] the source calls. *)
Inductive JsonField := JText (s : string) | JNumber (n : Z).
Definition Command : Type := list (string * JsonField).

Class SerdeJson := {
  to_vec : Command -> string + list Z;
  from_slice_u32 : list Z -> string + Z;
  from_slice_bytes : list Z -> string + list Z;
}.

Definition reply_error (reply : list Z) (command : string) : res FrtError unit :=
  let starts (p : string) := bool_decide (take (length (bytes_of p)) reply = bytes_of p) in
  if bool_decide (reply = bytes_of "ERR") || starts "ERR:" || starts "ERR " then
    vrt ("SLASH simulation `" +:+ command +:+ "` failed: " +:+ from_utf8_lossy reply)
  else Ok tt.

Definition expect_ok_reply (reply : list Z) (command : string) : res FrtError unit :=
  let! _ := reply_error reply command in
  if bool_decide (reply = bytes_of "OK") then Ok tt
  else vrt ("SLASH simulation `" +:+ command +:+ "` returned an unexpected reply: " +:+ from_utf8_lossy reply).

Definition json_reply {A} (from_slice : list Z -> string + A) (reply : list Z) (what : string) : res FrtError A :=
  let! _ := reply_error reply what in
  map_err (fun e => Vrt ("invalid SLASH simulation " +:+ what +:+ " reply `" +:+ from_utf8_lossy reply +:+ "`: " +:+ e)) (of_sum (from_slice reply)).

Section sim.
Context `{Env} `{SerdeJson}.

Definition request (command : Command) (binary : option (list Z)) : io SimDevice (list Z) :=
  do! json := io_lift (map_err (fun e => Vrt ("cannot encode ZMQ command: " +:+ e)) (of_sum (to_vec command))) in
  do! reply := ask (Request (json :: match binary with Some b => [b] | None => [] end)) in
  io_lift (of_sum reply).

Definition start_session : io SimDevice unit :=
  do! reply := request [("command", JText "start")] None in
  do! _ := io_lift (expect_ok_reply reply "start") in
  io_modify (sim_set_session true).

(** The session is over whatever the simulator answers. *)
Definition exit_session : io SimDevice unit := fun s =>
  let '(result, s) := (do! reply := request [("command", JText "exit")] None in io_lift (expect_ok_reply reply "exit")) s in
  (result, (sim_set_session false s.1, s.2)).

Definition register_address (d : SimDevice) (offset : Z) : res FrtError Z :=
  ok_or (checked_add64 (base_address (sd_kernel d)) offset) (Vrt "simulation register address overflow").

Definition reg_command (address value : Z) : Command := [("command", JText "reg"); ("addr", JNumber address); ("val", JNumber value)].
Definition scalar_command (address : Z) : Command := [("command", JText "fetch"); ("type", JText "scalar"); ("addr", JNumber address)].
Definition populate_command (address size : Z) : Command := [("command", JText "populate"); ("addr", JNumber address); ("size", JNumber size)].
Definition buffer_command (address size : Z) : Command :=
  [("command", JText "fetch"); ("type", JText "buffer"); ("addr", JNumber address); ("size", JNumber size)].

Definition sim_write_register (offset value : Z) : io SimDevice unit :=
  do! d := io_get in
  do! address := io_lift (register_address d offset) in
  do! reply := request (reg_command address value) None in
  io_lift (expect_ok_reply reply "reg").

Definition sim_read_register (offset : Z) : io SimDevice Z :=
  do! d := io_get in
  do! address := io_lift (register_address d offset) in
  do! reply := request (scalar_command address) None in
  io_lift (json_reply from_slice_u32 reply "scalar fetch").

Definition populate (address : Z) (data : list Z) : io SimDevice unit :=
  do! reply := request (populate_command address (Z.of_nat (length data))) (Some data) in
  io_lift (expect_ok_reply reply "populate").

Definition fetch_buffer (address size : Z) : io SimDevice (list Z) :=
  do! reply := request (buffer_command address size) None in
  do! data := io_lift (json_reply from_slice_bytes reply "buffer fetch") in
  if negb (Z.of_nat (length data) =? size) then
    io_lift (vrt ("SLASH simulation buffer fetch at " +:+ Str.show_hex address +:+ " returned " +:+ Str.show (Z.of_nat (length data))
      +:+ " bytes, expected " +:+ Str.show size))
  else io_ret data.

(** [shutdown]: what fails on the way is only logged. *)
Definition sim_shutdown : io SimDevice unit := fun s =>
  let s := if session_active s.1 then (exit_session s).2 else s in
  (do! _ := tell CloseTransport in
   do! d := io_get in
   if sd_process d then tell StopProcess else io_ret tt) s.

#[export] Instance sim_channel : ControlChannel SimDevice := {
  LABEL := "SLASH simulation kernel";
  ctrl_write := sim_write_register;
  ctrl_read := sim_read_register;
  execution_state := sd_state;
  set_execution_state := sim_set_state;
  set_compute_ns := sim_set_compute;
  kernel := sd_kernel;
  scalars := sd_scalars;
  set_scalars := sim_set_scalars;
  buffer_address d index := option_map sb_address (BMap.get index (sd_buffers d));
}.

(** ** The operations of a device *)

Definition sim_set_scalar_arg (index : Z) (value : list Z) : io SimDevice unit := set_scalar index value.

Definition sim_set_buffer_arg (index ptr bytes : Z) (access : BufferAccess) : io SimDevice unit :=
  do! d := io_get in
  do! _ := io_lift (ensure_not_running (sd_state d) "change an argument" "SLASH simulation kernel") in
  do! (target, size) := io_lift (validate_buffer_arg (sd_kernel d) index ptr bytes) in
  do! (address, allocators) := io_lift (allocate (sd_allocators d) target size) in
  io_modify (sim_bind index (mkSimBinding ptr bytes access address) allocators).

Definition sim_set_stream_arg (index : Z) : io SimDevice unit :=
  io_lift (vrt ("argument " +:+ Str.show index +:+ ": host streams are unsupported by the SLASH simulation backend")).

Definition upload (x : Z * SimBinding) : io SimDevice unit :=
  do! data := ask (HostRead (sb_ptr x.2) (sb_bytes x.2)) in
  io_map_err (fun e => Vrt ("cannot upload simulation buffer argument " +:+ Str.show x.1 +:+ ": " +:+ frt_display e)) (populate (sb_address x.2) data).

Definition sim_write_to_device : io SimDevice unit :=
  do! d := io_get in
  do! _ := io_lift (ensure_not_running (sd_state d) "upload buffers" "SLASH simulation kernel") in
  do! started := ask Now in
  do! _ := io_each upload (List.filter (fun x => loads_from_host (sb_access x.2)) (sd_buffers d)) in
  do! ns := elapsed_ns started in
  io_modify (sim_set_load ns).

Definition sim_finish : io SimDevice unit :=
  wait_finished (fun secs => Vrt ("SLASH simulation kernel did not finish within " +:+ Str.show secs +:+ "s")).

Definition download (x : Z * SimBinding) : io SimDevice unit :=
  do! data := io_map_err (fun e => Vrt ("cannot download simulation buffer argument " +:+ Str.show x.1 +:+ ": " +:+ frt_display e))
    (fetch_buffer (sb_address x.2) (sb_bytes x.2)) in
  tell (HostWrite (sb_ptr x.2) data).

Definition sim_read_from_device : io SimDevice unit :=
  do! d := io_get in
  do! _ := if is_running (sd_state d) then sim_finish else io_ret tt in
  do! d := io_get in
  do! started := ask Now in
  do! _ := io_each download (List.filter (fun x => stores_to_host (sb_access x.2)) (sd_buffers d)) in
  do! ns := elapsed_ns started in
  io_modify (sim_set_store ns).

Definition sim_exec : io SimDevice unit := start.

Definition sim_kill : io SimDevice unit :=
  io_lift (vrt "SLASH simulation has no kernel cancellation; closing the device exits vpp_sim").

Definition sim_is_finished : io SimDevice bool := poll_finished.
End sim.

(** * The simulation backend keeps its promises

    It is a control channel in the sense of [ControlChannelSpec]; the buffers it
    places never overlap; and transfers move exactly the bytes of the buffers
    the kernel reads or writes. *)

Section sim.
Context `{Env} `{SerdeJson}.

(** ** Requests *)

(** The request a command becomes. *)
Definition request_events (command : Command) (binary : option (list Z)) : history :=
  match to_vec command with inr json => [Request (json :: match binary with Some b => [b] | None => [] end)] | inl _ => [] end.

(** An operation that sends one request and leaves the device alone. *)
Definition sends {A} (events : history) (d : SimDevice) (h : history) (s : res FrtError A * (SimDevice * history)) : Prop :=
  s.2.1 = d /\ s.1 <> Panic /\ (s.2.2 = h \/ s.2.2 = h ++ events) /\ (is_ok s.1 = true -> s.2.2 = h ++ events).

Lemma request_sends command binary d h : sends (request_events command binary) d h (request command binary (d, h)).
Proof using Type.
  unfold request, request_events, io_bind, io_lift, ask. destruct (to_vec command) as [e|json]; simpl.
  - split; [done|]. split; [done|]. split; [by left|done].
  - unfold sends. cbn [fst snd]. split; [done|]. split; [by destruct (respond _ _)|]. split; [by right|done].
Qed.

Lemma sends_lift {A B} events d h (m : io SimDevice A) (f : A -> res FrtError B) : sends events d h (m (d, h)) -> (forall a, f a <> Panic) ->
  sends events d h ((do! a := m in io_lift (f a)) (d, h)).
Proof using Type.
  intros (H1 & H2 & H3 & H4) Hf. unfold io_bind, io_lift. destruct (m (d, h)) as [[a|e|] [d' h']]; unfold sends in *; simpl in *; [|by repeat split|done].
  specialize (H4 eq_refl). subst. split; [done|]. split; [apply Hf|]. split; [by right|done].
Qed.

Lemma expect_ok_no_panic reply command : expect_ok_reply reply command <> Panic.
Proof using Type. unfold expect_ok_reply, reply_error. cbv zeta. destruct (_ || _); simpl; [done|]. by destruct (bool_decide _). Qed.

Lemma json_reply_no_panic {A} (f : list Z -> string + A) reply what : json_reply f reply what <> Panic.
Proof using Type. unfold json_reply, reply_error. cbv zeta. destruct (_ || _); simpl; [done|]. by destruct (f reply). Qed.

(** ** The control channel *)

Definition sim_write_events (d : SimDevice) (offset value : Z) : history :=
  match register_address d offset with Ok address => request_events (reg_command address value) None | _ => [] end.

Lemma register_address_no_panic d offset : register_address d offset <> Panic.
Proof using Type. unfold register_address. by destruct (checked_add64 _ _). Qed.

#[export] Program Instance sim_channel_spec : ControlChannelSpec SimDevice := {| write_events := sim_write_events |}.
Next Obligation.
  intros o v d h r d' h' Hw. cbn [ctrl_write sim_channel] in Hw. unfold sim_write_register, io_bind at 1 2, io_get, io_lift at 1 in Hw. cbn [fst] in Hw.
  pose proof (register_address_no_panic d o) as Hn. unfold sim_write_events. destruct (register_address d o) as [address|e|]; [|by simplify_eq; split; [|exists []; rewrite List.app_nil_r]|done].
  pose proof (sends_lift _ d h _ (fun reply => expect_ok_reply reply "reg") (request_sends (reg_command address v) None d h) (fun a => expect_ok_no_panic a "reg")) as (H1 & H2 & H3 & H4).
  rewrite Hw in H1, H2, H3, H4. simpl in *. split; [done|]. destruct r; [by apply H4| |done]. destruct H3 as [->| ->]; [exists []; split; [apply prefix_nil|by rewrite List.app_nil_r]|by eexists].
Qed.
Next Obligation.
  intros o d h r d' h' Hr. cbn [ctrl_read sim_channel] in Hr. unfold sim_read_register, io_bind at 1 2, io_get, io_lift at 1 in Hr. cbn [fst] in Hr.
  pose proof (register_address_no_panic d o) as Hn. destruct (register_address d o) as [address|e|]; [|simplify_eq; repeat split; [done|]; exists []; by rewrite List.app_nil_r|done].
  pose proof (sends_lift _ d h _ (fun reply => json_reply from_slice_u32 reply "scalar fetch") (request_sends (scalar_command address) None d h) (fun a => json_reply_no_panic _ a _)) as (H1 & H2 & H3 & H4).
  rewrite Hr in H1, H2, H3, H4. simpl in *. split; [done|]. split; [done|]. destruct H3 as [->| ->]; [exists []; by rewrite List.app_nil_r|]. eexists. split; [done|].
  unfold request_events. by destruct (to_vec _).
Qed.
Next Obligation. done. Qed.
Next Obligation. done. Qed.
Next Obligation. done. Qed.
Next Obligation. done. Qed.

(** ** Where buffers go *)

Lemma align_down_spec size : 0 <= size <= U64_MAX -> align_down size = size / BUFFER_ALIGNMENT * BUFFER_ALIGNMENT.
Proof.
  intros Hs. unfold align_down, BUFFER_ALIGNMENT.
  replace (Z.lxor U64_MAX (4096 - 1)) with (Z.shiftl (Z.ones 52) 12) by by vm_compute.
  replace (size / 4096 * 4096) with (Z.shiftl (Z.shiftr size 12) 12) by (by rewrite Z.shiftl_mul_pow2, Z.shiftr_div_pow2).
  apply Z.bits_inj'. intros n Hn. rewrite Z.land_spec, !Z.shiftl_spec by done. destruct (Z.ltb_spec n 12) as [Hl|Hl].
  - rewrite !(Z.testbit_neg_r _ (n - 12)) by lia. by rewrite andb_false_r.
  - rewrite Z.shiftr_spec by lia. replace (n - 12 + 12) with n by lia. destruct (Z.ltb_spec n 64) as [H64|H64].
    + rewrite Z.ones_spec_low by lia. by rewrite andb_true_r.
    + rewrite Z.ones_spec_high by lia. rewrite andb_false_r. symmetry. destruct (Z.eq_dec size 0) as [->|Hz]; [apply Z.testbit_0_l|].
      apply Z.bits_above_log2; [lia|]. apply (Z.lt_le_trans _ 64); [|done]. apply Z.log2_lt_pow2; [lia|]. unfold U64_MAX in Hs. lia.
Qed.

(** A range in its window. *)
Definition range_ok (base : Z) (r : BumpRange) : Prop :=
  base <= br_next r <= br_end r /\ br_end r = base + MEMORY_WINDOW_BYTES /\ br_next r mod BUFFER_ALIGNMENT = 0.

Lemma bump_allocate_spec base r bytes target address r' : range_ok base r -> 0 <= bytes -> bump_allocate r bytes target = Ok (address, r') ->
  range_ok base r' /\ address = br_next r /\ address + bytes <= br_next r' /\ 0 < bytes.
Proof using Type.
  intros (H1 & H2 & H3) Hb Ha. unfold bump_allocate in Ha. destruct (Z.eqb_spec bytes 0) as [|Hz]; [done|].
  apply rbind_ok in Ha as (reserved & Hr%ok_or_ok & Ha). apply rbind_ok in Ha as (next & Hn%ok_or_ok & Ha).
  apply bind_Some in Hr as (size & [-> Hs]%fits_Some & [= <-]). apply fits_Some in Hn as [-> Hn].
  rewrite align_down_spec in Ha, Hn by done. unfold BUFFER_ALIGNMENT in *.
  destruct (Z.ltb_spec (br_end r) (br_next r + (bytes + (4096 - 1)) / 4096 * 4096)) as [|Hend]; [done|]. simplify_eq.
  pose proof (Z.div_mod (bytes + (4096 - 1)) 4096 ltac:(done)) as Hd. pose proof (Z.mod_pos_bound (bytes + (4096 - 1)) 4096 ltac:(done)) as Hm.
  unfold range_ok. cbn [br_next br_end]. repeat split; try lia. rewrite Z_mod_plus_full. done.
Qed.

Definition window (target : MemoryTarget) : Z := match target with Ddr => DDR_BASE | _ => HBM_BASE end.
Definition cursor (a : AddressAllocators) (target : MemoryTarget) : BumpRange := match target with Ddr => al_ddr a | _ => al_hbm a end.

Definition ranges_ok (a : AddressAllocators) : Prop := forall target, range_ok (window target) (cursor a target).

Lemma allocate_spec a target bytes address a' : ranges_ok a -> 0 <= bytes -> allocate a target bytes = Ok (address, a') ->
  ranges_ok a' /\ address = br_next (cursor a target) /\ address + bytes <= br_next (cursor a' target) /\ 0 < bytes /\
  (forall t, br_next (cursor a t) <= br_next (cursor a' t)).
Proof using Type.
  intros Hr Hb Ha. unfold allocate in Ha.
  assert (Hgo : forall name r' , bump_allocate (cursor a target) bytes name = Ok (address, r') ->
    range_ok (window target) r' /\ address = br_next (cursor a target) /\ address + bytes <= br_next r' /\ 0 < bytes).
  { intros name r' Hx. eapply bump_allocate_spec; [apply Hr|done|exact Hx]. }
  destruct target; apply rbind_ok in Ha as ([x r'] & Hx & Ha); simplify_eq; apply Hgo in Hx as (H1 & H2 & H3 & H4);
    (split; [intros []; solve [exact H1|apply (Hr Ddr)|apply (Hr HbmVnoc)]|split; [exact H2|split; [exact H3|split; [exact H4|]]]; intros []; cbn in *; lia]).
Qed.

(** The memory the kernel reaches from an argument. *)
Definition target_of (k : Kernel) (index : Z) : res FrtError MemoryTarget := let! a := kernel_arg k index in memory_target k a.

(** A buffer inside the memory of its argument, and already allocated. *)
Definition within (k : Kernel) (a : AddressAllocators) (index : Z) (b : SimBinding) : Prop :=
  exists target, target_of k index = Ok target /\ window target <= sb_address b /\ sb_address b mod BUFFER_ALIGNMENT = 0 /\ 0 < sb_bytes b /\
    sb_address b + sb_bytes b <= br_next (cursor a target).

Definition apart (b b' : SimBinding) : Prop := sb_address b + sb_bytes b <= sb_address b' \/ sb_address b' + sb_bytes b' <= sb_address b.

Definition placement (s : SimDevice * history) := (sd_kernel s.1, sd_allocators s.1, sd_buffers s.1).

Definition placed (x : Kernel * AddressAllocators * bmap Z SimBinding) : Prop :=
  let '(k, a, m) := x in ranges_ok a /\ (forall i b, BMap.get i m = Some b -> within k a i b) /\
  (forall i j b b', i <> j -> BMap.get i m = Some b -> BMap.get j m = Some b' -> apart b b').

Lemma placed_bind k a m index target bytes address a' b : placed (k, a, m) -> target_of k index = Ok target -> 0 <= bytes ->
  allocate a target bytes = Ok (address, a') -> sb_bytes b = bytes -> sb_address b = address -> placed (k, a', BMap.insert index b m).
Proof using Type.
  intros (Hr & Hw & Hd) Ht Hb Ha Hbytes Haddr. pose proof (allocate_spec a target bytes address a' Hr Hb Ha) as (Hr' & Hx & Hend & Hpos & Hmono).
  assert (Hold : forall i b', BMap.get i m = Some b' -> apart b' b).
  { intros i b' Hi. destruct (Hw i b' Hi) as (t & _ & Hl & _ & _ & Hu). pose proof (Hr t) as (H1 & H2 & _). pose proof (Hr target) as (H3 & _ & _).
    pose proof (Hr' target) as (H4 & H5 & _). unfold apart. rewrite Haddr, Hbytes. subst address.
    unfold window, cursor, HBM_BASE, DDR_BASE, MEMORY_WINDOW_BYTES in *. destruct t, target; lia. }
  split; [done|]. split.
  - intros i b'. rewrite BMap.get_insert. destruct (decide _) as [->|Hne]; intros Hi.
    + injection Hi as <-. exists target. pose proof (Hr target) as (H1 & _ & H2). rewrite Haddr, Hbytes. subst address. split; [done|]. rewrite Hx in *. split; [apply H1|]. repeat split; [done|done|lia].
    + destruct (Hw i b' Hi) as (t & H1 & H2 & H3 & H4 & H5). exists t. repeat split; try done. specialize (Hmono t). lia.
  - intros i j b1 b2 Hij. rewrite !BMap.get_insert. do 2 destruct (decide _); intros; simplify_eq; [|by eauto|by eauto].
    destruct (Hold j b2); [done|by right|by left].
Qed.

(** *** The operations a device goes through *)

Inductive SimOp :=
  | OpScalar (index : Z) (value : list Z)
  | OpBuffer (index ptr bytes : Z) (access : BufferAccess)
  | OpStream (index : Z)
  | OpWrite | OpExec | OpIsFinished | OpFinish | OpRead | OpKill | OpStartSession | OpExitSession.

(** A length is not negative. *)
Definition op_ok (o : SimOp) : Prop := match o with OpBuffer _ _ bytes _ => 0 <= bytes | _ => True end.

(** The state an operation leaves, whether it succeeds or not. *)
Definition run_op (s : SimDevice * history) (o : SimOp) : SimDevice * history :=
  match o with
  | OpScalar index value => (sim_set_scalar_arg index value s).2
  | OpBuffer index ptr bytes access => (sim_set_buffer_arg index ptr bytes access s).2
  | OpStream index => (sim_set_stream_arg index s).2
  | OpWrite => (sim_write_to_device s).2
  | OpExec => (sim_exec s).2
  | OpIsFinished => (sim_is_finished s).2
  | OpFinish => (sim_finish s).2
  | OpRead => (sim_read_from_device s).2
  | OpKill => (sim_kill s).2
  | OpStartSession => (start_session s).2
  | OpExitSession => (exit_session s).2
  end.

Definition run_ops (ops : list SimOp) (s : SimDevice * history) : SimDevice * history := fold_left run_op ops s.

Lemma keeps_request command binary : keeps placement (request command binary).
Proof using Type. unfold request. keeps_tac. Qed.
#[local] Hint Resolve keeps_request : keeps.

Lemma keeps_sim_write o v : keeps placement (sim_write_register o v).
Proof using Type. unfold sim_write_register. keeps_tac. Qed.
Lemma keeps_sim_read o : keeps placement (sim_read_register o).
Proof using Type. unfold sim_read_register. keeps_tac. Qed.
#[local] Hint Resolve keeps_sim_write keeps_sim_read : keeps.

Lemma keeps_sim_finish : keeps placement sim_finish.
Proof using Type. apply keeps_wait; [done..|apply keeps_sim_read]. Qed.
#[local] Hint Resolve keeps_sim_finish : keeps.

Lemma exit_session_keeps : keeps placement exit_session.
Proof using Type.
  intros s. unfold exit_session.
  assert (Hk : keeps placement (do! reply := request [("command", JText "exit")] None in io_lift (expect_ok_reply reply "exit"))) by keeps_tac.
  specialize (Hk s). destruct (io_bind _ _ s) as [r s']. exact Hk.
Qed.

Lemma placed_step s o : op_ok o -> placed (placement s) -> placed (placement (run_op s o)).
Proof using Type.
  assert (Hkeep : forall A (m : io SimDevice A) s, keeps placement m -> placed (placement s) -> placed (placement (m s).2)) by (intros A m s0 ->; done).
  intros Hs. destruct o; [apply Hkeep; apply keeps_set_scalar; by intros| |apply Hkeep..].
  - intros Hp. cbn [run_op op_ok] in *. unfold sim_set_buffer_arg, io_bind, io_get, io_lift. destruct (ensure_not_running _ _ _); [|done|done].
    destruct (validate_buffer_arg _ _ _ _) as [[target size]|e|] eqn:Ev; [|done|done].
    destruct (allocate _ _ _) as [[address a']|e|] eqn:Ea; [|done|done]. cbn. unfold validate_buffer_arg in Ev.
    destruct (_ =? _); [done|]. destruct (_ =? _); [done|]. apply rbind_ok in Ev as (ka & Hka & Ev). destruct (_ || _); [done|].
    apply rbind_ok in Ev as (t & Ht & Ev). apply rbind_ok in Ev as (z & [-> Hz]%ok_or_ok%fits_Some & [= <- <-]).
    eapply placed_bind; [exact Hp| |done|exact Ea|done|done]. unfold target_of. by rewrite Hka.
  - unfold sim_set_stream_arg. keeps_tac.
  - unfold sim_write_to_device, upload, populate. keeps_tac.
  - apply keeps_start; [done..|apply keeps_sim_write].
  - apply keeps_poll; [done..|apply keeps_sim_read].
  - apply keeps_sim_finish.
  - unfold sim_read_from_device, download, fetch_buffer. keeps_tac.
  - unfold sim_kill. keeps_tac.
  - unfold start_session. keeps_tac.
  - apply exit_session_keeps.
Qed.

(** C16: simulated buffers never overlap: whatever operations a device went
    through, each buffer lies page-aligned in the window of the memory its
    argument reaches, and the buffers of two arguments are disjoint. *)
Theorem sim_buffers_disjoint k process h0 ops : Forall op_ok ops -> let d := (run_ops ops (sim_new k process, h0)).1 in
  (forall i b, BMap.get i (sd_buffers d) = Some b -> exists target, target_of (sd_kernel d) i = Ok target /\
    window target <= sb_address b /\ sb_address b + sb_bytes b <= window target + MEMORY_WINDOW_BYTES /\ sb_address b mod BUFFER_ALIGNMENT = 0 /\ 0 < sb_bytes b) /\
  (forall i j b b', i <> j -> BMap.get i (sd_buffers d) = Some b -> BMap.get j (sd_buffers d) = Some b' -> apart b b').
Proof using Type.
  intros Hs d. assert (Hp : placed (placement (run_ops ops (sim_new k process, h0)))).
  { subst d. assert (H1 : placed (placement (sim_new k process, h0))) by (split; [|done]; intros []; unfold range_ok; vm_compute; repeat split; done).
    revert H1. generalize (sim_new k process, h0). unfold run_ops. induction Hs as [|o ops Ho _ IH]; intros s H1; [done|]. by apply IH, placed_step. }
  destruct Hp as (Hr & Hw & Hd). split; [|exact Hd]. intros i b Hi. destruct (Hw i b Hi) as (t & H1 & H2 & H3 & H4 & H5).
  exists t. destruct (Hr t) as (H6 & H7 & _). repeat split; try done. lia.
Qed.
End sim.
