(* ===== verification/VrtDevice.v ===== *)
(** * The hardware backend of VRT

    [frt/src/vrt/device.rs]: programming a board, register access through the
    mapped BAR, buffers with a staging map, and the release of what libvrtd
    handed out.  libvrtd, the kernel and the memory behind raw pointers belong
    to the environment. *)

From S2P Require Import Prelude RustStd BTreeMap Shm Frt Vbin VrtCtrl.

Local Open Scope Z_scope.

Definition VRTD_SOCKET : string := "/run/vrtd.sock".
Definition PROGRAM_SETTLE : Z := 1000000000.
Definition DMA_BUF_SYNC_START_READ : Z := 1.
Definition DMA_BUF_SYNC_START_WRITE : Z := 2.
Definition DMA_BUF_SYNC_END_READ : Z := Z.lor 1 (Z.shiftl 1 2).
Definition DMA_BUF_SYNC_END_WRITE : Z := Z.lor 2 (Z.shiftl 1 2).
Definition CLOCK_REGION_USER : Z := 1.
Definition ALLOC_TYPE_DDR : Z := 0.
Definition ALLOC_TYPE_HBM : Z := 1.
Definition ALLOC_TYPE_HBM_VNOC : Z := 2.
Definition ALLOC_DIR_BIDIRECTIONAL : Z := 0.
Definition ALLOC_DIR_HOST_TO_DEVICE : Z := 1.
Definition ALLOC_DIR_DEVICE_TO_HOST : Z := 2.

(** ** State *)

Record DevBinding := mkDevBinding { db_ptr : Z; db_bytes : Z; db_access : BufferAccess; db_handle : option Z; db_phys_addr : Z }.

Record Allocation := mkAllocation { alloc_kind : Z; alloc_direction : Z; alloc_region : Z }.

Definition allocation (target : MemoryTarget) (access : BufferAccess) : Allocation :=
  let '(kind, region) := match target with
    | Ddr => (ALLOC_TYPE_DDR, 0)
    | Hbm region => (ALLOC_TYPE_HBM, region)
    | HbmVnoc => (ALLOC_TYPE_HBM_VNOC, 0)
    end in
  let direction := match access with
    | ReadOnly => ALLOC_DIR_HOST_TO_DEVICE
    | WriteOnly => ALLOC_DIR_DEVICE_TO_HOST
    | PlaceHolder | ReadWrite => ALLOC_DIR_BIDIRECTIONAL
    end in
  mkAllocation kind direction region.

Record VrtDevice := mkVrtDevice {
  vd_fd : Z;
  vd_device_index : Z;
  vd_kernel : Kernel;
  vd_bar : option BarFile;
  vd_scalars : bmap Z (list Z);
  vd_buffers : bmap Z DevBinding;
  vd_state : ExecutionState;
  vd_load_ns : Z;
  vd_compute_ns : Z;
  vd_store_ns : Z;
}.

Definition dev_set_state (s : ExecutionState) (d : VrtDevice) : VrtDevice :=
  mkVrtDevice (vd_fd d) (vd_device_index d) (vd_kernel d) (vd_bar d) (vd_scalars d) (vd_buffers d) s (vd_load_ns d) (vd_compute_ns d) (vd_store_ns d).
Definition dev_set_compute (ns : Z) (d : VrtDevice) : VrtDevice :=
  mkVrtDevice (vd_fd d) (vd_device_index d) (vd_kernel d) (vd_bar d) (vd_scalars d) (vd_buffers d) (vd_state d) (vd_load_ns d) ns (vd_store_ns d).
Definition dev_set_scalars (m : bmap Z (list Z)) (d : VrtDevice) : VrtDevice :=
  mkVrtDevice (vd_fd d) (vd_device_index d) (vd_kernel d) (vd_bar d) m (vd_buffers d) (vd_state d) (vd_load_ns d) (vd_compute_ns d) (vd_store_ns d).
Definition dev_set_buffers (m : bmap Z DevBinding) (d : VrtDevice) : VrtDevice :=
  mkVrtDevice (vd_fd d) (vd_device_index d) (vd_kernel d) (vd_bar d) (vd_scalars d) m (vd_state d) (vd_load_ns d) (vd_compute_ns d) (vd_store_ns d).
Definition dev_set_native (fd : Z) (bar : option BarFile) (d : VrtDevice) : VrtDevice :=
  mkVrtDevice fd (vd_device_index d) (vd_kernel d) bar (vd_scalars d) (vd_buffers d) (vd_state d) (vd_load_ns d) (vd_compute_ns d) (vd_store_ns d).
Definition dev_set_index (i : Z) (d : VrtDevice) : VrtDevice :=
  mkVrtDevice (vd_fd d) i (vd_kernel d) (vd_bar d) (vd_scalars d) (vd_buffers d) (vd_state d) (vd_load_ns d) (vd_compute_ns d) (vd_store_ns d).
Definition dev_set_load (ns : Z) (d : VrtDevice) : VrtDevice :=
  mkVrtDevice (vd_fd d) (vd_device_index d) (vd_kernel d) (vd_bar d) (vd_scalars d) (vd_buffers d) (vd_state d) ns (vd_compute_ns d) (vd_store_ns d).
Definition dev_set_store (ns : Z) (d : VrtDevice) : VrtDevice :=
  mkVrtDevice (vd_fd d) (vd_device_index d) (vd_kernel d) (vd_bar d) (vd_scalars d) (vd_buffers d) (vd_state d) (vd_load_ns d) (vd_compute_ns d) ns.

Definition check_rc (rc : Z) (action : string) : res FrtError unit :=
  if rc =? 0 then Ok tt
  else
    let name := match rc with
      | 1 => "BAD_LIB_CALL" | 2 => "BAD_CONN" | 3 => "BAD_REQUEST" | 4 => "INVALID_ARGUMENT" | 5 => "NOEXIST"
      | 6 => "INTERNAL_ERROR" | 7 => "AUTH_ERROR" | 8 => "BUSY" | _ => "UNKNOWN"
      end in
    let code := if rc <? 0 then "-" +:+ Str.show (- rc) else Str.show rc in
    vrt ("cannot " +:+ action +:+ " (vrtd returned " +:+ name +:+ ", code " +:+ code +:+ ")").

(** [CString::new] refuses a NUL byte. *)
Fixpoint nul_position (pos : Z) (s : string) : option Z :=
  match s with
  | EmptyString => None
  | String c s' => if Str.code c =? 0 then Some pos else nul_position (pos + 1) s'
  end.

Definition cstring (value what : string) : res FrtError string :=
  match nul_position 0 value with
  | Some pos => vrt ("invalid " +:+ what +:+ ": nul byte found in provided data at position: " +:+ Str.show pos)
  | None => Ok value
  end.

(** [rsplit_once('.')], and the count of colons. *)
Definition before_last_dot (s : string) : string :=
  match List.rev (Str.split "." s) with
  | _ :: ((_ :: _) as before) => match List.rev before with p :: ps => fold_left (fun a b => a +:+ "." +:+ b) ps p | [] => s end
  | _ => s
  end.

Definition normalize_bdf (bdf : string) : string :=
  let board := before_last_dot bdf in
  if Nat.eqb (length (Str.split ":" board)) 2 then "0000:" +:+ board else board.

Section device.
Context `{Env}.

(** ** Registers *)

Definition bar_sync (bar : BarFile) (flags : Z) : io VrtDevice unit :=
  if bar_mock bar then io_ret tt
  else
    do! error := ask (BarIoctl (bar_fd bar) flags) in
    io_lift (match error with Some e => vrt ("BAR dma-buf synchronization failed: " +:+ e) | None => Ok tt end).

(** The offset of a register in the mapping. *)
Definition register_ptr (bar : BarFile) (absolute_address : Z) : res FrtError Z :=
  if negb (absolute_address mod 4 =? 0) then vrt ("BAR address " +:+ Str.show_hex absolute_address +:+ " is not 32-bit aligned") else
  if (bar_len bar =? 0) || negb (bar_mapped bar) then vrt "BAR0 is not mapped" else
  let offset := absolute_address mod bar_len bar in
  match checked_add64 offset 4 with
  | Some e =>
      if bar_len bar <? e then vrt ("32-bit BAR access at " +:+ Str.show_hex absolute_address +:+ " exceeds the mapping") else Ok offset
  | None => vrt ("32-bit BAR access at " +:+ Str.show_hex absolute_address +:+ " exceeds the mapping")
  end.

Definition register_access (d : VrtDevice) (offset : Z) : res FrtError (BarFile * Z) :=
  let! bar := ok_or (vd_bar d) (Vrt "BAR0 is closed") in
  let! absolute := ok_or (checked_add64 (base_address (vd_kernel d)) offset) (Vrt "kernel register address overflow") in
  let! pointer := register_ptr bar absolute in
  Ok (bar, pointer).

Definition dev_read_register (offset : Z) : io VrtDevice Z :=
  do! d := io_get in
  do! (bar, pointer) := io_lift (register_access d offset) in
  do! _ := bar_sync bar DMA_BUF_SYNC_START_READ in
  do! value := ask (MmioRead pointer) in
  do! _ := bar_sync bar DMA_BUF_SYNC_END_READ in
  io_ret value.

Definition dev_write_register (offset value : Z) : io VrtDevice unit :=
  do! d := io_get in
  do! (bar, pointer) := io_lift (register_access d offset) in
  do! _ := bar_sync bar DMA_BUF_SYNC_START_WRITE in
  do! _ := tell (MmioWrite pointer value) in
  bar_sync bar DMA_BUF_SYNC_END_WRITE.

#[export] Instance device_channel : ControlChannel VrtDevice := {
  LABEL := "VRT kernel";
  ctrl_write := dev_write_register;
  ctrl_read := dev_read_register;
  execution_state := vd_state;
  set_execution_state := dev_set_state;
  set_compute_ns := dev_set_compute;
  kernel := vd_kernel;
  scalars := vd_scalars;
  set_scalars := dev_set_scalars;
  buffer_address d index := option_map db_phys_addr (BMap.get index (vd_buffers d));
}.

(** ** Release *)

(** A null handle is [None]; a failed close is only logged. *)
Definition close_buffer (handle : option Z) : io VrtDevice unit :=
  match handle with Some h => tell (BufferClose h) | None => io_ret tt end.

Definition without_handle (b : DevBinding) : DevBinding := mkDevBinding (db_ptr b) (db_bytes b) (db_access b) None (db_phys_addr b).

Definition release_native : io VrtDevice unit :=
  do! d := io_get in
  do! _ := io_each (fun x => close_buffer (db_handle x.2)) (vd_buffers d) in
  do! _ := io_modify (fun d => dev_set_buffers (map (fun x => (x.1, without_handle x.2)) (vd_buffers d)) d) in
  do! _ := match vd_bar d with Some _ => tell CloseBar | None => io_ret tt end in
  do! _ := if 0 <=? vd_fd d then tell (CloseFd (vd_fd d)) else io_ret tt in
  io_modify (dev_set_native (if 0 <=? vd_fd d then -1 else vd_fd d) None).

Definition abandon_native_for_running_kernel : io VrtDevice unit :=
  io_modify (fun d => dev_set_native (-1) None (dev_set_buffers (map (fun x => (x.1, without_handle x.2)) (vd_buffers d)) d)).

Definition dev_finish : io VrtDevice unit :=
  wait_finished (fun secs => Vrt ("VRT kernel did not finish within " +:+ Str.show secs +:+ "s and cannot be cancelled")).

(** [Drop]. *)
Definition dev_drop : io VrtDevice unit := fun s =>
  if is_running (vd_state s.1) then
    match dev_finish s with
    | (Ok _, s) => release_native s
    | (Err _, s) => abandon_native_for_running_kernel s
    | (Panic, s) => (Panic, s)
    end
  else release_native s.

(** ** Programming a board *)

Definition program_clock (recorded_hz : Z) : io VrtDevice unit :=
  do! d := io_get in
  do! hz := io_lift (ok_or (fits U32_MAX recorded_hz) (Vrt "recorded VBIN clock cannot be programmed: out of range integral type conversion attempted")) in
  do! (rc, _) := ask (ClockSetRate (vd_fd d) (vd_device_index d) CLOCK_REGION_USER hz) in
  do! _ := io_lift (check_rc rc "program the recorded USER clock") in
  do! (rc, _) := ask (ClockGetRate (vd_fd d) (vd_device_index d) CLOCK_REGION_USER) in
  io_lift (check_rc rc "read back the USER clock").

Definition open_bar : io VrtDevice BarFile :=
  do! d := io_get in
  do! (rc, bar) := ask (OpenBar (vd_fd d) (vd_device_index d) 0) in
  do! _ := io_lift (check_rc rc "open BAR0") in
  if negb (bar_mapped bar) || (bar_len bar <? 4) then
    do! _ := tell CloseBar in io_lift (vrt "vrtd returned an invalid BAR0 mapping")
  else io_ret bar.

Definition program_pdi (pdi : string) : io VrtDevice unit :=
  do! d := io_get in
  do! path := io_lift (cstring pdi "VBIN member path") in
  do! rc := ask (DesignWriteFile (vd_fd d) (vd_device_index d) path) in
  io_lift (check_rc rc ("program PDI `" +:+ pdi +:+ "`")).

(** What [open] does once the connection is owned by the device. *)
Definition dev_program (bdf : string) (pdis : list string) (hz : Z) : io VrtDevice unit :=
  do! d := io_get in
  do! (rc, index) := ask (DeviceByBdf (vd_fd d) bdf) in
  do! _ := io_lift (check_rc rc "select the requested VRT board") in
  do! _ := io_modify (dev_set_index index) in
  do! _ := io_each program_pdi pdis in
  do! _ := tell (Sleep PROGRAM_SETTLE) in
  do! _ := program_clock hz in
  do! bar := open_bar in
  io_modify (fun d => dev_set_native (vd_fd d) (Some bar) d).

(** [open], from the history before it; [requested] is the environment
    variable, [api] what loading libvrtd returns, the paths of the PDIs are those of
    the extracted files.  A device
    that cannot be programmed is dropped. *)
Definition dev_open (k : Kernel) (hz : Z) (pdis : list string) (requested : option string) (api : FrtError + unit) (h : history) : res FrtError VrtDevice * history :=
  match pdis with
  | [] => (vrt "hardware VBIN contains no PDI to program", h)
  | _ =>
      match requested with
      | None => (vrt "set --vrt_bdf or FRT_VRT_BDF before opening a hardware VBIN", h)
      | Some requested =>
          match (let! bdf := cstring (normalize_bdf requested) "VRT BDF" in let! _ := of_sum api in Ok bdf) with
          | Ok bdf =>
              match respond (Connect VRTD_SOCKET) h with
              | inr fd =>
                  let this := mkVrtDevice fd 0 k None BMap.empty BMap.empty Idle 0 0 0 in
                  match dev_program bdf pdis hz (this, h ++ [Connect VRTD_SOCKET]) with
                  | (Ok _, (d, h)) => (Ok d, h)
                  | (Err e, s) => (Err e, (dev_drop s).2.2)
                  | (Panic, s) => (Panic, s.2)
                  end
              | inl e => (vrt ("cannot connect to " +:+ VRTD_SOCKET +:+ ": " +:+ e), h ++ [Connect VRTD_SOCKET])
              end
          | Err e => (Err e, h)
          | Panic => (Panic, h)
          end
      end
  end.

(** ** The operations of a device *)

Definition dev_set_scalar_arg (index : Z) (value : list Z) : io VrtDevice unit := set_scalar index value.

Definition dev_set_buffer_arg (index ptr bytes : Z) (access : BufferAccess) : io VrtDevice unit :=
  do! d := io_get in
  do! _ := io_lift (ensure_not_running (vd_state d) "change an argument" "VRT kernel") in
  do! (target, size) := io_lift (validate_buffer_arg (vd_kernel d) index ptr bytes) in
  let a := allocation target access in
  do! (rc, handle) := ask (BufferOpen (vd_fd d) (vd_device_index d) (alloc_kind a) (alloc_direction a) (alloc_region a) size) in
  do! _ := io_lift (check_rc rc ("allocate buffer argument " +:+ Str.show index)) in
  match handle with
  | None => io_lift (vrt ("vrtd returned no buffer for argument " +:+ Str.show index))
  | Some b =>
      if negb (vb_staged b) || (vb_size b <? size) then
        do! _ := close_buffer (Some (vb_handle b)) in
        io_lift (vrt ("vrtd returned an invalid staging buffer for argument " +:+ Str.show index))
      else
        do! _ := io_modify (fun d => dev_set_buffers (BMap.insert index (mkDevBinding ptr bytes access (Some (vb_handle b)) (vb_phys_addr b)) (vd_buffers d)) d) in
        match BMap.get index (vd_buffers d) with
        | Some old => close_buffer (db_handle old)
        | None => io_ret tt
        end
  end.

Definition dev_set_stream_arg (index : Z) : io VrtDevice unit :=
  io_lift (vrt ("argument " +:+ Str.show index +:+ ": host streams are unsupported by the VRT backend")).

(** Only a released device has a null handle: to dereference one is undefined. *)
Definition live_handle (b : DevBinding) : res FrtError Z := expect (db_handle b).

Definition dev_upload (x : Z * DevBinding) : io VrtDevice unit :=
  do! handle := io_lift (live_handle x.2) in
  do! data := ask (HostRead (db_ptr x.2) (db_bytes x.2)) in
  do! _ := tell (StagingWrite handle data) in
  do! rc := ask (SyncToDevice handle 0 (db_bytes x.2)) in
  io_lift (check_rc rc ("write buffer argument " +:+ Str.show x.1 +:+ " to the device")).

Definition dev_write_to_device : io VrtDevice unit :=
  do! d := io_get in
  do! _ := io_lift (ensure_not_running (vd_state d) "upload buffers" "VRT kernel") in
  do! started := ask Now in
  do! _ := io_each dev_upload (List.filter (fun x => loads_from_host (db_access x.2)) (vd_buffers d)) in
  do! ns := elapsed_ns started in
  io_modify (dev_set_load ns).

Definition dev_download (x : Z * DevBinding) : io VrtDevice unit :=
  do! handle := io_lift (live_handle x.2) in
  do! rc := ask (SyncFromDevice handle 0 (db_bytes x.2)) in
  do! _ := io_lift (check_rc rc ("read buffer argument " +:+ Str.show x.1 +:+ " from the device")) in
  do! data := ask (StagingRead handle (db_bytes x.2)) in
  tell (HostWrite (db_ptr x.2) data).

Definition dev_read_from_device : io VrtDevice unit :=
  do! d := io_get in
  do! _ := if is_running (vd_state d) then dev_finish else io_ret tt in
  do! d := io_get in
  do! started := ask Now in
  do! _ := io_each dev_download (List.filter (fun x => stores_to_host (db_access x.2)) (vd_buffers d)) in
  do! ns := elapsed_ns started in
  io_modify (dev_set_store ns).

Definition dev_exec : io VrtDevice unit := start.

Definition dev_kill : io VrtDevice unit :=
  io_lift (vrt "VRT has no kernel cancellation; finish is bounded and a hung kernel's buffers are retained on close").

Definition dev_is_finished : io VrtDevice bool := poll_finished.
End device.

(** * The hardware backend keeps its promises

    It is a control channel in the sense of [ControlChannelSpec], and every
    buffer libvrtd hands out is closed exactly once: when it is replaced, or when
    the device is dropped, unless the kernel may still be writing to it. *)

Section device.
Context `{HE : Env}.

(** ** The control channel *)

Definition sync_events (bar : BarFile) (flags : Z) : history := if bar_mock bar then [] else [BarIoctl (bar_fd bar) flags].

Lemma bar_sync_spec bar flags d h r s : bar_sync bar flags (d, h) = (r, s) -> s = (d, h ++ sync_events bar flags) /\ r <> Panic.
Proof using Type.
  unfold bar_sync, sync_events. destruct (bar_mock bar); [intros [= <- <-]; by rewrite List.app_nil_r|].
  unfold io_bind, ask, io_lift. cbn [fst snd]. by destruct (respond _ _); intros [= <- <-].
Qed.

Definition dev_write_events (d : VrtDevice) (offset value : Z) : history :=
  match register_access d offset with
  | Ok (bar, pointer) => sync_events bar DMA_BUF_SYNC_START_WRITE ++ [MmioWrite pointer value] ++ sync_events bar DMA_BUF_SYNC_END_WRITE
  | _ => []
  end.

Lemma register_access_no_panic d offset : register_access d offset <> Panic.
Proof using Type.
  unfold register_access, register_ptr. destruct (vd_bar d) as [bar|]; [|done]. simpl. destruct (checked_add64 _ _); [|done]. simpl.
  destruct (negb _); [done|]. destruct (_ || _); [done|]. cbv zeta. destruct (checked_add64 _ 4); [|done]. by destruct (_ <? _).
Qed.

Lemma slept_sync bar flags : slept (sync_events bar flags) = 0.
Proof using Type. unfold sync_events. by destruct (bar_mock bar). Qed.

#[export] Program Instance device_channel_spec : ControlChannelSpec VrtDevice := {| write_events := dev_write_events |}.
Next Obligation.
  intros o v d h r d' h' Hw. cbn [ctrl_write device_channel] in Hw. unfold dev_write_register, io_bind at 1 2, io_get, io_lift at 1 in Hw. cbn [fst] in Hw.
  pose proof (register_access_no_panic d o) as Hn. unfold dev_write_events.
  destruct (register_access d o) as [[bar p]|e|]; [|by simplify_eq; split; [|exists []; rewrite List.app_nil_r]|done].
  unfold io_bind at 1 in Hw. destruct (bar_sync bar DMA_BUF_SYNC_START_WRITE (d, h)) as [r1 s1] eqn:E1. apply bar_sync_spec in E1 as [-> H1].
  destruct r1 as [u|e|]; [|simplify_eq; split; [done|]; eexists; split; [|done]; by apply prefix_app_r|done].
  unfold io_bind, tell in Hw. cbn [fst snd] in Hw. apply bar_sync_spec in Hw as [[= -> ->] H2].
  split; [done|]. rewrite <- !app_assoc. destruct r; [done| |done]. by eexists.
Qed.
Next Obligation.
  intros o d h r d' h' Hr. cbn [ctrl_read device_channel] in Hr. unfold dev_read_register, io_bind at 1 2, io_get, io_lift at 1 in Hr. cbn [fst] in Hr.
  pose proof (register_access_no_panic d o) as Hn.
  destruct (register_access d o) as [[bar p]|e|]; [|simplify_eq; repeat split; [done|]; exists []; by rewrite List.app_nil_r|done].
  unfold io_bind at 1 in Hr. destruct (bar_sync bar DMA_BUF_SYNC_START_READ (d, h)) as [r1 s1] eqn:E1. apply bar_sync_spec in E1 as [-> H1].
  destruct r1 as [u|e|]; [|simplify_eq; repeat split; [done|]; eexists; split; [done|apply slept_sync]|done].
  unfold io_bind, ask, io_ret in Hr. cbn [fst snd] in Hr. destruct (bar_sync bar DMA_BUF_SYNC_END_READ _) as [r2 s2] eqn:E2. apply bar_sync_spec in E2 as [-> H2].
  assert (d' = d /\ r <> Panic /\ h' = ((h ++ sync_events bar DMA_BUF_SYNC_START_READ) ++ [MmioRead p]) ++ sync_events bar DMA_BUF_SYNC_END_READ) as (-> & Hp & ->)
    by (destruct r2; simplify_eq; by repeat split).
  split; [done|]. split; [done|]. rewrite <- !app_assoc. eexists. split; [done|]. by rewrite !slept_app, !slept_sync.
Qed.
Next Obligation. done. Qed.
Next Obligation. done. Qed.
Next Obligation. done. Qed.
Next Obligation. done. Qed.

(** ** Buffers handed out and given back *)

(** The handles libvrtd handed out along a history that continues [pre]. *)
Fixpoint opened_from (pre h : history) : list Z :=
  match h with
  | [] => []
  | e :: h' =>
      match e as e return answer e -> list Z with
      | BufferOpen _ _ _ _ _ _ => fun a => if a.1 =? 0 then match a.2 with Some b => [vb_handle b] | None => [] end else []
      | _ => fun _ => []
      end (respond e pre) ++ opened_from (pre ++ [e]) h'
  end.
Definition opened (h : history) : list Z := opened_from [] h.

Definition closed (h : history) : list Z := omap (fun e => match e with BufferClose handle => Some handle | _ => None end) h.

(** The handles a device has. *)
Definition held (m : bmap Z DevBinding) : list Z := omap (fun x => db_handle x.2) m.

Lemma opened_from_app pre h1 h2 : opened_from pre (h1 ++ h2) = opened_from pre h1 ++ opened_from (pre ++ h1) h2.
Proof using Type.
  revert pre. induction h1 as [|e h1 IH]; intros pre; cbn [opened_from app]; [by rewrite List.app_nil_r|]. by rewrite IH, <- !app_assoc.
Qed.

Lemma closed_app h1 h2 : closed (h1 ++ h2) = closed h1 ++ closed h2.
Proof using Type. apply omap_app. Qed.

(** What a device owes: the handles out, those back, and those it has. *)
Definition account (s : VrtDevice * history) := (vd_buffers s.1, opened s.2, closed s.2).
Definition balanced (x : bmap Z DevBinding * list Z * list Z) : Prop := let '(m, out, back) := x in out ≡ₚ back ++ held m.

Definition is_buffer_event (e : Event) : bool := match e with BufferOpen _ _ _ _ _ _ | BufferClose _ => true | _ => false end.

Lemma account_unseen e : is_buffer_event e = false -> unseen account e.
Proof using Type.
  intros He d h. unfold account, opened. cbn [fst snd]. rewrite opened_from_app, closed_app. destruct e; try done; cbn; by rewrite !List.app_nil_r.
Qed.

Lemma account_now : unseen account Now. Proof using Type. by apply account_unseen. Qed.
#[local] Hint Resolve account_now : keeps.
#[local] Hint Extern 1 (unseen account _) => apply account_unseen; reflexivity : keeps.

(** *** What does not touch the buffers *)

Lemma keeps_bar_sync bar flags : keeps account (bar_sync bar flags).
Proof using Type. unfold bar_sync. keeps_tac. Qed.
#[local] Hint Resolve keeps_bar_sync : keeps.

Lemma keeps_dev_write o v : keeps account (dev_write_register o v).
Proof using Type. unfold dev_write_register. keeps_tac. Qed.
Lemma keeps_dev_read o : keeps account (dev_read_register o).
Proof using Type. unfold dev_read_register. keeps_tac. Qed.
#[local] Hint Resolve keeps_dev_write keeps_dev_read : keeps.

Lemma keeps_dev_finish : keeps account dev_finish.
Proof using Type.
  apply keeps_wait; [done|done|auto with keeps..|apply keeps_dev_read].
Qed.
#[local] Hint Resolve keeps_dev_finish : keeps.

Lemma keeps_dev_program bdf pdis hz : keeps account (dev_program bdf pdis hz).
Proof using Type. unfold dev_program, program_pdi, program_clock, open_bar. keeps_tac. Qed.

Lemma dev_open_account k hz pdis requested api d h : dev_open k hz pdis requested api [] = (Ok d, h) -> account (d, h) = (BMap.empty, [], []).
Proof using Type.
  unfold dev_open. destruct pdis as [|pdi pdis]; [done|]. destruct requested as [requested|]; [|done].
  destruct (let! _ := cstring _ _ in _) as [bdf|e|]; [|done|done]. destruct (respond (Connect VRTD_SOCKET) []) as [e|fd]; [done|].
  set (s := (mkVrtDevice _ _ _ _ _ _ _ _ _ _, _)). pose proof (keeps_dev_program bdf (pdi :: pdis) hz s) as Hk.
  destruct (dev_program _ _ _ s) as [[u|e|] [d' h']]; [|done|done]. intros [= <- <-]. exact Hk.
Qed.

(** *** Binding a buffer *)

Lemma held_insert i b (m : bmap Z DevBinding) : BMap.wf m ->
  held (BMap.insert i b m) ++ held (match BMap.get i m with Some o => [(i, o)] | None => [] end) ≡ₚ held [(i, b)] ++ held m.
Proof using Type.
  induction m as [|[k v] m IH]; intros Hw; [done|]. apply BMap.wf_cons in Hw as [Hw Hk]. specialize (IH Hw).
  cbn [BMap.insert BMap.get]. destruct (kcmp i k) eqn:E.
  - unfold held. cbn. destruct (db_handle b), (db_handle v); cbn; rewrite ?List.app_nil_r; try done; [constructor|]; symmetry; apply Permutation_cons_append.
  - assert (BMap.get i m = None) as ->; [|unfold held; cbn; rewrite List.app_nil_r; by destruct (db_handle b)].
    apply BMap.get_None. intros Hin. rewrite List.Forall_forall in Hk. apply (klt_irrefl i). transitivity k; [done|by apply Hk].
  - unfold held in *. cbn in *. destruct (db_handle b) as [x|], (db_handle v) as [y|]; cbn in *; rewrite ?IH; try done; constructor.
Qed.

Lemma check_rc_ok rc action : check_rc rc action = Ok tt <-> rc = 0.
Proof using Type. unfold check_rc. destruct (Z.eqb_spec rc 0); [done|]. by split. Qed.

Lemma check_rc_no_panic rc action : check_rc rc action <> Panic.
Proof using Type. unfold check_rc. by destruct (rc =? 0). Qed.

(** The buffers are in order, and every handle out is back or held. *)
Definition sound (x : bmap Z DevBinding * list Z * list Z) : Prop := BMap.wf x.1.1 /\ balanced x.

Lemma account_open m out back d h fd device kind direction region size rc b : account (d, h) = (m, out, back) ->
  respond (BufferOpen fd device kind direction region size) h = (rc, b) ->
  account (d, h ++ [BufferOpen fd device kind direction region size]) = (m, out ++ (if rc =? 0 then match b with Some b => [vb_handle b] | None => [] end else []), back).
Proof using Type.
  intros [= <- <- <-] Hr. unfold account, opened. cbn [fst snd]. rewrite opened_from_app, closed_app. cbn [opened_from app]. rewrite Hr. cbn. by rewrite !List.app_nil_r.
Qed.

Lemma close_buffer_account handle m out back d h : account (d, h) = (m, out, back) ->
  account (close_buffer handle (d, h)).2 = (m, out, back ++ match handle with Some x => [x] | None => [] end).
Proof using Type.
  intros [= <- <- <-]. destruct handle as [x|]; unfold close_buffer, tell, io_ret, account, opened; cbn [fst snd]; [|by rewrite List.app_nil_r].
  rewrite opened_from_app, closed_app. cbn. by rewrite List.app_nil_r.
Qed.

Lemma bind_replaces i b (m : bmap Z DevBinding) out back : BMap.wf m -> out ≡ₚ back ++ held m ->
  sound (BMap.insert i b m, out ++ held [(i, b)], back ++ held (match BMap.get i m with Some o => [(i, o)] | None => [] end)).
Proof using Type.
  intros Hw Hb. split; [by apply BMap.wf_insert|]. cbn. rewrite Hb, <- !app_assoc. f_equiv. rewrite (Permutation_app_comm _ (held (BMap.insert i b m))).
  rewrite held_insert by done. apply Permutation_app_comm.
Qed.

Lemma set_buffer_sound index ptr bytes access s : sound (account s) -> sound (account (dev_set_buffer_arg index ptr bytes access s).2).
Proof using Type.
  intros Hs. destruct s as [d h]. unfold dev_set_buffer_arg, io_bind at 1 2 3, io_get, io_lift at 1 2. cbn [fst snd].
  destruct (ensure_not_running _ _ _) as [u|e|]; [|done|done]. destruct (validate_buffer_arg _ _ _ _) as [[target size]|e|]; [|done|done].
  cbv zeta. unfold io_bind at 1, ask. cbn [fst snd]. destruct (account (d, h)) as [[m out] back] eqn:Ea. destruct Hs as [Hw Hb]. cbn in Hw, Hb.
  set (a := allocation target access). destruct (respond _ h) as [rc handle] eqn:Er.
  pose proof (account_open _ _ _ _ _ _ _ _ _ _ _ _ _ Ea Er) as Ho. unfold io_bind at 1, io_lift at 1.
  destruct (check_rc rc _) as [u'|e|] eqn:Erc; [|cbn|by apply check_rc_no_panic in Erc].
  2:{ destruct (Z.eqb_spec rc 0) as [->|Hne]; [done|]. rewrite Ho, List.app_nil_r. done. }
  destruct u'. apply check_rc_ok in Erc as ->. cbn [Z.eqb] in Ho. destruct handle as [b|]; [|cbn; by rewrite Ho, List.app_nil_r].
  destruct (_ || _).
  - unfold io_bind. pose proof (close_buffer_account (Some (vb_handle b)) _ _ _ _ _ Ho) as Hc. cbn in Hc |- *. unfold tell in *. cbn in *. rewrite Hc.
    split; [done|]. cbn. rewrite Hb, <- !app_assoc. f_equiv. apply Permutation_app_comm.
  - unfold io_bind, io_modify. cbn [fst snd]. set (new := mkDevBinding _ _ _ _ _).
    assert (Hn : account (dev_set_buffers (BMap.insert index new (vd_buffers d)) d, h ++ [BufferOpen (vd_fd d) (vd_device_index d) (alloc_kind a) (alloc_direction a) (alloc_region a) size])
      = (BMap.insert index new m, out ++ [vb_handle b], back)) by (unfold account in *; cbn in *; simplify_eq; congruence).
    pose proof (bind_replaces index new m out back Hw Hb) as Hs. assert (Hm : vd_buffers d = m) by (unfold account in Ea; by simplify_eq). rewrite Hm in Hn |- *. destruct (BMap.get index m) as [old|].
    + pose proof (close_buffer_account (db_handle old) _ _ _ _ _ Hn) as Hc. rewrite Hc. exact Hs.
    + cbn in Hs. rewrite List.app_nil_r, <- Hn in Hs. exact Hs.
Qed.

(** *** The operations a device goes through *)

Inductive DevOp :=
  | DevScalar (index : Z) (value : list Z)
  | DevBuffer (index ptr bytes : Z) (access : BufferAccess)
  | DevStream (index : Z)
  | DevWrite | DevExec | DevIsFinished | DevFinish | DevRead | DevKill.

Definition run_dev_op (s : VrtDevice * history) (o : DevOp) : VrtDevice * history :=
  match o with
  | DevScalar index value => (dev_set_scalar_arg index value s).2
  | DevBuffer index ptr bytes access => (dev_set_buffer_arg index ptr bytes access s).2
  | DevStream index => (dev_set_stream_arg index s).2
  | DevWrite => (dev_write_to_device s).2
  | DevExec => (dev_exec s).2
  | DevIsFinished => (dev_is_finished s).2
  | DevFinish => (dev_finish s).2
  | DevRead => (dev_read_from_device s).2
  | DevKill => (dev_kill s).2
  end.

Definition run_dev_ops (ops : list DevOp) (s : VrtDevice * history) : VrtDevice * history := fold_left run_dev_op ops s.

(** Only binding a buffer touches the account, and only while no kernel runs. *)
Lemma account_step s o : is_running (vd_state s.1) = true \/ (forall i p b a, o <> DevBuffer i p b a) -> account (run_dev_op s o) = account s.
Proof using Type.
  assert (Hkeep : forall A (m : io VrtDevice A), keeps account m -> account (m s).2 = account s) by (intros A m Hm; apply Hm).
  destruct o; intros Ho; [apply Hkeep| |apply Hkeep..].
  - by apply keeps_set_scalar.
  - destruct Ho as [Hr|Ho]; [|by destruct (Ho index ptr bytes access)]. cbn [run_dev_op]. unfold dev_set_buffer_arg, io_bind at 1 2, io_get, io_lift.
    unfold ensure_not_running. cbn [fst snd]. by rewrite Hr.
  - unfold dev_set_stream_arg. keeps_tac.
  - unfold dev_write_to_device, dev_upload. keeps_tac.
  - apply keeps_start; [done|done|auto with keeps|apply keeps_dev_write].
  - apply keeps_poll; [done|done|auto with keeps|apply keeps_dev_read].
  - apply keeps_dev_finish.
  - unfold dev_read_from_device, dev_download. keeps_tac.
  - unfold dev_kill. keeps_tac.
Qed.

Lemma sound_step s o : sound (account s) -> sound (account (run_dev_op s o)).
Proof using Type.
  intros Hs. destruct o; [rewrite account_step; [done|by right]|by apply set_buffer_sound|rewrite account_step; [done|by right]..].
Qed.

Lemma run_sound ops s : sound (account s) -> sound (account (run_dev_ops ops s)).
Proof using Type. unfold run_dev_ops. revert s. induction ops as [|o ops IH]; intros s Hs; [done|]. by apply IH, sound_step. Qed.

(** *** A running kernel is not forgotten *)

(** The control register was read, after [h], with the done bit set. *)
Definition seen_done (d : VrtDevice) (h h' : history) : Prop :=
  exists bar p t u, register_access d CTRL_OFFSET = Ok (bar, p) /\ h' = h ++ t ++ MmioRead p :: u /\
    Z.land (respond (MmioRead p) (h ++ t)) CTRL_DONE <> 0.

Definition registers (d : VrtDevice) : Kernel * option BarFile := (vd_kernel d, vd_bar d).

(** The registers stay where they are, and a running kernel is known to run until
    it was seen to finish. *)
Definition watched (s s' : VrtDevice * history) : Prop :=
  registers s'.1 = registers s.1 /\ s.2 `prefix_of` s'.2 /\
  (is_running (vd_state s.1) = true -> is_running (vd_state s'.1) = true \/ seen_done s.1 s.2 s'.2).

Lemma register_access_eq d d' o : registers d' = registers d -> register_access d' o = register_access d o.
Proof using Type. unfold registers, register_access. by intros [= -> ->]. Qed.

#[local] Instance watched_preorder : PreOrder watched.
Proof using Type.
  split; [intros s; repeat split; [done|by left]|]. intros s1 s2 s3 (R1 & (t1 & E1) & W1) (R2 & (t2 & E2) & W2).
  split; [congruence|]. split; [exists (t1 ++ t2); by rewrite E2, E1, <- app_assoc|]. intros Hr.
  destruct (W1 Hr) as [Hr2|(bar & p & t & u & Ha & Eh & Hd)].
  - destruct (W2 Hr2) as [Hr3|(bar & p & t & u & Ha & Eh & Hd)]; [by left|]. right. exists bar, p, (t1 ++ t), u.
    rewrite <- (register_access_eq s1.1 s2.1) by done. rewrite E1, <- !app_assoc in *. by rewrite Eh.
  - right. exists bar, p, t, (u ++ t2). split; [done|]. split; [|done]. rewrite E2, Eh, <- !app_assoc. by cbn.
Qed.

Definition watches {A} (m : io VrtDevice A) : Prop := forall s, watched s (m s).2.

Lemma watches_ret {A} (a : A) : watches (io_ret a). Proof using Type. intros s. reflexivity. Qed.
Lemma watches_lift {A} (r : res FrtError A) : watches (io_lift r). Proof using Type. intros s. reflexivity. Qed.
Lemma watches_get : watches io_get. Proof using Type. intros s. reflexivity. Qed.
Lemma watches_ask e : watches (ask e).
Proof using Type. intros s. split; [done|]. split; [by apply prefix_app_r|by left]. Qed.
Lemma watches_tell e : watches (tell e).
Proof using Type. intros s. split; [done|]. split; [by apply prefix_app_r|by left]. Qed.
Lemma watches_modify f : (forall d, registers (f d) = registers d /\ (is_running (vd_state d) = true -> is_running (vd_state (f d)) = true)) -> watches (io_modify f).
Proof using Type. intros Hf s. destruct (Hf s.1) as [Hg Hr]. split; [done|]. split; [done|]. intros H. left. by apply Hr. Qed.
Lemma watches_bind {A B} (m : io VrtDevice A) (k : A -> io VrtDevice B) : watches m -> (forall a, watches (k a)) -> watches (io_bind m k).
Proof using Type.
  intros Hm Hk s. unfold io_bind. specialize (Hm s). destruct (m s) as [[a|e|] s1]; [|done|done]. etransitivity; [exact Hm|apply Hk].
Qed.
Lemma watches_each {A} (f : A -> io VrtDevice unit) l : (forall x, watches (f x)) -> watches (io_each f l).
Proof using Type. intros Hf. induction l as [|x l IH]; [apply watches_ret|]. by apply watches_bind. Qed.

Ltac watches_with tac := repeat first
  [ tac | apply watches_bind; [|intros ?] | apply watches_ret | apply watches_lift | apply watches_get | apply watches_ask | apply watches_tell
  | apply watches_each; intros ? | apply watches_modify; intros ?; split; [done|done]
  | progress cbv zeta | case_match | assumption ].
Ltac watches_tac := watches_with fail.

Lemma watches_sync bar flags : watches (bar_sync bar flags).
Proof using Type. unfold bar_sync. watches_tac. Qed.

Lemma watches_write o v : watches (dev_write_register o v).
Proof using Type. unfold dev_write_register. watches_with ltac:(apply watches_sync). Qed.

Lemma dev_read_done o d h v s' : dev_read_register o (d, h) = (Ok v, s') ->
  s'.1 = d /\ exists bar p t u, register_access d o = Ok (bar, p) /\ s'.2 = h ++ t ++ MmioRead p :: u /\ v = respond (MmioRead p) (h ++ t).
Proof using Type.
  unfold dev_read_register, io_bind at 1 2, io_get, io_lift at 1. cbn [fst].
  destruct (register_access d o) as [[bar p]|e|]; [|done|done].
  unfold io_bind at 1. destruct (bar_sync bar DMA_BUF_SYNC_START_READ (d, h)) as [r1 s1] eqn:E1. apply bar_sync_spec in E1 as [-> _].
  destruct r1 as [u|e|]; [|done|done]. unfold io_bind, ask, io_ret. cbn [fst snd].
  destruct (bar_sync bar DMA_BUF_SYNC_END_READ _) as [r2 s2] eqn:E2. apply bar_sync_spec in E2 as [-> _].
  destruct r2; [|done|done]. intros [= <- <-]. cbn [fst snd]. split; [done|].
  exists bar, p, (sync_events bar DMA_BUF_SYNC_START_READ), (sync_events bar DMA_BUF_SYNC_END_READ). by rewrite <- !app_assoc.
Qed.

Lemma watches_read o : watches (dev_read_register o).
Proof using Type. unfold dev_read_register. watches_with ltac:(apply watches_sync). Qed.

Lemma watches_poll : watches poll_finished.
Proof using Type.
  intros [d h]. unfold poll_finished, io_bind at 1, io_get. cbn [fst execution_state device_channel].
  destruct (vd_state d) as [|t|] eqn:Ed; [apply watches_ret| |apply watches_ret].
  unfold io_bind at 1. cbn [ctrl_read device_channel]. pose proof (watches_read CTRL_OFFSET (d, h)) as Hw.
  destruct (dev_read_register CTRL_OFFSET (d, h)) as [[v|e|] [d1 h1]] eqn:E; [|done|done]. apply dev_read_done in E as [E1 (bar & p & t1 & u & Ha & Eh & Ev)]. subst v.
  cbn [fst snd] in *. subst d1 h1. destruct (Z.eqb_spec (Z.land (respond (MmioRead p) (h ++ t1)) CTRL_DONE) 0) as [Hz|Hz]; [exact Hw|].
  unfold elapsed_ns, io_bind, ask, io_modify, io_ret. cbn [fst snd]. split; [done|]. assert (Eh : (h ++ t1 ++ MmioRead p :: u) ++ [Now] = h ++ t1 ++ MmioRead p :: u ++ [Now]) by by rewrite <- !app_assoc.
  split; [cbn [snd]; rewrite Eh; by apply prefix_app_r|].
  intros _. right. by exists bar, p, t1, (u ++ [Now]).
Qed.

Lemma watches_finish : watches dev_finish.
Proof using Type.
  unfold dev_finish, wait_finished. apply watches_bind; [apply watches_get|]. intros d. case_match; [|apply watches_ret].
  apply watches_bind; [apply watches_ask|]. intros t. generalize finish_fuel as fuel. induction fuel as [|fuel IH]; [apply watches_lift|].
  cbn [wait_loop]. apply watches_bind; [apply watches_poll|]. intros b. watches_tac.
Qed.

Lemma watched_op s o : watched s (run_dev_op s o).
Proof using Type.
  assert (Hm : forall A (m : io VrtDevice A), watches m -> watched s (m s).2) by (intros A m Hm; apply Hm). destruct o; apply Hm; clear Hm.
  - unfold dev_set_scalar_arg, set_scalar. watches_tac.
  - unfold dev_set_buffer_arg, close_buffer. watches_tac.
  - unfold dev_set_stream_arg. watches_tac.
  - unfold dev_write_to_device, dev_upload, elapsed_ns. watches_tac.
  - unfold dev_exec, start, write_arg, write_value, write_word. watches_with ltac:(apply watches_write).
  - apply watches_poll.
  - apply watches_finish.
  - unfold dev_read_from_device, dev_download, elapsed_ns. watches_with ltac:(apply watches_finish).
  - unfold dev_kill. watches_tac.
Qed.

(** *** Release *)

Definition close_events (d : VrtDevice) : history :=
  map BufferClose (held (vd_buffers d)) ++ match vd_bar d with Some _ => [CloseBar] | None => [] end ++ (if 0 <=? vd_fd d then [CloseFd (vd_fd d)] else []).

Lemma close_each (m : bmap Z DevBinding) d h :
  io_each (fun x => close_buffer (db_handle x.2)) m (d, h) = (Ok tt, (d, h ++ map BufferClose (held m))).
Proof using Type.
  revert h. induction m as [|[k b] m IH]; intros h; [cbn; by rewrite List.app_nil_r|]. cbn [io_each]. unfold io_bind, held. cbn.
  destruct (db_handle b) as [x|]; unfold close_buffer, tell, io_ret; cbn [fst snd]; rewrite IH; [by rewrite <- app_assoc|done].
Qed.

Lemma release_spec d h : exists d', release_native (d, h) = (Ok tt, (d', h ++ close_events d)) /\ vd_bar d' = None.
Proof using Type.
  exists (dev_set_native (if 0 <=? vd_fd d then -1 else vd_fd d) None (dev_set_buffers (map (fun x => (x.1, without_handle x.2)) (vd_buffers d)) d)).
  split; [|done]. unfold release_native, io_bind at 1 2, io_get. cbn [fst snd]. rewrite close_each. unfold io_bind, io_modify, close_events. cbn.
  destruct (vd_bar d), (0 <=? vd_fd d); unfold tell, io_ret; cbn; rewrite <- ?app_assoc, ?List.app_nil_r; done.
Qed.

Lemma quiet_app h p : Forall (fun e => is_buffer_event e = false) p -> opened (h ++ p) = opened h /\ closed (h ++ p) = closed h.
Proof using Type.
  intros Hp. revert h. induction Hp as [|e p He Hp IH]; intros h; [by rewrite List.app_nil_r|].
  replace (h ++ e :: p) with ((h ++ [e]) ++ p) by by rewrite <- app_assoc. destruct (IH (h ++ [e])) as [-> ->].
  unfold opened. rewrite opened_from_app, closed_app. destruct e; try done; cbn; by rewrite !List.app_nil_r.
Qed.

Lemma opened_close pre d : opened_from pre (close_events d) = [].
Proof using Type.
  unfold close_events. generalize (held (vd_buffers d)). intros l. revert pre. induction l as [|x l IH]; intros pre; [|apply IH].
  by destruct (vd_bar d), (0 <=? vd_fd d).
Qed.

Lemma closed_close d : closed (close_events d) = held (vd_buffers d).
Proof using Type.
  unfold close_events. rewrite closed_app. replace (closed (map BufferClose (held (vd_buffers d)))) with (held (vd_buffers d)).
  - destruct (vd_bar d), (0 <=? vd_fd d); apply List.app_nil_r.
  - generalize (held (vd_buffers d)). intros l. induction l as [|x l IH]; [done|]. cbn. by rewrite IH at 1.
Qed.

(** C10: buffers are given back exactly once, and not while the device knows of a
    kernel that uses them. Whatever operations a device went through, successful or
    not, each handle libvrtd returned is closed already or held by one binding. While
    the device is running, no operation opens, closes or exchanges a buffer, and it
    stays running until the done bit was read in the control register. Dropping it
    waits for the kernel: when the wait succeeds, every held handle is closed once,
    before the BAR and the connection, and the done bit was read if a kernel ran; when
    it fails, nothing at all is closed. (A start that fails after its start bit was
    written leaves the device idle, so such a kernel is not known to it.) *)
Theorem native_buffers_released `{HM : !MonotonicClock} k hz pdis requested api d0 h0 ops : dev_open k hz pdis requested api [] = (Ok d0, h0) ->
  let s := run_dev_ops ops (d0, h0) in
  opened s.2 ≡ₚ closed s.2 ++ held (vd_buffers s.1) /\
  (is_running (vd_state s.1) = true -> forall o, let s' := run_dev_op s o in
     vd_buffers s'.1 = vd_buffers s.1 /\ opened s'.2 = opened s.2 /\ closed s'.2 = closed s.2 /\
     (is_running (vd_state s'.1) = true \/ seen_done s.1 s.2 s'.2)) /\
  match dev_finish s with
  | (Ok _, (d, h)) => (dev_drop s).1 = Ok tt /\ (dev_drop s).2.2 = h ++ close_events d /\ opened (dev_drop s).2.2 ≡ₚ closed (dev_drop s).2.2 /\
      closed h = closed s.2 /\ (is_running (vd_state s.1) = true -> seen_done s.1 s.2 h)
  | (Err _, (d, h)) => (dev_drop s).2.2 = h /\ closed h = closed s.2 /\ is_running (vd_state s.1) = true
  | (Panic, _) => False
  end.
Proof using Type.
  intros Ho s. apply dev_open_account in Ho. assert (Hs : sound (account s)) by (apply run_sound; rewrite Ho; split; [apply BMap.wf_nil|constructor]).
  split; [apply Hs|]. split.
  { intros Hr o. cbv zeta. pose proof (account_step s o (or_introl Hr)) as Ha. unfold account in Ha. injection Ha as Hb Hop Hcl.
    do 3 (split; [done|]). by apply watched_op. }
  clearbody s. destruct s as [d h]. pose proof (keeps_dev_finish (d, h)) as Hk. pose proof (watches_finish (d, h)) as (_ & _ & Hw).
  pose proof (wait_no_panic (fun secs => Vrt ("VRT kernel did not finish within " +:+ Str.show secs +:+ "s and cannot be cancelled")) d h) as Hn.
  fold dev_finish in Hn. unfold dev_drop. cbn [fst]. rewrite <- Hk in Hs.
  assert (Hrel : forall d h, sound (account (d, h)) -> (release_native (d, h)).1 = Ok tt /\ (release_native (d, h)).2.2 = h ++ close_events d /\
    opened (release_native (d, h)).2.2 ≡ₚ closed (release_native (d, h)).2.2).
  { intros d1 h1 [_ Hb]. destruct (release_spec d1 h1) as (d' & -> & _). cbn [fst snd]. split; [done|]. split; [done|].
    unfold opened. rewrite opened_from_app, opened_close, closed_app, closed_close, List.app_nil_r. exact Hb. }
  destruct (is_running (vd_state d)) eqn:Er.
  - destruct (dev_finish (d, h)) as [[[]|e|] [d2 h2]] eqn:Ef; [| |done].
    { apply finish_ends in Ef as (_ & _ & Hf). destruct (Hrel _ _ Hs) as (? & ? & ?). do 3 (split; [done|]). split; [by injection Hk|]. intros _.
      destruct (Hw Er) as [Hr|]; [|done]. cbn in Hr. specialize (Hf eq_refl). cbn in Hf. congruence. } unfold abandon_native_for_running_kernel, io_modify. cbn [fst snd].
    by injection Hk as _ _ Hc.
  - assert (Hf : dev_finish (d, h) = (Ok tt, (d, h))) by (unfold dev_finish, wait_finished, io_bind, io_get; cbn; by rewrite Er).
    rewrite Hf in *. destruct (Hrel _ _ Hs) as (? & ? & ?). by do 4 (split; [done|]).
Qed.
End device.
