(* ===== verification/VrtRuns.v ===== *)
(** * Concrete runs of the VRT backends

    An environment in which everything succeeds and a kernel finishes at once,
    and the two backends driven through a whole invocation. *)

From S2P Require Import Prelude RustStd BTreeMap Shm Frt Vbin VrtCtrl VrtSim VrtDevice.

Local Open Scope Z_scope.

(** ** The environment *)

Definition zeros (n : Z) : list Z := replicate (Z.to_nat n) 0.

(** Time is what was slept; memory reads as zero; the control register reads as
    done; libvrtd numbers its buffers by the length of the history. *)
#[local] Instance calm : Env := {
  respond e h := match e return answer e with
    | Now => slept h
    | MmioRead _ => CTRL_DONE
    | HostRead _ bytes | StagingRead _ bytes => zeros bytes
    | BarIoctl _ _ => None
    | Connect _ => inr 3
    | DesignWriteFile _ _ _ | SyncToDevice _ _ _ | SyncFromDevice _ _ _ => 0
    | DeviceByBdf _ _ | ClockSetRate _ _ _ _ | ClockGetRate _ _ _ => (0, 0)
    | OpenBar _ _ _ => (0, mkBar true 65536 4 false)
    | BufferOpen _ _ _ _ _ size => (0, Some (mkVrtdBuffer (Z.of_nat (length h)) size (Z.of_nat (length h) * 4096) true))
    | Request _ => inr (bytes_of "OK")
    | e => default_answer e
    end;
}.

#[local] Instance calm_clock : MonotonicClock.
Proof. intros h h'. cbn. rewrite slept_app. lia. Qed.

(** Every command has one encoding; a scalar reads as done. *)
#[local] Instance plain_json : SerdeJson := {
  to_vec c := inr (flat_map (fun f => bytes_of f.1) c);
  from_slice_u32 _ := inr CTRL_DONE;
  from_slice_bytes _ := inr [];
}.

(** A scalar, and two buffers in different memories. *)
Definition sample : Kernel := mkKernel "vadd" 4096
  [mkArg 0 "n" KScalar 16 32 true None; mkArg 1 "a" KBuffer 24 64 true (Some "m_axi_a"); mkArg 2 "b" KBuffer 36 64 true (Some "m_axi_b")]
  [("m_axi_a", Hbm 3); ("m_axi_b", Ddr)].

(** ** Simulation *)

Definition sim_ops : list SimOp :=
  [OpStartSession; OpScalar 0 [7]; OpBuffer 1 4096 100 ReadOnly; OpBuffer 2 8192 5000 WriteOnly; OpBuffer 1 4096 64 ReadOnly; OpWrite; OpExec; OpFinish].

Lemma sim_buffers_disjoint_witness :
  Forall op_ok sim_ops /\ exists b b', BMap.get 1 (sd_buffers (run_ops sim_ops (sim_new sample true, [])).1) = Some b /\
  BMap.get 2 (sd_buffers (run_ops sim_ops (sim_new sample true, [])).1) = Some b' /\ sb_address b = HBM_BASE + 4096 /\ apart b b'.
Proof.
  assert (Ho : Forall op_ok sim_ops) by (repeat constructor; done). split; [done|].
  destruct (BMap.get 1 (sd_buffers (run_ops sim_ops (sim_new sample true, [])).1)) as [b|] eqn:E1; [|by vm_compute in E1].
  destruct (BMap.get 2 (sd_buffers (run_ops sim_ops (sim_new sample true, [])).1)) as [b'|] eqn:E2; [|by vm_compute in E2].
  exists b, b'. split; [done|]. split; [done|]. split; [vm_compute in E1; by injection E1 as <-|].
  destruct (sim_buffers_disjoint sample true [] sim_ops Ho) as [_ H]. by apply (H 1 2 b b').
Defined.

Definition ready : SimDevice * history := run_ops (take 5 sim_ops) (sim_new sample true, []).

Lemma start_orders_writes_witness : exists d h, start ready = (Ok tt, (d, h)) /\
  h = ready.2 ++ all_arg_events ready.1 (k_args sample) ++ [Now] ++ write_events ready.1 CTRL_OFFSET CTRL_START.
Proof.
  destruct (start ready) as [[[]|e|] [d h]] eqn:E; [|by vm_compute in E..]. exists d, h. split; [done|].
  assert (Hr : ready = (ready.1, ready.2)) by (by destruct ready). rewrite Hr in E.
  by destruct (start_orders_writes ready.1 ready.2 (Ok tt) d h E) as (_ & _ & H & _).
Defined.

Definition late (secs : Z) : FrtError := Vrt ("late after " +:+ Str.show secs).

Lemma finish_ends_witness : exists d h, wait_finished late (start ready).2 = (Ok tt, (d, h)) /\ is_running (execution_state d) = false.
Proof.
  destruct (wait_finished late (start ready).2) as [[[]|e|] [d h]] eqn:E; [|by vm_compute in E..]. exists d, h. split; [done|].
  assert (Hr : (start ready).2 = ((start ready).2.1, (start ready).2.2)) by (by destruct ((start ready).2)). rewrite Hr in E.
  by destruct (finish_ends late _ _ _ _ _ E) as (_ & _ & H); apply H.
Defined.

(** ** Hardware *)

Definition dev_ops : list DevOp :=
  [DevScalar 0 [7]; DevBuffer 1 4096 100 ReadOnly; DevBuffer 2 8192 5000 WriteOnly; DevBuffer 1 4096 64 ReadOnly; DevWrite; DevExec].

Lemma native_buffers_released_witness : exists d h, dev_open sample 300000000 ["top.pdi"] (Some "c1:00.0") (inr tt) [] = (Ok d, h) /\
  opened (dev_drop (run_dev_ops dev_ops (d, h))).2.2 ≡ₚ closed (dev_drop (run_dev_ops dev_ops (d, h))).2.2 /\
  length (opened (dev_drop (run_dev_ops dev_ops (d, h))).2.2) = 3%nat.
Proof.
  destruct (dev_open sample 300000000 ["top.pdi"] (Some "c1:00.0") (inr tt) []) as [[d|e|] h] eqn:E; [|by vm_compute in E..]. exists d, h. split; [done|].
  assert (Hr : dev_finish (run_dev_ops dev_ops (d, h)) = (Ok tt, (dev_finish (run_dev_ops dev_ops (d, h))).2) /\
    length (opened (dev_drop (run_dev_ops dev_ops (d, h))).2.2) = 3%nat) by (vm_compute in E; injection E as <- <-; split; vm_compute; reflexivity).
  destruct Hr as [Hf Hl]. split; [|exact Hl].
  destruct (native_buffers_released sample 300000000 ["top.pdi"] (Some "c1:00.0") (inr tt) d h dev_ops E) as [_ [_ H]].
  rewrite Hf in H. destruct ((dev_finish _).2) in H. by destruct H as (_ & _ & H & _).
Defined.

(** *** A start that is lost

    The start bit is written between two synchronizations of the mapping.  When
    the second one fails, the board runs and the device stays idle: dropping it
    does not wait, and closes the buffers the kernel works on. *)
Section lost.
Definition is_start (e : Event) : bool := match e with MmioWrite offset value => (offset =? 4096) && (value =? CTRL_START) | _ => false end.

#[local] Instance failing : Env := {
  respond e h := match e return answer e with
    | BarIoctl _ flags => if match last h with Some e => is_start e | None => false end then Some "EIO" else None
    | e => @respond calm e h
    end;
}.

Definition started_lost : res FrtError unit * (VrtDevice * history) :=
  match dev_open sample 300000000 ["top.pdi"] (Some "c1:00.0") (inr tt) [] with
  | (Ok d, h) => dev_exec (run_dev_ops (take 5 dev_ops) (d, h))
  | (_, h) => (Panic, (mkVrtDevice 0 0 sample None [] [] Idle 0 0 0, h))
  end.

Example start_is_lost : is_ok started_lost.1 = false /\ vd_state started_lost.2.1 = Idle /\
  List.existsb is_start started_lost.2.2 = true /\
  (dev_drop started_lost.2).2.2 = started_lost.2.2 ++ close_events started_lost.2.1 /\ length (held (vd_buffers started_lost.2.1)) = 2%nat.
Proof. vm_compute. repeat split. Qed.
End lost.
