(* ===== verification/CosimContext.v ===== *)
(** * Shared memory of a co-simulation

    [frt-shm/src/mmap_segment.rs], the creation of a queue of
    [frt-shm/src/queue.rs], and [frt-cosim/src/context.rs].  A segment is a path
    and a length: its bytes are shared with the simulator, so reading and writing
    them are events. *)

From S2P Require Import Prelude RustStd BTreeMap Shm CosimSpec Frt.

Local Open Scope Z_scope.

(** ** Errors *)

(** [CosimError] is its [Display]. *)
Definition cosim_metadata {A} (detail : string) : res FrtError A := Err (CosimFailed ("metadata parse error: " +:+ detail)).
Definition cosim_io (error : string) : FrtError := CosimFailed ("I/O error: " +:+ error).

(** The [Display] of what [QueueLayout::new] returns. *)
Definition layout_error (e : QueueError) : string :=
  match e with
  | ZeroShape d w => "queue needs depth >= 1 and width >= 1, got depth=" +:+ Str.show d +:+ " width=" +:+ Str.show w
  | ShapeTooLarge d w => "queue shape is too large: depth=" +:+ Str.show d +:+ " width=" +:+ Str.show w
  | _ => ""
  end.

(** ** Segments ([MmapSegment]) *)

Record MmapSegment := mkSegment { sg_path : string; sg_len : Z; sg_owner : bool }.

(** [shm_path]: the characters a name keeps in the file name. *)
Definition is_safe_char (c : ascii) : bool := Str.is_alnum c || Ascii.eqb c "_" || Ascii.eqb c "-".

(** A character of several bytes becomes one underscore. *)
Definition is_continuation_byte (c : ascii) : bool := (128 <=? Str.code c) && (Str.code c <? 192).

Fixpoint safe_name (s : string) : string :=
  match s with
  | EmptyString => ""
  | String c s => if is_continuation_byte c then safe_name s else String (if is_safe_char c then c else "_"%char) (safe_name s)
  end.

Definition shm_file (name : string) (pid nonce : Z) : string := "/dev/shm/tapa_" +:+ safe_name name +:+ "_" +:+ Str.show pid +:+ "_" +:+ Str.show nonce.

Section shm.
Context `{Env} {D : Type}.

Definition shm_path (name : string) : io D string :=
  do! pid := ask ProcessId in
  do! nonce := ask ShmNonce in
  io_ret (shm_file name pid nonce).

(** Errors of the file system are texts. *)
Definition of_error (f : string -> FrtError) (o : option string) : io D unit := io_lift match o with Some e => Err (f e) | None => Ok tt end.

(** [MmapSegment::create]: the file is new, sized and zeroed. *)
Definition segment_create (name : string) (size : Z) : io D MmapSegment :=
  do! path := shm_path name in
  do! e := ask (MapCreate path size) in
  do! _ := of_error cosim_io e in
  io_ret (mkSegment path size true).

Definition segment_open (path : string) : io D MmapSegment :=
  do! r := ask (MapOpen path) in
  do! len := io_lift (map_err cosim_io (of_sum r)) in
  io_ret (mkSegment path len false).

(** [Drop for MmapSegment]. *)
Definition segment_drop (s : MmapSegment) : io D unit := if sg_owner s then tell (Unlink (sg_path s)) else io_ret tt.

Definition drop_option (o : option MmapSegment) : io D unit := match o with Some s => segment_drop s | None => io_ret tt end.

(** ** Queues ([SharedMemoryQueue::create]) *)

(** The fields of the header, in the order they are stored. *)
Definition header_fields (depth width : Z) : list (Z * list Z) :=
  [(0, MAGIC); (4, le_bytes 4 1); (8, le_bytes 4 depth); (12, le_bytes 4 width); (16, le_bytes 8 0); (24, le_bytes 8 0)].

Definition queue_create (name : string) (depth width : Z) : io D (MmapSegment * QueueLayout) :=
  do! layout := io_lift (map_err (fun e => cosim_io (layout_error e)) (layout_new depth width)) in
  do! s := segment_create name (byte_len layout) in
  do! _ := io_each (fun x => tell (MapWrite (sg_path s) x.1 x.2)) (header_fields depth width) in
  io_ret (s, layout).
End shm.

(** ** Contexts ([CosimContext]) *)

Definition PLACEHOLDER_BUFFER_BYTES : Z := 1.

Record CosimContext := mkCosimContext {
  buffers : bmap string MmapSegment;
  streams : bmap string (MmapSegment * QueueLayout);
  stream_path_overrides : bmap string string;
  base_addresses : bmap string Z;
}.

Definition empty_context : CosimContext := mkCosimContext BMap.empty BMap.empty BMap.empty BMap.empty.

Definition put_buffer (name : string) (s : MmapSegment) (c : CosimContext) : CosimContext :=
  mkCosimContext (BMap.insert name s (buffers c)) (streams c) (stream_path_overrides c) (base_addresses c).
Definition put_base (name : string) (base : Z) (c : CosimContext) : CosimContext :=
  mkCosimContext (buffers c) (streams c) (stream_path_overrides c) (BMap.insert name base (base_addresses c)).
Definition put_stream (name : string) (q : MmapSegment * QueueLayout) (c : CosimContext) : CosimContext :=
  mkCosimContext (buffers c) (BMap.insert name q (streams c)) (stream_path_overrides c) (base_addresses c).
Definition put_override (name path : string) (c : CosimContext) : CosimContext :=
  mkCosimContext (buffers c) (streams c) (BMap.insert name path (stream_path_overrides c)) (base_addresses c).

(** The segments a context owns. *)
Definition segments (c : CosimContext) : list MmapSegment := BMap.values (buffers c) ++ map fst (BMap.values (streams c)).

Section context.
Context `{Env} {D : Type}.

Definition context_drop (c : CosimContext) : io D unit := io_each segment_drop (segments c).

(** What a function has built is dropped when it fails. *)
Definition or_drop {A} (c : CosimContext) (m : io D A) : io D A := fun s =>
  match m s with
  | (Err e, s') => let '(_, s'') := context_drop c s' in (Err e, s'')
  | r => r
  end.

(** One argument of [CosimContext::new]; [mmap_idx] counts the memories. *)
Definition new_arg (x : CosimContext * Z) (a : ArgSpec) : io D (CosimContext * Z) :=
  let '(c, mmap_idx) := x in
  match as_kind a with
  | Mmap _ _ =>
      do! s := or_drop c (segment_create (as_name a) PLACEHOLDER_BUFFER_BYTES) in
      do! _ := drop_option (BMap.get (as_name a) (buffers c)) in
      io_ret (put_base (as_name a) (wrap64 (mmap_idx * 268435456)) (put_buffer (as_name a) s c), mmap_idx + 1)
  | Stream width depth _ _ =>
      do! q := or_drop c (queue_create (as_name a) depth (div_ceil width 8 + 1)) in
      do! _ := drop_option (option_map fst (BMap.get (as_name a) (streams c))) in
      io_ret (put_stream (as_name a) q c, mmap_idx)
  | Scalar _ => io_ret x
  end.

Fixpoint io_fold {A B} (f : A -> B -> io D A) (acc : A) (l : list B) : io D A :=
  match l with
  | [] => io_ret acc
  | x :: l => do! acc := f acc x in io_fold f acc l
  end.

Definition context_new (spec : KernelSpec) : io D CosimContext :=
  do! r := io_fold new_arg (empty_context, 1) (ks_args spec) in io_ret r.1.

(** One argument of [CosimContext::open_from_config]. *)
Definition open_arg (config : Json) (c : CosimContext) (a : ArgSpec) : io D CosimContext :=
  if is_mmap_kind (as_kind a) then
    let entry := index (index config "buffers") (as_name a) in
    do! s := or_drop c (
      do! path := io_lift (ok_or (as_str (index entry "path")) (cosim_io ("buffer `" +:+ as_name a +:+ "` has no path in dpi_config.json"))) in
      segment_open path) in
    let base := match as_u64 (index entry "base_addr") with Some n => n | None => 0 end in
    do! _ := drop_option (BMap.get (as_name a) (buffers c)) in
    io_ret (put_base (as_name a) base (put_buffer (as_name a) s c))
  else io_ret c.

Definition open_from_config (spec : KernelSpec) (config : Json) : io D CosimContext := io_fold (open_arg config) empty_context (ks_args spec).

(** [resize_buffer]: the bytes the old and the new segment have in common move. *)
Definition resize_buffer (c : CosimContext) (name : string) (size : Z) : io D CosimContext :=
  match BMap.get name (buffers c) with
  | None => io_lift (Err (cosim_io ("the kernel metadata declares no buffer argument `" +:+ name +:+ "`")))
  | Some old =>
      do! s := segment_create name (Z.max 1 size) in
      let len := Z.min (sg_len old) (sg_len s) in
      do! _ := (if 0 <? len then do! data := ask (MapRead (sg_path old) len) in tell (MapWrite (sg_path s) 0 data) else io_ret tt) in
      do! _ := segment_drop old in
      io_ret (put_buffer name s c)
  end.

Definition bind_stream_path (c : CosimContext) (name path : string) : res FrtError CosimContext :=
  if negb (BMap.contains_key name (streams c)) then
    Err (cosim_io ("the kernel metadata declares no stream argument `" +:+ name +:+ "`"))
  else if Str.is_empty path then Err (cosim_io "the stream shared-memory path is empty")
  else Ok (put_override name path c).

Definition dpi_config (c : CosimContext) : DpiConfig := mkDpiConfig
  (BMap.from_list (map (fun x => (x.1, (match BMap.get x.1 (base_addresses c) with Some b => b | None => 0 end, sg_path x.2))) (buffers c)))
  (BMap.from_list (map (fun x => (x.1, (l_width x.2.2, match BMap.get x.1 (stream_path_overrides c) with Some p => p | None => sg_path x.2.1 end))) (streams c))).
End context.
