(* ===== verification/Cosim.v ===== *)
(** * The co-simulation device

    [frt/src/cosim/mod.rs].  The kernel runs in a simulator, a process of its
    own: the runner that prepares and spawns it, its exit, the signals it is
    sent, and the memory it shares are events.  The life of a simulation is the
    state machine [SimulationState]. *)

From S2P Require Import Prelude RustStd BTreeMap Shm CosimSpec Frt CosimContext.

Local Open Scope Z_scope.

(** ** State *)

Record RuntimeOptions := mkOptions {
  ro_start_gui : bool;
  ro_timeout_seconds : option Z;
  ro_save_waveform : bool;
  ro_setup_only : bool;
  ro_resume_from_post_sim : bool;
  ro_work_dir : option string;
  ro_work_dir_parallel : bool;
  ro_part_num_override : option string;
}.

Record BufferBinding := mkBinding { bb_ptr : Z; bb_bytes : Z; bb_access : BufferAccess }.

Record RunningSimulation := mkRun { child : Z; started_at : Z }.

Inductive SimulationState :=
| Idle
| Running (run : RunningSimulation)
| Resuming
| Finished (error : option FrtError).

Record CosimDevice := mkCosim {
  cd_spec : KernelSpec;
  cd_arg_names : bmap Z string;
  cd_stream_arg_names : bmap Z string;
  cd_ctx : CosimContext;
  cd_runner : Runner;
  cd_tb_dir : string;
  cd_setup_only : bool;
  cd_resume_from_post_sim : bool;
  cd_timeout_seconds : option Z;
  cd_scalars : bmap Z (list Z);
  cd_pending_buffers : bmap Z BufferBinding;
  cd_simulation_state : SimulationState;
  cd_readback_scheduled : bool;
  cd_load_ns : Z;
  cd_compute_ns : Z;
  cd_store_ns : Z;
}.

Definition cd_set_ctx (c : CosimContext) (d : CosimDevice) : CosimDevice :=
  mkCosim (cd_spec d) (cd_arg_names d) (cd_stream_arg_names d) c (cd_runner d) (cd_tb_dir d) (cd_setup_only d) (cd_resume_from_post_sim d)
    (cd_timeout_seconds d) (cd_scalars d) (cd_pending_buffers d) (cd_simulation_state d) (cd_readback_scheduled d) (cd_load_ns d) (cd_compute_ns d) (cd_store_ns d).
Definition cd_set_scalars (m : bmap Z (list Z)) (d : CosimDevice) : CosimDevice :=
  mkCosim (cd_spec d) (cd_arg_names d) (cd_stream_arg_names d) (cd_ctx d) (cd_runner d) (cd_tb_dir d) (cd_setup_only d) (cd_resume_from_post_sim d)
    (cd_timeout_seconds d) m (cd_pending_buffers d) (cd_simulation_state d) (cd_readback_scheduled d) (cd_load_ns d) (cd_compute_ns d) (cd_store_ns d).
Definition cd_set_pending (m : bmap Z BufferBinding) (d : CosimDevice) : CosimDevice :=
  mkCosim (cd_spec d) (cd_arg_names d) (cd_stream_arg_names d) (cd_ctx d) (cd_runner d) (cd_tb_dir d) (cd_setup_only d) (cd_resume_from_post_sim d)
    (cd_timeout_seconds d) (cd_scalars d) m (cd_simulation_state d) (cd_readback_scheduled d) (cd_load_ns d) (cd_compute_ns d) (cd_store_ns d).
Definition cd_set_state (s : SimulationState) (d : CosimDevice) : CosimDevice :=
  mkCosim (cd_spec d) (cd_arg_names d) (cd_stream_arg_names d) (cd_ctx d) (cd_runner d) (cd_tb_dir d) (cd_setup_only d) (cd_resume_from_post_sim d)
    (cd_timeout_seconds d) (cd_scalars d) (cd_pending_buffers d) s (cd_readback_scheduled d) (cd_load_ns d) (cd_compute_ns d) (cd_store_ns d).
Definition cd_set_readback (b : bool) (d : CosimDevice) : CosimDevice :=
  mkCosim (cd_spec d) (cd_arg_names d) (cd_stream_arg_names d) (cd_ctx d) (cd_runner d) (cd_tb_dir d) (cd_setup_only d) (cd_resume_from_post_sim d)
    (cd_timeout_seconds d) (cd_scalars d) (cd_pending_buffers d) (cd_simulation_state d) b (cd_load_ns d) (cd_compute_ns d) (cd_store_ns d).
Definition cd_set_load (n : Z) (d : CosimDevice) : CosimDevice :=
  mkCosim (cd_spec d) (cd_arg_names d) (cd_stream_arg_names d) (cd_ctx d) (cd_runner d) (cd_tb_dir d) (cd_setup_only d) (cd_resume_from_post_sim d)
    (cd_timeout_seconds d) (cd_scalars d) (cd_pending_buffers d) (cd_simulation_state d) (cd_readback_scheduled d) n (cd_compute_ns d) (cd_store_ns d).
Definition cd_set_compute (n : Z) (d : CosimDevice) : CosimDevice :=
  mkCosim (cd_spec d) (cd_arg_names d) (cd_stream_arg_names d) (cd_ctx d) (cd_runner d) (cd_tb_dir d) (cd_setup_only d) (cd_resume_from_post_sim d)
    (cd_timeout_seconds d) (cd_scalars d) (cd_pending_buffers d) (cd_simulation_state d) (cd_readback_scheduled d) (cd_load_ns d) n (cd_store_ns d).
Definition cd_set_store (n : Z) (d : CosimDevice) : CosimDevice :=
  mkCosim (cd_spec d) (cd_arg_names d) (cd_stream_arg_names d) (cd_ctx d) (cd_runner d) (cd_tb_dir d) (cd_setup_only d) (cd_resume_from_post_sim d)
    (cd_timeout_seconds d) (cd_scalars d) (cd_pending_buffers d) (cd_simulation_state d) (cd_readback_scheduled d) (cd_load_ns d) (cd_compute_ns d) n.

(** The order in which a [HashMap] is walked is not specified: any permutation,
    which may change from one walk to the next. *)
Class HashOrder := { hash_iter : forall {A}, history -> list A -> list A; hash_iter_perm {A} h (l : list A) : hash_iter h l ≡ₚ l }.

(** ** Names and options *)

(** [Path::join] of a file name. *)
Definition join (base name : string) : string := if Str.ends_with "/" base then base +:+ name else base +:+ "/" +:+ name.

Definition declared_arg_name (names : bmap Z string) (index : Z) (kind : string) : res FrtError string :=
  ok_or (BMap.get index names) (MetadataParse ("the kernel metadata declares no " +:+ kind +:+ " at index " +:+ Str.show index)).

Definition resumed_config_stream_names (config : Json) : list string := object_keys (CosimSpec.index config "streams").

(** [sort_unstable] on pairs of an index and a name. *)
Fixpoint insert_listed (x : Z * string) (l : list (Z * string)) : list (Z * string) :=
  match l with
  | [] => [x]
  | y :: l' => match kcmp x y with Gt => y :: insert_listed x l' | _ => x :: l end
  end.
Definition sort_listed (l : list (Z * string)) : list (Z * string) := fold_right insert_listed [] l.

Definition sorted_stream_arg_listing (args : list (Z * string)) : string :=
  String.concat ", " (map (fun x => "'" +:+ x.2 +:+ "' (arg index " +:+ Str.show x.1 +:+ ")") (sort_listed args)).

Definition is_unbound (resumed : list string) (x : Z * string) : bool := negb (existsb (String.eqb x.2) resumed).

Definition resume_error (unbound : list (Z * string)) : FrtError :=
  ResumeStreamBinding ("kernel stream args with no entry in the resumed dpi_config.json: " +:+ sorted_stream_arg_listing unbound +:+
    "; the resumed work directory is stale or was built for a different kernel — regenerate it with --cosim_setup_only before using --cosim_resume_from_post_sim").

(** [walked] is [declared] in the order it is walked. *)
Definition validate_resume_stream_bindings (walked : list (Z * string)) (resumed : list string) : res FrtError unit :=
  match List.filter (is_unbound resumed) walked with
  | [] => Ok tt
  | unbound => Err (resume_error unbound)
  end.

Definition parse_timeout_seconds (debug : string -> string) (value : option string) : res FrtError (option Z) :=
  match value with
  | None => Ok None
  | Some v =>
      let! seconds := ok_or (Str.parse_u64 v) (CosimOption ("FRT_COSIM_TIMEOUT_SECONDS=" +:+ debug v +:+ "; expected a nonnegative integer number of seconds")) in
      Ok (if seconds =? 0 then None else Some seconds)
  end.

(** ** Processes *)

Definition SIGINT : Z := 2.
Definition SIGKILL : Z := 9.
Definition ESRCH : Z := 3.
(** Durations in nanoseconds. *)
Definition TERMINATE_GRACE : Z := 5000000000.
Definition TERMINATE_POLL : Z := 50000000.
Definition WAIT_POLL : Z := 10000000.
Definition NANOS : Z := 1000000000.

Section processes.
Context `{Env} {D : Type}.

Definition signal_child_group (child signal : Z) : io D unit :=
  do! r := ask (KillGroup child signal) in
  io_lift match r with
  | Some (errno, text) => if errno =? ESRCH then Ok tt else Err (Io text)
  | None => Ok tt
  end.

(** An error that is only logged. *)
Definition io_ignore (m : io D unit) : io D unit := fun s => match m s with (Panic, s') => (Panic, s') | (_, s') => (Ok tt, s') end.

Definition try_wait (child : Z) : io D (option ExitStatus) :=
  do! r := ask (TryWait child) in io_lift (map_err Io (of_sum r)).

Definition wait (child : Z) : io D ExitStatus :=
  do! r := ask (Wait child) in io_lift (map_err Io (of_sum r)).

(** Whether the process has exited within the grace; [wait_loop] is left with one
    poll per [TERMINATE_POLL] after the deadline. *)
Definition grace_fuel : nat := Z.to_nat (TERMINATE_GRACE / TERMINATE_POLL) + 2.

Fixpoint grace_loop (fuel : nat) (child deadline : Z) : io D bool :=
  match fuel with
  | O => io_lift Panic
  | S fuel =>
      do! status := try_wait child in
      match status with
      | Some _ => io_ret true
      | None =>
          do! now := ask Now in
          if deadline <=? now then io_ret false
          else
            do! _ := tell (Sleep TERMINATE_POLL) in
            grace_loop fuel child deadline
      end
  end.

Definition terminate_running_simulation (run : RunningSimulation) : io D unit :=
  do! _ := io_ignore (signal_child_group (child run) SIGINT) in
  do! now := ask Now in
  do! exited := grace_loop grace_fuel (child run) (now + TERMINATE_GRACE) in
  if exited then io_ret tt
  else
    do! _ := io_ignore (signal_child_group (child run) SIGKILL) in
    do! _ := ask (Wait (child run)) in
    io_ret tt.
End processes.

(** ** The simulation *)

Section device.
Context `{Env} `{HashOrder}.

Definition failure (status : ExitStatus) : option FrtError := if exit_success status then None else Some (SimFailed (exit_text status)).

Definition complete_simulation (error : option FrtError) : io CosimDevice unit :=
  do! d := io_get in
  do! _ := (match cd_simulation_state d with
    | Running run => do! ns := elapsed_ns (started_at run) in io_modify (cd_set_compute ns)
    | _ => io_ret tt
    end) in
  io_modify (cd_set_state (Finished error)).

(** Whether the timeout, when there is one, has passed since [started]. *)
Definition timed_out (timeout : option Z) (started : Z) : io CosimDevice (option Z) :=
  match timeout with
  | None => io_ret None
  | Some secs => do! now := ask Now in io_ret (if secs * NANOS <=? Z.max 0 (now - started) then Some secs else None)
  end.

Definition poll_simulation : io CosimDevice bool :=
  do! d := io_get in
  match cd_simulation_state d with
  | Idle => io_ret false
  | Finished _ => io_ret true
  | Resuming => do! _ := complete_simulation None in io_ret true
  | Running run =>
      do! maybe_status := try_wait (child run) in
      match maybe_status with
      | Some status => do! _ := complete_simulation (failure status) in io_ret true
      | None =>
          do! late := timed_out (cd_timeout_seconds d) (started_at run) in
          match late with
          | Some timeout_secs =>
              do! _ := terminate_running_simulation run in
              do! _ := complete_simulation (Some (CosimTimeout timeout_secs)) in
              io_ret true
          | None => io_ret false
          end
      end
  end.

(** One poll per [WAIT_POLL]: the timeout ends the loop. *)
Definition wait_fuel (timeout_secs : Z) : nat := Z.to_nat (timeout_secs * NANOS / WAIT_POLL) + 2.

Fixpoint wait_loop (fuel : nat) : io CosimDevice unit :=
  match fuel with
  | O => io_lift Panic
  | S fuel =>
      do! finished := poll_simulation in
      if finished then io_ret tt
      else
        do! _ := tell (Sleep WAIT_POLL) in
        wait_loop fuel
  end.

Definition wait_simulation : io CosimDevice unit :=
  do! d := io_get in
  match cd_simulation_state d, cd_timeout_seconds d with
  | Running _, Some secs => wait_loop (wait_fuel secs)
  | Running run, None =>
      do! status := wait (child run) in
      complete_simulation (failure status)
  | _, _ => io_ret tt
  end.

(** ** Transfers *)

Definition transfer_one (flows : BufferAccess -> bool) (transfer : Z -> Z -> MmapSegment -> io CosimDevice unit) (x : Z * BufferBinding) : io CosimDevice unit :=
  let '(i, b) := x in
  if negb (flows (bb_access b)) then io_ret tt
  else if (bb_ptr b =? 0) && negb (bb_bytes b =? 0) then io_lift (Err (MetadataParse ("null pointer for buffer arg " +:+ Str.show i)))
  else
    do! d := io_get in
    do! name := io_lift (declared_arg_name (cd_arg_names d) i "argument") in
    match BMap.get name (buffers (cd_ctx d)) with
    | Some seg => transfer (bb_ptr b) (bb_bytes b) seg
    | None => io_ret tt
    end.

Definition for_each_transfer (flows : BufferAccess -> bool) (transfer : Z -> Z -> MmapSegment -> io CosimDevice unit) : io CosimDevice unit := fun s =>
  io_each (transfer_one flows transfer) (hash_iter s.2 (cd_pending_buffers s.1)) s.

Definition store_segment (ptr bytes : Z) (seg : MmapSegment) : io CosimDevice unit :=
  let len := Z.min bytes (sg_len seg) in
  if 0 <? len then do! data := ask (MapRead (sg_path seg) len) in tell (HostWrite ptr data) else io_ret tt.

Definition load_segment (ptr bytes : Z) (seg : MmapSegment) : io CosimDevice unit :=
  let len := Z.min bytes (sg_len seg) in
  if 0 <? len then do! data := ask (HostRead ptr len) in tell (MapWrite (sg_path seg) 0 data) else io_ret tt.

Definition copy_back_to_host : io CosimDevice unit :=
  do! started := ask Now in
  do! _ := for_each_transfer stores_to_host store_segment in
  do! ns := elapsed_ns started in
  io_modify (cd_set_store (if ns =? 0 then 1 else ns)).

(** ** Operations of the device *)

Definition cosim_set_scalar_arg (i : Z) (value : list Z) : io CosimDevice unit :=
  io_modify (fun d => cd_set_scalars (BMap.insert i value (cd_scalars d)) d).

Definition cosim_set_buffer_arg (i ptr bytes : Z) (access : BufferAccess) : io CosimDevice unit :=
  do! d := io_get in
  do! name := io_lift (declared_arg_name (cd_arg_names d) i "argument") in
  if negb (BMap.contains_key name (buffers (cd_ctx d))) then io_lift (Err (MetadataParse ("arg '" +:+ name +:+ "' is not an mmap buffer")))
  else
    do! ctx := resize_buffer (cd_ctx d) name bytes in
    io_modify (fun d => cd_set_pending (BMap.insert i (mkBinding ptr bytes access) (cd_pending_buffers d)) (cd_set_ctx ctx d)).

(** [HostStream]: index, name, and whether the kernel reads it. *)
Definition host_stream (a : ArgSpec) : option (Z * string * bool) :=
  match as_kind a with Stream _ _ dir _ => Some (as_id a, as_name a, match dir with DirIn => true | DirOut => false end) | _ => None end.
Definition cosim_host_streams (d : CosimDevice) : list (Z * string * bool) := omap host_stream (ks_args (cd_spec d)).

Definition cosim_set_stream_arg (i : Z) (shm_path : string) : io CosimDevice unit :=
  if Str.is_empty shm_path then io_ret tt
  else
    do! d := io_get in
    let name := declared_arg_name (cd_stream_arg_names d) i "stream argument" in
    if cd_resume_from_post_sim d then
      if is_ok name then io_ret tt
      else io_lift (Err (ResumeStreamBinding ("arg index " +:+ Str.show i +:+ " is not a stream arg declared by the kernel spec (declared stream args: "
        +:+ sorted_stream_arg_listing (cd_stream_arg_names d)
        +:+ "); the host binary and the kernel archive disagree — check that the host was built against this archive")))
    else
      do! name := io_lift name in
      if BMap.contains_key name (streams (cd_ctx d)) then
        do! ctx := io_lift (bind_stream_path (cd_ctx d) name shm_path) in
        io_modify (cd_set_ctx ctx)
      else io_ret tt.

Definition cosim_write_to_device : io CosimDevice unit :=
  do! started := ask Now in
  do! _ := for_each_transfer loads_from_host load_segment in
  do! ns := elapsed_ns started in
  io_modify (cd_set_load ns).

Definition awaits_simulation (s : SimulationState) : bool := match s with Running _ | Resuming => true | _ => false end.

Definition cosim_read_from_device : io CosimDevice unit :=
  do! d := io_get in
  if awaits_simulation (cd_simulation_state d) then io_modify (cd_set_readback true)
  else
    do! _ := copy_back_to_host in
    io_modify (cd_set_readback false).

Definition cosim_exec : io CosimDevice unit :=
  do! d := io_get in
  if cd_resume_from_post_sim d then io_modify (fun d => cd_set_compute 0 (cd_set_state Resuming d))
  else
    let config := dpi_config (cd_ctx d) in
    do! e := ask (Prepare (cd_runner d) config (cd_scalars d) (cd_tb_dir d)) in
    do! _ := of_error CosimFailed e in
    if cd_setup_only d then
      do! e := ask (WriteConfig (join (cd_tb_dir d) "dpi_config.json") config) in
      do! _ := of_error Io e in
      io_modify (fun d => cd_set_state (Finished None) (cd_set_compute 0 d))
    else
      do! r := ask (Spawn (cd_runner d) config (cd_tb_dir d)) in
      do! child := io_lift (map_err CosimFailed (of_sum r)) in
      do! now := ask Now in
      io_modify (cd_set_state (Running (mkRun child now))).

Definition is_idle_or_resuming (s : SimulationState) : bool := match s with Idle | Resuming => true | _ => false end.

(** [error.take()]. *)
Definition take_error : io CosimDevice unit :=
  do! d := io_get in
  match cd_simulation_state d with
  | Finished (Some e) => do! _ := io_modify (cd_set_state (Finished None)) in io_lift (Err e)
  | _ => io_ret tt
  end.

Definition cosim_finish : io CosimDevice unit :=
  do! _ := wait_simulation in
  do! d := io_get in
  do! _ := (if is_idle_or_resuming (cd_simulation_state d) then complete_simulation None else io_ret tt) in
  do! _ := take_error in
  do! d := io_get in
  if cd_readback_scheduled d then
    do! _ := copy_back_to_host in
    io_modify (cd_set_readback false)
  else io_ret tt.

Definition cosim_kill : io CosimDevice unit :=
  do! d := io_get in
  match cd_simulation_state d with
  | Running run =>
      do! _ := terminate_running_simulation run in
      complete_simulation None
  | Idle | Resuming => complete_simulation None
  | Finished _ => io_ret tt
  end.

Definition cosim_is_finished : io CosimDevice bool := poll_simulation.

(** Dropping the device drops its context. *)
Definition cosim_drop : io CosimDevice unit := do! d := io_get in context_drop (cd_ctx d).
End device.

(** ** Opening *)

(** [serde_json::from_str], and the [Debug] of a string. *)
Class CosimText := { json_from_str : string -> string + Json; debug_str : string -> string }.

Section open.
Context `{Env} `{HashOrder} `{CosimText}.

Definition env_bool {D} (name : string) : io D bool :=
  do! v := ask (GetEnv name) in
  io_ret (match v with Some s => existsb (String.eqb s) ["1"; "true"; "TRUE"; "yes"; "YES"] | None => false end).

Definition env_non_empty {D} (name : string) : io D (option string) :=
  do! v := ask (GetEnv name) in
  io_ret (let? s := v in let trimmed := Str.trim s in if Str.is_empty trimmed then None else Some trimmed).

Definition runtime_options {D} : io D RuntimeOptions :=
  do! timeout := env_non_empty "FRT_COSIM_TIMEOUT_SECONDS" in
  do! start_gui := env_bool "FRT_XSIM_START_GUI" in
  do! timeout_seconds := io_lift (parse_timeout_seconds debug_str timeout) in
  do! save_waveform := env_bool "FRT_XSIM_SAVE_WAVEFORM" in
  do! setup_only := env_bool "FRT_COSIM_SETUP_ONLY" in
  do! resume := env_bool "FRT_COSIM_RESUME_FROM_POST_SIM" in
  do! work_dir := env_non_empty "FRT_COSIM_WORK_DIR" in
  do! parallel := env_bool "FRT_COSIM_WORK_DIR_PARALLEL" in
  do! part := env_non_empty "FRT_XSIM_PART_NUM" in
  io_ret (mkOptions start_gui timeout_seconds save_waveform setup_only resume work_dir parallel part).

(** The directory a simulation runs in; a fixed one is absolute. *)
Definition make_tb_dir {D} (work_dir : option string) (parallel : bool) : io D string :=
  match work_dir with
  | Some base =>
      do! e := ask (CreateDirAll base) in
      do! _ := of_error Io e in
      do! r := ask (Canonicalize base) in
      do! base := io_lift (map_err Io (of_sum r)) in
      if parallel then
        do! pid := ask ProcessId in
        do! nanos := ask UnixNanos in
        let dir := join base (Str.show pid +:+ "_" +:+ Str.show nanos) in
        do! e := ask (CreateDirAll dir) in
        do! _ := of_error Io e in
        io_ret dir
      else io_ret base
  | None => do! r := ask TempDir in io_lift (map_err Io (of_sum r))
  end.

Definition resumed_context {D} (spec : KernelSpec) (stream_names : bmap Z string) (tb_dir : string) : io D CosimContext :=
  let config_path := join tb_dir "dpi_config.json" in
  do! r := ask (ReadFile config_path) in
  do! json := io_lift (map_err (fun e => MetadataParse ("cannot read the resumed cosim config `" +:+ config_path +:+ "`: " +:+ e)) (of_sum r)) in
  do! config := io_lift (map_err (fun e => MetadataParse ("cannot parse the resumed cosim config `" +:+ config_path +:+ "`: " +:+ e)) (of_sum (json_from_str json))) in
  do! ctx := open_from_config spec config in
  do! _ := or_drop ctx (fun s => io_lift (validate_resume_stream_bindings (hash_iter s.2 stream_names) (resumed_config_stream_names config)) s) in
  io_ret ctx.

Definition make_runner {D} (sim : Simulator) (o : RuntimeOptions) : io D Runner :=
  match sim with
  | SimVerilator =>
      do! r := ask (DpiLibrary "verilator") in
      do! dpi := io_lift (of_sum r) in
      io_ret (VerilatorRunner dpi)
  | SimXsim legacy =>
      do! r := ask (DpiLibrary "xsim") in
      do! dpi := io_lift (of_sum r) in
      io_ret (XsimRunner dpi (ro_save_waveform o) legacy (ro_start_gui o) (ro_part_num_override o))
  end.

(** The names of the arguments of a kind, by index. *)
Definition names_of (keep : ArgKind -> bool) (spec : KernelSpec) : bmap Z string :=
  BMap.from_list (map (fun a => (as_id a, as_name a)) (List.filter (fun a => keep (as_kind a)) (ks_args spec))).

Definition cosim_open (path : string) (sim : Simulator) : io unit CosimDevice :=
  do! r := ask (LoadSpec path) in
  do! spec := io_lift (map_err CosimFailed (of_sum r)) in
  let stream_names := names_of is_stream_kind spec in
  do! o := runtime_options in
  do! tb_dir := make_tb_dir (ro_work_dir o) (ro_work_dir_parallel o) in
  do! ctx := (if ro_resume_from_post_sim o then resumed_context spec stream_names tb_dir else context_new spec) in
  do! runner := or_drop ctx (make_runner sim o) in
  io_ret (mkCosim spec (names_of (fun _ => true) spec) stream_names ctx runner tb_dir (ro_setup_only o) (ro_resume_from_post_sim o)
    (ro_timeout_seconds o) BMap.empty BMap.empty Idle false 0 0 0).
End open.

(** * Resuming a co-simulation

    A resumed simulation is checked against the configuration the earlier run
    recorded.  The streams the kernel declares live in a hash map, whose order is
    not specified: the check, its verdict and its message do not depend on it. *)

(** ** Sorting *)

Definition listed_le (x y : Z * string) : Prop := kcmp x y <> Gt.

Lemma listed_lt_le x y : listed_le x y <-> x = y \/ kcmp x y = Lt.
Proof.
  unfold listed_le. destruct (kcmp x y) eqn:E; split; intros H; try done; auto; [apply kcmp_eq in E; by left|]. destruct H as [->|]; [by rewrite kcmp_refl in E|done].
Qed.

#[export] Instance listed_trans : Transitive listed_le.
Proof.
  intros x y z. rewrite !listed_lt_le. intros [->|H1] [->|H2]; auto. right. by eapply kcmp_trans.
Qed.

#[export] Instance listed_antisymm : AntiSymm (=) listed_le.
Proof.
  intros x y Hx Hy. unfold listed_le in *. destruct (kcmp x y) eqn:E; [by apply kcmp_eq| |done]. rewrite kcmp_antisym, E in Hy. done.
Qed.

Lemma insert_listed_perm x l : insert_listed x l ≡ₚ x :: l.
Proof. induction l as [|y l IH]; [done|]. cbn [insert_listed]. destruct (kcmp x y); [done|done|]. rewrite IH. constructor. Qed.

Lemma insert_listed_sorted x l : StronglySorted listed_le l -> StronglySorted listed_le (insert_listed x l).
Proof.
  induction l as [|y l IH]; intros Hs; [by repeat constructor|]. cbn [insert_listed]. pose proof Hs as Hs0. apply StronglySorted_inv in Hs as [Hs Hy].
  destruct (kcmp x y) eqn:E.
  1, 2: constructor; [done|]; constructor; [unfold listed_le; by rewrite E|]; eapply Forall_impl; [exact Hy|]; intros z Hz; apply (listed_trans x y z); [unfold listed_le; by rewrite E|done].
  constructor; [by apply IH|]. rewrite insert_listed_perm. constructor; [|done]. unfold listed_le. by rewrite kcmp_antisym, E.
Qed.

Lemma sort_listed_perm l : sort_listed l ≡ₚ l.
Proof. induction l as [|x l IH]; [done|]. cbn [sort_listed fold_right]. by rewrite insert_listed_perm, IH. Qed.

Lemma sort_listed_sorted l : StronglySorted listed_le (sort_listed l).
Proof. induction l as [|x l IH]; [constructor|]. by apply insert_listed_sorted. Qed.

Lemma sort_listed_order l l' : l ≡ₚ l' -> sort_listed l = sort_listed l'.
Proof.
  intros Hp. apply (StronglySorted_unique listed_le); [apply sort_listed_sorted..|]. by rewrite !sort_listed_perm.
Qed.

(** ** The check *)

Definition recorded (resumed : list string) (x : Z * string) : Prop := x.2 ∈ resumed.

#[export] Instance recorded_dec resumed x : Decision (recorded resumed x).
Proof. unfold recorded. apply _. Defined.

Lemma is_unbound_spec resumed x : is_unbound resumed x = false <-> recorded resumed x.
Proof.
  unfold is_unbound, recorded. rewrite negb_false_iff, List.existsb_exists, list_elem_of_In. split.
  - intros (s & Hs & E). apply String.eqb_eq in E as ->. done.
  - intros H. exists x.2. split; [done|]. apply String.eqb_refl.
Qed.

(** The streams that are missing, in the order of their indices and names. *)
Definition missing (declared : list (Z * string)) (resumed : list string) : list (Z * string) := sort_listed (List.filter (is_unbound resumed) declared).

Lemma filter_perm (f : Z * string -> bool) l l' : l ≡ₚ l' -> List.filter f l ≡ₚ List.filter f l'.
Proof. induction 1 as [|x l l' _ IH|x y l|l1 l2 l3 _ IH1 _ IH2]; cbn; [done|destruct (f x); [by constructor|done]|destruct (f x), (f y); (done || constructor)|by rewrite IH1]. Qed.

Lemma missing_spec declared resumed : StronglySorted listed_le (missing declared resumed) /\ forall x, x ∈ missing declared resumed <-> x ∈ declared /\ ~ recorded resumed x.
Proof.
  split; [apply sort_listed_sorted|]. intros x. unfold missing. rewrite sort_listed_perm, !list_elem_of_In, List.filter_In, <- is_unbound_spec.
  split; intros [H1 H2]; (split; [done|]); [by rewrite H2|by apply not_false_is_true].
Qed.

Lemma listing_sorted l : sorted_stream_arg_listing (sort_listed l) = sorted_stream_arg_listing l.
Proof. unfold sorted_stream_arg_listing. by rewrite (sort_listed_order (sort_listed l) l) by apply sort_listed_perm. Qed.

Lemma validate_missing walked resumed : validate_resume_stream_bindings walked resumed = match missing walked resumed with [] => Ok tt | unbound => Err (resume_error unbound) end.
Proof.
  unfold validate_resume_stream_bindings, missing. destruct (List.filter _ walked) as [|x l]; [done|].
  destruct (sort_listed (x :: l)) eqn:E; [|by unfold resume_error; rewrite <- E, listing_sorted].
  pose proof (sort_listed_perm (x :: l)) as Hp. rewrite E in Hp. by apply Permutation_nil_cons in Hp.
Qed.

(** C21: a simulation is resumed exactly when every stream the kernel declares was
    recorded; otherwise the error lists the missing ones, all of them and in order; and
    neither depends on the order in which the hash map is walked. *)
Theorem resume_check_exact `{HashOrder} h declared resumed :
  let check := validate_resume_stream_bindings (hash_iter h declared) resumed in
  check = validate_resume_stream_bindings declared resumed /\
  (check = Ok tt <-> Forall (recorded resumed) declared) /\ (check <> Ok tt -> check = Err (resume_error (missing declared resumed))) /\
  StronglySorted listed_le (missing declared resumed) /\ (forall x, x ∈ missing declared resumed <-> x ∈ declared /\ ~ recorded resumed x).
Proof.
  cbv zeta. rewrite !validate_missing. assert (Em : missing (hash_iter h declared) resumed = missing declared resumed).
  { apply sort_listed_order, filter_perm, hash_iter_perm. }
  rewrite Em. pose proof (missing_spec declared resumed) as [Hs Hm]. split; [done|]. split; [|split; [|done]].
  - rewrite Forall_forall. destruct (missing declared resumed) as [|x l]; split; try done.
    + intros _ x Hx. apply dec_stable. intros Hn. by apply (not_elem_of_nil x), Hm.
    + intros Ha. destruct (proj1 (Hm x) (list_elem_of_here _ _)) as [Hd Hn]. by destruct Hn; apply Ha.
  - by destruct (missing declared resumed).
Qed.

Example resume_message : validate_resume_stream_bindings [(3, "c"); (1, "b"); (2, "a")] ["a"] =
  Err (ResumeStreamBinding ("kernel stream args with no entry in the resumed dpi_config.json: 'b' (arg index 1), 'c' (arg index 3)" +:+
    "; the resumed work directory is stale or was built for a different kernel — regenerate it with --cosim_setup_only before using --cosim_resume_from_post_sim")).
Proof. by vm_compute. Qed.
