(* ===== verification/CosimProps.v ===== *)
(** * What a co-simulation guarantees

    [alive] accounts for the simulators a history has spawned and not seen to
    end.  A device whose owner does not start a second simulation over a running
    one is followed by rule induction ([reach]): it knows the only simulator
    alive, host memory is written only when there is none, and waiting ends. *)

From S2P Require Import Prelude RustStd BTreeMap Shm CosimSpec Frt CosimContext Cosim.

Local Open Scope Z_scope.

Section props.
Context `{HE : Env} `{HO : HashOrder}.

(** ** Simulators alive *)

Definition without (c : Z) (l : list Z) : list Z := List.filter (fun x => negb (x =? c)) l.

(** A simulator is alive from its spawn until an exit status was seen, or until
    it was waited for ([wait] fails only for a process that is not there). *)
Definition account_event (h : history) (e : Event) (acc : list Z) : list Z :=
  match e with
  | Spawn r c t => match respond (Spawn r c t) h with inr pid => acc ++ [pid] | inl _ => acc end
  | TryWait c => match respond (TryWait c) h with inr (Some _) => without c acc | _ => acc end
  | Wait c => without c acc
  | _ => acc
  end.

Fixpoint alive_from (before : history) (acc : list Z) (h : history) : list Z :=
  match h with
  | [] => acc
  | e :: h => alive_from (before ++ [e]) (account_event before e acc) h
  end.

Definition alive (h : history) : list Z := alive_from [] [] h.

Lemma alive_from_app b acc h1 h2 : alive_from b acc (h1 ++ h2) = alive_from (b ++ h1) (alive_from b acc h1) h2.
Proof using Type.
  revert b acc. induction h1 as [|e h1 IH]; intros b acc; [by rewrite List.app_nil_r|]. cbn [app alive_from]. by rewrite IH, <- app_assoc.
Qed.

Lemma alive_event h e : alive (h ++ [e]) = account_event h e (alive h).
Proof using Type. unfold alive. by rewrite alive_from_app. Qed.

Definition is_process_event (e : Event) : bool := match e with Spawn _ _ _ | TryWait _ | Wait _ => true | _ => false end.

Lemma alive_quiet h t : Forall (fun e => is_process_event e = false) t -> alive (h ++ t) = alive h.
Proof using Type.
  induction t as [|e t IH] using rev_ind; [by rewrite List.app_nil_r|]. intros [Ht He]%Forall_app. apply Forall_cons in He as [He _].
  rewrite app_assoc, alive_event, IH by done. by destruct e.
Qed.

(** At most the simulator [c] is alive. *)
Definition only (c : Z) (h : history) : Prop := alive h = [] \/ alive h = [c].

Lemma without_sub x c l : l = [] \/ l = [c] -> without x l = [] \/ without x l = [c].
Proof using Type. intros [-> | ->]; cbn; [by left|]. destruct (c =? x); cbn; auto. Qed.

Lemma only_event c h e : (forall r g t, e <> Spawn r g t) -> only c h -> only c (h ++ [e]).
Proof using Type.
  unfold only. intros Hs H. rewrite alive_event. destruct e; try done; [by exfalso; eapply Hs|..]; cbn -[respond]; [|by apply without_sub].
  destruct (respond _ _) as [x|[x|]]; [done| |done]. by apply without_sub.
Qed.

Ltac only_tac := repeat (apply only_event; [done|]); done.

Lemma without_only c l : l = [] \/ l = [c] -> without c l = [].
Proof using Type. intros [-> | ->]; cbn; [done|]. by rewrite Z.eqb_refl. Qed.

(** ** Operations on processes *)

Lemma try_wait_spec {D} c (d : D) h r d' h' : try_wait c (d, h) = (r, (d', h')) -> only c h ->
  d' = d /\ h' = h ++ [TryWait c] /\ only c h' /\ r <> Panic /\ (forall s, r = Ok (Some s) -> alive h' = [] /\ respond (TryWait c) h = inr (Some s)).
Proof using Type.
  unfold try_wait, io_bind, ask, io_lift. cbn [fst snd]. intros H Ho. injection H as <- <- <-. split_and!; try done.
  - only_tac.
  - by destruct (respond _ _).
  - intros s. rewrite alive_event. cbn -[respond]. destruct (respond (TryWait c) h) as [e|x] eqn:E; [done|]. cbn. intros [= ->].
    split; [by apply without_only|done].
Qed.

Lemma signal_quiet {D} c sig : emits (fun _ : D => True) (fun e => is_process_event e = false) (io_ignore (signal_child_group c sig)).
Proof using Type.
  intros d h r d' h' _ E. split; [done|]. unfold io_ignore, signal_child_group, io_bind, ask, io_lift in E. cbn [fst snd] in E.
  exists [KillGroup c sig]. split; [|by repeat constructor]. destruct (respond _ _) as [[errno text]|]; [destruct (errno =? ESRCH)|]; by injection E.
Qed.

Lemma signal_spec {D} c sig (d : D) h : io_ignore (signal_child_group c sig) (d, h) = (Ok tt, (d, h ++ [KillGroup c sig])).
Proof using Type.
  unfold io_ignore, signal_child_group, io_bind, ask, io_lift. cbn [fst snd]. destruct (respond _ _) as [[errno text]|]; [destruct (errno =? ESRCH)|]; done.
Qed.

(** A failure of [try_wait] is the only one of termination. *)
Definition try_wait_failed (c : Z) (h h' : history) : Prop := exists t1 t2 e, h' = h ++ t1 ++ TryWait c :: t2 /\ respond (TryWait c) (h ++ t1) = inl e.

Lemma try_wait_failed_prefix c h t h' : try_wait_failed c (h ++ t) h' -> try_wait_failed c h h'.
Proof using Type. intros (t1 & t2 & e & -> & H). exists (t ++ t1), t2, e. by rewrite !app_assoc in *. Qed.

Lemma try_wait_err {D} c (d : D) h e d' h' : try_wait c (d, h) = (Err e, (d', h')) -> try_wait_failed c h h'.
Proof using Type.
  unfold try_wait, io_bind, ask, io_lift. cbn [fst snd]. intros H. destruct (respond (TryWait c) h) as [x|x] eqn:E; [|done]. injection H as _ _ <-.
  exists [], [], x. by rewrite !List.app_nil_r.
Qed.

Lemma grace_loop_spec {D} fuel c deadline (d : D) h r d' h' : grace_loop fuel c deadline (d, h) = (r, (d', h')) -> only c h ->
  d' = d /\ only c h' /\ (exists t, h' = h ++ t) /\ (r = Ok true -> alive h' = []) /\ (forall e, r = Err e -> try_wait_failed c h h').
Proof using Type.
  revert h. induction fuel as [|fuel IH]; intros h; cbn [grace_loop].
  { unfold io_lift. intros H Ho. injection H as <- <- <-. split_and!; try done. exists []. by rewrite List.app_nil_r. }
  unfold io_bind at 1. destruct (try_wait c (d, h)) as [w [d1 h1]] eqn:E. intros H Ho. pose proof E as E0. apply try_wait_spec in E as (-> & -> & Ho1 & Hn & Hs); [|done].
  destruct w as [[status|]|e|]; [| | |done].
  - unfold io_ret in H. injection H as <- <- <-. split_and!; try done; [by eexists|]. intros _. by eapply Hs.
  - unfold io_bind, ask in H. cbn [fst snd] in H. destruct (deadline <=? _).
    + unfold io_ret in H. injection H as <- <- <-. split_and!; try done; [only_tac|]. eexists. by rewrite <- app_assoc.
    + unfold tell in H. cbn [fst snd] in H. apply IH in H as (-> & Ho' & (t & Et) & Ht & He); [|only_tac]. rewrite <- !app_assoc in Et.
      split_and!; try done; [eexists; exact Et|]. intros e Hr. specialize (He _ Hr). by do 3 apply try_wait_failed_prefix in He.
  - injection H as <- <- <-. split_and!; try done; [by eexists|]. intros e' _. by eapply try_wait_err.
Qed.

Lemma terminate_spec {D} run (d : D) h r d' h' : terminate_running_simulation run (d, h) = (r, (d', h')) -> only (child run) h ->
  d' = d /\ only (child run) h' /\ (exists t, h' = h ++ KillGroup (child run) SIGINT :: t) /\ (r = Ok tt -> alive h' = []) /\ (forall e, r = Err e -> try_wait_failed (child run) h h').
Proof using Type.
  unfold terminate_running_simulation, io_bind at 1. rewrite signal_spec. unfold io_bind at 1, ask. cbn [fst snd]. intros H Ho. unfold io_bind at 1 in H.
  destruct (grace_loop _ _ _ _) as [w [d1 h1]] eqn:E. apply grace_loop_spec in E as (-> & Ho1 & (t & ->) & Ht & He); [|only_tac].
  rewrite <- !app_assoc in H, Ht, He, Ho1. cbn [app] in *. destruct w as [[]|e|].
  - unfold io_ret in H. injection H as <- <- <-. split_and!; try done; [by eexists|]. intros _. by apply Ht.
  - unfold io_bind in H. rewrite signal_spec in H. unfold ask, io_ret in H. cbn [fst snd] in H. injection H as <- <- <-. split_and!; try done.
    + only_tac.
    + eexists. rewrite <- !app_assoc. by cbn [app].
    + intros _. rewrite alive_event. cbn. apply without_only. only_tac.
  - injection H as <- <- <-. split_and!; try done; [by eexists|]. intros e' _. specialize (He _ eq_refl). by apply try_wait_failed_prefix in He.
  - injection H as <- <- <-. split_and!; try done. by eexists.
Qed.

(** ** The state of a simulation *)

(** The device knows the simulator that is alive, and since when. *)
Definition knows (s : SimulationState) (h : history) : Prop :=
  match s with
  | Running run => only (child run) h /\ exists h0 t, h = h0 ++ t /\ started_at run = respond Now h0
  | _ => alive h = []
  end.

Definition sound (s : CosimDevice * history) : Prop := knows (cd_simulation_state s.1) s.2.

Lemma knows_quiet s h t : Forall (fun e => is_process_event e = false) t -> knows s h -> knows s (h ++ t).
Proof using Type.
  intros Ht. unfold knows. destruct s as [|run| |]; try by rewrite alive_quiet. unfold only. rewrite alive_quiet by done. intros [Ho (h0 & t0 & -> & Hs)]. split; [done|].
  exists h0, (t0 ++ t). by rewrite app_assoc.
Qed.

(** What stays the same while a simulation is followed: all but its state and time. *)
Definition frame (d d' : CosimDevice) : Prop :=
  cd_pending_buffers d' = cd_pending_buffers d /\ cd_arg_names d' = cd_arg_names d /\ cd_ctx d' = cd_ctx d /\ cd_readback_scheduled d' = cd_readback_scheduled d /\
  cd_timeout_seconds d' = cd_timeout_seconds d.

Lemma frame_refl d : frame d d. Proof using Type. done. Qed.
Lemma frame_trans d1 d2 d3 : frame d1 d2 -> frame d2 d3 -> frame d1 d3.
Proof using Type. unfold frame. naive_solver congruence. Qed.

Lemma complete_spec error d h r d' h' : complete_simulation error (d, h) = (r, (d', h')) ->
  r = Ok tt /\ cd_simulation_state d' = Finished error /\ frame d d' /\ exists t, h' = h ++ t /\ Forall (fun e => e = Now) t.
Proof using Type.
  unfold complete_simulation, io_bind at 1, io_get. cbn [fst]. intros H.
  assert (Hother : io_bind (io_ret tt) (fun _ => io_modify (cd_set_state (Finished error))) (d, h) = (r, (d', h')) ->
    r = Ok tt /\ cd_simulation_state d' = Finished error /\ frame d d' /\ exists t, h' = h ++ t /\ Forall (fun e => e = Now) t).
  { unfold io_bind, io_ret, io_modify. cbn [fst snd]. intros [= <- <- <-]. split_and!; try done. exists []. by rewrite List.app_nil_r. }
  destruct (cd_simulation_state d) as [|run| |]; [by apply Hother| |by apply Hother..].
  unfold elapsed_ns, io_bind, ask, io_ret, io_modify in H. cbn [fst snd] in H. injection H as <- <- <-. split_and!; try done. exists [Now]. by repeat constructor.
Qed.

Lemma now_quiet t : Forall (fun e => e = Now) t -> Forall (fun e => is_process_event e = false) t.
Proof using Type. intros H. eapply Forall_impl; [exact H|]. by intros e ->. Qed.

(** How a poll ends.  [poll_simulation_spec] is all that is used of it. *)
Record polled (d : CosimDevice) (h : history) (r : res FrtError bool) (d' : CosimDevice) (h' : history) : Prop := {
  pl_frame : frame d d';
  pl_grows : exists t, h' = h ++ t;
  pl_sound : sound (d', h');
  pl_true : r = Ok true -> exists e, cd_simulation_state d' = Finished e;
  pl_other : r <> Ok true -> d' = d;
  pl_error : forall e, r = Err e -> exists run, cd_simulation_state d = Running run /\ try_wait_failed (child run) h h';
}.

Lemma polled_still d h b : sound (d, h) -> (b = true -> exists e, cd_simulation_state d = Finished e) -> polled d h (Ok b) d h.
Proof using Type. intros Hs Hb. split; try done; [exists []; by rewrite List.app_nil_r|]. intros [= ->]. by apply Hb. Qed.

Lemma polled_complete error d h t d' h' : alive (h ++ t) = [] -> complete_simulation error (d, h ++ t) = (Ok tt, (d', h')) -> polled d h (Ok true) d' h'.
Proof using Type.
  intros Ha H. apply complete_spec in H as (_ & Hst & Hf & u & -> & Hu). split; try done.
  - exists (t ++ u). by rewrite app_assoc.
  - unfold sound. cbn [fst snd]. rewrite Hst. apply (knows_quiet (Finished error)); [by apply now_quiet|done].
  - intros _. by exists error.
Qed.

Lemma complete_ok error d h : exists s, complete_simulation error (d, h) = (Ok tt, s).
Proof using Type. destruct (complete_simulation error (d, h)) as [r [d' h']] eqn:E. pose proof E as E'. apply complete_spec in E' as (-> & _). by exists (d', h'). Qed.

Lemma timed_out_spec timeout started d h : exists r t, timed_out timeout started (d, h) = (Ok r, (d, h ++ t)) /\ Forall (fun e => e = Now) t /\
  match timeout, r with
  | Some secs, Some late => late = secs /\ secs * NANOS <= Z.max 0 (respond Now h - started)
  | Some secs, None => Z.max 0 (respond Now h - started) < secs * NANOS
  | None, r => r = None
  end.
Proof using Type.
  unfold timed_out. destruct timeout as [secs|]; [|exists None, []; by rewrite List.app_nil_r].
  unfold io_bind, ask, io_ret. cbn [fst snd]. destruct (Z.leb_spec (secs * NANOS) (Z.max 0 (respond Now h - started))).
  - exists (Some secs), [Now]. by repeat constructor.
  - exists None, [Now]. by repeat constructor.
Qed.

Lemma poll_simulation_spec d h r d' h' : poll_simulation (d, h) = (r, (d', h')) -> sound (d, h) -> polled d h r d' h'.
Proof using Type.
  intros H Hs. unfold poll_simulation, io_bind at 1, io_get in H. cbn [fst] in H. unfold sound, knows in Hs. cbn [fst snd] in Hs.
  destruct (cd_simulation_state d) as [|run| |error] eqn:Ed; [| | |].
  - unfold io_ret in H. injection H as <- <- <-. apply polled_still; [unfold sound; cbn [fst snd]; by rewrite Ed|done].
  - destruct Hs as [Ho (h0 & t0 & Eh & Hst)]. unfold io_bind at 1 in H. destruct (try_wait (child run) (d, h)) as [w [d1 h1]] eqn:E.
    pose proof E as E0. apply try_wait_spec in E as (-> & -> & Ho1 & Hn & Hw); [|done].
    assert (Hkeep : forall t, only (child run) (h ++ t) -> sound (d, h ++ t)).
    { intros t Ht. unfold sound. cbn [fst snd]. rewrite Ed. split; [done|]. exists h0, (t0 ++ t). by rewrite Eh, app_assoc. }
    destruct w as [[status|]|e|]; [| | |done].
    + unfold io_bind in H. destruct (complete_ok (failure status) d (h ++ [TryWait (child run)])) as [[d2 h2] Ec]. rewrite Ec in H. unfold io_ret in H. injection H as <- <- <-.
      eapply polled_complete; [|exact Ec]. by eapply Hw.
    + unfold io_bind at 1 in H. destruct (timed_out_spec (cd_timeout_seconds d) (started_at run) d (h ++ [TryWait (child run)])) as (late & t & El & Ht & _). rewrite El in H.
      assert (Ho2 : only (child run) ((h ++ [TryWait (child run)]) ++ t)) by (unfold only; rewrite alive_quiet by (by apply now_quiet); exact Ho1).
      destruct late as [secs|]; [|unfold io_ret in H; injection H as <- <- <-; rewrite <- app_assoc in *; split; try done; [by eexists|by apply Hkeep]].
      unfold io_bind at 1 in H. destruct (terminate_running_simulation run _) as [w [d1 h1]] eqn:Et. pose proof (terminate_spec _ _ _ _ _ _ Et Ho2) as (-> & Ho3 & (t' & ->) & Ha & He).
      rewrite <- !app_assoc in *. destruct w as [[]|e|].
      * unfold io_bind in H. destruct (complete_ok (Some (CosimTimeout secs)) d (h ++ [TryWait (child run)] ++ t ++ KillGroup (child run) SIGINT :: t')) as [[d2 h2] Ec]. rewrite Ec in H. unfold io_ret in H. injection H as <- <- <-.
        eapply polled_complete; [|exact Ec]. by apply Ha.
      * injection H as <- <- <-. split; try done; [by eexists|by apply Hkeep|]. intros e' _. exists run. split; [done|]. specialize (He _ eq_refl).
        rewrite app_assoc in He. by do 2 apply try_wait_failed_prefix in He.
      * injection H as <- <- <-. split; try done; [by eexists|by apply Hkeep].
    + injection H as <- <- <-. split; try done; [by eexists|by apply Hkeep|]. intros e' _. exists run. split; [done|]. by eapply try_wait_err.
  - unfold io_bind in H. destruct (complete_ok None d h) as [[d2 h2] Ec]. rewrite Ec in H. unfold io_ret in H. injection H as <- <- <-.
    rewrite <- (List.app_nil_r h) in Ec. eapply polled_complete; [|exact Ec]. by rewrite List.app_nil_r.
  - unfold io_ret in H. injection H as <- <- <-. apply polled_still; [unfold sound; cbn [fst snd]; by rewrite Ed|]. intros _. by exists error.
Qed.

(** ** Waiting *)

Lemma wait_loop_spec fuel d h r d' h' : wait_loop fuel (d, h) = (r, (d', h')) -> sound (d, h) ->
  frame d d' /\ (exists t, h' = h ++ t) /\ sound (d', h') /\ (r = Ok tt -> exists e, cd_simulation_state d' = Finished e) /\ (r <> Ok tt -> cd_simulation_state d' = cd_simulation_state d).
Proof using Type.
  revert d h. induction fuel as [|fuel IH]; intros d h; cbn [wait_loop].
  { unfold io_lift. intros H Hs. injection H as <- <- <-. split_and!; try done. exists []. by rewrite List.app_nil_r. }
  unfold io_bind at 1. destruct (poll_simulation (d, h)) as [w [d1 h1]] eqn:E. intros H Hs. apply poll_simulation_spec in E as [Hf (t & ->) Hs1 Ht Hother _]; [|done].
  destruct w as [[]|e|].
  - unfold io_ret in H. injection H as <- <- <-. split_and!; try done; [by eexists|]. intros _. by apply Ht.
  - rewrite (Hother ltac:(done)) in *. unfold io_bind, tell in H. cbn [fst snd] in H. apply IH in H as (Hf' & (t' & ->) & Hs' & H1 & H2); [|by apply knows_quiet; [repeat constructor|]].
    split_and!; try done. eexists. by rewrite <- !app_assoc.
  - rewrite (Hother ltac:(done)) in *. injection H as <- <- <-. split_and!; try done; by eexists.
  - rewrite (Hother ltac:(done)) in *. injection H as <- <- <-. split_and!; try done; by eexists.
Qed.

Lemma wait_spec d h r d' h' : wait_simulation (d, h) = (r, (d', h')) -> sound (d, h) -> frame d d' /\ (exists t, h' = h ++ t) /\ sound (d', h') /\
  (r = Ok tt -> is_idle_or_resuming (cd_simulation_state d') = true \/ exists e, cd_simulation_state d' = Finished e) /\
  (r <> Ok tt -> cd_simulation_state d' = cd_simulation_state d /\ exists run, cd_simulation_state d = Running run).
Proof using Type.
  intros H Hs. unfold wait_simulation, io_bind at 1, io_get in H. cbn [fst] in H.
  assert (Hstill : (forall run, cd_simulation_state d <> Running run) -> io_ret tt (d, h) = (r, (d', h')) -> frame d d' /\ (exists t, h' = h ++ t) /\ sound (d', h') /\
    (r = Ok tt -> is_idle_or_resuming (cd_simulation_state d') = true \/ exists e, cd_simulation_state d' = Finished e) /\
    (r <> Ok tt -> cd_simulation_state d' = cd_simulation_state d /\ exists run, cd_simulation_state d = Running run)).
  { intros Hn [= <- <- <-]. split_and!; try done; [exists []; by rewrite List.app_nil_r|]. intros _. destruct (cd_simulation_state d) as [|run| |e]; auto; [by destruct (Hn run)|]. right. by exists e. }
  destruct (cd_simulation_state d) as [|run| |e] eqn:Ed; [by apply Hstill| |by apply Hstill..]. destruct (cd_timeout_seconds d) as [secs|] eqn:Et.
  - apply wait_loop_spec in H as (Hf & Hg & Hs' & H1 & H2); [|done]. split_and!; try done; [intros Hr; right; by apply H1|]. intros Hr. rewrite <- Ed. split; [by apply H2|]. by exists run.
  - unfold io_bind, wait, ask, io_lift in H. cbn [fst snd] in H. unfold io_bind in H. cbn [fst snd] in H. unfold sound, knows in Hs. cbn [fst snd] in Hs. rewrite Ed in Hs.
    destruct Hs as [Ho (h0 & t0 & Eh & Hst)]. assert (Ha : alive (h ++ [Wait (child run)]) = []) by (rewrite alive_event; by apply without_only).
    destruct (respond _ _) as [x|status].
    + cbn in H. injection H as <- <- <-. split_and!; try done; [by eexists| |intros _; split; [done|by exists run]]. unfold sound. cbn [fst snd]. rewrite Ed.
      split; [by left|]. exists h0, (t0 ++ [Wait (child run)]). by rewrite Eh, app_assoc.
    + cbn [of_sum map_err] in H. pose proof H as Hc. apply complete_spec in H as (-> & Hst' & Hf & u & -> & Hu). split_and!; try done.
      * exists ([Wait (child run)] ++ u). by rewrite app_assoc.
      * unfold sound. cbn [fst snd]. rewrite Hst'. apply (knows_quiet (Finished _)); [by apply now_quiet|done].
      * intros _. right. by eexists.
Qed.

(** ** Waiting ends *)

Section clock.
Context `{HM : !MonotonicClock}.

Lemma clock_since h0 t : respond Now h0 + slept t <= respond Now (h0 ++ t).
Proof using All. apply clock_advances. Qed.

(** After [k] rounds of the grace, [k] polls have been slept through. *)
Lemma grace_loop_ends {D} fuel k c h0 (d : D) seg : (fuel + k = grace_fuel)%nat -> Z.of_nat k * TERMINATE_POLL <= slept seg ->
  (k = 0%nat \/ (Z.of_nat k - 1) * TERMINATE_POLL < TERMINATE_GRACE) -> (grace_loop fuel c (respond Now h0 + TERMINATE_GRACE) (d, h0 ++ seg)).1 <> Panic.
Proof using All.
  revert k seg. induction fuel as [|fuel IH]; intros k seg Hk Hs Hlate.
  { exfalso. unfold grace_fuel, TERMINATE_GRACE, TERMINATE_POLL in *. change (5000000000 / 50000000) with 100 in Hk. lia. }
  cbn [grace_loop]. unfold io_bind at 1, try_wait, io_bind at 1, ask, io_lift. cbn [fst snd]. destruct (respond (TryWait c) _) as [e|[status|]]; [done|done|].
  cbn [of_sum map_err]. unfold io_bind, ask, tell. cbn [fst snd]. destruct (Z.leb_spec (respond Now h0 + TERMINATE_GRACE) (respond Now ((h0 ++ seg) ++ [TryWait c]))) as [Hl|Hl]; [done|].
  cbn [fst snd]. rewrite <- !app_assoc. apply (IH (S k)); [lia| |].
  - rewrite !slept_app. cbn. unfold TERMINATE_POLL in *. lia.
  - right. rewrite <- app_assoc in Hl. pose proof (clock_since h0 (seg ++ [TryWait c])) as Hc. rewrite slept_app in Hc. cbn in Hc. lia.
Qed.

Lemma terminate_ends {D} run (d : D) h : (terminate_running_simulation run (d, h)).1 <> Panic.
Proof using All.
  unfold terminate_running_simulation, io_bind at 1. rewrite signal_spec. unfold io_bind at 1, ask. cbn [fst snd]. unfold io_bind at 1.
  pose proof (grace_loop_ends grace_fuel 0 (child run) (h ++ [KillGroup (child run) SIGINT]) d [Now] ltac:(lia) ltac:(done) ltac:(by left)) as Hg.
  destruct (grace_loop _ _ _ _) as [[[]|e|] [d1 h1]]; [done| |done|done]. unfold io_bind. rewrite signal_spec. done.
Qed.

(** A poll ends; one that goes on was made before the timeout. *)
Lemma poll_ends d h r d' h' : poll_simulation (d, h) = (r, (d', h')) -> sound (d, h) -> r <> Panic /\
  forall run secs, cd_simulation_state d = Running run -> cd_timeout_seconds d = Some secs -> r = Ok false ->
  h' = h ++ [TryWait (child run); Now] /\ respond Now (h ++ [TryWait (child run)]) - started_at run < secs * NANOS.
Proof using All.
  intros H Hs. unfold poll_simulation, io_bind at 1, io_get in H. cbn [fst] in H. unfold sound, knows in Hs. cbn [fst snd] in Hs.
  destruct (cd_simulation_state d) as [|run| |error] eqn:Ed.
  - unfold io_ret in H. injection H as <- <- <-. by split.
  - destruct Hs as [Ho _]. unfold io_bind at 1 in H. destruct (try_wait (child run) (d, h)) as [w [d1 h1]] eqn:E. apply try_wait_spec in E as (-> & -> & Ho1 & Hn & _); [|done].
    destruct w as [[status|]|e|]; [| |by injection H as <- <- <-|done].
    { unfold io_bind in H. destruct (complete_ok (failure status) d (h ++ [TryWait (child run)])) as [s Ec]. rewrite Ec in H. unfold io_ret in H. by simplify_eq. }
    unfold io_bind at 1 in H. unfold timed_out in H. destruct (cd_timeout_seconds d) as [secs|].
    + unfold io_bind at 1, ask, io_ret at 1 in H. cbn [fst snd] in H. destruct (Z.leb_spec (secs * NANOS) (Z.max 0 (respond Now (h ++ [TryWait (child run)]) - started_at run))) as [Hl|Hl].
      * split; [|intros ? ? _ _ ->]; unfold io_bind at 1 in H; pose proof (terminate_ends run d ((h ++ [TryWait (child run)]) ++ [Now])) as Ht;
        destruct (terminate_running_simulation run _) as [[[]|e|] [d1 h1]]; simplify_eq; try done;
        unfold io_bind in H; destruct (complete_ok (Some (CosimTimeout secs)) d1 h1) as [s Ec]; rewrite Ec in H; unfold io_ret in H; by simplify_eq.
      * unfold io_ret in H. injection H as <- <- <-. split; [done|]. intros ? ? [= <-] [= <-] _. rewrite <- app_assoc. split; [done|]. lia.
    + cbn in H. unfold io_ret in H. injection H as <- <- <-. split; [done|]. by intros.
  - unfold io_bind in H. destruct (complete_ok None d h) as [s Ec]. rewrite Ec in H. unfold io_ret in H. by simplify_eq.
  - unfold io_ret in H. injection H as <- <- <-. by split.
Qed.

(** After [k] rounds of waiting, [k] polls have been slept through. *)
Lemma cosim_wait_loop_ends fuel k d run secs h0 seg : sound (d, h0 ++ seg) -> cd_simulation_state d = Running run -> cd_timeout_seconds d = Some secs ->
  started_at run = respond Now h0 -> (fuel + k = wait_fuel secs)%nat -> Z.of_nat k * WAIT_POLL <= slept seg ->
  (k = 0%nat \/ (Z.of_nat k - 1) * WAIT_POLL < secs * NANOS) -> (wait_loop fuel (d, h0 ++ seg)).1 <> Panic.
Proof using All.
  revert k seg. induction fuel as [|fuel IH]; intros k seg Hs Hrun Hsecs Hstart Hk Hslept Hlate.
  { exfalso. unfold wait_fuel in Hk. assert (WAIT_POLL = 10000000) as Ep by done. pose proof (Z.div_mod (secs * NANOS) WAIT_POLL ltac:(done)) as Hd.
    pose proof (Z.mod_pos_bound (secs * NANOS) WAIT_POLL ltac:(done)) as Hm. destruct Hlate as [->|Hl]; [lia|]. nia. }
  cbn [wait_loop]. unfold io_bind at 1. destruct (poll_simulation (d, h0 ++ seg)) as [w [d1 h1]] eqn:E. pose proof E as Ep. apply poll_simulation_spec in E as [_ _ Hs1 _ Hother _]; [|done].
  apply poll_ends in Ep as [Hn Hearly]; [|done]. destruct w as [[]|e|]; [done| |done|done]. destruct (Hearly _ _ Hrun Hsecs eq_refl) as [-> Hl].
  rewrite (Hother ltac:(done)) in *. unfold io_bind, tell. cbn [fst snd]. rewrite <- !app_assoc. apply (IH (S k)); try done.
  - apply (knows_quiet _ _ [Sleep WAIT_POLL]) in Hs1; [|by repeat constructor]. cbn [fst snd] in Hs1. by rewrite <- !app_assoc in Hs1.
  - lia.
  - rewrite !slept_app. cbn. unfold WAIT_POLL in *. lia.
  - right. rewrite Hstart, <- app_assoc in Hl. pose proof (clock_since h0 (seg ++ [TryWait (child run)])) as Hc. rewrite slept_app in Hc. cbn in Hc. lia.
Qed.

Lemma wait_ends d h : sound (d, h) -> (wait_simulation (d, h)).1 <> Panic.
Proof using All.
  intros Hs. unfold wait_simulation, io_bind at 1, io_get. cbn [fst]. pose proof Hs as Hs0. unfold sound, knows in Hs0. cbn [fst snd] in Hs0.
  destruct (cd_simulation_state d) as [|run| |e] eqn:Ed; [done| |done..]. destruct (cd_timeout_seconds d) as [secs|] eqn:Et.
  - destruct Hs0 as [_ (h0 & t0 & -> & Hst)].
    pose proof (slept_nonneg t0). apply (cosim_wait_loop_ends _ 0 d run secs); [done..|lia|lia|by left].
  - unfold io_bind at 1, wait, io_bind at 1, ask, io_lift. cbn [fst snd]. destruct (respond _ _) as [x|status]; [done|]. cbn [of_sum map_err].
    pose proof (complete_ok (failure status) d (h ++ [Wait (child run)])) as [s E]. cbn [fst snd]. by replace (complete_simulation _ _) with (@Ok FrtError unit tt, s) by (symmetry; exact E).
Qed.
End clock.

(** ** What is written to host memory *)

(** A mapping yields as many bytes as were asked for. *)
Class MappedMemory : Prop := map_read_length : forall path n h, 0 <= n -> Z.of_nat (length (respond (MapRead path n) h)) = n.

Definition is_host_write (e : Event) : bool := match e with HostWrite _ _ => true | _ => false end.
Definition no_host_write (e : Event) : Prop := is_host_write e = false.

(** The bytes fit a buffer that is bound with an access that stores, and come from
    the segment of its argument. *)
Definition lands (d : CosimDevice) (ptr : Z) (data : list Z) : Prop := exists i b name seg,
  (i, b) ∈ cd_pending_buffers d /\ stores_to_host (bb_access b) = true /\ BMap.get i (cd_arg_names d) = Some name /\ BMap.get name (buffers (cd_ctx d)) = Some seg /\
  ptr = bb_ptr b /\ ptr <> 0 /\ 0 < Z.of_nat (length data) <= Z.min (bb_bytes b) (sg_len seg).

Definition copies (d : CosimDevice) (e : Event) : Prop :=
  is_process_event e = false /\ match e with HostWrite ptr data => lands d ptr data | _ => True end.

(** Every host write of [t], made after [h], is made while no simulator is alive,
    and lands. *)
Definition host_safe (d : CosimDevice) (h t : history) : Prop := forall t1 ptr data t2, t = t1 ++ HostWrite ptr data :: t2 -> alive (h ++ t1) = [] /\ lands d ptr data.

Lemma host_safe_quiet d h t : Forall no_host_write t -> host_safe d h t.
Proof using Type. intros Ht t1 ptr data t2 ->. apply Forall_app in Ht as [_ Ht]. by apply Forall_cons in Ht as [? _]. Qed.

Lemma host_safe_app d h ta tb : host_safe d h ta -> host_safe d (h ++ ta) tb -> host_safe d h (ta ++ tb).
Proof using Type.
  intros Ha Hb t1 ptr data t2 E. apply app_eq_app in E as (l & [[-> E]|[-> E]]).
  - destruct l as [|e l]; [|injection E as <- ->; by eapply Ha]. cbn in E. rewrite List.app_nil_r in *. destruct (Hb [] ptr data t2 (eq_sym E)) as [He Hl]. by rewrite List.app_nil_r in He.
  - rewrite app_assoc. by eapply Hb.
Qed.

Lemma host_safe_copies d h t : alive h = [] -> Forall (copies d) t -> host_safe d h t.
Proof using Type.
  intros Ha Ht t1 ptr data t2 ->. apply Forall_app in Ht as [H1 H2]. apply Forall_cons in H2 as [[_ Hl] _]. split; [|done].
  rewrite alive_quiet; [done|]. eapply Forall_impl; [exact H1|]. by intros e [He _].
Qed.

Lemma emits_ignore {D} (Q : Event -> Prop) c sig : Q (KillGroup c sig) -> emits (fun _ : D => True) Q (io_ignore (signal_child_group c sig)).
Proof using Type. intros HQ d h r d' h' _. rewrite signal_spec. intros [= <- <- <-]. split; [done|]. exists [KillGroup c sig]. by repeat constructor. Qed.

Lemma for_each_emits (Pre : CosimDevice -> Prop) Q flows transfer : (forall d x, Pre d -> x ∈ cd_pending_buffers d -> emits Pre Q (transfer_one flows transfer x)) ->
  emits Pre Q (for_each_transfer flows transfer).
Proof using Type.
  intros Hx d h r d' h' Hd E. unfold for_each_transfer in E. cbn [fst snd] in E.
  refine (emits_each Pre Q _ _ _ d h r d' h' Hd E). intros x Hin. apply (Hx d); [done|]. by rewrite hash_iter_perm in Hin.
Qed.

Section quiet.
Local Notation quietly m := (emits (fun _ => True) no_host_write m).

Lemma quiet_try_wait {D} c : quietly (try_wait (D:=D) c). Proof using Type. unfold try_wait. emits_tac. Qed.
Lemma quiet_elapsed {D} t : quietly (elapsed_ns (D:=D) t). Proof using Type. unfold elapsed_ns. emits_tac. Qed.
#[local] Hint Resolve quiet_try_wait quiet_elapsed : emits.

Lemma quiet_grace {D} fuel c deadline : quietly (grace_loop (D:=D) fuel c deadline).
Proof using Type. induction fuel as [|fuel IH]; [apply emits_lift|]. cbn [grace_loop]. emits_tac. Qed.
#[local] Hint Resolve quiet_grace : emits.

Lemma quiet_terminate {D} run : quietly (terminate_running_simulation (D:=D) run).
Proof using Type. unfold terminate_running_simulation. apply emits_bind; [by apply emits_ignore|]. emits_tac. by apply emits_ignore. Qed.
Lemma quiet_complete e : quietly (complete_simulation e). Proof using Type. unfold complete_simulation. emits_tac. Qed.
Lemma quiet_timed_out t s : quietly (timed_out t s). Proof using Type. unfold timed_out. emits_tac. Qed.
#[local] Hint Resolve quiet_terminate quiet_complete quiet_timed_out : emits.

Lemma quiet_poll : quietly poll_simulation. Proof using Type. unfold poll_simulation. emits_tac. Qed.
#[local] Hint Resolve quiet_poll : emits.

Lemma quiet_wait_loop fuel : quietly (wait_loop fuel).
Proof using Type. induction fuel as [|fuel IH]; [apply emits_lift|]. cbn [wait_loop]. emits_tac. Qed.
#[local] Hint Resolve quiet_wait_loop : emits.

Lemma quiet_wait : quietly wait_simulation.
Proof using Type. unfold wait_simulation, wait. emits_tac. Qed.

Lemma quiet_kill : quietly cosim_kill. Proof using Type. unfold cosim_kill. emits_tac. Qed.
Lemma quiet_exec : quietly cosim_exec. Proof using Type. unfold cosim_exec, of_error. emits_tac. Qed.
Lemma quiet_set_scalar i v : quietly (cosim_set_scalar_arg i v). Proof using Type. unfold cosim_set_scalar_arg. emits_tac. Qed.
Lemma quiet_set_stream i p : quietly (cosim_set_stream_arg i p). Proof using Type. unfold cosim_set_stream_arg. emits_tac. Qed.
Lemma quiet_set_buffer i p n a : quietly (cosim_set_buffer_arg i p n a).
Proof using Type. unfold cosim_set_buffer_arg, resize_buffer, segment_create, shm_path, of_error, segment_drop. emits_tac. Qed.

Lemma quiet_write : quietly cosim_write_to_device.
Proof using Type.
  unfold cosim_write_to_device. apply emits_bind; [by apply emits_ask|]. intros t. apply emits_bind; [|emits_tac].
  apply for_each_emits. intros d [i b] _ _. unfold transfer_one, load_segment. emits_tac.
Qed.
End quiet.

(** [copy_back_to_host] writes what lands, and nothing else. *)
Lemma declared_no_panic names i kind : declared_arg_name names i kind <> Panic.
Proof using Type. unfold declared_arg_name. by destruct (BMap.get i names). Qed.

Lemma copy_back_no_panic : no_panic copy_back_to_host.
Proof using Type.
  unfold copy_back_to_host. apply io_no_panic_bind; [done|]. intros t. apply io_no_panic_bind; [|intros u; unfold elapsed_ns; no_panic_tac].
  intros s. unfold for_each_transfer. apply no_panic_each. intros [i b]. unfold transfer_one, store_segment. no_panic_tac. apply declared_no_panic.
Qed.

Lemma store_emits `{!MappedMemory} d i b : (i, b) ∈ cd_pending_buffers d ->
  emits (fun d' => frame d d' /\ cd_simulation_state d' = cd_simulation_state d) (copies d) (transfer_one stores_to_host store_segment (i, b)).
Proof using Type.
  intros Hb. unfold transfer_one. destruct (stores_to_host (bb_access b)) eqn:Ea; [|apply emits_ret]. cbn [negb].
  destruct ((bb_ptr b =? 0) && negb (bb_bytes b =? 0)) eqn:Ep; [apply emits_lift|].
  apply emits_bind_get. intros d1 [(Hp & Hn & Hc & _) Hst]. rewrite Hn, Hc. apply emits_bind_lift. intros name [=Hname%ok_or_ok].
  destruct (BMap.get name _) as [seg|] eqn:Eg; [|apply emits_ret]. unfold store_segment. destruct (Z.ltb_spec 0 (Z.min (bb_bytes b) (sg_len seg))) as [Hl|Hl]; [|apply emits_ret].
  apply emits_bind_ask; [done|]. intros h. apply emits_tell. split; [done|]. exists i, b, name, seg. split_and!; try done; [|rewrite map_read_length; lia..].
  intros E0. rewrite E0 in Ep. cbn in Ep. destruct (Z.eqb_spec (bb_bytes b) 0); [lia|done].
Qed.

Lemma copy_back_spec `{!MappedMemory} d h r d' h' : copy_back_to_host (d, h) = (r, (d', h')) ->
  (frame d d' /\ cd_simulation_state d' = cd_simulation_state d) /\ exists t, h' = h ++ t /\ Forall (copies d) t.
Proof using Type.
  assert (He : emits (fun d' => frame d d' /\ cd_simulation_state d' = cd_simulation_state d) (copies d) copy_back_to_host); [|intros E; by apply He in E].
  unfold copy_back_to_host. apply emits_bind_ask; [done|]. intros h0. apply emits_bind; [|intros u; unfold elapsed_ns; emits_tac].
  apply for_each_emits. intros d1 [i b] [(Hp & _) _] Hin. rewrite Hp in Hin. by apply store_emits.
Qed.

(** ** Operations *)

Inductive CosimOp :=
| CallScalar (i : Z) (value : list Z)
| CallBuffer (i ptr bytes : Z) (access : BufferAccess)
| CallStream (i : Z) (path : string)
| CallWrite
| CallRead
| CallExec
| CallFinish
| CallKill
| CallPoll.

Definition run_call (c : CosimOp) : io CosimDevice unit :=
  match c with
  | CallScalar i v => cosim_set_scalar_arg i v
  | CallBuffer i ptr bytes access => cosim_set_buffer_arg i ptr bytes access
  | CallStream i path => cosim_set_stream_arg i path
  | CallWrite => cosim_write_to_device
  | CallRead => cosim_read_from_device
  | CallExec => cosim_exec
  | CallFinish => cosim_finish
  | CallKill => cosim_kill
  | CallPoll => do! _ := cosim_is_finished in io_ret tt
  end.

Definition is_running (s : SimulationState) : bool := match s with Running _ => true | _ => false end.

(** A second simulation is not started over a running one. *)
Definition allowed (c : CosimOp) (d : CosimDevice) : Prop := match c with CallExec => is_running (cd_simulation_state d) = false | _ => True end.

(** What a call does to a device it follows. *)
Record step_ok (d : CosimDevice) (h : history) (d' : CosimDevice) (h' : history) : Prop := {
  so_sound : sound (d', h');
  so_host : exists t, h' = h ++ t /\ host_safe d h t;
}.

(** A call that neither touches the simulation nor writes to the host. *)
Lemma quiet_step {A} (m : io CosimDevice A) d h r d' h' : m (d, h) = (r, (d', h')) ->
  emits (fun d' => cd_simulation_state d' = cd_simulation_state d) (fun e => is_process_event e = false /\ no_host_write e) m -> sound (d, h) -> step_ok d h d' h'.
Proof using Type.
  intros E Hm Hs. apply Hm in E as (Hst & t & -> & Ht); [|done]. split.
  - unfold sound in *. cbn [fst snd] in *. rewrite Hst. apply knows_quiet; [|done]. eapply Forall_impl; [exact Ht|]. by intros e [? _].
  - exists t. split; [done|]. apply host_safe_quiet. eapply Forall_impl; [exact Ht|]. by intros e [_ ?].
Qed.

Lemma for_each_load_quiet s0 : emits (fun d' => cd_simulation_state d' = s0) (fun e => is_process_event e = false /\ no_host_write e) (for_each_transfer loads_from_host load_segment).
Proof using Type. apply for_each_emits. intros d [i b] _ _. unfold transfer_one, load_segment. emits_tac. Qed.

Lemma data_step c d h r d' h' : match c with CallScalar _ _ | CallBuffer _ _ _ _ | CallStream _ _ | CallWrite => True | _ => False end ->
  run_call c (d, h) = (r, (d', h')) -> sound (d, h) -> step_ok d h d' h'.
Proof using Type.
  intros Hc E. eapply quiet_step; [exact E|]. destruct c; try done; cbn [run_call].
  - unfold cosim_set_scalar_arg. emits_tac.
  - unfold cosim_set_buffer_arg, resize_buffer, segment_create, shm_path, of_error, segment_drop. emits_tac.
  - unfold cosim_set_stream_arg. emits_tac.
  - unfold cosim_write_to_device, elapsed_ns. apply emits_bind_ask; [done|]. intros h0. apply emits_bind; [apply for_each_load_quiet|]. emits_tac.
Qed.

Lemma copy_step `{!MappedMemory} (after : CosimDevice -> CosimDevice) d h r d' h' : (forall d, cd_simulation_state (after d) = cd_simulation_state d) ->
  io_bind copy_back_to_host (fun _ => io_modify after) (d, h) = (r, (d', h')) -> sound (d, h) -> is_running (cd_simulation_state d) = false -> step_ok d h d' h'.
Proof using Type.
  intros Ha E Hs Hr. unfold io_bind in E. destruct (copy_back_to_host (d, h)) as [w [d1 h1]] eqn:Ec. apply copy_back_spec in Ec as ([Hf Hst] & t & -> & Ht).
  assert (Hal : alive h = []) by (unfold sound, knows in Hs; cbn in Hs; by destruct (cd_simulation_state d)).
  assert (Hd : cd_simulation_state d' = cd_simulation_state d /\ h' = h ++ t).
  { destruct w as [u|e|]; unfold io_modify in E; cbn [fst snd] in E; injection E as _ <- <-; by rewrite ?Ha. }
  destruct Hd as [Hd ->]. split.
  - unfold sound in *. cbn [fst snd] in *. rewrite Hd. apply knows_quiet; [|done]. eapply Forall_impl; [exact Ht|]. by intros e [? _].
  - exists t. split; [done|]. by apply host_safe_copies.
Qed.

Lemma step_same d h : sound (d, h) -> step_ok d h d h.
Proof using Type. intros Hs. split; [done|]. exists []. rewrite List.app_nil_r. split; [done|]. by apply host_safe_quiet. Qed.

Lemma lands_frame d d' ptr data : frame d d' -> lands d' ptr data -> lands d ptr data.
Proof using Type. intros (Hp & Hn & Hc & _). unfold lands. by rewrite Hp, Hn, Hc. Qed.

(** A call that first waits. *)
Lemma step_after d h d1 h1 d' h' t : h1 = h ++ t -> Forall no_host_write t -> frame d d1 -> step_ok d1 h1 d' h' -> step_ok d h d' h'.
Proof using Type.
  intros -> Ht Hf [Hs (t' & -> & Ht')]. split; [done|]. exists (t ++ t'). rewrite app_assoc. split; [done|]. apply host_safe_app; [by apply host_safe_quiet|].
  intros t1 ptr data t2 E. apply Ht' in E as [? ?]. split; [done|]. by eapply lands_frame.
Qed.

Lemma quiet_events {A} (m : io CosimDevice A) d h r d' h' : m (d, h) = (r, (d', h')) -> emits (fun _ => True) no_host_write m -> exists t, h' = h ++ t /\ Forall no_host_write t.
Proof using Type. intros E Hm. by apply Hm in E as [_ ?]. Qed.

Lemma quiet_step_ok {A} (m : io CosimDevice A) d h r d' h' : m (d, h) = (r, (d', h')) -> emits (fun _ => True) no_host_write m -> sound (d', h') -> step_ok d h d' h'.
Proof using Type. intros E Hm Hs. eapply quiet_events in E as (t & -> & Ht); [|done]. split; [done|]. exists t. split; [done|]. by apply host_safe_quiet. Qed.

Lemma exec_step d h r d' h' : cosim_exec (d, h) = (r, (d', h')) -> sound (d, h) -> is_running (cd_simulation_state d) = false -> step_ok d h d' h'.
Proof using Type.
  intros E Hs Hr. eapply quiet_step_ok; [exact E|apply quiet_exec|]. assert (Ha : alive h = []) by (unfold sound, knows in Hs; cbn in Hs; by destruct (cd_simulation_state d)).
  assert (Hkeep : forall t, Forall (fun e => is_process_event e = false) t -> sound (d, h ++ t)) by (intros t Ht; unfold sound in *; by apply knows_quiet).
  unfold cosim_exec, io_bind at 1, io_get in E. cbn [fst] in E. destruct (cd_resume_from_post_sim d).
  { unfold io_modify in E. cbn [fst snd] in E. by injection E as _ <- <-. }
  unfold io_bind at 1, ask in E. cbn [fst snd] in E. unfold of_error, io_bind at 1, io_lift in E. destruct (respond _ h) as [x|].
  { injection E as _ <- <-. apply Hkeep. by repeat constructor. }
  set (h1 := h ++ [Prepare _ _ _ _]) in E. assert (Ha1 : alive h1 = []) by (unfold h1; by rewrite alive_event). destruct (cd_setup_only d).
  - unfold io_bind, ask in E. cbn [fst snd] in E. destruct (respond _ h1) as [x|].
    + injection E as _ <- <-. unfold h1. rewrite <- app_assoc. apply Hkeep. by repeat constructor.
    + unfold io_modify in E. cbn [fst snd] in E. injection E as _ <- <-. unfold sound. cbn. by rewrite alive_event.
  - unfold io_bind, ask in E. cbn [fst snd] in E. destruct (respond _ h1) as [x|pid] eqn:Er; cbn [of_sum map_err] in E.
    + injection E as _ <- <-. unfold sound, knows. cbn [fst snd]. assert (Hal : alive (h1 ++ [Spawn (cd_runner d) (dpi_config (cd_ctx d)) (cd_tb_dir d)]) = []).
      { rewrite alive_event. cbn -[respond]. by rewrite Er. }
      by destruct (cd_simulation_state d).
    + unfold io_modify in E. cbn [fst snd] in E. injection E as _ <- <-. unfold sound. cbn [fst snd knows cd_simulation_state cd_set_state child started_at]. split.
      * right. rewrite !alive_event. cbn -[respond]. by rewrite Er, Ha1.
      * eexists _, [Now]. done.
Qed.

Lemma kill_step d h r d' h' : cosim_kill (d, h) = (r, (d', h')) -> sound (d, h) -> step_ok d h d' h' /\ (r = Ok tt -> exists e, cd_simulation_state d' = Finished e) /\
  (forall e, r = Err e -> exists run, cd_simulation_state d = Running run /\ try_wait_failed (child run) h h').
Proof using Type.
  intros E Hs. pose proof E as Eq. unfold cosim_kill, io_bind at 1, io_get in E. cbn [fst] in E. pose proof Hs as Hk. unfold sound, knows in Hk. cbn [fst snd] in Hk.
  assert (Hdone : forall t, alive (h ++ t) = [] -> complete_simulation None (d, h ++ t) = (r, (d', h')) -> step_ok d h d' h' /\ (r = Ok tt -> exists e, cd_simulation_state d' = Finished e) /\
    (forall e, r = Err e -> exists run, cd_simulation_state d = Running run /\ try_wait_failed (child run) h h')).
  { intros t Ha Ec. apply complete_spec in Ec as (-> & Hst & _ & u & -> & Hu). split_and!; [|by exists None|done]. eapply quiet_step_ok; [exact Eq|apply quiet_kill|].
    unfold sound. cbn [fst snd]. rewrite Hst. apply (knows_quiet (Finished None)); [by apply now_quiet|done]. }
  destruct (cd_simulation_state d) as [|run| |error] eqn:Ed.
  - apply (Hdone []); by rewrite List.app_nil_r.
  - destruct Hk as [Ho (h0 & t0 & Eh & Hst)]. unfold io_bind at 1 in E. destruct (terminate_running_simulation run (d, h)) as [w [d1 h1]] eqn:Et.
    apply terminate_spec in Et as (-> & Ho1 & (t & ->) & Ha & He); [|done].
    assert (Hs1 : sound (d, h ++ KillGroup (child run) SIGINT :: t)).
    { unfold sound. cbn [fst snd]. rewrite Ed. split; [done|]. exists h0, (t0 ++ KillGroup (child run) SIGINT :: t). by rewrite Eh, app_assoc. }
    destruct w as [[]|e|]; [apply (Hdone (KillGroup (child run) SIGINT :: t)); [by apply Ha|done]| |].
    + injection E as <- <- <-. split_and!; [by eapply quiet_step_ok; [exact Eq|apply quiet_kill|]|done|]. intros e' _. exists run. split; [done|]. by eapply He.
    + injection E as <- <- <-. split_and!; [by eapply quiet_step_ok; [exact Eq|apply quiet_kill|]|done|done].
  - apply (Hdone []); by rewrite List.app_nil_r.
  - unfold io_ret in E. injection E as <- <- <-. split_and!; [by apply step_same|by exists error|done].
Qed.

(** *** Finishing *)

Lemma take_error_spec d h x : cd_simulation_state d = Finished x -> exists d',
  take_error (d, h) = (match x with Some e => Err e | None => Ok tt end, (d', h)) /\ frame d d' /\ cd_simulation_state d' = Finished None.
Proof using Type.
  intros Ed. unfold take_error, io_bind at 1, io_get. cbn [fst]. rewrite Ed. destruct x as [e|]; [|by exists d].
  unfold io_bind, io_modify, io_lift. cbn [fst snd]. by eexists.
Qed.

(** [finish] once the simulation is over. *)
Definition finish_tail : io CosimDevice unit :=
  do! _ := take_error in
  do! d := io_get in
  if cd_readback_scheduled d then
    do! _ := copy_back_to_host in
    io_modify (cd_set_readback false)
  else io_ret tt.

Lemma finish_tail_spec `{!MappedMemory} x d h r d' h' : finish_tail (d, h) = (r, (d', h')) -> cd_simulation_state d = Finished x -> alive h = [] ->
  step_ok d h d' h' /\ r <> Panic /\ cd_simulation_state d' = Finished None /\ forall e, x = Some e -> r = Err e.
Proof using Type.
  intros E Ed Ha. destruct (take_error_spec d h x Ed) as (d1 & Et & Hf & Ed1). unfold finish_tail, io_bind at 1 in E. rewrite Et in E.
  assert (Hs1 : sound (d1, h)) by (unfold sound; cbn [fst snd]; by rewrite Ed1).
  assert (Hstep : forall d' h', step_ok d1 h d' h' -> step_ok d h d' h') by (intros; eapply (step_after d h d1 h _ _ []); [by rewrite List.app_nil_r|done..]).
  destruct x as [e|].
  { injection E as <- <- <-. split_and!; [by apply Hstep, step_same|done|done|]. by intros e' [= ->]. }
  unfold io_bind at 1, io_get in E. cbn [fst] in E. destruct (cd_readback_scheduled d1).
  - pose proof E as Ec. apply copy_step in Ec; [|done|done|by rewrite Ed1]. split_and!; [by apply Hstep| | |done].
    + intros ->. revert E. pose proof (io_no_panic_bind _ (fun _ => io_modify (cd_set_readback false)) copy_back_no_panic ltac:(done) (d1, h)) as Hn. intros E. by rewrite E in Hn.
    + unfold io_bind in E. destruct (copy_back_to_host (d1, h)) as [w [d2 h2]] eqn:Ew. apply copy_back_spec in Ew as ([_ Hst] & _). rewrite Ed1 in Hst.
      destruct w as [u|e|]; unfold io_modify in E; cbn [fst snd] in E; by injection E as _ <- _.
  - unfold io_ret in E. injection E as <- <- <-. split_and!; [by apply Hstep, step_same|done..].
Qed.

(** The first steps of [finish], until the simulation is over. *)
Lemma finish_unfold d h : cosim_finish (d, h) = io_bind (io_bind wait_simulation (fun _ => io_bind io_get (fun d =>
  if is_idle_or_resuming (cd_simulation_state d) then complete_simulation None else io_ret tt))) (fun _ => finish_tail) (d, h).
Proof using Type.
  by rewrite io_bind_assoc.
Qed.

(** How the simulation ended: with an error when [finish] found one. *)
Lemma finish_wait d h r d' h' : io_bind wait_simulation (fun _ => io_bind io_get (fun d =>
  if is_idle_or_resuming (cd_simulation_state d) then complete_simulation None else io_ret tt)) (d, h) = (r, (d', h')) -> sound (d, h) ->
  sound (d', h') /\ frame d d' /\ (exists t, h' = h ++ t /\ Forall no_host_write t) /\ (r = Ok tt -> exists x, cd_simulation_state d' = Finished x) /\
  (r <> Ok tt -> wait_simulation (d, h) = (r, (d', h')) /\ is_running (cd_simulation_state d') = true).
Proof using Type.
  intros E Hs. unfold io_bind at 1 in E. destruct (wait_simulation (d, h)) as [w [d1 h1]] eqn:Ew. pose proof Ew as Eq.
  apply wait_spec in Ew as (Hf & _ & Hs1 & Hok & Herr); [|done]. destruct (quiet_events _ _ _ _ _ _ Eq quiet_wait) as (t & Et & Ht).
  destruct w as [[]|e|]; [|injection E as <- <- <-; split_and!; try done; [by exists t|intros _; by destruct (Herr ltac:(done)) as (-> & run & ->)]..].
  unfold io_bind, io_get in E. cbn [fst] in E. destruct (is_idle_or_resuming (cd_simulation_state d1)) eqn:Ei.
  - apply complete_spec in E as (-> & Hst & Hf' & u & -> & Hu). split_and!; [|by eapply frame_trans| |by exists None|done].
    + unfold sound. cbn [fst snd]. rewrite Hst. apply (knows_quiet (Finished None)); [by apply now_quiet|]. unfold sound, knows in Hs1. cbn [fst snd] in Hs1. by destruct (cd_simulation_state d1).
    + exists (t ++ u). rewrite Et, <- app_assoc. split; [done|]. apply Forall_app. split; [done|]. eapply Forall_impl; [exact Hu|]. by intros e ->.
  - unfold io_ret in E. injection E as <- <- <-. split_and!; try done; [by exists t|]. intros _. destruct (Hok eq_refl) as [Hx|Hx]; [congruence|done].
Qed.

Lemma finish_step `{!MappedMemory} d h r d' h' : cosim_finish (d, h) = (r, (d', h')) -> sound (d, h) -> step_ok d h d' h' /\
  ((r <> Panic /\ cd_simulation_state d' = Finished None) \/ (r <> Ok tt /\ wait_simulation (d, h) = (r, (d', h')) /\ is_running (cd_simulation_state d') = true)).
Proof using Type.
  intros E Hs. rewrite finish_unfold in E. unfold io_bind at 1 in E. destruct (io_bind wait_simulation _ (d, h)) as [w [d1 h1]] eqn:Ew.
  apply finish_wait in Ew as (Hs1 & Hf & (t & Et & Ht) & Hok & Herr); [|done].
  assert (Hquiet : step_ok d h d1 h1) by (split; [done|exists t; split; [done|by apply host_safe_quiet]]).
  destruct w as [[]|e|].
  - destruct (Hok eq_refl) as [x Hx]. apply (finish_tail_spec x) in E as (Hstep & Hn & Hst & _); [|done|unfold sound in Hs1; cbn in Hs1; by rewrite Hx in Hs1].
    split; [by eapply step_after|]. by left.
  - injection E as <- <- <-. split; [done|]. right. destruct (Herr ltac:(done)) as [? ?]. by split_and!.
  - injection E as <- <- <-. split; [done|]. right. destruct (Herr ltac:(done)) as [? ?]. by split_and!.
Qed.

(** *** What can go wrong while waiting *)

(** The process could not be asked, or waited for. *)
Definition wait_failed (c : Z) (h h' : history) : Prop := try_wait_failed c h h' \/ exists e, h' = h ++ [Wait c] /\ respond (Wait c) h = inl e.

Lemma wait_loop_err fuel d h e d' h' run : wait_loop fuel (d, h) = (Err e, (d', h')) -> sound (d, h) -> cd_simulation_state d = Running run -> try_wait_failed (child run) h h'.
Proof using Type.
  revert h. induction fuel as [|fuel IH]; intros h; cbn [wait_loop]; [done|]. unfold io_bind at 1. destruct (poll_simulation (d, h)) as [w [d1 h1]] eqn:E.
  intros H Hs Hr. apply poll_simulation_spec in E as [_ (t & ->) Hs1 _ Hother Herr]; [|done]. destruct w as [[]|x|]; [done| | |done].
  - rewrite (Hother ltac:(done)) in *. unfold io_bind, tell in H. cbn [fst snd] in H. apply IH in H; [|by apply knows_quiet; [repeat constructor|]|done].
    by do 2 apply try_wait_failed_prefix in H.
  - injection H as _ _ <-. destruct (Herr _ eq_refl) as (run' & Hr' & Hf). rewrite Hr in Hr'. by injection Hr' as ->.
Qed.

Lemma wait_err d h e d' h' : wait_simulation (d, h) = (Err e, (d', h')) -> sound (d, h) -> exists run, cd_simulation_state d = Running run /\ wait_failed (child run) h h'.
Proof using Type.
  intros H Hs. unfold wait_simulation, io_bind at 1, io_get in H. cbn [fst] in H.
  destruct (cd_simulation_state d) as [|run| |x] eqn:Ed; try done. exists run. split; [done|]. destruct (cd_timeout_seconds d) as [secs|].
  - left. by eapply wait_loop_err.
  - right. unfold io_bind, wait, ask, io_lift in H. cbn [fst snd] in H. unfold io_bind in H. cbn [fst snd] in H. destruct (respond (Wait (child run)) h) as [x|status] eqn:Er.
    + cbn in H. injection H as _ _ <-. by exists x.
    + cbn [of_sum map_err] in H. by apply complete_spec in H as (? & _).
Qed.

(** *** What may block

    Only [Wait] blocks until a process exits.  A simulation with a timeout is polled,
    and waited for only after its process group was killed. *)

Definition reaps (t : history) : Prop := forall t1 c t2, t = t1 ++ Wait c :: t2 -> KillGroup c SIGKILL ∈ t1.
Definition is_wait (e : Event) : bool := match e with Wait _ => true | _ => false end.
Definition reaping {D A} (m : io D A) : Prop := forall s, exists t, (m s).2.2 = s.2 ++ t /\ reaps t.

Lemma reaps_app ta tb : reaps ta -> reaps tb -> reaps (ta ++ tb).
Proof using Type.
  intros Ha Hb t1 c t2 E. apply app_eq_app in E as (l & [[-> E]|[-> E]]).
  - destruct l as [|e l]; [cbn in E; specialize (Hb [] c t2 (eq_sym E)); by apply not_elem_of_nil in Hb|].
    injection E as <- ->. by eapply Ha.
  - apply elem_of_app. right. by eapply Hb.
Qed.

Lemma reaps_none t : Forall (fun e => is_wait e = false) t -> reaps t.
Proof using Type. intros Ht t1 c t2 ->. apply Forall_app in Ht as [_ Ht]. by apply Forall_cons in Ht as [? _]. Qed.

Lemma reaping_emits {D A} (m : io D A) : emits (fun _ => True) (fun e => is_wait e = false) m -> reaping m.
Proof using Type. intros Hm [d h]. destruct (m (d, h)) as [r [d' h']] eqn:E. apply Hm in E as [_ (t & -> & Ht)]; [|done]. exists t. split; [done|]. by apply reaps_none. Qed.

Lemma reaping_get {D} : reaping (io_get (D:=D)).
Proof using Type. intros [d h]. exists []. rewrite List.app_nil_r. split; [done|]. by apply reaps_none. Qed.

Lemma reaping_bind {D A B} (m : io D A) (k : A -> io D B) : reaping m -> (forall a, reaping (k a)) -> reaping (io_bind m k).
Proof using Type.
  intros Hm Hk s. unfold io_bind. destruct (Hm s) as (t & Et & Ht). destruct (m s) as [[a|e|] s1]; [|by exists t..].
  destruct (Hk a s1) as (u & Eu & Hu). exists (t ++ u). cbn [fst snd] in Et. rewrite Eu, Et, <- app_assoc. split; [done|]. by apply reaps_app.
Qed.

Lemma reaping_terminate {D} run : reaping (terminate_running_simulation (D:=D) run).
Proof using Type.
  unfold terminate_running_simulation.
  assert (Hsig : forall c sig, reaping (io_ignore (signal_child_group (D:=D) c sig))).
  { intros c sig [d h]. rewrite signal_spec. exists [KillGroup c sig]. split; [done|]. apply reaps_none. by repeat constructor. }
  apply reaping_bind; [apply Hsig|]. intros _. apply reaping_bind; [apply reaping_emits; emits_tac|]. intros now. apply reaping_bind.
  { apply reaping_emits. generalize grace_fuel as fuel. induction fuel as [|fuel IH]; [apply emits_lift|]. cbn [grace_loop]. unfold try_wait. emits_tac. }
  intros [|]; [apply reaping_emits; emits_tac|]. intros [d h]. unfold io_bind at 1. rewrite signal_spec. unfold io_bind, ask, io_ret. cbn [fst snd].
  exists [KillGroup (child run) SIGKILL; Wait (child run)]. split; [by rewrite <- app_assoc|].
  intros [|e t1] c t2 E; [discriminate E|]. destruct t1 as [|e' t1]; [injection E as <- <- _; by left|]. by destruct t1.
Qed.

Lemma reaping_poll : reaping poll_simulation.
Proof using Type.
  unfold poll_simulation. assert (Hc : forall e, reaping (complete_simulation e)) by (intros e; apply reaping_emits; unfold complete_simulation, elapsed_ns; emits_tac).
  assert (Hb : forall b : bool, reaping (io_ret (D:=CosimDevice) b)) by (intros b; apply reaping_emits; emits_tac).
  apply reaping_bind; [apply reaping_get|]. intros d. destruct (cd_simulation_state d) as [|run| |x]; [apply Hb| | |apply Hb].
  - apply reaping_bind; [apply reaping_emits; unfold try_wait; emits_tac|]. intros [status|].
    + apply reaping_bind; [apply Hc|]. intros _. apply Hb.
    + apply reaping_bind; [apply reaping_emits; unfold timed_out; emits_tac|]. intros [secs|]; [|apply Hb].
      apply reaping_bind; [apply reaping_terminate|]. intros _. apply reaping_bind; [apply Hc|]. intros _. apply Hb.
  - apply reaping_bind; [apply Hc|]. intros _. apply Hb.
Qed.

Lemma reaping_wait_loop fuel : reaping (wait_loop fuel).
Proof using Type.
  induction fuel as [|fuel IH]; [apply reaping_emits; emits_tac|]. cbn [wait_loop]. apply reaping_bind; [apply reaping_poll|].
  intros [|]; [apply reaping_emits; emits_tac|]. apply reaping_bind; [apply reaping_emits; emits_tac|]. intros _. exact IH.
Qed.

Lemma reaping_copy_back `{!MappedMemory} : reaping copy_back_to_host.
Proof using Type.
  intros [d h]. destruct (copy_back_to_host (d, h)) as [r [d' h']] eqn:E. apply copy_back_spec in E as (_ & t & -> & Ht). exists t. split; [done|].
  apply reaps_none. eapply Forall_impl; [exact Ht|]. intros e [He _]. by destruct e.
Qed.

Lemma reaping_finish_tail `{!MappedMemory} : reaping finish_tail.
Proof using Type.
  unfold finish_tail. apply reaping_bind; [apply reaping_emits; unfold take_error; emits_tac|]. intros _.
  apply reaping_bind; [apply reaping_get|]. intros d. destruct (cd_readback_scheduled d); [|apply reaping_emits; emits_tac].
  apply reaping_bind; [apply reaping_copy_back|]. intros _. apply reaping_emits. emits_tac.
Qed.

(** With a timeout, or when nothing runs, [finish] does not block. *)
Lemma finish_reaps `{!MappedMemory} d h : cd_timeout_seconds d <> None \/ is_running (cd_simulation_state d) = false ->
  exists t, (cosim_finish (d, h)).2.2 = h ++ t /\ reaps t.
Proof using Type.
  intros Hq. set (wait := match cd_simulation_state d, cd_timeout_seconds d with Running _, Some secs => wait_loop (wait_fuel secs) | _, _ => io_ret tt end).
  assert (Hw : wait_simulation (d, h) = wait (d, h)).
  { unfold wait, wait_simulation, io_bind, io_get. cbn [fst]. destruct (cd_simulation_state d), (cd_timeout_seconds d); try done. by destruct Hq. }
  assert (Hr : reaping wait).
  { unfold wait. destruct (cd_simulation_state d) as [|run| |x]; [apply reaping_emits; emits_tac| |apply reaping_emits; emits_tac..].
    destruct (cd_timeout_seconds d); [apply reaping_wait_loop|apply reaping_emits; emits_tac]. }
  set (rest := fun _ : unit => io_bind io_get (fun d => if is_idle_or_resuming (cd_simulation_state d) then complete_simulation None else io_ret tt)).
  assert (Hm : reaping (io_bind (io_bind wait rest) (fun _ => finish_tail))).
  { apply reaping_bind; [|intros _; apply reaping_finish_tail]. apply reaping_bind; [exact Hr|]. intros u. apply reaping_emits.
    unfold rest, complete_simulation, elapsed_ns. emits_tac. }
  destruct (Hm (d, h)) as (t & Et & Ht). exists t. split; [|done]. etrans; [|exact Et]. rewrite finish_unfold. unfold io_bind. by rewrite Hw.
Qed.

(** ** The owner's view *)

Section reach.
Context `{HT : CosimText} (path : string) (sim : Simulator).

(** The devices of an owner that opened one, and then made calls that are allowed. *)
Inductive reach : CosimDevice * history -> Prop :=
| reach_open d h : cosim_open path sim (tt, []) = (Ok d, (tt, h)) -> reach (d, h)
| reach_call s c : reach s -> allowed c s.1 -> reach (run_call c s).2.

Definition no_process (e : Event) : Prop := is_process_event e = false.

Lemma emits_or_drop {A} Pre ctx (m : io unit A) : emits Pre no_process m -> emits Pre no_process (or_drop ctx m).
Proof using Type.
  intros Hm d h r d' h' Hd E. unfold or_drop in E. destruct (m (d, h)) as [[a|e|] [d1 h1]] eqn:E1; apply Hm in E1 as (Hd1 & t & -> & Ht); try done.
  - injection E as _ <- <-. split; [done|]. by exists t.
  - destruct (context_drop ctx _) as [u [d2 h2]] eqn:E2. injection E as _ <- <-.
    assert (Hc : emits Pre no_process (context_drop ctx)) by (unfold context_drop; apply emits_each; intros s _; unfold segment_drop; emits_tac).
    apply Hc in E2 as (Hd2 & t' & -> & Ht'); [|done]. split; [done|]. exists (t ++ t'). rewrite app_assoc. split; [done|]. by apply Forall_app.
  - injection E as _ <- <-. split; [done|]. by exists t.
Qed.

Lemma emits_fold {A B} Pre Q (f : A -> B -> io unit A) acc l : (forall a x, emits Pre Q (f a x)) -> emits Pre Q (io_fold f acc l).
Proof using Type. intros Hf. revert acc. induction l as [|x l IH]; intros acc; [apply emits_ret|]. cbn [io_fold]. apply emits_bind; [apply Hf|]. intros a. apply IH. Qed.

#[local] Hint Resolve emits_or_drop emits_fold : emits.

Lemma open_quiet : emits (fun _ => True) no_process (cosim_open path sim).
Proof using Type.
  unfold cosim_open, runtime_options, env_bool, env_non_empty, make_tb_dir, of_error, resumed_context, context_new, open_from_config, make_runner. emits_tac.
  - apply emits_fold. intros c x. unfold open_arg, drop_option, segment_drop, segment_open. emits_tac. apply emits_or_drop. emits_tac.
  - apply emits_or_drop. apply emits_nothing. intros d0 h1 _. by eexists _, _.
  - apply emits_fold. intros [c k] x. unfold new_arg, drop_option, segment_drop, queue_create, segment_create, shm_path, of_error. emits_tac; apply emits_or_drop; emits_tac.
  - apply emits_or_drop. emits_tac.
Qed.

Lemma open_idle s d s' : cosim_open path sim s = (Ok d, s') -> cd_simulation_state d = Idle.
Proof using Type.
  unfold cosim_open. intros H. repeat (apply io_bind_ok in H as (? & ? & _ & H)). unfold io_ret in H. by injection H as <- _.
Qed.

Lemma reach_step `{!MappedMemory} s c : sound s -> allowed c s.1 -> step_ok s.1 s.2 (run_call c s).2.1 (run_call c s).2.2.
Proof using Type.
  destruct s as [d h]. cbn [fst snd]. intros Hs Ha. destruct (run_call c (d, h)) as [r [d' h']] eqn:E. cbn [fst snd]. destruct c; try (eapply data_step; [|exact E|exact Hs]; exact I).
  - cbn [run_call] in E. unfold cosim_read_from_device, io_bind at 1, io_get in E. cbn [fst] in E. destruct (awaits_simulation (cd_simulation_state d)) eqn:Ew.
    + unfold io_modify in E. cbn [fst snd] in E. injection E as _ <- <-. split; [done|]. exists []. rewrite List.app_nil_r. split; [done|]. by apply host_safe_quiet.
    + eapply (copy_step (cd_set_readback false)); [done|exact E|done|by destruct (cd_simulation_state d)].
  - by eapply exec_step.
  - by eapply finish_step in E as [? _].
  - by eapply kill_step in E as [? _].
  - cbn [run_call] in E. unfold cosim_is_finished, io_bind in E. destruct (poll_simulation (d, h)) as [w [d1 h1]] eqn:Ep. pose proof Ep as Eq.
    assert (Hd : d1 = d' /\ h1 = h') by (by destruct w; unfold io_ret in E; injection E as _ <- <-). destruct Hd as [-> ->].
    apply poll_simulation_spec in Ep as [_ _ Hs' _ _ _]; [|done]. by eapply quiet_step_ok; [exact Eq|apply quiet_poll|].
Qed.

Lemma reach_sound `{!MappedMemory} s : reach s -> sound s.
Proof using Type.
  induction 1 as [d h Ho|s c Hr IH Ha].
  - pose proof (open_idle _ _ _ Ho) as Hi. apply open_quiet in Ho as (_ & t & -> & Ht); [|done]. unfold sound. cbn [fst snd]. rewrite Hi. by apply (knows_quiet Idle []).
  - destruct (reach_step s c IH Ha) as [Hs _]. by destruct (run_call c s) as [r [d' h']].
Qed.

(** C17: a device whose owner does not start a second simulation over a running one
    knows every simulator that is alive; and whatever it is asked next, host memory is
    written only while none is, inside a buffer that is bound to be stored to and with
    no more bytes than its segment has. *)
Theorem host_writes_safe `{!MappedMemory} s c : reach s -> allowed c s.1 ->
  knows (cd_simulation_state s.1) s.2 /\ exists t, (run_call c s).2.2 = s.2 ++ t /\ host_safe s.1 s.2 t.
Proof using Type.
  intros Hr Ha. pose proof (reach_sound s Hr) as Hs. split; [done|]. by destruct (reach_step s c Hs Ha) as [_ ?].
Qed.

(** C18: finishing ends a simulation. For a device whose owner has opened it and made
    calls, none of them a second [exec] over a running simulation: [finish] does not
    panic, and either the simulation is over and no simulator is alive, or it was
    running and the process could not be asked or waited for, which is the error
    returned. With a timeout, or when nothing runs, it never blocks: the process is
    polled, and waited for only after its group was killed. Without a timeout a
    running simulator is waited for, so then [finish] lasts as long as the simulator. *)
Theorem finish_ends_simulation `{!MappedMemory} `{!MonotonicClock} s : reach s -> let '(r, s') := cosim_finish s in
  r <> Panic /\ ((cd_simulation_state s'.1 = Finished None /\ alive s'.2 = []) \/
    exists run, cd_simulation_state s.1 = Running run /\ is_ok r = false /\ wait_failed (child run) s.2 s'.2) /\
  (cd_timeout_seconds s.1 <> None \/ is_running (cd_simulation_state s.1) = false ->
    exists t, s'.2 = s.2 ++ t /\ forall t1 c t2, t = t1 ++ Wait c :: t2 -> KillGroup c SIGKILL ∈ t1).
Proof using Type.
  intros Hr. pose proof (reach_sound s Hr) as Hs. destruct s as [d h]. pose proof (finish_reaps d h) as Hb.
  destruct (cosim_finish (d, h)) as [r [d' h']] eqn:E. cbn [fst snd] in *.
  apply Logic.and_assoc. split; [|exact Hb]. clear Hb. apply finish_step in E as [[Hs' _] [[Hn Hst]|(Hn & Hw & _)]]; [| |done].
  - split; [done|]. left. split; [done|]. unfold sound in Hs'. cbn [fst snd] in Hs'. by rewrite Hst in Hs'.
  - pose proof (wait_ends d h Hs) as Hp. rewrite Hw in Hp. cbn [fst] in Hp. split; [done|]. right. destruct r as [[]|e|]; [done| |done].
    destruct (wait_err _ _ _ _ _ Hw Hs) as (run & Hrun & Hf). by exists run.
Qed.
End reach.
End props.
