(* ===== verification/Ffi.v ===== *)
(** * The C interface of the host runtime

    [frt/src/ffi.rs] over the [Device] trait of [frt/src/device.rs]: the handle a
    C caller holds, the error slot of its thread, and the calls.  [Device] is the
    interface the backends implement, and [DeviceSpec] what closing a handle
    relies on; [Cosim] implements it. *)

From S2P Require Import Prelude RustStd BTreeMap CosimSpec Frt.

Local Open Scope Z_scope.

(** ** The interface of a backend ([trait Device]) *)

Record HostStream := mkHostStream { hs_index : Z; hs_name : string; hs_kernel_reads : bool }.

Class Device (D : Type) := {
  host_streams : D -> list HostStream;
  set_scalar_arg : Z -> list Z -> io D unit;
  set_buffer_arg : Z -> Z -> Z -> BufferAccess -> io D unit;
  set_stream_arg : Z -> string -> io D unit;
  write_to_device : io D unit;
  read_from_device : io D unit;
  exec : io D unit;
  finish : io D unit;
  kill : io D unit;
  is_finished : io D bool;
  load_ns : D -> Z;
  compute_ns : D -> Z;
  store_ns : D -> Z;
  drop_device : io D unit;
}.

(** ** Handles and errors *)

(** The device of a handle, with the error slot of the calling thread ([LAST_ERROR]). *)
Record FrtInstanceHandle (D : Type) := mkInstance { fi_device : D; fi_error : option string }.
Arguments mkInstance {D} _ _.
Arguments fi_device {D} _.
Arguments fi_error {D} _.

(** [c_int] arguments and results; [i32::try_from]. *)
Definition to_c_int (z : Z) : Z := if (-2147483648 <=? z) && (z <=? 2147483647) then z else -1.

Definition NUL : ascii := "000".

(** The message as a C string: NUL bytes are blanked. *)
Definition error_text (msg : string) : string := Str.map_chars (fun c => if Ascii.eqb c NUL then " "%char else c) msg.

(** A C string as the caller passes it: the bytes before its NUL, or null. *)
Definition CStr : Type := option (list Z).

(** [str::from_utf8] on failure: where, and how long the bad sequence is when it
    is not the end that is missing. *)
Fixpoint utf8_error (fuel : nat) (at_ : Z) (bs : list Z) : option (Z * option Z) :=
  match fuel, bs with
  | S fuel, b :: rest =>
      let '(n, whole) := utf8_step b rest in
      if whole then utf8_error fuel (at_ + Z.of_nat n) (drop n bs)
      else if (0 <? utf8_len b)%nat && (length bs <=? n)%nat then Some (at_, None)
      else Some (at_, Some (Z.of_nat n))
  | _, _ => None
  end.

Definition utf8_error_str (e : Z * option Z) : string :=
  match e with
  | (at_, Some len) => "invalid utf-8 sequence of " +:+ Str.show len +:+ " bytes from index " +:+ Str.show at_
  | (at_, None) => "incomplete utf-8 byte sequence from index " +:+ Str.show at_
  end.

Definition to_str (ptr : CStr) (field : string) : res string (option string) :=
  match ptr with
  | None => Ok None
  | Some bs =>
      match utf8_error (length bs) 0 bs with
      | Some e => Err ("invalid UTF-8 in " +:+ field +:+ ": " +:+ utf8_error_str e)
      | None => Ok (Some (Str.utf8 bs))
      end
  end.

(** [write_c_string]: the bytes the caller's buffer starts with afterwards; [None]
    when it is not written. *)
Definition write_c_string (buf_null : bool) (buf_len : nat) (text : string) : option (list Z) :=
  if buf_null || (buf_len =? 0)%nat then None
  else let bytes := bytes_of text in Some (take (Nat.min (length bytes) (buf_len - 1)) bytes ++ [0]).

(** ** Opening *)

Definition parse_simulator (legacy_env : bool) (sim : option string) : res string Simulator :=
  let name := match sim with Some s => s | None => "xsim" end in
  if String.eqb name "verilator" then Ok SimVerilator
  else if existsb (String.eqb name) ["xsim-legacy"; "xsim_legacy"; "legacy-xsim"] then Ok (SimXsim true)
  else if String.eqb name "xsim" then Ok (SimXsim legacy_env)
  else Err ("unknown simulator `" +:+ name +:+ "`; expected `xsim` or `verilator`").

(** The simulator a bitstream is opened with; only a package is simulated. *)
Definition instance_simulator (legacy_env : bool) (path : string) (sim : option string) : res string Simulator :=
  let! mode := map_err frt_display (mode_of path) in
  match mode with
  | ModeHardware | ModeVrt => Ok (SimXsim false)
  | ModeCosim => parse_simulator legacy_env sim
  end.

(** ** Calls *)

Section calls.
Context {D : Type} `{!Device D}.
Local Notation ffi := (io (FrtInstanceHandle D)).

Definition set_last_error (msg : string) : ffi unit := io_modify (fun i => mkInstance (fi_device i) (Some (error_text msg))).
Definition clear_last_error : ffi unit := io_modify (fun i => mkInstance (fi_device i) None).

(** A method of the device; its error is a value, a panic is not caught. *)
Definition on_device {A} (m : io D A) : ffi (res FrtError A) := fun s =>
  let '(r, (d, h)) := m (fi_device s.1, s.2) in
  (match r with Panic => Panic | _ => Ok r end, (mkInstance d (fi_error s.1), h)).

Definition with_handle (null : bool) (failed : Z) (body : ffi Z) : ffi Z :=
  if null then do! _ := set_last_error "handle is null" in io_ret failed else body.

(** The result of a method as a return code. *)
Definition return_code (r : res FrtError unit) : ffi Z :=
  match r with
  | Err e => do! _ := set_last_error (frt_display e) in io_ret (-1)
  | _ => io_ret 0
  end.

Definition instance_method_call (null : bool) (method : io D unit) : ffi Z :=
  do! _ := clear_last_error in
  with_handle null (-1) (do! r := on_device method in return_code r).

Definition frt_instance_set_scalar_bytes (null : bool) (index : Z) (value : option (list Z)) (size : Z) : ffi Z :=
  do! _ := clear_last_error in
  match value with
  | None => if negb (size =? 0) then do! _ := set_last_error "value is null" in io_ret (-1)
            else with_handle null (-1) (do! r := on_device (set_scalar_arg index []) in return_code r)
  | Some bytes => with_handle null (-1) (do! r := on_device (set_scalar_arg index (take (Z.to_nat size) bytes)) in return_code r)
  end.

Definition frt_instance_set_buffer_arg_typed (null : bool) (index ptr bytes tag : Z) : ffi Z :=
  do! _ := clear_last_error in
  if (ptr =? 0) && negb (bytes =? 0) then do! _ := set_last_error "the buffer pointer is null" in io_ret (-1)
  else match from_wire tag with
  | None => do! _ := set_last_error ("unknown buffer access tag " +:+ (if tag <? 0 then "-" +:+ Str.show (- tag) else Str.show tag)) in io_ret (-1)
  | Some access => with_handle null (-1) (do! r := on_device (set_buffer_arg index ptr bytes access) in return_code r)
  end.

Definition frt_instance_set_stream_arg (null : bool) (index : Z) (shm_path : CStr) : ffi Z :=
  do! _ := clear_last_error in
  match to_str shm_path "shm_path" with
  | Ok path => with_handle null (-1) (do! r := on_device (set_stream_arg index (match path with Some s => s | None => "" end)) in return_code r)
  | Err e => do! _ := set_last_error e in io_ret (-1)
  | Panic => io_lift Panic
  end.

Definition frt_instance_host_stream_count (null : bool) : ffi Z :=
  do! _ := clear_last_error in
  with_handle null (-1) (do! i := io_get in io_ret (to_c_int (Z.of_nat (length (host_streams (fi_device i)))))).

(** Returns the index, the bytes of the name, and the direction. *)
Definition frt_instance_host_stream (null : bool) (nth : Z) (name_null : bool) (name_len : nat) : ffi (Z * option (list Z * bool)) :=
  do! _ := clear_last_error in
  if null then do! _ := set_last_error "handle is null" in io_ret (-1, None)
  else
    do! i := io_get in
    let streams := host_streams (fi_device i) in
    match streams !! Z.to_nat nth with
    | None => do! _ := set_last_error ("host stream " +:+ Str.show nth +:+ " out of range (" +:+ Str.show (Z.of_nat (length streams)) +:+ " declared)") in io_ret (-1, None)
    | Some stream =>
        let name := match write_c_string name_null name_len (hs_name stream) with Some bs => bs | None => [] end in
        io_ret (to_c_int (hs_index stream), Some (name, hs_kernel_reads stream))
    end.

Definition frt_instance_write_to_device (null : bool) : ffi Z := instance_method_call null write_to_device.
Definition frt_instance_read_from_device (null : bool) : ffi Z := instance_method_call null read_from_device.
Definition frt_instance_exec (null : bool) : ffi Z := instance_method_call null exec.
Definition frt_instance_finish (null : bool) : ffi Z := instance_method_call null finish.
Definition frt_instance_kill (null : bool) : ffi Z := instance_method_call null kill.

Definition frt_instance_is_finished (null : bool) : ffi Z :=
  do! _ := clear_last_error in
  with_handle null 0 (
    do! r := on_device is_finished in
    match r with
    | Ok done => io_ret (if done : bool then 1 else 0)
    | Err e => do! _ := set_last_error (frt_display e) in io_ret (-1)
    | Panic => io_lift Panic
    end).

Definition instance_timing_ns (null : bool) (getter : D -> Z) : ffi Z :=
  with_handle null 0 (do! i := io_get in io_ret (getter (fi_device i))).

(** The device is killed unless it is known to have finished, and dropped; the
    error slot is left alone. *)
Definition frt_instance_close (null : bool) : ffi unit :=
  if null then io_ret tt
  else
    do! r := on_device is_finished in
    do! _ := (match r with
      | Ok true => io_ret tt
      | _ => do! _ := on_device kill in io_ret tt
      end) in
    do! _ := on_device drop_device in
    io_ret tt.

End calls.
