(* ===== verification/FfiProps.v ===== *)
(** * Closing a handle

    [DeviceSpec] is what a backend promises about ending its kernel; closing a
    handle is proved against it, and [Cosim] is shown to keep it. *)

From S2P Require Import Prelude RustStd BTreeMap Shm CosimSpec Frt CosimContext Cosim CosimProps Ffi.

Local Open Scope Z_scope.

(** ** The promise of a backend *)

(** [followed] is what the owner has kept to; [busy] that a kernel is running; and
    [lost] that it could not be reached in the last part of the history. *)
Class DeviceSpec `{Env} (D : Type) `{!Device D} := {
  followed : D * history -> Prop;
  busy : history -> Prop;
  lost : history -> history -> Prop;
  lost_more h t h' u : lost (h ++ t) h' -> lost h (h' ++ u);
  is_finished_spec s : followed s -> let '(r, s') := is_finished s in
    r <> Panic /\ followed s' /\ (exists t, s'.2 = s.2 ++ t) /\ (r = Ok true -> ~ busy s'.2);
  kill_spec s : followed s -> let '(r, s') := kill s in
    r <> Panic /\ (r = Ok tt -> ~ busy s'.2) /\ (forall e, r = Err e -> lost s.2 s'.2);
  drop_spec s : let '(r, s') := drop_device s in r <> Panic /\ exists t, s'.2 = s.2 ++ t /\ (busy s'.2 -> busy s.2);
}.

Section close.
Context `{HE : Env} {D : Type} `{HD : !Device D} `{HS : !DeviceSpec D}.

Lemma on_device_eq {A} (m : io D A) d e h : on_device m (mkInstance d e, h) =
  let '(r, (d', h')) := m (d, h) in (match r with Panic => Panic | _ => Ok r end, (mkInstance d' e, h')).
Proof using Type. done. Qed.

(** What is left after the kernel was asked to end: nothing that runs, or it could
    not be reached. *)
Lemma drop_after d e h h0 : ~ busy h \/ lost h0 h -> exists i h', (do! _ := on_device drop_device in io_ret tt) (mkInstance d e, h) = (Ok tt, (i, h')) /\
  fi_error i = e /\ (~ busy h' \/ lost h0 h').
Proof using HS.
  intros Hq. unfold io_bind. rewrite on_device_eq. pose proof (drop_spec (d, h)) as Hd. destruct (drop_device (d, h)) as [r [d' h']] in Hd |- *. cbn [fst snd] in Hd. destruct Hd as (Hn & t & Et & Hb).
  cbn [fst snd] in *. subst h'. exists (mkInstance d' e), (h ++ t). split; [by destruct r|]. split; [done|]. destruct Hq as [Hq|Hq]; [left; by intros ?%Hb|]. right.
  apply (lost_more _ []). by rewrite List.app_nil_r.
Qed.

(** Closing returns, leaves the error slot alone, and leaves nothing running unless
    the kernel could not be reached. *)
Lemma close_quiet d e h : followed (d, h) -> exists i h', frt_instance_close false (mkInstance d e, h) = (Ok tt, (i, h')) /\ fi_error i = e /\ (~ busy h' \/ lost h h').
Proof using HS.
  intros Hf. unfold frt_instance_close, io_bind at 1. rewrite on_device_eq. pose proof (is_finished_spec _ Hf) as H1. destruct (is_finished (d, h)) as [r [d1 h1]] in H1 |- *.
  destruct H1 as (Hn & Hf1 & (t & Et) & Hq). cbn [fst snd] in *. subst h1.
  assert (Hkill : exists i h', (do! _ := (do! _ := on_device kill in io_ret tt) in do! _ := on_device drop_device in io_ret tt) (mkInstance d1 e, h ++ t) = (Ok tt, (i, h')) /\
    fi_error i = e /\ (~ busy h' \/ lost h h')).
  { unfold io_bind at 1 2. rewrite on_device_eq. pose proof (kill_spec _ Hf1) as H2. destruct (kill _) as [r2 [d2 h2]] in H2 |- *. destruct H2 as (Hn2 & Hq2 & Hl2). cbn [fst snd] in *.
    destruct r2 as [[]|x|]; [| |done]; cbn [io_ret]; apply drop_after; [left; by apply Hq2|right].
    rewrite <- (List.app_nil_r h2). eapply lost_more. by eapply Hl2. }
  destruct r as [[]|x|]; [|exact Hkill|exact Hkill|done]. unfold io_bind at 1, io_ret at 1. apply drop_after. left. by apply Hq.
Qed.
End close.

(** ** Co-simulation *)

#[export] Instance cosim_device `{Env} `{HashOrder} : Device CosimDevice := {
  host_streams d := map (fun x => mkHostStream x.1.1 x.1.2 x.2) (cosim_host_streams d);
  set_scalar_arg := cosim_set_scalar_arg;
  set_buffer_arg := cosim_set_buffer_arg;
  set_stream_arg := cosim_set_stream_arg;
  write_to_device := cosim_write_to_device;
  read_from_device := cosim_read_from_device;
  exec := cosim_exec;
  finish := cosim_finish;
  kill := cosim_kill;
  is_finished := cosim_is_finished;
  load_ns := cd_load_ns;
  compute_ns := cd_compute_ns;
  store_ns := cd_store_ns;
  drop_device := cosim_drop;
}.

Section cosim.
Context `{HE : Env} `{HO : HashOrder} `{HM : !MonotonicClock} `{HF : !MappedMemory}.

(** Some simulator could not be asked whether it has exited. *)
Definition unreachable (h h' : history) : Prop := exists c, try_wait_failed c h h'.

Lemma kill_no_panic s : (cosim_kill s).1 <> Panic.
Proof using HM HO.
  destruct s as [d h]. unfold cosim_kill, io_bind at 1, io_get. cbn [fst]. destruct (cd_simulation_state d) as [|run| |x].
  - destruct (complete_ok None d h) as [s ->]. done.
  - unfold io_bind. pose proof (terminate_ends run d h) as Ht. destruct (terminate_running_simulation run (d, h)) as [[[]|e|] [d1 h1]] in Ht |- *; [|done|done].
    destruct (complete_ok None d1 h1) as [s ->]. done.
  - destruct (complete_ok None d h) as [s ->]. done.
  - done.
Qed.

#[export, refine] Instance cosim_keeps_promise : DeviceSpec CosimDevice := {
  followed := sound;
  busy h := alive h <> [];
  lost := unreachable;
}.
Proof using All.
  - intros h t h' u (c & Hc). exists c. apply try_wait_failed_prefix in Hc as (t1 & t2 & e & -> & He). exists t1, (t2 ++ u), e. by rewrite <- !app_assoc.
  - intros [d h] Hs. change (is_finished (d, h)) with (poll_simulation (d, h)). destruct (poll_simulation (d, h)) as [r [d' h']] eqn:E. pose proof E as Ep. apply poll_simulation_spec in E as [_ Hg Hs' Ht _ _]; [|done].
    apply poll_ends in Ep as [Hn _]; [|done]. split_and!; try done. intros Hr Hb. destruct (Ht Hr) as [x Hx]. apply Hb. unfold sound in Hs'. cbn [fst snd] in Hs'. by rewrite Hx in Hs'.
  - intros [d h] Hs. change (kill (d, h)) with (cosim_kill (d, h)). pose proof (kill_no_panic (d, h)) as Hn. destruct (cosim_kill (d, h)) as [r [d' h']] eqn:E. apply kill_step in E as ([Hs' _] & Hok & Herr); [|done].
    split_and!; [done| |].
    + intros Hr Hb. destruct (Hok Hr) as [x Hx]. apply Hb. unfold sound in Hs'. cbn [fst snd] in Hs'. by rewrite Hx in Hs'.
    + intros e He. destruct (Herr _ He) as (run & _ & Hf). by exists (child run).
  - intros [d h]. change (drop_device (d, h)) with (cosim_drop (d, h)). assert (Hd : emits (fun _ => True) no_process cosim_drop).
    { unfold cosim_drop, context_drop. emits_tac. unfold segment_drop. emits_tac. }
    destruct (cosim_drop (d, h)) as [r [d' h']] eqn:E. pose proof E as Eq. apply Hd in E as (_ & t & -> & Ht); [|done]. split.
    + intros ->. assert (Hn : no_panic cosim_drop) by (unfold cosim_drop, context_drop; no_panic_tac; unfold segment_drop; no_panic_tac). specialize (Hn (d, h)). by rewrite Eq in Hn.
    + exists t. split; [done|]. cbn [snd]. by rewrite alive_quiet.
Defined.

(** Closing polls, kills, and waits only for a process whose group was killed. *)
Lemma reaping_on_device {A} (m : io CosimDevice A) : reaping m -> reaping (on_device m).
Proof using Type.
  intros Hm [[d e] h]. destruct (Hm (d, h)) as (t & Et & Ht). exists t. rewrite on_device_eq. by destruct (m (d, h)) as [[a|x|] [d' h']].
Qed.

Lemma reaping_kill : reaping cosim_kill.
Proof using Type.
  unfold cosim_kill. assert (Hc : forall e, reaping (complete_simulation e)) by (intros e; apply reaping_emits; unfold complete_simulation, elapsed_ns; emits_tac).
  apply reaping_bind; [apply reaping_get|]. intros d. destruct (cd_simulation_state d) as [|run| |x]; [apply Hc| |apply Hc|apply reaping_emits; emits_tac].
  apply reaping_bind; [apply reaping_terminate|]. intros u. apply Hc.
Qed.

Lemma reaping_close : reaping (frt_instance_close (D:=CosimDevice) false).
Proof using Type.
  assert (Hr : forall u : unit, reaping (io_ret (D:=FrtInstanceHandle CosimDevice) u)) by (intros u; apply reaping_emits; emits_tac).
  unfold frt_instance_close. apply reaping_bind; [apply reaping_on_device, reaping_poll|]. intros r. apply reaping_bind.
  - assert (Hk : reaping (do! _ := on_device (D:=CosimDevice) kill in io_ret tt)) by (apply reaping_bind; [apply reaping_on_device, reaping_kill|intros a; apply Hr]).
    destruct r as [[]|e|]; [apply Hr|exact Hk..].
  - intros u. apply reaping_bind; [|intros a; apply Hr]. apply reaping_on_device, reaping_emits.
    change (drop_device (D:=CosimDevice)) with cosim_drop. unfold cosim_drop, context_drop, segment_drop. emits_tac.
Qed.

(** C19: closing the handle of a co-simulation ends it. For a co-simulation device whose
    owner has opened it and made calls, none of them a second [exec] over a running
    simulation: closing its handle returns, leaves the error slot alone, and leaves no
    simulator alive, unless the process could not be asked whether it has exited. It
    never blocks on a process that runs: a process is waited for only after its group
    was killed. (After a second [exec] the first simulator is lost: [second_exec_leaks].) *)
Theorem close_ends_simulation `{CosimText} path sim d e h : reach path sim (d, h) ->
  exists i h', frt_instance_close false (mkInstance d e, h) = (Ok tt, (i, h')) /\ fi_error i = e /\ (alive h' = [] \/ unreachable h h') /\
    exists t, h' = h ++ t /\ forall t1 c t2, t = t1 ++ Wait c :: t2 -> KillGroup c SIGKILL ∈ t1.
Proof using All.
  intros Hr. destruct (close_quiet d e h) as (i & h' & E & He & Hq); [by apply reach_sound in Hr|]. exists i, h'. split_and!; [done|done| |].
  - destruct Hq as [Hq|Hq]; [left; by apply dec_stable|by right].
  - destruct (reaping_close (mkInstance d e, h)) as (t & Et & Ht). rewrite E in Et. exists t. split; [exact Et|exact Ht].
Qed.
End cosim.

(** * Concrete co-simulations

    A kernel with a memory and a stream, in two environments: one whose simulator
    ends after a while, and one whose simulator never does.  What happens when a
    second simulation is started over a running one. *)

(** ** Environments *)

Definition sample_kernel : KernelSpec := mkKernelSpec "top" [mkArg "a" 0 (Mmap 512 64); mkArg "s" 1 (Stream 32 8 DirIn ApFifo)] None.

(** Time is what was slept, a simulator ends after [life], and the host asks for a
    timeout of a second. *)
Definition sim_env (life : Z) : Env := {|
  respond e h := match e return answer e with
    | Now => slept h
    | LoadSpec _ => inr sample_kernel
    | GetEnv name => if String.eqb name "FRT_COSIM_TIMEOUT_SECONDS" then Some " 1 " else None
    | ShmNonce | ProcessId => Z.of_nat (length h)
    | Spawn _ _ _ => inr (Z.of_nat (length h))
    | TryWait _ => if life <=? slept h then inr (Some (mkExit true "exit status: 0")) else inr None
    | e => default_answer e
    end;
|}.

Definition LIFE : Z := 25000000.
Definition NEVER : Z := 3600000000000.

Definition sim_clock life : @MonotonicClock (sim_env life).
Proof. intros h h'. cbn. rewrite slept_app. lia. Defined.

Definition sim_memory life : @MappedMemory (sim_env life).
Proof. intros path n h Hn. cbn. rewrite length_replicate. lia. Defined.

(** Hash maps are walked backwards. *)
#[local] Instance backwards : HashOrder := {| hash_iter A h l := List.rev l; hash_iter_perm A h l := symmetry (Permutation_rev l) |}.
#[local] Instance no_text : CosimText := {| json_from_str _ := inl "EOF while parsing a value"; debug_str s := s |}.

Section runs.
Context `{HE : Env}.

Definition run_calls (cs : list CosimOp) (s : CosimDevice * history) : CosimDevice * history := fold_left (fun s c => (run_call c s).2) cs s.

Definition allowedb (c : CosimOp) (d : CosimDevice) : bool := match c with CallExec => negb (is_running (cd_simulation_state d)) | _ => true end.

Fixpoint all_allowed (cs : list CosimOp) (s : CosimDevice * history) : bool :=
  match cs with [] => true | c :: cs => allowedb c s.1 && all_allowed cs (run_call c s).2 end.

Lemma reach_calls path sim cs s : reach path sim s -> all_allowed cs s = true -> reach path sim (run_calls cs s).
Proof.
  revert s. induction cs as [|c cs IH]; intros s Hr Ha; [done|]. apply andb_prop in Ha as [H1 H2]. apply IH; [|done]. apply reach_call; [done|].
  destruct c; try done. by apply negb_true_iff in H1.
Qed.
End runs.

Definition calls : list CosimOp := [CallScalar 7 [1]; CallBuffer 0 4096 100 ReadWrite; CallStream 1 "/dev/shm/q"; CallWrite; CallExec; CallRead].

(** The device of a co-simulation that has made [calls]. *)
Definition opened_sample (life : Z) : option (CosimDevice * history) :=
  match @cosim_open (sim_env life) _ _ "k.xo" SimVerilator (tt, []) with (Ok d, (_, h)) => Some (d, h) | _ => None end.

Definition running_sample (life : Z) : option (CosimDevice * history) :=
  match opened_sample life with Some s => Some (@run_calls (sim_env life) calls s) | None => None end.

Definition sample_allowed (life : Z) : bool := match opened_sample life with Some s => @all_allowed (sim_env life) calls s | None => false end.

Lemma running_reach life s : sample_allowed life = true -> running_sample life = Some s -> @reach (sim_env life) _ _ "k.xo" SimVerilator s.
Proof.
  unfold sample_allowed, running_sample, opened_sample. destruct (@cosim_open (sim_env life) _ _ "k.xo" SimVerilator (tt, [])) as [[d|e|] [[] h]] eqn:Eo; [|intros _ ?; discriminate..].
  intros Ha Es. assert (s = @run_calls (sim_env life) calls (d, h)) as -> by congruence. apply reach_calls; [apply reach_open; exact Eo|exact Ha].
Qed.

Lemma life_allowed : sample_allowed LIFE = true. Proof. vm_compute; reflexivity. Qed.
Lemma never_allowed : sample_allowed NEVER = true. Proof. vm_compute; reflexivity. Qed.

(** Every process can be asked and waited for. *)
Lemma waits_answered life c h h' : ~ @wait_failed (sim_env life) c h h'.
Proof. intros [(t1 & t2 & e & _ & He)|(e & _ & He)]; cbn in He; [by destruct (life <=? _)|done]. Qed.

(** ** The simulator ends *)

(** [finish] polls four times, and then copies back. *)
Definition finish_writes : bool :=
  match running_sample LIFE with
  | Some s => is_running (cd_simulation_state s.1) &&
      match List.nth_error (@run_call (sim_env LIFE) _ CallFinish s).2.2 (length s.2 + 13) with Some (HostWrite ptr data) => (ptr =? 4096) && (length data =? 100)%nat | _ => false end
  | None => false
  end.

Lemma host_writes_safe_witness : exists s t1 data t2, running_sample LIFE = Some s /\ is_running (cd_simulation_state s.1) = true /\
  (@run_call (sim_env LIFE) _ CallFinish s).2.2 = s.2 ++ t1 ++ HostWrite 4096 data :: t2 /\ length data = 100%nat /\ @alive (sim_env LIFE) (s.2 ++ t1) = [].
Proof.
  assert (Hw : finish_writes = true) by (by vm_compute). unfold finish_writes in Hw. destruct (running_sample LIFE) as [s|] eqn:Es; [|discriminate Hw]. apply andb_prop in Hw as [Hrun Hw].
  destruct (@host_writes_safe (sim_env LIFE) _ _ "k.xo" SimVerilator (sim_memory LIFE) s CallFinish (running_reach LIFE s life_allowed Es) I) as [_ (t & Et & Ht)].
  rewrite Et, List.nth_error_app2 in Hw by lia. replace (length s.2 + 13 - length s.2)%nat with 13%nat in Hw by lia.
  destruct (List.nth_error t 13) as [e|] eqn:El; [|discriminate Hw]. destruct e; try discriminate Hw. apply andb_prop in Hw as [->%Z.eqb_eq Hd%Nat.eqb_eq].
  apply List.nth_error_split in El as (t1 & t2 & Em & _). destruct (Ht _ _ _ _ Em) as [Ha _]. exists s, t1, data, t2. split; [reflexivity|]. split; [exact Hrun|].
  split; [rewrite Et, Em; reflexivity|]. split; [exact Hd|exact Ha].
Defined.

(** ** The simulator never ends *)

Definition finish_times_out : bool :=
  match running_sample NEVER with
  | Some s => match (@cosim_finish (sim_env NEVER) _ s).1 with Err (CosimTimeout n) => n =? 1 | _ => false end
  | None => false
  end.

(** The timeout ends it: it is interrupted, killed after the grace, and reaped. *)
Lemma finish_ends_simulation_witness : exists s, running_sample NEVER = Some s /\ (@cosim_finish (sim_env NEVER) _ s).1 = Err (CosimTimeout 1) /\
  @alive (sim_env NEVER) (@cosim_finish (sim_env NEVER) _ s).2.2 = [].
Proof.
  assert (Hw : finish_times_out = true) by (by vm_compute). unfold finish_times_out in Hw. destruct (running_sample NEVER) as [s|] eqn:Es; [|discriminate Hw]. exists s. split; [reflexivity|].
  pose proof (@finish_ends_simulation (sim_env NEVER) _ _ "k.xo" SimVerilator (sim_memory NEVER) (sim_clock NEVER) s (running_reach NEVER s never_allowed Es)) as H.
  destruct (@cosim_finish (sim_env NEVER) _ s) as [r [d h]] eqn:Ef. cbn [fst snd] in *. split; [destruct r as [|e|]; try discriminate Hw; destruct e; try discriminate Hw; apply Z.eqb_eq in Hw as ->; reflexivity|].
  destruct H as (_ & [[_ Ha]|(run & _ & _ & Hf)] & _); [exact Ha|]. destruct (waits_answered _ _ _ _ Hf).
Defined.

Lemma close_ends_simulation_witness : exists s i h', running_sample NEVER = Some s /\ is_running (cd_simulation_state s.1) = true /\
  @frt_instance_close CosimDevice (@cosim_device (sim_env NEVER) _) false (mkInstance s.1 None, s.2) = (Ok tt, (i, h')) /\ @alive (sim_env NEVER) h' = [].
Proof.
  assert (Hw : match running_sample NEVER with Some s => is_running (cd_simulation_state s.1) | None => false end = true) by (by vm_compute).
  destruct (running_sample NEVER) as [[d h]|] eqn:Es; [|discriminate Hw].
  destruct (@close_ends_simulation (sim_env NEVER) _ (sim_clock NEVER) (sim_memory NEVER) _ "k.xo" SimVerilator d None h (running_reach NEVER _ never_allowed Es)) as (i & h' & Ec & _ & [Ha|[c Hf]] & _).
  - exists (d, h), i, h'. split; [reflexivity|]. split; [exact Hw|]. split; [exact Ec|exact Ha].
  - exfalso. apply (waits_answered NEVER c h h'). left. exact Hf.
Defined.

(** ** A second simulation over a running one

    [exec] does not check that no simulation is running: the first simulator is
    forgotten, and outlives even the handle. *)
Definition twice : option (CosimDevice * history) := option_map (fun s => (@run_call (sim_env NEVER) _ CallExec s).2) (running_sample NEVER).

Example second_exec_leaks : match twice with
  | Some s => length (@alive (sim_env NEVER) s.2) = 2%nat /\
      length (@alive (sim_env NEVER) (@frt_instance_close CosimDevice (@cosim_device (sim_env NEVER) _) false (mkInstance s.1 None, s.2)).2.2) = 1%nat
  | None => False
  end.
Proof. vm_compute. split; reflexivity. Qed.

(** [finish] makes a device that has launched nothing report that it has finished. *)
Example finished_without_exec : match opened_sample LIFE with
  | Some s => (@cosim_is_finished (sim_env LIFE) s).1 = Ok false /\ (@cosim_is_finished (sim_env LIFE) (@cosim_finish (sim_env LIFE) _ s).2).1 = Ok true
  | None => False
  end.
Proof. vm_compute. split; reflexivity. Qed.
