(* ===== verification/Cbc.v ===== *)
(** * The CBC backend

    [tapa-floorplan/src/solver/cbc.rs]: the command line, the solution file, and
    the check of the incumbent.  The file system and the process are
    parameters. *)

From Stdlib Require Import SpecFloat.
From S2P Require Import Prelude RustStd BTreeMap Names Connectivity F64 Lp F64Text LpText Frt.

Local Open Scope Z_scope.

Definition TUNED_OPTIONS : list string :=
  ["-cuts"; "ifmove"; "-preprocess"; "aggregate"; "-heuristics"; "off"; "-strongBranching"; "5"; "-trustPseudoCosts"; "6"].

(** ** The solution file *)

Definition skip (n : nat) (s : string) : string := substring n (String.length s - n) s.

Definition parse_objective (header : string) : option f64 :=
  let? (before, _) := Str.split_once_str "objective value" (Str.to_ascii_lowercase header) in
  let? value := head (Str.split_whitespace (skip (String.length before + String.length "objective value") header)) in
  F64Text.parse value.

Definition parse_status (header : string) : res SolverError LpStatus :=
  let lower := Str.to_ascii_lowercase header in
  if Str.starts_with "optimal" lower then Ok Optimal
  else if Str.starts_with "infeasible" lower || Str.starts_with "integer infeasible" lower then Ok Infeasible
  else if Str.starts_with "unbounded" lower then Ok Unbounded
  else if Str.starts_with "stopped" lower then
    if Str.contains "no integer solution" lower || negb (Str.contains "objective value" lower) then Ok NotSolved else Ok Feasible
  else Err (BadOutput ("unrecognized CBC status header `" +:+ header +:+ "`")).

Definition parse_header (header : string) : res SolverError (LpStatus * f64) :=
  if Str.is_empty (Str.trim header) then Err (BadOutput "empty solution-file header") else
  let! st := parse_status header in
  let! obj := match st with
    | Optimal | Feasible => ok_or (parse_objective header) (BadOutput ("CBC reported an incumbent without an objective: `" +:+ header +:+ "`"))
    | _ => Ok (default F64.zero (parse_objective header))
    end in
  if negb (F64.is_finite obj) then Err (BadOutput "CBC reported a non-finite objective") else Ok (st, obj).

Definition parse_value_line (line : string) : res string (option LpVar * f64) :=
  match Str.split_whitespace line with
  | [] => Err "empty line"
  | first :: tokens =>
      let! (index, tokens) :=
        if String.eqb first "**" then match tokens with i :: ts => Ok (i, ts) | [] => Err "missing column index" end
        else Ok (first, tokens) in
      let! _ := ok_or (Str.parse_u32 index) ("invalid column index `" +:+ index +:+ "`") in
      match tokens with
      | [] => Err "missing variable name"
      | name :: tokens =>
          let! text := ok_or (head tokens) "missing variable value" in
          let var := column_of name in
          let! value := ok_or (F64Text.parse text) ("invalid value `" +:+ text +:+ "` for `" +:+ name +:+ "`") in
          if negb (F64.is_finite value) then Err ("non-finite value `" +:+ F64Text.show value +:+ "` for `" +:+ name +:+ "`")
          else Ok (var, value)
      end
  end.

Definition add_value (vs : gmap LpVar f64) (x : nat * string) : res SolverError (gmap LpVar f64) :=
  if Str.is_empty (Str.trim x.2) then Ok vs else
  let! (var, value) := map_err (fun m => BadOutput ("invalid CBC value on line " +:+ Str.show (Z.of_nat x.1 + 2) +:+ ": " +:+ m)) (parse_value_line x.2) in
  match var with
  | None => Ok vs
  | Some v =>
      match vs !! v with
      | Some _ => Err (BadOutput ("CBC listed variable x" +:+ Str.show v +:+ " more than once"))
      | None => Ok (<[v := value]> vs)
      end
  end.

Definition parse_sol (text : string) : res SolverError LpSolution :=
  match Str.lines text with
  | [] => Err (BadOutput "empty solution file")
  | header :: ls =>
      let! (st, obj) := parse_header header in
      let! vs := try_fold add_value ∅ (enumerate ls) in
      Ok (mkSolution st obj vs)
  end.

(** ** The incumbent *)

Definition with_objective (s : LpSolution) (o : f64) : LpSolution := mkSolution (status s) o (values s).

Definition canonicalize_objective (s : LpSolution) (m : LpModel) : res SolverError LpSolution :=
  if is_found s then let! o := evaluate (objective m) (values s) in Ok (with_objective s o) else Ok s.

Definition validate_solution (s : LpSolution) (m : LpModel) : res SolverError LpSolution :=
  match validate_for s m with
  | Ok _ => canonicalize_objective s m
  | Panic => Panic
  | Err reported =>
      if is_found s then
        let shifted := with_objective s (F64.add (sol_objective s) (constant (objective m))) in
        match validate_for shifted m with
        | Ok _ => canonicalize_objective shifted m
        | Err _ => Err reported
        | Panic => Panic
        end
      else Err reported
  end.

(** ** The process *)

(** [Duration::as_secs_f64], from nanoseconds. *)
Definition as_secs_f64 (ns : Z) : f64 :=
  F64.add (F64.of_Z (ns / 1000000000)) (F64.div (F64.of_Z (ns mod 1000000000)) (F64.of_Z 1000000000)).

Definition command (lp_path sol_path : string) (o : SolveOpts) : list string :=
  [lp_path]
  ++ match threads o with Some n => ["-threads"; Str.show n] | None => [] end
  ++ match time_limit o with Some t => ["-sec"; F64Text.show (as_secs_f64 t)] | None => [] end
  ++ match mip_gap_abs o with Some g => ["-allowableGap"; F64Text.show g] | None => [] end
  ++ TUNED_OPTIONS ++ ["-printingOptions"; "all"; "-solve"; "-solution"; sol_path].

(** What a finished process leaves: its exit code, when it was not killed. *)
Record Output := mkOutput { exit_code : option Z; out_bytes : list Z; err_bytes : list Z }.

Definition success (o : Output) : bool := match exit_code o with Some c => c =? 0 | None => false end.

Section process.
Variable program : string.
Variable tempdir : string + string.
Variable write_file : string -> string -> string + unit.
Variable run : string -> list string -> string + Output.
Variable read_to_string : string -> string + string.

Definition io_result {A} (r : string + A) : res SolverError A := match r with inl e => Err (Lp.Spawn program e) | inr a => Ok a end.

Definition cbc_solve (m : LpModel) (o : SolveOpts) : res SolverError LpSolution :=
  let! _ := opts_validate o in
  let! dir := io_result tempdir in
  let lp_path := dir +:+ "/model.lp" in
  let sol_path := dir +:+ "/model.sol" in
  let! text := map_err (fun e => InvalidModel (write_error_str e)) (write_cplex_lp m) in
  let! _ := io_result (write_file lp_path text) in
  let! output := io_result (run program (command lp_path sol_path o)) in
  if negb (success output) then
    let stderr := from_utf8_lossy (err_bytes output) in
    let detail := if Str.is_empty (Str.trim stderr) then from_utf8_lossy (out_bytes output) else stderr in
    Err (ToolFailure (default (-1) (exit_code output)) detail)
  else
    match read_to_string sol_path with
    | inl e => Err (BadOutput ("CBC did not produce a readable solution file: " +:+ e))
    | inr text => let! s := parse_sol text in validate_solution s m
    end.
End process.
