(* ===== verification/CbcProps.v ===== *)
(** * Reading a solution back

    A solution file that lists rows and columns in any order is read as exactly the
    values of the columns: the names the writer gives to rows are never taken for
    columns.  And an incumbent the backend returns satisfies the model. *)

From Stdlib Require Import SpecFloat.
From S2P Require Import Prelude RustStd BTreeMap Names Ir Connectivity F64 Lp F64Text LpText Frt Cbc.

Local Open Scope Z_scope.

(** ** Tokens *)

(** A visible ASCII character. *)
Definition solid (c : ascii) : bool := (33 <=? Str.code c) && (Str.code c <=? 126).

Definition token (t : string) : Prop := t <> "" /\ Str.all solid t = true.

Fixpoint spaces (n : nat) : string := match n with O => "" | S n => String " " (spaces n) end.

(** Each token after at least one space. *)
Fixpoint padded (l : list (nat * string)) : string :=
  match l with [] => "" | (n, t) :: l' => String " " (spaces n +:+ t +:+ padded l') end.

Lemma strip_solid c s : solid c = true -> Str.strip_any Str.whitespace (String c s) = None.
Proof.
  intros Hc. apply strip_any_none, List.Forall_forall. intros w Hw.
  assert (H : forallb (fun w => match w with String d _ => negb (solid d) | _ => false end) Str.whitespace = true) by (vm_compute; reflexivity).
  rewrite forallb_forall in H. specialize (H w Hw). destruct w as [|d r]; [done|]. exists d, r. split; [done|]. intros ->. by rewrite Hc in H.
Qed.

Lemma split_solid t n cur s : Str.all solid t = true ->
  Str.split_space_from (String.length t + n) cur (t +:+ s) = Str.split_space_from n (cur +:+ t) s.
Proof.
  revert cur. induction t as [|c t IH]; intros cur Ht; [by rewrite Str.app_nil_r|]. cbn [Str.all] in Ht. bool_hyps.
  cbn [String.length Nat.add String.append Str.split_space_from]. rewrite strip_solid by done. rewrite IH by done. by rewrite Str.app_assoc.
Qed.

Lemma split_space n cur s : Str.split_space_from (S n) cur (String " " s) = (if Str.is_empty cur then [] else [cur]) ++ Str.split_space_from n "" s.
Proof. done. Qed.

Lemma split_spaces k n s : Str.split_space_from (k + n) "" (spaces k +:+ s) = Str.split_space_from n "" s.
Proof. induction k as [|k IH]; [done|]. cbn [Nat.add spaces String.append]. by rewrite split_space. Qed.

Lemma split_padded l n cur : Forall (fun x => token x.2) l ->
  Str.split_space_from (String.length (padded l) + S n) cur (padded l) = (if Str.is_empty cur then [] else [cur]) ++ map snd l.
Proof.
  revert cur. induction l as [|[k t] l IH]; intros cur Hl; [cbn; by destruct cur|]. apply Forall_cons in Hl as [[Hne Ht] Hl]. cbn [snd] in *.
  cbn [padded String.length Nat.add]. rewrite split_space. f_equal. rewrite !Str.length_app, <- Nat.add_assoc.
  assert (Hk : forall k, String.length (spaces k) = k) by (intros j; induction j; simpl; by f_equal). rewrite Hk, split_spaces, <- Nat.add_assoc, split_solid by done.
  cbn [String.append]. rewrite IH by done. cbn [map snd]. by destruct t.
Qed.

(** ** Listings *)

(** One line: a row or a column, marked when it breaks a bound, with its position,
    its value and its dual. *)
Record Listed := mkListed { marked : bool; position : Z; entry : string + LpVar; value_text : string; dual_text : string; gaps : nat * nat * nat * nat * nat }.

Definition listed_name (e : Listed) : string := match entry e with inl row => sanitize_name row | inr v => "x" +:+ Str.show v end.

Definition listed_line (e : Listed) : string :=
  let '(g0, g1, g2, g3, g4) := gaps e in
  padded ((if marked e then [(g0, "**")] else []) ++ [(g1, Str.show (position e)); (g2, listed_name e); (g3, value_text e); (g4, dual_text e)]).

Definition listing (header : string) (es : list Listed) : string :=
  header +:+ String "010" (fold_right (fun e s => listed_line e +:+ String "010" s) "" es).

(** The value of a column. *)
Definition column_value (e : Listed) : option (LpVar * f64) :=
  match entry e with inl _ => None | inr v => option_map (fun a => (v, a)) (F64Text.parse (value_text e)) end.

Record listed_ok (e : Listed) : Prop := {
  lo_position : in_u32 (position e);
  lo_column v : entry e = inr v -> in_u32 v;
  lo_value : exists a, F64Text.parse (value_text e) = Some a /\ F64.is_finite a = true;
  lo_tokens : token (value_text e) /\ token (dual_text e);
}.

Lemma name_token s : sanitize_name s <> "" /\ Str.all solid (sanitize_name s) = true.
Proof.
  pose proof (safe_chars_name s) as Hs. assert (Hsolid : Str.all solid (safe_chars s) = true).
  { revert Hs. apply Str.all_impl. intros c Hc. unfold is_name_char, Str.is_alnum, Str.is_alpha, Str.is_upper, Str.is_lower, Str.is_digit, solid in *.
    destruct (Ascii.eqb_spec c "_"); [by subst|]. lia. }
  unfold sanitize_name. destruct (_ || _) eqn:E; [by split|]. split; [|done]. intros E'. rewrite E' in E. by rewrite orb_true_r in E.
Qed.

Lemma show_token n : 0 <= n -> token (Str.show n).
Proof.
  intros Hn. split; [by apply Str.show_nonempty|]. eapply Str.all_impl; [|by apply Str.show_digits]. intros c Hc. unfold Str.is_digit, solid in *. lia.
Qed.

Lemma listed_name_token e : listed_ok e -> token (listed_name e).
Proof.
  intros He. unfold listed_name. destruct (entry e) as [row|v] eqn:E; [apply name_token|]. destruct (show_token v) as [H1 H2]; [apply (lo_column e He v E)|].
  split; [done|]. cbn [String.append Str.all]. by rewrite H2.
Qed.

Lemma listed_column e : listed_ok e -> column_of (listed_name e) = match entry e with inl _ => None | inr v => Some v end.
Proof.
  intros He. unfold listed_name. destruct (entry e) as [row|v] eqn:E; [apply sanitized_not_column|].
  unfold column_of. cbn [String.append Str.strip_prefix]. rewrite Ascii.eqb_refl. apply Str.parse_show. apply (lo_column e He v E).
Qed.

Lemma listed_tokens e : listed_ok e -> Str.split_whitespace (listed_line e) =
  (if marked e then ["**"] else []) ++ [Str.show (position e); listed_name e; value_text e; dual_text e].
Proof.
  intros He. pose proof (listed_name_token e He) as Hn. pose proof (show_token (position e) ltac:(apply He)) as Hp. destruct (lo_tokens e He) as [Hv Hd].
  unfold Str.split_whitespace, listed_line. destruct (gaps e) as [[[[g0 g1] g2] g3] g4].
  rewrite <- Nat.add_1_r, split_padded; [by destruct (marked e)|]. destruct (marked e); repeat (apply Forall_cons; split); done.
Qed.

Lemma listed_parse e : listed_ok e -> exists a, F64Text.parse (value_text e) = Some a /\
  parse_value_line (listed_line e) = Ok (match entry e with inl _ => None | inr v => Some v end, a).
Proof.
  intros He. destruct (lo_value e He) as (a & Ha & Hf). exists a. split; [done|]. unfold parse_value_line. rewrite listed_tokens by done.
  pose proof (show_token (position e) ltac:(apply He)) as [Hne _].
  assert (Hpos : Str.parse_u32 (Str.show (position e)) = Some (position e)) by apply Str.parse_show, He.
  assert (Hstar : String.eqb (Str.show (position e)) "**" = false).
  { apply String.eqb_neq. intros E. pose proof (Str.show_digits (position e) ltac:(apply He)) as Hd. by rewrite E in Hd. }
  destruct (marked e); cbn [app]; rewrite ?Hstar; cbn [String.eqb Ascii.eqb Bool.eqb rbind]; rewrite Hpos; cbn [ok_or rbind head]; rewrite Ha; cbn [ok_or rbind];
    rewrite Hf, listed_column by done; done.
Qed.

(** *** Lines *)

Definition in_line (c : ascii) : bool := negb (Ascii.eqb c "010") && negb (Ascii.eqb c "013").

Lemma lines_text s cur rest : Str.all in_line s = true -> Str.all in_line cur = true -> Str.lines_from cur (s +:+ String "010" rest) = (cur +:+ s) :: Str.lines rest.
Proof.
  revert cur. induction s as [|c s IH]; intros cur Hs Hc.
  - cbn [String.append Str.lines_from]. rewrite Str.app_nil_r. cbn. f_equal. unfold Str.strip_cr. destruct (Str.strip_suffix "013" cur) as [l|] eqn:E; [|done].
    apply Str.strip_suffix_Some in E as ->. rewrite Str.all_app in Hc. cbn in Hc. by rewrite andb_false_r in Hc.
  - cbn [Str.all] in Hs. apply andb_true_iff in Hs as [H1 H2]. cbn [String.append Str.lines_from]. destruct (Ascii.eqb_spec c "010"); [by subst|].
    rewrite IH; [by rewrite Str.app_assoc|done|]. rewrite Str.all_app, Hc. cbn [Str.all]. by rewrite H1.
Qed.

Lemma padded_in_line l : Forall (fun x => token x.2) l -> Str.all in_line (padded l) = true.
Proof.
  induction 1 as [|[k t] l [_ Ht] _ IH]; [done|]. cbn [padded Str.all snd] in *. rewrite !Str.all_app, IH, andb_true_r.
  replace (Str.all in_line t) with true; [rewrite andb_true_r; by induction k|]. symmetry. revert Ht. apply Str.all_impl. intros c Hc. unfold solid, in_line in *.
  destruct (Ascii.eqb_spec c "010"); [by subst|]. by destruct (Ascii.eqb_spec c "013"); [subst|].
Qed.

Lemma listed_padded e : listed_ok e -> exists l, listed_line e = padded l /\ Forall (fun x => token x.2) l /\ exists k, (k, value_text e) ∈ l.
Proof.
  intros He. pose proof (listed_name_token e He) as Hn. pose proof (show_token (position e) ltac:(apply He)) as Hp. destruct (lo_tokens e He) as [Hv Hd].
  unfold listed_line. destruct (gaps e) as [[[[g0 g1] g2] g3] g4]. eexists. split; [done|]. split.
  - destruct (marked e); repeat (apply Forall_cons; split); done.
  - exists g3. apply elem_of_app. right. by do 2 right; left.
Qed.

(** *** Blank lines *)

Lemma existsb_app p s t : Str.existsb p (s +:+ t) = Str.existsb p s || Str.existsb p t.
Proof. induction s as [|c s IH]; [done|]. cbn. by rewrite IH, orb_assoc. Qed.

Lemma existsb_rev p s : Str.existsb p (Str.rev s) = Str.existsb p s.
Proof. induction s as [|c s IH]; [done|]. rewrite rev_cons, existsb_app, IH. cbn. by rewrite orb_false_r, orb_comm. Qed.

Lemma strip_any_solid ps s r : forallb (fun w => negb (Str.existsb solid w)) ps = true -> Str.strip_any ps s = Some r -> Str.existsb solid r = Str.existsb solid s.
Proof.
  induction ps as [|p ps IH]; intros Hp; [done|]. cbn [forallb] in Hp. apply andb_true_iff in Hp as [H1 H2]. cbn [Str.strip_any].
  destruct (Str.strip_prefix p s) eqn:E; [|by apply IH]. intros [= ->]. apply Str.strip_prefix_Some in E as ->. rewrite existsb_app.
  by destruct (Str.existsb solid p).
Qed.

Lemma trim_with_solid n ps s : forallb (fun w => negb (Str.existsb solid w)) ps = true -> Str.existsb solid (Str.trim_with n ps s) = Str.existsb solid s.
Proof.
  intros Hp. revert s. induction n as [|n IH]; intros s; [done|]. cbn [Str.trim_with]. destruct (Str.strip_any ps s) as [r|] eqn:E; [|done].
  rewrite IH. by eapply strip_any_solid.
Qed.

Lemma trim_solid s : Str.existsb solid (Str.trim s) = Str.existsb solid s.
Proof. unfold Str.trim. by rewrite existsb_rev, trim_with_solid, existsb_rev, trim_with_solid by (vm_compute; reflexivity). Qed.

Lemma not_blank s : Str.existsb solid s = true -> Str.is_empty (Str.trim s) = false.
Proof. intros Hs. rewrite <- trim_solid in Hs. by destruct (Str.trim s). Qed.

Lemma padded_solid l k t : Forall (fun x => token x.2) l -> (k, t) ∈ l -> Str.existsb solid (padded l) = true.
Proof.
  induction 1 as [|[k' t'] l [Hne Ht] _ IH]; intros Hin; [by apply not_elem_of_nil in Hin|]. cbn [padded Str.existsb snd] in *. rewrite !existsb_app.
  destruct t' as [|c t']; [done|]. cbn [Str.all Str.existsb] in *. destruct (solid c); [|done]. by rewrite orb_true_r.
Qed.

(** *** The values *)

Definition columns (es : list Listed) : list LpVar := map fst (omap column_value es).

Lemma add_listed vs k e : listed_ok e -> exists a, F64Text.parse (value_text e) = Some a /\
  match entry e with
  | inl _ => column_value e = None /\ add_value vs (k, listed_line e) = Ok vs
  | inr v => column_value e = Some (v, a) /\ match vs !! v with
      | Some _ => exists m, add_value vs (k, listed_line e) = Err m
      | None => add_value vs (k, listed_line e) = Ok (<[v := a]> vs)
      end
  end.
Proof.
  intros He. destruct (listed_parse e He) as (a & Ha & Hp). exists a. split; [done|]. unfold add_value, column_value. cbn [fst snd].
  destruct (listed_padded e He) as (l & El & Hl & j & Hj). rewrite not_blank by (rewrite El; by eapply padded_solid). rewrite Hp. cbn [map_err rbind].
  destruct (entry e) as [row|v]; [done|]. split; [by rewrite Ha|]. destruct (vs !! v); [by eexists|done].
Qed.

Lemma fold_listed es k vs : Forall listed_ok es ->
  let lines := zip (seq k (length es)) (map listed_line es) in
  (NoDup (columns es) -> (forall v, v ∈ columns es -> vs !! v = None) -> try_fold add_value vs lines = Ok (vs ∪ list_to_map (omap column_value es))) /\
  (~ (NoDup (columns es) /\ forall v, v ∈ columns es -> vs !! v = None) -> exists m, try_fold add_value vs lines = Err m).
Proof.
  intros Hes. cbv zeta. revert k vs. induction Hes as [|e es He Hes IH]; intros k vs.
  - split; [intros _ _; cbn; by rewrite (right_id_L ∅ (∪))|]. intros H. exfalso. apply H. split; [constructor|]. intros v Hv. by apply not_elem_of_nil in Hv.
  - cbn [length seq map]. change (zip (k :: ?a) (?x :: ?b)) with ((k, x) :: zip a b). cbn [try_fold]. destruct (add_listed vs k e He) as (a & Ha & Hadd).
    unfold columns. cbn [omap list_omap]. destruct (entry e) as [row|v].
    + destruct Hadd as [-> ->]. cbn [rbind]. apply IH.
    + destruct Hadd as [-> Hadd]. cbn [map fst list_to_map foldr]. fold (columns es). destruct (vs !! v) as [x|] eqn:Ev.
      * destruct Hadd as [m ->]. split; [|by exists m]. intros _ Hn. rewrite (Hn v) in Ev by (by left). done.
      * rewrite Hadd. cbn [rbind]. destruct (IH (S k) (<[v := a]> vs)) as [H1 H2]. split.
        -- intros [Hv Hnd]%NoDup_cons Hn. rewrite H1; [|done|].
           ++ cbn. rewrite <- insert_union_l, insert_union_r by done. done.
           ++ intros w Hw. rewrite lookup_insert_ne; [apply Hn; by right|]. intros ->. done.
        -- intros Hn. apply H2. intros [Hnd Hw]. apply Hn. split.
           ++ apply NoDup_cons. split; [|done]. intros Hv. specialize (Hw v Hv). by rewrite lookup_insert_eq in Hw.
           ++ intros w [->|Hw']%elem_of_cons; [done|]. specialize (Hw w Hw'). by apply lookup_insert_None in Hw as [? _].
Qed.

(** A solution file is read as what it lists: whatever the order and the padding,
    each column once gives exactly the listed values; a row is never taken for a
    column, because the writer keeps its name out of the names of columns; and a column
    listed twice is refused. *)
Theorem listing_roundtrip header st obj es : Str.all in_line header = true -> parse_header header = Ok (st, obj) -> Forall listed_ok es ->
  (NoDup (columns es) -> parse_sol (listing header es) = Ok (mkSolution st obj (list_to_map (omap column_value es)))) /\
  (~ NoDup (columns es) -> exists m, parse_sol (listing header es) = Err m).
Proof.
  intros Hh Hp Hes. unfold parse_sol, listing. unfold Str.lines. rewrite (lines_text header "" _ Hh eq_refl). cbn [String.append].
  assert (El : Str.lines (fold_right (fun e s => listed_line e +:+ String "010" s) "" es) = map listed_line es).
  { clear - Hes. induction Hes as [|e es He _ IH]; [done|]. cbn [fold_right map]. unfold Str.lines. destruct (listed_padded e He) as (l & El & Hl & _).
    rewrite lines_text by (done || (rewrite El; by apply padded_in_line)). cbn [String.append]. by rewrite IH. }
  rewrite El, Hp. cbn [rbind]. unfold enumerate. rewrite length_map. destruct (fold_listed es 0 ∅ Hes) as [H1 H2]. split.
  - intros Hn. rewrite H1; [|done|by intros]. cbn [rbind]. by rewrite (left_id_L ∅ (∪)).
  - intros Hn. destruct H2 as [m ->]; [|by exists m]. intros [? _]. done.
Qed.

(** What a listing that is read yields. *)
Lemma listing_values header es s : Str.all in_line header = true -> Forall listed_ok es -> parse_sol (listing header es) = Ok s ->
  NoDup (columns es) /\ values s = list_to_map (omap column_value es).
Proof.
  intros Hh Hes H. assert (Hp : exists st obj, parse_header header = Ok (st, obj)).
  { pose proof H as H'. unfold parse_sol, listing, Str.lines in H'. rewrite (lines_text header "" _ Hh eq_refl) in H'. cbn [String.append] in H'.
    apply rbind_ok in H' as ([st obj] & Hp & _). by exists st, obj. }
  destruct Hp as (st & obj & Hp). destruct (listing_roundtrip header st obj es Hh Hp Hes) as [H1 H2].
  destruct (decide (NoDup (columns es))) as [Hn|Hn]; [|destruct (H2 Hn) as [m Hm]; congruence]. rewrite (H1 Hn) in H. by injection H as <-.
Qed.

(** ** The incumbent *)

(** *** What a checked incumbent satisfies

    Stated on the values alone.  The tolerance is a millionth of the largest of one and
    the finite magnitudes involved. *)

Definition micro : f64 := F64.div F64.one (F64.of_Z 1000000).

Definition larger (scale v : f64) : f64 := if F64.is_finite v then F64.max scale (F64.abs v) else scale.

Definition value (vs : gmap LpVar f64) (x : LpVar) : f64 := default F64.zero (vs !! x).

(** The value of an expression, summed from its constant on, and the sum of the
    magnitudes of its terms. *)
Definition weigh (vs : gmap LpVar f64) (e : LinExpr) : f64 :=
  fold_left (fun acc t => F64.add acc (F64.mul t.1 (value vs t.2))) (terms e) (constant e).
Definition activity (vs : gmap LpVar f64) (e : LinExpr) : f64 :=
  fold_left (fun acc t => F64.add acc (F64.abs (F64.mul t.1 (value vs t.2)))) (terms e) (F64.abs (constant e)).

(** Not below the lower bound, not above the upper one, and for a binary variable
    next to an integer. *)
Record in_domain (d : VarDef) (v : f64) : Prop := {
  in_finite : F64.is_finite v = true;
  in_lower : F64.ltb v (F64.sub (lower d) (F64.mul micro (larger (larger (larger F64.one v) (lower d)) (upper d)))) = false;
  in_upper : F64.ltb (F64.add (upper d) (F64.mul micro (larger (larger (larger F64.one v) (lower d)) (upper d)))) v = false;
  in_integral : kind d = Binary -> F64.ltb micro (F64.abs (F64.sub v (F64.round v))) = false;
}.

Record row_holds (vs : gmap LpVar f64) (c : ConstraintDef) : Prop := {
  rh_variables : Forall (fun t => is_Some (vs !! t.2)) (terms (c_expr c));
  rh_finite : F64.is_finite (weigh vs (c_expr c)) = true;
  rh_holds : let slack := F64.mul micro (larger (larger F64.one (activity vs (c_expr c))) (rhs c)) in
    match op c with
    | Le => F64.leb (weigh vs (c_expr c)) (F64.add (rhs c) slack) = true
    | EqC => F64.leb (F64.abs (F64.sub (weigh vs (c_expr c)) (rhs c))) slack = true
    end;
}.

Record incumbent_ok (m : LpModel) (vs : gmap LpVar f64) : Prop := {
  io_complete : size vs = length (vars m);
  io_domains : forall k d, vars m !! k = Some d -> exists v, vs !! Z.of_nat k = Some v /\ in_domain d v;
  io_rows : Forall (row_holds vs) (constraints m);
}.

Lemma micro_literal : SOLUTION_TOLERANCE = micro. Proof. vm_compute. reflexivity. Qed.

Lemma scaled_larger l : scaled_tolerance l = F64.mul micro (fold_left larger l F64.one).
Proof.
  unfold scaled_tolerance. rewrite micro_literal. f_equal. generalize F64.one as a. induction l as [|v l IH]; intros a; [done|].
  cbn [List.filter fold_left]. unfold larger at 2. destruct (F64.is_finite v); apply IH.
Qed.

Lemma evaluate_weigh e vs a : evaluate e vs = Ok a -> a = weigh vs e /\ F64.is_finite a = true /\ Forall (fun t => is_Some (vs !! t.2)) (terms e).
Proof.
  unfold evaluate, weigh. intros (r & Hr & H)%rbind_ok. destruct (F64.is_finite r) eqn:Ef; [|done]. injection H as <-.
  revert Hr. generalize (constant e) as acc. induction (terms e) as [|[c x] l IH]; intros acc; cbn [try_fold fold_left].
  - intros [= ->]. split; [done|]. split; [done|constructor].
  - unfold value_of, value. cbn [fst snd]. destruct (vs !! x) as [v|] eqn:Ex; [|done]. cbn [ok_or rbind default]. intros (H1 & H2 & H3)%IH.
    split; [exact H1|]. split; [done|]. constructor; [by exists v|done].
Qed.

Lemma constraint_slack e vs r t : constraint_tolerance e vs r = Ok t -> t = F64.mul micro (larger (larger F64.one (activity vs e)) r).
Proof.
  unfold constraint_tolerance, activity. intros (a & Ha & [= <-])%rbind_ok. rewrite scaled_larger. cbn [fold_left]. do 2 f_equal. f_equal.
  revert Ha. generalize (F64.abs (constant e)) as acc. induction (terms e) as [|[c x] l IH]; intros acc; cbn [try_fold fold_left]; [by intros [= ->]|].
  unfold value_of, value. cbn [fst snd]. destruct (vs !! x) as [v|] eqn:Ex; [|done]. cbn [ok_or rbind default].
  destruct (F64.is_finite _); [apply IH|done].
Qed.

Lemma check_var_domain vs k d : check_var vs (k, d) = Ok tt -> exists v, vs !! Z.of_nat k = Some v /\ in_domain d v.
Proof.
  unfold check_var. intros (var & Hk & H)%rbind_ok. unfold u32_of_usize in Hk. destruct (_ <=? _); [|done]. injection Hk as <-.
  apply rbind_ok in H as (v & Hv%ok_or_ok & H). exists v. split; [done|]. destruct (F64.is_finite v) eqn:Ef; [|done]. cbn [negb] in H.
  rewrite scaled_larger in H. cbn [fold_left] in H. unfold F64.gtb in H. destruct (_ || _) eqn:Eb; [done|]. apply orb_false_elim in Eb as [H1 H2].
  split; [done|exact H1|exact H2|]. intros Hb. rewrite Hb, micro_literal in H. cbn [is_binary andb] in H. by destruct (F64.ltb micro _).
Qed.

Lemma check_constraint_row vs c : check_constraint vs c = Ok tt -> row_holds vs c.
Proof.
  unfold check_constraint. intros (a & (-> & Hf & Hv)%evaluate_weigh & H)%rbind_ok. apply rbind_ok in H as (t & ->%constraint_slack & H).
  split; [done|done|]. cbv zeta. destruct (op c); by destruct (F64.leb _ _).
Qed.

Lemma validate_incumbent s m u : is_found s = true -> validate_for s m = Ok u -> incumbent_ok m (values s).
Proof.
  intros Hf. unfold validate_for. rewrite Hf. cbn [negb]. destruct (negb (F64.is_finite _)); [done|].
  destruct (Nat.eqb_spec (size (values s)) (length (vars m))); [|done]. cbn [negb]. intros H.
  apply rbind_ok in H as ([] & Hv%try_each_ok & H). apply rbind_ok in H as ([] & Hc%try_each_ok & _). split; [done| |].
  - intros k d Hk. apply check_var_domain. rewrite Forall_forall in Hv. apply Hv. by apply Ir.elem_of_enumerate.
  - eapply Forall_impl; [exact Hc|]. intros c. apply check_constraint_row.
Qed.

Lemma canonical_objective s m s' : is_found s = true -> canonicalize_objective s m = Ok s' ->
  status s' = status s /\ values s' = values s /\ evaluate (objective m) (values s) = Ok (sol_objective s').
Proof. intros Hf. unfold canonicalize_objective. rewrite Hf. intros (o & Ho & [= <-])%rbind_ok. by repeat split. Qed.

Lemma validated_solution s m s' : validate_solution s m = Ok s' -> status s' = status s /\ values s' = values s /\
  (is_found s' = true -> incumbent_ok m (values s') /\ sol_objective s' = weigh (values s') (objective m)).
Proof.
  unfold validate_solution. destruct (is_found s) eqn:Ef.
  - assert (Hgo : forall x, status x = status s -> values x = values s -> forall u, validate_for x m = Ok u -> canonicalize_objective x m = Ok s' ->
      status s' = status s /\ values s' = values s /\ (is_found s' = true -> incumbent_ok m (values s') /\ sol_objective s' = weigh (values s') (objective m))).
    { intros x Hs Hv u Hu Hc. assert (Hx : is_found x = true) by (unfold is_found in *; by rewrite Hs).
      pose proof (validate_incumbent x m u Hx Hu) as Hi. apply canonical_objective in Hc as (H1 & H2 & (H3 & _)%evaluate_weigh); [|done]. rewrite H1, H2.
      split; [done|]. split; [done|]. by intros _. }
    destruct (validate_for s m) as [u|e|] eqn:E; [by apply (Hgo s eq_refl eq_refl u)| |done].
    destruct (validate_for (with_objective _ _) m) as [u|e'|] eqn:E'; [|done|done]. by apply (Hgo (with_objective s (F64.add (sol_objective s) (constant (objective m)))) eq_refl eq_refl u).
  - destruct (validate_for s m); [|done|done]. unfold canonicalize_objective. rewrite Ef. intros [= <-]. split; [done|]. split; [done|]. by rewrite Ef.
Qed.

(** C29: the backend returns only what it has checked. A solution comes from the file of
    a process that succeeded on the text of the model, and when that file lists columns and
    rows, its values are exactly the listed ones, each column once. When it claims an
    incumbent, there is a value for each variable and no other; each is finite, not below
    its lower bound nor above its upper one by more than the tolerance, and within a
    millionth of an integer when the variable is binary; each row holds within the
    tolerance, on values that are all there; and the objective is the model's, evaluated at
    these values, whichever of the two conventions the file follows. The tolerance is a
    millionth of the largest of one and the finite magnitudes involved; the arithmetic is
    the code's, in doubles. *)
Theorem incumbent_checked program tempdir write_file run read_to_string m o s :
  cbc_solve program tempdir write_file run read_to_string m o = Ok s ->
  exists dir text output file, tempdir = inr dir /\ write_cplex_lp m = Ok text /\ write_file (dir +:+ "/model.lp") text = inr tt /\
    run program (command (dir +:+ "/model.lp") (dir +:+ "/model.sol") o) = inr output /\ exit_code output = Some 0 /\
    read_to_string (dir +:+ "/model.sol") = inr file /\
    (forall header es, file = listing header es -> Str.all in_line header = true -> Forall listed_ok es ->
       NoDup (columns es) /\ values s = list_to_map (omap column_value es)) /\
    (is_found s = true -> incumbent_ok m (values s) /\ sol_objective s = weigh (values s) (objective m)).
Proof.
  unfold cbc_solve, io_result. intros ([] & _ & H)%rbind_ok. destruct tempdir as [e|dir]; [done|]. cbn [rbind] in H.
  apply rbind_ok in H as (text & Ht & H). destruct (write_cplex_lp m) as [text'|e|]; cbn in Ht; [injection Ht as ->|done|done].
  destruct (write_file _ text) as [e|[]] eqn:Ew; [done|]. cbn [rbind] in H. destruct (run program _) as [e|output] eqn:Er; [done|]. cbn [rbind] in H.
  destruct (success output) eqn:Es; [|done]. cbn [negb] in H. destruct (read_to_string _) as [e|file] eqn:Ef; [done|].
  apply rbind_ok in H as (reported & Hp & Hv). apply validated_solution in Hv as (H1 & H2 & H3).
  exists dir, text, output, file. split_and!; try done.
  - unfold success in Es. destruct (exit_code output) as [c|]; [|done]. by apply Z.eqb_eq in Es as ->.
  - intros header es -> Hh Hes. rewrite H2. by eapply listing_values.
Qed.

(** ** A concrete solve *)

Definition tiny : LpModel := mkModel (mkExpr [(F64.of_Z 2, 0)] F64.one) [mkVar "pick" Binary F64.zero F64.one] [mkConstraint "x0" (sum_expr [(F64.one, 0)]) EqC F64.one].

Definition tiny_header : string := "Optimal - objective value 2".
Definition tiny_rows : list Listed := [mkListed false 0 (inl "x0") "1" "0" (0, 5, 1, 20, 20)%nat; mkListed true 0 (inr 0) "1" "2" (0, 0, 1, 20, 20)%nat].

Lemma tiny_ok : Forall listed_ok tiny_rows.
Proof.
  assert (Hone : exists a, F64Text.parse "1" = Some a /\ F64.is_finite a = true) by (eexists; split; vm_compute; reflexivity).
  assert (Htok : forall t, t = "1" \/ t = "0" \/ t = "2" -> token t) by (intros t [-> | [-> | ->]]; done).
  unfold tiny_rows. apply Forall_cons; split; [split|apply Forall_cons; split; [split|by apply Forall_nil]]; cbn [entry position value_text dual_text]; try (by unfold in_u32); try exact Hone;
    try (split; apply Htok; auto); intros v [= <-]; by unfold in_u32.
Qed.

Lemma listing_roundtrip_witness : exists st obj, parse_header tiny_header = Ok (st, obj) /\
  parse_sol (listing tiny_header tiny_rows) = Ok (mkSolution st obj (list_to_map (omap column_value tiny_rows))) /\ length (omap column_value tiny_rows) = 1%nat.
Proof.
  destruct (parse_header tiny_header) as [[st obj]|e|] eqn:E; [|by vm_compute in E..]. exists st, obj. split; [done|]. split; [|by vm_compute].
  assert (Hn : NoDup (columns tiny_rows)) by (replace (columns tiny_rows) with [0] by (by vm_compute); apply NoDup_singleton).
  assert (Hh : Str.all in_line tiny_header = true) by (by vm_compute).
  exact (proj1 (listing_roundtrip tiny_header st obj tiny_rows Hh E tiny_ok) Hn).
Defined.

(** A process that writes the file above. *)
Definition tiny_solve : res SolverError LpSolution :=
  cbc_solve "cbc" (inr "/tmp/a") (fun _ _ => inr tt) (fun _ _ => inr (mkOutput (Some 0) [] [])) (fun _ => inr (listing tiny_header tiny_rows)) tiny (mkOpts None (Some 1) None).

(** The reported objective leaves the constant out; the one returned has it. *)
Lemma incumbent_checked_witness : exists s, tiny_solve = Ok s /\ is_found s = true /\ sol_objective s = F64.of_Z 3 /\ incumbent_ok tiny (values s).
Proof.
  destruct tiny_solve as [s|e|] eqn:E; [|by vm_compute in E..]. exists s. split; [done|].
  assert (H : is_found s = true /\ sol_objective s = F64.of_Z 3) by (vm_compute in E; injection E as <-; split; vm_compute; reflexivity).
  destruct H as [Hf Ho]. split; [done|]. split; [done|].
  destruct (incumbent_checked "cbc" (inr "/tmp/a") (fun _ _ => inr tt) (fun _ _ => inr (mkOutput (Some 0) [] [])) (fun _ => inr (listing tiny_header tiny_rows)) tiny
    (mkOpts None (Some 1) None) s E) as (_ & _ & _ & _ & _ & _ & _ & _ & _ & _ & _ & H). by apply H.
Defined.
