(* ===== verification/Timing.v ===== *)
(** * Link timing

    [tapa-xilinx/src/tools/vitis/timing.rs]: the narrow parser of a Vivado timing
    summary, which reads the rows of one clock; the frequency a clock period asks
    for ([tools/vitis/mod.rs]); and what a link returns ([tools/mod.rs], with the
    errors of [error.rs]). *)

From Stdlib Require Import SpecFloat.
From S2P Require Import Prelude RustStd Names Connectivity F64 F64Spec F64Text Clock.

Local Open Scope Z_scope.

(** ** Errors *)

(** Errors of libraries and of the file system are their text. *)
Inductive XilinxError :=
| SlashLink (detail : string)
| ConfigError (path source : string)
| ToolFailure (tool : string) (code : Z) (stderr : string)
| ToolTimeout (tool : string) (timeout_secs : Z)
| ToolSignaled (tool : string)
| SshConnect (host detail : string)
| SshMuxLost (detail : string)
| RemoteTransfer (detail : string)
| DeviceConfig (path detail : string)
| PlatformNotFound (path : string)
| HlsReportParse (detail : string)
| HlsRetryExhausted (attempts : Z)
| InvalidFrequency (detail : string)
| MissingHardwareTiming
| VitisLink (detail : string)
| TimingSummaryParse (detail : string)
| KernelXml (detail : string)
| XoRedaction (detail : string)
| TemplateError (detail : string)
| AieGraph (detail : string)
| AieReportIo (path source : string)
| AieReportJson (path source : string)
| AieReportParse (path detail : string)
| XilinxIo (source : string)
| XilinxZip (source : string)
| XilinxXml (source : string)
| XilinxJson (source : string).

(** [Display]. *)
Definition xilinx_error_str (e : XilinxError) : string :=
  match e with
  | SlashLink d => "SLASH link error: " +:+ d
  | ConfigError p s => "malformed .taparc config at " +:+ p +:+ ": " +:+ s
  | ToolFailure p c s => "tool `" +:+ p +:+ "` exited with code " +:+ (if c <? 0 then "-" else "") +:+ Str.show (Z.abs c) +:+ ":" +:+ String "010" s
  | ToolTimeout p t => "tool `" +:+ p +:+ "` timed out after " +:+ Str.show t +:+ "s"
  | ToolSignaled p => "tool `" +:+ p +:+ "` was killed by signal"
  | SshConnect h d => "SSH connection to " +:+ h +:+ " failed: " +:+ d
  | SshMuxLost d => "SSH control master lost: " +:+ d
  | RemoteTransfer d => "remote file transfer failed: " +:+ d
  | DeviceConfig p d => "device config parse error at " +:+ p +:+ ": " +:+ d
  | PlatformNotFound p => "platform file not found: " +:+ p
  | HlsReportParse d => "HLS report parse error: " +:+ d
  | HlsRetryExhausted n => "HLS synthesis failed after " +:+ Str.show n +:+ " attempts"
  | InvalidFrequency d => "invalid implementation frequency: " +:+ d
  | MissingHardwareTiming => "link output carries no routed hardware timing; simulation links produce none"
  | VitisLink d => "Vitis link error: " +:+ d
  | TimingSummaryParse d => "timing summary parse error: " +:+ d
  | KernelXml d => "kernel.xml generation failed: " +:+ d
  | XoRedaction d => ".xo redaction failed: " +:+ d
  | TemplateError d => "template render error: " +:+ d
  | AieGraph d => "AI Engine graph: " +:+ d
  | AieReportIo p s => "failed to read AI Engine report " +:+ p +:+ ": " +:+ s
  | AieReportJson p s => "malformed AI Engine JSON report " +:+ p +:+ ": " +:+ s
  | AieReportParse p d => "malformed AI Engine report " +:+ p +:+ ": " +:+ d
  | XilinxIo s | XilinxZip s | XilinxXml s | XilinxJson s => s
  end.

Definition tool_exit_code (e : XilinxError) : option Z := match e with ToolFailure _ c _ => Some c | _ => None end.

(** ** The requested frequency *)

Definition target_frequency_mhz (clock_period_ns : f64) : res XilinxError Z :=
  if negb (F64.is_finite clock_period_ns) || F64.leb clock_period_ns F64.zero then
    Err (InvalidFrequency ("clock period must be finite and positive, got `" +:+ F64Text.show clock_period_ns +:+ "` ns"))
  else
    let floored := F64.floor (F64.div (F64.of_Z 1000) clock_period_ns) in
    if negb (F64.is_finite floored) || negb (F64.leb F64.one floored && F64.leb floored (F64.of_Z U32_MAX)) then
      Err (InvalidFrequency ("clock period `" +:+ F64Text.show clock_period_ns +:+ "` ns produces unsupported target `" +:+ F64Text.show floored +:+ "` MHz"))
    else Ok (F64.to_u32 floored).

(** ** The timing summary *)

(** [str::split] at a string that is not empty; every split removes it, so the
    length is enough fuel. *)
Fixpoint split_str_from (fuel : nat) (p s : string) : list string :=
  match fuel with
  | O => [s]
  | S n => match Str.split_once_str p s with Some (l, r) => l :: split_str_from n p r | None => [s] end
  end.
Definition split_str (p s : string) : list string := split_str_from (String.length s) p s.

Definition FREQUENCY_MATCH_TOLERANCE_MHZ : f64 := F64.one.

Record KernelTiming := mkTiming {
  reported_target_period_ns : f64;
  reported_target_mhz : f64;
  wns_ns : f64;
  achieved_period_ns : f64;
  fmax_mhz : f64;
}.

Record TableRow := mkRow { headers : list string; row_values : list string }.

Definition clock_name (row : TableRow) : string := Str.trim (match row_values row with v :: _ => v | [] => "" end).

Definition split_columns (line : string) : list string :=
  List.filter (fun column => negb (Str.is_empty column)) (map Str.trim (split_str "  " line)).

Definition parse_error {A} (detail : string) : res XilinxError A := Err (TimingSummaryParse detail).

(** [position]. *)
Fixpoint position_of (name : string) (l : list string) : option nat :=
  match l with
  | [] => None
  | h :: l' => if String.eqb h name then Some 0%nat else match position_of name l' with Some i => Some (S i) | None => None end
  end.

Definition parse_field (row : TableRow) (name : string) : res XilinxError f64 :=
  let! index := ok_or (position_of name (headers row)) (TimingSummaryParse ("missing `" +:+ name +:+ "` column")) in
  let! value := ok_or (row_values row !! index) (TimingSummaryParse ("missing value for `" +:+ name +:+ "` column")) in
  ok_or (F64Text.parse value) (TimingSummaryParse ("invalid `" +:+ name +:+ "` value `" +:+ value +:+ "`")).

Definition finite (label : string) (value : f64) : res XilinxError f64 :=
  if F64.is_finite value then Ok value
  else parse_error (label +:+ " must be finite, got `" +:+ F64Text.show value +:+ "`").

Definition positive_finite (label : string) (value : f64) : res XilinxError f64 :=
  if F64.is_finite value && F64.gtb value F64.zero then Ok value
  else parse_error (label +:+ " must be finite and positive, got `" +:+ F64Text.show value +:+ "`").

Definition is_header (line : string) : bool :=
  match split_columns line with "Clock" :: _ :: _ => true | _ => false end.

(** The rows after the header: they start after a line of dashes, and end at an
    empty line. *)
Fixpoint table_rows (hs : list string) (saw_separator : bool) (lines : list string) : list TableRow :=
  match lines with
  | [] => []
  | line :: rest =>
      let trimmed := Str.trim line in
      if negb saw_separator then table_rows hs (Str.starts_with "-" trimmed) rest
      else if Str.is_empty trimmed then []
      else match split_columns line with
        | [] => table_rows hs true rest
        | vs => mkRow hs vs :: table_rows hs true rest
        end
  end.

Definition clock_rows (report title : string) : res XilinxError (list TableRow) :=
  let lines := Str.lines report in
  let marker := "| " +:+ title in
  let! section_start :=
    match map fst (List.filter (fun x => String.eqb (Str.trim x.2) marker) (enumerate lines)) with
    | [index] => Ok index
    | [] => parse_error ("missing `" +:+ title +:+ "` section")
    | _ => parse_error ("ambiguous `" +:+ title +:+ "` sections")
    end in
  let! header := ok_or (find_first (fun x => is_header x.2) (take 16 (drop (section_start + 1) (enumerate lines))))
    (TimingSummaryParse ("missing table header in `" +:+ title +:+ "`")) in
  Ok (table_rows (split_columns header.2) false (drop (header.1 + 1) lines)).

Definition unique_clock_row (report title clock : string) : res XilinxError TableRow :=
  let! rows := clock_rows report title in
  match List.filter (fun row => String.eqb (clock_name row) clock) rows with
  | [row] =>
      if Nat.eqb (length (headers row)) (length (row_values row)) then Ok row
      else parse_error ("malformed `" +:+ clock +:+ "` row in `" +:+ title +:+ "`: expected " +:+ Str.show (Z.of_nat (length (headers row)))
        +:+ " columns, found " +:+ Str.show (Z.of_nat (length (row_values row))))
  | [] => parse_error ("missing `" +:+ clock +:+ "` row in `" +:+ title +:+ "`")
  | _ => parse_error ("ambiguous `" +:+ clock +:+ "` rows in `" +:+ title +:+ "`")
  end.

Definition matches_target (target : f64) (row : TableRow) : bool :=
  match parse_field row "Frequency(MHz)" with
  | Ok freq => F64.leb (F64.abs (F64.sub freq target)) FREQUENCY_MATCH_TOLERANCE_MHZ
  | _ => false
  end.

Definition identify_kernel_clock (report : string) (target_mhz : option Z) : res XilinxError string :=
  let! clocks := clock_rows report "Clock Summary" in
  let by_frequency := (let? target := target_mhz in find_first (matches_target (F64.of_Z target)) clocks) in
  match by_frequency with
  | Some row => Ok (clock_name row)
  | None =>
      let! row := ok_or (find_first (fun row => String.eqb (clock_name row) "ap_clk") clocks)
        (TimingSummaryParse (match target_mhz with
          | Some target => "no kernel clock matching target frequency " +:+ Str.show target +:+ " MHz or named `ap_clk` in `Clock Summary`"
          | None => "missing `ap_clk` row in `Clock Summary`"
          end)) in
      Ok (clock_name row)
  end.

Definition parse_named_clock_timing_summary (report clock : string) : res XilinxError KernelTiming :=
  let! clock_row := unique_clock_row report "Clock Summary" clock in
  let! intra_row := unique_clock_row report "Intra Clock Table" clock in
  let! period := parse_field clock_row "Period(ns)" in
  let! period := positive_finite "kernel Period(ns)" period in
  let! mhz := parse_field clock_row "Frequency(MHz)" in
  let! mhz := positive_finite "kernel Frequency(MHz)" mhz in
  let! wns := parse_field intra_row "WNS(ns)" in
  let! wns := finite "kernel WNS(ns)" wns in
  let! achieved := positive_finite "kernel achieved period" (F64.sub period wns) in
  let! fmax := positive_finite "kernel Fmax" (F64.div (F64.of_Z 1000) achieved) in
  Ok (mkTiming period mhz wns achieved fmax).

Definition parse_kernel_timing_summary (report : string) (target_mhz : option Z) : res XilinxError KernelTiming :=
  let! kernel_clock := identify_kernel_clock report target_mhz in
  parse_named_clock_timing_summary report kernel_clock.

Definition parse_named_clock_wns (report clock : string) : res XilinxError f64 :=
  let! row := unique_clock_row report "Intra Clock Table" clock in
  let! wns := parse_field row "WNS(ns)" in
  finite "clock WNS(ns)" wns.

Definition parse_named_clock_whs (report clock : string) : res XilinxError f64 :=
  let! row := unique_clock_row report "Intra Clock Table" clock in
  let! whs := parse_field row "WHS(ns)" in
  finite "clock WHS(ns)" whs.

(** ** The outcome of a link *)

Record ToolOutput := mkToolOutput { exit_code : Z; tool_stdout : string; tool_stderr : string }.

Record LinkOutput := mkLinkOutput {
  bitstream : string;
  requested_mhz : Z;
  recorded_mhz : f64;
  timing : option KernelTiming;
  timing_report : option string;
  link_stdout : string;
  link_stderr : string;
}.

Definition hardware_timing (o : LinkOutput) : res XilinxError KernelTiming := ok_or (timing o) MissingHardwareTiming.
Definition hardware_timing_report (o : LinkOutput) : res XilinxError string := ok_or (timing_report o) MissingHardwareTiming.

Definition merged_failure_output (stdout stderr : string) : string :=
  match Str.is_empty stdout, Str.is_empty stderr with
  | true, _ => stderr
  | _, true => stdout
  | false, false => "stdout:" +:+ String "010" stdout +:+ String "010" ("stderr:" +:+ String "010" stderr)
  end.

Definition tool_failure (tool : string) (out : ToolOutput) : XilinxError :=
  ToolFailure tool (exit_code out) (merged_failure_output (tool_stdout out) (tool_stderr out)).

(** ** The frequency of a period *)

(** A quotient of numbers of ordinary size is off by less than a part in [2^53]. *)
Definition ordinary (a : f64) : Prop := F64Spec.fin a /\ F64Spec.UNIT <= F64Spec.units a * 2 ^ 60 /\ F64Spec.units a <= 2 ^ 60 * F64Spec.UNIT.

Lemma ordinary_Z z : 1 <= z <= 2 ^ 53 -> ordinary (F64.of_Z z) /\ F64Spec.units (F64.of_Z z) = z * F64Spec.UNIT.
Proof.
  intros Hz. destruct (F64Spec.of_Z_exact z ltac:(lia)) as [Hf Hv]. change (2 ^ F64Spec.K) with F64Spec.UNIT in Hv.
  pose proof F64Spec.UNIT_pos. change (2 ^ 53) with 9007199254740992 in Hz. split; [|exact Hv]. split; [exact Hf|]. rewrite Hv.
  change (2 ^ 60) with 1152921504606846976. nia.
Qed.

Lemma div_close a b : ordinary a -> ordinary b -> let c := F64.div a b in
  F64Spec.fin c /\ Z.abs (F64Spec.units c * F64Spec.units b - F64Spec.units a * F64Spec.UNIT) * 2 ^ 53 <= F64Spec.units a * F64Spec.UNIT.
Proof.
  intros (Ha & La & Ua) (Hb & Lb & Ub). cbv zeta. pose proof F64Spec.UNIT_pos as HU.
  set (n := F64Spec.units a * F64Spec.UNIT). assert (Hpos : 0 < F64Spec.units a /\ 0 < F64Spec.units b) by nia.
  assert (Hlo : 2 ^ 1200 <= n / F64Spec.units b).
  { apply Z.div_le_lower_bound; [lia|]. apply Z.le_trans with (2 ^ 60 * F64Spec.UNIT * 2 ^ 1200); [apply Z.mul_le_mono_nonneg_r; [by vm_compute|lia]|].
    apply Z.mul_le_mono_pos_r with (2 ^ 60); [by vm_compute|]. unfold n. replace (F64Spec.units a * F64Spec.UNIT * 2 ^ 60) with (F64Spec.units a * 2 ^ 60 * F64Spec.UNIT) by ring.
    apply Z.le_trans with (F64Spec.UNIT * F64Spec.UNIT); [vm_compute; congruence|apply Z.mul_le_mono_nonneg_r; lia]. }
  assert (Hhi : n / F64Spec.units b < 2 ^ (1000 + F64Spec.K)).
  { apply Z.div_lt_upper_bound; [lia|]. apply Z.mul_lt_mono_pos_r with (2 ^ 60); [by vm_compute|].
    apply Z.le_lt_trans with (2 ^ 60 * F64Spec.UNIT * F64Spec.UNIT * 2 ^ 60); [unfold n; apply Z.mul_le_mono_nonneg_r; [by vm_compute|nia]|].
    replace (F64Spec.units b * 2 ^ (1000 + F64Spec.K) * 2 ^ 60) with (F64Spec.units b * 2 ^ 60 * 2 ^ (1000 + F64Spec.K)) by ring.
    apply Z.lt_le_trans with (F64Spec.UNIT * 2 ^ (1000 + F64Spec.K)); [by vm_compute|apply Z.mul_le_mono_nonneg_r; [by vm_compute|lia]]. }
  destruct (F64Spec.div_spec a b Ha Hb ltac:(lia) ltac:(lia) (conj Hlo Hhi)) as [Hf ->]. split; [exact Hf|].
  apply F64Spec.round_quotient_relative; [lia|]. apply Z.le_trans with (2 := Hlo). vm_compute; congruence.
Qed.

Lemma floor_spec a : F64Spec.fin a -> 0 <= F64Spec.units a <= 2 ^ 53 * F64Spec.UNIT ->
  F64Spec.fin (F64.floor a) /\ F64Spec.units (F64.floor a) = F64Spec.units a / F64Spec.UNIT * F64Spec.UNIT.
Proof.
  intros Ha [Hu Hmax]. pose proof F64Spec.UNIT_pos as HU. destruct (F64Spec.fin_cases a Ha Hu) as [[E [s ->]]|(m & e & -> & He & E & _)]; [done|].
  rewrite E in Hmax |- *. unfold F64.floor. destruct (Z.leb_spec 0 e) as [H0|H0].
  - rewrite E. split; [exact Ha|]. rewrite (Z.pow_add_r 2 e) by (unfold F64Spec.K; lia). fold F64Spec.UNIT. by rewrite Z.mul_assoc, Z.div_mul by lia.
  - assert (Eq : Z.pos m / 2 ^ (- e) = Z.pos m * 2 ^ (e + F64Spec.K) / F64Spec.UNIT).
    { rewrite <- F64Spec.trunc_units by (unfold F64Spec.K; lia). unfold F64.trunc_abs. by rewrite (proj2 (Z.leb_gt _ _)) by lia. }
    rewrite Eq. set (q := Z.pos m * 2 ^ (e + F64Spec.K) / F64Spec.UNIT) in *.
    assert (Hq : 0 <= q <= 2 ^ 53) by (split; [apply Z.div_pos; lia|apply Z.div_le_upper_bound; lia]).
    destruct q as [|p|p] eqn:Ep; [done| |lia]. apply (F64Spec.of_Z_exact (Z.pos p) Hq).
Qed.

Lemma nanoseconds_close p : 1 <= p <= 2 ^ 50 -> ordinary (nanoseconds p) /\
  Z.abs (F64Spec.units (nanoseconds p) * 1000 - p * F64Spec.UNIT) * 2 ^ 53 <= p * F64Spec.UNIT.
Proof.
  intros Hp. pose proof F64Spec.UNIT_pos as HU. change (2 ^ 50) with 1125899906842624 in Hp.
  destruct (ordinary_Z p ltac:(lia)) as [Op Vp]. destruct (ordinary_Z 1000 ltac:(lia)) as [Ot Vt].
  destruct (div_close _ _ Op Ot) as [Hf Hc]. fold (nanoseconds p) in Hf, Hc. rewrite Vp, Vt in Hc. set (u := F64Spec.units (nanoseconds p)) in *.
  assert (Hc' : Z.abs (u * 1000 - p * F64Spec.UNIT) * 2 ^ 53 <= p * F64Spec.UNIT).
  { apply (Z.mul_le_mono_pos_r _ _ F64Spec.UNIT HU). rewrite <- (Z.abs_eq F64Spec.UNIT) at 2 by lia.
    rewrite <- Z.mul_assoc, (Z.mul_comm (2 ^ 53)), Z.mul_assoc, <- Z.abs_mul. by replace ((u * 1000 - p * F64Spec.UNIT) * F64Spec.UNIT) with (u * (1000 * F64Spec.UNIT) - p * F64Spec.UNIT * F64Spec.UNIT) by ring. }
  split; [|exact Hc']. split; [exact Hf|]. fold u. change (2 ^ 53) with 9007199254740992 in Hc'. change (2 ^ 60) with 1152921504606846976. nia.
Qed.

Definition megahertz (p : ClockPeriod) : f64 := F64.div (F64.of_Z 1000) (nanoseconds p).

(** The frequency of [p] picoseconds, times [p]: three roundings away from [10^6]. *)
Lemma megahertz_close p : 1 <= p <= 2 ^ 50 -> F64Spec.fin (megahertz p) /\
  Z.abs (F64Spec.units (megahertz p) * p - 1000000 * F64Spec.UNIT) * 2 ^ 50 <= 1000000 * F64Spec.UNIT.
Proof.
  intros Hp. pose proof F64Spec.UNIT_pos as HU. destruct (nanoseconds_close p Hp) as [On Hn]. destruct (ordinary_Z 1000 ltac:(lia)) as [Ot Vt].
  destruct (div_close _ _ Ot On) as [Hf Hc]. fold (megahertz p) in Hf, Hc. split; [exact Hf|]. rewrite Vt in Hc. clear On Ot Vt Hf.
  set (v := F64Spec.units (megahertz p)) in *. set (u := F64Spec.units (nanoseconds p)) in *. set (U := F64Spec.UNIT) in *. clearbody u v U.
  change (2 ^ 50) with 1125899906842624 in *. change (2 ^ 53) with 9007199254740992 in *.
  assert (Hu : p * U <= 2000 * u /\ u * 1000 <= 2 * (p * U)) by lia.
  assert (Hv : 0 <= v /\ v * p <= 4000000 * U).
  { split; [nia|]. apply (Z.mul_le_mono_pos_r _ _ U HU). assert (v * u <= 2000 * (U * U)) by lia. nia. }
  assert (E1 : Z.abs (v * (u * 1000 - p * U)) * 9007199254740992 <= v * p * U) by (rewrite Z.abs_mul, (Z.abs_eq v) by lia; nia).
  assert (E2 : Z.abs (v * u * 1000 - 1000000 * U * U) * 9007199254740992 <= 1000000 * U * U).
  { replace (v * u * 1000 - 1000000 * U * U) with (1000 * (v * u - 1000 * U * U)) by ring. rewrite Z.abs_mul. change (Z.abs 1000) with 1000. lia. }
  assert (E3 : v * p * U <= 4000000 * U * U) by nia.
  assert (E4 : Z.abs ((v * p - 1000000 * U) * U) * 9007199254740992 <= 5000000 * U * U).
  { replace ((v * p - 1000000 * U) * U) with (v * u * 1000 - 1000000 * U * U - v * (u * 1000 - p * U)) by ring. lia. }
  rewrite Z.abs_mul, (Z.abs_eq U) in E4 by lia. apply (Z.mul_le_mono_pos_r _ _ U HU). lia.
Qed.

(** A period that divides a microsecond has a whole frequency; the quotients
    that are whole come out whole. *)
Definition whole_frequency (p : Z) : bool := if 1000000 mod p =? 0 then F64.to_u64 (F64.floor (megahertz p)) =? 1000000 / p else true.

Lemma whole_frequencies p : 1 <= p <= 1000000 -> 1000000 mod p = 0 -> F64Spec.units (megahertz p) / F64Spec.UNIT = 1000000 / p.
Proof.
  intros Hp Hm. assert (Hall : forallb (fun q => if 1000000 mod q =? 0 then whole_frequency q && whole_frequency (1000000 / q) else true) (zrange 1 1001) = true) by (vm_compute; reflexivity).
  rewrite forallb_forall in Hall. assert (H1 : forall q, 1 <= q <= 1000 -> q ∈ zrange 1 1001) by (intros q Hq; apply elem_of_zrange; lia).
  pose proof (Z.div_mod 1000000 p ltac:(lia)) as Hd. rewrite Hm, Z.add_0_r in Hd. set (q := 1000000 / p) in *.
  assert (Hw : whole_frequency p = true).
  { destruct (Z.leb_spec p 1000) as [Hs|Hs].
    - pose proof (Hall p (proj1 (list_elem_of_In _ _) (H1 p ltac:(lia)))) as H. rewrite Hm in H. by apply andb_true_iff in H as [H _].
    - assert (Hq : 1 <= q <= 1000) by nia. pose proof (Hall q (proj1 (list_elem_of_In _ _) (H1 q Hq))) as H.
      replace (1000000 mod q) with 0 in H by (rewrite Hd, Z.mod_mul; lia). replace (1000000 / q) with p in H by (rewrite Hd, Z.div_mul; lia). by apply andb_true_iff in H as [_ H]. }
  unfold whole_frequency in Hw. rewrite Hm in Hw. apply Z.eqb_eq in Hw. destruct (megahertz_close p ltac:(lia)) as [Hf Hc].
  fold q in Hw. rewrite <- Hw. symmetry. pose proof F64Spec.UNIT_pos. set (U := F64Spec.UNIT) in *. set (v := F64Spec.units (megahertz p)) in *.
  change (2 ^ 50) with 1125899906842624 in Hc. assert (0 <= v <= 2000000 * U) by (clearbody U v; nia).
  apply F64Spec.to_u64_floor; [exact Hf|fold v; lia|fold v U; change (2 ^ 53) with 9007199254740992; lia].
Qed.

Lemma megahertz_floor p : 1 <= p <= 2 ^ 50 -> F64Spec.units (megahertz p) / F64Spec.UNIT = 1000000 / p.
Proof.
  intros Hp. destruct (megahertz_close p Hp) as [_ Hc]. pose proof F64Spec.UNIT_pos as HU. set (v := F64Spec.units (megahertz p)) in *.
  pose proof (Z.div_mod 1000000 p ltac:(lia)) as Hd. pose proof (Z.mod_pos_bound 1000000 p ltac:(lia)) as Hr.
  destruct (Z.eq_dec (1000000 mod p) 0) as [H0|H0].
  - apply whole_frequencies; [|exact H0]. split; [lia|]. apply Z.divide_pos_le; [lia|]. apply Z.mod_divide; lia.
  - set (q := 1000000 / p) in *. set (U := F64Spec.UNIT) in *. clearbody U v q. change (2 ^ 50) with 1125899906842624 in Hc.
    assert (q * U <= v < (q + 1) * U); [|symmetry; apply Z.div_unique with (v - q * U); lia].
    assert (1 * U <= 1000000 mod p * U /\ 1 * U <= (p - 1000000 mod p) * U) as [R1 R2] by (split; apply Z.mul_le_mono_nonneg_r; lia).
    assert (E : 1000000 * U = p * q * U + 1000000 mod p * U) by (rewrite Hd at 1; ring).
    split; [apply (Z.mul_le_mono_pos_r _ _ p ltac:(lia))|apply (Z.mul_lt_mono_pos_r p _ _ ltac:(lia))]; lia.
Qed.

(** C28: the whole-megahertz frequency requested for a clock period is exactly the floor of
    the frequency of the period, never above it, although the period in nanoseconds and
    its inverse are both rounded to floats: for a period of [p] picoseconds, up to twenty
    minutes, it is [10^6 / p] rounded down, and a period of zero or of more than a
    microsecond is refused as an invalid frequency. *)
Theorem target_frequency_exact p : 0 <= p <= 2 ^ 50 ->
  match target_frequency_mhz (nanoseconds p) with
  | Ok f => 1 <= p <= 1000000 /\ f = 1000000 / p /\ f * p <= 1000000 < (f + 1) * p
  | Err e => (p = 0 \/ 1000000 < p) /\ exists detail, e = InvalidFrequency detail
  | Panic => False
  end.
Proof.
  intros Hp. destruct (Z.eq_dec p 0) as [->|Hp0].
  { replace (nanoseconds 0) with F64.zero by (vm_compute; reflexivity). cbn. split; [by left|eauto]. }
  destruct (nanoseconds_close p ltac:(lia)) as [(Fn & Ln & _) _]. destruct (megahertz_close p ltac:(lia)) as [Fm Hc].
  pose proof (megahertz_floor p ltac:(lia)) as Hv. pose proof F64Spec.UNIT_pos as HU. unfold target_frequency_mhz. fold (megahertz p).
  rewrite (proj1 Fn), F64Spec.leb_spec by (done || by vm_compute). change (F64Spec.units F64.zero) with 0.
  rewrite (proj2 (Z.leb_gt _ _)) by nia. cbn [negb orb].
  assert (Hb : 0 <= F64Spec.units (megahertz p) <= 2000000 * F64Spec.UNIT) by (change (2 ^ 50) with 1125899906842624 in Hc; nia).
  destruct (floor_spec (megahertz p) Fm ltac:(change (2 ^ 53) with 9007199254740992; lia)) as [Ff Vf]. rewrite Hv in Vf.
  destruct (ordinary_Z U32_MAX ltac:(unfold U32_MAX; lia)) as [(Fu & _ & _) Vu]. destruct F64Spec.one_spec as [Fo Vo].
  pose proof (Z.div_pos 1000000 p ltac:(lia) ltac:(lia)) as Hq. assert (Hqmax : 1000000 / p <= 1000000) by (apply Z.div_le_upper_bound; nia).
  rewrite (proj1 Ff), !F64Spec.leb_spec, Vo, Vu, Vf by done. cbn [negb orb]. rewrite (proj2 (Z.leb_le (_ * _) (U32_MAX * _))) by (unfold U32_MAX; nia).
  rewrite andb_true_r. pose proof (Z.div_mod 1000000 p ltac:(lia)). pose proof (Z.mod_pos_bound 1000000 p ltac:(lia)).
  destruct (Z.leb_spec F64Spec.UNIT (1000000 / p * F64Spec.UNIT)) as [H1|H1]; cbn [negb].
  - assert (1 <= 1000000 / p) by nia. split; [nia|]. unfold F64.to_u32.
    rewrite F64Spec.to_u64_floor, Hv; [|exact Fm|lia|change (2 ^ 53) with 9007199254740992; lia]. rewrite Z.min_r by (unfold U32_MAX; lia). split; [reflexivity|]. lia.
  - assert (1000000 / p = 0) by nia. split; [right; nia|eauto].
Qed.

Lemma target_frequency_exact_witness : target_frequency_mhz (nanoseconds 3330) = Ok 300 /\
  match target_frequency_mhz (nanoseconds 3333) with
  | Ok f => 1 <= 3333 <= 1000000 /\ f = 1000000 / 3333 /\ f * 3333 <= 1000000 < (f + 1) * 3333
  | Err e => (3333 = 0 \/ 1000000 < 3333) /\ exists detail, e = InvalidFrequency detail
  | Panic => False
  end.
Proof. split; [vm_compute; reflexivity|]. apply (target_frequency_exact 3333). split; [lia|vm_compute; congruence]. Defined.

(** ** What a timing is *)

(** The numbers of a timing that is reported: finite, and consistent. *)
Definition sound_timing (t : KernelTiming) : Prop :=
  F64.is_finite (reported_target_period_ns t) = true /\ F64.is_finite (reported_target_mhz t) = true /\ F64.is_finite (wns_ns t) = true /\
  achieved_period_ns t = F64.sub (reported_target_period_ns t) (wns_ns t) /\ F64.gtb (achieved_period_ns t) F64.zero = true /\
  fmax_mhz t = F64.div (F64.of_Z 1000) (achieved_period_ns t) /\ F64.is_finite (fmax_mhz t) = true /\ F64.gtb (fmax_mhz t) F64.zero = true.

Lemma positive_finite_ok label a b : positive_finite label a = Ok b -> b = a /\ F64.is_finite a = true /\ F64.gtb a F64.zero = true.
Proof. unfold positive_finite. destruct (F64.is_finite a); [|done]. destruct (F64.gtb a F64.zero) eqn:E; [|done]. by intros [= <-]. Qed.

Lemma finite_ok label a b : finite label a = Ok b -> b = a /\ F64.is_finite a = true.
Proof. unfold finite. destruct (F64.is_finite a); [|done]. by intros [= <-]. Qed.

(** A timing is read from the one row of its clock in each of the two tables. *)
Lemma named_clock_timing report clock t : parse_named_clock_timing_summary report clock = Ok t ->
  sound_timing t /\ exists summary intra,
    unique_clock_row report "Clock Summary" clock = Ok summary /\ parse_field summary "Period(ns)" = Ok (reported_target_period_ns t) /\
    parse_field summary "Frequency(MHz)" = Ok (reported_target_mhz t) /\
    unique_clock_row report "Intra Clock Table" clock = Ok intra /\ parse_field intra "WNS(ns)" = Ok (wns_ns t).
Proof.
  unfold parse_named_clock_timing_summary. intros H.
  apply rbind_ok in H as (summary & E1 & H). apply rbind_ok in H as (intra & E2 & H).
  apply rbind_ok in H as (period & E3 & H). apply rbind_ok in H as (period' & [-> [F1 G1]]%positive_finite_ok & H).
  apply rbind_ok in H as (mhz & E4 & H). apply rbind_ok in H as (mhz' & [-> [F2 G2]]%positive_finite_ok & H).
  apply rbind_ok in H as (wns & E5 & H). apply rbind_ok in H as (wns' & [-> F3]%finite_ok & H).
  apply rbind_ok in H as (achieved & [-> [F4 G4]]%positive_finite_ok & H). apply rbind_ok in H as (fmax & [-> [F5 G5]]%positive_finite_ok & H).
  injection H as <-. split; [done|]. exists summary, intra. done.
Qed.

Lemma kernel_timing_sound report target t : parse_kernel_timing_summary report target = Ok t -> sound_timing t.
Proof. intros H. apply rbind_ok in H as (clock & _ & H). by apply named_clock_timing in H as [Hs _]. Qed.

(** ** A report *)

Definition unlines (lines : list string) : string := fold_right (fun l s => l +:+ String "010" s) "" lines.

Definition report (period frequency kernel_wns : string) : string := unlines
  [""; "| Design Timing Summary"; "| ---------------------"; ""; "WNS(ns)      TNS(ns)"; "-------      -------"; "-9.000       -10.000"; "";
   "| Clock Summary"; "| -------------"; "";
   "Clock   Waveform(ns)         Period(ns)      Frequency(MHz)"; "-----   ------------         ----------      --------------";
   "ap_clk  {0.000 1.250}        " +:+ period +:+ "           " +:+ frequency; "other   {0.000 0.500}        1.000           1000.000"; "";
   "| Intra Clock Table"; "| -----------------"; ""; "Clock             WNS(ns)      TNS(ns)"; "-----             -------      -------";
   "ap_clk             " +:+ kernel_wns +:+ "       -604.935"; "other               0.500         0.000"; "";
   "| Inter Clock Table"; "| -----------------"; ""].

Example reads_kernel_rows : match parse_kernel_timing_summary (report "2.500" "400.000" "-0.173") (Some 400) with
  | Ok t => (F64Text.show (reported_target_period_ns t), F64Text.show (wns_ns t), F64Text.show (achieved_period_ns t), F64.to_u64 (fmax_mhz t)) = ("2.5", "-0.173", "2.673", 374)
  | _ => False
  end.
Proof. vm_compute. reflexivity. Qed.

Example refuses_values : parse_kernel_timing_summary (report "0" "400.000" "-0.173") None = parse_error "kernel Period(ns) must be finite and positive, got `0`"
  /\ parse_kernel_timing_summary (report "2.500" "400.000" "inf") None = parse_error "kernel WNS(ns) must be finite, got `inf`"
  /\ parse_kernel_timing_summary (report "2.500" "400.000" "3.000") (Some 400) = parse_error "kernel achieved period must be finite and positive, got `-0.5`"
  /\ parse_kernel_timing_summary (report "2.500" "400.000" "0" +:+ report "2.500" "400.000" "0") (Some 400) = parse_error "ambiguous `Clock Summary` sections".
Proof. vm_compute. done. Qed.
