(* ===== verification/Host.v ===== *)
(** * The host of the vendor tools

    What the wrappers of the vendor tools are written against: paths (the
    standard library's, for Unix), values whose local paths can be moved
    ([tapa-xilinx/src/runtime/value.rs]), invocations and the runner
    ([runtime/process.rs]), and the file system, whose state and operations are
    those of a class.  [HostSpec] says what is used of it. *)

From S2P Require Import Prelude RustStd BTreeMap Names Connectivity Shm CosimSpec Frt Vbin F64 F64Spec F64Text Clock Timing.

Local Open Scope Z_scope.

(** ** Paths *)

#[export] Instance path_component_eq_dec : EqDecision Component.
Proof. solve_decision. Defined.

Module Path.
Definition is_absolute (path : string) : bool := Str.starts_with "/" path.

Definition join_with (sep : string) (parts : list string) : string :=
  match parts with [] => "" | p :: ps => fold_left (fun a b => a +:+ sep +:+ b) ps p end.

(** [Path::join]. *)
Definition join (base path : string) : string :=
  if is_absolute path then path
  else if Str.is_empty base || Str.ends_with "/" base then base +:+ path
  else base +:+ "/" +:+ path.

Definition skippable (part : string) : bool := String.eqb part "" || String.eqb part ".".

Fixpoint skip_while (l : list string) : list string :=
  match l with [] => [] | p :: l' => if skippable p then skip_while l' else l end.
Definition trim_body (body : list string) : list string := List.rev (skip_while (List.rev body)).

(** [Path::parent]: the text before the last component, without the separators
    and the [.]s that end it. *)
Definition parent (path : string) : option string :=
  let assemble (root : string) (body : list string) :=
    match body with [] => root | _ => (if String.eqb root "." then "./" else root) +:+ join_with "/" body end in
  let '(root, body) :=
    match Str.split "/" path with
    | "" :: rest => if is_absolute path then ("/", rest) else ("", [""])
    | "." :: rest => (".", rest)
    | parts => ("", parts)
    end in
  match List.rev (trim_body body) with
  | _ :: before => Some (assemble root (trim_body (List.rev before)))
  | [] => if String.eqb root "." then Some "" else None
  end.

(** [Path::extension] and [Path::file_stem]. *)
Definition extension (path : string) : option string := let? name := Str.file_name path in Frt.extension name.

Definition file_stem (path : string) : option string :=
  let? name := Str.file_name path in
  Some (match Frt.extension name with
    | Some ext => String.substring 0 (String.length name - String.length ext - 1) name
    | None => name
    end).

(** Paths are compared by their components. *)
Definition same (a b : string) : bool := bool_decide (components a = components b).

Fixpoint prefix_of (a b : list Component) : bool :=
  match a, b with
  | [], _ => true
  | x :: a', y :: b' => bool_decide (x = y) && prefix_of a' b'
  | _, _ => false
  end.
Definition starts_with (path base : string) : bool := prefix_of (components base) (components path).
End Path.

Example path_parents : map Path.parent ["/a/b//c"; "/a/./b/"; "/a"; "/"; "a"; "."; "./a"; ""; "a//b/./c/."]
  = [Some "/a/b"; Some "/a"; Some "/"; None; Some ""; Some ""; Some "."; None; Some "a//b"].
Proof. reflexivity. Qed.
Example path_names : map Path.file_stem ["/w/top.xo"; "a.tar.gz"; ".hidden"; ".."; "a/.."] = [Some "top"; Some "a.tar"; Some ".hidden"; None; None]
  /\ map Path.extension ["/w/top.xo"; "a.tar.gz"; ".hidden"; "a."] = [Some "xo"; Some "gz"; None; Some ""].
Proof. done. Qed.

(** ** Tool values and invocations *)

Inductive Part := Literal (value : string) | PathPart (path : string).
Definition ToolValue : Type := list Part.

Definition value_path (path : string) : ToolValue := [PathPart path].
Definition prefixed_path (prefix path : string) : ToolValue := [Literal prefix; PathPart path].
Definition value_from (s : string) : ToolValue := [Literal s].

Definition value_join (values : list ToolValue) (separator : string) : ToolValue :=
  match values with [] => [] | v :: vs => v ++ flat_map (fun x => Literal separator :: x) vs end.

Definition render (resolve : string -> string) (v : ToolValue) : string :=
  Path.join_with "" (map (fun p => match p with Literal s => s | PathPart p => resolve p end) v).
Definition value_display (v : ToolValue) : string := render (fun p => p) v.

Record ToolInvocation := mkInvocation {
  inv_program : string;
  inv_args : list ToolValue;
  inv_env : gmap string ToolValue;
  inv_stdin : option (list Z);
  inv_cwd : option string;
  inv_uploads : list string;
  inv_downloads : list string;
  inv_timeout : option Z;
}.

Definition invocation_new (program : string) : ToolInvocation := mkInvocation program [] ∅ None None [] [] None.

(** [.arg], for each of [l]. *)
Definition add_args (l : list ToolValue) (i : ToolInvocation) : ToolInvocation :=
  mkInvocation (inv_program i) (inv_args i ++ l) (inv_env i) (inv_stdin i) (inv_cwd i) (inv_uploads i) (inv_downloads i) (inv_timeout i).
Definition add_env (key : string) (v : ToolValue) (i : ToolInvocation) : ToolInvocation :=
  mkInvocation (inv_program i) (inv_args i) (<[key := v]> (inv_env i)) (inv_stdin i) (inv_cwd i) (inv_uploads i) (inv_downloads i) (inv_timeout i).
Definition set_cwd (cwd : string) (i : ToolInvocation) : ToolInvocation :=
  mkInvocation (inv_program i) (inv_args i) (inv_env i) (inv_stdin i) (Some cwd) (inv_uploads i) (inv_downloads i) (inv_timeout i).
Definition add_transfers (uploads downloads : list string) (i : ToolInvocation) : ToolInvocation :=
  mkInvocation (inv_program i) (inv_args i) (inv_env i) (inv_stdin i) (inv_cwd i) (inv_uploads i ++ uploads) (inv_downloads i ++ downloads) (inv_timeout i).

Definition local_args (i : ToolInvocation) : list string := map value_display (inv_args i).

Definition is_some {A} (o : option A) : bool := match o with Some _ => true | None => false end.

(** ** The file system and the runner *)

Inductive RemoveError := NotFound | RemoveFailed (text : string).

Class Host (W : Type) := {
  current_dir : W -> option string;
  canonicalize : string -> W -> option string;
  is_file : string -> W -> bool;
  path_exists : string -> W -> bool;
  read_to_string : string -> W -> string + string;
  create_dir_all : string -> W -> (string + unit) * W;
  remove_file : string -> W -> (RemoveError + unit) * W;
  write_file : string -> string -> W -> (string + unit) * W;
  remove_dir_all : string -> W -> (RemoveError + unit) * W;
  temp_in : string -> W -> (string + string) * W;
  rename_file : string -> string -> W -> (string + unit) * W;
  tool_run : ToolInvocation -> W -> (XilinxError + ToolOutput) * W;
}.

(** What is used of it: removing a file removes it; what an operation makes has
    the name it was given, and a temporary file a name of its own; what is
    written is read back, under its new name after a renaming, which happens or
    does not.  What a tool does is its own affair. *)
Class HostSpec (W : Type) `{Host W} := {
  removed : forall p w, (remove_file p w).1 = inr tt \/ (remove_file p w).1 = inl NotFound -> is_file p (remove_file p w).2 = false;
  remove_creates_nothing : forall p q w, is_file q w = false -> is_file q (remove_file p w).2 = false;
  create_dir_creates_no_file : forall p q w, is_file q w = false -> is_file q (create_dir_all p w).2 = false;
  write_creates_its_file : forall p data q w, Str.file_name q <> Str.file_name p -> is_file q w = false -> is_file q (write_file p data w).2 = false;
  temp_named : forall dir w t, (temp_in dir w).1 = inr t -> exists n, Str.file_name t = Some (".tmp" +:+ n);
  temp_creates_its_file : forall dir q w, (forall n, Str.file_name q <> Some (".tmp" +:+ n)) -> is_file q w = false -> is_file q (temp_in dir w).2 = false;
  rename_creates_its_file : forall a b q w, (rename_file a b w).1 <> inr tt \/ Str.file_name q <> Str.file_name b ->
    is_file q w = false -> is_file q (rename_file a b w).2 = false;
  written : forall p data w, (write_file p data w).1 = inr tt -> read_to_string p (write_file p data w).2 = inr data;
  renamed : forall a b w, (rename_file a b w).1 = inr tt -> read_to_string b (rename_file a b w).2 = read_to_string a w;
  remove_keeps : forall p q w, Str.file_name q <> Str.file_name p -> read_to_string q (remove_file p w).2 = read_to_string q w;
}.

(** Computations on the host that can fail. *)
Definition act (W E A : Type) : Type := W -> res E A * W.
Definition act_ret {W E A} (a : A) : act W E A := fun w => (Ok a, w).
Definition act_lift {W E A} (m : res E A) : act W E A := fun w => (m, w).
Definition act_bind {W E A B} (m : act W E A) (k : A -> act W E B) : act W E B := fun w =>
  match m w with
  | (Ok a, w') => k a w'
  | (Err e, w') => (Err e, w')
  | (Panic, w') => (Panic, w')
  end.
(** What is read of the host. *)
Definition asks {W E A} (f : W -> A) : act W E A := fun w => (Ok (f w), w).
Definition act_map_err {W E F A} (f : E -> F) (m : act W E A) : act W F A := fun w => let '(r, w') := m w in (map_err f r, w').

Notation "'act!' x ':=' m 'in' k" := (act_bind m (fun x => k)) (at level 10, x pattern, m at level 200, k at level 200) : rust_scope.

Definition act_option {W E A B} (f : A -> act W E B) (o : option A) : act W E (option B) :=
  match o with Some a => act! b := f a in act_ret (Some b) | None => act_ret None end.

Lemma act_bind_ok {W E A B} (m : act W E A) (k : A -> act W E B) w b w' :
  act_bind m k w = (Ok b, w') <-> exists a w1, m w = (Ok a, w1) /\ k a w1 = (Ok b, w').
Proof.
  unfold act_bind. destruct (m w) as [[a|e|] w1]; split; [eauto|by intros (? & ? & [= <- <-] & H)|done|by intros (? & ? & ? & _)|done|by intros (? & ? & ? & _)].
Qed.

Section host.
Context {W : Type} `{Host W}.

(** [util::absolutize]. *)
Definition absolutize (p : string) : act W XilinxError string := asks (fun w =>
  if Path.is_absolute p then p
  else
    let joined := Path.join (match current_dir w with Some cwd => cwd | None => "." end) p in
    match canonicalize joined w with Some c => c | None => joined end).

(** An operation whose failure is an error of the file system. *)
Definition fs {E A} (io : string -> E) (f : W -> (string + A) * W) : act W E A := fun w =>
  let '(r, w') := f w in (match r with inl e => Err (io e) | inr a => Ok a end, w').

(** Removing what may not be there. *)
Definition remove_stale {E} (io : string -> E) (path : string) (f : string -> W -> (RemoveError + unit) * W) : act W E unit := fun w =>
  let '(r, w') := f path w in
  (match r with inr _ | inl NotFound => Ok tt | inl (RemoveFailed e) => Err (io e) end, w').

Definition validate_input (path label : string) (variant : string -> XilinxError) : act W XilinxError unit := fun w =>
  if is_file path w then (Ok tt, w) else (Err (variant (label +:+ " `" +:+ path +:+ "` is not a file")), w).

Definition runner_run (i : ToolInvocation) : act W XilinxError ToolOutput := fun w =>
  let '(r, w') := tool_run i w in (match r with inl e => Err e | inr o => Ok o end, w').
End host.

(** ** How names end *)

Fixpoint last_char (s : string) : option ascii :=
  match s with EmptyString => None | String c EmptyString => Some c | String _ s' => last_char s' end.

Lemma end_char_app s t : t <> "" -> last_char (s +:+ t) = last_char t.
Proof. intros Ht. induction s as [|c s IH]; [done|]. cbn [String.append last_char]. destruct (s +:+ t) eqn:E; [|exact IH]. by destruct s, t. Qed.

Definition lacks (c : ascii) (s : string) : bool := Str.all (fun d => negb (Ascii.eqb c d)) s.

Lemma split_lacks c t : lacks c t = true -> Str.split c t = [t].
Proof. induction t as [|d t IH]; [done|]. unfold lacks. cbn. destruct (Ascii.eqb c d); [done|]. cbn. intros H. by rewrite IH. Qed.

Lemma split_end c x t : lacks c t = true -> exists pre y, Str.split c (x +:+ t) = pre ++ [y +:+ t].
Proof.
  intros Ht. induction x as [|d x (pre & y & IH)]; [exists [], ""; by apply split_lacks|]. cbn [String.append Str.split].
  destruct (Ascii.eqb c d); [exists ("" :: pre), y; by rewrite IH|]. rewrite IH. destruct pre as [|w pre]; cbn [app]; [by exists [], (String d y)|by exists (String d w :: pre), y].
Qed.

Lemma split_nonempty c s : Str.split c s <> [].
Proof. destruct s as [|d s]; [done|]. cbn. destruct (Ascii.eqb c d); [done|]. by destruct (Str.split c s). Qed.

Lemma split_single c s w : Str.split c s = [w] -> s = w.
Proof.
  revert w. induction s as [|d s IH]; intros w; [by intros [= <-]|]. cbn [Str.split]. pose proof (split_nonempty c s).
  destruct (Ascii.eqb c d); [by destruct (Str.split c s)|]. destruct (Str.split c s) as [|v [|u vs]]; [done| |done]. intros [= <-]. by rewrite (IH v).
Qed.

Lemma split_suffix c s pre e : Str.split c s = pre ++ [e] -> exists x, s = x +:+ e.
Proof.
  revert pre. induction s as [|d s IH]; intros pre; cbn [Str.split].
  { intros E. exists "". destruct pre as [|? [|??]]; simplify_eq/=; done. }
  destruct pre as [|p pre]; cbn [app].
  { intros E. exists "". symmetry. symmetry. by apply (split_single c (String d s) e). }
  pose proof (split_nonempty c s). destruct (Ascii.eqb c d).
  - intros [= _ E]. destruct (IH _ E) as [x ->]. by exists (String d x).
  - destruct (Str.split c s) as [|w ws]; [done|]. intros [= _ E]. destruct (IH (w :: pre)) as [x ->]; [by rewrite E|]. by exists (String d x).
Qed.

Lemma split_sep c x n : Str.split c (x +:+ String c n) = Str.split c x ++ Str.split c n.
Proof.
  induction x as [|d x IH]; [cbn; by rewrite Ascii.eqb_refl|]. cbn [String.append Str.split]. destruct (Ascii.eqb c d); [by rewrite IH|].
  rewrite IH. pose proof (split_nonempty c x). by destruct (Str.split c x).
Qed.

(** The name of a file in a directory. *)
Lemma file_name_join base n : lacks "/" n = true -> (3 <= String.length n)%nat -> Str.file_name (Path.join base n) = Some n.
Proof.
  intros Hn Hl. assert (Hs : forall pre, Str.split "/" (Path.join base n) = pre ++ [n] -> Str.file_name (Path.join base n) = Some n).
  { intros pre E. unfold Str.file_name. rewrite E, List.filter_app, rev_app_distr. cbn [List.filter].
    assert (Hne : forall c, (String.length c <= 2)%nat -> String.eqb n c = false) by (intros c Hc; apply String.eqb_neq; intros ->; lia).
    rewrite !Hne by (cbn; lia). cbn [orb negb List.rev app]. by rewrite Hne by (cbn; lia). }
  revert Hs. unfold Path.join. destruct (Path.is_absolute n); [intros Hs; apply (Hs []); by apply split_lacks|].
  destruct (Str.is_empty base) eqn:Ee; [destruct base; [|done]; intros Hs; apply (Hs []); by apply split_lacks|]. cbn [orb].
  destruct (Str.ends_with "/" base) eqn:Eb; intros Hs; apply (Hs (Str.split "/" (if Str.ends_with "/" base then default "" (Str.strip_suffix "/" base) else base))).
  - unfold Str.ends_with in *. destruct (Str.strip_suffix "/" base) as [b|] eqn:Es; [|done]. apply Str.strip_suffix_Some in Es as ->.
    rewrite Str.app_assoc. cbn [default from_option]. change (String "/" "" +:+ n) with (String "/" n). by rewrite split_sep, (split_lacks "/" n).
  - rewrite Eb. change ("/" +:+ n) with (String "/" n). by rewrite split_sep, (split_lacks "/" n).
Qed.

Definition name_end (path : string) : option ascii := let? n := Str.file_name path in last_char n.

(** A path that ends with a name of its own. *)
Lemma name_end_app x t : lacks "/" t = true -> (3 <= String.length t)%nat -> name_end (x +:+ t) = last_char t.
Proof.
  intros Ht Hl. assert (Hlen : forall y, (3 <= String.length (y +:+ t))%nat) by (intros y; rewrite Str.length_app; lia).
  unfold name_end, Str.file_name. destruct (split_end "/" x t Ht) as (pre & y & ->). rewrite List.filter_app, rev_app_distr. cbn [List.filter].
  assert (Hne : forall c, (String.length c <= 2)%nat -> String.eqb (y +:+ t) c = false).
  { intros c Hc. apply String.eqb_neq. intros E. specialize (Hlen y). rewrite E in Hlen. lia. }
  rewrite !Hne by (cbn; lia). cbn [orb negb List.rev app]. rewrite Hne by (cbn; lia). apply end_char_app. intros ->. cbn in Hl. lia.
Qed.

Lemma name_end_join base n : lacks "/" n = true -> (3 <= String.length n)%nat -> name_end (Path.join base n) = last_char n.
Proof.
  intros Hn Hl. unfold Path.join. destruct (Path.is_absolute n); [apply (name_end_app "" n Hn Hl)|].
  destruct (_ || _); [by apply name_end_app|]. change (base +:+ "/" +:+ n) with (base +:+ ("/" +:+ n)). rewrite <- Str.app_assoc. by apply name_end_app.
Qed.

Lemma name_end_extension path e : Path.extension path = Some e -> e <> "" -> name_end path = last_char e.
Proof.
  unfold Path.extension, name_end. destruct (Str.file_name path) as [n|]; [|done]. unfold extension. destruct (List.rev (Str.split "." n)) as [|x before] eqn:E; [done|].
  destruct before as [|b before]; [done|]. destruct (bool_decide _); [done|]. intros [= ->] He. apply (f_equal (@List.rev _)) in E. rewrite rev_involutive in E. cbn [List.rev] in E.
  apply split_suffix in E as [y ->]. by apply end_char_app.
Qed.

(** The name is the last component. *)
Lemma component_kept first p : negb (String.eqb p "" || String.eqb p ".") = is_some (component false p) /\
  (forall c, component first p = Some c -> (let? n := (if is_some (component false p) then Some p else None) in if String.eqb n ".." then None else Some n)
    = match c with Normal s => Some s | _ => None end).
Proof. unfold component. destruct (String.eqb p ""); [done|]. destruct (String.eqb p "."); [destruct first; split; [done| |done|]; by intros c [= <-]|]. destruct (String.eqb p "..") eqn:E; (split; [done|]); intros c [= <-]; cbn; by rewrite ?E. Qed.

Lemma names_of_components l : match List.rev (List.filter (fun p => is_some (component false p)) l), List.rev (omap (component false) l) with
  | [], [] => True
  | n :: _, c :: _ => component false n = Some c
  | _, _ => False
  end.
Proof.
  induction l as [|p l IH] using rev_ind; [done|]. rewrite List.filter_app, omap_app, !rev_app_distr. cbn [List.filter omap list_omap].
  destruct (component false p) as [c|] eqn:E; cbn [is_some List.rev app]; [exact E|exact IH].
Qed.

Lemma file_name_components path : Str.file_name path = match List.rev (components path) with Normal n :: _ => Some n | _ => None end.
Proof.
  unfold Str.file_name, components. rewrite (List.filter_ext _ (fun p => is_some (component false p))) by (intros p; apply (component_kept false)).
  destruct (Str.split "/" path) as [|p rest] eqn:Es; [done|]. rewrite rev_app_distr. pose proof (names_of_components rest) as Hn. cbn [List.filter].
  destruct (List.rev (List.filter _ rest)) as [|n ns] eqn:En; destruct (List.rev (omap _ rest)) as [|c cs]; try done.
  - apply (f_equal (@List.rev _)) in En. rewrite rev_involutive in En. rewrite En. cbn [List.rev app]. destruct (Str.starts_with "/" path) eqn:Ea.
    + assert (p = "") as ->; [|done]. destruct path as [|d path]; [done|]. unfold Str.starts_with in Ea. cbn [Str.strip_prefix] in Ea.
      destruct (Ascii.eqb "/" d) eqn:Ed; [|done]. cbn [Str.split] in Es. rewrite Ed in Es. by injection Es.
    + destruct (component true p) as [c|] eqn:Ec.
      * destruct (component_kept true p) as [_ Hk]. cbn [List.rev app]. rewrite <- (Hk c Ec). by destruct (is_some (component false p)).
      * assert (component false p = None) as ->; [|done]. revert Ec. unfold component. destruct (String.eqb p ""); [done|]. destruct (String.eqb p "."); [done|]. by destruct (String.eqb p "..").
  - assert (El : List.rev (if is_some (component false p) then p :: List.filter (fun p => is_some (component false p)) rest else List.filter (fun p => is_some (component false p)) rest)
      = n :: ns ++ (if is_some (component false p) then [p] else [])) by (destruct (is_some _); cbn [List.rev]; rewrite En; [done|by rewrite app_nil_r]).
    rewrite El. cbn [app]. destruct (component_kept false n) as [_ Hk]. rewrite <- (Hk c Hn). by rewrite Hn.
Qed.

Lemma same_name_end a b : Path.same a b = true -> name_end a = name_end b.
Proof. intros H. apply bool_decide_eq_true in H. unfold name_end. by rewrite !file_name_components, H. Qed.

(** ** What is left alone *)

Section frame.
Context {W : Type} `{HW : Host W} `{HS : !HostSpec W}.

(** Computations that only read the host. *)
Definition reads {E A} (m : act W E A) : Prop := forall w, (m w).2 = w.

Lemma reads_bind {E A B} (m : act W E A) (k : A -> act W E B) : reads m -> (forall a, reads (k a)) -> reads (act_bind m k).
Proof. intros Hm Hk w. unfold act_bind. specialize (Hm w). destruct (m w) as [[a|e|] w1]; cbn in *; subst; [apply Hk|done..]. Qed.
Lemma reads_lift {E A} (r : res E A) : reads (@act_lift W E A r). Proof. done. Qed.
Lemma reads_ret {E A} (a : A) : reads (@act_ret W E A a). Proof. done. Qed.
Lemma reads_asks {E A} (f : W -> A) : reads (@asks W E A f). Proof. done. Qed.
Lemma reads_absolutize p : reads (absolutize p). Proof. done. Qed.
Lemma reads_validate p l v : reads (validate_input p l v). Proof. intros w. unfold validate_input. by destruct (is_file p w). Qed.
Lemma reads_option {E A B} (f : A -> act W E B) o : (forall a, reads (f a)) -> reads (act_option f o).
Proof. intros Hf. destruct o; [|apply reads_ret]. apply reads_bind; [done|intros; apply reads_ret]. Qed.

Lemma reads_ok {E A} (m : act W E A) w r w' : reads m -> m w = (r, w') -> w' = w.
Proof. intros Hm E0. specialize (Hm w). by rewrite E0 in Hm. Qed.

Lemma lift_ok {E A} (m : res E A) w a (w' : W) : act_lift m w = (Ok a, w') -> m = Ok a /\ w' = w.
Proof. by intros [= -> ->]. Qed.

Definition absent (q : string) (w : W) : Prop := is_file q w = false.

(** A computation that does not make the file [q]. *)
Definition spares (q : string) {E A} (m : act W E A) : Prop := forall w, absent q w -> absent q (m w).2.

Lemma spares_reads q {E A} (m : act W E A) : reads m -> spares q m.
Proof. intros Hm w. by rewrite Hm. Qed.
Lemma spares_bind q {E A B} (m : act W E A) (k : A -> act W E B) : spares q m -> (forall a, spares q (k a)) -> spares q (act_bind m k).
Proof. intros Hm Hk w Hw. specialize (Hm w Hw). unfold act_bind. destruct (m w) as [[a|e|] w1]; [by apply Hk|done..]. Qed.
Lemma spares_fs q {E A} (io : string -> E) (f : W -> (string + A) * W) : (forall w, absent q w -> absent q (f w).2) -> spares q (fs io f).
Proof. intros Hf w Hw. specialize (Hf w Hw). unfold fs. by destruct (f w). Qed.
Lemma spares_dir q p {E} (io : string -> E) : spares q (fs io (create_dir_all p)).
Proof using HS. apply spares_fs. intros w. apply create_dir_creates_no_file. Qed.
Lemma spares_remove q p {E} (io : string -> E) : spares q (remove_stale io p remove_file).
Proof using HS. intros w Hw. pose proof (remove_creates_nothing p q w Hw). unfold remove_stale. by destruct (remove_file p w). Qed.
Lemma spares_write q p d {E} (io : string -> E) : Str.file_name q <> Str.file_name p -> spares q (fs io (write_file p d)).
Proof using HS. intros Hf. apply spares_fs. intros w. by apply write_creates_its_file. Qed.

Lemma removed_stale p w w' {E} (io : string -> E) : remove_stale io p remove_file w = (Ok tt, w') -> absent p w'.
Proof using HS.
  unfold remove_stale. pose proof (removed p w) as Hr. destruct (remove_file p w) as [[[|e]|[]] w1]; [|done|]; intros [= <-]; apply Hr; auto.
Qed.
End frame.

Create HintDb reads.
#[export] Hint Resolve reads_lift reads_ret reads_asks reads_absolutize reads_validate : reads.

Ltac reads_tac := repeat first
  [ solve [auto with reads]
  | apply reads_option; intros ?
  | apply reads_bind; [|intros ?]
  | match goal with |- reads (if ?b then _ else _) => destruct b end ].
