(* ===== verification/VitisLink.v ===== *)
(** * Vitis hardware links

    [tapa-xilinx/src/tools/vitis/mod.rs]: the checks of a link job, the
    invocations of [v++], and the link, from the removal of what an earlier one
    left to the timing of the kernel.  What a successful link reports was made by
    the tools it started. *)

From S2P Require Import Prelude RustStd BTreeMap Names Connectivity Shm CosimSpec Frt Vbin F64 F64Spec F64Text Clock Timing Host.

Local Open Scope Z_scope.

Definition TIMING_REPORT_NAME : string := "timing_summary.rpt".
Definition FINAL_TIMING_HOOK_NAME : string := "final_timing.tcl".
Definition IMPLEMENTATION_STRATEGY : string := "Explore".
Definition PLACEMENT_STRATEGY : string := "EarlyBlockPlacement".

Definition VIVADO_IMPL_STEP_PROPS : list (string * string) :=
  [("PHYS_OPT_DESIGN.IS_ENABLED", "1"); ("POST_ROUTE_PHYS_OPT_DESIGN.IS_ENABLED", "1"); ("OPT_DESIGN.ARGS.DIRECTIVE", IMPLEMENTATION_STRATEGY);
   ("PLACE_DESIGN.ARGS.DIRECTIVE", PLACEMENT_STRATEGY); ("PHYS_OPT_DESIGN.ARGS.DIRECTIVE", IMPLEMENTATION_STRATEGY);
   ("ROUTE_DESIGN.ARGS.DIRECTIVE", IMPLEMENTATION_STRATEGY)].

Inductive VitisLinkMode := Full | PostRouteTiming.
#[export] Instance link_mode_eq_dec : EqDecision VitisLinkMode.
Proof. solve_decision. Defined.

Record AieInputs := mkAieInputs { libadf : string; aie_config : string; pl_control : option string }.

Record VitisLinkJob := mkJob {
  kernel_name : string;
  job_xo : string;
  platform : string;
  target_mhz : Z;
  job_work_dir : string;
  job_artifacts_dir : string;
  job_output_xclbin : string;
  job_report_dir : string;
  job_log_dir : string;
  job_temp_dir : string;
  job_floorplan_xdc : option string;
  job_connectivity_config : option string;
  vivado_threads : Z;
  job_mode : VitisLinkMode;
  vpp : string;
}.

Definition set_mode (mode : VitisLinkMode) (j : VitisLinkJob) : VitisLinkJob :=
  mkJob (kernel_name j) (job_xo j) (platform j) (target_mhz j) (job_work_dir j) (job_artifacts_dir j) (job_output_xclbin j) (job_report_dir j)
    (job_log_dir j) (job_temp_dir j) (job_floorplan_xdc j) (job_connectivity_config j) (vivado_threads j) mode (vpp j).

Record ResolvedJob := mkResolved {
  rj_job : VitisLinkJob;
  xo : string;
  work_dir : string;
  artifacts_dir : string;
  output_xclbin : string;
  report_dir : string;
  log_dir : string;
  temp_dir : string;
  floorplan_xdc : option string;
  connectivity_config : option string;
  aie : option AieInputs;
  link_output : string;
  package_temp_dir : string;
  timing_hook : string;
  rj_timing_report : string;
}.

Definition link_error {A} (detail : string) : res XilinxError A := Err (VitisLink detail).

Definition has_separator (s : string) : bool := Str.contains "/" s || Str.contains "\" s.

Definition platform_looks_like_path (platform : string) : bool :=
  has_separator platform ||
  match Path.extension platform with Some ext => String.eqb (Str.to_ascii_lowercase ext) "xpfm" | None => false end.

Definition validate_job (job : VitisLinkJob) : res XilinxError unit :=
  if Str.is_empty (Str.trim (kernel_name job)) then link_error "kernel name must not be empty"
  else if Str.is_empty (Str.trim (platform job)) then link_error "platform must not be empty"
  else if platform_looks_like_path (platform job) then link_error ("platform `" +:+ platform job +:+ "` must be an installed platform name, not a path")
  else if target_mhz job =? 0 then Err (InvalidFrequency "target frequency must be positive, got `0` MHz")
  else if vivado_threads job =? 0 then link_error "Vivado thread count must be greater than zero, got `0`"
  else if Str.is_empty (Str.trim (vpp job)) then link_error "v++ program name must not be empty"
  else Ok tt.

Definition ensure_under (path root item root_name : string) : res XilinxError unit :=
  if negb (Path.same path root) && Path.starts_with path root then Ok tt
  else link_error (item +:+ " `" +:+ path +:+ "` must be below " +:+ root_name +:+ " `" +:+ root +:+ "`").

Definition newline : string := String "010" "".

Definition final_timing_tcl : string :=
  "set artifact_dir [file dirname [file normalize [info script]]]" +:+ newline +:+
  "report_timing_summary -file [file join $artifact_dir timing_summary.rpt]" +:+ newline.

Definition merge_tool_text (first second : string) : string :=
  match Str.is_empty first, Str.is_empty second with
  | true, _ => second
  | _, true => first
  | false, false => first +:+ newline +:+ second
  end.

(** ** Invocations *)

Definition texts (l : list string) : list ToolValue := map value_from l.
Definition listed {A} (o : option A) : list A := match o with Some a => [a] | None => [] end.

Definition build_link_invocation (r : ResolvedJob) : ToolInvocation :=
  let job := rj_job r in
  let args :=
    texts ["--link"; "--target"; "hw"; "--save-temps"]
    ++ (if bool_decide (job_mode job = PostRouteTiming) then texts ["--to_step"; "vpl.impl.post_route_phys_opt_design"] else [])
    ++ [value_from "--platform"; value_from (platform job); value_from "--output"; value_path (link_output r);
        value_from "--report_dir"; value_path (report_dir r); value_from "--log_dir"; value_path (log_dir r);
        value_from "--temp_dir"; value_path (temp_dir r); value_from "--optimize"; value_from "3"]
    ++ (if is_some (aie r) then texts ["--clock.defaultFreqHz"; Str.show (target_mhz job * 1000000)]
        else texts ["--kernel_frequency"; Str.show (target_mhz job)])
    ++ texts ["--connectivity.nk"; kernel_name job +:+ ":1:" +:+ kernel_name job; "--vivado.synth.jobs"; Str.show (vivado_threads job)]
    ++ texts (map (fun p => "--vivado.prop=run.impl_1.STEPS." +:+ p.1 +:+ "=" +:+ p.2) VIVADO_IMPL_STEP_PROPS)
    ++ flat_map (fun c => [value_from "--config"; value_path c]) (map aie_config (listed (aie r)) ++ listed (connectivity_config r))
    ++ map (prefixed_path "--vivado.prop=run.impl_1.STEPS.OPT_DESIGN.TCL.PRE=") (listed (floorplan_xdc r))
    ++ [prefixed_path "--vivado.prop=run.impl_1.STEPS.POST_ROUTE_PHYS_OPT_DESIGN.TCL.POST=" (timing_hook r); value_path (xo r)]
    ++ match aie r with Some a => map value_path (listed (pl_control a) ++ [libadf a]) | None => [] end in
  let uploads :=
    [xo r; timing_hook r] ++ listed (floorplan_xdc r) ++ listed (connectivity_config r)
    ++ match aie r with Some a => [libadf a; aie_config a] ++ listed (pl_control a) | None => [] end in
  let downloads :=
    [artifacts_dir r]
    ++ (if bool_decide (job_mode job = Full) && negb (Path.starts_with (link_output r) (artifacts_dir r)) then [link_output r] else []) in
  add_transfers uploads downloads (add_env "HOME" (value_path (work_dir r)) (set_cwd (work_dir r) (add_args args (invocation_new (vpp job))))).

(** It is only built for links with an AI Engine. *)
Definition build_package_invocation (r : ResolvedJob) : res XilinxError ToolInvocation :=
  let job := rj_job r in
  let! a := expect (aie r) in
  let args :=
    texts ["--package"; "--target"; "hw"; "--platform"; platform job; "--save-temps"; "--temp_dir"]
    ++ [value_path (package_temp_dir r); value_from "--output"; value_path (output_xclbin r); value_path (link_output r); value_path (libadf a)] in
  let downloads := [artifacts_dir r] ++ (if negb (Path.starts_with (output_xclbin r) (artifacts_dir r)) then [output_xclbin r] else []) in
  Ok (add_transfers [link_output r; libadf a] downloads (add_env "HOME" (value_path (work_dir r)) (set_cwd (work_dir r) (add_args args (invocation_new (vpp job)))))).

(** ** The link *)

Section link.
Context {W : Type} `{Host W}.

Definition discover_aie_inputs (xo : string) : act W XilinxError (option AieInputs) :=
  act! parent := act_lift (ok_or (Path.parent xo) (VitisLink "XO path has no parent directory")) in
  act! stem := act_lift (ok_or (Path.file_stem xo) (VitisLink "XO path has no file stem")) in
  let libadf := Path.join parent (stem +:+ ".libadf.a") in
  let config := Path.join parent (stem +:+ ".aie.cfg") in
  let pl_control := Path.join parent (stem +:+ ".aie_control.xo") in
  act! found := asks (fun w => path_exists libadf w || path_exists config w || path_exists pl_control w) in
  if negb found then act_ret None
  else
    act! _ := validate_input libadf "AI Engine graph (`<name>.libadf.a`)" VitisLink in
    act! _ := validate_input config "AI Engine connectivity (`<name>.aie.cfg`)" VitisLink in
    act! control := asks (path_exists pl_control) in
    if control then
      act! _ := validate_input pl_control "AI Engine PL control (`<name>.aie_control.xo`)" VitisLink in
      act_ret (Some (mkAieInputs libadf config (Some pl_control)))
    else act_ret (Some (mkAieInputs libadf config None)).

Definition resolve_link_output (found : option AieInputs) (output artifacts : string) : res XilinxError string :=
  if is_some found then
    let! stem := ok_or (Path.file_stem output) (VitisLink "xclbin path has no file stem") in
    Ok (Path.join artifacts (stem +:+ ".xsa"))
  else Ok output.

(** [ResolvedJob::new]. *)
Definition resolve_job (job : VitisLinkJob) : act W XilinxError ResolvedJob :=
  act! _ := act_lift (validate_job job) in
  act! xo := absolutize (job_xo job) in
  act! work := absolutize (job_work_dir job) in
  act! artifacts := absolutize (job_artifacts_dir job) in
  act! output := absolutize (job_output_xclbin job) in
  act! report := absolutize (job_report_dir job) in
  act! log := absolutize (job_log_dir job) in
  act! temp := absolutize (job_temp_dir job) in
  act! xdc := act_option absolutize (job_floorplan_xdc job) in
  act! config := act_option absolutize (job_connectivity_config job) in
  act! _ := act_lift (ensure_under artifacts work "artifacts directory" "work directory") in
  act! _ := act_lift (if bool_decide (job_mode job = PostRouteTiming) then ensure_under output artifacts "post-route timing output" "artifacts directory" else Ok tt) in
  act! _ := act_lift (if bool_decide (Path.extension output = Some "xclbin") then Ok tt
    else link_error ("Vitis link output `" +:+ output +:+ "` must use the `.xclbin` extension")) in
  act! _ := act_lift (ensure_under report artifacts "report directory" "artifacts directory") in
  act! _ := act_lift (ensure_under log artifacts "log directory" "artifacts directory") in
  act! _ := act_lift (ensure_under temp work "temp directory" "work directory") in
  act! _ := act_lift (if Path.starts_with temp artifacts then link_error "temp directory must be outside the downloadable artifacts directory" else Ok tt) in
  act! found := discover_aie_inputs xo in
  act! _ := act_lift (if is_some found && bool_decide (job_mode job = PostRouteTiming) then link_error "AI Engine sidecars require a full Vitis link" else Ok tt) in
  act! linked := act_lift (resolve_link_output found output artifacts) in
  act_ret (mkResolved job xo work artifacts output report log temp xdc config found linked (temp +:+ ".package")
    (Path.join artifacts FINAL_TIMING_HOOK_NAME) (Path.join artifacts TIMING_REPORT_NAME)).

(** A tool that ends with another code than zero failed. *)
Definition run_checked (vpp : string) (i : ToolInvocation) : act W XilinxError ToolOutput :=
  act! out := runner_run i in
  if exit_code out =? 0 then act_ret out else act_lift (Err (tool_failure vpp out)).

Definition require_file (path message : string) : act W XilinxError unit :=
  act! found := asks (is_file path) in
  if found then act_ret tt else act_lift (link_error message).

Definition remove_stale_output (path : string) : act W XilinxError unit := remove_stale XilinxIo path remove_file.

(** The directories, and what earlier links left. *)
Definition prepare_link (r : ResolvedJob) : act W XilinxError unit :=
  act! _ := fs XilinxIo (create_dir_all (work_dir r)) in
  act! parent := act_lift (ok_or (Path.parent (output_xclbin r)) (VitisLink "xclbin path has no parent directory")) in
  act! _ := fs XilinxIo (create_dir_all parent) in
  act! _ := fs XilinxIo (create_dir_all (report_dir r)) in
  act! _ := fs XilinxIo (create_dir_all (log_dir r)) in
  act! _ := remove_stale_output (output_xclbin r) in
  act! _ := (if negb (Path.same (link_output r) (output_xclbin r)) then remove_stale_output (link_output r) else act_ret tt) in
  act! _ := remove_stale_output (rj_timing_report r) in
  fs XilinxIo (write_file (timing_hook r) final_timing_tcl).

(** The tools, and what they must have made. *)
Definition run_tools (r : ResolvedJob) : act W XilinxError (string * string) :=
  let job := rj_job r in
  act! out := run_checked (vpp job) (build_link_invocation r) in
  act! _ := (if bool_decide (job_mode job = Full) then
      require_file (link_output r) ("v++ --link exited successfully but did not produce `" +:+ link_output r +:+ "`")
    else act_ret tt) in
  act! texts := (if is_some (aie r) then
      act! package := act_lift (build_package_invocation r) in
      act! packaged := run_checked (vpp job) package in
      act! _ := validate_input (output_xclbin r) "packaged xclbin" VitisLink in
      act_ret (merge_tool_text (tool_stdout out) (tool_stdout packaged), merge_tool_text (tool_stderr out) (tool_stderr packaged))
    else act_ret (tool_stdout out, tool_stderr out)) in
  act! _ := require_file (rj_timing_report r) ("v++ exited successfully but did not produce timing report `" +:+ rj_timing_report r +:+ "`") in
  act_ret texts.

Definition run_vitis_link (job : VitisLinkJob) : act W XilinxError LinkOutput :=
  act! r := resolve_job job in
  act! _ := validate_input (xo r) "XO" VitisLink in
  act! _ := act_option (fun xdc => validate_input xdc "floorplan XDC" VitisLink) (floorplan_xdc r) in
  act! _ := act_option (fun c => validate_input c "connectivity config" VitisLink) (connectivity_config r) in
  act! _ := prepare_link r in
  act! (stdout, stderr) := run_tools r in
  act! text := (fun w => (match Host.read_to_string (rj_timing_report r) w with inl e => Err (XilinxIo e) | inr t => Ok t end, w)) in
  act! t := act_lift (parse_kernel_timing_summary text (Some (target_mhz job))) in
  act_ret (mkLinkOutput (output_xclbin r) (target_mhz job) (F64.of_Z (target_mhz job)) (Some t) (Some (rj_timing_report r)) stdout stderr).
End link.

(** ** What a link does *)

Section fresh.
Context {W : Type} `{HW : Host W} `{HS : !HostSpec W}.

Lemma reads_discover p : reads (discover_aie_inputs p).
Proof. unfold discover_aie_inputs. reads_tac. Qed.
Lemma reads_resolve job : reads (resolve_job job).
Proof. unfold resolve_job. pose proof reads_discover. reads_tac. Qed.

(** What an earlier link left is gone when the tools start. *)
Lemma prepare_link_spec r w w' : prepare_link r w = (Ok tt, w') ->
  name_end (timing_hook r) <> name_end (output_xclbin r) -> name_end (timing_hook r) <> name_end (link_output r) -> name_end (timing_hook r) <> name_end (rj_timing_report r) ->
  (Path.same (link_output r) (output_xclbin r) = true -> link_output r = output_xclbin r) ->
  absent (output_xclbin r) w' /\ absent (link_output r) w' /\ absent (rj_timing_report r) w'.
Proof using HS.
  intros H N1 N2 N3 Hsame. unfold prepare_link in H.
  apply act_bind_ok in H as ([] & w1 & _ & H). apply act_bind_ok in H as (parent & w2 & _ & H). apply act_bind_ok in H as ([] & w3 & _ & H).
  apply act_bind_ok in H as ([] & w4 & _ & H). apply act_bind_ok in H as ([] & w5 & _ & H). apply act_bind_ok in H as ([] & w6 & E6%removed_stale & H).
  apply act_bind_ok in H as ([] & w7 & E7 & H). apply act_bind_ok in H as ([] & w8 & E8 & H).
  unfold remove_stale_output in E7, E8. pose proof (removed_stale _ _ _ _ E8) as R8.
  assert (Hk : forall q, name_end q <> name_end (timing_hook r) -> absent q w8 -> absent q w').
  { intros q Hq Ha. pose proof (spares_write q (timing_hook r) final_timing_tcl XilinxIo ltac:(intros En; apply Hq; unfold name_end; by rewrite En) w8 Ha) as Hs. by rewrite H in Hs. }
  assert (K8 : forall q, absent q w7 -> absent q w8) by (intros q Hq; pose proof (spares_remove q (rj_timing_report r) XilinxIo w7 Hq) as Hs; by rewrite E8 in Hs).
  destruct (Path.same (link_output r) (output_xclbin r)) eqn:Es; cbn [negb] in E7.
  - injection E7 as <-. rewrite (Hsame eq_refl) in *. auto.
  - pose proof (removed_stale _ _ _ _ E7) as R7. assert (absent (output_xclbin r) w7) by (pose proof (spares_remove (output_xclbin r) (link_output r) XilinxIo w6 E6) as Hs; by rewrite E7 in Hs).
    auto.
Qed.

(** ** Resolution *)

(** What is used of a resolved job. *)
Record resolved (job : VitisLinkJob) (r : ResolvedJob) : Prop := {
  rs_job : rj_job r = job;
  rs_extension : Path.extension (output_xclbin r) = Some "xclbin";
  rs_hook : timing_hook r = Path.join (artifacts_dir r) FINAL_TIMING_HOOK_NAME;
  rs_report : rj_timing_report r = Path.join (artifacts_dir r) TIMING_REPORT_NAME;
  rs_plain : aie r = None -> link_output r = output_xclbin r;
  rs_aie : is_some (aie r) = true -> job_mode job = Full /\ exists stem, link_output r = Path.join (artifacts_dir r) (stem +:+ ".xsa");
  rs_report_dir : Path.starts_with (report_dir r) (artifacts_dir r) = true;
  rs_log_dir : Path.starts_with (log_dir r) (artifacts_dir r) = true;
  rs_temp_dir : Path.starts_with (temp_dir r) (work_dir r) = true /\ Path.starts_with (temp_dir r) (artifacts_dir r) = false;
  rs_post_route : job_mode job = PostRouteTiming -> Path.starts_with (output_xclbin r) (artifacts_dir r) = true;
}.

Lemma ensure_under_ok path root item name u : ensure_under path root item name = Ok u -> Path.starts_with path root = true.
Proof. unfold ensure_under. destruct (Path.same path root); [done|]. by destruct (Path.starts_with path root). Qed.

Lemma resolve_spec job w r w' : resolve_job job w = (Ok r, w') -> resolved job r.
Proof.
  unfold resolve_job. intros H. apply act_bind_ok in H as (? & ? & _ & H).
  apply act_bind_ok in H as (px & ? & _ & H).  apply act_bind_ok in H as (pw & ? & _ & H).  apply act_bind_ok in H as (pa & ? & _ & H).
  apply act_bind_ok in H as (po & ? & _ & H).  apply act_bind_ok in H as (pr & ? & _ & H).  apply act_bind_ok in H as (pl & ? & _ & H).
  apply act_bind_ok in H as (pt & ? & _ & H).  apply act_bind_ok in H as (xdc & ? & _ & H).  apply act_bind_ok in H as (config & ? & _ & H).
  apply act_bind_ok in H as (? & ? & [U1 _]%lift_ok & H). apply act_bind_ok in H as (? & ? & [U2 _]%lift_ok & H).
  apply act_bind_ok in H as (? & ? & [U3 _]%lift_ok & H). apply act_bind_ok in H as (? & ? & [U4%ensure_under_ok _]%lift_ok & H).
  apply act_bind_ok in H as (? & ? & [U5%ensure_under_ok _]%lift_ok & H). apply act_bind_ok in H as (? & ? & [U6%ensure_under_ok _]%lift_ok & H).
  apply act_bind_ok in H as (? & ? & [U7 _]%lift_ok & H). apply act_bind_ok in H as (found & ? & _ & H).
  apply act_bind_ok in H as (? & ? & [U8 _]%lift_ok & H). apply act_bind_ok in H as (linked & ? & [U9 _]%lift_ok & H).
  injection H as <- _. destruct (bool_decide_reflect (Path.extension po = Some "xclbin")) as [Hx|]; [|done].
  destruct (Path.starts_with pt pa) eqn:Et; [done|]. unfold resolve_link_output in U9. constructor; cbn; try done.
  - intros ->. cbn in U9. by injection U9.
  - intros Hs. rewrite Hs in U8, U9. destruct (job_mode job) eqn:Em; [|done]. split; [done|]. apply rbind_ok in U9 as (stem & _ & [= <-]). by exists stem.
  - intros Hm. rewrite Hm in U2. by apply ensure_under_ok in U2.
Qed.

(** ** The tools *)

Lemma run_checked_ok v i w o w' : run_checked v i w = (Ok o, w') -> tool_run i w = (inr o, w') /\ exit_code o = 0.
Proof.
  intros H. apply act_bind_ok in H as (out & w1 & E & H). unfold runner_run in E. destruct (tool_run i w) as [[e|o1] w2]; [done|]. injection E as -> ->.
  destruct (Z.eqb_spec (exit_code out) 0); [|done]. by injection H as <- <-.
Qed.

Lemma require_file_ok p m w u w' : require_file p m w = (Ok u, w') -> is_file p w = true /\ w' = w.
Proof. intros H. apply act_bind_ok in H as (found & w1 & [= <- <-] & H). destruct (is_file p w); [|done]. by injection H. Qed.

Lemma validate_input_ok p l v w u w' : validate_input p l v w = (Ok u, w') -> is_file p w = true /\ w' = w.
Proof. unfold validate_input. destruct (is_file p w); [|done]. by intros [= _ <-]. Qed.

(** The runs of [v++] between two states of the host. *)
Definition made_by_tools (r : ResolvedJob) (w0 w' : W) : Prop :=
  exists linked w1, tool_run (build_link_invocation r) w0 = (inr linked, w1) /\ exit_code linked = 0 /\
  match aie r with
  | None => w' = w1
  | Some _ => exists package packaged, build_package_invocation r = Ok package /\ tool_run package w1 = (inr packaged, w') /\ exit_code packaged = 0
  end.

Lemma run_tools_spec r w0 texts w' : run_tools r w0 = (Ok texts, w') -> (aie r = None -> link_output r = output_xclbin r) ->
  made_by_tools r w0 w' /\ is_file (rj_timing_report r) w' = true /\ (job_mode (rj_job r) = Full -> is_file (output_xclbin r) w' = true).
Proof.
  unfold run_tools. intros H Hplain. apply act_bind_ok in H as (linked & w1 & [El Xl]%run_checked_ok & H). apply act_bind_ok in H as ([] & w2 & E2 & H).
  apply act_bind_ok in H as (tx & w3 & E3 & H). apply act_bind_ok in H as ([] & w4 & [Er ->]%require_file_ok & H). injection H as -> ->.
  assert (Hfull : w2 = w1 /\ (job_mode (rj_job r) = Full -> is_file (link_output r) w1 = true)).
  { destruct (bool_decide_reflect (job_mode (rj_job r) = Full)) as [Hm|Hm]; [apply require_file_ok in E2 as [? ->]; done|by injection E2 as ->]. }
  destruct Hfull as [-> Hfull]. destruct (aie r) as [a|] eqn:Ea; cbn [is_some] in E3.
  - apply act_bind_ok in E3 as (package & w4 & [Ep ->]%lift_ok & E3). apply act_bind_ok in E3 as (packaged & w5 & [Ek Xk]%run_checked_ok & E3).
    apply act_bind_ok in E3 as ([] & w6 & [Eo ->]%validate_input_ok & E3). injection E3 as <- <-. split; [|done].
    exists linked, w1. rewrite Ea. do 2 (split; [done|]). by exists package, packaged.
  - injection E3 as <- <-. rewrite <- (Hplain eq_refl). split; [|done]. exists linked, w1. by rewrite Ea.
Qed.

(** C13: whatever the tools do, what a successful link reports was made by the tools it
    started.  When the linker is started there is no bitstream, no linked file and no
    timing report where this link puts them, even if an earlier link left them; the tools
    end with code zero; the report then exists, and in full mode the bitstream; and the
    timing is the one parsed from that report, for the frequency that was requested. *)
Theorem link_is_fresh job w out w' : run_vitis_link job w = (Ok out, w') ->
  exists r w0 text t, resolve_job job w = (Ok r, w) /\
    absent (output_xclbin r) w0 /\ absent (link_output r) w0 /\ absent (rj_timing_report r) w0 /\
    made_by_tools r w0 w' /\
    bitstream out = output_xclbin r /\ (job_mode job = Full -> is_file (output_xclbin r) w' = true) /\
    timing_report out = Some (rj_timing_report r) /\ is_file (rj_timing_report r) w' = true /\
    Host.read_to_string (rj_timing_report r) w' = inr text /\ parse_kernel_timing_summary text (Some (target_mhz job)) = Ok t /\
    timing out = Some t /\ sound_timing t /\ requested_mhz out = target_mhz job.
Proof using HS.
  unfold run_vitis_link. intros H. apply act_bind_ok in H as (r & w1 & Er & H). pose proof (reads_ok _ _ _ _ (reads_resolve job) Er) as ->.
  pose proof (resolve_spec _ _ _ _ Er) as Hr. apply act_bind_ok in H as ([] & w2 & [_ ->]%validate_input_ok & H).
  apply act_bind_ok in H as (? & w3 & E3 & H). apply act_bind_ok in H as (? & w4 & E4 & H). apply act_bind_ok in H as ([] & w0 & E0 & H).
  apply act_bind_ok in H as ([stdout stderr] & w5 & E5 & H). apply act_bind_ok in H as (text & w6 & E6 & H).
  apply act_bind_ok in H as (t & w7 & [E7 ->]%lift_ok & H). injection H as <- <-. injection E6 as E6 <-.
  destruct Hr as [Hj Hx Hh Hrep Hp Ha _ _ _ _].
  assert (Nh : name_end (timing_hook r) = Some "l"%char) by (rewrite Hh; apply name_end_join; [done|cbn; lia]).
  assert (Nr : name_end (rj_timing_report r) = Some "t"%char) by (rewrite Hrep; apply name_end_join; [done|cbn; lia]).
  assert (No : name_end (output_xclbin r) = Some "n"%char) by (by rewrite (name_end_extension _ _ Hx)).
  assert (Nl : aie r <> None -> name_end (link_output r) = Some "a"%char).
  { intros Hs. destruct Ha as [_ [stem ->]]; [by destruct (aie r)|]. unfold Path.join. destruct (Path.is_absolute _); [apply (name_end_app _ ".xsa"); [done|cbn; lia]|].
    destruct (_ || _); rewrite <- !Str.app_assoc; (apply (name_end_app _ ".xsa"); [done|cbn; lia]). }
  destruct (prepare_link_spec r w4 w0 E0) as (A1 & A2 & A3); [by rewrite Nh, No| |by rewrite Nh, Nr| |].
  { destruct (aie r) eqn:Ea; [rewrite Nh, Nl by done; done|rewrite (Hp eq_refl); by rewrite Nh, No]. }
  { intros Hs%same_name_end. destruct (aie r) eqn:Ea; [rewrite Nl, No in Hs by done; done|by apply Hp]. }
  destruct (run_tools_spec r w0 _ _ E5 Hp) as (T1 & T2 & T3). rewrite Hj in T3.
  destruct (Host.read_to_string (rj_timing_report r) w5) as [e|tx] eqn:Et; [done|]. injection E6 as ->.
  exists r, w0, text, t. repeat (split; [done|]). split; [by eapply kernel_timing_sound|done].
Qed.
End fresh.

(** ** A concrete link *)

Notation Files := (gmap string string).

(** A host whose [v++] changes the files in one way. *)
Definition files_host (tool : ToolInvocation -> Files -> Files) : Host Files := {|
  current_dir _ := Some "/w";
  canonicalize _ _ := None;
  is_file p w := match w !! p with Some _ => true | None => false end;
  path_exists p w := match w !! p with Some _ => true | None => false end;
  Host.read_to_string p w := match w !! p with Some t => inr t | None => inl "not found" end;
  create_dir_all _ w := (inr tt, w);
  remove_file p w := match w !! p with Some _ => (inr tt, delete p w) | None => (inl NotFound, w) end;
  write_file p data w := (inr tt, <[p := data]> w);
  remove_dir_all _ w := (inr tt, w);
  temp_in _ w := (inr "/tmp/.tmp0", <["/tmp/.tmp0" := ""]> w);
  rename_file a b w := match w !! a with Some t => (inr tt, <[b := t]> (delete a w)) | None => (inl "not found", w) end;
  tool_run i w := (inr (mkToolOutput 0 (inv_program i) ""), tool i w);
|}.

Lemma files_host_spec tool : @HostSpec Files (files_host tool).
Proof.
  assert (Hn : forall (p q : string), Str.file_name q <> Str.file_name p -> p <> q) by (by intros p q Hq ->).
  set (has := fun (q : string) (w : Files) => match w !! q with Some _ => true | None => false end).
  assert (Hd : forall p q w, has q w = false -> has q (delete p w) = false).
  { intros p q w Hq. unfold has. destruct (decide (p = q)) as [->|]; [by rewrite lookup_delete_eq|by rewrite lookup_delete_ne]. }
  assert (Hi : forall p q t w, p <> q -> has q w = false -> has q (<[p := t]> w) = false) by (intros p q t w Hpq Hq; unfold has; by rewrite lookup_insert_ne).
  split; cbn.
  - intros p w _. destruct (w !! p) eqn:E; cbn; [unfold has in Hd; change (has p (delete p w) = false); unfold has; by rewrite lookup_delete_eq|by rewrite E].
  - intros p q w Hq. destruct (w !! p); [by apply (Hd p q w)|done].
  - done.
  - intros p data q w Hpq Hq. by apply (Hi p q); [apply Hn|].
  - intros _ _ t [= <-]. by exists "0".
  - intros _ q w Hq Ha. apply (Hi "/tmp/.tmp0" q); [|done]. intros <-. by apply (Hq "0").
  - intros a b q w Hor Hq. destruct (w !! a); [|done]. destruct Hor as [[]|Hb]; [done|]. apply (Hi b q); [by apply Hn|]. by apply (Hd a q w).
  - intros p data w _. by rewrite lookup_insert_eq.
  - intros a b w. destruct (w !! a) eqn:E; [|done]. intros _. cbn. by rewrite lookup_insert_eq.
  - intros p q w Hq. destruct (w !! p); [|done]. cbn. by rewrite lookup_delete_ne by (by apply Hn).
Qed.

Definition demo_job (mode : VitisLinkMode) : VitisLinkJob :=
  mkJob "top" "/w/top.xo" "xilinx_u250" 400 "link" "link/artifacts" "link/artifacts/top.xclbin" "link/artifacts/reports" "link/artifacts/logs" "link/vitis.tmp"
    None None 2 mode "v++".

(** An earlier link left a report and a bitstream. *)
Definition demo_files : Files := list_to_map [("/w/top.xo", "xo"); ("/w/link/artifacts/top.xclbin", "old"); ("/w/link/artifacts/timing_summary.rpt", report "2.000" "400.000" "0.100")].

Definition demo_tool (_ : ToolInvocation) (w : Files) : Files :=
  <["/w/link/artifacts/timing_summary.rpt" := report "2.500" "400.000" "-0.173"]> (<["/w/link/artifacts/top.xclbin" := "new"]> w).

Definition link_with (tool : ToolInvocation -> Files -> Files) (mode : VitisLinkMode) : res XilinxError LinkOutput * Files := @run_vitis_link Files (files_host tool) (demo_job mode) demo_files.

Example stale_outputs_are_not_reported : (link_with (fun _ w => w) Full).1 = link_error "v++ --link exited successfully but did not produce `/w/link/artifacts/top.xclbin`"
  /\ (link_with (fun _ w => w) PostRouteTiming).1 = link_error "v++ exited successfully but did not produce timing report `/w/link/artifacts/timing_summary.rpt`".
Proof. vm_compute. done. Qed.

Lemma link_is_fresh_witness : exists out w', link_with demo_tool Full = (Ok out, w') /\ w' !! bitstream out = Some "new" /\
  exists r (w0 : Files) text t, @resolve_job Files (files_host demo_tool) (demo_job Full) demo_files = (Ok r, demo_files) /\
    w0 !! output_xclbin r = None /\ w0 !! rj_timing_report r = None /\ w' !! rj_timing_report r = Some text /\
    parse_kernel_timing_summary text (Some 400) = Ok t /\ timing out = Some t.
Proof.
  destruct (link_with demo_tool Full) as [[out|e|] w'] eqn:E; [|vm_compute in E; discriminate E|vm_compute in E; discriminate E].
  exists out, w'. split; [reflexivity|]. split.
  - replace w' with (link_with demo_tool Full).2 by (rewrite E; reflexivity). replace out with (match (link_with demo_tool Full).1 with Ok o => o | _ => out end) by (rewrite E; reflexivity). vm_compute. reflexivity.
  - destruct (@link_is_fresh Files (files_host demo_tool) (files_host_spec demo_tool) (demo_job Full) demo_files out w' E) as (r & w0 & text & t & H1 & H2 & _ & H4 & _ & _ & _ & _ & _ & H5 & H6 & H7 & _).
    exists r, w0, text, t. split; [exact H1|]. unfold absent in H2, H4. cbn in H2, H4, H5. split; [destruct (w0 !! output_xclbin r); [discriminate H2|reflexivity]|].
    split; [destruct (w0 !! rj_timing_report r); [discriminate H4|reflexivity]|]. split; [destruct (w' !! rj_timing_report r); [injection H5 as ->; reflexivity|discriminate H5]|].
    split; [exact H6|exact H7].
Defined.
