(* ===== verification/Implement.v ===== *)
(** * Implementation of floorplan candidates

    [tapa-cli/src/steps/floorplan/implementation.rs], with the errors of
    [tapa-cli/src/error.rs] and the atomic writes of [state/json.rs]: each
    candidate is implemented in a directory of its own, the fastest one that met
    its timing wins, and is published once.  RTL generation, packaging and the
    SLASH link are arguments; so are the thread pool and JSON. *)

From Stdlib Require Import SpecFloat.
From S2P Require Import Prelude RustStd BTreeMap Names Ir Connectivity Flatten F64 F64Spec Device Partition Plan Xdc F64Text Clock Timing Host VitisLink.

Local Open Scope Z_scope.

#[export] Instance implementation_target_eq_dec : EqDecision Target.
Proof. solve_decision. Defined.

(** ** Errors of the command line *)

Inductive CliError :=
| WorkDirInvalid (path detail : string)
| MissingState (name path : string)
| StaleWorkState (path found : string) (expected : Z)
| InvalidArg (detail : string)
| ArchiveError (detail : string)
| UpdateError (detail : string)
| CodegenFailed (detail : string)
| FloorplanFailed (detail : string)
| ReportError (detail : string)
| RemoteConfigParse (path message : string)
| CliIo (source : string)
| CliJson (source : string)
| CliSchema (source : string)
| CliXilinx (source : XilinxError)
| CliAie (source : string)
| TapaccNotFound (name searched : string)
| TapaccNotExecutable (path reason : string)
| TapaccFailed (code : Z) (stderr : string)
| ClapParse (step message : string).

Definition show_signed (n : Z) : string := (if n <? 0 then "-" else "") +:+ Str.show (Z.abs n).

(** [Display]. *)
Definition cli_error_str (e : CliError) : string :=
  match e with
  | WorkDirInvalid p d => "work directory `" +:+ p +:+ "` is invalid: " +:+ d
  | MissingState n p => "missing required state `" +:+ n +:+ "` in `" +:+ p +:+ "`"
  | StaleWorkState p f x => "`" +:+ p +:+ "` was written by a different tapa version (state schema " +:+ f +:+ ", this tapa expects v" +:+ Str.show x
      +:+ "); re-run `tapa analyze` to regenerate the work directory"
  | InvalidArg d => "invalid CLI argument: " +:+ d
  | ArchiveError d => "archive error: " +:+ d
  | UpdateError d => "update error: " +:+ d
  | CodegenFailed d => "codegen error: " +:+ d
  | FloorplanFailed d => "floorplan error: " +:+ d
  | ReportError d => "report error: " +:+ d
  | RemoteConfigParse p m => "invalid remote config in `" +:+ p +:+ "`: " +:+ m
  | CliIo s | CliJson s | CliSchema s | CliAie s => s
  | CliXilinx x => xilinx_error_str x
  | TapaccNotFound n s => "`tapacc` resource `" +:+ n +:+ "` not found; searched: " +:+ s
  | TapaccNotExecutable p r => "`tapacc` binary `" +:+ p +:+ "` is not executable: " +:+ r
  | TapaccFailed c s => "`tapacc` exited " +:+ show_signed c +:+ ":" +:+ newline +:+ s
  | ClapParse s m => "clap parse error in `" +:+ s +:+ "`: " +:+ m
  end.

Definition normalize_child_exit_code (code : Z) : Z := if (1 <=? code) && (code <=? 255) then code else 1.

Definition exit_status (e : CliError) : Z :=
  match e with
  | CliXilinx x => match tool_exit_code x with Some code => normalize_child_exit_code code | None => 1 end
  | TapaccFailed code _ => normalize_child_exit_code code
  | ClapParse _ _ | WorkDirInvalid _ _ | MissingState _ _ | StaleWorkState _ _ _ | InvalidArg _ | RemoteConfigParse _ _
  | TapaccNotFound _ _ | TapaccNotExecutable _ _ => 2
  | _ => 1
  end.

(** ** The standard library *)

(** [{:.precision$}] of a float: the nearest decimal, ties to even. *)
Definition fixed (precision : Z) (a : f64) : string :=
  let digits (negative : bool) (n : Z) :=
    (if negative then "-" else "") +:+ Str.show (n / 10 ^ precision) +:+ (if precision =? 0 then "" else "." +:+ F64Text.pad precision (n mod 10 ^ precision)) in
  match a with
  | S754_zero s => digits s 0
  | S754_finite s m e => digits s (F64Spec.rndq (Z.pos m * 2 ^ Z.max 0 e * 10 ^ precision) (2 ^ Z.max 0 (- e)))
  | S754_infinity s => if s then "-inf" else "inf"
  | S754_nan => "NaN"
  end.

(** [f64::total_cmp]: the bits as an integer, those of a negative number flipped. *)
Definition total_bits (a : f64) : Z :=
  let flip (s : bool) (v : Z) := if s then - v - 1 else v in
  match a with
  | S754_zero s => flip s 0
  | S754_finite s m e => flip s ((e + 1074) * 2 ^ 52 + Z.pos m)
  | S754_infinity s => flip s (2047 * 2 ^ 52)
  | S754_nan => 2047 * 2 ^ 52 + 2 ^ 51
  end.
Definition total_cmp (a b : f64) : comparison := Z.compare (total_bits a) (total_bits b).

(** [Iterator::max_by]: the last of the greatest. *)
Definition max_by {A} (cmp : A -> A -> comparison) (l : list A) : option A :=
  fold_left (fun best x => match best with
    | None => Some x
    | Some b => match cmp b x with Gt => Some b | _ => Some x end
    end) l None.

(** [sort_by_key], which is stable. *)
Fixpoint insert_by {A} (key : A -> nat) (x : A) (l : list A) : list A :=
  match l with [] => [x] | y :: l' => if Nat.leb (key x) (key y) then x :: l else y :: insert_by key x l' end.
Definition sort_by_key {A} (key : A -> nat) (l : list A) : list A := fold_right (insert_by key) [] l.

Definition joined (sep : string) (l : list string) : string := Path.join_with sep l.

Example fixed_texts : fixed 3 (F64.div (F64.of_Z 7) (F64.of_Z 10)) = "0.700" /\ fixed 0 (F64.div (F64.of_Z 5) (F64.of_Z 2)) = "2"
  /\ fixed 9 (F64.of_Z 1) = "1.000000000" /\ fixed 2 (F64.div (F64.of_Z (-1)) (F64.of_Z 1000)) = "-0.00".
Proof. vm_compute. done. Qed.

(** ** Candidates *)

Inductive UtilizationCapPolicy := Relaxing | Exact.
Definition policy_label (p : UtilizationCapPolicy) : string := match p with Relaxing => "relaxing" | Exact => "exact" end.

Record CandidateCaps := mkCandidateCaps {
  requested_utilization_cap : f64;
  effective_block_cap : option f64;
  block_margin_applied : bool;
  utilization_cap_policy : UtilizationCapPolicy;
}.

Definition caps_relaxing (requested : f64) : CandidateCaps := mkCandidateCaps requested None false Relaxing.
Definition caps_exact (caps : ExactDseResourceCaps) : CandidateCaps :=
  mkCandidateCaps (logic_utilization_cap caps) (Some (effective_block_utilization_cap caps)) (multilevel_block_margin_applied caps) Exact.

Definition summary (precision : Z) (c : CandidateCaps) : string :=
  let label := policy_label (utilization_cap_policy c) in
  let logic_cap := fixed precision (requested_utilization_cap c) in
  match effective_block_cap c with
  | None => label +:+ " logic cap " +:+ logic_cap
  | Some block_cap =>
      label +:+ " logic cap " +:+ logic_cap +:+ ", effective block cap " +:+ fixed precision block_cap
      +:+ (if block_margin_applied c then ", multilevel block margin applied" else "")
  end.

Record PlannedCandidate := mkPlanned { cand_index : nat; cand_caps : CandidateCaps; realized_max_utilization : f64; cand_floorplan : FloorplanResult }.
Record InfeasibleCandidate := mkInfeasible { inf_index : nat; inf_caps : CandidateCaps }.

Record ImplementationTarget := mkTarget { it_platform : string; it_target_mhz : Z; it_vivado_threads : Z; it_flow : Target }.

Definition is_logical_platform_name (platform : string) : bool :=
  negb (Str.is_empty platform) && String.eqb platform (Str.trim platform) && negb (has_separator platform)
  && negb (match Str.strip_suffix_str ".xpfm" (Str.to_ascii_lowercase platform) with Some _ => true | None => false end).

(** The text of an error of [select_device], and of measuring a floorplan. *)
Section texts.
Variable table : string -> res string Device.
Variable select_text : SelectError -> string.

Definition validate_target (st : WorkState) (vivado_threads : Z) : res CliError ImplementationTarget :=
  let flow_target := target (state_graph st) in
  let! _ := (match flow_target with
    | XilinxVitis | XilinxSlash => Ok tt
    | XilinxHls => Err (InvalidArg "`--run-impl` and `--dse` require the `xilinx-vitis` or `xilinx-slash` target")
    end) in
  let! part := ok_or (flow_part_num (flow st)) (InvalidArg "implementation requires a synthesized target part; rerun `tapa synth`") in
  let! _ := map_err (fun e => FloorplanFailed (select_text e)) (select_device table part) in
  let! platform := ok_or (flow_platform (flow st)) (InvalidArg "implementation requires synthesis with `--platform <installed-platform-name>`") in
  let! _ := (if bool_decide (flow_target = XilinxVitis) && negb (is_logical_platform_name platform)
    then Err (InvalidArg ("implementation platform `" +:+ platform +:+ "` must be an installed platform name, not a path")) else Ok tt) in
  let! period := ok_or (flow_clock_period (flow st)) (InvalidArg "implementation requires a synthesized target clock period; rerun `tapa synth`") in
  let! mhz := map_err (fun e => InvalidArg (xilinx_error_str e)) (target_frequency_mhz (nanoseconds period)) in
  Ok (mkTarget platform mhz vivado_threads flow_target).
End texts.

(** ** Outcomes *)

Record ImplementationWinner := mkWinner {
  win_candidate : PlannedCandidate;
  win_output : LinkOutput;
  win_vitis_job : option VitisLinkJob;
  win_timing : KernelTiming;
}.

Inductive CandidateOutcome :=
| Success (w : ImplementationWinner)
| Failure (candidate : PlannedCandidate) (error : string).

Definition outcome_candidate (o : CandidateOutcome) : PlannedCandidate := match o with Success w => win_candidate w | Failure c _ => c end.

(** Setup timing must be met, except for SLASH. *)
Definition from_link (candidate : PlannedCandidate) (output : LinkOutput) (flow : Target) (job : option VitisLinkJob) : CandidateOutcome :=
  match hardware_timing output with
  | Ok t =>
      if F64.is_finite (fmax_mhz t) && (bool_decide (flow = XilinxSlash) || F64.leb F64.zero (wns_ns t))
      then Success (mkWinner candidate output job t)
      else Failure candidate ("implementation reported non-finite Fmax `" +:+ F64Text.show (fmax_mhz t) +:+ "` MHz")
  | Err e => Failure candidate (xilinx_error_str e)
  | Panic => Failure candidate ""
  end.

Definition compare_winners (left right : nat * ImplementationWinner) : comparison :=
  match total_cmp (fmax_mhz (win_timing left.2)) (fmax_mhz (win_timing right.2)) with
  | Eq => Nat.compare (cand_index (win_candidate right.2)) (cand_index (win_candidate left.2))
  | c => c
  end.

Definition successes (outcomes : list CandidateOutcome) : list (nat * ImplementationWinner) :=
  omap (fun x => match x.2 with Success w => Some (x.1, w) | Failure _ _ => None end) (enumerate outcomes).

Definition winner_index (outcomes : list CandidateOutcome) : option nat := fst <$> max_by compare_winners (successes outcomes).

Definition candidate_label (index : nat) : string := "candidate_" +:+ F64Text.pad 3 (Z.of_nat index).

(** The messages of the candidates that failed, with their indices. *)
Definition failure_messages (outcomes : list CandidateOutcome) (infeasible : list InfeasibleCandidate) : list (nat * string) :=
  omap (fun o => match o with
    | Success _ => None
    | Failure c e => Some (cand_index c, candidate_label (cand_index c) +:+ " (" +:+ summary 9 (cand_caps c) +:+ "): " +:+ e)
    end) outcomes
  ++ map (fun c => (inf_index c, candidate_label (inf_index c) +:+ " (" +:+ summary 9 (inf_caps c) +:+ "): exact planning infeasible")) infeasible.

Definition all_failed_error (outcomes : list CandidateOutcome) (infeasible : list InfeasibleCandidate) : CliError :=
  let details := joined "; " (map snd (sort_by_key fst (failure_messages outcomes infeasible))) in
  FloorplanFailed (if Str.is_empty details then "no floorplan candidates were available for implementation"
    else "no floorplan candidate completed implementation: " +:+ details).

(** ** Diagnostics *)

Inductive CandidateStatus := Succeeded | Failed | Infeasible.

Record CandidateDiagnostic := mkDiagnostic {
  diag_index : nat;
  diag_caps : CandidateCaps;
  diag_utilization : option f64;
  diag_status : CandidateStatus;
  diag_fmax_mhz : option f64;
  diag_achieved_period_ns : option f64;
  diag_timing_closed : option bool;
  diag_error : option string;
}.

Definition from_outcome (o : CandidateOutcome) : CandidateDiagnostic :=
  match o with
  | Success w =>
      let c := win_candidate w in
      mkDiagnostic (cand_index c) (cand_caps c) (Some (realized_max_utilization c)) Succeeded (Some (fmax_mhz (win_timing w)))
        (Some (achieved_period_ns (win_timing w))) (Some (F64.leb F64.zero (wns_ns (win_timing w)))) None
  | Failure c e => mkDiagnostic (cand_index c) (cand_caps c) (Some (realized_max_utilization c)) Failed None None None (Some e)
  end.

Definition from_infeasible (c : InfeasibleCandidate) : CandidateDiagnostic :=
  mkDiagnostic (inf_index c) (inf_caps c) None Infeasible None None None (Some "exact planning infeasible").

Definition diagnostics (outcomes : list CandidateOutcome) (infeasible : list InfeasibleCandidate) : list CandidateDiagnostic :=
  sort_by_key diag_index (map from_outcome outcomes ++ map from_infeasible infeasible).

Record WinnerMetrics := mkMetrics {
  wm_candidate_index : nat;
  wm_caps : CandidateCaps;
  wm_utilization : f64;
  wm_target_mhz : Z;
  wm_target_period_ns : f64;
  wm_reported_mhz : f64;
  wm_wns_ns : f64;
  wm_achieved_period_ns : f64;
  wm_fmax_mhz : f64;
  wm_timing_closed : bool;
  wm_timing_report : string;
}.

(** ** Files *)

Definition IMPLEMENTATION_TIMING_REPORT : string := "floorplan-timing.rpt".
Definition IMPLEMENTATION_METRICS : string := "floorplan-metrics.json".
Definition IMPLEMENTATION_BITSTREAM : string := "floorplan.vbin".
Definition FLOORPLAN_XDC : string := "floorplan.xdc".
Definition FLOORPLAN_CONNECTIVITY : string := "floorplan-connectivity.ini".
Definition CANDIDATE_ROOT : string := "dse".
Definition CANDIDATE_DIAGNOSTICS : string := "candidates.json".
Definition CANDIDATE_DIAGNOSTIC : string := "candidate.json".

Definition candidate_root (work_dir : string) (index : nat) : string := Path.join (Path.join work_dir CANDIDATE_ROOT) (candidate_label index).

Record CandidatePaths := mkPaths {
  cp_root : string; cp_rtl : string; cp_package : string; cp_xo : string; cp_zip : string; cp_constraints : string; cp_link : string;
  cp_artifacts : string; cp_xclbin : string; cp_vbin : string; cp_reports : string; cp_logs : string; cp_temp : string }.

Definition paths_new (work_dir : string) (index : nat) (top : string) : CandidatePaths :=
  let root := candidate_root work_dir index in
  let package := Path.join root "package" in
  let link := Path.join root "link" in
  let artifacts := Path.join link "artifacts" in
  mkPaths root (Path.join root "rtl") package (Path.join package (top +:+ ".xo")) (Path.join package (top +:+ ".zip")) (Path.join root "constraints") link
    artifacts (Path.join artifacts (top +:+ ".xclbin")) (Path.join artifacts (top +:+ ".vbin")) (Path.join artifacts "reports") (Path.join artifacts "logs")
    (Path.join link "vitis.tmp").

Section files.
Context {W : Type} `{Host W}.

Fixpoint act_each {E A} (f : A -> act W E unit) (l : list A) : act W E unit :=
  match l with [] => act_ret tt | x :: l' => act! _ := f x in act_each f l' end.
Fixpoint act_map {E A B} (f : A -> act W E B) (l : list A) : act W E (list B) :=
  match l with [] => act_ret [] | x :: l' => act! y := f x in act! ys := act_map f l' in act_ret (y :: ys) end.

(** A temporary file is removed when it is dropped. *)
Definition with_temp {A} (dir : string) (f : string -> act W CliError A) : act W CliError A :=
  act! temp := fs CliIo (temp_in dir) in
  fun w => let '(r, w') := f temp w in (r, (remove_file temp w').2).

Definition write_bytes_atomic (work_dir file_name bytes : string) : act W CliError unit :=
  act! _ := fs CliIo (create_dir_all work_dir) in
  with_temp work_dir (fun temp =>
    act! _ := fs CliIo (write_file temp bytes) in
    fs CliIo (rename_file temp (Path.join work_dir file_name))).

Definition read_file (path : string) : act W CliError string := fun w => (match Host.read_to_string path w with inl e => Err (CliIo e) | inr t => Ok t end, w).

Definition atomic_copy (source destination : string) : act W CliError unit :=
  act! parent := act_lift (ok_or (Path.parent destination) (FloorplanFailed ("implementation artifact `" +:+ destination +:+ "` has no parent directory"))) in
  act! _ := fs CliIo (create_dir_all parent) in
  with_temp parent (fun temp =>
    act! bytes := read_file source in
    act! _ := fs CliIo (write_file temp bytes) in
    fs CliIo (rename_file temp destination)).

Definition recreate_dir (dir : string) : act W CliError unit :=
  act! _ := remove_stale CliIo dir remove_dir_all in
  fs CliIo (create_dir_all dir).

Definition recreate_candidate_root (work_dir : string) : act W CliError unit := recreate_dir (Path.join work_dir CANDIDATE_ROOT).

Definition paths_recreate (p : CandidatePaths) : act W CliError unit :=
  act! _ := recreate_dir (cp_root p) in
  act_each (fun d => fs CliIo (create_dir_all d)) [cp_rtl p; cp_package p; cp_constraints p; cp_link p; cp_artifacts p; cp_reports p; cp_logs p].
End files.

(** What the libraries do that encode JSON, and what the parts of the flow that
    are not modelled do: a candidate's RTL tree, its package, and its SLASH link. *)
Class ImplementationFlow (W : Type) := {
  diagnostic_json : CandidateDiagnostic -> string;
  diagnostics_json : list CandidateDiagnostic -> string;
  metrics_json : WinnerMetrics -> string;
  render_text : RenderXdcError -> string;
  emit_rtl : CandidatePaths -> PlannedCandidate -> act W CliError unit;
  package_prepared_vitis_rtl : PlannedCandidate -> CandidatePaths -> act W CliError string;
  package_prepared_slash_zip : PlannedCandidate -> CandidatePaths -> act W CliError string;
  slash_link : string -> CandidatePaths -> ImplementationTarget -> act W XilinxError LinkOutput;
}.

(** The pool: the number of its threads, and what is run in it.  It may not be
    created. *)
Class ThreadPool (W : Type) := {
  pool_map : forall {A B}, Z -> (A -> act W CliError B) -> list A -> act W CliError (list B);
}.

(** An entry of the result is what its own item returned, in order. *)
Class ThreadPoolSpec (W : Type) `{ThreadPool W} := {
  pool_collects : forall {A B} workers (f : A -> act W CliError B) l w bs w', pool_map workers f l w = (Ok bs, w') ->
    Forall2 (fun a b => exists w1 w2, f a w1 = (Ok b, w2)) l bs;
}.

Section implement.
Context {W : Type} `{Host W} `{ImplementationFlow W} `{ThreadPool W}.
Variable table : string -> res string Device.

Definition write_json (root name json : string) : act W CliError unit := write_bytes_atomic root name (json +:+ newline).

Definition persist_outcome (work_dir : string) (outcomes : list CandidateOutcome) (d : CandidateDiagnostic) : act W CliError unit :=
  let root := candidate_root work_dir (diag_index d) in
  act! _ := fs CliIo (create_dir_all root) in
  act! _ := write_json root CANDIDATE_DIAGNOSTIC (diagnostic_json d) in
  match find_first (fun o => Nat.eqb (cand_index (outcome_candidate o)) (diag_index d)) outcomes with
  | Some (Success w) =>
      act! _ := write_bytes_atomic root "vitis.stdout.log" (link_stdout (win_output w)) in
      write_bytes_atomic root "vitis.stderr.log" (link_stderr (win_output w))
  | _ => act_ret tt
  end.

Definition persist_diagnostics (work_dir : string) (outcomes : list CandidateOutcome) (infeasible : list InfeasibleCandidate) : act W CliError unit :=
  let root := Path.join work_dir CANDIDATE_ROOT in
  act! _ := fs CliIo (create_dir_all root) in
  let ds := diagnostics outcomes infeasible in
  act! _ := act_each (persist_outcome work_dir outcomes) (List.filter (fun d => match diag_status d with Infeasible => false | _ => true end) ds) in
  write_json root CANDIDATE_DIAGNOSTICS (diagnostics_json ds).

Definition package_candidate (p : CandidatePaths) (flow : Target) (c : PlannedCandidate) : act W CliError string :=
  match flow with
  | XilinxVitis => package_prepared_vitis_rtl c p
  | XilinxSlash => package_prepared_slash_zip c p
  | XilinxHls => act_lift (Err (InvalidArg "floorplan implementation has no Xilinx HLS link backend"))
  end.

Definition vitis_job (p : CandidatePaths) (top package : string) (connectivity : option string) (t : ImplementationTarget) : VitisLinkJob :=
  mkJob top package (it_platform t) (it_target_mhz t) (cp_link p) (cp_artifacts p) (cp_xclbin p) (cp_reports p) (cp_logs p) (cp_temp p)
    (Some (Path.join (cp_constraints p) FLOORPLAN_XDC))
    (match connectivity with Some _ => Some (Path.join (cp_constraints p) FLOORPLAN_CONNECTIVITY) | None => None end)
    (it_vivado_threads t) PostRouteTiming "v++".

Definition try_implement_one (work_dir top : string) (connectivity : option string) (t : ImplementationTarget) (c : PlannedCandidate) :
    act W CliError (LinkOutput * option VitisLinkJob) :=
  let p := paths_new work_dir (cand_index c) top in
  act! _ := paths_recreate p in
  act! _ := emit_rtl p c in
  act! xdc := act_lift (map_err (fun e => FloorplanFailed (render_text e)) (render_xdc table (cand_floorplan c))) in
  act! _ := write_bytes_atomic (cp_constraints p) FLOORPLAN_XDC xdc in
  act! _ := (match connectivity with Some bytes => write_bytes_atomic (cp_constraints p) FLOORPLAN_CONNECTIVITY bytes | None => act_ret tt end) in
  act! package := package_candidate p (it_flow t) c in
  if bool_decide (it_flow t = XilinxSlash) then
    act! _ := act_lift (ok_or connectivity (InvalidArg "V80 SLASH implementation requires floorplan connectivity")) in
    act! output := act_map_err CliXilinx (slash_link package p t) in
    act_ret (output, None)
  else
    let job := vitis_job p top package connectivity t in
    act! output := act_map_err CliXilinx (run_vitis_link job) in
    act_ret (output, Some job).

(** An error is an outcome. *)
Definition implement_one (work_dir top : string) (connectivity : option string) (t : ImplementationTarget) (c : PlannedCandidate) : act W CliError CandidateOutcome := fun w =>
  match try_implement_one work_dir top connectivity t c w with
  | (Ok (output, job), w') => (Ok (from_link c output (it_flow t) job), w')
  | (Err e, w') => (Ok (Failure c (cli_error_str e)), w')
  | (Panic, w') => (Panic, w')
  end.

(** Only the winner is linked in full. *)
Definition run_final_vitis_link (s : ImplementationWinner) : act W CliError ImplementationWinner :=
  match win_vitis_job s with
  | None => act_ret s
  | Some job =>
      let job := set_mode Full job in
      act! output := act_map_err CliXilinx (run_vitis_link job) in
      act! t := act_lift (map_err CliXilinx (hardware_timing output)) in
      act_ret (mkWinner (win_candidate s) output (Some job) t)
  end.

Definition winner_metrics (s : ImplementationWinner) (target_mhz : Z) : WinnerMetrics :=
  let t := win_timing s in
  mkMetrics (cand_index (win_candidate s)) (cand_caps (win_candidate s)) (realized_max_utilization (win_candidate s)) target_mhz
    (reported_target_period_ns t) (reported_target_mhz t) (wns_ns t) (achieved_period_ns t) (fmax_mhz t) (F64.leb F64.zero (wns_ns t)) IMPLEMENTATION_TIMING_REPORT.

Definition publish_artifacts (work_dir : string) (target_mhz : Z) (s : ImplementationWinner) : act W CliError unit :=
  act! report := act_lift (map_err CliXilinx (hardware_timing_report (win_output s))) in
  act! _ := atomic_copy report (Path.join work_dir IMPLEMENTATION_TIMING_REPORT) in
  let name := if bool_decide (Path.extension (bitstream (win_output s)) = Some "xclbin") then "floorplan.xclbin" else IMPLEMENTATION_BITSTREAM in
  act! _ := atomic_copy (bitstream (win_output s)) (Path.join work_dir name) in
  write_json work_dir IMPLEMENTATION_METRICS (metrics_json (winner_metrics s target_mhz)).

Definition finish_with_winner (outcomes : list CandidateOutcome) (infeasible : list InfeasibleCandidate) (publish : ImplementationWinner -> act W CliError unit) :
    act W CliError unit :=
  act! i := act_lift (ok_or (winner_index outcomes) (all_failed_error outcomes infeasible)) in
  match outcomes !! i with
  | Some (Success s) => act! s := run_final_vitis_link s in publish s
  | _ => act_lift Panic
  end.

Definition candidate_worker_count (requested_jobs : Z) (candidate_count : nat) : Z := Z.min requested_jobs (Z.of_nat candidate_count).

Definition implement_and_publish (work_dir top : string) (connectivity : option string) (t : ImplementationTarget) (candidates : list PlannedCandidate)
    (infeasible : list InfeasibleCandidate) (jobs : Z) (publish : ImplementationWinner -> act W CliError unit) : act W CliError unit :=
  let workers := candidate_worker_count jobs (length candidates) in
  act! _ := recreate_candidate_root work_dir in
  let run := implement_one work_dir top connectivity t in
  act! outcomes := (if workers =? 0 then act_ret [] else if workers =? 1 then act_map run candidates else pool_map workers run candidates) in
  act! _ := persist_diagnostics work_dir outcomes infeasible in
  finish_with_winner outcomes infeasible publish.
End implement.

(** ** The fastest *)

(** The order of winners: by frequency, then the least index. *)
Definition no_faster (a b : nat * ImplementationWinner) : Prop :=
  total_bits (fmax_mhz (win_timing a.2)) < total_bits (fmax_mhz (win_timing b.2)) \/
  total_bits (fmax_mhz (win_timing a.2)) = total_bits (fmax_mhz (win_timing b.2)) /\ (cand_index (win_candidate b.2) <= cand_index (win_candidate a.2))%nat.

Lemma compare_winners_spec a b : (compare_winners a b <> Gt -> no_faster a b) /\ (compare_winners a b = Gt -> no_faster b a).
Proof.
  unfold compare_winners, total_cmp, no_faster. destruct (Z.compare_spec (total_bits (fmax_mhz (win_timing a.2))) (total_bits (fmax_mhz (win_timing b.2)))); [|split; [auto|done]|split; [done|auto]].
  split; intros Hc; right; (split; [done|]).
  - destruct (Nat.compare_spec (cand_index (win_candidate b.2)) (cand_index (win_candidate a.2))); [lia|lia|done].
  - apply Nat.compare_gt_iff in Hc. lia.
Qed.

Lemma no_faster_trans a b c : no_faster a b -> no_faster b c -> no_faster a c.
Proof. unfold no_faster. intros [H1|[H1 I1]] [H2|[H2 I2]]; [left; lia|left; lia|left; lia|right; lia]. Qed.

Lemma max_by_greatest (l : list (nat * ImplementationWinner)) :
  match max_by compare_winners l with Some m => m ∈ l /\ Forall (fun x => no_faster x m) l | None => l = [] end.
Proof.
  induction l as [|x l IH] using rev_ind; [done|]. unfold max_by in *. rewrite fold_left_app. cbn [fold_left].
  destruct (fold_left _ l None) as [b|]; [|subst l; split; [by left|constructor; [right; lia|constructor]]].
  destruct IH as [Hin Hall]. destruct (compare_winners_spec b x) as [Hle Hgt]. destruct (compare_winners b x) eqn:E.
  1,2: split; [apply elem_of_app; right; by left|]; apply Forall_app; split; [|constructor; [right; lia|constructor]];
    eapply Forall_impl; [exact Hall|]; intros y Hy; eapply no_faster_trans; [exact Hy|by apply Hle].
  split; [apply elem_of_app; by left|]. apply Forall_app. split; [done|]. constructor; [by apply Hgt|constructor].
Qed.

Lemma elem_of_successes outcomes i s : (i, s) ∈ successes outcomes <-> outcomes !! i = Some (Success s).
Proof.
  unfold successes. rewrite list_elem_of_omap. split.
  - intros ([j o] & Hin & Hs). apply list_elem_of_lookup in Hin as [k Hk]. apply lookup_enumerate in Hk as [Ek Hk]. cbn in *. subst k. destruct o; [|done]. by injection Hs as <- <-.
  - intros Hi. exists (i, Success s). split; [|done]. apply list_elem_of_lookup. exists i. by apply lookup_enumerate.
Qed.

Lemma winner_index_spec outcomes :
  match winner_index outcomes with
  | Some i => exists s, outcomes !! i = Some (Success s) /\ forall j t, outcomes !! j = Some (Success t) -> no_faster (j, t) (i, s)
  | None => forall j t, outcomes !! j <> Some (Success t)
  end.
Proof.
  unfold winner_index. pose proof (max_by_greatest (successes outcomes)) as H. destruct (max_by _ _) as [[i s]|]; cbn.
  - destruct H as [Hin%elem_of_successes Hall]. exists s. split; [done|]. intros j t Ht%elem_of_successes. rewrite Forall_forall in Hall. by apply Hall.
  - intros j t Ht%elem_of_successes. rewrite H in Ht. by apply elem_of_nil in Ht.
Qed.

(** ** Publication *)

Section publication.
Context {W : Type} `{HW : Host W} `{HI : ImplementationFlow W} `{HP : ThreadPool W} `{HPS : !ThreadPoolSpec W}.
Context (table : string -> res string Device) (work_dir top : string) (connectivity : option string) (t : ImplementationTarget).

(** What a candidate's own implementation came to, in some state of the host. *)
Definition outcome_of (c : PlannedCandidate) (o : CandidateOutcome) : Prop :=
  exists w1 w2, implement_one table work_dir top connectivity t c w1 = (Ok o, w2).

Lemma from_link_success c output flow job s : from_link c output flow job = Success s ->
  win_candidate s = c /\ win_output s = output /\ win_vitis_job s = job /\ timing output = Some (win_timing s) /\
  F64.is_finite (fmax_mhz (win_timing s)) = true /\ (flow = XilinxSlash \/ F64.leb F64.zero (wns_ns (win_timing s)) = true).
Proof.
  unfold from_link, hardware_timing. destruct (timing output) as [tm|]; cbn [ok_or]; [|done]. destruct (F64.is_finite (fmax_mhz tm)) eqn:Ef; [|done]. cbn [andb].
  destruct (bool_decide_reflect (flow = XilinxSlash)) as [Hs|Hs]; cbn [orb]; [intros [= <-]; cbn; auto 10|].
  destruct (F64.leb F64.zero (wns_ns tm)) eqn:El; [|done]. intros [= <-]. cbn. auto 10.
Qed.

(** A success was linked, and met its timing. *)
Definition succeeded (c : PlannedCandidate) (s : ImplementationWinner) : Prop :=
  win_candidate s = c /\ timing (win_output s) = Some (win_timing s) /\ F64.is_finite (fmax_mhz (win_timing s)) = true /\
  (it_flow t = XilinxSlash \/ F64.leb F64.zero (wns_ns (win_timing s)) = true).

Lemma outcome_of_success c s : outcome_of c (Success s) -> succeeded c s.
Proof.
  intros (w1 & w2 & H). unfold implement_one in H. destruct (try_implement_one _ _ _ _ _ _ _) as [[[output job]|e|] w3]; [|done|done].
  injection H as H _. apply from_link_success in H as (H1 & <- & _ & H3 & H4 & H5). done.
Qed.

(** The final link: its timing takes the place of the one that ranked. *)
Definition final_link (s s' : ImplementationWinner) (w w' : W) : Prop :=
  win_candidate s' = win_candidate s /\
  match win_vitis_job s with
  | None => s' = s /\ w' = w
  | Some job => run_vitis_link (set_mode Full job) w = (Ok (win_output s'), w') /\ timing (win_output s') = Some (win_timing s')
  end.

Lemma map_err_act_ok {A} (m : act W XilinxError A) w a w' : act_map_err CliXilinx m w = (Ok a, w') -> m w = (Ok a, w').
Proof. unfold act_map_err. destruct (m w) as [[b|e|] w1]; [by intros [= -> ->]|done|done]. Qed.

Lemma run_final_spec s w s' w' : run_final_vitis_link s w = (Ok s', w') -> final_link s s' w w'.
Proof.
  unfold run_final_vitis_link, final_link. destruct (win_vitis_job s) as [job|]; [|by intros [= <- <-]]. intros H.
  apply act_bind_ok in H as (output & w1 & E%map_err_act_ok & H). apply act_bind_ok in H as (tm & w2 & [Et ->]%lift_ok & H). injection H as <- <-. cbn.
  split; [done|]. split; [done|]. unfold hardware_timing in Et. destruct (timing output); [|done]. by injection Et as ->.
Qed.

Lemma act_map_outcomes {A B} (f : A -> act W CliError B) l w bs w' : act_map f l w = (Ok bs, w') -> Forall2 (fun a b => exists w1 w2, f a w1 = (Ok b, w2)) l bs.
Proof.
  revert w bs. induction l as [|a l IH]; intros w bs; cbn [act_map]; [by intros [= <- _]|]. intros H.
  apply act_bind_ok in H as (b & w1 & E & H). apply act_bind_ok in H as (ys & w2 & Ey & H). injection H as <- <-. constructor; [eauto|by eapply IH].
Qed.

(** The run is published by the callback, or it ended without it. *)
Definition published (m : (ImplementationWinner -> act W CliError unit) -> act W CliError unit) (publish : ImplementationWinner -> act W CliError unit)
    (w : W) (r : res CliError unit) (w' : W) (P : ImplementationWinner -> W -> Prop) : Prop :=
  (exists s w1, P s w1 /\ publish s w1 = (r, w')) \/ ((forall u, r <> Ok u) /\ forall other, m other w = (r, w')).

(** A step that does not depend on the callback. *)
Lemma published_bind {A} (m : act W CliError A) (k : A -> (ImplementationWinner -> act W CliError unit) -> act W CliError unit) whole publish w r w' P :
  (forall p, whole p = act_bind m (fun a => k a p)) -> whole publish w = (r, w') ->
  (forall a w1, m w = (Ok a, w1) -> k a publish w1 = (r, w') -> published (k a) publish w1 r w' P) -> published whole publish w r w' P.
Proof.
  intros Hw. rewrite Hw. unfold act_bind. destruct (m w) as [[a|e|] w1] eqn:E; intros H Hk.
  - destruct (Hk a w1 eq_refl H) as [Hp|[Hr Ho]]; [by left|right]. split; [done|]. intros other. rewrite Hw. unfold act_bind. rewrite E. apply Ho.
  - right. injection H as <- <-. split; [done|]. intros other. rewrite Hw. unfold act_bind. by rewrite E.
  - right. injection H as <- <-. split; [done|]. intros other. rewrite Hw. unfold act_bind. by rewrite E.
Qed.

Ltac callback_step H := eapply published_bind; [intros ?; reflexivity|exact H|clear H].

(** C12: the candidate that is published is the fastest.  Whatever the tools and the pool do,
    either nothing is published, and the run fails in a way that does not depend on
    publication; or publication happens once, as the last step, with a candidate of the
    run whose implementation succeeded with a finite frequency and met its setup timing
    (except for SLASH); no other success is faster, nor as fast with a lower index; and what
    is published is that candidate's final full link, with the timing of that link. *)
Theorem winner_is_fastest candidates infeasible jobs publish w r w' : 1 <= jobs ->
  implement_and_publish table work_dir top connectivity t candidates infeasible jobs publish w = (r, w') ->
  published (implement_and_publish table work_dir top connectivity t candidates infeasible jobs) publish w r w' (fun s' w2 =>
    exists outcomes i c s w1, Forall2 outcome_of candidates outcomes /\ candidates !! i = Some c /\ outcomes !! i = Some (Success s) /\ succeeded c s /\
      (forall j u, outcomes !! j = Some (Success u) -> no_faster (j, u) (i, s)) /\ final_link s s' w1 w2).
Proof using HPS.
  intros Hj H. callback_step H. intros [] w1 _ H. callback_step H. intros outcomes w2 Eo H.
  assert (Hf : Forall2 outcome_of candidates outcomes).
  { unfold candidate_worker_count in Eo. destruct (Z.eqb_spec (Z.min jobs (Z.of_nat (length candidates))) 0).
    - assert (candidates = []) as -> by (apply length_zero_iff_nil; lia). injection Eo as <- _. constructor.
    - destruct (_ =? 1); [by apply act_map_outcomes in Eo|by apply pool_collects in Eo]. }
  callback_step H. intros [] w3 _ H. callback_step H. intros i w4 [Ei ->]%lift_ok H.
  pose proof (winner_index_spec outcomes) as Hw. destruct (winner_index outcomes) as [i0|]; [|done]. injection Ei as ->. destruct Hw as (s & Hs & Hbest).
  rewrite Hs in H |- *. callback_step H. intros s' w5 Ef%run_final_spec H.
  left. exists s', w5. split; [|exact H]. destruct (Forall2_lookup_r _ _ _ _ _ Hf Hs) as (c & Hc & Ho).
  exists outcomes, i, c, s, w3. split; [done|]. split; [done|]. split; [done|]. split; [by apply outcome_of_success|]. done.
Qed.

(** When no candidate succeeded, the error lists every one that failed. *)
Lemma all_failed outcomes infeasible publish w : (forall j u, outcomes !! j <> Some (Success u)) ->
  finish_with_winner outcomes infeasible publish w = (Err (all_failed_error outcomes infeasible), w).
Proof.
  intros Hn. unfold finish_with_winner. pose proof (winner_index_spec outcomes) as Hw. destruct (winner_index outcomes) as [i|]; [|done].
  destruct Hw as (s & Hs & _). by apply Hn in Hs.
Qed.
End publication.

(** ** A concrete exploration *)

Module DemoFlow.
(** The files and tools of a run with two candidates: the second is faster. *)
Definition tool (i : ToolInvocation) (w : Files) : Files :=
  let dir := default "" (inv_cwd i) +:+ "/artifacts/" in
  let wns := if Str.contains "candidate_001" dir then "0.300" else "0.100" in
  <[dir +:+ "timing_summary.rpt" := report "2.500" "400.000" wns]> (<[dir +:+ "top.xclbin" := "bits of " +:+ dir]> w).
#[export] Instance host : Host Files := files_host tool.
#[export] Instance host_spec : HostSpec Files := files_host_spec tool.

#[export] Instance flow : ImplementationFlow Files := {|
  diagnostic_json d := Str.show (Z.of_nat (diag_index d));
  diagnostics_json ds := joined "," (map (fun d => Str.show (Z.of_nat (diag_index d))) ds);
  metrics_json m := "winner " +:+ Str.show (Z.of_nat (wm_candidate_index m)) +:+ " at " +:+ fixed 3 (wm_fmax_mhz m);
  render_text _ := "cannot render";
  emit_rtl _ _ := act_ret tt;
  package_prepared_vitis_rtl _ p := act! _ := fs CliIo (write_file (cp_xo p) "xo") in act_ret (cp_xo p);
  package_prepared_slash_zip _ p := act_ret (cp_zip p);
  slash_link _ _ _ := act_lift (Err MissingHardwareTiming);
|}.

(** One worker after another. *)
#[export] Instance pool : ThreadPool Files := {| pool_map _ _ _ f l := act_map f l |}.
#[export] Instance pool_spec : ThreadPoolSpec Files.
Proof. split. intros A B workers f l w bs w' H. by apply (act_map_outcomes f l w bs w'). Qed.

Definition table (_ : string) : res string Device := Ok Device.Example.device.
Definition fp : FloorplanResult := mkResult (key Device.Example.device) (cols Device.Example.device, rows Device.Example.device) [("work_0", "SLOT_X0Y0_TO_SLOT_X0Y0")] [] [].
Definition candidate (i : nat) : PlannedCandidate := mkPlanned i (caps_relaxing (F64.div (F64.of_Z 7) (F64.of_Z 10))) F64.one fp.
Definition target : ImplementationTarget := mkTarget "xilinx_u250" 400 2 XilinxVitis.

Definition run (publish : ImplementationWinner -> act Files CliError unit) : res CliError unit * Files :=
  implement_and_publish table "/w" "top" None target [candidate 0; candidate 1] [] 2 publish ∅.
Definition publish : ImplementationWinner -> act Files CliError unit := publish_artifacts "/w" 400.
End DemoFlow.
Import DemoFlow.

Lemma winner_is_fastest_witness : exists w', run publish = (Ok tt, w') /\ w' !! "/w/floorplan-metrics.json" = Some ("winner 1 at 454.545" +:+ newline) /\
  w' !! "/w/dse/candidates.json" = Some ("0,1" +:+ newline) /\
  exists c s s' w1 w2, In c [candidate 0; candidate 1] /\ succeeded DemoFlow.target c s /\ final_link s s' w1 w2 /\ publish s' w2 = (Ok tt, w').
Proof.
  assert (E : (run publish).1 = Ok tt) by (vm_compute; reflexivity).
  assert (Em : (run publish).2 !! "/w/floorplan-metrics.json" = Some ("winner 1 at 454.545" +:+ newline)) by (vm_compute; reflexivity).
  assert (Ec : (run publish).2 !! "/w/dse/candidates.json" = Some ("0,1" +:+ newline)) by (vm_compute; reflexivity).
  destruct (run publish) as [r w'] eqn:Er. cbn [fst snd] in E, Em, Ec. subst r. exists w'. split; [reflexivity|]. split; [exact Em|]. split; [exact Ec|].
  assert (H1 : 1 <= 2) by lia.
  destruct (winner_is_fastest DemoFlow.table "/w" "top" None DemoFlow.target [candidate 0; candidate 1] [] 2 publish ∅ (Ok tt) w' H1 Er)
    as [(s' & w2 & (outcomes & i & c & s & w1 & Hf & Hc & Ho & Hs & Hbest & Hl) & Hp)|[Hn _]]; [|exfalso; exact (Hn tt eq_refl)].
  exists c, s, s', w1, w2. split; [apply list_elem_of_In; apply list_elem_of_lookup; exists i; exact Hc|]. split; [exact Hs|]. split; [exact Hl|exact Hp].
Defined.

(** Candidates that miss their timing are not published; the run fails, and the
    message says what the code says of them. *)
Example missed_timing : (@implement_and_publish Files (files_host (fun i w => <[default "" (inv_cwd i) +:+ "/artifacts/timing_summary.rpt" := report "2.500" "400.000" "-0.500"]> w)) flow pool
    DemoFlow.table "/w" "top" None DemoFlow.target [candidate 0] [mkInfeasible 1 (caps_relaxing F64.one)] 1 (fun _ => act_lift Panic) ∅).1
  = Err (FloorplanFailed ("no floorplan candidate completed implementation: candidate_000 (relaxing logic cap 0.700000000): implementation reported non-finite Fmax `333.3333333333333` MHz; "
      +:+ "candidate_001 (relaxing logic cap 1.000000000): exact planning infeasible")).
Proof. vm_compute. done. Qed.
