(* ===== verification/FloorplanStep.v ===== *)
(** * The floorplan step

    [tapa-cli/src/steps/floorplan/mod.rs]: the connectivity of a design is read
    and checked against its direct memory ports, the design is planned, and a
    plan is published.  The constraints file is the marker of a published plan:
    it is removed first and written last. *)

From Stdlib Require Import SpecFloat.
From S2P Require Import Prelude RustStd BTreeMap Frt Ffi Geometry Names Ir Connectivity Flatten F64 F64Spec Device FloorGraph Lp Partition Pipeline Plan Dse Xdc F64Text Clock Protocol Ini Rtl Topology AsyncMmap Mmap Timing Host VitisLink Implement.

Local Open Scope Z_scope.

(** ** Options of the command *)

Inductive PpScheme := PpSingle | PpDouble | PpSingleHDoubleV.
Definition scheme_of (s : PpScheme) : PipelineScheme := match s with PpSingle => Single | PpDouble => Double | PpSingleHDoubleV => SingleHDoubleV end.

Inductive PartitionMode := ModeAuto | ModeFlat | ModeMultiLevel.
Definition strategy_of (m : PartitionMode) : PartitionStrategy := match m with ModeAuto => Auto | ModeFlat => Flat | ModeMultiLevel => MultiLevel end.

Record FloorplanArgs := mkArgs {
  arg_usage_limit : f64;
  arg_partition_strategy : PartitionMode;
  arg_pp_scheme : PpScheme;
  arg_max_seconds : Z;
  arg_connectivity : option string;
  run_impl : bool;
  dse : bool;
  arg_dse_min : f64;
  arg_dse_max : f64;
  arg_dse_step : f64;
  dse_jobs : Z;
  arg_vivado_threads : Z;
}.

Definition parse_usage_limit (value : string) : res string f64 :=
  let! parsed := ok_or (F64Text.parse value) ("usage limit `" +:+ value +:+ "` is not a number") in
  if F64.is_finite parsed && F64.gtb parsed F64.zero && F64.leb parsed F64.one then Ok parsed
  else Err ("usage limit must be finite and in the range (0, 1], got " +:+ value).

(** [platform/slash.rs]. *)
Record SlashPlatform := mkSlash { sp_name : string; sp_part_num : string; sp_default_clock_period : string }.
Definition SLASH_PLATFORMS : list SlashPlatform := [mkSlash "slash_v80_service" "xcv80-lsva4737-2MHP-e-S" "3.33"].
Definition find_slash_platform (name : string) : option SlashPlatform := find_first (fun p => String.eqb (sp_name p) name) SLASH_PLATFORMS.

(** ** Connectivity *)

Record ConnectivityInput := mkConnectivity { ci_bytes : string; ci_bindings : MemoryBindings }.

Definition memory_binding (top : string) (bindings : MemoryBindings) (i : DirectMmapInterface) : res CliError MemoryInterface :=
  let e := di_endpoint i in
  let! bank := ok_or (bindings_get bindings top (ep_top_port e)) (InvalidArg ("connectivity is missing `sp=" +:+ top +:+ "." +:+ ep_top_port e
    +:+ ":<bank>` for direct M-AXI endpoint `" +:+ ep_instance e +:+ "." +:+ ep_port e +:+ "`")) in
  Ok (mkMemory e bank (di_channel_widths i) (di_bridge_instance i)).

Definition is_known (top : string) (interfaces : list DirectMmapInterface) (b : MemoryBinding) : bool :=
  String.eqb (me_kernel (mb_endpoint b)) top && existsb (fun i => String.eqb (ep_top_port (di_endpoint i)) (me_port (mb_endpoint b))) interfaces.

Definition memory_plan_inputs (top : string) (interfaces : list DirectMmapInterface) (connectivity : option ConnectivityInput) : res CliError PlanInputs :=
  let bindings := ci_bindings <$> connectivity in
  match interfaces with
  | [] =>
      match (let? b := bindings in head (bindings_list b)) with
      | Some b => Err (InvalidArg ("connectivity binding `" +:+ endpoint_display (mb_endpoint b) +:+ "` does not name a direct M-AXI port of kernel `" +:+ top
          +:+ "`; the kernel has no direct M-AXI ports"))
      | None => Ok (mkInputs [] None None)
      end
  | _ =>
      let! bindings := ok_or bindings (InvalidArg ("floorplanning direct M-AXI ports requires `--connectivity` with "
        +:+ joined ", " (map (fun i => "sp=" +:+ top +:+ "." +:+ ep_top_port (di_endpoint i) +:+ ":<bank>") interfaces))) in
      let! _ := try_each (fun b => if is_known top interfaces b then Ok tt else
        Err (InvalidArg ("connectivity binding `" +:+ endpoint_display (mb_endpoint b) +:+ "` does not name a direct M-AXI port of kernel `" +:+ top
          +:+ "`; direct M-AXI ports are `" +:+ joined "`, `" (map (fun i => ep_top_port (di_endpoint i)) interfaces) +:+ "`"))) (bindings_list bindings) in
      let! memory := try_map (memory_binding top bindings) interfaces in
      Ok (mkInputs memory None None)
  end.

(** ** Candidates *)

(** The texts of the errors of the planner. *)
Class PlannerTexts := {
  plan_options_text : PlanOptionsError -> string;
  plan_text : PlanError -> string;
  dse_text : DseError -> string;
  select_text : SelectError -> string;
  transform_text : TransformError -> string;
  codegen_text : CodegenError -> string;
}.

Section planning.
Context `{PlannerTexts}.
Variable table : string -> res string Device.
Variable cbc : LpModel -> SolveOpts -> res SolverError LpSolution.

Definition measure_utilization (fp : FloorplanResult) : res CliError f64 :=
  let! d := map_err (fun e => FloorplanFailed (select_text e)) (select_device table (fr_device fp)) in
  map_err (fun e => FloorplanFailed (dse_text e)) (maximum_realized_utilization fp d).

(** The loop over the explored candidates. *)
Definition split_candidate (acc : list PlannedCandidate * list InfeasibleCandidate) (x : nat * DseCandidate) : list PlannedCandidate * list InfeasibleCandidate :=
  let caps := caps_exact (candidate_caps x.2) in
  match x.2 with
  | CFeasible _ max_utilization fp => (acc.1 ++ [mkPlanned x.1 caps max_utilization fp], acc.2)
  | CInfeasible _ => (acc.1, acc.2 ++ [mkInfeasible x.1 caps])
  end.

Definition plan_implementation_candidates (args : FloorplanArgs) (st : WorkState) (o : PlanOptions) (inputs : PlanInputs) (d : DseOptions) :
    res CliError (list PlannedCandidate * list InfeasibleCandidate) :=
  if negb (dse args) then
    let! fp := map_err (fun e => FloorplanFailed (plan_text e)) (plan_with_inputs table cbc st o inputs) in
    let! u := measure_utilization fp in
    Ok ([mkPlanned 0 (caps_relaxing (arg_usage_limit args)) u fp], [])
  else
    let! explored := map_err (fun e => FloorplanFailed (dse_text e)) (explore table cbc st o inputs d) in
    Ok (fold_left split_candidate (enumerate explored) ([], [])).
End planning.

(** ** Publication *)

Section publish.
Context {W : Type} `{Host W}.

(** The files an earlier plan may have left. *)
Definition stale_files : list string := [FLOORPLAN_XDC; FLOORPLAN_CONNECTIVITY; IMPLEMENTATION_TIMING_REPORT; IMPLEMENTATION_METRICS].

Definition publish_floorplan_after_update (work_dir xdc : string) (connectivity : option string) (update : act W CliError unit) : act W CliError unit :=
  act! _ := act_each (fun name => remove_stale CliIo (Path.join work_dir name) remove_file) stale_files in
  act! _ := update in
  act! _ := (match connectivity with Some bytes => write_bytes_atomic work_dir FLOORPLAN_CONNECTIVITY bytes | None => act_ret tt end) in
  write_bytes_atomic work_dir FLOORPLAN_XDC xdc.

(** [std::str::from_utf8] and the parser of the bindings. *)
Definition read_connectivity (path : option string) (parse : string -> res string MemoryBindings) : act W CliError (option ConnectivityInput) :=
  match path with
  | None => act_ret None
  | Some path => fun w =>
      (let! bytes := match Host.read_to_string path w with inr t => Ok t | inl e => Err (InvalidArg ("cannot read connectivity file `" +:+ path +:+ "`: " +:+ e)) end in
       let! text := match utf8_error (String.length bytes) 0 (bytes_of bytes) with
         | None => Ok bytes
         | Some e => Err (InvalidArg ("connectivity file `" +:+ path +:+ "` is not UTF-8: " +:+ utf8_error_str e))
         end in
       let! bindings := map_err (fun e => InvalidArg ("invalid connectivity file `" +:+ path +:+ "`: " +:+ e)) (parse text) in
       Ok (Some (mkConnectivity bytes bindings)), w)
  end.
End publish.

(** The parts of the step that are not modelled: the stored state, the HDL of the
    tasks, and the RTL tree. *)
Class FloorplanStore (W : Type) := {
  load_state : string -> act W CliError WorkState;
  store_state : string -> WorkState -> act W CliError unit;
  prepare_rtl : string -> TaskGraph -> FlatProjection -> act W CliError TopologyWithRtl;
  emit_rtl_tree : string -> TopologyWithRtl -> act W CliError unit;
}.

Definition with_floorplan (fp : FloorplanResult) (st : TopologyWithRtl) : TopologyWithRtl :=
  mkTopology (tp_design st) (flat_projection st) (Some fp) (module_map st) (fsm_modules st) (generated_files st) (template_files st).
Definition state_with_floorplan (fp : FloorplanResult) (st : WorkState) : WorkState := mkState (version st) (state_graph st) (flow st) (Some fp).

Section step.
Context {W : Type} `{Host W} `{ImplementationFlow W} `{ThreadPool W} `{FloorplanStore W} `{PlannerTexts} `{RtlLibraries}.
Variable table : string -> res string Device.
Variable cbc : LpModel -> SolveOpts -> res SolverError LpSolution.

Definition publish_implementation_winner (work_dir : string) (st : WorkState) (rtl : TopologyWithRtl) (connectivity : option ConnectivityInput) (target_mhz : Z)
    (s : ImplementationWinner) : act W CliError unit :=
  let fp := cand_floorplan (win_candidate s) in
  act! xdc := act_lift (map_err (fun e => FloorplanFailed (render_text e)) (render_xdc table fp)) in
  publish_floorplan_after_update work_dir xdc (ci_bytes <$> connectivity)
    (act! _ := emit_rtl_tree work_dir (with_floorplan fp rtl) in
     act! _ := store_state work_dir (state_with_floorplan fp st) in
     publish_artifacts work_dir target_mhz s).

Definition slash_ports (interfaces : list DirectMmapInterface) : list KernelXmlPort :=
  map (fun i => mkXmlPort (ep_top_port (di_endpoint i)) CatMAxi (di_data_width i) "" "") interfaces.

(** The inputs of the planner, apart from memory. *)
Definition complete_inputs (rtl : TopologyWithRtl) (p : FlatProjection) (inputs : PlanInputs) : PlanInputs :=
  mkInputs (memory inputs) (if supports_distributed_control rtl then Some (top_instantiates_control_s_axi rtl) else None) (Some p).

Definition step_options (args : FloorplanArgs) : PlanOptions :=
  mkPlanOptions (arg_usage_limit args) (arg_max_seconds args) 1 (strategy_of (arg_partition_strategy args)) (scheme_of (arg_pp_scheme args)).
Definition step_dse_options (args : FloorplanArgs) : DseOptions := mkDse (arg_dse_min args) (arg_dse_max args) (arg_dse_step args).

Definition run_step (work_dir : string) (args : FloorplanArgs) : act W CliError unit :=
  let options := step_options args in
  let dse_options := step_dse_options args in
  act! _ := act_lift (map_err (fun e => InvalidArg (plan_options_text e)) (validate_options options)) in
  act! _ := act_lift (if dse args then map_err (fun e => InvalidArg (dse_text e)) (validate_dse dse_options) else Ok tt) in
  act! st := load_state work_dir in
  act! implementation_target := (if run_impl args || dse args then
      act! t := act_lift (validate_target table select_text st (arg_vivado_threads args)) in act_ret (Some t)
    else act_ret None) in
  act! p := act_lift (map_err (fun e => FloorplanFailed ("cannot flatten the task graph: " +:+ transform_text e)) (flatten_with_origins (state_graph st))) in
  act! rtl := prepare_rtl work_dir (state_graph st) p in
  let top := top (flat p) in
  act! interfaces := act_lift (map_err (fun e => FloorplanFailed (codegen_text e)) (direct_mmap_interfaces rtl top)) in
  act! connectivity :=
    (if is_some (let? n := flow_platform (flow st) in find_slash_platform n)
     then read_connectivity (arg_connectivity args) (fun text => parse_slash_config text top (slash_ports interfaces))
     else read_connectivity (arg_connectivity args) (fun text => map_err connectivity_error_str (parse_vitis_config text))) in
  act! inputs := act_lift (memory_plan_inputs top interfaces connectivity) in
  let inputs := complete_inputs rtl p inputs in
  match implementation_target with
  | Some t =>
      act! (candidates, infeasible) := act_lift (plan_implementation_candidates table cbc args st options inputs dse_options) in
      implement_and_publish table work_dir top (ci_bytes <$> connectivity) t candidates infeasible (if dse args then dse_jobs args else 1)
        (publish_implementation_winner work_dir st rtl connectivity (it_target_mhz t))
  | None =>
      act! result := act_lift (map_err (fun e => FloorplanFailed (plan_text e)) (plan_with_inputs table cbc st options inputs)) in
      act! xdc := act_lift (map_err (fun e => FloorplanFailed (render_text e)) (render_xdc table result)) in
      publish_floorplan_after_update work_dir xdc (ci_bytes <$> connectivity)
        (act! _ := emit_rtl_tree work_dir (with_floorplan result rtl) in
         store_state work_dir (state_with_floorplan result st))
  end.
End step.

(** ** Atomic writes *)

Section atomic.
Context {W : Type} `{HW : Host W} `{HS : !HostSpec W}.

(** The names of temporary files. *)
Definition own_name (q : string) : Prop := forall n, Str.file_name q <> Some (".tmp" +:+ n).

Lemma own_name_join dir n : lacks "/" n = true -> (3 <= String.length n)%nat -> Str.starts_with ".tmp" n = false -> own_name (Path.join dir n).
Proof.
  intros Hn Hl Ht m. rewrite file_name_join by done. intros [= ->]. by cbn in Ht.
Qed.

Lemma spares_temp q dir : own_name q -> spares q (fs CliIo (temp_in dir)).
Proof using HS. intros Hq. apply spares_fs. intros w. by apply temp_creates_its_file. Qed.

Lemma temp_name dir w t w' : fs CliIo (temp_in dir) w = (Ok t, w') -> exists n, Str.file_name t = Some (".tmp" +:+ n).
Proof using HS.
  unfold fs. pose proof (temp_named dir w t) as Ht. destruct (temp_in dir w) as [[e|t0] w1]; [done|]. intros [= -> _]. by apply Ht.
Qed.

(** A write makes no other file, and when it fails not its own either. *)
Lemma write_atomic_spares q dir name bytes w r w' : own_name q -> write_bytes_atomic dir name bytes w = (r, w') ->
  r <> Ok tt \/ Str.file_name q <> Str.file_name (Path.join dir name) -> absent q w -> absent q w'.
Proof using HS.
  intros Hq. unfold write_bytes_atomic, with_temp. unfold act_bind at 1. intros H Hor Ha.
  pose proof (spares_dir q dir CliIo w Ha) as A1. destruct (fs CliIo (create_dir_all dir) w) as [[[]|e|] w1]; [|by injection H as <- <-..]. cbn in A1.
  unfold act_bind at 1 in H. pose proof (spares_temp q dir Hq w1 A1) as A2. pose proof (temp_name dir w1) as Ht.
  destruct (fs CliIo (temp_in dir) w1) as [[t|e|] w2]; [|by injection H as <- <-..]. destruct (Ht t w2 eq_refl) as [n Hn]. cbn in A2.
  assert (Hqt : Str.file_name q <> Str.file_name t) by (rewrite Hn; apply Hq).
  assert (Hkeep : forall w0, absent q w0 -> absent q (remove_file t w0).2) by (intros w0; apply remove_creates_nothing).
  unfold act_bind at 1 in H. pose proof (spares_write q t bytes CliIo Hqt w2 A2) as A3.
  destruct (fs CliIo (write_file t bytes) w2) as [[[]|e|] w3]; [|injection H as <- <-; by apply Hkeep..]. cbn in A3.
  pose proof (rename_creates_its_file t (Path.join dir name) q w3) as Hr. unfold fs in H. destruct (rename_file t (Path.join dir name) w3) as [[e|[]] w4]; cbn in Hr.
  - injection H as <- <-. apply Hkeep, Hr; [by left|done].
  - injection H as <- <-. apply Hkeep, Hr; [|done]. right. by destruct Hor as [Hn'|].
Qed.

Lemma write_atomic_ok dir name bytes w u w' : own_name (Path.join dir name) -> write_bytes_atomic dir name bytes w = (Ok u, w') ->
  Host.read_to_string (Path.join dir name) w' = inr bytes.
Proof using HS.
  intros Hq H. apply act_bind_ok in H as ([] & w1 & _ & H). apply act_bind_ok in H as (t & w2 & Et & H). apply temp_name in Et as [n Hn].
  destruct (act_bind _ _ w2) as [r w3] eqn:E. injection H as -> <-. apply act_bind_ok in E as ([] & w4 & E1 & E2).
  pose proof (written t bytes w2) as Hw. unfold fs in E1. destruct (write_file t bytes w2) as [[e|[]] w5]; [done|]. injection E1 as <-. cbn in Hw.
  pose proof (renamed t (Path.join dir name) w5) as Hr. unfold fs in E2. destruct (rename_file t (Path.join dir name) w5) as [[e|[]] w6]; [done|]. injection E2 as _ <-. cbn in Hr.
  rewrite remove_keeps by (rewrite Hn; apply Hq). rewrite Hr by done. by apply Hw.
Qed.

Lemma spares_each {E A} q (f : A -> act W E unit) l : (forall a, spares q (f a)) -> spares q (act_each f l).
Proof. intros Hf. induction l as [|a l IH]; [by apply spares_reads|]. by apply spares_bind. Qed.

(** ** The marker *)

Definition marker (work_dir : string) : string := Path.join work_dir FLOORPLAN_XDC.

(** C14: the constraints file is the marker of a plan that is published in full.  Whatever
    the update does, short of writing the marker itself: when publication succeeds, the
    marker holds exactly the constraints, the update succeeded, and there was no marker
    while it ran; when publication fails, at any point, no marker is left, unless the
    marker of an earlier plan could not be removed. *)
Theorem marker_published_last work_dir xdc connectivity update w r w' : spares (marker work_dir) update ->
  publish_floorplan_after_update work_dir xdc connectivity update w = (r, w') ->
  match r with
  | Ok _ => Host.read_to_string (marker work_dir) w' = inr xdc /\ exists w1 w2, absent (marker work_dir) w1 /\ update w1 = (Ok tt, w2)
  | _ => absent (marker work_dir) w' \/ exists e, (remove_file (marker work_dir) w).1 = inl (RemoveFailed e)
  end.
Proof using HS.
  intros Hu. unfold publish_floorplan_after_update. set (m := marker work_dir) in *.
  assert (Hm : own_name m) by (apply own_name_join; [done|cbn; lia|done]).
  assert (Hc : Str.file_name m <> Str.file_name (Path.join work_dir FLOORPLAN_CONNECTIVITY)).
  { unfold m, marker. rewrite !file_name_join by (done || (cbn; lia)). done. }
  unfold stale_files. cbn [act_each]. unfold act_bind at 1. unfold act_bind at 1.
  fold (marker work_dir). fold m. destruct (remove_stale CliIo m remove_file w) as [r1 w1] eqn:E1. destruct r1 as [[]|e|].
  2: { intros [= <- <-]. right. unfold remove_stale in E1. destruct (remove_file m w) as [[[|x]|] w2]; [done|by exists x|done]. }
  2: { unfold remove_stale in E1. destruct (remove_file m w) as [[[|x]|] w2]; done. }
  apply removed_stale in E1.
  match goal with |- context [act_bind (remove_stale CliIo ?p remove_file) ?k w1] =>
    assert (A2 : absent m (act_bind (remove_stale CliIo p remove_file) k w1).2) by
      (apply spares_bind; [apply spares_remove| |exact E1]; intros []; repeat (apply spares_bind; [apply spares_remove|intros []]); by apply spares_reads);
    destruct (act_bind (remove_stale CliIo p remove_file) k w1) as [[[]|e|] w2] end; [|intros [= <- <-]; by left..]. cbn in A2.
  unfold act_bind at 1. pose proof (Hu w2 A2) as A3. destruct (update w2) as [[[]|e|] w3] eqn:Eu; [|intros [= <- <-]; by left..]. cbn in A3.
  unfold act_bind at 1. set (wc := match connectivity with Some bytes => write_bytes_atomic work_dir FLOORPLAN_CONNECTIVITY bytes | None => @act_ret W CliError unit tt end).
  assert (A4 : absent m (wc w3).2).
  { unfold wc. destruct connectivity as [bytes|]; [|done]. destruct (write_bytes_atomic work_dir FLOORPLAN_CONNECTIVITY bytes w3) as [r4 w4] eqn:E4.
    eapply write_atomic_spares; [exact Hm|exact E4|by right|exact A3]. }
  destruct (wc w3) as [[[]|e|] w4]; [|intros [= <- <-]; by left..]. cbn in A4.
  intros E5. destruct r as [[]|e|].
  - split; [by eapply write_atomic_ok|]. by exists w2, w3.
  - left. eapply write_atomic_spares; [exact Hm|exact E5|by left|exact A4].
  - left. eapply write_atomic_spares; [exact Hm|exact E5|by left|exact A4].
Qed.
End atomic.

(** ** The memory inputs *)

(** The bindings that apply: none without a connectivity file. *)
Definition given_bindings (connectivity : option ConnectivityInput) : MemoryBindings :=
  match connectivity with Some c => ci_bindings c | None => mkBindings [] end.

(** What one interface becomes. *)
Definition bound_interface (top : string) (bindings : MemoryBindings) (i : DirectMmapInterface) (m : MemoryInterface) : Prop :=
  bindings_get bindings top (ep_top_port (di_endpoint i)) = Some (mi_bank m) /\
  mi_endpoint m = di_endpoint i /\ channel_widths m = di_channel_widths i /\ bridge_instance m = di_bridge_instance i.

Definition names_direct_port (top : string) (interfaces : list DirectMmapInterface) (b : MemoryBinding) : Prop :=
  me_kernel (mb_endpoint b) = top /\ exists i, i ∈ interfaces /\ ep_top_port (di_endpoint i) = me_port (mb_endpoint b).

Lemma is_known_spec top interfaces b : is_known top interfaces b = true <-> names_direct_port top interfaces b.
Proof.
  unfold is_known, names_direct_port. rewrite andb_true_iff, String.eqb_eq, existsb_exists. setoid_rewrite String.eqb_eq. setoid_rewrite <- list_elem_of_In. done.
Qed.

(** C27: planning is given one memory bank for each direct memory port, the one its
    connectivity binds: it is accepted exactly when every binding names a direct port of
    the top kernel and every such port is bound, and the inputs are then those ports, in
    order, each with its bank; anything else is refused as an invalid argument.  The check
    never panics. *)
Theorem memory_inputs_exact top interfaces connectivity :
  let bindings := given_bindings connectivity in
  match memory_plan_inputs top interfaces connectivity with
  | Ok inputs => (forall b, b ∈ bindings_list bindings -> names_direct_port top interfaces b) /\ Forall2 (bound_interface top bindings) interfaces (memory inputs) /\
      control inputs = None /\ in_projection inputs = None
  | Err e => (exists detail, e = InvalidArg detail) /\
      ((exists b, b ∈ bindings_list bindings /\ ~ names_direct_port top interfaces b) \/
       (exists i, i ∈ interfaces /\ bindings_get bindings top (ep_top_port (di_endpoint i)) = None))
  | Panic => False
  end.
Proof.
  cbv zeta. unfold memory_plan_inputs, given_bindings. destruct interfaces as [|i0 rest].
  - destruct connectivity as [c|]; cbn.
    + destruct (bindings_list (ci_bindings c)) as [|b l]; cbn.
      * split; [intros b Hb; by apply elem_of_nil in Hb|]. repeat constructor.
      * split; [eauto|]. left. exists b. split; [by left|]. intros (_ & i & Hi & _). by apply elem_of_nil in Hi.
    + split; [intros b Hb; by apply elem_of_nil in Hb|]. repeat constructor.
  - set (interfaces := i0 :: rest). destruct connectivity as [c|]; cbn [fmap option_fmap option_map ok_or rbind].
    2: { split; [eauto|]. right. exists i0. split; [by left|done]. }
    set (l := bindings_list (ci_bindings c)). assert (Hb : match try_each (fun b => if is_known top interfaces b then Ok tt else
        Err (InvalidArg ("connectivity binding `" +:+ endpoint_display (mb_endpoint b) +:+ "` does not name a direct M-AXI port of kernel `" +:+ top
          +:+ "`; direct M-AXI ports are `" +:+ joined "`, `" (map (fun i => ep_top_port (di_endpoint i)) interfaces) +:+ "`"))) l with
      | Ok _ => forall b, b ∈ l -> names_direct_port top interfaces b
      | Err e => (exists detail, e = InvalidArg detail) /\ exists b, b ∈ l /\ ~ names_direct_port top interfaces b
      | Panic => False
      end).
    { clearbody l. induction l as [|b l IH]; cbn [try_each]; [intros b Hb; by apply elem_of_nil in Hb|]. pose proof (is_known_spec top interfaces b) as Hk.
      destruct (is_known top interfaces b); cbn [rbind].
      - destruct (try_each _ l) as [u|e|]; [|destruct IH as [He (b' & Hb' & Hn)]; split; [done|exists b'; split; [by right|done]]|done].
        intros b' Hb'. apply elem_of_cons in Hb' as [->|Hb']; [by apply Hk|by apply IH].
      - split; [eauto|]. exists b. split; [by left|]. by rewrite <- Hk. }
    destruct (try_each _ l) as [u|e|]; cbn [rbind]; [|destruct Hb as [He Hb]; split; [done|by left]|done].
    assert (Hm : match try_map (memory_binding top (ci_bindings c)) interfaces with
      | Ok ms => Forall2 (bound_interface top (ci_bindings c)) interfaces ms
      | Err e => (exists detail, e = InvalidArg detail) /\ exists i, i ∈ interfaces /\ bindings_get (ci_bindings c) top (ep_top_port (di_endpoint i)) = None
      | Panic => False
      end).
    { clearbody interfaces. clear. induction interfaces as [|i l IH]; cbn [try_map]; [constructor|]. unfold memory_binding at 1.
      destruct (bindings_get (ci_bindings c) top (ep_top_port (di_endpoint i))) as [bank|] eqn:Eb; cbn [ok_or rbind]; [|split; [eauto|exists i; split; [by left|done]]].
      destruct (try_map _ l) as [ms|e|]; cbn [rbind]; [|destruct IH as [He (j & Hj & Hn)]; split; [done|exists j; split; [by right|done]]|done].
      constructor; [|done]. by repeat split. }
    destruct (try_map _ interfaces) as [ms|e|]; cbn [rbind]; [|destruct Hm as [He Hm]; split; [done|by right]|done].
    split; [exact Hb|]. by split.
Qed.

(** ** The indices of the candidates *)

(** Every explored candidate is implemented or recorded as infeasible, once, under
    its place in the exploration. *)
Lemma split_indices l n acc : map cand_index acc.1 ++ map inf_index acc.2 ≡ₚ seq 0 n ->
  let r := fold_left split_candidate (zip (seq n (length l)) l) acc in map cand_index r.1 ++ map inf_index r.2 ≡ₚ seq 0 (n + length l).
Proof.
  revert n acc. induction l as [|c l IH]; intros n acc Ha; cbn; [by rewrite Nat.add_0_r|].
  replace (n + S (length l))%nat with (S n + length l)%nat by lia. apply IH. rewrite seq_S. cbn [Nat.add].
  destruct c as [caps u fp|caps]; cbn [split_candidate fst snd]; rewrite map_app; cbn [map].
  - rewrite <- Ha. cbn [cand_index]. rewrite <- !app_assoc. apply Permutation_app_head. by rewrite Permutation_app_comm.
  - rewrite app_assoc. by rewrite Ha.
Qed.

Lemma planned_indices {HT : PlannerTexts} table cbc args st o inputs d cs infs : plan_implementation_candidates table cbc args st o inputs d = Ok (cs, infs) ->
  exists n, map cand_index cs ++ map inf_index infs ≡ₚ seq 0 n.
Proof.
  unfold plan_implementation_candidates. destruct (dse args); cbn [negb]; intros H.
  - apply rbind_ok in H as (l & _ & [= E]). exists (length l). pose proof (split_indices l 0 ([], []) ltac:(done)) as Hp. cbn zeta in Hp. unfold enumerate in E. by rewrite E in Hp.
  - apply rbind_ok in H as (fp & _ & H). apply rbind_ok in H as (u & _ & [= <- <-]). by exists 1%nat.
Qed.

(** ** A concrete publication *)

Import DemoFlow.

Definition republish (update : act Files CliError unit) (w : Files) : res CliError unit * Files := publish_floorplan_after_update "/w" "new constraints" None update w.
Definition stale_plan : Files := list_to_map [("/w/floorplan.xdc", "old constraints"); ("/w/floorplan-metrics.json", "old metrics"); ("/w/floorplan.xclbin", "old bitstream")].

Lemma marker_published_last_witness :
  (exists w', republish (fs CliIo (write_file "/w/tapa.json" "state")) stale_plan = (Ok tt, w') /\ w' !! "/w/floorplan.xdc" = Some "new constraints") /\
  (exists e w', republish (act! _ := fs CliIo (write_file "/w/tapa.json" "state") in act_lift (Err (CodegenFailed "no module"))) stale_plan = (Err e, w') /\ w' !! "/w/floorplan.xdc" = None).
Proof.
  assert (Hs : forall k : unit -> act Files CliError unit, (forall u, reads (k u)) -> spares (marker "/w") (act_bind (fs CliIo (write_file "/w/tapa.json" "state")) k)).
  { intros k Hk. apply spares_bind; [apply spares_write; discriminate|intros u; apply spares_reads; apply Hk]. }
  split.
  - assert (E1 : (republish (fs CliIo (write_file "/w/tapa.json" "state")) stale_plan).1 = Ok tt) by (vm_compute; reflexivity).
    destruct (republish (fs CliIo (write_file "/w/tapa.json" "state")) stale_plan) as [r w'] eqn:E. cbn [fst] in E1. subst r. exists w'. split; [reflexivity|].
    pose proof (marker_published_last "/w" "new constraints" None (fs CliIo (write_file "/w/tapa.json" "state")) stale_plan (Ok tt) w'
      ltac:(apply spares_write; discriminate) E) as [H _].
    change (@eq (string + string) (match w' !! "/w/floorplan.xdc" with Some t => inr t | None => inl "not found" end) (inr "new constraints")) in H.
    destruct (w' !! "/w/floorplan.xdc") as [t|]; [injection H as ->; reflexivity|discriminate H].
  - set (update := act! _ := fs CliIo (write_file "/w/tapa.json" "state") in act_lift (Err (CodegenFailed "no module"))).
    assert (E1 : (republish update stale_plan).1 = Err (CodegenFailed "no module")) by (vm_compute; reflexivity).
    destruct (republish update stale_plan) as [r w'] eqn:E. cbn [fst] in E1. subst r. exists (CodegenFailed "no module"), w'. split; [reflexivity|].
    pose proof (marker_published_last "/w" "new constraints" None update stale_plan (Err (CodegenFailed "no module")) w' (Hs _ (fun u => reads_lift _)) E) as [H|[e H]].
    + change ((match w' !! "/w/floorplan.xdc" with Some _ => true | None => false end) = false) in H. destruct (w' !! "/w/floorplan.xdc"); [discriminate H|reflexivity].
    + vm_compute in H. discriminate H.
Defined.

(** The bitstream of an earlier winner is not among the files that are removed: it
    stays beside the new plan. *)
Example stale_bitstream_survives : match republish (act_ret tt) stale_plan with
  | (Ok _, w') => (w' !! "/w/floorplan.xdc", w' !! "/w/floorplan-metrics.json", w' !! "/w/floorplan.xclbin") = (Some "new constraints", None, Some "old bitstream")
  | _ => False
  end.
Proof. vm_compute. done. Qed.
