(* ===== verification/Package.v ===== *)
(** * Packages

    What is packed for the runtime, and what the runtime makes of it: the
    check and the stamping of an HLS archive ([tapa-cli/src/steps/pack/cosim_compat.rs]),
    its projection to the arguments of a kernel
    ([frt-cosim/src/metadata/zip_pkg.rs]), the metadata of a Vitis kernel
    ([metadata/kernel_xml.rs], [metadata/xo.rs]), and the files of an archive
    ([metadata/mod.rs]).  Reading XML and archives is the work of libraries: the
    definitions take their events and entries. *)

From S2P Require Import Prelude RustStd BTreeMap Names Ir Frt Vbin Host Plan Implement Cosim CosimSpec.

Local Open Scope Z_scope.

(** [CosimError::Metadata] with its [Display]. *)
Definition metadata_text (detail : string) : string := "metadata parse error: " +:+ detail.
Definition malformed {A} (detail : string) : res string A := Err (metadata_text detail).

(** ** The archive of the HLS flow: what [tapa pack] checks and stamps *)

Module Pack.

Definition DEFAULT_STREAM_DEPTH : Z := 16.
Definition DEFAULT_MMAP_ADDR_WIDTH : Z := 64.

Definition unbindable (p : Port) : bool := match port_cat p with Immap | Ommap => true | _ => false end.

Definition check_cosim_supported_categories (state : WorkState) : res CliError unit :=
  match BMap.get (top (state_graph state)) (graph_tasks (state_graph state)) with
  | None => Ok tt
  | Some top_task =>
      match map (fun p => "`" +:+ port_name p +:+ "` (" +:+ category_str (port_cat p) +:+ ")") (List.filter unbindable (ports top_task)) with
      | [] => Ok tt
      | unsupported =>
          Err (InvalidArg ("unsupported port category for top-level port " +:+ Path.join_with ", " unsupported +:+
            ": the xilinx-hls (hardware cosimulation) flow binds only scalar, stream, mmap, and async_mmap arguments; change " +:+
            (if Nat.eqb (length unsupported) 1 then "it" else "them") +:+
            " to `tapa::mmap` / `tapa::async_mmap`, or package with the xilinx-vitis target, where read-only / write-only mmaps are supported"))
      end
  end.

(** [get_or_insert]. *)
Definition or_insert (o : option Z) (v : Z) : option Z := match o with Some x => Some x | None => Some v end.

Definition stamp_port (p : Port) : Port :=
  let with_fields depth addr := mkPort (port_cat p) (port_name p) (port_ctype p) (port_width p) (port_chan_count p) (port_chan_size p) (port_aie_frame p) (port_aie_plio p) depth addr in
  if is_stream (port_cat p) then with_fields (or_insert (port_stream_depth p) DEFAULT_STREAM_DEPTH) (port_mmap_addr_width p)
  else if is_direct_mmap (port_cat p) then with_fields (port_stream_depth p) (or_insert (port_mmap_addr_width p) DEFAULT_MMAP_ADDR_WIDTH)
  else p.

Definition set_ports (ps : list Port) (t : Task) : Task :=
  mkTask (level t) (srcs t) (include_dirs t) (defines t) (readable_name t) (synth t) (aie_location t) (aie_stack_bytes t) ps (tasks t) (fifos t) (clock_period t) (self_area t) (total_area t).

Definition stamp_cosim_port_metadata (state : WorkState) : WorkState :=
  let g := state_graph state in
  match BMap.get (top g) (graph_tasks g) with
  | Some top_task =>
      mkState (version state)
        (mkGraph (schema_version g) (top g) (target g) (cflags g) (BMap.insert (top g) (set_ports (map stamp_port (ports top_task)) top_task) (graph_tasks g)))
        (flow state) (floorplan state)
  | None => state
  end.
End Pack.

(** ** The archive of the HLS flow: what the runtime reads ([zip_pkg.rs]) *)

Module Zip.

Definition LEGACY_STREAM_DEPTH : Z := 16.
Definition LEGACY_MMAP_ADDR_WIDTH : Z := 64.

Definition stream_dir (p : Port) : StreamDir := if is_output_stream (port_cat p) then DirOut else DirIn.

Definition arg_kind (p : Port) : res string ArgKind :=
  match port_cat p with
  | Ir.Scalar => Ok (CosimSpec.Scalar (port_width p))
  | Ir.Mmap | AsyncMmap =>
      if bool_decide (port_chan_count p = Some 0)
      then malformed ("hmap channel count is 0 for argument '" +:+ sanitize_array_name (port_name p) +:+ "'")
      else Ok (CosimSpec.Mmap (port_width p) (default LEGACY_MMAP_ADDR_WIDTH (port_mmap_addr_width p)))
  | Istream | Ostream | Istreams | Ostreams =>
      Ok (Stream (port_width p) (default LEGACY_STREAM_DEPTH (port_stream_depth p)) (stream_dir p) ApFifo)
  | Immap | Ommap => malformed ("unsupported port category '" +:+ category_str (port_cat p) +:+ "'")
  end.

(** Arguments are numbered as they are pushed. *)
Definition push_arg (kind : ArgKind) (args : list ArgSpec) (name : string) : res string (list ArgSpec) :=
  let! id := u32_of_usize (length args) in Ok (args ++ [mkArg name id kind]).

Definition push_port (args : list ArgSpec) (p : Port) : res string (list ArgSpec) :=
  let! kind := arg_kind p in
  try_fold (push_arg kind) args (kernel_arg_names p XilinxHls).

Definition spec_from_task_graph (graph : TaskGraph) : res string KernelSpec :=
  let! top_task := ok_or (BMap.get (top graph) (graph_tasks graph)) (metadata_text ("top task `" +:+ top graph +:+ "` is missing from the task graph")) in
  let! args := try_fold push_port [] (ports top_task) in
  Ok (mkKernelSpec (top graph) args None).
End Zip.

(** ** The files of an archive ([mod.rs]) *)

Section files.
Context `{Cosim.CosimText}.

Record ExtractedFiles := mkFiles { verilog_files : list string; tcl_files : list string; xci_files : list string }.

Definition has_ext (path : string) (exts : list string) : bool :=
  match (let? name := Str.file_name path in Frt.extension name) with
  | Some ext => existsb (fun x => String.eqb (Str.to_ascii_lowercase ext) (Str.to_ascii_lowercase x)) exts
  | None => false
  end.

Definition is_deeply_nested (zip_name : string) : bool := (2 <? length (Str.split "/" zip_name) - 1)%nat.

Definition classify (name path : string) (f : ExtractedFiles) : ExtractedFiles :=
  mkFiles
    (if has_ext name ["v"; "sv"; "vh"; "dat"] then verilog_files f ++ [path] else verilog_files f)
    (if has_ext name ["tcl"] then tcl_files f ++ [path] else tcl_files f)
    (if has_ext name ["xci"] && negb (is_deeply_nested name) then xci_files f ++ [path] else xci_files f).

Definition stays_inside (c : Component) : bool := match c with Normal _ | CurDir => true | _ => false end.

Definition safe_extract_path (name out_dir : string) : res string string :=
  if forallb stays_inside (components name) then Ok (Path.join out_dir name)
  else malformed ("archive entry " +:+ Cosim.debug_str name +:+ " would extract outside the staging directory").
End files.

(** ** The metadata of a Vitis kernel ([kernel_xml.rs]) *)

Inductive XclbinTarget := Flat | HwEmu | SwEmu.

Record KernelXml := mkKernelXml {
  kx_top_name : string; kx_platform : string; kx_target : XclbinTarget; aie_pl_control : bool; kx_args : list ArgSpec; host_types : bmap Z string }.

Record PortInfo := mkPortInfo { pi_name : string; pi_mode : string; pi_data_width : option Z }.

Record RawArg := mkRawArg {
  ra_name : string; ra_id : Z; ra_qualifier : Z; ra_port : string; ra_data_width : option Z; ra_addr_width : option Z;
  ra_depth : option Z; host_size_bytes : option Z; size_bytes : option Z; c_type : string }.

(** The attributes of an element, in order and each at most once. *)
Definition Attributes : Type := list (string * string).

(** The children of a kernel; a group has the elements it contains. *)
Inductive KernelElement :=
| PortElement (a : Attributes)
| PortGroup (l : list Attributes)
| ArgElement (a : Attributes)
| ArgGroup (l : list Attributes)
| OtherElement.

(** What the reader of XML meets on its way through a document: a kernel is read to
    its end, or to an error, and its attributes and children may be deserialized. *)
Inductive XmlEvent :=
| KernelStart (attributes : Attributes) (end_error : option string) (children : list KernelElement)
| Start (name : string) (attributes : Attributes)
| XmlError (error : string).

Definition DEFAULT_DATA_WIDTH : Z := 32.
Definition DEFAULT_ADDR_WIDTH : Z := 64.
Definition DEFAULT_STREAM_DEPTH : Z := 16.

Section xml.
Context `{Cosim.CosimText}.

Definition optional_width (value : string) : res string Z :=
  map_err (fun e => "malformed width " +:+ Cosim.debug_str value +:+ " in kernel metadata XML: " +:+ Str.int_error e) (Str.from_str_radix 10 U32_MAX value).

Definition parse_size_bytes (value : string) : option Z :=
  let s := Str.trim value in
  match Str.strip_prefix "0x" s, Str.strip_prefix "0X" s with
  | Some hex, _ | None, Some hex => match Str.from_str_radix 16 U32_MAX hex with Ok n => Some n | _ => None end
  | None, None => Str.parse_u32 s
  end.

Definition optional_size (value : string) : res string Z :=
  ok_or (parse_size_bytes value) ("malformed byte size " +:+ Cosim.debug_str value +:+ " in kernel metadata XML").

(** [arg_id] and [arg_qualifier]. *)
Definition parse_attr (value attr : string) : res string Z :=
  ok_or (Str.parse_u32 value) (metadata_text ("malformed " +:+ attr +:+ " " +:+ Cosim.debug_str value +:+ " in kernel metadata XML")).

Definition stream_depth (value : string) : res string Z :=
  ok_or (let? depth := Str.parse_u32 value in if 0 <? depth then Some depth else None)
    ("invalid stream depth " +:+ Cosim.debug_str value +:+ " in kernel metadata XML (want an integer >= 1)").

(** The fields an attribute sets; unknown ones are skipped. *)
Definition port_attribute (p : PortInfo) (x : string * string) : res string PortInfo :=
  let '(key, value) := x in
  if String.eqb key "name" then Ok (mkPortInfo value (pi_mode p) (pi_data_width p))
  else if String.eqb key "mode" then Ok (mkPortInfo (pi_name p) value (pi_data_width p))
  else if String.eqb key "dataWidth" then let! w := optional_width value in Ok (mkPortInfo (pi_name p) (pi_mode p) (Some w))
  else Ok p.

Definition port_info (a : Attributes) : res string PortInfo := try_fold port_attribute (mkPortInfo "" "" None) a.

Definition arg_attribute (r : RawArg) (x : string * string) : res string RawArg :=
  let '(key, value) := x in
  let set name id qualifier port data addr depth host size c := Ok (mkRawArg name id qualifier port data addr depth host size c) in
  let '(mkRawArg name id qualifier port data addr depth host size c) := r in
  if String.eqb key "name" then set value id qualifier port data addr depth host size c
  else if String.eqb key "id" then let! n := parse_attr value "id" in set name n qualifier port data addr depth host size c
  else if String.eqb key "addressQualifier" then let! n := parse_attr value "addressQualifier" in set name id n port data addr depth host size c
  else if String.eqb key "port" then set name id qualifier value data addr depth host size c
  else if String.eqb key "dataWidth" || String.eqb key "width" then
    match data with
    | Some _ => Err "duplicate field `@dataWidth`"
    | None => let! w := optional_width value in set name id qualifier port (Some w) addr depth host size c
    end
  else if String.eqb key "addrWidth" then let! w := optional_width value in set name id qualifier port data (Some w) depth host size c
  else if String.eqb key "depth" then let! n := stream_depth value in set name id qualifier port data addr (Some n) host size c
  else if String.eqb key "hostSize" then let! n := optional_size value in set name id qualifier port data addr depth (Some n) size c
  else if String.eqb key "size" then let! n := optional_size value in set name id qualifier port data addr depth host (Some n) c
  else if String.eqb key "type" then set name id qualifier port data addr depth host size value
  else Ok r.

Definition raw_arg (a : Attributes) : res string RawArg := try_fold arg_attribute (mkRawArg "" 0 0 "" None None None None None "") a.

(** The ports and arguments of a kernel, however they are grouped. *)
Definition add_element (acc : list PortInfo * list RawArg) (e : KernelElement) : res string (list PortInfo * list RawArg) :=
  match e with
  | PortElement a => let! p := port_info a in Ok (acc.1 ++ [p], acc.2)
  | PortGroup l => let! ps := try_map port_info l in Ok (acc.1 ++ ps, acc.2)
  | ArgElement a => let! r := raw_arg a in Ok (acc.1, acc.2 ++ [r])
  | ArgGroup l => let! rs := try_map raw_arg l in Ok (acc.1, acc.2 ++ rs)
  | OtherElement => Ok acc
  end.

(** *** Resolving an argument *)

Fixpoint trim_start_word (fuel : nat) (word s : string) : string :=
  match fuel with
  | O => s
  | S fuel => match Str.strip_prefix word s with Some s' => trim_start_word fuel word s' | None => s end
  end.

Definition c_scalar_type_bits (ty : string) : option Z :=
  let t := Str.trim ty in
  let t := Str.trim (trim_start_word (String.length t) "const" t) in
  let among := existsb (String.eqb t) in
  if among ["bool"; "char"; "signed char"; "unsigned char"; "int8_t"; "uint8_t"] then Some 8
  else if among ["short"; "short int"; "unsigned short"; "unsigned short int"; "int16_t"; "uint16_t"] then Some 16
  else if among ["int"; "unsigned"; "unsigned int"; "int32_t"; "uint32_t"; "float"] then Some 32
  else if among ["long"; "long int"; "unsigned long"; "unsigned long int"; "long long"; "unsigned long long"; "int64_t"; "uint64_t"; "double"] then Some 64
  else None.

Definition first_some (a b : option Z) : option Z := match a with Some x => Some x | None => b end.
Definition bits_of_bytes (b : Z) : Z := Z.min (b * 8) U32_MAX.

Definition scalar_width (arg : RawArg) : res string Z :=
  ok_or (first_some (ra_data_width arg) (first_some (option_map bits_of_bytes (host_size_bytes arg)) (first_some (c_scalar_type_bits (c_type arg)) (option_map bits_of_bytes (size_bytes arg)))))
    (metadata_text ("cannot determine scalar width for arg " +:+ Cosim.debug_str (ra_name arg) +:+ ": no dataWidth/width, hostSize, recognizable type (got " +:+ Cosim.debug_str (c_type arg) +:+ "), or size attribute")).

Definition stream_dir (port : option PortInfo) (port_name : string) : StreamDir :=
  let mode := match port with Some p => pi_mode p | None => "" end in
  if String.eqb mode "read_only" then DirIn
  else if String.eqb mode "write_only" then DirOut
  else if Str.starts_with "s_axis" port_name || Str.contains "istream" port_name then DirIn else DirOut.

Definition resolve_arg (ports : bmap string PortInfo) (arg : RawArg) : res string ArgSpec :=
  let port := BMap.get (ra_port arg) ports in
  let width := default DEFAULT_DATA_WIDTH (first_some (let? p := port in pi_data_width p) (ra_data_width arg)) in
  let! kind := match ra_qualifier arg with
    | 0 => let! w := scalar_width arg in Ok (CosimSpec.Scalar w)
    | 1 => Ok (CosimSpec.Mmap width (default DEFAULT_ADDR_WIDTH (ra_addr_width arg)))
    | 4 => Ok (Stream width (default DEFAULT_STREAM_DEPTH (ra_depth arg)) (stream_dir port (ra_port arg)) Axis)
    | q => malformed ("unknown addressQualifier " +:+ Str.show q +:+ " for arg " +:+ ra_name arg)
    end in
  Ok (mkArg (ra_name arg) (ra_id arg) kind).

(** *** The document *)

Definition attribute (key : string) (a : Attributes) : option string := option_map snd (List.find (fun x => String.eqb x.1 key) a).

Definition platform_name (a : Attributes) : string :=
  match List.find (fun x => existsb (String.eqb x.1) ["name"; "vbnv"; "platformVBNV"] && negb (Str.is_empty (Str.trim x.2))) a with
  | Some x => Str.trim x.2
  | None => ""
  end.

Definition parse_target (raw : string) : XclbinTarget :=
  let target := Str.to_ascii_lowercase raw in
  if Str.contains "hw_em" target then HwEmu
  else if Str.contains "csim" target || Str.contains "sw_em" target then SwEmu else Flat.

Record RawKernel := mkRawKernel { rk_name : string; rk_ports : list PortInfo; rk_args : list RawArg }.

Definition raw_kernel (attributes : Attributes) (children : list KernelElement) : res string RawKernel :=
  let! found := try_fold add_element ([], []) children in
  Ok (mkRawKernel (default "" (attribute "name" attributes)) found.1 found.2).

Record Parsed := mkParsed { pd_kernel : option RawKernel; pd_platform : string; pd_target : XclbinTarget; pd_pl_control : bool }.

Definition read_event (s : Parsed) (e : XmlEvent) : res string Parsed :=
  match e with
  | KernelStart attributes end_error children =>
      let has key value := existsb (fun x => String.eqb x.1 key && String.eqb x.2 value) attributes in
      match end_error with
      | Some e => malformed e
      | None =>
          if has "name" "tapa_aie_pl_control" then Ok (mkParsed (pd_kernel s) (pd_platform s) (pd_target s) true)
          else if has "vlnv" "xilinx.com:ip:ai_engine:1.0" then Ok s
          else match pd_kernel s with
          | Some _ => malformed "multiple <kernel> elements in kernel metadata XML; cosim packages must contain exactly one kernel"
          | None =>
              let! k := map_err metadata_text (raw_kernel attributes children) in
              Ok (mkParsed (Some k) (pd_platform s) (pd_target s) (pd_pl_control s))
          end
      end
  | Start name attributes =>
      if String.eqb name "platform" then
        Ok (mkParsed (pd_kernel s) (if Str.is_empty (pd_platform s) then platform_name attributes else pd_platform s) (pd_target s) (pd_pl_control s))
      else if String.eqb name "core" then
        Ok (mkParsed (pd_kernel s) (pd_platform s)
          (fold_left (fun t x => if String.eqb x.1 "target" then parse_target x.2 else t) attributes (pd_target s)) (pd_pl_control s))
      else Ok s
  | XmlError e => malformed e
  end.

Definition parse (events : list XmlEvent) : res string KernelXml :=
  let! s := try_fold read_event (mkParsed None "" Flat false) events in
  let! kernel := ok_or (let? k := pd_kernel s in if Str.is_empty (rk_name k) then None else Some k) (metadata_text "no kernel name found in kernel metadata XML") in
  let named := List.filter (fun p => negb (Str.is_empty (pi_name p))) (rk_ports kernel) in
  let ports := BMap.from_list (map (fun p => (pi_name p, p)) named) in
  let host_types := BMap.from_list (map (fun a => (ra_id a, c_type a)) (rk_args kernel)) in
  let! args := try_map (resolve_arg ports) (rk_args kernel) in
  Ok (mkKernelXml (rk_name kernel) (pd_platform s) (pd_target s) (pd_pl_control s) args host_types).

(** [xo.rs]. *)
Definition parse_kernel_xml (events : list XmlEvent) : res string KernelSpec :=
  let! parsed := parse events in
  Ok (mkKernelSpec (kx_top_name parsed) (kx_args parsed) None).
End xml.

(** * The two ends of an archive

    The runtime projects a stamped archive exactly, and what [tapa pack] refuses is
    what the projection would refuse for its category. *)

(** The kind of an argument whose metadata is stamped. *)
Definition bound_kind (p : Port) : ArgKind :=
  match port_cat p with
  | Ir.Scalar => CosimSpec.Scalar (port_width p)
  | Ir.Mmap | AsyncMmap | Immap | Ommap => CosimSpec.Mmap (port_width p) (default 0 (port_mmap_addr_width p))
  | Istream | Istreams => Stream (port_width p) (default 0 (port_stream_depth p)) DirIn ApFifo
  | Ostream | Ostreams => Stream (port_width p) (default 0 (port_stream_depth p)) DirOut ApFifo
  end.

Definition no_channels (p : Port) : bool := is_direct_mmap (port_cat p) && bool_decide (port_chan_count p = Some 0).
Definition rejected (p : Port) : bool := Pack.unbindable p || no_channels p.
Definition rejection (p : Port) : string :=
  metadata_text (if Pack.unbindable p then "unsupported port category '" +:+ category_str (port_cat p) +:+ "'"
    else "hmap channel count is 0 for argument '" +:+ sanitize_array_name (port_name p) +:+ "'").

Definition entries (p : Port) : list (string * ArgKind) := map (fun n => (n, bound_kind p)) (kernel_arg_names p XilinxHls).
Fixpoint numbered (k : nat) (l : list (string * ArgKind)) : list ArgSpec :=
  match l with [] => [] | (n, kind) :: l' => mkArg n (Z.of_nat k) kind :: numbered (S k) l' end.

Lemma numbered_app k l1 l2 : numbered k (l1 ++ l2) = numbered k l1 ++ numbered (k + length l1) l2.
Proof.
  revert k. induction l1 as [|[n kind] l1 IH]; intros k; cbn; [by rewrite Nat.add_0_r|]. by rewrite IH, Nat.add_succ_r.
Qed.

Lemma length_numbered k l : length (numbered k l) = length l.
Proof. revert k. induction l as [|[n kind] l IH]; intros k; [done|]. cbn. by rewrite IH. Qed.

(** The metadata the projection reads is there. *)
Definition stamped (p : Port) : Prop :=
  (is_stream (port_cat p) = true -> is_Some (port_stream_depth p)) /\ (is_direct_mmap (port_cat p) = true -> is_Some (port_mmap_addr_width p)).

Lemma stamp_port_stamped p : stamped (Pack.stamp_port p) /\ port_cat (Pack.stamp_port p) = port_cat p /\ port_name (Pack.stamp_port p) = port_name p /\
  port_width (Pack.stamp_port p) = port_width p /\ port_chan_count (Pack.stamp_port p) = port_chan_count p /\
  (forall d, port_stream_depth p = Some d -> port_stream_depth (Pack.stamp_port p) = Some d) /\ (forall w, port_mmap_addr_width p = Some w -> port_mmap_addr_width (Pack.stamp_port p) = Some w).
Proof.
  unfold stamped, Pack.stamp_port. destruct p as [cat name ctype width count size frame plio depth addr]. cbn. destruct cat; cbn; split_and!; try done; intros; try (by destruct depth); try (by destruct addr); by subst.
Qed.

Lemma arg_kind_exact p : stamped p -> Zip.arg_kind p = if rejected p then Err (rejection p) else Ok (bound_kind p).
Proof.
  intros [Hs Hm]. destruct p as [cat name ctype width count size frame plio depth addr]. unfold Zip.arg_kind, rejected, rejection, no_channels, bound_kind, Zip.stream_dir, malformed. cbn in *.
  destruct cat; cbn; try done; try (destruct Hs as [? ->]; done); destruct Hm as [w ->]; try done; by case_bool_decide.
Qed.

Lemma push_args kind names args : Z.of_nat (length args) + Z.of_nat (length names) <= U32_MAX ->
  try_fold (Zip.push_arg kind) args names = Ok (args ++ numbered (length args) (map (fun n => (n, kind)) names)).
Proof.
  revert args. induction names as [|n names IH]; intros args Hl; cbn [try_fold map numbered]; [by rewrite List.app_nil_r|]. unfold Zip.push_arg at 1, u32_of_usize. cbn [length] in Hl.
  destruct (Z.leb_spec (Z.of_nat (length args)) U32_MAX); [|lia]. cbn [rbind]. rewrite IH by (rewrite length_app; cbn [length]; lia). rewrite length_app, <- app_assoc. cbn [length app]. by rewrite Nat.add_1_r.
Qed.

Lemma push_ports_exact args ps : Forall stamped ps -> Z.of_nat (length args) + Z.of_nat (length (flat_map entries ps)) <= U32_MAX ->
  try_fold Zip.push_port args ps = match find_first rejected ps with Some p => Err (rejection p) | None => Ok (args ++ numbered (length args) (flat_map entries ps)) end.
Proof.
  intros Hs. revert args. induction Hs as [|p ps Hp _ IH]; intros args Hl; cbn [try_fold find_first flat_map]; [by rewrite List.app_nil_r|]. cbn [flat_map] in Hl. rewrite length_app in Hl.
  unfold Zip.push_port at 1. rewrite arg_kind_exact by done. destruct (rejected p); [done|]. cbn [rbind].
  assert (Hn : length (entries p) = length (kernel_arg_names p XilinxHls)) by apply length_map. rewrite push_args by lia. cbn [rbind]. fold (entries p).
  rewrite IH by (rewrite length_app, length_numbered; lia). destruct (find_first rejected ps); [done|]. by rewrite length_app, length_numbered, numbered_app, <- app_assoc.
Qed.

Lemma check_categories_exact st t : BMap.get (top (state_graph st)) (graph_tasks (state_graph st)) = Some t ->
  (Pack.check_cosim_supported_categories st = Ok tt <-> Forall (fun p => Pack.unbindable p = false) (ports t)) /\ Pack.check_cosim_supported_categories st <> Panic.
Proof.
  intros Ht. unfold Pack.check_cosim_supported_categories. rewrite Ht. induction (ports t) as [|p ps IH]; [by repeat split|]. cbn [List.filter]. destruct (Pack.unbindable p) eqn:E; cbn [map].
  - split; [|done]. split; [done|]. intros Hf. inversion Hf as [|? ? H1]. by rewrite E in H1.
  - destruct IH as [IH1 IH2]. split; [|done]. rewrite IH1. split; [by constructor|]. intros Hf. by inversion Hf.
Qed.

(** C20: both ends of an HLS archive of at most [2^32 - 1] arguments agree.  The stamped state carries the metadata of
    every port the runtime projects, and keeps what was there; its projection numbers
    the arguments of the ports in order and takes their widths, depths and address
    widths from the archive, never a default for old archives; the only ports it
    refuses are those [tapa pack] refuses, and memories of no channels, which
    [tapa pack] lets pass. *)
Theorem packed_archive_exact st t : BMap.get (top (state_graph st)) (graph_tasks (state_graph st)) = Some t ->
  let ps := map Pack.stamp_port (ports t) in
  Z.of_nat (length (flat_map entries ps)) <= U32_MAX ->
  Forall stamped ps /\
  (Pack.check_cosim_supported_categories st = Ok tt <-> Forall (fun p => Pack.unbindable p = false) ps) /\
  Zip.spec_from_task_graph (state_graph (Pack.stamp_cosim_port_metadata st)) =
    match find_first rejected ps with
    | Some p => Err (rejection p)
    | None => Ok (mkKernelSpec (top (state_graph st)) (numbered 0 (flat_map entries ps)) None)
    end.
Proof.
  intros Ht ps Hl. assert (Hs : Forall stamped ps) by (apply Forall_map, Forall_forall; intros p _; apply stamp_port_stamped). split; [done|]. split.
  - destruct (check_categories_exact st t Ht) as [-> _]. unfold ps. rewrite Forall_map. apply Forall_proper; [|done]. intros p. cbn. unfold Pack.unbindable. destruct (stamp_port_stamped p) as (_ & -> & _). done.
  - unfold Pack.stamp_cosim_port_metadata. rewrite Ht. unfold Zip.spec_from_task_graph. cbn [state_graph top graph_tasks]. rewrite BMap.get_insert_eq. cbn [ok_or rbind Pack.set_ports ports]. fold ps.
    rewrite push_ports_exact by done. by destruct (find_first rejected ps).
Qed.

(** ** Concrete archives *)

Definition archive (ps : list Port) : WorkState :=
  state_new (mkGraph SCHEMA_VERSION "top" XilinxHls [] [("top", simple_task Upper ps [] [])]).

Definition with_channels (n : Z) (p : Port) : Port :=
  mkPort (port_cat p) (port_name p) (port_ctype p) (port_width p) (Some n) (port_chan_size p) (port_aie_frame p) (port_aie_plio p) (port_stream_depth p) (port_mmap_addr_width p).

Definition top_ports : list Port :=
  [plain_port Ir.Scalar "n" "int" 32; with_channels 2 (plain_port Ir.Mmap "m" "float" 64); plain_port Istream "in[0]" "float" 32].

Lemma packed_archive_exact_witness : exists spec, Zip.spec_from_task_graph (state_graph (Pack.stamp_cosim_port_metadata (archive top_ports))) = Ok spec /\
  ks_args spec = [mkArg "n" 0 (CosimSpec.Scalar 32); mkArg "m_0" 1 (CosimSpec.Mmap 64 64); mkArg "m_1" 2 (CosimSpec.Mmap 64 64); mkArg "in_0_s" 3 (Stream 32 16 DirIn ApFifo)].
Proof.
  eexists. split; [|shelve]. destruct (packed_archive_exact (archive top_ports) (simple_task Upper top_ports [] []) ltac:(reflexivity) ltac:(vm_compute; discriminate)) as (_ & _ & E).
  rewrite E. reflexivity. Unshelve. reflexivity.
Defined.

(** A memory of no channels is packed, and cannot be opened. *)
Example no_channels_pack_but_do_not_load :
  let st := archive [with_channels 0 (plain_port Ir.Mmap "m" "float" 64)] in
  Pack.check_cosim_supported_categories st = Ok tt /\
  Zip.spec_from_task_graph (state_graph (Pack.stamp_cosim_port_metadata st)) = malformed "hmap channel count is 0 for argument 'm'".
Proof. split; reflexivity. Qed.

(** * Extraction and kernel metadata *)

Section laws.
Context `{Cosim.CosimText}.

(** What is extracted stays below the directory. *)
Lemma extraction_stays_inside name out_dir path : safe_extract_path name out_dir = Ok path ->
  path = Path.join out_dir name /\ forall c, c ∈ components name -> c = CurDir \/ exists part, c = Normal part /\ plain_component part.
Proof.
  unfold safe_extract_path. destruct (forallb stays_inside (components name)) eqn:E; [|done]. intros [= <-]. split; [done|]. intros c Hc. rewrite forallb_forall in E.
  pose proof (E c ltac:(by apply list_elem_of_In)) as Hi. destruct c as [| | |part]; try done; [by left|]. right. exists part. split; [done|]. by apply (components_plain name).
Qed.

Lemma add_elements_step acc e es : try_fold add_element acc (e :: es) = rbind (add_element acc e) (fun acc => try_fold add_element acc es).
Proof. done. Qed.

Lemma try_fold_elements {A} (f : Attributes -> res string A) (push : list PortInfo * list RawArg -> list A -> list PortInfo * list RawArg) (el : Attributes -> KernelElement) :
  (forall acc, push acc [] = acc) -> (forall acc x ys, push (push acc [x]) ys = push acc (x :: ys)) ->
  (forall acc a, add_element acc (el a) = let! x := f a in Ok (push acc [x])) ->
  forall l acc, try_fold add_element acc (map el l) = let! xs := try_map f l in Ok (push acc xs).
Proof.
  intros H0 H1 Hel l. induction l as [|a l IH]; intros acc; cbn [try_fold map try_map rbind]; [by rewrite H0|]. rewrite Hel. destruct (f a) as [x|e|]; [|done|done]. cbn [rbind].
  rewrite IH. destruct (try_map f l) as [xs|e|]; [|done|done]. cbn [rbind]. by rewrite H1.
Qed.

(** The elements of a kernel with its groups dissolved. *)
Definition dissolve (e : KernelElement) : list KernelElement :=
  match e with PortGroup l => map PortElement l | ArgGroup l => map ArgElement l | e => [e] end.

Lemma add_dissolved acc e : try_fold add_element acc (dissolve e) = add_element acc e.
Proof.
  destruct e as [a|l|a|l|]; cbn [dissolve]; try (cbn [try_fold]; by destruct (add_element acc _)).
  - rewrite (try_fold_elements port_info (fun acc ps => (acc.1 ++ ps, acc.2))); [done|..]; intros [ps rs]; intros; cbn; [by rewrite List.app_nil_r|by rewrite <- app_assoc|done].
  - rewrite (try_fold_elements raw_arg (fun acc rs => (acc.1, acc.2 ++ rs))); [done|..]; intros [ps rs]; intros; cbn; [by rewrite List.app_nil_r|by rewrite <- app_assoc|done].
Qed.

(** An XO groups the declarations of a kernel and an xclbin does not: both are read
    the same. *)
Lemma grouping_is_irrelevant attributes children : raw_kernel attributes (flat_map dissolve children) = raw_kernel attributes children.
Proof.
  unfold raw_kernel. f_equal. generalize (@nil PortInfo, @nil RawArg). induction children as [|e es IH]; intros acc; [done|]. cbn [flat_map]. rewrite try_fold_app, add_dissolved. cbn [try_fold].
  destruct (add_element acc e) as [acc'|x|]; [|done|done]. apply IH.
Qed.

(** *** Reading a document never panics *)

Lemma radix_fine radix max acc s : Str.parse_radix radix max acc s <> Panic.
Proof.
  revert acc. induction s as [|c s IH]; intros acc; [done|]. cbn [Str.parse_radix]. apply rbind_fine; [apply ok_or_fine|]. intros x _. apply rbind_fine; [apply ok_or_fine|]. intros m _.
  apply rbind_fine; [apply ok_or_fine|]. intros n _. apply IH.
Qed.

Lemma optional_width_fine v : optional_width v <> Panic.
Proof. apply map_err_fine. unfold Str.from_str_radix. destruct v as [|c s]; [done|]. destruct (Ascii.eqb c "+"); [destruct (Str.is_empty s); [done|]|]; apply radix_fine. Qed.

Lemma port_info_fine a : port_info a <> Panic.
Proof.
  apply try_fold_fine. intros p [key value]. unfold port_attribute. repeat (destruct (String.eqb _ _); [done|]). destruct (String.eqb _ _); [|done]. apply rbind_fine; [apply optional_width_fine|done].
Qed.

Lemma raw_arg_fine a : raw_arg a <> Panic.
Proof.
  apply try_fold_fine. intros [name id qualifier port data addr depth host size c] [key value]. unfold arg_attribute.
  repeat match goal with
    | |- (if ?b then _ else _) <> Panic => destruct b
    | |- match data with _ => _ end <> Panic => destruct data
    | |- rbind _ _ <> Panic => apply rbind_fine
    | |- ok_or _ _ <> Panic => apply ok_or_fine
    | |- optional_width _ <> Panic => apply optional_width_fine
    | |- parse_attr _ _ <> Panic => apply ok_or_fine
    | |- stream_depth _ <> Panic => apply ok_or_fine
    | |- optional_size _ <> Panic => apply ok_or_fine
    | |- _ => done
    end.
Qed.

Lemma raw_kernel_fine attributes children : raw_kernel attributes children <> Panic.
Proof.
  apply rbind_fine; [|done]. apply try_fold_fine. intros acc [a|l|a|l|]; cbn [add_element]; [..|done]; (apply rbind_fine; [|done]).
  - apply port_info_fine.
  - apply try_map_fine, port_info_fine.
  - apply raw_arg_fine.
  - apply try_map_fine, raw_arg_fine.
Qed.

Lemma parse_fine events : parse events <> Panic.
Proof.
  unfold parse. apply rbind_fine.
  - apply try_fold_fine. intros s [attributes end_error children|name attributes|e]; cbn [read_event]; [|by destruct (String.eqb _ _); [|destruct (String.eqb _ _)]|done].
    destruct end_error; [done|]. cbv zeta. destruct (existsb _ _); [done|]. destruct (existsb _ _); [done|]. destruct (pd_kernel s); [done|]. apply rbind_fine; [apply map_err_fine, raw_kernel_fine|done].
  - intros s _. apply rbind_fine; [apply ok_or_fine|]. intros k _. cbv zeta. apply rbind_fine; [|done]. apply try_map_fine. intros a. unfold resolve_arg. cbv zeta. apply rbind_fine; [|done].
    destruct (ra_qualifier a) as [|[[]|[[]|[]|]|]|]; try done. apply rbind_fine; [apply ok_or_fine|done].
Qed.

(** A scalar has the declared width, then that of the host, of its type, and of its
    register. *)
Example widths_of_scalars :
  map (fun a => rbind (raw_arg a) scalar_width)
    [[("type", "const int")]; [("hostSize", "0x2"); ("size", "0x4"); ("type", "uint16_t")]; [("size", "8"); ("type", "my_t")]; [("width", "17")]; [("hostSize", "4294967295")]]
  = [Ok 32; Ok 16; Ok 64; Ok 17; Ok U32_MAX].
Proof. reflexivity. Qed.

Example kernel_of_an_xclbin :
  (fun r => match r with Ok x => Some x | _ => None end) (parse [Start "platform" [("name", " u250 ")]; Start "core" [("target", "hw_emu")];
    KernelStart [("name", "tapa_aie_pl_control")] None [];
    KernelStart [("name", "vadd")] None
      [ArgElement [("name", "n"); ("addressQualifier", "0"); ("id", "1"); ("type", "int")]; ArgGroup [[("name", "a"); ("addressQualifier", "1"); ("id", "0"); ("port", "m_axi_a")]];
       PortGroup [[("name", "m_axi_a"); ("mode", "master"); ("dataWidth", "512")]]]])
  = Some (mkKernelXml "vadd" "u250" HwEmu true [mkArg "n" 1 (CosimSpec.Scalar 32); mkArg "a" 0 (CosimSpec.Mmap 512 64)] [(0, ""); (1, "int")]).
Proof. reflexivity. Qed.
End laws.
