(* ===== verification/Xrt.v ===== *)
(** * The XRT backend

    [frt/src/xrt]: what the runtime reads of an xclbin ([metadata.rs]), the
    programs that control an AI Engine graph from the programmable logic
    ([pl_control.rs]), and the device over the C API of XRT ([device.rs]).  XRT is
    the environment; the readers of XML and JSON, and the environment variables of
    an emulation, are those of a class. *)

From Stdlib Require Import SpecFloat.
From S2P Require Import Prelude RustStd BTreeMap F64 Shm Frt VrtDevice Cosim Package CosimSpec Ffi VrtCtrl.

Local Open Scope Z_scope.

(** A failure of XRT. *)
Definition xrt {A} (detail : string) : res FrtError A := Err (Xrt detail).
Definition metadata {A} (detail : string) : res FrtError A := Err (MetadataParse detail).

Definition show_int (n : Z) : string := (if n <? 0 then "-" else "") +:+ Str.show (Z.abs n).
Definition TRY_FROM_INT : string := "out of range integral type conversion attempted".
Definition I32_MAX : Z := 2147483647.

(** ** An xclbin *)

Definition get_range (l : list Z) (at_ n : Z) : option (list Z) :=
  if at_ + n <=? Z.of_nat (length l) then Some (slice l (Z.to_nat at_) (Z.to_nat n)) else None.

Definition read_uint (xclbin : list Z) (at_ n : Z) : option Z := option_map le_value (get_range xclbin at_ n).

Definition COUNT_OFFSET : Z := 448.
Definition SECTIONS_OFFSET : Z := 456.
Definition SECTION_HEADER : Z := 40.
Definition AIE_METADATA : Z := 25.
Definition EMBEDDED_METADATA : Z := 2.
Definition PLATFORM_VBNV_OFFSET : Z := 352.
Definition PLATFORM_VBNV_LEN : Z := 64.
Definition MAGIC : list Z := bytes_of "xclbin2" ++ [0].

(** The [i]-th section, when it is of the kind and in the file. *)
Definition section_at (xclbin : list Z) (kind i : Z) : option (list Z) :=
  let header := SECTIONS_OFFSET + i * SECTION_HEADER in
  let? k := read_uint xclbin header 4 in
  if negb (k =? kind) then None else
  let? offset := read_uint xclbin (header + 24) 8 in
  let? size := read_uint xclbin (header + 32) 8 in
  let? _ := checked_add64 offset size in
  get_range xclbin offset size.

Fixpoint sections_from (n : nat) (xclbin : list Z) (kind i : Z) : option (list Z) :=
  match n with
  | O => None
  | S n => match section_at xclbin kind i with Some s => Some s | None => sections_from n xclbin kind (i + 1) end
  end.

Definition xclbin_section (xclbin : list Z) (kind : Z) : option (list Z) :=
  let? count := read_uint xclbin COUNT_OFFSET 4 in
  sections_from (Z.to_nat count) xclbin kind 0.

(** The bytes before the first NUL. *)
Fixpoint before_nul (l : list Z) : list Z :=
  match l with
  | [] => []
  | b :: l' => if b =? 0 then [] else b :: before_nul l'
  end.

Definition extract_embedded_xml (xclbin : list Z) : res FrtError string :=
  if bool_decide (take 8 xclbin <> MAGIC) then metadata "not an xclbin2 file" else
  let! section := ok_or (xclbin_section xclbin EMBEDDED_METADATA) (MetadataParse "EMBEDDED_METADATA section not found in xclbin") in
  let xml := before_nul section in
  match utf8_error (length xml) 0 xml with
  | Some e => metadata ("EMBEDDED_METADATA is not UTF-8: " +:+ utf8_error_str e)
  | None =>
      let text := Str.utf8 xml in
      if Str.contains "<kernel" text then Ok text else metadata "EMBEDDED_METADATA contains no kernel"
  end.

Definition vbnv_char (c : ascii) : bool := Str.is_alnum c || Ascii.eqb c "_" || Ascii.eqb c "-" || Ascii.eqb c ".".

Definition extract_platform_vbnv (xclbin : list Z) : option string :=
  let? raw := get_range xclbin PLATFORM_VBNV_OFFSET PLATFORM_VBNV_LEN in
  let name := before_nul raw in
  match utf8_error (length name) 0 name with
  | Some _ => None
  | None =>
      let s := Str.trim (Str.utf8 name) in
      if Str.is_empty s || negb (Str.all vbnv_char s) then None else Some s
  end.

(** ** The AI Engine graph *)

Record AieRtp := mkRtp { rtp_alias : string; rtp_arg : Z; rtp_bytes : Z; ping_address : Z; pong_address : Z }.
Record AieGraph := mkAieGraph { ag_name : string; run_forever : bool; iteration_addresses : list Z; rtps : list AieRtp }.

(** [Vec::resize] with zeros. *)
Definition resize (n : nat) (l : list Z) : list Z := take n l ++ replicate (n - length l) 0.

Definition scalar_value (rtp : AieRtp) (values : bmap Z (list Z)) : res FrtError (list Z) :=
  let! value := ok_or (BMap.get (rtp_arg rtp) values)
    (Xrt ("runtime parameter `" +:+ rtp_alias rtp +:+ "` carries argument " +:+ Str.show (rtp_arg rtp) +:+ ", which is not a scalar")) in
  Ok (resize (Z.to_nat (rtp_bytes rtp)) value).

Definition aie_u64 (value : Json) : option Z :=
  match (let? text := as_str value in Str.parse_u64 text) with
  | Some n => Some n
  | None => as_u64 value
  end.

Definition aie_u32 (value : Json) (field : string) : res FrtError Z :=
  ok_or (let? n := aie_u64 value in fits U32_MAX n) (MetadataParse ("invalid AIE " +:+ field)).

Definition is_tapa_graph (graph : Json) : bool :=
  match as_str (CosimSpec.index graph "name") with Some n => String.eqb n "tapa_aie" || String.eqb n "tapa_aie_forever" | None => false end.

Fixpoint take_digits (s : string) : string :=
  match s with String c s' => if Str.is_digit c then String c (take_digits s') else "" | EmptyString => "" end.

(** A runtime parameter; [None] when it belongs to another graph. *)
Definition parse_rtp (prefix : string) (rtp : Json) : res FrtError (option AieRtp) :=
  match (let? alias := as_str (CosimSpec.index rtp "alias_name") in let? rest := Str.strip_prefix prefix alias in Some (alias, rest)) with
  | None => Ok None
  | Some (alias, rest) =>
      match Str.parse_u32 (take_digits rest), aie_u64 (CosimSpec.index rtp "number_of_bytes") with
      | Some arg, Some bytes =>
          let! ping := aie_u32 (CosimSpec.index rtp "ping_buffer_address") "RTP ping address" in
          let! pong := aie_u32 (CosimSpec.index rtp "pong_buffer_address") "RTP pong address" in
          Ok (Some (mkRtp alias arg bytes ping pong))
      | _, _ => metadata ("AI Engine runtime parameter `" +:+ alias +:+ "` names no kernel argument or size")
      end
  end.

Definition graph_of_metadata (json : Json) : res FrtError (option AieGraph) :=
  let meta := CosimSpec.index json "aie_metadata" in
  match List.find is_tapa_graph (object_values (CosimSpec.index meta "graphs")) with
  | None => Ok None
  | Some graph =>
      let! name := expect (as_str (CosimSpec.index graph "name")) in
      let! addresses := try_map (fun v => aie_u32 v "iteration-memory address") (array_items (CosimSpec.index graph "iteration_memory_addresses")) in
      let! parsed := try_map (parse_rtp (name +:+ ".rtp_")) (object_values (CosimSpec.index meta "RTPs")) in
      Ok (Some (mkAieGraph name (String.eqb name "tapa_aie_forever") addresses (omap id parsed)))
  end.

(** ** Programs for the control kernel ([pl_control.rs]) *)

Definition KERNEL_NAME : string := "tapa_aie_pl_control:{controller_1}".
Definition CORE_CONTROL : Z := 204800.
Definition CORE_ENABLE : Z := 1.
Definition CORE_DISABLE : Z := 0.
Definition MAX_PROGRAM_WORDS : Z := 1024.

(** The number of words, then an address and a value for each write. *)
Definition encode (writes : list (Z * Z)) : res FrtError (list Z) :=
  let words := Z.of_nat (length writes) * 2 in
  if words <=? MAX_PROGRAM_WORDS then Ok (le_bytes 4 words ++ flat_map (fun w => le_bytes 4 w.1 ++ le_bytes 4 w.2) writes)
  else xrt "AIE PL control program is too large".

(** A [BTreeSet<u32>]. *)
Definition address_set (l : list Z) : bmap Z unit := BMap.from_list (map (fun a => (a, tt)) l).

Definition insert_rtp_address (addresses : bmap Z unit) (rtp : AieRtp) : res FrtError (bmap Z unit) :=
  if negb (ping_address rtp =? pong_address rtp) then xrt ("AIE PL control requires single-buffered RTP `" +:+ rtp_alias rtp +:+ "`")
  else if BMap.contains_key (ping_address rtp) addresses
  then xrt ("AIE PL control cannot broadcast colliding register address " +:+ Str.show_hex (ping_address rtp))
  else Ok (BMap.insert (ping_address rtp) tt addresses).

Definition validate_memory_map (graph : AieGraph) : res FrtError (list Z) :=
  let iterations := address_set (iteration_addresses graph) in
  match iterations with
  | [] => xrt "AIE graph has no iteration register"
  | _ => let! _ := try_fold insert_rtp_address iterations (rtps graph) in Ok (BMap.keys iterations)
  end.

(** [chunks(4)]. *)
Fixpoint chunks4 (fuel : nat) (l : list Z) : list (list Z) :=
  match fuel, l with
  | S fuel, _ :: _ => take 4 l :: chunks4 fuel (drop 4 l)
  | _, _ => []
  end.

Definition chunk_write (rtp : AieRtp) (x : nat * list Z) : res FrtError (Z * Z) :=
  let! offset := ok_or (fits U32_MAX (Z.of_nat x.1 * 4)) (Xrt ("RTP is too large: " +:+ TRY_FROM_INT)) in
  let! address := ok_or (checked_add32 (ping_address rtp) offset) (Xrt ("RTP address overflows for `" +:+ rtp_alias rtp +:+ "`")) in
  Ok (address, le_value (resize 4 x.2)).

Definition rtp_writes (values : bmap Z (list Z)) (rtp : AieRtp) : res FrtError (list (Z * Z)) :=
  let! value := scalar_value rtp values in
  try_map (chunk_write rtp) (enumerate (chunks4 (length value) value)).

Definition start_program (graph : AieGraph) (values : bmap Z (list Z)) (reset : bool) : res FrtError (list Z) :=
  let! iterations := validate_memory_map graph in
  let! parameters := try_map (rtp_writes values) (rtps graph) in
  let count := if run_forever graph then U32_MAX else 1 in
  encode ((if reset then [(CORE_CONTROL, CORE_DISABLE)] else []) ++ concat parameters ++ map (fun a => (a, count)) iterations ++ [(CORE_CONTROL, CORE_ENABLE)]).

Definition stop_program : res FrtError (list Z) := encode [(CORE_CONTROL, CORE_DISABLE)].
Definition abort_program : res FrtError (list Z) := stop_program.

(** ** State *)

Record BufferBinding := mkBufferBinding { bb_ptr : Z; bb_bytes : Z; bb_access : BufferAccess; bb_bo : Z; bb_staged : bool }.
Record PlControl := mkPlControl { pc_device : Z; pc_kernel : Z; pc_run : Z }.
Record Graph := mkGraph { g_handle : Z; g_pl_control : option PlControl; g_meta : AieGraph; g_has_run : bool }.

Record XrtDevice := mkXrt {
  xd_meta : KernelXml;
  xd_device : Z;
  xd_kernel : Z;
  xd_run : Z;
  xd_graph : option Graph;
  xd_scalars : bmap Z (list Z);
  xd_buffers : bmap Z BufferBinding;
  xd_state : ExecutionState;
  xd_load_ns : Z;
  xd_compute_ns : Z;
  xd_store_ns : Z;
}.

Definition xrt_set_handles (kernel run : Z) (graph : option Graph) (d : XrtDevice) : XrtDevice :=
  mkXrt (xd_meta d) (xd_device d) kernel run graph (xd_scalars d) (xd_buffers d) (xd_state d) (xd_load_ns d) (xd_compute_ns d) (xd_store_ns d).
Definition xrt_set_args (scalars : bmap Z (list Z)) (buffers : bmap Z BufferBinding) (d : XrtDevice) : XrtDevice :=
  mkXrt (xd_meta d) (xd_device d) (xd_kernel d) (xd_run d) (xd_graph d) scalars buffers (xd_state d) (xd_load_ns d) (xd_compute_ns d) (xd_store_ns d).
Definition xrt_set_state (s : ExecutionState) (d : XrtDevice) : XrtDevice :=
  mkXrt (xd_meta d) (xd_device d) (xd_kernel d) (xd_run d) (xd_graph d) (xd_scalars d) (xd_buffers d) s (xd_load_ns d) (xd_compute_ns d) (xd_store_ns d).
Definition xrt_set_times (load compute store : Z) (d : XrtDevice) : XrtDevice :=
  mkXrt (xd_meta d) (xd_device d) (xd_kernel d) (xd_run d) (xd_graph d) (xd_scalars d) (xd_buffers d) (xd_state d) load compute store.

Definition SYNC_TO_DEVICE : Z := 0.
Definition SYNC_FROM_DEVICE : Z := 1.
Definition RUN_COMPLETED : Z := 4.
Definition RUN_ERROR : Z := 5.
Definition RUN_ABORT : Z := 6.
Definition RUN_TIMEOUT : Z := 8.
Definition RUN_NORESPONSE : Z := 9.
Definition RUN_SKERROR : Z := 10.
Definition RUN_SKCRASHED : Z := 11.
Definition USER_PTR_ALIGNMENT : Z := 4096.

Definition is_run_error (state : Z) : bool :=
  existsb (Z.eqb state) [RUN_ERROR; RUN_ABORT; RUN_TIMEOUT; RUN_NORESPONSE; RUN_SKERROR; RUN_SKCRASHED].

Definition check (rc : Z) (action : string) : res FrtError unit :=
  if rc =? 0 then Ok tt else xrt ("cannot " +:+ action +:+ " (XRT returned " +:+ show_int rc +:+ ")").

Definition non_null (handle : Z) (action : string) : res FrtError Z :=
  if handle =? 0 then xrt ("cannot " +:+ action) else Ok handle.

(** [CString::new]. *)
Definition c_string (value what : string) : res FrtError string :=
  match nul_position 0 value with
  | Some pos => xrt (what +:+ ": nul byte found in provided data at position: " +:+ Str.show pos)
  | None => Ok value
  end.

(** *** Scalars *)

(** The value of IEEE 754 bits; the payload of a NaN is dropped. *)
Definition from_bits (mantissa_bits exponent_bits : Z) (bits : Z) : spec_float :=
  let s := Z.testbit bits (mantissa_bits + exponent_bits) in
  let m := Z.land bits (Z.ones mantissa_bits) in
  let e := Z.land (Z.shiftr bits mantissa_bits) (Z.ones exponent_bits) in
  let e0 := 2 - 2 ^ (exponent_bits - 1) - mantissa_bits in
  if e =? Z.ones exponent_bits then if m =? 0 then S754_infinity s else S754_nan
  else
    match (if e =? 0 then m else m + 2 ^ mantissa_bits) with
    | Zpos p => S754_finite s p (if e =? 0 then e0 else e0 + e - 1)
    | _ => S754_zero s
    end.

(** [f64::from(f32)]: exact. *)
Definition f64_of_f32 (x : spec_float) : f64 :=
  match x with S754_finite s m e => binary_normalize F64.prec F64.emax (cond_Zopp s (Zpos m)) e s | _ => x end.

Definition va_scalar (id : Z) (host_type : string) (bytes : list Z) : res FrtError XrtValue :=
  let le n := le_value (take n bytes) in
  if String.eqb host_type "int" || String.eqb host_type "uint" then Ok (VaU32 (le 4%nat))
  else if String.eqb host_type "float" then Ok (VaDouble (f64_of_f32 (from_bits 23 8 (le 4%nat))))
  else if String.eqb host_type "double" then Ok (VaDouble (from_bits 52 11 (le 8%nat)))
  else if Nat.eqb (length bytes) 4 then Ok (VaU32 (le 4%nat))
  else if (length bytes <=? 8)%nat then Ok (VaU64 (le 8%nat))
  else xrt ("scalar argument " +:+ Str.show id +:+ " is " +:+ Str.show (Z.of_nat (length bytes)) +:+ " bytes wide; XRT passes scalars of at most 8 bytes").

(** [sort_by_key(|a| a.id)]: stable. *)
Fixpoint insert_arg (a : ArgSpec) (l : list ArgSpec) : list ArgSpec :=
  match l with
  | [] => [a]
  | b :: l' => if as_id a <=? as_id b then a :: l else b :: insert_arg a l'
  end.
Definition sort_args (l : list ArgSpec) : list ArgSpec := fold_right insert_arg [] l.

(** ** The device *)

(** The readers of XML and JSON; the environment variables of an emulation, set once
    for a process; and the library of XRT, loaded once. *)
Class XrtLibraries := {
  xml_events : string -> list XmlEvent;
  json_from_slice : list Z -> string + Json;
  bootstrap_emulation : KernelXml -> history -> FrtError + unit;
  load_api : history -> FrtError + unit;
}.

Section device.
Context `{Env} `{HashOrder} `{XrtLibraries} `{!CosimText}.

Definition api_call {D} (c : ApiCall) : io D Z := do! a := ask (XrtApi c) in io_ret a.1.
Definition api_do {D} (c : ApiCall) : io D unit := do! _ := api_call c in io_ret tt.
Definition checked_call {D} (c : ApiCall) (action : string) : io D unit := do! rc := api_call c in io_lift (check rc action).
Definition handle_call {D} (c : ApiCall) (action : string) : io D Z := do! h := api_call c in io_lift (non_null h action).

(** [cleanup] runs however the operation ends. *)
Definition io_finally {D A} (m : io D A) (cleanup : io D unit) : io D A := fun s => let '(r, s') := m s in (r, (cleanup s').2).
(** [recover] runs when the operation fails; its own failure is the one reported. *)
Definition on_error {D A} (m : io D A) (recover : io D unit) : io D A := fun s =>
  match m s with
  | (Err e, s') => (do! _ := recover in io_lift (Err e)) s'
  | r => r
  end.

(** *** The control kernel *)

(** [Drop]. *)
Definition pl_drop (p : PlControl) : io XrtDevice unit :=
  do! _ := if pc_run p =? 0 then io_ret tt else api_do (RunClose (pc_run p)) in
  if pc_kernel p =? 0 then io_ret tt else api_do (KernelClose (pc_kernel p)).

Definition pl_open (device : Z) (uuid : list Z) : io XrtDevice PlControl :=
  do! kernel := handle_call (KernelOpen device uuid KERNEL_NAME) "open the AIE PL control kernel" in
  do! run := on_error (handle_call (RunOpen kernel) "create an AIE PL control run") (pl_drop (mkPlControl device kernel 0)) in
  io_ret (mkPlControl device kernel run).

Definition run_commands (p : PlControl) (bo : Z) (commands : list Z) : io XrtDevice unit :=
  do! _ := checked_call (BoWrite bo commands) "write the AIE PL command buffer" in
  do! _ := checked_call (BoSync bo SYNC_TO_DEVICE (Z.of_nat (length commands))) "sync the AIE PL command buffer" in
  do! _ := checked_call (RunSetArg (pc_run p) 1 (VaU32 0)) "set the AIE PL control packet ID" in
  do! _ := checked_call (RunSetArg (pc_run p) 2 (VaHandle bo)) "bind the AIE PL command buffer" in
  do! _ := checked_call (RunStart (pc_run p)) "start the AIE PL control kernel" in
  do! state := api_call (RunWait (pc_run p)) in
  io_lift (if state =? RUN_COMPLETED then Ok tt else xrt ("the AIE PL control run ended in state " +:+ show_int state +:+ ", not completed")).

Definition pl_execute (p : PlControl) (commands : list Z) : io XrtDevice unit :=
  match commands with
  | [] => io_lift (xrt "empty AIE PL control command")
  | _ =>
      do! group := api_call (KernelArgGroupId (pc_kernel p) 2) in
      do! group := io_lift (ok_or (fits U32_MAX group) (Xrt ("PL command buffer has no memory bank: " +:+ TRY_FROM_INT))) in
      do! bo := handle_call (BoAlloc (pc_device p) (Z.of_nat (length commands)) group) "allocate the AIE PL command buffer" in
      io_finally (run_commands p bo commands) (api_do (BoFree bo))
  end.

(** *** The graph *)

Definition mark_run (d : XrtDevice) : XrtDevice :=
  xrt_set_handles (xd_kernel d) (xd_run d)
    (option_map (fun g => mkGraph (g_handle g) (g_pl_control g) (g_meta g) true) (xd_graph d)) d.

Definition update_rtp (handle : Z) (values : bmap Z (list Z)) (rtp : AieRtp) : io XrtDevice unit :=
  do! value := io_lift (scalar_value rtp values) in
  do! alias := io_lift (c_string (rtp_alias rtp) "runtime parameter name") in
  checked_call (GraphUpdateRtp handle alias value) ("update runtime parameter `" +:+ rtp_alias rtp +:+ "`").

Definition start_graph (values : bmap Z (list Z)) : io XrtDevice unit :=
  do! d := io_get in
  match xd_graph d with
  | None => io_ret tt
  | Some graph =>
      let reset := run_forever (g_meta graph) && g_has_run graph in
      match g_pl_control graph with
      | Some control =>
          do! command := io_lift (start_program (g_meta graph) values reset) in
          do! _ := pl_execute control command in
          io_modify mark_run
      | None =>
          do! _ := if reset then checked_call (GraphReset (g_handle graph)) "reset the AI Engine graph" else io_ret tt in
          do! _ := io_each (update_rtp (g_handle graph) values) (rtps (g_meta graph)) in
          do! _ := checked_call (GraphRun (g_handle graph) (if run_forever (g_meta graph) then -1 else 1)) "run the AI Engine graph" in
          io_modify mark_run
      end
  end.

Definition stop_graph : io XrtDevice unit :=
  do! d := io_get in
  match xd_graph d with
  | None => io_ret tt
  | Some graph =>
      match g_pl_control graph with
      | Some control => do! command := io_lift stop_program in pl_execute control command
      | None => checked_call (GraphWait (g_handle graph) (if run_forever (g_meta graph) then 1 else 0)) "wait for the AI Engine graph"
      end
  end.

Definition abort_graph : io XrtDevice unit :=
  do! d := io_get in
  match xd_graph d with
  | None => io_ret tt
  | Some graph =>
      match g_pl_control graph with
      | Some control => do! command := io_lift abort_program in pl_execute control command
      | None => checked_call (GraphReset (g_handle graph)) "reset the AI Engine graph after a kernel failure"
      end
  end.

(** *** Release ([Drop]) *)

Definition drop_graph (graph : option Graph) : io XrtDevice unit :=
  match graph with
  | None => io_ret tt
  | Some g =>
      do! _ := if g_handle g =? 0 then io_ret tt else api_do (GraphClose (g_handle g)) in
      match g_pl_control g with Some control => pl_drop control | None => io_ret tt end
  end.

(** The buffers in the order of the [HashMap]. *)
Definition each_buffer (f : Z * BufferBinding -> io XrtDevice unit) : io XrtDevice unit := fun s => io_each f (hash_iter s.2 (xd_buffers s.1)) s.

Definition xrt_drop : io XrtDevice unit :=
  do! d := io_get in
  do! _ := drop_graph (xd_graph d) in
  do! _ := if xd_run d =? 0 then io_ret tt else api_do (RunClose (xd_run d)) in
  do! _ := each_buffer (fun x => api_do (BoFree (bb_bo x.2))) in
  do! _ := if xd_kernel d =? 0 then io_ret tt else api_do (KernelClose (xd_kernel d)) in
  api_do (DeviceClose (xd_device d)).

(** *** Opening *)

Definition parse_aie_graph (xclbin : list Z) : res FrtError (option AieGraph) :=
  match xclbin_section xclbin AIE_METADATA with
  | None => Ok None
  | Some section =>
      match json_from_slice (before_nul section) with
      | inl e => metadata ("AIE_METADATA is not JSON: " +:+ e)
      | inr json => graph_of_metadata json
      end
  end.

Definition set_platform (p : string) (k : KernelXml) : KernelXml :=
  mkKernelXml (kx_top_name k) p (kx_target k) (aie_pl_control k) (kx_args k) (host_types k).

(** The longer of the name in the XML and the one in the header. *)
Definition complete_platform (xclbin : list Z) (k : KernelXml) : KernelXml :=
  match extract_platform_vbnv xclbin with
  | Some vbnv => if (String.length (kx_platform k) <? String.length vbnv)%nat then set_platform vbnv k else k
  | None => k
  end.

(** The xclbin and its kernel, the board asked for, and the path as a C string. *)
Definition prepare_open (path : string) : io unit (list Z * KernelXml * option string * string) :=
  do! file := ask (ReadFile path) in
  do! bytes := io_lift (let! text := map_err Io (of_sum file) in Ok (bytes_of text)) in
  do! xml := io_lift (extract_embedded_xml bytes) in
  do! meta := io_lift (map_err MetadataParse (parse (xml_events xml))) in
  let meta := complete_platform bytes meta in
  do! _ := fun s => io_lift (of_sum (bootstrap_emulation meta s.2)) s in
  do! _ := fun s => io_lift (of_sum (load_api s.2)) s in
  do! requested := env_non_empty "FRT_XOCL_BDF" in
  do! bdf := io_lift (match requested with
    | None => Ok None
    | Some value => let! bdf := c_string value ("invalid device BDF `" +:+ value +:+ "`") in Ok (Some bdf)
    end) in
  do! cpath := io_lift (c_string path "xclbin path") in
  io_ret (bytes, meta, bdf, cpath).

Definition candidate (meta : KernelXml) (device : Z) : XrtDevice := mkXrt meta device 0 0 None BMap.empty BMap.empty Idle 0 0 0.

(** The device that accepts the xclbin: the one asked for, or the first of 64. *)
Fixpoint load_device (fuel : nat) (meta : KernelXml) (bdf : option string) (path : string) (index : Z) (h : history) : res FrtError XrtDevice * history :=
  match fuel with
  | O => (Panic, h)
  | S fuel =>
      let '(opened, (_, h)) := handle_call (match bdf with Some b => DeviceOpenByBdf b | None => DeviceOpen index end) "open a device" (tt, h) in
      match opened with
      | Ok device =>
          let this := candidate meta device in
          match api_call (DeviceLoadXclbinFile device path) (this, h) with
          | (Ok rc, s) =>
              if rc =? 0 then (Ok this, s.2)
              else
                let h := (xrt_drop s).2.2 in
                match bdf with
                | Some _ => (xrt ("cannot load the xclbin on the requested device (XRT returned " +:+ show_int rc +:+ ")"), h)
                | None =>
                    if 64 <=? index + 1 then (xrt ("cannot load the xclbin on any available device (last XRT returned " +:+ show_int rc +:+ ")"), h)
                    else load_device fuel meta bdf path (index + 1) h
                end
          | (_, s) => (Panic, s.2)
          end
      | Err e => (Err e, h)
      | Panic => (Panic, h)
      end
  end.

Definition open_graph (uuid : list Z) (meta : AieGraph) : io XrtDevice unit :=
  do! d := io_get in
  do! (handle, control) := (if aie_pl_control (xd_meta d) then do! c := pl_open (xd_device d) uuid in io_ret (0, Some c)
    else
      do! name := io_lift (c_string (ag_name meta) "graph name") in
      do! handle := handle_call (GraphOpen (xd_device d) uuid name) ("open the AI Engine graph `" +:+ ag_name meta +:+ "`") in
      io_ret (handle, None)) in
  io_modify (fun d => xrt_set_handles (xd_kernel d) (xd_run d) (Some (mkGraph handle control meta false)) d).

Definition xrt_setup (xclbin : list Z) : io XrtDevice unit :=
  do! d := io_get in
  do! (rc, uuid) := ask (XrtApi (DeviceGetXclbinUuid (xd_device d))) in
  do! _ := io_lift (check rc "read the xclbin UUID") in
  do! name := io_lift (c_string (kx_top_name (xd_meta d)) "kernel name") in
  do! kernel := handle_call (KernelOpen (xd_device d) uuid name) ("open kernel `" +:+ kx_top_name (xd_meta d) +:+ "`") in
  do! _ := io_modify (xrt_set_handles kernel 0 None) in
  do! run := handle_call (RunOpen kernel) "create a kernel run" in
  do! _ := io_modify (xrt_set_handles kernel run None) in
  do! graph := io_lift (parse_aie_graph xclbin) in
  match graph with Some meta => open_graph uuid meta | None => io_ret tt end.

(** A device that cannot be set up is dropped. *)
Definition xrt_open (path : string) (h : history) : res FrtError XrtDevice * history :=
  match prepare_open path (tt, h) with
  | (Ok (xclbin, meta, bdf, cpath), (_, h)) =>
      match load_device 64 meta bdf cpath 0 h with
      | (Ok d, h) =>
          match xrt_setup xclbin (d, h) with
          | (Ok _, (d, h)) => (Ok d, h)
          | (Err e, s) => (Err e, (xrt_drop s).2.2)
          | (Panic, s) => (Panic, s.2)
          end
      | r => r
      end
  | (Err e, (_, h)) => (Err e, h)
  | (Panic, (_, h)) => (Panic, h)
  end.

(** *** The operations of a device *)

Definition xrt_set_scalar_arg (index : Z) (value : list Z) : io XrtDevice unit :=
  io_modify (fun d => xrt_set_args (BMap.insert index value (xd_scalars d)) (xd_buffers d) d).

Definition xrt_set_buffer_arg (index ptr bytes : Z) (access : BufferAccess) : io XrtDevice unit :=
  do! d := io_get in
  if bytes =? 0 then io_lift (metadata ("zero-length buffer arg " +:+ Str.show index +:+ " is unsupported in XRT runtime")) else
  if ptr =? 0 then io_lift (metadata ("null host pointer for non-empty buffer arg " +:+ Str.show index)) else
  do! arg := io_lift (ok_or (fits I32_MAX index) (Xrt ("argument index " +:+ Str.show index +:+ ": " +:+ TRY_FROM_INT))) in
  do! group := api_call (KernelArgGroupId (xd_kernel d) arg) in
  do! group := io_lift (ok_or (fits U32_MAX group) (Xrt ("argument " +:+ Str.show index +:+ " has no memory bank: " +:+ TRY_FROM_INT))) in
  let staged := negb (ptr mod USER_PTR_ALIGNMENT =? 0) in
  do! bo := handle_call (if staged then BoAlloc (xd_device d) bytes group else BoAllocUserPtr (xd_device d) ptr bytes group)
    ("allocate the buffer of argument " +:+ Str.show index) in
  do! _ := on_error (checked_call (RunSetArg (xd_run d) arg (VaHandle bo)) ("bind argument " +:+ Str.show index)) (api_do (BoFree bo)) in
  do! _ := io_modify (fun d => xrt_set_args (xd_scalars d) (BMap.insert index (mkBufferBinding ptr bytes access bo staged) (xd_buffers d)) d) in
  match BMap.get index (xd_buffers d) with
  | Some old => api_do (BoFree (bb_bo old))
  | None => io_ret tt
  end.

Definition xrt_set_stream_arg (index : Z) : io XrtDevice unit :=
  io_lift (metadata ("argument " +:+ Str.show index +:+ ": stream arguments cannot be bound from the host in the XRT runtime")).

(** A buffer object over a host buffer reads it when it is synchronized. *)
Definition upload (x : Z * BufferBinding) : io XrtDevice unit :=
  if negb (loads_from_host (bb_access x.2)) then io_ret tt else
  do! _ := if bb_staged x.2 then
      do! data := ask (HostRead (bb_ptr x.2) (bb_bytes x.2)) in
      checked_call (BoWrite (bb_bo x.2) data) ("stage argument " +:+ Str.show x.1)
    else io_ret tt in
  checked_call (BoSync (bb_bo x.2) SYNC_TO_DEVICE (bb_bytes x.2)) ("write argument " +:+ Str.show x.1 +:+ " to the device").

Definition xrt_write_to_device : io XrtDevice unit :=
  do! started := ask Now in
  do! _ := each_buffer upload in
  do! ns := elapsed_ns started in
  io_modify (fun d => xrt_set_times ns (xd_compute_ns d) (xd_store_ns d) d).

Definition finish_running (started : Z) : io XrtDevice unit :=
  do! ns := elapsed_ns started in
  io_modify (fun d => xrt_set_state Finished (xrt_set_times (xd_load_ns d) ns (xd_store_ns d) d)).

Definition xrt_finish : io XrtDevice unit :=
  do! d := io_get in
  match xd_state d with
  | Running started =>
      do! state := api_call (RunWait (xd_run d)) in
      do! _ := finish_running started in
      if state =? RUN_COMPLETED then stop_graph
      else do! _ := abort_graph in io_lift (xrt ("the kernel run ended in state " +:+ show_int state +:+ ", not completed"))
  | _ => io_ret tt
  end.

Definition download (x : Z * BufferBinding) : io XrtDevice unit :=
  if negb (stores_to_host (bb_access x.2)) then io_ret tt else
  do! _ := checked_call (BoSync (bb_bo x.2) SYNC_FROM_DEVICE (bb_bytes x.2)) ("read argument " +:+ Str.show x.1 +:+ " from the device") in
  if bb_staged x.2 then
    do! (rc, data) := ask (XrtApi (BoRead (bb_bo x.2) (bb_bytes x.2))) in
    do! _ := tell (HostWrite (bb_ptr x.2) data) in
    io_lift (check rc ("unstage argument " +:+ Str.show x.1))
  else io_ret tt.

Definition xrt_read_from_device : io XrtDevice unit :=
  do! d := io_get in
  do! _ := if VrtCtrl.is_running (xd_state d) then xrt_finish else io_ret tt in
  do! started := ask Now in
  do! _ := each_buffer download in
  do! ns := elapsed_ns started in
  io_modify (fun d => xrt_set_times (xd_load_ns d) (xd_compute_ns d) ns d).

(** One argument of [exec], with the values of the scalars before it. *)
Definition bind_arg (values : bmap Z (list Z)) (arg : ArgSpec) : io XrtDevice (bmap Z (list Z)) :=
  do! d := io_get in
  match as_kind arg with
  | Scalar width =>
      let raw := normalized_scalar_bytes width (BMap.get (as_id arg) (xd_scalars d)) in
      let host_type := match BMap.get (as_id arg) (host_types (xd_meta d)) with Some t => t | None => "" end in
      do! index := io_lift (ok_or (fits I32_MAX (as_id arg)) (Xrt ("argument index " +:+ Str.show (as_id arg) +:+ ": " +:+ TRY_FROM_INT))) in
      do! value := io_lift (va_scalar (as_id arg) host_type raw) in
      do! _ := checked_call (RunSetArg (xd_run d) index value) ("set scalar argument " +:+ Str.show (as_id arg)) in
      io_ret (BMap.insert (as_id arg) raw values)
  | Mmap _ _ =>
      if BMap.contains_key (as_id arg) (xd_buffers d) then io_ret values
      else io_lift (metadata ("missing mmap arg binding for id " +:+ Str.show (as_id arg)))
  | Stream _ _ _ _ => io_ret values
  end.

Fixpoint bind_args (values : bmap Z (list Z)) (args : list ArgSpec) : io XrtDevice (bmap Z (list Z)) :=
  match args with
  | [] => io_ret values
  | a :: args => do! values := bind_arg values a in bind_args values args
  end.

Definition xrt_exec : io XrtDevice unit :=
  do! d := io_get in
  do! values := bind_args BMap.empty (sort_args (kx_args (xd_meta d))) in
  do! _ := on_error (start_graph values) abort_graph in
  do! _ := on_error (checked_call (RunStart (xd_run d)) "start the kernel") abort_graph in
  do! now := ask Now in
  io_modify (xrt_set_state (Running now)).

Definition xrt_kill : io XrtDevice unit :=
  do! _ := io_modify (xrt_set_state Finished) in
  abort_graph.

Definition xrt_is_finished : io XrtDevice bool :=
  do! d := io_get in
  match xd_state d with
  | Running started =>
      do! state := api_call (RunState (xd_run d)) in
      if state =? RUN_COMPLETED then
        do! _ := finish_running started in
        do! _ := stop_graph in
        io_ret true
      else if is_run_error state then
        do! _ := finish_running started in
        do! _ := abort_graph in
        io_lift (xrt ("the kernel run failed in state " +:+ show_int state))
      else io_ret false
  | s => io_ret (VrtCtrl.is_finished_state s)
  end.

#[export] Instance xrt_device : Device XrtDevice := {
  host_streams _ := [];
  set_scalar_arg := xrt_set_scalar_arg;
  set_buffer_arg := xrt_set_buffer_arg;
  set_stream_arg index _ := xrt_set_stream_arg index;
  write_to_device := xrt_write_to_device;
  read_from_device := xrt_read_from_device;
  exec := xrt_exec;
  finish := xrt_finish;
  kill := xrt_kill;
  is_finished := xrt_is_finished;
  load_ns := xd_load_ns;
  compute_ns := xd_compute_ns;
  store_ns := xd_store_ns;
  drop_device := xrt_drop;
}.
End device.

(** * Programs of the control kernel *)

(** What the control kernel reads: as many words as the first one says, in pairs. *)
Fixpoint pairs (l : list Z) : list (Z * Z) := match l with a :: v :: l' => (a, v) :: pairs l' | _ => [] end.
Definition words_of (bytes : list Z) : list Z := map le_value (chunks4 (length bytes) bytes).
Definition decode (bytes : list Z) : option (list (Z * Z)) :=
  match words_of bytes with
  | n :: ws => if n =? Z.of_nat (length ws) then Some (pairs ws) else None
  | [] => None
  end.

Definition word_write (w : Z * Z) : Prop := in_u32 w.1 /\ in_u32 w.2.

Lemma words_step fuel v l : in_u32 v -> (length l <= fuel)%nat -> map le_value (chunks4 (S fuel) (le_bytes 4 v ++ l)) = v :: map le_value (chunks4 fuel l).
Proof.
  intros Hv Hl. pose proof (length_le_bytes 4 v) as Hb. pose proof (le_value_bytes 4 v) as Hw. destruct (le_bytes 4 v) as [|b0 [|b1 [|b2 [|b3 [|]]]]]; try done.
  cbn [chunks4 app map]. f_equal. change (take 4 (b0 :: b1 :: b2 :: b3 :: l)) with [b0; b1; b2; b3]. rewrite Hw. apply Z.mod_small. unfold in_u32, U32_MAX in Hv. change (256 ^ Z.of_nat 4) with 4294967296. lia.
Qed.

(** More fuel than bytes changes nothing. *)
Lemma chunks4_fuel fuel l : (length l <= fuel)%nat -> chunks4 fuel l = chunks4 (length l) l.
Proof.
  remember (length l) as n eqn:En. intros Hf. assert (Hn : (length l <= n)%nat) by lia. clear En. revert fuel l Hf Hn. induction n as [|n IH]; intros fuel l Hf Hn.
  - destruct l; [by destruct fuel|simpl in Hn; lia].
  - destruct fuel as [|fuel]; [lia|]. destruct l as [|b l]; [done|]. cbn [chunks4]. f_equal. simpl in Hn. apply IH; rewrite ?length_drop; cbn [length]; lia.
Qed.

Lemma words_of_app v l : in_u32 v -> words_of (le_bytes 4 v ++ l) = v :: words_of l.
Proof.
  intros Hv. unfold words_of. rewrite length_app, length_le_bytes. change (4 + length l)%nat with (S (3 + length l))%nat. rewrite words_step by (done || lia). by rewrite (chunks4_fuel (3 + length l)) by lia.
Qed.

Lemma words_of_writes ws : Forall word_write ws -> words_of (flat_map (fun w => le_bytes 4 w.1 ++ le_bytes 4 w.2) ws) = flat_map (fun w => [w.1; w.2]) ws.
Proof. induction 1 as [|w ws [H1 H2] _ IH]; [done|]. cbn [flat_map]. rewrite <- app_assoc, !words_of_app, IH by done. done. Qed.

Lemma pairs_flat ws : pairs (flat_map (fun w : Z * Z => [w.1; w.2]) ws) = ws.
Proof. induction ws as [|[a v] ws IH]; [done|]. cbn. by rewrite IH. Qed.

Lemma length_flat_pairs (ws : list (Z * Z)) : length (flat_map (fun w => [w.1; w.2]) ws) = (length ws * 2)%nat.
Proof. induction ws as [|w ws IH]; [done|]. cbn. rewrite IH. lia. Qed.

Lemma encode_decodes ws bytes : Forall word_write ws -> encode ws = Ok bytes -> decode bytes = Some ws /\ Z.of_nat (length ws) * 2 <= MAX_PROGRAM_WORDS.
Proof.
  intros Hw. unfold encode. destruct (Z.leb_spec (Z.of_nat (length ws) * 2) MAX_PROGRAM_WORDS) as [Hl|]; [|done].
  remember (le_bytes 4 _ ++ _) as out eqn:Eo. intros [= <-]. split; [|done]. unfold decode. rewrite Eo.
  rewrite words_of_app, words_of_writes, length_flat_pairs, pairs_flat by (done || unfold in_u32, U32_MAX, MAX_PROGRAM_WORDS in *; lia).
  by rewrite Nat2Z.inj_mul, Z.eqb_refl.
Qed.

(** ** The words of a parameter *)

Lemma length_resize n l : length (resize n l) = n.
Proof. unfold resize. rewrite length_app, length_take, length_replicate. lia. Qed.

Definition is_byte (b : Z) : Prop := 0 <= b < 256.

Lemma resize_bytes n l : Forall is_byte l -> Forall is_byte (resize n l).
Proof. intros Hl. apply Forall_app. split; [by apply Forall_take|]. apply Forall_replicate. by split. Qed.

Lemma word_of_chunk l : Forall is_byte l -> (length l <= 4)%nat -> in_u32 (le_value (resize 4 l)).
Proof.
  intros Hb Hl. pose proof (le_value_range (resize 4 l) (resize_bytes 4 l Hb)) as Hr. rewrite length_resize in Hr. change (256 ^ Z.of_nat 4) with 4294967296 in Hr. unfold in_u32, U32_MAX. lia.
Qed.

(** The [i]-th word of a value, where it starts at an address. *)
Definition word_at (base : Z) (x : nat * list Z) : Z * Z := (base + 4 * Z.of_nat x.1, le_value (resize 4 x.2)).
Definition value_writes (base : Z) (value : list Z) : list (Z * Z) := map (word_at base) (enumerate (chunks4 (length value) value)).

Lemma chunk_write_ok rtp x w : chunk_write rtp x = Ok w -> w = word_at (ping_address rtp) x /\ in_u32 w.1.
Proof.
  unfold chunk_write. destruct (fits U32_MAX _) as [o|] eqn:E1; [|done]. apply fits_Some in E1 as [-> _]. cbn [ok_or rbind]. unfold checked_add32.
  destruct (fits U32_MAX (ping_address rtp + _)) as [a|] eqn:E2; [|done]. apply fits_Some in E2 as [-> Ha]. cbn [ok_or rbind]. intros [= <-]. unfold word_at. split; [f_equal; lia|done].
Qed.

Lemma try_map_chunks rtp l ws : try_map (chunk_write rtp) l = Ok ws -> ws = map (word_at (ping_address rtp)) l /\ Forall (fun w => in_u32 w.1) ws.
Proof.
  revert ws. induction l as [|x l IH]; intros ws; cbn [try_map]; [by intros [= <-]|]. destruct (chunk_write rtp x) as [w|e|] eqn:Ew; [|done|done]. apply chunk_write_ok in Ew as [-> Hw].
  cbn [rbind]. destruct (try_map _ l) as [ws'|e|]; [|done|done]. destruct (IH ws' eq_refl) as [-> Hf]. cbn [rbind]. intros [= <-]. by split; [|constructor].
Qed.

Lemma chunks4_bytes fuel l : Forall is_byte l -> Forall (fun c => Forall is_byte c /\ (length c <= 4)%nat) (chunks4 fuel l).
Proof.
  revert l. induction fuel as [|fuel IH]; intros l Hl; [constructor|]. destruct l as [|b l]; [constructor|]. cbn [chunks4]. constructor; [|apply IH; by apply Forall_drop].
  split; [by apply Forall_take|]. rewrite length_take. lia.
Qed.

(** A parameter writes the words of its value, padded to its size, from its address on. *)
Lemma rtp_writes_exact values rtp ws : (forall i v, BMap.get i values = Some v -> Forall is_byte v) -> rtp_writes values rtp = Ok ws ->
  exists value, BMap.get (rtp_arg rtp) values = Some value /\ ws = value_writes (ping_address rtp) (resize (Z.to_nat (rtp_bytes rtp)) value) /\ Forall word_write ws.
Proof.
  intros Hv. unfold rtp_writes, scalar_value. destruct (BMap.get _ _) as [value|] eqn:Eg; [|done]. cbn [ok_or rbind]. set (v := resize _ value). intros Hw.
  apply try_map_chunks in Hw as [-> Ha]. exists value. split; [done|]. split; [done|]. rewrite Forall_map in Ha |- *.
  assert (Hc := chunks4_bytes (length v) v (resize_bytes _ _ (Hv _ _ Eg))). clearbody v.
  apply Forall_forall. intros [i c] Hin. rewrite Forall_forall in Ha. specialize (Ha _ Hin). split; [done|]. cbn [snd word_at].
  rewrite Forall_forall in Hc. assert (Hi : c ∈ chunks4 (length v) v) by (unfold enumerate in Hin; by apply elem_of_zip_r in Hin).
  apply Hc in Hi as [Hb Hl]. by apply word_of_chunk.
Qed.

(** ** The registers of the iterations *)

Lemma address_set_spec a l : In a (BMap.keys (address_set l)) <-> In a l.
Proof.
  unfold address_set. split; [|intros Hin; apply BMap.keys_from_list; rewrite map_map, map_id; done]. intros Hin. apply List.in_map_iff in Hin as ([k []] & <- & Hin).
  apply BMap.In_from_list, List.in_map_iff in Hin as (x & [= <-] & Hin). done.
Qed.

Lemma validate_map_ok graph addresses : validate_memory_map graph = Ok addresses ->
  addresses = BMap.keys (address_set (iteration_addresses graph)) /\ addresses <> [] /\
  Forall (fun rtp => ping_address rtp = pong_address rtp) (rtps graph) /\ NoDup (map ping_address (rtps graph)) /\
  forall rtp, In rtp (rtps graph) -> ~ In (ping_address rtp) addresses.
Proof.
  unfold validate_memory_map. destruct (address_set (iteration_addresses graph)) as [|x m] eqn:Es; [done|]. rewrite <- Es.
  destruct (try_fold _ _ _) as [m'|e|] eqn:Ef; [|done|done]. cbn [rbind]. intros [= <-]. split; [done|]. split; [by rewrite Es|]. clear Es x m.
  revert Ef. generalize (address_set (iteration_addresses graph)). intros m. induction (rtps graph) as [|r l IH] in m |- *; cbn [try_fold]; intros Ef; [by repeat constructor|].
  unfold insert_rtp_address in Ef at 1. destruct (Z.eqb_spec (ping_address r) (pong_address r)) as [Ep|]; [|done]. cbn [negb] in Ef.
  destruct (BMap.contains_key _ m) eqn:Ec; [done|]. cbn [rbind] in Ef. apply IH in Ef as (H1 & H2 & H3). clear IH.
  assert (Hn : ~ In (ping_address r) (BMap.keys m)) by (apply BMap.get_None; unfold BMap.contains_key in Ec; by destruct (BMap.get _ m)).
  split_and!; [by constructor| |].
  - cbn [map]. constructor; [|done]. intros (r' & E & Hin)%list_elem_of_In%List.in_map_iff. apply (H3 r' Hin). rewrite BMap.In_keys_insert. by left.
  - intros r' [<-|Hin]; [done|]. intros Hk. apply (H3 r' Hin). rewrite BMap.In_keys_insert. by right.
Qed.

(** C8: the program that starts a graph is exact: what the control kernel decodes is
    the reset when one is due, then for each runtime parameter the words of its scalar
    from its address on, then the number of iterations into each distinct iteration
    register in order, then the enable; it fits the buffer of the kernel, and no
    parameter starts at the register of another or of an iteration. *)
Theorem start_program_exact graph values reset bytes :
  Forall in_u32 (iteration_addresses graph) -> (forall i v, BMap.get i values = Some v -> Forall is_byte v) ->
  start_program graph values reset = Ok bytes ->
  exists parameters addresses,
    Forall2 (fun rtp ws => exists value, BMap.get (rtp_arg rtp) values = Some value /\ ws = value_writes (ping_address rtp) (resize (Z.to_nat (rtp_bytes rtp)) value)) (rtps graph) parameters /\
    StronglySorted klt addresses /\ addresses <> [] /\ (forall a, In a addresses <-> In a (iteration_addresses graph)) /\
    NoDup (map ping_address (rtps graph)) /\ (forall rtp, In rtp (rtps graph) -> ~ In (ping_address rtp) addresses) /\
    let writes := (if reset then [(CORE_CONTROL, CORE_DISABLE)] else []) ++ concat parameters ++
      map (fun a => (a, if run_forever graph then U32_MAX else 1)) addresses ++ [(CORE_CONTROL, CORE_ENABLE)] in
    decode bytes = Some writes /\ (length writes <= 512)%nat.
Proof.
  intros Hi Hv. unfold start_program. destruct (validate_memory_map graph) as [addresses|e|] eqn:Em; [|done|done]. apply validate_map_ok in Em as (Ea & Hne & _ & Hnd & Hdis). cbn [rbind].
  destruct (try_map _ _) as [parameters|e|] eqn:Et; [|done|done]. cbn [rbind]. intros He. apply try_map_Forall2 in Et.
  assert (Hp : Forall2 (fun rtp ws => exists value, BMap.get (rtp_arg rtp) values = Some value /\ ws = value_writes (ping_address rtp) (resize (Z.to_nat (rtp_bytes rtp)) value)) (rtps graph) parameters /\ Forall (Forall word_write) parameters).
  { clear -Et Hv. induction Et as [|rtp ws l l' Hw _ [IH1 IH2]]; [by split|]. apply rtp_writes_exact in Hw as (value & Hg & -> & Hw); [|done]. split; constructor; try done. by exists value. }
  destruct Hp as [Hp Hw]. exists parameters, addresses. split; [done|]. split; [rewrite Ea; apply BMap.wf_from_list|]. split; [done|]. assert (Hin : forall a, In a addresses <-> In a (iteration_addresses graph)) by (intros a; rewrite Ea; apply address_set_spec).
  split; [done|]. split; [done|]. split; [done|]. cbv zeta. apply encode_decodes in He as [Hd Hl]; [split; [done|unfold MAX_PROGRAM_WORDS in Hl; lia]|].
  apply Forall_app. split; [by destruct reset; repeat constructor|]. apply Forall_app. split; [by apply Forall_concat|]. apply Forall_app. split; [|by repeat constructor].
  apply Forall_map, Forall_forall. intros a Ha%list_elem_of_In%Hin. rewrite List.Forall_forall in Hi. split; [by apply Hi|]. cbn. by destruct (run_forever graph).
Qed.

(** * Handles *)

Inductive Kind := KDevice | KKernel | KRun | KBuffer | KGraph.
Definition handle : Type := Kind * Z.

(** What a call hands out, and what it takes back. *)
Definition creates (c : ApiCall) : option Kind :=
  match c with
  | DeviceOpen _ | DeviceOpenByBdf _ => Some KDevice
  | KernelOpen _ _ _ => Some KKernel
  | RunOpen _ => Some KRun
  | BoAlloc _ _ _ | BoAllocUserPtr _ _ _ _ => Some KBuffer
  | GraphOpen _ _ _ => Some KGraph
  | _ => None
  end.

Definition closes (c : ApiCall) : option handle :=
  match c with
  | DeviceClose h => Some (KDevice, h)
  | KernelClose h => Some (KKernel, h)
  | RunClose h => Some (KRun, h)
  | BoFree h => Some (KBuffer, h)
  | GraphClose h => Some (KGraph, h)
  | _ => None
  end.

Definition nonnull (k : Kind) (h : Z) : list handle := if h =? 0 then [] else [(k, h)].
Definition pl_handles (p : PlControl) : list handle := nonnull KRun (pc_run p) ++ nonnull KKernel (pc_kernel p).
Definition graph_handles (graph : option Graph) : list handle :=
  match graph with
  | Some g => nonnull KGraph (g_handle g) ++ match g_pl_control g with Some p => pl_handles p | None => [] end
  | None => []
  end.
Definition buffer_handles (m : bmap Z BufferBinding) : list handle := map (fun x => (KBuffer, bb_bo x.2)) m.

(** The handles a device has, children before parents. *)
Definition handles (d : XrtDevice) : list handle :=
  graph_handles (xd_graph d) ++ nonnull KRun (xd_run d) ++ buffer_handles (xd_buffers d) ++ nonnull KKernel (xd_kernel d) ++ [(KDevice, xd_device d)].

Definition close_call (h : handle) : ApiCall :=
  match h.1 with KDevice => DeviceClose h.2 | KKernel => KernelClose h.2 | KRun => RunClose h.2 | KBuffer => BoFree h.2 | KGraph => GraphClose h.2 end.

Definition given_back (h : history) : list handle := omap (fun e => match e with XrtApi c => closes c | _ => None end) h.

Section handles.
Context `{HE : Env}.

(** The handles XRT has handed out along a history that continues [pre]. *)
Definition event_gives (e : Event) : answer e -> list handle :=
  match e as e return answer e -> list handle with
  | XrtApi c => fun a => match creates c with Some k => nonnull k a.1 | None => [] end
  | _ => fun _ => []
  end.
Fixpoint given_from (pre h : history) : list handle :=
  match h with
  | [] => []
  | e :: h' => event_gives e (respond e pre) ++ given_from (pre ++ [e]) h'
  end.
Definition given (h : history) : list handle := given_from [] h.

Lemma given_from_app pre h1 h2 : given_from pre (h1 ++ h2) = given_from pre h1 ++ given_from (pre ++ h1) h2.
Proof using Type. revert pre. induction h1 as [|e h1 IH]; intros pre; cbn [given_from app]; [by rewrite List.app_nil_r|]. by rewrite IH, <- !app_assoc. Qed.

Lemma given_step h e : given (h ++ [e]) = given h ++ event_gives e (respond e h).
Proof using Type. unfold given. rewrite given_from_app. cbn [given_from app]. by rewrite List.app_nil_r. Qed.

Lemma given_back_app h1 h2 : given_back (h1 ++ h2) = given_back h1 ++ given_back h2.
Proof using Type. apply omap_app. Qed.

(** What is out after a history: [x], with what was given back. *)
Definition out (x : list handle) (h : history) : Prop := given h ≡ₚ given_back h ++ x.

Lemma out_perm x y h : x ≡ₚ y -> out x h -> out y h.
Proof using Type. intros E. unfold out. by rewrite E. Qed.

#[export] Instance out_proper : Proper ((≡ₚ) ==> eq ==> iff) out.
Proof using Type. intros x y E h _ <-. split; by apply out_perm. Qed.

Definition quiet (e : Event) : bool := match e with XrtApi c => match creates c, closes c with None, None => true | _, _ => false end | _ => true end.

Lemma out_quiet x h e : quiet e = true -> out x h -> out x (h ++ [e]).
Proof using Type.
  unfold out. intros Hq Ho. rewrite given_step, given_back_app. assert (event_gives e (respond e h) = []) as -> by (destruct e; try done; cbn in *; by destruct (creates call)).
  assert (given_back [e] = []) as -> by (destruct e; try done; cbn in *; destruct (creates call); [done|by destruct (closes call)]). by rewrite !List.app_nil_r.
Qed.

Lemma out_close x h c r : closes c = Some r -> out (r :: x) h -> out x (h ++ [XrtApi c]).
Proof using Type.
  intros Hc Ho. unfold out in *. rewrite given_step, given_back_app. cbn. rewrite Hc. assert (creates c = None) as -> by (by destruct c).
  rewrite List.app_nil_r, <- app_assoc. exact Ho.
Qed.

Lemma out_open x h c k : creates c = Some k -> out x h -> out (nonnull k (respond (XrtApi c) h).1 ++ x) (h ++ [XrtApi c]).
Proof using Type.
  intros Hc Ho. unfold out in *. rewrite given_step, given_back_app. cbn. rewrite Hc. assert (closes c = None) as -> by (by destruct c). cbn.
  rewrite Ho, List.app_nil_r, <- app_assoc. f_equiv. apply Permutation_app_comm.
Qed.

(** *** Calls *)

Lemma handle_call_spec {D} c k action x (d : D) h : creates c = Some k -> out x h ->
  let '(r, (d', h')) := handle_call c action (d, h) in d' = d /\ match r with Ok v => v <> 0 /\ out ((k, v) :: x) h' | Err _ => out x h' | Panic => False end.
Proof using Type.
  intros Hc Ho. pose proof (out_open x h c k Hc Ho) as H1. unfold handle_call, api_call, io_bind, ask, io_ret, io_lift. cbn [fst snd].
  destruct (respond (XrtApi c) h) as [v bs]. cbn [fst] in *. unfold non_null, nonnull in *. destruct (Z.eqb_spec v 0); by split.
Qed.

Lemma api_do_spec {D} c (d : D) h : api_do c (d, h) = (Ok tt, (d, h ++ [XrtApi c])).
Proof using Type. done. Qed.

Lemma optional_close {D} k v x (d : D) h : out (nonnull k v ++ x) h ->
  exists t, (if v =? 0 then io_ret tt else api_do (close_call (k, v))) (d, h) = (Ok tt, (d, h ++ t)) /\ t = map (fun r => XrtApi (close_call r)) (nonnull k v) /\ out x (h ++ t).
Proof using Type.
  unfold nonnull. destruct (v =? 0); intros Ho; [exists []; by rewrite List.app_nil_r|]. eexists. split; [apply api_do_spec|]. split; [done|]. eapply out_close; [|exact Ho]. by destruct k.
Qed.
End handles.

Definition closing (l : list handle) : history := map (fun r => XrtApi (close_call r)) l.

Lemma closing_app l1 l2 : closing (l1 ++ l2) = closing l1 ++ closing l2.
Proof. apply map_app. Qed.

Section release.
Context `{HE : Env} `{HO : HashOrder} `{HL : XrtLibraries} `{HT : !CosimText}.

Lemma bind_step {D A B} (m : io D A) (k : A -> io D B) s a s' : m s = (Ok a, s') -> io_bind m k s = k a s'.
Proof using Type. unfold io_bind. by intros ->. Qed.

(** [m] only gives [l] back, in that order. *)
Definition releases (l : list handle) (m : io XrtDevice unit) : Prop :=
  forall x d h, out (l ++ x) h -> m (d, h) = (Ok tt, (d, h ++ closing l)) /\ out x (h ++ closing l).

Lemma releases_ret : releases [] (io_ret tt).
Proof using Type. intros x d h Ho. cbn. rewrite List.app_nil_r. by split. Qed.

Lemma releases_one r c : close_call r = c -> releases [r] (api_do c).
Proof using Type. intros <- x d h Ho. split; [done|]. eapply out_close; [|exact Ho]. by destruct r as [[] ?]. Qed.

Lemma releases_nonnull k v c : close_call (k, v) = c -> releases (nonnull k v) (if v =? 0 then io_ret tt else api_do c).
Proof using Type. unfold nonnull. destruct (v =? 0); intros Hc; [apply releases_ret|by apply releases_one]. Qed.

Lemma releases_bind l1 l2 m k : releases l1 m -> releases l2 k -> releases (l1 ++ l2) (do! _ := m in k).
Proof using Type.
  intros Hm Hk x d h Ho. rewrite <- app_assoc in Ho. apply (Hm _ d) in Ho as [E Ho]. apply (Hk _ d) in Ho as [E2 Ho]. unfold io_bind. rewrite E. rewrite closing_app. rewrite <- app_assoc in E2, Ho. by split.
Qed.

Lemma releases_pl p : releases (pl_handles p) (pl_drop p).
Proof using Type. apply releases_bind; by apply releases_nonnull. Qed.

Lemma releases_graph g : releases (graph_handles g) (drop_graph g).
Proof using Type.
  destruct g as [g|]; [|apply releases_ret]. apply releases_bind; [by apply releases_nonnull|]. destruct (g_pl_control g); [apply releases_pl|apply releases_ret].
Qed.

Lemma releases_buffers (m : list (Z * BufferBinding)) : releases (buffer_handles m) (io_each (fun x => api_do (BoFree (bb_bo x.2))) m).
Proof using Type.
  induction m as [|x m IH]; [apply releases_ret|]. cbn [io_each]. change (buffer_handles (x :: m)) with ([(KBuffer, bb_bo x.2)] ++ buffer_handles m). apply releases_bind; [by apply releases_one|exact IH].
Qed.

Lemma releases_perm l1 l2 l3 x h : l1 ≡ₚ l2 -> out (l1 ++ l3 ++ x) h -> out (l2 ++ l3 ++ x) h.
Proof using Type. intros E. apply out_perm. by rewrite E. Qed.

(** The handles of a device, its buffers in some order. *)
Definition handles_in (m : list (Z * BufferBinding)) (d : XrtDevice) : list handle :=
  graph_handles (xd_graph d) ++ nonnull KRun (xd_run d) ++ buffer_handles m ++ nonnull KKernel (xd_kernel d) ++ [(KDevice, xd_device d)].

(** Dropping a device gives back what it has, and nothing else. *)
Lemma drop_releases x d h : out (handles d ++ x) h -> exists m, m ≡ₚ xd_buffers d /\
  xrt_drop (d, h) = (Ok tt, (d, h ++ closing (handles_in m d))) /\ out x (h ++ closing (handles_in m d)).
Proof using Type.
  intros Ho. set (h1 := h ++ closing (graph_handles (xd_graph d)) ++ closing (nonnull KRun (xd_run d))). set (m := hash_iter h1 (xd_buffers d)). exists m.
  assert (Hm : m ≡ₚ xd_buffers d) by apply hash_iter_perm. split; [done|].
  assert (Ho' : out (handles_in m d ++ x) h).
  { revert Ho. apply out_perm. unfold handles, handles_in. assert (buffer_handles m ≡ₚ buffer_handles (xd_buffers d)) as -> by (unfold buffer_handles; by apply Permutation_map). done. }
  assert (Er : xrt_drop (d, h) = (do! _ := drop_graph (xd_graph d) in do! _ := (if xd_run d =? 0 then io_ret tt else api_do (RunClose (xd_run d))) in
     do! _ := io_each (fun x => api_do (BoFree (bb_bo x.2))) m in do! _ := (if xd_kernel d =? 0 then io_ret tt else api_do (KernelClose (xd_kernel d))) in api_do (DeviceClose (xd_device d))) (d, h)).
  { unfold handles in Ho. rewrite <- !app_assoc in Ho. apply (releases_graph _ _ d) in Ho as [E1 Ho].
    apply (releases_nonnull _ _ _ eq_refl _ d) in Ho as [E2 _]. cbn [close_call fst snd] in E2. rewrite <- app_assoc in E2.
    etrans; [apply (bind_step _ _ _ d); done|]. etrans; [apply (bind_step _ _ _ _ _ E1)|]. etrans; [apply (bind_step _ _ _ _ _ E2)|]. symmetry.
    etrans; [apply (bind_step _ _ _ _ _ E1)|]. etrans; [apply (bind_step _ _ _ _ _ E2)|]. done. }
  rewrite Er. refine ((_ : releases (handles_in m d) _) x d h Ho'). unfold handles_in.
  repeat first [ apply releases_bind | apply releases_graph | apply releases_buffers | by apply releases_nonnull | by apply releases_one ].
Qed.
End release.

(** * What operations owe

    A device owes what is out: its handles, and those [x] an operation holds for
    itself.  An operation is safe when it owes the same afterwards, however it
    ends. *)
Section owes.
Context `{HE : Env} `{HO : HashOrder} `{HL : XrtLibraries} `{HT : !CosimText}.

Definition owes (x : list handle) (s : XrtDevice * history) : Prop := BMap.wf (xd_buffers s.1) /\ out (x ++ handles s.1) s.2.
Definition safe {A} (m : io XrtDevice A) : Prop := forall x s, owes x s -> owes x (m s).2.

Lemma safe_ret {A} (a : A) : safe (io_ret a).
Proof using Type. by intros x s. Qed.
Lemma safe_lift {A} (r : res FrtError A) : safe (io_lift r).
Proof using Type. by intros x s. Qed.
Lemma safe_get : safe io_get.
Proof using Type. by intros x s. Qed.
Lemma safe_ask e : quiet e = true -> safe (ask e).
Proof using Type. intros Hq x [d h] [Hw Ho]. split; [done|]. by apply out_quiet. Qed.
Lemma safe_tell e : quiet e = true -> safe (tell e).
Proof using Type. intros Hq x [d h] [Hw Ho]. split; [done|]. by apply out_quiet. Qed.
Lemma safe_modify f : (forall d, handles (f d) = handles d /\ xd_buffers (f d) = xd_buffers d) -> safe (io_modify f).
Proof using Type. intros Hf x [d h] Hs. destruct (Hf d) as [H1 H2]. unfold owes in *. cbn [io_modify fst snd] in *. by rewrite H1, H2. Qed.
Lemma safe_bind {A B} (m : io XrtDevice A) (k : A -> io XrtDevice B) : safe m -> (forall a, safe (k a)) -> safe (io_bind m k).
Proof using Type. intros Hm Hk x s Hs. specialize (Hm x s Hs). unfold io_bind. destruct (m s) as [[a|e|] s']; [by apply Hk|done|done]. Qed.
(** The state is known in what follows. *)
Lemma safe_each {A} (f : A -> io XrtDevice unit) l : (forall a, safe (f a)) -> safe (io_each f l).
Proof using Type. intros Hf. induction l as [|a l IH]; [apply safe_ret|]. by apply safe_bind. Qed.
Lemma safe_buffers f : (forall b, safe (f b)) -> safe (each_buffer f).
Proof using Type. intros Hf x s. unfold each_buffer. by apply safe_each. Qed.
Lemma safe_on_error {A} (m : io XrtDevice A) r : safe m -> safe r -> safe (on_error m r).
Proof using Type.
  intros Hm Hr x s Hs. specialize (Hm x s Hs). unfold on_error. destruct (m s) as [[a|e|] s']; [done| |done]. by apply safe_bind; [|intros; apply safe_lift|].
Qed.
Lemma safe_api_call c : quiet (XrtApi c) = true -> safe (api_call c).
Proof using Type. intros Hq. unfold api_call. apply safe_bind; [by apply safe_ask|intros; apply safe_ret]. Qed.
Lemma safe_checked c action : quiet (XrtApi c) = true -> safe (checked_call c action).
Proof using Type. intros Hq. unfold checked_call. apply safe_bind; [by apply safe_api_call|intros; apply safe_lift]. Qed.
Lemma safe_elapsed started : safe (elapsed_ns started).
Proof using Type. unfold elapsed_ns. apply safe_bind; [by apply safe_ask|intros; apply safe_ret]. Qed.
End owes.

Create HintDb xrt discriminated.
#[export] Hint Resolve safe_ret safe_lift safe_get safe_elapsed : xrt.

Ltac safe_tac :=
  repeat first
    [ progress intros
    | match goal with
      | |- safe (io_bind _ _) => apply safe_bind
      | |- safe (io_each _ _) => apply safe_each
      | |- safe (each_buffer _) => apply safe_buffers
      | |- safe (on_error _ _) => apply safe_on_error
      | |- safe (ask _) => apply safe_ask; reflexivity
      | |- safe (tell _) => apply safe_tell; reflexivity
      | |- safe (api_call _) => apply safe_api_call; reflexivity
      | |- safe (checked_call _ _) => apply safe_checked; reflexivity
      | |- safe (io_modify _) => apply safe_modify
      end
    | solve [eauto 2 with xrt]
    | match goal with |- safe (match ?x with _ => _ end) => destruct x end
    | done ].

Section operations.
Context `{HE : Env} `{HO : HashOrder} `{HL : XrtLibraries} `{HT : !CosimText}.

Lemma safe_run_commands p bo commands : safe (run_commands p bo commands).
Proof using Type. unfold run_commands. safe_tac. Qed.

(** A buffer held for the time of an operation is given back however that ends. *)
Lemma safe_pl_execute p commands : safe (pl_execute p commands).
Proof using Type.
  unfold pl_execute. destruct commands as [|b bs]; [safe_tac|]. set (commands := b :: bs). apply safe_bind; [by apply safe_api_call|]. intros g0. apply safe_bind; [safe_tac|]. intros group x [d h] [Hw Ho].
  pose proof (handle_call_spec (BoAlloc (pc_device p) (Z.of_nat (length commands)) group) KBuffer "allocate the AIE PL command buffer" _ d h eq_refl Ho) as Hc.
  unfold io_bind. destruct (handle_call _ _ (d, h)) as [r [d1 h1]] in Hc |- *. destruct Hc as [-> Hc]. destruct r as [bo|e|]; [|by split|done]. destruct Hc as [_ Hb].
  unfold io_finally. pose proof (safe_run_commands p bo commands ((KBuffer, bo) :: x) (d, h1) (conj Hw Hb)) as [Hw2 Ho2]. destruct (run_commands p bo commands (d, h1)) as [r2 [d2 h2]]. cbn [snd fst] in *.
  split; [done|]. eapply out_close; [|exact Ho2]. done.
Qed.
Hint Resolve safe_pl_execute : xrt.

Lemma handles_mark_run d : handles (mark_run d) = handles d /\ xd_buffers (mark_run d) = xd_buffers d.
Proof using Type. unfold handles, mark_run. cbn. by destruct (xd_graph d). Qed.
Hint Resolve handles_mark_run : xrt.

Lemma safe_start_graph values : safe (start_graph values).
Proof using Type. unfold start_graph, update_rtp. safe_tac. all: apply handles_mark_run. Qed.
Lemma safe_stop_graph : safe stop_graph.
Proof using Type. unfold stop_graph. safe_tac. Qed.
Lemma safe_abort_graph : safe abort_graph.
Proof using Type. unfold abort_graph. safe_tac. Qed.
Hint Resolve safe_start_graph safe_stop_graph safe_abort_graph : xrt.

Lemma safe_write : safe xrt_write_to_device.
Proof using Type. unfold xrt_write_to_device, upload. safe_tac. Qed.
Lemma safe_finish : safe xrt_finish.
Proof using Type. unfold xrt_finish, finish_running. safe_tac. Qed.
Hint Resolve safe_finish : xrt.
Lemma safe_read : safe xrt_read_from_device.
Proof using Type. unfold xrt_read_from_device, download. safe_tac. Qed.
Lemma safe_bind_args values args : safe (bind_args values args).
Proof using Type.
  revert values. induction args as [|a args IH]; intros values; cbn [bind_args]; [apply safe_ret|]. apply safe_bind; [|apply IH]. unfold bind_arg. safe_tac.
Qed.
Hint Resolve safe_bind_args : xrt.
Lemma safe_exec : safe xrt_exec.
Proof using Type. unfold xrt_exec. safe_tac. Qed.
Lemma safe_is_finished : safe xrt_is_finished.
Proof using Type. unfold xrt_is_finished, finish_running. safe_tac. Qed.
Lemma safe_kill : safe xrt_kill.
Proof using Type. unfold xrt_kill. safe_tac. Qed.
End operations.

(** * Opening, binding, and the life of a device *)

Section life.
Context `{HE : Env} `{HO : HashOrder} `{HL : XrtLibraries} `{HT : !CosimText}.

Lemma owes_out x s : owes x s -> out (x ++ handles s.1) s.2.
Proof using Type. by intros [_ Ho]. Qed.

(** A call that hands out what the operation then holds. *)
Lemma safe_handle_call {A} c k action (f : Z -> io XrtDevice A) x s : creates c = Some k -> owes x s ->
  (forall v h, v <> 0 -> owes ((k, v) :: x) (s.1, h) -> owes x (f v (s.1, h)).2) -> owes x (io_bind (handle_call c action) f s).2.
Proof using Type.
  intros Hc [Hw Ho] Hf. destruct s as [d h]. pose proof (handle_call_spec c k action _ d h Hc Ho) as Hr. unfold io_bind. destruct (handle_call c action (d, h)) as [r [d1 h1]] in Hr |- *.
  destruct Hr as [-> Hr]. destruct r as [v|e|]; [|by split|done]. destruct Hr as [Hv Hr]. by apply Hf.
Qed.

(** *** Binding a buffer *)

Lemma perm_between {A} (r : A) (m o m' p q : list A) : r :: m ≡ₚ o ++ m' -> r :: p ++ m ++ q ≡ₚ o ++ p ++ m' ++ q.
Proof using Type. intros E. rewrite Permutation_middle. change (r :: m ++ q) with ((r :: m) ++ q). rewrite E, !app_assoc. by rewrite (Permutation_app_comm p o). Qed.

Lemma out_swap_head r x l h : out ((r :: x) ++ l) h <-> out (x ++ r :: l) h.
Proof using Type. assert (E : (r :: x) ++ l ≡ₚ x ++ r :: l) by apply Permutation_middle. split; by apply out_perm. Qed.

Lemma handles_bind i b d : BMap.wf (xd_buffers d) ->
  (KBuffer, bb_bo b) :: handles d ≡ₚ
  match BMap.get i (xd_buffers d) with Some o => [(KBuffer, bb_bo o)] | None => [] end ++ handles (xrt_set_args (xd_scalars d) (BMap.insert i b (xd_buffers d)) d).
Proof using Type.
  intros Hw. unfold handles. cbn [xd_graph xd_run xd_buffers xd_kernel xd_device xrt_set_args].
  assert (E : (KBuffer, bb_bo b) :: buffer_handles (xd_buffers d) ≡ₚ
    match BMap.get i (xd_buffers d) with Some o => [(KBuffer, bb_bo o)] | None => [] end ++ buffer_handles (BMap.insert i b (xd_buffers d))).
  { revert Hw. generalize (xd_buffers d). intros m. induction m as [|[k v] m IH]; intros Hw; [done|]. apply BMap.wf_cons in Hw as [Hw Hk]. specialize (IH Hw).
    cbn [BMap.insert BMap.get]. destruct (kcmp i k) eqn:Ek; cbn.
    - constructor.
    - assert (BMap.get i m = None) as ->; [|done]. apply BMap.get_None. intros Hin. rewrite List.Forall_forall in Hk. apply (klt_irrefl i). transitivity k; [done|by apply Hk].
    - etrans; [apply Permutation_swap|]. change (buffer_handles ((k, v) :: BMap.insert i b m)) with ((KBuffer, bb_bo v) :: buffer_handles (BMap.insert i b m)). rewrite <- Permutation_middle. by constructor. }
  rewrite !(app_assoc (graph_handles _)). by apply perm_between.
Qed.

Lemma safe_set_buffer index ptr bytes access : safe (xrt_set_buffer_arg index ptr bytes access).
Proof using Type.
  intros x s Hs. unfold xrt_set_buffer_arg, io_bind at 1, io_get. destruct s as [d h]. cbn [fst snd]. destruct (bytes =? 0); [done|]. destruct (ptr =? 0); [done|].
  revert x d h Hs.
  assert (Hbind : forall group arg x d h, owes x (d, h) -> owes x ((
    do! bo := handle_call (if negb (ptr mod USER_PTR_ALIGNMENT =? 0) then BoAlloc (xd_device d) bytes group else BoAllocUserPtr (xd_device d) ptr bytes group)
      ("allocate the buffer of argument " +:+ Str.show index) in
    do! _ := on_error (checked_call (RunSetArg (xd_run d) arg (VaHandle bo)) ("bind argument " +:+ Str.show index)) (api_do (BoFree bo)) in
    do! _ := io_modify (fun d => xrt_set_args (xd_scalars d) (BMap.insert index (mkBufferBinding ptr bytes access bo (negb (ptr mod USER_PTR_ALIGNMENT =? 0))) (xd_buffers d)) d) in
    match BMap.get index (xd_buffers d) with Some old => api_do (BoFree (bb_bo old)) | None => io_ret tt end) (d, h)).2).
  { intros group arg x d h Hs. apply (safe_handle_call _ KBuffer); [by destruct (negb _)|done|]. cbn [fst]. intros bo h1 _ Hs1.
    pose proof (safe_checked (RunSetArg (xd_run d) arg (VaHandle bo)) ("bind argument " +:+ Str.show index) eq_refl _ _ Hs1) as Hs2.
    unfold io_bind at 1, on_error. destruct (checked_call _ _ (d, h1)) as [r [d2 h2]] eqn:Ec.
    assert (d2 = d) as -> by (unfold checked_call, api_call, io_bind, ask, io_ret, io_lift in Ec; cbn in Ec; congruence). destruct r as [u|e|]; cbn [fst snd] in Hs2.
    - unfold io_bind, io_modify. cbn [fst snd]. destruct Hs2 as [Hw Ho]. cbn [fst snd] in Hw, Ho. apply out_swap_head in Ho. rewrite (handles_bind index (mkBufferBinding ptr bytes access bo (negb (ptr mod USER_PTR_ALIGNMENT =? 0))) d Hw) in Ho.
      destruct (BMap.get index (xd_buffers d)) as [old|]; (split; [by apply BMap.wf_insert|]); [|exact Ho].
      eapply (out_close _ _ _ (KBuffer, bb_bo old)); [done|]. cbn [app] in Ho. by rewrite <- Permutation_middle in Ho.
    - destruct Hs2 as [Hw Ho]. split; [done|]. eapply out_close; [|exact Ho]. done.
    - unfold checked_call, api_call, io_bind, ask, io_ret, io_lift, check in Ec. cbn in Ec. by destruct (_ =? 0). }
  intros x d h Hs. unfold io_bind at 1, io_lift. destruct (ok_or _ _) as [arg|e|]; [|done|done].
  pose proof (safe_api_call (KernelArgGroupId (xd_kernel d) arg) eq_refl _ _ Hs) as Hs1. unfold io_bind at 1. destruct (api_call _ (d, h)) as [r [d1 h1]] eqn:Ec.
  assert (r = Ok (respond (XrtApi (KernelArgGroupId (xd_kernel d) arg)) h).1 /\ d1 = d) as [-> ->] by (unfold api_call, io_bind, ask, io_ret in Ec; cbn in Ec; split; congruence).
  unfold io_bind at 1, io_lift. destruct (ok_or _ _) as [group|e|]; [|done|done]. by apply Hbind.
Qed.
(** *** Opening *)

Lemma owes_set_handles x d h k r g h' : owes x (d, h) -> out (x ++ handles (xrt_set_handles k r g d)) h' -> owes x (xrt_set_handles k r g d, h').
Proof using Type. intros [Hw _] Ho. by split. Qed.

Lemma nonnull_some k v : v <> 0 -> nonnull k v = [(k, v)].
Proof using Type. unfold nonnull. by destruct (Z.eqb_spec v 0). Qed.

(** The controller of a graph, with what it holds. *)
Lemma pl_open_spec device uuid x d h : owes x (d, h) ->
  let '(r, (d', h')) := pl_open device uuid (d, h) in d' = d /\ match r with Ok p => owes (pl_handles p ++ x) (d, h') | Err _ => owes x (d, h') | Panic => False end.
Proof using Type.
  intros [Hw Ho]. unfold pl_open, io_bind at 1. pose proof (handle_call_spec (KernelOpen device uuid KERNEL_NAME) KKernel "open the AIE PL control kernel" _ d h eq_refl Ho) as Hk.
  destruct (handle_call (KernelOpen _ _ _) _ (d, h)) as [r [d1 h1]] in Hk |- *. destruct Hk as [-> Hk]. destruct r as [k|e|]; [|by split|done]. destruct Hk as [Hk0 Hk].
  unfold io_bind at 1, on_error. pose proof (handle_call_spec (RunOpen k) KRun "create an AIE PL control run" _ d h1 eq_refl Hk) as Hr. destruct (handle_call (RunOpen k) _ (d, h1)) as [r [d2 h2]] in Hr |- *.
  destruct Hr as [-> Hr]. destruct r as [run|e|]; [| |done].
  - destruct Hr as [Hr0 Hr]. split; [done|]. split; [done|]. unfold pl_handles. cbn [pc_run pc_kernel]. by rewrite !nonnull_some.
  - assert (Hp : pl_handles (mkPlControl device k 0) = [(KKernel, k)]) by (unfold pl_handles; cbn; by rewrite nonnull_some).
    assert (Hq : out (pl_handles (mkPlControl device k 0) ++ x ++ handles d) h2) by (rewrite Hp; exact Hr). apply (releases_pl _ _ d) in Hq as [Ed Ho2]. unfold io_bind. rewrite Ed. cbn. by split.
Qed.

Lemma handles_graph g d : xd_graph d = None ->
  graph_handles (Some g) ++ handles d = handles (xrt_set_handles (xd_kernel d) (xd_run d) (Some g) d).
Proof using Type. intros Hg. unfold handles. cbn [xd_graph xd_run xd_kernel xd_buffers xd_device xrt_set_handles]. by rewrite Hg. Qed.

Lemma open_graph_owes uuid meta x d h : xd_graph d = None -> owes x (d, h) -> owes x (open_graph uuid meta (d, h)).2.
Proof using Type.
  intros Hg Hs. unfold open_graph, io_bind at 1, io_get. cbn [fst snd]. destruct (aie_pl_control (xd_meta d)).
  - unfold io_bind. pose proof (pl_open_spec (xd_device d) uuid x d h Hs) as Hp. destruct (pl_open _ _ (d, h)) as [r [d1 h1]] in Hp |- *. destruct Hp as [-> Hp]. destruct r as [p|e|]; [|done|done].
    cbn. eapply owes_set_handles; [exact Hs|]. rewrite <- (handles_graph _ d Hg). destruct Hp as [_ Ho]. cbn [fst snd] in Ho. revert Ho. apply out_perm. cbn [graph_handles g_handle g_pl_control]. change (nonnull KGraph 0) with (@nil handle). cbn [app].
    rewrite <- app_assoc, !(app_assoc _ _ (handles d)). f_equiv. apply Permutation_app_comm.
  - assert (Hl : forall name, owes x ((do! (hd, control) := (do! hd := handle_call (GraphOpen (xd_device d) uuid name) ("open the AI Engine graph `" +:+ ag_name meta +:+ "`") in io_ret (hd, None)) in
      io_modify (fun d => xrt_set_handles (xd_kernel d) (xd_run d) (Some (mkGraph hd control meta false)) d)) (d, h)).2).
    { intros name. destruct Hs as [Hw Ho]. unfold io_bind at 1 2. pose proof (handle_call_spec (GraphOpen (xd_device d) uuid name) KGraph ("open the AI Engine graph `" +:+ ag_name meta +:+ "`") _ d h eq_refl Ho) as Hc.
      destruct (handle_call _ _ (d, h)) as [r [d1 h1]] in Hc |- *. destruct Hc as [-> Hc]. destruct r as [v|e|]; [|by split|done]. destruct Hc as [Hv Hc]. cbn. split; [done|]. cbn [snd fst].
      rewrite <- (handles_graph _ d Hg). cbn [graph_handles g_handle g_pl_control]. rewrite nonnull_some, List.app_nil_r by done. revert Hc. apply out_perm. cbn [app]. apply Permutation_middle. }
    unfold io_bind at 2. unfold io_lift at 1. destruct (c_string _ _) as [name|e|]; [|done|done]. apply Hl.
Qed.

Lemma setup_owes xclbin meta device h : owes [] (candidate meta device, h) -> owes [] (xrt_setup xclbin (candidate meta device, h)).2.
Proof using Type.
  intros Hs. set (d0 := candidate meta device) in *. unfold xrt_setup, io_bind at 1, io_get. cbn [fst snd].
  pose proof (safe_ask (XrtApi (DeviceGetXclbinUuid (xd_device d0))) eq_refl _ _ Hs) as Hs1. unfold io_bind at 1, ask. cbn [fst snd].
  destruct (respond (XrtApi (DeviceGetXclbinUuid (xd_device d0))) h) as [rc uuid]. cbn [ask fst snd] in Hs1. unfold io_bind at 1, io_lift at 1. destruct (check rc _); [|done|done].
  unfold io_bind at 1, io_lift at 1. destruct (c_string _ _) as [name|e|]; [|done|done]. apply (safe_handle_call _ KKernel); [done|exact Hs1|]. cbn [fst]. intros kernel h1 Hk0 Hk.
  assert (Hs2 : owes [] (xrt_set_handles kernel 0 None d0, h1)).
  { eapply owes_set_handles; [exact Hs|]. destruct Hk as [_ Ho]. revert Ho. apply out_perm. unfold handles. cbn. by rewrite (nonnull_some KKernel). }
  unfold io_bind at 1, io_modify at 1. cbn [fst snd]. apply (safe_handle_call _ KRun); [done|exact Hs2|]. cbn [fst]. intros run h2 Hr0 Hr.
  assert (Hs3 : owes [] (xrt_set_handles kernel run None (xrt_set_handles kernel 0 None d0), h2)).
  { eapply owes_set_handles; [exact Hs2|]. destruct Hr as [_ Ho]. revert Ho. apply out_perm. unfold handles. cbn. by rewrite (nonnull_some KRun). }
  unfold io_bind at 1, io_modify at 1. cbn [fst snd]. unfold io_bind at 1, io_lift at 1. destruct (parse_aie_graph xclbin) as [[g|]|e|]; try exact Hs3. by apply open_graph_owes.
Qed.
(** *** Nothing panics while a device is opened *)

Lemma check_fine rc action : check rc action <> Panic.
Proof using Type. unfold check. by destruct (rc =? 0). Qed.
Lemma non_null_fine h action : non_null h action <> Panic.
Proof using Type. unfold non_null. by destruct (h =? 0). Qed.
Lemma c_string_fine v w : c_string v w <> Panic.
Proof using Type. unfold c_string. by destruct (nul_position 0 v). Qed.
Lemma of_sum_fine {E A} (r : E + A) : of_sum r <> Panic.
Proof using Type. by destruct r. Qed.

Lemma aie_u32_fine v field : aie_u32 v field <> Panic.
Proof using Type. apply ok_or_fine. Qed.

Lemma parse_rtp_fine prefix rtp : parse_rtp prefix rtp <> Panic.
Proof using Type.
  unfold parse_rtp. destruct (match as_str _ with Some _ => _ | None => None end) as [[alias rest]|]; [|done]. destruct (Str.parse_u32 _); [|done]. destruct (aie_u64 _); [|done].
  apply rbind_fine; [apply aie_u32_fine|]. intros ping _. apply rbind_fine; [apply aie_u32_fine|done].
Qed.

Lemma parse_aie_graph_fine xclbin : parse_aie_graph xclbin <> Panic.
Proof using Type.
  unfold parse_aie_graph. destruct (xclbin_section _ _); [|done]. destruct (json_from_slice _) as [e|json]; [done|]. unfold graph_of_metadata. destruct (List.find is_tapa_graph _) as [graph|] eqn:Ef; [|done].
  apply List.find_some in Ef as [_ Hg]. unfold is_tapa_graph in Hg. destruct (as_str _) as [name|]; [|done]. cbn [expect rbind].
  apply rbind_fine; [apply try_map_fine; intros; apply aie_u32_fine|]. intros addresses _. apply rbind_fine; [apply try_map_fine, parse_rtp_fine|done].
Qed.
Lemma embedded_xml_fine xclbin : extract_embedded_xml xclbin <> Panic.
Proof using Type.
  unfold extract_embedded_xml. destruct (bool_decide _); [done|]. apply rbind_fine; [apply ok_or_fine|]. intros section _. destruct (utf8_error _ _ _); [done|]. by destruct (Str.contains _ _).
Qed.
Hint Resolve check_fine non_null_fine c_string_fine of_sum_fine parse_aie_graph_fine embedded_xml_fine : core.

Lemma handle_call_fine {D} c action : no_panic (@handle_call _ D c action).
Proof using Type. unfold handle_call, api_call. no_panic_tac. Qed.
Hint Resolve handle_call_fine : core.

Lemma pl_open_fine device uuid : no_panic (pl_open device uuid).
Proof using Type.
  unfold pl_open. apply io_no_panic_bind; [done|]. intros k. apply io_no_panic_bind; [|done]. intros s. unfold on_error. pose proof (handle_call_fine (RunOpen k) "create an AIE PL control run" s) as Hn.
  destruct (handle_call _ _ s) as [[v|e|] s1]; [done| |done]. refine (io_no_panic_bind _ _ _ _ s1); [|done]. unfold pl_drop, api_do, api_call. no_panic_tac.
Qed.

Lemma setup_fine xclbin : no_panic (xrt_setup xclbin).
Proof using Type.
  unfold xrt_setup, open_graph. no_panic_tac; try done. all: apply pl_open_fine.
Qed.
(** *** The device that is found *)

Lemma out_quiet_app x h t : Forall (fun e => quiet e = true) t -> out x h -> out x (h ++ t).
Proof using Type.
  intros Ht. revert h. induction Ht as [|e t He Ht IH]; intros h Ho; [by rewrite List.app_nil_r|]. replace (h ++ e :: t) with ((h ++ [e]) ++ t) by by rewrite <- app_assoc. by apply IH, out_quiet.
Qed.

Lemma prepare_open_spec path h : out [] h -> let '(r, (_, h')) := prepare_open path (tt, h) in r <> Panic /\ out [] h'.
Proof using Type.
  intros Ho. destruct (prepare_open path (tt, h)) as [r [u h']] eqn:E. split.
  - assert (Hn : no_panic (prepare_open path)).
    { assert (Hl : forall (f : history -> FrtError + unit), no_panic (fun s : unit * history => io_lift (of_sum (f s.2)) s)) by (intros f s; apply of_sum_fine).
      unfold prepare_open, env_non_empty. no_panic_tac.
      all: first [done|apply Hl|by destruct a as [?|?]|by apply map_err_fine, parse_fine|by destruct a5; [apply rbind_fine|]]. }
    intros ->. apply (Hn (tt, h)). by rewrite E.
  - assert (He : emits (fun _ : unit => True) (fun e => quiet e = true) (prepare_open path)).
    { assert (Hl : forall (f : history -> FrtError + unit), emits (fun _ : unit => True) (fun e => quiet e = true) (fun s : unit * history => io_lift (of_sum (f s.2)) s)) by (intros f; apply emits_nothing; intros d h1 _; by exists (of_sum (f h1)), d).
      unfold prepare_open, env_non_empty. emits_tac; try done; try apply Hl. }
    apply He in E as (_ & t & -> & Ht); [|done]. by apply out_quiet_app.
Qed.

(** Candidates that refuse the xclbin are given back, and 64 of them are enough. *)
Lemma load_device_spec fuel meta bdf path index h : out [] h -> 64 <= index + Z.of_nat fuel -> (1 <= fuel)%nat ->
  let '(r, h') := load_device fuel meta bdf path index h in
  match r with Ok d => owes [] (d, h') /\ (exists device, d = candidate meta device) | Err _ => out [] h' | Panic => False end.
Proof using Type.
  revert index h. induction fuel as [|fuel IH]; intros index h Ho Hi Hf; [lia|]. cbn [load_device].
  set (c := match bdf with Some b => DeviceOpenByBdf b | None => DeviceOpen index end). assert (Hc : creates c = Some KDevice) by (by unfold c; destruct bdf).
  pose proof (handle_call_spec c KDevice "open a device" [] tt h Hc Ho) as Ho1. destruct (handle_call c _ (tt, h)) as [r [[] h1]]. destruct Ho1 as [_ Ho1]. destruct r as [device|e|]; [|done|done]. destruct Ho1 as [_ Ho1].
  set (this := candidate meta device). assert (Hs : owes [] (this, h1)) by (split; [apply BMap.wf_nil|exact Ho1]).
  pose proof (safe_api_call (DeviceLoadXclbinFile device path) eq_refl _ _ Hs) as Hs1. unfold api_call, io_bind, ask, io_ret in Hs1 |- *. cbn [fst snd] in Hs1 |- *. set (h2 := h1 ++ _) in *.
  destruct (_ =? 0); [split; [done|by exists device]|]. destruct Hs1 as [_ Ho2]. cbn [app fst snd] in Ho2. rewrite <- (List.app_nil_r (handles this)) in Ho2.
  destruct (drop_releases [] this h2 Ho2) as (m & _ & Ed & Ho3). cbv zeta. set (h3 := snd (snd (xrt_drop _))). assert (Eh : out [] h3) by (assert (h3 = h2 ++ closing (handles_in m this)) as -> by exact (f_equal (fun r => r.2.2) Ed); exact Ho3). destruct bdf as [b|]; [done|]. destruct (Z.leb_spec 64 (index + 1)); [done|]. apply IH; [done|lia|lia].
Qed.

(** ** The operations a device goes through *)

Inductive XrtOp :=
| XrtScalar (index : Z) (value : list Z)
| XrtBuffer (index ptr bytes : Z) (access : BufferAccess)
| XrtStream (index : Z)
| XrtWrite | XrtExec | XrtIsFinished | XrtFinish | XrtRead | XrtKill.

Definition run_xrt_op (s : XrtDevice * history) (o : XrtOp) : XrtDevice * history :=
  match o with
  | XrtScalar index value => (set_scalar_arg index value s).2
  | XrtBuffer index ptr bytes access => (set_buffer_arg index ptr bytes access s).2
  | XrtStream index => (set_stream_arg index "" s).2
  | XrtWrite => (write_to_device s).2
  | XrtExec => (exec s).2
  | XrtIsFinished => (is_finished s).2
  | XrtFinish => (finish s).2
  | XrtRead => (read_from_device s).2
  | XrtKill => (kill s).2
  end.

Lemma owes_op s o : owes [] s -> owes [] (run_xrt_op s o).
Proof using Type.
  destruct o; cbn [run_xrt_op]; [|apply safe_set_buffer| |apply safe_write|apply safe_exec|apply safe_is_finished|apply safe_finish|apply safe_read|apply safe_kill].
  - by apply safe_modify.
  - apply safe_lift.
Qed.

Lemma owes_ops ops s : owes [] s -> owes [] (fold_left run_xrt_op ops s).
Proof using Type. revert s. induction ops as [|o ops IH]; intros s Hs; [done|]. by apply IH, owes_op. Qed.

(** Opening leaves a device that owes its handles, or nothing. *)
Lemma open_owes path h : out [] h -> let '(r, h') := xrt_open path h in
  match r with Ok d => owes [] (d, h') | Err _ => out [] h' | Panic => False end.
Proof using Type.
  intros Ho. unfold xrt_open. pose proof (prepare_open_spec path h Ho) as Hp. destruct (prepare_open path (tt, h)) as [r [u h1]]. destruct Hp as [Hn Ho1]. destruct r as [[[[xclbin meta] bdf] cpath]|e|]; [|done|done].
  pose proof (load_device_spec 64 meta bdf cpath 0 h1 Ho1 ltac:(lia) ltac:(lia)) as Hl. destruct (load_device 64 meta bdf cpath 0 h1) as [r1 h2]. destruct r1 as [d|e|]; [|done|done].
  destruct Hl as [Hs [device ->]]. apply (setup_owes xclbin) in Hs. pose proof (setup_fine xclbin (candidate meta device, h2)) as Hf. destruct (xrt_setup xclbin (candidate meta device, h2)) as [r2 [d2 h3]]. cbn [fst snd] in Hs, Hf.
  destruct r2 as [[]|e|]; [done| |done]. destruct Hs as [_ Ho2]. cbn [app fst snd] in Ho2. rewrite <- (List.app_nil_r (handles d2)) in Ho2. destruct (drop_releases [] d2 h3 Ho2) as (m & _ & Ed & Ho3).
  set (h4 := snd (snd (xrt_drop _))). assert (h4 = h3 ++ closing (handles_in m d2)) as -> by exact (f_equal (fun r => r.2.2) Ed). exact Ho3.
Qed.

(** C11: whatever XRT answers, each handle it hands out is given back exactly once.
    Opening never panics, and one that fails leaves nothing out.  A device
    that was opened, after any operations, successful or not, has the only handles
    out; dropping it gives back exactly these: the graph and its controller, the
    run, each buffer once, the kernel, and the board last. *)
Theorem xrt_handles_released path ops :
  match xrt_open path [] with
  | (Ok d, h) =>
      let s := fold_left run_xrt_op ops (d, h) in
      given s.2 ≡ₚ given_back s.2 ++ handles s.1 /\
      exists buffers, buffers ≡ₚ xd_buffers s.1 /\
        drop_device s = (Ok tt, (s.1, s.2 ++ closing (handles_in buffers s.1))) /\
        given (drop_device s).2.2 ≡ₚ given_back (drop_device s).2.2
  | (Err _, h) => given h ≡ₚ given_back h
  | (Panic, _) => False
  end.
Proof using Type.
  assert (Hnil : forall h, out [] h -> given h ≡ₚ given_back h) by (intros h; unfold out; by rewrite List.app_nil_r).
  pose proof (open_owes path [] ltac:(constructor)) as Ho. destruct (xrt_open path []) as [[d|e|] h]; [|by apply Hnil|done]. cbv zeta. apply (owes_ops ops) in Ho.
  destruct (fold_left run_xrt_op ops (d, h)) as [d1 h1]. destruct Ho as [_ Ho]. cbn [app fst snd] in *. split; [exact Ho|]. rewrite <- (List.app_nil_r (handles d1)) in Ho.
  destruct (drop_releases [] d1 h1 Ho) as (m & Hm & Ed & Ho2). exists m. split; [done|]. change (drop_device (d1, h1)) with (xrt_drop (d1, h1)). rewrite Ed. split; [done|]. by apply Hnil.
Qed.
End life.

(** * Concrete runs *)

Section runs.
(** An xclbin with one section in its table of contents. *)
Definition xclbin_with_section (kind : Z) (payload : list Z) : list Z :=
  let header := [(0%nat, MAGIC); (448%nat, le_bytes 4 1); (456%nat, le_bytes 4 kind); (480%nat, le_bytes 8 496); (488%nat, le_bytes 8 (Z.of_nat (length payload)))] in
  fold_left (fun m x => splice m x.1 x.2) header (replicate 496 0) ++ payload.

Example embedded_metadata_ends_with_its_section :
  extract_embedded_xml (xclbin_with_section 2 (bytes_of "<project><kernel/></project>") ++ bytes_of "<kernel trailing>") = Ok "<project><kernel/></project>" /\
  extract_embedded_xml (xclbin_with_section 25 (bytes_of "<kernel")) = metadata "EMBEDDED_METADATA section not found in xclbin".
Proof. by vm_compute. Qed.

Example scalars_by_type :
  va_scalar 0 "float" (le_bytes 4 1069547520) = Ok (VaDouble (F64.div (F64.of_Z 3) (F64.of_Z 2))) /\ va_scalar 0 "int" (le_bytes 4 (2 ^ 32 - 3)) = Ok (VaU32 4294967293) /\
  va_scalar 0 "uint16_t" [1; 2] = Ok (VaU64 513) /\ va_scalar 0 "unsigned int" [9; 0; 0; 0] = Ok (VaU32 9).
Proof. by vm_compute. Qed.

(** *** The program of a graph *)

Definition looping : AieGraph := mkAieGraph "tapa_aie_forever" true [8196; 4; 8196] [mkRtp "g.n" 3 8 8160 8160].
Definition bound : bmap Z (list Z) := [(3, [1; 2])].

Definition program (graph : AieGraph) (reset : bool) : option (list (Z * Z)) :=
  match start_program graph bound reset with Ok bytes => decode bytes | _ => None end.

Lemma start_program_exact_witness : exists bytes addresses, start_program looping bound true = Ok bytes /\ In 4 addresses /\ ~ In 8160 addresses /\
  decode bytes = Some [(CORE_CONTROL, 0); (8160, 513); (8164, 0); (4, U32_MAX); (8196, U32_MAX); (CORE_CONTROL, 1)].
Proof.
  assert (Hp : program looping true = Some [(CORE_CONTROL, 0); (8160, 513); (8164, 0); (4, U32_MAX); (8196, U32_MAX); (CORE_CONTROL, 1)]) by (by vm_compute). unfold program in Hp.
  destruct (start_program looping bound true) as [bytes|e|] eqn:E; [|discriminate Hp|discriminate Hp]. exists bytes.
  assert (Hb : forall i v, BMap.get i bound = Some v -> Forall is_byte v).
  { intros i v Hg. apply BMap.get_In in Hg. destruct Hg as [[= <- <-]|[]]. repeat constructor. all: unfold is_byte; lia. }
  destruct (start_program_exact looping bound true bytes ltac:(repeat constructor; unfold U32_MAX; simpl; lia) Hb E) as (ps & addresses & _ & _ & _ & Ha & _ & Hd & _ & _).
  exists addresses. split; [reflexivity|]. split; [apply Ha; simpl; tauto|]. split; [exact (Hd (mkRtp "g.n" 3 8 8160 8160) (or_introl eq_refl))|exact Hp].
Defined.

(** Only the first address of a parameter is checked: one of two words may run into
    the next parameter, whose value it overwrites or which overwrites it. *)
Example wide_parameters_overlap :
  program (mkAieGraph "tapa_aie" false [4] [mkRtp "a" 3 8 8160 8160; mkRtp "b" 3 4 8164 8164]) false
  = Some [(8160, 513); (8164, 0); (8164, 513); (4, 1); (CORE_CONTROL, 1)].
Proof. by vm_compute. Qed.

(** *** A device *)

(** The first board refuses the xclbin; handles are numbered by the history. *)
#[local] Instance two_boards : Env := {
  respond e h := match e return answer e with
    | Now => slept h
    | ReadFile _ => inr (Str.utf8 (xclbin_with_section 2 (bytes_of "<project><kernel/></project>")))
    | XrtApi c => match creates c, c with
        | Some _, _ => (Z.of_nat (length h) + 1, [])
        | None, DeviceLoadXclbinFile _ _ => (if existsb (fun e => match e with XrtApi (DeviceOpen 1) => true | _ => false end) h then 0 else -2, [])
        | None, (RunWait _ | RunState _) => (RUN_COMPLETED, [])
        | None, BoRead _ n => (0, replicate (Z.to_nat n) 0)
        | None, _ => (0, [])
        end
    | e => default_answer e
    end;
}.

#[local] Instance in_order : HashOrder := {| hash_iter A h l := l; hash_iter_perm A h l := Permutation_refl l |}.

#[local] Instance plain_metadata : XrtLibraries := {
  xml_events _ := [KernelStart [("name", "vadd")] None
    [ArgElement [("name", "b"); ("id", "2"); ("addressQualifier", "1")]; ArgElement [("name", "n"); ("id", "0"); ("addressQualifier", "0"); ("type", "int")];
     ArgElement [("name", "a"); ("id", "1"); ("addressQualifier", "1")]]];
  json_from_slice _ := inl "not JSON";
  bootstrap_emulation _ _ := inr tt;
  load_api _ := inr tt;
}.

#[local] Instance plain_text : CosimText := {| json_from_str _ := inl "not JSON"; debug_str s := s |}.

Definition session (ops : list XrtOp) : option (XrtDevice * history) :=
  match xrt_open "vadd.xclbin" [] with (Ok d, h) => Some (fold_left run_xrt_op ops (d, h)) | _ => None end.

Definition invocation : list XrtOp :=
  [XrtScalar 0 [7]; XrtBuffer 1 4096 100 ReadOnly; XrtBuffer 2 8200 16 WriteOnly; XrtBuffer 1 4096 64 ReadOnly; XrtWrite; XrtExec; XrtFinish; XrtRead].

Definition calls (h : history) : list ApiCall := omap (fun e => match e with XrtApi c => Some c | _ => None end) h.
Definition is_wait (c : ApiCall) : bool := match c with RunWait _ => true | _ => false end.

(** Two boards, the kernel, its run and three buffers. *)
Example handles_of_a_session : match session invocation with
  | Some s => VrtCtrl.is_finished_state (xd_state s.1) = true /\ length (given s.2) = 7%nat /\ length (handles s.1) = 5%nat /\ length (given_back (drop_device s).2.2) = 7%nat
  | None => False
  end.
Proof. vm_compute. repeat split. Qed.

(** Nothing keeps an argument from being bound again while the kernel runs: the
    buffer it works on is freed. *)
Example rebinding_frees_a_buffer_in_use : match session (take 6 invocation), session (take 6 invocation ++ [XrtBuffer 1 4096 64 ReadOnly]) with
  | Some before, Some s => VrtCtrl.is_running (xd_state s.1) = true /\ existsb is_wait (calls s.2) = false /\
      option_map bb_bo (BMap.get 1 (xd_buffers before.1)) = Some 18 /\ last (calls s.2) = Some (BoFree 18)
  | _, _ => False
  end.
Proof. vm_compute. repeat split. Qed.

(** A kernel that is killed is reported as finished, but never told to stop nor waited
    for before its buffers are freed. *)
Example killed_kernel_runs_on : match session (take 6 invocation ++ [XrtKill]) with
  | Some s => (is_finished s).1 = Ok true /\ existsb is_wait (calls (drop_device s).2.2) = false /\ last (calls s.2) = Some (RunStart 10)
  | None => False
  end.
Proof. vm_compute. repeat split. Qed.
End runs.
